(* ===== verification/_CoqProject ===== *)
-Q . S2P
Prelude.v
Host.v
Tables.v
ToyHost.v
Flags.v
Translate.v
Poll.v
EpollSets.v
EpollWait.v
EpollPairs.v
NtPath.v
MkNtPath.v
CmdLine.v
ExeSearch.v
Console.v
Signal.v
Wait.v
Termios.v
Inotify.v
Realpath.v
PfsText.v
SysFs.v
ProcFs.v
ProcOpen.v
Read.v
Open.v
SockHost.v
ToySock.v
SockOpt.v
Packet.v
Cmsg.v
Socket.v
Memory.v
Futex.v
Timer.v
IfName.v
NtOpen.v
Fields.v
PidText.v
NtProc.v
DirStream.v
DescribeFds.v
Materialize.v
Dmi.v
SysWalk.v
NetTab.v
XnuNet.v
UncShare.v
SysInfo.v
XnuProc.v
ForkNt.v
ForkChild.v
FileCalls.v
Dladdr.v
Spawn.v
Startup.v
ProcRoot.v
XnuCalls.v
