(* ===== verification/Prelude.v ===== *)
(** * rust-ape: the Linux-personality shim, verified

    rust-ape lets a Linux-targeted Rust program run as one binary on Linux,
    macOS, the BSDs and Windows, over Cosmopolitan libc.  What makes it work
    is the shim of [src/shim]: C replacements of libc entry points that speak
    Linux's numbers and structures to the program and the host's to cosmo, and
    that emulate what a host does not have (epoll, inotify, /proc and /sys,
    path forms).  This library models that shim as pure functions and small
    state monads, and proves the contracts its callers rely on.

    ** The parts

    The program calls a shim entry point; the entry point translates its
    arguments through a table of tables.h, calls the host, and translates the
    answer and errno back.  Descriptor-based emulations (epoll, pipes,
    inotify, /proc) keep static tables indexed or searched by descriptor; read,
    write, close and dup call into them so that the tables follow the
    descriptors.  Path-based calls go through the NT path converter.

    [Prelude]     errno values, C results, the scope, generic list, option
                  and integer lemmas, the hint databases and tactics.
    [Host]        the state monad of a call, and the class of host
                  constants, which are parameters: cosmo assigns them per host.
    [Tables]      the tables of tables.h, row by row.
    [ToyHost]     one concrete host, at which the theorems' witnesses run.
    [Flags]       bit-set translation, shared by every flags argument.

    [Translate]   errno.c, clock.c, rlimit.c.
    [Poll]        poll.c: poll and ppoll, chunks, the polled phase of NT.
    [EpollSets]   epoll.c: the interest lists and epoll_ctl, dup, re-arming.
    [EpollWait]   epoll.c: emu_wait.
    [EpollPairs]  epoll.c and io.c: pipe pairs, write and writev.
    [NtPath], [MkNtPath]  mkntpath.c, mkntpathat.c: registry of shares,
                  normalisers, conversion of a path to NT's form.
    [CmdLine]     mkntcmdline.c: argv to a Windows command line.
    [ExeSearch]   commandv.c, suffix.c: $PATH search, suffix retries, exec.
    [Console]     console.c: the escape scanner and mouse policy.
    [Signal], [Wait], [Termios], [Inotify], [Realpath]
                  signal.c, wait.c, termios.c, inotify.c, realpath.c.
    [PfsText], [SysFs], [ProcFs], [ProcOpen]
                  the emulated /proc and /sys: procfs/core/tree.c (the path
                  model), links.c, virtdir.c, open.c, procfs/sysctl.c and the
                  /sys part of procfs/xnu.c.
    [Read]        read.c: read and readv over explicit buffers.
    [Open]        open.c: open, stat, access, fcntl and the other calls on paths
                  and descriptors; flags both ways.
    [SockHost], [ToySock], [SockOpt], [Cmsg], [Socket], [Packet]
                  socket.c, winsock.c, packet.c: the host's calls as a family
                  with a ledger of what is open and in flight, one host that
                  runs, options and addresses, control messages, the calls,
                  packet sockets.
    [Memory]      mmap.c: mmap, mprotect, madvise, reserve and commit on NT.
    [Futex], [Timer], [IfName]
                  futex.c and ulock.c, timer.c, ifname.c.
    [NtOpen]      open-nt.c, createfileflags.c, close-nt.c, close.c.
    [DirStream]   dirstream.c: the four kinds of directory stream.
    [UncShare]    uncshare.c, getcwd.c: a server's shares as a directory.
    [FileCalls]   rename.c, readlinkat.c, readlinkat-nt.c, ntaccesscheck.c,
                  ftruncate-nt.c, fchdir-nt.c, recv-nt.c, recvfrom-nt.c and the
                  raw calls of xattr.c, mknod.c and pipe.c; the rules by which
                  "closes what it opened" is proved of a call.
    [NtProc], [DescribeFds], [ForkNt], [ForkChild], [Spawn]
                  proc.c, describefds.c, fork-nt.c, ntspawn.c: children on NT,
                  the descriptors they get, the copied address space, the
                  program and command line that are started.
    [Dladdr], [Startup]
                  dladdr.c; hostid.c, uname.c, getgroups.c, comm.c, umask.c,
                  environ.c, cosmosdrive.c.
    [Fields], [PidText], [SysInfo], [NetTab], [Dmi], [SysWalk]
                  the generators on Windows: numbers in fields, procfs/pid.c,
                  ntapi.c and sysinfo.c, net.c and fd.c, dmi.c, power.c and
                  core/sysfs.c.
    [XnuCalls], [XnuProc], [XnuNet]
                  the generators on macOS: xnuapi.c and xnu.c.
    [ProcRoot], [Materialize]
                  core/tree.c's buffers and root, core/materialize.c: the files
                  kept on disk for callers that want a real path.
    Names follow the C source; [__ape_shim_foo] is [shim_foo] or [foo], a
    handler's inner loops are separate definitions named after what they do.
    PROJECT.json maps each definition to its lines.

    ** How code is represented

    C ints that stay in range are [Z]; wrap-around is written out ([u32],
    [s32]) where it matters.  Bit sets use [Z.land], [Z.lor], [Z.ldiff].  A C
    string is a list of byte values; [s.[i]] reads 0 past the end, the
    terminator.  A call that fails answers [Err e], -1 with errno [e].  Static
    tables are lists of records, and a critical section is one function on the
    table.  Host calls are operations of a type class over a world [W]; a
    theorem holds for every instance, and its hypotheses state documented
    behaviour of the host.  Where other threads may run, the world carries the
    table and the host call may change it.

    ** What the theorems show

    Translation: the errno sentinel protocol refines one Linux-coded errno;
    poll folds twins, restores its argument and ends.
    Epoll: epoll_ctl refines a finite map; every table the calls reach, waiting
    included, is sound; a round hands out what is ready, in order, within
    [maxevents]; ONESHOT is reported once per successful arming with a single
    waiter; re-arming is seen; a recorded pipe is found by its write end.
    Paths: share paths convert to their resolved form, collapsed shares are
    restored, the share normaliser is stack resolution, realpath is canonical.
    Processes: quote-free argument vectors are read back from the command
    line by the rules Windows documents, commandv answers the first executable,
    wait and waitid report the child's event, sigaction refines a table of
    handlers.
    Consoles: a private-mode sequence is applied however it is cut; of
    termios, what the host took reads back.
    Files: inotify reports exactly the difference of two listings; the views
    of /proc (listing, lstat, readlink, open) agree with each other.
    Reading and sockets: a read hands over the bytes taken, in order; a vector
    read stays inside the buffers; open flags and control messages read back;
    socketpair leaks nothing on any failure.
    Memory and waiting: mprotect commits and protects all of a range or
    reports an error; the futex operations are the manual page's.
    Windows files: what an open does to a file is what POSIX says of its
    flags, unless the path is a link that dangles; the access check, rename
    and readlink close what they open, whatever fails, unless they trap; a
    spawn starts the program or the interpreter its first line names, hands
    its handles over and closes the rest.
    Directories: an archive's directory lists each child once, told positions
    lead back, a listing of shares belongs to the server it is asked for and
    the working directory below a server resolves to its own text.
    Children: the tracker's lists agree under every interleaving, every child
    is looked at within a bounded number of rounds, its use is counted once;
    an inherited descriptor is read back; a fork that answers has copied every
    private page and the table of maps, and the child that starts shows every
    shared object again.
    /proc and /sys: what a generator emits, each piece below 2^31 bytes,
    reaches the reader whole and is written inside the buffer; texts are
    as recent as their throttle; Linux's readers get the socket tables, maps,
    the stat line, the firmware tables and the processor topology back, and
    the two ways a text is made (from disk or from memory, page by page or at
    once, of any process or of oneself) agree.
    Addresses: the shim's reader of maps, over the shim's writer of maps, finds
    the file an address belongs to, however the text is cut.
    ** Fuel

    Loops with a decreasing measure are structural or carry fuel equal to that
    measure, and a lemma shows that the fuel given at the call site is enough
    (path loops: the length of the path; realpath: bounded by links times
    buffer size).  Loops that wait for the host (poll, epoll_wait) return
    [option]; the termination theorems say under which host behaviour
    they answer.

    ** Not modelled

    dlmalloc.c is vendored, a third party's allocator.  layouts.c, scanf.c,
    stack_chk.c and the probes are checks at build time, forwarders of
    variable arguments and one constant.  Of fork-nt.c the start-up
    of the child's run-time is left out, and of uncshare.c the walk that reads
    the directories to be removed is given their entries; of getcwd.c only the NT
    call is the shim's own.  The load averages are doubles and come in as their
    text.  Mutexes are modelled by the atomicity of the sections they protect,
    not as objects, and signal masks around calls are left out.  Struct layouts
    are taken as layouts.c asserts them.  The Rust tools around the shim
    (xtask, the ape crate, patches) do not run in the program.  PROJECT.json
    lists each part.

    ** Order of the library

    The epoll tables, path conversion and translation came first, as every
    other file leans on them; then the file and socket calls, then processes
    and the generators of /proc, then the small files.  What could follow is a
    joint model of two processes sharing a pipe across [Spawn], [DescribeFds]
    and [EpollPairs]. *)
From Stdlib Require Import ZArith Lia Ascii String Btauto.
From stdpp Require Export base tactics numbers list list_numbers option gmap strings.

#[global] Open Scope Z_scope.
Declare Scope shim_scope.
Delimit Scope shim_scope with shim.
#[global] Open Scope shim_scope.

(** ** Host errors

    Inside the shim an errno is one of cosmo's run-time constants and the
    code only ever compares it with a name, so it is modelled by its name;
    [EHOST n] is a host code the shim has no name for. *)
Inductive errno :=
  | EPERM | ENOENT | EINTR | EBADF | EAGAIN | EWOULDBLOCK | ENOMEM | EACCES
  | EFAULT | EEXIST | ENOTDIR | EINVAL | EMFILE | ENOSPC | EPIPE
  | ENAMETOOLONG | ENOSYS | ELOOP | ENOTSOCK | EILSEQ | ENODEV
  | EADDRNOTAVAIL | ENOTSUP | EISDIR | EOPNOTSUPP | ECONNABORTED
  | EPROTONOSUPPORT | ESOCKTNOSUPPORT | EPROTOTYPE | ERANGE | ENXIO
  | ETIMEDOUT | ENOTEMPTY | ESRCH | EIO | ENOTTY | E2BIG | ENOEXEC | ETXTBSY
  | EHOST (code : Z).

#[export] Instance errno_eq_dec : EqDecision errno.
Proof. solve_decision. Defined.

(** A C function that answers a value, or [-1] (or [NULL]) with errno set. *)
Inductive res (A : Type) :=
  | Ok (a : A)
  | Err (e : errno).
Arguments Ok {A} a.
Arguments Err {A} e.

#[export] Instance res_eq_dec {A} `{EqDecision A} : EqDecision (res A).
Proof. solve_decision. Defined.

(** ** Flag words

    [has x f] is C's truth of [x & f]; [x & ~f] is [Z.ldiff x f]. *)
Definition has (x f : Z) : bool := negb (Z.land x f =? 0).

(** Closes an equality between words built from [Z.land], [Z.lor],
    [Z.ldiff] and shifts by constants, bit by bit. *)
Ltac bitwise :=
  apply Z.bits_inj'; intros ?i ?Hi;
  repeat first
    [ rewrite Z.land_spec | rewrite Z.lor_spec | rewrite Z.ldiff_spec
    | rewrite Z.bits_0 ];
  btauto.

Lemma has_0_r x : has x 0 = false.
Proof. unfold has. by rewrite Z.land_0_r. Qed.

Lemma has_0_l f : has 0 f = false.
Proof. unfold has. by rewrite Z.land_0_l. Qed.

Lemma has_true x f : has x f = true <-> Z.land x f <> 0.
Proof. unfold has. rewrite negb_true_iff, Z.eqb_neq. done. Qed.

Lemma has_false x f : has x f = false <-> Z.land x f = 0.
Proof. unfold has. rewrite negb_false_iff, Z.eqb_eq. done. Qed.

Lemma has_lor_l x y f : has (Z.lor x y) f = has x f || has y f.
Proof.
  unfold has. rewrite Z.land_lor_distr_l.
  destruct (Z.land x f =? 0) eqn:Hx, (Z.land y f =? 0) eqn:Hy;
    rewrite ?Z.eqb_eq, ?Z.eqb_neq in *; simpl; rewrite ?Hx, ?Hy;
    try reflexivity; apply negb_true_iff, Z.eqb_neq; rewrite Z.lor_eq_0_iff;
    naive_solver.
Qed.

Lemma has_lor_r x f g : has x (Z.lor f g) = has x f || has x g.
Proof.
  unfold has. rewrite !(Z.land_comm x).
  fold (has (Z.lor f g) x). by rewrite has_lor_l.
Qed.

Create Rewrite HintDb flags.
#[export] Hint Rewrite has_0_l has_0_r has_lor_l has_lor_r : flags.

(** ** C strings and arrays

    A C string is the list of its bytes, each a [Z] between 1 and 255,
    without the terminating NUL; reading at the end gives the NUL. A
    [char16_t] string is the list of its 16-bit units. *)
Abbreviation cstr := (list Z).

Definition byte_at (s : list Z) (i : nat) : Z := nth i s 0.

Notation "s .[ i ]" := (byte_at s i)
  (at level 1, left associativity, format "s .[ i ]") : shim_scope.

(** The bytes of a string literal. *)
Definition bytes (s : string) : cstr :=
  map (fun c => Z.of_nat (nat_of_ascii c)) (list_ascii_of_string s).

(** ** Tables searched in order

    The shim's tables are arrays scanned from slot 0 for the first match. *)
Fixpoint find_index {A} (p : A -> bool) (l : list A) : option nat :=
  match l with
  | [] => None
  | x :: l' => if p x then Some 0%nat else S <$> find_index p l'
  end.

Lemma find_index_Some {A} (p : A -> bool) l i :
  find_index p l = Some i ->
  exists x, l !! i = Some x /\ p x = true.
Proof.
  revert i. induction l as [|x l IH]; intros i Hf; simpl in Hf; [done|].
  destruct (p x) eqn:Hp; [by simplify_eq; exists x|].
  destruct (find_index p l) as [j|]; simplify_eq/=. by apply IH.
Qed.

Lemma find_index_first {A} (p : A -> bool) l i j x :
  find_index p l = Some i -> (j < i)%nat -> l !! j = Some x -> p x = false.
Proof.
  revert i j. induction l as [|y l IH]; intros i j Hf Hj Hx; simpl in Hf; [done|].
  destruct (p y) eqn:Hp; [simplify_eq; lia|].
  destruct (find_index p l) as [k|] eqn:Hk; simplify_eq/=.
  destruct j as [|j]; simplify_eq/=; [done|].
  eapply IH; eauto. lia.
Qed.

Lemma find_index_None {A} (p : A -> bool) l :
  find_index p l = None <-> Forall (fun x => p x = false) l.
Proof.
  induction l as [|x l IH]; simpl; [by split|].
  rewrite Forall_cons. destruct (p x); [split; naive_solver|].
  destruct (find_index p l); simpl; naive_solver.
Qed.

(** [a[i] = a[n - 1]; n--], the removal every table of the shim uses. *)
Definition swap_remove {A} (i : nat) (l : list A) : list A :=
  match last l with
  | Some x => take (length l - 1) (<[i := x]> l)
  | None => l
  end.

Lemma swap_remove_perm {A} (l : list A) i x :
  l !! i = Some x -> Permutation l (x :: swap_remove i l).
Proof.
  intros Hi. unfold swap_remove.
  destruct (last l) as [y|] eqn:Hl.
  2:{ apply last_None in Hl. by subst. }
  apply last_Some in Hl as [l' ->].
  rewrite length_app. simpl. replace (length l' + 1 - 1)%nat with (length l') by lia.
  apply lookup_app_Some in Hi as [Hi|[Hlen Hi]].
  - assert (i < length l')%nat by (by eapply lookup_lt_Some).
    rewrite insert_app_l by done.
    rewrite take_app_length' by (by rewrite length_insert).
    rewrite insert_take_drop by done.
    rewrite <- (take_drop_middle l' i x Hi) at 1.
    solve_Permutation.
  - destruct (i - length l')%nat eqn:?; simplify_eq/=.
    replace i with (length l' + 0)%nat by lia.
    rewrite insert_app_r. simpl. rewrite take_app_length' by done.
    solve_Permutation.
Qed.

Lemma length_swap_remove {A} (l : list A) i :
  (i < length l)%nat -> length (swap_remove i l) = (length l - 1)%nat.
Proof.
  intros Hi. destruct (lookup_lt_is_Some_2 l i Hi) as [x Hx].
  pose proof (Permutation_length (swap_remove_perm l i x Hx)). simpl in *. lia.
Qed.

Lemma take_swap_remove {A} (l : list A) i :
  (i < length l)%nat -> take i (swap_remove i l) = take i l.
Proof.
  intros Hi. unfold swap_remove. destruct (last l) as [y|] eqn:Hl; [|done].
  rewrite take_take, Nat.min_l by lia. by rewrite take_insert_ge.
Qed.

(** Two facts about a list whose keys are distinct, used by every table
    keyed by a descriptor. *)
Lemma NoDup_fmap_lookup_inj {A B} (f : A -> B) (l : list A) i j x y :
  NoDup (f <$> l) -> l !! i = Some x -> l !! j = Some y -> f x = f y -> i = j.
Proof.
  intros Hnd Hx Hy Hf. eapply (NoDup_lookup _ _ _ (f x) Hnd).
  - rewrite list_lookup_fmap, Hx. done.
  - rewrite list_lookup_fmap, Hy, Hf. done.
Qed.

Lemma fmap_insert_same {A B} (f : A -> B) (l : list A) i x y :
  l !! i = Some x -> f y = f x -> f <$> <[i := y]> l = f <$> l.
Proof.
  intros Hi Hf. rewrite list_fmap_insert, Hf. apply list_insert_id.
  rewrite list_lookup_fmap, Hi. done.
Qed.

Lemma existsb_eqb_elem_of (x : Z) l : existsb (Z.eqb x) l = true <-> x ∈ l.
Proof.
  rewrite existsb_exists. split.
  - intros (y & Hy%list_elem_of_In & ->%Z.eqb_eq). done.
  - intros Hx%list_elem_of_In. exists x. by rewrite Z.eqb_refl.
Qed.

(** ** Machine integers *)

Definition u32 (x : Z) : Z := x mod 2 ^ 32.
Definition s32 (x : Z) : Z := (x + 2 ^ 31) mod 2 ^ 32 - 2 ^ 31.

Lemma s32_small x : - 2 ^ 31 <= x < 2 ^ 31 -> s32 x = x.
Proof. intros. unfold s32. rewrite Z.mod_small; lia. Qed.

Definition s64 (x : Z) : Z := (x + 2 ^ 63) mod 2 ^ 64 - 2 ^ 63.

Lemma s64_small x : - 2 ^ 63 <= x < 2 ^ 63 -> s64 x = x.
Proof. intros. unfold s64. rewrite Z.mod_small; lia. Qed.

(** A flag that is a single bit. *)
Definition is_bit (x : Z) : Prop := exists k, 0 <= k /\ x = 2 ^ k.

Lemma land_bit x k : 0 <= k -> Z.land x (2 ^ k) = if Z.testbit x k then 2 ^ k else 0.
Proof.
  intros Hk. apply Z.bits_inj'. intros i Hi. rewrite Z.land_spec, Z.pow2_bits_eqb by done.
  destruct (Z.eqb_spec k i) as [->|Hne].
  - destruct (Z.testbit x i) eqn:Hx; [by rewrite Z.pow2_bits_true|by rewrite Z.bits_0].
  - rewrite andb_false_r. destruct (Z.testbit x k); [by rewrite Z.pow2_bits_false|by rewrite Z.bits_0].
Qed.

Lemma has_bit x l : is_bit l -> (if has x l then l else 0) = Z.land x l.
Proof.
  intros (k & Hk & ->). unfold has. rewrite land_bit by done.
  destruct (Z.testbit x k); [|done].
  by rewrite (proj2 (Z.eqb_neq _ _)) by (pose proof (Z.pow_pos_nonneg 2 k); lia).
Qed.
