(* ===== verification/Host.v ===== *)
(** * The host under the shim

    What the shim takes from cosmopolitan: its run-time constants, the
    platform test, the monotonic clock, sleeping and polling. All of it is
    code outside the repository, so it is an interface (type classes) that
    the components are parameterised by; [w] is whatever the rest of the
    process and the machine are. The shim's own code is written in the
    state monad below, whose [None] is a loop that ran out of fuel. *)
From S2P Require Import Prelude.

(** cosmo's [extern const] values, by name, and which of them it defines. *)
Class HostConsts := {
  host_const : string -> Z;
  host_defines : string -> bool }.

(** ** A state monad with a fuel limit *)

Definition M (W A : Type) : Type := W -> option (A * W).

#[export] Instance M_ret {W} : MRet (M W) := fun _ a w => Some (a, w).
#[export] Instance M_bind {W} : MBind (M W) := fun _ _ f m w =>
  match m w with Some (a, w') => f a w' | None => None end.

Definition out_of_fuel {W A} : M W A := fun _ => None.
Definition step {W A} (f : W -> A * W) : M W A := fun w => Some (f w).
Definition reads {W A} (f : W -> A) : M W A := fun w => Some (f w, w).
Definition modifies {W} (f : W -> W) : M W unit := fun w => Some (tt, f w).

Lemma bind_Some {W A B} (m : M W A) (f : A -> M W B) w b w' :
  (m ≫= f) w = Some (b, w') <-> exists a w1, m w = Some (a, w1) /\ f a w1 = Some (b, w').
Proof.
  unfold mbind, M_bind. destruct (m w) as [[a w1]|]; naive_solver.
Qed.

Lemma bind_run {W A B} (m : M W A) (f : A -> M W B) w a w1 :
  m w = Some (a, w1) -> (m ≫= f) w = f a w1.
Proof. unfold mbind, M_bind. by intros ->. Qed.

Lemma bind_ext {W A B} (m1 m2 : M W A) (f1 f2 : A -> M W B) w :
  m1 w = m2 w -> (forall a w', f1 a w' = f2 a w') -> (m1 ≫= f1) w = (m2 ≫= f2) w.
Proof. unfold mbind, M_bind. intros -> Hf. by destruct (m2 w) as [[a w']|]. Qed.

Lemma bind_reads {W A B} (g : W -> A) (f : A -> M W B) w :
  (reads g ≫= f) w = f (g w) w.
Proof. done. Qed.

Lemma bind_step {W A B} (g : W -> A * W) (f : A -> M W B) w :
  (step g ≫= f) w = f (fst (g w)) (snd (g w)).
Proof. unfold mbind, M_bind, step. by destruct (g w). Qed.

Lemma bind_modifies {W B} (g : W -> W) (f : unit -> M W B) w :
  (modifies g ≫= f) w = f tt (g w).
Proof. done. Qed.

Lemma run_ret {W A} (a : A) (w : W) : (mret a : M W A) w = Some (a, w).
Proof. done. Qed.

Create Rewrite HintDb run.
#[export] Hint Rewrite @bind_reads @bind_step @bind_modifies @run_ret : run.

(** ** Postconditions

    [post m w Q]: started in [w], [m] ends, and what it answers and leaves
    satisfies [Q]. The rules follow the structure of the program. *)
Definition post {W A} (m : M W A) (w : W) (Q : A -> W -> Prop) : Prop :=
  match m w with Some (a, w') => Q a w' | None => False end.

Lemma post_bind {W A B} (m : M W A) (f : A -> M W B) w Q :
  post m w (fun a w' => post (f a) w' Q) -> post (m ≫= f) w Q.
Proof. unfold post, mbind, M_bind. by destruct (m w) as [[a w']|]. Qed.

Lemma post_ret {W A} (a : A) (w : W) (Q : A -> W -> Prop) : Q a w -> post (mret a) w Q.
Proof. done. Qed.

Lemma post_step {W A} (f : W -> A * W) w (Q : A -> W -> Prop) :
  (let '(a, w') := f w in Q a w') -> post (step f) w Q.
Proof. unfold post, step. by destruct (f w). Qed.

Lemma post_reads {W A} (f : W -> A) w (Q : A -> W -> Prop) : Q (f w) w -> post (reads f) w Q.
Proof. done. Qed.

Lemma post_modifies {W} (f : W -> W) w (Q : unit -> W -> Prop) : Q tt (f w) -> post (modifies f) w Q.
Proof. done. Qed.

Lemma post_impl {W A} (m : M W A) w (P Q : A -> W -> Prop) :
  post m w P -> (forall a w', P a w' -> Q a w') -> post m w Q.
Proof. unfold post. destruct (m w) as [[a w']|]; naive_solver. Qed.

Lemma post_run {W A} (m : M W A) w (Q : A -> W -> Prop) :
  post m w Q <-> exists a w', m w = Some (a, w') /\ Q a w'.
Proof. unfold post. destruct (m w) as [[a w']|]; naive_solver. Qed.

(** A run whose answer was computed. *)
Lemma post_answer {W A} (m : M W A) (w : W) (Q : A -> W -> Prop) a :
  post m w Q -> fst <$> m w = Some a -> exists w', m w = Some (a, w') /\ Q a w'.
Proof.
  intros Hp Ha. unfold post in Hp. destruct (m w) as [[a' w']|]; [|done]. injection Ha as ->. by exists w'.
Qed.

(** ** Polling and time *)

(** struct pollfd *)
Record pollfd := PollFd { pf_fd : Z; pf_events : Z; pf_revents : Z }.

#[export] Instance pollfd_eq_dec : EqDecision pollfd.
Proof. solve_decision. Defined.

(** struct timespec *)
Record timespec := Timespec { tv_sec : Z; tv_nsec : Z }.

#[export] Instance timespec_eq_dec : EqDecision timespec.
Proof. solve_decision. Defined.

(** The host's calls. [h_ppoll] answers the count or an error, with the array
    as the call left it; a NULL timeout is [None]. It may block, so any other
    thread may have run by the time it returns: nothing is assumed here
    about the world it leaves. *)
Class HostPoll (W : Type) := {
  is_windows : bool;
  h_now : W -> Z * W;
  h_nanosleep : timespec -> W -> bool * W;
  h_ppoll : list pollfd -> option timespec -> W -> (res Z * list pollfd) * W;
  h_poll : list pollfd -> Z -> W -> (res Z * list pollfd) * W }.
