(* ===== verification/Tables.v ===== *)
(** * shim/tables.h

    The generated Linux-to-cosmo value tables: the left column is the name
    of cosmo's run-time constant, the right one the value musl bakes into
    the Rust side. A third column is the flag table's "droppable" mark. The
    few values that differ between the two architectures take the
    architecture. *)
From S2P Require Import Prelude.

(** The SHIM_LIN_E* values. *)
Definition SHIM_LIN_ERRNO : list (string * Z) :=
  [ ("EPERM"%string, 1);
    ("ENOENT"%string, 2);
    ("ESRCH"%string, 3);
    ("EINTR"%string, 4);
    ("EIO"%string, 5);
    ("ENXIO"%string, 6);
    ("E2BIG"%string, 7);
    ("ENOEXEC"%string, 8);
    ("EBADF"%string, 9);
    ("ECHILD"%string, 10);
    ("EAGAIN"%string, 11);
    ("ENOMEM"%string, 12);
    ("EACCES"%string, 13);
    ("EFAULT"%string, 14);
    ("ENOTBLK"%string, 15);
    ("EBUSY"%string, 16);
    ("EEXIST"%string, 17);
    ("EXDEV"%string, 18);
    ("ENODEV"%string, 19);
    ("ENOTDIR"%string, 20);
    ("EISDIR"%string, 21);
    ("EINVAL"%string, 22);
    ("ENFILE"%string, 23);
    ("EMFILE"%string, 24);
    ("ENOTTY"%string, 25);
    ("ETXTBSY"%string, 26);
    ("EFBIG"%string, 27);
    ("ENOSPC"%string, 28);
    ("ESPIPE"%string, 29);
    ("EROFS"%string, 30);
    ("EMLINK"%string, 31);
    ("EPIPE"%string, 32);
    ("EDOM"%string, 33);
    ("ERANGE"%string, 34);
    ("EDEADLK"%string, 35);
    ("ENAMETOOLONG"%string, 36);
    ("ENOLCK"%string, 37);
    ("ENOSYS"%string, 38);
    ("ENOTEMPTY"%string, 39);
    ("ELOOP"%string, 40);
    ("ENOMSG"%string, 42);
    ("EIDRM"%string, 43);
    ("ECHRNG"%string, 44);
    ("EL2NSYNC"%string, 45);
    ("EL3HLT"%string, 46);
    ("EL3RST"%string, 47);
    ("ELNRNG"%string, 48);
    ("EUNATCH"%string, 49);
    ("ENOCSI"%string, 50);
    ("EL2HLT"%string, 51);
    ("EBADE"%string, 52);
    ("EBADR"%string, 53);
    ("EXFULL"%string, 54);
    ("ENOANO"%string, 55);
    ("EBADRQC"%string, 56);
    ("EBADSLT"%string, 57);
    ("ENOSTR"%string, 60);
    ("ENODATA"%string, 61);
    ("ENOATTR"%string, 61);
    ("ENOSR"%string, 63);
    ("ENONET"%string, 64);
    ("ENOPKG"%string, 65);
    ("EREMOTE"%string, 66);
    ("ENOLINK"%string, 67);
    ("EADV"%string, 68);
    ("ESRMNT"%string, 69);
    ("ECOMM"%string, 70);
    ("EPROTO"%string, 71);
    ("EMULTIHOP"%string, 72);
    ("EDOTDOT"%string, 73);
    ("EBADMSG"%string, 74);
    ("EOVERFLOW"%string, 75);
    ("ENOTUNIQ"%string, 76);
    ("EBADFD"%string, 77);
    ("EREMCHG"%string, 78);
    ("ELIBACC"%string, 79);
    ("ELIBBAD"%string, 80);
    ("ELIBSCN"%string, 81);
    ("ELIBMAX"%string, 82);
    ("ELIBEXEC"%string, 83);
    ("EILSEQ"%string, 84);
    ("ERESTART"%string, 85);
    ("ESTRPIPE"%string, 86);
    ("EUSERS"%string, 87);
    ("ENOTSOCK"%string, 88);
    ("EDESTADDRREQ"%string, 89);
    ("EMSGSIZE"%string, 90);
    ("EPROTOTYPE"%string, 91);
    ("ENOPROTOOPT"%string, 92);
    ("EPROTONOSUPPORT"%string, 93);
    ("ESOCKTNOSUPPORT"%string, 94);
    ("EOPNOTSUPP"%string, 95);
    ("ENOTSUP"%string, 95);
    ("EPFNOSUPPORT"%string, 96);
    ("EAFNOSUPPORT"%string, 97);
    ("EADDRINUSE"%string, 98);
    ("EADDRNOTAVAIL"%string, 99);
    ("ENETDOWN"%string, 100);
    ("ENETUNREACH"%string, 101);
    ("ENETRESET"%string, 102);
    ("ECONNABORTED"%string, 103);
    ("ECONNRESET"%string, 104);
    ("ENOBUFS"%string, 105);
    ("EISCONN"%string, 106);
    ("ENOTCONN"%string, 107);
    ("ESHUTDOWN"%string, 108);
    ("ETOOMANYREFS"%string, 109);
    ("ETIMEDOUT"%string, 110);
    ("ETIME"%string, 62);
    ("ECONNREFUSED"%string, 111);
    ("EHOSTDOWN"%string, 112);
    ("EHOSTUNREACH"%string, 113);
    ("EALREADY"%string, 114);
    ("EINPROGRESS"%string, 115);
    ("ESTALE"%string, 116);
    ("EUCLEAN"%string, 117);
    ("ENOTNAM"%string, 118);
    ("ENAVAIL"%string, 119);
    ("EISNAM"%string, 120);
    ("EREMOTEIO"%string, 121);
    ("EDQUOT"%string, 122);
    ("ENOMEDIUM"%string, 123);
    ("EMEDIUMTYPE"%string, 124);
    ("ECANCELED"%string, 125);
    ("ENOKEY"%string, 126);
    ("EKEYEXPIRED"%string, 127);
    ("EKEYREVOKED"%string, 128);
    ("EKEYREJECTED"%string, 129);
    ("EOWNERDEAD"%string, 130);
    ("ENOTRECOVERABLE"%string, 131);
    ("ERFKILL"%string, 132);
    ("EHWPOISON"%string, 133) ].

Definition lin_errno (name : string) : Z :=
  default 0 (snd <$> List.find (fun row => String.eqb (fst row) name) SHIM_LIN_ERRNO).

(** SHIM_ERRNO_TABLE: the rows, in the order the translators scan them. *)
Definition SHIM_ERRNO_TABLE : list (string * Z) :=
  map (fun name => (name, lin_errno name))
  [ "EPERM"%string; "ENOENT"%string; "ESRCH"%string; "EINTR"%string;
    "EIO"%string; "ENXIO"%string; "E2BIG"%string; "ENOEXEC"%string;
    "EBADF"%string; "ECHILD"%string; "EAGAIN"%string; "ENOMEM"%string;
    "EACCES"%string; "EFAULT"%string; "ENOTBLK"%string; "EBUSY"%string;
    "EEXIST"%string; "EXDEV"%string; "ENODEV"%string; "ENOTDIR"%string;
    "EISDIR"%string; "EINVAL"%string; "ENFILE"%string; "EMFILE"%string;
    "ENOTTY"%string; "ETXTBSY"%string; "EFBIG"%string; "ENOSPC"%string;
    "ESPIPE"%string; "EROFS"%string; "EMLINK"%string; "EPIPE"%string;
    "EDOM"%string; "ERANGE"%string; "EDEADLK"%string; "ENAMETOOLONG"%string;
    "ENOLCK"%string; "ENOSYS"%string; "ENOTEMPTY"%string; "ELOOP"%string;
    "ENOMSG"%string; "EIDRM"%string; "ECHRNG"%string; "EL2NSYNC"%string;
    "EL3HLT"%string; "EL3RST"%string; "ELNRNG"%string; "EUNATCH"%string;
    "ENOCSI"%string; "EL2HLT"%string; "EBADE"%string; "EBADR"%string;
    "EXFULL"%string; "ENOANO"%string; "EBADRQC"%string; "EBADSLT"%string;
    "ENOSTR"%string; "ENODATA"%string; "ENOATTR"%string; "ENOSR"%string;
    "ENONET"%string; "ENOPKG"%string; "EREMOTE"%string; "ENOLINK"%string;
    "EADV"%string; "ESRMNT"%string; "ECOMM"%string; "EPROTO"%string;
    "EMULTIHOP"%string; "EDOTDOT"%string; "EBADMSG"%string; "EOVERFLOW"%string;
    "ENOTUNIQ"%string; "EBADFD"%string; "EREMCHG"%string; "ELIBACC"%string;
    "ELIBBAD"%string; "ELIBSCN"%string; "ELIBMAX"%string; "ELIBEXEC"%string;
    "EILSEQ"%string; "ERESTART"%string; "ESTRPIPE"%string; "EUSERS"%string;
    "ENOTSOCK"%string; "EDESTADDRREQ"%string; "EMSGSIZE"%string; "EPROTOTYPE"%string;
    "ENOPROTOOPT"%string; "EPROTONOSUPPORT"%string; "ESOCKTNOSUPPORT"%string; "EOPNOTSUPP"%string;
    "ENOTSUP"%string; "EPFNOSUPPORT"%string; "EAFNOSUPPORT"%string; "EADDRINUSE"%string;
    "EADDRNOTAVAIL"%string; "ENETDOWN"%string; "ENETUNREACH"%string; "ENETRESET"%string;
    "ECONNABORTED"%string; "ECONNRESET"%string; "ENOBUFS"%string; "EISCONN"%string;
    "ENOTCONN"%string; "ESHUTDOWN"%string; "ETOOMANYREFS"%string; "ETIMEDOUT"%string;
    "ETIME"%string; "ECONNREFUSED"%string; "EHOSTDOWN"%string; "EHOSTUNREACH"%string;
    "EALREADY"%string; "EINPROGRESS"%string; "ESTALE"%string; "EUCLEAN"%string;
    "ENOTNAM"%string; "ENAVAIL"%string; "EISNAM"%string; "EREMOTEIO"%string;
    "EDQUOT"%string; "ENOMEDIUM"%string; "EMEDIUMTYPE"%string; "ECANCELED"%string;
    "ENOKEY"%string; "EKEYEXPIRED"%string; "EKEYREVOKED"%string; "EKEYREJECTED"%string;
    "EOWNERDEAD"%string; "ENOTRECOVERABLE"%string; "ERFKILL"%string; "EHWPOISON"%string ].

(** SHIM_OFLAG_TABLE *)
Definition SHIM_OFLAG_TABLE (x86_64 : bool) : list (string * Z * bool) :=
  [ ("O_CREAT"%string, 64, false);
    ("O_EXCL"%string, 128, false);
    ("O_TRUNC"%string, 512, false);
    ("O_APPEND"%string, 1024, false);
    ("O_NONBLOCK"%string, 2048, false);
    ("O_CLOEXEC"%string, 524288, false);
    ("O_DIRECTORY"%string, (if x86_64 then 65536 else 16384), false);
    ("O_NOFOLLOW"%string, (if x86_64 then 131072 else 32768), false);
    ("O_PATH"%string, 2097152, true);
    ("O_DSYNC"%string, 4096, false);
    ("O_NOCTTY"%string, 256, true);
    ("O_ASYNC"%string, 8192, true);
    ("O_DIRECT"%string, (if x86_64 then 16384 else 65536), true);
    ("O_NOATIME"%string, 262144, true) ].

(** SHIM_POLL_TABLE *)
Definition SHIM_POLL_TABLE : list (string * Z) :=
  [ ("POLLIN"%string, 1);
    ("POLLPRI"%string, 2);
    ("POLLOUT"%string, 4);
    ("POLLERR"%string, 8);
    ("POLLHUP"%string, 16);
    ("POLLNVAL"%string, 32);
    ("POLLRDNORM"%string, 64);
    ("POLLRDBAND"%string, 128);
    ("POLLWRNORM"%string, 256);
    ("POLLWRBAND"%string, 512);
    ("POLLRDHUP"%string, 8192) ].

(** SHIM_CLOCK_TABLE *)
Definition SHIM_CLOCK_TABLE : list (string * Z) :=
  [ ("SHIM_FIX_CLOCK_REALTIME"%string, 0);
    ("CLOCK_MONOTONIC"%string, 1);
    ("CLOCK_PROCESS_CPUTIME_ID"%string, 2);
    ("CLOCK_THREAD_CPUTIME_ID"%string, 3);
    ("CLOCK_MONOTONIC_RAW"%string, 4);
    ("CLOCK_REALTIME_COARSE"%string, 5);
    ("CLOCK_MONOTONIC_COARSE"%string, 6);
    ("CLOCK_BOOTTIME"%string, 7) ].

(** SHIM_RLIMIT_TABLE *)
Definition SHIM_RLIMIT_TABLE : list (string * Z) :=
  [ ("RLIMIT_CPU"%string, 0);
    ("RLIMIT_FSIZE"%string, 1);
    ("RLIMIT_DATA"%string, 2);
    ("RLIMIT_STACK"%string, 3);
    ("RLIMIT_CORE"%string, 4);
    ("RLIMIT_RSS"%string, 5);
    ("RLIMIT_NPROC"%string, 6);
    ("RLIMIT_NOFILE"%string, 7);
    ("RLIMIT_MEMLOCK"%string, 8);
    ("RLIMIT_AS"%string, 9);
    ("RLIMIT_LOCKS"%string, 10);
    ("RLIMIT_SIGPENDING"%string, 11);
    ("RLIMIT_MSGQUEUE"%string, 12);
    ("RLIMIT_NICE"%string, 13);
    ("RLIMIT_RTPRIO"%string, 14) ].

(** SHIM_SIG_TABLE *)
Definition SHIM_SIG_TABLE : list (string * Z) :=
  [ ("SIGBUS"%string, 7);
    ("SIGUSR1"%string, 10);
    ("SIGUSR2"%string, 12);
    ("SIGCHLD"%string, 17);
    ("SIGCONT"%string, 18);
    ("SIGSTOP"%string, 19);
    ("SIGTSTP"%string, 20);
    ("SIGURG"%string, 23);
    ("SIGIO"%string, 29);
    ("SIGPOLL"%string, 29);
    ("SIGPWR"%string, 30);
    ("SIGSYS"%string, 31);
    ("SIGSTKFLT"%string, 16) ].

(** SHIM_SA_TABLE *)
Definition SHIM_SA_TABLE : list (string * Z) :=
  [ ("SA_NOCLDSTOP"%string, 1);
    ("SA_NOCLDWAIT"%string, 2);
    ("SA_SIGINFO"%string, 4);
    ("SA_ONSTACK"%string, 134217728);
    ("SA_RESTART"%string, 268435456);
    ("SA_NODEFER"%string, 1073741824);
    ("SA_RESETHAND"%string, (-2147483648)) ].

(** SHIM_SS_TABLE *)
Definition SHIM_SS_TABLE : list (string * Z) :=
  [ ("SHIM_FIX_SS_ONSTACK"%string, 1);
    ("SS_DISABLE"%string, 2) ].

(** SHIM_AUXV_TABLE *)
Definition SHIM_AUXV_TABLE : list (string * Z) :=
  [ ("AT_MINSIGSTKSZ"%string, 51);
    ("AT_HWCAP"%string, 16);
    ("AT_HWCAP2"%string, 26) ].

(** SHIM_TIFLAG_TABLE *)
Definition SHIM_TIFLAG_TABLE : list (string * Z) :=
  [ ("SHIM_FIX_IGNBRK"%string, 1);
    ("SHIM_FIX_BRKINT"%string, 2);
    ("SHIM_FIX_IGNPAR"%string, 4);
    ("SHIM_FIX_PARMRK"%string, 8);
    ("SHIM_FIX_INPCK"%string, 16);
    ("SHIM_FIX_ISTRIP"%string, 32);
    ("SHIM_FIX_INLCR"%string, 64);
    ("SHIM_FIX_IGNCR"%string, 128);
    ("SHIM_FIX_ICRNL"%string, 256);
    ("IUCLC"%string, 512);
    ("IXON"%string, 1024);
    ("SHIM_FIX_IXANY"%string, 2048);
    ("IXOFF"%string, 4096);
    ("SHIM_FIX_IMAXBEL"%string, 8192);
    ("IUTF8"%string, 16384) ].

(** SHIM_TOFLAG_TABLE *)
Definition SHIM_TOFLAG_TABLE : list (string * Z) :=
  [ ("SHIM_FIX_OPOST"%string, 1);
    ("OLCUC"%string, 2);
    ("ONLCR"%string, 4);
    ("OCRNL"%string, 8);
    ("ONOCR"%string, 16);
    ("ONLRET"%string, 32);
    ("OFILL"%string, 64);
    ("OFDEL"%string, 128) ].

(** SHIM_TODLY_TABLE *)
Definition SHIM_TODLY_TABLE : list (string * Z) :=
  [ ("NLDLY"%string, 256);
    ("NL1"%string, 256);
    ("CRDLY"%string, 1536);
    ("CR1"%string, 512);
    ("CR2"%string, 1024);
    ("CR3"%string, 1536);
    ("TABDLY"%string, 6144);
    ("TAB1"%string, 2048);
    ("TAB2"%string, 4096);
    ("TAB3"%string, 6144);
    ("XTABS"%string, 6144);
    ("BSDLY"%string, 8192);
    ("BS1"%string, 8192);
    ("VTDLY"%string, 16384);
    ("VT1"%string, 16384);
    ("FFDLY"%string, 32768);
    ("FF1"%string, 32768) ].

(** SHIM_TCFLAG_TABLE *)
Definition SHIM_TCFLAG_TABLE : list (string * Z) :=
  [ ("CSIZE"%string, 48);
    ("CS6"%string, 16);
    ("CS7"%string, 32);
    ("CS8"%string, 48);
    ("CSTOPB"%string, 64);
    ("CREAD"%string, 128);
    ("PARENB"%string, 256);
    ("PARODD"%string, 512);
    ("HUPCL"%string, 1024);
    ("CLOCAL"%string, 2048);
    ("CRTSCTS"%string, 2147483648);
    ("CMSPAR"%string, 1073741824) ].

(** SHIM_TLFLAG_TABLE *)
Definition SHIM_TLFLAG_TABLE : list (string * Z) :=
  [ ("ISIG"%string, 1);
    ("ICANON"%string, 2);
    ("XCASE"%string, 4);
    ("SHIM_FIX_ECHO"%string, 8);
    ("ECHOE"%string, 16);
    ("ECHOK"%string, 32);
    ("ECHONL"%string, 64);
    ("NOFLSH"%string, 128);
    ("TOSTOP"%string, 256);
    ("ECHOCTL"%string, 512);
    ("ECHOPRT"%string, 1024);
    ("ECHOKE"%string, 2048);
    ("FLUSHO"%string, 4096);
    ("PENDIN"%string, 16384);
    ("IEXTEN"%string, 32768);
    ("EXTPROC"%string, 65536) ].

(** SHIM_TCC_TABLE *)
Definition SHIM_TCC_TABLE : list (string * Z) :=
  [ ("VINTR"%string, 0);
    ("VQUIT"%string, 1);
    ("VERASE"%string, 2);
    ("VKILL"%string, 3);
    ("VEOF"%string, 4);
    ("VTIME"%string, 5);
    ("VMIN"%string, 6);
    ("VSWTC"%string, 7);
    ("VSTART"%string, 8);
    ("VSTOP"%string, 9);
    ("VSUSP"%string, 10);
    ("VEOL"%string, 11);
    ("VREPRINT"%string, 12);
    ("VDISCARD"%string, 13);
    ("VWERASE"%string, 14);
    ("VLNEXT"%string, 15);
    ("VEOL2"%string, 16) ].

(** SHIM_BAUD_TABLE *)
Definition SHIM_BAUD_TABLE : list (string * Z) :=
  [ ("SHIM_FIX_B0"%string, 0);
    ("B50"%string, 1);
    ("B75"%string, 2);
    ("B110"%string, 3);
    ("B134"%string, 4);
    ("B150"%string, 5);
    ("B200"%string, 6);
    ("B300"%string, 7);
    ("B600"%string, 8);
    ("B1200"%string, 9);
    ("B1800"%string, 10);
    ("B2400"%string, 11);
    ("B4800"%string, 12);
    ("B9600"%string, 13);
    ("B19200"%string, 14);
    ("B38400"%string, 15);
    ("B57600"%string, 4097);
    ("B115200"%string, 4098);
    ("B230400"%string, 4099);
    ("B500000"%string, 4101);
    ("B576000"%string, 4102);
    ("B1000000"%string, 4104);
    ("B1152000"%string, 4105);
    ("B1500000"%string, 4106);
    ("B2000000"%string, 4107);
    ("B2500000"%string, 4108);
    ("B3000000"%string, 4109);
    ("B3500000"%string, 4110);
    ("B4000000"%string, 4111) ].

(** SHIM_TCFLUSH_TABLE *)
Definition SHIM_TCFLUSH_TABLE : list (string * Z) :=
  [ ("TCIFLUSH"%string, 0);
    ("TCOFLUSH"%string, 1);
    ("TCIOFLUSH"%string, 2) ].

(** SHIM_TCFLOW_TABLE *)
Definition SHIM_TCFLOW_TABLE : list (string * Z) :=
  [ ("SHIM_FIX_TCOOFF"%string, 0);
    ("SHIM_FIX_TCOON"%string, 1);
    ("SHIM_FIX_TCIOFF"%string, 2);
    ("SHIM_FIX_TCION"%string, 3) ].

(** SHIM_MSG_TABLE *)
Definition SHIM_MSG_TABLE : list (string * Z) :=
  [ ("MSG_DONTWAIT"%string, 64);
    ("MSG_WAITALL"%string, 256);
    ("MSG_NOSIGNAL"%string, 16384);
    ("MSG_TRUNC"%string, 32);
    ("MSG_CTRUNC"%string, 8) ].

(** SHIM_SO_TABLE *)
Definition SHIM_SO_TABLE : list (string * Z) :=
  [ ("SO_REUSEADDR"%string, 2);
    ("SO_TYPE"%string, 3);
    ("SO_ERROR"%string, 4);
    ("SO_DONTROUTE"%string, 5);
    ("SO_BROADCAST"%string, 6);
    ("SO_SNDBUF"%string, 7);
    ("SO_RCVBUF"%string, 8);
    ("SO_KEEPALIVE"%string, 9);
    ("SO_OOBINLINE"%string, 10);
    ("SO_LINGER"%string, 13);
    ("SO_REUSEPORT"%string, 15);
    ("SO_RCVLOWAT"%string, 18);
    ("SO_SNDLOWAT"%string, 19);
    ("SO_RCVTIMEO"%string, 20);
    ("SO_SNDTIMEO"%string, 21);
    ("SO_ACCEPTCONN"%string, 30) ].

(** SHIM_TCP_TABLE *)
Definition SHIM_TCP_TABLE : list (string * Z) :=
  [ ("SHIM_FIX_TCP_NODELAY"%string, 1);
    ("TCP_MAXSEG"%string, 2);
    ("TCP_CORK"%string, 3);
    ("TCP_KEEPIDLE"%string, 4);
    ("TCP_KEEPINTVL"%string, 5);
    ("TCP_KEEPCNT"%string, 6);
    ("TCP_SYNCNT"%string, 7);
    ("TCP_DEFER_ACCEPT"%string, 9);
    ("TCP_FASTOPEN"%string, 23);
    ("TCP_QUICKACK"%string, 12) ].

(** SHIM_IP_TABLE *)
Definition SHIM_IP_TABLE : list (string * Z) :=
  [ ("IP_TOS"%string, 1);
    ("IP_TTL"%string, 2);
    ("IP_HDRINCL"%string, 3);
    ("IP_OPTIONS"%string, 4);
    ("IP_RECVTOS"%string, 13);
    ("IP_RECVTTL"%string, 12);
    ("IP_MULTICAST_IF"%string, 32);
    ("IP_MULTICAST_TTL"%string, 33);
    ("IP_MULTICAST_LOOP"%string, 34);
    ("IP_ADD_MEMBERSHIP"%string, 35);
    ("IP_DROP_MEMBERSHIP"%string, 36);
    ("IP_PKTINFO"%string, 8) ].

(** SHIM_IPV6_TABLE *)
Definition SHIM_IPV6_TABLE : list (string * Z) :=
  [ ("IPV6_V6ONLY"%string, 26);
    ("IPV6_UNICAST_HOPS"%string, 16);
    ("IPV6_MULTICAST_IF"%string, 17);
    ("IPV6_MULTICAST_HOPS"%string, 18);
    ("IPV6_MULTICAST_LOOP"%string, 19);
    ("IPV6_JOIN_GROUP"%string, 20);
    ("IPV6_LEAVE_GROUP"%string, 21);
    ("IPV6_TCLASS"%string, 67);
    ("IPV6_RECVTCLASS"%string, 66);
    ("IPV6_PKTINFO"%string, 50) ].

(** SHIM_AF_TABLE *)
Definition SHIM_AF_TABLE : list (string * Z) :=
  [ ("SHIM_FIX_AF_UNSPEC"%string, 0);
    ("SHIM_FIX_AF_UNIX"%string, 1);
    ("SHIM_FIX_AF_INET"%string, 2);
    ("AF_INET6"%string, 10) ].

