(* ===== verification/ToyHost.v ===== *)
(** * A concrete host for the witnesses

    The interfaces of [Host] instantiated by small concrete machines, on
    which the theorems' hypotheses are seen to hold and their conclusions
    are evaluated: constants as Linux has them, and a machine that is a
    microsecond clock with a fixed set of ready descriptors. *)
From S2P Require Import Prelude Host Tables.

(** cosmo's constants on Linux: the same values. *)
Definition linux_rows : list (string * Z) :=
  SHIM_ERRNO_TABLE ++ SHIM_POLL_TABLE ++ SHIM_CLOCK_TABLE ++ SHIM_RLIMIT_TABLE ++
  SHIM_SIG_TABLE ++ SHIM_SA_TABLE ++ SHIM_SS_TABLE.

Definition linux_consts : HostConsts := {|
  host_const name :=
    default 0 (snd <$> List.find (fun row => String.eqb (fst row) name) linux_rows);
  host_defines _ := true |}.

(** Constants a host might well publish instead: poll bits in WSAPoll's
    places, where POLLIN is the union of two others, and XNU's signals. *)
Definition nt_rows : list (string * Z) :=
  [ ("POLLIN"%string, 0x300); ("POLLRDNORM"%string, 0x100);
    ("POLLRDBAND"%string, 0x200); ("POLLPRI"%string, 0x400);
    ("POLLOUT"%string, 0x10); ("POLLWRNORM"%string, 0x10);
    ("POLLWRBAND"%string, 0x20); ("POLLERR"%string, 1); ("POLLHUP"%string, 2);
    ("POLLNVAL"%string, 4); ("POLLRDHUP"%string, 2) ].

Definition nt_consts : HostConsts := {|
  host_const name :=
    default 0 (snd <$> List.find (fun row => String.eqb (fst row) name) nt_rows);
  host_defines _ := true |}.

(** A machine: its clock in microseconds. Each descriptor in [ready] reports
    what is listed; a poll that finds nothing sleeps out its timeout. *)
Section machine.
Context (ready : list (Z * Z)).

Definition toy_revents (p : pollfd) : pollfd :=
  PollFd (pf_fd p) (pf_events p)
    (default 0 (snd <$> List.find (fun r => fst r =? pf_fd p) ready)).

Definition toy_ppoll (fds : list pollfd) (ts : option timespec) (w : Z)
    : (res Z * list pollfd) * Z :=
  let fds' := map toy_revents fds in
  let n := Z.of_nat (length (filter (fun p => pf_revents p <> 0) fds')) in
  let slept := match ts with
               | Some t => Z.max 0 (tv_sec t * 1000000 + tv_nsec t / 1000)
               | None => 0
               end in
  ((Ok n, fds'), if n =? 0 then w + slept else w).

Definition toy_poll (nt : bool) : HostPoll Z := {|
  is_windows := nt;
  h_now w := (w / 1000, w);
  h_nanosleep ts w := (true, w + tv_sec ts * 1000000 + tv_nsec ts / 1000);
  h_ppoll := toy_ppoll;
  h_poll fds ms := toy_ppoll fds (Some (Timespec 0 (ms * 1000000))) |}.
End machine.
