(* ===== verification/Flags.v ===== *)
(** * Flag-word translation: the table-driven bit scans

    shim/poll.c, shim/signal.c and shim/termios.c translate a flag word by
    walking a table and or-ing together the counterparts of the bits that
    are set. The two directions, and what survives a round trip, are proved
    once here. *)
From S2P Require Import Prelude Host Tables.

Section flags.
Context `{HostConsts}.

(** For each row whose Linux bit is set, or in the host bits. *)
Fixpoint bits_to_host (tbl : list (string * Z)) (lin : Z) : Z :=
  match tbl with
  | [] => 0
  | (n, l) :: tbl' =>
      Z.lor (if has lin l then host_const n else 0) (bits_to_host tbl' lin)
  end.

(** For each row with any host bit set, or in the Linux bit. *)
Fixpoint bits_to_linux (tbl : list (string * Z)) (host : Z) : Z :=
  match tbl with
  | [] => 0
  | (n, l) :: tbl' =>
      Z.lor (if has host (host_const n) then l else 0) (bits_to_linux tbl' host)
  end.

(** All the Linux bits of a table. *)
Definition mask_of (tbl : list (string * Z)) : Z := foldr Z.lor 0 (snd <$> tbl).

(** The host gives every name of the table bits of its own. *)
Definition separate (tbl : list (string * Z)) : Prop :=
  (forall n l, (n, l) ∈ tbl -> host_const n <> 0) /\
  (forall n1 l1 n2 l2, (n1, l1) ∈ tbl -> (n2, l2) ∈ tbl ->
     Z.land (host_const n1) (host_const n2) <> 0 -> l1 = l2).

Lemma bits_to_host_has tbl x f :
  has (bits_to_host tbl x) f =
  existsb (fun '(n, l) => has x l && has (host_const n) f) tbl.
Proof.
  induction tbl as [|[n l] tbl IH]; simpl; [apply has_0_l|].
  rewrite has_lor_l, IH. f_equal. destruct (has x l); simpl; [done|apply has_0_l].
Qed.

Lemma bits_to_linux_has tbl x f :
  has (bits_to_linux tbl x) f =
  existsb (fun '(n, l) => has x (host_const n) && has l f) tbl.
Proof.
  induction tbl as [|[n l] tbl IH]; simpl; [apply has_0_l|].
  rewrite has_lor_l, IH. f_equal. destruct (has x (host_const n)); simpl; [done|apply has_0_l].
Qed.

(** Nothing the caller asked for is lost on the way out and back, whatever
    aliases the host has. *)
Lemma bits_roundtrip_superset tbl n l x :
  (n, l) ∈ tbl -> l <> 0 -> host_const n <> 0 -> has x l = true ->
  has (bits_to_linux tbl (bits_to_host tbl x)) l = true.
Proof.
  intros Hin Hl Hh Hx. rewrite bits_to_linux_has. apply existsb_exists.
  exists (n, l). apply list_elem_of_In in Hin. split; [done|].
  apply andb_true_iff. split.
  - rewrite bits_to_host_has. apply existsb_exists. exists (n, l). split; [done|].
    rewrite Hx. simpl. apply has_true. by rewrite Z.land_diag.
  - apply has_true. by rewrite Z.land_diag.
Qed.

(** What reads back is exactly the known bits, when the host keeps its
    values apart. *)
Lemma bits_roundtrip tbl x :
  Forall (fun row => is_bit (snd row)) tbl -> separate tbl ->
  bits_to_linux tbl (bits_to_host tbl x) = Z.land x (mask_of tbl).
Proof.
  intros Hbits [Hnz Hsep].
  assert (Hrow : forall n l, (n, l) ∈ tbl -> has (bits_to_host tbl x) (host_const n) = has x l).
  { intros n l Hin. rewrite bits_to_host_has. apply eq_bool_prop_intro. split.
    - intros Hex. apply Is_true_true in Hex. apply existsb_exists in Hex as ([m k] & Hm & Hk).
      apply list_elem_of_In in Hm. apply andb_true_iff in Hk as [Hk Hov%has_true].
      rewrite (Hsep n l m k); try done. by rewrite Hk. by rewrite Z.land_comm.
    - intros Hx. apply Is_true_true in Hx. apply Is_true_true, existsb_exists.
      exists (n, l). split; [by apply list_elem_of_In|]. rewrite Hx. simpl.
      apply has_true. rewrite Z.land_diag. eauto. }
  generalize (bits_to_host tbl x), Hrow. clear Hrow Hnz Hsep. intros h.
  induction Hbits as [|[n l] tbl Hl Hbits IH]; intros Hrow; simpl.
  - by rewrite Z.land_0_r.
  - rewrite (Hrow n l) by set_solver. unfold mask_of in *. simpl.
    rewrite Z.land_lor_distr_r, <- has_bit by done. simpl. f_equal.
    apply IH. set_solver.
Qed.

(** Reading back is exact whatever the host does with bits outside the
    table. *)
Lemma bits_to_host_mask tbl x :
  bits_to_host tbl (Z.land x (mask_of tbl)) = bits_to_host tbl x.
Proof.
  enough (Hg : forall m, (forall n l, (n, l) ∈ tbl -> Z.land m l = l) ->
    bits_to_host tbl (Z.land x m) = bits_to_host tbl x).
  { apply Hg. clear Hg. unfold mask_of. intros n l Hin.
    induction tbl as [|[n' l'] tbl IH]; [set_solver|]. csimpl.
    rewrite Z.land_lor_distr_l. apply elem_of_cons in Hin as [Hin|Hin].
    - simplify_eq. rewrite Z.land_diag. bitwise.
    - rewrite (IH Hin). bitwise. }
  intros m Hm. induction tbl as [|[n l] tbl IH]; [done|]. simpl.
  rewrite IH by set_solver. unfold has.
  rewrite <- Z.land_assoc, (Hm n l) by set_solver. done.
Qed.
End flags.
