(* ===== verification/Translate.v ===== *)
(** * Value translation: shim/errno.c, shim/clock.c, shim/rlimit.c

    The shim keeps the Rust side in Linux coding by scanning the generated
    tables. This file has the two scans every translator shares, the errno
    translation and the errno protocol behind [__errno_location], the clock
    ids and the resource limits. The theorems are the round trips and the
    refinement of the protocol to one Linux-coded variable. *)
From S2P Require Import Prelude Host Tables ToyHost.

(** ** Scanning a table *)

Section scan.
Context `{HostConsts}.

(** Slot by slot: the Linux value of the first row whose host value is [h]. *)
Definition scan_host (tbl : list (string * Z)) (h : Z) : option Z :=
  snd <$> List.find (fun row => host_const (fst row) =? h) tbl.

(** Slot by slot: the host value of the first row whose Linux value is [l]. *)
Definition scan_lin (tbl : list (string * Z)) (l : Z) : option Z :=
  (fun row => host_const (fst row)) <$> List.find (fun row => snd row =? l) tbl.

(** A host on which a value never stands for two different Linux values. *)
Definition unambiguous (tbl : list (string * Z)) : Prop :=
  forall n1 l1 n2 l2, (n1, l1) ∈ tbl -> (n2, l2) ∈ tbl ->
    host_const n1 = host_const n2 -> l1 = l2.

Lemma scan_lin_Some tbl l h :
  scan_lin tbl l = Some h -> exists n, (n, l) ∈ tbl /\ h = host_const n.
Proof.
  unfold scan_lin. destruct (List.find _ tbl) as [[n l']|] eqn:Hf; [|done].
  apply find_some in Hf as [Hin Heq%Z.eqb_eq]. intros; simplify_eq/=.
  exists n. split; [by apply list_elem_of_In|done].
Qed.

Lemma scan_lin_None tbl l : scan_lin tbl l = None -> forall n, (n, l) ∉ tbl.
Proof.
  unfold scan_lin. destruct (List.find _ tbl) eqn:Hf; [done|]. intros _ n Hin.
  apply list_elem_of_In in Hin. eapply find_none in Hf; [|done].
  simpl in Hf. by rewrite Z.eqb_refl in Hf.
Qed.

Lemma scan_host_Some tbl h l :
  scan_host tbl h = Some l -> exists n, (n, l) ∈ tbl /\ h = host_const n.
Proof.
  unfold scan_host. destruct (List.find _ tbl) as [[n l']|] eqn:Hf; [|done].
  apply find_some in Hf as [Hin Heq%Z.eqb_eq]. intros; simplify_eq/=.
  exists n. split; [by apply list_elem_of_In|done].
Qed.

Lemma scan_host_in tbl n l :
  (n, l) ∈ tbl -> exists l', scan_host tbl (host_const n) = Some l'.
Proof.
  intros Hin%list_elem_of_In. unfold scan_host.
  destruct (List.find _ tbl) as [row|] eqn:Hf; [eauto|].
  eapply find_none in Hf; [|done]. simpl in Hf. by rewrite Z.eqb_refl in Hf.
Qed.

(** Out and back: a Linux value the table knows survives the host. *)
Lemma scan_roundtrip tbl l h :
  unambiguous tbl -> scan_lin tbl l = Some h -> scan_host tbl h = Some l.
Proof.
  intros Hun (n & Hin & ->)%scan_lin_Some.
  destruct (scan_host_in tbl n l Hin) as [l' Hl'].
  rewrite Hl'. f_equal. apply scan_host_Some in Hl' as (n' & Hin' & Heq). eauto.
Qed.
End scan.

(** ** Errno translation *)

Section errno.
Context `{HostConsts}.

Definition kNtErrorSymlinkClassDisabled : Z := host_const "kNtErrorSymlinkClassDisabled".
Definition SHIM_LIN_EACCES : Z := lin_errno "EACCES".

Definition errno_host_to_linux (host : Z) : Z :=
  if host =? 0 then 0
  else
    match scan_host SHIM_ERRNO_TABLE host with
    | Some lin => lin
    | None => if host =? kNtErrorSymlinkClassDisabled then SHIM_LIN_EACCES else host
    end.

Definition errno_linux_to_host (lin : Z) : Z :=
  if lin =? 0 then 0 else default lin (scan_lin SHIM_ERRNO_TABLE lin).

(** an errno the Rust side hands to the host (strerror) comes back as
    itself, whenever the host does not overload its codes. *)
Theorem errno_roundtrip lin :
  unambiguous SHIM_ERRNO_TABLE ->
  (forall n l, (n, l) ∈ SHIM_ERRNO_TABLE -> host_const n <> 0) ->
  is_Some (scan_lin SHIM_ERRNO_TABLE lin) ->
  errno_host_to_linux (errno_linux_to_host lin) = lin.
Proof.
  intros Hun Hnz [h Hh]. unfold errno_linux_to_host, errno_host_to_linux.
  destruct (scan_lin_Some _ _ _ Hh) as (n & Hin & ->).
  destruct (Z.eqb_spec lin 0) as [->|Hl]; [by rewrite Z.eqb_refl|].
  rewrite Hh. simpl. rewrite (proj2 (Z.eqb_neq _ _) (Hnz _ _ Hin)).
  by rewrite (scan_roundtrip _ _ _ Hun Hh).
Qed.
End errno.

(** ** The errno protocol *)

Definition SHIM_ERRNO_SENTINEL : Z := 0x5AFEE44E.

(** The host's errno and the thread-local copy the Rust side sees. *)
Record errno_state := ErrnoState { host_errno : Z; shim_errno : Z }.

(** What happens between two looks at errno. *)
Inductive errno_op :=
  | HostSets (e : Z)     (* a libc call failed and stored e *)
  | HostKeeps            (* a libc call that leaves errno alone *)
  | RustReads            (* reads through __errno_location() *)
  | RustWrites (v : Z).  (* stores v through __errno_location() *)

Section protocol.
Context `{HostConsts}.

Definition errno_location (s : errno_state) : errno_state :=
  let host := host_errno s in
  let copy := if host =? SHIM_ERRNO_SENTINEL then shim_errno s
              else errno_host_to_linux host in
  ErrnoState SHIM_ERRNO_SENTINEL copy.

Definition errno_step (s : errno_state) (op : errno_op) : errno_state * option Z :=
  match op with
  | HostSets e => (ErrnoState e (shim_errno s), None)
  | HostKeeps => (s, None)
  | RustReads => let s' := errno_location s in (s', Some (shim_errno s'))
  | RustWrites v => let s' := errno_location s in (ErrnoState (host_errno s') v, None)
  end.

(** The specification: one variable in Linux coding. *)
Definition errno_spec (v : Z) (op : errno_op) : Z * option Z :=
  match op with
  | HostSets e => (errno_host_to_linux e, None)
  | HostKeeps => (v, None)
  | RustReads => (v, Some v)
  | RustWrites v' => (v', None)
  end.

Fixpoint errno_run {S} (f : S -> errno_op -> S * option Z) (s : S) (ops : list errno_op)
    : list Z :=
  match ops with
  | [] => []
  | op :: ops' =>
      let '(s', out) := f s op in option_list out ++ errno_run f s' ops'
  end.

(** No libc call stores the sentinel. *)
Definition op_real (op : errno_op) : Prop :=
  match op with HostSets e => e <> SHIM_ERRNO_SENTINEL | _ => True end.

Definition errno_sim (s : errno_state) (v : Z) : Prop :=
  v = if host_errno s =? SHIM_ERRNO_SENTINEL then shim_errno s
      else errno_host_to_linux (host_errno s).

Lemma errno_sim_step s v op :
  op_real op -> errno_sim s v ->
  snd (errno_step s op) = snd (errno_spec v op) /\
  errno_sim (fst (errno_step s op)) (fst (errno_spec v op)).
Proof.
  unfold errno_sim. intros Hop ->. destruct op; simpl; split; try done.
  simpl in Hop. by rewrite (proj2 (Z.eqb_neq _ _) Hop).
Qed.

(** C7: whatever the order of failing calls, succeeding calls, reads and
    writes, the Rust side reads exactly what a single Linux-coded errno would
    hold, the case of two equal errors in a row included. *)
Theorem errno_protocol_refines s v ops :
  errno_sim s v -> Forall op_real ops ->
  errno_run errno_step s ops = errno_run errno_spec v ops.
Proof.
  intros Hsim Hops. revert s v Hsim. induction Hops as [|op ops Hop Hops IH]; [done|].
  intros s v Hsim. simpl.
  destruct (errno_sim_step s v op Hop Hsim) as [Hout Hsim'].
  destruct (errno_step s op) as [s' o], (errno_spec v op) as [v' o'].
  simpl in *. subst. f_equal. by apply IH.
Qed.
End protocol.

(** ** Clock ids and resource limits *)

Section ids.
Context `{HostConsts}.

Definition clock_to_host (lin : Z) : res Z :=
  match scan_lin SHIM_CLOCK_TABLE lin with Some h => Ok h | None => Err EINVAL end.

(** The calls themselves: the id is translated before the host is asked.
    The last two answer the error instead of setting errno. *)
Definition shim_clock_gettime {A} (clock_gettime : Z -> res A) (lin : Z) : res A :=
  match clock_to_host lin with Err e => Err e | Ok host => clock_gettime host end.

Definition shim_clock_getres {A} (clock_getres : Z -> res A) (lin : Z) : res A :=
  match clock_to_host lin with Err e => Err e | Ok host => clock_getres host end.

Definition shim_clock_settime {A} (clock_settime : Z -> A -> res unit) (lin : Z) (ts : A) : res unit :=
  match clock_to_host lin with Err e => Err e | Ok host => clock_settime host ts end.

Definition shim_clock_nanosleep (clock_nanosleep : Z -> Z -> timespec -> option errno)
    (lin flags : Z) (req : timespec) : option errno :=
  match clock_to_host lin with
  | Err _ => Some EINVAL
  | Ok host => clock_nanosleep host flags req
  end.

Definition shim_pthread_condattr_setclock (setclock : Z -> option errno) (lin : Z) : option errno :=
  match clock_to_host lin with Err _ => Some EINVAL | Ok host => setclock host end.

Definition res_to_host (lin : Z) : res Z :=
  match scan_lin SHIM_RLIMIT_TABLE lin with Some h => Ok h | None => Err EINVAL end.

(** struct rlimit passes through unrepacked: a pair of 64-bit values. *)
Definition rlimit : Type := Z * Z.

Definition shim_getrlimit (getrl : Z -> res rlimit) (lin : Z) : res rlimit :=
  match res_to_host lin with Err e => Err e | Ok host => getrl host end.

Definition shim_setrlimit (setrl : Z -> rlimit -> res unit) (lin : Z) (rl : rlimit) : res unit :=
  match res_to_host lin with Err e => Err e | Ok host => setrl host rl end.

(** What prlimit does on the way: the calls made, in order. *)
Inductive rlimit_call :=
  | GetRlimit (host : Z)
  | SetRlimit (host : Z) (rl : rlimit)
  | RawPrlimit (pid lin : Z).

(** [getrl] and [setrl] are the host's calls, [raw] the Linux syscall; the
    answer carries the old value when one was asked for. *)
Definition shim_prlimit (is_linux : bool) (getpid : Z)
    (getrl : Z -> res rlimit) (setrl : Z -> rlimit -> res unit)
    (raw : Z -> Z -> res (option rlimit))
    (pid lin : Z) (neu : option rlimit) (want_old : bool)
    : res (option rlimit) * list rlimit_call :=
  match res_to_host lin with
  | Err e => (Err e, [])
  | Ok host =>
      if (pid =? 0) || (pid =? getpid) then
        let '(old, c0) :=
          if want_old then (getrl host, [GetRlimit host]) else (Ok (0, 0), []) in
        match old with
        | Err e => (Err e, c0)
        | Ok o =>
            let '(set, c1) := match neu with
                              | Some rl => (setrl host rl, [SetRlimit host rl])
                              | None => (Ok tt, [])
                              end in
            match set with
            | Err e => (Err e, c0 ++ c1)
            | Ok _ => (Ok (if want_old then Some o else None), c0 ++ c1)
            end
        end
      else if negb is_linux then (Err ENOSYS, [])
      else (raw pid lin, [RawPrlimit pid lin])
  end.

(** prlimit on oneself is getrlimit and then setrlimit: the old value is
    reported first, a failure of either fails the call, nothing is installed
    when the report failed or none was wanted, and the kernel is never
    asked; on another process only Linux asks its kernel, with the number it
    was given, and touches no limit of its own. *)
Theorem shim_prlimit_cases is_linux me getrl setrl raw pid lin neu want_old host :
  res_to_host lin = Ok host ->
  shim_prlimit is_linux me getrl setrl raw pid lin neu want_old =
  if (pid =? 0) || (pid =? me) then
    match (if want_old then Some (shim_getrlimit getrl lin) else None), neu with
    | Some (Err e), _ => (Err e, [GetRlimit host])
    | Some (Ok o), None => (Ok (Some o), [GetRlimit host])
    | Some (Ok o), Some rl =>
        (match shim_setrlimit setrl lin rl with Err e => Err e | Ok _ => Ok (Some o) end,
         [GetRlimit host; SetRlimit host rl])
    | None, None => (Ok None, [])
    | None, Some rl =>
        (match shim_setrlimit setrl lin rl with Err e => Err e | Ok _ => Ok None end,
         [SetRlimit host rl])
    end
  else if is_linux then (raw pid lin, [RawPrlimit pid lin]) else (Err ENOSYS, []).
Proof.
  intros Hres. unfold shim_prlimit, shim_getrlimit, shim_setrlimit. rewrite Hres.
  destruct (_ || _); [|by destruct is_linux].
  destruct want_old; [destruct (getrl host)|]; destruct neu as [rl|]; try done;
    by destruct (setrl host rl).
Qed.
End ids.

(** ** On Linux's own constants *)

(** Decides [unambiguous] row by row. *)
Definition unambiguousb `{HostConsts} (tbl : list (string * Z)) : bool :=
  forallb (fun r1 => forallb (fun r2 =>
    negb (host_const (fst r1) =? host_const (fst r2)) || (snd r1 =? snd r2)) tbl) tbl.

Lemma unambiguousb_sound `{HostConsts} tbl : unambiguousb tbl = true -> unambiguous tbl.
Proof.
  intros Hb n1 l1 n2 l2 H1%list_elem_of_In H2%list_elem_of_In Heq. unfold unambiguousb in Hb.
  rewrite forallb_forall in Hb. specialize (Hb _ H1). rewrite forallb_forall in Hb.
  specialize (Hb _ H2). simpl in Hb. rewrite Heq, Z.eqb_refl in Hb. by apply Z.eqb_eq in Hb.
Qed.

Definition nonzerob `{HostConsts} (tbl : list (string * Z)) : bool :=
  forallb (fun r => negb (host_const (fst r) =? 0)) tbl.

Lemma nonzerob_sound `{HostConsts} tbl :
  nonzerob tbl = true -> forall n l, (n, l) ∈ tbl -> host_const n <> 0.
Proof.
  intros Hb n l Hin%list_elem_of_In. unfold nonzerob in Hb. rewrite forallb_forall in Hb.
  specialize (Hb _ Hin). by apply negb_true_iff, Z.eqb_neq in Hb.
Qed.

Lemma errno_roundtrip_witness :
  @errno_host_to_linux linux_consts (@errno_linux_to_host linux_consts 11) = 11.
Proof.
  apply (@errno_roundtrip linux_consts 11).
  - apply unambiguousb_sound. vm_compute. reflexivity.
  - apply nonzerob_sound. vm_compute. reflexivity.
  - vm_compute. by eexists.
Defined.

Lemma errno_protocol_refines_witness :
  @errno_run _ (@errno_step linux_consts) (ErrnoState 0 0)
    [HostSets 2; RustReads; HostSets 2; RustReads; HostKeeps; RustWrites 0; RustReads] =
  @errno_run _ (@errno_spec linux_consts) 0
    [HostSets 2; RustReads; HostSets 2; RustReads; HostKeeps; RustWrites 0; RustReads].
Proof.
  apply (@errno_protocol_refines linux_consts).
  - vm_compute. reflexivity.
  - repeat constructor; simpl; unfold SHIM_ERRNO_SENTINEL; lia.
Defined.

Lemma shim_prlimit_cases_witness :
  @shim_prlimit linux_consts false 40 (fun _ => Ok (1, 2)) (fun _ _ => Err EINVAL)
    (fun _ _ => Err EPERM) 0 7 (Some (3, 4)) true =
  (Err EINVAL, [GetRlimit 7; SetRlimit 7 (3, 4)]).
Proof.
  rewrite (@shim_prlimit_cases linux_consts _ _ _ _ _ _ _ _ _ 7); vm_compute; reflexivity.
Defined.
