(* ===== verification/Poll.v ===== *)
(** * shim/poll.c

    The event-bit translation, the chunked retry for arrays NT refuses, the
    polled first phase of a blocking wait on NT, and the wait every poll of
    the process funnels through, which splices in the hidden second
    descriptor of a packet socket. The caller's signal mask is passed
    through to the host unread and is left out. *)
From S2P Require Import Prelude Host Tables ToyHost Flags.

Definition SHIM_POLL_CHUNK : nat := 32.
Definition SHIM_POLL_NAP_MS : Z := 10.
Definition SHIM_NT_NAP1_US : Z := 500.
Definition SHIM_NT_NAP1_MS : Z := 10.
Definition SHIM_NT_NAP2_US : Z := 1000.
Definition SHIM_NT_POLLED_MS : Z := 250.
Definition SHIM_PKT_POLL_MAX : nat := 64.

(** What shim/packet.c promises the poll: whether any packet socket exists,
    and the descriptor to watch alongside [fd], or -1. *)
Class PacketWatch (W : Type) := {
  packet_any : W -> bool;
  packet_secondary : W -> Z -> Z }.

Section poll.
Context `{HostConsts} {W : Type} `{HostPoll W} `{PacketWatch W}.

(** [polled_ms()]: RUST_APE_POLL_MS, a number the process fixes once. *)
Context (polled_ms : Z).

(** shim/console.c's hook, run before a blocking wait on NT. *)
Context (console_before_poll : list pollfd -> W -> W).

(** ** Event bits *)

Definition ev_to_host (lin : Z) : Z := bits_to_host SHIM_POLL_TABLE lin.
Definition ev_to_linux (host : Z) : Z := bits_to_linux SHIM_POLL_TABLE host.

(** ** Time *)

Definition polled_nap (us : Z) : M W bool :=
  step (h_nanosleep (Timespec (us / 1000000) (us mod 1000000 * 1000))).

Definition now_ms : M W Z := step h_now.

Definition ppoll (fds : list pollfd) (timeout : option timespec)
    : M W (res Z * list pollfd) := step (h_ppoll fds timeout).

Definition zero_ts : timespec := Timespec 0 0.

(** ** The chunked retry *)

(** One scan: [fds + base] in chunks of at most 32, with no timeout. The
    array is updated in place, up to the chunk that failed. *)
Fixpoint scan_chunks (fuel : nat) (fds : list pollfd) (got : Z)
    : M W (res Z * list pollfd) :=
  match fuel with
  | O => out_of_fuel
  | S fuel' =>
      match fds with
      | [] => mret (Ok got, [])
      | _ =>
          '(r, c) ← ppoll (take SHIM_POLL_CHUNK fds) (Some zero_ts);
          match r with
          | Err e => mret (Err e, c ++ drop SHIM_POLL_CHUNK fds)
          | Ok k =>
              '(r', rest) ← scan_chunks fuel' (drop SHIM_POLL_CHUNK fds) (got + k);
              mret (r', c ++ rest)
          end
      end
  end.

(** [deadline] is -1 for none. *)
Fixpoint chunked (fuel : nat) (fds : list pollfd) (deadline : Z)
    : M W (res Z * list pollfd) :=
  match fuel with
  | O => out_of_fuel
  | S fuel' =>
      '(r, fds) ← scan_chunks (S (length fds)) fds 0;
      match r with
      | Err e => mret (Err e, fds)
      | Ok got =>
          if negb (got =? 0) then mret (Ok got, fds)
          else
            left ← (if 0 <=? deadline
                    then now ← now_ms; mret (Some (deadline - now))
                    else mret None);
            match left with
            | Some l =>
                if l <=? 0 then mret (Ok 0, fds)
                else
                  ok ← polled_nap (Z.min l SHIM_POLL_NAP_MS * 1000);
                  (if ok : bool then chunked fuel' fds deadline
                   else mret (Err EINTR, fds))
            | None =>
                ok ← polled_nap (SHIM_POLL_NAP_MS * 1000);
                if ok : bool then chunked fuel' fds deadline
                else mret (Err EINTR, fds)
            end
      end
  end.

(** ** The blocking wait *)

(** The naps of the polled phase. [None]: the budget ran out and the call
    goes on to park. *)
Fixpoint polled_phase (fuel : nat) (fds : list pollfd) (start deadline budget : Z)
    : M W (option (res Z * list pollfd)) :=
  match fuel with
  | O => out_of_fuel
  | S fuel' =>
      now ← now_ms;
      let polled := now - start in
      if budget <=? polled then mret None
      else
        let us := if polled <? SHIM_NT_NAP1_MS then SHIM_NT_NAP1_US else SHIM_NT_NAP2_US in
        ok ← polled_nap us;
        if negb ok then mret (Some (Err EINTR, fds))
        else
          '(r, fds) ← ppoll fds (Some zero_ts);
          if negb (bool_decide (r = Ok 0)) then mret (Some (r, fds))
          else
            expired ← (if 0 <=? deadline
                       then now ← now_ms; mret (deadline <=? now)
                       else mret false);
            if expired : bool then mret (Some (Ok 0, fds))
            else polled_phase fuel' fds start deadline budget
  end.

Definition host_ppoll_inner (fuel : nat) (fds : list pollfd) (timeout : option timespec)
    : M W (res Z * list pollfd) :=
  let zero_timeout := match timeout with
                      | Some t => (tv_sec t =? 0) && (tv_nsec t =? 0)
                      | None => false
                      end in
  let budget := if is_windows then polled_ms else 0 in
  _ ← (if is_windows && negb zero_timeout
       then modifies (console_before_poll fds) else mret tt);
  if (budget =? 0) || bool_decide (fds = []) || zero_timeout then ppoll fds timeout
  else
    '(r, fds) ← ppoll fds (Some zero_ts);
    if negb (bool_decide (r = Ok 0)) then mret (r, fds)
    else
      start ← now_ms;
      let deadline := match timeout with
                      | Some t => start + tv_sec t * 1000 + (tv_nsec t + 999999) / 1000000
                      | None => -1
                      end in
      out ← polled_phase fuel fds start deadline budget;
      match out with
      | Some rf => mret rf
      | None =>
          if deadline <? 0 then ppoll fds None
          else
            now ← now_ms;
            let left := deadline - now in
            if left <=? 0 then mret (Ok 0, fds)
            else ppoll fds (Some (Timespec (left / 1000) (left mod 1000 * 1000000)))
      end.

(** The twins to splice in: for each caller's slot, the pollfd of its packet
    socket's second descriptor. *)
Definition twin_of (w : W) (p : pollfd) : option pollfd :=
  let fd6 := packet_secondary w (pf_fd p) in
  if fd6 <? 0 then None else Some (PollFd fd6 (pf_events p) 0).

(** Folding back: slot [i] of [big] and, where [fds[i]] has a twin, the next
    of the twins' slots. *)
Fixpoint fold_twins (fds head : list pollfd) (twins : list (option pollfd))
    (extra : list pollfd) : list pollfd :=
  match fds, head, twins with
  | p :: fds', h :: head', t :: twins' =>
      match t, extra with
      | Some _, x :: extra' =>
          PollFd (pf_fd p) (pf_events p) (Z.lor (pf_revents h) (pf_revents x))
            :: fold_twins fds' head' twins' extra'
      | _, _ =>
          PollFd (pf_fd p) (pf_events p) (pf_revents h)
            :: fold_twins fds' head' twins' extra
      end
  | _, _, _ => fds
  end.

Definition count_ready (fds : list pollfd) : Z :=
  Z.of_nat (length (filter (fun p => pf_revents p <> 0) fds)).

Definition shim_host_ppoll (fuel : nat) (fds : list pollfd) (timeout : option timespec)
    : M W (res Z * list pollfd) :=
  any ← reads packet_any;
  if negb any || bool_decide (fds = [])
     || bool_decide (SHIM_PKT_POLL_MAX < length fds)%nat
  then host_ppoll_inner fuel fds timeout
  else
    twins ← reads (fun w => map (twin_of w) fds);
    let extra := omap id twins in
    if bool_decide (extra = []) then host_ppoll_inner fuel fds timeout
    else
      '(r, big) ← host_ppoll_inner fuel (fds ++ extra) timeout;
      let fds' := fold_twins fds (take (length fds) big) twins (drop (length fds) big) in
      mret (match r with Err e => Err e | Ok _ => Ok (count_ready fds') end, fds').

(** ** The entry points *)

Definition events_to_host (p : pollfd) : pollfd :=
  PollFd (pf_fd p) (ev_to_host (pf_events p)) (pf_revents p).

Definition events_to_linux (p : pollfd) : pollfd :=
  PollFd (pf_fd p) (ev_to_linux (pf_events p)) (ev_to_linux (pf_revents p)).

Definition refused (r : res Z) (fds : list pollfd) : bool :=
  bool_decide (r = Err EINVAL) && bool_decide (SHIM_POLL_CHUNK < length fds)%nat.

Definition shim_poll (fuel : nat) (fds : list pollfd) (timeout : Z)
    : M W (res Z * list pollfd) :=
  let fds := map events_to_host fds in
  let ts := if timeout <? 0 then None
            else Some (Timespec (timeout / 1000) (timeout mod 1000 * 1000000)) in
  '(r, fds) ← shim_host_ppoll fuel fds ts;
  '(r, fds) ←
    (if refused r fds then
       deadline ← (if timeout <? 0 then mret (-1) else now ← now_ms; mret (now + timeout));
       chunked fuel fds deadline
     else mret (r, fds));
  mret (r, map events_to_linux fds).

Definition shim_ppoll (fuel : nat) (fds : list pollfd) (timeout : option timespec)
    : M W (res Z * list pollfd) :=
  let fds := map events_to_host fds in
  '(r, fds) ← shim_host_ppoll fuel fds timeout;
  '(r, fds) ←
    (if refused r fds then
       deadline ← (match timeout with
                   | Some t => now ← now_ms;
                               mret (now + tv_sec t * 1000 + tv_nsec t / 1000000)
                   | None => mret (-1)
                   end);
       chunked fuel fds deadline
     else mret (r, fds));
  mret (r, map events_to_linux fds).
End poll.

(** ** What the host documents *)

(** poll() writes [revents] and nothing else of the array. *)
Definition same_slots (fds fds' : list pollfd) : Prop :=
  map pf_fd fds' = map pf_fd fds /\ map pf_events fds' = map pf_events fds.

Class PollFrames (W : Type) `{HostPoll W} : Prop := {
  ppoll_frames fds ts (w : W) : same_slots fds (snd (fst (h_ppoll fds ts w))) }.

(** The clock counts microseconds, never runs back, and a sleep that is not
    interrupted takes at least as long as asked. *)
Class PollClock (W : Type) `{HostPoll W} := {
  now_us : W -> Z;
  clock_reads (w : W) : h_now w = (now_us w / 1000, w);
  clock_sleeps ts (w : W) :
    fst (h_nanosleep ts w) = true ->
    now_us w + tv_sec ts * 1000000 + tv_nsec ts / 1000 <= now_us (snd (h_nanosleep ts w));
  clock_ppoll fds ts (w : W) : now_us w <= now_us (snd (h_ppoll fds ts w)) }.

(** ** Frames *)

#[export] Instance same_slots_preorder : PreOrder same_slots.
Proof.
  split; [done|]. intros a b c [H1 H2] [H3 H4]. split; congruence.
Qed.

Lemma same_slots_length fds fds' : same_slots fds fds' -> length fds' = length fds.
Proof. intros [Hf _]. apply (f_equal length) in Hf. by rewrite !length_map in Hf. Qed.

Lemma same_slots_app a b a' b' :
  same_slots a a' -> same_slots b b' -> same_slots (a ++ b) (a' ++ b').
Proof. intros [? ?] [? ?]. split; rewrite !map_app; congruence. Qed.

Lemma same_slots_take n a a' : same_slots a a' -> same_slots (take n a) (take n a').
Proof.
  intros [H1 H2]. split; rewrite <- !firstn_map; congruence.
Qed.

Section frames.
Context `{HostConsts} {W : Type} `{HP : HostPoll W} `{!PacketWatch W} `{!PollFrames W}.
Context (polled_ms : Z) (console : list pollfd -> W -> W).

Lemma ppoll_run fds ts (w : W) :
  exists r fds' w', ppoll fds ts w = Some ((r, fds'), w') /\ same_slots fds fds'.
Proof.
  pose proof (ppoll_frames fds ts w) as Hf. unfold ppoll, step.
  destruct (h_ppoll fds ts w) as [[r fds'] w']. by exists r, fds', w'.
Qed.

(** Inverts one run of a monadic block into the runs of its calls. *)
Ltac run_inv :=
  repeat match goal with
  | Hr : (_ ≫= _) _ = Some _ |- _ => apply bind_Some in Hr as (? & ? & ? & Hr)
  | Hr : mret _ _ = Some _ |- _ => injection Hr as ? ?; subst
  | Hr : (let '(_, _) := ?p in _) _ = Some _ |- _ => destruct p
  | Hr : ppoll ?fds ?ts ?w = Some _ |- _ =>
      let Hs := fresh "Hsame" in
      destruct (ppoll_run fds ts w) as (? & ? & ? & Hr' & Hs);
      rewrite Hr' in Hr; clear Hr'; injection Hr as ? ?; simplify_eq
  | Hr : (if ?b then _ else _) _ = Some _ |- _ => destruct b eqn:?
  | Hr : (match ?o with Some _ => _ | None => _ end) _ = Some _ |- _ => destruct o eqn:?
  | Hr : (match ?o with Ok _ => _ | Err _ => _ end) _ = Some _ |- _ => destruct o eqn:?
  end.

Lemma scan_chunks_frames fuel fds got (w : W) r fds' w' :
  scan_chunks fuel fds got w = Some ((r, fds'), w') -> same_slots fds fds'.
Proof.
  revert fds got w r fds' w'. induction fuel as [|fuel IH]; intros fds got w r fds' w' Hr; [done|].
  simpl in Hr. destruct fds as [|p fds]; [by run_inv|].
  run_inv; rewrite <- (take_drop SHIM_POLL_CHUNK (p :: fds)) at 1;
    apply same_slots_app; eauto; reflexivity.
Qed.

Lemma chunked_frames fuel fds deadline (w : W) r fds' w' :
  chunked fuel fds deadline w = Some ((r, fds'), w') -> same_slots fds fds'.
Proof.
  revert fds w r fds' w'. induction fuel as [|fuel IH]; intros fds w r fds' w' Hr; [done|].
  cbn [chunked] in Hr. run_inv;
    match goal with Hs : scan_chunks _ _ _ _ = _ |- _ => apply scan_chunks_frames in Hs end;
    try done; (etrans; [eassumption|eauto]).
Qed.

Lemma polled_phase_frames fuel fds start deadline budget (w : W) out w' :
  polled_phase fuel fds start deadline budget w = Some (out, w') ->
  match out with Some (_, fds') => same_slots fds fds' | None => True end.
Proof.
  revert fds w out w'. induction fuel as [|fuel IH]; intros fds w out w' Hr; [done|].
  cbn [polled_phase] in Hr. run_inv; try done;
    match goal with Hp : polled_phase _ _ _ _ _ _ = _ |- _ => apply IH in Hp end;
    (destruct out as [[? ?]|]; [by etrans|done]).
Qed.

Lemma host_ppoll_inner_frames fuel fds ts (w : W) r fds' w' :
  host_ppoll_inner polled_ms console fuel fds ts w = Some ((r, fds'), w') ->
  same_slots fds fds'.
Proof.
  unfold host_ppoll_inner. intros Hr. run_inv; try done; simplify_eq/=;
    repeat match goal with
    | Hp : polled_phase _ _ _ _ _ _ = _ |- _ => apply polled_phase_frames in Hp; simpl in Hp
    | Hp : context [let '(_, _) := ?p in _] |- _ => destruct p
    end; try done; etrans; eassumption.
Qed.

Lemma fold_twins_frames fds head twins extra :
  same_slots fds (fold_twins fds head twins extra).
Proof.
  revert head twins extra.
  induction fds as [|p fds IH]; intros [|h head] [|t twins] extra; try done. simpl.
  destruct t as [t|]; [destruct extra as [|x extra]|];
    match goal with |- context [fold_twins fds ?h ?t ?e] => destruct (IH h t e) as [H1 H2] end;
    split; simpl; congruence.
Qed.

Lemma shim_host_ppoll_frames fuel fds ts (w : W) r fds' w' :
  shim_host_ppoll polled_ms console fuel fds ts w = Some ((r, fds'), w') ->
  same_slots fds fds'.
Proof.
  unfold shim_host_ppoll. intros Hr. run_inv;
    repeat match goal with
    | Hp : host_ppoll_inner _ _ _ _ _ _ = _ |- _ => apply host_ppoll_inner_frames in Hp
    end; try done. apply fold_twins_frames.
Qed.
End frames.

(** ** The caller's array comes back in its own coding *)

Definition poll_mask : Z := mask_of SHIM_POLL_TABLE.

Lemma poll_table_bits : Forall (fun row => is_bit (snd row)) SHIM_POLL_TABLE.
Proof.
  repeat (apply Forall_cons; split; [|]); [..|by apply Forall_nil]; simpl;
    match goal with |- is_bit ?x => exists (Z.log2 x) end; by vm_compute.
Qed.

Section restored.
Context `{HostConsts} {W : Type} `{HP : HostPoll W} `{!PacketWatch W} `{!PollFrames W}.
Context (polled_ms : Z) (console : list pollfd -> W -> W).

Lemma shim_poll_slots fuel fds timeout (w : W) r fds' w' :
  shim_poll polled_ms console fuel fds timeout w = Some ((r, fds'), w') ->
  map pf_fd fds' = map pf_fd fds /\
  map pf_events fds' = map (fun p => ev_to_linux (ev_to_host (pf_events p))) fds.
Proof.
  unfold shim_poll. intros Hr.
  apply bind_Some in Hr as ([r1 fds1] & w1 & H1 & Hr).
  apply bind_Some in Hr as ([r2 fds2] & w2 & H2 & Hr).
  injection Hr as ? ?; subst.
  apply shim_host_ppoll_frames in H1.
  assert (H12 : same_slots fds1 fds2).
  { destruct (refused r1 fds1); [|by injection H2 as ? ?; subst].
    apply bind_Some in H2 as (? & ? & _ & H2). by eapply chunked_frames. }
  destruct (transitivity H1 H12) as [Hf He].
  rewrite !map_map in *. split; [exact Hf|].
  transitivity (map ev_to_linux (map pf_events fds2)); [by rewrite map_map|].
  by rewrite He, map_map.
Qed.

(** poll() hands the caller's array back with the descriptors and the
    events it came with, although the wait ran on translated copies in
    place, on a host that keeps its POLL* values apart. *)
Theorem shim_poll_restores fuel fds timeout (w : W) r fds' w' :
  separate SHIM_POLL_TABLE ->
  Forall (fun p => Z.land (pf_events p) poll_mask = pf_events p) fds ->
  shim_poll polled_ms console fuel fds timeout w = Some ((r, fds'), w') ->
  map pf_fd fds' = map pf_fd fds /\ map pf_events fds' = map pf_events fds.
Proof.
  intros Hsep Hmask Hr. apply shim_poll_slots in Hr as [Hf He]. split; [done|].
  rewrite He. apply map_ext_Forall. eapply Forall_impl; [exact Hmask|]. intros p Hp. simpl.
  unfold ev_to_linux, ev_to_host. by rewrite bits_roundtrip by (done || apply poll_table_bits).
Qed.

(** on a host whose POLL* values overlap no event the caller asked for is
    lost from the array; bits may be added. *)
Theorem shim_poll_keeps_events fuel fds timeout (w : W) r fds' w' i p name l :
  shim_poll polled_ms console fuel fds timeout w = Some ((r, fds'), w') ->
  fds !! i = Some p ->
  (name, l) ∈ SHIM_POLL_TABLE -> host_const name <> 0 ->
  has (pf_events p) l = true ->
  exists p', fds' !! i = Some p' /\ pf_fd p' = pf_fd p /\ has (pf_events p') l = true.
Proof.
  intros Hr Hi Hin Hnz Hl. apply shim_poll_slots in Hr as [Hf He].
  assert (Hfi := f_equal (fun m : list Z => m !! i) Hf).
  assert (Hei := f_equal (fun m : list Z => m !! i) He).
  simpl in Hfi, Hei. change (@map) with (@list_fmap) in Hfi, Hei.
  rewrite !list_lookup_fmap, Hi in Hfi, Hei. simpl in Hfi, Hei.
  destruct (fds' !! i) as [p'|] eqn:Hp'; simplify_eq/=. exists p'.
  split_and!; try done. rewrite Hei. eapply bits_roundtrip_superset; eauto.
  pose proof poll_table_bits as Hb. rewrite Forall_forall in Hb.
  destruct (Hb _ Hin) as (k & Hk & Heq). simpl in Heq.
  pose proof (Z.pow_pos_nonneg 2 k). lia.
Qed.
End restored.

(** ** Packet sockets *)

Definition n_twins (twins : list (option pollfd)) : nat := length (omap id twins).

Lemma fold_twins_lookup fds head twins extra i p h t :
  fds !! i = Some p -> head !! i = Some h -> twins !! i = Some t ->
  length extra = n_twins twins ->
  exists q, fold_twins fds head twins extra !! i = Some q /\
    pf_fd q = pf_fd p /\ pf_events q = pf_events p /\
    match t with
    | None => pf_revents q = pf_revents h
    | Some _ => exists x, extra !! n_twins (take i twins) = Some x /\
                          pf_revents q = Z.lor (pf_revents h) (pf_revents x)
    end.
Proof.
  revert head twins extra i.
  induction fds as [|p0 fds IH]; intros [|h0 head] [|t0 twins] extra [|i]; simpl;
    intros Hp Hh Ht Hlen; simplify_eq/=.
  - destruct t as [t|]; [|by eexists].
    destruct extra as [|x extra]; [done|]. eexists. split_and!; try done. by exists x.
  - destruct t0 as [t0|]; [destruct extra as [|x extra]; [done|]|].
    + apply (IH head twins extra i); try done.
      unfold n_twins in *. simpl in Hlen. by simplify_eq.
    + by apply (IH head twins extra i).
Qed.

Section folding.
Context `{HostConsts} {W : Type} `{HP : HostPoll W} `{!PacketWatch W} `{!PollFrames W}.
Context (polled_ms : Z) (console : list pollfd -> W -> W).

(** polling a packet socket polls its second descriptor as well: the
    answer's slots are the caller's, each ready when its descriptor or its
    twin is, and the count is the number of ready slots. *)
Theorem shim_host_ppoll_folds fuel fds ts (w : W) r big w' :
  packet_any w = true -> (length fds <= SHIM_PKT_POLL_MAX)%nat ->
  omap id (map (twin_of w) fds) <> [] ->
  host_ppoll_inner polled_ms console fuel (fds ++ omap id (map (twin_of w) fds)) ts w =
    Some ((r, big), w') ->
  exists fds',
    shim_host_ppoll polled_ms console fuel fds ts w =
      Some ((match r with Err e => Err e | Ok _ => Ok (count_ready fds') end, fds'), w') /\
    length fds' = length fds /\
    forall i p, fds !! i = Some p ->
      exists q h, fds' !! i = Some q /\ big !! i = Some h /\
        pf_fd q = pf_fd p /\ pf_events q = pf_events p /\
        match twin_of w p with
        | None => pf_revents q = pf_revents h
        | Some t => exists j x, big !! (length fds + j)%nat = Some x /\
            pf_fd x = pf_fd t /\ pf_revents q = Z.lor (pf_revents h) (pf_revents x)
        end.
Proof.
  intros Hany Hlen Hextra Hrun.
  destruct (host_ppoll_inner_frames _ _ _ _ _ _ _ _ _ Hrun) as [Hfd _].
  assert (Hne : fds <> []) by (by intros ->).
  set (twins := map (twin_of w) fds) in *.
  assert (Hbig : length big = (length fds + n_twins twins)%nat).
  { apply (f_equal length) in Hfd. rewrite !length_map, length_app in Hfd. exact Hfd. }
  exists (fold_twins fds (take (length fds) big) twins (drop (length fds) big)).
  split_and!.
  - unfold shim_host_ppoll. rewrite bind_reads, Hany.
    rewrite bool_decide_eq_false_2 by done.
    rewrite bool_decide_eq_false_2 by lia. simpl. rewrite bind_reads. fold twins.
    rewrite bool_decide_eq_false_2 by done. by rewrite (bind_run _ _ _ _ _ Hrun).
  - apply same_slots_length, fold_twins_frames.
  - intros i p Hi. pose proof (lookup_lt_Some _ _ _ Hi) as Hlt.
    destruct (lookup_lt_is_Some_2 big i) as [h Hh]; [lia|].
    assert (Ht : twins !! i = Some (twin_of w p)).
    { unfold twins. change (@map) with (@list_fmap). by rewrite list_lookup_fmap, Hi. }
    destruct (fold_twins_lookup fds (take (length fds) big) twins (drop (length fds) big)
                i p h (twin_of w p)) as (q & Hq & Hqf & Hqe & Hqr); try done.
    { by rewrite lookup_take_lt. }
    { rewrite length_drop. lia. }
    exists q, h. split_and!; try done.
    destruct (twin_of w p) as [t|] eqn:Htw; [|done].
    destruct Hqr as (x & Hx & Hqr). rewrite lookup_drop in Hx.
    exists (n_twins (take i twins)), x. split_and!; try done.
    assert (Hfx := f_equal (fun m : list Z => m !! (length fds + n_twins (take i twins))%nat) Hfd).
    simpl in Hfx. change (@map) with (@list_fmap) in Hfx.
    rewrite !list_lookup_fmap, Hx in Hfx. simpl in Hfx.
    rewrite lookup_app_r in Hfx by lia.
    replace (length fds + n_twins (take i twins) - length fds)%nat
      with (length (omap id (take i twins))) in Hfx by (unfold n_twins; lia).
    rewrite <- (take_drop_middle twins i _ Ht) in Hfx at 2.
    rewrite omap_app in Hfx. simpl in Hfx.
    rewrite list_lookup_middle in Hfx by done. by simplify_eq/=.
Qed.
End folding.

(** ** The wait ends, and the retry stays under the limit *)

Section progress.
Context `{HostConsts} {W : Type} `{HP : HostPoll W} `{!PacketWatch W} `{!PollClock W}.
Context (polled_ms : Z) (console : list pollfd -> W -> W).

(** Splits the conditional a run is at. *)
Ltac split_if :=
  match goal with |- is_Some ((if ?c then _ else _) _) => destruct c eqn:? end.

Lemma polled_phase_ends fuel fds start deadline budget (w : W) :
  (start + budget) * 1000 <= now_us w + 500 * Z.of_nat fuel ->
  is_Some (polled_phase (S fuel) fds start deadline budget w).
Proof.
  revert fds w. induction fuel as [|fuel IH]; intros fds w Hfuel;
    [|remember (S fuel) as k eqn:Hk];
    cbn [polled_phase]; unfold now_ms; rewrite bind_step, clock_reads; cbn [fst snd].
  - rewrite (proj2 (Z.leb_le _ _)); [by eexists|].
    pose proof (Z.div_le_mono ((start + budget) * 1000) (now_us w) 1000).
    rewrite Z.div_mul in *; lia.
  - case_match; [by eexists|]. unfold polled_nap. rewrite bind_step.
    set (us := if now_us w / 1000 - start <? SHIM_NT_NAP1_MS then _ else _).
    assert (Hus : us = 500 \/ us = 1000) by (unfold us; case_match; auto).
    clearbody us.
    pose proof (clock_sleeps (Timespec (us / 1000000) (us mod 1000000 * 1000)) w) as Hsl.
    destruct (h_nanosleep _ w) as [ok w1]. cbn [fst snd tv_sec tv_nsec] in *.
    destruct ok; cbn [negb]; [|by eexists]. specialize (Hsl eq_refl).
    assert (Hsum : us / 1000000 * 1000000 + us mod 1000000 * 1000 / 1000 = us)
      by (by destruct Hus as [-> | ->]).
    assert (Hw1 : now_us w + 500 <= now_us w1) by lia.
    unfold ppoll. rewrite bind_step.
    pose proof (clock_ppoll fds (Some zero_ts) w1) as Hpp.
    destruct (h_ppoll fds (Some zero_ts) w1) as [[r fds'] w2]. cbn [fst snd] in *.
    case_match; [by eexists|].
    destruct (0 <=? deadline).
    + unfold now_ms. rewrite (bind_run _ _ w2 (deadline <=? now_us w2 / 1000) w2).
      2:{ by rewrite bind_step, clock_reads. }
      case_match; [by eexists|]. subst k. apply IH. lia.
    + rewrite (bind_run _ _ w2 false w2) by done. subst k. apply IH. lia.
Qed.

(** a wait on NT always comes back: the polled phase ends within two naps
    per millisecond of its budget, then the call parks in the host. *)
Theorem host_ppoll_inner_ends fuel fds ts (w : W) :
  0 <= polled_ms -> 2 * polled_ms + 2 <= Z.of_nat fuel ->
  is_Some (host_ppoll_inner polled_ms console fuel fds ts w).
Proof.
  intros Hms Hfuel. unfold host_ppoll_inner.
  match goal with |- is_Some ((?m ≫= _) _) => assert (Hc : exists w0, m w = Some (tt, w0)) end.
  { case_match; [|by eexists]. unfold modifies. by eexists. }
  destruct Hc as [w0 Hc]. rewrite (bind_run _ _ _ _ _ Hc). clear Hc.
  split_if; [by eexists|]. unfold ppoll. rewrite bind_step.
  destruct (h_ppoll fds (Some zero_ts) w0) as [[r fds'] w1]. cbn [fst snd].
  split_if; [by eexists|]. unfold now_ms. rewrite bind_step, clock_reads. cbn [fst snd].
  match goal with |- is_Some ((polled_phase _ ?f ?s ?d ?b ≫= _) _) =>
    assert (Hp : is_Some (polled_phase fuel f s d b w1)) end.
  { destruct fuel as [|fuel]; [lia|].
    apply polled_phase_ends. pose proof (Z.div_mod (now_us w1) 1000).
    pose proof (Z.mod_pos_bound (now_us w1) 1000).
    destruct is_windows; [lia|]. simpl in *. done. }
  destruct Hp as [[out w2] Hp]. rewrite (bind_run _ _ _ _ _ Hp).
  destruct out as [rf|]; [by eexists|]. split_if; [by eexists|].
  unfold now_ms. rewrite bind_step, clock_reads. cbn [fst snd]. split_if; by eexists.
Qed.
End progress.

(** the retry never hands the host an array it would refuse: its outcome
    depends only on what the host does with at most 32 descriptors. *)
Theorem chunked_small_arrays {W : Type} (h1 h2 : HostPoll W) fuel fds deadline (w : W) :
  (forall w, @h_now W h1 w = @h_now W h2 w) ->
  (forall ts w, @h_nanosleep W h1 ts w = @h_nanosleep W h2 ts w) ->
  (forall fds ts w, (length fds <= SHIM_POLL_CHUNK)%nat ->
     @h_ppoll W h1 fds ts w = @h_ppoll W h2 fds ts w) ->
  @chunked W h1 fuel fds deadline w = @chunked W h2 fuel fds deadline w.
Proof.
  intros Hnow Hnap Hppoll.
  assert (Hscan : forall k l got w,
    @scan_chunks W h1 k l got w = @scan_chunks W h2 k l got w).
  { induction k as [|k IH]; intros l got w0; [done|]. cbn [scan_chunks].
    destruct l as [|p l]; [done|].
    apply bind_ext; [unfold ppoll, step; by rewrite Hppoll by (rewrite length_take; lia)|].
    intros [[got'|e] c] w1; [|done]. apply bind_ext; [apply IH|done]. }
  assert (Hnap' : forall us w, @polled_nap W h1 us w = @polled_nap W h2 us w).
  { intros us w0. unfold polled_nap, step. by rewrite Hnap. }
  revert fds w. induction fuel as [|fuel IH]; intros fds w; [done|]. cbn [chunked].
  apply bind_ext; [apply Hscan|]. intros [[got|e] fds'] w1; [|done].
  destruct (negb _); [done|]. apply bind_ext.
  { destruct (0 <=? deadline); [|done]. apply bind_ext; [|done].
    unfold now_ms, step. by rewrite Hnow. }
  intros [l|] w2; [destruct (l <=? 0); [done|]|];
    (apply bind_ext; [apply Hnap'|]); by intros [] w3.
Qed.

(** ** The theorems on a concrete machine *)

Section toy_laws.
Context (rows : list (Z * Z)) (nt : bool).

Lemma toy_ppoll_frames fds ts (w : Z) : same_slots fds (snd (fst (toy_ppoll rows fds ts w))).
Proof. split; simpl; rewrite map_map; done. Qed.

Definition toy_frames : @PollFrames Z (toy_poll rows nt) :=
  @Build_PollFrames Z (toy_poll rows nt) toy_ppoll_frames.

Lemma toy_sleeps ts (w : Z) :
  fst (@h_nanosleep Z (toy_poll rows nt) ts w) = true ->
  w + tv_sec ts * 1000000 + tv_nsec ts / 1000 <= snd (@h_nanosleep Z (toy_poll rows nt) ts w).
Proof. intros _. apply Z.eq_le_incl, eq_refl. Defined.

Lemma toy_ppoll_time fds ts (w : Z) : w <= snd (toy_ppoll rows fds ts w).
Proof.
  unfold toy_ppoll. cbn [snd]. destruct (_ =? 0); [|lia]. destruct ts; lia.
Qed.

Definition toy_clock : @PollClock Z (toy_poll rows nt) :=
  @Build_PollClock Z (toy_poll rows nt) (fun w => w)
    (fun _ => eq_refl) toy_sleeps toy_ppoll_time.
End toy_laws.

(** Descriptor 7 is a packet socket whose twin is 8. *)
Definition toy_packet : PacketWatch Z := {|
  packet_any _ := true;
  packet_secondary _ fd := if fd =? 7 then 8 else -1 |}.

Lemma linux_poll_separate : @separate linux_consts SHIM_POLL_TABLE.
Proof.
  split.
  - intros n l Hin. repeat (apply elem_of_cons in Hin as [Hin|Hin]; [simplify_eq; by vm_compute|]).
    by apply elem_of_nil in Hin.
  - intros n1 l1 n2 l2 H1 H2.
    repeat (apply elem_of_cons in H1 as [H1|H1];
      [simplify_eq; repeat (apply elem_of_cons in H2 as [H2|H2]; [simplify_eq; by vm_compute|]);
       by apply elem_of_nil in H2|]).
    by apply elem_of_nil in H1.
Qed.

Lemma shim_poll_restores_witness :
  exists r fds',
    @shim_poll linux_consts Z (toy_poll [(5, 1)] false) toy_packet 250 (fun _ w => w) 10
      [PollFd 5 (1 + 64) 0] 20 0 = Some ((r, fds'), 0) /\
    (map pf_fd fds' = map pf_fd [PollFd 5 (1 + 64) 0] /\
     map pf_events fds' = map pf_events [PollFd 5 (1 + 64) 0]).
Proof.
  eexists _, _. split; [vm_compute; reflexivity|].
  eapply (@shim_poll_restores linux_consts Z (toy_poll [(5, 1)] false) toy_packet
    (toy_frames _ _) 250 (fun _ w => w) 10 [PollFd 5 (1 + 64) 0] 20 0).
  - exact linux_poll_separate.
  - by repeat constructor.
  - vm_compute. reflexivity.
Defined.

Lemma shim_poll_keeps_events_witness :
  exists r fds' p',
    @shim_poll nt_consts Z (toy_poll [(5, 0x100)] false) toy_packet 250 (fun _ w => w) 10
      [PollFd 5 64 0] 20 0 = Some ((r, fds'), 0) /\
    fds' !! 0%nat = Some p' /\ pf_fd p' = 5 /\ has (pf_events p') 64 = true.
Proof.
  destruct (@shim_poll_keeps_events nt_consts Z (toy_poll [(5, 0x100)] false) toy_packet
    (toy_frames _ _) 250 (fun _ w => w) 10 [PollFd 5 64 0] 20 0 (Ok 1)
    [PollFd 5 (64 + 1) (64 + 1)] 0 0%nat (PollFd 5 64 0) "POLLRDNORM"%string 64)
    as (p' & Hp & Hfd & Hev);
    [vm_compute; reflexivity|reflexivity|set_solver|by vm_compute|reflexivity|].
  exists (Ok 1), [PollFd 5 (64 + 1) (64 + 1)], p'. split_and!; [vm_compute; reflexivity|done..].
Defined.

Lemma shim_host_ppoll_folds_witness :
  exists fds',
    @shim_host_ppoll Z (toy_poll [(8, 1)] false) toy_packet 250 (fun _ w => w) 10
      [PollFd 7 1 0] (Some zero_ts) 0 = Some ((Ok (count_ready fds'), fds'), 0) /\
    length fds' = 1%nat.
Proof.
  destruct (@shim_host_ppoll_folds Z (toy_poll [(8, 1)] false) toy_packet (toy_frames _ _)
    250 (fun _ w => w) 10 [PollFd 7 1 0] (Some zero_ts) 0 (Ok 1) [PollFd 7 1 0; PollFd 8 1 1] 0)
    as (fds' & Hr & Hlen & _);
    [reflexivity|by vm_compute; lia|done|vm_compute; reflexivity|].
  by exists fds'.
Defined.

Lemma host_ppoll_inner_ends_witness :
  0 <= 250 /\
  is_Some (@host_ppoll_inner Z (toy_poll [] true) 250 (fun _ w => w) 502 [PollFd 5 1 0] None 0).
Proof.
  split; [lia|].
  apply (@host_ppoll_inner_ends Z (toy_poll [] true) (toy_clock _ _)); [lia|].
  vm_compute. discriminate.
Defined.

Lemma chunked_small_arrays_witness :
  let h1 := toy_poll [(5, 1)] false in
  let h2 := {| is_windows := false; h_now := @h_now Z h1; h_nanosleep := @h_nanosleep Z h1;
               h_ppoll fds ts w := if bool_decide (length fds <= SHIM_POLL_CHUNK)%nat
                                   then @h_ppoll Z h1 fds ts w else ((Err EINVAL, fds), w);
               h_poll := @h_poll Z h1 |} in
  @chunked Z h1 10 (replicate 40 (PollFd 5 1 0)) 100 0 =
  @chunked Z h2 10 (replicate 40 (PollFd 5 1 0)) 100 0.
Proof.
  intros h1 h2. apply (chunked_small_arrays h1 h2); [done|done|].
  intros fds ts w Hlen. simpl. by rewrite bool_decide_eq_true_2.
Defined.
