(* ===== verification/EpollSets.v ===== *)
(** * shim/epoll.c, the interest lists

    The table [g_sets] of emulated epoll instances, the handles that name
    them, [epoll_create1], [epoll_ctl] and the re-arming hooks. Every
    definition is one critical section of the C code: it takes the table and
    returns it, with the descriptors it closes or writes as a list, in order.
    The theorems state the table's invariant, that every operation keeps it,
    and that [epoll_ctl] refines a finite map from descriptors to
    registrations. *)
From S2P Require Import Prelude Host.

Definition SHIM_EPOLLIN := 0x001.
Definition SHIM_EPOLLPRI := 0x002.
Definition SHIM_EPOLLOUT := 0x004.
Definition SHIM_EPOLLERR := 0x008.
Definition SHIM_EPOLLHUP := 0x010.
Definition SHIM_EPOLLRDHUP := 0x2000.
Definition SHIM_EPOLLONESHOT := 0x40000000.
Definition SHIM_EPOLLET := 0x80000000.
Definition SHIM_EPOLL_CTL_ADD := 1.
Definition SHIM_EPOLL_CTL_DEL := 2.
Definition SHIM_EPOLL_CTL_MOD := 3.
Definition SHIM_ARM_IN := 1.
Definition SHIM_ARM_OUT := 2.
Definition SHIM_EPOLL_CLOEXEC := 0x80000.
Definition SHIM_EPOLL_MAX_HANDLES : nat := 8.
Definition SHIM_EPOLL_MAX_SETS : nat := 32.

(** struct shim_epoll_event, as it crosses the call boundary. *)
Record epoll_event := Event { ev_events : Z; ev_data : Z }.

(** struct shim_epoll_entry *)
Record epoll_entry := Entry {
  en_fd : Z;
  en_events : Z;
  en_data : Z;
  en_armed : Z }.

(** struct shim_epoll_set: [handles[0 .. nhandles)] and
    [entries[0 .. count)] are the two lists. *)
Record epoll_set := ESet {
  es_used : bool;
  es_handles : list Z;
  es_waker : Z;
  es_entries : list epoll_entry;
  es_cap : nat }.

#[export] Instance epoll_event_eq_dec : EqDecision epoll_event.
Proof. solve_decision. Defined.
#[export] Instance epoll_entry_eq_dec : EqDecision epoll_entry.
Proof. solve_decision. Defined.
#[export] Instance epoll_set_eq_dec : EqDecision epoll_set.
Proof. solve_decision. Defined.

(** What [memset(&g_sets[i], 0, ...)] leaves, and the initial table. *)
Definition zero_set : epoll_set := ESet false [] 0 [] 0.
Definition g_sets_init : list epoll_set := replicate SHIM_EPOLL_MAX_SETS zero_set.

Definition with_handles (s : epoll_set) hs : epoll_set :=
  ESet (es_used s) hs (es_waker s) (es_entries s) (es_cap s).
Definition with_entries (s : epoll_set) es : epoll_set :=
  ESet (es_used s) (es_handles s) (es_waker s) es (es_cap s).

(** The host calls a critical section makes on the way out. *)
Inductive fd_call :=
  | FcntlSetNonblock (fd fl : Z)   (* fcntl(fd, F_SETFL, fl | O_NONBLOCK) *)
  | FcntlSetCloexec (fd : Z)       (* fcntl(fd, F_SETFD, FD_CLOEXEC) *)
  | CloseFd (fd : Z).

#[export] Instance fd_call_eq_dec : EqDecision fd_call.
Proof. solve_decision. Defined.

(** ** Finding a set by one of its handles *)

Definition owns (fd : Z) (s : epoll_set) : bool :=
  es_used s && existsb (Z.eqb fd) (es_handles s).

Definition set_by_handle_locked (fd : Z) (sets : list epoll_set) : option nat :=
  find_index (owns fd) sets.

Definition note_dup (use_syscalls : bool) (oldfd newfd : Z)
    (sets : list epoll_set) : list epoll_set :=
  if (oldfd =? newfd) || use_syscalls then sets
  else
    match set_by_handle_locked oldfd sets with
    | Some i =>
        match set_by_handle_locked newfd sets, sets !! i with
        | None, Some s =>
            if bool_decide (length (es_handles s) < SHIM_EPOLL_MAX_HANDLES)%nat
            then <[i := with_handles s (es_handles s ++ [newfd])]> sets
            else sets
        | _, _ => sets
        end
    | None => sets
    end.

(** ** Arming *)

Definition effective_armed (lt_forced : bool) (e : epoll_entry) : Z :=
  if negb (has (en_events e) (Z.lor SHIM_EPOLLET SHIM_EPOLLONESHOT)) || lt_forced
  then Z.lor SHIM_ARM_IN SHIM_ARM_OUT
  else en_armed e.

(** cosmo's [POLL*] constants are resolved at run time; POLLRDHUP is under
    [#ifdef]. *)
Section arming.
Context `{HostConsts}.

Definition POLLIN : Z := host_const "POLLIN".
Definition POLLPRI : Z := host_const "POLLPRI".
Definition POLLOUT : Z := host_const "POLLOUT".
Definition POLLERR : Z := host_const "POLLERR".
Definition POLLHUP : Z := host_const "POLLHUP".
Definition POLLNVAL : Z := host_const "POLLNVAL".
Definition POLLRDHUP : option Z :=
  if host_defines "POLLRDHUP" then Some (host_const "POLLRDHUP") else None.

Definition epoll_to_poll (e armed : Z) : Z :=
  let p := 0 in
  let p :=
    if has armed SHIM_ARM_IN then
      let p := if has e SHIM_EPOLLIN then Z.lor p POLLIN else p in
      let p := if has e SHIM_EPOLLPRI then Z.lor p POLLPRI else p in
      match POLLRDHUP with
      | Some rdhup => if has e SHIM_EPOLLRDHUP then Z.lor p rdhup else p
      | None => p
      end
    else p in
  if has armed SHIM_ARM_OUT && has e SHIM_EPOLLOUT then Z.lor p POLLOUT else p.

Definition poll_to_epoll (r : Z) : Z :=
  let e := 0 in
  let e := if has r POLLIN then Z.lor e SHIM_EPOLLIN else e in
  let e := if has r POLLOUT then Z.lor e SHIM_EPOLLOUT else e in
  let e := if has r POLLPRI then Z.lor e SHIM_EPOLLPRI else e in
  let e := if has r POLLERR then Z.lor e SHIM_EPOLLERR else e in
  let e := if has r POLLHUP then Z.lor e SHIM_EPOLLHUP else e in
  let e := match POLLRDHUP with
           | Some rdhup => if has r rdhup then Z.lor e SHIM_EPOLLRDHUP else e
           | None => e
           end in
  if has r POLLNVAL then Z.lor e SHIM_EPOLLERR else e.
End arming.

(** ** Retiring a dead handle *)

(** The inner loop of [forget_fd]: [handles[h] = handles[--nhandles]; h--]. *)
Fixpoint drop_handle (fuel : nat) (fd : Z) (h : nat) (hs : list Z) (hit : bool)
    : list Z * bool :=
  match fuel with
  | O => (hs, hit)
  | S fuel' =>
      match hs !! h with
      | None => (hs, hit)
      | Some x =>
          if x =? fd then drop_handle fuel' fd h (swap_remove h hs) true
          else drop_handle fuel' fd (S h) hs hit
      end
  end.

Definition forget_in_set (fd : Z) (s : epoll_set) : epoll_set * list Z :=
  if es_used s then
    let '(hs, hit) := drop_handle (length (es_handles s)) fd 0 (es_handles s) false in
    if hit && bool_decide (hs = []) then (zero_set, [es_waker s])
    else (with_handles s hs, [])
  else (s, []).

(** The second component is what the call appends to [closes]. *)
Definition forget_fd (fd : Z) (sets : list epoll_set) : list epoll_set * list Z :=
  (map (fun s => fst (forget_in_set fd s)) sets,
   concat (map (fun s => snd (forget_in_set fd s)) sets)).

(** The second sweep of [emu_create1]: sets none of whose handles is open. *)
Definition reclaim_in_set (alive : Z -> bool) (s : epoll_set) : epoll_set * list Z :=
  if es_used s then
    if existsb alive (es_handles s) then (s, [])
    else (zero_set, [es_waker s])
  else (s, []).

Definition reclaim (alive : Z -> bool) (sets : list epoll_set)
    : list epoll_set * list Z :=
  (map (fun s => fst (reclaim_in_set alive s)) sets,
   concat (map (fun s => snd (reclaim_in_set alive s)) sets)).

(** ** epoll_create1 *)

(** The fcntl calls on one end of the pipe; [getfl] answers F_GETFL, with
    [None] for [-1]. *)
Definition prepare_end (getfl : Z -> option Z) (flags fd : Z) : list fd_call :=
  match getfl fd with Some fl => [FcntlSetNonblock fd fl] | None => [] end ++
  if has flags SHIM_EPOLL_CLOEXEC then [FcntlSetCloexec fd] else [].

(** [pipe_rc] is what pipe() answered and [alive fd] whether
    [fcntl(fd, F_GETFD)] succeeds. *)
Definition emu_create1 (pipe_rc : res (Z * Z)) (getfl : Z -> option Z)
    (alive : Z -> bool) (flags : Z) (sets : list epoll_set)
    : res Z * list epoll_set * list fd_call :=
  match pipe_rc with
  | Err e => (Err e, sets, [])
  | Ok (p0, p1) =>
      let prep := prepare_end getfl flags p0 ++ prepare_end getfl flags p1 in
      let '(sets, closes0) := forget_fd p0 sets in
      let '(sets, closes1) := forget_fd p1 sets in
      let '(sets, closes2) := reclaim alive sets in
      let closes := map CloseFd (closes0 ++ closes1 ++ closes2) in
      match find_index (fun s => negb (es_used s)) sets with
      | None =>
          (Err EMFILE, sets, prep ++ closes ++ [CloseFd p0; CloseFd p1])
      | Some i =>
          (Ok p0, <[i := ESet true [p0] p1 [] 0]> sets, prep ++ closes)
      end
  end.

(** ** epoll_ctl *)

Definition find_entry (s : epoll_set) (fd : Z) : option nat :=
  find_index (fun e => en_fd e =? fd) (es_entries s).

Definition full_arm : Z := Z.lor SHIM_ARM_IN SHIM_ARM_OUT.

(** The switch under [s->lock]. [mem] is whether realloc succeeds. *)
Definition ctl_locked (mem : bool) (op fd : Z) (ev : epoll_event) (s : epoll_set)
    : res unit * epoll_set :=
  let e := find_entry s fd in
  if op =? SHIM_EPOLL_CTL_ADD then
    match e with
    | Some _ => (Err EEXIST, s)
    | None =>
        let grow := bool_decide (length (es_entries s) = es_cap s) in
        if grow && negb mem then (Err ENOMEM, s)
        else
          let cap := if grow
                     then (if bool_decide (es_cap s = 0%nat) then 8 else es_cap s * 2)%nat
                     else es_cap s in
          (Ok tt, ESet (es_used s) (es_handles s) (es_waker s)
             (es_entries s ++ [Entry fd (ev_events ev) (ev_data ev) full_arm]) cap)
    end
  else if op =? SHIM_EPOLL_CTL_MOD then
    match e with
    | None => (Err ENOENT, s)
    | Some i =>
        (Ok tt, with_entries s
           (<[i := Entry fd (ev_events ev) (ev_data ev) full_arm]> (es_entries s)))
    end
  else if op =? SHIM_EPOLL_CTL_DEL then
    match e with
    | None => (Err ENOENT, s)
    | Some i => (Ok tt, with_entries s (swap_remove i (es_entries s)))
    end
  else (Err EINVAL, s).

(** The third component lists the wakers written on the way out. A NULL
    event pointer is [None]. *)
Definition emu_ctl (mem : bool) (epfd op fd : Z) (ev : option epoll_event)
    (sets : list epoll_set) : res unit * list epoll_set * list Z :=
  match set_by_handle_locked epfd sets with
  | None => (Err EBADF, sets, [])
  | Some i =>
      if fd =? epfd then (Err EINVAL, sets, [])
      else if ((op =? SHIM_EPOLL_CTL_ADD) || (op =? SHIM_EPOLL_CTL_MOD))
              && bool_decide (ev = None) then (Err EFAULT, sets, [])
      else
        match sets !! i with
        | None => (Err EBADF, sets, [])
        | Some s =>
            let '(rc, s') := ctl_locked mem op fd (default (Event 0 0) ev) s in
            (rc, <[i := s']> sets,
             match rc with Ok _ => [es_waker s'] | Err _ => [] end)
        end
  end.

(** ** Re-arming, from the read, write and send shims *)

Definition rearm_in_set (fd bits : Z) (s : epoll_set) : epoll_set * list Z :=
  if es_used s then
    match find_entry s fd with
    | Some i =>
        match es_entries s !! i with
        | Some e =>
            if has (en_events e) SHIM_EPOLLET && negb (has (en_events e) SHIM_EPOLLONESHOT)
            then
              let neu := Z.lor (en_armed e) bits in
              if neu =? en_armed e then (s, [])
              else (with_entries s
                      (<[i := Entry (en_fd e) (en_events e) (en_data e) neu]> (es_entries s)),
                    [es_waker s])
            else (s, [])
        | None => (s, [])
        end
    | None => (s, [])
    end
  else (s, []).

(** The second component lists the wakers written once the locks are free. *)
Definition rearm (fd bits : Z) (sets : list epoll_set) : list epoll_set * list Z :=
  (map (fun s => fst (rearm_in_set fd bits s)) sets,
   concat (map (fun s => snd (rearm_in_set fd bits s)) sets)).

Definition rearm_in (use_syscalls : bool) (fd : Z) sets :=
  if (fd <? 0) || use_syscalls then (sets, []) else rearm fd SHIM_ARM_IN sets.

Definition rearm_out (use_syscalls : bool) (fd : Z) sets :=
  if (fd <? 0) || use_syscalls then (sets, []) else rearm fd SHIM_ARM_OUT sets.
(** ** The table's invariant *)

Definition all_handles (sets : list epoll_set) : list Z :=
  concat (map es_handles sets).

Definition set_ok (s : epoll_set) : Prop :=
  if es_used s then
    es_handles s <> [] /\
    (length (es_handles s) <= SHIM_EPOLL_MAX_HANDLES)%nat /\
    NoDup (en_fd <$> es_entries s) /\
    (length (es_entries s) <= es_cap s)%nat
  else s = zero_set.

(** Slots are either blank or sound, and no handle names two sets. *)
Definition sets_ok (sets : list epoll_set) : Prop :=
  length sets = SHIM_EPOLL_MAX_SETS /\
  Forall set_ok sets /\
  NoDup (all_handles sets).

Lemma drop_handle_perm fuel fd h hs hit :
  (length hs - h <= fuel)%nat -> fd ∉ take h hs ->
  let '(hs', hit') := drop_handle fuel fd h hs hit in
  Permutation hs' (filter (fun x => x <> fd) hs) /\
  hit' = hit || bool_decide (fd ∈ hs).
Proof.
  assert (Hnone : forall l : list Z, fd ∉ l -> l = filter (fun x => x <> fd) l).
  { intros l Hl. induction l as [|x l IH]; [done|].
    rewrite filter_cons_True by set_solver. f_equal. apply IH. set_solver. }
  revert h hs hit. induction fuel as [|fuel IH]; intros h hs hit Hf Hpre; simpl.
  - rewrite take_ge in Hpre by lia. split; [by rewrite <- Hnone|].
    rewrite bool_decide_eq_false_2 by done. by rewrite orb_false_r.
  - destruct (hs !! h) as [x|] eqn:Hx.
    2:{ apply lookup_ge_None in Hx. rewrite take_ge in Hpre by lia.
        split; [by rewrite <- Hnone|].
        rewrite bool_decide_eq_false_2 by done. by rewrite orb_false_r. }
    pose proof (lookup_lt_Some _ _ _ Hx) as Hlt.
    destruct (Z.eqb_spec x fd) as [->|Hne].
    + specialize (IH h (swap_remove h hs) true).
      rewrite length_swap_remove, take_swap_remove in IH by done.
      specialize (IH ltac:(lia) Hpre).
      destruct (drop_handle fuel fd h (swap_remove h hs) true) as [hs' hit'].
      destruct IH as [IH ->]. split.
      * rewrite IH. rewrite (swap_remove_perm hs h fd Hx) at 2.
        rewrite filter_cons_False by naive_solver. done.
      * rewrite (bool_decide_eq_true_2 (fd ∈ hs)); [by rewrite orb_true_r|].
        by eapply list_elem_of_lookup_2.
    + apply IH; [lia|]. rewrite (take_S_r _ _ _ Hx). set_solver.
Qed.

Lemma forget_in_set_handles fd s :
  set_ok s ->
  Permutation (es_handles (fst (forget_in_set fd s)))
    (filter (fun x => x <> fd) (es_handles s)).
Proof.
  unfold forget_in_set, set_ok. destruct (es_used s) eqn:Hu.
  2:{ intros ->. done. }
  intros _. pose proof (drop_handle_perm (length (es_handles s)) fd 0 (es_handles s) false) as H.
  rewrite take_0 in H. specialize (H ltac:(lia) ltac:(set_solver)).
  destruct (drop_handle _ _ _ _ _) as [hs hit]. destruct H as [H ->].
  simpl. case_match eqn:Hc; simpl; [|done].
  apply andb_true_iff in Hc as [_ ->%bool_decide_eq_true]. done.
Qed.

Lemma forget_in_set_ok fd s : set_ok s -> set_ok (fst (forget_in_set fd s)).
Proof.
  intros Hok. pose proof (forget_in_set_handles fd s Hok) as Hp.
  unfold forget_in_set in *. revert Hok. unfold set_ok.
  destruct (es_used s) eqn:Hu; [|by intros ->].
  intros (Hne & Hlen & Hnd & Hcap).
  pose proof (drop_handle_perm (length (es_handles s)) fd 0 (es_handles s) false) as H.
  rewrite take_0 in H. specialize (H ltac:(lia) ltac:(set_solver)).
  destruct (drop_handle _ _ _ _ _) as [hs hit]. destruct H as [H ->].
  simpl in *. destruct (bool_decide (fd ∈ es_handles s)) eqn:Hin; simpl in *.
  - destruct (bool_decide (hs = [])) eqn:Hhs; simpl in *; [done|].
    rewrite Hu. apply bool_decide_eq_false in Hhs. split_and!; try done.
    rewrite H. etrans; [apply length_filter|done].
  - rewrite Hu. split_and!; try done.
    + intros ->. apply Hne. apply bool_decide_eq_false in Hin.
      destruct (es_handles s) as [|x l]; [done|].
      apply Permutation_nil in H. rewrite filter_cons_True in H by set_solver. done.
    + rewrite H. etrans; [apply length_filter|done].
Qed.

(** ** Handles *)

Lemma all_handles_insert sets i s s' :
  sets !! i = Some s ->
  Permutation (all_handles (<[i := s']> sets) ++ es_handles s)
    (es_handles s' ++ all_handles sets).
Proof.
  intros Hi. unfold all_handles. rewrite <- (take_drop_middle sets i s Hi) at 2.
  rewrite insert_take_drop by (by eapply lookup_lt_Some).
  rewrite !map_app, !concat_app. simpl. solve_Permutation.
Qed.

Lemma all_handles_elem sets fd :
  fd ∈ all_handles sets <-> exists i s, sets !! i = Some s /\ fd ∈ es_handles s.
Proof.
  unfold all_handles. rewrite <- flat_map_concat_map, list_elem_of_In, in_flat_map.
  setoid_rewrite <- list_elem_of_In. setoid_rewrite list_elem_of_lookup at 1.
  naive_solver.
Qed.

Lemma all_handles_unique sets i j s t fd :
  NoDup (all_handles sets) ->
  sets !! i = Some s -> fd ∈ es_handles s ->
  sets !! j = Some t -> fd ∈ es_handles t -> i = j.
Proof.
  unfold all_handles. revert i j. induction sets as [|u sets IH]; intros i j; [done|].
  simpl. rewrite NoDup_app. intros (_ & Hdisj & Hnd) Hi Hs Hj Ht.
  assert (Hin : forall k v, sets !! k = Some v -> fd ∈ es_handles v ->
                       fd ∈ concat (map es_handles sets)).
  { intros k v ? ?. apply all_handles_elem. eauto. }
  destruct i as [|i], j as [|j]; simplify_eq/=; try done.
  - exfalso. eapply Hdisj; eauto.
  - exfalso. eapply Hdisj; eauto.
  - f_equal. eauto.
Qed.

Lemma owns_spec sets i s fd :
  sets_ok sets -> sets !! i = Some s -> owns fd s = true <-> fd ∈ es_handles s.
Proof.
  intros (_ & Hall & _) Hi. unfold owns.
  rewrite andb_true_iff, existsb_eqb_elem_of.
  pose proof (Forall_lookup_1 _ _ _ _ Hall Hi) as Hok. unfold set_ok in Hok.
  destruct (es_used s); [naive_solver|]. subst. simpl. set_solver.
Qed.

Lemma set_by_handle_Some sets fd i :
  sets_ok sets ->
  set_by_handle_locked fd sets = Some i <->
  exists s, sets !! i = Some s /\ fd ∈ es_handles s.
Proof.
  intros Hok. unfold set_by_handle_locked. split.
  - intros (s & Hs & Ho)%find_index_Some. exists s. split; [done|].
    by eapply owns_spec.
  - intros (s & Hs & Hfd). destruct (find_index (owns fd) sets) as [j|] eqn:Hj.
    + apply find_index_Some in Hj as (t & Ht & Ho). f_equal.
      eapply all_handles_unique; [apply Hok|..]; eauto. by eapply owns_spec.
    + apply find_index_None in Hj.
      pose proof (Forall_lookup_1 _ _ _ _ Hj Hs) as Hf. simpl in Hf.
      apply (owns_spec sets i s) in Hfd; congruence.
Qed.

Lemma set_by_handle_None sets fd :
  sets_ok sets -> set_by_handle_locked fd sets = None <-> fd ∉ all_handles sets.
Proof.
  intros Hok. rewrite all_handles_elem.
  destruct (set_by_handle_locked fd sets) as [i|] eqn:Hi.
  - apply set_by_handle_Some in Hi; naive_solver.
  - split; [|done]. intros _ (i & Hs). apply set_by_handle_Some in Hs; congruence.
Qed.

(** ** Sweeps over the table keep the invariant *)

Lemma NoDup_submseteq_inv {A} (l k : list A) : l ⊆+ k -> NoDup k -> NoDup l.
Proof.
  intros [k' Hk]%submseteq_Permutation Hnd. rewrite Hk in Hnd.
  by apply NoDup_app in Hnd as [? _].
Qed.

Lemma sets_ok_map (f : epoll_set -> epoll_set) sets :
  (forall s, set_ok s -> set_ok (f s)) ->
  (forall s, set_ok s -> es_handles (f s) ⊆+ es_handles s) ->
  sets_ok sets -> sets_ok (map f sets).
Proof.
  intros Hf Hh (Hlen & Hall & Hnd). split_and!.
  - by rewrite length_map.
  - apply Forall_fmap. eapply Forall_impl; [exact Hall|]. done.
  - eapply NoDup_submseteq_inv; [|exact Hnd]. clear Hlen Hnd. unfold all_handles.
    induction Hall as [|s sets Hs Hall IH]; [done|]. simpl.
    apply submseteq_app; auto.
Qed.

Lemma forget_fd_ok fd sets : sets_ok sets -> sets_ok (fst (forget_fd fd sets)).
Proof.
  apply sets_ok_map; [apply forget_in_set_ok|].
  intros s Hs. rewrite forget_in_set_handles by done. apply sublist_submseteq, sublist_filter.
Qed.

Lemma forget_fd_handles fd sets :
  sets_ok sets ->
  Permutation (all_handles (fst (forget_fd fd sets)))
    (filter (fun x => x <> fd) (all_handles sets)).
Proof.
  intros (_ & Hall & _). unfold all_handles. simpl.
  induction Hall as [|s sets Hs Hall IH]; [done|]. simpl.
  rewrite filter_app, IH, forget_in_set_handles by done. done.
Qed.

Lemma reclaim_in_set_cases alive s :
  fst (reclaim_in_set alive s) = s \/ fst (reclaim_in_set alive s) = zero_set.
Proof. unfold reclaim_in_set. repeat case_match; simpl; auto. Qed.

Lemma reclaim_ok alive sets : sets_ok sets -> sets_ok (fst (reclaim alive sets)).
Proof.
  apply sets_ok_map; intros s Hs; destruct (reclaim_in_set_cases alive s) as [->| ->];
    try done. apply submseteq_nil_l.
Qed.

Lemma reclaim_handles alive sets fd :
  fd ∈ all_handles (fst (reclaim alive sets)) -> fd ∈ all_handles sets.
Proof.
  rewrite !all_handles_elem. intros (i & s & Hi & Hfd). simpl in Hi.
  apply list_lookup_fmap_Some in Hi as (t & -> & Ht).
  destruct (reclaim_in_set_cases alive t) as [E|E]; rewrite E in Hfd; [eauto|].
  simpl in Hfd. set_solver.
Qed.

Lemma sets_ok_insert sets i s s' :
  sets_ok sets -> sets !! i = Some s -> set_ok s' ->
  NoDup (es_handles s') ->
  (forall fd, fd ∈ es_handles s' -> fd ∈ es_handles s \/ fd ∉ all_handles sets) ->
  sets_ok (<[i := s']> sets).
Proof.
  intros (Hlen & Hall & Hnd) Hi Hs' Hnd' Hfresh. split_and!.
  - by rewrite length_insert.
  - by apply Forall_insert.
  - unfold all_handles in *. rewrite <- (take_drop_middle sets i s Hi) in Hnd.
    rewrite insert_take_drop by (by eapply lookup_lt_Some).
    assert (Hel : forall fd, fd ∈ es_handles s' ->
                        fd ∉ concat (map es_handles (take i sets)) /\
                        fd ∉ concat (map es_handles (drop (S i) sets))).
    { intros fd Hfd. destruct (Hfresh fd Hfd) as [Hin|Hout].
      - rewrite map_app, concat_app in Hnd. simpl in Hnd.
        apply NoDup_app in Hnd as (_ & Hd1 & Hnd). apply NoDup_app in Hnd as (_ & Hd2 & _).
        set_solver.
      - rewrite <- (take_drop_middle sets i s Hi) in Hout.
        rewrite map_app, concat_app in Hout. simpl in Hout. set_solver. }
    rewrite map_app, concat_app in Hnd |- *. simpl in Hnd |- *.
    rewrite !NoDup_app in Hnd |- *. set_solver.
Qed.

Lemma set_ok_handles_NoDup sets i s :
  sets_ok sets -> sets !! i = Some s -> NoDup (es_handles s).
Proof.
  intros (_ & _ & Hnd) Hi. unfold all_handles in Hnd.
  rewrite <- (take_drop_middle sets i s Hi) in Hnd.
  rewrite map_app, concat_app in Hnd. simpl in Hnd.
  apply NoDup_app in Hnd as (_ & _ & Hnd). by apply NoDup_app in Hnd as (? & _).
Qed.

Lemma set_by_handle_lookup sets fd i :
  sets_ok sets -> set_by_handle_locked fd sets = Some i ->
  exists s, sets !! i = Some s /\ fd ∈ es_handles s /\ es_used s = true /\ set_ok s.
Proof.
  intros Hok Hi. apply set_by_handle_Some in Hi as (s & Hs & Hfd); [|done].
  pose proof (Forall_lookup_1 _ _ _ _ (proj1 (proj2 Hok)) Hs) as Hsok.
  exists s. split_and!; try done. unfold set_ok in Hsok.
  destruct (es_used s); [done|]. subst. simpl in Hfd. set_solver.
Qed.

(** Duplicating an epoll descriptor keeps the table sound. *)
Lemma note_dup_ok us oldfd newfd sets :
  sets_ok sets -> sets_ok (note_dup us oldfd newfd sets).
Proof.
  intros Hok. unfold note_dup. case_match; [done|].
  destruct (set_by_handle_locked oldfd sets) as [i|] eqn:Hi; [|done].
  destruct (set_by_handle_locked newfd sets) as [j|] eqn:Hj; [done|].
  destruct (set_by_handle_lookup _ _ _ Hok Hi) as (s & Hs & Hin & Hu & Hsok).
  rewrite Hs. case_bool_decide as Hlen; [|done].
  apply set_by_handle_None in Hj; [|done].
  assert (Hnot : newfd ∉ es_handles s).
  { intros Hn. apply Hj, all_handles_elem. eauto. }
  eapply sets_ok_insert; eauto; simpl.
  - unfold set_ok in *. simpl. rewrite Hu in *. rewrite length_app. simpl.
    destruct Hsok as (? & ? & ? & ?). split_and!; try done; [|unfold SHIM_EPOLL_MAX_HANDLES in *; lia].
    by destruct (es_handles s).
  - apply NoDup_app. split_and!; [by eapply set_ok_handles_NoDup|set_solver|apply NoDup_singleton].
  - intros fd. rewrite elem_of_app, list_elem_of_singleton. naive_solver.
Qed.

(** after a duplication both numbers name the set the old one named, as
    long as it still has room for a handle. *)
Theorem note_dup_names oldfd newfd sets i s :
  sets_ok sets ->
  oldfd <> newfd ->
  set_by_handle_locked oldfd sets = Some i ->
  set_by_handle_locked newfd sets = None ->
  sets !! i = Some s ->
  (length (es_handles s) < SHIM_EPOLL_MAX_HANDLES)%nat ->
  let sets' := note_dup false oldfd newfd sets in
  set_by_handle_locked newfd sets' = Some i /\
  set_by_handle_locked oldfd sets' = Some i /\
  es_entries <$> sets' !! i = Some (es_entries s).
Proof.
  intros Hok Hne Hi Hj Hs Hlen sets'.
  pose proof (note_dup_ok false oldfd newfd sets Hok) as Hok'.
  assert (E : sets' = <[i := with_handles s (es_handles s ++ [newfd])]> sets).
  { unfold sets', note_dup. rewrite (proj2 (Z.eqb_neq _ _) Hne), Hi, Hj, Hs. simpl.
    by rewrite bool_decide_eq_true_2. }
  fold sets' in Hok'. rewrite E in *.
  assert (Hlk : <[i := with_handles s (es_handles s ++ [newfd])]> sets !! i =
                Some (with_handles s (es_handles s ++ [newfd]))).
  { apply list_lookup_insert_eq. by eapply lookup_lt_Some. }
  apply set_by_handle_Some in Hi as (t & Ht & Hin); [|done]. simplify_eq.
  split_and!.
  - apply set_by_handle_Some; [done|]. eexists. split; [exact Hlk|]. simpl. set_solver.
  - apply set_by_handle_Some; [done|]. eexists. split; [exact Hlk|]. simpl. set_solver.
  - by rewrite Hlk.
Qed.

(** ** epoll_create1 *)

Lemma unused_slot sets i :
  sets_ok sets ->
  find_index (fun s => negb (es_used s)) sets = Some i ->
  sets !! i = Some zero_set.
Proof.
  intros (_ & Hall & _) (s & Hs & Hu)%find_index_Some. rewrite Hs.
  pose proof (Forall_lookup_1 _ _ _ _ Hall Hs) as Hok. unfold set_ok in Hok.
  by destruct (es_used s); simplify_eq/=.
Qed.

(** Creating an epoll keeps the table sound and gives a descriptor that
    names a new, empty set, whatever stale handles the numbers collide with. *)
Lemma emu_create1_ok p0 p1 getfl alive flags sets rc sets' calls :
  sets_ok sets -> 
  emu_create1 (Ok (p0, p1)) getfl alive flags sets = (rc, sets', calls) ->
  sets_ok sets' /\
  match rc with
  | Ok fd =>
      fd = p0 /\
      exists i, set_by_handle_locked p0 sets' = Some i /\
                sets' !! i = Some (ESet true [p0] p1 [] 0)
  | Err e =>
      e = EMFILE /\ [CloseFd p0; CloseFd p1] `suffix_of` calls /\
      p0 ∉ all_handles sets' /\ p1 ∉ all_handles sets'
  end.
Proof.
  intros Hok. unfold emu_create1.
  pose proof (forget_fd_ok p0 sets Hok) as Hok0.
  pose proof (forget_fd_handles p0 sets Hok) as Hh0.
  destruct (forget_fd p0 sets) as [sets0 c0] eqn:E0. simpl in Hok0, Hh0.
  pose proof (forget_fd_ok p1 sets0 Hok0) as Hok1.
  pose proof (forget_fd_handles p1 sets0 Hok0) as Hh1.
  destruct (forget_fd p1 sets0) as [sets1 c1] eqn:E1. simpl in Hok1, Hh1.
  pose proof (reclaim_ok alive sets1 Hok1) as Hok2.
  pose proof (reclaim_handles alive sets1) as Hh2.
  destruct (reclaim alive sets1) as [sets2 c2] eqn:E2. simpl in Hok2, Hh2.
  assert (Hfresh : forall fd, fd = p0 \/ fd = p1 -> fd ∉ all_handles sets2).
  { intros fd Hfd Hin%Hh2. rewrite Hh1, list_elem_of_filter, Hh0, list_elem_of_filter in Hin.
    naive_solver. }
  destruct (find_index _ sets2) as [i|] eqn:Hi; intros; simplify_eq.
  - pose proof (unused_slot sets2 i Hok2 Hi) as Hz.
    assert (Hok' : sets_ok (<[i := ESet true [p0] p1 [] 0]> sets2)).
    { eapply sets_ok_insert; eauto; simpl.
      - unfold set_ok, SHIM_EPOLL_MAX_HANDLES. simpl. split_and!; try done; try lia. constructor.
      - apply NoDup_singleton.
      - intros fd ->%list_elem_of_singleton. right. auto. }
    split_and!; try done. exists i.
    assert (Hlk : <[i := ESet true [p0] p1 [] 0]> sets2 !! i = Some (ESet true [p0] p1 [] 0)).
    { apply list_lookup_insert_eq. by eapply lookup_lt_Some. }
    split; [|done]. apply set_by_handle_Some; [done|]. eexists. split; [exact Hlk|].
    simpl. set_solver.
  - split_and!; auto. exists (prepare_end getfl flags p0 ++ prepare_end getfl flags p1 ++
      map CloseFd (c0 ++ c1 ++ c2)). by rewrite <- !app_assoc.
Qed.

(** The sets in use; every waker handed back for closing retires one. *)
Definition n_used (sets : list epoll_set) : nat :=
  length (filter (fun s => es_used s = true) sets).

Lemma n_used_cons s sets :
  n_used (s :: sets) = ((if es_used s then 1 else 0) + n_used sets)%nat.
Proof. unfold n_used. rewrite filter_cons. by destruct (es_used s). Qed.

Lemma n_used_le sets : (n_used sets <= length sets)%nat.
Proof. apply length_filter. Qed.

Lemma retire_count (f : epoll_set -> epoll_set * list Z) sets :
  (forall s, (length (snd (f s)) + (if es_used (fst (f s)) then 1 else 0) <=
        if es_used s then 1 else 0)%nat) ->
  (length (concat (map (fun s => snd (f s)) sets)) +
   n_used (map (fun s => fst (f s)) sets) <= n_used sets)%nat.
Proof.
  intros Hf. induction sets as [|s sets IH]; [done|].
  simpl. rewrite length_app, !n_used_cons. specialize (Hf s). lia.
Qed.

Lemma forget_fd_count fd sets :
  (length (snd (forget_fd fd sets)) + n_used (fst (forget_fd fd sets)) <= n_used sets)%nat.
Proof.
  apply retire_count. intros s. unfold forget_in_set.
  destruct (es_used s) eqn:Hu; [|simpl; rewrite Hu; lia].
  destruct (drop_handle _ _ _ _ _) as [hs hit].
  case_match; simpl; rewrite ?Hu; lia.
Qed.

Lemma reclaim_count alive sets :
  (length (snd (reclaim alive sets)) + n_used (fst (reclaim alive sets)) <= n_used sets)%nat.
Proof.
  apply retire_count. intros s. unfold reclaim_in_set.
  destruct (es_used s) eqn:Hu; [|simpl; rewrite Hu; lia].
  case_match; simpl; rewrite ?Hu; lia.
Qed.

(** The close() calls among a list of calls. *)
Fixpoint closes_of (calls : list fd_call) : list Z :=
  match calls with
  | [] => []
  | CloseFd fd :: calls' => fd :: closes_of calls'
  | _ :: calls' => closes_of calls'
  end.

Lemma closes_of_app l k : closes_of (l ++ k) = closes_of l ++ closes_of k.
Proof. induction l as [|[] l IH]; simpl; by rewrite ?IH. Qed.

Lemma closes_of_prepare getfl flags fd : closes_of (prepare_end getfl flags fd) = [].
Proof. unfold prepare_end. by destruct (getfl fd), (has flags SHIM_EPOLL_CLOEXEC). Qed.

Lemma closes_of_map fds : closes_of (map CloseFd fds) = fds.
Proof. induction fds as [|fd fds IH]; [done|]. simpl. by rewrite IH. Qed.

(** [closes[SHIM_EPOLL_MAX_SETS * 2]] cannot overflow: one creation
    retires at most as many sets as the table has slots. *)
Theorem create_closes_bound p0 p1 getfl alive flags sets rc sets' calls :
  length sets = SHIM_EPOLL_MAX_SETS ->
  emu_create1 (Ok (p0, p1)) getfl alive flags sets = (rc, sets', calls) ->
  exists closes,
    closes_of calls = closes ++ match rc with Ok _ => [] | Err _ => [p0; p1] end /\
    (length closes <= SHIM_EPOLL_MAX_SETS)%nat.
Proof.
  intros Hlen. unfold emu_create1.
  pose proof (forget_fd_count p0 sets) as H0.
  destruct (forget_fd p0 sets) as [sets0 c0].
  pose proof (forget_fd_count p1 sets0) as H1.
  destruct (forget_fd p1 sets0) as [sets1 c1].
  pose proof (reclaim_count alive sets1) as H2.
  destruct (reclaim alive sets1) as [sets2 c2].
  pose proof (n_used_le sets). simpl in *.
  intros Hc. exists (c0 ++ c1 ++ c2). split; [|rewrite !length_app; lia].
  destruct (find_index _ sets2); simplify_eq;
    rewrite !closes_of_app, !closes_of_prepare, closes_of_map; simpl; by rewrite ?app_nil_r.
Qed.

(** ** epoll_ctl refines a finite map *)

Record registration := Reg { rg_events : Z; rg_data : Z; rg_armed : Z }.

#[export] Instance registration_eq_dec : EqDecision registration.
Proof. solve_decision. Defined.

Definition reg_of (e : epoll_entry) : registration :=
  Reg (en_events e) (en_data e) (en_armed e).

(** The registrations of a set, by descriptor. *)
Definition registrations (s : epoll_set) : gmap Z registration :=
  list_to_map ((fun e => (en_fd e, reg_of e)) <$> es_entries s).

(** What epoll_ctl(2) promises, with every registration starting fully
    armed. *)
Definition ctl_spec (op fd : Z) (ev : epoll_event) (m : gmap Z registration)
    : res unit * gmap Z registration :=
  let r := Reg (ev_events ev) (ev_data ev) full_arm in
  if op =? SHIM_EPOLL_CTL_ADD then
    match m !! fd with Some _ => (Err EEXIST, m) | None => (Ok tt, <[fd := r]> m) end
  else if op =? SHIM_EPOLL_CTL_MOD then
    match m !! fd with None => (Err ENOENT, m) | Some _ => (Ok tt, <[fd := r]> m) end
  else if op =? SHIM_EPOLL_CTL_DEL then
    match m !! fd with None => (Err ENOENT, m) | Some _ => (Ok tt, delete fd m) end
  else (Err EINVAL, m).

Definition entries_ok (es : list epoll_entry) : Prop := NoDup (en_fd <$> es).

Lemma entry_keys es :
  ((fun e => (en_fd e, reg_of e)) <$> es).*1 = en_fd <$> es.
Proof. by rewrite <- list_fmap_compose. Qed.

Lemma registrations_lookup s i e :
  entries_ok (es_entries s) -> es_entries s !! i = Some e ->
  registrations s !! en_fd e = Some (reg_of e).
Proof.
  intros Hnd Hi. apply elem_of_list_to_map; [by rewrite entry_keys|].
  apply list_elem_of_fmap. exists e. split; [done|]. by eapply list_elem_of_lookup_2.
Qed.

Lemma find_entry_Some s fd i :
  find_entry s fd = Some i -> exists e, es_entries s !! i = Some e /\ en_fd e = fd.
Proof.
  intros (e & He & Hfd%Z.eqb_eq)%find_index_Some. eauto.
Qed.

Lemma find_entry_None s fd :
  find_entry s fd = None <-> fd ∉ (en_fd <$> es_entries s).
Proof.
  unfold find_entry. rewrite find_index_None, Forall_forall, list_elem_of_fmap.
  setoid_rewrite Z.eqb_neq. naive_solver.
Qed.

Lemma find_entry_lookup s fd :
  entries_ok (es_entries s) ->
  match find_entry s fd with
  | Some i => exists e, es_entries s !! i = Some e /\ en_fd e = fd /\
                        registrations s !! fd = Some (reg_of e)
  | None => fd ∉ (en_fd <$> es_entries s) /\ registrations s !! fd = None
  end.
Proof.
  intros Hnd. destruct (find_entry s fd) as [i|] eqn:Hi.
  - apply find_entry_Some in Hi as (e & He & <-). exists e. split_and!; try done.
    by eapply registrations_lookup.
  - apply find_entry_None in Hi. split; [done|].
    apply not_elem_of_list_to_map. by rewrite entry_keys.
Qed.

Lemma registrations_snoc s es e :
  entries_ok (es ++ [e]) ->
  registrations (with_entries s (es ++ [e])) =
  <[en_fd e := reg_of e]> (registrations (with_entries s es)).
Proof.
  unfold entries_ok, registrations. intros Hnd. simpl. rewrite !fmap_app.
  change ((fun e => (en_fd e, reg_of e)) <$> [e]) with [(en_fd e, reg_of e)].
  rewrite list_to_map_snoc; [done|]. rewrite entry_keys.
  rewrite fmap_app in Hnd. apply NoDup_app in Hnd as (_ & Hd & _).
  intros Hin. apply (Hd _ Hin). simpl. set_solver.
Qed.

Lemma registrations_update s i e e' :
  entries_ok (es_entries s) -> es_entries s !! i = Some e -> en_fd e' = en_fd e ->
  registrations (with_entries s (<[i := e']> (es_entries s))) =
  <[en_fd e := reg_of e']> (registrations s).
Proof.
  intros Hnd Hi Hfd. apply map_eq. intros fd.
  assert (Hnd' : entries_ok (<[i := e']> (es_entries s))).
  { unfold entries_ok. by rewrite (fmap_insert_same _ _ _ e). }
  pose proof (lookup_lt_Some _ _ _ Hi) as Hlt.
  destruct (decide (fd = en_fd e)) as [->|Hne].
  - rewrite lookup_insert_eq, <- Hfd. eapply (registrations_lookup _ i); [done|].
    simpl. by apply list_lookup_insert_eq.
  - rewrite lookup_insert_ne by done.
    pose proof (find_entry_lookup s fd Hnd) as H1.
    pose proof (find_entry_lookup (with_entries s (<[i := e']> (es_entries s))) fd Hnd') as H2.
    simpl in H2. rewrite (fmap_insert_same _ _ _ e) in H2 by done.
    destruct (find_entry s fd) as [j|], (find_entry (with_entries _ _) fd) as [k|].
    + destruct H1 as (a & Ha & <- & ->), H2 as (b & Hb & Hba & ->).
      destruct (decide (k = i)) as [->|Hki].
      { rewrite list_lookup_insert_eq in Hb by done. simplify_eq. congruence. }
      rewrite list_lookup_insert_ne in Hb by done.
      assert (j = k) as -> by (by eapply (NoDup_fmap_lookup_inj en_fd (es_entries s) j k a b)).
      by simplify_eq.
    + destruct H1 as (a & Ha & <- & _), H2 as [Hn _]. exfalso. apply Hn.
      apply list_elem_of_fmap. exists a. split; [done|]. by eapply list_elem_of_lookup_2.
    + destruct H1 as [Hn _], H2 as (b & Hb & <- & _). exfalso. apply Hn.
      rewrite <- (fmap_insert_same en_fd _ i e e') by done.
      apply list_elem_of_fmap. exists b. split; [done|]. by eapply list_elem_of_lookup_2.
    + by destruct H1 as [_ ->], H2 as [_ ->].
Qed.

Lemma registrations_remove s i e :
  entries_ok (es_entries s) -> es_entries s !! i = Some e ->
  registrations (with_entries s (swap_remove i (es_entries s))) =
  delete (en_fd e) (registrations s) /\
  entries_ok (swap_remove i (es_entries s)).
Proof.
  intros Hnd Hi. pose proof (swap_remove_perm _ _ _ Hi) as Hp.
  unfold entries_ok in *. assert (Hnd' := Hnd). rewrite Hp in Hnd'. simpl in Hnd'.
  apply NoDup_cons in Hnd' as [Hnotin Hnd'].
  split; [|done]. unfold registrations at 2.
  rewrite (list_to_map_proper _ (((fun e => (en_fd e, reg_of e)) <$>
             (e :: swap_remove i (es_entries s))))).
  - simpl. rewrite delete_insert_id; [done|].
    apply not_elem_of_list_to_map. by rewrite entry_keys.
  - by rewrite entry_keys.
  - by rewrite Hp at 1.
Qed.

(** epoll_ctl refines the finite-map specification, errors included, and
    keeps the set sound; the one further outcome is a failed realloc, which
    changes nothing. *)
Lemma ctl_locked_refines mem op fd ev s rc s' :
  es_used s = true -> set_ok s ->
  ctl_locked mem op fd ev s = (rc, s') ->
  set_ok s' /\ es_used s' = true /\ es_handles s' = es_handles s /\
  ((mem = false /\ rc = Err ENOMEM /\ s' = s) \/
   (rc, registrations s') = ctl_spec op fd ev (registrations s)).
Proof.
  intros Hu Hok. unfold set_ok in Hok. rewrite Hu in Hok.
  destruct Hok as (Hne & Hlen & Hnd & Hcap).
  pose proof (find_entry_lookup s fd Hnd) as Hfind.
  unfold ctl_locked, ctl_spec. intros Hc.
  assert (Hsame : set_ok s) by (unfold set_ok; rewrite Hu; done).
  destruct (find_entry s fd) as [i|] eqn:Hi.
  - destruct Hfind as (e & He & Hfd & Hlk). rewrite Hlk.
    repeat case_match; simplify_eq/=; split_and!; try done; auto.
    + unfold set_ok. simpl. rewrite Hu. rewrite (fmap_insert_same _ _ _ e) by done.
      by rewrite length_insert.
    + right. f_equal. by rewrite (registrations_update s i e).
    + unfold set_ok. simpl. rewrite Hu.
      pose proof (registrations_remove s i e Hnd He) as [_ Hnd'].
      rewrite length_swap_remove by (by eapply lookup_lt_Some). split_and!; try done. lia.
    + right. f_equal. by apply registrations_remove.
  - destruct Hfind as [Hnotin Hlk]. rewrite Hlk.
    assert (Hsnoc : forall e, en_fd e = fd -> entries_ok (es_entries s ++ [e])).
    { intros e <-. unfold entries_ok. rewrite fmap_app. simpl.
      apply NoDup_app. split_and!; [done|set_solver|apply NoDup_singleton]. }
    assert (Hr : forall e, en_fd e = fd ->
              registrations (with_entries s (es_entries s ++ [e])) =
              <[fd := reg_of e]> (registrations s)).
    { intros e <-. by rewrite registrations_snoc by auto. }
    specialize (Hr (Entry fd (ev_events ev) (ev_data ev) full_arm) eq_refl).
    specialize (Hsnoc (Entry fd (ev_events ev) (ev_data ev) full_arm) eq_refl).
    repeat case_match; simplify_eq/=; split_and!; try done; auto.
    all: try (right; f_equal; exact Hr).
    all: try (left; by destruct mem; rewrite ?andb_false_r in *).
    all: unfold set_ok; simpl; rewrite Hu; split_and!; try done.
    all: rewrite length_app; simpl; repeat case_bool_decide; try done; lia.
Qed.

Lemma sets_ok_replace sets i s s' :
  sets_ok sets -> sets !! i = Some s -> set_ok s' -> es_handles s' = es_handles s ->
  sets_ok (<[i := s']> sets).
Proof.
  intros Hok Hi Hs' Hh. eapply sets_ok_insert; eauto; rewrite Hh; [|auto].
  by eapply set_ok_handles_NoDup.
Qed.

(** C5: epoll_ctl on the whole table: which error is reported first, that the
    set named by [epfd] alone changes and refines the map specification, and
    that its waker is written exactly when the interest list changed. *)
Theorem emu_ctl_spec mem epfd op fd ev sets rc sets' wakes :
  sets_ok sets ->
  emu_ctl mem epfd op fd ev sets = (rc, sets', wakes) ->
  sets_ok sets' /\
  match set_by_handle_locked epfd sets with
  | None => rc = Err EBADF /\ sets' = sets /\ wakes = []
  | Some i =>
      exists s s', sets !! i = Some s /\ sets' = <[i := s']> sets /\
      wakes = match rc with Ok _ => [es_waker s'] | Err _ => [] end /\
      if fd =? epfd then rc = Err EINVAL /\ s' = s
      else if bool_decide (ev = None) && ((op =? SHIM_EPOLL_CTL_ADD) || (op =? SHIM_EPOLL_CTL_MOD))
           then rc = Err EFAULT /\ s' = s
           else (mem = false /\ rc = Err ENOMEM /\ s' = s) \/
                (rc, registrations s') =
                  ctl_spec op fd (default (Event 0 0) ev) (registrations s)
  end.
Proof.
  intros Hok. unfold emu_ctl.
  destruct (set_by_handle_locked epfd sets) as [i|] eqn:Hi; [|by intros; simplify_eq].
  destruct (set_by_handle_lookup _ _ _ Hok Hi) as (s & Hs & Hin & Hu & Hsok).
  rewrite Hs. rewrite (andb_comm _ (_ || _)).
  assert (Hid : <[i := s]> sets = sets) by by apply list_insert_id.
  case_match; [intros; simplify_eq; split; [done|]; exists s, s; by rewrite Hid|].
  case_match; [intros; simplify_eq; split; [done|]; exists s, s; by rewrite Hid|].
  destruct (ctl_locked mem op fd (default (Event 0 0) ev) s) as [rc' s'] eqn:Hc.
  intros; simplify_eq.
  destruct (ctl_locked_refines _ _ _ _ _ _ _ Hu Hsok Hc) as (Hsok' & Hu' & Hh & Href).
  split; [by eapply sets_ok_replace|]. by exists s, s'.
Qed.

(** ** Re-arming *)

Lemma rearm_in_set_ok fd bits s :
  set_ok s ->
  set_ok (fst (rearm_in_set fd bits s)) /\
  es_handles (fst (rearm_in_set fd bits s)) = es_handles s.
Proof.
  intros Hok. unfold rearm_in_set.
  destruct (es_used s) eqn:Hu; [|done].
  destruct (find_entry s fd) as [i|] eqn:Hi; [|done].
  destruct (es_entries s !! i) as [e|] eqn:He; [|done].
  repeat case_match; simpl; try done. split; [|done].
  unfold set_ok in *. simpl. rewrite Hu in *. destruct Hok as (? & ? & ? & ?).
  rewrite (fmap_insert_same _ _ _ e) by done. by rewrite length_insert.
Qed.

(** Re-arming from the I/O shims keeps the table sound. *)
Lemma rearm_ok fd bits sets : sets_ok sets -> sets_ok (fst (rearm fd bits sets)).
Proof.
  apply sets_ok_map; intros s Hs; destruct (rearm_in_set_ok fd bits s Hs) as [? Hh]; [done|].
  by rewrite Hh.
Qed.

(** The registrations of a used set after a re-arm. *)
Definition rearm_spec (fd bits : Z) (m : gmap Z registration) : gmap Z registration :=
  alter (fun r =>
    if has (rg_events r) SHIM_EPOLLET && negb (has (rg_events r) SHIM_EPOLLONESHOT)
    then Reg (rg_events r) (rg_data r) (Z.lor (rg_armed r) bits) else r) fd m.

(** a re-arm arms the direction of every edge-triggered registration of
    the descriptor and touches nothing else, ONESHOT entries in particular;
    it writes a set's waker exactly when it changed something there. *)
Theorem rearm_refines fd bits s s' wakes :
  es_used s = true -> set_ok s ->
  rearm_in_set fd bits s = (s', wakes) ->
  registrations s' = rearm_spec fd bits (registrations s) /\
  wakes = if decide (registrations s' = registrations s) then [] else [es_waker s].
Proof.
  intros Hu Hok. unfold set_ok in Hok. rewrite Hu in Hok.
  destruct Hok as (_ & _ & Hnd & _). unfold rearm_in_set, rearm_spec. rewrite Hu.
  pose proof (find_entry_lookup s fd Hnd) as Hf.
  destruct (find_entry s fd) as [i|] eqn:Hi.
  2:{ destruct Hf as [_ Hf]. intros; simplify_eq. rewrite alter_id by naive_solver.
      by rewrite decide_True. }
  destruct Hf as (e & He & Hfd & Hlk). rewrite He.
  destruct (has (en_events e) SHIM_EPOLLET && negb (has (en_events e) SHIM_EPOLLONESHOT)) eqn:Hc.
  2:{ intros; simplify_eq. rewrite decide_True by done. split; [|done].
      apply map_eq. intros k. rewrite lookup_alter. case_decide; [subst|done].
      rewrite Hlk. simpl. by rewrite Hc. }
  destruct (Z.eqb_spec (Z.lor (en_armed e) bits) (en_armed e)) as [Heq|Hneq]; intros; simplify_eq.
  - rewrite decide_True by done. split; [|done].
    apply map_eq. intros k. rewrite lookup_alter. case_decide; [subst|done].
    rewrite Hlk. simpl. rewrite Hc, Heq. done.
  - rewrite (registrations_update s i e) by done. simpl.
    rewrite decide_False.
    2:{ intros Hr. apply (f_equal (fun m => m !! en_fd e)) in Hr.
        rewrite lookup_insert_eq, Hlk in Hr. unfold reg_of in Hr. simpl in Hr. congruence. }
    split; [|done]. apply map_eq. intros k. rewrite lookup_alter. case_decide as Hk.
    + subst. rewrite lookup_insert_eq, Hlk. simpl. by rewrite Hc.
    + by rewrite lookup_insert_ne.
Qed.

(** ** Controls and creations keep the table sound *)

Lemma emu_ctl_ok mem epfd op fd ev sets :
  sets_ok sets -> sets_ok (snd (fst (emu_ctl mem epfd op fd ev sets))).
Proof.
  intros Hok. unfold emu_ctl.
  destruct (set_by_handle_locked epfd sets) as [i|] eqn:Hi; [|done].
  destruct (set_by_handle_lookup _ _ _ Hok Hi) as (s & Hs & _ & Hu & Hsok). rewrite Hs.
  destruct (fd =? epfd); [done|]. destruct (_ && bool_decide (ev = None)); [done|].
  destruct (ctl_locked mem op fd (default (Event 0 0) ev) s) as [rc s'] eqn:Hc. simpl.
  destruct (ctl_locked_refines _ _ _ _ _ _ _ Hu Hsok Hc) as (Hsok' & _ & Hh & _).
  by eapply sets_ok_replace.
Qed.

Lemma g_sets_init_ok : sets_ok g_sets_init.
Proof.
  split_and!; [done| |].
  - by apply Forall_replicate.
  - unfold all_handles. vm_compute. constructor.
Qed.

(** a descriptor that [epoll_create1] answers is an epoll of its own: it
    names a set that is new and empty, whatever stale handles its number or
    its waker's number collide with; a full table closes both ends. *)
Theorem create_gives_empty_set p0 p1 getfl alive flags sets rc sets' calls :
  sets_ok sets ->
  emu_create1 (Ok (p0, p1)) getfl alive flags sets = (rc, sets', calls) ->
  match rc with
  | Ok fd =>
      fd = p0 /\
      exists i, set_by_handle_locked p0 sets' = Some i /\
                sets' !! i = Some (ESet true [p0] p1 [] 0)
  | Err e =>
      e = EMFILE /\ [CloseFd p0; CloseFd p1] `suffix_of` calls /\
      p0 ∉ all_handles sets' /\ p1 ∉ all_handles sets'
  end.
Proof. intros Hok Hc. by apply emu_create1_ok in Hc as [_ ?]. Qed.

(** ** The theorems on a concrete table *)

(** One epoll, descriptor 4 with waker 5, watching descriptor 9. *)
Definition demo_set : epoll_set :=
  ESet true [4] 5 [Entry 9 (Z.lor SHIM_EPOLLIN SHIM_EPOLLET) 77 SHIM_ARM_OUT] 8.
Definition demo_sets : list epoll_set :=
  demo_set :: replicate 31 zero_set.

Lemma demo_set_ok : set_ok demo_set.
Proof.
  split_and!; [discriminate| | |]; [vm_compute; lia| |vm_compute; lia].
  vm_compute. apply NoDup_singleton.
Qed.

Lemma demo_sets_ok : sets_ok demo_sets.
Proof.
  split_and!; [done| |vm_compute; apply NoDup_singleton].
  constructor; [apply demo_set_ok|by apply Forall_replicate].
Qed.

Lemma note_dup_names_witness :
  set_by_handle_locked 12 (note_dup false 4 12 demo_sets) = Some 0%nat.
Proof.
  destruct (note_dup_names 4 12 demo_sets 0 demo_set demo_sets_ok) as [H _];
    [lia|reflexivity|reflexivity|reflexivity|vm_compute; lia|exact H].
Defined.

Lemma create_closes_bound_witness :
  exists closes, (length closes <= SHIM_EPOLL_MAX_SETS)%nat /\
    closes_of (snd (emu_create1 (Ok (4, 6)) (fun _ => Some 0) (fun _ => false) 0 demo_sets)) =
    closes ++ [].
Proof.
  edestruct (create_closes_bound 4 6 (fun _ => Some 0) (fun _ => false) 0 demo_sets)
    as (closes & Hc & Hlen); [reflexivity|vm_compute; reflexivity|].
  exists closes. split; [exact Hlen|]. vm_compute. exact Hc.
Defined.

Lemma emu_ctl_spec_witness :
  sets_ok (snd (fst (emu_ctl true 4 SHIM_EPOLL_CTL_ADD 10 (Some (Event SHIM_EPOLLIN 3)) demo_sets))).
Proof.
  destruct (emu_ctl true 4 SHIM_EPOLL_CTL_ADD 10 (Some (Event SHIM_EPOLLIN 3)) demo_sets)
    as [[rc sets'] wakes] eqn:E.
  destruct (emu_ctl_spec _ _ _ _ _ _ _ _ _ demo_sets_ok E) as [Hok _]. exact Hok.
Defined.

Lemma rearm_refines_witness :
  registrations (fst (rearm_in_set 9 SHIM_ARM_IN demo_set)) =
    rearm_spec 9 SHIM_ARM_IN (registrations demo_set) /\
  snd (rearm_in_set 9 SHIM_ARM_IN demo_set) = [5].
Proof.
  edestruct (rearm_refines 9 SHIM_ARM_IN demo_set) as [Hr _];
    [reflexivity|apply demo_set_ok|vm_compute; reflexivity|].
  split; [exact Hr|reflexivity].
Defined.

Lemma create_gives_empty_set_witness :
  exists i,
    set_by_handle_locked 4
      (snd (fst (emu_create1 (Ok (4, 6)) (fun _ => Some 0) (fun _ => true) 0 demo_sets))) = Some i.
Proof.
  destruct (emu_create1 (Ok (4, 6)) (fun _ => Some 0) (fun _ => true) 0 demo_sets)
    as [[rc sets'] calls] eqn:E.
  pose proof (create_gives_empty_set _ _ _ _ _ _ _ _ _ demo_sets_ok E) as H.
  assert (Hrc : rc = Ok 4) by (vm_compute in E; by injection E as <- _ _).
  rewrite Hrc in H. destruct H as (_ & i & Hi & _). exists i. exact Hi.
Defined.
