(* ===== verification/EpollWait.v ===== *)
(** * shim/epoll.c, the wait

    [emu_wait] runs against the table of EpollSets.v, which it locks and
    unlocks several times, and against the host's polls, during which other
    threads may do anything to the table: the table lives in the world [W],
    reached through [EpollTable], and a host call may change it. The first
    half is the code; the second states what one round hands out, that a
    ONESHOT registration is reported at most once per arming by a single
    waiter, and that a wait with no timeout comes back. *)
From S2P Require Import Prelude Host Tables ToyHost Flags Poll EpollSets.

Definition INT_MAX : Z := 2 ^ 31 - 1.

(** Where the world keeps [g_sets], whether realloc has memory, and read()
    of 64 bytes from a waker's pipe, which answers how many it took. *)
Class EpollTable (W : Type) := {
  get_sets : W -> list epoll_set;
  put_sets : list epoll_set -> W -> W;
  h_realloc : W -> bool;
  h_read64 : Z -> W -> Z * W }.

Section wait.
Context `{HostConsts} {W : Type} `{HostPoll W} `{PacketWatch W} `{EpollTable W}.
Context (polled_ms : Z) (console_before_poll : list pollfd -> W -> W).

(** RUST_APE_EPOLL_LT, read once. *)
Context (lt_forced : bool).

Definition set_at (i : nat) (w : W) : epoll_set := default zero_set (get_sets w !! i).

(** A critical section under [s->lock] that updates the set. *)
Definition locked {A} (i : nat) (f : epoll_set -> A * epoll_set) : M W A :=
  step (fun w => let '(a, s) := f (set_at i w) in (a, put_sets (<[i := s]> (get_sets w)) w)).

Definition poll (fds : list pollfd) (ms : Z) : M W (res Z * list pollfd) :=
  step (h_poll fds ms).

(** ** The snapshot *)

Definition handle0 (s : epoll_set) : Z := nth 0 (es_handles s) 0.

Definition edge (e : epoll_entry) : bool :=
  has (en_events e) (Z.lor SHIM_EPOLLET SHIM_EPOLLONESHOT).

Definition slot_of (e : epoll_entry) : option pollfd :=
  let am := effective_armed lt_forced e in
  let ev := epoll_to_poll (en_events e) am in
  if (ev =? 0) && (edge e && negb lt_forced) then None
  else Some (PollFd (en_fd e) ev 0).

Definition snapshot (s : epoll_set) : list pollfd :=
  PollFd (handle0 s) POLLIN 0 :: omap slot_of (es_entries s).

(** ** Polling more than cosmo takes at once *)

Fixpoint poll_scan (fuel : nat) (pfds : list pollfd) (got : Z)
    : M W (res Z * list pollfd) :=
  match fuel with
  | O => out_of_fuel
  | S fuel' =>
      match pfds with
      | [] => mret (Ok got, [])
      | _ =>
          '(r, c) ← poll (take SHIM_POLL_CHUNK pfds) 0;
          match r with
          | Err e => mret (Err e, c ++ drop SHIM_POLL_CHUNK pfds)
          | Ok k =>
              '(r', rest) ← poll_scan fuel' (drop SHIM_POLL_CHUNK pfds) (got + k);
              mret (r', c ++ rest)
          end
      end
  end.

Fixpoint poll_chunked_loop (fuel : nat) (pfds : list pollfd) (deadline : Z)
    : M W (res Z * list pollfd) :=
  match fuel with
  | O => out_of_fuel
  | S fuel' =>
      '(r, pfds) ← poll_scan (S (length pfds)) pfds 0;
      match r with
      | Err e => mret (Err e, pfds)
      | Ok got =>
          if negb (got =? 0) then mret (Ok got, pfds)
          else
            left ← (if 0 <=? deadline
                    then now ← now_ms; mret (deadline - now)
                    else mret SHIM_POLL_NAP_MS);
            if (0 <=? deadline) && (left <=? 0) then mret (Ok 0, pfds)
            else
              let nap := Z.min left SHIM_POLL_NAP_MS in
              '(r, _) ← poll [PollFd (pf_fd (nth 0 pfds (PollFd 0 0 0))) POLLIN 0] nap;
              match r with
              | Err e => mret (Err e, pfds)
              | Ok _ => poll_chunked_loop fuel' pfds deadline
              end
      end
  end.

Definition poll_chunked (fuel : nat) (pfds : list pollfd) (ms : Z)
    : M W (res Z * list pollfd) :=
  deadline ← (if ms <? 0 then mret (-1) else now ← now_ms; mret (now + ms));
  poll_chunked_loop fuel pfds deadline.

(** ** Bad descriptors *)

Definition drop_entry (fd : Z) (s : epoll_set) : nat * epoll_set :=
  match find_entry s fd with
  | Some j => (1%nat, with_entries s (swap_remove j (es_entries s)))
  | None => (0%nat, s)
  end.

(** Probes every slot but the waker's; answers how many entries it dropped. *)
Fixpoint drop_bad (i : nat) (slots : list pollfd) : M W nat :=
  match slots with
  | [] => mret 0%nat
  | p :: slots' =>
      '(r1, one) ← poll [PollFd (pf_fd p) (pf_events p) 0] 0;
      let revents := pf_revents (nth 0 one (PollFd 0 0 0)) in
      let fine := match r1 with Ok _ => negb (has revents POLLNVAL) | Err _ => false end in
      d ← (if fine then mret 0%nat else locked i (drop_entry (pf_fd p)));
      k ← drop_bad i slots';
      mret (d + k)%nat
  end.

(** [while (read(fd, buf, sizeof(buf)) > 0) continue;] *)
Fixpoint drain (fuel : nat) (fd : Z) : M W unit :=
  match fuel with
  | O => out_of_fuel
  | S fuel' => r ← step (h_read64 fd); if 0 <? r then drain fuel' fd else mret tt
  end.

(** ** Handing events out *)

Definition care_bits (p : pollfd) : Z :=
  Z.land (pf_revents p) (Z.lor (Z.lor (Z.lor (pf_events p) POLLERR) POLLHUP) POLLNVAL).

(** What a reported event leaves armed. *)
Definition disarm (events armed ev : Z) : Z :=
  if lt_forced then armed
  else if has events SHIM_EPOLLONESHOT then 0
  else if has events SHIM_EPOLLET then
    if has ev (Z.lor SHIM_EPOLLERR SHIM_EPOLLHUP) then 0
    else
      let armed := if has ev (Z.lor (Z.lor SHIM_EPOLLIN SHIM_EPOLLPRI) SHIM_EPOLLRDHUP)
                   then Z.ldiff armed SHIM_ARM_IN else armed in
      if has ev SHIM_EPOLLOUT then Z.ldiff armed SHIM_ARM_OUT else armed
  else armed.

Definition disarm_entry (ev : Z) (e : epoll_entry) : epoll_entry :=
  Entry (en_fd e) (en_events e) (en_data e) (disarm (en_events e) (en_armed e) ev).

Fixpoint collect (room : nat) (slots : list pollfd) (s : epoll_set)
    : list epoll_event * epoll_set :=
  match slots, room with
  | p :: slots', S room' =>
      let bits := care_bits p in
      if bits =? 0 then collect room slots' s
      else
        match find_entry s (pf_fd p) with
        | None => collect room slots' s
        | Some j =>
            match es_entries s !! j with
            | None => collect room slots' s
            | Some e =>
                let ev := poll_to_epoll bits in
                let s' := with_entries s (<[j := disarm_entry ev e]> (es_entries s)) in
                let '(out, s'') := collect room' slots' s' in
                (Event ev (en_data e) :: out, s'')
            end
        end
  | _, _ => ([], s)
  end.

(** ** emu_wait *)

(** How a round ends: around again, with [bad_polls], or with an answer. *)
Inductive round_end :=
  | Again (bad_polls : nat)
  | Answer (r : res (list epoll_event)).

(** [deadline < 0 || now_ms() < deadline] *)
Definition time_left (deadline : Z) : M W bool :=
  if deadline <? 0 then mret true else now ← now_ms; mret (now <? deadline).

(** [deadline >= 0 && now_ms() >= deadline] *)
Definition expired (deadline : Z) : M W bool :=
  if 0 <=? deadline then now ← now_ms; mret (deadline <=? now) else mret false.

(** From the waker's slot to the answer; [rc] is what poll counted. *)
Definition round_finish (fuel : nat) (i : nat) (pfds : list pollfd) (rc : Z)
    (maxevents deadline : Z) (bad : nat) : M W round_end :=
  let woken := (0 <? rc) && has (pf_revents (nth 0 pfds (PollFd 0 0 0))) POLLIN in
  s ← reads (set_at i);
  _ ← (if woken then drain fuel (handle0 s) else mret tt);
  let rc := if woken then rc - 1 else rc in
  again ← (if woken && (rc =? 0) then time_left deadline else mret false);
  if again : bool then mret (Again bad)
  else
    out ← (if 0 <? rc
           then locked i (collect (Z.to_nat maxevents) (drop 1 pfds))
           else mret []);
    if bool_decide (out <> []) then mret (Answer (Ok out))
    else
      done ← expired deadline;
      mret (if done : bool then Answer (Ok []) else Again bad).

Definition wait_round (fuel : nat) (i : nat) (maxevents deadline : Z) (bad : nat)
    : M W round_end :=
  s ← reads (set_at i);
  let pfds := snapshot s in
  ms ← (if deadline <? 0 then mret (-1)
        else now ← now_ms;
             let left := deadline - now in
             mret (if left <=? 0 then 0 else Z.min left INT_MAX));
  let ts := if ms <? 0 then None
            else Some (Timespec (ms / 1000) (ms mod 1000 * 1000000)) in
  '(rc, pfds) ← shim_host_ppoll polled_ms console_before_poll fuel pfds ts;
  '(rc, pfds) ← (if refused rc pfds then poll_chunked fuel pfds ms else mret (rc, pfds));
  match rc with
  | Ok n => round_finish fuel i pfds n maxevents deadline bad
  | Err EINTR =>
      left ← time_left deadline;
      if left : bool then mret (Again bad)
      else round_finish fuel i pfds 0 maxevents deadline bad
  | Err EBADF | Err ENOTSOCK =>
      dropped ← drop_bad i (drop 1 pfds);
      mret (if bool_decide (0 < dropped)%nat then Again bad
            else if bool_decide (S bad <= 8)%nat then Again (S bad)
            else Answer (Err EBADF))
  | Err e => mret (Answer (Err e))
  end.

Fixpoint wait_loop (fuel : nat) (i : nat) (maxevents deadline : Z) (pcap bad : nat)
    : M W (res (list epoll_event)) :=
  match fuel with
  | O => out_of_fuel
  | S fuel' =>
      s ← reads (set_at i);
      mem ← reads h_realloc;
      let n1 := S (length (es_entries s)) in
      if bool_decide (pcap < n1)%nat && negb mem then mret (Err ENOMEM)
      else
        e ← wait_round fuel' i maxevents deadline bad;
        match e with
        | Answer r => mret r
        | Again bad => wait_loop fuel' i maxevents deadline (Nat.max pcap n1) bad
        end
  end.

Definition emu_wait (fuel : nat) (epfd maxevents timeout : Z) : M W (res (list epoll_event)) :=
  found ← reads (fun w => set_by_handle_locked epfd (get_sets w));
  match found with
  | None => mret (Err EBADF)
  | Some i =>
      if maxevents <=? 0 then mret (Err EINVAL)
      else
        deadline ← (if timeout <? 0 then mret (-1) else now ← now_ms; mret (now + timeout));
        wait_loop fuel i maxevents deadline 0 0
  end.
End wait.

(** ** What a round hands out *)

Section delivery.
Context `{HostConsts}.
Context (lt_forced : bool).

(** The event a polled slot yields against the interest list, if any. *)
Definition ready (m : gmap Z registration) (p : pollfd) : option (Z * epoll_event) :=
  if care_bits p =? 0 then None
  else r ← m !! pf_fd p; Some (pf_fd p, Event (poll_to_epoll (care_bits p)) (rg_data r)).

Definition after_report (hits : gmap Z epoll_event) (fd : Z) (r : registration) : registration :=
  match hits !! fd with
  | Some ev => Reg (rg_events r) (rg_data r) (disarm lt_forced (rg_events r) (rg_armed r) (ev_events ev))
  | None => r
  end.

Lemma ready_data m m' p :
  rg_data <$> m !! pf_fd p = rg_data <$> m' !! pf_fd p -> ready m p = ready m' p.
Proof.
  unfold ready. destruct (_ =? 0); [done|].
  destruct (m !! _), (m' !! _); simpl; congruence.
Qed.

Lemma ready_fst m p fd ev : ready m p = Some (fd, ev) -> fd = pf_fd p.
Proof.
  unfold ready. destruct (_ =? 0); [done|]. destruct (m !! _); simpl; congruence.
Qed.

Lemma omap_ready_keys m (slots : list pollfd) fd ev :
  (fd, ev) ∈ omap (ready m) slots -> fd ∈ (pf_fd <$> slots).
Proof.
  intros (p & Hp & Hr)%list_elem_of_omap. apply ready_fst in Hr as ->.
  apply list_elem_of_fmap. eauto.
Qed.

Lemma collect_ok room slots s :
  es_used s = true -> set_ok s ->
  let s' := snd (collect lt_forced room slots s) in
  set_ok s' /\ es_used s' = true /\ es_handles s' = es_handles s /\ es_waker s' = es_waker s.
Proof.
  revert room s. induction slots as [|p slots IH]; intros [|room] s Hu Hok; simpl; try done.
  destruct (_ =? 0); [by apply (IH (S room))|].
  destruct (find_entry s (pf_fd p)) as [j|] eqn:Hj; [|by apply (IH (S room))].
  destruct (es_entries s !! j) as [e|] eqn:He; [|by apply (IH (S room))].
  set (s1 := with_entries s _).
  assert (Hok1 : set_ok s1).
  { unfold set_ok in *. simpl. rewrite Hu in *.
    rewrite (fmap_insert_same _ _ _ e) by done. by rewrite length_insert. }
  specialize (IH room s1 Hu Hok1). by destruct (collect lt_forced room slots s1).
Qed.

Lemma collect_registrations room slots s :
  es_used s = true -> set_ok s -> NoDup (pf_fd <$> slots) ->
  let hits := take room (omap (ready (registrations s)) slots) in
  let '(out, s') := collect lt_forced room slots s in
  out = snd <$> hits /\
  forall fd, registrations s' !! fd =
             after_report (list_to_map hits) fd <$> registrations s !! fd.
Proof.
  revert room s. induction slots as [|p slots IH]; intros room s Hu Hok Hnd.
  { cbn [omap list_omap collect]. rewrite take_nil. destruct room; simpl; (split; [done|]); intros fd;
      unfold after_report; rewrite lookup_empty; by destruct (registrations s !! fd). }
  destruct room as [|room].
  { simpl. split; [done|]. intros fd. unfold after_report. rewrite lookup_empty.
    by destruct (registrations s !! fd). }
  assert (Hents : entries_ok (es_entries s)).
  { unfold set_ok in Hok. rewrite Hu in Hok. by destruct Hok as (_ & _ & ? & _). }
  rewrite fmap_cons in Hnd. apply NoDup_cons in Hnd as [Hp Hnd].
  pose proof (find_entry_lookup s (pf_fd p) Hents) as Hfind.
  assert (Hready : ready (registrations s) p =
    if care_bits p =? 0 then None
    else r ← registrations s !! pf_fd p; Some (pf_fd p, Event (poll_to_epoll (care_bits p)) (rg_data r)))
    by done.
  cbn [collect omap list_omap]. rewrite !Hready. clear Hready.
  destruct (Z.eqb_spec (care_bits p) 0) as [Hz|Hz]; [exact (IH (S room) s Hu Hok Hnd)|].
  destruct (find_entry s (pf_fd p)) as [j|] eqn:Hj.
  2:{ destruct Hfind as [_ Hlk]. rewrite Hlk. exact (IH (S room) s Hu Hok Hnd). }
  destruct Hfind as (e & He & Hfd & Hlk). rewrite He, Hlk. simpl.
  set (ev := poll_to_epoll (care_bits p)).
  set (s1 := with_entries s _).
  assert (Hok1 : set_ok s1).
  { unfold set_ok in *. simpl. rewrite Hu in *.
    rewrite (fmap_insert_same _ _ _ e) by done. by rewrite length_insert. }
  assert (Hreg : registrations s1 = <[pf_fd p := reg_of (disarm_entry lt_forced ev e)]> (registrations s)).
  { rewrite <- Hfd. by apply registrations_update. }
  specialize (IH room s1 Hu Hok1 Hnd).
  destruct (collect lt_forced room slots s1) as [out s'].
  assert (Homap : omap (ready (registrations s1)) slots = omap (ready (registrations s)) slots).
  { apply list_omap_ext, Forall_Forall2_diag, Forall_forall. intros q Hq.
    apply ready_data. rewrite Hreg. rewrite lookup_insert_ne; [done|].
    intros Heq. apply Hp, list_elem_of_fmap. by exists q. }
  rewrite Homap in IH. destruct IH as [Hout Hmap]. split; [by rewrite Hout|].
  intros fd. rewrite Hmap, Hreg. unfold after_report.
  destruct (decide (fd = pf_fd p)) as [->|Hne].
  - rewrite !lookup_insert_eq, Hlk. simpl.
    assert (Hnone : (list_to_map (take room (omap (ready (registrations s)) slots)) : gmap Z epoll_event)
              !! pf_fd p = None).
    { apply not_elem_of_list_to_map. intros ([fd' ev'] & Heq & Hin)%list_elem_of_fmap. simpl in Heq. subst fd'.
      apply Hp. apply (omap_ready_keys (registrations s) _ _ ev').
      eapply elem_of_submseteq; [exact Hin|]. apply sublist_submseteq, sublist_take. }
    by rewrite Hnone.
  - by rewrite !lookup_insert_ne.
Qed.

(** C2: one round hands out, in the order of the polled slots, the first
    [maxevents] ready descriptors that are still registered, each with its
    own token; it disarms exactly those, and a ready entry cut off by
    [maxevents] keeps its arming, events and token. *)
Theorem collect_delivers maxevents slots s out s' :
  es_used s = true -> set_ok s -> NoDup (pf_fd <$> slots) ->
  collect lt_forced (Z.to_nat maxevents) slots s = (out, s') ->
  let hits := take (Z.to_nat maxevents) (omap (ready (registrations s)) slots) in
  out = snd <$> hits /\
  (forall fd, registrations s' !! fd =
              after_report (list_to_map hits) fd <$> registrations s !! fd) /\
  set_ok s' /\ es_handles s' = es_handles s.
Proof.
  intros Hu Hok Hnd Hc.
  pose proof (collect_registrations (Z.to_nat maxevents) slots s Hu Hok Hnd) as Hr.
  pose proof (collect_ok (Z.to_nat maxevents) slots s Hu Hok) as Ho.
  rewrite Hc in *. simpl in Ho. destruct Hr as [-> Hr], Ho as (? & _ & ? & _).
  by split_and!.
Qed.

Lemma slot_of_fd e p : slot_of lt_forced e = Some p -> pf_fd p = en_fd e.
Proof. unfold slot_of. intros Hs. by case_match; simplify_eq/=. Qed.

Lemma snapshot_NoDup s :
  entries_ok (es_entries s) -> NoDup (pf_fd <$> omap (slot_of lt_forced) (es_entries s)).
Proof.
  unfold entries_ok. induction (es_entries s) as [|e es IH]; [done|].
  rewrite fmap_cons, NoDup_cons. intros [He Hnd]. simpl.
  destruct (slot_of lt_forced e) as [p|] eqn:Hs; [|by apply IH].
  rewrite fmap_cons, NoDup_cons. split; [|by apply IH]. rewrite (slot_of_fd _ _ Hs).
  intros (q & Hq & (e' & He' & Hs')%list_elem_of_omap)%list_elem_of_fmap. apply He.
  rewrite Hq, (slot_of_fd _ _ Hs'). apply list_elem_of_fmap. eauto.
Qed.
End delivery.

(** ** ONESHOT: one event per arming

    A set with one waiting thread, and any number of threads that change the
    interest list or re-arm it between the waiter's critical sections. *)
Section oneshot.
Context `{HostConsts}.

Record waiter := Waiter { wt_set : epoll_set; wt_slots : list pollfd }.

Inductive wait_op :=
  | WCtl (mem : bool) (op fd : Z) (ev : epoll_event)   (* epoll_ctl *)
  | WRearm (fd bits : Z)                               (* the I/O shims' hooks *)
  | WDropBad (fd : Z)                                  (* a probe found fd bad *)
  | WSnapshot                                          (* the waiter takes the list *)
  | WCollect (revents : list Z) (room : nat).          (* poll answered; hand out *)

(** The polled slots as the host filled them in. *)
Definition answered (slots : list pollfd) (revents : list Z) : list pollfd :=
  imap (fun i p => PollFd (pf_fd p) (pf_events p) (nth i revents 0)) slots.

Definition wait_step (st : waiter) (op : wait_op) : waiter * list epoll_event :=
  let s := wt_set st in
  match op with
  | WCtl mem op fd ev => (Waiter (snd (ctl_locked mem op fd ev s)) (wt_slots st), [])
  | WRearm fd bits => (Waiter (fst (rearm_in_set fd bits s)) (wt_slots st), [])
  | WDropBad fd => (Waiter (snd (drop_entry fd s)) (wt_slots st), [])
  | WSnapshot => (Waiter s (drop 1 (snapshot false s)), [])
  | WCollect revents room =>
      let '(out, s') := collect false room (answered (wt_slots st) revents) s in
      (Waiter s' [], out)
  end.

Fixpoint wait_run (st : waiter) (ops : list wait_op) : waiter * list epoll_event :=
  match ops with
  | [] => (st, [])
  | op :: ops' =>
      let '(st', out) := wait_step st op in
      let '(st'', out') := wait_run st' ops' in (st'', out ++ out')
  end.

(** Does this operation arm the token [d]? A call that is refused (EEXIST,
    ENOENT, ENOMEM) does not. *)
Definition arms (d : Z) (st : waiter) (op : wait_op) : bool :=
  match op with
  | WCtl mem op fd ev =>
      ((op =? SHIM_EPOLL_CTL_ADD) || (op =? SHIM_EPOLL_CTL_MOD)) && (ev_data ev =? d) &&
      bool_decide (fst (ctl_locked mem op fd ev (wt_set st)) = Ok tt)
  | _ => false
  end.

(** How often the token is armed along a run. *)
Fixpoint armings (d : Z) (st : waiter) (ops : list wait_op) : nat :=
  match ops with
  | [] => 0
  | op :: ops' =>
      (if arms d st op then 1 else 0) + armings d (fst (wait_step st op)) ops'
  end.

Definition oneshot_token (d : Z) (op : wait_op) : Prop :=
  match op with
  | WCtl _ _ _ ev => ev_data ev = d -> has (ev_events ev) SHIM_EPOLLONESHOT = true
  | _ => True
  end.

(** The events the token may still yield: its entries that are armed or
    already in the waiter's array. *)
Definition live (d : Z) (fds : list Z) (e : epoll_entry) : nat :=
  if (en_data e =? d) && (negb (en_armed e =? 0) || existsb (Z.eqb (en_fd e)) fds)
  then 1 else 0.

Definition credit (d : Z) (fds : list Z) (es : list epoll_entry) : nat :=
  sum_list_with (live d fds) es.

Definition oneshot_entries (d : Z) (es : list epoll_entry) : Prop :=
  Forall (fun e => en_data e = d -> has (en_events e) SHIM_EPOLLONESHOT = true) es.

Definition yields (d : Z) (out : list epoll_event) : nat :=
  length (filter (fun ev => ev_data ev = d) out).

Definition waiter_ok (d : Z) (st : waiter) : Prop :=
  es_used (wt_set st) = true /\ set_ok (wt_set st) /\
  oneshot_entries d (es_entries (wt_set st)) /\ NoDup (pf_fd <$> wt_slots st).

Lemma yields_app d l k : yields d (l ++ k) = (yields d l + yields d k)%nat.
Proof. unfold yields. by rewrite filter_app, length_app. Qed.

Lemma yields_cons d ev out :
  yields d (ev :: out) = ((if (ev_data ev =? d)%Z then 1 else 0) + yields d out)%nat.
Proof.
  unfold yields. rewrite filter_cons.
  destruct (Z.eqb_spec (ev_data ev) d); [rewrite decide_True|rewrite decide_False]; done.
Qed.

Lemma credit_insert d fds es j e e' :
  es !! j = Some e ->
  (credit d fds (<[j := e']> es) + live d fds e = credit d fds es + live d fds e')%nat.
Proof.
  unfold credit. revert j. induction es as [|x es IH]; intros [|j] Hj; simplify_eq/=; [lia|].
  specialize (IH j Hj). lia.
Qed.

Lemma live_mono d (fds fds' : list Z) e : fds ⊆ fds' -> (live d fds e <= live d fds' e)%nat.
Proof.
  intros Hs. unfold live.
  destruct (existsb (Z.eqb (en_fd e)) fds) eqn:He; [|repeat (case_match; simpl in *); lia].
  rewrite existsb_eqb_elem_of in He. apply Hs, existsb_eqb_elem_of in He. by rewrite He.
Qed.

Lemma credit_mono d (fds fds' : list Z) es :
  fds ⊆ fds' -> (credit d fds es <= credit d fds' es)%nat.
Proof.
  intros Hs. unfold credit. induction es as [|e es IH]; [done|]. simpl.
  pose proof (live_mono d fds fds' e Hs). lia.
Qed.

Lemma credit_mono_at d (fds fds' : list Z) es j e :
  fds ⊆ fds' -> es !! j = Some e ->
  (credit d fds es + live d fds' e <= credit d fds' es + live d fds e)%nat.
Proof.
  intros Hs. unfold credit. revert j. induction es as [|x es IH]; intros [|j] Hj; simplify_eq/=.
  - pose proof (credit_mono d fds fds' es Hs). unfold credit in *. lia.
  - specialize (IH j Hj). pose proof (live_mono d fds fds' x Hs). lia.
Qed.

Lemma live_le_1 d fds e : (live d fds e <= 1)%nat.
Proof. unfold live. case_match; lia. Qed.

Lemma credit_perm d fds es es' : Permutation es es' -> credit d fds es = credit d fds es'.
Proof. unfold credit. induction 1; simpl; lia. Qed.

Lemma Forall_swap_remove {A} (P : A -> Prop) l j x :
  l !! j = Some x -> Forall P l -> Forall P (swap_remove j l).
Proof.
  intros Hj HP. rewrite (swap_remove_perm _ _ _ Hj) in HP.
  by apply Forall_cons in HP as [_ HP].
Qed.

Lemma remove_credit d fds s fd j :
  find_entry s fd = Some j -> oneshot_entries d (es_entries s) ->
  (credit d fds (swap_remove j (es_entries s)) <= credit d fds (es_entries s))%nat /\
  oneshot_entries d (swap_remove j (es_entries s)).
Proof.
  intros (e & He & _)%find_entry_Some Ho. split; [|by eapply Forall_swap_remove].
  rewrite (credit_perm d fds _ _ (swap_remove_perm _ _ _ He)). unfold credit. simpl. lia.
Qed.

Lemma ctl_credit d mem op fd ev st :
  oneshot_entries d (es_entries (wt_set st)) ->
  oneshot_token d (WCtl mem op fd ev) ->
  let s' := snd (ctl_locked mem op fd ev (wt_set st)) in
  let fds := pf_fd <$> wt_slots st in
  oneshot_entries d (es_entries s') /\
  (credit d fds (es_entries s') <=
   credit d fds (es_entries (wt_set st)) + if arms d st (WCtl mem op fd ev) then 1 else 0)%nat.
Proof.
  destruct st as [s slots]. simpl wt_set. simpl wt_slots. intros Ho Htok. simpl in Htok.
  set (fds := pf_fd <$> slots).
  assert (Hlive : forall x, (live d fds (Entry fd (ev_events ev) (ev_data ev) x) <=
                        if (ev_data ev =? d)%Z then 1 else 0)%nat).
  { intros x. unfold live. simpl. destruct (ev_data ev =? d); simpl; [case_match; lia|lia]. }
  specialize (Hlive full_arm). unfold ctl_locked, arms. simpl wt_set. unfold ctl_locked.
  destruct (op =? SHIM_EPOLL_CTL_ADD); [|destruct (op =? SHIM_EPOLL_CTL_MOD);
    [|destruct (op =? SHIM_EPOLL_CTL_DEL)]];
    destruct (find_entry s fd) as [j|] eqn:Hj; simpl; try (split; [done|lia]).
  - destruct (_ && negb mem); simpl; [split; [done|lia]|]. split.
    + apply Forall_app. split; [done|]. by constructor.
    + unfold credit. rewrite sum_list_with_app. simpl. rewrite andb_true_r. lia.
  - pose proof Hj as (e & He & _)%find_entry_Some. split; [by apply Forall_insert|].
    pose proof (credit_insert d fds _ j e (Entry fd (ev_events ev) (ev_data ev) full_arm) He).
    rewrite andb_true_r. lia.
  - destruct (remove_credit d fds s fd j Hj Ho). split; [done|lia].
Qed.

Lemma rearm_credit d fds fd bits s :
  oneshot_entries d (es_entries s) ->
  let s' := fst (rearm_in_set fd bits s) in
  oneshot_entries d (es_entries s') /\
  credit d fds (es_entries s') = credit d fds (es_entries s).
Proof.
  intros Ho. unfold rearm_in_set. destruct (es_used s); [|done].
  destruct (find_entry s fd) as [j|] eqn:Hj; [|done].
  destruct (es_entries s !! j) as [e|] eqn:He; [|done].
  destruct (has (en_events e) SHIM_EPOLLET && _) eqn:Het; [|done].
  apply andb_true_iff in Het as [_ Hos%negb_true_iff].
  destruct (_ =? en_armed e); [done|]. simpl.
  pose proof (Forall_lookup_1 _ _ _ _ Ho He) as Hd. simpl in Hd.
  assert (Hne : en_data e <> d) by (intros Hed; rewrite Hd in Hos; done).
  split; [by apply Forall_insert|].
  pose proof (credit_insert d fds _ j e
    (Entry (en_fd e) (en_events e) (en_data e) (Z.lor (en_armed e) bits)) He) as Hc.
  unfold live in Hc. simpl in Hc. rewrite (proj2 (Z.eqb_neq _ _) Hne) in Hc. simpl in Hc. lia.
Qed.

Lemma epoll_to_poll_disarmed e : epoll_to_poll e 0 = 0.
Proof. unfold epoll_to_poll. by rewrite !has_0_l. Qed.

(** A disarmed ONESHOT entry is left out of the array. *)
Lemma slot_of_armed e p :
  slot_of false e = Some p -> has (en_events e) SHIM_EPOLLONESHOT = true -> en_armed e <> 0.
Proof.
  unfold slot_of, effective_armed, edge. intros Hs Hos Ha.
  rewrite has_lor_r, Hos, orb_true_r, Ha in Hs. cbn [negb orb] in Hs.
  by rewrite epoll_to_poll_disarmed in Hs.
Qed.

Lemma snapshot_credit d s :
  entries_ok (es_entries s) -> oneshot_entries d (es_entries s) ->
  credit d (pf_fd <$> drop 1 (snapshot false s)) (es_entries s) = credit d [] (es_entries s).
Proof.
  unfold entries_ok. intros Hnd Ho. simpl. rewrite drop_0.
  set (fds := pf_fd <$> omap (slot_of false) (es_entries s)).
  assert (Hfds : forall e, e ∈ es_entries s -> en_data e = d -> en_fd e ∈ fds -> en_armed e <> 0).
  { intros e He Hd (p & Hp & (e' & He' & Hs)%list_elem_of_omap)%list_elem_of_fmap.
    rewrite (slot_of_fd _ _ _ Hs) in Hp.
    apply list_elem_of_lookup in He as [i Hi], He' as [k Hk].
    assert (i = k) as -> by eauto using NoDup_fmap_lookup_inj. simplify_eq.
    eapply slot_of_armed; [done|]. by apply (Forall_lookup_1 _ _ _ _ Ho Hi). }
  clearbody fds. clear Hnd Ho. unfold credit.
  induction (es_entries s) as [|e es IH]; [done|]. simpl. f_equal; [|apply IH; set_solver].
  unfold live. destruct (Z.eqb_spec (en_data e) d) as [Hd|]; [|done]. simpl.
  destruct (existsb (Z.eqb (en_fd e)) fds) eqn:Hin; [|by rewrite orb_false_r].
  apply existsb_eqb_elem_of in Hin. assert (en_armed e <> 0) as Ha by (apply Hfds; set_solver).
  by rewrite (proj2 (Z.eqb_neq _ _) Ha).
Qed.

Lemma collect_credit d room slots s :
  oneshot_entries d (es_entries s) -> NoDup (pf_fd <$> slots) ->
  let '(out, s') := collect false room slots s in
  oneshot_entries d (es_entries s') /\
  (yields d out + credit d [] (es_entries s') <=
   credit d (pf_fd <$> slots) (es_entries s))%nat.
Proof.
  revert room s. induction slots as [|p slots IH]; intros room s Ho Hnd; [by destruct room|].
  rewrite fmap_cons in Hnd |- *. apply NoDup_cons in Hnd as [Hp Hnd].
  set (fds := pf_fd <$> slots) in *.
  assert (Hskip : forall k, let '(out, s') := collect false k slots s in
    oneshot_entries d (es_entries s') /\
    (yields d out + credit d [] (es_entries s') <= credit d (pf_fd p :: fds) (es_entries s))%nat).
  { intros k. specialize (IH k s Ho Hnd). destruct (collect false k slots s) as [out s'].
    destruct IH as [? IH]. split; [done|].
    pose proof (credit_mono d fds (pf_fd p :: fds) (es_entries s) ltac:(set_solver)). lia. }
  destruct room as [|room].
  { simpl. split; [done|]. apply credit_mono. set_solver. }
  cbn [collect]. destruct (_ =? 0); [apply (Hskip (S room))|].
  destruct (find_entry s (pf_fd p)) as [j|] eqn:Hj; [|apply (Hskip (S room))].
  destruct (es_entries s !! j) as [e|] eqn:He; [|apply (Hskip (S room))].
  set (ev := poll_to_epoll (care_bits p)). set (s1 := with_entries s _).
  assert (Ho1 : oneshot_entries d (es_entries s1)).
  { apply Forall_insert; [done|]. intros Hd. by apply (Forall_lookup_1 _ _ _ _ Ho He). }
  specialize (IH room s1 Ho1 Hnd). destruct (collect false room slots s1) as [out s'].
  destruct IH as [? IH]. split; [done|]. rewrite yields_cons. simpl.
  apply find_entry_Some in Hj as (e0 & He0 & Hfd). assert (e0 = e) as -> by congruence.
  pose proof (credit_insert d fds _ j e (disarm_entry false ev e) He) as Hc.
  pose proof (credit_mono d fds (pf_fd p :: fds) (es_entries s) ltac:(set_solver)) as Hm.
  change (es_entries s1) with (<[j := disarm_entry false ev e]> (es_entries s)) in IH.
  destruct (Z.eqb_spec (en_data e) d) as [Hd|Hd]; simpl.
  2:{ unfold live in Hc. simpl in Hc. rewrite (proj2 (Z.eqb_neq _ _) Hd) in Hc. simpl in Hc. lia. }
  assert (Hlive1 : live d fds (disarm_entry false ev e) = 0%nat).
  { pose proof (Forall_lookup_1 _ _ _ _ Ho He) as Hos. simpl in Hos. specialize (Hos Hd).
    unfold live, disarm_entry, disarm. simpl. rewrite Hos. simpl.
    destruct (existsb _ fds) eqn:Hin; [|by rewrite andb_false_r].
    apply existsb_eqb_elem_of in Hin. by rewrite Hfd in Hin. }
  assert (Hlive2 : live d (pf_fd p :: fds) e = 1%nat).
  { unfold live. simpl. rewrite Hd, Hfd, !Z.eqb_refl. by rewrite orb_true_r. }
  pose proof (credit_mono_at d fds (pf_fd p :: fds) _ j e ltac:(set_solver) He). lia.
Qed.

Lemma answered_fds slots revents : pf_fd <$> answered slots revents = pf_fd <$> slots.
Proof.
  unfold answered. rewrite fmap_imap. simpl. rewrite <- imap_const. by apply imap_ext.
Qed.

Lemma drop_entry_ok fd s :
  es_used s = true -> set_ok s ->
  set_ok (snd (drop_entry fd s)) /\ es_used (snd (drop_entry fd s)) = true.
Proof.
  intros Hu Hok. unfold drop_entry. destruct (find_entry s fd) as [j|] eqn:Hj; [|done].
  apply find_entry_Some in Hj as (e & He & _). unfold set_ok in *. simpl. rewrite Hu in *.
  destruct Hok as (? & ? & Hnd & ?). split; [|done].
  destruct (registrations_remove s j e Hnd He) as [_ ?].
  rewrite length_swap_remove by (by eapply lookup_lt_Some). split_and!; try done. lia.
Qed.

(** One step: what it yields is paid for by credit or by an arming. *)
Lemma wait_step_credit d st op :
  waiter_ok d st -> oneshot_token d op ->
  let '(st', out) := wait_step st op in
  waiter_ok d st' /\
  (yields d out + credit d (pf_fd <$> wt_slots st') (es_entries (wt_set st')) <=
   credit d (pf_fd <$> wt_slots st) (es_entries (wt_set st)) +
   if arms d st op then 1 else 0)%nat.
Proof.
  destruct st as [s slots]. unfold waiter_ok. simpl. intros (Hu & Hok & Ho & Hnd) Htok.
  destruct op as [mem op fd ev|fd bits|fd| |revents room]; cbn [wait_step wt_set wt_slots].
  - pose proof (ctl_credit d mem op fd ev (Waiter s slots) Ho Htok) as [? Hc]. cbn [wt_set wt_slots] in *.
    destruct (ctl_locked mem op fd ev s) as [rc s'] eqn:Hl. simpl in *.
    destruct (ctl_locked_refines _ _ _ _ _ _ _ Hu Hok Hl) as (? & ? & _). by split_and!.
  - pose proof (rearm_credit d (pf_fd <$> slots) fd bits s Ho) as [? Hc].
    destruct (rearm_in_set_ok fd bits s Hok) as [? _]. split_and!; try done; [|simpl in *; lia].
    unfold rearm_in_set. repeat case_match; done.
  - destruct (drop_entry_ok fd s Hu Hok) as [? ?]. unfold drop_entry in *.
    destruct (find_entry s fd) as [j|] eqn:Hj; simpl in *; [|split_and!; try done; lia].
    destruct (remove_credit d (pf_fd <$> slots) s fd j Hj Ho). split_and!; try done.
    simpl in *. lia.
  - assert (Hents : entries_ok (es_entries s)).
    { unfold set_ok in Hok. rewrite Hu in Hok. by destruct Hok as (_ & _ & ? & _). }
    split_and!; try done; [by apply snapshot_NoDup|].
    rewrite snapshot_credit by done. simpl.
    pose proof (credit_mono d [] (pf_fd <$> slots) (es_entries s) ltac:(set_solver)). lia.
  - pose proof (collect_ok false room (answered slots revents) s Hu Hok) as Hco.
    pose proof (collect_credit d room (answered slots revents) s Ho) as Hcc.
    rewrite answered_fds in Hcc. specialize (Hcc Hnd).
    destruct (collect false room (answered slots revents) s) as [out s']. simpl in *.
    destruct Hco as (? & ? & _), Hcc as [? ?]. split_and!; try done; [constructor|].
    change (pf_fd <$> []) with (@nil Z). lia.
Qed.

(** C1: a ONESHOT registration yields at most one event per arming. With
    RUST_APE_EPOLL_LT unset, for a token that no entry of the set carries at
    the start and that is only ever registered with EPOLLONESHOT, and in any
    interleaving of one waiter's rounds with epoll_ctl calls, re-arms and
    dropped descriptors: the token comes back at most as often as an ADD or
    MOD that SUCCEEDED armed it, whatever poll answers. A refused call arms
    nothing. *)
Theorem oneshot_at_most_once d st ops :
  waiter_ok d st -> Forall (oneshot_token d) ops ->
  Forall (fun e => en_data e <> d) (es_entries (wt_set st)) ->
  (yields d (snd (wait_run st ops)) <= armings d st ops)%nat.
Proof.
  intros Hok Hops Hnone.
  assert (H0 : credit d (pf_fd <$> wt_slots st) (es_entries (wt_set st)) = 0%nat).
  { unfold credit. induction Hnone as [|e es He _ IH]; [done|]. simpl. rewrite IH.
    unfold live. by rewrite (proj2 (Z.eqb_neq _ _) He). }
  enough (yields d (snd (wait_run st ops)) <=
          credit d (pf_fd <$> wt_slots st) (es_entries (wt_set st)) + armings d st ops)%nat by lia.
  clear Hnone H0. revert st Hok. induction Hops as [|op ops Hop Hops IH]; intros st Hok; [apply Nat.le_0_l|].
  cbn [wait_run armings]. pose proof (wait_step_credit d st op Hok Hop) as Hst.
  destruct (wait_step st op) as [st' out]. destruct Hst as [Hok' Hle].
  specialize (IH st' Hok'). destruct (wait_run st' ops) as [st'' out'].
  simpl in *. rewrite yields_app. lia.
Qed.
End oneshot.

Lemma collect_one `{HostConsts} lt s p room e :
  es_entries s = [e] -> pf_fd p = en_fd e -> care_bits p <> 0 ->
  collect lt (S room) [p] s =
  ([Event (poll_to_epoll (care_bits p)) (en_data e)],
   with_entries s [disarm_entry lt (poll_to_epoll (care_bits p)) e]).
Proof.
  intros He Hp Hc%Z.eqb_neq. cbn [collect]. unfold find_entry.
  rewrite Hc, He, Hp. simpl. rewrite Z.eqb_refl. by destruct room.
Qed.

(** One waiter is what the bound needs: collect does not look at [en_armed]
    again, so two threads that both took the list before either handed out
    both report the same arming. *)
Lemma two_waiters_report_twice `{HostConsts} s p room e :
  es_entries s = [e] -> has (en_events e) SHIM_EPOLLONESHOT = true ->
  pf_fd p = en_fd e -> care_bits p <> 0 ->
  let '(out1, s1) := collect false (S room) [p] s in
  let '(out2, s2) := collect false (S room) [p] s1 in
  out1 = out2 /\ length out1 = 1%nat /\ en_armed <$> es_entries s1 = [0].
Proof.
  intros He Hos Hp Hc. rewrite (collect_one false s p room e) by done.
  rewrite (collect_one false _ p room (disarm_entry false (poll_to_epoll (care_bits p)) e)) by done.
  split_and!; try done. simpl. unfold disarm. by rewrite Hos.
Qed.

(** ** A re-armed direction is polled again *)

Section edges.
Context `{HostConsts}.

Lemma slot_of_asks s e :
  e ∈ es_entries s ->
  has (epoll_to_poll (en_events e) (effective_armed false e)) POLLIN = true ->
  exists p, p ∈ drop 1 (snapshot false s) /\ pf_fd p = en_fd e /\ has (pf_events p) POLLIN = true.
Proof.
  intros He Hin. unfold snapshot. simpl. rewrite drop_0.
  eexists (PollFd (en_fd e) _ 0). split_and!; [|done|exact Hin].
  apply list_elem_of_omap. exists e. split; [done|]. unfold slot_of.
  rewrite (proj2 (Z.eqb_neq _ _)); [done|]. intros Hz. by rewrite Hz, has_0_l in Hin.
Qed.

Lemma epoll_to_poll_in e armed :
  POLLIN <> 0 -> has e SHIM_EPOLLIN = true -> has armed SHIM_ARM_IN = true ->
  has (epoll_to_poll e armed) POLLIN = true.
Proof.
  intros Hnz He Ha.
  assert (Hself : has POLLIN POLLIN = true) by (apply has_true; by rewrite Z.land_diag).
  unfold epoll_to_poll. rewrite Ha, He.
  repeat case_match; rewrite ?has_lor_l, ?Hself, ?orb_true_r; done.
Qed.

(** C3: no wake-up is lost between a report and the next read: after the
    read shim's hook the next round polls the descriptor for input again,
    whatever had been disarmed, and whoever had been left parked is kicked
    unless the direction was armed all along. *)
Theorem rearm_polls_again fd s s' wakes r :
  POLLIN <> 0 -> es_used s = true -> set_ok s ->
  registrations s !! fd = Some r ->
  has (rg_events r) SHIM_EPOLLET = true -> has (rg_events r) SHIM_EPOLLONESHOT = false ->
  has (rg_events r) SHIM_EPOLLIN = true ->
  rearm_in_set fd SHIM_ARM_IN s = (s', wakes) ->
  (exists p, p ∈ drop 1 (snapshot false s') /\ pf_fd p = fd /\ has (pf_events p) POLLIN = true) /\
  (wakes = [es_waker s] \/ s' = s).
Proof.
  intros Hnz Hu Hok Hr Het Hos Hin Hre.
  assert (Hents : entries_ok (es_entries s)).
  { unfold set_ok in Hok. rewrite Hu in Hok. by destruct Hok as (_ & _ & ? & _). }
  pose proof (find_entry_lookup s fd Hents) as Hf.
  unfold rearm_in_set in Hre. rewrite Hu in Hre.
  destruct (find_entry s fd) as [j|]; [|destruct Hf; congruence].
  destruct Hf as (e & He & Hfd & Hlk). rewrite Hlk in Hr. injection Hr as Hr.
  unfold reg_of in Hr. subst r. simpl in *. rewrite He, Het, Hos in Hre. simpl in Hre.
  assert (Harm : forall a, has (Z.lor a SHIM_ARM_IN) SHIM_ARM_IN = true).
  { intros a. rewrite has_lor_l. apply orb_true_r. }
  assert (Heff : forall a, has (epoll_to_poll (en_events e)
      (effective_armed false (Entry (en_fd e) (en_events e) (en_data e) (Z.lor a SHIM_ARM_IN)))) POLLIN = true).
  { intros a. unfold effective_armed. simpl. rewrite has_lor_r, Het. simpl.
    by apply epoll_to_poll_in. }
  case_match eqn:Hsame; injection Hre as <- <-; split; auto.
  - destruct (slot_of_asks s e) as (p & Hp & Hpfd & Hask).
    { by eapply list_elem_of_lookup_2. }
    { apply Z.eqb_eq in Hsame. specialize (Heff (en_armed e)). rewrite Hsame in Heff. by destruct e. }
    exists p. rewrite Hpfd. split_and!; [exact Hp|done|done].
  - set (s' := with_entries s _).
    destruct (slot_of_asks s' (Entry (en_fd e) (en_events e) (en_data e) (Z.lor (en_armed e) SHIM_ARM_IN)))
      as (p & Hp & Hpfd & Hask).
    { simpl. apply list_elem_of_lookup. exists j. apply list_lookup_insert_eq.
      by eapply lookup_lt_Some. }
    { apply Heff. }
    exists p. rewrite Hpfd. split_and!; [exact Hp|done|done].
Qed.
End edges.

(** ** What the whole call answers *)

Lemma collect_length `{HostConsts} lt room slots s :
  (length (fst (collect lt room slots s)) <= room)%nat.
Proof.
  revert room s. induction slots as [|p slots IH]; intros [|room] s; simpl; try lia.
  destruct (_ =? 0); [apply (IH (S room))|].
  destruct (find_entry s (pf_fd p)); [|apply (IH (S room))].
  destruct (es_entries s !! _); [|apply (IH (S room))].
  match goal with |- context [collect lt room slots ?s1] => specialize (IH room s1);
    destruct (collect lt room slots s1) end. simpl in *. lia.
Qed.

Section answer.
Context `{HostConsts} {W : Type} `{HostPoll W} `{PacketWatch W} `{EpollTable W}.
Context (polled_ms : Z) (console : list pollfd -> W -> W) (lt_forced : bool).

(** A round's answer is within the caller's array; with no deadline it is
    never empty. *)
Definition answer_ok (maxevents deadline : Z) (e : round_end) : Prop :=
  match e with
  | Answer (Ok out) =>
      Z.of_nat (length out) <= maxevents /\ (deadline < 0 -> out <> [])
  | _ => True
  end.

Lemma round_finish_ok fuel i pfds rc maxevents deadline bad (w : W) e w' :
  0 < maxevents ->
  round_finish lt_forced fuel i pfds rc maxevents deadline bad w = Some (e, w') ->
  answer_ok maxevents deadline e.
Proof.
  intros Hmax Hr. unfold round_finish in Hr. rewrite bind_reads in Hr.
  apply bind_Some in Hr as (? & w1 & _ & Hr).
  apply bind_Some in Hr as (again & w2 & _ & Hr). destruct again; [by injection Hr as <- _|].
  apply bind_Some in Hr as (out & w3 & Hout & Hr).
  assert (Hlen : Z.of_nat (length out) <= maxevents).
  { destruct (0 <? _); [|injection Hout as <- _; simpl; lia].
    unfold locked, step in Hout.
    match type of Hout with context [collect ?lt ?r ?l ?s] =>
      pose proof (collect_length lt r l s); destruct (collect lt r l s) end.
    injection Hout as <- _. simpl in *. lia. }
  case_bool_decide as Hne; [by injection Hr as <- _|].
  apply bind_Some in Hr as (done' & w4 & Hd & Hr). injection Hr as <- _.
  destruct done'; [|done]. split; [simpl; lia|]. intros Hneg. exfalso.
  unfold expired in Hd. rewrite (proj2 (Z.leb_gt _ _)) in Hd by lia. by injection Hd.
Qed.

Lemma wait_round_ok fuel i maxevents deadline bad (w : W) e w' :
  0 < maxevents ->
  wait_round polled_ms console lt_forced fuel i maxevents deadline bad w = Some (e, w') ->
  answer_ok maxevents deadline e.
Proof.
  intros Hmax Hr. unfold wait_round in Hr. rewrite bind_reads in Hr.
  apply bind_Some in Hr as (ms & w1 & _ & Hr).
  apply bind_Some in Hr as ([rc pfds] & w2 & _ & Hr).
  apply bind_Some in Hr as ([rc' pfds'] & w3 & _ & Hr).
  destruct rc' as [n|err]; [by eapply round_finish_ok|].
  destruct err; try (injection Hr as <- _; done).
  - apply bind_Some in Hr as (left & w4 & _ & Hr).
    destruct left; [by injection Hr as <- _|by eapply round_finish_ok].
  - apply bind_Some in Hr as (d & w4 & _ & Hr). injection Hr as <- _. by repeat case_match.
  - apply bind_Some in Hr as (d & w4 & _ & Hr). injection Hr as <- _. by repeat case_match.
Qed.

Lemma wait_loop_ok fuel i maxevents deadline pcap bad (w : W) r w' :
  0 < maxevents ->
  wait_loop polled_ms console lt_forced fuel i maxevents deadline pcap bad w = Some (r, w') ->
  answer_ok maxevents deadline (Answer r).
Proof.
  intros Hmax. revert pcap bad w. induction fuel as [|fuel IH]; intros pcap bad w Hr; [done|].
  cbn [wait_loop] in Hr. rewrite !bind_reads in Hr.
  destruct (_ && _); [by injection Hr as <- _|].
  apply bind_Some in Hr as (e & w1 & He & Hr). pose proof (wait_round_ok _ _ _ _ _ _ _ _ Hmax He).
  destruct e as [bad'|r']; [by eapply IH|by injection Hr as <- _].
Qed.

(** C4: epoll_wait refuses a dead handle before it looks at [maxevents],
    never hands back more than [maxevents] events, and without a timeout
    never comes back empty-handed. *)
Theorem emu_wait_answers fuel epfd maxevents timeout (w : W) r w' :
  emu_wait polled_ms console lt_forced fuel epfd maxevents timeout w = Some (r, w') ->
  match set_by_handle_locked epfd (get_sets w) with
  | None => r = Err EBADF /\ w' = w
  | Some _ =>
      if maxevents <=? 0 then r = Err EINVAL /\ w' = w
      else match r with
           | Ok out => Z.of_nat (length out) <= maxevents /\ (timeout < 0 -> out <> [])
           | Err _ => True
           end
  end.
Proof.
  unfold emu_wait. rewrite bind_reads.
  destruct (set_by_handle_locked epfd (get_sets w)) as [i|]; [|by intros [= <- <-]].
  destruct (Z.leb_spec maxevents 0) as [Hm|Hm]; [by intros [= <- <-]|].
  intros Hr. apply bind_Some in Hr as (deadline & w1 & Hd & Hr).
  apply wait_loop_ok in Hr; [|done]. destruct r as [out|]; [|done].
  simpl in Hr. destruct Hr as [? Hneg]. split; [done|]. intros Ht. apply Hneg.
  destruct (Z.ltb_spec timeout 0); [|lia]. injection Hd as <- _. lia.
Qed.
End answer.

(** ** A wait with no timeout comes back *)

(** A process in which no other thread touches the table while the waiter is
    in the host: the calls leave it alone, time does not run back, and only
    reading changes what is left in the wakers' pipes. *)
Class QuietHost (W : Type) `{HostPoll W} `{EpollTable W} := {
  clock_ms : W -> Z;
  pipe_left : W -> nat;
  quiet (w w' : W) : Prop :=
    get_sets w' = get_sets w /\ clock_ms w <= clock_ms w' /\
    (pipe_left w' <= pipe_left w)%nat;
  quiet_now (w : W) : fst (h_now w) = clock_ms w /\ quiet w (snd (h_now w));
  quiet_ppoll fds ts (w : W) : quiet w (snd (h_ppoll fds ts w));
  quiet_poll fds ms (w : W) : quiet w (snd (h_poll fds ms w));
  quiet_read fd (w : W) : quiet w (snd (h_read64 fd w));
  read_drains fd (w : W) : 0 < fst (h_read64 fd w) ->
    (pipe_left (snd (h_read64 fd w)) < pipe_left w)%nat;
  put_get sets (w : W) : get_sets (put_sets sets w) = sets;
  put_time sets (w : W) : clock_ms (put_sets sets w) = clock_ms w;
  put_pipe sets (w : W) : pipe_left (put_sets sets w) = pipe_left w }.

Section ends.
Context `{HostConsts} {W : Type} `{HP : HostPoll W} `{!PacketWatch W} `{ET : EpollTable W}.
Context `{!QuietHost W}.
Context (polled_ms : Z) (console : list pollfd -> W -> W) (lt_forced : bool).

#[local] Instance quiet_preorder : PreOrder (@quiet W _ _ _).
Proof.
  split; [intros a; unfold quiet; split_and!; lia || done|].
  intros a b c (? & ? & ?) (? & ? & ?). unfold quiet. split_and!; [congruence|lia|lia].
Qed.

Lemma now_runs (w : W) : exists w', now_ms w = Some (clock_ms w, w') /\ quiet w w'.
Proof.
  destruct (quiet_now w) as [Hn Hq]. unfold now_ms, step.
  destruct (h_now w) as [n w']. simpl in *. subst. eauto.
Qed.

Lemma ppoll_runs fds ts (w : W) : exists rf w', ppoll fds ts w = Some (rf, w') /\ quiet w w'.
Proof.
  pose proof (quiet_ppoll fds ts w). unfold ppoll, step. destruct (h_ppoll fds ts w). eauto.
Qed.

Lemma poll_runs fds ms (w : W) : exists rf w', poll fds ms w = Some (rf, w') /\ quiet w w'.
Proof.
  pose proof (quiet_poll fds ms w). unfold poll, step. destruct (h_poll fds ms w). eauto.
Qed.

Lemma host_ppoll_zero fuel fds ts (w : W) :
  tv_sec ts = 0 -> tv_nsec ts = 0 ->
  exists rf w', shim_host_ppoll polled_ms console fuel fds (Some ts) w = Some (rf, w') /\ quiet w w'.
Proof.
  intros Hs Hn. unfold shim_host_ppoll. rewrite bind_reads.
  assert (Hinner : forall l, exists rf w',
    host_ppoll_inner polled_ms console fuel l (Some ts) w = Some (rf, w') /\ quiet w w').
  { intros l. unfold host_ppoll_inner. rewrite Hs, Hn. simpl. rewrite andb_false_r, orb_true_r.
    apply ppoll_runs. }
  destruct (_ || bool_decide (SHIM_PKT_POLL_MAX < _)%nat); [apply Hinner|].
  rewrite bind_reads. destruct (bool_decide (omap _ _ = [])); [apply Hinner|].
  match goal with |- context [host_ppoll_inner _ _ _ ?l _] =>
    destruct (Hinner l) as ([r big] & w' & Hr & Hq) end.
  rewrite (bind_run _ _ _ _ _ Hr). eauto.
Qed.

Lemma poll_scan_runs fuel pfds got (w : W) :
  (length pfds < fuel)%nat ->
  exists rf w', poll_scan fuel pfds got w = Some (rf, w') /\ quiet w w'.
Proof.
  revert pfds got w. induction fuel as [|fuel IH]; intros pfds got w Hf; [lia|].
  cbn [poll_scan]. destruct pfds as [|p pfds]; [eexists _, w; by split|].
  destruct (poll_runs (take SHIM_POLL_CHUNK (p :: pfds)) 0 w) as ([r c] & w1 & Hr & Hq).
  rewrite (bind_run _ _ _ _ _ Hr). destruct r as [k|]; [|by eexists _, w1].
  destruct (IH (drop SHIM_POLL_CHUNK (p :: pfds)) (got + k) w1) as ([r' rest] & w2 & Hr' & Hq').
  { rewrite length_drop. unfold SHIM_POLL_CHUNK. simpl in *. lia. }
  rewrite (bind_run _ _ _ _ _ Hr'). eexists _, w2. split; [done|by etrans].
Qed.

Lemma poll_chunked_zero fuel pfds (w : W) :
  (0 < fuel)%nat -> 0 <= clock_ms w ->
  exists rf w', poll_chunked fuel pfds 0 w = Some (rf, w') /\ quiet w w'.
Proof.
  intros Hf Hw. unfold poll_chunked. change (0 <? 0) with false. cbv iota.
  destruct (now_runs w) as (w1 & Hn & Hq1). rewrite (bind_run _ _ _ (clock_ms w + 0) w1).
  2:{ by rewrite (bind_run _ _ _ _ _ Hn). }
  destruct fuel as [|fuel]; [lia|]. cbn [poll_chunked_loop].
  destruct (poll_scan_runs (S (length pfds)) pfds 0 w1) as ([r l] & w2 & Hs & Hq2); [lia|].
  rewrite (bind_run _ _ _ _ _ Hs).
  destruct r as [got|]; [|eexists _, w2; split; [done|by etrans]].
  case_match; [eexists _, w2; split; [done|by etrans]|].
  rewrite Z.add_0_r, (proj2 (Z.leb_le _ _)) by done. cbv iota.
  destruct (now_runs w2) as (w3 & Hn3 & Hq3).
  rewrite (bind_run _ _ _ (clock_ms w - clock_ms w2) w3).
  2:{ by rewrite (bind_run _ _ _ _ _ Hn3). }
  destruct Hq1 as (E1 & L1 & P1), Hq2 as (E2 & L2 & P2), Hq3 as (E3 & L3 & P3).
  rewrite (proj2 (Z.leb_le _ _)) by lia. simpl.
  eexists _, w3. split; [done|]. split_and!; [congruence|lia|lia].
Qed.

Lemma drain_runs fuel fd (w : W) :
  (pipe_left w < fuel)%nat -> exists w', drain fuel fd w = Some (tt, w') /\ quiet w w'.
Proof.
  revert w. induction fuel as [|fuel IH]; intros w Hf; [lia|]. cbn [drain]. rewrite bind_step.
  pose proof (quiet_read fd w) as Hq. pose proof (read_drains fd w) as Hd.
  destruct (h_read64 fd w) as [n w1]. simpl in *.
  destruct (Z.ltb_spec 0 n); [|by exists w1].
  destruct (IH w1) as (w2 & Hr & Hq2); [specialize (Hd ltac:(done)); lia|].
  exists w2. split; [done|by etrans].
Qed.

(** What the waiter itself does to the table: the set at [i] changes. *)
Definition mine (i : nat) (n n' : nat) (w w' : W) : Prop :=
  length (get_sets w') = length (get_sets w) /\
  clock_ms w <= clock_ms w' /\ (pipe_left w' <= pipe_left w)%nat /\
  (n' + length (es_entries (set_at i w')) = n + length (es_entries (set_at i w)))%nat.

Lemma quiet_mine i w w' : quiet w w' -> mine i 0 0 w w'.
Proof. intros (He & ? & ?). unfold mine, set_at. rewrite He. by split_and!. Qed.

Lemma mine_trans i a b c d w1 w2 w3 :
  mine i a b w1 w2 -> mine i c d w2 w3 -> mine i (a + c) (b + d) w1 w3.
Proof. intros (? & ? & ? & ?) (? & ? & ? & ?). split_and!; [congruence|lia|lia|lia]. Qed.

Lemma locked_runs {A} i (f : epoll_set -> A * epoll_set) (w : W) :
  (i < length (get_sets w))%nat ->
  exists w', locked i f w = Some (fst (f (set_at i w)), w') /\
    set_at i w' = snd (f (set_at i w)) /\
    length (get_sets w') = length (get_sets w) /\
    clock_ms w' = clock_ms w /\ pipe_left w' = pipe_left w.
Proof.
  intros Hi. unfold locked, step. destruct (f (set_at i w)) as [a s]. eexists. split; [done|].
  unfold set_at. rewrite put_get, put_time, put_pipe, length_insert.
  by rewrite list_lookup_insert_eq.
Qed.

Lemma drop_entry_length fd s :
  (fst (drop_entry fd s) + length (es_entries (snd (drop_entry fd s))) = length (es_entries s))%nat.
Proof.
  unfold drop_entry. destruct (find_entry s fd) as [j|] eqn:Hj; simpl; [|lia].
  apply find_entry_Some in Hj as (e & He & _). pose proof (lookup_lt_Some _ _ _ He).
  rewrite length_swap_remove by done. lia.
Qed.

Lemma drop_bad_runs i slots (w : W) :
  (i < length (get_sets w))%nat ->
  exists d w', drop_bad i slots w = Some (d, w') /\ mine i 0 d w w'.
Proof.
  revert w. induction slots as [|p slots IH]; intros w Hi.
  { exists 0%nat, w. split; [done|]. apply quiet_mine. reflexivity. }
  cbn [drop_bad].
  destruct (poll_runs [PollFd (pf_fd p) (pf_events p) 0] 0 w) as ([r one] & w1 & Hr & Hq).
  rewrite (bind_run _ _ _ _ _ Hr).
  match goal with |- context [if ?c then mret 0%nat else _] => set (fine := c) end.
  apply (quiet_mine i) in Hq. assert (Hi1 : (i < length (get_sets w1))%nat) by (destruct Hq; lia).
  assert (Hd : exists d w2, (if fine then mret 0%nat else locked i (drop_entry (pf_fd p))) w1 =
                       Some (d, w2) /\ mine i 0 d w1 w2).
  { destruct fine.
    - exists 0%nat, w1. split; [done|]. apply quiet_mine. reflexivity.
    - destruct (locked_runs i (drop_entry (pf_fd p)) w1 Hi1) as (w2 & Hl & Hs & Hlen & Ht & Hp).
      exists (fst (drop_entry (pf_fd p) (set_at i w1))), w2. split; [done|].
      pose proof (drop_entry_length (pf_fd p) (set_at i w1)). unfold mine. rewrite Hs, Hlen.
      split_and!; lia. }
  destruct Hd as (d & w2 & Hd & Hm). rewrite (bind_run _ _ _ _ _ Hd).
  destruct (IH w2) as (k & w3 & Hk & Hm3); [destruct Hm; lia|].
  rewrite (bind_run _ _ _ _ _ Hk). exists (d + k)%nat, w3. split; [done|].
  apply (mine_trans i 0 0 0 (d + k) w w1); [done|]. by apply (mine_trans i 0 d 0 k _ w2).
Qed.

(** The clock has reached the deadline, so nobody waits. *)
Definition due (deadline : Z) (w : W) : Prop := 0 <= deadline <= clock_ms w.

Lemma due_quiet deadline w w' : due deadline w -> quiet w w' -> due deadline w'.
Proof. unfold due. intros ? (? & ? & ?). lia. Qed.

Lemma time_left_due deadline (w : W) :
  due deadline w -> exists w', time_left deadline w = Some (false, w') /\ quiet w w'.
Proof.
  intros Hd. unfold time_left. rewrite (proj2 (Z.ltb_ge _ _)) by (unfold due in Hd; lia).
  destruct (now_runs w) as (w' & Hn & Hq). rewrite (bind_run _ _ _ _ _ Hn). exists w'.
  by rewrite (proj2 (Z.ltb_ge _ _)) by (unfold due in Hd; lia).
Qed.

Lemma expired_due deadline (w : W) :
  due deadline w -> exists w', expired deadline w = Some (true, w') /\ quiet w w'.
Proof.
  intros Hd. unfold expired. rewrite (proj2 (Z.leb_le _ _)) by (unfold due in Hd; lia).
  destruct (now_runs w) as (w' & Hn & Hq). rewrite (bind_run _ _ _ _ _ Hn). exists w'.
  by rewrite (proj2 (Z.leb_le _ _)) by (unfold due in Hd; lia).
Qed.

Lemma round_finish_runs fuel i pfds rc maxevents deadline bad (w : W) :
  (i < length (get_sets w))%nat -> due deadline w -> (pipe_left w < fuel)%nat ->
  exists r w', round_finish lt_forced fuel i pfds rc maxevents deadline bad w = Some (Answer r, w').
Proof.
  intros Hi Hdue Hf. unfold round_finish. rewrite bind_reads. set (woken := (0 <? rc) && _).
  assert (Hdr : exists w1, (if woken then drain fuel (handle0 (set_at i w)) else mret tt) w = Some (tt, w1)
                      /\ quiet w w1).
  { destruct woken; [by apply drain_runs|by exists w]. }
  destruct Hdr as (w1 & Hdr & Hq1). rewrite (bind_run _ _ _ _ _ Hdr).
  set (rc' := if woken then rc - 1 else rc).
  assert (Hag : exists w2, (if woken && (rc' =? 0) then time_left deadline else mret false) w1 =
                      Some (false, w2) /\ quiet w1 w2).
  { destruct (woken && (rc' =? 0)); [|by exists w1]. by eapply time_left_due, due_quiet. }
  destruct Hag as (w2 & Hag & Hq2). rewrite (bind_run _ _ _ _ _ Hag). cbv iota.
  assert (Hq : quiet w w2) by (by etrans). apply (due_quiet _ _ _ Hdue) in Hq as Hdue2.
  assert (Hout : exists out w3,
    (if 0 <? rc' then locked i (collect lt_forced (Z.to_nat maxevents) (drop 1 pfds)) else mret []) w2 =
    Some (out, w3) /\ due deadline w3).
  { destruct (0 <? rc'); [|by exists [], w2].
    destruct (locked_runs i (collect lt_forced (Z.to_nat maxevents) (drop 1 pfds)) w2)
      as (w3 & Hl & _ & _ & Ht & _).
    { destruct Hq as (-> & _). done. }
    eexists _, w3. split; [exact Hl|]. unfold due in *. lia. }
  destruct Hout as (out & w3 & Hout & Hdue3). rewrite (bind_run _ _ _ _ _ Hout).
  case_bool_decide; [by eexists _, w3|].
  destruct (expired_due deadline w3 Hdue3) as (w4 & He & _). rewrite (bind_run _ _ _ _ _ He).
  by eexists _, w4.
Qed.

(** What is left of the budget: the entries that can be dropped and the
    fruitless retries. *)
Definition budget (i bad : nat) (w : W) : nat :=
  (length (es_entries (set_at i w)) + (8 - bad))%nat.

Lemma wait_round_zero fuel i maxevents deadline bad (w : W) :
  (i < length (get_sets w))%nat -> due deadline w -> (pipe_left w < fuel)%nat ->
  exists e w',
    wait_round polled_ms console lt_forced fuel i maxevents deadline bad w = Some (e, w') /\
    match e with
    | Answer _ => True
    | Again bad' =>
        (i < length (get_sets w'))%nat /\ due deadline w' /\
        (pipe_left w' <= pipe_left w)%nat /\ (budget i bad' w' < budget i bad w)%nat
    end.
Proof.
  intros Hi Hdue Hf. unfold wait_round. rewrite bind_reads.
  set (pfds := snapshot lt_forced (set_at i w)).
  rewrite (proj2 (Z.ltb_ge _ _)) by (unfold due in Hdue; lia). cbv iota.
  destruct (now_runs w) as (w1 & Hn & Hq1).
  rewrite (bind_run _ _ _ 0 w1).
  2:{ rewrite (bind_run _ _ _ _ _ Hn). by rewrite (proj2 (Z.leb_le _ _)) by (unfold due in Hdue; lia). }
  change (0 <? 0) with false. cbv iota.
  destruct (host_ppoll_zero fuel pfds (Timespec (0 / 1000) (0 mod 1000 * 1000000)) w1 eq_refl eq_refl)
    as ([rc l] & w2 & Hp & Hq2).
  rewrite (bind_run _ _ _ _ _ Hp).
  assert (Hq12 : quiet w w2) by (by etrans).
  assert (Hre : exists rf w3, (if refused rc l then poll_chunked fuel l 0 else mret (rc, l)) w2 =
                         Some (rf, w3) /\ quiet w2 w3).
  { destruct (refused rc l); [|by eexists _, w2].
    apply poll_chunked_zero; [lia|]. pose proof (due_quiet _ _ _ Hdue Hq12) as Hd2.
    unfold due in Hd2. lia. }
  destruct Hre as ([rc' l'] & w3 & Hre & Hq3). rewrite (bind_run _ _ _ _ _ Hre).
  assert (Hq : quiet w w3) by (by etrans). pose proof (due_quiet _ _ _ Hdue Hq) as Hdue3.
  assert (Hi3 : (i < length (get_sets w3))%nat) by (destruct Hq as (-> & _); done).
  assert (Hp3 : (pipe_left w3 <= pipe_left w)%nat) by (by destruct Hq as (_ & _ & ?)).
  assert (Hfin : forall n, exists e w', round_finish lt_forced fuel i l' n maxevents deadline bad w3 = Some (e, w')
                  /\ match e with Answer _ => True | Again _ => False end).
  { intros n. destruct (round_finish_runs fuel i l' n maxevents deadline bad w3) as (r & w' & Hr);
      [done..|lia|]. by exists (Answer r), w'. }
  assert (Hbad : exists e w',
    (dropped ← drop_bad i (drop 1 l');
     mret (if bool_decide (0 < dropped)%nat then Again bad
           else if bool_decide (S bad <= 8)%nat then Again (S bad)
           else Answer (Err EBADF))) w3 = Some (e, w') /\
    match e with
    | Answer _ => True
    | Again bad' =>
        (i < length (get_sets w'))%nat /\ due deadline w' /\
        (pipe_left w' <= pipe_left w)%nat /\ (budget i bad' w' < budget i bad w)%nat
    end).
  { destruct (drop_bad_runs i (drop 1 l') w3 Hi3) as (d & w4 & Hd & Hm).
    rewrite (bind_run _ _ _ _ _ Hd). eexists _, w4. split; [done|].
    destruct Hm as (? & ? & ? & Hlen). unfold budget, due in *.
    assert (Hset : set_at i w3 = set_at i w) by (unfold set_at; by destruct Hq as (-> & _)).
    rewrite Hset in Hlen. case_bool_decide; [split_and!; lia|].
    case_bool_decide; [split_and!; lia|done]. }
  destruct rc' as [n|err].
  { destruct (Hfin n) as (e & w' & Hr & He). exists e, w'. split; [done|]. by destruct e. }
  destruct err; try (by eexists _, w3).
  - destruct (time_left_due deadline w3 Hdue3) as (w4 & Ht & Hq4).
    rewrite (bind_run _ _ _ _ _ Ht). cbv iota.
    destruct (round_finish_runs fuel i l' 0 maxevents deadline bad w4) as (r & w' & Hr).
    { by destruct Hq4 as (-> & _). }
    { by eapply due_quiet. }
    { destruct Hq4 as (_ & _ & ?). lia. }
    by exists (Answer r), w'.
  - exact Hbad.
  - exact Hbad.
Qed.

Lemma wait_loop_ends fuel i maxevents deadline pcap bad (w : W) :
  (i < length (get_sets w))%nat -> due deadline w ->
  (pipe_left w + budget i bad w + 1 < fuel)%nat ->
  is_Some (wait_loop polled_ms console lt_forced fuel i maxevents deadline pcap bad w).
Proof.
  revert pcap bad w. induction fuel as [|fuel IH]; intros pcap bad w Hi Hdue Hf; [lia|].
  cbn [wait_loop]. rewrite !bind_reads. case_match; [by eexists|].
  destruct (wait_round_zero fuel i maxevents deadline bad w Hi Hdue) as (e & w1 & Hr & He); [lia|].
  rewrite (bind_run _ _ _ _ _ Hr). destruct e as [bad'|r]; [|by eexists].
  destruct He as (? & ? & ? & ?). apply IH; try done. lia.
Qed.

(** a wait with a zero timeout comes back, whatever the host answers:
    interruptions end it, and each round lost to a bad descriptor either
    drops an entry or uses up one of eight retries. *)
Theorem emu_wait_zero_ends fuel epfd maxevents (w : W) :
  0 <= clock_ms w ->
  (forall i, set_by_handle_locked epfd (get_sets w) = Some i ->
     pipe_left w + length (es_entries (set_at i w)) + 9 < fuel)%nat ->
  is_Some (emu_wait polled_ms console lt_forced fuel epfd maxevents 0 w).
Proof.
  intros Hw Hf. unfold emu_wait. rewrite bind_reads.
  destruct (set_by_handle_locked epfd (get_sets w)) as [i|] eqn:Hi; [|by eexists].
  specialize (Hf i eq_refl). apply find_index_Some in Hi as (s & Hs & _).
  destruct (maxevents <=? 0); [by eexists|].
  change (0 <? 0) with false. cbv iota. destruct (now_runs w) as (w1 & Hn & Hq).
  rewrite (bind_run _ _ _ (clock_ms w + 0) w1).
  2:{ by rewrite (bind_run _ _ _ _ _ Hn). }
  destruct Hq as (Hq1 & Hq2 & Hq3). apply wait_loop_ends.
  - rewrite Hq1. by eapply lookup_lt_Some.
  - unfold due. lia.
  - unfold budget, set_at in *. rewrite Hq1. lia.
Qed.
End ends.

(** ** Every reachable table

    The critical sections on [g_sets], as the threads of a process run them
    in any order: creations, controls, duplications, re-arms, and the two of
    a waiting thread, which drops a dead descriptor and disarms what it hands
    out. A waiting thread works on the slot it found; by then the slot may
    belong to another set, or to none. *)
Inductive table_op :=
  | OpCreate (p0 p1 : Z) (getfl : Z -> option Z) (alive : Z -> bool) (flags : Z)
  | OpCtl (mem : bool) (epfd op fd : Z) (ev : option epoll_event)
  | OpDup (oldfd newfd : Z)
  | OpRearm (fd bits : Z)
  | OpDropBad (i : nat) (fd : Z)
  | OpHandOut (i room : nat) (slots : list pollfd).

Section table.
Context `{HostConsts} (lt_forced : bool).

Definition slot_at (sets : list epoll_set) (i : nat) : epoll_set := default zero_set (sets !! i).

Definition table_step (sets : list epoll_set) (op : table_op) : list epoll_set :=
  match op with
  | OpCreate p0 p1 getfl alive flags =>
      snd (fst (emu_create1 (Ok (p0, p1)) getfl alive flags sets))
  | OpCtl mem epfd op fd ev => snd (fst (emu_ctl mem epfd op fd ev sets))
  | OpDup oldfd newfd => note_dup false oldfd newfd sets
  | OpRearm fd bits => fst (rearm fd bits sets)
  | OpDropBad i fd => <[i := snd (drop_entry fd (slot_at sets i))]> sets
  | OpHandOut i room slots =>
      <[i := snd (collect lt_forced room slots (slot_at sets i))]> sets
  end.

(** The table after a run of critical sections. *)
Definition table_after : list epoll_set -> list table_op -> list epoll_set := foldl table_step.

(** On a blank slot a waiting thread finds no entry to touch. *)
Lemma drop_blank fd : snd (drop_entry fd zero_set) = zero_set.
Proof. done. Qed.

Lemma collect_blank room slots : snd (collect lt_forced room slots zero_set) = zero_set.
Proof.
  revert room. induction slots as [|p slots IH]; intros [|room]; [done..|].
  cbn [collect]. destruct (_ =? 0); apply IH.
Qed.

(** What a waiting thread may do to a slot without looking at [used]. *)
Lemma slot_update_ok (f : epoll_set -> epoll_set) sets i :
  f zero_set = zero_set ->
  (forall s, es_used s = true -> set_ok s ->
     set_ok (f s) /\ es_used (f s) = true /\ es_handles (f s) = es_handles s) ->
  sets_ok sets -> sets_ok (<[i := f (slot_at sets i)]> sets).
Proof.
  intros Hz Hf Hok. unfold slot_at. destruct (sets !! i) as [s|] eqn:Hi; simpl.
  2:{ rewrite list_insert_ge; [done|]. by apply lookup_ge_None. }
  assert (Hs : set_ok s) by (destruct Hok as (_ & Hall & _); by eapply Forall_lookup_1).
  destruct (es_used s) eqn:Hu.
  - destruct (Hf s Hu Hs) as (? & _ & ?). by eapply sets_ok_replace.
  - unfold set_ok in Hs. rewrite Hu in Hs. subst s. rewrite Hz.
    by rewrite list_insert_id.
Qed.

Lemma drop_entry_handles fd s : es_handles (snd (drop_entry fd s)) = es_handles s.
Proof. unfold drop_entry. by case_match. Qed.

Lemma table_step_ok sets op : sets_ok sets -> sets_ok (table_step sets op).
Proof.
  intros Hok. destruct op as [p0 p1 getfl alive flags| | | |i fd|i room slots]; cbn [table_step].
  - destruct (emu_create1 (Ok (p0, p1)) getfl alive flags sets) as [[rc sets'] calls] eqn:E.
    apply emu_create1_ok in E as [? _]; done.
  - by apply emu_ctl_ok.
  - by apply note_dup_ok.
  - by apply rearm_ok.
  - apply (slot_update_ok (fun s => snd (drop_entry fd s))); [done| |done].
    intros s Hu Hs. destruct (drop_entry_ok fd s Hu Hs). by rewrite drop_entry_handles.
  - apply (slot_update_ok (fun s => snd (collect lt_forced room slots s))); [apply collect_blank| |done].
    intros s Hu Hs. by destruct (collect_ok lt_forced room slots s Hu Hs) as (? & ? & ? & _).
Qed.

Lemma table_after_ok sets ops : sets_ok sets -> sets_ok (table_after sets ops).
Proof.
  unfold table_after. revert sets. induction ops as [|op ops IH]; intros sets Hok; [done|].
  by apply IH, table_step_ok.
Qed.

(** One table is reached from another. *)
Definition reaches (sets sets' : list epoll_set) : Prop :=
  exists ops, sets' = table_after sets ops.

#[export] Instance reaches_preorder : PreOrder reaches.
Proof.
  split; [by exists []|]. intros a b c [ops ->] [ops' ->]. exists (ops ++ ops').
  unfold table_after. by rewrite foldl_app.
Qed.
End table.

(** *** The wait itself takes these steps and no other *)

(** The host's calls may block, and whatever the other threads do to the
    table meanwhile are critical sections of theirs. *)
Class SharedTable (W : Type) (lt_forced : bool) (console : list pollfd -> W -> W)
    `{HostConsts} `{HostPoll W} `{EpollTable W} : Prop := {
  st_put sets (w : W) : get_sets (put_sets sets w) = sets;
  st_now (w : W) : reaches lt_forced (get_sets w) (get_sets (snd (h_now w)));
  st_nap ts (w : W) : reaches lt_forced (get_sets w) (get_sets (snd (h_nanosleep ts w)));
  st_ppoll fds ts (w : W) : reaches lt_forced (get_sets w) (get_sets (snd (h_ppoll fds ts w)));
  st_poll fds ms (w : W) : reaches lt_forced (get_sets w) (get_sets (snd (h_poll fds ms w)));
  st_read fd (w : W) : reaches lt_forced (get_sets w) (get_sets (snd (h_read64 fd w)));
  st_console fds (w : W) : reaches lt_forced (get_sets w) (get_sets (console fds w)) }.

Section wait_steps.
Context `{HostConsts} {W : Type} `{HP : HostPoll W} `{!PacketWatch W} `{ET : EpollTable W}.
Context (polled_ms : Z) (lt_forced : bool) (console : list pollfd -> W -> W).
Context `{ST : !SharedTable W lt_forced console}.

(** A run of [m] moves the table by critical sections only. *)
Definition moves {A} (m : M W A) : Prop :=
  forall w a w', m w = Some (a, w') -> reaches lt_forced (get_sets w) (get_sets w').

Lemma moves_ret {A} (a : A) : moves (mret a).
Proof. intros w ? ? [= _ <-]. reflexivity. Qed.

Lemma moves_bind {A B} (m : M W A) (f : A -> M W B) :
  moves m -> (forall a, moves (f a)) -> moves (m ≫= f).
Proof.
  intros Hm Hf w b w' (a & w1 & H1 & H2)%bind_Some. etrans; [by eapply Hm|by eapply Hf].
Qed.

Lemma moves_reads {A} (f : W -> A) : moves (reads f).
Proof. intros w ? ? [= _ <-]. reflexivity. Qed.

Lemma moves_out_of_fuel {A} : moves (out_of_fuel : M W A).
Proof. by intros w a w'. Qed.

Lemma moves_step {A} (f : W -> A * W) :
  (forall w, reaches lt_forced (get_sets w) (get_sets (snd (f w)))) -> moves (step f).
Proof. intros Hf w a w' [= Hr]. specialize (Hf w). by rewrite Hr in Hf. Qed.

Lemma moves_console fds : moves (modifies (console fds)).
Proof. intros w a w' [= _ <-]. apply st_console. Qed.

Lemma moves_drop i fd : moves (locked i (drop_entry fd)).
Proof.
  apply moves_step. intros w. exists [OpDropBad i fd]. simpl. unfold set_at, slot_at.
  destruct (drop_entry fd _). simpl. apply st_put.
Qed.

Lemma moves_collect i room slots : moves (locked i (collect lt_forced room slots)).
Proof.
  apply moves_step. intros w. exists [OpHandOut i room slots]. simpl. unfold set_at, slot_at.
  destruct (collect lt_forced room slots _). simpl. apply st_put.
Qed.

Hint Resolve moves_ret moves_reads moves_out_of_fuel moves_console moves_drop moves_collect : moves.

(** Follows the structure of a block. *)
Ltac moves :=
  repeat match goal with
  | |- moves (_ ≫= _) => apply moves_bind; [|intros ?]
  | |- moves (if ?b then _ else _) => destruct b
  | |- moves (match ?x with _ => _ end) => destruct x
  | |- moves (let _ := _ in _) => cbv zeta
  | _ => solve [auto with moves]
  end.

Lemma moves_now : moves now_ms.
Proof. apply moves_step, st_now. Qed.
Lemma moves_nap us : moves (polled_nap us).
Proof. apply moves_step, st_nap. Qed.
Lemma moves_ppoll fds ts : moves (ppoll fds ts).
Proof. apply moves_step, st_ppoll. Qed.
Lemma moves_poll fds ms : moves (poll fds ms).
Proof. apply moves_step, st_poll. Qed.
Hint Resolve moves_now moves_nap moves_ppoll moves_poll : moves.

Lemma moves_polled_phase fuel fds start deadline budget :
  moves (polled_phase fuel fds start deadline budget).
Proof. revert fds. induction fuel as [|fuel IH]; intros fds; cbn [polled_phase]; moves. Qed.
Hint Resolve moves_polled_phase : moves.

Lemma moves_host_ppoll fuel fds ts : moves (shim_host_ppoll polled_ms console fuel fds ts).
Proof. unfold shim_host_ppoll, host_ppoll_inner. moves. Qed.

Lemma moves_poll_scan fuel fds got : moves (poll_scan fuel fds got).
Proof. revert fds got. induction fuel as [|fuel IH]; intros fds got; cbn [poll_scan]; moves. Qed.
Hint Resolve moves_host_ppoll moves_poll_scan : moves.

Lemma moves_chunked_loop fuel fds deadline : moves (poll_chunked_loop fuel fds deadline).
Proof. revert fds. induction fuel as [|fuel IH]; intros fds; cbn [poll_chunked_loop]; moves. Qed.

Lemma moves_drop_bad i slots : moves (drop_bad i slots).
Proof. induction slots as [|p slots IH]; cbn [drop_bad]; moves. Qed.

Lemma moves_drain fuel fd : moves (drain fuel fd).
Proof.
  induction fuel as [|fuel IH]; cbn [drain]; [moves|].
  apply moves_bind; [apply moves_step; intros w; apply st_read|intros r]. moves.
Qed.
Hint Resolve moves_chunked_loop moves_drop_bad moves_drain : moves.

Lemma moves_round fuel i maxevents deadline bad :
  moves (wait_round polled_ms console lt_forced fuel i maxevents deadline bad).
Proof. unfold wait_round, round_finish, poll_chunked, time_left, expired. moves. Qed.
Hint Resolve moves_round : moves.

Lemma moves_wait fuel epfd maxevents timeout :
  moves (emu_wait polled_ms console lt_forced fuel epfd maxevents timeout).
Proof.
  unfold emu_wait. moves. all: generalize 0%nat at 1; generalize 0%nat.
  all: induction fuel as [|fuel IH]; intros bad pcap; cbn [wait_loop]; moves.
Qed.

(** C6: every table the process can reach is sound. From the empty table, in
    any order of creations, controls, duplications, re-arms and a waiting
    thread's own updates (a dead descriptor dropped, reported entries
    disarmed, on a slot that may have been reused meanwhile): a used set has
    between one and eight handles, at most one entry per descriptor and no
    more entries than it allocated, an unused one is blank, and no descriptor
    names two sets, so a stale number can never reach another set's list.
    And the wait does nothing else: if what happens during the host's calls
    are such steps of other threads, a whole [epoll_wait] is too. *)
Theorem table_always_ok fuel epfd maxevents timeout (w : W) ops r w' :
  get_sets w = table_after lt_forced g_sets_init ops ->
  emu_wait polled_ms console lt_forced fuel epfd maxevents timeout w = Some (r, w') ->
  sets_ok (get_sets w) /\
  exists ops', get_sets w' = table_after lt_forced g_sets_init (ops ++ ops') /\
               sets_ok (get_sets w').
Proof.
  intros Hw Hrun. rewrite Hw. split; [apply table_after_ok, g_sets_init_ok|].
  destruct (moves_wait _ _ _ _ _ _ _ Hrun) as [ops' Hops']. exists ops'.
  unfold table_after. rewrite foldl_app, Hops', Hw. split; [done|].
  apply table_after_ok, table_after_ok, g_sets_init_ok.
Qed.
End wait_steps.

(** ** The theorems on a concrete machine *)

(** The interest lists of EpollSets.v's example, with a clock in
    milliseconds; every poll answers that descriptor 9 is readable. *)
Definition wait_world : Type := (list epoll_set * Z)%type.

Definition toy_answer (fds : list pollfd) : res Z * list pollfd :=
  let fds' := map (fun p => PollFd (pf_fd p) (pf_events p) (if pf_fd p =? 9 then 1 else 0)) fds in
  (Ok (count_ready fds'), fds').

Definition wait_host : HostPoll wait_world := {|
  is_windows := true;
  h_now w := (snd w, w);
  h_nanosleep ts w := (true, (fst w, snd w + 1));
  h_ppoll fds ts w := (toy_answer fds, (fst w, snd w + 1));
  h_poll fds ms w := (toy_answer fds, (fst w, snd w + 1)) |}.

Definition wait_table : EpollTable wait_world := {|
  get_sets w := fst w;
  put_sets sets w := (sets, snd w);
  h_realloc _ := true;
  h_read64 _ w := (0, w) |}.

Definition wait_packet : PacketWatch wait_world := {|
  packet_any _ := false; packet_secondary _ _ := -1 |}.

Definition wait_quiet : @QuietHost wait_world wait_host wait_table.
Proof.
  unshelve refine (@Build_QuietHost wait_world wait_host wait_table snd (fun _ => 0%nat)
    _ _ _ _ _ _ _ _); simpl; intros; repeat split; simpl; try done; try lia.
Defined.

Lemma emu_wait_zero_ends_witness :
  is_Some (@emu_wait linux_consts wait_world wait_host wait_packet wait_table
    250 (fun _ w => w) false 20 4 8 0 (demo_sets, 100)).
Proof.
  apply (@emu_wait_zero_ends linux_consts wait_world wait_host wait_packet wait_table wait_quiet).
  - simpl. lia.
  - intros i Hi. vm_compute in Hi. injection Hi as <-. vm_compute. lia.
Defined.

Lemma emu_wait_answers_witness :
  exists out w',
    @emu_wait linux_consts wait_world wait_host wait_packet wait_table
      250 (fun _ w => w) false 20 4 8 (-1)
      ([ESet true [4] 5 [Entry 9 SHIM_EPOLLIN 77 3] 8], 100) = Some (Ok out, w') /\
    Z.of_nat (length out) <= 8 /\ (-1 < 0 -> out <> []).
Proof.
  eexists _, _. split; [vm_compute; reflexivity|].
  match goal with |- Z.of_nat (length ?o) <= _ /\ _ =>
    exact (@emu_wait_answers linux_consts wait_world wait_host wait_packet wait_table
      250 (fun _ w => w) false 20 4 8 (-1)
      ([ESet true [4] 5 [Entry 9 SHIM_EPOLLIN 77 3] 8], 100) (Ok o) _ ltac:(vm_compute; reflexivity))
  end.
Defined.

Lemma collect_delivers_witness :
  exists s', registrations s' !! 9 =
    @after_report false (list_to_map [(9, Event SHIM_EPOLLIN 77)]) 9 <$> registrations demo_set !! 9.
Proof.
  edestruct (@collect_delivers linux_consts false 8 [PollFd 9 1 1] demo_set)
    as (_ & Hm & _); [reflexivity|apply demo_set_ok|apply NoDup_singleton|vm_compute; reflexivity|].
  eexists. exact (Hm 9).
Defined.

(** The refused second ADD is not an arming, and brings nothing back. *)
Lemma oneshot_at_most_once_witness :
  (yields 42 (snd (@wait_run linux_consts (Waiter demo_set [])
     [WCtl true SHIM_EPOLL_CTL_ADD 10 (Event (Z.lor SHIM_EPOLLIN SHIM_EPOLLONESHOT) 42);
      WSnapshot; WCollect [1%Z] 8;
      WCtl true SHIM_EPOLL_CTL_ADD 10 (Event (Z.lor SHIM_EPOLLIN SHIM_EPOLLONESHOT) 42);
      WRearm 10 SHIM_ARM_IN; WSnapshot; WCollect [1%Z] 8])) <= 1)%nat.
Proof.
  apply (@oneshot_at_most_once linux_consts 42 (Waiter demo_set [])
    [WCtl true SHIM_EPOLL_CTL_ADD 10 (Event (Z.lor SHIM_EPOLLIN SHIM_EPOLLONESHOT) 42);
      WSnapshot; WCollect [1%Z] 8;
      WCtl true SHIM_EPOLL_CTL_ADD 10 (Event (Z.lor SHIM_EPOLLIN SHIM_EPOLLONESHOT) 42);
      WRearm 10 SHIM_ARM_IN; WSnapshot; WCollect [1%Z] 8]).
  - split_and!; [reflexivity|apply demo_set_ok| |constructor].
    repeat constructor. simpl. discriminate.
  - repeat constructor.
  - repeat constructor. simpl. discriminate.
Defined.

Lemma rearm_polls_again_witness :
  exists s' p, p ∈ drop 1 (@snapshot linux_consts false s') /\ pf_fd p = 9.
Proof.
  edestruct (@rearm_polls_again linux_consts 9 demo_set)
    as [(p & Hp & Hfd & _) _]; [vm_compute; discriminate|reflexivity|apply demo_set_ok|
    vm_compute; reflexivity|reflexivity|reflexivity|reflexivity|vm_compute; reflexivity|].
  eexists _, p. split; [exact Hp|exact Hfd].
Defined.

Definition wait_shared :
  @SharedTable wait_world false (fun _ w => w) linux_consts wait_host wait_table.
Proof. split; simpl; intros; (reflexivity || by exists []). Defined.

(** The epoll 4 of an empty table, with descriptor 9 registered. *)
Lemma table_always_ok_witness :
  let ops := [OpCreate 4 5 (fun _ => None) (fun _ => false) 0;
              OpCtl true 4 SHIM_EPOLL_CTL_ADD 9 (Some (Event SHIM_EPOLLIN 77))] in
  exists w', get_sets (EpollTable := wait_table) w' <> [] /\
  sets_ok (get_sets (EpollTable := wait_table) w').
Proof.
  intros ops.
  assert (Hrun : is_Some (@emu_wait linux_consts wait_world wait_host wait_packet wait_table
      250 (fun _ w => w) false 20 4 8 (-1) (@table_after linux_consts false g_sets_init ops, 100)))
    by (vm_compute; by eexists).
  destruct Hrun as [[r w'] Hrun].
  destruct (@table_always_ok linux_consts wait_world wait_host wait_packet wait_table 250 false
    (fun _ w => w) wait_shared 20 4 8 (-1) (@table_after linux_consts false g_sets_init ops, 100)
    ops r w' eq_refl Hrun) as [_ (ops' & _ & Hok)].
  exists w'. split; [|exact Hok]. destruct Hok as (Hlen & _). by destruct (get_sets w').
Defined.
