(* ===== verification/EpollPairs.v ===== *)
(** * shim/epoll.c's pipe-pair table, and shim/io.c

    The table of (read end, write end) pairs by which a write to one end
    re-arms the other, its operations, and the write and writev shims that
    consult it. The theorems: the table's invariant, that the lock-free
    emptiness test is exact, that a pair is found until it is reused or 32
    newer ones displace it, and what a write does to the interest lists. *)
From S2P Require Import Prelude Host EpollSets.

Definition SHIM_PIPE_PAIRS : nat := 32.

(** One slot of [g_pairs]: [w = 0] marks it empty. *)
Record pair := Pair { pr_r : Z; pr_w : Z }.

(** [g_pairs], [g_pairs_next] and [g_pairs_live]. *)
Record pairs := Pairs { g_pairs : list pair; g_pairs_next : Z; g_pairs_live : Z }.

#[export] Instance pair_eq_dec : EqDecision pair.
Proof. solve_decision. Defined.

Definition pairs_init : pairs := Pairs (replicate SHIM_PIPE_PAIRS (Pair 0 0)) 0 0.

Definition pair_live (p : pair) : bool := negb (pr_w p =? 0).

Definition pair_names (fd : Z) (p : pair) : bool :=
  pair_live p && ((pr_r p =? fd) || (pr_w p =? fd)).

Fixpoint drop_slots (fd : Z) (ps : list pair) (live : Z) : list pair * Z :=
  match ps with
  | [] => ([], live)
  | p :: ps' =>
      if pair_names fd p then
        let '(ps'', live') := drop_slots fd ps' (live - 1) in (Pair 0 0 :: ps'', live')
      else
        let '(ps'', live') := drop_slots fd ps' live in (p :: ps'', live')
  end.

Definition pairs_drop_locked (fd : Z) (t : pairs) : pairs :=
  let '(ps, live) := drop_slots fd (g_pairs t) (g_pairs_live t) in
  Pairs ps (g_pairs_next t) live.

Definition pairs_insert_locked (rfd wfd : Z) (t : pairs) : pairs :=
  if (rfd <? 0) || (wfd <=? 0) then t
  else
    let i := Z.to_nat (Z.rem (g_pairs_next t) (Z.of_nat SHIM_PIPE_PAIRS)) in
    let displaced := default (Pair 0 0) (g_pairs t !! i) in
    Pairs (<[i := Pair rfd wfd]> (g_pairs t)) (g_pairs_next t + 1)
      ((if pair_live displaced then g_pairs_live t - 1 else g_pairs_live t) + 1).

Section ops.
(** [use_syscalls()]: fixed once per process. *)
Context (use_syscalls : bool).

Definition note_new_fd (fd : Z) (t : pairs) : pairs :=
  if (fd <? 0) || (g_pairs_live t =? 0) || use_syscalls then t
  else pairs_drop_locked fd t.

Definition note_pipe (rfd wfd : Z) (t : pairs) : pairs :=
  if (rfd <? 0) || (wfd <? 0) || use_syscalls then t
  else pairs_insert_locked rfd wfd (pairs_drop_locked wfd (pairs_drop_locked rfd t)).

Definition note_pair (a b : Z) (t : pairs) : pairs :=
  if (a <? 0) || (b <? 0) || use_syscalls then t
  else pairs_insert_locked b a (pairs_insert_locked a b
         (pairs_drop_locked b (pairs_drop_locked a t))).

(** The scan of [hint_pipe_write]: the read end of the first slot whose
    write end is [wfd]. *)
Definition find_reader (wfd : Z) (t : pairs) : option Z :=
  pr_r <$> List.find (fun p => pr_w p =? wfd) (g_pairs t).

(** The interest lists after the hint, and the wakers written. *)
Definition hint_pipe_write (wfd : Z) (t : pairs) (sets : list epoll_set)
    : list epoll_set * list Z :=
  if (wfd <=? 0) || (g_pairs_live t =? 0) || use_syscalls then (sets, [])
  else
    match find_reader wfd t with
    | Some rfd => if 0 <=? rfd then rearm rfd SHIM_ARM_IN sets else (sets, [])
    | None => (sets, [])
    end.

(** ** shim/io.c *)

(** What one write leaves for the emulation: the lists and the wakers
    written. [r] is what the host answered, [Err EAGAIN] the gate's answer
    as well. *)
Definition write_result (fd : Z) (r : res Z) (want : Z) (t : pairs) (sets : list epoll_set)
    : res Z * (list epoll_set * list Z) :=
  (r,
   match r with
   | Ok n =>
       if 0 <? n then
         let '(sets1, k1) := hint_pipe_write fd t sets in
         if n <? want then
           let '(sets2, k2) := rearm_out use_syscalls fd sets1 in (sets2, k1 ++ k2)
         else (sets1, k1)
       else (sets, [])
   | Err EAGAIN => rearm_out use_syscalls fd sets
   | Err _ => (sets, [])
   end).
End ops.

(** What io.c asks of socket.c and console.c and of the host; [epoll_world]
    is where the tables live. *)
Class IoWorld (W : Type) := {
  nt_sockopt_replay : Z -> W -> W;
  nt_wants_eagain : Z -> W -> bool * W;
  nt_gated : Z -> W -> bool;
  nt_clamp : Z -> Z -> W -> Z;
  h_write : Z -> list Z -> W -> res Z * W;
  h_writev : Z -> list (list Z) -> W -> res Z * W;
  console_wrote : Z -> list Z -> Z -> W -> W;
  console_wrotev : Z -> list (list Z) -> W -> W;
  io_pairs : W -> pairs;
  io_sets : W -> list epoll_set;
  io_put : list epoll_set -> list Z -> W -> W }.

Section io.
Context {W : Type} `{IoWorld W} (use_syscalls : bool).

Definition io_result (fd : Z) (r : res Z) (want : Z) : M W (res Z) :=
  step (fun w => let '(r', (sets, kicks)) := write_result use_syscalls fd r want (io_pairs w) (io_sets w)
                 in (r', io_put sets kicks w)).

Definition wrote_something (r : res Z) : bool :=
  match r with Ok n => 0 <? n | Err _ => false end.

Definition got (r : res Z) : Z := match r with Ok n => n | Err _ => -1 end.

(** The clamped write of one buffer, echoed to the console watcher. *)
Definition write_slice (fd : Z) (buf : list Z) : M W (res Z) :=
  k ← reads (nt_clamp fd (Z.of_nat (length buf)));
  r ← step (h_write fd (take (Z.to_nat k) buf));
  _ ← (if wrote_something r then modifies (console_wrote fd buf (got r)) else mret tt);
  mret r.

Definition shim_write (fd : Z) (buf : list Z) : M W (res Z) :=
  let n := Z.of_nat (length buf) in
  _ ← modifies (nt_sockopt_replay fd);
  refuse ← step (nt_wants_eagain fd);
  if refuse : bool then io_result fd (Err EAGAIN) n
  else r ← write_slice fd buf; io_result fd r n.

Definition iov_total (iov : list (list Z)) : Z :=
  Z.of_nat (list_sum (map length iov)).

Definition shim_writev (fd : Z) (iov : list (list Z)) : M W (res Z) :=
  _ ← modifies (nt_sockopt_replay fd);
  refuse ← step (nt_wants_eagain fd);
  if refuse : bool then io_result fd (Err EAGAIN) 1
  else
    gated ← reads (nt_gated fd);
    match (if negb (bool_decide (iov = [])) && gated
           then List.find (fun b => negb (bool_decide (b = []))) iov else None) with
    | Some buf => r ← write_slice fd buf; io_result fd r (iov_total iov)
    | None =>
        r ← step (h_writev fd iov);
        _ ← (if wrote_something r then modifies (console_wrotev fd iov) else mret tt);
        io_result fd r (iov_total iov)
    end.
End io.

(** ** The table's invariant *)

Definition count_live (ps : list pair) : Z :=
  Z.of_nat (length (filter (fun p => pair_live p = true) ps)).

(** A blank slot is all zero; a live one has both ends in range. *)
Definition slot_ok (p : pair) : Prop := p = Pair 0 0 \/ (0 <= pr_r p /\ 0 < pr_w p).

Definition pairs_ok (t : pairs) : Prop :=
  length (g_pairs t) = SHIM_PIPE_PAIRS /\ 0 <= g_pairs_next t /\
  g_pairs_live t = count_live (g_pairs t) /\ Forall slot_ok (g_pairs t).

Lemma count_live_cons p ps :
  count_live (p :: ps) = (if pair_live p then 1 else 0) + count_live ps.
Proof. unfold count_live. rewrite filter_cons. destruct (pair_live p); simpl; lia. Qed.

Lemma count_live_insert ps i p q :
  ps !! i = Some p ->
  count_live (<[i := q]> ps) =
  count_live ps - (if pair_live p then 1 else 0) + (if pair_live q then 1 else 0).
Proof.
  revert i. induction ps as [|x ps IH]; intros [|i] Hi; simplify_eq/=;
    rewrite !count_live_cons; [lia|]. rewrite (IH i) by done. lia.
Qed.

(** Dropping blanks the slots that name [fd] and counts them off. *)
Lemma drop_slots_spec fd ps live :
  drop_slots fd ps live =
  (map (fun p => if pair_names fd p then Pair 0 0 else p) ps,
   live - Z.of_nat (length (filter (fun p => pair_names fd p = true) ps))).
Proof.
  revert live. induction ps as [|p ps IH]; intros live; simpl; [f_equal; lia|].
  rewrite filter_cons. destruct (pair_names fd p); simpl; rewrite IH; f_equal; lia.
Qed.

Definition blank_names (fd : Z) (ps : list pair) : list pair :=
  map (fun p => if pair_names fd p then Pair 0 0 else p) ps.

Lemma drop_locked_spec fd t :
  pairs_ok t ->
  pairs_drop_locked fd t =
  Pairs (blank_names fd (g_pairs t)) (g_pairs_next t) (count_live (blank_names fd (g_pairs t))).
Proof.
  intros (_ & _ & Hlive & _). unfold pairs_drop_locked. rewrite drop_slots_spec, Hlive.
  f_equal. unfold blank_names. clear Hlive. induction (g_pairs t) as [|p ps IH]; [done|]. simpl.
  rewrite !count_live_cons, filter_cons, <- IH.
  destruct (pair_names fd p) eqn:Hn; simpl; [|lia].
  unfold pair_names in Hn. apply andb_true_iff in Hn as [-> _]. lia.
Qed.

Lemma pairs_drop_ok fd t : pairs_ok t -> pairs_ok (pairs_drop_locked fd t).
Proof.
  intros Hok. rewrite drop_locked_spec by done. destruct Hok as (Hlen & Hn & _ & Hall).
  unfold pairs_ok, blank_names. simpl. rewrite length_map. split_and!; try done.
  apply Forall_fmap. eapply Forall_impl; [exact Hall|]. intros p Hp. simpl.
  destruct (pair_names fd p); [by left|done].
Qed.

Definition next_slot (t : pairs) : nat :=
  Z.to_nat (g_pairs_next t mod Z.of_nat SHIM_PIPE_PAIRS).

Lemma insert_locked_spec rfd wfd t :
  pairs_ok t -> 0 <= rfd -> 0 < wfd ->
  pairs_insert_locked rfd wfd t =
  Pairs (<[next_slot t := Pair rfd wfd]> (g_pairs t)) (g_pairs_next t + 1)
    (count_live (<[next_slot t := Pair rfd wfd]> (g_pairs t))) /\
  (next_slot t < SHIM_PIPE_PAIRS)%nat.
Proof.
  intros (Hlen & Hn & Hlive & _) Hr Hw. unfold pairs_insert_locked.
  rewrite (proj2 (Z.ltb_ge _ _)), (proj2 (Z.leb_gt _ _)) by lia. simpl.
  rewrite Z.rem_mod_nonneg by done. fold (next_slot t).
  assert (Hlt : (next_slot t < SHIM_PIPE_PAIRS)%nat).
  { unfold next_slot. change (Z.of_nat SHIM_PIPE_PAIRS) with 32. unfold SHIM_PIPE_PAIRS.
    pose proof (Z.mod_pos_bound (g_pairs_next t) 32 ltac:(lia)) as Hm.
    revert Hm. generalize (g_pairs_next t mod 32). intros. lia. }
  split; [|done]. rewrite Hlive.
  destruct (lookup_lt_is_Some_2 (g_pairs t) (next_slot t)) as [p Hp]; [lia|].
  rewrite (count_live_insert _ _ p) by done. rewrite Hp. simpl. f_equal.
  assert (Hq : pair_live (Pair rfd wfd) = true).
  { unfold pair_live. simpl. by rewrite (proj2 (Z.eqb_neq _ _)) by lia. }
  rewrite Hq. destruct (pair_live p); lia.
Qed.

Lemma pairs_insert_ok rfd wfd t : pairs_ok t -> pairs_ok (pairs_insert_locked rfd wfd t).
Proof.
  intros Hok. destruct (Z.ltb_spec rfd 0) as [Hr|Hr];
    [unfold pairs_insert_locked; by rewrite (proj2 (Z.ltb_lt _ _))|].
  destruct (Z.leb_spec wfd 0) as [Hw|Hw];
    [unfold pairs_insert_locked; by rewrite (proj2 (Z.leb_le _ _)), orb_true_r|].
  destruct (insert_locked_spec rfd wfd t Hok Hr Hw) as [-> _].
  destruct Hok as (Hlen & Hn & _ & Hall). unfold pairs_ok. simpl. rewrite length_insert.
  split_and!; try done; [lia|]. apply Forall_insert; [done|]. right. simpl. lia.
Qed.

(** ** The table over a run *)

Inductive pair_op := NewFd (fd : Z) | NewPipe (r w : Z) | NewSocketPair (a b : Z).

Definition pair_step (t : pairs) (op : pair_op) : pairs :=
  match op with
  | NewFd fd => note_new_fd false fd t
  | NewPipe r w => note_pipe false r w t
  | NewSocketPair a b => note_pair false a b t
  end.

Definition pair_run (t : pairs) (ops : list pair_op) : pairs := foldl pair_step t ops.

#[local] Hint Resolve pairs_drop_ok pairs_insert_ok : core.

Lemma pair_step_ok t op : pairs_ok t -> pairs_ok (pair_step t op).
Proof.
  intros Hok. destruct op; simpl; unfold note_new_fd, note_pipe, note_pair;
    case_match; auto.
Qed.

Lemma pair_run_ok t ops : pairs_ok t -> pairs_ok (pair_run t ops).
Proof.
  revert t. induction ops as [|op ops IH]; intros t Hok; [done|].
  apply IH. by apply pair_step_ok.
Qed.

Lemma pairs_init_ok : pairs_ok pairs_init.
Proof. split_and!; try done. apply Forall_replicate. by left. Qed.

(** the lock-free emptiness test is exact: after any sequence of new
    descriptors, pipes and socket pairs [g_pairs_live] counts the live slots,
    so the hint is skipped only when no pair is on record. *)
Theorem live_count_exact ops :
  let t := pair_run pairs_init ops in
  pairs_ok t /\
  (g_pairs_live t = 0 <-> forall fd r, find_reader fd t = Some r -> fd = 0).
Proof.
  simpl. set (t := pair_run _ _).
  assert (Hok : pairs_ok t) by apply pair_run_ok, pairs_init_ok.
  split; [done|]. destruct Hok as (_ & _ & -> & Hall). unfold find_reader, count_live.
  split.
  - intros Hz fd r Hf. destruct (List.find _ _) as [p|] eqn:Hp; [|done].
    apply find_some in Hp as [Hin Hw%Z.eqb_eq]. apply list_elem_of_In in Hin.
    destruct (Z.eq_dec fd 0) as [|Hne]; [done|]. exfalso.
    assert (Hl : p ∈ filter (fun p => pair_live p = true) (g_pairs t)).
    { apply list_elem_of_filter. split; [|done]. unfold pair_live.
      by rewrite Hw, (proj2 (Z.eqb_neq _ _)). }
    destruct (filter _ _); [set_solver|done].
  - intros Hnone. destruct (filter _ _) as [|p l] eqn:Hfl; [done|]. exfalso.
    assert (Hin : p ∈ filter (fun p => pair_live p = true) (g_pairs t)) by (rewrite Hfl; set_solver).
    apply list_elem_of_filter in Hin as [Hl Hin]. unfold pair_live in Hl.
    destruct (List.find (fun q => pr_w q =? pr_w p) (g_pairs t)) as [q|] eqn:Hq.
    + specialize (Hnone (pr_w p) (pr_r q)). rewrite Hq in Hnone.
      rewrite Hnone in Hl by done. done.
    + apply list_elem_of_In in Hin. eapply find_none in Hq; [|done].
      simpl in Hq. by rewrite Z.eqb_refl in Hq.
Qed.

(** ** How long a pair is remembered *)

Definition inserts (op : pair_op) : Z :=
  match op with NewFd _ => 0 | NewPipe _ _ => 1 | NewSocketPair _ _ => 2 end.

Definition op_fds (op : pair_op) : list Z :=
  match op with NewFd fd => [fd] | NewPipe r w => [r; w] | NewSocketPair a b => [a; b] end.

Definition slot_index (n : Z) : nat := Z.to_nat (n mod Z.of_nat SHIM_PIPE_PAIRS).

(** The pair is in the slot insertion number [n0] used, and nowhere else. *)
Definition kept (r w n0 : Z) (t : pairs) : Prop :=
  pairs_ok t /\ 0 <= n0 < g_pairs_next t /\
  g_pairs t !! slot_index n0 = Some (Pair r w) /\
  (forall j p, g_pairs t !! j = Some p -> pr_w p = w -> j = slot_index n0).

Lemma kept_drop r w n0 fd t :
  0 < w -> fd <> r -> fd <> w -> kept r w n0 t ->
  kept r w n0 (pairs_drop_locked fd t) /\
  g_pairs_next (pairs_drop_locked fd t) = g_pairs_next t.
Proof.
  intros Hw Hfr Hfw (Hok & Hn & Hi & Huniq). pose proof (pairs_drop_ok fd t Hok) as Hok'.
  unfold kept. rewrite drop_locked_spec in * by done. simpl.
  split_and!; try done; try lia; unfold blank_names.
  - rewrite list_lookup_fmap, Hi. simpl. unfold pair_names. simpl.
    rewrite !(proj2 (Z.eqb_neq _ _)) by congruence. by rewrite andb_false_r.
  - intros j p (q & -> & Hq)%list_lookup_fmap_Some. destruct (pair_names fd q); simpl; [lia|].
    intros Hqw. by eapply Huniq.
Qed.

Lemma slot_index_ne n m : n < m < n + 32 -> slot_index m <> slot_index n.
Proof.
  unfold slot_index. change (Z.of_nat SHIM_PIPE_PAIRS) with 32. intros Hm Heq.
  pose proof (Z.mod_pos_bound n 32 ltac:(lia)) as Hn1.
  pose proof (Z.mod_pos_bound m 32 ltac:(lia)) as Hm1.
  apply Z2Nat.inj in Heq; [|apply Hm1|apply Hn1].
  pose proof (Z.div_mod n 32 ltac:(lia)) as Hn2. pose proof (Z.div_mod m 32 ltac:(lia)) as Hm2.
  rewrite Heq in Hm2. clear Heq Hm1 Hn1. revert Hm Hn2 Hm2.
  generalize (n mod 32), (m / 32), (n / 32). lia.
Qed.

Lemma kept_insert r w n0 a b t :
  0 < w -> kept r w n0 t -> b <> w -> g_pairs_next t < n0 + 32 ->
  kept r w n0 (pairs_insert_locked a b t) /\
  g_pairs_next t <= g_pairs_next (pairs_insert_locked a b t) <= g_pairs_next t + 1.
Proof.
  intros Hw Hk Hb Hnext. destruct (Z.ltb_spec a 0) as [Ha|Ha].
  { unfold pairs_insert_locked. rewrite (proj2 (Z.ltb_lt _ _)) by done. simpl. split; [done|lia]. }
  destruct (Z.leb_spec b 0) as [Hb0|Hb0].
  { unfold pairs_insert_locked. rewrite (proj2 (Z.leb_le b _)), orb_true_r by done. cbv iota. split; [done|lia]. }
  destruct Hk as (Hok & Hn & Hi & Huniq). pose proof (pairs_insert_ok a b t Hok) as Hok'.
  destruct (insert_locked_spec a b t Hok Ha Hb0) as [E Hlt]. rewrite E in *. unfold kept. simpl.
  pose proof (slot_index_ne n0 (g_pairs_next t) ltac:(lia)) as Hne.
  change (slot_index (g_pairs_next t)) with (next_slot t) in Hne.
  split_and!; try done; try lia.
  - by rewrite list_lookup_insert_ne.
  - intros j p Hj Hp. apply list_lookup_insert_Some in Hj as [(<- & <- & _)|[_ Hj]]; [done|].
    by eapply Huniq.
Qed.

(** The read or write end of the pair is not seen again. *)
Definition avoids (r w : Z) (op : pair_op) : Prop := r ∉ op_fds op /\ w ∉ op_fds op.

Lemma kept_step r w n0 t op :
  0 < w -> avoids r w op -> g_pairs_next t + inserts op <= n0 + 32 -> kept r w n0 t ->
  kept r w n0 (pair_step t op) /\
  g_pairs_next (pair_step t op) <= g_pairs_next t + inserts op.
Proof.
  intros Hw [Hr Hww] Hn Hk. destruct op as [fd|a b|a b]; simpl in *;
    unfold note_new_fd, note_pipe, note_pair; (destruct (_ || false); [split; [done|lia]|]).
  - destruct (kept_drop r w n0 fd t) as [? ->]; [done|set_solver..|]. split; [done|lia].
  - destruct (kept_drop r w n0 a t) as [Hk1 N1]; [done|set_solver..|].
    destruct (kept_drop r w n0 b _ Hw ltac:(set_solver) ltac:(set_solver) Hk1) as [Hk2 N2].
    destruct (kept_insert r w n0 a b _ Hw Hk2) as [Hk3 N3]; [set_solver|lia|].
    split; [done|lia].
  - destruct (kept_drop r w n0 a t) as [Hk1 N1]; [done|set_solver..|].
    destruct (kept_drop r w n0 b _ Hw ltac:(set_solver) ltac:(set_solver) Hk1) as [Hk2 N2].
    destruct (kept_insert r w n0 a b _ Hw Hk2) as [Hk3 N3]; [set_solver|lia|].
    destruct (kept_insert r w n0 b a _ Hw Hk3) as [Hk4 N4]; [set_solver|lia|].
    split; [done|lia].
Qed.

Lemma kept_reader r w n0 t : 0 < w -> kept r w n0 t -> find_reader w t = Some r.
Proof.
  intros Hw (_ & _ & Hi & Huniq). unfold find_reader.
  destruct (List.find (fun p => pr_w p =? w) (g_pairs t)) as [p|] eqn:Hp.
  - apply find_some in Hp as [Hin Hpw%Z.eqb_eq].
    apply list_elem_of_In, list_elem_of_lookup in Hin as [j Hj].
    rewrite (Huniq j p Hj Hpw), Hi in Hj. injection Hj as <-. done.
  - apply list_elem_of_lookup_2, list_elem_of_In in Hi. eapply find_none in Hp; [|done].
    simpl in Hp. by rewrite Z.eqb_refl in Hp.
Qed.

Lemma note_pipe_keeps r w t :
  0 <= r -> 0 < w -> pairs_ok t ->
  kept r w (g_pairs_next t) (note_pipe false r w t) /\
  g_pairs_next (note_pipe false r w t) = g_pairs_next t + 1.
Proof.
  intros Hr Hw Hok. unfold note_pipe.
  rewrite (proj2 (Z.ltb_ge _ _)), (proj2 (Z.ltb_ge _ _)) by lia. simpl.
  set (t2 := pairs_drop_locked w (pairs_drop_locked r t)).
  assert (Hok2 : pairs_ok t2) by (by apply pairs_drop_ok, pairs_drop_ok).
  assert (Hn2 : g_pairs_next t2 = g_pairs_next t).
  { unfold t2. rewrite drop_locked_spec by (by apply pairs_drop_ok). by rewrite drop_locked_spec. }
  assert (Hgone : forall j p, g_pairs t2 !! j = Some p -> pr_w p <> w).
  { intros j p Hj. unfold t2 in Hj. rewrite drop_locked_spec in Hj by (by apply pairs_drop_ok).
    simpl in Hj. apply list_lookup_fmap_Some in Hj as (q & -> & _).
    destruct (pair_names w q) eqn:Hq; simpl; [lia|]. intros Hqw.
    unfold pair_names, pair_live in Hq. rewrite Hqw, Z.eqb_refl, orb_true_r, andb_true_r in Hq.
    by rewrite (proj2 (Z.eqb_neq _ _)) in Hq by lia. }
  pose proof (pairs_insert_ok r w t2 Hok2) as Hok3.
  destruct (insert_locked_spec r w t2 Hok2 Hr Hw) as [E Hlt]. rewrite E in *. simpl.
  unfold kept. simpl. unfold next_slot. rewrite Hn2 in *. fold (slot_index (g_pairs_next t)).
  destruct Hok as (_ & Hn & _). unfold next_slot in Hlt. rewrite Hn2 in Hlt.
  fold (slot_index (g_pairs_next t)) in Hlt.
  split_and!; try done; try lia.
  - unfold pairs_ok in *. simpl in Hok3. unfold next_slot in Hok3. by rewrite Hn2 in Hok3.
  - apply list_lookup_insert_eq. destruct Hok2. lia.
  - intros j p Hj Hp. apply list_lookup_insert_Some in Hj as [(<- & _ & _)|[_ Hj]]; [done|].
    by apply Hgone in Hj.
Qed.

(** a pipe is remembered: whatever descriptors, pipes and socket pairs
    come after it, as long as neither number is seen again and fewer than 32
    pairs are recorded, a write to its write end finds its read end. *)
Theorem pipe_is_remembered r w t ops :
  0 <= r -> 0 < w -> pairs_ok t ->
  Forall (avoids r w) ops ->
  foldr (fun op k => inserts op + k) 0 ops < 32 ->
  find_reader w (pair_run (note_pipe false r w t) ops) = Some r.
Proof.
  intros Hr Hw Hok Hav Hcount.
  destruct (note_pipe_keeps r w t Hr Hw Hok) as [Hk Hn].
  revert Hk Hn. generalize (note_pipe false r w t). set (n0 := g_pairs_next t). intros t' Hk Hn.
  enough (Hgen : forall t', kept r w n0 t' ->
    g_pairs_next t' + foldr (fun op k => inserts op + k) 0 ops <= n0 + 32 ->
    find_reader w (pair_run t' ops) = Some r) by (apply Hgen; [done|lia]).
  clear Hk Hn t' Hcount. induction Hav as [|op ops Hop Hav IH]; intros t' Hk Hn.
  - by eapply kept_reader.
  - simpl in Hn.
    assert (Hpos : 0 <= foldr (fun op k => inserts op + k) 0 ops).
    { clear. induction ops as [|[]]; simpl; lia. }
    destruct (kept_step r w n0 t' op Hw Hop ltac:(lia) Hk) as [Hk' Hn'].
    apply IH; [done|lia].
Qed.

(** what a write does to the interest lists, by its outcome: EAGAIN and a
    short write re-arm the writer, a write to a recorded pipe re-arms its
    reader first, and nothing else is touched. *)
Theorem write_result_rearms fd r want t sets :
  0 < fd -> pairs_ok t ->
  snd (write_result false fd r want t sets) =
  match r with
  | Ok n =>
      let sets1 := if (0 <? n) then
                     match find_reader fd t with
                     | Some rfd => fst (rearm rfd SHIM_ARM_IN sets)
                     | None => sets
                     end
                   else sets in
      let kicks := if (0 <? n) then
                     match find_reader fd t with
                     | Some rfd => snd (rearm rfd SHIM_ARM_IN sets)
                     | None => []
                     end
                   else [] in
      if (0 <? n) && (n <? want)
      then (fst (rearm fd SHIM_ARM_OUT sets1), kicks ++ snd (rearm fd SHIM_ARM_OUT sets1))
      else (sets1, kicks)
  | Err e =>
      if decide (e = EAGAIN) then rearm fd SHIM_ARM_OUT sets else (sets, [])
  end.
Proof.
  intros Hfd (_ & _ & Hlive & Hall).
  assert (Hhint : hint_pipe_write false fd t sets =
    match find_reader fd t with Some rfd => rearm rfd SHIM_ARM_IN sets | None => (sets, []) end).
  { unfold hint_pipe_write. rewrite (proj2 (Z.leb_gt _ _)) by done. simpl. rewrite orb_false_r.
    unfold find_reader. destruct (List.find _ (g_pairs t)) as [p|] eqn:Hp; simpl;
      [|by destruct (_ =? 0)].
    apply find_some in Hp as [Hin%list_elem_of_In Hw%Z.eqb_eq].
    rewrite Forall_forall in Hall. destruct (Hall p Hin) as [->|[Hpr _]]; [simpl in *; lia|].
    rewrite (proj2 (Z.leb_le _ _)) by done.
    rewrite (proj2 (Z.eqb_neq _ _)); [done|]. rewrite Hlive. unfold count_live.
    assert (Hl : p ∈ filter (fun p => pair_live p = true) (g_pairs t)).
    { apply list_elem_of_filter. split; [|done]. unfold pair_live.
      rewrite (proj2 (Z.eqb_neq _ _)); [done|lia]. }
    destruct (filter _ _); [set_solver|simpl; lia]. }
  assert (Hout : forall s, rearm_out false fd s = rearm fd SHIM_ARM_OUT s).
  { intros s. unfold rearm_out. by rewrite (proj2 (Z.ltb_ge _ _)) by lia. }
  unfold write_result. cbn [snd]. destruct r as [n|e].
  - rewrite Hhint. destruct (0 <? n); cbn [fst snd andb]; [|done].
    destruct (find_reader fd t) as [rfd|]; [destruct (rearm rfd SHIM_ARM_IN sets) as [s1 k1]|];
      cbn [fst snd andb]; destruct (n <? want); rewrite ?Hout; try done;
      match goal with |- context [rearm fd SHIM_ARM_OUT ?s] => by destruct (rearm fd SHIM_ARM_OUT s) end.
  - rewrite Hout. destruct e; done.
Qed.

(** ** The theorems on a concrete table *)

Lemma pipe_is_remembered_witness :
  find_reader 4 (pair_run (note_pipe false 3 4 pairs_init)
    [NewPipe 5 6; NewFd 7; NewSocketPair 8 9]) = Some 3.
Proof.
  apply (pipe_is_remembered 3 4 pairs_init); [lia|lia|apply pairs_init_ok| |reflexivity].
  repeat constructor; set_solver.
Defined.

Lemma write_result_rearms_witness :
  snd (write_result false 4 (Ok 10) 10 (note_pipe false 9 4 pairs_init) demo_sets) =
  rearm 9 SHIM_ARM_IN demo_sets.
Proof.
  etrans; [apply write_result_rearms; [lia|]|vm_compute; reflexivity].
  apply (proj1 (note_pipe_keeps 9 4 pairs_init ltac:(lia) ltac:(lia) pairs_init_ok)).
Defined.
