(* ===== verification/NtPath.v ===== *)
(** * shim/mkntpath.c, unix paths for Windows

    The registry of UNC roots a process has seen, the test that recognises a
    share path whose leading slash was collapsed, the two in-place
    normalisers and [__mkntpath2] itself. Strings are byte lists, wide
    strings lists of 16-bit units, both without their NUL; reading at the
    end gives the NUL. The conversions between the two, the temp directory,
    the drive bitmap and the hooks of the other shim files are parameters. *)
From S2P Require Import Prelude.

(** ** Characters *)

Definition IsSlash (c : Z) : bool := (c =? 47) || (c =? 92).

(** [IsSlash] takes a [char]: a wide unit is cut to its low byte. *)
Definition IsSlash16 (c : Z) : bool := IsSlash (c mod 256).

Definition IsAlpha (c : Z) : bool :=
  ((65 <=? c) && (c <=? 90)) || ((97 <=? c) && (c <=? 122)).

Definition Lower (c : Z) : Z := if (65 <=? c) && (c <=? 90) then c + 32 else c.

(** [while (p[i] && !IsSlash(p[i])) i++] from the front of [p]. *)
Fixpoint seg_len (p : list Z) : nat :=
  match p with
  | c :: p' => if (c =? 0) || IsSlash c then 0 else S (seg_len p')
  | [] => 0
  end.

(** ** The registry of UNC roots *)

Definition UNC_ROOT_MAX : nat := 16.
Definition UNC_ROOT_LEN : nat := 256.

Definition UncRootLen (p : cstr) : nat :=
  if (p.[0] =? 0) || IsSlash p.[0] || (p.[0] =? 63) || (p.[0] =? 46) then 0
  else
    let i := seg_len p in
    if negb (IsSlash p.[i]) || (p.[i + 1] =? 0) || IsSlash p.[i + 1] then 0
    else
      let share := (i + 1)%nat in
      let e := (share + seg_len (drop share p))%nat in
      if (p.[share] =? 46) &&
         (bool_decide (e - share = 1)%nat ||
          (bool_decide (e - share = 2)%nat && (p.[share + 1] =? 46)))
      then 0
      else if bool_decide (e < UNC_ROOT_LEN)%nat then e else 0.

(** The cached bitmap is consulted first; a letter not in it asks the OS. *)
Definition DriveExists (cached os letter : Z) : bool * Z :=
  let bit := Z.shiftl 1 (Lower letter - 97) in
  if has cached bit then (true, cached) else (has os bit, os).

Definition same_unit (a b : Z) : bool :=
  (IsSlash a && IsSlash b) || (Lower a =? Lower b).

Definition UncRootEquals (root p : cstr) (n : nat) : bool :=
  forallb (fun i => same_unit root.[i] p.[i]) (seq 0 n) && (root.[n] =? 0).

Definition UncRootKnown (roots : list cstr) (p : cstr) (n : nat) : bool :=
  existsb (fun root => UncRootEquals root p n) roots.

(** [unc_roots[0 .. unc_count)] after the call; NULL is [None]. *)
Definition unc_note (path : option cstr) (roots : list cstr) : list cstr :=
  match path with
  | None => roots
  | Some path =>
      if negb (IsSlash path.[0]) || negb (IsSlash path.[1]) then roots
      else
        let p := drop 2 path in
        let n := UncRootLen p in
        if bool_decide (n = 0%nat) || UncRootKnown roots p n then roots
        else if negb (UncRootKnown roots p n) && bool_decide (length roots < UNC_ROOT_MAX)%nat
        then roots ++ [take n p]
        else roots
  end.

(** The inner loop: how far [r] and [p] agree, up to [n]. *)
Fixpoint agree_len (n : nat) (r p : cstr) : nat :=
  match n with
  | O => 0
  | S n' =>
      if negb (r.[0] =? 0) && (Lower r.[0] =? Lower p.[0])
      then S (agree_len n' (drop 1 r) (drop 1 p)) else 0
  end.

Definition UncServerKnown (roots : list cstr) (p : cstr) (n : nat) : bool :=
  existsb (fun r => let k := agree_len n r p in bool_decide (k = n) && IsSlash r.[k]) roots.

Definition IsCollapsedUnc (roots : list cstr) (path : cstr) : bool :=
  if negb (IsSlash path.[0]) || IsSlash path.[1] then false
  else if IsAlpha path.[1] && (IsSlash path.[2] || (path.[2] =? 0)) then false
  else if bool_decide (roots = []) then false
  else
    let n := UncRootLen (drop 1 path) in
    if bool_decide (n <> 0%nat) then UncRootKnown roots (drop 1 path) n
    else
      let k := (1 + seg_len (drop 1 path))%nat in
      if negb (path.[k] =? 0) && (negb (IsSlash path.[k]) || negb (path.[k + 1] =? 0))
      then false
      else UncServerKnown roots (drop 1 path) (k - 1).

Definition shim_unc_collapsed (windows : bool) (roots : list cstr) (path : option cstr) : bool :=
  windows && match path with Some p => IsCollapsedUnc roots p | None => false end.

(** ** __normntpath *)

(** [while (j && f(p[j - 1])) --j;] *)
Fixpoint back_while (f : Z -> bool) (p : list Z) (j : nat) : nat :=
  match j with
  | S j' => if f p.[j'] then back_while f p j' else j
  | O => 0
  end.

(** One pass of the loop at [i]: the buffer, [j] and the next [i]. *)
Definition norm_step (n : nat) (p : list Z) (i j : nat) : list Z * nat * nat :=
  let c := if p.[i] =? 47 then 92 else p.[i] in
  if bool_decide (1 < j)%nat && (c =? 92) && (p.[j - 1] =? 92) then (p, j, S i)
  else if (bool_decide (0 < j)%nat && (p.[j - 1] =? 92)) && (c =? 46) &&
          (bool_decide (i + 1 = n)%nat || IsSlash16 p.[i + 1])
  then (p, j, if bool_decide (i + 1 = n)%nat then S i else S (S i))
  else if (bool_decide (0 < j)%nat && (p.[j - 1] =? 92)) && (c =? 46) &&
          (bool_decide (i + 1 < n)%nat && (p.[i + 1] =? 46)) &&
          (bool_decide (i + 2 = n)%nat || IsSlash16 p.[i + 2])
  then
    let j := back_while (fun c => c =? 92) p j in
    if bool_decide (0 < j)%nat && (p.[j - 1] =? 46) then
      if bool_decide (2 <= j)%nat && (p.[j - 2] =? 46) &&
         (bool_decide (j = 2)%nat || (p.[j - 3] =? 92))
      then (<[S j := 46]> p, S (S j), S i)
      else if bool_decide (j = 1)%nat || (p.[j - 2] =? 92) then (p, j, S i)
      else (p, back_while (fun c => negb (c =? 92)) p j, S i)
    else (p, back_while (fun c => negb (c =? 92)) p j, S i)
  else (<[j := c]> p, S j, S i).

Fixpoint norm_loop (fuel n : nat) (p : list Z) (i j : nat) : list Z * nat :=
  match fuel with
  | O => (p, j)
  | S fuel' =>
      if bool_decide (i < n)%nat then
        let '(p, j, i) := norm_step n p i j in norm_loop fuel' n p i j
      else (p, j)
  end.

(** The normalised path: [p[0 .. j)]. [i] grows on every pass, so [n]
    passes are enough. *)
Definition normntpath (p : list Z) : list Z :=
  let '(p', j) := norm_loop (length p) (length p) p 0 0 in take j p'.

(** ** __normuncrest *)

(** [while (k < n && p[k] is not a separator) k++] *)
Fixpoint comp_len (p : list Z) : nat :=
  match p with
  | c :: p' => if IsSlash c then 0 else S (comp_len p')
  | [] => 0
  end.

Fixpoint skip_seps (p : list Z) : list Z :=
  match p with
  | c :: p' => if IsSlash c then skip_seps p' else p
  | [] => []
  end.

(** The written part is [p[0 .. j)], the unread part [p[i .. n)]: [memmove]
    only ever moves a component towards the front, so the two do not meet. *)
Fixpoint uncrest_loop (fuel : nat) (out rest : list Z) (climbed : bool)
    : list Z * bool :=
  match fuel with
  | O => (out, climbed)
  | S fuel' =>
      match rest with
      | [] => (out, climbed)
      | _ =>
          let rest := skip_seps rest in
          let comp := take (comp_len rest) rest in
          let rest' := drop (comp_len rest) rest in
          if bool_decide (comp = [46]) then uncrest_loop fuel' out rest' climbed
          else if bool_decide (comp = [46; 46]) then
            if bool_decide (out = []) then uncrest_loop fuel' out rest' true
            else
              let j := back_while (fun c => negb (c =? 92)) out (length out) in
              uncrest_loop fuel' (take (j - 1) out) rest' climbed
          else if bool_decide (comp = []) then uncrest_loop fuel' out rest' climbed
          else uncrest_loop fuel' (out ++ 92 :: comp) rest' climbed
      end
  end.

Definition normuncrest (p : list Z) : list Z * bool :=
  let trailing := match last p with Some c => IsSlash c | None => false end in
  let '(out, climbed) := uncrest_loop (S (length p)) [] p false in
  (if trailing && bool_decide (out <> []) then out ++ [92] else out, climbed).

(** ** The in-place normaliser is safe *)

Lemma back_while_le f p j : (back_while f p j <= j)%nat.
Proof. induction j as [|j IH]; simpl; [lia|]. destruct (f p.[j]); lia. Qed.

Lemma byte_at_insert_ne p i j c : i <> j -> (<[i := c]> p).[j] = p.[j].
Proof. intros Hne. unfold byte_at. rewrite !nth_lookup, list_lookup_insert_ne by done. done. Qed.

Lemma byte_at_insert_eq p i c : (i < length p)%nat -> (<[i := c]> p).[i] = c.
Proof. intros Hi. unfold byte_at. by rewrite nth_lookup, list_lookup_insert_eq. Qed.

(** What holds at the head of the loop: what was written lies before what
    is still to be read, and holds no forward slash. *)
Definition norm_inv (n : nat) (orig p : list Z) (i j : nat) : Prop :=
  length p = n /\ (j <= i <= n)%nat /\
  (forall k, (k < j)%nat -> p.[k] <> 47) /\
  (forall k, (i <= k)%nat -> p.[k] = orig.[k]).

Lemma norm_step_inv n orig p i j :
  (i < n)%nat -> norm_inv n orig p i j ->
  let '(p', j', i') := norm_step n p i j in
  norm_inv n orig p' i' j' /\ (i < i')%nat.
Proof.
  intros Hi (Hlen & Hji & Hpre & Hpost). unfold norm_step.
  set (c := if p.[i] =? 47 then 92 else p.[i]).
  assert (Hc : c <> 47) by (unfold c; destruct (Z.eqb_spec p.[i] 47); lia).
  assert (Hkeep : forall i' j', (i < i' <= n)%nat -> (j' <= j)%nat -> norm_inv n orig p i' j').
  { intros i' j' ? ?. split_and!; [done|lia|lia| |]; intros k Hk; [apply Hpre|apply Hpost]; lia. }
  destruct (_ && (p.[j - 1] =? 92)); [split; [apply Hkeep; lia|lia]|].
  destruct (_ && _ && (_ || IsSlash16 p.[i + 1])).
  { destruct (bool_decide (i + 1 = n)%nat) eqn:Hn; [apply bool_decide_eq_true in Hn|apply bool_decide_eq_false in Hn]; (split; [apply Hkeep; lia|lia]). }
  destruct ((bool_decide (0 < j)%nat && (p.[j - 1] =? 92)) && (c =? 46) && _ && _) eqn:H3.
  - rewrite !andb_true_iff in H3. destruct H3 as [[[[Hj Hp92] _] _] _].
    apply bool_decide_eq_true in Hj. apply Z.eqb_eq in Hp92.
    assert (Hjb : (back_while (fun c => (c =? 92)%Z) p j < j)%nat).
    { destruct j as [|j']; [lia|]. simpl. replace (S j' - 1)%nat with j' in Hp92 by lia.
      rewrite Hp92. simpl. pose proof (back_while_le (fun c => (c =? 92)%Z) p j'). lia. }
    set (jb := back_while (fun c => c =? 92) p j) in *. clearbody jb.
    pose proof (back_while_le (fun c => negb (c =? 92)) p jb).
    destruct (_ && (p.[jb - 1] =? 46)); [|split; [apply Hkeep; lia|lia]].
    destruct (_ && _ && _).
    + split; [|lia]. split_and!.
      * by rewrite length_insert.
      * lia.
      * lia.
      * intros k Hk. destruct (decide (k = S jb)) as [->|Hne].
        { rewrite byte_at_insert_eq by lia. lia. }
        rewrite byte_at_insert_ne by done. apply Hpre. lia.
      * intros k Hk. rewrite byte_at_insert_ne by lia. apply Hpost. lia.
    + destruct (_ || _); (split; [apply Hkeep; lia|lia]).
  - split; [|lia]. split_and!.
    + by rewrite length_insert.
    + lia.
    + lia.
    + intros k Hk. destruct (decide (k = j)) as [->|Hne].
      { by rewrite byte_at_insert_eq by lia. }
      rewrite byte_at_insert_ne by done. apply Hpre. lia.
    + intros k Hk. rewrite byte_at_insert_ne by lia. apply Hpost. lia.
Qed.

Lemma norm_loop_inv fuel n orig p i j :
  norm_inv n orig p i j -> (n <= i + fuel)%nat ->
  let '(p', j') := norm_loop fuel n p i j in
  length p' = n /\ (j' <= n)%nat /\ (forall k, (k < j')%nat -> p'.[k] <> 47) /\
  (forall more, norm_loop (fuel + more) n p i j = norm_loop fuel n p i j).
Proof.
  assert (Hstop : forall more p i j, (n <= i)%nat -> norm_loop more n p i j = (p, j)).
  { intros more q a b Ha. destruct more; [done|]. simpl. by rewrite bool_decide_eq_false_2 by lia. }
  revert p i j. induction fuel as [|fuel IH]; intros p i j Hinv Hn; simpl.
  - destruct Hinv as (? & ? & ? & _). split_and!; try done; [lia|]. intros more. apply Hstop. lia.
  - case_bool_decide as Hi.
    + pose proof (norm_step_inv n orig p i j Hi Hinv) as Hs.
      destruct (norm_step n p i j) as [[p' j'] i']. destruct Hs as [Hs Hlt].
      apply IH; [done|lia].
    + destruct Hinv as (? & ? & ? & _). split_and!; try done; lia.
Qed.

(** the in-place normaliser is sound on any input: the loop ends within
    one pass per unit, it never writes past what it has already read, and
    the result is no longer than the input and has no forward slash left. *)
Theorem normntpath_sound p more :
  norm_loop (length p + more) (length p) p 0 0 = norm_loop (length p) (length p) p 0 0 /\
  (length (normntpath p) <= length p)%nat /\ 47 ∉ normntpath p.
Proof.
  pose proof (norm_loop_inv (length p) (length p) p p 0 0) as H. unfold normntpath.
  destruct (norm_loop (length p) (length p) p 0 0) as [p' j].
  destruct H as (Hlen & Hj & Hno & Hmore); [split_and!; [done|lia|lia|lia|done]|lia|].
  split_and!; [apply Hmore|rewrite length_take; lia|].
  intros (k & Hk)%list_elem_of_lookup. pose proof (lookup_lt_Some _ _ _ Hk) as Hlt.
  rewrite length_take in Hlt. rewrite lookup_take_lt in Hk by lia.
  apply (Hno k); [lia|]. unfold byte_at. by rewrite nth_lookup, Hk.
Qed.

(** ** __normuncrest resolves components against a stack *)

Fixpoint split_slash (p cur : list Z) : list (list Z) :=
  match p with
  | [] => [cur]
  | c :: p' => if IsSlash c then cur :: split_slash p' [] else split_slash p' (cur ++ [c])
  end.

(** The names a path is made of. *)
Definition components (p : list Z) : list (list Z) :=
  filter (fun c => c <> []) (split_slash p []).

(** Resolution against a stack of names; the flag is a climb out of it. *)
Fixpoint resolve (stack : list (list Z)) (names : list (list Z)) (climbed : bool)
    : list (list Z) * bool :=
  match names with
  | [] => (stack, climbed)
  | c :: names' =>
      if bool_decide (c = [46]) then resolve stack names' climbed
      else if bool_decide (c = [46; 46]) then
        resolve (take (length stack - 1) stack) names' (climbed || bool_decide (stack = []))
      else resolve (stack ++ [c]) names' climbed
  end.

(** Each name after a backslash. *)
Definition render (names : list (list Z)) : list Z := concat (map (cons 92) names).

Definition is_name (c : list Z) : Prop := c <> [] /\ Forall (fun x => IsSlash x = false) c.

Lemma split_slash_comp p cur :
  split_slash p cur = split_slash (drop (comp_len p) p) (cur ++ take (comp_len p) p).
Proof.
  revert cur. induction p as [|c p IH]; intros cur; simpl; [by rewrite app_nil_r|].
  destruct (IsSlash c) eqn:Hc; simpl; [by rewrite app_nil_r, Hc|].
  by rewrite IH, <- app_assoc.
Qed.

Lemma components_skip p : components (skip_seps p) = components p.
Proof.
  unfold components. induction p as [|c p IH]; [done|]. simpl.
  destruct (IsSlash c) eqn:Hc; [|simpl; by rewrite Hc].
  rewrite IH, filter_cons_False by auto. done.
Qed.

Lemma after_comp p :
  drop (comp_len p) p = [] \/ exists c q, drop (comp_len p) p = c :: q /\ IsSlash c = true.
Proof.
  induction p as [|c p IH]; simpl; [by left|].
  destruct (IsSlash c) eqn:Hc; simpl; [right; eauto|done].
Qed.

Lemma take_comp_name p : Forall (fun x => IsSlash x = false) (take (comp_len p) p).
Proof.
  induction p as [|c p IH]; simpl; [done|]. destruct (IsSlash c) eqn:Hc; simpl; auto.
Qed.

Lemma components_step p :
  components p =
  (if bool_decide (take (comp_len p) p = []) then [] else [take (comp_len p) p]) ++
  components (drop (comp_len p) p).
Proof.
  unfold components at 1. rewrite split_slash_comp. simpl.
  destruct (after_comp p) as [E|(c & q & E & Hc)]; rewrite E.
  - simpl. case_bool_decide as Ht; [by rewrite filter_cons_False by (rewrite Ht; auto)|].
    by rewrite filter_cons_True.
  - unfold components. simpl. rewrite Hc.
    rewrite (filter_cons_False _ []) by auto.
    case_bool_decide as Ht; [by rewrite filter_cons_False by (rewrite Ht; auto)|].
    by rewrite filter_cons_True.
Qed.

Lemma render_app a b : render (a ++ b) = render a ++ render b.
Proof. unfold render. by rewrite map_app, concat_app. Qed.

Lemma render_nil names : Forall is_name names -> render names = [] <-> names = [].
Proof. intros _. destruct names; simpl; split; done. Qed.

(** Popping the rendered stack is dropping its last name. *)
Lemma render_pop names :
  Forall is_name names -> names <> [] ->
  take (back_while (fun c => negb (c =? 92)) (render names) (length (render names)) - 1)
    (render names) =
  render (take (length names - 1) names).
Proof.
  intros Hall Hne. destruct (exists_last Hne) as (init & c & ->).
  apply Forall_app in Hall as [_ Hc]. apply Forall_cons in Hc as [[_ Hc] _].
  rewrite length_app. simpl. replace (length init + 1 - 1)%nat with (length init) by lia.
  rewrite take_app_length. rewrite render_app. unfold render at 2 4 6. simpl. rewrite app_nil_r.
  assert (Hback : forall d, (d <= length c)%nat ->
    back_while (fun c => negb (c =? 92)) (render init ++ 92 :: c) (length (render init) + 1 + d) =
    (length (render init) + 1)%nat).
  { induction d as [|d IHd]; intros Hd.
    - rewrite Nat.add_0_r, Nat.add_1_r. simpl. unfold byte_at.
      rewrite nth_middle. done.
    - replace (length (render init) + 1 + S d)%nat with (S (length (render init) + 1 + d)) by lia.
      cbn [back_while]. unfold byte_at. rewrite app_nth2 by lia.
      replace (length (render init) + 1 + d - length (render init))%nat with (S d) by lia. simpl.
      assert (Hn : IsSlash (nth d c 0) = false).
      { rewrite Forall_forall in Hc. apply Hc, list_elem_of_In, nth_In. lia. }
      unfold IsSlash in Hn. apply orb_false_iff in Hn as [_ ->]. simpl. apply IHd. lia. }
  rewrite length_app. simpl.
  replace (length (render init) + S (length c))%nat with (length (render init) + 1 + length c)%nat by lia.
  rewrite Hback by lia.
  replace (length (render init) + 1 - 1)%nat with (length (render init)) by lia.
  by rewrite take_app_length.
Qed.

Lemma uncrest_loop_resolves fuel names rest climbed :
  (length rest < fuel)%nat -> Forall is_name names ->
  uncrest_loop fuel (render names) rest climbed =
  (let '(st, cl) := resolve names (components rest) climbed in (render st, cl)).
Proof.
  revert names rest climbed. induction fuel as [|fuel IH]; intros names rest climbed Hf Hn; [lia|].
  cbn [uncrest_loop]. destruct rest as [|x rest0] eqn:Hrest; [done|]. rewrite <- Hrest in *.
  rewrite <- components_skip.
  set (r := skip_seps rest). set (comp := take (comp_len r) r).
  assert (Hlen : (length (drop (comp_len r) r) < length rest)%nat).
  { rewrite length_drop. unfold r. rewrite Hrest. simpl. destruct (IsSlash x) eqn:Hx.
    - assert (length (skip_seps rest0) <= length rest0)%nat; [|lia].
      clear. induction rest0 as [|y l IHl]; simpl; [lia|]. destruct (IsSlash y); simpl; lia.
    - simpl. rewrite Hx. simpl. lia. }
  rewrite components_step. fold comp.
  assert (Hslash : Forall (fun x => IsSlash x = false) comp) by apply take_comp_name.
  destruct (decide (comp = [])) as [He|He].
  - rewrite He. rewrite !bool_decide_eq_false_2, (bool_decide_eq_true_2 ([] = [])) by done.
    simpl. apply IH; [lia|done].
  - rewrite (bool_decide_eq_false_2 (comp = [])) by done. simpl.
    destruct (decide (comp = [46])) as [Hd|Hd]; [rewrite !bool_decide_eq_true_2 by done; apply IH; [lia|done]|].
    rewrite !(bool_decide_eq_false_2 (comp = [46])) by done.
    destruct (decide (comp = [46; 46])) as [Hdd|Hdd].
    + rewrite !(bool_decide_eq_true_2 (comp = [46; 46])) by done.
      destruct (decide (names = [])) as [->|Hne].
      * simpl. rewrite orb_true_r. rewrite (IH []) by (lia || done). done.
      * rewrite (bool_decide_eq_false_2 (render names = [])) by (rewrite render_nil; done).
        rewrite (bool_decide_eq_false_2 (names = [])) by done. rewrite orb_false_r.
        rewrite render_pop by done. apply IH; [lia|]. by apply Forall_take.
    + rewrite !(bool_decide_eq_false_2 (comp = [46; 46])) by done.
      replace (render names ++ 92 :: comp) with (render (names ++ [comp]))
        by (rewrite render_app; unfold render at 2; simpl; by rewrite app_nil_r).
      apply IH; [lia|]. apply Forall_app. split; [done|]. by repeat constructor.
Qed.

(** what follows a share root is resolved name by name against a stack:
    "." vanishes, ".." pops and can never pop the root itself (a climb is
    reported instead), and the trailing slash is kept exactly when the input
    had one and a name is left. *)
Theorem normuncrest_resolves p :
  normuncrest p =
  let '(st, climbed) := resolve [] (components p) false in
  let trailing := match last p with Some c => IsSlash c | None => false end in
  (render st ++ (if trailing && bool_decide (st <> []) then [92] else []), climbed).
Proof.
  unfold normuncrest. rewrite (uncrest_loop_resolves _ []) by (simpl; lia || done).
  destruct (resolve [] (components p) false) as [st cl]. f_equal.
  assert (Hb : bool_decide (render st <> []) = bool_decide (st <> [])).
  { apply bool_decide_ext. by destruct st. }
  rewrite Hb. destruct (_ && _); by rewrite ?app_nil_r.
Qed.
