(* ===== verification/MkNtPath.v ===== *)
(** * shim/mkntpath.c: __mkntpath2, and shim/mkntpathat.c

    The conversion as the code stages it: the rewrites of the unix spelling,
    the choice of a prefix, the conversion to wide characters, the
    normalisation after the prefix and the removal of the long-path prefix;
    then the dirfd-relative form. The theorems: a collapsed share path
    converts as the share path it stands for, nothing climbs out of a share,
    and what the short form of a long-prefixed path is. *)
From S2P Require Import Prelude NtPath.

(** What __mkntpath2 takes from Windows, from cosmo's converters and from
    the other shim files. A converter is given the room it has and answers
    the units it wrote. *)
Class NtEnv := {
  PATH_MAX : Z;
  tprecode8to16 : Z -> cstr -> list Z;
  tprecode16to8 : Z -> list Z -> cstr;
  GetTempPath : Z -> list Z;
  drives_cached : Z;
  GetLogicalDrives : Z;
  cosmos_drive : Z;
  procfs_rewrite : cstr -> option cstr;
  unc_rel : cstr -> option cstr;
  unc_server_dir : cstr -> option cstr }.

Section convert.
Context `{NtEnv}.

Definition drive_exists (letter : Z) : bool := fst (DriveExists drives_cached GetLogicalDrives letter).

(** ** The rewrites of the unix spelling *)

Definition drive_marker (s : cstr) : bool := IsAlpha s.[0] && (s.[1] =? 58) && IsSlash s.[2].

(** The scan for the last absolute win32 segment; [prev] is [s[-1]]. *)
Fixpoint last_absolute (prev : option Z) (s path : cstr) : cstr :=
  match s with
  | [] => path
  | c :: s' =>
      let path :=
        match prev with
        | None => if drive_marker s then s else path
        | Some pc =>
            if negb (IsSlash pc) then path
            else if drive_marker s then s
            else if (pc =? 47) && (s.[0] =? 92) && (s.[1] =? 92) && negb (IsSlash s.[2]) then s
            else path
        end in
      last_absolute (Some c) s' path
  end.

Definition join_relative (path : cstr) : cstr :=
  if negb (path.[0] =? 0) && negb (IsSlash path.[0]) &&
     negb (IsAlpha path.[0] && (path.[1] =? 58))
  then default path (unc_rel path) else path.

(** Two slashes and a name that is no device namespace. *)
Definition names_server (q : cstr) : bool :=
  IsSlash q.[0] && IsSlash q.[1] && negb (q.[2] =? 0) && negb (IsSlash q.[2]) &&
  negb (q.[2] =? 63) && negb (q.[2] =? 46).

(** Learns a root, or restores a lost slash. *)
Definition restore_unc (path : cstr) (roots : list cstr) : res cstr * list cstr :=
  if IsSlash path.[0] && IsSlash path.[1] then (Ok path, unc_note (Some path) roots)
  else if IsCollapsedUnc roots path then
    if PATH_MAX <? Z.of_nat (length path) + 2 then (Err ENAMETOOLONG, roots)
    else (Ok (47 :: path), roots)
  else (Ok path, roots).

(** "//server" alone becomes its materialized share list. *)
Definition divert_server (path : cstr) : cstr :=
  if names_server path then
    let k := (2 + seg_len (drop 2 path))%nat in
    if (path.[k] =? 0) || (path.[k + 1] =? 0)
    then default path (unc_server_dir (take (k - 2) (drop 2 path))) else path
  else path.

(** ** The prefix *)

Definition slash_tmp (q : cstr) : bool :=
  (q.[1] =? 116) && (q.[2] =? 109) && (q.[3] =? 112) && (IsSlash q.[4] || (q.[4] =? 0)).

Definition drive_prefix (letter : Z) : list Z := [92; 92; 63; 92; letter; 58; 92].
Definition unc_prefix : list Z := [92; 92; 63; 92; 85; 78; 67; 92].

Definition room : Z := Z.min 32767 PATH_MAX.

(** What has been written ([x] units), what is left of the path, the room
    [z], and "srv/share" when the prefix ends in one. *)
Record prefix := Prefix { px_out : list Z; px_rest : cstr; px_z : Z; px_root : option cstr }.

Definition backslashes (p : list Z) : list Z := map (fun c => if c =? 47 then 92 else c) p.

Definition choose_prefix (q : cstr) : res prefix :=
  if IsSlash q.[0] && IsAlpha q.[1] && IsSlash q.[2] && drive_exists q.[1] then
    Ok (Prefix (drive_prefix q.[1]) (drop 3 q) (room - 7) None)
  else if IsSlash q.[0] && IsAlpha q.[1] && (q.[2] =? 0) && drive_exists q.[1] then
    Ok (Prefix (drive_prefix q.[1]) (drop 2 q) (room - 7) None)
  else if drive_marker q then
    Ok (Prefix (drive_prefix q.[0]) (drop 3 q) (room - 7) None)
  else if IsSlash q.[0] && IsSlash q.[1] && (q.[2] =? 63) && IsSlash q.[3] then
    Ok (Prefix [] q room None)
  else if names_server q then
    let q := drop 2 q in
    let z := room - 8 in
    let rootlen := UncRootLen q in
    if bool_decide (rootlen = 0%nat) then Ok (Prefix unc_prefix q z None)
    else
      let root8 := take rootlen q in
      let r := tprecode8to16 z root8 in
      let r16 := Z.of_nat (length r) in
      if z - 1 <=? r16 then Err ENAMETOOLONG
      else Ok (Prefix (unc_prefix ++ backslashes r) (drop rootlen q) (z - r16) (Some root8))
  else if IsSlash q.[0] && negb (slash_tmp q) then
    Ok (Prefix (drive_prefix cosmos_drive) (drop 1 q) (room - 7) None)
  else Ok (Prefix [] q (Z.min 260 PATH_MAX) None).

(** ** The long-path prefix *)

Definition has_prefix (n : nat) (p l : list Z) : bool :=
  bool_decide (n < length p)%nat && bool_decide (take (length l) p = l).

(** Removed while the result stays within 244 units. *)
Definition strip_long (p : list Z) : list Z :=
  if has_prefix 4 p [92; 92; 63; 92] then
    if has_prefix 8 p unc_prefix then
      if Z.of_nat (length p) - 6 <? 244 then [92; 92] ++ drop 8 p else p
    else if Z.of_nat (length p) <? 244 then drop 4 p else p
  else p.

Definition server_of (root8 : cstr) : cstr := take (seg_len root8) root8.

(** ** __mkntpath2 *)

(** Everything after the spelling has been settled; [again] is the recursive
    call, on a path whose ".." has been resolved. *)
Definition convert_path (again : cstr -> list cstr -> option (res (list Z) * list cstr))
    (path : cstr) (roots : list cstr) : option (res (list Z) * list cstr) :=
  let q := divert_server path in
  match choose_prefix q with
  | Err e => Some (Err e, roots)
  | Ok (Prefix out q z root) =>
      let tmp := bool_decide (out = []) && IsSlash q.[0] && slash_tmp q in
      let t := if tmp then GetTempPath z else [] in
      if tmp && (q.[4] =? 0) then Some (Ok t, roots)
      else
        let q := if tmp then drop 5 q else q in
        let z := (z - Z.of_nat (length t)) mod 2 ^ 64 in
        let p := tprecode8to16 z q in
        if (z - 1) mod 2 ^ 64 <=? Z.of_nat (length p) then Some (Err ENAMETOOLONG, roots)
        else
          match root with
          | None => Some (Ok (strip_long (out ++ t ++ normntpath p)), roots)
          | Some root8 =>
              let '(p, climbed) := normuncrest p in
              let here := Some (Ok (strip_long (out ++ t ++ p)), roots) in
              if climbed then
                let srv := server_of root8 in
                let rest8 := tprecode16to8 PATH_MAX p in
                let full := [47; 47] ++ srv ++ rest8 in
                if (Z.of_nat (length rest8) <? PATH_MAX - 1) &&
                   (Z.of_nat (length full) <? PATH_MAX) &&
                   bool_decide (is_Some (unc_server_dir srv))
                then again full roots
                else here
              else here
          end
  end.

(** The path converted, with the registry as the call leaves it; [fuel]
    bounds the recursion. *)
Fixpoint mkntpath2 (fuel : nat) (path : option cstr) (roots : list cstr)
    : option (res (list Z) * list cstr) :=
  match fuel with
  | O => None
  | S fuel' =>
      match path with
      | None => Some (Err EFAULT, roots)
      | Some path =>
          let path := default path (procfs_rewrite path) in
          let path := last_absolute None path path in
          let path := join_relative path in
          match restore_unc path roots with
          | (Err e, roots) => Some (Err e, roots)
          | (Ok path, roots) =>
              convert_path (fun full => mkntpath2 fuel' (Some full)) path roots
          end
      end
  end.

Definition mkntpath (fuel : nat) (path : option cstr) (roots : list cstr) :=
  mkntpath2 fuel path roots.
End convert.

(** ** shim/mkntpathat.c

    The path buffer is modelled with its terminating NUL and whatever lies
    behind it: the downgrade shortens the string but not the length. *)
Class NtHandles := {
  isutf8 : cstr -> bool;
  GetFinalPathNameByHandle : Z -> res (list Z);
  GetFileAttributes : list Z -> option Z;
  is_file_fd : Z -> bool;
  handle_of : Z -> Z }.

Definition AT_FDCWD : Z := -100.
Definition ARRAYLEN_dir `{NtEnv} : Z := PATH_MAX.
Definition kNtFileAttributeReparsePoint : Z := 0x400.
Definition kNtFileAttributeDirectory : Z := 0x10.

Section pathat.
Context `{NtEnv} `{NtHandles}.

Definition IsAbsolutePathWin32 (path : list Z) : bool :=
  (path.[0] =? 92) || (IsAlpha path.[0] && (path.[1] =? 58)).

(** [memmove(file + d, file + s, (n - s + 1) * sizeof(char16_t))] *)
Definition memmove_down (d s n : nat) (file : list Z) : list Z :=
  take d file ++ take (n - s + 1) (drop s file) ++ drop (d + (n - s + 1)) file.

Definition downgrade (n : nat) (file : list Z) : list Z :=
  if bool_decide (4 < n)%nat && bool_decide (take 4 file = [92; 92; 63; 92]) then
    if bool_decide (8 < n)%nat && bool_decide (take 4 (drop 4 file) = [85; 78; 67; 92]) then
      if bool_decide (n - 6 < 260)%nat then memmove_down 2 8 n file else file
    else if bool_decide (n < 260)%nat then memmove_down 0 4 n file else file
  else file.

(** The length it answers, and the buffer. *)
Definition mkntpathath_impl (fuel : nat) (dirhand : Z) (path : cstr) (roots : list cstr)
    : option (res (nat * list Z) * list cstr) :=
  if negb (isutf8 path) then Some (Err EILSEQ, roots)
  else
    match mkntpath2 fuel (Some path) roots with
    | None => None
    | Some (Err e, roots) => Some (Err e, roots)
    | Some (Ok file, roots) =>
        if bool_decide (file = []) then Some (Err ENOENT, roots)
        else if negb (dirhand =? AT_FDCWD) && negb (IsAbsolutePathWin32 file) then
          match GetFinalPathNameByHandle dirhand with
          | Err e => Some (Err e, roots)
          | Ok dir =>
              if ARRAYLEN_dir <? Z.of_nat (length dir + 1 + length file + 1)
              then Some (Err ENAMETOOLONG, roots)
              else
                let file := normntpath (dir ++ 92 :: file) in
                let n := length file in
                Some (Ok (n, downgrade n (file ++ [0])), roots)
          end
        else
          let file := normntpath file in
          Some (Ok (length file, file ++ [0]), roots)
    end.

(** The string a buffer holds. *)
Fixpoint until_nul (file : list Z) : list Z :=
  match file with
  | c :: file' => if c =? 0 then [] else c :: until_nul file'
  | [] => []
  end.

(** [file[--len] = 0], unless the path is a root. *)
Definition drop_last_slash (len : nat) (file : list Z) : nat * list Z :=
  if bool_decide (1 < len)%nat && negb (bool_decide (len = 3)%nat && (file.[1] =? 58))
  then ((len - 1)%nat, <[(len - 1)%nat := 0]> file) else (len, file).

Definition not_a_directory (file : list Z) : bool :=
  match GetFileAttributes (until_nul file) with
  | Some fattr => negb (has fattr kNtFileAttributeReparsePoint) &&
                  negb (has fattr kNtFileAttributeDirectory)
  | None => false
  end.

Definition mkntpathath (fuel : nat) (dirhand : Z) (path : cstr) (roots : list cstr)
    : option (res (nat * list Z) * list cstr) :=
  match mkntpathath_impl fuel dirhand path roots with
  | Some (Ok (len, file), roots) =>
      if bool_decide (len <> 0%nat) && (file.[len - 1] =? 92) then
        let '(len, file) := drop_last_slash len file in
        if not_a_directory file then Some (Err ENOTDIR, roots) else Some (Ok (len, file), roots)
      else Some (Ok (len, file), roots)
  | r => r
  end.

Definition mkntpathat (fuel : nat) (dirfd : Z) (path : cstr) (roots : list cstr)
    : option (res (nat * list Z) * list cstr) :=
  if dirfd =? AT_FDCWD then mkntpathath fuel AT_FDCWD path roots
  else if is_file_fd dirfd then mkntpathath fuel (handle_of dirfd) path roots
  else Some (Err EBADF, roots).
End pathat.

(** ** The registry *)

Lemma same_unit_refl a : same_unit a a = true.
Proof. unfold same_unit. by rewrite Z.eqb_refl, orb_true_r. Qed.

Lemma Lower_slash a b : Lower a = Lower b -> IsSlash a = IsSlash b.
Proof.
  unfold Lower, IsSlash. intros Hab.
  destruct ((65 <=? a) && (a <=? 90)) eqn:Ha, ((65 <=? b) && (b <=? 90)) eqn:Hb;
    rewrite ?andb_true_iff, ?andb_false_iff, ?Z.leb_le, ?Z.leb_gt in *;
    repeat match goal with |- context [?x =? ?y] => destruct (Z.eqb_spec x y) end; lia || done.
Qed.

Lemma same_unit_trans a b c : same_unit a b = true -> same_unit b c = true -> same_unit a c = true.
Proof.
  unfold same_unit. rewrite !orb_true_iff, !andb_true_iff, !Z.eqb_eq.
  intros [[Ha Hb]|Hab] [[Hb' Hc]|Hbc].
  - by left.
  - left. split; [done|]. by rewrite <- (Lower_slash b c).
  - left. split; [|done]. by rewrite (Lower_slash a b).
  - right. congruence.
Qed.

Lemma UncRootEquals_spec root p n :
  UncRootEquals root p n = true <->
  (forall i, (i < n)%nat -> same_unit root.[i] p.[i] = true) /\ root.[n] = 0.
Proof.
  unfold UncRootEquals. rewrite andb_true_iff, Z.eqb_eq, forallb_forall.
  setoid_rewrite in_seq. split; intros [H1 H2]; (split; [|done]); intros i Hi; apply H1; lia.
Qed.

Lemma UncRootEquals_trans root p q n :
  UncRootEquals root p n = true -> (forall i, (i < n)%nat -> same_unit p.[i] q.[i] = true) ->
  UncRootEquals root q n = true.
Proof.
  rewrite !UncRootEquals_spec. intros [H1 H2] Hpq. split; [|done].
  intros i Hi. eapply same_unit_trans; eauto.
Qed.

Lemma byte_at_take (p : list Z) n i : (i < n)%nat -> (take n p).[i] = p.[i].
Proof. intros Hi. unfold byte_at. rewrite !nth_lookup. by rewrite lookup_take_lt. Qed.

Lemma byte_at_ge (p : list Z) i : (length p <= i)%nat -> p.[i] = 0.
Proof. intros Hi. unfold byte_at. by apply nth_overflow. Qed.

Lemma take_is_root (p : cstr) n : UncRootEquals (take n p) p n = true.
Proof.
  apply UncRootEquals_spec. split.
  - intros i Hi. rewrite byte_at_take by done. apply same_unit_refl.
  - apply byte_at_ge. rewrite length_take. lia.
Qed.

(** Once a share has been noted, every spelling of its root is known. *)
Lemma unc_note_known first p roots n :
  UncRootLen first = n -> n <> 0%nat -> (length roots < UNC_ROOT_MAX)%nat ->
  (forall i, (i < n)%nat -> same_unit first.[i] p.[i] = true) ->
  UncRootKnown (unc_note (Some (47 :: 47 :: first)) roots) p n = true.
Proof.
  intros Hn Hnz Hroom Heq. unfold unc_note. simpl. rewrite ?drop_0, ?Hn.
  rewrite bool_decide_eq_false_2 by done. simpl.
  assert (Hex : forall l, UncRootKnown l first n = true -> UncRootKnown l p n = true).
  { intros l. unfold UncRootKnown. rewrite !existsb_exists. intros (r & Hr & He).
    exists r. split; [done|]. by eapply UncRootEquals_trans. }
  destruct (UncRootKnown roots first n) eqn:Hk; simpl; [by apply Hex|].
  rewrite bool_decide_eq_true_2 by done. apply Hex.
  unfold UncRootKnown. rewrite existsb_app. simpl. by rewrite take_is_root, orb_true_r.
Qed.

Section registry.
(** The registry after any sequence of paths. *)
Definition noted (paths : list (option cstr)) : list cstr :=
  foldl (fun roots path => unc_note path roots) [] paths.

Lemma unc_note_cases path roots :
  unc_note path roots = roots \/
  exists p n, n = UncRootLen p /\ n <> 0%nat /\ UncRootKnown roots p n = false /\
    (length roots < UNC_ROOT_MAX)%nat /\ unc_note path roots = roots ++ [take n p].
Proof.
  unfold unc_note. destruct path as [path|]; [|by left].
  destruct (_ || _); [by left|]. set (p := drop 2 path).
  destruct (bool_decide _ || _) eqn:Hc; [by left|].
  apply orb_false_iff in Hc as [Hn%bool_decide_eq_false Hk]. rewrite Hk. simpl.
  case_bool_decide; [|by left]. right. by exists p, (UncRootLen p).
Qed.
End registry.

Definition registry_ok (roots : list cstr) : Prop :=
  (length roots <= UNC_ROOT_MAX)%nat /\
  Forall (fun r => (0 < length r < UNC_ROOT_LEN)%nat) roots /\
  (forall i j r s, (i < j)%nat -> roots !! i = Some r -> roots !! j = Some s ->
     UncRootEquals r s (length s) = false).

Lemma UncRootLen_bounds p : (UncRootLen p < UNC_ROOT_LEN)%nat /\ (UncRootLen p <= length p)%nat.
Proof.
  assert (Hseg : forall q, (seg_len q <= length q)%nat).
  { induction q as [|c q IH]; simpl; [lia|]. destruct (_ || _); lia. }
  unfold UncRootLen. destruct (_ || _); [unfold UNC_ROOT_LEN; lia|].
  set (i := seg_len p). destruct (_ || _) eqn:Hi; [unfold UNC_ROOT_LEN; lia|].
  destruct (_ && _); [unfold UNC_ROOT_LEN; lia|].
  case_bool_decide; [|unfold UNC_ROOT_LEN; lia]. split; [done|].
  pose proof (Hseg (drop (i + 1) p)) as Hs. rewrite length_drop in Hs.
  enough (i + 1 <= length p)%nat by lia.
  apply orb_false_iff in Hi as [Hi _]. apply orb_false_iff in Hi as [Hi%negb_false_iff _].
  destruct (decide (i < length p)%nat); [lia|]. rewrite byte_at_ge in Hi by lia. done.
Qed.

Lemma UncRootEquals_take r p n : UncRootEquals r (take n p) n = UncRootEquals r p n.
Proof.
  apply eq_true_iff_eq. rewrite !UncRootEquals_spec.
  split; intros [H1 H2]; (split; [|done]); intros i Hi; specialize (H1 i Hi);
    by rewrite byte_at_take in * by done.
Qed.

Lemma unc_note_ok path roots : registry_ok roots -> registry_ok (unc_note path roots).
Proof.
  intros (Hlen & Hall & Huniq).
  destruct (unc_note_cases path roots) as [->|(p & n & Hn & Hnz & Hk & Hroom & ->)]; [by split_and!|].
  destruct (UncRootLen_bounds p) as [Hb1 Hb2]. rewrite <- Hn in *.
  assert (Hlt : length (take n p) = n) by (rewrite length_take; lia).
  split_and!.
  - rewrite length_app. simpl. lia.
  - apply Forall_app. split; [done|]. constructor; [rewrite Hlt; lia|done].
  - intros i j r s Hij Hr Hs. pose proof (lookup_lt_Some _ _ _ Hs) as Hj.
    rewrite length_app in Hj. simpl in Hj.
    rewrite lookup_app_l in Hr by lia.
    apply lookup_app_Some in Hs as [Hs|[_ Hs]]; [exact (Huniq i j r s Hij Hr Hs)|].
    apply list_lookup_singleton_Some in Hs as [_ <-]. rewrite Hlt, UncRootEquals_take.
    destruct (UncRootEquals r p n) eqn:He; [|done].
    unfold UncRootKnown in Hk. rewrite <- Hk. symmetry. apply existsb_exists.
    exists r. split; [|done]. apply list_elem_of_In. by eapply list_elem_of_lookup_2.
Qed.

(** the registry is sound whatever paths the process has converted: it
    never outgrows its sixteen slots, every root fits its slot with room for
    the NUL, and no root is recorded again under another spelling. *)
Theorem registry_sound paths : registry_ok (noted paths).
Proof.
  unfold noted. assert (H0 : registry_ok []).
  { split_and!; [unfold UNC_ROOT_MAX; simpl; lia|constructor|].
    intros i j r s _ Hr. by rewrite lookup_nil in Hr. }
  revert H0. generalize (@nil cstr). induction paths as [|path paths IH]; intros roots Hok; [done|].
  apply IH. by apply unc_note_ok.
Qed.

(** ** Share paths *)

Section shares.
Context `{NtEnv}.

(** "/server/share..." as it starts, and not a drive: what IsCollapsedUnc
    looks at. *)
Lemma collapsed_known roots p :
  IsSlash p.[0] = false -> IsAlpha p.[0] && (IsSlash p.[1] || (p.[1] =? 0)) = false ->
  UncRootLen p <> 0%nat -> UncRootKnown roots p (UncRootLen p) = true ->
  IsCollapsedUnc roots (47 :: p) = true.
Proof.
  intros Hs Hd Hn Hk. unfold IsCollapsedUnc.
  change ((47 :: p).[1]) with p.[0]. change ((47 :: p).[2]) with p.[1].
  change ((47 :: p).[0]) with 47. rewrite Hs, Hd. simpl. rewrite drop_0.
  rewrite bool_decide_eq_false_2 by (by intros ->).
  by rewrite bool_decide_eq_true_2.
Qed.

Lemma UncRootLen_no_slash p : UncRootLen p <> 0%nat -> IsSlash p.[0] = false /\ p.[0] <> 0.
Proof.
  unfold UncRootLen. destruct (Z.eqb_spec p.[0] 0); [done|]. by destruct (IsSlash p.[0]).
Qed.

(** a share path whose second slash was lost on the way converts exactly
    as the share path it stands for, once the process has seen any path on
    that share, in whatever case and with whichever slashes. *)
Theorem collapsed_share_converts fuel first p roots0 :
  let n := UncRootLen p in
  let roots := unc_note (Some (47 :: 47 :: first)) roots0 in
  n <> 0%nat -> UncRootLen first = n -> (length roots0 < UNC_ROOT_MAX)%nat ->
  (forall i, (i < n)%nat -> same_unit first.[i] p.[i] = true) ->
  IsAlpha p.[0] && (IsSlash p.[1] || (p.[1] =? 0)) = false ->
  Z.of_nat (length p) + 3 <= PATH_MAX ->
  procfs_rewrite (47 :: p) = None -> procfs_rewrite (47 :: 47 :: p) = None ->
  last_absolute None (47 :: p) (47 :: p) = 47 :: p ->
  last_absolute None (47 :: 47 :: p) (47 :: 47 :: p) = 47 :: 47 :: p ->
  mkntpath2 fuel (Some (47 :: p)) roots = mkntpath2 fuel (Some (47 :: 47 :: p)) roots.
Proof.
  intros n roots Hn Hfirst Hroom Hsame Hdrive Hlen Hp1 Hp2 Ha1 Ha2.
  destruct fuel as [|fuel]; [done|]. cbn [mkntpath2]. rewrite Hp1, Hp2. cbn [default].
  unfold id. rewrite Ha1, Ha2.
  destruct (UncRootLen_no_slash p Hn) as [Hs Hz].
  assert (Hknown : UncRootKnown roots p n = true) by by apply unc_note_known.
  unfold join_relative. simpl. unfold restore_unc.
  change ((47 :: p).[1]) with p.[0]. change ((47 :: p).[0]) with 47.
  change ((47 :: 47 :: p).[1]) with 47. change ((47 :: 47 :: p).[0]) with 47.
  rewrite Hs. simpl.
  rewrite collapsed_known by done. simpl.
  rewrite (proj2 (Z.ltb_ge _ _)) by lia.
  unfold unc_note. simpl. rewrite drop_0. fold n.
  rewrite (bool_decide_eq_false_2 (n = 0%nat)) by done. by rewrite Hknown.
Qed.

Lemma resolve_names st names cl :
  Forall (fun c => c <> [46] /\ c <> [46; 46]) st ->
  Forall (fun c => c <> [46] /\ c <> [46; 46]) (fst (resolve st names cl)).
Proof.
  revert st cl. induction names as [|c names IH]; intros st cl Hst; simpl; [done|].
  case_bool_decide; [by apply IH|]. case_bool_decide; [by apply IH, Forall_take|].
  apply IH, Forall_app. split; [done|]. by repeat constructor.
Qed.

Lemma names_server_root q : names_server q = true -> UncRootLen (drop 2 q) <> 0%nat ->
  divert_server q = q.
Proof.
  intros Hq Hr. unfold divert_server. rewrite Hq.
  set (k := (2 + seg_len (drop 2 q))%nat).
  enough (Hk : q.[k] <> 0 /\ q.[k + 1] <> 0).
  { destruct Hk. by rewrite !(proj2 (Z.eqb_neq _ _)). }
  assert (Hat : forall i, (drop 2 q).[i] = q.[2 + i]).
  { intros i. unfold byte_at. rewrite !nth_lookup. by rewrite lookup_drop. }
  unfold UncRootLen in Hr. destruct (_ || _); [done|]. rewrite !Hat in Hr.
  fold k in Hr. replace (2 + (seg_len (drop 2 q) + 1))%nat with (k + 1)%nat in Hr by lia.
  destruct (negb _ || _ || _) eqn:Hc; [done|].
  apply orb_false_iff in Hc as [Hc Hc3]. apply orb_false_iff in Hc as [Hc1%negb_false_iff Hc2].
  apply Z.eqb_neq in Hc2. split; [|done]. intros Hz. rewrite Hz in Hc1. done.
Qed.

(** C8: a share path becomes the long UNC form of its root followed by the
    names that are left once "." and ".." are resolved, none of them a dot
    name, so nothing pops the share; a climb out of it is converted again
    under the server when the server can be listed, and stays at the share's
    root otherwise. *)
Theorem share_path_converts again path roots :
  let q := drop 2 path in
  let root8 := take (UncRootLen q) q in
  let root16 := tprecode8to16 (room - 8) root8 in
  let z := room - 8 - Z.of_nat (length root16) in
  let rest := tprecode8to16 z (drop (UncRootLen q) q) in
  names_server path = true -> UncRootLen q <> 0%nat ->
  Z.of_nat (length root16) < room - 8 - 1 -> z < 2 ^ 64 -> Z.of_nat (length rest) < z - 1 ->
  exists names climbed,
    resolve [] (components rest) false = (names, climbed) /\
    Forall (fun c => c <> [46] /\ c <> [46; 46]) names /\
    let trailing := match last rest with Some c => IsSlash c | None => false end in
    let tail := render names ++ (if trailing && bool_decide (names <> []) then [92] else []) in
    let rest8 := tprecode16to8 PATH_MAX tail in
    let full := [47; 47] ++ server_of root8 ++ rest8 in
    convert_path again path roots =
    if climbed && (Z.of_nat (length rest8) <? PATH_MAX - 1) && (Z.of_nat (length full) <? PATH_MAX)
       && bool_decide (is_Some (unc_server_dir (server_of root8)))
    then again full roots
    else Some (Ok (strip_long (unc_prefix ++ backslashes root16 ++ tail)), roots).
Proof.
  intros q root8 root16 z rest Hq Hr Hroot Hz Hrest.
  destruct (resolve [] (components rest) false) as [names climbed] eqn:Hres.
  exists names, climbed. split; [done|]. split.
  { change names with (fst (names, climbed)). rewrite <- Hres. by apply resolve_names. }
  intros trailing tail rest8 full. unfold convert_path. rewrite names_server_root by done.
  assert (Hq' := Hq). unfold names_server in Hq'. rewrite !andb_true_iff, !negb_true_iff in Hq'.
  destruct Hq' as [[[[[H0 H1] H2] H3] H4] H5].
  assert (Hna : forall c, IsSlash c = true -> IsAlpha c = false).
  { intros c. unfold IsSlash, IsAlpha. rewrite orb_true_iff, !Z.eqb_eq. by intros [->| ->]. }
  assert (Hpx : choose_prefix path =
    Ok (Prefix (unc_prefix ++ backslashes root16) (drop (UncRootLen q) q) z (Some root8))).
  { unfold choose_prefix, drive_marker. rewrite H0, H1, (Hna _ H0), (Hna _ H1), H4. simpl.
    rewrite Hq. fold q. rewrite bool_decide_eq_false_2 by done.
    fold root8. fold root16. by rewrite (proj2 (Z.leb_gt _ _)) by lia. }
  rewrite Hpx.
  rewrite bool_decide_eq_false_2 by (by destruct root16). cbn [andb].
  cbn [length]. rewrite Z.sub_0_r. rewrite (Z.mod_small z) by lia. fold rest.
  rewrite (Z.mod_small (z - 1)) by lia. rewrite (proj2 (Z.leb_gt _ _)) by lia.
  rewrite normuncrest_resolves, Hres. cbv zeta. destruct climbed; cbv iota beta;
    rewrite <- app_assoc; reflexivity.
Qed.
End shares.

(** ** The dirfd-relative downgrade *)

Lemma until_nul_app s t : Forall (fun c => c <> 0) s -> until_nul (s ++ 0 :: t) = s.
Proof.
  induction 1 as [|c s Hc _ IH]; [done|]. simpl. by rewrite (proj2 (Z.eqb_neq _ _) Hc), IH.
Qed.

Lemma until_nul_app_nul s t : Forall (fun c => c <> 0) s -> until_nul (s ++ [0] ++ t) = s.
Proof. apply until_nul_app. Qed.

(** What the string in the buffer should become. *)
Definition downgraded (s : list Z) : list Z :=
  if bool_decide (4 < length s)%nat && bool_decide (take 4 s = [92; 92; 63; 92]) then
    if bool_decide (8 < length s)%nat && bool_decide (take 4 (drop 4 s) = [85; 78; 67; 92]) then
      if bool_decide (length s - 6 < 260)%nat then take 2 s ++ drop 8 s else s
    else if bool_decide (length s < 260)%nat then drop 4 s else s
  else s.

Lemma memmove_down_string d k s :
  (d <= k)%nat -> (k <= length s)%nat ->
  exists t, memmove_down d k (length s) (s ++ [0]) = take d s ++ drop k s ++ 0 :: t /\
            length t = (k - d)%nat.
Proof.
  intros Hd Hk. unfold memmove_down. rewrite take_app_le by lia. rewrite drop_app_le by lia.
  rewrite (take_ge (drop k s ++ [0])) by (rewrite length_app, length_drop; simpl; lia).
  eexists. split; [by rewrite <- !app_assoc|].
  rewrite length_drop, length_app. simpl. lia.
Qed.

Lemma downgrade_buffer s :
  Forall (fun c => c <> 0) s ->
  exists t, downgrade (length s) (s ++ [0]) = downgraded s ++ 0 :: t /\
            (length (downgraded s) + length t = length s)%nat.
Proof.
  intros Hs. unfold downgrade, downgraded.
  destruct (decide (4 < length s)%nat) as [H4|H4].
  2:{ rewrite !bool_decide_eq_false_2 by done. exists []. simpl. split; [done|lia]. }
  rewrite bool_decide_eq_true_2 by done. rewrite take_app_le by lia. rewrite drop_app_le by lia.
  destruct (true && bool_decide (take 4 s = [92; 92; 63; 92])); [|exists []; simpl; split; [done|lia]].
  destruct (decide (8 < length s)%nat) as [H8|H8].
  - rewrite (bool_decide_eq_true_2 (8 < _)%nat) by done.
    rewrite (take_app_le (drop 4 s)) by (rewrite length_drop; lia).
    destruct (true && bool_decide (take 4 (drop 4 s) = _)).
    + case_bool_decide; [|exists []; simpl; split; [done|lia]].
      destruct (memmove_down_string 2 8 s ltac:(lia) ltac:(lia)) as (t & -> & Ht).
      exists t. rewrite <- app_assoc. split; [done|]. rewrite length_app, length_take, length_drop. lia.
    + case_bool_decide; [|exists []; simpl; split; [done|lia]].
      destruct (memmove_down_string 0 4 s ltac:(lia) ltac:(lia)) as (t & -> & Ht).
      exists t. split; [done|]. rewrite length_drop. lia.
  - rewrite (bool_decide_eq_false_2 (8 < _)%nat) by done. cbn [andb].
    case_bool_decide; [|exists []; simpl; split; [done|lia]].
    destruct (memmove_down_string 0 4 s ltac:(lia) ltac:(lia)) as (t & -> & Ht).
    exists t. split; [done|]. rewrite length_drop. lia.
Qed.

Lemma downgraded_nonzero s : Forall (fun c => c <> 0) s -> Forall (fun c => c <> 0) (downgraded s).
Proof.
  intros Hs. unfold downgraded. repeat case_match; try done;
    rewrite ?Forall_app; auto using Forall_take, Forall_drop.
Qed.

(** a dirfd-relative path leaves its long form in the buffer exactly when
    the short one fits: drive paths lose the prefix, share paths get their
    two backslashes back. The length that is answered is not shortened, and
    so a trailing backslash is not taken off a shortened path: the NUL that
    should cut it lands behind the string, and the attributes are asked of
    the path with its backslash still on. *)
Theorem downgrade_string s :
  Forall (fun c => c <> 0) s ->
  let file := downgrade (length s) (s ++ [0]) in
  until_nul file = downgraded s /\
  (downgraded s <> s -> until_nul (snd (drop_last_slash (length s) file)) = downgraded s).
Proof.
  intros Hs file. destruct (downgrade_buffer s Hs) as (t & E & Hlen). unfold file. rewrite E.
  pose proof (downgraded_nonzero s Hs) as Hd. split; [by apply until_nul_app|].
  intros Hne. unfold drop_last_slash. destruct (_ && negb _); [|by apply until_nul_app].
  cbn [snd]. assert (Ht : (2 <= length t)%nat).
  { unfold downgraded in *. repeat case_match; try done;
      rewrite ?length_app, ?length_take, ?length_drop in Hlen; rewrite ?bool_decide_eq_true in *.
    all: repeat match goal with H : _ && _ = true |- _ => apply andb_true_iff in H as [? ?] end.
    all: repeat match goal with H : bool_decide _ = true |- _ => apply bool_decide_eq_true in H end.
    all: lia. }
  rewrite insert_app_r_alt by lia.
  destruct (length s - 1 - length (downgraded s))%nat eqn:Hk; [lia|]. simpl.
  by apply until_nul_app.
Qed.

(** ** On concrete paths *)

(** Two inputs on which the upstream normaliser loses a name. *)
Lemma normntpath_wide_dot_name : normntpath [92; 46; 0x4E5C; 120] = [92; 120].
Proof. vm_compute. reflexivity. Qed.

Lemma normntpath_pops_to_dot : normntpath (bytes "x\..\y") = bytes ".\y".
Proof. vm_compute. reflexivity. Qed.

Definition toy_nt : NtEnv := {|
  PATH_MAX := 1024;
  tprecode8to16 z q := q;
  tprecode16to8 z p := p;
  GetTempPath _ := bytes "C:\Temp\";
  drives_cached := 0;
  GetLogicalDrives := 4;
  cosmos_drive := 67;
  procfs_rewrite _ := None;
  unc_rel _ := None;
  unc_server_dir _ := None |}.

Lemma collapsed_share_converts_witness :
  @mkntpath2 toy_nt 2 (Some (bytes "/SRV/Share/a/../b"))
    (unc_note (Some (bytes "//srv/share/z")) []) =
  @mkntpath2 toy_nt 2 (Some (bytes "//SRV/Share/a/../b"))
    (unc_note (Some (bytes "//srv/share/z")) []).
Proof.
  apply (@collapsed_share_converts toy_nt 2 (bytes "srv/share/z") (bytes "SRV/Share/a/../b") []);
    try (vm_compute; reflexivity); try (vm_compute; discriminate).
  - vm_compute. lia.
  - change (UncRootLen (bytes "SRV/Share/a/../b")) with 9%nat. intros i Hi.
    do 9 (destruct i as [|i]; [reflexivity|]). lia.
Defined.

Lemma share_path_converts_witness :
  @convert_path toy_nt (fun _ _ => None) (bytes "//srv/share/a/./b/../c/") [] =
  Some (Ok (bytes "\\srv\share\a\c\"), []).
Proof.
  destruct (@share_path_converts toy_nt (fun _ _ => None) (bytes "//srv/share/a/./b/../c/") [])
    as (names & climbed & Hr & _ & ->); try (vm_compute; reflexivity); try (vm_compute; discriminate).
  vm_compute in Hr. injection Hr as <- <-. vm_compute. reflexivity.
Defined.

Lemma downgrade_string_witness :
  until_nul (downgrade 12 (bytes "\\?\C:\dir\x" ++ [0])) = bytes "C:\dir\x".
Proof.
  assert (Hs : Forall (fun c => c <> 0) (bytes "\\?\C:\dir\x")).
  { apply Forall_forall. intros x Hx. vm_compute in Hx. intros ->.
    repeat (apply elem_of_cons in Hx as [Hx|Hx]; [discriminate|]). by apply elem_of_nil in Hx. }
  destruct (downgrade_string (bytes "\\?\C:\dir\x") Hs) as [H _]. exact H.
Defined.
