(* ===== verification/CmdLine.v ===== *)
(** * shim/mkntcmdline.c, argv as a Windows command line

    The encoder behind every spawn on NT. The Thompson-Pike decoding of
    UTF-8, the UTF-16 encoder, [mungentpath] and the drive test are cosmo's
    or another file's and are parameters. The theorems: what the buffer holds
    however small it is, that quote-free ASCII argument vectors are read back
    by the rules Windows documents for splitting a command line, and that the
    encoding of vectors with a backslash next to a quote cannot be undone. *)
From S2P Require Import Prelude.

Class Encoders := {
  CL_PATH_MAX : Z;
  ThomPikeLen : Z -> nat;
  ThomPikeByte : Z -> Z;
  ThomPikeMerge : Z -> Z -> Z;
  EncodeUtf16 : Z -> Z;
  mungentpath : cstr -> cstr;
  shim_drive_exists : Z -> bool }.

Section cmdline.
Context `{Encoders}.

Definition NeedsQuotes (s : cstr) : bool :=
  bool_decide (s = []) ||
  existsb (fun c => (c =? 34) || (c =? 32) || (c =? 9) || (c =? 11) || (c =? 10)) s.

Definition is_alpha (c : Z) : bool :=
  ((65 <=? c) && (c <=? 90)) || ((97 <=? c) && (c <=? 122)).

Definition LooksLikeCosmoDrivePath (s : cstr) : bool :=
  (s.[0] =? 47) && is_alpha s.[1] && (s.[2] =? 47).

(** The argument as it will be encoded. *)
Definition rewritten (native : bool) (arg : cstr) : cstr :=
  if native && LooksLikeCosmoDrivePath arg && shim_drive_exists arg.[1] &&
     (Z.of_nat (length arg) <? CL_PATH_MAX)
  then mungentpath arg else arg.

(** The continuation bytes of one character: the value, 0 when the string
    ends inside it, and what is left to read. *)
Fixpoint read_tail (n : nat) (x : Z) (s : cstr) : Z * cstr :=
  match n with
  | O => (x, s)
  | S n' =>
      match s with
      | y :: s' => read_tail n' (ThomPikeMerge x y) s'
      | [] => (0, [])
      end
  end.

(** [do APPEND(w); while ((w >>= 16))] on a 32-bit [w]. *)
Definition append_w (w : Z) : list Z :=
  Z.land w 0xFFFF :: (if Z.shiftr w 16 =? 0 then [] else [Z.shiftr w 16]).

(** The characters of one argument, with the backslashes still pending. *)
Fixpoint encode_arg (fuel : nat) (s : cstr) (slashes : nat) : list Z * nat :=
  match fuel with
  | O => ([], slashes)
  | S fuel' =>
      match s with
      | [] => ([], slashes)
      | b :: s' =>
          let '(x, s') := if 192 <=? b then read_tail (ThomPikeLen b - 1) (ThomPikeByte b) s'
                          else (b, s') in
          if x =? 0 then ([], slashes)
          else if x =? 92 then encode_arg fuel' s' (S slashes)
          else if x =? 34 then
            let '(out, k) := encode_arg fuel' s' slashes in (34 :: 34 :: 34 :: out, k)
          else
            let '(out, k) := encode_arg fuel' s' 0 in
            (replicate slashes 92 ++ append_w (EncodeUtf16 x) ++ out, k)
      end
  end.

Definition encode_one (arg : cstr) : list Z :=
  let q := NeedsQuotes arg in
  let '(out, slashes) := encode_arg (S (length arg)) arg 0 in
  (if q then [34] else []) ++ out ++
  replicate (if q then slashes * 2 else slashes)%nat 92 ++
  (if q then [34] else []).

(** Everything APPENDed, in order. *)
Fixpoint encode_argv (native : bool) (first : bool) (argv : list cstr) : list Z :=
  match argv with
  | [] => []
  | a :: argv' =>
      (if first then [] else [32]) ++ encode_one (rewritten native a) ++
      encode_argv native false argv'
  end.

(** APPEND on a buffer of [size] units. *)
Definition append (size : nat) (st : list Z * nat) (c : Z) : list Z * nat :=
  let '(cmdline, k) := st in
  (if bool_decide (k < size)%nat then <[k := c]> cmdline else cmdline, S k).

(** The buffer and the length the call answers. *)
Definition shim_mkntcmdline (native : bool) (argv : list cstr) (cmdline : list Z)
    : list Z * nat :=
  let size := length cmdline in
  let '(cmdline, k) := foldl (append size) (cmdline, 0%nat) (encode_argv native true argv) in
  (if bool_decide (size <> 0%nat) then <[Nat.min k (size - 1) := 0]> cmdline else cmdline, k).

Definition mkntcmdline (argv : list cstr) (cmdline : list Z) : list Z * nat :=
  shim_mkntcmdline true argv cmdline.

(** ** The buffer *)

Lemma foldl_append size l cmdline k :
  length cmdline = size ->
  let '(cmdline', k') := foldl (append size) (cmdline, k) l in
  k' = (k + length l)%nat /\ length cmdline' = size /\
  take size (take k cmdline ++ l) = take (k + length l) (take size cmdline') /\
  drop (k + length l) cmdline' = drop (k + length l) cmdline.
Proof.
  revert cmdline k. induction l as [|c l IH]; intros cmdline k Hlen; simpl.
  { rewrite Nat.add_0_r, app_nil_r. split_and!; try done.
    rewrite !take_take, <- Hlen. by rewrite Nat.min_comm. }
  set (cmdline1 := if bool_decide (k < size)%nat then <[k := c]> cmdline else cmdline).
  assert (Hlen1 : length cmdline1 = size).
  { unfold cmdline1. case_bool_decide; [by rewrite length_insert|done]. }
  specialize (IH cmdline1 (S k) Hlen1). destruct (foldl _ (cmdline1, S k) l) as [out k'].
  destruct IH as (-> & Hlo & Htake & Hdrop).
  replace (k + S (length l))%nat with (S k + length l)%nat by lia.
  split_and!; [done|done| |].
  - rewrite <- Htake. unfold cmdline1. case_bool_decide as Hk.
    + rewrite (take_S_r _ k c) by (apply list_lookup_insert_eq; lia).
      rewrite take_insert_ge by lia. by rewrite <- app_assoc.
    + rewrite !(take_ge cmdline) by lia. rewrite !take_app_le by lia. done.
  - rewrite Hdrop. unfold cmdline1. case_bool_decide; [|done].
    by rewrite drop_insert_lt by lia.
Qed.

(** however small the buffer, the call answers the full length of the
    command line, leaves in the buffer the part that fits, ends it with a
    NUL, and writes nothing past it. *)
Theorem mkntcmdline_truncates native argv cmdline :
  let line := encode_argv native true argv in
  let '(out, k) := shim_mkntcmdline native argv cmdline in
  k = length line /\ length out = length cmdline /\
  (cmdline <> [] ->
     let m := Nat.min k (length cmdline - 1) in
     take m out = take m line /\ out !! m = Some 0 /\
     drop (S k) out = drop (S k) cmdline).
Proof.
  unfold shim_mkntcmdline. set (line := encode_argv native true argv).
  pose proof (foldl_append (length cmdline) line cmdline 0 eq_refl) as Hf. simpl in Hf.
  destruct (foldl _ (cmdline, 0%nat) line) as [out k]. destruct Hf as (-> & Hlen & Htake & Hdrop).
  split; [done|]. split; [case_bool_decide; [by rewrite length_insert|done]|].
  intros Hne. rewrite bool_decide_eq_true_2 by (by destruct cmdline).
  assert (Hpos : (0 < length cmdline)%nat) by (destruct cmdline; [done|simpl; lia]).
  set (m := Nat.min (length line) (length cmdline - 1)). split_and!.
  - rewrite take_insert_ge by lia.
    assert (E : take m (take (length cmdline) line) = take m (take (length line) (take (length cmdline) out)))
      by (by rewrite Htake).
    rewrite !take_take in E. replace (Nat.min m (length cmdline)) with m in E by lia.
    rewrite E. f_equal. lia.
  - apply list_lookup_insert_eq. lia.
  - rewrite drop_insert_lt by lia.
    replace (S (length line)) with (length line + 1)%nat by lia.
    by rewrite <- !drop_drop, Hdrop.
Qed.

(** ** A backslash before a quote is lost *)

(** the encoding cannot be undone: a backslash in front of a quote is
    moved behind it, so two different arguments reach the child as one and
    the same command line, whatever decoder it has. *)
Theorem mkntcmdline_not_injective cmdline :
  mkntcmdline [[92; 34; 98]] cmdline = mkntcmdline [[34; 92; 98]] cmdline.
Proof. reflexivity. Qed.

(** ** How a Windows program reads its command line

    The rules the C run-time documents for splitting a command line (Parsing
    C command-line arguments): arguments are separated by spaces and tabs; a
    quoted stretch is one argument; inside it a pair of quotes is one quote;
    backslashes are literal unless they stand before a quote, where 2n of
    them are n and the quote delimits, and 2n+1 are n and a literal quote. *)
Definition blank (c : Z) : bool := (c =? 32) || (c =? 9).

(** [cur] is the argument at hand, [slashes] the backslashes not yet decided. *)
Fixpoint win_args (l : list Z) (inq : bool) (cur : option (list Z)) (slashes : nat)
    : list (list Z) :=
  match l with
  | [] => match cur with Some a => [a ++ replicate slashes 92] | None => [] end
  | c :: l1 =>
      if c =? 92 then win_args l1 inq (Some (default [] cur)) (S slashes)
      else if c =? 34 then
        let a := default [] cur ++ replicate (slashes / 2) 92 in
        if Nat.odd slashes then win_args l1 inq (Some (a ++ [34])) 0
        else if inq then
          match l1 with
          | c2 :: l2 => if c2 =? 34 then win_args l2 true (Some (a ++ [34])) 0
                        else win_args l1 false (Some a) 0
          | [] => win_args l1 false (Some a) 0
          end
        else win_args l1 true (Some a) 0
      else if negb inq && blank c then
        match cur with
        | Some a => (a ++ replicate slashes 92) :: win_args l1 false None 0
        | None => win_args l1 false None 0
        end
      else win_args l1 inq (Some ((default [] cur ++ replicate slashes 92) ++ [c])) 0
  end.

(** The program's name: quotes group, nothing escapes. *)
Fixpoint win_first (l : list Z) (inq : bool) (cur : list Z) : list (list Z) :=
  match l with
  | [] => [cur]
  | c :: l1 =>
      if c =? 34 then win_first l1 (negb inq) cur
      else if negb inq && blank c then cur :: win_args l1 false None 0
      else win_first l1 inq (cur ++ [c])
  end.

Definition win_argv (l : list Z) : list (list Z) := win_first l false [].

(** ** Quote-free ASCII arguments survive *)

Definition plain (s : cstr) : Prop := Forall (fun c => 0 < c < 128 /\ c <> 34) s.

Section plain.
Hypothesis EncodeUtf16_ascii : forall x, 0 < x < 128 -> EncodeUtf16 x = x.

Lemma one_unit x : 0 < x < 128 -> Z.land (EncodeUtf16 x) 65535 = x /\ (Z.shiftr (EncodeUtf16 x) 16 =? 0) = true.
Proof.
  intros Hx. rewrite EncodeUtf16_ascii by done. split.
  - change 65535 with (Z.ones 16). rewrite Z.land_ones by lia. apply Z.mod_small. lia.
  - apply Z.eqb_eq. rewrite Z.shiftr_div_pow2 by lia. apply Z.div_small. lia.
Qed.

(** What has been appended never ends in a backslash; the pending ones are
    the argument's last. *)
Lemma encode_arg_plain fuel s k :
  plain s -> (length s < fuel)%nat ->
  let '(out, t) := encode_arg fuel s k in
  replicate k 92 ++ s = out ++ replicate t 92 /\ last out <> Some 92.
Proof.
  intros Hs. revert fuel k. induction Hs as [|b s [Hb Hq] Hs IH]; intros [|fuel] k Hf; simpl in *; try lia.
  { by rewrite app_nil_r. }
  rewrite (proj2 (Z.leb_gt _ _)) by lia. rewrite (proj2 (Z.eqb_neq b 0)) by lia.
  destruct (Z.eqb_spec b 92) as [->|Hb92].
  - specialize (IH fuel (S k) ltac:(lia)). destruct (encode_arg fuel s (S k)) as [out t].
    destruct IH as [IH Hl]. split; [|done]. rewrite <- IH, replicate_S_end, <- app_assoc. done.
  - rewrite (proj2 (Z.eqb_neq b 34)) by done. specialize (IH fuel 0%nat ltac:(lia)).
    destruct (encode_arg fuel s 0) as [out t]. destruct IH as [IH Hl]. simpl in IH.
    destruct (one_unit b Hb) as [-> ->]. simpl. split; [by rewrite IH, <- !app_assoc|].
    rewrite last_app. destruct (last out) as [c|] eqn:Ho.
    + rewrite last_cons, Ho. congruence.
    + apply last_None in Ho as ->. simpl. congruence.
Qed.

(** What [encode_one] makes of a plain argument. *)
Lemma encode_one_plain s :
  plain s ->
  exists body t, s = body ++ replicate t 92 /\ last body <> Some 92 /\
    encode_one s = if NeedsQuotes s then 34 :: body ++ replicate (t * 2) 92 ++ [34] else s.
Proof.
  intros Hs. unfold encode_one.
  pose proof (encode_arg_plain (S (length s)) s 0 Hs ltac:(lia)) as He.
  destruct (encode_arg (S (length s)) s 0) as [out t]. destruct He as [He Hl]. simpl in He.
  exists out, t. split_and!; [done|done|]. destruct (NeedsQuotes s); [done|].
  simpl. by rewrite app_nil_r.
Qed.

(** A plain argument and what follows it: nothing, or a space. *)
Definition follows (r : list Z) : Prop := r = [] \/ exists r', r = 32 :: r'.

Lemma plain_no_quote s : plain s -> 34 ∉ s.
Proof. unfold plain. rewrite Forall_forall. intros Hs Hin. by apply Hs in Hin as [_ ?]. Qed.

Lemma NeedsQuotes_false s :
  NeedsQuotes s = false -> s <> [] /\ Forall (fun c => blank c = false) s.
Proof.
  unfold NeedsQuotes. intros Hn. apply orb_false_iff in Hn as [Hne%bool_decide_eq_false Hex].
  split; [done|]. apply Forall_forall. intros c Hc. apply not_true_iff_false in Hex.
  apply not_true_iff_false. intros Hb. apply Hex, existsb_exists. exists c.
  split; [by apply list_elem_of_In|]. unfold blank in Hb.
  apply orb_true_iff in Hb as [->| ->]; by rewrite ?orb_true_r.
Qed.

(** Text without quotes, and without blanks unless quoted, goes into the
    argument at hand, its last backslashes pending. *)
Lemma win_args_text inq l a k :
  34 ∉ l -> (inq = true \/ Forall (fun c => blank c = false) l) ->
  exists a' k', a ++ replicate k 92 ++ l = a' ++ replicate k' 92 /\
    (last l <> Some 92 -> l <> [] -> k' = 0%nat) /\
    forall r, win_args (l ++ r) inq (Some a) k = win_args r inq (Some a') k'.
Proof.
  revert a k. induction l as [|c l IH]; intros a k Hq Hb.
  { exists a, k. by rewrite app_nil_r. }
  assert (Hb' : inq = true \/ Forall (fun c => blank c = false) l).
  { destruct Hb as [|Hb]; [by left|right]. by inversion Hb. }
  assert (Hcb : negb inq && blank c = false).
  { destruct Hb as [->|Hb]; [done|]. inversion Hb as [|? ? Hc]. rewrite Hc. by rewrite andb_false_r. }
  assert (Hc34 : (c =? 34) = false) by (apply Z.eqb_neq; set_solver).
  assert (Hl34 : 34 ∉ l) by set_solver.
  cbn [app win_args]. rewrite Hc34, Hcb. destruct (Z.eqb_spec c 92) as [->|Hc].
  - destruct (IH a (S k) Hl34 Hb') as (a' & k' & He & Hk & Hr). exists a', k'. split_and!.
    + rewrite <- He, replicate_S_end, <- app_assoc. done.
    + intros Hlast _. destruct l as [|x l]; [done|]. apply Hk; [|done]. by rewrite last_cons_cons in Hlast.
    + intros r. simpl. apply Hr.
  - destruct (IH ((a ++ replicate k 92) ++ [c]) 0%nat Hl34 Hb') as (a' & k' & He & Hk & Hr).
    exists a', k'. split_and!.
    + rewrite <- He. simpl. by rewrite <- !app_assoc.
    + intros Hlast _. destruct l as [|x l].
      * specialize (Hr []). rewrite app_nil_r in He. simpl in He.
        destruct k'; [done|]. rewrite replicate_S_end, app_assoc in He.
        apply app_inj_2 in He as [_ [= ->]]; done.
      * apply Hk; [|done]. by rewrite last_cons_cons in Hlast.
    + intros r. simpl. apply Hr.
Qed.

Lemma win_args_slashes n a k r inq :
  win_args (replicate n 92 ++ r) inq (Some a) k = win_args r inq (Some a) (n + k).
Proof.
  revert k. induction n as [|n IH]; intros k; [done|]. cbn [replicate app win_args].
  change (92 =? 92) with true. cbv iota. simpl default. rewrite IH. f_equal. lia.
Qed.

(** Where an argument ends, it is handed out. *)
Lemma win_args_end a k r :
  follows r -> win_args r false (Some a) k = (a ++ replicate k 92) :: win_args r false None 0.
Proof. by intros [->|[r' ->]]. Qed.

Lemma win_args_start c r : blank c = false ->
  win_args (c :: r) false None 0 = win_args (c :: r) false (Some []) 0.
Proof. intros Hc. cbn [win_args]. rewrite Hc. done. Qed.

(** The rules read one encoded argument back. *)
Lemma win_args_one s r :
  plain s -> follows r ->
  win_args (encode_one s ++ r) false None 0 = s :: win_args r false None 0.
Proof.
  intros Hs Hr. destruct (encode_one_plain s Hs) as (body & t & E & L & ->).
  pose proof (plain_no_quote s Hs) as Hq. destruct (NeedsQuotes s) eqn:N.
  - assert (Hbody : exists a, a = body /\ forall r, win_args (body ++ r) true (Some []) 0 = win_args r true (Some a) 0).
    { exists body. split; [done|]. destruct (decide (body = [])) as [->|Hne]; [done|].
      destruct (win_args_text true body [] 0) as (a' & k' & He & Hk & Hrun); [set_solver|by left|].
      rewrite (Hk L Hne) in *. simpl in He. rewrite app_nil_r in He. subst a'. exact Hrun. }
    destruct Hbody as (a & -> & Hbody). simpl app. cbn [win_args].
    change (34 =? 92) with false. change (34 =? 34) with true. cbv iota. simpl.
    rewrite <- !app_assoc. cbn [app]. rewrite Hbody, win_args_slashes, Nat.add_0_r. cbn [win_args].
    change (34 =? 92) with false. change (34 =? 34) with true. cbv iota.
    rewrite Nat.mul_comm, Nat.odd_mul, Nat.odd_2. simpl Nat.odd. cbn [andb]. cbv iota.
    rewrite Nat.mul_comm, Nat.div_mul by done. simpl default. rewrite <- E.
    destruct Hr as [->|[r' ->]]; simpl; by rewrite ?app_nil_r.
  - destruct (NeedsQuotes_false s N) as [Hne Hb]. destruct s as [|c s']; [done|].
    destruct (win_args_text false (c :: s') [] 0) as (a' & k' & He & _ & Hrun); [done|by right|].
    simpl app at 1. rewrite win_args_start by (by inversion Hb).
    change (c :: s' ++ r) with ((c :: s') ++ r). rewrite Hrun, win_args_end by done.
    simpl in He. by rewrite <- He.
Qed.

Lemma encode_argv_follows native argv : follows (encode_argv native false argv).
Proof. destruct argv; simpl; [by left|right; eauto]. Qed.

Lemma win_args_argv native argv :
  Forall plain (map (rewritten native) argv) ->
  win_args (encode_argv native false argv) false None 0 = map (rewritten native) argv.
Proof.
  induction argv as [|x argv IH]; [done|]. simpl. intros Hp. apply Forall_cons in Hp as [Hx Hp].
  change (32 =? 92) with false. change (32 =? 34) with false. cbn [app]. cbn [win_args].
  change (32 =? 92) with false. change (32 =? 34) with false. change (blank 32) with true. cbv iota.
  simpl. rewrite win_args_one by auto using encode_argv_follows. f_equal. by apply IH.
Qed.

Lemma win_first_text inq l a r :
  34 ∉ l -> (inq = true \/ Forall (fun c => blank c = false) l) ->
  win_first (l ++ r) inq a = win_first r inq (a ++ l).
Proof.
  revert a. induction l as [|c l IH]; intros a Hq Hb; [by rewrite app_nil_r|].
  cbn [app win_first]. rewrite (proj2 (Z.eqb_neq c 34)) by set_solver.
  assert (Hcb : negb inq && blank c = false).
  { destruct Hb as [->|Hb]; [done|]. inversion Hb as [|? ? Hc]. rewrite Hc. by rewrite andb_false_r. }
  rewrite Hcb, IH; [by rewrite <- app_assoc|set_solver|].
  destruct Hb as [|Hb]; [by left|right]. by inversion Hb.
Qed.

(** C9: Windows reads the arguments back. A command line made of quote-free
    ASCII arguments is split by the C run-time's documented rules into
    exactly those arguments, each as the path rewrite left it: spaces, empty
    arguments and backslashes anywhere included. The program's own name has
    no escapes in those rules, so it must not both need quotes and end in a
    backslash. Whether the child is native decides only the rewrite. *)
Theorem windows_reads_argv native arg0 argv :
  Forall plain (map (rewritten native) (arg0 :: argv)) ->
  (NeedsQuotes (rewritten native arg0) = true -> last (rewritten native arg0) <> Some 92) ->
  win_argv (encode_argv native true (arg0 :: argv)) = map (rewritten native) (arg0 :: argv).
Proof.
  intros Hp Hlast. simpl in Hp |- *. apply Forall_cons in Hp as [H0 Hp].
  set (s := rewritten native arg0) in *. unfold win_argv.
  pose proof (plain_no_quote s H0) as Hq.
  assert (Hend : forall r, follows r -> win_first r false s = s :: win_args r false None 0).
  { by intros r [->|[r' ->]]. }
  assert (Hone : forall r, follows r -> win_first (encode_one s ++ r) false [] = s :: win_args r false None 0).
  { intros r Hr. destruct (encode_one_plain s H0) as (body & t & E & L & ->).
    destruct (NeedsQuotes s) eqn:N.
    - destruct t as [|t].
      2:{ specialize (Hlast eq_refl). by rewrite E, replicate_S_end, app_assoc, last_snoc in Hlast. }
      simpl replicate in *. rewrite app_nil_r in E. subst body. cbn [app win_first]. simpl.
      rewrite <- app_assoc, win_first_text by auto. cbn. by apply Hend.
    - destruct (NeedsQuotes_false s N) as [_ Hb]. rewrite win_first_text by auto. by apply Hend. }
  rewrite Hone by apply encode_argv_follows. f_equal. by apply win_args_argv.
Qed.
End plain.
End cmdline.

(** ** On concrete arguments *)

Definition toy_encoders : Encoders := {|
  CL_PATH_MAX := 1024;
  ThomPikeLen _ := 2%nat;
  ThomPikeByte x := Z.land x 31;
  ThomPikeMerge x y := Z.lor (Z.shiftl x 6) (Z.land y 63);
  EncodeUtf16 x := x;
  mungentpath s := s;
  shim_drive_exists _ := true |}.

(** A drive path is rewritten for a native child; the last argument's
    backslashes are doubled before its closing quote. *)
Lemma windows_reads_argv_witness :
  @win_argv (@encode_argv toy_encoders true true [bytes "/c/x y"; []; bytes "a\b c\\"; bytes "d\"]) =
  [bytes "/c/x y"; []; bytes "a\b c\\"; bytes "d\"].
Proof.
  apply (@windows_reads_argv toy_encoders (fun x _ => eq_refl) true (bytes "/c/x y") [[]; bytes "a\b c\\"; bytes "d\"]).
  - vm_compute. repeat constructor; discriminate.
  - vm_compute. discriminate.
Defined.
