(* ===== verification/ExeSearch.v ===== *)
(** * shim/commandv.c and shim/suffix.c, finding an executable

    The search of $PATH with the host's executable suffixes, and the retry of
    a name that missed along its symlink chain. The file system is a family
    of functions that does not change during one search; errno is threaded.
    The theorems: the search answers the first candidate that can be run and
    restores errno, or says why none can; the retry answers the first name
    of the chain that exists with a suffix; a spawn is only retried on
    ENOENT. *)
From S2P Require Import Prelude.

(** PATH_MAX, and what access(path, X_OK), stat() and fstatat() say and
    readlinkat() answers. *)
Class FileSystem := {
  S_PATH_MAX : Z;
  fs_access : cstr -> res unit;
  fs_stat_reg : cstr -> res bool;
  fs_fstatat_reg : Z -> cstr -> res bool;
  fs_readlinkat : Z -> cstr -> Z -> res cstr }.

Definition SLASH : Z := 47.
Definition DOT : Z := 46.
Definition COLON : Z := 58.

(** strrchr: the last index of [c], and what it is compared with. *)
Fixpoint strrchr (s : cstr) (c : Z) : option nat :=
  match s with
  | [] => None
  | x :: s' =>
      match strrchr s' c with
      | Some i => Some (S i)
      | None => if x =? c then Some 0%nat else None
      end
  end.

Definition memchr (s : cstr) (c : Z) : bool := existsb (Z.eqb c) s.

(** [strchrnul(a, ':') - a] *)
Fixpoint seglen (a : cstr) : nat :=
  match a with
  | c :: a' => if c =? COLON then 0 else S (seglen a')
  | [] => 0
  end.

Definition kSuffixes : list cstr := [bytes ".exe"; bytes ".com"].

Section search.
Context `{FileSystem}.

(** ** commandv *)

(** errno, whether EACCES has been seen, and the answer. *)
Definition IsExecutableFile (path : cstr) (errno : errno) (seen_eacces : bool)
    : bool * Prelude.errno * bool :=
  match fs_access path with
  | Ok _ =>
      match fs_stat_reg path with
      | Ok true => (true, errno, seen_eacces)
      | Ok false => (false, errno, seen_eacces)
      | Err e => (false, e, seen_eacces)
      end
  | Err e => (false, e, seen_eacces || bool_decide (e = EACCES))
  end.

(** The probes of one directory, in order, until one is executable. *)
Fixpoint probe_all (paths : list cstr) (errno : errno) (seen : bool)
    : option cstr * Prelude.errno * bool :=
  match paths with
  | [] => (None, errno, seen)
  | p :: paths' =>
      let '(ok, errno, seen) := IsExecutableFile p errno seen in
      if ok then (Some p, errno, seen) else probe_all paths' errno seen
  end.

(** The directory's candidate for [name]. *)
Definition joined (dir name : cstr) : cstr :=
  if bool_decide (dir = []) then name else dir ++ SLASH :: name.

Definition dir_paths (suffixable : bool) (pathbufsz : Z) (dir name : cstr) : list cstr :=
  let path := joined dir name in
  path :: (if suffixable && (Z.of_nat (length path) + 4 + 1 <=? pathbufsz)
           then map (app path) kSuffixes else []).

Fixpoint commandv_loop (fuel : nat) (suffixable : bool) (name : cstr) (pathbufsz : Z)
    (a : cstr) (errno : errno) (seen : bool) : option (option cstr * Prelude.errno * bool) :=
  match fuel with
  | O => None
  | S fuel' =>
      let dirlen := seglen a in
      let dir := take dirlen a in
      let more := negb (byte_at a dirlen =? 0) in
      let '(found, errno, seen) :=
        if Z.of_nat dirlen + 1 + Z.of_nat (length name) <? pathbufsz
        then probe_all (dir_paths suffixable pathbufsz dir name) errno seen
        else (None, ENAMETOOLONG, seen) in
      match found with
      | Some p => Some (Some p, errno, seen)
      | None =>
          if more then commandv_loop fuel' suffixable name pathbufsz (drop (dirlen + 1) a) errno seen
          else Some (None, errno, seen)
      end
  end.

Definition has_no_suffix (windows : bool) (name : cstr) : bool :=
  windows &&
  match strrchr name DOT with
  | None => true
  | Some dot =>
      match strrchr name SLASH with
      | Some slash => bool_decide (dot < slash)%nat
      | None => false
      end
  end.

(** [path_env] is getenv("PATH"). The answer, and errno afterwards. *)
Definition commandv (windows : bool) (path_env : option cstr) (_PATH_DEFPATH : cstr)
    (name : cstr) (pathbufsz : Z) (errno0 : errno) : option (option cstr * errno) :=
  if bool_decide (name = []) then Some (None, ENOENT)
  else
    let syspath := if memchr name SLASH then [] else default _PATH_DEFPATH path_env in
    match commandv_loop (S (length syspath)) (has_no_suffix windows name) name pathbufsz
            syspath ENOENT false with
    | Some (Some p, _, _) => Some (Some p, errno0)
    | Some (None, errno, seen) => Some (None, if seen then EACCES else errno)
    | None => None
    end.

(** ** The suffix retry *)

Fixpoint first_regular (dirfd : Z) (paths : list cstr) : option cstr :=
  match paths with
  | [] => None
  | p :: paths' =>
      match fs_fstatat_reg dirfd p with
      | Ok true => Some p
      | _ => first_regular dirfd paths'
      end
  end.

Definition base_name (name : cstr) : cstr :=
  match strrchr name SLASH with Some i => drop (i + 1) name | None => name end.

Definition probe_suffixes (dirfd : Z) (name : cstr) : option cstr :=
  if bool_decide (name = []) || (S_PATH_MAX <? Z.of_nat (length name) + 5) then None
  else if memchr (base_name name) DOT then None
  else first_regular dirfd (map (app name) kSuffixes).

(** One link: the name it leads to, or [None] when the chain ends. *)
Definition next_link (dirfd : Z) (cur : cstr) : option cstr :=
  match fs_readlinkat dirfd cur (S_PATH_MAX - 1) with
  | Err _ => None
  | Ok target =>
      if bool_decide (target = []) then None
      else if byte_at target 0 =? SLASH then Some target
      else
        let dir := match strrchr cur SLASH with Some i => S i | None => 0%nat end in
        if S_PATH_MAX <=? Z.of_nat dir + Z.of_nat (length target) then None
        else Some (take dir cur ++ target)
  end.

Fixpoint fallback_loop (depth : nat) (dirfd : Z) (cur : cstr) : option cstr :=
  match depth with
  | O => None
  | S depth' =>
      match probe_suffixes dirfd cur with
      | Some buf => Some buf
      | None =>
          match next_link dirfd cur with
          | Some cur' => fallback_loop depth' dirfd cur'
          | None => None
          end
      end
  end.

(** errno is saved on entry and restored on every exit. *)
Definition exe_fallback (windows : bool) (dirfd : Z) (path : cstr) : option cstr :=
  if negb windows then None
  else if bool_decide (path = []) || (S_PATH_MAX <=? Z.of_nat (length path)) then None
  else fallback_loop 16 dirfd path.

(** ** exec and posix_spawn

    [exec p] is the host's answer, [None] when the process was replaced; a
    call answers the paths it tried and the errno it came back with, or
    [None] when it did not. *)
Definition F_AT_FDCWD : Z := -100.

Definition shim_execve (windows : bool) (exec : cstr -> option errno) (path : cstr)
    : list cstr * option errno :=
  match exec path with
  | Some ENOENT =>
      match exe_fallback windows F_AT_FDCWD path with
      | Some buf => ([path; buf], exec buf)
      | None => ([path], Some ENOENT)
      end
  | r => ([path], r)
  end.

(** posix_spawn answers the error, 0 ([None]) on success. *)
Definition shim_posix_spawn (windows : bool) (spawn : cstr -> option errno) (path : cstr)
    : list cstr * option errno :=
  match spawn path with
  | Some ENOENT =>
      match exe_fallback windows F_AT_FDCWD path with
      | Some buf => ([path; buf], spawn buf)
      | None => ([path], Some ENOENT)
      end
  | r => ([path], r)
  end.

Definition shim_execv (windows : bool) (exec : cstr -> option errno) (path : cstr) :=
  shim_execve windows exec path.

(** [search] is the host's execvpe, which looks names up itself. *)
Definition shim_execvpe (windows : bool) (search exec : cstr -> option errno) (file : cstr)
    : list cstr * option errno :=
  match search file with
  | Some ENOENT =>
      if memchr file SLASH then
        match exe_fallback windows F_AT_FDCWD file with
        | Some buf => ([file; buf], exec buf)
        | None => ([file], Some ENOENT)
        end
      else ([file], Some ENOENT)
  | r => ([file], r)
  end.

Definition shim_execvp (windows : bool) (search exec : cstr -> option errno) (file : cstr) :=
  shim_execvpe windows search exec file.

Definition shim_posix_spawnp (windows : bool) (search spawn : cstr -> option errno) (file : cstr)
    : list cstr * option errno :=
  match search file with
  | Some ENOENT =>
      if memchr file SLASH then
        match exe_fallback windows F_AT_FDCWD file with
        | Some buf => ([file; buf], spawn buf)
        | None => ([file], Some ENOENT)
        end
      else ([file], Some ENOENT)
  | r => ([file], r)
  end.

(** ** The search answers the first candidate *)

(** $PATH cut at its colons. *)
Fixpoint path_dirs (a cur : cstr) : list cstr :=
  match a with
  | [] => [cur]
  | c :: a' => if c =? COLON then cur :: path_dirs a' [] else path_dirs a' (cur ++ [c])
  end.

Definition fits (pathbufsz : Z) (name dir : cstr) : bool :=
  Z.of_nat (length dir) + 1 + Z.of_nat (length name) <? pathbufsz.

(** Every path the search may try, in order. *)
Definition candidates (suffixable : bool) (pathbufsz : Z) (name syspath : cstr) : list cstr :=
  concat (map (fun dir => if fits pathbufsz name dir
                          then dir_paths suffixable pathbufsz dir name else [])
              (path_dirs syspath [])).

Definition executable (p : cstr) : bool :=
  match fs_access p, fs_stat_reg p with Ok _, Ok true => true | _, _ => false end.

Definition denied (p : cstr) : bool := bool_decide (fs_access p = Err EACCES).

Lemma IsExecutableFile_spec p e seen :
  exists e', IsExecutableFile p e seen =
    (executable p, e', seen || denied p).
Proof.
  unfold IsExecutableFile, executable, denied. destruct (fs_access p) as [[]|a].
  - rewrite bool_decide_eq_false_2 by done. rewrite orb_false_r.
    destruct (fs_stat_reg p) as [[]|]; by eexists.
  - exists a. f_equal. f_equal. apply bool_decide_ext. naive_solver.
Qed.

Lemma probe_all_spec paths e seen :
  let '(found, _, seen') := probe_all paths e seen in
  found = List.find executable paths /\
  (found = None -> seen' = seen || existsb denied paths).
Proof.
  revert e seen. induction paths as [|p paths IH]; intros e seen; simpl.
  { split; [done|]. by rewrite orb_false_r. }
  destruct (IsExecutableFile_spec p e seen) as [e' ->].
  destruct (executable p); [done|]. specialize (IH e' (seen || denied p)).
  destruct (probe_all paths e' (seen || denied p)) as [[found e''] seen'].
  destruct IH as [-> IH]. split; [done|]. intros Hn. by rewrite IH, orb_assoc.
Qed.

Lemma path_dirs_cons a cur :
  path_dirs a cur =
  (cur ++ take (seglen a) a) ::
  (if decide (seglen a < length a)%nat then path_dirs (drop (seglen a + 1) a) [] else []).
Proof.
  revert cur. induction a as [|c a IH]; intros cur; cbn [path_dirs seglen length].
  { by rewrite app_nil_r. }
  destruct (c =? COLON).
  - rewrite app_nil_r, decide_True by lia. simpl. by rewrite drop_0.
  - rewrite IH, <- app_assoc. cbn [take drop app]. f_equal.
    destruct (decide (seglen a < length a)%nat).
    + by rewrite decide_True by lia.
    + by rewrite decide_False by lia.
Qed.

Lemma seglen_le a : (seglen a <= length a)%nat.
Proof. induction a as [|c a IH]; simpl; [lia|]. destruct (c =? COLON); lia. Qed.

Lemma seglen_more a :
  Forall (fun c => c <> 0) a ->
  negb (byte_at a (seglen a) =? 0) = bool_decide (seglen a < length a)%nat.
Proof.
  intros Ha. destruct (decide (seglen a < length a)%nat) as [Hl|Hl].
  - rewrite bool_decide_eq_true_2 by done. destruct (lookup_lt_is_Some_2 a _ Hl) as [c Hc].
    unfold byte_at. rewrite nth_lookup, Hc. simpl.
    pose proof (Forall_lookup_1 _ _ _ _ Ha Hc) as Hz. simpl in Hz.
    by rewrite (proj2 (Z.eqb_neq _ _) Hz).
  - rewrite bool_decide_eq_false_2 by done. unfold byte_at. by rewrite nth_overflow by lia.
Qed.

Lemma find_app' {A} (f : A -> bool) l k :
  List.find f (l ++ k) = match List.find f l with Some x => Some x | None => List.find f k end.
Proof. induction l as [|x l IH]; [done|]. simpl. by destruct (f x). Qed.

Lemma commandv_loop_spec fuel sfx name sz a e seen :
  (length a < fuel)%nat -> Forall (fun c => c <> 0) a ->
  exists found e' seen',
    commandv_loop fuel sfx name sz a e seen = Some (found, e', seen') /\
    found = List.find executable (candidates sfx sz name a) /\
    (found = None -> seen' = seen || existsb denied (candidates sfx sz name a)).
Proof.
  revert a e seen. induction fuel as [|fuel IH]; intros a e seen Hf Ha; [lia|].
  cbn [commandv_loop]. rewrite seglen_more by done.
  unfold candidates. rewrite path_dirs_cons, app_nil_l. cbn [map concat].
  assert (Hlen : length (take (seglen a) a) = seglen a).
  { rewrite length_take. pose proof (seglen_le a). lia. }
  set (dir := take (seglen a) a) in *.
  unfold fits at 1 3. rewrite Hlen. set (fit := _ <? sz).
  set (here := if fit then dir_paths sfx sz dir name else []).
  assert (Hhere : exists e1 seen1,
    (if fit then probe_all (dir_paths sfx sz dir name) e seen else (None, ENAMETOOLONG, seen)) =
    (List.find executable here, e1, seen1) /\
    (List.find executable here = None -> seen1 = seen || existsb denied here)).
  { unfold here. destruct fit.
    - pose proof (probe_all_spec (dir_paths sfx sz dir name) e seen) as Hp.
      destruct (probe_all _ e seen) as [[found e1] seen1]. destruct Hp as [-> Hp]. eauto.
    - exists ENAMETOOLONG, seen. simpl. by rewrite orb_false_r. }
  destruct Hhere as (e1 & seen1 & -> & Hseen). rewrite find_app', existsb_app.
  destruct (List.find executable here) as [p|] eqn:Hfind; [by eexists _, _, _|].
  specialize (Hseen eq_refl). case_bool_decide as Hmore.
  - rewrite decide_True by done.
    destruct (IH (drop (seglen a + 1) a) e1 seen1) as (found & e' & seen' & -> & -> & Hs).
    { rewrite length_drop. lia. }
    { by apply Forall_drop. }
    eexists _, _, _. split_and!; [done|done|]. intros Hn. rewrite (Hs Hn), Hseen. by rewrite orb_assoc.
  - rewrite decide_False by done. simpl. eexists _, _, _. split_and!; [done|done|].
    intros _. by rewrite Hseen, orb_false_r.
Qed.

(** the search answers the first candidate, in $PATH order with the bare
    name before its suffixes, that is an executable regular file, and leaves
    errno as it was; when there is none it fails, with EACCES if any
    candidate was refused. It always comes back. *)
Theorem commandv_finds_first windows path_env defpath name sz e0 :
  name <> [] ->
  let syspath := if memchr name SLASH then [] else default defpath path_env in
  Forall (fun c => c <> 0) syspath ->
  let cands := candidates (has_no_suffix windows name) sz name syspath in
  exists e, commandv windows path_env defpath name sz e0 =
    Some (match List.find executable cands with
          | Some p => (Some p, e0)
          | None => (None, if existsb denied cands then EACCES else e)
          end).
Proof.
  intros Hname syspath Hs cands. unfold commandv. rewrite bool_decide_eq_false_2 by done.
  fold syspath.
  destruct (commandv_loop_spec (S (length syspath)) (has_no_suffix windows name) name sz syspath
              ENOENT false ltac:(lia) Hs) as (found & e & seen & -> & Hfound & Hseen).
  fold cands in Hfound, Hseen. exists e. simpl. rewrite <- Hfound.
  destruct found; [done|]. by rewrite (Hseen eq_refl).
Qed.

(** ** The retry answers the first name of the chain with a suffix *)

(** The names a symlink chain goes through, at most [depth] of them. *)
Fixpoint chain (depth : nat) (dirfd : Z) (cur : cstr) : list cstr :=
  match depth with
  | O => []
  | S depth' =>
      cur :: match next_link dirfd cur with
             | Some cur' => chain depth' dirfd cur'
             | None => []
             end
  end.

(** [buf] is [name] with a suffix, a regular file, and [name] had none. *)
Definition suffixed (dirfd : Z) (name buf : cstr) : Prop :=
  exists sfx, sfx ∈ kSuffixes /\ buf = name ++ sfx /\ fs_fstatat_reg dirfd buf = Ok true /\
    DOT ∉ base_name name.

Lemma first_regular_spec dirfd paths buf :
  first_regular dirfd paths = Some buf -> buf ∈ paths /\ fs_fstatat_reg dirfd buf = Ok true.
Proof.
  induction paths as [|p paths IH]; simpl; [done|].
  destruct (fs_fstatat_reg dirfd p) as [[]|] eqn:Hp; intros Hf; simplify_eq.
  - split; [set_solver|done].
  - destruct (IH Hf). split; [set_solver|done].
  - destruct (IH Hf). split; [set_solver|done].
Qed.

Lemma probe_suffixes_spec dirfd name buf :
  probe_suffixes dirfd name = Some buf -> suffixed dirfd name buf.
Proof.
  unfold probe_suffixes. destruct (_ || _); [done|].
  destruct (memchr (base_name name) DOT) eqn:Hdot; [done|].
  intros [Hin Hreg]%first_regular_spec. change (@map) with (@list_fmap) in Hin.
  apply list_elem_of_fmap in Hin as (sfx & -> & Hs). exists sfx. split_and!; try done.
  unfold memchr in Hdot. rewrite <- existsb_eqb_elem_of. by rewrite Hdot.
Qed.

Lemma fallback_loop_chain depth dirfd cur :
  fallback_loop depth dirfd cur = head (omap (probe_suffixes dirfd) (chain depth dirfd cur)).
Proof.
  revert cur. induction depth as [|depth IH]; intros cur; [done|].
  cbn [fallback_loop chain omap list_omap].
  destruct (probe_suffixes dirfd cur) as [buf|]; [done|].
  destruct (next_link dirfd cur); [by rewrite IH|done].
Qed.

Lemma exe_fallback_found windows dirfd path buf :
  exe_fallback windows dirfd path = Some buf ->
  exists name, name ∈ chain 16 dirfd path /\ suffixed dirfd name buf.
Proof.
  unfold exe_fallback. destruct (negb windows); [done|]. destruct (_ || _); [done|].
  rewrite fallback_loop_chain. intros Hb.
  apply head_Some_elem_of, list_elem_of_omap in Hb as (name & Hin & Hp).
  exists name. split; [done|]. by apply probe_suffixes_spec.
Qed.

(** the retry probes the names of the symlink chain in order, sixteen at
    most, and answers the first of them that exists with a suffix; what it
    answers is always a regular file named by an extensionless name of the
    chain and a suffix. Off Windows it does nothing. *)
Theorem exe_fallback_first dirfd path :
  path <> [] -> Z.of_nat (length path) < S_PATH_MAX ->
  exe_fallback false dirfd path = None /\
  exe_fallback true dirfd path = head (omap (probe_suffixes dirfd) (chain 16 dirfd path)) /\
  (forall buf, exe_fallback true dirfd path = Some buf ->
     exists name, name ∈ chain 16 dirfd path /\ suffixed dirfd name buf).
Proof.
  intros Hne Hlen. split_and!; [done| |intros buf; apply exe_fallback_found].
  unfold exe_fallback. rewrite bool_decide_eq_false_2 by done.
  rewrite (proj2 (Z.leb_gt _ _)) by lia. apply fallback_loop_chain.
Qed.

(** posix_spawn is tried again only when the first try found nothing, and
    once at most, on a regular file that an extensionless name of the chain
    and a suffix name; any other answer is the caller's. *)
Theorem posix_spawn_retries windows spawn path :
  let '(tried, rc) := shim_posix_spawn windows spawn path in
  (tried = [path] /\ rc = spawn path) \/
  (windows = true /\ spawn path = Some ENOENT /\
   exists buf name, tried = [path; buf] /\ rc = spawn buf /\
     name ∈ chain 16 F_AT_FDCWD path /\ suffixed F_AT_FDCWD name buf).
Proof.
  unfold shim_posix_spawn. destruct (spawn path) as [e|] eqn:Hs; [|by left].
  destruct e; try (by left).
  destruct (exe_fallback windows F_AT_FDCWD path) as [buf|] eqn:Hf; [|by left].
  right. apply exe_fallback_found in Hf as Hn. destruct Hn as (name & Hin & Hsfx).
  split; [by destruct windows|]. split; [done|]. by exists buf, name.
Qed.
End search.

(** ** On a concrete file system *)

(** /bin holds git.exe and ls; /opt/git is a link to /bin/git. *)
Definition toy_files : list cstr := [bytes "/bin/git.exe"; bytes "/bin/ls"].

Definition toy_fs : FileSystem := {|
  S_PATH_MAX := 1024;
  fs_access p := if bool_decide (p ∈ toy_files) then Ok tt else Err ENOENT;
  fs_stat_reg p := if bool_decide (p ∈ toy_files) then Ok true else Err ENOENT;
  fs_fstatat_reg _ p := if bool_decide (p ∈ toy_files) then Ok true else Err ENOENT;
  fs_readlinkat _ p _ := if bool_decide (p = bytes "/opt/git") then Ok (bytes "/bin/git")
                         else Err EINVAL |}.

Lemma commandv_finds_first_witness :
  exists e, @commandv toy_fs true (Some (bytes "/opt:/bin")) [] (bytes "git") 1024 EPERM =
    Some (match List.find (@executable toy_fs)
                  (candidates true 1024 (bytes "git") (bytes "/opt:/bin")) with
          | Some p => (Some p, EPERM)
          | None => (None, if existsb (@denied toy_fs)
                               (candidates true 1024 (bytes "git") (bytes "/opt:/bin"))
                           then EACCES else e)
          end).
Proof.
  apply (@commandv_finds_first toy_fs true (Some (bytes "/opt:/bin")) [] (bytes "git") 1024 EPERM).
  - discriminate.
  - vm_compute. repeat constructor; discriminate.
Defined.

Lemma exe_fallback_first_witness :
  @exe_fallback toy_fs true F_AT_FDCWD (bytes "/opt/git") = Some (bytes "/bin/git.exe") /\
  @exe_fallback toy_fs false F_AT_FDCWD (bytes "/opt/git") = None.
Proof.
  split; [vm_compute; reflexivity|].
  apply (@exe_fallback_first toy_fs F_AT_FDCWD (bytes "/opt/git")); [discriminate|by vm_compute].
Defined.
