(* ===== verification/Signal.v ===== *)
(** * shim/signal.c

    Signal numbers, flag words, the handler trampolines behind sigaction with
    their rollback, the mask calls, sigwait and getauxval. The host's calls
    are an interface with the laws POSIX gives them; a handler is its
    address. The theorems: sigaction refines a table of Linux-coded
    dispositions, a delivered signal reaches the user's handler under its
    Linux number, and sigwait leaves every disposition as it was. *)
From S2P Require Import Prelude Host Tables ToyHost Flags Translate.

Definition SHIM_MAXSIG : Z := 65.
Definition SHIM_LIN_SA_SIGINFO : Z := 4.
Definition SHIM_LIN_SA_RESTART : Z := 0x10000000.
Definition SHIM_LIN_SIG_BLOCK : Z := 0.
Definition SHIM_LIN_SIG_UNBLOCK : Z := 1.
Definition SHIM_LIN_SIG_SETMASK : Z := 2.
Definition SHIM_LIN_AT_MINSIGSTKSZ : Z := 51.

(** struct sigaction, the host's, and struct lin_sigaction; of the masks only
    the low word is meaningful. *)
Record haction := HAction { ha_handler : Z; ha_flags : Z; ha_mask : Z }.
Record lin_sigaction := LinAction { la_handler : Z; la_flags : Z; la_mask : Z }.

#[export] Instance haction_eq_dec : EqDecision haction.
Proof. solve_decision. Defined.
#[export] Instance lin_sigaction_eq_dec : EqDecision lin_sigaction.
Proof. solve_decision. Defined.

(** The slot tables [g_h1] and [g_h3], by host signal number; 0 is NULL. *)
Record slots := Slots { g_h1 : list Z; g_h3 : list Z }.

Definition slots_init : slots := Slots (replicate 65 0) (replicate 65 0).

(** Addresses and constants that are the process's, not the shim's. *)
Class SigConsts := {
  tramp1 : Z; tramp3 : Z; SIG_DFL : Z; SIG_IGN : Z; SIG_ERR : Z;
  sigwait_noop : Z; MINSIGSTKSZ : Z }.

Class SigHost (W : Type) := {
  h_sigaction : Z -> option haction -> W -> res haction * W;
  h_sigwait : Z -> W -> res Z * W;
  sig_is_linux : bool }.

Section signal.
Context `{HostConsts} `{SigConsts} {W : Type} `{SigHost W}.

(** ** Numbers and flag words *)

Definition sig_to_host (lin : Z) : Z := default lin (scan_lin SHIM_SIG_TABLE lin).
Definition sig_to_linux (host : Z) : Z := default host (scan_host SHIM_SIG_TABLE host).
Definition signum_to_linux (host : Z) : Z := sig_to_linux host.

Definition sa_flags_to_host (lin : Z) : Z := bits_to_host SHIM_SA_TABLE (u32 lin).
Definition sa_flags_to_linux (host : Z) : Z := s32 (bits_to_linux SHIM_SA_TABLE host).

Definition special_disposition (h : Z) : bool :=
  (h =? SIG_DFL) || (h =? SIG_IGN) || (h =? SIG_ERR).

(** ** Trampolines *)

Definition in_slots (hostsig : Z) : bool := (0 <? hostsig) && (hostsig <? SHIM_MAXSIG).

Definition slot_get (t : list Z) (hostsig : Z) : Z :=
  if in_slots hostsig then byte_at t (Z.to_nat hostsig) else 0.

Definition slot_set (t : list Z) (hostsig v : Z) : list Z := <[Z.to_nat hostsig := v]> t.

(** siginfo_t: the two coded fields. *)
Record siginfo := SigInfo { si_signo : Z; si_errno : Z }.

(** The user's handler and what it is called with, if anything is. *)
Definition tramp1_body (g : slots) (hostsig : Z) : option (Z * Z) :=
  let h := slot_get (g_h1 g) hostsig in
  if h =? 0 then None else Some (h, sig_to_linux hostsig).

Definition tramp3_body (g : slots) (hostsig : Z) (si : option siginfo)
    : option (Z * Z * option siginfo) :=
  let h := slot_get (g_h3 g) hostsig in
  if h =? 0 then None
  else Some (h, sig_to_linux hostsig,
    (fun si => SigInfo (sig_to_linux (si_signo si))
                 (if si_errno si =? 0 then 0 else errno_host_to_linux (si_errno si))) <$> si).

(** ** sigaction *)

(** The slots and the host's view of a handler, before the host is asked. *)
Definition install (g : slots) (hostsig : Z) (a : lin_sigaction) : slots * haction :=
  let h := la_handler a in
  let slot := in_slots hostsig in
  let act handler := HAction handler (sa_flags_to_host (la_flags a)) (la_mask a) in
  if special_disposition h || negb slot then
    (if slot then Slots (slot_set (g_h1 g) hostsig 0) (slot_set (g_h3 g) hostsig 0) else g, act h)
  else if has (u32 (la_flags a)) SHIM_LIN_SA_SIGINFO then
    (Slots (slot_set (g_h1 g) hostsig 0) (slot_set (g_h3 g) hostsig h), act tramp3)
  else
    (Slots (slot_set (g_h1 g) hostsig h) (slot_set (g_h3 g) hostsig 0), act tramp1).

Definition rollback (g : slots) (hostsig prev1 prev3 : Z) : slots :=
  if in_slots hostsig
  then Slots (slot_set (g_h1 g) hostsig prev1) (slot_set (g_h3 g) hostsig prev3) else g.

Definition report_old (old : haction) (prev1 prev3 : Z) : lin_sigaction :=
  let oh := ha_handler old in
  let oh := if oh =? tramp1 then prev1 else if oh =? tramp3 then prev3 else oh in
  LinAction oh (sa_flags_to_linux (ha_flags old)) (ha_mask old).

(** The world is the slots and the host's. *)
Definition shim_sigaction (lin_sig : Z) (lin_act : option lin_sigaction)
    : M (slots * W) (res lin_sigaction) :=
  step (fun '(g, w) =>
    let hostsig := sig_to_host lin_sig in
    let prev1 := slot_get (g_h1 g) hostsig in
    let prev3 := slot_get (g_h3 g) hostsig in
    let '(g', pact) := match lin_act with
                       | Some a => let '(g', act) := install g hostsig a in (g', Some act)
                       | None => (g, None)
                       end in
    let '(r, w') := h_sigaction hostsig pact w in
    match r with
    | Err e => (Err e, (if bool_decide (is_Some pact) then rollback g' hostsig prev1 prev3 else g', w'))
    | Ok old => (Ok (report_old old prev1 prev3), (g', w'))
    end).

Definition shim_signal (sig handler : Z) : M (slots * W) Z :=
  r ← shim_sigaction sig (Some (LinAction handler SHIM_LIN_SA_RESTART 0));
  mret (match r with Err _ => SIG_ERR | Ok old => la_handler old end).

Definition shim_kill {A} (kill : Z -> Z -> A) (pid sig : Z) : A := kill pid (sig_to_host sig).
Definition shim_raise {A} (raise : Z -> A) (sig : Z) : A := raise (sig_to_host sig).

(** ** The slack below an NT thread stack *)

Definition NT_GRANULE : Z := 65536.

(** What a thread asks of the memory manager, in order. *)
Inductive slack_call :=
  | SlackMap (start span : Z)
  | SlackUnmap (addr span : Z).

(** The granule boundary below [bottom] and the bytes up to it, in 64 bits. *)
Definition slack_start (bottom : Z) : Z :=
  Z.ldiff ((bottom - 1) mod 2 ^ 64) (NT_GRANULE - 1).
Definition slack_span (bottom : Z) : Z := (bottom - slack_start bottom) mod 2 ^ 64.

(** [key] is the thread's slack; [described] is the stack's base and its guard
    size when both are known; [mmap] answers the address it took; [malloc]
    is whether the record could be had. *)
Definition nt_stack_slack (key : option (Z * Z)) (described : option (Z * Z))
    (mmap : Z -> Z -> option Z) (malloc : bool) : option (Z * Z) * list slack_call :=
  match key, described with
  | Some _, _ => (key, [])
  | None, None => (None, [])
  | None, Some (stack, guard) =>
      let bottom := (stack - guard) mod 2 ^ 64 in
      let start := slack_start bottom in
      let span := slack_span bottom in
      match mmap start span with
      | None => (None, [SlackMap start span])
      | Some got =>
          if negb (got =? start) then (None, [SlackMap start span; SlackUnmap got span])
          else (if malloc then Some (got, span) else None, [SlackMap start span])
      end
  end.

(** The key's destructor, at thread exit. *)
Definition nt_slack_free (s : Z * Z) : list slack_call := [SlackUnmap (fst s) (snd s)].

(** ** sigaltstack; on NT the slack is claimed on the way in *)

Record stack := Stack { ss_sp : Z; ss_flags : Z; ss_size : Z }.

Definition ss_flags_to_host (lin : Z) : Z := bits_to_host SHIM_SS_TABLE lin.
Definition ss_flags_to_linux (host : Z) : Z := bits_to_linux SHIM_SS_TABLE host.

Definition shim_sigaltstack (windows : bool) (slack : option (Z * Z) -> option (Z * Z) * list slack_call)
    (sigaltstack : option stack -> res stack) (ss : option stack) (key : option (Z * Z))
    : res stack * (option (Z * Z) * list slack_call) :=
  let claimed := if windows then slack key else (key, []) in
  (match sigaltstack ((fun s => Stack (ss_sp s) (ss_flags_to_host (ss_flags s)) (ss_size s)) <$> ss) with
   | Ok hold => Ok (Stack (ss_sp hold) (ss_flags_to_linux (ss_flags hold)) (ss_size hold))
   | Err e => Err e
   end, claimed).

(** ** Masks *)

Definition how_to_host (lin : Z) : res Z :=
  if lin =? SHIM_LIN_SIG_BLOCK then Ok (host_const "SIG_BLOCK")
  else if lin =? SHIM_LIN_SIG_UNBLOCK then Ok (host_const "SIG_UNBLOCK")
  else if lin =? SHIM_LIN_SIG_SETMASK then Ok (host_const "SIG_SETMASK")
  else Err EINVAL.

(** musl's 128-byte set: the tail is written as zeros. *)
Definition write_back_set (host : Z) : list Z := host :: replicate 15 0.

Definition shim_sigprocmask (sigprocmask : Z -> option Z -> res Z) (how : Z) (set : option Z)
    : res (list Z) :=
  match set with
  | None => match sigprocmask (host_const "SIG_SETMASK") None with
            | Ok old => Ok (write_back_set old) | Err e => Err e end
  | Some s =>
      match how_to_host how with
      | Err e => Err e
      | Ok h => match sigprocmask h (Some s) with
                | Ok old => Ok (write_back_set old) | Err e => Err e end
      end
  end.

(** The same, but the error is the answer: [Err] carries what is returned. *)
Definition shim_pthread_sigmask (pthread_sigmask : Z -> option Z -> res Z) (how : Z) (set : option Z)
    : res (list Z) :=
  match set with
  | None => match pthread_sigmask (host_const "SIG_SETMASK") None with
            | Ok old => Ok (write_back_set old) | Err e => Err e end
  | Some s =>
      match how_to_host how with
      | Err _ => Err EINVAL
      | Ok h => match pthread_sigmask h (Some s) with
                | Ok old => Ok (write_back_set old) | Err e => Err e end
      end
  end.

Definition shim_sigaddset {A} (sigaddset : Z -> Z -> A) (set sig : Z) : A :=
  sigaddset set (sig_to_host sig).
Definition shim_sigdelset {A} (sigdelset : Z -> Z -> A) (set sig : Z) : A :=
  sigdelset set (sig_to_host sig).
Definition shim_sigismember {A} (sigismember : Z -> Z -> A) (set sig : Z) : A :=
  sigismember set (sig_to_host sig).

(** ** sigwait *)

Definition sig_member (hset s : Z) : bool := Z.testbit hset (s - 1).

Definition host_sigaction (s : Z) (a : option haction) : M W (res haction) :=
  step (h_sigaction s a).

(** Arms the signals of the set still at SIG_DFL; answers which. *)
Fixpoint arm_defaulted (hset : Z) (ss : list Z) : M W (list Z) :=
  match ss with
  | [] => mret []
  | s :: ss' =>
      if negb (sig_member hset s) then arm_defaulted hset ss'
      else
        r ← host_sigaction s None;
        match r with
        | Err _ => arm_defaulted hset ss'
        | Ok old =>
            if negb (ha_handler old =? SIG_DFL) then arm_defaulted hset ss'
            else
              r ← host_sigaction s (Some (HAction sigwait_noop 0 0));
              match r with
              | Err _ => arm_defaulted hset ss'
              | Ok _ => rest ← arm_defaulted hset ss'; mret (s :: rest)
              end
        end
  end.

Fixpoint restore_defaults (ss : list Z) : M W unit :=
  match ss with
  | [] => mret tt
  | s :: ss' => _ ← host_sigaction s (Some (HAction SIG_DFL 0 0)); restore_defaults ss'
  end.

(** [for (int s = 1; s < 64; s++)] *)
Definition sigwait_range : list Z := map Z.of_nat (seq 1 63).

Definition shim_sigwait (hset : Z) : M W (res Z) :=
  defaulted ← (if sig_is_linux then mret [] else arm_defaulted hset sigwait_range);
  r ← step (h_sigwait hset);
  _ ← restore_defaults defaulted;
  mret (match r with Ok hsig => Ok (sig_to_linux hsig) | Err e => Err e end).

(** ** getauxval and the real-time range *)

(** The rows are tried in turn and the last match wins. *)
Definition auxv_key (lin : Z) : Z :=
  foldl (fun key row => if snd row =? lin then host_const (fst row) else key) lin SHIM_AUXV_TABLE.

Definition shim_getauxval (getauxval : Z -> Z) (lin : Z) : Z :=
  let v := getauxval (auxv_key lin) in
  if (lin =? SHIM_LIN_AT_MINSIGSTKSZ) && (v <? MINSIGSTKSZ) then MINSIGSTKSZ else v.

Definition libc_current_sigrtmin : Z := 35.
Definition libc_current_sigrtmax : Z := 64.
End signal.

(** ** The slack is where NT needs it *)

Lemma clear_low x : 0 <= x -> Z.ldiff x (NT_GRANULE - 1) = 65536 * (x / 65536).
Proof.
  intros Hx. change (NT_GRANULE - 1) with (Z.ones 16).
  rewrite Z.ldiff_ones_r by done. rewrite Z.shiftl_mul_pow2, Z.shiftr_div_pow2 by done.
  change (2 ^ 16) with 65536. apply Z.mul_comm.
Qed.

(** what is reserved below a guard is one span the NT memory manager can
    place: it starts on an allocation granule, runs up to the guard without a
    gap, is never empty and never more than one granule. *)
Theorem slack_region bottom :
  0 < bottom < 2 ^ 64 ->
  slack_start bottom mod NT_GRANULE = 0 /\ 0 <= slack_start bottom /\
  slack_start bottom + slack_span bottom = bottom /\
  0 < slack_span bottom <= NT_GRANULE.
Proof.
  intros Hb. unfold slack_span, slack_start. rewrite (Z.mod_small (bottom - 1)) by lia.
  rewrite clear_low by lia. unfold NT_GRANULE.
  pose proof (Z.div_mod (bottom - 1) 65536 ltac:(done)) as Hdm.
  pose proof (Z.mod_pos_bound (bottom - 1) 65536 ltac:(done)) as Hm.
  pose proof (Z.div_pos (bottom - 1) 65536 ltac:(lia) ltac:(done)) as Hq.
  generalize dependent ((bottom - 1) / 65536). generalize dependent ((bottom - 1) mod 65536).
  intros m Hm q Hq Hdm. rewrite (Z.mod_small (bottom - _)) by lia.
  split_and!; try lia. rewrite Z.mul_comm. by apply Z.mod_mul.
Qed.

(** ** What POSIX says of the host's calls *)

(** sigaction answers the old disposition and installs the new one, or
    changes nothing; whether a signal's disposition can be set is a matter
    of the signal. sigwait changes no disposition. *)
Class SigHostOk (W : Type) `{SigHost W} := {
  disp : W -> Z -> haction;
  sig_settable : Z -> bool;
  sigaction_law s a (w : W) :
    match h_sigaction s a w with
    | (Ok old, w') =>
        old = disp w s /\ (a = None \/ sig_settable s = true) /\
        forall t, disp w' t = if decide (t = s) then default (disp w s) a else disp w t
    | (Err _, w') => (a = None \/ sig_settable s = false) /\ forall t, disp w' t = disp w t
    end;
  sigwait_law set (w : W) t : disp (snd (h_sigwait set w)) t = disp w t }.

Section laws.
Context `{HostConsts} `{SigConsts} {W : Type} `{SH : SigHost W} `{!SigHostOk W}.

(** What the user has installed for a host signal: the disposition with the
    trampolines seen through. *)
Definition user_handler (g : slots) (w : W) (s : Z) : Z :=
  let h := ha_handler (disp w s) in
  if h =? tramp1 then slot_get (g_h1 g) s
  else if h =? tramp3 then slot_get (g_h3 g) s else h.

Definition slots_ok (g : slots) : Prop := length (g_h1 g) = 65%nat /\ length (g_h3 g) = 65%nat.

(** The user's address is none of the shim's own. *)
Definition foreign (h : Z) : Prop := h <> tramp1 /\ h <> tramp3.

Lemma slot_get_set t s s' v :
  length t = 65%nat -> in_slots s' = true ->
  slot_get (slot_set t s' v) s = if decide (s = s') then v else slot_get t s.
Proof.
  intros Hlen Hs'. unfold slot_get, slot_set, in_slots, SHIM_MAXSIG in *.
  rewrite andb_true_iff, !Z.ltb_lt in Hs'. unfold byte_at.
  destruct (decide (s = s')) as [->|Hne].
  - rewrite (proj2 (Z.ltb_lt _ _)), (proj2 (Z.ltb_lt _ _)) by lia. simpl.
    by rewrite nth_lookup, list_lookup_insert_eq by lia.
  - destruct ((0 <? s) && (s <? 65)) eqn:Hs; [|done].
    rewrite andb_true_iff, !Z.ltb_lt in Hs.
    by rewrite !nth_lookup, list_lookup_insert_ne by lia.
Qed.

Lemma slot_set_length t s v : length (slot_set t s v) = length t.
Proof. apply length_insert. Qed.

Lemma user_handler_ext g g' w w' t :
  ha_handler (disp w' t) = ha_handler (disp w t) ->
  slot_get (g_h1 g') t = slot_get (g_h1 g) t -> slot_get (g_h3 g') t = slot_get (g_h3 g) t ->
  user_handler g' w' t = user_handler g w t.
Proof. unfold user_handler. by intros -> -> ->. Qed.

(** What [install] does to the slots and what the host is given. *)
Lemma install_spec g s a g' act :
  slots_ok g -> tramp1 <> tramp3 -> foreign (la_handler a) ->
  install g s a = (g', act) ->
  slots_ok g' /\
  (forall t, t <> s -> slot_get (g_h1 g') t = slot_get (g_h1 g) t /\
                       slot_get (g_h3 g') t = slot_get (g_h3 g) t) /\
  (if ha_handler act =? tramp1 then slot_get (g_h1 g') s
   else if ha_handler act =? tramp3 then slot_get (g_h3 g') s else ha_handler act) = la_handler a.
Proof.
  intros [H1 H3] Hne [Hf1 Hf3]. unfold install, slots_ok. intros Hi.
  destruct (special_disposition (la_handler a) || negb (in_slots s)) eqn:Hc.
  - injection Hi as <- <-. cbn [ha_handler].
    rewrite (proj2 (Z.eqb_neq _ _) Hf1), (proj2 (Z.eqb_neq _ _) Hf3).
    destruct (in_slots s) eqn:Hs; [|done]. cbn [g_h1 g_h3]. rewrite !slot_set_length.
    split_and!; try done. intros t Ht. rewrite !slot_get_set by done. by rewrite !decide_False.
  - apply orb_false_iff in Hc as [_ Hs%negb_false_iff].
    destruct (has _ _); injection Hi as <- <-; cbn [g_h1 g_h3 ha_handler]; rewrite !slot_set_length.
    + rewrite (proj2 (Z.eqb_neq tramp3 tramp1)) by done. rewrite Z.eqb_refl.
      split_and!; try done; [|by rewrite slot_get_set, decide_True].
      intros t Ht. rewrite !slot_get_set by done. by rewrite !decide_False.
    + rewrite Z.eqb_refl.
      split_and!; try done; [|by rewrite slot_get_set, decide_True].
      intros t Ht. rewrite !slot_get_set by done. by rewrite !decide_False.
Qed.

(** C10: sigaction refines a table of the user's own handlers: it reports the
    handler that was installed, not the trampoline, installs exactly the one
    it is given, leaves every other signal alone, and a call the host
    refuses changes nothing at all. *)
Theorem sigaction_refines lin_sig act g (w : W) :
  slots_ok g -> tramp1 <> tramp3 ->
  (forall a, act = Some a -> foreign (la_handler a)) ->
  let s := sig_to_host lin_sig in
  exists r g' w', shim_sigaction lin_sig act (g, w) = Some (r, (g', w')) /\ slots_ok g' /\
    match r with
    | Ok old =>
        la_handler old = user_handler g w s /\
        la_flags old = sa_flags_to_linux (ha_flags (disp w s)) /\ la_mask old = ha_mask (disp w s) /\
        forall t, user_handler g' w' t =
          if decide (t = s) then default (user_handler g w s) (la_handler <$> act)
          else user_handler g w t
    | Err _ => forall t, user_handler g' w' t = user_handler g w t
    end.
Proof.
  intros Hg Hne Hfor s. unfold shim_sigaction, step. fold s.
  destruct act as [a|].
  - destruct (install g s a) as [g' hact] eqn:Hi.
    destruct (install_spec g s a g' hact Hg Hne (Hfor a eq_refl) Hi) as (Hg' & Hother & Hself).
    pose proof (sigaction_law s (Some hact) w) as Hlaw.
    destruct (h_sigaction s (Some hact) w) as [[old|e] w'].
    + destruct Hlaw as (-> & _ & Hd). eexists _, g', w'. split; [done|]. split; [done|].
      split_and!; [done|done|done|]. intros t. destruct (decide (t = s)) as [->|Hts].
      * unfold user_handler at 1. rewrite Hd, decide_True by done. exact Hself.
      * destruct (Hother t Hts). apply user_handler_ext; try done.
        by rewrite Hd, decide_False.
    + destruct Hlaw as [_ Hd]. rewrite bool_decide_eq_true_2 by done.
      eexists _, _, w'. split; [done|].
      assert (Hr : slots_ok (rollback g' s (slot_get (g_h1 g) s) (slot_get (g_h3 g) s)) /\
        forall t, slot_get (g_h1 (rollback g' s (slot_get (g_h1 g) s) (slot_get (g_h3 g) s))) t =
                  slot_get (g_h1 g) t /\
                  slot_get (g_h3 (rollback g' s (slot_get (g_h1 g) s) (slot_get (g_h3 g) s))) t =
                  slot_get (g_h3 g) t).
      { unfold rollback. destruct (in_slots s) eqn:Hs.
        - destruct Hg' as [L1 L3]. split; [split; simpl; by rewrite slot_set_length|].
          intros t. simpl. rewrite !slot_get_set by done.
          destruct (decide (t = s)) as [->|Hts]; [done|by apply Hother].
        - split; [done|]. intros t. destruct (decide (t = s)) as [->|Hts]; [|by apply Hother].
          unfold slot_get. by rewrite Hs. }
      destruct Hr as [Hok Hr]. split; [done|]. intros t. destruct (Hr t).
      apply user_handler_ext; try done. by rewrite Hd.
  - pose proof (sigaction_law s None w) as Hlaw.
    destruct (h_sigaction s None w) as [[old|e] w'].
    + destruct Hlaw as (-> & _ & Hd). eexists _, g, w'. split; [done|]. split; [done|].
      split_and!; [done|done|done|]. intros t. simpl.
      assert (Hdt : disp w' t = disp w t) by (rewrite Hd; by destruct (decide (t = s)) as [->|]).
      destruct (decide (t = s)) as [->|]; apply user_handler_ext; try done; by rewrite Hdt.
    + destruct Hlaw as [_ Hd]. eexists _, g, w'. split; [done|]. split; [done|].
      intros t. apply user_handler_ext; try done. by rewrite Hd.
Qed.

(** What a delivered signal calls: the handler and the number it is given. *)
Definition delivered (g : slots) (w : W) (s : Z) : option (Z * Z) :=
  let h := ha_handler (disp w s) in
  if h =? tramp1 then tramp1_body g s
  else if h =? tramp3 then fst <$> tramp3_body g s None
  else None.

(** a handler that has been installed is the one a delivery calls, with
    the Linux number it was installed under, for SA_SIGINFO and plain
    handlers alike. *)
Theorem delivered_to_handler lin_sig a g (w : W) s old g' w' :
  slots_ok g -> tramp1 <> tramp3 -> foreign (la_handler a) ->
  unambiguous SHIM_SIG_TABLE -> scan_lin SHIM_SIG_TABLE lin_sig = Some s -> in_slots s = true ->
  special_disposition (la_handler a) = false -> la_handler a <> 0 ->
  shim_sigaction lin_sig (Some a) (g, w) = Some (Ok old, (g', w')) ->
  delivered g' w' s = Some (la_handler a, lin_sig).
Proof.
  intros Hg Hne Hf Hun Hlin Hs Hsp Hnz Hrun.
  assert (Hsig : sig_to_host lin_sig = s) by (unfold sig_to_host; by rewrite Hlin).
  assert (Hback : sig_to_linux s = lin_sig).
  { unfold sig_to_linux. by rewrite (scan_roundtrip _ _ _ Hun Hlin). }
  unfold shim_sigaction, step in Hrun. rewrite Hsig in Hrun.
  destruct (install g s a) as [g1 hact] eqn:Hi.
  destruct (install_spec g s a g1 hact Hg Hne Hf Hi) as (_ & _ & Hself).
  pose proof (sigaction_law s (Some hact) w) as Hlaw.
  destruct (h_sigaction s (Some hact) w) as [[o|e] w1]; [|done].
  injection Hrun as _ <- <-. destruct Hlaw as (_ & _ & Hd).
  unfold delivered. rewrite Hd, decide_True by done. simpl.
  assert (Hh : ha_handler hact = tramp1 \/ ha_handler hact = tramp3).
  { unfold install in Hi. rewrite Hsp, Hs in Hi. simpl in Hi.
    destruct (has _ _); injection Hi as _ <-; auto. }
  destruct (Z.eqb_spec (ha_handler hact) tramp1) as [E|E].
  - unfold tramp1_body. rewrite Hself, (proj2 (Z.eqb_neq _ _) Hnz). by rewrite Hback.
  - destruct Hh as [?|Hh]; [done|]. rewrite Hh, Z.eqb_refl in *.
    unfold tramp3_body. rewrite Hself, (proj2 (Z.eqb_neq _ _) Hnz). simpl. by rewrite Hback.
Qed.

(** ** sigwait *)

Definition handlers_same (w w' : W) : Prop :=
  forall t, ha_handler (disp w' t) = ha_handler (disp w t).

(** The armed signals stand at the no-op, the others where they were, and
    only signals that were at SIG_DFL are armed. *)
Definition armed_from (w w' : W) (ss : list Z) : Prop :=
  (forall t, t ∉ ss -> ha_handler (disp w' t) = ha_handler (disp w t)) /\
  (forall t, t ∈ ss -> ha_handler (disp w t) = SIG_DFL /\ sig_settable t = true).

Lemma arm_defaulted_spec hset ss (w : W) :
  NoDup ss ->
  exists armed w', arm_defaulted hset ss w = Some (armed, w') /\ armed_from w w' armed /\
                   armed ⊆ ss.
Proof.
  revert w. induction ss as [|s ss IH]; intros w Hnd.
  { exists [], w. split_and!; [done|split; set_solver|done]. }
  apply NoDup_cons in Hnd as [Hs Hnd]. cbn [arm_defaulted].
  assert (Hskip : forall w1, (forall t, disp w1 t = disp w t) ->
    exists armed w', arm_defaulted hset ss w1 = Some (armed, w') /\ armed_from w w' armed /\
                     armed ⊆ s :: ss).
  { intros w1 Hw1. destruct (IH w1 Hnd) as (armed & w' & Hr & [Ha1 Ha2] & Hsub).
    exists armed, w'. split; [done|]. split; [|set_solver]. split.
    - intros t Ht. by rewrite Ha1, Hw1.
    - intros t Ht. by rewrite <- Hw1; apply Ha2. }
  destruct (negb _); [by apply Hskip|]. unfold host_sigaction. rewrite bind_step.
  pose proof (sigaction_law s None w) as Hlaw1.
  destruct (h_sigaction s None w) as [[old|e] w1]; cbn [fst snd]; [|apply Hskip, Hlaw1].
  destruct Hlaw1 as (-> & _ & Hd1).
  assert (Hw1 : forall t, disp w1 t = disp w t).
  { intros t. rewrite Hd1. by destruct (decide (t = s)) as [->|]. }
  destruct (Z.eqb_spec (ha_handler (disp w s)) SIG_DFL) as [Hdfl|]; cbn [negb]; [|by apply Hskip].
  rewrite bind_step. pose proof (sigaction_law s (Some (HAction sigwait_noop 0 0)) w1) as Hlaw2.
  destruct (h_sigaction s (Some _) w1) as [[old2|e] w2]; cbn [fst snd].
  2:{ destruct Hlaw2 as [_ Hd2]. apply Hskip. intros t. by rewrite Hd2. }
  destruct Hlaw2 as (_ & [?|Hset] & Hd2); [done|].
  destruct (IH w2 Hnd) as (armed & w' & Hr & [Ha1 Ha2] & Hsub).
  rewrite (bind_run _ _ _ _ _ Hr). exists (s :: armed), w'. split; [done|].
  assert (Hw2 : forall t, t <> s -> disp w2 t = disp w t).
  { intros t Ht. rewrite Hd2, decide_False by done. apply Hw1. }
  split; [|set_solver]. split.
  - intros t Ht. rewrite Ha1 by set_solver. rewrite Hw2; [done|set_solver].
  - intros t [->|Ht]%elem_of_cons; [done|]. rewrite <- Hw2 by set_solver. by apply Ha2.
Qed.

Lemma restore_defaults_spec ss w0 (w : W) :
  armed_from w0 w ss ->
  exists w', restore_defaults ss w = Some (tt, w') /\ handlers_same w0 w'.
Proof.
  revert w. induction ss as [|s ss IH]; intros w [Ha1 Ha2].
  { exists w. split; [done|]. intros t. apply Ha1. set_solver. }
  cbn [restore_defaults]. unfold host_sigaction. rewrite bind_step.
  destruct (Ha2 s ltac:(set_solver)) as [Hdfl Hset].
  pose proof (sigaction_law s (Some (HAction SIG_DFL 0 0)) w) as Hlaw.
  destruct (h_sigaction s (Some _) w) as [[old|e] w1]; cbn [fst snd].
  2:{ destruct Hlaw as [[?|Hr] _]; congruence. }
  destruct Hlaw as (_ & _ & Hd). apply IH. split.
  - intros t Ht. rewrite Hd. destruct (decide (t = s)) as [->|Hne]; [by rewrite Hdfl|].
    apply Ha1. set_solver.
  - intros t Ht. apply Ha2. set_solver.
Qed.

(** sigwait leaves every disposition as it found it, whatever it was
    waiting for and whatever the host answered, and hands the signal back
    under its Linux number. *)
Theorem sigwait_restores hset (w : W) :
  exists r w', shim_sigwait hset w = Some (r, w') /\ handlers_same w w' /\
    match r with Ok lin => exists hsig, lin = sig_to_linux hsig | Err _ => True end.
Proof.
  unfold shim_sigwait.
  assert (Harm : exists armed w1,
    (if sig_is_linux then mret [] else arm_defaulted hset sigwait_range) w = Some (armed, w1) /\
    armed_from w w1 armed).
  { destruct sig_is_linux.
    - exists [], w. split; [done|]. split; set_solver.
    - destruct (arm_defaulted_spec hset sigwait_range w) as (armed & w1 & Hr & Ha & _); [|eauto].
      unfold sigwait_range. apply NoDup_fmap_2; [apply _|]. apply NoDup_seq. }
  destruct Harm as (armed & w1 & Hr & Ha). rewrite (bind_run _ _ _ _ _ Hr), bind_step.
  destruct (restore_defaults_spec armed w (snd (h_sigwait hset w1))) as (w2 & Hr2 & Hsame).
  { destruct Ha as [Ha1 Ha2]. split; [|done]. intros t Ht. by rewrite sigwait_law, Ha1. }
  rewrite (bind_run _ _ _ _ _ Hr2). eexists _, w2. split; [done|]. split; [done|].
  destruct (fst (h_sigwait hset w1)); eauto.
Qed.
End laws.

(** ** On a concrete process *)

(** The world is the disposition table itself; SIGKILL and SIGSTOP refuse. *)
Definition toy_sigs : SigConsts := {|
  tramp1 := 1001; tramp3 := 1003; SIG_DFL := 0; SIG_IGN := 1; SIG_ERR := -1;
  sigwait_noop := 1005; MINSIGSTKSZ := 32768 |}.

Definition toy_refuses (s : Z) : bool := (s =? 9) || (s =? 19).

Definition toy_sighost : SigHost (Z -> haction) := {|
  h_sigaction s a w :=
    match a with
    | None => (Ok (w s), w)
    | Some act => if toy_refuses s then (Err EINVAL, w)
                  else (Ok (w s), fun t => if decide (t = s) then act else w t)
    end;
  h_sigwait set w := (Ok 17, w);
  sig_is_linux := false |}.

Definition toy_sigok : @SigHostOk (Z -> haction) toy_sighost.
Proof.
  refine (@Build_SigHostOk _ toy_sighost (fun w => w) (fun s => negb (toy_refuses s)) _ _).
  - intros s [act|] w; simpl; [|split_and!; auto; intros t; destruct (decide (t = s)) as [->|]; done].
    destruct (toy_refuses s); simpl; split_and!; auto.
  - done.
Defined.

Definition toy_disp : Z -> haction := fun _ => HAction 0 0 0.

Lemma sigaction_refines_witness :
  exists r g' w',
    @shim_sigaction linux_consts toy_sigs _ toy_sighost 10 (Some (LinAction 5000 4 0))
      (slots_init, toy_disp) = Some (r, (g', w')) /\ slots_ok g'.
Proof.
  destruct (@sigaction_refines linux_consts toy_sigs _ toy_sighost toy_sigok 10
    (Some (LinAction 5000 4 0)) slots_init toy_disp) as (r & g' & w' & Hr & Hg & _).
  - done.
  - discriminate.
  - intros a Ha. injection Ha as <-. split; discriminate.
  - by exists r, g', w'.
Defined.

Lemma delivered_to_handler_witness :
  exists g' w', @delivered linux_consts toy_sigs _ toy_sighost toy_sigok g' w' 10 = Some (5000, 10).
Proof.
  eexists _, _.
  eapply (@delivered_to_handler linux_consts toy_sigs _ toy_sighost toy_sigok 10
    (LinAction 5000 4 0) slots_init toy_disp 10).
  - done.
  - discriminate.
  - split; discriminate.
  - apply unambiguousb_sound. vm_compute. reflexivity.
  - vm_compute. reflexivity.
  - reflexivity.
  - reflexivity.
  - discriminate.
  - vm_compute. reflexivity.
Defined.

Lemma sigwait_restores_witness :
  exists r w', @shim_sigwait linux_consts toy_sigs _ toy_sighost 0x10000 toy_disp = Some (r, w') /\
    ha_handler (w' 17) = 0.
Proof.
  destruct (@sigwait_restores linux_consts toy_sigs _ toy_sighost toy_sigok 0x10000 toy_disp)
    as (r & w' & Hr & Hs & _).
  exists r, w'. split; [exact Hr|]. exact (Hs 17).
Defined.

Lemma slack_region_witness :
  slack_start 0x7ffe000012000 + slack_span 0x7ffe000012000 = 0x7ffe000012000.
Proof. apply (slack_region 0x7ffe000012000). lia. Defined.
