(* ===== verification/Wait.v ===== *)
(** * shim/wait.c

    The option bits of wait4, the signal number a wait status carries, the
    SIGCHLD raised on NT and the waitid built out of wait4. The status macros
    are the standard library's, in the usual coding. The theorems: options
    are translated or refused as a whole, a status keeps its kind and carries
    the Linux number, and the emulated waitid reports each kind of event. *)
From S2P Require Import Prelude Host Tables ToyHost Flags Translate Signal.

Definition SHIM_LIN_WNOHANG : Z := 1.
Definition SHIM_LIN_WUNTRACED : Z := 2.
Definition SHIM_LIN_WSTOPPED : Z := 2.
Definition SHIM_LIN_WEXITED : Z := 4.
Definition SHIM_LIN_WCONTINUED : Z := 8.
Definition SHIM_LIN_WNOWAIT : Z := 16777216.
Definition SHIM_LIN_P_ALL : Z := 0.
Definition SHIM_LIN_P_PID : Z := 1.
Definition SHIM_LIN_P_PGID : Z := 2.
Definition SHIM_LIN_CLD_EXITED : Z := 1.
Definition SHIM_LIN_CLD_KILLED : Z := 2.
Definition SHIM_LIN_CLD_DUMPED : Z := 3.
Definition SHIM_LIN_CLD_STOPPED : Z := 5.
Definition SHIM_LIN_CLD_CONTINUED : Z := 6.
Definition SHIM_LIN_SIGCHLD : Z := 17.
Definition SHIM_LIN_SIGCONT : Z := 18.

(** ** <sys/wait.h> *)

Definition WTERMSIG (st : Z) : Z := Z.land st 0x7f.
Definition WSTOPSIG (st : Z) : Z := Z.land (Z.shiftr st 8) 0xff.
Definition WIFEXITED (st : Z) : bool := WTERMSIG st =? 0.
Definition WIFSTOPPED (st : Z) : bool := Z.land st 0xff =? 0x7f.
Definition WIFSIGNALED (st : Z) : bool :=
  negb (WTERMSIG st =? 0) && negb (WTERMSIG st =? 0x7f).

Section wait.
Context `{HostConsts}.
Context (windows linux : bool).

Definition wopts_to_host (lin : Z) : res Z :=
  let host := 0 in
  let '(lin, host) :=
    if has lin SHIM_LIN_WNOHANG
    then (Z.ldiff lin SHIM_LIN_WNOHANG, Z.lor host (host_const "WNOHANG")) else (lin, host) in
  let '(lin, host) :=
    if has lin SHIM_LIN_WUNTRACED
    then (Z.ldiff lin SHIM_LIN_WUNTRACED, Z.lor host (host_const "WUNTRACED")) else (lin, host) in
  let '(lin, host) :=
    if has lin SHIM_LIN_WCONTINUED
    then (Z.ldiff lin SHIM_LIN_WCONTINUED,
          if windows then host else Z.lor host (host_const "WCONTINUED")) else (lin, host) in
  if lin =? 0 then Ok host else Err EINVAL.

Definition wstatus_to_linux (st : Z) : Z :=
  if WIFSTOPPED st then Z.lor (Z.shiftl (signum_to_linux (WSTOPSIG st)) 8) 0x7f
  else if WIFSIGNALED st then Z.lor (Z.land st 0x80) (signum_to_linux (WTERMSIG st))
  else st.

(** ** wait4

    [wait4 pid want options] is the host's call: the pid it answers and the
    status it stores, when one is wanted. [handled] is whether a real SIGCHLD
    handler is installed. *)
Record waited := Waited {
  wt_rc : Z;                (* the pid, 0 with WNOHANG *)
  wt_status : option Z;     (* what was stored through [status] *)
  wt_raised : bool }.       (* whether SIGCHLD was raised on the way out *)

Definition shim_wait4 (wait4 : Z -> bool -> Z -> res (Z * Z)) (handled : bool)
    (pid : Z) (want : bool) (lin_options : Z) : res waited :=
  match wopts_to_host lin_options with
  | Err e => Err e
  | Ok host_options =>
      match wait4 pid want host_options with
      | Err e => Err e
      | Ok (rc, stored) =>
          let st := if want then stored else 0 in
          Ok (Waited rc
                (if (0 <? rc) && want then Some (wstatus_to_linux st) else None)
                ((0 <? rc) && windows && (WIFEXITED st || WIFSIGNALED st) && handled))
      end
  end.

Definition shim_waitpid wait4 handled (pid : Z) (want : bool) (lin_options : Z) : res waited :=
  shim_wait4 wait4 handled pid want lin_options.

Definition shim_wait wait4 handled (want : bool) : res waited :=
  shim_wait4 wait4 handled (-1) want 0.

(** ** waitid *)

Record wait_info := WaitInfo {
  wi_signo : Z; wi_code : Z; wi_pid : Z; wi_uid : Z; wi_status : Z }.

#[export] Instance wait_info_eq_dec : EqDecision wait_info.
Proof. solve_decision. Defined.

(** The pid wait4 is asked for; [id] is unsigned. *)
Definition waitid_target (idtype id : Z) : res Z :=
  if idtype =? SHIM_LIN_P_ALL then Ok (-1)
  else if idtype =? SHIM_LIN_P_PID then if s32 id <=? 0 then Err EINVAL else Ok (s32 id)
  else if idtype =? SHIM_LIN_P_PGID then Ok (if id =? 0 then 0 else - s32 id)
  else Err EINVAL.

Definition waitid_known : Z :=
  Z.lor (Z.lor (Z.lor (Z.lor SHIM_LIN_WNOHANG SHIM_LIN_WNOWAIT) SHIM_LIN_WEXITED)
    SHIM_LIN_WSTOPPED) SHIM_LIN_WCONTINUED.

Definition waitid_events : Z :=
  Z.lor (Z.lor SHIM_LIN_WEXITED SHIM_LIN_WSTOPPED) SHIM_LIN_WCONTINUED.

Definition waitid_wopts (lin : Z) : Z :=
  let w := Z.land lin SHIM_LIN_WNOHANG in
  let w := if has lin SHIM_LIN_WSTOPPED then Z.lor w SHIM_LIN_WUNTRACED else w in
  if has lin SHIM_LIN_WCONTINUED then Z.lor w SHIM_LIN_WCONTINUED else w.

(** si_code and si_status out of a Linux-coded status. *)
Definition waitid_event (st : Z) : Z * Z :=
  if Z.land st 0xff =? 0x7f then (SHIM_LIN_CLD_STOPPED, Z.land (Z.shiftr st 8) 0xff)
  else if st =? 0xffff then (SHIM_LIN_CLD_CONTINUED, SHIM_LIN_SIGCONT)
  else if Z.land st 0x7f =? 0 then (SHIM_LIN_CLD_EXITED, Z.land (Z.shiftr st 8) 0xff)
  else (if has st 0x80 then SHIM_LIN_CLD_DUMPED else SHIM_LIN_CLD_KILLED, Z.land st 0x7f).

(** [Some info] is what is stored when a siginfo was asked for. *)
Definition waitid_emulate (wait4 : Z -> bool -> Z -> res (Z * Z)) (handled : bool) (uid : Z)
    (idtype id : Z) (want : bool) (lin : Z) : res (option wait_info) :=
  if has lin (Z.lnot waitid_known) || negb (has lin waitid_events) then Err EINVAL
  else if has lin SHIM_LIN_WNOWAIT then Err EINVAL
  else
    match waitid_target idtype id with
    | Err e => Err e
    | Ok pid =>
        match shim_wait4 wait4 handled pid true (waitid_wopts lin) with
        | Err e => Err e
        | Ok r =>
            if negb want then Ok None
            else if wt_rc r =? 0 then Ok (Some (WaitInfo 0 0 0 0 0))
            else
              let '(code, status) := waitid_event (default 0 (wt_status r)) in
              Ok (Some (WaitInfo SHIM_LIN_SIGCHLD code (wt_rc r) uid status))
        end
    end.

Definition shim_waitid (raw : Z -> Z -> Z -> res (option wait_info))
    (wait4 : Z -> bool -> Z -> res (Z * Z)) (handled : bool) (uid : Z)
    (idtype id : Z) (want : bool) (lin : Z) : res (option wait_info) :=
  if linux then raw idtype id lin
  else waitid_emulate wait4 handled uid idtype id want lin.
End wait.

(** ** Options *)

Definition wopts_known : Z := Z.lor (Z.lor SHIM_LIN_WNOHANG SHIM_LIN_WUNTRACED) SHIM_LIN_WCONTINUED.

Section theorems.
Context `{HostConsts}.

(** the options are translated bit by bit or refused as a whole: any bit
    but the three wait4 knows is EINVAL, and off Linux's coding each known bit
    becomes the host's, WCONTINUED being dropped on NT. *)
Theorem wopts_to_host_exact windows lin :
  0 <= lin ->
  wopts_to_host windows lin =
  if Z.ldiff lin wopts_known =? 0 then
    Ok (Z.lor (Z.lor (if Z.testbit lin 0 then host_const "WNOHANG" else 0)
                     (if Z.testbit lin 1 then host_const "WUNTRACED" else 0))
              (if Z.testbit lin 3 && negb windows then host_const "WCONTINUED" else 0))
  else Err EINVAL.
Proof.
  intros Hlin.
  assert (Hbit : forall x k, 0 <= k -> has x (2 ^ k) = Z.testbit x k).
  { intros x k Hk. unfold has. rewrite land_bit by done.
    pose proof (Z.pow_pos_nonneg 2 k). destruct (Z.testbit x k); [|done].
    by rewrite (proj2 (Z.eqb_neq _ _)) by lia. }
  assert (Hclear : forall x k, 0 <= k -> (if Z.testbit x k then Z.ldiff x (2 ^ k) else x) = Z.ldiff x (2 ^ k)).
  { intros x k Hk. destruct (Z.testbit x k) eqn:Hx; [done|].
    apply Z.bits_inj'. intros i Hi. rewrite Z.ldiff_spec, Z.pow2_bits_eqb by done.
    destruct (Z.eqb_spec k i) as [<-|]; [by rewrite Hx|by rewrite andb_true_r]. }
  unfold wopts_to_host.
  change SHIM_LIN_WNOHANG with (2 ^ 0). change SHIM_LIN_WUNTRACED with (2 ^ 1).
  change SHIM_LIN_WCONTINUED with (2 ^ 3). rewrite (Hbit lin 0) by lia.
  set (l1 := Z.ldiff lin (2 ^ 0)).
  assert (H1 : forall A (f : Z -> Z -> A),
    (let '(l, h) := if Z.testbit lin 0 then (l1, Z.lor 0 (host_const "WNOHANG")) else (lin, 0) in f l h) =
    f l1 (if Z.testbit lin 0 then host_const "WNOHANG" else 0)).
  { intros A f. pose proof (Hclear lin 0 ltac:(lia)) as Hc. fold l1 in Hc.
    destruct (Z.testbit lin 0); [done|]. by rewrite Hc. }
  rewrite H1. clear H1. rewrite (Hbit l1 1) by lia.
  assert (T1 : Z.testbit l1 1 = Z.testbit lin 1).
  { unfold l1. rewrite Z.ldiff_spec. change (Z.testbit (2 ^ 0) 1) with false. by rewrite andb_true_r. }
  set (l2 := Z.ldiff l1 (2 ^ 1)). set (h1 := if Z.testbit lin 0 then _ else 0).
  assert (H2 : forall A (f : Z -> Z -> A),
    (let '(l, h) := if Z.testbit l1 1 then (l2, Z.lor h1 (host_const "WUNTRACED")) else (l1, h1) in f l h) =
    f l2 (Z.lor h1 (if Z.testbit lin 1 then host_const "WUNTRACED" else 0))).
  { intros A f. pose proof (Hclear l1 1 ltac:(lia)) as Hc. fold l2 in Hc. rewrite <- T1.
    destruct (Z.testbit l1 1); [done|]. by rewrite Hc, Z.lor_0_r. }
  rewrite H2. clear H2. rewrite (Hbit l2 3) by lia.
  assert (T3 : Z.testbit l2 3 = Z.testbit lin 3).
  { unfold l2, l1. rewrite !Z.ldiff_spec. change (Z.testbit (2 ^ 0) 3) with false.
    change (Z.testbit (2 ^ 1) 3) with false. by rewrite !andb_true_r. }
  pose proof (Hclear l2 3 ltac:(lia)) as Hc.
  assert (Hall : Z.ldiff l2 (2 ^ 3) = Z.ldiff lin wopts_known).
  { unfold l2, l1, wopts_known.
    change SHIM_LIN_WNOHANG with (2 ^ 0). change SHIM_LIN_WUNTRACED with (2 ^ 1).
    change SHIM_LIN_WCONTINUED with (2 ^ 3). bitwise. }
  rewrite <- Hall, T3 in *. destruct (Z.testbit lin 3); cbn [andb]; [by destruct windows; rewrite ?Z.lor_0_r|].
  by rewrite <- Hc, Z.lor_0_r.
Qed.
End theorems.

(** ** Statuses *)

(** A Linux-coded status, as its parts. *)
Inductive wait_event :=
  | Exited (code : Z)
  | Killed (sig : Z) (core : bool)
  | Stopped (sig : Z)
  | Continued.

Definition encode_event (e : wait_event) : Z :=
  match e with
  | Exited code => Z.shiftl code 8
  | Killed sig core => Z.lor (if core then 0x80 else 0) sig
  | Stopped sig => Z.lor (Z.shiftl sig 8) 0x7f
  | Continued => 0xffff
  end.

Definition event_ok (e : wait_event) : Prop :=
  match e with
  | Exited code => 0 <= code < 256
  | Killed sig _ => 0 < sig < 127
  | Stopped sig => 0 <= sig < 128
  | Continued => True
  end.

(** The event with its signal renumbered; a status of 0xffff is not a stop. *)
Definition renumber (f : Z -> Z) (e : wait_event) : wait_event :=
  match e with
  | Killed sig core => Killed (f sig) core
  | Stopped sig => Stopped (f sig)
  | e => e
  end.

Definition info_of (e : wait_event) : Z * Z :=
  match e with
  | Exited code => (SHIM_LIN_CLD_EXITED, code)
  | Killed sig core => (if core then SHIM_LIN_CLD_DUMPED else SHIM_LIN_CLD_KILLED, sig)
  | Stopped sig => (SHIM_LIN_CLD_STOPPED, sig)
  | Continued => (SHIM_LIN_CLD_CONTINUED, SHIM_LIN_SIGCONT)
  end.

Definition range (a n : nat) : list Z := map Z.of_nat (seq a n).

Lemma range_elem a n x : Z.of_nat a <= x < Z.of_nat (a + n) -> In x (range a n).
Proof.
  intros Hx. unfold range. apply in_map_iff. exists (Z.to_nat x). rewrite in_seq. lia.
Qed.

(** The three ranges are small: each claim about a status is decided on all
    of them. *)
Definition all_events : list wait_event :=
  List.map Exited (range 0 256) ++
  List.flat_map (fun s => [Killed s false; Killed s true]) (range 1 126) ++
  List.map Stopped (range 0 128) ++ [Continued].

Lemma all_events_complete e : event_ok e -> In e all_events.
Proof.
  unfold all_events. rewrite !in_app_iff.
  destruct e as [c|s b|s|]; cbn [event_ok]; intros Hok.
  - left. apply in_map, range_elem. lia.
  - right; left. apply in_flat_map. exists s. split; [apply range_elem; lia|].
    destruct b; [right; left|left]; done.
  - right; right; left. apply in_map, range_elem. lia.
  - right; right; right. by left.
Qed.

Lemma decide_events (f : wait_event -> bool) :
  forallb f all_events = true -> forall e, event_ok e -> f e = true.
Proof. rewrite forallb_forall. intros Hf e He. apply Hf. by apply all_events_complete. Qed.

Lemma waitid_event_encode e : event_ok e -> waitid_event (encode_event e) = info_of e.
Proof.
  intros He. apply (decide_events (fun e => bool_decide (waitid_event (encode_event e) = info_of e))) in He.
  - by apply bool_decide_eq_true in He.
  - vm_compute. reflexivity.
Qed.

Lemma status_parts e :
  event_ok e ->
  match e with
  | Killed sig core => WIFSTOPPED (encode_event e) = false /\ WIFSIGNALED (encode_event e) = true /\
      Z.land (encode_event e) 0x80 = (if core then 0x80 else 0) /\ WTERMSIG (encode_event e) = sig
  | Stopped sig => WIFSTOPPED (encode_event e) = true /\ WSTOPSIG (encode_event e) = sig
  | _ => WIFSTOPPED (encode_event e) = false /\ WIFSIGNALED (encode_event e) = false
  end.
Proof.
  intros He. apply (decide_events (fun e =>
    match e with
    | Killed sig core => negb (WIFSTOPPED (encode_event e)) && WIFSIGNALED (encode_event e) &&
        (Z.land (encode_event e) 0x80 =? (if core then 0x80 else 0)) && (WTERMSIG (encode_event e) =? sig)
    | Stopped sig => WIFSTOPPED (encode_event e) && (WSTOPSIG (encode_event e) =? sig)
    | _ => negb (WIFSTOPPED (encode_event e)) && negb (WIFSIGNALED (encode_event e))
    end)) in He; [|vm_compute; reflexivity].
  destruct e; rewrite !andb_true_iff, ?Z.eqb_eq, ?negb_true_iff in He; naive_solver.
Qed.

Section statuses.
Context `{HostConsts}.

Lemma wstatus_renumbers e :
  event_ok e -> wstatus_to_linux (encode_event e) = encode_event (renumber signum_to_linux e).
Proof.
  intros He. pose proof (status_parts e He) as Hp. unfold wstatus_to_linux.
  destruct e as [c|s b|s|].
  - destruct Hp as [-> ->]. done.
  - destruct Hp as (-> & -> & -> & ->). done.
  - destruct Hp as (-> & ->). done.
  - destruct Hp as [-> ->]. done.
Qed.

(** what a child did reaches the caller as what it did: the wait status
    keeps its kind and carries the signal's Linux number, and the emulated
    waitid reports that same event in si_code and si_status, for every exit
    code, every signal with or without a core, every stop, and a resume. *)
Theorem waitid_reports_event windows wait4 handled uid idtype id lin pid e rc :
  event_ok e -> event_ok (renumber signum_to_linux e) ->
  waitid_target idtype id = Ok pid ->
  has lin (Z.lnot waitid_known) = false -> has lin waitid_events = true ->
  has lin SHIM_LIN_WNOWAIT = false ->
  0 < rc ->
  (exists opts, wopts_to_host windows (waitid_wopts lin) = Ok opts /\
                wait4 pid true opts = Ok (rc, encode_event e)) ->
  (exists raised,
    shim_wait4 windows wait4 handled pid true (waitid_wopts lin) =
    Ok (Waited rc (Some (encode_event (renumber signum_to_linux e))) raised)) /\
  waitid_emulate windows wait4 handled uid idtype id true lin =
  Ok (Some (WaitInfo SHIM_LIN_SIGCHLD (fst (info_of (renumber signum_to_linux e))) rc uid
              (snd (info_of (renumber signum_to_linux e))))).
Proof.
  intros He Hre Htarget Hknown Hev Hnw Hrc (opts & Hopts & Hwait).
  assert (Hw : exists raised, shim_wait4 windows wait4 handled pid true (waitid_wopts lin) =
    Ok (Waited rc (Some (encode_event (renumber signum_to_linux e))) raised)).
  { unfold shim_wait4. rewrite Hopts, Hwait. rewrite (proj2 (Z.ltb_lt _ _) Hrc). cbn [andb].
    rewrite wstatus_renumbers by done. eauto. }
  split; [done|]. destruct Hw as [raised Hw]. unfold waitid_emulate.
  rewrite Hknown, Hev, Hnw. cbn [negb orb]. rewrite Htarget, Hw. cbn [negb wt_rc wt_status default].
  rewrite (proj2 (Z.eqb_neq rc 0)) by lia. rename id into target. unfold id. rewrite waitid_event_encode by done.
  by destruct (info_of _).
Qed.
End statuses.

(** ** On a concrete host *)

Lemma wopts_to_host_exact_witness :
  @wopts_to_host linux_consts true 9 = Ok (Z.lor (Z.lor (@host_const linux_consts "WNOHANG") 0) 0).
Proof.
  etrans; [apply (@wopts_to_host_exact linux_consts true 9); lia|]. reflexivity.
Defined.

Lemma waitid_reports_event_witness :
  @waitid_emulate linux_consts false (fun _ _ _ => Ok (41, 0x8b)) false 1000 SHIM_LIN_P_ALL 0 true 4 =
  Ok (Some (WaitInfo SHIM_LIN_SIGCHLD SHIM_LIN_CLD_DUMPED 41 1000 11)).
Proof.
  refine (proj2 (@waitid_reports_event linux_consts false (fun _ _ _ => Ok (41, 0x8b)) false 1000
    SHIM_LIN_P_ALL 0 4 (-1) (Killed 11 true) 41 _ _ eq_refl eq_refl eq_refl eq_refl eq_refl _)).
  - split; reflexivity.
  - vm_compute. done.
  - exists 0. split; vm_compute; reflexivity.
Defined.
