(* ===== verification/Termios.v ===== *)
(** * shim/termios.c

    The terminal structure between musl's coding and the host's: flag words,
    the enumerated fields inside them (character size, output delays, speed),
    the control characters with their two indexings, the calls of the tc and
    cf families and the terminal requests of ioctl. The host's calls are an
    interface; the write path's mouse bit is the one [Console] keeps.

    The theorems: what a caller sets and the host takes is what it reads back,
    less what the host has no bit for; control characters survive the change of index; the
    mouse bit outlives tcsetattr; FIONBIO changes one flag. *)
From S2P Require Import Prelude Host Tables ToyHost Flags Console.

(** ** The constants of musl *)

Definition SHIM_LIN_CBAUD : Z := 4111.
Definition SHIM_LIN_CBAUDEX : Z := 4096.
Definition SHIM_LIN_CSIZE : Z := 48.
Definition SHIM_LIN_CS6 : Z := 16.
Definition SHIM_LIN_CS7 : Z := 32.
Definition SHIM_LIN_CS8 : Z := 48.
Definition SHIM_LIN_VTIME : Z := 5.
Definition SHIM_LIN_VMIN : Z := 6.
Definition NCCS : Z := 20.

(** The masks [cfmakeraw] clears. *)
Definition raw_iflag : Z := 1 + 2 + 8 + 32 + 64 + 128 + 256 + 1024.
Definition SHIM_LIN_OPOST : Z := 1.
Definition raw_lflag : Z := 8 + 64 + 2 + 1 + 32768.
Definition SHIM_LIN_PARENB : Z := 256.

(** struct termios as the host has it, and the Linux-side layouts: the
    kernel's two differ from musl's in the length of [lt_cc] and in which
    speeds they hold. *)
Record htermios := HTermios {
  ht_iflag : Z; ht_oflag : Z; ht_cflag : Z; ht_lflag : Z;
  ht_cc : list Z; ht_ispeed : Z; ht_ospeed : Z }.

Record lin_termios := LinTermios {
  lt_iflag : Z; lt_oflag : Z; lt_cflag : Z; lt_lflag : Z;
  lt_line : Z; lt_cc : list Z; lt_ispeed : Z; lt_ospeed : Z }.

Section translation.
Context `{HostConsts}.

(** The constants as the code casts them, to 32 unsigned bits. *)
Definition as_uint32 : HostConsts := {|
  host_const n := u32 (host_const n); host_defines := host_defines |}.

Definition hc (n : string) : Z := u32 (host_const n).

(** ** Flag words

    Forward, a name the host lacks is 0 and contributes nothing; backward a
    bit is reported when the host's whole pattern is there. *)
Fixpoint pattern_to_linux (tbl : list (string * Z)) (host : Z) : Z :=
  match tbl with
  | [] => 0
  | (n, l) :: tbl' =>
      Z.lor (if negb (hc n =? 0) && (Z.land host (hc n) =? hc n) then l else 0)
            (pattern_to_linux tbl' host)
  end.

Definition iflag_to_host (lin : Z) : Z := @bits_to_host as_uint32 SHIM_TIFLAG_TABLE lin.
Definition oflag_to_host (lin : Z) : Z := @bits_to_host as_uint32 SHIM_TOFLAG_TABLE lin.
Definition cflag_to_host (lin : Z) : Z := @bits_to_host as_uint32 SHIM_TCFLAG_TABLE lin.
Definition lflag_to_host (lin : Z) : Z := @bits_to_host as_uint32 SHIM_TLFLAG_TABLE lin.
Definition iflag_to_linux (host : Z) : Z := pattern_to_linux SHIM_TIFLAG_TABLE host.
Definition oflag_to_linux (host : Z) : Z := pattern_to_linux SHIM_TOFLAG_TABLE host.
Definition cflag_to_linux (host : Z) : Z := pattern_to_linux SHIM_TCFLAG_TABLE host.
Definition lflag_to_linux (host : Z) : Z := pattern_to_linux SHIM_TLFLAG_TABLE host.

(** ** Output delays: host mask, Linux mask, host name, Linux value *)

Definition DLY_ROWS : list (string * Z * string * Z) :=
  [ ("NLDLY", 256, "NL1", 256);
    ("CRDLY", 1536, "CR1", 512); ("CRDLY", 1536, "CR2", 1024); ("CRDLY", 1536, "CR3", 1536);
    ("TABDLY", 6144, "TAB1", 2048); ("TABDLY", 6144, "TAB2", 4096); ("TABDLY", 6144, "TAB3", 6144);
    ("BSDLY", 8192, "BS1", 8192); ("VTDLY", 16384, "VT1", 16384);
    ("FFDLY", 32768, "FF1", 32768) ]%string.

Definition LIN_ODLY_MASK : Z := 256 + 1536 + 6144 + 8192 + 16384 + 32768.

Fixpoint dly_to_host (rows : list (string * Z * string * Z)) (lin : Z) : Z :=
  match rows with
  | [] => 0
  | (hm, lm, name, v) :: rows' =>
      Z.lor (if negb (hc hm =? 0) && (Z.land lin lm =? v) then hc name else 0)
            (dly_to_host rows' lin)
  end.

Fixpoint dly_to_linux (rows : list (string * Z * string * Z)) (host : Z) : Z :=
  match rows with
  | [] => 0
  | (hm, _, name, v) :: rows' =>
      Z.lor (if negb (hc hm =? 0) && (Z.land host (hc hm) =? hc name) && negb (hc name =? 0)
             then v else 0)
            (dly_to_linux rows' host)
  end.

Definition odly_to_host (lin : Z) : Z := dly_to_host DLY_ROWS lin.
Definition odly_to_linux (host : Z) : Z := dly_to_linux DLY_ROWS host.

(** ** Character size and speed *)

Definition csize_to_host (lin : Z) : Z :=
  let f := Z.land lin SHIM_LIN_CSIZE in
  if f =? SHIM_LIN_CS6 then hc "CS6" else if f =? SHIM_LIN_CS7 then hc "CS7"
  else if f =? SHIM_LIN_CS8 then hc "CS8" else 0.

Definition csize_to_linux (host : Z) : Z :=
  let f := Z.land host (hc "CSIZE") in
  if negb (hc "CS8" =? 0) && (f =? hc "CS8") then SHIM_LIN_CS8
  else if negb (hc "CS7" =? 0) && (f =? hc "CS7") then SHIM_LIN_CS7
  else if negb (hc "CS6" =? 0) && (f =? hc "CS6") then SHIM_LIN_CS6 else 0.

Definition baud_to_host (lincode : Z) : option Z :=
  hc ∘ fst <$> List.find (fun row => lincode =? snd row) SHIM_BAUD_TABLE.

Definition baud_to_linux (hostcode : Z) : option Z :=
  snd <$> List.find (fun row => hostcode =? hc (fst row)) SHIM_BAUD_TABLE.

(** ** Control characters *)

Definition CC_IS_COUNT (l : Z) : bool := (l =? SHIM_LIN_VMIN) || (l =? SHIM_LIN_VTIME).

(** _POSIX_VDISABLE as a byte. *)
Definition vdisable : Z := host_const "_POSIX_VDISABLE" mod 256.

Definition cc_in (n : nat) (row : string * Z) : bool :=
  (snd row <? Z.of_nat n) && (hc (fst row) <? NCCS).

Definition cc_byte_to_host (l b : Z) : Z := if (b =? 0) && negb (CC_IS_COUNT l) then vdisable else b.
Definition cc_byte_to_linux (l b : Z) : Z := if (b =? vdisable) && negb (CC_IS_COUNT l) then 0 else b.

Definition cc_to_host (lin_cc : list Z) (n : nat) (host_cc : list Z) : list Z :=
  foldl (fun cc row =>
    if cc_in n row
    then <[Z.to_nat (hc (fst row)) := cc_byte_to_host (snd row) lin_cc.[Z.to_nat (snd row)]]> cc
    else cc) host_cc SHIM_TCC_TABLE.

Definition cc_to_linux (host_cc lin_cc : list Z) (n : nat) : list Z :=
  foldl (fun cc row =>
    if cc_in n row
    then <[Z.to_nat (snd row) := cc_byte_to_linux (snd row) host_cc.[Z.to_nat (hc (fst row))]]> cc
    else cc) lin_cc SHIM_TCC_TABLE.

(** ** The shared prefix; the host's speed setters are its own *)

Class HostSpeed := {
  h_cfsetospeed : htermios -> Z -> htermios;
  h_cfsetispeed : htermios -> Z -> htermios;
  h_cfgetospeed : htermios -> Z }.

Context `{!HostSpeed}.

Definition prefix_to_host (iflag oflag cflag lflag : Z) (cc : list Z) (n : nat) : htermios :=
  let t := HTermios
    (iflag_to_host iflag)
    (Z.lor (oflag_to_host (Z.ldiff oflag LIN_ODLY_MASK)) (odly_to_host oflag))
    (Z.lor (cflag_to_host (Z.ldiff cflag (Z.lor (Z.lor SHIM_LIN_CSIZE SHIM_LIN_CBAUD) SHIM_LIN_CBAUDEX)))
           (csize_to_host cflag))
    (lflag_to_host lflag)
    (cc_to_host cc n (replicate (Z.to_nat NCCS) 0)) 0 0 in
  match baud_to_host (Z.land cflag SHIM_LIN_CBAUD) with
  | Some sp => h_cfsetispeed (h_cfsetospeed t sp) sp
  | None => t
  end.

(** The structure the caller finds: its length is that of [cc]. *)
Definition prefix_to_linux (t : htermios) (n : nat) : lin_termios :=
  let cflag := Z.lor (cflag_to_linux (Z.ldiff (ht_cflag t) (hc "CSIZE"))) (csize_to_linux (ht_cflag t)) in
  LinTermios
    (iflag_to_linux (ht_iflag t))
    (Z.lor (oflag_to_linux (ht_oflag t)) (odly_to_linux (ht_oflag t)))
    (match baud_to_linux (h_cfgetospeed t) with Some bo => Z.lor cflag bo | None => cflag end)
    (lflag_to_linux (ht_lflag t)) 0
    (cc_to_linux (ht_cc t) (replicate n 0) n) 0 0.

(** ** The cf family works on musl's structure alone *)

Definition shim_cfgetospeed (lt : lin_termios) : Z := Z.land (lt_cflag lt) SHIM_LIN_CBAUD.
Definition shim_cfgetispeed (lt : lin_termios) : Z := Z.land (lt_cflag lt) SHIM_LIN_CBAUD.

Definition shim_cfsetospeed (lt : lin_termios) (sp : Z) : res lin_termios :=
  if negb (Z.ldiff sp SHIM_LIN_CBAUD =? 0) then Err EINVAL
  else Ok (LinTermios (lt_iflag lt) (lt_oflag lt)
             (Z.lor (Z.ldiff (lt_cflag lt) SHIM_LIN_CBAUD) sp)
             (lt_lflag lt) (lt_line lt) (lt_cc lt) (lt_ispeed lt) (lt_ospeed lt)).

Definition shim_cfsetispeed (lt : lin_termios) (sp : Z) : res lin_termios :=
  if sp =? 0 then Ok lt else shim_cfsetospeed lt sp.

Definition shim_cfmakeraw (lt : lin_termios) : lin_termios :=
  LinTermios (Z.ldiff (lt_iflag lt) raw_iflag) (Z.ldiff (lt_oflag lt) SHIM_LIN_OPOST)
    (Z.lor (Z.ldiff (lt_cflag lt) (Z.lor SHIM_LIN_CSIZE SHIM_LIN_PARENB)) SHIM_LIN_CS8)
    (Z.ldiff (lt_lflag lt) raw_lflag) (lt_line lt)
    (<[Z.to_nat SHIM_LIN_VTIME := 0]> (<[Z.to_nat SHIM_LIN_VMIN := 1]> (lt_cc lt)))
    (lt_ispeed lt) (lt_ospeed lt).
End translation.

(** ** The calls

    The world is the shim's console state and the host's. *)
Class TtyHost (W : Type) := {
  h_tcgetattr : Z -> W -> res htermios * W;
  h_tcsetattr : Z -> Z -> htermios -> W -> res unit * W;
  or_xtmouse : W -> W;                    (* __ttyconf.magic |= kTtyXtMouse *)
  h_tcflush : Z -> Z -> W -> res unit * W;
  h_tcflow : Z -> Z -> W -> res unit * W;
  h_ioctl : Z -> Z -> W -> res Z * W;     (* the argument stays the caller's *)
  h_getfl : Z -> W -> res Z * W;
  h_setfl : Z -> Z -> W -> res Z * W;
  h_tcgetpgrp : Z -> W -> res Z * W;
  h_tcsetpgrp : Z -> Z -> W -> res Z * W;
  h_tcgetsid : Z -> W -> res Z * W }.

Definition TCSANOW : Z := 0.
Definition TCSADRAIN : Z := 1.
Definition TCSAFLUSH : Z := 2.

Definition SHIM_LIN_TCGETS : Z := 21505.
Definition SHIM_LIN_TCGETS2 : Z := -2144578518.
Definition SHIM_LIN_TCSETS : Z := 21506.
Definition SHIM_LIN_TCSETSW : Z := 21507.
Definition SHIM_LIN_TCSETSF : Z := 21508.
Definition SHIM_LIN_TCSETS2 : Z := 1076646955.
Definition SHIM_LIN_TCSETSW2 : Z := 1076646956.
Definition SHIM_LIN_TCSETSF2 : Z := 1076646957.
Definition SHIM_LIN_TIOCGWINSZ : Z := 21523.
Definition SHIM_LIN_TIOCSWINSZ : Z := 21524.
Definition SHIM_LIN_FIONREAD : Z := 21531.
Definition SHIM_LIN_FIONBIO : Z := 21537.
Definition SHIM_LIN_TIOCSCTTY : Z := 21518.
Definition SHIM_LIN_TIOCNOTTY : Z := 21538.
Definition SHIM_LIN_TIOCGPGRP : Z := 21519.
Definition SHIM_LIN_TIOCSPGRP : Z := 21520.
Definition SHIM_LIN_TIOCGSID : Z := 21545.

Definition ENOTTY : errno := EHOST 25.

(** What an ioctl's argument points at; the host's own requests are opaque. *)
Inductive ioarg :=
  | ATermios (k : lin_termios)
  | AInt (v : Z)
  | AOpaque.

Section calls.
Context `{HostConsts} `{!HostSpeed} {W : Type} `{!ConsoleHost W} `{!TtyHost W}.

(** tcsetattr_keep_mouse *)
Definition tcsetattr_keep_mouse (fd act : Z) (t : htermios) : M (console * W) (res unit) :=
  step (fun '(c, w) =>
    let mouse := tty_xtmouse w in
    let '(rc, w) := h_tcsetattr fd act t w in
    let w := if mouse then or_xtmouse w else w in
    match rc with
    | Ok _ => (rc, console_sync c w)
    | Err _ => (rc, (c, w))
    end).

(** The host's part of the world. *)
Definition on_host {A} (f : W -> A * W) : M (console * W) A :=
  step (fun '(c, w) => let '(a, w) := f w in (a, (c, w))).

Definition get_with (fd : Z) (n : nat) : M (console * W) (res lin_termios) :=
  r ← on_host (h_tcgetattr fd);
  mret (match r with Ok t => Ok (prefix_to_linux t n) | Err e => Err e end).

Definition set_with (fd act : Z) (lt : lin_termios) (n : nat) : M (console * W) (res unit) :=
  tcsetattr_keep_mouse fd act
    (prefix_to_host (lt_iflag lt) (lt_oflag lt) (lt_cflag lt) (lt_lflag lt) (lt_cc lt) n).

Definition shim_tcgetattr (fd : Z) : M (console * W) (res lin_termios) := get_with fd 32.
Definition shim_tcsetattr (fd act : Z) (lt : lin_termios) : M (console * W) (res unit) :=
  set_with fd act lt 32.

(** Both kernel layouts hold nineteen characters and zero speeds. *)
Definition tio_get (fd : Z) (two : bool) : M (console * W) (res lin_termios) := get_with fd 19.
Definition tio_set (fd : Z) (k : lin_termios) (two : bool) (act : Z) : M (console * W) (res unit) :=
  set_with fd act k 19.

(** The first row with the caller's number names the host's. *)
Definition by_row {A} (tbl : list (string * Z)) (lin : Z) (call : Z -> W -> res A * W)
    : M (console * W) (res A) :=
  match List.find (fun row => lin =? snd row) tbl with
  | Some row => on_host (call (host_const (fst row)))
  | None => mret (Err EINVAL)
  end.

Definition shim_tcflush (fd qs : Z) := by_row SHIM_TCFLUSH_TABLE qs (h_tcflush fd).
Definition shim_tcflow (fd action : Z) := by_row SHIM_TCFLOW_TABLE action (h_tcflow fd).

Definition fionbio (fd v : Z) : M (console * W) (res Z) :=
  flags ← on_host (h_getfl fd);
  match flags with
  | Err e => mret (Err e)
  | Ok flags =>
      let O_NONBLOCK := host_const "O_NONBLOCK" in
      let want := if negb (v =? 0) then Z.lor flags O_NONBLOCK else Z.ldiff flags O_NONBLOCK in
      if want =? flags then mret (Ok 0) else on_host (h_setfl fd want)
  end.

(** An ioctl's answer and what its argument holds afterwards. A request the
    host has no code for is refused like an unknown one; an argument of the
    wrong type is the caller's error, and has no other answer than EFAULT. *)
Definition forwarded (fd : Z) (name : string) (arg : ioarg) : M (console * W) (res Z * ioarg) :=
  r ← on_host (h_ioctl fd (host_const name)); mret (r, arg).

Definition answered {A} (r : res A) (arg : ioarg) : res Z * ioarg :=
  (match r with Ok _ => Ok 0 | Err e => Err e end, arg).

Definition get_request (fd : Z) (two : bool) (arg : ioarg) : M (console * W) (res Z * ioarg) :=
  r ← tio_get fd two;
  mret (match r with Ok k => (Ok 0, ATermios k) | Err e => (Err e, arg) end).

Definition set_request (fd : Z) (two : bool) (act : Z) (arg : ioarg) : M (console * W) (res Z * ioarg) :=
  match arg with
  | ATermios k => r ← tio_set fd k two act; mret (answered r arg)
  | _ => mret (Err EFAULT, arg)
  end.

Definition id_request (call : W -> res Z * W) (arg : ioarg) : M (console * W) (res Z * ioarg) :=
  r ← on_host call;
  mret (match r with Ok p => (Ok 0, AInt p) | Err e => (Err e, arg) end).

Definition with_int (arg : ioarg) (f : Z -> M (console * W) (res Z)) : M (console * W) (res Z * ioarg) :=
  match arg with
  | AInt v => r ← f v; mret (r, arg)
  | _ => mret (Err EFAULT, arg)
  end.

Definition has_code (name : string) : bool := negb (host_const name =? 0).

Definition shim_ioctl (fd req : Z) (arg : ioarg) : M (console * W) (res Z * ioarg) :=
  if req =? SHIM_LIN_TCGETS then get_request fd false arg
  else if req =? SHIM_LIN_TCGETS2 then get_request fd true arg
  else if req =? SHIM_LIN_TCSETS then set_request fd false TCSANOW arg
  else if req =? SHIM_LIN_TCSETSW then set_request fd false TCSADRAIN arg
  else if req =? SHIM_LIN_TCSETSF then set_request fd false TCSAFLUSH arg
  else if req =? SHIM_LIN_TCSETS2 then set_request fd true TCSANOW arg
  else if req =? SHIM_LIN_TCSETSW2 then set_request fd true TCSADRAIN arg
  else if req =? SHIM_LIN_TCSETSF2 then set_request fd true TCSAFLUSH arg
  else if (req =? SHIM_LIN_TIOCGWINSZ) && has_code "TIOCGWINSZ" then forwarded fd "TIOCGWINSZ" arg
  else if (req =? SHIM_LIN_TIOCSWINSZ) && has_code "TIOCSWINSZ" then forwarded fd "TIOCSWINSZ" arg
  else if (req =? SHIM_LIN_FIONREAD) && has_code "FIONREAD" then forwarded fd "FIONREAD" arg
  else if req =? SHIM_LIN_FIONBIO then with_int arg (fionbio fd)
  else if (req =? SHIM_LIN_TIOCSCTTY) && has_code "TIOCSCTTY" then forwarded fd "TIOCSCTTY" arg
  else if (req =? SHIM_LIN_TIOCNOTTY) && has_code "TIOCNOTTY" then forwarded fd "TIOCNOTTY" arg
  else if req =? SHIM_LIN_TIOCGPGRP then id_request (h_tcgetpgrp fd) arg
  else if req =? SHIM_LIN_TIOCSPGRP then with_int arg (fun p => on_host (h_tcsetpgrp fd p))
  else if req =? SHIM_LIN_TIOCGSID then id_request (h_tcgetsid fd) arg
  else mret (Err ENOTTY, arg).
End calls.

(** ** What the host's constants have to satisfy

    Decided on the finite tables: within a group of flags no two names share
    a bit, and the enumerated fields lie apart from the flags around them. *)
Section constants.
Context `{HostConsts}.

Definition apart (x y : Z) : bool := Z.land x y =? 0.
Definition inside (x m : Z) : bool := Z.ldiff x m =? 0.

Definition rows_apart (tbl : list (string * Z)) : bool :=
  forallb (fun a => forallb (fun b => (snd a =? snd b) || apart (hc (fst a)) (hc (fst b))) tbl) tbl.

(** The rows of the control flags that are single bits. *)
Definition CBIT_ROWS : list (string * Z) := drop 4 SHIM_TCFLAG_TABLE.

Definition dly_apart (a b : string * Z * string * Z) : bool :=
  let '(hm, lm, na, va) := a in
  let '(hm', lm', nb, vb) := b in
  if lm =? lm'
  then (hc hm =? hc hm') &&
       (if va =? vb then hc na =? hc nb else (hc na =? 0) || negb (hc na =? hc nb))
  else apart (hc hm) (hc hm').

Definition dly_ok : bool :=
  forallb (fun a => let '(hm, _, na, _) := a in inside (hc na) (hc hm)) DLY_ROWS &&
  forallb (fun a => forallb (dly_apart a) DLY_ROWS) DLY_ROWS.

Definition outside (tbl : list (string * Z)) (m : Z) : bool :=
  forallb (fun a => apart (hc (fst a)) m) tbl.

Definition csize_ok : bool :=
  forallb (fun n => inside (hc n) (hc "CSIZE")) ["CS6"; "CS7"; "CS8"]%string &&
  forallb (fun a => forallb (fun b => String.eqb a b || (hc a =? 0) || negb (hc a =? hc b))
    ["CS6"; "CS7"; "CS8"]%string) ["CS6"; "CS7"; "CS8"]%string.

Definition baud_ok : bool :=
  forallb (fun a => forallb (fun b => (snd a =? snd b) || negb (hc (fst a) =? hc (fst b)))
    SHIM_BAUD_TABLE) SHIM_BAUD_TABLE.

Definition cc_ok : bool :=
  forallb (fun a => forallb (fun b => (snd a =? snd b) || negb (hc (fst a) <? NCCS) ||
    negb (hc (fst a) =? hc (fst b))) SHIM_TCC_TABLE) SHIM_TCC_TABLE.

(** [baud_field] is where the host keeps a speed in c_cflag, if it does. *)
Definition tty_consts_ok (baud_field : Z) : bool :=
  rows_apart SHIM_TIFLAG_TABLE && rows_apart SHIM_TOFLAG_TABLE && rows_apart CBIT_ROWS &&
  rows_apart SHIM_TLFLAG_TABLE && dly_ok && csize_ok && baud_ok && cc_ok &&
  forallb (fun a => let '(hm, _, _, _) := a in outside SHIM_TOFLAG_TABLE (hc hm)) DLY_ROWS &&
  outside CBIT_ROWS (hc "CSIZE") && outside CBIT_ROWS baud_field && apart (hc "CSIZE") baud_field.

(** The Linux bits of a table the host has a name for. *)
Definition supported (tbl : list (string * Z)) : Z :=
  foldr (fun row m => Z.lor (if hc (fst row) =? 0 then 0 else snd row) m) 0 tbl.

(** ** Flag words come back *)

Lemma bits_to_host_testbit (C : HostConsts) tbl x i :
  Z.testbit (@bits_to_host C tbl x) i =
  existsb (fun row => has x (snd row) && Z.testbit (@host_const C (fst row)) i) tbl.
Proof.
  induction tbl as [|[n l] tbl IH]; cbn -[Z.testbit]; [by rewrite Z.bits_0|].
  rewrite Z.lor_spec, IH. by destruct (has x l); cbn [andb]; rewrite ?Z.bits_0.
Qed.

Lemma apart_bit x y i : apart x y = true -> Z.testbit x i = true -> Z.testbit y i = true -> False.
Proof.
  unfold apart. rewrite Z.eqb_eq. intros H0 Hx Hy.
  assert (Hb : Z.testbit (Z.land x y) i = true) by (by rewrite Z.land_spec, Hx, Hy).
  by rewrite H0, Z.bits_0 in Hb.
Qed.

Lemma inside_bit x m i : 0 <= i -> inside x m = true -> Z.testbit x i = true -> Z.testbit m i = true.
Proof.
  unfold inside. rewrite Z.eqb_eq. intros Hi H0 Hx.
  assert (Hb : Z.testbit (Z.ldiff x m) i = false) by (by rewrite H0, Z.bits_0).
  rewrite Z.ldiff_spec, Hx in Hb. by destruct (Z.testbit m i).
Qed.

(** The bits of one name in a translated word: all there or none. *)
Lemma name_bits tbl x n l :
  rows_apart tbl = true -> In (n, l) tbl ->
  Z.land (@bits_to_host as_uint32 tbl x) (hc n) = if has x l then hc n else 0.
Proof.
  intros Hap Hin. apply Z.bits_inj'. intros i Hi. rewrite Z.land_spec, bits_to_host_testbit.
  destruct (Z.testbit (hc n) i) eqn:Hn; rewrite ?andb_false_r, ?andb_true_r.
  2: { destruct (has x l); by rewrite ?Hn, ?Z.bits_0. }
  destruct (has x l) eqn:Hx.
  - rewrite Hn. apply existsb_exists. exists (n, l). split; [done|]. cbn [fst snd]. by rewrite Hx.
  - rewrite Z.bits_0. apply not_true_is_false. intros ([m k] & Hm & Hk)%existsb_exists.
    cbn [fst snd] in Hk. apply andb_true_iff in Hk as [Hxk Hmk].
    unfold rows_apart in Hap. rewrite forallb_forall in Hap. specialize (Hap _ Hin).
    rewrite forallb_forall in Hap. specialize (Hap _ Hm). cbn [fst snd] in Hap.
    apply orb_true_iff in Hap as [Heq%Z.eqb_eq|Hap]; [congruence|].
    by apply (apart_bit _ _ i Hap).
Qed.

(** A word in which every name is there exactly when its Linux bit was set
    reads back as the supported bits. *)
Lemma pattern_reads tbl x h :
  Forall (fun row => is_bit (snd row)) tbl ->
  (forall n l, In (n, l) tbl -> Z.land h (hc n) = if has x l then hc n else 0) ->
  pattern_to_linux tbl h = Z.land x (supported tbl).
Proof.
  intros Hbits Hrow. induction Hbits as [|[n l] tbl Hl Hbits IH]; [by rewrite Z.land_0_r|].
  cbn [pattern_to_linux supported foldr fst snd]. fold (supported tbl).
  rewrite Z.land_lor_distr_r, IH by (intros; apply Hrow; by right). f_equal.
  rewrite (Hrow n l) by (by left). destruct (Z.eqb_spec (hc n) 0) as [H0|H0]; cbn [negb andb].
  - by rewrite Z.land_0_r.
  - rewrite <- has_bit by done. destruct (has x l); [by rewrite Z.eqb_refl|].
    by rewrite (proj2 (Z.eqb_neq 0 _)) by done.
Qed.

(** Other fields in the same word do not disturb a group. *)
Lemma land_other h y m : apart m y = true -> Z.land (Z.lor h y) m = Z.land h m.
Proof.
  unfold apart. rewrite Z.eqb_eq. intros H0. rewrite Z.land_lor_distr_l, (Z.land_comm y), H0.
  apply Z.lor_0_r.
Qed.

Lemma land_ldiff_apart x m k : apart m k = true -> Z.land (Z.ldiff x k) m = Z.land x m.
Proof.
  intros Hap. apply Z.bits_inj'. intros i Hi. rewrite !Z.land_spec, Z.ldiff_spec.
  destruct (Z.testbit m i) eqn:Hm; rewrite ?andb_false_r, ?andb_true_r; [|done].
  destruct (Z.testbit k i) eqn:Hk; [by destruct (apart_bit _ _ i Hap)|by rewrite andb_true_r].
Qed.

Lemma land_ldiff_inside x m k : inside m k = true -> Z.land (Z.ldiff x k) m = 0.
Proof.
  intros Hin. apply Z.bits_inj'. intros i Hi. rewrite Z.land_spec, Z.ldiff_spec, Z.bits_0.
  destruct (Z.testbit m i) eqn:Hm; rewrite ?andb_false_r, ?andb_true_r; [|done].
  by rewrite (inside_bit _ _ _ Hi Hin Hm), andb_false_r.
Qed.

(** Two words that agree outside a field agree on anything apart from it. *)
Lemma land_agree x y k m : apart m k = true -> Z.ldiff x k = Z.ldiff y k -> Z.land x m = Z.land y m.
Proof. intros Hap He. by rewrite <- (land_ldiff_apart x m k), <- (land_ldiff_apart y m k), He. Qed.

Lemma apart_inside x m k : inside x k = true -> apart m k = true -> apart x m = true.
Proof.
  intros Hin Hap. unfold apart. apply Z.eqb_eq, Z.bits_inj'. intros i Hi. rewrite Z.land_spec, Z.bits_0.
  apply not_true_is_false. intros [Hx Hm]%andb_true_iff.
  exact (apart_bit _ _ i Hap Hm (inside_bit _ _ _ Hi Hin Hx)).
Qed.

Lemma supported_apart tbl k :
  forallb (fun row => apart (snd row) k) tbl = true -> apart (supported tbl) k = true.
Proof.
  unfold apart. induction tbl as [|[n l] tbl IH]; cbn [forallb snd]; [done|].
  intros [Hl%Z.eqb_eq Ht%IH]%andb_true_iff. cbn [supported foldr fst snd]. fold (supported tbl).
  apply Z.eqb_eq. apply Z.eqb_eq in Ht. rewrite Z.land_lor_distr_l, Ht.
  destruct (hc n =? 0); [done|]. by rewrite Hl.
Qed.

(** A group of flags beside a field: what reads back from a word that holds
    the translated group and something apart from it. *)
Lemma group_roundtrip tbl x k h :
  Forall (fun row => is_bit (snd row)) tbl -> rows_apart tbl = true ->
  forallb (fun row => apart (snd row) k) tbl = true ->
  (forall n l, In (n, l) tbl ->
     Z.land h (hc n) = Z.land (@bits_to_host as_uint32 tbl (Z.ldiff x k)) (hc n)) ->
  pattern_to_linux tbl h = Z.land x (supported tbl).
Proof.
  intros Hbits Hap Hk Hh. apply pattern_reads; [done|]. intros n l Hin.
  rewrite Hh with (l := l), (name_bits _ _ _ l) by done. unfold has. rewrite land_ldiff_apart; [done|].
  rewrite forallb_forall in Hk. exact (Hk _ Hin).
Qed.

(** ** Delays come back *)

Lemma dly_to_host_testbit rows lin i :
  Z.testbit (dly_to_host rows lin) i =
  existsb (fun row => let '(hm, lm, name, v) := row in
    (negb (hc hm =? 0) && (Z.land lin lm =? v)) && Z.testbit (hc name) i) rows.
Proof.
  induction rows as [|[[[hm lm] name] v] rows IH]; cbn -[Z.testbit hc]; [by rewrite Z.bits_0|].
  rewrite Z.lor_spec, IH. by destruct (negb _ && _); cbn [andb]; rewrite ?Z.bits_0.
Qed.

Lemma dly_rows_facts a b hm lm na va hm' lm' nb vb :
  dly_ok = true -> a = (hm, lm, na, va) -> b = (hm', lm', nb, vb) -> In a DLY_ROWS -> In b DLY_ROWS ->
  inside (hc na) (hc hm) = true /\ dly_apart a b = true.
Proof.
  intros [Hins Hap]%andb_true_iff -> -> Ha Hb. rewrite forallb_forall in Hins, Hap.
  split; [exact (Hins _ Ha)|]. specialize (Hap _ Ha). rewrite forallb_forall in Hap. by apply Hap.
Qed.

(** A row that shows in a field belongs to the field. *)
Lemma dly_same_field hm lm na va hm' lm' nb vb i :
  dly_ok = true -> In (hm, lm, na, va) DLY_ROWS -> In (hm', lm', nb, vb) DLY_ROWS -> 0 <= i ->
  Z.testbit (hc hm) i = true -> Z.testbit (hc nb) i = true ->
  lm = lm' /\ hc hm = hc hm' /\
  (if va =? vb then hc na =? hc nb else (hc na =? 0) || negb (hc na =? hc nb)) = true.
Proof.
  intros Hok Ha Hb Hi Hhm Hnb.
  destruct (dly_rows_facts _ _ _ _ _ _ _ _ _ _ Hok eq_refl eq_refl Ha Hb) as [_ Hap].
  destruct (dly_rows_facts _ _ _ _ _ _ _ _ _ _ Hok eq_refl eq_refl Hb Ha) as [Hin _].
  unfold dly_apart in Hap. destruct (Z.eqb_spec lm lm') as [->|Hne].
  - apply andb_true_iff in Hap as [Hhc%Z.eqb_eq Hap]. done.
  - destruct (apart_bit _ _ i Hap Hhm). by apply (inside_bit (hc nb)).
Qed.

Lemma dly_field_set hm lm na va lin :
  dly_ok = true -> In (hm, lm, na, va) DLY_ROWS -> hc hm <> 0 -> Z.land lin lm = va ->
  Z.land (odly_to_host lin) (hc hm) = hc na.
Proof.
  intros Hok Hin Hhm Hv. apply Z.bits_inj'. intros i Hi. rewrite Z.land_spec.
  unfold odly_to_host. rewrite dly_to_host_testbit.
  destruct (dly_rows_facts _ _ _ _ _ _ _ _ _ _ Hok eq_refl eq_refl Hin Hin) as [Hins _].
  destruct (Z.testbit (hc na) i) eqn:Hna.
  - rewrite (inside_bit _ _ _ Hi Hins Hna), andb_true_r. apply existsb_exists.
    exists (hm, lm, na, va). split; [done|]. rewrite Hna, Hv, Z.eqb_refl.
    by rewrite (proj2 (Z.eqb_neq _ _)) by done.
  - apply not_true_is_false. intros [Hex Hb]%andb_true_iff.
    apply existsb_exists in Hex as ([[[hm' lm'] nb] vb] & Hin' & Hc).
    apply andb_true_iff in Hc as [[_ Hc%Z.eqb_eq]%andb_true_iff Hnb].
    destruct (dly_same_field _ _ _ _ _ _ _ _ i Hok Hin Hin' Hi Hb Hnb) as (Hlm & _ & Heq).
    rewrite <- Hlm, Hv in Hc. subst vb. rewrite Z.eqb_refl in Heq. apply Z.eqb_eq in Heq. congruence.
Qed.

Lemma hc_nonneg n : 0 <= hc n.
Proof. unfold hc, u32. apply Z.mod_pos_bound. lia. Qed.

Lemma dly_field_iff hm lm na va lin :
  dly_ok = true -> In (hm, lm, na, va) DLY_ROWS -> hc hm <> 0 -> hc na <> 0 ->
  (Z.land (odly_to_host lin) (hc hm) =? hc na) = (Z.land lin lm =? va).
Proof.
  intros Hok Hin Hhm Hna. apply eq_true_iff_eq. rewrite !Z.eqb_eq.
  split; [|by apply dly_field_set]. intros Hread.
  assert (Hbit : Z.testbit (hc na) (Z.log2 (hc na)) = true)
    by (apply Z.bit_log2; pose proof (hc_nonneg na); lia).
  pose proof (Z.log2_nonneg (hc na)) as Hi. set (i := Z.log2 (hc na)) in *.
  pose proof Hbit as Hrb. rewrite <- Hread, Z.land_spec in Hrb.
  apply andb_true_iff in Hrb as [Hex Hb]. unfold odly_to_host in Hex. rewrite dly_to_host_testbit in Hex.
  apply existsb_exists in Hex as ([[[hm' lm'] nb] vb] & Hin' & Hc).
  apply andb_true_iff in Hc as [[Hhm' Hc%Z.eqb_eq]%andb_true_iff Hnb].
  destruct (dly_same_field _ _ _ _ _ _ _ _ i Hok Hin Hin' Hi Hb Hnb) as (-> & Hhc & Heq).
  apply negb_true_iff, Z.eqb_neq in Hhm'.
  pose proof (dly_field_set _ _ _ _ _ Hok Hin' Hhm' Hc) as Hset.
  rewrite <- Hhc, Hread in Hset. destruct (Z.eqb_spec va vb) as [->|]; [done|].
  rewrite Hset, Z.eqb_refl, orb_false_r, <- Hset in Heq. by apply Z.eqb_eq in Heq.
Qed.

(** The delays the host can express, as the caller set them. *)
Definition dly_kept (lin : Z) : Z :=
  foldr (fun row m => let '(hm, lm, name, v) := row in
    Z.lor (if negb (hc hm =? 0) && negb (hc name =? 0) && (Z.land lin lm =? v) then v else 0) m)
    0 DLY_ROWS.

Lemma odly_roundtrip lin h :
  dly_ok = true ->
  (forall hm lm na va, In (hm, lm, na, va) DLY_ROWS ->
     Z.land h (hc hm) = Z.land (odly_to_host lin) (hc hm)) ->
  odly_to_linux h = dly_kept lin.
Proof.
  intros Hok Hh. unfold odly_to_linux, dly_kept.
  assert (Hsub : forall r, In r DLY_ROWS -> In r DLY_ROWS) by done. revert Hsub.
  generalize DLY_ROWS at 1 3 4. intros rows Hsub.
  induction rows as [|[[[hm lm] na] va] rows IH]; [done|].
  cbn [dly_to_linux foldr]. rewrite IH by (intros; apply Hsub; by right). f_equal.
  specialize (Hsub _ (or_introl eq_refl)). rewrite (Hh _ _ _ _ Hsub).
  destruct (Z.eqb_spec (hc hm) 0); [done|]. destruct (Z.eqb_spec (hc na) 0); cbn [negb andb].
  - by rewrite andb_false_r.
  - by rewrite andb_true_r, (dly_field_iff _ lm _ va).
Qed.

(** ** Size and speed come back *)

(** The size the caller set, or the smallest when the host has no such size. *)
Definition csize_kept (lin : Z) : Z :=
  let f := Z.land lin SHIM_LIN_CSIZE in
  if f =? SHIM_LIN_CS6 then if hc "CS6" =? 0 then 0 else f
  else if f =? SHIM_LIN_CS7 then if hc "CS7" =? 0 then 0 else f
  else if f =? SHIM_LIN_CS8 then if hc "CS8" =? 0 then 0 else f
  else 0.

Lemma csize_distinct a b :
  csize_ok = true -> In a ["CS6"; "CS7"; "CS8"]%string -> In b ["CS6"; "CS7"; "CS8"]%string ->
  a <> b -> hc a <> 0 -> hc a <> hc b.
Proof.
  intros [_ Hok]%andb_true_iff Ha Hb Hne H0 He. rewrite forallb_forall in Hok.
  specialize (Hok _ Ha). rewrite forallb_forall in Hok. specialize (Hok _ Hb).
  apply orb_true_iff in Hok as [[Hs%String.eqb_eq|Hz%Z.eqb_eq]%orb_true_iff|Hn]; [done..|].
  apply negb_true_iff, Z.eqb_neq in Hn. done.
Qed.

Lemma csize_inside lin : csize_ok = true -> inside (csize_to_host lin) (hc "CSIZE") = true.
Proof.
  intros [Hok _]%andb_true_iff. rewrite forallb_forall in Hok. unfold csize_to_host.
  repeat case_match; try (apply Hok; simpl; tauto). done.
Qed.

Lemma inside_land x m : inside x m = true -> Z.land x m = x.
Proof.
  intros Hin. apply Z.bits_inj'. intros i Hi. rewrite Z.land_spec.
  destruct (Z.testbit x i) eqn:Hx; [|done]. by rewrite (inside_bit _ _ _ Hi Hin Hx).
Qed.

Lemma csize_roundtrip lin h :
  csize_ok = true -> Z.land h (hc "CSIZE") = csize_to_host lin -> csize_to_linux h = csize_kept lin.
Proof.
  intros Hok Hh. unfold csize_to_linux, csize_kept. rewrite Hh. unfold csize_to_host.
  assert (D : forall a b, In a ["CS6"; "CS7"; "CS8"]%string -> In b ["CS6"; "CS7"; "CS8"]%string ->
    a <> b -> negb (hc a =? 0) && (hc b =? hc a) = false).
  { intros a b Ha Hb Hne. destruct (Z.eqb_spec (hc a) 0); [done|]. cbn [negb andb].
    apply Z.eqb_neq. intros He. by apply (csize_distinct a b Hok Ha Hb Hne). }
  assert (S0 : forall a, negb (hc a =? 0) && (hc a =? hc a) = negb (hc a =? 0))
    by (intros; by rewrite Z.eqb_refl, andb_true_r).
  assert (Z0 : forall a, negb (hc a =? 0) && (0 =? hc a) = false)
    by (intros a; rewrite (Z.eqb_sym 0); by destruct (hc a =? 0)).
  cbv zeta. destruct (Z.eqb_spec (Z.land lin SHIM_LIN_CSIZE) SHIM_LIN_CS6) as [->|].
  { rewrite (D "CS8" "CS6")%string, (D "CS7" "CS6")%string, S0 by (simpl; auto; done). by destruct (hc "CS6" =? 0). }
  destruct (Z.eqb_spec (Z.land lin SHIM_LIN_CSIZE) SHIM_LIN_CS7) as [->|].
  { rewrite (D "CS8" "CS7")%string, S0, (D "CS6" "CS7")%string by (simpl; auto; done).
    by destruct (hc "CS7" =? 0). }
  destruct (Z.eqb_spec (Z.land lin SHIM_LIN_CSIZE) SHIM_LIN_CS8) as [->|].
  { rewrite S0, (D "CS7" "CS8")%string, (D "CS6" "CS8")%string by (simpl; auto; done).
    by destruct (hc "CS8" =? 0). }
  by rewrite !Z0.
Qed.

Lemma find_back (tbl : list (string * Z)) (lincode : Z) row :
  (forall a b, In a tbl -> In b tbl -> hc (fst a) = hc (fst b) -> snd a = snd b) ->
  List.find (fun row => lincode =? snd row) tbl = Some row ->
  snd <$> List.find (fun r => hc (fst row) =? hc (fst r)) tbl = Some lincode.
Proof.
  intros Hinj Hf. apply find_some in Hf as [Hin Hl%Z.eqb_eq]. rewrite Hl.
  destruct (List.find (fun r => hc (fst row) =? hc (fst r)) tbl) as [row'|] eqn:Hf'.
  - apply find_some in Hf' as [Hin' Hc%Z.eqb_eq]. cbn. f_equal. by apply Hinj.
  - pose proof (find_none _ _ Hf' _ Hin) as Hn. cbn in Hn. by rewrite Z.eqb_refl in Hn.
Qed.

Lemma baud_roundtrip lincode sp :
  baud_ok = true -> baud_to_host lincode = Some sp -> baud_to_linux sp = Some lincode.
Proof.
  unfold baud_to_host, baud_to_linux, baud_ok. generalize SHIM_BAUD_TABLE. intros tbl Hok Hb.
  apply fmap_Some in Hb as (row & Hf & ->). apply (find_back tbl); [|done].
  intros a b Ha Hb He. rewrite forallb_forall in Hok. specialize (Hok _ Ha).
  rewrite forallb_forall in Hok. specialize (Hok _ Hb).
  rewrite He, Z.eqb_refl, orb_false_r in Hok. by apply Z.eqb_eq in Hok.
Qed.

(** ** Control characters come back *)

Lemma foldl_insert_lookup {A} (p : A -> bool) (key : A -> nat) (val : A -> Z) rows d r :
  In r rows -> p r = true -> (key r < length d)%nat ->
  (forall r', In r' rows -> p r' = true -> key r' = key r -> val r' = val r) ->
  (foldl (fun d r => if p r then <[key r := val r]> d else d) d rows).[key r] = val r.
Proof.
  intros Hin Hp Hk Hsame. unfold byte_at. rewrite nth_lookup.
  enough (Hl : foldl (fun d r => if p r then <[key r := val r]> d else d) d rows !! key r = Some (val r))
    by (by rewrite Hl).
  assert (Hlen : forall rows d, length (foldl (fun d r => if p r then <[key r := val r]> d else d) d rows) = length d).
  { intros rs. induction rs as [|x rs IH]; intros d'; cbn [foldl]; [done|]. rewrite IH.
    destruct (p x); [by rewrite length_insert|done]. }
  induction rows as [|x rows IH] using rev_ind; [done|]. rewrite foldl_snoc.
  apply in_app_iff in Hin. destruct (p x) eqn:Hx.
  - destruct (decide (key x = key r)) as [He|Hne].
    + rewrite He, list_lookup_insert_eq by (by rewrite Hlen).
      f_equal. apply Hsame; [|done..]. apply in_app_iff; right; by left.
    + rewrite list_lookup_insert_ne by done. apply IH; [by destruct Hin as [|[->|[]]]|].
      intros r' Hr'. apply Hsame. apply in_app_iff; by left.
  - destruct Hin as [Hin|[->|[]]]; [|congruence]. apply IH; [done|].
    intros r' Hr'. apply Hsame. apply in_app_iff; by left.
Qed.

(** The characters the caller reads back: those with a place on both sides,
    the one that means "disabled" there as 0. *)
Definition cc_kept (cc : list Z) (n : nat) : list Z :=
  foldl (fun out row =>
    if cc_in n row
    then <[Z.to_nat (snd row) := cc_byte_to_linux (snd row) cc.[Z.to_nat (snd row)]]> out else out)
    (replicate n 0) SHIM_TCC_TABLE.

Lemma cc_byte_roundtrip l b : cc_byte_to_linux l (cc_byte_to_host l b) = cc_byte_to_linux l b.
Proof.
  unfold cc_byte_to_linux, cc_byte_to_host. destruct (CC_IS_COUNT l); rewrite ?andb_false_r, ?andb_true_r; [done|].
  destruct (Z.eqb_spec b 0) as [->|]; [|done]. rewrite Z.eqb_refl. by destruct (0 =? vdisable).
Qed.

Lemma foldl_ext_in {A B} (f g : A -> B -> A) l a :
  (forall a b, In b l -> f a b = g a b) -> foldl f a l = foldl g a l.
Proof.
  revert a. induction l as [|b l IH]; intros a Hfg; [done|]. cbn [foldl].
  rewrite (Hfg a b) by (by left). apply IH. intros. apply Hfg. by right.
Qed.

Lemma cc_roundtrip cc n :
  cc_ok = true ->
  cc_to_linux (cc_to_host cc n (replicate (Z.to_nat NCCS) 0)) (replicate n 0) n = cc_kept cc n.
Proof.
  intros Hok. unfold cc_to_linux, cc_kept. apply foldl_ext_in. intros out row Hin.
  destruct (cc_in n row) eqn:Hp; [|done]. f_equal.
  rewrite <- (cc_byte_roundtrip _ cc.[_]). f_equal.
  pose proof Hp as [_ Hh%Z.ltb_lt]%andb_true_iff. pose proof (hc_nonneg (fst row)).
  apply (foldl_insert_lookup (cc_in n) (fun row => Z.to_nat (hc (fst row)))
           (fun row => cc_byte_to_host (snd row) cc.[Z.to_nat (snd row)])); [done..| |].
  - rewrite length_replicate. lia.
  - intros r' Hin' Hp' Hk. pose proof Hp' as [_ Hh'%Z.ltb_lt]%andb_true_iff.
    pose proof (hc_nonneg (fst r')). assert (He : hc (fst r') = hc (fst row)) by lia.
    unfold cc_ok in Hok. rewrite forallb_forall in Hok. specialize (Hok _ Hin').
    rewrite forallb_forall in Hok. specialize (Hok _ Hin).
    rewrite He, Z.eqb_refl, (proj2 (Z.ltb_lt _ _) Hh), !orb_false_r in Hok.
    apply Z.eqb_eq in Hok. by rewrite Hok.
Qed.
End constants.

(** ** What is set is what is read *)

(** The speed setters change the speed and, where the host keeps one there,
    its field in c_cflag; nothing else. *)
Class HostSpeedOk `{HostConsts} `{!HostSpeed} (baud_field : Z) := {
  speed_set t sp : h_cfgetospeed (h_cfsetispeed (h_cfsetospeed t sp) sp) = sp;
  speed_keeps t sp :
    let t' := h_cfsetispeed (h_cfsetospeed t sp) sp in
    ht_iflag t' = ht_iflag t /\ ht_oflag t' = ht_oflag t /\ ht_lflag t' = ht_lflag t /\
    ht_cc t' = ht_cc t /\
    Z.ldiff (ht_cflag t') baud_field = Z.ldiff (ht_cflag t) baud_field }.

Section roundtrip.
Context `{HostConsts} `{!HostSpeed} (baud_field : Z) `{!HostSpeedOk baud_field}.

(** The caller's structure less what the host has no bit for. *)
Definition termios_kept (lt : lin_termios) (n : nat) : lin_termios :=
  LinTermios
    (Z.land (lt_iflag lt) (supported SHIM_TIFLAG_TABLE))
    (Z.lor (Z.land (lt_oflag lt) (supported SHIM_TOFLAG_TABLE)) (dly_kept (lt_oflag lt)))
    (Z.lor (Z.lor (Z.land (lt_cflag lt) (supported CBIT_ROWS)) (csize_kept (lt_cflag lt)))
       (Z.land (lt_cflag lt) SHIM_LIN_CBAUD))
    (Z.land (lt_lflag lt) (supported SHIM_TLFLAG_TABLE)) 0 (cc_kept (lt_cc lt) n) 0 0.

Lemma table_bits :
  Forall (fun row => is_bit (snd row)) SHIM_TIFLAG_TABLE /\
  Forall (fun row => is_bit (snd row)) SHIM_TOFLAG_TABLE /\
  Forall (fun row => is_bit (snd row)) CBIT_ROWS /\
  Forall (fun row => is_bit (snd row)) SHIM_TLFLAG_TABLE.
Proof.
  split_and!; repeat constructor; cbn [snd]; unfold is_bit;
    match goal with |- exists k, _ /\ ?x = _ => exists (Z.log2 x); split; vm_compute; congruence end.
Qed.

(** The size rows contribute nothing to a word without size bits, and are
    read from none. *)
Lemma cflag_rows_to_host x :
  Z.land x SHIM_LIN_CSIZE = 0 ->
  cflag_to_host x = @bits_to_host as_uint32 CBIT_ROWS x.
Proof.
  intros Hz. unfold cflag_to_host, SHIM_TCFLAG_TABLE, CBIT_ROWS.
  assert (Hno : forall l, inside l SHIM_LIN_CSIZE = true -> has x l = false).
  { intros l Hl. apply has_false. rewrite <- (inside_land l SHIM_LIN_CSIZE) by done.
    rewrite (Z.land_comm l), Z.land_assoc, Hz. done. }
  cbn [bits_to_host drop SHIM_TCFLAG_TABLE].
  by rewrite !Hno by reflexivity.
Qed.

Lemma cflag_rows_to_linux h :
  csize_ok = true ->
  cflag_to_linux (Z.ldiff h (hc "CSIZE")) = pattern_to_linux CBIT_ROWS (Z.ldiff h (hc "CSIZE")).
Proof.
  intros [Hok _]%andb_true_iff. rewrite forallb_forall in Hok.
  assert (Hno : forall n, inside (hc n) (hc "CSIZE") = true ->
    negb (hc n =? 0) && (Z.land (Z.ldiff h (hc "CSIZE")) (hc n) =? hc n) = false).
  { intros n Hn. rewrite land_ldiff_inside by done. rewrite (Z.eqb_sym 0).
    by destruct (hc n =? 0). }
  unfold cflag_to_linux, SHIM_TCFLAG_TABLE, CBIT_ROWS.
  cbn [pattern_to_linux drop SHIM_TCFLAG_TABLE].
  rewrite (Hno "CSIZE"%string) by (unfold inside; by rewrite Z.ldiff_diag).
  by rewrite (Hno "CS6"%string), (Hno "CS7"%string), (Hno "CS8"%string) by (apply Hok; simpl; tauto).
Qed.

Lemma apart_sym x y : apart x y = apart y x.
Proof. unfold apart. by rewrite Z.land_comm. Qed.

Lemma outside_row tbl m n l : outside tbl m = true -> In (n, l) tbl -> apart (hc n) m = true.
Proof. unfold outside. rewrite forallb_forall. intros Ho Hin. exact (Ho _ Hin). Qed.

Lemma dly_inside lin m :
  dly_ok = true -> (forall hm lm na va, In (hm, lm, na, va) DLY_ROWS -> apart (hc hm) m = true) ->
  apart (odly_to_host lin) m = true.
Proof.
  intros Hok Hm. unfold apart. apply Z.eqb_eq, Z.bits_inj'. intros i Hi. rewrite Z.land_spec, Z.bits_0.
  apply not_true_is_false. intros [Hd Hb]%andb_true_iff.
  unfold odly_to_host in Hd. rewrite dly_to_host_testbit in Hd.
  apply existsb_exists in Hd as ([[[hm lm] na] va] & Hin & [_ Hna]%andb_true_iff).
  destruct (dly_rows_facts _ _ _ _ _ _ _ _ _ _ Hok eq_refl eq_refl Hin Hin) as [Hins _].
  exact (apart_bit _ _ i (Hm _ _ _ _ Hin) (inside_bit _ _ _ Hi Hins Hna) Hb).
Qed.

Lemma oflag_bits_apart x m :
  outside SHIM_TOFLAG_TABLE m = true -> apart (oflag_to_host x) m = true.
Proof.
  intros Ho. unfold apart. apply Z.eqb_eq, Z.bits_inj'. intros i Hi. rewrite Z.land_spec, Z.bits_0.
  apply not_true_is_false. intros [Hd Hb]%andb_true_iff. unfold oflag_to_host in Hd.
  rewrite bits_to_host_testbit in Hd. apply existsb_exists in Hd as ([n l] & Hin & [_ Hn]%andb_true_iff).
  exact (apart_bit _ _ i (outside_row _ _ n l Ho Hin) Hn Hb).
Qed.

(** The two groups of output flags. *)
Lemma oflag_roundtrip x :
  dly_ok = true -> rows_apart SHIM_TOFLAG_TABLE = true ->
  (forall hm lm na va, In (hm, lm, na, va) DLY_ROWS -> outside SHIM_TOFLAG_TABLE (hc hm) = true) ->
  let h := Z.lor (oflag_to_host (Z.ldiff x LIN_ODLY_MASK)) (odly_to_host x) in
  oflag_to_linux h = Z.land x (supported SHIM_TOFLAG_TABLE) /\ odly_to_linux h = dly_kept x.
Proof.
  intros Hdly Hrows Hout h. split.
  - apply (group_roundtrip _ _ LIN_ODLY_MASK); [by apply table_bits|done|reflexivity|].
    intros n l Hin. unfold h. apply land_other. rewrite apart_sym. apply dly_inside; [done|]. intros hm lm na va Hr.
    rewrite apart_sym. by apply (outside_row SHIM_TOFLAG_TABLE _ _ l); [eapply Hout|].
  - apply odly_roundtrip; [done|]. intros hm lm na va Hr. unfold h. rewrite Z.lor_comm.
    apply land_other. rewrite apart_sym. apply oflag_bits_apart. by eapply Hout.
Qed.

(** The control flags, beside the size and the host's speed field. *)
Lemma cflag_roundtrip x h :
  rows_apart CBIT_ROWS = true -> csize_ok = true ->
  outside CBIT_ROWS (hc "CSIZE") = true -> outside CBIT_ROWS baud_field = true ->
  apart (hc "CSIZE") baud_field = true ->
  Z.ldiff h baud_field =
    Z.ldiff (Z.lor (cflag_to_host (Z.ldiff x (Z.lor (Z.lor SHIM_LIN_CSIZE SHIM_LIN_CBAUD) SHIM_LIN_CBAUDEX)))
                   (csize_to_host x)) baud_field ->
  cflag_to_linux (Z.ldiff h (hc "CSIZE")) = Z.land x (supported CBIT_ROWS) /\
  csize_to_linux h = csize_kept x.
Proof.
  intros Hrows Hsz Hcs Hbf Hcb Hh. set (k := Z.lor (Z.lor SHIM_LIN_CSIZE SHIM_LIN_CBAUD) SHIM_LIN_CBAUDEX) in Hh.
  assert (Hx : Z.land (Z.ldiff x k) SHIM_LIN_CSIZE = 0) by (apply land_ldiff_inside; reflexivity).
  rewrite cflag_rows_to_host in Hh by done. pose proof (csize_inside x Hsz) as Hins. split.
  - rewrite cflag_rows_to_linux by done.
    apply (group_roundtrip _ _ k); [by apply table_bits|done|reflexivity|]. intros n l Hin.
    pose proof (outside_row _ _ n l Hcs Hin) as Hnc. pose proof (outside_row _ _ n l Hbf Hin) as Hnb.
    rewrite land_ldiff_apart by done. rewrite (land_agree _ _ _ _ Hnb Hh).
    apply land_other. rewrite apart_sym. by apply (apart_inside _ _ (hc "CSIZE")).
  - apply csize_roundtrip; [done|]. rewrite (land_agree _ _ _ _ Hcb Hh), Z.lor_comm.
    rewrite land_other; [by apply inside_land|]. rewrite apart_sym.
    unfold apart. apply Z.eqb_eq, Z.bits_inj'. intros i Hi. rewrite Z.land_spec, Z.bits_0.
    apply not_true_is_false. intros [Hd Hb]%andb_true_iff. rewrite bits_to_host_testbit in Hd.
    apply existsb_exists in Hd as ([n l] & Hin & [_ Hn]%andb_true_iff).
    exact (apart_bit _ _ i (outside_row _ _ n l Hcs Hin) Hn Hb).
Qed.

Lemma iflag_roundtrip tbl x :
  Forall (fun row => is_bit (snd row)) tbl -> rows_apart tbl = true ->
  pattern_to_linux tbl (@bits_to_host as_uint32 tbl x) = Z.land x (supported tbl).
Proof.
  intros Hbits Hap. apply pattern_reads; [done|]. intros. by apply name_bits.
Qed.

Lemma prefix_roundtrip lt n :
  tty_consts_ok baud_field = true ->
  is_Some (baud_to_host (Z.land (lt_cflag lt) SHIM_LIN_CBAUD)) ->
  prefix_to_linux
    (prefix_to_host (lt_iflag lt) (lt_oflag lt) (lt_cflag lt) (lt_lflag lt) (lt_cc lt) n) n =
  termios_kept lt n.
Proof.
  unfold tty_consts_ok. rewrite !andb_true_iff.
  intros (((((((((((Hi & Ho) & Hc) & Hl) & Hd) & Hs) & Hb) & Hcc) & Hod) & Hcs) & Hbf) & Hcb) [sp Hsp].
  rewrite forallb_forall in Hod. unfold prefix_to_host. rewrite Hsp.
  match goal with |- context [h_cfsetospeed ?t _] => pose proof (speed_keeps t sp) as (E1 & E2 & E3 & E4 & E5);
    pose proof (speed_set t sp) as E6 end.
  unfold prefix_to_linux, termios_kept. rewrite E1, E2, E3, E4, E6. cbn [ht_iflag ht_oflag ht_lflag ht_cc ht_cflag] in *.
  rewrite (baud_roundtrip _ _ Hb Hsp). destruct (cflag_roundtrip _ _ Hc Hs Hcs Hbf Hcb E5) as [-> ->].
  unfold iflag_to_linux, iflag_to_host, lflag_to_linux, lflag_to_host.
  rewrite !iflag_roundtrip by (done || apply table_bits). rewrite cc_roundtrip by done.
  destruct (oflag_roundtrip (lt_oflag lt)) as [-> ->]; [done..| |done].
  intros hm lm na va Hr. exact (Hod _ Hr).
Qed.
End roundtrip.

(** ** On a device *)

(** tcgetattr answers what the terminal holds. A successful tcsetattr says
    that the descriptor is a terminal and no more: POSIX lets it succeed when
    any one of the requested changes was made, so nothing is assumed of the
    state it leaves. The console's own bits are kept elsewhere. *)
Class TtyHostOk (W : Type) `{!ConsoleHost W} `{!TtyHost W} := {
  is_tty : Z -> bool;
  tty_state : W -> Z -> htermios;
  tcgetattr_law fd (w : W) :
    is_tty fd = true -> fst (h_tcgetattr fd w) = Ok (tty_state w fd);
  tcsetattr_law fd act t (w : W) :
    forall w', h_tcsetattr fd act t w = (Ok tt, w') -> is_tty fd = true;
  or_xtmouse_sets (w : W) : tty_xtmouse (or_xtmouse w) = true;
  mode_xtmouse m (w : W) : tty_xtmouse (SetConsoleMode m w) = tty_xtmouse w }.

Section device.
Context `{HostConsts} `{!HostSpeed} {W : Type} `{!ConsoleHost W} `{!TtyHost W} `{!TtyHostOk W}.
Context (baud_field : Z) `{!HostSpeedOk baud_field}.
Context (Hconsts : tty_consts_ok baud_field = true).

Lemma sync_keeps c (w : W) :
  tty_xtmouse (snd (console_sync c w)) = tty_xtmouse w.
Proof.
  unfold console_sync. destruct con_windows; [|done]. cbn [negb].
  destruct (GetConsoleMode w); [|done]. cbn [snd].
  destruct (_ =? _); [done|]. by rewrite mode_xtmouse.
Qed.

Lemma keep_mouse_spec fd act t c (w : W) c' w' :
  tcsetattr_keep_mouse fd act t (c, w) = Some (Ok tt, (c', w')) ->
  is_tty fd = true /\ (tty_xtmouse w = true -> tty_xtmouse w' = true).
Proof.
  unfold tcsetattr_keep_mouse, step. pose proof (tcsetattr_law fd act t w) as Hlaw.
  destruct (h_tcsetattr fd act t w) as [[[]|e] w1]; [|intros; simplify_eq].
  specialize (Hlaw w1 eq_refl). set (w2 := if tty_xtmouse w then _ else w1). intros Hrun. simplify_eq.
  pose proof (sync_keeps c w2) as K2.
  match goal with E : console_sync c w2 = _ |- _ => rewrite E in K2 end. cbn [snd] in *.
  split; [done|]. intros Hm. rewrite K2. unfold w2. rewrite Hm. apply or_xtmouse_sets.
Qed.

(** What the host was asked for. *)
Definition asked (lt : lin_termios) (n : nat) : htermios :=
  prefix_to_host (lt_iflag lt) (lt_oflag lt) (lt_cflag lt) (lt_lflag lt) (lt_cc lt) n.

(** Of a request [want] for [kept], what the host took whole, field by field,
    is in the answer [got]; here [h] is what the host holds. *)
Record took_reads_back (want h : htermios) (kept got : lin_termios) : Prop := {
  took_iflag : ht_iflag h = ht_iflag want -> lt_iflag got = lt_iflag kept;
  took_oflag : ht_oflag h = ht_oflag want -> lt_oflag got = lt_oflag kept;
  took_cflag : ht_cflag h = ht_cflag want -> h_cfgetospeed h = h_cfgetospeed want ->
               lt_cflag got = lt_cflag kept;
  took_lflag : ht_lflag h = ht_lflag want -> lt_lflag got = lt_lflag kept;
  took_cc : ht_cc h = ht_cc want -> lt_cc got = lt_cc kept;
  took_all : h = want -> got = kept }.

(** Each field of the answer is made of the host's own. *)
Lemma prefix_fields want h n :
  took_reads_back want h (prefix_to_linux want n) (prefix_to_linux h n).
Proof.
  split; unfold prefix_to_linux; cbn [lt_iflag lt_oflag lt_cflag lt_lflag lt_cc].
  - by intros ->.
  - by intros ->.
  - by intros -> ->.
  - by intros ->.
  - by intros ->.
  - by intros ->.
Qed.

Lemma set_get fd act lt n c (w : W) c' w' :
  is_Some (baud_to_host (Z.land (lt_cflag lt) SHIM_LIN_CBAUD)) ->
  set_with fd act lt n (c, w) = Some (Ok tt, (c', w')) ->
  (exists got w2, get_with fd n (c', w') = Some (Ok got, (c', w2)) /\
     took_reads_back (asked lt n) (tty_state w' fd) (termios_kept lt n) got) /\
  (tty_xtmouse w = true -> tty_xtmouse w' = true).
Proof.
  intros Hb (Htty & Hm)%keep_mouse_spec. split; [|done].
  unfold get_with, on_host. rewrite bind_step. cbn [fst snd].
  pose proof (tcgetattr_law fd w' Htty) as Hg.
  destruct (h_tcgetattr fd w') as [r w2]. cbn [fst snd] in *. subst r.
  exists (prefix_to_linux (tty_state w' fd) n), w2. split; [done|].
  rewrite <- (prefix_roundtrip baud_field lt n) by done. apply prefix_fields.
Qed.

(** C11: a terminal set through the shim reads back as far as the host took
    it. After a successful tcsetattr, tcgetattr answers, and each field of
    which the host now holds what it was asked for reads back as the caller
    set it, less the flags, delays, size and characters the host cannot
    express, whatever values the host gives its constants; all of the
    structure does when the host made every change (POSIX lets tcsetattr
    succeed when it made only some). The kernel layouts of the ioctl requests
    do the same over their nineteen characters, and neither loses the mouse
    reporting the write path had turned on. *)
Theorem termios_reads_back fd act lt c (w : W) :
  is_Some (baud_to_host (Z.land (lt_cflag lt) SHIM_LIN_CBAUD)) ->
  (forall c' w', shim_tcsetattr fd act lt (c, w) = Some (Ok tt, (c', w')) ->
    (exists got w2, shim_tcgetattr fd (c', w') = Some (Ok got, (c', w2)) /\
       took_reads_back (asked lt 32) (tty_state w' fd) (termios_kept lt 32) got) /\
    (tty_xtmouse w = true -> tty_xtmouse w' = true)) /\
  (forall c' w', shim_ioctl fd SHIM_LIN_TCSETS2 (ATermios lt) (c, w) =
                   Some ((Ok 0, ATermios lt), (c', w')) ->
    (exists got w2, shim_ioctl fd SHIM_LIN_TCGETS2 AOpaque (c', w') =
                      Some ((Ok 0, ATermios got), (c', w2)) /\
       took_reads_back (asked lt 19) (tty_state w' fd) (termios_kept lt 19) got) /\
    (tty_xtmouse w = true -> tty_xtmouse w' = true)).
Proof.
  intros Hb. split; intros c' w' Hset; [by eapply set_get|].
  change (shim_ioctl fd SHIM_LIN_TCSETS2 (ATermios lt)) with
    (r ← tio_set fd lt true TCSANOW; mret (answered r (ATermios lt)) : M (console * W) _) in Hset.
  apply bind_Some in Hset as (r & w1 & Hset & Hans). rewrite run_ret in Hans.
  destruct r as [[]|e]; [|done]. simplify_eq.
  destruct (set_get fd TCSANOW lt 19 c w c' w' Hb Hset) as [(got & w2 & Hget & Ht) Hm]. split; [|done].
  exists got, w2. split; [|done].
  change (shim_ioctl fd SHIM_LIN_TCGETS2 AOpaque) with (get_request (W:=W) fd true AOpaque).
  unfold get_request, tio_get. by rewrite (bind_run _ _ _ _ _ Hget).
Qed.
End device.

(** ** A concrete terminal

    Constants as XNU has them, where nearly every value and index differs
    from musl's, there are no IUCLC, OLCUC, XCASE or CMSPAR and a disabled
    character is 255. *)
Definition xnu_rows : list (string * Z) :=
  [ ("SHIM_FIX_IGNBRK", 1); ("SHIM_FIX_BRKINT", 2); ("SHIM_FIX_IGNPAR", 4);
    ("SHIM_FIX_PARMRK", 8); ("SHIM_FIX_INPCK", 16); ("SHIM_FIX_ISTRIP", 32);
    ("SHIM_FIX_INLCR", 64); ("SHIM_FIX_IGNCR", 128); ("SHIM_FIX_ICRNL", 256); ("IXON", 512);
    ("IXOFF", 1024); ("SHIM_FIX_IXANY", 2048); ("SHIM_FIX_IMAXBEL", 8192); ("IUTF8", 16384);
    ("SHIM_FIX_OPOST", 1); ("ONLCR", 2); ("OCRNL", 16); ("ONOCR", 32); ("ONLRET", 64);
    ("OFILL", 128); ("OFDEL", 131072); ("NLDLY", 768); ("NL1", 256); ("CRDLY", 12288);
    ("CR1", 4096); ("CR2", 8192); ("CR3", 12288); ("TABDLY", 3076); ("TAB1", 1024);
    ("TAB2", 2048); ("TAB3", 4); ("BSDLY", 32768); ("BS1", 32768); ("VTDLY", 65536);
    ("VT1", 65536); ("FFDLY", 16384); ("FF1", 16384); ("CSIZE", 768); ("CS6", 256);
    ("CS7", 512); ("CS8", 768); ("CSTOPB", 1024); ("CREAD", 2048); ("PARENB", 4096);
    ("PARODD", 8192); ("HUPCL", 16384); ("CLOCAL", 32768); ("CRTSCTS", 196608); ("ISIG", 128);
    ("ICANON", 256); ("SHIM_FIX_ECHO", 8); ("ECHOE", 2); ("ECHOK", 4); ("ECHONL", 16);
    ("NOFLSH", 2147483648); ("TOSTOP", 4194304); ("ECHOCTL", 64); ("ECHOPRT", 32);
    ("ECHOKE", 1); ("FLUSHO", 8388608); ("PENDIN", 536870912); ("IEXTEN", 1024);
    ("EXTPROC", 2048); ("VINTR", 8); ("VQUIT", 9); ("VERASE", 3); ("VKILL", 5); ("VEOF", 0);
    ("VTIME", 17); ("VMIN", 16); ("VSWTC", 255); ("VSTART", 12); ("VSTOP", 13); ("VSUSP", 10);
    ("VEOL", 1); ("VREPRINT", 6); ("VDISCARD", 15); ("VWERASE", 4); ("VLNEXT", 14);
    ("VEOL2", 2); ("_POSIX_VDISABLE", 255); ("B50", 50); ("B75", 75); ("B110", 110);
    ("B134", 134); ("B150", 150); ("B200", 200); ("B300", 300); ("B600", 600); ("B1200", 1200);
    ("B1800", 1800); ("B2400", 2400); ("B4800", 4800); ("B9600", 9600); ("B19200", 19200);
    ("B38400", 38400); ("B57600", 57600); ("B115200", 115200); ("B230400", 230400);
    ("B500000", 500000); ("B576000", 576000); ("B1000000", 1000000); ("B1152000", 1152000);
    ("B1500000", 1500000); ("B2000000", 2000000); ("B2500000", 2500000); ("B3000000", 3000000);
    ("B3500000", 3500000); ("B4000000", 4000000) ]%string.

Definition xnu_consts : HostConsts := {|
  host_const name :=
    default 0 (snd <$> List.find (fun row => String.eqb (fst row) name) xnu_rows);
  host_defines _ := true |}.

(** A speed is a number of its own there. *)
Definition xnu_speed : HostSpeed := {|
  h_cfsetospeed t sp := HTermios (ht_iflag t) (ht_oflag t) (ht_cflag t) (ht_lflag t) (ht_cc t)
                          (ht_ispeed t) sp;
  h_cfsetispeed t sp := HTermios (ht_iflag t) (ht_oflag t) (ht_cflag t) (ht_lflag t) (ht_cc t)
                          sp (ht_ospeed t);
  h_cfgetospeed := ht_ospeed |}.

#[export] Instance xnu_speed_ok : @HostSpeedOk xnu_consts xnu_speed 0.
Proof. by split. Qed.

(** The world is one terminal and the mouse bit, which setting it wipes. *)
Definition toy_console : ConsoleHost (htermios * bool) := {|
  con_windows := true; is_console fd _ := fd =? 0; tty_xtmouse w := snd w; tty_uncanon _ := false;
  kNtEnableMouseInput := 16; kNtEnableQuickEditMode := 64;
  GetConsoleMode _ := Some 0; SetConsoleMode _ w := w; con_POLLIN := 1 |}.

Definition toy_tty : TtyHost (htermios * bool) := {|
  h_tcgetattr fd w := (if fd =? 0 then Ok (fst w) else Err ENOTTY, w);
  h_tcsetattr fd _ t w :=
    if fd =? 0
    then (Ok tt, (HTermios (ht_iflag t) (ht_oflag t) (ht_cflag t) (ht_lflag t) (ht_cc t)
                    (if ht_ispeed t =? 0 then ht_ispeed (fst w) else ht_ispeed t) (ht_ospeed t), false))
    else (Err ENOTTY, w);
  or_xtmouse w := (fst w, true);
  h_tcflush _ _ w := (Ok tt, w); h_tcflow _ _ w := (Ok tt, w); h_ioctl _ _ w := (Ok 0, w);
  h_getfl _ w := (Ok 0, w); h_setfl _ _ w := (Ok 0, w); h_tcgetpgrp _ w := (Ok 1, w);
  h_tcsetpgrp _ _ w := (Ok 0, w); h_tcgetsid _ w := (Ok 1, w) |}.

#[export] Instance toy_tty_ok : @TtyHostOk _ toy_console toy_tty.
Proof.
  refine {| is_tty fd := fd =? 0; tty_state w _ := fst w |}; try done.
  - intros fd w. simpl. by destruct (fd =? 0).
  - intros fd act t w w'. simpl. by destruct (fd =? 0).
Defined.

(** A raw mode at 9600 baud, eight bits. *)
Definition raw_mode : lin_termios :=
  LinTermios 0x4000 0 (48 + 128 + 13) 0 0 (<[6%nat := 1]> (replicate 32 0)) 0 0.

(** There the host makes every change. *)
Lemma termios_reads_back_witness :
  let set := @shim_tcsetattr xnu_consts xnu_speed _ toy_console toy_tty 0 TCSANOW raw_mode in
  let get := @shim_tcgetattr xnu_consts xnu_speed _ toy_tty 0 in
  exists s1 s2,
    set (console_init, (HTermios 0 0 0 0 [] 0 0, true)) = Some (Ok tt, s1) /\
    get s1 = Some (Ok (@termios_kept xnu_consts raw_mode 32), s2).
Proof.
  intros set get.
  destruct (@termios_reads_back xnu_consts xnu_speed _ toy_console toy_tty toy_tty_ok 0 xnu_speed_ok
    ltac:(vm_compute; reflexivity) 0 TCSANOW raw_mode console_init (HTermios 0 0 0 0 [] 0 0, true)
    ltac:(vm_compute; eauto)) as [Hset _].
  destruct (Hset _ _ eq_refl) as [(got & w2 & Hget & Ht) _]. eexists _, _. split; [reflexivity|].
  apply took_all in Ht; [|vm_compute; reflexivity]. rewrite <- Ht. exact Hget.
Defined.

(** Nothing is lost there but what XNU has no bit for. *)
Lemma raw_mode_kept : @termios_kept xnu_consts raw_mode 32 = raw_mode.
Proof. vm_compute. reflexivity. Qed.
