(* ===== verification/Inotify.v ===== *)
(** * shim/inotify.c: the emulation

    Instances, their watches, the records written to the pipe, the scan that
    compares a directory or a file with what was last seen, and the three
    entry points. The host's calls are an interface; every definition is what
    runs under one lock. A [scan_round] is one turn of the scanning thread's
    loop, so a history is any interleaving of rounds and calls.

    The theorems: a reader recovers the records, a scan reports exactly the
    difference of the listings name by name, and the watch table stays sound. *)
From stdpp Require Import sorting.
From S2P Require Import Prelude Host Console.

(** ** Linux's values *)

Definition LIN_IN_MODIFY : Z := 0x2.
Definition LIN_IN_ATTRIB : Z := 0x4.
Definition LIN_IN_CREATE : Z := 0x100.
Definition LIN_IN_DELETE : Z := 0x200.
Definition LIN_IN_DELETE_SELF : Z := 0x400.
Definition LIN_IN_Q_OVERFLOW : Z := 0x4000.
Definition LIN_IN_IGNORED : Z := 0x8000.
Definition LIN_IN_ONLYDIR : Z := 0x01000000.
Definition LIN_IN_DONT_FOLLOW : Z := 0x02000000.
Definition LIN_IN_MASK_CREATE : Z := 0x10000000.
Definition LIN_IN_MASK_ADD : Z := 0x20000000.
Definition LIN_IN_ISDIR : Z := 0x40000000.
Definition LIN_IN_ALL_EVENTS : Z := 0xfff.
Definition LIN_IN_NONBLOCK : Z := 0x800.
Definition LIN_IN_CLOEXEC : Z := 0x80000.

Definition SHIM_IN_MAX_INSTANCES : nat := 16.
Definition SHIM_IN_MAX_WATCHES : nat := 8192.
Definition SHIM_IN_EVENT_ALIGN : nat := 16.

(** cosmo's limits on a name and a path. *)
Class InLimits := { NAME_MAX : nat; IN_PATH_MAX : nat }.

(** ** Data *)

(** The fields of struct stat the scan compares. *)
Record in_stat := InStat {
  st_ino : Z; st_mtime : Z; st_mtime_ns : Z; st_size : Z; st_mode : Z }.

Record kid := Kid {
  k_name : cstr; k_ino : Z; k_mtime : Z; k_mtime_ns : Z; k_size : Z; k_mode : Z;
  k_isdir : bool }.

Record watch := Watch {
  w_wd : Z; w_path : cstr; w_mask : Z; w_isdir : bool;
  w_dropped : bool;           (* reported IN_IGNORED, waiting to be reaped *)
  w_kids : list kid;          (* a directory's last listing, sorted *)
  w_self : kid }.             (* anything else's last stat *)

Record inst := Inst {
  in_used : bool; in_rfd : Z; in_wfd : Z; in_next_wd : Z;
  in_dead : bool; in_overflow : bool; in_scanning : bool;
  in_watches : list watch; in_cap : nat }.

#[export] Instance kid_eq_dec : EqDecision kid.
Proof. solve_decision. Defined.
#[export] Instance watch_eq_dec : EqDecision watch.
Proof. solve_decision. Defined.
#[export] Instance inst_eq_dec : EqDecision inst.
Proof. solve_decision. Defined.

Definition no_inst : inst := Inst false 0 0 0 false false false [] 0.

(** What the emulation asks of the host. [h_alloc] is whether an allocation
    succeeds; [h_write] puts one record into a non-blocking pipe. *)
Class InHost (W : Type) := {
  h_alloc : W -> bool * W;
  h_in_stat : cstr -> W -> res in_stat * W;
  h_in_lstat : cstr -> W -> res in_stat * W;
  h_opendir : cstr -> W -> res (list cstr) * W;
  h_write : Z -> list Z -> W -> res unit * W;
  h_pipe : W -> res (Z * Z) * W;
  h_set_nonblock : Z -> W -> W;
  h_set_cloexec : Z -> W -> W;
  h_close : Z -> W -> W;
  h_spawn : W -> bool * W }.

(** ** Names in order *)

Fixpoint strcmp (a b : cstr) : comparison :=
  match a, b with
  | [], [] => Eq
  | [], _ => Lt
  | _, [] => Gt
  | x :: a', y :: b' => match x ?= y with Eq => strcmp a' b' | c => c end
  end.

Definition kid_le (a b : kid) : Prop := strcmp (k_name a) (k_name b) <> Gt.

#[export] Instance kid_le_dec : RelDecision kid_le.
Proof. intros a b. unfold kid_le. apply _. Defined.

Definition S_ISDIR (mode : Z) : bool := Z.land mode 0xF000 =? 0x4000.

Definition kid_from_stat (name : cstr) (st : in_stat) : kid :=
  Kid name (st_ino st) (st_mtime st) (st_mtime_ns st) (st_size st) (st_mode st)
    (S_ISDIR (st_mode st)).

Section wire.
Context `{InLimits}.

(** ** The wire format *)

Definition le32 (x : Z) : list Z :=
  [x mod 256; (x / 256) mod 256; (x / 65536) mod 256; (x / 16777216) mod 256].

(** The name, its NUL and the padding up to the alignment. *)
Definition padded_len (n : nat) : nat :=
  let k := (n + 1 + SHIM_IN_EVENT_ALIGN - 1)%nat in (k - k mod SHIM_IN_EVENT_ALIGN)%nat.

Definition event_name (name : cstr) : list Z :=
  let n := Nat.min (length name) NAME_MAX in
  if bool_decide (name = []) then []
  else take n name ++ replicate (padded_len n - n) 0.

Definition event_record (wd mask : Z) (name : cstr) : list Z :=
  let nm := event_name name in
  le32 (u32 wd) ++ le32 mask ++ le32 0 ++ le32 (Z.of_nat (length nm)) ++ nm.

End wire.

(** ** Comparing two listings *)

Definition dir_bit (isdir : bool) : Z := if isdir then LIN_IN_ISDIR else 0.

Definition when_in (mask want : Z) (ev : Z * cstr) : list (Z * cstr) :=
  if has mask want then [ev] else [].

Definition touched (o p : kid) : bool :=
  negb (k_mtime o =? k_mtime p) || negb (k_mtime_ns o =? k_mtime_ns p) ||
  negb (k_size o =? k_size p).

(** A name that is in both. *)
Definition kid_changed (mask : Z) (o p : kid) : list (Z * cstr) :=
  let isdir := dir_bit (k_isdir p) in
  if negb (k_ino o =? k_ino p) then
    when_in mask LIN_IN_DELETE (Z.lor LIN_IN_DELETE isdir, k_name o) ++
    when_in mask LIN_IN_CREATE (Z.lor LIN_IN_CREATE isdir, k_name p)
  else
    (if touched o p then when_in mask LIN_IN_MODIFY (Z.lor LIN_IN_MODIFY isdir, k_name p) else []) ++
    (if negb (k_mode o =? k_mode p)
     then when_in mask LIN_IN_ATTRIB (Z.lor LIN_IN_ATTRIB isdir, k_name p) else []).

Definition kid_gone (mask : Z) (o : kid) : list (Z * cstr) :=
  when_in mask LIN_IN_DELETE (Z.lor LIN_IN_DELETE (dir_bit (k_isdir o)), k_name o).

Definition kid_new (mask : Z) (p : kid) : list (Z * cstr) :=
  when_in mask LIN_IN_CREATE (Z.lor LIN_IN_CREATE (dir_bit (k_isdir p)), k_name p).

(** The walk over both lists in step. *)
Fixpoint diff_kids (mask : Z) (old : list kid) : list kid -> list (Z * cstr) :=
  fix walk now :=
    match old, now with
    | [], [] => []
    | [], p :: now' => kid_new mask p ++ walk now'
    | o :: old', [] => kid_gone mask o ++ diff_kids mask old' []
    | o :: old', p :: now' =>
        match strcmp (k_name o) (k_name p) with
        | Lt => kid_gone mask o ++ diff_kids mask old' (p :: now')
        | Gt => kid_new mask p ++ walk now'
        | Eq => kid_changed mask o p ++ diff_kids mask old' now'
        end
    end.

Definition in_set_flags (i : inst) (dead overflow : bool) : inst :=
  Inst (in_used i) (in_rfd i) (in_wfd i) (in_next_wd i) dead overflow (in_scanning i)
    (in_watches i) (in_cap i).

Definition in_set_watches (i : inst) (ws : list watch) : inst :=
  Inst (in_used i) (in_rfd i) (in_wfd i) (in_next_wd i) (in_dead i) (in_overflow i)
    (in_scanning i) ws (in_cap i).

Definition w_set (w : watch) (dropped : bool) (kids : list kid) (self : kid) : watch :=
  Watch (w_wd w) (w_path w) (w_mask w) (w_isdir w) dropped kids self.

Definition w_set_mask (w : watch) (mask : Z) : watch :=
  Watch (w_wd w) (w_path w) mask (w_isdir w) (w_dropped w) (w_kids w) (w_self w).

(** ** Emitting and scanning *)

Section emulation.
Context {W : Type} `{InLimits} `{InHost W}.

(** Writes one record: dropped with a note when the pipe is full, and the end
    of the instance when the reader is gone. *)
Definition emit (i : inst) (wd mask : Z) (name : cstr) : M W inst :=
  if in_dead i then mret i
  else
    r ← step (h_write (in_wfd i) (event_record wd mask name));
    mret (match r with
          | Ok _ => i
          | Err e =>
              if bool_decide (e = EAGAIN) || bool_decide (e = EWOULDBLOCK)
              then in_set_flags i (in_dead i) true
              else if bool_decide (e = EINTR) then i
              else in_set_flags i true (in_overflow i)
          end).

Fixpoint emit_all (i : inst) (wd : Z) (evs : list (Z * cstr)) : M W inst :=
  match evs with
  | [] => mret i
  | (mask, name) :: evs' => i ← emit i wd mask name; emit_all i wd evs'
  end.

(** The readdir loop: [n] entries taken, room for [cap]. A failed allocation
    ends it with what it has. *)
Fixpoint list_loop (path : cstr) (names : list cstr) (n cap : nat) : M W (list kid) :=
  match names with
  | [] => mret []
  | name :: names' =>
      let child := path ++ 47 :: name in
      if bool_decide (name = [46]) || bool_decide (name = [46; 46]) ||
         bool_decide (IN_PATH_MAX <= length child)%nat
      then list_loop path names' n cap
      else
        r ← step (h_in_lstat child);
        match r with
        | Err _ => list_loop path names' n cap
        | Ok st =>
            grown ← (if bool_decide (n = cap) then step h_alloc else mret true);
            if negb grown then mret []
            else
              let cap := if bool_decide (n = cap) then if bool_decide (cap = 0)%nat then 16%nat else (cap * 2)%nat
                         else cap in
              dup ← step h_alloc;
              if negb dup then mret []
              else
                rest ← list_loop path names' (S n) cap;
                mret (kid_from_stat name st :: rest)
        end
  end.

(** What a vanished path makes of its watch. *)
Definition path_gone (e : errno) : bool := bool_decide (e = ENOENT) || bool_decide (e = ENOTDIR).

Definition scan_dir (i : inst) (w : watch) : M W (inst * watch) :=
  d ← step (h_opendir (w_path w));
  match d with
  | Err e =>
      if path_gone e then
        i ← (if has (w_mask w) LIN_IN_DELETE_SELF then emit i (w_wd w) LIN_IN_DELETE_SELF [] else mret i);
        i ← (if negb (w_mask w =? 0) then emit i (w_wd w) LIN_IN_IGNORED [] else mret i);
        mret (i, w_set w true (w_kids w) (w_self w))
      else mret (i, w)
  | Ok names =>
      now ← list_loop (w_path w) names 0 0;
      let now := merge_sort kid_le now in
      i ← emit_all i (w_wd w) (diff_kids (w_mask w) (w_kids w) now);
      mret (i, w_set w (w_dropped w) now (w_self w))
  end.

(** What a file watch reports of a fresh stat. *)
Definition self_changed (mask : Z) (self now : kid) : list (Z * cstr) :=
  if negb (k_ino now =? k_ino self) then when_in mask LIN_IN_ATTRIB (LIN_IN_ATTRIB, [])
  else
    (if touched now self then when_in mask LIN_IN_MODIFY (LIN_IN_MODIFY, []) else []) ++
    (if negb (k_mode now =? k_mode self) then when_in mask LIN_IN_ATTRIB (LIN_IN_ATTRIB, []) else []).

Definition stat_of (mask : Z) (path : cstr) : M W (res in_stat) :=
  if has mask LIN_IN_DONT_FOLLOW then step (h_in_lstat path) else step (h_in_stat path).

Definition scan_file (i : inst) (w : watch) : M W (inst * watch) :=
  r ← stat_of (w_mask w) (w_path w);
  match r with
  | Err e =>
      if path_gone e then
        i ← (if has (w_mask w) LIN_IN_DELETE_SELF then emit i (w_wd w) LIN_IN_DELETE_SELF [] else mret i);
        i ← emit i (w_wd w) LIN_IN_IGNORED [];
        mret (i, w_set w true (w_kids w) (w_self w))
      else mret (i, w)
  | Ok st =>
      let now := kid_from_stat (k_name (w_self w)) st in
      i ← emit_all i (w_wd w) (self_changed (w_mask w) (w_self w) now);
      mret (i, w_set w (w_dropped w) (w_kids w) now)
  end.

Definition scan_watch (i : inst) (w : watch) : M W (inst * watch) :=
  if w_dropped w then mret (i, w)
  else if w_isdir w then scan_dir i w else scan_file i w.

(** [done] is scanned, [todo] is not. *)
Fixpoint scan_watches (i : inst) (done todo : list watch) : M W inst :=
  match todo with
  | [] => mret (in_set_watches i done)
  | w :: todo' => '(i, w) ← scan_watch i w; scan_watches i (done ++ [w]) todo'
  end.

(** One turn of the scanning thread, under the lock; the answer is whether
    the thread goes on. *)
Definition scan_round (i : inst) : M W (inst * bool) :=
  if in_dead i then mret (i, false)
  else
    i ← (if in_overflow i
         then emit (in_set_flags i (in_dead i) false) (-1) LIN_IN_Q_OVERFLOW []
         else mret i);
    i ← scan_watches i [] (in_watches i);
    let i := in_set_watches i (filter (fun w => w_dropped w = false) (in_watches i)) in
    mret (i, negb (in_dead i)).

(** The thread's way out: the slot becomes free. *)
Definition scan_exit (i : inst) : M W inst :=
  _ ← modifies (h_close (in_wfd i));
  mret (Inst false (in_rfd i) (-1) (in_next_wd i) (in_dead i) (in_overflow i) false [] 0).

(** ** The calls *)

Definition inst_by_fd_locked (insts : list inst) (fd : Z) : option nat :=
  find_index (fun i => in_used i && negb (in_dead i) && (in_rfd i =? fd)) insts.

Definition emu_init1 (flags : Z) (insts : list inst) : M W (res Z * list inst) :=
  if has flags (Z.lnot (Z.lor LIN_IN_NONBLOCK LIN_IN_CLOEXEC)) then mret (Err EINVAL, insts)
  else
    match find_index (fun i => negb (in_used i)) insts with
    | None => mret (Err EMFILE, insts)
    | Some k =>
        r ← step h_pipe;
        match r with
        | Err e => mret (Err e, insts)
        | Ok (rfd, wfd) =>
            _ ← (if has flags LIN_IN_NONBLOCK then modifies (h_set_nonblock rfd) else mret tt);
            _ ← (if has flags LIN_IN_CLOEXEC
                 then modifies (fun w => h_set_cloexec wfd (h_set_cloexec rfd w)) else mret tt);
            _ ← modifies (h_set_nonblock wfd);
            mret (Ok rfd, <[k := Inst true rfd wfd 1 false false false [] 0]> insts)
        end
    end.

(** The live watch of a path. *)
Definition watch_of_path (path : cstr) (w : watch) : bool :=
  negb (w_dropped w) && bool_decide (w_path w = path).

(** A new watch at the end of the array, with its first listing taken in
    silence; the answer also says whether the thread has to be started. *)
Definition new_watch (i : inst) (path : cstr) (mask : Z) (isdir : bool) (st : in_stat)
    : M W (res Z * inst * bool) :=
  if bool_decide (SHIM_IN_MAX_WATCHES <= length (in_watches i))%nat then mret (Err ENOSPC, i, false)
  else
    let full := bool_decide (length (in_watches i) = in_cap i) in
    grown ← (if full then step h_alloc else mret true);
    if negb grown then mret (Err ENOMEM, i, false)
    else
      let cap := if full then if bool_decide (in_cap i = 0)%nat then 8%nat else (in_cap i * 2)%nat
                 else in_cap i in
      let wd := in_next_wd i in
      let i := Inst (in_used i) (in_rfd i) (in_wfd i) (wd + 1) (in_dead i) (in_overflow i)
                 (in_scanning i) (in_watches i) cap in
      dup ← step h_alloc;
      if negb dup then mret (Err ENOMEM, i, false)
      else
        let w := Watch wd path mask isdir false [] (kid_from_stat [] st) in
        '(i, w) ← (if isdir
                   then '(i, w) ← scan_dir i (w_set_mask w 0); mret (i, w_set_mask w mask)
                   else mret (i, w));
        let start := negb (in_scanning i) && negb (in_dead i) in
        mret (Ok wd,
              Inst (in_used i) (in_rfd i) (in_wfd i) (in_next_wd i) (in_dead i) (in_overflow i)
                (in_scanning i || start) (in_watches i ++ [w]) (in_cap i), start).

(** Under the instance's lock. *)
Definition add_watch_locked (i : inst) (path : cstr) (mask : Z) (isdir : bool) (st : in_stat)
    : M W (res Z * inst * bool) :=
  match find_index (watch_of_path path) (in_watches i) with
  | Some k =>
      match in_watches i !! k with
      | None => mret (Err EBADF, i, false)
      | Some w =>
          if has mask LIN_IN_MASK_CREATE then mret (Err EEXIST, i, false)
          else
            let mask := if has mask LIN_IN_MASK_ADD then Z.lor (w_mask w) mask else mask in
            mret (Ok (w_wd w), in_set_watches i (<[k := w_set_mask w mask]> (in_watches i)), false)
      end
  | None => new_watch i path mask isdir st
  end.

Definition emu_add_watch (fd : Z) (path : option cstr) (mask : Z) (insts : list inst)
    : M W (res Z * list inst) :=
  match path with
  | None => mret (Err EFAULT, insts)
  | Some path =>
      if negb (has mask LIN_IN_ALL_EVENTS) then mret (Err EINVAL, insts)
      else
        r ← stat_of mask path;
        match r with
        | Err e => mret (Err e, insts)
        | Ok st =>
            let isdir := S_ISDIR (st_mode st) in
            if has mask LIN_IN_ONLYDIR && negb isdir then mret (Err ENOTDIR, insts)
            else
              match inst_by_fd_locked insts fd with
              | None => mret (Err EBADF, insts)
              | Some k =>
                  '(r, i, start) ← add_watch_locked (default no_inst (insts !! k)) path mask isdir st;
                  started ← (if (start : bool) then step h_spawn else mret true);
                  if negb started then
                    mret (Err EAGAIN,
                      <[k := Inst (in_used i) (in_rfd i) (in_wfd i) (in_next_wd i) (in_dead i)
                               (in_overflow i) false (in_watches i) (in_cap i)]> insts)
                  else mret (r, <[k := i]> insts)
              end
        end
  end.

Definition emu_rm_watch (fd wd : Z) (insts : list inst) : M W (res unit * list inst) :=
  match inst_by_fd_locked insts fd with
  | None => mret (Err EBADF, insts)
  | Some k =>
      let i := default no_inst (insts !! k) in
      match find_index (fun w => (w_wd w =? wd) && negb (w_dropped w)) (in_watches i) with
      | None => mret (Err EINVAL, insts)
      | Some j =>
          i ← emit i wd LIN_IN_IGNORED [];
          mret (Ok tt, <[k := in_set_watches i (take j (in_watches i) ++ drop (S j) (in_watches i))]> insts)
      end
  end.
End emulation.

(** ** What a reader makes of the pipe *)

Definition rd32 (b : list Z) : Z := b.[0] + 256 * b.[1] + 65536 * b.[2] + 16777216 * b.[3].

(** The name in its padded field: up to the first NUL. *)
Fixpoint name_in (b : list Z) : cstr :=
  match b with
  | c :: b' => if c =? 0 then [] else c :: name_in b'
  | [] => []
  end.

(** A reader takes a header, then as many bytes as it says. *)
Fixpoint read_events (fuel : nat) (b : list Z) : list (Z * Z * cstr) :=
  match fuel with
  | O => []
  | S fuel' =>
      if bool_decide (length b < 16)%nat then []
      else
        let len := Z.to_nat (rd32 (drop 12 b)) in
        (s32 (rd32 b), rd32 (drop 4 b), name_in (take len (drop 16 b)))
          :: read_events fuel' (drop (16 + len) b)
  end.

Section records.
Context `{InLimits}.

(** A descriptor, a mask and a name as directory entries have them. *)
Definition event_ok (ev : Z * Z * cstr) : Prop :=
  let '(wd, mask, name) := ev in
  - 2 ^ 31 <= wd < 2 ^ 31 /\ 0 <= mask < 2 ^ 32 /\
  (length name <= NAME_MAX)%nat /\ Forall (fun c => c <> 0) name.

Lemma rd32_le32 x rest : 0 <= x < 2 ^ 32 -> rd32 (le32 x ++ rest) = x.
Proof.
  intros Hx. unfold rd32, le32, byte_at. cbn [nth app].
  pose proof (Z.div_mod x 256 ltac:(done)). pose proof (Z.div_mod (x / 256) 256 ltac:(done)).
  pose proof (Z.div_mod (x / 65536) 256 ltac:(done)).
  replace (x / 65536) with (x / 256 / 256) in * by (by rewrite Z.div_div).
  replace (x / 16777216) with (x / 256 / 256 / 256) by (by rewrite !Z.div_div).
  assert (Hs : 0 <= x / 256 / 256 / 256 < 256).
  { rewrite !Z.div_div by done. split; [apply Z.div_pos; lia|apply Z.div_lt_upper_bound; lia]. }
  rewrite (Z.mod_small (x / 256 / 256 / 256)) by done. lia.
Qed.

Lemma padded_len_spec n : (n < padded_len n)%nat /\ (padded_len n mod 16 = 0)%nat /\ (padded_len n <= n + 16)%nat.
Proof.
  unfold padded_len, SHIM_IN_EVENT_ALIGN. set (k := (n + 1 + 16 - 1)%nat).
  pose proof (Nat.div_mod k 16 ltac:(done)) as Hdm. pose proof (Nat.mod_upper_bound k 16 ltac:(done)).
  split_and!; [lia| |lia].
  replace (k - k mod 16)%nat with (k / 16 * 16)%nat by lia. by apply Nat.mod_mul.
Qed.

Lemma name_in_padded name n : Forall (fun c => c <> 0) name -> name_in (name ++ replicate n 0) = name.
Proof.
  induction 1 as [|c name Hc _ IH]; cbn [app name_in]; [by destruct n|].
  by rewrite (proj2 (Z.eqb_neq _ _) Hc), IH.
Qed.

Lemma event_name_spec name :
  (length name <= NAME_MAX)%nat -> Forall (fun c => c <> 0) name ->
  name_in (event_name name) = name /\ (length (event_name name) mod 16 = 0)%nat /\
  (length (event_name name) <= NAME_MAX + 16)%nat.
Proof.
  intros Hlen Hnz. unfold event_name. case_bool_decide as He; [subst; cbn; split_and!; [done|done|lia]|].
  rewrite Nat.min_l, take_ge by lia. destruct (padded_len_spec (length name)) as (Hlt & Hmod & Hle).
  rewrite name_in_padded by done. rewrite length_app, length_replicate.
  replace (length name + (padded_len (length name) - length name))%nat with (padded_len (length name)) by lia.
  split_and!; [done..|lia].
Qed.

Lemma s32_u32 x : - 2 ^ 31 <= x < 2 ^ 31 -> s32 (u32 x) = x.
Proof.
  intros Hx. unfold s32, u32. rewrite Zplus_mod_idemp_l. rewrite Z.mod_small by lia. lia.
Qed.

Lemma read_one fuel wd mask name rest :
  event_ok (wd, mask, name) -> Z.of_nat NAME_MAX < 65536 ->
  read_events (S fuel) (event_record wd mask name ++ rest) = (wd, mask, name) :: read_events fuel rest.
Proof.
  intros (Hwd & Hmask & Hlen & Hnz) Hmax. destruct (event_name_spec name Hlen Hnz) as (Hname & _ & Hle).
  unfold event_record. set (nm := event_name name) in *. cbn [read_events].
  rewrite bool_decide_eq_false_2.
  2: { rewrite <- !app_assoc, !length_app. cbn [le32 length]. lia. }
  rewrite <- !app_assoc. rewrite (rd32_le32 (u32 wd)) by (apply Z.mod_pos_bound; lia).
  rewrite s32_u32 by done. change (drop 4 (le32 (u32 wd) ++ ?r)) with r. rewrite rd32_le32 by done.
  change (drop 12 (le32 (u32 wd) ++ le32 mask ++ le32 0 ++ ?r)) with r.
  rewrite rd32_le32 by lia. rewrite Nat2Z.id.
  change (drop 16 (le32 (u32 wd) ++ le32 mask ++ le32 0 ++ le32 (Z.of_nat (length nm)) ++ ?r)) with r.
  rewrite take_app_length, Hname. f_equal. f_equal.
  rewrite <- drop_drop.
  change (drop 16 (le32 (u32 wd) ++ le32 mask ++ le32 0 ++ le32 (Z.of_nat (length nm)) ++ ?r)) with r.
  by rewrite drop_app_length.
Qed.

(** what the scanning thread writes is what a reader of the descriptor
    gets: however many records are in the pipe, reading headers and lengths
    off it recovers every watch descriptor, mask and name in order, and each
    record keeps the alignment the kernel's have. *)
Theorem records_read_back evs :
  Forall event_ok evs -> Z.of_nat NAME_MAX < 65536 ->
  read_events (length evs) (concat (map (fun '(wd, mask, name) => event_record wd mask name) evs)) = evs /\
  Forall (fun '(wd, mask, name) => length (event_record wd mask name) mod 16 = 0)%nat evs.
Proof.
  intros Hok Hmax. split.
  - induction Hok as [|[[wd mask] name] evs Hev _ IH]; [done|].
    cbn [length map concat]. by rewrite read_one, IH.
  - eapply Forall_impl; [exact Hok|]. intros [[wd mask] name] (_ & _ & Hlen & Hnz).
    destruct (event_name_spec name Hlen Hnz) as (_ & Hmod & _).
    unfold event_record. rewrite !length_app. cbn [le32 length].
    replace (4 + (4 + (4 + (4 + length (event_name name)))))%nat with (length (event_name name) + 1 * 16)%nat by lia.
    by rewrite Nat.mod_add.
Qed.
End records.

(** ** A scan reports the difference, name by name *)

Lemma strcmp_refl a : strcmp a a = Eq.
Proof. induction a as [|x a IH]; cbn; [done|]. by rewrite Z.compare_refl. Qed.

Lemma strcmp_eq a b : strcmp a b = Eq -> a = b.
Proof.
  revert b. induction a as [|x a IH]; intros [|y b]; cbn; try done.
  destruct (Z.compare_spec x y) as [->| |]; [|done..]. intros Hc. f_equal. by apply IH.
Qed.

Lemma strcmp_opp a b : strcmp b a = CompOpp (strcmp a b).
Proof.
  revert b. induction a as [|x a IH]; intros [|y b]; cbn; try done.
  rewrite (Z.compare_antisym x y). destruct (x ?= y); cbn; auto.
Qed.

Lemma strcmp_trans a b c : strcmp a b = Lt -> strcmp b c = Lt -> strcmp a c = Lt.
Proof.
  revert b c. induction a as [|x a IH]; intros [|y b] [|z c]; cbn; try done.
  destruct (Z.compare_spec x y) as [->|Hxy|]; [| |done].
  - destruct (y ?= z); [apply IH|done|done].
  - intros _. destruct (Z.compare_spec y z) as [->|Hyz|]; [|intros _|done].
    + by rewrite (proj2 (Z.compare_lt_iff x z)).
    + by rewrite (proj2 (Z.compare_lt_iff x z)) by lia.
Qed.

#[export] Instance kid_le_total : Total kid_le.
Proof.
  intros a b. unfold kid_le. rewrite (strcmp_opp (k_name a) (k_name b)).
  destruct (strcmp (k_name a) (k_name b)); auto; right; done.
Qed.

#[export] Instance kid_le_trans : Transitive kid_le.
Proof.
  intros a b c. unfold kid_le. intros H1 H2.
  destruct (strcmp (k_name a) (k_name b)) eqn:E1; [|..]; [| |done].
  - apply strcmp_eq in E1. by rewrite E1.
  - destruct (strcmp (k_name b) (k_name c)) eqn:E2; [| |done].
    + apply strcmp_eq in E2. by rewrite <- E2, E1.
    + by rewrite (strcmp_trans _ _ _ E1 E2).
Qed.

Definition kid_lt (a b : kid) : Prop := strcmp (k_name a) (k_name b) = Lt.

(** A listing as the scan keeps it. *)
Definition listing_ok (l : list kid) : Prop := StronglySorted kid_lt l.

Definition kid_of (nm : cstr) (l : list kid) : option kid :=
  List.find (fun k => bool_decide (k_name k = nm)) l.

(** What one name's two states have to say. *)
Definition name_report (mask : Z) (o p : option kid) : list (Z * cstr) :=
  match o, p with
  | Some o, Some p => kid_changed mask o p
  | Some o, None => kid_gone mask o
  | None, Some p => kid_new mask p
  | None, None => []
  end.

Definition about (nm : cstr) (evs : list (Z * cstr)) : list (Z * cstr) :=
  filter (fun ev => snd ev = nm) evs.

Lemma about_app nm l1 l2 : about nm (l1 ++ l2) = about nm l1 ++ about nm l2.
Proof. apply filter_app. Qed.

Lemma about_named nm a evs :
  Forall (fun ev => snd ev = a) evs -> about nm evs = if decide (a = nm) then evs else [].
Proof.
  unfold about. induction 1 as [|ev evs Hev Hevs IH]; [by destruct (decide _)|].
  rewrite filter_cons, Hev, IH. by destruct (decide (a = nm)).
Qed.

Lemma when_in_named mask want m a : Forall (fun ev => snd ev = a) (when_in mask want (m, a)).
Proof. unfold when_in. destruct (has mask want); by repeat constructor. Qed.

Lemma kid_gone_named mask o : Forall (fun ev => snd ev = k_name o) (kid_gone mask o).
Proof. apply when_in_named. Qed.

Lemma kid_new_named mask p : Forall (fun ev => snd ev = k_name p) (kid_new mask p).
Proof. apply when_in_named. Qed.

Lemma kid_changed_named mask o p :
  k_name o = k_name p -> Forall (fun ev => snd ev = k_name p) (kid_changed mask o p).
Proof.
  intros He. unfold kid_changed. rewrite He.
  destruct (negb (k_ino o =? k_ino p)); apply Forall_app; split;
    repeat case_match; auto using when_in_named.
Qed.

Lemma kid_of_cons nm k l :
  kid_of nm (k :: l) = if decide (k_name k = nm) then Some k else kid_of nm l.
Proof.
  unfold kid_of. cbn [List.find]. case_bool_decide; destruct (decide (k_name k = nm)); done.
Qed.

Lemma kid_of_below nm l : Forall (fun k => strcmp nm (k_name k) = Lt) l -> kid_of nm l = None.
Proof.
  induction 1 as [|k l Hk _ IH]; [done|]. rewrite kid_of_cons, IH.
  destruct (decide (k_name k = nm)) as [He|]; [|done]. by rewrite He, strcmp_refl in Hk.
Qed.

Lemma listing_head k l : listing_ok (k :: l) -> listing_ok l /\ kid_of (k_name k) l = None.
Proof. intros [Hs Hf]%StronglySorted_inv. split; [done|]. by apply kid_of_below. Qed.

Lemma kid_of_lower nm k l :
  listing_ok (k :: l) -> strcmp nm (k_name k) = Lt -> kid_of nm (k :: l) = None.
Proof.
  intros [_ Hf]%StronglySorted_inv Hlt. apply kid_of_below. constructor; [done|].
  eapply Forall_impl; [exact Hf|]. intros x Hx. exact (strcmp_trans _ _ _ Hlt Hx).
Qed.

(** One step of the walk: a piece about one name in front of a rest that says
    nothing more of it. *)
Lemma about_step nm a piece rest o p o' p' mask :
  Forall (fun ev => snd ev = a) piece -> about nm rest = name_report mask o' p' ->
  (a = nm -> piece = name_report mask o p /\ o' = None /\ p' = None) ->
  (a <> nm -> o' = o /\ p' = p) ->
  about nm (piece ++ rest) = name_report mask o p.
Proof.
  intros Hpiece Hrest Hsame Hother. rewrite about_app, Hrest, (about_named nm a) by done.
  destruct (decide (a = nm)) as [He|Hne].
  - destruct (Hsame He) as (-> & -> & ->). apply app_nil_r.
  - by destruct (Hother Hne) as [-> ->].
Qed.

Lemma diff_kids_by_name mask old now nm :
  listing_ok old -> listing_ok now ->
  about nm (diff_kids mask old now) = name_report mask (kid_of nm old) (kid_of nm now).
Proof.
  revert now. induction old as [|o old IHo]; intros now.
  - intros Hold. induction now as [|p now IHn]; [done|]. intros Hnow.
    pose proof (listing_head _ _ Hnow) as [Hn Hp].
    change (diff_kids mask [] (p :: now)) with (kid_new mask p ++ diff_kids mask [] now).
    rewrite kid_of_cons. eapply about_step; [apply kid_new_named|by apply IHn| |];
      intros He; (rewrite (decide_True _ _ He) || rewrite (decide_False _ _ He)); [|done].
    by rewrite <- He, Hp.
  - intros Hold. pose proof (listing_head _ _ Hold) as [Ho Hon].
    induction now as [|p now IHn]; intros Hnow.
    { change (diff_kids mask (o :: old) []) with (kid_gone mask o ++ diff_kids mask old []).
      rewrite kid_of_cons. eapply about_step; [apply kid_gone_named|by apply IHo| |];
        intros He; (rewrite (decide_True _ _ He) || rewrite (decide_False _ _ He)); [|done].
      by rewrite <- He, Hon. }
    pose proof (listing_head _ _ Hnow) as [Hn Hp].
    assert (Hwalk : diff_kids mask (o :: old) (p :: now) =
      match strcmp (k_name o) (k_name p) with
      | Lt => kid_gone mask o ++ diff_kids mask old (p :: now)
      | Gt => kid_new mask p ++ diff_kids mask (o :: old) now
      | Eq => kid_changed mask o p ++ diff_kids mask old now
      end) by done.
    rewrite Hwalk. destruct (strcmp (k_name o) (k_name p)) eqn:Hc.
    + apply strcmp_eq in Hc. rewrite !kid_of_cons, Hc.
      eapply about_step; [by apply kid_changed_named|by apply IHo| |];
        intros He; (rewrite !(decide_True _ _ He) || rewrite !(decide_False _ _ He)); [|done].
      by rewrite <- He, Hp, <- Hc, Hon.
    + rewrite (kid_of_cons nm o). eapply about_step; [apply kid_gone_named|by apply IHo| |];
        intros He; (rewrite (decide_True _ _ He) || rewrite (decide_False _ _ He)); [|done].
      rewrite <- He, Hon, (kid_of_lower _ p now) by done. done.
    + assert (Hlt : strcmp (k_name p) (k_name o) = Lt) by (by rewrite strcmp_opp, Hc).
      rewrite (kid_of_cons nm p). eapply about_step; [apply kid_new_named|by apply IHn| |];
        intros He; (rewrite (decide_True _ _ He) || rewrite (decide_False _ _ He)); [|done].
      rewrite <- He, Hp, (kid_of_lower _ o old) by done. done.
Qed.

(** Sorting distinct names gives a listing. *)
Lemma sorted_listing l : NoDup (map k_name l) -> listing_ok (merge_sort kid_le l).
Proof.
  intros Hnd. pose proof (merge_sort_Permutation kid_le l) as Hp.
  assert (Hnd' : NoDup (map k_name (merge_sort kid_le l))) by (by rewrite Hp).
  pose proof (StronglySorted_merge_sort kid_le l) as Hs.
  revert Hnd' Hs. generalize (merge_sort kid_le l). clear. intros l. unfold listing_ok.
  induction l as [|k l IH]; intros Hnd Hs; [constructor|].
  apply NoDup_cons in Hnd as [Hk Hnd]. apply StronglySorted_inv in Hs as [Hs Hf].
  constructor; [by apply IH|]. rewrite Forall_forall in Hf |- *. intros x Hx. specialize (Hf x Hx).
  unfold kid_lt, kid_le in *. destruct (strcmp (k_name k) (k_name x)) eqn:Hc; [|done|done].
  apply strcmp_eq in Hc. destruct Hk. rewrite Hc. apply list_elem_of_fmap. eauto.
Qed.

(** Directories list distinct names. *)
Class InHostOk (W : Type) `{InHost W} := {
  opendir_law path (w : W) names w' : h_opendir path w = (Ok names, w') -> NoDup names }.

Section scans.
Context {W : Type} `{InLimits} `{!InHost W}.

Lemma list_loop_total path names n cap (w : W) :
  exists l w', list_loop path names n cap w = Some (l, w') /\ map k_name l `sublist_of` names.
Proof.
  revert n cap w. induction names as [|name names IH]; intros n cap w; cbn [list_loop].
  { exists [], w. split; [done|constructor]. }
  destruct (_ || _ || _).
  { destruct (IH n cap w) as (l & w' & Hl & Hs). exists l, w'. split; [done|by constructor]. }
  rewrite bind_step. destruct (h_in_lstat _ w) as [[st|e] w1]; cbn [fst snd].
  2: { destruct (IH n cap w1) as (l & w' & Hl & Hs). exists l, w'. split; [done|by constructor]. }
  assert (Hgrow : exists grown w2,
    (if bool_decide (n = cap) then step h_alloc else mret true : M W bool) w1 = Some (grown, w2)).
  { case_bool_decide; [|rewrite run_ret; eauto]. unfold step. destruct (h_alloc w1); eauto. }
  destruct Hgrow as (grown & w2 & Hg). rewrite (bind_run _ _ _ _ _ Hg). destruct grown; cbn [negb].
  2: { exists [], w2. split; [done|apply sublist_nil_l]. }
  rewrite bind_step. destruct (h_alloc w2) as [[] w3]; cbn [fst snd negb].
  2: { exists [], w3. split; [done|apply sublist_nil_l]. }
  edestruct IH as (l & w' & Hl & Hs). rewrite (bind_run _ _ _ _ _ Hl).
  eexists _, w'. split; [apply run_ret|]. cbn. by constructor.
Qed.

(** An instance apart from its two flags. *)
Definition same_table (i i' : inst) : Prop :=
  in_used i' = in_used i /\ in_next_wd i' = in_next_wd i /\ in_watches i' = in_watches i.

Lemma emit_total i wd mask name (w : W) :
  exists i' w', emit i wd mask name w = Some (i', w') /\ same_table i i'.
Proof.
  unfold emit. destruct (in_dead i); [by exists i, w|]. rewrite bind_step, run_ret.
  eexists _, _. split; [done|]. repeat case_match; done.
Qed.

Lemma emit_all_total i wd evs (w : W) :
  exists i' w', emit_all i wd evs w = Some (i', w') /\ same_table i i'.
Proof.
  revert i w. induction evs as [|[mask name] evs IH]; intros i w; [by exists i, w|].
  cbn [emit_all]. destruct (emit_total i wd mask name w) as (i1 & w1 & Hi1 & H1).
  rewrite (bind_run _ _ _ _ _ Hi1). destruct (IH i1 w1) as (i2 & w2 & Hi2 & H2).
  exists i2, w2. split; [done|]. destruct H1 as (? & ? & ?), H2 as (? & ? & ?). split_and!; congruence.
Qed.

(** a scan of a watched directory reports exactly what changed since the
    last one: whatever the host answers it completes, the listing it keeps is
    sorted, and for every name the records written are the deletion, the
    creation, the replacement or the modification that the name's two states
    amount to under the watch's mask, and nothing for a name that did not
    change. *)
Theorem scan_dir_reports `{!InHostOk W} i wt (w w1 : W) names :
  listing_ok (w_kids wt) -> h_opendir (w_path wt) w = (Ok names, w1) ->
  exists now w2 evs i' w',
    list_loop (w_path wt) names 0 0 w1 = Some (now, w2) /\
    emit_all i (w_wd wt) evs w2 = Some (i', w') /\
    scan_dir i wt w = Some ((i', w_set wt (w_dropped wt) (merge_sort kid_le now) (w_self wt)), w') /\
    listing_ok (merge_sort kid_le now) /\
    forall nm, about nm evs =
      name_report (w_mask wt) (kid_of nm (w_kids wt)) (kid_of nm (merge_sort kid_le now)).
Proof.
  intros Hold Hopen. pose proof (opendir_law _ _ _ _ Hopen) as Hnd.
  destruct (list_loop_total (w_path wt) names 0 0 w1) as (now & w2 & Hnow & Hsub).
  set (evs := diff_kids (w_mask wt) (w_kids wt) (merge_sort kid_le now)).
  destruct (emit_all_total i (w_wd wt) evs w2) as (i' & w' & Hemit & _).
  assert (Hl : listing_ok (merge_sort kid_le now)) by (eapply sorted_listing, sublist_NoDup; eauto).
  exists now, w2, evs, i', w'. split_and!; [done..| |done|intros nm; by apply diff_kids_by_name].
  unfold scan_dir. rewrite bind_step, Hopen. cbn [fst snd].
  rewrite (bind_run _ _ _ _ _ Hnow), (bind_run _ _ _ _ _ Hemit). done.
Qed.
End scans.

(** ** The watch table *)

Definition live (ws : list watch) : list watch := filter (fun w => w_dropped w = false) ws.

Definition watches_ok (next_wd : Z) (ws : list watch) : Prop :=
  NoDup (map w_wd ws) /\ Forall (fun w => 1 <= w_wd w < next_wd) ws /\
  NoDup (map w_path (live ws)) /\ Forall (fun w => listing_ok (w_kids w)) ws.

Definition inst_ok (i : inst) : Prop :=
  1 <= in_next_wd i /\ (length (in_watches i) <= SHIM_IN_MAX_WATCHES)%nat /\
  watches_ok (in_next_wd i) (in_watches i) \/ in_used i = false.

(** A watch after a scan: the same watch, possibly dropped. *)
Definition scanned (w w' : watch) : Prop :=
  w_wd w' = w_wd w /\ w_path w' = w_path w /\
  (w_dropped w' = false -> w_dropped w = false) /\
  (listing_ok (w_kids w) -> listing_ok (w_kids w')).

Lemma live_cons w ws : live (w :: ws) = if w_dropped w then live ws else w :: live ws.
Proof. unfold live. rewrite filter_cons. by destruct (w_dropped w). Qed.

Lemma live_app ws1 ws2 : live (ws1 ++ ws2) = live ws1 ++ live ws2.
Proof. apply filter_app. Qed.

Lemma live_path ws p : p ∈ map w_path (live ws) <-> exists w, w ∈ ws /\ w_dropped w = false /\ w_path w = p.
Proof.
  unfold live. rewrite list_elem_of_fmap. split.
  - intros (w & -> & Hw). apply list_elem_of_filter in Hw as [Hd Hw]. eauto.
  - intros (w & Hw & Hd & <-). exists w. split; [done|]. by apply list_elem_of_filter.
Qed.

Lemma scanned_live ws ws' :
  Forall2 scanned ws ws' -> map w_path (live ws') `sublist_of` map w_path (live ws).
Proof.
  induction 1 as [|w w' ws ws' (_ & Hp & Hd & _) _ IH]; [done|]. rewrite !live_cons.
  destruct (w_dropped w') eqn:E'.
  - destruct (w_dropped w); [done|]. by apply sublist_cons.
  - rewrite Hd by done. cbn [map]. rewrite Hp. by apply sublist_skip.
Qed.

Lemma scanned_ok next_wd ws ws' :
  Forall2 scanned ws ws' -> watches_ok next_wd ws -> watches_ok next_wd ws'.
Proof.
  intros Hs (Hnd & Hwd & Hp & Hl).
  assert (Hmap : map w_wd ws' = map w_wd ws).
  { clear -Hs. induction Hs as [|w w' ws ws' (He & _) _ IH]; cbn; congruence. }
  split_and!.
  - by rewrite Hmap.
  - clear -Hs Hwd. induction Hs as [|w w' ws ws' (He & _) _ IH]; [done|].
    apply Forall_cons in Hwd as [? ?]. constructor; [by rewrite He|auto].
  - eapply sublist_NoDup; [exact Hp|by apply scanned_live].
  - clear -Hs Hl. induction Hs as [|w w' ws ws' (_ & _ & _ & He) _ IH]; [done|].
    apply Forall_cons in Hl as [? ?]. constructor; auto.
Qed.

Lemma Forall_sub {A} (P : A -> Prop) l l' : l' `sublist_of` l -> Forall P l -> Forall P l'.
Proof.
  induction 1 as [|x l1 l2 _ IH|x l1 l2 _ IH]; [done|..]; intros [Hx Hl]%Forall_cons; auto.
Qed.

Lemma sub_ok next_wd ws ws' :
  ws' `sublist_of` ws -> watches_ok next_wd ws -> watches_ok next_wd ws'.
Proof.
  intros Hs (Hnd & Hwd & Hp & Hl). split_and!.
  - eapply sublist_NoDup; [exact Hnd|by apply fmap_sublist].
  - eapply Forall_sub; eauto.
  - eapply sublist_NoDup; [exact Hp|apply fmap_sublist]. unfold live.
    clear -Hs. induction Hs as [|w ws' ws Hs IH|w ws' ws Hs IH]; [done|..]; rewrite !filter_cons;
      case_decide; done || by constructor.
  - eapply Forall_sub; eauto.
Qed.

Section table.
Context {W : Type} `{InLimits} `{!InHost W} `{!InHostOk W}.

Lemma gone_spec i wt mask1 (w : W) (a b : bool) i' wt' w' :
  (i1 ← (if a then emit i (w_wd wt) mask1 [] else mret i);
   i2 ← (if b then emit i1 (w_wd wt) LIN_IN_IGNORED [] else mret i1);
   mret (i2, w_set wt true (w_kids wt) (w_self wt)) : M W _) w = Some ((i', wt'), w') ->
  same_table i i' /\ scanned wt wt'.
Proof.
  assert (Hstep : forall (c : bool) m j (v : W), exists j' v',
    (if c then emit j (w_wd wt) m [] else mret j : M W inst) v = Some (j', v') /\ same_table j j').
  { intros c m j v. destruct c; [apply emit_total|by exists j, v]. }
  destruct (Hstep a mask1 i w) as (i1 & w1 & H1 & T1). rewrite (bind_run _ _ _ _ _ H1).
  destruct (Hstep b LIN_IN_IGNORED i1 w1) as (i2 & w2 & H2 & T2). rewrite (bind_run _ _ _ _ _ H2), run_ret.
  intros Heq. simplify_eq. destruct T1 as (? & ? & ?), T2 as (? & ? & ?).
  split; [split_and!; congruence|]. by split_and!.
Qed.

Lemma scan_dir_spec i wt (w : W) i' wt' w' :
  scan_dir i wt w = Some ((i', wt'), w') -> same_table i i' /\ scanned wt wt'.
Proof.
  unfold scan_dir. rewrite bind_step. destruct (h_opendir (w_path wt) w) as [[names|e] w1] eqn:Hopen; cbn [fst snd].
  - intros (now & w2 & Hnow & (i1 & w3 & Hemit & Hret)%bind_Some)%bind_Some.
    rewrite run_ret in Hret. simplify_eq.
    destruct (emit_all_total i (w_wd wt) (diff_kids (w_mask wt) (w_kids wt) (merge_sort kid_le now)) w2)
      as (i2 & w4 & He & Ht). rewrite He in Hemit. simplify_eq. split; [done|]. split_and!; try done.
    intros _. apply sorted_listing. destruct (list_loop_total (w_path wt) names 0 0 w1) as (l & w5 & Hl & Hs).
    rewrite Hl in Hnow. simplify_eq. eapply sublist_NoDup; [|exact Hs]. by eapply opendir_law.
  - destruct (path_gone e); [apply gone_spec|]. rewrite run_ret. intros. by simplify_eq.
Qed.

Lemma scan_file_spec i wt (w : W) i' wt' w' :
  scan_file i wt w = Some ((i', wt'), w') -> same_table i i' /\ scanned wt wt'.
Proof.
  unfold scan_file. intros (r & w1 & _ & Hr)%bind_Some. destruct r as [st|e].
  - apply bind_Some in Hr as (i1 & w2 & Hemit & Hret). rewrite run_ret in Hret. simplify_eq.
    destruct (emit_all_total i (w_wd wt) (self_changed (w_mask wt) (w_self wt)
      (kid_from_stat (k_name (w_self wt)) st)) w1) as (i2 & w4 & He & Ht).
    rewrite He in Hemit. simplify_eq. done.
  - destruct (path_gone e); [|rewrite run_ret in Hr; by simplify_eq].
    exact (gone_spec i wt _ w1 _ true i' wt' w' Hr).
Qed.

Lemma scan_watch_spec i wt (w : W) i' wt' w' :
  scan_watch i wt w = Some ((i', wt'), w') -> same_table i i' /\ scanned wt wt'.
Proof.
  unfold scan_watch. destruct (w_dropped wt) eqn:Hd; [rewrite run_ret; intros; by simplify_eq|].
  destruct (w_isdir wt); [apply scan_dir_spec|apply scan_file_spec].
Qed.

Lemma scan_watches_spec i done todo (w : W) i' w' :
  scan_watches i done todo w = Some (i', w') ->
  in_used i' = in_used i /\ in_next_wd i' = in_next_wd i /\
  exists todo', in_watches i' = done ++ todo' /\ Forall2 scanned todo todo'.
Proof.
  revert i done w. induction todo as [|wt todo IH]; intros i done w; cbn [scan_watches].
  { rewrite run_ret. intros. simplify_eq. split_and!; [done..|]. exists []. by rewrite app_nil_r. }
  intros ([i1 wt1] & w1 & Hs & Hrest)%bind_Some. apply scan_watch_spec in Hs as [(U1 & N1 & _) Hsc].
  apply IH in Hrest as (U2 & N2 & todo' & Hws & Hf). split_and!; [congruence..|].
  exists (wt1 :: todo'). split; [by rewrite Hws, <- app_assoc|by constructor].
Qed.

Lemma scan_round_spec i (w : W) i' go w' :
  scan_round i w = Some ((i', go), w') -> in_used i = true -> inst_ok i -> inst_ok i'.
Proof.
  unfold scan_round. intros Hrun Hused [(Hn & Hlen & Hok)|Hu]; [|congruence].
  destruct (in_dead i); [rewrite run_ret in Hrun; simplify_eq; by left|].
  apply bind_Some in Hrun as (i1 & w1 & H1 & (i2 & w2 & H2 & Hret)%bind_Some).
  rewrite run_ret in Hret. simplify_eq.
  assert (T1 : same_table i i1).
  { destruct (in_overflow i); [|by rewrite run_ret in H1; simplify_eq].
    destruct (emit_total (in_set_flags i false false) (-1) LIN_IN_Q_OVERFLOW [] w) as (j & v & Hj & Ht).
    rewrite Hj in H1. by simplify_eq. }
  destruct T1 as (U1 & N1 & W1). apply scan_watches_spec in H2 as (U2 & N2 & ws' & Hws & Hf).
  left. cbn [in_next_wd in_watches in_set_watches]. rewrite N2, N1. split_and!; [done| |].
  - etrans; [apply sublist_length, (sublist_filter _ (in_watches i2))|]. rewrite Hws. cbn [app].
    rewrite <- (Forall2_length _ _ _ Hf), W1. done.
  - eapply sub_ok; [apply sublist_filter|]. rewrite Hws. cbn [app]. eapply scanned_ok; [exact Hf|]. by rewrite W1.
Qed.

Lemma watches_ok_snoc next_wd ws w :
  watches_ok next_wd ws -> w_wd w = next_wd -> 1 <= next_wd ->
  (forall w', w' ∈ ws -> w_dropped w' = false -> w_path w' <> w_path w) ->
  listing_ok (w_kids w) -> watches_ok (next_wd + 1) (ws ++ [w]).
Proof.
  intros (Hnd & Hwd & Hp & Hl) Hw Hn Hpath Hk. split_and!.
  - rewrite map_app. apply NoDup_app. split_and!; [done| |apply NoDup_singleton].
    intros x Hx ->%list_elem_of_singleton. apply list_elem_of_fmap in Hx as (w' & He & Hw').
    rewrite Forall_forall in Hwd. specialize (Hwd _ Hw'). lia.
  - apply Forall_app. split; [|constructor; [lia|constructor]].
    eapply Forall_impl; [exact Hwd|]. intros x Hx. cbn in Hx. lia.
  - rewrite live_app, map_app. apply NoDup_app. split_and!; [done| |].
    + intros p (w' & Hw' & Hd & <-)%live_path. rewrite live_path. intros (w2 & Hw2 & _ & He).
      apply list_elem_of_singleton in Hw2 as ->. by destruct (Hpath w' Hw' Hd).
    + rewrite live_cons. destruct (w_dropped w); [constructor|apply NoDup_singleton].
  - apply Forall_app. split; [done|]. by repeat constructor.
Qed.

Lemma watches_ok_more next_wd ws : watches_ok next_wd ws -> watches_ok (next_wd + 1) ws.
Proof.
  intros (Hnd & Hwd & Hp & Hl). split_and!; [done| |done..].
  eapply Forall_impl; [exact Hwd|]. intros x Hx. cbn in Hx. lia.
Qed.

Lemma new_watch_spec i path mask isdir st (w : W) r i' start w' :
  new_watch i path mask isdir st w = Some ((r, i', start), w') -> in_used i = true ->
  find_index (watch_of_path path) (in_watches i) = None ->
  inst_ok i -> inst_ok i'.
Proof.
  unfold new_watch. intros Hrun Hused Hnone [(Hn & Hlen & Hok)|Hu]; [|congruence].
  case_bool_decide as Hfull; [rewrite run_ret in Hrun; simplify_eq; by left|].
  apply bind_Some in Hrun as (grown & w1 & _ & Hrun).
  destruct grown; cbn [negb] in Hrun; [|rewrite run_ret in Hrun; simplify_eq; by left].
  apply bind_Some in Hrun as (dup & w2 & _ & Hrun).
  destruct dup; cbn [negb] in Hrun.
  2: { rewrite run_ret in Hrun. simplify_eq. left. cbn. split_and!; [lia|done|by apply watches_ok_more]. }
  apply bind_Some in Hrun as ([i2 wt] & w3 & Hscan & Hret). rewrite run_ret in Hret. simplify_eq.
  set (w0 := Watch _ _ _ _ _ _ _) in Hscan. set (i1 := Inst _ _ _ _ _ _ _ _ _) in Hscan.
  assert (Hwt : same_table i1 i2 /\ w_wd wt = in_next_wd i /\ w_path wt = path /\ listing_ok (w_kids wt)).
  { destruct isdir.
    - apply bind_Some in Hscan as ([i3 wt3] & w4 & Hs & Hret). rewrite run_ret in Hret. simplify_eq.
      apply scan_dir_spec in Hs as [Ht (He & Hp & _ & Hl)]. split_and!; [done..|]. apply Hl. constructor.
    - rewrite run_ret in Hscan. simplify_eq. split_and!; try done. constructor. }
  destruct Hwt as ((U & N & T) & Hwd & Hp & Hl). left. cbn [in_next_wd in_watches]. rewrite N, T. unfold i1. cbn [in_next_wd in_watches].
  split_and!; [lia|rewrite length_app; cbn [length]; apply not_le in Hfull; lia|]. apply watches_ok_snoc; try done.
  intros w'' Hw'' Hd He. apply find_index_None in Hnone. rewrite Forall_forall in Hnone.
  specialize (Hnone _ Hw''). unfold watch_of_path in Hnone. rewrite Hd in Hnone. cbn in Hnone.
  apply bool_decide_eq_false in Hnone. congruence.
Qed.


Lemma set_mask_scanned ws k w m :
  ws !! k = Some w -> Forall2 scanned ws (<[k := w_set_mask w m]> ws).
Proof.
  intros Hk. apply Forall2_same_length_lookup. split; [by rewrite length_insert|]. intros i x y Hx Hy.
  destruct (decide (i = k)) as [->|Hne].
  - rewrite list_lookup_insert_eq in Hy by (by eapply lookup_lt_Some). by simplify_eq.
  - rewrite list_lookup_insert_ne in Hy by done. by simplify_eq.
Qed.

Lemma add_watch_locked_spec i path mask isdir st (w : W) r i' start w' :
  add_watch_locked i path mask isdir st w = Some ((r, i', start), w') -> in_used i = true ->
  inst_ok i -> inst_ok i'.
Proof.
  unfold add_watch_locked. destruct (find_index _ _) as [k|] eqn:Hf; [|by intros; eapply new_watch_spec].
  intros Hrun Hused Hok. destruct (in_watches i !! k) as [wt|] eqn:Hk; [|rewrite run_ret in Hrun; by simplify_eq].
  destruct (has mask LIN_IN_MASK_CREATE); [rewrite run_ret in Hrun; by simplify_eq|].
  rewrite run_ret in Hrun. simplify_eq. destruct Hok as [(Hn & Hlen & Hws)|Hu]; [left|by right].
  cbn [in_next_wd in_watches in_set_watches]. split_and!; [done|by rewrite length_insert|].
  eapply scanned_ok; [by apply set_mask_scanned|done].
Qed.

Lemma inst_by_fd_used insts fd k :
  inst_by_fd_locked insts fd = Some k -> exists i, insts !! k = Some i /\ in_used i = true.
Proof.
  intros (i & Hi & Hp)%find_index_Some. exists i. split; [done|]. by destruct (in_used i).
Qed.

(** ** Histories

    A turn of a scanning thread, its way out, the calls, and anything the
    rest of the process does to the host. *)
Inductive in_step : list inst * W -> list inst * W -> Prop :=
  | in_step_init flags insts w r insts' w' :
      emu_init1 flags insts w = Some ((r, insts'), w') -> in_step (insts, w) (insts', w')
  | in_step_add fd path mask insts w r insts' w' :
      emu_add_watch fd path mask insts w = Some ((r, insts'), w') -> in_step (insts, w) (insts', w')
  | in_step_rm fd wd insts w r insts' w' :
      emu_rm_watch fd wd insts w = Some ((r, insts'), w') -> in_step (insts, w) (insts', w')
  | in_step_round k i insts w i' go w' :
      insts !! k = Some i -> in_used i = true -> scan_round i w = Some ((i', go), w') ->
      in_step (insts, w) (<[k := i']> insts, w')
  | in_step_exit k i insts w i' w' :
      insts !! k = Some i -> in_dead i = true -> scan_exit i w = Some (i', w') ->
      in_step (insts, w) (<[k := i']> insts, w')
  | in_step_world insts w w' : in_step (insts, w) (insts, w').

Definition insts_ok (insts : list inst) : Prop :=
  length insts = SHIM_IN_MAX_INSTANCES /\ Forall inst_ok insts.

Lemma insts_ok_insert insts k i : insts_ok insts -> inst_ok i -> insts_ok (<[k := i]> insts).
Proof. intros [Hl Hf] Hi. split; [by rewrite length_insert|by apply Forall_insert]. Qed.

Lemma emu_add_watch_spec fd path mask insts (w : W) r insts' w' :
  emu_add_watch fd path mask insts w = Some ((r, insts'), w') -> insts_ok insts -> insts_ok insts'.
Proof.
  unfold emu_add_watch. intros Hrun Hok. destruct path as [path|]; [|rewrite run_ret in Hrun; by simplify_eq].
  destruct (negb _); [rewrite run_ret in Hrun; by simplify_eq|].
  apply bind_Some in Hrun as (rs & w1 & _ & Hrun).
  destruct rs as [st|e]; [|rewrite run_ret in Hrun; by simplify_eq]. cbv zeta in Hrun.
  destruct (_ && _); [rewrite run_ret in Hrun; by simplify_eq|].
  destruct (inst_by_fd_locked insts fd) as [k|] eqn:Hk; [|rewrite run_ret in Hrun; by simplify_eq].
  apply inst_by_fd_used in Hk as (i & Hi & Hu). rewrite Hi in Hrun. cbn [default] in Hrun.
  apply bind_Some in Hrun as ([[r1 i1] start] & w2 & Hadd & (started & w3 & _ & Hret)%bind_Some).
  assert (Hi1 : inst_ok i1).
  { eapply add_watch_locked_spec; [exact Hadd|done|]. destruct Hok as [_ Hf].
    rewrite Forall_forall in Hf. apply Hf. by eapply list_elem_of_lookup_2. }
  destruct started; cbn [negb] in Hret; rewrite run_ret in Hret; simplify_eq; by apply insts_ok_insert.
Qed.

Lemma emu_rm_watch_spec fd wd insts (w : W) r insts' w' :
  emu_rm_watch fd wd insts w = Some ((r, insts'), w') -> insts_ok insts -> insts_ok insts'.
Proof.
  unfold emu_rm_watch. intros Hrun Hok.
  destruct (inst_by_fd_locked insts fd) as [k|] eqn:Hk; [|rewrite run_ret in Hrun; by simplify_eq].
  apply inst_by_fd_used in Hk as (i & Hi & Hu). rewrite Hi in Hrun. cbn [default] in Hrun.
  destruct (find_index _ _) as [j|]; [|rewrite run_ret in Hrun; by simplify_eq].
  destruct (emit_total i wd LIN_IN_IGNORED [] w) as (i1 & w1 & He & U & N & T).
  rewrite (bind_run _ _ _ _ _ He), run_ret in Hrun. simplify_eq. apply insts_ok_insert; [done|].
  pose proof Hok as [_ Hf]. rewrite Forall_forall in Hf.
  destruct (Hf i) as [(Hn & Hlen & Hws)|Hu']; [by eapply list_elem_of_lookup_2| |congruence].
  left. cbn [in_next_wd in_watches in_set_watches]. rewrite N, T.
  assert (Hsub : take j (in_watches i) ++ drop (S j) (in_watches i) `sublist_of` in_watches i).
  { rewrite <- (take_drop j (in_watches i)) at 3. apply sublist_app; [done|].
    rewrite <- Nat.add_1_r, <- drop_drop. apply sublist_drop. }
  split_and!; [done| |by eapply sub_ok]. etrans; [by apply sublist_length|done].
Qed.

Lemma in_step_ok s s' : in_step s s' -> insts_ok (fst s) -> insts_ok (fst s').
Proof.
  intros Hstep Hok. destruct Hstep as [flags insts w r insts' w' Hrun|fd path mask insts w r insts' w' Hrun
    |fd wd insts w r insts' w' Hrun|k i insts w i' go w' Hi Hu Hrun|k i insts w i' w' Hi Hd Hrun|]; cbn [fst] in *.
  - unfold emu_init1 in Hrun. destruct (has _ _); [rewrite run_ret in Hrun; by simplify_eq|].
    destruct (find_index _ _) as [k|]; [|rewrite run_ret in Hrun; by simplify_eq].
    apply bind_Some in Hrun as (rp & w1 & _ & Hrun).
    destruct rp as [[rfd wfd]|e]; [|rewrite run_ret in Hrun; by simplify_eq].
    apply bind_Some in Hrun as (? & w2 & _ & (? & w3 & _ & (? & w4 & _ & Hret)%bind_Some)%bind_Some).
    rewrite run_ret in Hret. simplify_eq. apply insts_ok_insert; [done|]. left. cbn.
    split_and!; [done|unfold SHIM_IN_MAX_WATCHES; lia|]. split_and!; constructor.
  - by eapply emu_add_watch_spec.
  - by eapply emu_rm_watch_spec.
  - apply insts_ok_insert; [done|]. eapply scan_round_spec; [done..|]. destruct Hok as [_ Hf].
    rewrite Forall_forall in Hf. apply Hf. by eapply list_elem_of_lookup_2.
  - apply insts_ok_insert; [done|]. unfold scan_exit in Hrun. rewrite bind_modifies, run_ret in Hrun.
    simplify_eq. by right.
  - done.
Qed.

(** in every history of calls, scans and thread exits, whatever the host
    answers them, the instance table stays sound: sixteen slots, at most 8192
    watches in each, watch descriptors positive, distinct and below the next
    to be handed out, no path watched twice by live watches, and every kept
    listing sorted without repetition. *)
Theorem inotify_tables_ok (w0 : W) s :
  rtc in_step (replicate SHIM_IN_MAX_INSTANCES no_inst, w0) s -> insts_ok (fst s).
Proof.
  intros Hs. assert (H0 : insts_ok (fst (replicate SHIM_IN_MAX_INSTANCES no_inst, w0))).
  { cbn [fst]; split; [by rewrite length_replicate|]. apply Forall_replicate. by right. }
  revert H0. induction Hs as [|s1 s2 s3 Hstep _ IH]; [done|]. intros Hok. by apply IH, (in_step_ok s1).
Qed.
End table.

(** ** On a concrete host

    One directory, "/d", whose only entry is "a" at first and "b" later; the
    world is which of the two, and the bytes in the pipe. The host hands out
    the descriptors 5 and 6 each time, as it does when they have been closed. *)
Definition toy_limits : InLimits := {| NAME_MAX := 255; IN_PATH_MAX := 1024 |}.

Definition toy_in_stat (path : cstr) (w : bool * list Z) : res in_stat * (bool * list Z) :=
  (Ok (if bool_decide (path = bytes "/d") then InStat 1 0 0 0 0x4000 else InStat 2 0 0 0 0x8000), w).

Definition toy_in_host : InHost (bool * list Z) := {|
  h_alloc w := (true, w);
  h_in_stat := toy_in_stat; h_in_lstat := toy_in_stat;
  h_opendir path w :=
    (if bool_decide (path = bytes "/d") then Ok [if fst w then bytes "b" else bytes "a"] else Err ENOTDIR, w);
  h_write _ b w := (Ok tt, (fst w, snd w ++ b));
  h_pipe w := (Ok (5, 6), w);
  h_set_nonblock _ w := w; h_set_cloexec _ w := w; h_close _ w := w; h_spawn w := (true, w) |}.

#[export] Instance toy_in_host_ok : @InHostOk _ toy_in_host.
Proof.
  split. intros path w names w'. cbn. case_bool_decide; intros; simplify_eq. apply NoDup_singleton.
Defined.

Lemma records_read_back_witness :
  @read_events 2 (@event_record toy_limits 1 LIN_IN_CREATE (bytes "a") ++
                  @event_record toy_limits (-1) LIN_IN_Q_OVERFLOW [] ++ []) =
  [(1, LIN_IN_CREATE, bytes "a"); (-1, LIN_IN_Q_OVERFLOW, [])].
Proof.
  apply (@records_read_back toy_limits [(1, LIN_IN_CREATE, bytes "a"); (-1, LIN_IN_Q_OVERFLOW, [])]).
  - repeat constructor; vm_compute; done || lia.
  - cbn. lia.
Defined.

(** "a" has become "b". *)
Lemma scan_dir_reports_witness :
  let old := kid_from_stat (bytes "a") (InStat 2 0 0 0 0x8000) in
  let wt := Watch 1 (bytes "/d") LIN_IN_ALL_EVENTS true false [old] old in
  exists i' wt' w',
    @scan_dir _ toy_limits toy_in_host no_inst wt (true, []) = Some ((i', wt'), w') /\
    map k_name (w_kids wt') = [bytes "b"] /\
    read_events 9 (snd w') = [(1, LIN_IN_DELETE, bytes "a"); (1, LIN_IN_CREATE, bytes "b")].
Proof.
  intros old wt.
  destruct (@scan_dir_reports _ toy_limits toy_in_host toy_in_host_ok no_inst wt (true, []) (true, []) [bytes "b"])
    as (now & w2 & evs & i' & w' & Hnow & Hemit & Hscan & _ & Hevs).
  - repeat constructor.
  - reflexivity.
  - eexists _, _, _. split; [exact Hscan|]. vm_compute in Hscan, Hnow. simplify_eq. split; vm_compute; reflexivity.
Defined.

Definition toy_start : list inst * (bool * list Z) :=
  (replicate SHIM_IN_MAX_INSTANCES no_inst, (false, [])).

Definition after_init : list inst :=
  <[0%nat := Inst true 5 6 1 false false false [] 0]> (replicate SHIM_IN_MAX_INSTANCES no_inst).

Lemma inotify_tables_ok_witness : insts_ok after_init.
Proof.
  apply (@inotify_tables_ok _ toy_limits toy_in_host toy_in_host_ok (false, []) (after_init, (false, []))).
  apply rtc_once. apply (in_step_init (W := bool * list Z)) with (flags := 0) (r := Ok 5). reflexivity.
Defined.

(** An instance is found by its descriptor's number and nothing tells the
    table that the descriptor was closed: once the number is handed out again
    the watch goes to the instance that is gone, and the new one stays empty. *)
Lemma stale_instance_takes_the_watch :
  let init := @emu_init1 _ toy_in_host 0 in
  let add := @emu_add_watch _ toy_limits toy_in_host 5 (Some (bytes "/d")) LIN_IN_ALL_EVENTS in
  match init (fst toy_start) (snd toy_start) with
  | Some ((Ok 5, t1), w1) =>
      match init t1 w1 with
      | Some ((Ok 5, t2), w2) =>
          match add t2 w2 with
          | Some ((Ok 1, t3), _) =>
              map (fun i => length (in_watches i)) (take 2 t3) = [1; 0]%nat
          | _ => False
          end
      | _ => False
      end
  | _ => False
  end.
Proof. vm_compute. reflexivity. Qed.
