(* ===== verification/Realpath.v ===== *)
(** * shim/realpath.c

    The walk over a stack of what is left of the path and the output built so
    far, with links pushed back onto the stack, the treatment of leading "..",
    of share roots and of a final slash, and the join with the current
    directory. [PATH_MAX], the links and the current directory are the host's.

    The theorems: every call ends, and what it answers is an absolute path
    without "." or ".." and without empty names; without links it is the plain
    resolution of the names against the current directory. *)
From S2P Require Import Prelude NtPath.

Definition SYMLOOP_MAX : nat := 40.

(** [rp_readlink] is EINVAL for what exists and is no link; the contents of a
    link are cut to the room it is given. *)
Class RpHost := {
  RP_MAX : nat;                                  (* PATH_MAX *)
  rp_readlink : cstr -> res cstr;
  rp_getcwd : res cstr;
  rp_unc_collapsed : cstr -> bool }.

Section realpath.
Context `{RpHost} (windows : bool).

(** GetSlashLen, and the stack behind the slashes it counts. *)
Fixpoint GetSlashLen (s : cstr) : nat :=
  match s with c :: s' => if c =? 47 then S (GetSlashLen s') else 0 | [] => 0 end.

Definition skip_slashes (s : cstr) : cstr := drop (GetSlashLen s) s.

(** strchrnul(s, '/') - s *)
Fixpoint slash_at (s : cstr) : nat :=
  match s with c :: s' => if c =? 47 then 0 else S (slash_at s') | [] => 0 end.

(** [stack + p], [output[0 .. q)], check_dir, nup and cnt. *)
Record walk := Walk {
  rem : cstr; out : cstr; check_dir : bool; nup : nat; cnt : nat }.

Inductive walked :=
  | Next (s : walk)
  | Finished (s : walk)
  | Failed (e : errno).

(** [while (q && output[q - 1] != '/') q--; if (...) q--;] *)
Definition pop_name (out : cstr) : cstr :=
  let q := back_while (fun c => negb (c =? 47)) out (length out) in
  if bool_decide (1 < q)%nat && (bool_decide (2 < q)%nat || negb (out.[0] =? 47))
  then take (q - 1) out else take q out.

(** Below a share's server or share name nothing can be opened. *)
Definition share_head (tmp : cstr) : bool :=
  windows && (tmp.[0] =? 47) && (tmp.[1] =? 47) &&
  bool_decide (length (filter (fun c => c = 47%Z) (drop 2 tmp)) < 2)%nat.

(** skip_readlink: the name at the end of [tmp] is not a link. *)
Definition no_link (s : walk) (up : bool) (l0 : nat) (tmp rem' : cstr) : walked :=
  if up then Next (Walk (skip_slashes rem') (pop_name (out s)) false (nup s) (cnt s))
  else
    Next (Walk (skip_slashes rem') (if bool_decide (l0 = 0%nat) then out s else tmp)
            (negb (rem'.[0] =? 0)) (nup s) (cnt s)).

(** The contents of a link go onto the stack. *)
Definition push_link (s : walk) (link rem' : cstr) : walked :=
  let k := length link in
  if bool_decide (k = RP_MAX - length rem')%nat then Failed ENAMETOOLONG
  else if bool_decide (k = 0%nat) then Failed ENOENT
  else if bool_decide (S (cnt s) = SYMLOOP_MAX) then Failed ELOOP
  else
    let rem' := if link.[k - 1] =? 47 then skip_slashes rem' else rem' in
    Next (Walk (link ++ rem') (out s) (check_dir s) (nup s) (S (cnt s))).

(** One pass of the loop, the skipping of slashes behind it included. *)
Definition walk_step (s : walk) : walked :=
  let stack := rem s in
  if stack.[0] =? 47 then
    let r := drop 1 stack in
    let out := if windows && (r.[0] =? 47) && negb (r.[1] =? 47) then [47; 47] else [47] in
    Next (Walk (skip_slashes r) out false 0 (cnt s))
  else
    let l0 := slash_at stack in
    if bool_decide (l0 = 0%nat) && negb (check_dir s) then Finished s
    else if bool_decide (l0 = 1%nat) && (stack.[0] =? 46) then
      Next (Walk (skip_slashes (drop 1 stack)) (out s) (check_dir s) (nup s) (cnt s))
    else
      let sep := bool_decide (out s <> []) && negb ((out s).[length (out s) - 1] =? 47) in
      if sep && bool_decide (RP_MAX - length stack = 0)%nat then Failed ENAMETOOLONG
      else
        let comp := (if sep then [47] else []) ++ take l0 stack in
        if bool_decide (RP_MAX <= length (out s) + length comp)%nat then Failed ENAMETOOLONG
        else
          let tmp := out s ++ comp in
          let rem' := drop l0 stack in
          let up := bool_decide (l0 = 2%nat) && (stack.[0] =? 46) && (stack.[1] =? 46) in
          if up && bool_decide (length (out s) <= 3 * nup s)%nat then
            Next (Walk (skip_slashes rem') tmp (check_dir s) (S (nup s)) (cnt s))
          else if (up && negb (check_dir s)) || share_head tmp then no_link s up l0 tmp rem'
          else
            match rp_readlink tmp with
            | Err e => if bool_decide (e = EINVAL) then no_link s up l0 tmp rem' else Failed e
            | Ok link => push_link s (take (RP_MAX - length rem') link) rem'
            end.

Fixpoint walk_loop (fuel : nat) (s : walk) : option (res walk) :=
  match fuel with
  | O => None
  | S fuel' =>
      match walk_step s with
      | Next s => walk_loop fuel' s
      | Finished s => Some (Ok s)
      | Failed e => Some (Err e)
      end
  end.

(** ** The join with the current directory *)

(** [while (l > 1 && cwd[l - 1] != '/') l--; if (l > 1) l--;] *)
Fixpoint cut_name (cwd : cstr) (l : nat) : nat :=
  match l with
  | S (S l' as l1) => if cwd.[l1] =? 47 then l else cut_name cwd l1
  | _ => l
  end.

Definition cwd_up (cwd : cstr) (l : nat) : nat :=
  let l := cut_name cwd l in if bool_decide (1 < l)%nat then (l - 1)%nat else l.

(** The leading ".." cancelled against the directory: [l] of the directory
    and [p] of the output. *)
Fixpoint cancel_up (nup : nat) (cwd : cstr) (q l p : nat) : nat * nat :=
  match nup with
  | O => (l, p)
  | S nup' =>
      let l := cwd_up cwd l in
      let p := (p + 2)%nat in
      cancel_up nup' cwd q l (if bool_decide (p < q)%nat then S p else p)
  end.

Definition join_cwd (nup : nat) (out : cstr) : res cstr :=
  match rp_getcwd with
  | Err e => Err e
  | Ok cwd =>
      let q := length out in
      let '(l, p) := cancel_up nup cwd q (length cwd) 0 in
      let head := take l cwd in
      let head := if negb (bool_decide (q - p = 0)%nat) && negb (cwd.[l - 1] =? 47)
                  then head ++ [47] else head in
      if bool_decide (RP_MAX <= length head + (q - p) + 1)%nat then Err ENAMETOOLONG
      else Ok (head ++ drop p out)
  end.

(** ** Windows spellings *)

Definition to_slashes (s : cstr) : cstr := map (fun c => if c =? 92 then 47 else c) s.

Definition drive_to_slash (s : cstr) : cstr :=
  if NtPath.IsAlpha s.[0] && (s.[1] =? 58) && ((s.[2] =? 0) || (s.[2] =? 47))
  then 47 :: s.[0] :: drop 2 s else s.

Definition windows_path (filename : cstr) : res cstr :=
  if bool_decide (RP_MAX <= length filename)%nat then Err ENAMETOOLONG
  else
    let i := length filename in
    let o := drive_to_slash (to_slashes filename) in
    let collapsed := rp_unc_collapsed o in
    if collapsed && bool_decide (RP_MAX <= i + 1)%nat then Err ENAMETOOLONG
    else
      let o := if collapsed then 47 :: o else o in
      if o.[0] =? 47 then Ok o
      else
        match rp_getcwd with
        | Err e => Err e
        | Ok cwd =>
            let n := length cwd in
            let n := if bool_decide (n <> 0%nat) && (cwd.[n - 1] =? 47) then (n - 1)%nat else n in
            if bool_decide (RP_MAX < n + 1 + i + 1)%nat then Err ENAMETOOLONG
            else Ok (take n cwd ++ 47 :: o)
        end.

Definition is_zip (s : cstr) : bool :=
  bool_decide (take 4 s = bytes "/zip") && ((s.[4] =? 0) || (s.[4] =? 47)).

(** realpath, into the caller's buffer. *)
Definition realpath (fuel : nat) (filename : option cstr) : option (res cstr) :=
  match filename with
  | None => Some (Err EINVAL)
  | Some f =>
      match (if windows then windows_path f else Ok f) with
      | Err e => Some (Err e)
      | Ok f =>
          if bool_decide (f = []) then Some (Err ENOENT)
          else if bool_decide (RP_MAX <= length f)%nat then Some (Err ENAMETOOLONG)
          else if is_zip f then Some (Ok f)
          else
            match walk_loop fuel (Walk f [] false 0 0) with
            | None => None
            | Some (Err e) => Some (Err e)
            | Some (Ok s) =>
                if (out s).[0] =? 47 then Some (Ok (out s))
                else Some (join_cwd (nup s) (out s))
            end
      end
  end.
End realpath.

(** ** Every call ends

    A pass that follows no link shortens what is left, and links are counted. *)
Section ends.
Context `{RpHost} (windows : bool).

Lemma slash_at_le s : (slash_at s <= length s)%nat.
Proof. induction s as [|c s IH]; cbn; [lia|]. destruct (c =? 47); lia. Qed.

Lemma skip_slashes_le s : (length (skip_slashes s) <= length s)%nat.
Proof. unfold skip_slashes. rewrite length_drop. lia. Qed.

(** What follows a name is the end or a slash, which is skipped. *)
Lemma after_name s :
  (drop (slash_at s) s).[0] = 0 /\ drop (slash_at s) s = [] \/
  (drop (slash_at s) s).[0] = 47 /\
  (length (skip_slashes (drop (slash_at s) s)) < length (drop (slash_at s) s))%nat.
Proof.
  induction s as [|c s IH]; [by left|]. cbn [slash_at]. destruct (Z.eqb_spec c 47) as [->|]; [|exact IH].
  right. split; [done|]. unfold skip_slashes. cbn. rewrite length_drop. lia.
Qed.

Definition weight (s : walk) : nat :=
  ((SYMLOOP_MAX - cnt s) * (RP_MAX + 2) + length (rem s) + (if check_dir s then 1 else 0))%nat.

Definition bounded (s : walk) : Prop := (length (rem s) < RP_MAX)%nat /\ (cnt s < SYMLOOP_MAX)%nat.

Lemma no_link_lighter s up tmp s' :
  bounded s -> (rem s).[0] <> 47 -> (slash_at (rem s) = 0%nat -> check_dir s = true /\ up = false) ->
  no_link s up (slash_at (rem s)) tmp (drop (slash_at (rem s)) (rem s)) = Next s' ->
  bounded s' /\ (weight s' < weight s)%nat.
Proof.
  intros [Hlen Hcnt] H0 Hcd. unfold no_link. set (l0 := slash_at (rem s)) in *.
  pose proof (slash_at_le (rem s)) as Hle. fold l0 in Hle.
  pose proof (skip_slashes_le (drop l0 (rem s))) as Hsk. pose proof (length_drop (rem s) l0) as Hdr.
  destruct (decide (l0 = 0%nat)) as [E|E].
  - destruct (Hcd E) as [Hcheck ->].
    assert (Hnil : rem s = []).
    { destruct (rem s) as [|c r] eqn:Hr; [done|]. unfold l0 in E. cbn in E.
      change ((c :: r).[0]) with c in H0. by rewrite (proj2 (Z.eqb_neq c 47) H0) in E. }
    rewrite Hnil in *. rewrite drop_nil. intros. simplify_eq. unfold bounded, weight. cbn -[SYMLOOP_MAX Nat.mul].
    rewrite Hnil, Hcheck. cbn. lia.
  - destruct up; intros; simplify_eq; unfold bounded, weight; cbn [rem cnt check_dir]; [destruct (check_dir s); lia|].
    destruct (after_name (rem s)) as [[Hz Hnil]|[Hz Hlt]]; fold l0 in Hz; rewrite Hz; cbn [Z.eqb negb].
    + destruct (check_dir s); lia.
    + fold l0 in Hlt. destruct (check_dir s); lia.
Qed.

Lemma push_link_lighter s link rem' s' :
  bounded s -> (length rem' <= length (rem s))%nat ->
  push_link s (take (RP_MAX - length rem') link) rem' = Next s' ->
  bounded s' /\ (weight s' < weight s)%nat.
Proof.
  intros [Hlen Hcnt] Hrem. unfold push_link. set (lk := take _ link).
  assert (Hlk : (length lk <= RP_MAX - length rem')%nat) by (unfold lk; rewrite length_take; lia).
  case_bool_decide as E1; [done|]. case_bool_decide; [done|]. case_bool_decide as E2; [done|].
  pose proof (skip_slashes_le rem') as Hsk. intros. simplify_eq. unfold bounded, weight. cbn [rem cnt check_dir].
  rewrite length_app. assert (Hcap : (length (if (lk.[length lk - 1] =? 47)%Z then skip_slashes rem' else rem') <= length rem')%nat)
    by (destruct (_ =? 47); lia).
  split; [lia|].
  assert (Hm : ((SYMLOOP_MAX - cnt s) * (RP_MAX + 2) = (SYMLOOP_MAX - S (cnt s)) * (RP_MAX + 2) + (RP_MAX + 2))%nat).
  { replace (SYMLOOP_MAX - cnt s)%nat with (S (SYMLOOP_MAX - S (cnt s))) by lia. lia. }
  destruct (check_dir s); lia.
Qed.

Lemma walk_step_lighter s s' :
  bounded s -> walk_step windows s = Next s' -> bounded s' /\ (weight s' < weight s)%nat.
Proof.
  intros Hb. pose proof Hb as [Hlen Hcnt]. unfold walk_step.
  destruct (Z.eqb_spec ((rem s).[0]) 47) as [Hs|Hs].
  { destruct (rem s) as [|c r] eqn:Hr; [done|]. intros. simplify_eq. unfold bounded, weight. cbn [rem cnt check_dir drop].
    pose proof (skip_slashes_le r). rewrite Hr. cbn [length] in *. rewrite drop_0. destruct (check_dir s); lia. }
  pose proof (slash_at_le (rem s)) as Hle.
  destruct (bool_decide (slash_at (rem s) = 0%nat) && negb (check_dir s)) eqn:E0; [done|].
  pose proof (skip_slashes_le (drop 1 (rem s))) as Hs1. rewrite length_drop in Hs1.
  destruct (bool_decide (slash_at (rem s) = 1%nat) && _) eqn:E1.
  { apply andb_true_iff in E1 as [E1%bool_decide_eq_true _]. intros. simplify_eq.
    unfold bounded, weight. cbn [rem cnt check_dir]. destruct (check_dir s); lia. }
  destruct (_ && bool_decide (RP_MAX - length (rem s) = 0)%nat); [done|]. destruct (bool_decide (RP_MAX <= _)%nat); [done|].
  set (up := bool_decide (slash_at (rem s) = 2%nat) && _ && _).
  pose proof (skip_slashes_le (drop (slash_at (rem s)) (rem s))) as Hs2. rewrite length_drop in Hs2.
  assert (Hup : up = true -> slash_at (rem s) = 2%nat)
    by (unfold up; intros [[Hu _]%andb_true_iff _]%andb_true_iff; by apply bool_decide_eq_true in Hu).
  destruct (up && _) eqn:Eu.
  { apply andb_true_iff in Eu as [Eu _]. apply Hup in Eu. intros. simplify_eq.
    unfold bounded, weight. cbn [rem cnt check_dir]. destruct (check_dir s); lia. }
  assert (Hcd : slash_at (rem s) = 0%nat -> check_dir s = true /\ up = false).
  { intros Hz. rewrite Hz in E0. cbn in E0. split; [by destruct (check_dir s)|].
    destruct up; [|done]. specialize (Hup eq_refl). congruence. }
  destruct ((up && negb (check_dir s)) || _); [by apply no_link_lighter|].
  destruct (rp_readlink _) as [link|e].
  - apply push_link_lighter; [done|]. rewrite length_drop. lia.
  - destruct (bool_decide (e = EINVAL)); [by apply no_link_lighter|done].
Qed.

Lemma walk_loop_ends fuel s :
  bounded s -> (weight s < fuel)%nat -> exists r, walk_loop windows fuel s = Some r.
Proof.
  revert s. induction fuel as [|fuel IH]; intros s Hb Hw; [lia|]. cbn [walk_loop].
  destruct (walk_step windows s) as [s'|s'|e] eqn:Hs; [|eauto..].
  destruct (walk_step_lighter _ _ Hb Hs) as [Hb' Hw']. apply IH; [done|lia].
Qed.

Lemma walk_loop_more fuel fuel' s r :
  (fuel <= fuel')%nat -> walk_loop windows fuel s = Some r -> walk_loop windows fuel' s = Some r.
Proof.
  revert fuel' s. induction fuel as [|fuel IH]; intros [|fuel'] s Hle; cbn [walk_loop]; try done; [lia|].
  destruct (walk_step windows s); [|done..]. apply IH. lia.
Qed.

Definition walk_fuel : nat := (SYMLOOP_MAX + 1) * (RP_MAX + 2).

(** realpath returns on any path, whatever the links on the way say: the
    walk ends within a bound that depends on PATH_MAX and the link limit
    alone, and more room for it changes nothing. *)
Theorem realpath_ends filename :
  exists r, forall fuel, (walk_fuel <= fuel)%nat -> realpath windows fuel filename = Some r.
Proof.
  unfold realpath. destruct filename as [f|]; [|eauto].
  destruct (if windows then _ else _) as [f'|e]; [|eauto].
  case_bool_decide; [eauto|]. case_bool_decide as Hlen; [eauto|]. destruct (is_zip f'); [eauto|].
  destruct (walk_loop_ends walk_fuel (Walk f' [] false 0 0)) as [r Hr].
  - split; cbn [rem cnt]; unfold SYMLOOP_MAX; lia.
  - unfold weight, walk_fuel. cbn [rem cnt check_dir]. lia.
  - destruct r as [s|e]; [destruct ((out s).[0] =? 47) eqn:E|];
      (eexists; intros fuel Hfuel; rewrite (walk_loop_more _ _ _ _ Hfuel Hr), ?E; reflexivity).
Qed.
End ends.

(** ** What it answers is canonical *)

Definition dotdot : cstr := [46; 46].

Definition slashless (n : cstr) : Prop := n <> [] /\ Forall (fun c => c <> 47) n.

Definition plain_name (n : cstr) : Prop := slashless n /\ n <> [46] /\ n <> dotdot.

Definition join (names : list cstr) : cstr :=
  match names with [] => [] | n :: ns => n ++ concat (map (cons 47) ns) end.

Definition root_ok (windows : bool) (pre : cstr) : Prop :=
  pre = [47] \/ (windows = true /\ pre = [47; 47]).

(** An absolute path of names, from the root or, on Windows, from the two
    slashes of a share. *)
Definition canonical (windows : bool) (p : cstr) : Prop :=
  exists pre names, p = pre ++ join names /\ root_ok windows pre /\ Forall plain_name names.

Lemma plain_slashless names : Forall plain_name names -> Forall slashless names.
Proof. intros Hf. eapply Forall_impl; [exact Hf|]. by intros n []. Qed.

Lemma join_snoc names n : join (names ++ [n]) = if decide (names = []) then n else join names ++ 47 :: n.
Proof.
  destruct names as [|m names]; [apply app_nil_r|]. cbn [join app].
  rewrite map_app, concat_app, app_assoc. cbn. by rewrite app_nil_r.
Qed.

Lemma join_cons n names : join (n :: names) = if decide (names = []) then n else n ++ 47 :: join names.
Proof. destruct names as [|m names]; [apply app_nil_r|]. done. Qed.

Lemma join_nil names : Forall slashless names -> join names = [] <-> names = [].
Proof.
  intros Hf. destruct Hf as [|n names [Hn _] _]; [done|]. split; [|done].
  cbn [join]. intros [? _]%app_eq_nil. done.
Qed.

(** The last character of a list of names is no slash. *)
Lemma join_last names : Forall slashless names -> names <> [] ->
  exists o c, join names = o ++ [c] /\ c <> 47.
Proof.
  intros Hf Hne. destruct (exists_last Hne) as (names' & n & ->).
  apply Forall_app in Hf as [_ [[Hn Hs] _]%Forall_cons]. destruct (exists_last Hn) as (n' & c & ->).
  apply Forall_app in Hs as [_ [Hc _]%Forall_cons]. rewrite join_snoc.
  destruct (decide (names' = [])); [eauto|]. exists (join names' ++ 47 :: n'), c. by rewrite <- app_assoc.
Qed.

Lemma byte_at_app_last (o : cstr) c : (o ++ [c]).[length (o ++ [c]) - 1] = c.
Proof.
  rewrite length_app. cbn [length]. replace (length o + 1 - 1)%nat with (length o) by lia.
  unfold byte_at. rewrite app_nth2, Nat.sub_diag by lia. done.
Qed.

(** Behind a slash or at the very start. *)
Definition at_name (x : cstr) : Prop := x = [] \/ exists x', x = x' ++ [47].

Lemma back_to_name x n : at_name x -> Forall (fun c => c <> 47) n ->
  back_while (fun c => negb (c =? 47)) (x ++ n) (length (x ++ n)) = length x.
Proof.
  intros Hx Hn. enough (Hk : forall k, (k <= length n)%nat ->
    back_while (fun c => negb (c =? 47)) (x ++ n) (length x + k) = length x).
  { rewrite length_app. by apply Hk. }
  intros k. induction k as [|k IH]; intros Hk.
  - rewrite Nat.add_0_r. destruct Hx as [->|[x' ->]]; [done|].
    rewrite length_app. cbn [length]. rewrite Nat.add_1_r. cbn [back_while].
    assert (Hb : ((x' ++ [47]) ++ n).[length x'] = 47).
    { unfold byte_at. rewrite <- app_assoc, app_nth2, Nat.sub_diag by lia. done. }
    by rewrite Hb.
  - rewrite Nat.add_succ_r. cbn [back_while]. rewrite IH by lia.
    destruct (lookup_lt_is_Some_2 n k) as [c Hc]; [lia|].
    assert (Hb : (x ++ n).[length x + k] = c).
    { unfold byte_at. rewrite nth_lookup, lookup_app_r by lia.
      replace (length x + k - length x)%nat with k by lia. by rewrite Hc. }
    rewrite Hb. rewrite Forall_forall in Hn. specialize (Hn c (list_elem_of_lookup_2 _ _ _ Hc)).
    by rewrite (proj2 (Z.eqb_neq _ _) Hn).
Qed.

(** A prefix as the output has one: nothing while it is relative. *)
Definition lead_ok (windows : bool) (pre : cstr) : Prop := pre = [] \/ root_ok windows pre.

Lemma lead_at_name windows pre : lead_ok windows pre -> at_name pre.
Proof. intros [->|[->|[_ ->]]]; [by left|right; by exists []|right; by exists [47]]. Qed.

Lemma pop_snoc windows pre names n :
  lead_ok windows pre -> Forall slashless names -> slashless n ->
  pop_name (pre ++ join (names ++ [n])) = pre ++ join names.
Proof.
  intros Hpre Hnames [Hn Hns]. rewrite join_snoc. unfold pop_name.
  destruct (decide (names = [])) as [->|Hne].
  - cbn [join]. rewrite (back_to_name pre n) by (done || by eapply lead_at_name). rewrite app_nil_r.
    destruct Hpre as [->|[->|[_ ->]]]; reflexivity.
  - destruct (join_last _ Hnames Hne) as (o & c & Hj & Hc).
    rewrite (app_assoc pre), (cons_middle 47), app_assoc.
    set (x := (pre ++ join names) ++ [47]).
    rewrite (back_to_name x n); [|right; by exists (pre ++ join names)|done].
    assert (Hlen : length x = S (length (pre ++ join names))) by (unfold x; rewrite length_app; cbn; lia).
    rewrite Hlen. cbn [Nat.sub]. rewrite Nat.sub_0_r.
    assert (Hpos : (0 < length (pre ++ join names))%nat) by (rewrite Hj, !length_app; cbn; lia).
    rewrite bool_decide_eq_true_2 by lia. cbn [andb].
    assert (Hcond : bool_decide (2 < S (length (pre ++ join names)))%nat || negb ((x ++ n).[0] =? 47) = true).
    { case_bool_decide as H2; [done|]. cbn [orb]. rewrite Hj, !length_app in H2. cbn in H2.
      assert (pre = [] /\ o = []) as [-> ->]; [destruct pre, o; cbn in H2; (done || lia)|].
      unfold x. rewrite Hj. change ((([] ++ [] ++ [c]) ++ [47]) ++ n) with (c :: 47 :: n).
      change ((c :: 47 :: n).[0]) with c. by rewrite (proj2 (Z.eqb_neq _ _) Hc). }
    rewrite Hcond. unfold x. rewrite <- !app_assoc. rewrite (app_assoc pre). by rewrite take_app_length.
Qed.

(** A name joined on behind a slash, unless there is one already. *)
Lemma append_name windows pre names n :
  lead_ok windows pre -> Forall slashless names ->
  let o := pre ++ join names in
  o ++ (if bool_decide (o <> []) && negb (o.[length o - 1] =? 47) then [47] else []) ++ n =
  pre ++ join (names ++ [n]).
Proof.
  intros Hpre Hnames o. rewrite join_snoc. destruct (decide (names = [])) as [->|Hne].
  - unfold o. cbn [join]. rewrite app_nil_r. by destruct Hpre as [->|[->|[_ ->]]].
  - destruct (join_last _ Hnames Hne) as (o' & c & Hj & Hc).
    assert (Ho : o = (pre ++ o') ++ [c]) by (unfold o; by rewrite Hj, app_assoc).
    rewrite Ho, byte_at_app_last, (proj2 (Z.eqb_neq _ _) Hc).
    rewrite bool_decide_eq_true_2 by (by intros [_ ?]%app_eq_nil).
    cbn [negb andb]. rewrite <- Ho. unfold o. by rewrite <- app_assoc.
Qed.

Lemma dots_slashless u : Forall slashless (replicate u dotdot).
Proof. apply Forall_replicate. split; [done|]. by repeat constructor. Qed.

(** The walk's output: ".." repeated [nup] times in front of plain names, or
    plain names behind the root. *)
Definition shape (windows : bool) (s : walk) : Prop :=
  exists pre names, out s = pre ++ join (replicate (nup s) dotdot ++ names) /\
    Forall plain_name names /\ (pre = [] \/ (nup s = 0%nat /\ root_ok windows pre)).

Lemma shape_lead windows s pre : pre = [] \/ (nup s = 0%nat /\ root_ok windows pre) -> lead_ok windows pre.
Proof. intros [->|[_ Hr]]; [by left|by right]. Qed.

Lemma dots_length u names : Forall slashless names ->
  (length (join (replicate u dotdot ++ names)) <= 3 * u)%nat <-> names = [].
Proof.
  intros Hf. split.
  - intros Hle. destruct (decide (names = [])) as [|Hne]; [done|]. exfalso.
    enough (Hgt : (3 * u < length (join (replicate u dotdot ++ names)))%nat) by lia. clear Hle.
    induction u as [|u IH]; cbn [replicate app].
    + destruct (join_last _ Hf Hne) as (o & c & -> & _). rewrite length_app. cbn. lia.
    + rewrite join_cons, decide_False by (intros [_ ?]%app_eq_nil; done).
      rewrite length_app. cbn [length dotdot]. lia.
  - intros ->. rewrite app_nil_r. induction u as [|u IH]; [done|]. cbn [replicate].
    rewrite join_cons. destruct (decide _); [cbn; lia|]. rewrite length_app. cbn [length dotdot]. lia.
Qed.

(** The first name of what is left. *)
Lemma take_name s : s.[0] <> 47 -> Forall (fun c => c <> 47) (take (slash_at s) s).
Proof.
  intros _. induction s as [|c s IH]; [constructor|]. cbn [slash_at].
  destruct (Z.eqb_spec c 47); [constructor|]. cbn [take]. by constructor.
Qed.

Lemma take_name_is s n :
  take (slash_at s) s = n -> slash_at s = length n /\ forall i, (i < length n)%nat -> s.[i] = n.[i].
Proof.
  intros <-. pose proof (slash_at_le s) as Hle. rewrite length_take_le by done. split; [done|].
  intros i Hi. unfold byte_at. by rewrite !nth_lookup, lookup_take_lt.
Qed.

Section canonical.
Context `{RpHost} (windows : bool).

(** ".." takes the last name away, or stays at the root. *)
Lemma pop_shape s :
  shape windows s -> ~ (length (out s) <= 3 * nup s)%nat ->
  exists pre names, pop_name (out s) = pre ++ join (replicate (nup s) dotdot ++ names) /\
    Forall plain_name names /\ (pre = [] \/ (nup s = 0%nat /\ root_ok windows pre)).
Proof.
  intros (pre & names & Ho & Hp & Hpre) Hlt. pose proof (shape_lead _ _ _ Hpre) as Hlead.
  destruct (decide (names = [])) as [->|Hne].
  - destruct Hpre as [->|[Hu Hroot]].
    + exfalso. apply Hlt. rewrite Ho. cbn [app]. by apply dots_length.
    + exists pre, []. rewrite Ho, Hu in *. split_and!; [|constructor|by right]. cbn. rewrite app_nil_r.
      by destruct Hroot as [->|[_ ->]].
  - destruct (exists_last Hne) as (names' & n & ->). apply Forall_app in Hp as [Hp Hn].
    apply Forall_cons in Hn as [[Hn _] _]. exists pre, names'. split_and!; [|done|done].
    rewrite Ho, app_assoc. eapply pop_snoc; [done| |done].
    apply Forall_app. split; [apply dots_slashless|by apply plain_slashless].
Qed.

Lemma walk_step_shape s s' :
  shape windows s -> walk_step windows s = Next s' -> shape windows s'.
Proof.
  intros Hshape. pose proof Hshape as (pre & names & Ho & Hp & Hpre).
  pose proof (shape_lead _ _ _ Hpre) as Hlead.
  assert (Hall : Forall slashless (replicate (nup s) dotdot ++ names))
    by (apply Forall_app; split; [apply dots_slashless|by apply plain_slashless]).
  unfold walk_step. destruct (Z.eqb_spec ((rem s).[0]) 47) as [Hs|Hs].
  { intros. simplify_eq. destruct (windows && _ && _) eqn:Hw.
    - exists [47; 47], []. cbn. split_and!; [done|constructor|]. right. split; [done|]. right.
      by destruct windows.
    - exists [47], []. cbn. split_and!; [done|constructor|]. right. split; [done|by left]. }
  destruct (bool_decide (slash_at (rem s) = 0%nat) && negb (check_dir s)) eqn:E0; [done|].
  destruct (bool_decide (slash_at (rem s) = 1%nat) && _) eqn:E1; [intros; simplify_eq; by exists pre, names|].
  destruct (_ && bool_decide (RP_MAX - length (rem s) = 0)%nat); [done|].
  destruct (bool_decide (RP_MAX <= _)%nat); [done|].
  set (comp := take (slash_at (rem s)) (rem s)).
  assert (Htmp : out s ++ (if bool_decide (out s <> []) && negb ((out s).[length (out s) - 1] =? 47)
                           then [47] else []) ++ comp =
                 pre ++ join ((replicate (nup s) dotdot ++ names) ++ [comp]))
    by (rewrite Ho; by eapply append_name).
  rewrite Htmp. set (up := bool_decide (slash_at (rem s) = 2%nat) && _ && _).
  assert (Hcomp : Forall (fun c => c <> 47) comp) by (by apply take_name).
  assert (Hup : up = true -> comp = dotdot).
  { unfold up, comp. intros [[Hu H0%Z.eqb_eq]%andb_true_iff H1%Z.eqb_eq]%andb_true_iff.
    apply bool_decide_eq_true in Hu. rewrite Hu. destruct (rem s) as [|a [|b r]]; [done..|].
    change ((a :: b :: r).[0]) with a in H0. change ((a :: b :: r).[1]) with b in H1. by subst. }
  assert (Hnup : up = false -> slash_at (rem s) <> 0%nat -> plain_name comp).
  { intros Hu H0. unfold comp in *. split_and!; [split; [|done]| |].
    - destruct (rem s) as [|a r]; [done|]. by destruct (slash_at (a :: r)).
    - intros Hc. destruct (take_name_is _ _ Hc) as [Hl Hb]. specialize (Hb 0%nat ltac:(cbn; lia)).
      by rewrite Hl, Hb in E1.
    - intros Hc. destruct (take_name_is _ _ Hc) as [Hl Hb]. unfold up in Hu.
      by rewrite Hl, (Hb 0%nat), (Hb 1%nat) in Hu by (cbn; lia). }
  (* the end of a name that is no link *)
  assert (Hno : up && bool_decide (length (out s) <= 3 * nup s)%nat = false ->
    no_link s up (slash_at (rem s)) (pre ++ join ((replicate (nup s) dotdot ++ names) ++ [comp]))
      (drop (slash_at (rem s)) (rem s)) = Next s' -> shape windows s').
  { intros Hlt. unfold no_link. destruct up eqn:Eu; intros; simplify_eq.
    - cbn [andb] in Hlt. apply bool_decide_eq_false in Hlt.
      destruct (pop_shape s Hshape Hlt) as (pre' & names' & Hpop & Hf & Hpre').
      exists pre', names'. by cbn [out nup].
    - destruct (bool_decide (slash_at (rem s) = 0%nat)) eqn:H0; [by exists pre, names|]; apply bool_decide_eq_false in H0. exists pre, (names ++ [comp]). cbn [out nup].
      split_and!; [by rewrite (app_assoc (replicate _ _) names)|apply Forall_app; split; [done|]|done].
      constructor; [by apply Hnup|constructor]. }
  destruct (up && bool_decide _) eqn:Eu.
  { apply andb_true_iff in Eu as [Eu Hle%bool_decide_eq_true]. intros. simplify_eq.
    rewrite (Hup Eu). destruct Hpre as [->|[Hu0 Hroot]].
    - exists [], []. rewrite Ho in Hle. cbn [app out nup] in *.
      apply dots_length in Hle as ->; [|by apply plain_slashless].
      split_and!; [|constructor|by left]. by rewrite !app_nil_r, replicate_S_end.
    - exfalso. rewrite Ho, Hu0 in Hle. rewrite length_app in Hle.
      destruct Hroot as [->|[_ ->]]; cbn in Hle; lia. }
  destruct ((up && negb (check_dir s)) || _); [by apply Hno|].
  destruct (rp_readlink _) as [link|e]; [|destruct (bool_decide (e = EINVAL)); [by apply Hno|done]].
  unfold push_link. intros Hpush. repeat case_match; simplify_eq; by exists pre, names.
Qed.

(** ** The current directory in front *)

(** Walking back over a name, to just behind the slash before it. *)
Lemma cut_to_name (cwd x : cstr) k :
  (1 <= length x)%nat -> (forall i, (length x <= i < length x + k)%nat -> cwd.[i] <> 47) ->
  (length x = 1%nat \/ cwd.[length x - 1] = 47) -> cut_name cwd (length x + k) = length x.
Proof.
  assert (Hstep : forall l, cut_name cwd (S (S l)) = if cwd.[S l] =? 47 then S (S l) else cut_name cwd (S l)) by done.
  intros H1 Hno Hat. induction k as [|k IH].
  - rewrite Nat.add_0_r in *. destruct (length x) as [|[|l]] eqn:E; [lia|done|]. rewrite Hstep.
    destruct Hat as [|Hat]; [done|]. cbn [Nat.sub] in Hat. by rewrite Hat.
  - rewrite Nat.add_succ_r. destruct (length x + k)%nat as [|l] eqn:E; [lia|]. rewrite Hstep.
    rewrite (proj2 (Z.eqb_neq _ _)) by (apply Hno; lia). apply IH. intros. apply Hno. lia.
Qed.

(** A length of the directory that is itself a canonical path. *)
Definition dir_prefix (cwd : cstr) (l : nat) : Prop :=
  (1 <= l <= length cwd)%nat /\ canonical windows (take l cwd).

Lemma take_app_le (a b : cstr) : take (length a) (a ++ b) = a.
Proof. apply take_app_length. Qed.

Lemma cwd_up_prefix cwd l : dir_prefix cwd l -> dir_prefix cwd (cwd_up cwd l).
Proof.
  intros [[H1 Hl] (pre & names & Ht & Hroot & Hp)].
  assert (exists d, cwd = take l cwd ++ d) as [d Hc] by (exists (drop l cwd); by rewrite take_drop).
  assert (Hlen : length (take l cwd) = l) by (rewrite length_take_le; lia).
  rewrite Ht in Hc, Hlen. clear Ht.
  assert (Hone : exists d', cwd = [47] ++ d').
  { destruct Hroot as [->|[_ ->]]; cbn in Hc; rewrite Hc; cbn; eauto. }
  assert (Hroot1 : dir_prefix cwd 1).
  { destruct Hone as [d' ->]. split; [cbn; lia|]. exists [47], []. split_and!; [done|by left|constructor]. }
  unfold cwd_up. destruct (decide (names = [])) as [->|Hne].
  - cbn [join] in *. rewrite app_nil_r in *. destruct Hroot as [->|[_ ->]]; subst l; [done|].
    subst cwd. cbn [length]. cbn [app cut_name].
    replace ((47 :: 47 :: d).[1] =? 47) with true by done. done.
  - destruct (exists_last Hne) as (names' & n & ->). apply Forall_app in Hp as [Hp [[[Hn Hns] _] _]%Forall_cons].
    rewrite join_snoc in Hc, Hlen. destruct (decide (names' = [])) as [->|Hne'].
    + (* a single name *)
      assert (Hcut : cut_name cwd l = length pre).
      { rewrite <- Hlen, length_app. apply cut_to_name.
        - destruct Hroot as [->|[_ ->]]; cbn; lia.
        - intros i Hi. rewrite Hc. unfold byte_at. rewrite nth_lookup, <- app_assoc, lookup_app_r by lia.
          destruct (lookup_lt_is_Some_2 n (i - length pre)) as [c Hci]; [lia|].
          rewrite lookup_app_l by lia. rewrite Hci. rewrite Forall_forall in Hns.
          exact (Hns _ (list_elem_of_lookup_2 _ _ _ Hci)).
        - destruct Hroot as [->|[_ ->]]; [by left|right]. by rewrite Hc. }
      rewrite Hcut. destruct Hroot as [->|[_ ->]]; done.
    + set (x := pre ++ join names' ++ [47]).
      assert (Hc' : cwd = x ++ n ++ d) by (unfold x; rewrite Hc, <- !app_assoc; done).
      assert (Hxl : length x = S (length (pre ++ join names'))) by (unfold x; rewrite !length_app; cbn; lia).
      assert (Hpl : (1 <= length pre)%nat) by (destruct Hroot as [->|[_ ->]]; cbn; lia).
      assert (Hll : l = (length x + length n)%nat).
      { rewrite <- Hlen, Hxl, !length_app. cbn [length]. lia. }
      assert (Hcut : cut_name cwd l = length x).
      { rewrite Hll. apply cut_to_name.
        - lia.
        - intros i Hi. rewrite Hc'. unfold byte_at. rewrite nth_lookup, lookup_app_r by lia.
          destruct (lookup_lt_is_Some_2 n (i - length x)) as [c Hci]; [lia|].
          rewrite lookup_app_l by lia. rewrite Hci. rewrite Forall_forall in Hns.
          exact (Hns _ (list_elem_of_lookup_2 _ _ _ Hci)).
        - right. rewrite Hc', Hxl. unfold x. cbn [Nat.sub]. rewrite Nat.sub_0_r.
          unfold byte_at. rewrite <- !app_assoc, app_assoc, app_nth2, Nat.sub_diag by lia. done. }
      rewrite Hcut. assert (Hpos : (1 < length x)%nat) by (rewrite Hxl, length_app; lia).
      rewrite bool_decide_eq_true_2 by done. rewrite Hxl at 1. cbn [Nat.sub]. rewrite Nat.sub_0_r. split.
      * assert (length cwd = length x + length (n ++ d))%nat by (rewrite Hc'; apply length_app). lia.
      * exists pre, names'. split_and!; [|done|done]. rewrite Hc'. unfold x.
        rewrite (app_assoc pre), <- (app_assoc _ _ (n ++ d)). apply take_app_length.
Qed.

(** Each leading ".." takes a name off the directory and itself off the output. *)
Lemma cancel_up_spec k o names cwd l p :
  drop p o = join (replicate k dotdot ++ names) -> (p <= length o)%nat -> dir_prefix cwd l ->
  let '(l', p') := cancel_up k cwd (length o) l p in
  drop p' o = join names /\ (p' <= length o)%nat /\ dir_prefix cwd l'.
Proof.
  revert l p. induction k as [|k IH]; intros l p Hd Hp Hl; [done|]. cbn [cancel_up].
  apply cwd_up_prefix in Hl. cbn [replicate app] in Hd. rewrite join_cons in Hd.
  assert (Hlen : length (drop p o) = (length o - p)%nat) by apply length_drop.
  assert (H2 : drop (p + 2) o = drop 2 (drop p o)) by (by rewrite drop_drop).
  destruct (decide (replicate k dotdot ++ names = [])) as [Hnil|Hne].
  - rewrite Hd in Hlen, H2. cbn in Hlen. apply IH; [|case_bool_decide; lia|done].
    rewrite bool_decide_eq_false_2 by lia. by rewrite H2, Hnil.
  - rewrite Hd in Hlen, H2. rewrite length_app in Hlen. cbn [dotdot length] in Hlen.
    rewrite bool_decide_eq_true_2 by lia. apply IH; [|lia|done].
    replace (S (p + 2)) with ((p + 2) + 1)%nat by lia. rewrite <- drop_drop, H2. done.
Qed.

Lemma join_cwd_canonical u names p :
  (forall cwd, rp_getcwd = Ok cwd -> canonical windows cwd) -> Forall plain_name names ->
  join_cwd u (join (replicate u dotdot ++ names)) = Ok p -> canonical windows p /\ (length p < RP_MAX)%nat.
Proof.
  intros Hcan Hnames. unfold join_cwd. destruct rp_getcwd as [cwd|e]; [|done].
  specialize (Hcan cwd eq_refl). set (o := join (replicate u dotdot ++ names)).
  assert (Hdir : dir_prefix cwd (length cwd)).
  { split; [|by rewrite take_ge]. destruct Hcan as (pre & ns & -> & Hroot & _).
    rewrite length_app. destruct Hroot as [->|[_ ->]]; cbn; lia. }
  pose proof (cancel_up_spec u o names cwd (length cwd) 0 ltac:(done) ltac:(lia) Hdir) as Hspec.
  destruct (cancel_up u cwd (length o) (length cwd) 0) as [l q]. destruct Hspec as (Hd & Hq & [Hl Hc]).
  destruct Hc as (pre & ms & Ht & Hroot & Hms).
  assert (Hlast : cwd.[l - 1] = (take l cwd).[length (take l cwd) - 1]).
  { rewrite length_take_le by lia. unfold byte_at. rewrite !nth_lookup, lookup_take_lt by lia. done. }
  rewrite Hlast, Ht. assert (Hlen : (length o - q)%nat = length (join names)) by (by rewrite <- Hd, length_drop).
  rewrite Hlen, Hd. set (h := pre ++ join ms).
  assert (Hh : h <> []) by (unfold h; destruct Hroot as [->|[_ ->]]; done).
  destruct (bool_decide (RP_MAX <= _)%nat) eqn:Hmax; [done|]. apply bool_decide_eq_false in Hmax.
  intros. simplify_eq. split; [|rewrite length_app; lia]. clear Hmax.
  exists pre, (ms ++ names). split_and!; [|done|by apply Forall_app].
  destruct (decide (names = [])) as [->|Hne]; [by rewrite !app_nil_r|].
  assert (Hz : bool_decide (length (join names) = 0%nat) = false).
  { apply bool_decide_eq_false. intros Hz%length_zero_iff_nil.
    by apply join_nil in Hz; [|apply plain_slashless]. }
  rewrite Hz. cbn [negb andb].
  assert (Hjoin : forall ms, Forall slashless ms -> names <> [] ->
    join (ms ++ names) = if decide (ms = []) then join names else join ms ++ 47 :: join names).
  { clear. intros ms Hf Hne. induction Hf as [|m ms Hm Hf IH]; [done|]. cbn [app]. rewrite !join_cons, IH.
    rewrite decide_False by (by intros [_ ?]%app_eq_nil).
    destruct (decide (ms = [])) as [->|]; [done|]. by rewrite <- app_assoc. }
  rewrite Hjoin by (done || by apply plain_slashless). unfold h.
  destruct (decide (ms = [])) as [->|Hms'].
  - cbn [join]. rewrite !app_nil_r. by destruct Hroot as [->|[_ ->]].
  - destruct (join_last ms (plain_slashless _ Hms) Hms') as (o' & c & Hj & Hcc).
    assert (Hl' : (pre ++ join ms).[length (pre ++ join ms) - 1] = c)
      by (rewrite Hj, (app_assoc pre); apply byte_at_app_last).
    rewrite Hl', (proj2 (Z.eqb_neq _ _) Hcc). cbn [negb]. by rewrite <- !app_assoc.
Qed.
End canonical.

Section answer.
Context `{RpHost} (windows : bool).

Lemma pop_name_le o : (length (pop_name o) <= length o)%nat.
Proof. unfold pop_name. destruct (_ && _); rewrite length_take; lia. Qed.

Lemma no_link_room s up l0 tmp rem' s' :
  (length (out s) < RP_MAX)%nat -> (length tmp < RP_MAX)%nat ->
  no_link s up l0 tmp rem' = Next s' -> (length (out s') < RP_MAX)%nat.
Proof.
  intros Ho Ht. unfold no_link. pose proof (pop_name_le (out s)).
  destruct up; intros; simplify_eq; cbn [out]; [lia|]. by destruct (bool_decide (l0 = 0%nat)).
Qed.

(** The output never outgrows its buffer. *)
Lemma walk_step_room s s' :
  (2 < RP_MAX)%nat -> (length (out s) < RP_MAX)%nat -> walk_step windows s = Next s' ->
  (length (out s') < RP_MAX)%nat.
Proof.
  intros Hmax Ho. unfold walk_step. destruct (_ =? 47).
  { intros. simplify_eq. cbn [out]. destruct (windows && _ && _); cbn; lia. }
  destruct (bool_decide (slash_at (rem s) = 0%nat) && _); [done|].
  destruct (bool_decide (slash_at (rem s) = 1%nat) && _); [intros; by simplify_eq|].
  destruct (_ && bool_decide (RP_MAX - length (rem s) = 0)%nat); [done|].
  set (comp := _ ++ take _ _).
  destruct (bool_decide (RP_MAX <= _)%nat) eqn:Hfit; [done|]. apply bool_decide_eq_false in Hfit.
  assert (Htmp : (length (out s ++ comp) < RP_MAX)%nat) by (rewrite length_app; lia).
  set (up := bool_decide (slash_at (rem s) = 2%nat) && _ && _).
  destruct (up && bool_decide _); [intros; by simplify_eq|].
  destruct ((up && negb (check_dir s)) || _); [by apply no_link_room|].
  destruct (rp_readlink _) as [link|e]; [|destruct (bool_decide (e = EINVAL)); [by apply no_link_room|done]].
  unfold push_link. intros Hpush. repeat case_match; by simplify_eq.
Qed.

Lemma walk_loop_inv fuel s s' :
  (2 < RP_MAX)%nat -> shape windows s -> (length (out s) < RP_MAX)%nat ->
  walk_loop windows fuel s = Some (Ok s') -> shape windows s' /\ (length (out s') < RP_MAX)%nat.
Proof.
  intros Hmax. revert s. induction fuel as [|fuel IH]; intros s Hs Ho; [done|]. cbn [walk_loop].
  destruct (walk_step windows s) as [s1|s1|e] eqn:Hstep; [| |done].
  - apply IH; [by eapply walk_step_shape|by eapply walk_step_room].
  - intros. simplify_eq.
    assert (s' = s) as ->; [|done]. unfold walk_step, no_link, push_link in Hstep.
    repeat case_match; by simplify_eq.
Qed.

(** what realpath answers is canonical and fits its buffer: an absolute
    path, from the root or on Windows from a share's two slashes, of non-empty
    names none of which is "." or "..", shorter than PATH_MAX; whatever links
    were followed and however the directory was joined. Only a path into the
    program's own archive is answered as it was given. *)
Theorem realpath_canonical fuel filename p :
  (2 < RP_MAX)%nat -> (forall cwd, rp_getcwd = Ok cwd -> canonical windows cwd) ->
  realpath windows fuel filename = Some (Ok p) ->
  (is_zip p = true \/ canonical windows p) /\ (length p < RP_MAX)%nat.
Proof.
  intros Hmax Hcwd. unfold realpath. destruct filename as [f|]; [|done].
  destruct (if windows then _ else _) as [f'|e]; [|done].
  destruct (bool_decide (f' = [])); [done|].
  destruct (bool_decide (RP_MAX <= length f')%nat) eqn:Hlen; [done|]. apply bool_decide_eq_false in Hlen.
  destruct (is_zip f') eqn:Hzip; [intros; simplify_eq; split; [by left|lia]|].
  destruct (walk_loop windows fuel (Walk f' [] false 0 0)) as [[s|e]|] eqn:Hloop; [|done..].
  assert (H0 : shape windows (Walk f' [] false 0 0)) by (exists [], []; split_and!; [done|constructor|by left]).
  destruct (walk_loop_inv fuel _ s Hmax H0 ltac:(cbn; lia) Hloop) as [(pre & names & Ho & Hp & Hpre) Hroom].
  destruct (Z.eqb_spec ((out s).[0]) 47) as [Ha|Ha].
  - intros. simplify_eq. split; [right|done]. destruct Hpre as [->|[Hu Hroot]].
    + exfalso. rewrite Ho in Ha. cbn [app] in Ha.
      assert (Hall : Forall slashless (replicate (nup s) dotdot ++ names))
        by (apply Forall_app; split; [apply dots_slashless|by apply plain_slashless]).
      destruct Hall as [|n l [Hn Hs] _]; [done|]. destruct n as [|c n]; [done|].
      apply Forall_cons in Hs as [Hc _]. exact (Hc Ha).
    + exists pre, names. by rewrite Ho, Hu.
  - intros Hj. simplify_eq. destruct Hpre as [->|[Hu Hroot]].
    + rewrite Ho in Hj. destruct (join_cwd_canonical windows _ _ _ Hcwd Hp Hj). by split; [right|].
    + rewrite Ho in Ha. by destruct Hroot as [->|[_ ->]].
Qed.
End answer.

(** ** On a concrete host

    "/home/me" is the current directory, "/home/me/l" a link to "../lib/./x",
    "/home/lib" one to "/usr/lib/". *)
Definition toy_rp : RpHost := {|
  RP_MAX := 1024;
  rp_readlink p :=
    if bool_decide (p = bytes "/home/me/l") then Ok (bytes "../lib/./x")
    else if bool_decide (p = bytes "/home/lib") then Ok (bytes "/usr/lib/")
    else if bool_decide (p = bytes "/home/no") then Err ENOENT
    else Err EINVAL;
  rp_getcwd := Ok (bytes "/home/me");
  rp_unc_collapsed _ := false |}.

Lemma toy_walks :
  map (fun f => @realpath toy_rp false 60 (Some (bytes f)))
    ["/home/me/l//y/../z"; "../me/./a"; "../../../x"; "/home/no/a"; "/home/me/"; "/.."]%string =
  map Some [Ok (bytes "/usr/lib/x/z"); Ok (bytes "/home/me/a"); Ok (bytes "/x"); Err ENOENT;
            Ok (bytes "/home/me"); Ok (bytes "/")].
Proof. vm_compute. reflexivity. Qed.

Lemma realpath_canonical_witness :
  (is_zip (bytes "/usr/lib/x/z") = true \/ canonical false (bytes "/usr/lib/x/z")) /\
  (length (bytes "/usr/lib/x/z") < 1024)%nat.
Proof.
  apply (@realpath_canonical toy_rp false 60 (Some (bytes "/home/me/l//y/../z"))).
  - cbn. lia.
  - intros cwd Hc. cbn in Hc. simplify_eq. exists [47], [bytes "home"; bytes "me"].
    split_and!; [done|by left|]. repeat constructor; done.
  - vm_compute. reflexivity.
Defined.
