(* ===== verification/PfsText.v ===== *)
(** * The text helpers of shim/procfs

    Components of a path, fixed-size copies, numbers in decimal, and the
    lists of entries a directory of the emulated trees is answered with.
    What the C code repeats in every file is defined here once, with the
    lemmas on how a path and the path of one of its entries decompose. *)
From Stdlib Require Import ssreflect.
From S2P Require Import Prelude.

Definition DT_DIR : Z := 4.
Definition DT_REG : Z := 8.
Definition DT_LNK : Z := 10.

(** ** Text *)

(** The bytes up to a slash, their number and what follows leading slashes. *)
Fixpoint name_len (s : cstr) : nat :=
  match s with c :: s' => if c =? 47 then 0%nat else S (name_len s') | [] => 0 end.

Fixpoint no_lead (s : cstr) : cstr :=
  match s with c :: s' => if c =? 47 then no_lead s' else s | [] => [] end.

Definition has_slash (s : cstr) : bool := existsb (fun c => c =? 47) s.

(** [snprintf(out, cap, "%s", s)] *)
Definition cut (cap : nat) (s : cstr) : cstr := take (cap - 1) s.

(** %u, and the digits strtoul and atoi read. *)
Fixpoint dec (fuel : nat) (x : Z) : cstr :=
  match fuel with
  | O => []
  | S fuel' => if x <? 10 then [48 + x] else dec fuel' (x / 10) ++ [48 + x mod 10]
  end.

Definition decimal (x : Z) : cstr := dec 20 x.

Definition is_digit (c : Z) : bool := (48 <=? c) && (c <=? 57).

Fixpoint digits (s : cstr) (acc : Z) : Z :=
  match s with
  | c :: s' => if is_digit c then digits s' (acc * 10 + (c - 48)) else acc
  | [] => acc
  end.

Definition strtoul (s : cstr) : Z := Z.min (digits s 0) (2 ^ 64 - 1).

Definition is_space (c : Z) : bool := (c =? 32) || ((9 <=? c) && (c <=? 13)).

Fixpoint skip_space (s : cstr) : cstr :=
  match s with c :: s' => if is_space c then skip_space s' else s | [] => [] end.

Definition atoi (s : cstr) : Z :=
  match skip_space s with
  | 45 :: s' => s32 (- digits s' 0)
  | 43 :: s' => s32 (digits s' 0)
  | s' => s32 (digits s' 0)
  end.

(** comp: the first component, cut to its buffer. *)
Definition comp (cap : nat) (s : cstr) : cstr := cut cap (take (name_len s) s).

(** [strchr(s, '/')]: what is behind the first slash, if there is one. *)
Definition behind_slash (s : cstr) : option cstr :=
  if has_slash s then Some (drop (S (name_len s)) s) else None.

(** [%d] *)
Definition signed (x : Z) : cstr := if x <? 0 then 45 :: decimal (- x) else decimal x.

(** ** Listings *)

Inductive listed :=
  | NotOurs                          (* -1 *)
  | Absent                           (* -2: the process is gone *)
  | Entries (l : list (cstr * Z)).

(** An entry's buffer holds 31 bytes of name. *)
Definition add (name : cstr) (type : Z) : cstr * Z := (cut 32 name, type).

Definition dots : list (cstr * Z) := [add [46] DT_DIR; add [46; 46] DT_DIR].

Definition files (names : list cstr) : list (cstr * Z) := map (fun nm => add nm DT_REG) names.

(** The entries of a listing that are not the directory and its parent. *)
Definition named (e : cstr * Z) : Prop := e ∉ dots.

(** ** Decomposition *)

Lemma no_lead_app s t : no_lead s = [] -> no_lead (s ++ t) = no_lead t.
Proof. induction s as [|c s IH]; cbn; [done|]. destruct (c =? 47); [done|discriminate]. Qed.

Lemma no_lead_cons_app s t c r : no_lead s = c :: r -> no_lead (s ++ t) = no_lead s ++ t.
Proof. induction s as [|d s IH]; cbn; [done|]. destruct (d =? 47); [done|]. intros [= -> ->]. done. Qed.

Lemma no_lead_head s c r : no_lead s = c :: r -> c <> 47.
Proof. induction s as [|d s IH]; cbn; [done|]. destruct (d =? 47) eqn:E; [done|]. intros [= -> ->]. lia. Qed.

Lemma no_lead_clean s : has_slash s = false -> no_lead s = s.
Proof.
  destruct s as [|c s]; cbn; [done|]. by destruct (c =? 47).
Qed.

Lemma no_lead_idem s : no_lead (no_lead s) = no_lead s.
Proof. induction s as [|c s IH]; cbn; [done|]. destruct (c =? 47) eqn:E; [done|]. cbn. by rw E. Qed.

Lemma no_lead_length s : (length (no_lead s) <= length s)%nat.
Proof. induction s as [|c s IH]; cbn; [done|]. destruct (c =? 47); cbn; lia. Qed.

Lemma name_len_le s : (name_len s <= length s)%nat.
Proof. induction s as [|c s IH]; cbn; [done|]. destruct (c =? 47); cbn; lia. Qed.

Lemma name_len_app s t : name_len (s ++ 47 :: t) = name_len s.
Proof. induction s as [|c s IH]; cbn; [done|]. destruct (c =? 47); [done|]. by rw IH. Qed.

Lemma name_len_clean s : has_slash s = false -> name_len s = length s.
Proof.
  induction s as [|c s IH]; cbn; [done|]. intros [-> H]%orb_false_iff. by rw IH.
Qed.

Lemma has_slash_app s t : has_slash (s ++ t) = has_slash s || has_slash t.
Proof. apply existsb_app. Qed.

Lemma cut_fits cap s : (length s < cap)%nat -> cut cap s = s.
Proof. intros. apply take_ge. lia. Qed.

Lemma comp_app cap s t : comp cap (s ++ 47 :: t) = comp cap s.
Proof.
  rw /comp name_len_app take_app_le; [apply name_len_le|done].
Qed.

Lemma comp_clean cap s : has_slash s = false -> (length s < cap)%nat -> comp cap s = s.
Proof. intros Hs Hl. by rw /comp name_len_clean // take_ge // cut_fits. Qed.

(** What is behind the first component, in a path and one entry further. *)
Definition one_down (rest name : cstr) : cstr :=
  match rest with [] => no_lead name | _ => rest ++ 47 :: name end.

Lemma behind_app s t :
  no_lead (drop (name_len s) (s ++ 47 :: t)) =
  one_down (no_lead (drop (name_len s) s)) t.
Proof.
  rw drop_app_le; [apply name_len_le|].
  destruct (no_lead (drop (name_len s) s)) as [|c r] eqn:E.
  - by rw no_lead_app.
  - by rw (no_lead_cons_app _ _ _ _ E) E.
Qed.

(** A name a directory can hold. *)
Record entry_name (name : cstr) : Prop :=
  { en_some : name <> []; en_slash : has_slash name = false; en_fits : (length name < 32)%nat }.

(** ** Numbers in text *)

Lemma dec_clean fuel x : 0 <= x -> has_slash (dec fuel x) = false.
Proof.
  revert x. induction fuel as [|fuel IH]; intros x Hx; cbn [dec]; [done|].
  destruct (x <? 10) eqn:E.
  - cbn. destruct (48 + x =? 47) eqn:?; [lia|done].
  - pose proof (Z.div_pos x 10). pose proof (Z.mod_pos_bound x 10).
    rw has_slash_app IH; [lia|]. cbn. destruct (48 + x mod 10 =? 47) eqn:?; [lia|done].
Qed.

Lemma dec_length fuel x : (length (dec fuel x) <= fuel)%nat.
Proof.
  revert x. induction fuel as [|fuel IH]; intros x; cbn [dec]; [done|].
  destruct (x <? 10); [cbn; lia|]. rw length_app. specialize (IH (x / 10)). cbn. lia.
Qed.

Lemma dec_cons fuel x : exists c r, dec (S fuel) x = c :: r.
Proof.
  cbn [dec]. destruct (x <? 10); [eauto|].
  destruct (dec fuel (x / 10)); cbn; eauto.
Qed.

Lemma decimal_name x : 0 <= x -> entry_name (decimal x).
Proof.
  intros Hx. split; [|by apply dec_clean|pose proof (dec_length 20 x); rewrite /decimal; lia].
  destruct (dec_cons 19 x) as (c & r & E). by rw /decimal E.
Qed.

Lemma digit_of d : 0 <= d < 10 -> is_digit (48 + d) = true.
Proof. rw /is_digit. intros. apply andb_true_iff. split; apply Z.leb_le; lia. Qed.

Lemma digits_dec fuel x tl :
  0 <= x -> x < 10 ^ Z.of_nat fuel -> digits (dec fuel x ++ tl) 0 = digits tl x.
Proof.
  revert x tl. induction fuel as [|fuel IH]; intros x tl Hx Hlt.
  { cbn in *. by replace x with 0 by lia. }
  cbn [dec]. destruct (x <? 10) eqn:E.
  - cbn [app digits]. rw digit_of; [lia|]. f_equal. lia.
  - pose proof (Z.div_pos x 10). pose proof (Z.mod_pos_bound x 10) as Hm.
    pose proof (Z.div_mod x 10) as Hdm.
    rw -app_assoc IH; [lia| |].
    + apply Z.div_lt_upper_bound; [lia|].
      rw Nat2Z.inj_succ Z.pow_succ_r in Hlt; lia.
    + cbn [app digits]. rw digit_of; [lia|]. f_equal. lia.
Qed.

Lemma digits_decimal x : 0 <= x < 10 ^ 20 -> digits (decimal x) 0 = x.
Proof.
  intros Hx. pose proof (digits_dec 20 x [] (proj1 Hx)) as E. rw app_nil_r in E.
  by rw /decimal E; [cbn; lia|].
Qed.

(** Nothing that starts with a digit is white space or a sign. *)
Lemma dec_first_digit fuel x c r : 0 <= x -> dec fuel x = c :: r -> is_digit c = true.
Proof.
  revert x c r. induction fuel as [|fuel IH]; intros x c r Hx; [done|]. cbn [dec].
  destruct (x <? 10) eqn:E.
  - intros [= <- <-]. apply digit_of. lia.
  - pose proof (Z.div_pos x 10). pose proof (Z.mod_pos_bound x 10).
    destruct (dec fuel (x / 10)) as [|c' r'] eqn:Ed; cbn [app].
    + intros [= <- <-]. apply digit_of. lia.
    + intros [= -> <-]. eapply IH; [|exact Ed]. lia.
Qed.

Lemma atoi_decimal x : 0 <= x < 2 ^ 31 -> atoi (decimal x) = x.
Proof.
  intros Hx. destruct (dec_cons 19 x) as (c & r & E). 
  pose proof (dec_first_digit 20 x c r (proj1 Hx) E) as Hc.
  move: Hc. rw /is_digit andb_true_iff !Z.leb_le. intros Hc.
  assert (Hd : digits (c :: r) 0 = x) by (rw -E; apply digits_decimal; lia).
  rw /atoi /decimal E. cbn [skip_space].
  assert (Hsp : is_space c = false).
  { rw /is_space. apply orb_false_iff. split; [lia|]. apply andb_false_iff. right. lia. }
  rw Hsp. assert (c = 48 \/ c = 49 \/ c = 50 \/ c = 51 \/ c = 52 \/ c = 53 \/ c = 54 \/ c = 55 \/ c = 56 \/ c = 57)
    as Hcases by lia.
  assert (Hs : s32 (digits (c :: r) 0) = x) by (rw Hd; apply s32_small; lia).
  by destruct_or! Hcases; subst c.
Qed.

Lemma decimal_digit x : 0 <= x -> exists c r, decimal x = c :: r /\ is_digit c = true.
Proof.
  intros Hx. destruct (dec_cons 19 x) as (c & r & E). exists c, r. split; [done|].
  by eapply (dec_first_digit 20 x).
Qed.

Lemma add_decimal x type : 0 <= x -> add (decimal x) type = (decimal x, type).
Proof.
  intros Hx. rw /add cut_fits //. pose proof (dec_length 20 x). rw /decimal. lia.
Qed.

Lemma named_skip (l : list (cstr * Z)) e : e ∈ dots ++ l -> named e -> e ∈ l.
Proof. rw elem_of_app. by intros [|]. Qed.

Lemma elem_of_map {A B} (f : A -> B) (l : list A) y : y ∈ map f l -> exists x, y = f x /\ x ∈ l.
Proof. apply list_elem_of_fmap. Qed.

Lemma find_once {A} (l : list (Z * A)) k x :
  NoDup (map fst l) -> (k, x) ∈ l -> List.find (fun e => fst e =? k) l = Some (k, x).
Proof.
  induction l as [|[k' x'] l IH]; cbn [map List.find fst]; intros Hnd Hin.
  - by apply elem_of_nil in Hin.
  - apply NoDup_cons in Hnd as [Hk Hnd]. apply elem_of_cons in Hin as [[= -> ->]|Hin].
    + by rw Z.eqb_refl.
    + destruct (k' =? k) eqn:E; [|by apply IH]. exfalso. apply Hk. apply Z.eqb_eq in E as ->.
      apply list_elem_of_fmap. by exists (k, x).
Qed.
