(* ===== verification/SysFs.v ===== *)
(** * The emulated /sys of shim/procfs/xnu.c and /proc/sys of sysctl.c

    On Apple Silicon the slices of /sys that monitors read are answered from
    memory: what a path is, what a directory lists and what a file reads as.
    The theorem: the three agree, entry by entry, and a listing is complete.
    What the interfaces and the machine say are parameters. *)
From Stdlib Require Import ssreflect.
From S2P Require Import Prelude PfsText.

(** struct pfs_ifstat *)
Record ifstat := IfStat {
  if_name : cstr; if_rx_bytes : Z; if_tx_bytes : Z; if_rx_pkts : Z; if_tx_pkts : Z;
  if_rx_errs : Z; if_tx_errs : Z; if_rx_drop : Z; if_tx_drop : Z;
  if_mtu : Z; if_up : bool; if_mac : list Z; if_speed_mbps : Z }.

(** Splits "/sys/..." into at most [n] components. *)
Fixpoint sys_split (n : nat) (p : cstr) : list cstr :=
  match n with
  | O => []
  | S n' =>
      match no_lead p with
      | [] => []
      | s => comp 64 s :: sys_split n' (drop (name_len s) s)
      end
  end.

Definition sys_net_files : list cstr :=
  map bytes ["mtu"; "operstate"; "address"; "carrier"; "speed"]%string.
Definition sys_net_stats : list cstr :=
  map bytes ["rx_bytes"; "tx_bytes"; "rx_packets"; "tx_packets"; "rx_errors"; "tx_errors";
             "rx_dropped"; "tx_dropped"]%string.
Definition sys_cpu_files : list cstr := map bytes ["online"; "possible"; "present"]%string.

Definition name_in (names : list cstr) (name : cstr) : bool := bool_decide (name ∈ names).

(** What a path of the slices is. *)
Inductive sysfs_kind := SysAbsent | SysFile | SysDir.

#[export] Instance sysfs_kind_eq_dec : EqDecision sysfs_kind.
Proof. solve_decision. Defined.

(** What an entry of a type is. *)
Definition of_type (type : Z) : sysfs_kind := if type =? DT_DIR then SysDir else SysFile.

Section sysfs.
(** [pfs_xnu_ifstats] and the number of processors. *)
Context (ifs : list ifstat) (ncpu : Z).

Definition ifname_known (name : cstr) : bool := existsb (fun f => bool_decide (if_name f = name)) ifs.

(** A missing component compares with nothing. *)
Definition nth_comp (c : list cstr) (i : nat) : cstr := nth i c [].

Definition is_file (b : bool) : sysfs_kind := if b then SysFile else SysAbsent.

(** The kind of the path with these components. *)
Definition kind_of (c : list cstr) : sysfs_kind :=
  let n := length c in
  if bool_decide (n < 1)%nat || negb (bool_decide (nth_comp c 0 = bytes "sys")) then SysAbsent
  else if bool_decide (n = 1)%nat then SysDir
  else if bool_decide (nth_comp c 1 = bytes "class") then
    if bool_decide (n = 2)%nat then SysDir
    else if negb (bool_decide (nth_comp c 2 = bytes "net")) then SysAbsent
    else if bool_decide (n = 3)%nat then SysDir
    else if negb (ifname_known (nth_comp c 3)) then SysAbsent
    else if bool_decide (n = 4)%nat then SysDir
    else if bool_decide (nth_comp c 4 = bytes "statistics") then
      if bool_decide (n = 5)%nat then SysDir
      else is_file (bool_decide (n = 6)%nat && name_in sys_net_stats (nth_comp c 5))
    else is_file (bool_decide (n = 5)%nat && name_in sys_net_files (nth_comp c 4))
  else if bool_decide (nth_comp c 1 = bytes "devices") then
    if bool_decide (n = 2)%nat then SysDir
    else if negb (bool_decide (nth_comp c 2 = bytes "system")) then SysAbsent
    else if bool_decide (n = 3)%nat then SysDir
    else if negb (bool_decide (nth_comp c 3 = bytes "cpu")) then SysAbsent
    else if bool_decide (n = 4)%nat then SysDir
    else is_file (bool_decide (n = 5)%nat && name_in sys_cpu_files (nth_comp c 4))
  else SysAbsent.

Definition pfs_xnu_sysfs_kind (path : cstr) : sysfs_kind := kind_of (sys_split 6 path).

Definition line (text : cstr) : option cstr := Some (text ++ [10]).

(** %02x *)
Definition hex_digit (d : Z) : Z := if d <? 10 then 48 + d else 87 + d.
Definition hex2 (b : Z) : cstr := [hex_digit (b / 16); hex_digit (b mod 16)].

Fixpoint mac_text (first : bool) (mac : list Z) : cstr :=
  match mac with
  | [] => []
  | b :: mac' => (if first then [] else [58]) ++ hex2 b ++ mac_text false mac'
  end.

(** The last interface of that name. *)
Definition find_if (name : cstr) : option ifstat :=
  last (filter (fun f => if_name f = name) ifs).

Definition net_leaf (f : ifstat) (leaf : cstr) : option cstr :=
  if bool_decide (leaf = bytes "rx_bytes") then line (decimal (if_rx_bytes f))
  else if bool_decide (leaf = bytes "tx_bytes") then line (decimal (if_tx_bytes f))
  else if bool_decide (leaf = bytes "rx_packets") then line (decimal (if_rx_pkts f))
  else if bool_decide (leaf = bytes "tx_packets") then line (decimal (if_tx_pkts f))
  else if bool_decide (leaf = bytes "rx_errors") then line (decimal (if_rx_errs f))
  else if bool_decide (leaf = bytes "tx_errors") then line (decimal (if_tx_errs f))
  else if bool_decide (leaf = bytes "rx_dropped") then line (decimal (if_rx_drop f))
  else if bool_decide (leaf = bytes "tx_dropped") then line (decimal (if_tx_drop f))
  else if bool_decide (leaf = bytes "mtu") then line (decimal (if_mtu f))
  else if bool_decide (leaf = bytes "operstate") then line (bytes (if if_up f then "up" else "down"))
  else if bool_decide (leaf = bytes "carrier") then line (decimal (if if_up f then 1 else 0))
  else if bool_decide (leaf = bytes "speed") then line (decimal (if_speed_mbps f))
  else if bool_decide (leaf = bytes "address") then line (mac_text true (if_mac f))
  else None.

(** The text of a file of the slices. *)
Definition pfs_xnu_gen_sysfs (path : cstr) : option cstr :=
  let c := sys_split 6 path in
  if negb (bool_decide (pfs_xnu_sysfs_kind path = SysFile)) then None
  else if bool_decide (nth_comp c 1 = bytes "devices") then line (bytes "0-" ++ signed (ncpu - 1))
  else
    match find_if (nth_comp c 3) with
    | None => None
    | Some f => net_leaf f (if bool_decide (length c = 6)%nat then nth_comp c 5 else nth_comp c 4)
    end.

Definition dirs (names : list cstr) : list (cstr * Z) := map (fun nm => add nm DT_DIR) names.

(** The entries of the directory with these components. *)
Definition list_of (c : list cstr) : list (cstr * Z) :=
  let n := length c in
  dots ++
  (if bool_decide (n = 1)%nat then dirs [bytes "class"; bytes "devices"]
   else if bool_decide (nth_comp c 1 = bytes "class") then
     if bool_decide (n = 2)%nat then dirs [bytes "net"]
     else if bool_decide (n = 3)%nat then dirs (map if_name ifs)
     else if bool_decide (n = 4)%nat then dirs [bytes "statistics"] ++ files sys_net_files
     else files sys_net_stats
   else if bool_decide (n = 2)%nat then dirs [bytes "system"]
   else if bool_decide (n = 3)%nat then dirs [bytes "cpu"]
   else files sys_cpu_files).

(** [oom] is whether growing the array failed. *)
Definition pfs_xnu_sysfs_list (oom : bool) (path : cstr) : listed :=
  if negb (bool_decide (pfs_xnu_sysfs_kind path = SysDir)) || oom then NotOurs
  else Entries (list_of (sys_split 6 path)).
End sysfs.

(** ** sysctl.c: /proc/sys *)

(** The kernel's identity, what gethostname leaves, 16 random bytes and the
    boot time. *)
Class SysInfo := {
  pfs_kernel_sysname : cstr;
  pfs_kernel_release : cstr;
  pfs_kernel_version : cstr;
  hostname : cstr;
  entropy : list Z;
  pfs_boot_filetime : Z }.

Section sysctl.
Context `{SysInfo}.

Definition pfs_sys_dirs : list cstr := map bytes ["kernel"; "kernel/random"; "vm"; "fs"]%string.

(** The bytes of a version-4 uuid, and its text. *)
Definition uuid_bits (r : list Z) : list Z :=
  alter (fun b => Z.lor (Z.land b 0x3f) 0x80) 8%nat (alter (fun b => Z.lor (Z.land b 0x0f) 0x40) 6%nat r).

Fixpoint uuid_text (i : nat) (r : list Z) : cstr :=
  match r with
  | [] => []
  | b :: r' =>
      (if bool_decide (i ∈ [4; 6; 8; 10]%nat) then [45] else []) ++ hex2 b ++ uuid_text (S i) r'
  end.

Definition emit_uuid (r : list Z) : cstr := uuid_text 0 r ++ [10].

(** The hash of the boot time, byte [i] of it. *)
Fixpoint boot_bytes (n : nat) (i h : Z) : list Z :=
  match n with
  | O => []
  | S n' =>
      let h := (Z.lxor h (Z.land (Z.shiftr pfs_boot_filetime (i * 4 mod 64)) 0xff) * 0x100000001b3) mod 2 ^ 64 in
      Z.land (Z.shiftr h 32) 0xff :: boot_bytes n' (i + 1) h
  end.

Definition pfs_gen_sys_file (rest : cstr) : option cstr :=
  if bool_decide (rest = bytes "kernel/ostype") then line pfs_kernel_sysname
  else if bool_decide (rest = bytes "kernel/osrelease") then line pfs_kernel_release
  else if bool_decide (rest = bytes "kernel/version") then line pfs_kernel_version
  else if bool_decide (rest = bytes "kernel/hostname") then line (cut 256 hostname)
  else if bool_decide (rest = bytes "kernel/pid_max") then line (bytes "4194304")
  else if bool_decide (rest = bytes "kernel/threads-max") then line (bytes "65536")
  else if bool_decide (rest = bytes "kernel/random/uuid") then Some (emit_uuid (uuid_bits entropy))
  else if bool_decide (rest = bytes "kernel/random/boot_id") then
    Some (emit_uuid (uuid_bits (boot_bytes 16 0 0xcbf29ce484222325)))
  else if bool_decide (rest = bytes "vm/overcommit_memory") then line (bytes "0")
  else if bool_decide (rest = bytes "fs/file-max") then line (bytes "1048576")
  else None.
End sysctl.

(** ** The views agree *)

Lemma split_child n p name :
  (length (sys_split n p) < n)%nat -> entry_name name ->
  sys_split n (p ++ 47 :: name) = sys_split n p ++ [name].
Proof.
  intros Hlen [Hn Hs Hl]. revert p Hlen. induction n as [|n IH]; intros p Hlen; [cbn in Hlen; lia|].
  cbn [sys_split] in *. destruct (no_lead p) as [|c s] eqn:E.
  - rw no_lead_app //. change (no_lead (47 :: name)) with (no_lead name). rw no_lead_clean //.
    destruct name as [|d name'] eqn:En; [done|]. rw -En in Hs Hl *.
    rw comp_clean //; [lia|]. rw name_len_clean // drop_all. by destruct n.
  - rw (no_lead_cons_app _ _ _ _ E) E. cbn [app length] in *.
    change (c :: s ++ 47 :: name) with ((c :: s) ++ 47 :: name).
    rw comp_app name_len_app drop_app_le; [apply name_len_le|]. rw IH; [lia|done].
Qed.

Section views.
Context (ifs : list ifstat) (ncpu : Z).

Inductive dir_shape : list cstr -> Prop :=
  | ShSys : dir_shape [bytes "sys"]
  | ShClass : dir_shape [bytes "sys"; bytes "class"]
  | ShNet : dir_shape [bytes "sys"; bytes "class"; bytes "net"]
  | ShIf i : ifname_known ifs i = true -> dir_shape [bytes "sys"; bytes "class"; bytes "net"; i]
  | ShStat i : ifname_known ifs i = true ->
      dir_shape [bytes "sys"; bytes "class"; bytes "net"; i; bytes "statistics"]
  | ShDev : dir_shape [bytes "sys"; bytes "devices"]
  | ShSystem : dir_shape [bytes "sys"; bytes "devices"; bytes "system"]
  | ShCpu : dir_shape [bytes "sys"; bytes "devices"; bytes "system"; bytes "cpu"].

Lemma dir_shapes c : kind_of ifs c = SysDir -> dir_shape c.
Proof.
  rw /kind_of /is_file. destruct c as [|c0 c]; [done|]. cbn [length nth_comp nth].
  case_bool_decide as Hx; [lia|clear Hx]. cbn [orb]. case_bool_decide as H0; cbn [negb]; [subst c0|done].
  destruct c as [|c1 c]; [by constructor|]. cbn [nth_comp nth length].
  case_bool_decide as Hx; [lia|clear Hx]. case_bool_decide as H1; [subst c1|].
  - destruct c as [|c2 c]; [by constructor|]. cbn [nth_comp nth length]. case_bool_decide as Hx; [lia|clear Hx].
    case_bool_decide as H2; cbn [negb]; [subst c2|done].
    destruct c as [|c3 c]; [by constructor|]. cbn [nth_comp nth length]. case_bool_decide as Hx; [lia|clear Hx].
    destruct (ifname_known ifs c3) eqn:H3; cbn [negb]; [|done].
    destruct c as [|c4 c]; [by constructor|]. cbn [nth_comp nth length]. case_bool_decide as Hx; [lia|clear Hx].
    case_bool_decide as H4; [subst c4|by destruct (_ && _)].
    destruct c as [|c5 c]; [by constructor|]. cbn [nth_comp nth length]. case_bool_decide as Hx; [lia|clear Hx].
    by destruct (_ && _).
  - case_bool_decide as H1'; [subst c1|done].
    destruct c as [|c2 c]; [by constructor|]. cbn [nth_comp nth length]. case_bool_decide as Hx; [lia|clear Hx].
    case_bool_decide as H2; cbn [negb]; [subst c2|done].
    destruct c as [|c3 c]; [by constructor|]. cbn [nth_comp nth length]. case_bool_decide as Hx; [lia|clear Hx].
    case_bool_decide as H3; cbn [negb]; [subst c3|done].
    destruct c as [|c4 c]; [by constructor|]. cbn [nth_comp nth length]. case_bool_decide as Hx; [lia|clear Hx].
    by destruct (_ && _).
Qed.

(** Names an entry of a listing can hold. *)
Definition fits (names : list cstr) : Prop := Forall entry_name names.

Lemma typed_spec names ty name type :
  fits names -> (name, type) ∈ map (fun nm => add nm ty) names <-> type = ty /\ name ∈ names.
Proof.
  rw /fits Forall_forall. intros Hf. split.
  - intros (nm & E & Hin)%elem_of_map. rw /add cut_fits in E; [apply Hf, Hin|]. by simplify_eq.
  - intros [-> Hin]. apply list_elem_of_fmap. exists name. split; [|done].
    rw /add cut_fits; [apply Hf, Hin|done].
Qed.

Lemma under_dots (l : list (cstr * Z)) name type :
  name <> [46] -> name <> [46; 46] -> (name, type) ∈ dots ++ l <-> (name, type) ∈ l.
Proof.
  intros H1 H2. rw elem_of_app. split; [|by right]. intros [Hd|]; [|done].
  rw /dots /add in Hd. rewrite ->!elem_of_cons, elem_of_nil in Hd. destruct Hd as [[= ? ?]|[[= ? ?]|[]]]; done.
Qed.

Lemma kind_dirs names name type :
  fits names -> (name, type) ∈ dirs names <-> bool_decide (name ∈ names) = true /\ type = DT_DIR.
Proof. intros Hf. rw /dirs typed_spec // bool_decide_eq_true. tauto. Qed.

Lemma kind_files names name type :
  fits names -> (name, type) ∈ files names <-> name_in names name = true /\ type = DT_REG.
Proof. intros Hf. rw /files typed_spec // /name_in bool_decide_eq_true. tauto. Qed.

Lemma known_spec name : ifname_known ifs name = true <-> name ∈ map if_name ifs.
Proof.
  rw /ifname_known existsb_exists. split.
  - intros (f & Hf & E%bool_decide_eq_true_1). apply list_elem_of_fmap. exists f.
    split; [done|by apply list_elem_of_In].
  - intros (f & -> & Hf)%elem_of_map. exists f. split; [by apply list_elem_of_In|by apply bool_decide_true].
Qed.

Lemma fits_fixed names :
  forallb (fun nm => bool_decide (nm <> []) && negb (has_slash nm) && bool_decide (length nm < 32)%nat) names
    = true -> fits names.
Proof.
  intros Hn. apply Forall_forall. intros nm Hin%list_elem_of_In.
  rewrite forallb_forall in Hn. specialize (Hn nm Hin).
  rewrite ->!andb_true_iff, negb_true_iff in Hn. destruct Hn as [[H1 H2] H3].
  apply bool_decide_eq_true_1 in H1, H3. by split.
Qed.

(** Decides a chain of comparisons of one name. *)
Ltac by_name :=
  rw /name_in /is_file; repeat case_bool_decide; try done; exfalso; set_solver.

(** What a directory holds: its subdirectories and its files, and that a
    path of it is one of them or nothing. *)
Lemma shape_spec c :
  fits (map if_name ifs) -> dir_shape c ->
  exists ds fs, list_of ifs c = dots ++ dirs ds ++ files fs /\ fits ds /\ fits fs /\
    (forall name, name ∈ ds -> name ∉ fs) /\
    forall name, kind_of ifs (c ++ [name]) =
      if bool_decide (name ∈ ds) then SysDir else is_file (name_in fs name).
Proof.
  intros Hf Hc. destruct Hc as [| | |i Hi|i Hi| | |].
  - exists [bytes "class"; bytes "devices"], [].
    split_and!; [by rw app_nil_r|by apply fits_fixed|by apply fits_fixed|set_solver|].
    intros name.
    change (kind_of _ _) with (if bool_decide (name = bytes "class") then SysDir
      else if bool_decide (name = bytes "devices") then SysDir else SysAbsent). by_name.
  - exists [bytes "net"], [].
    split_and!; [by rw app_nil_r|by apply fits_fixed|by apply fits_fixed|set_solver|].
    intros name.
    change (kind_of _ _) with (if negb (bool_decide (name = bytes "net")) then SysAbsent else SysDir). by_name.
  - exists (map if_name ifs), [].
    split_and!; [by rw app_nil_r|done|by apply fits_fixed|set_solver|].
    intros name.
    change (kind_of _ _) with (if negb (ifname_known ifs name) then SysAbsent else SysDir).
    pose proof (known_spec name) as Hk. destruct (ifname_known ifs name); cbn [negb]; by_name.
  - exists [bytes "statistics"], sys_net_files.
    split_and!; [done|by apply fits_fixed|by apply fits_fixed| |].
    { intros name ->%list_elem_of_singleton. by apply (bool_decide_unpack _). }
    intros name.
    change (kind_of _ _) with (if negb (ifname_known ifs i) then SysAbsent
      else if bool_decide (name = bytes "statistics") then SysDir else is_file (name_in sys_net_files name)).
    rw Hi. cbn [negb]. repeat case_bool_decide; set_solver.
  - exists [], sys_net_stats. split_and!; [done|by apply fits_fixed|by apply fits_fixed|set_solver|].
    intros name.
    change (kind_of _ _) with (if negb (ifname_known ifs i) then SysAbsent
      else is_file (name_in sys_net_stats name)).
    by rw Hi.
  - exists [bytes "system"], [].
    split_and!; [by rw app_nil_r|by apply fits_fixed|by apply fits_fixed|set_solver|].
    intros name.
    change (kind_of _ _) with (if negb (bool_decide (name = bytes "system")) then SysAbsent else SysDir). by_name.
  - exists [bytes "cpu"], [].
    split_and!; [by rw app_nil_r|by apply fits_fixed|by apply fits_fixed|set_solver|].
    intros name.
    change (kind_of _ _) with (if negb (bool_decide (name = bytes "cpu")) then SysAbsent else SysDir). by_name.
  - exists [], sys_cpu_files. split_and!; [done|by apply fits_fixed|by apply fits_fixed|set_solver|].
    intros name. by change (kind_of _ _) with (is_file (name_in sys_cpu_files name)).
Qed.

Inductive file_shape : list cstr -> Prop :=
  | ShFile i leaf : ifname_known ifs i = true -> leaf ∈ sys_net_files ->
      file_shape [bytes "sys"; bytes "class"; bytes "net"; i; leaf]
  | ShCount i leaf : ifname_known ifs i = true -> leaf ∈ sys_net_stats ->
      file_shape [bytes "sys"; bytes "class"; bytes "net"; i; bytes "statistics"; leaf]
  | ShTopo leaf : file_shape [bytes "sys"; bytes "devices"; bytes "system"; bytes "cpu"; leaf].

Lemma file_shapes c : kind_of ifs c = SysFile -> file_shape c.
Proof.
  rw /kind_of /is_file. destruct c as [|c0 c]; [done|]. cbn [length nth_comp nth].
  case_bool_decide as Hx; [lia|clear Hx]. cbn [orb]. case_bool_decide as H0; cbn [negb]; [subst c0|done].
  destruct c as [|c1 c]; [done|]. cbn [nth_comp nth length].
  case_bool_decide as Hx; [lia|clear Hx]. case_bool_decide as H1; [subst c1|].
  - destruct c as [|c2 c]; [done|]. cbn [nth_comp nth length]. case_bool_decide as Hx; [lia|clear Hx].
    case_bool_decide as H2; cbn [negb]; [subst c2|done].
    destruct c as [|c3 c]; [done|]. cbn [nth_comp nth length]. case_bool_decide as Hx; [lia|clear Hx].
    destruct (ifname_known ifs c3) eqn:H3; cbn [negb]; [|done].
    destruct c as [|c4 c]; [done|]. cbn [nth_comp nth length]. case_bool_decide as Hx; [lia|clear Hx].
    case_bool_decide as H4; [subst c4|].
    + destruct c as [|c5 c]; [done|]. cbn [nth_comp nth length]. case_bool_decide as Hx; [lia|clear Hx].
      case_bool_decide as Hl; cbn [andb]; [|done]. destruct c; [|cbn in Hl; lia].
      rw /name_in. case_bool_decide; [|done]. intros _. by constructor.
    + case_bool_decide as Hl; cbn [andb]; [|done]. destruct c; [|cbn in Hl; lia].
      rw /name_in. case_bool_decide; [|done]. intros _. by constructor.
  - case_bool_decide as H1'; [subst c1|done].
    destruct c as [|c2 c]; [done|]. cbn [nth_comp nth length]. case_bool_decide as Hx; [lia|clear Hx].
    case_bool_decide as H2; cbn [negb]; [subst c2|done].
    destruct c as [|c3 c]; [done|]. cbn [nth_comp nth length]. case_bool_decide as Hx; [lia|clear Hx].
    case_bool_decide as H3; cbn [negb]; [subst c3|done].
    destruct c as [|c4 c]; [done|]. cbn [nth_comp nth length]. case_bool_decide as Hx; [lia|clear Hx].
    case_bool_decide as Hl; cbn [andb]; [|done]. destruct c; [|cbn in Hl; lia]. intros _. constructor.
Qed.

Lemma leaf_reads f leaf : leaf ∈ sys_net_files ++ sys_net_stats -> is_Some (net_leaf f leaf).
Proof.
  assert (Hall : Forall (fun leaf => is_Some (net_leaf f leaf)) (sys_net_files ++ sys_net_stats))
    by (repeat constructor; by eexists).
  rewrite ->Forall_forall in Hall. apply Hall.
Qed.

Lemma known_found i : ifname_known ifs i = true -> is_Some (find_if ifs i).
Proof.
  rw known_spec /find_if. intros (f & -> & Hf)%elem_of_map. apply last_is_Some. intros Hnil.
  assert (Hin : f ∈ filter (fun g => if_name g = if_name f) ifs) by by apply list_elem_of_filter.
  rw Hnil in Hin. by apply elem_of_nil in Hin.
Qed.

(** the emulated /sys is one tree however it is asked: a path reads as a
    file exactly if it is one; a directory, and nothing else, lists; and a
    name is in the listing with a type exactly if the path with that name
    appended is of that type, so nothing is announced that is not there and
    nothing there is left out. *)
Theorem sysfs_views_agree path :
  fits (map if_name ifs) ->
  (is_Some (pfs_xnu_gen_sysfs ifs ncpu path) <-> pfs_xnu_sysfs_kind ifs path = SysFile) /\
  (pfs_xnu_sysfs_kind ifs path <> SysDir -> pfs_xnu_sysfs_list ifs false path = NotOurs) /\
  (pfs_xnu_sysfs_kind ifs path = SysDir ->
   exists l, pfs_xnu_sysfs_list ifs false path = Entries l /\
     forall name type, entry_name name -> name <> [46] -> name <> [46; 46] ->
       (name, type) ∈ l <->
       (type = DT_DIR /\ pfs_xnu_sysfs_kind ifs (path ++ 47 :: name) = SysDir) \/
       (type = DT_REG /\ pfs_xnu_sysfs_kind ifs (path ++ 47 :: name) = SysFile)).
Proof.
  intros Hf. split_and!.
  - rw /pfs_xnu_gen_sysfs. split; [by case_bool_decide; [|intros []]|].
    intros Hk. rw bool_decide_true //. cbn [negb]. move: Hk. rw /pfs_xnu_sysfs_kind.
    intros Hk%file_shapes. destruct Hk as [i leaf Hi Hl|i leaf Hi Hl|leaf].
    + change (nth_comp _ 3) with i. destruct (known_found i Hi) as [f ->].
      apply leaf_reads. apply elem_of_app. by left.
    + change (nth_comp _ 3) with i. destruct (known_found i Hi) as [f ->].
      apply leaf_reads. apply elem_of_app. by right.
    + by eexists.
  - intros Hk. rw /pfs_xnu_sysfs_list. by rw bool_decide_false.
  - intros Hk. rw /pfs_xnu_sysfs_list bool_decide_true //. eexists. split; [done|].
    intros name type Hn H1 H2. pose proof (dir_shapes _ Hk) as Hc.
    destruct (shape_spec _ Hf Hc) as (ds & fs & -> & Hds & Hfs & Hdisj & Hkind).
    rw /pfs_xnu_sysfs_kind split_child; [by destruct Hc; cbn; lia|done|].
    rw Hkind under_dots // elem_of_app kind_dirs // kind_files //. rw /is_file.
    destruct (bool_decide (name ∈ ds)) eqn:Ed.
    + apply bool_decide_eq_true in Ed. split.
      * intros [[_ ->]|[Hin ->]]; [by left|]. exfalso. apply (Hdisj name Ed).
        by apply bool_decide_eq_true_1 in Hin.
      * intros [[-> _]|[_ [=]]]. by left.
    + destruct (name_in fs name); split; intuition discriminate.
Qed.

End views.

(** ** One interface *)

Definition en0 : ifstat := IfStat (bytes "en0") 10 20 1 2 0 0 0 0 1500 true [2; 0; 94; 16; 0; 255] 1000.

Lemma sysfs_views_agree_witness :
  pfs_xnu_gen_sysfs [en0] 8 (bytes "/sys/class/net/en0/address") = Some (bytes "02:00:5e:10:00:ff" ++ [10]) /\
  exists l, pfs_xnu_sysfs_list [en0] false (bytes "/sys/class/net/en0") = Entries l /\
    (bytes "statistics", DT_DIR) ∈ l.
Proof.
  destruct (sysfs_views_agree [en0] 8 (bytes "/sys/class/net/en0")) as (_ & _ & Hl).
  { by apply fits_fixed. }
  split; [reflexivity|]. destruct (Hl eq_refl) as (l & E & Hspec). exists l. split; [done|].
  apply Hspec; [split; [done|done|cbn; lia]|done|done|]. left. by split.
Defined.

(** Only six components of a path are looked at, so a path below one of the
    counters is answered as the counter. *)
Lemma deep_path_is_file :
  pfs_xnu_sysfs_kind [en0] (bytes "/sys/class/net/en0/statistics/rx_bytes/no/such") = SysFile.
Proof. reflexivity. Qed.
