(* ===== verification/ProcFs.v ===== *)
(** * shim/procfs/core: paths, links and listings

    The path model of tree.c, the answers of links.c for readlink and lstat,
    the listings of virtdir.c and the table of open.c that remembers which
    descriptor stands for which directory of the tree. What the process
    tables say is an interface the generators implement.

    The theorem: the three views of an entry agree. What a listing calls a
    link is what lstat calls one, and readlink answers for nothing else. *)
From Stdlib Require Import ssreflect.
From S2P Require Import Prelude PfsText SysFs.

(** ** tree.c: the path model *)

Inductive kind := K_OTHER | K_ROOT | K_TOP | K_PID_DIR | K_PID_SUB | K_NET_DIR | K_NET_FILE | K_SYS.

#[export] Instance kind_eq_dec : EqDecision kind.
Proof. solve_decision. Defined.

Record node := Node { n_kind : kind; n_was_self : bool; n_pid : Z; n_name : cstr; n_rest : cstr }.

(** The pids of the process: cosmo's, and the one it has in the tree. *)
Class Pids := { getpid : Z; pfs_self_pid : Z }.

Section tree.
Context `{Pids}.

(** What follows the first component once it has named a process. *)
Definition parse_pid (was_self : bool) (pid : Z) (rest : cstr) : node :=
  match rest with
  | [] => Node K_PID_DIR was_self pid [] []
  | _ => Node K_PID_SUB was_self pid (comp 64 rest) (cut 200 (no_lead (drop (name_len rest) rest)))
  end.

(** What a first component and the rest of the path name. *)
Definition parse_named (first rest : cstr) : node :=
  if bool_decide (first = bytes "self") then parse_pid true pfs_self_pid rest
  else if is_digit first.[0] then
    let pid := u32 (strtoul first) in
    if pid =? u32 getpid then parse_pid true pfs_self_pid rest else parse_pid false pid rest
  else if bool_decide (first = bytes "net") then
    match rest with
    | [] => Node K_NET_DIR false 0 [] []
    | _ => Node K_NET_FILE false 0 (comp 64 rest) []
    end
  else if bool_decide (first = bytes "sys") then Node K_SYS false 0 [] (cut 200 rest)
  else Node (match rest with [] => K_TOP | _ => K_OTHER end) false 0 (cut 64 first) [].

Definition pc_parse (sub : cstr) : node :=
  let s := no_lead sub in
  match s with
  | [] => Node K_ROOT false 0 [] []
  | _ => parse_named (comp 64 s) (no_lead (drop (name_len s) s))
  end.

(** What is left of a path behind its first component. *)
Definition after_first (sub : cstr) : cstr := let s := no_lead sub in drop (name_len s) s.

Definition pc_phys_suffix (n : node) (sub : cstr) (cap : nat) : cstr :=
  cut cap (if negb (n_pid n =? 0) || n_was_self n then 47 :: decimal (n_pid n) ++ after_first sub
           else match sub with [] => [47] | _ => sub end).

(** FNV-1a, in 64 bits. *)
Definition pc_fnv64 (data : list Z) (h : Z) : Z :=
  foldl (fun h b => (Z.lxor h b * 0x100000001b3) mod 2 ^ 64) h data.

(** ** links.c *)

Definition spelled_self (sub : cstr) : bool :=
  let s := no_lead sub in
  bool_decide (take 4 s = bytes "self") && ((s.[4] =? 0) || (s.[4] =? 47)).

Definition link_names : list cstr := [bytes "exe"; bytes "cwd"; bytes "root"].

Definition is_link_name (name : cstr) : option cstr :=
  if bool_decide (name ∈ link_names) then Some name else None.

Definition pc_link_name (n : node) : option cstr :=
  if negb (bool_decide (n_kind n = K_PID_SUB)) then None
  else if bool_decide (n_name n = bytes "task") then
    match behind_slash (n_rest n) with
    | Some name => if has_slash name then None else is_link_name name
    | None => None
    end
  else if negb (bool_decide (n_rest n = [])) then None
  else is_link_name (n_name n).

(** An entry of an fd directory. *)
Definition is_fd_entry (n : node) : bool :=
  bool_decide (n_name n = bytes "fd") && negb (bool_decide (n_rest n = [])) && negb (has_slash (n_rest n)).

(** The permission bits of a link of the tree, 0 for anything else. *)
Definition link_mode_of (n : node) (sub : cstr) : Z :=
  if bool_decide (n_kind n = K_PID_DIR) && spelled_self sub then
    match no_lead (after_first sub) with [] => 511 | _ => 0 end
  else if negb (bool_decide (n_kind n = K_PID_SUB)) then 0
  else if bool_decide (is_Some (pc_link_name n)) then 511
  else if is_fd_entry n then 448 else 0.

(** "/proc" and what follows it, when [path] is there. *)
Definition below_proc (path : cstr) : option cstr :=
  if bool_decide (take 5 path = bytes "/proc") && ((path.[5] =? 0) || (path.[5] =? 47))
  then Some (drop 5 path) else None.

Definition procfs_link_mode (hosted : bool) (vpath : cstr) : Z :=
  if negb hosted then 0
  else match below_proc vpath with
       | Some sub => link_mode_of (pc_parse sub) sub
       | None => 0
       end.
End tree.

(** ** What the generators say of the processes *)

Class ProcTables := {
  pfs_procs : list Z;                           (* the pids, in the order listed *)
  pfs_proc_find : Z -> bool;
  pfs_threads_of : Z -> list Z;
  pfs_self_fds : list (Z * cstr);
  pfs_other_fds : Z -> option (list (Z * cstr)); (* None where no host enumerates them *)
  pfs_net_fds_of : Z -> list Z;                 (* socket inodes, by dense number *)
  pfs_pid_link : Z -> cstr -> nat -> option (list Z);
  pfs_xnu_ifstats : list ifstat }.

(** Names fixed by the generators' tables. *)
Definition pfs_pid_volatile : list cstr := map bytes ["stat"; "status"; "statm"; "io"]%string.
Definition pfs_pid_stable : list cstr :=
  map bytes ["cmdline"; "comm"; "environ"; "limits"; "maps"; "cgroup"; "mountinfo"; "mounts";
             "oom_score_adj"; "oom_score"]%string.
Definition pfs_net_files : list cstr := map bytes ["tcp"; "tcp6"; "udp"; "udp6"; "dev"; "unix"]%string.
Definition pfs_top_files : list cstr :=
  map bytes ["meminfo"; "uptime"; "stat"; "loadavg"; "cpuinfo"; "version"; "filesystems"; "mounts";
             "diskstats"; "swaps"; "cmdline"]%string.

Section links.
Context `{Pids} `{ProcTables} `{SysInfo}.

Definition fds_of (pid : Z) : option (list (Z * cstr)) :=
  if pid =? pfs_self_pid then Some pfs_self_fds else pfs_other_fds pid.

(** [snprintf(buf, bufsiz, ...)] and the length it answers: the bytes of the
    buffer the caller is told to read. *)
Definition printed (bufsiz : nat) (text : cstr) : option (list Z) :=
  if bool_decide (0 < length text <= bufsiz)%nat then
    Some (if bool_decide (length text < bufsiz)%nat then text else take (bufsiz - 1) text ++ [0])
  else None.

Definition link_of_node (n : node) (sub : cstr) (bufsiz : nat) : option (list Z) :=
  if bool_decide (n_kind n = K_PID_DIR) && spelled_self sub && bool_decide (after_first sub = [])
  then printed bufsiz (decimal (n_pid n))
  else if negb (bool_decide (n_kind n = K_PID_SUB)) then None
  else
    match pc_link_name n with
    | Some link => pfs_pid_link (n_pid n) link bufsiz
    | None =>
        if is_fd_entry n then
          let k := atoi (n_rest n) in
          match fds_of (n_pid n) with
          | Some ents =>
              match List.find (fun e => fst e =? k) ents with
              | Some e => printed bufsiz (snd e)
              | None => None
              end
          | None =>
              match (if k <? 0 then None else pfs_net_fds_of (n_pid n) !! Z.to_nat k) with
              | Some inode => printed bufsiz (bytes "socket:[" ++ decimal inode ++ [93])
              | None => None
              end
          end
        else None
    end.

(** ** open.c: the table of directory descriptors

    A descriptor's slot in cosmo's own table: its kind, handle, flags and mode. Our
    table is empty until the first descriptor is remembered. *)
Record fdslot := FdSlot { fd_is_file : bool; fd_reserved : bool; fd_handle : Z; fd_flags : Z; fd_mode : Z }.
Record trackfd := TrackFd { t_fd : Z; t_handle : Z; t_vpath : cstr }.

Definition NTRACK : nat := 256.

Definition track_find (g_track : list trackfd) (fd : Z) : option nat :=
  find_index (fun t => t_fd t =? fd) g_track.

(** A descriptor whose slot is another's by now is none of the tree's. *)
Definition track_get (g_track : list trackfd) (g_fds : list fdslot) (fd : Z) : option trackfd :=
  match track_find g_track fd with
  | None => None
  | Some i =>
      match g_track !! i, (if fd <? 0 then None else g_fds !! Z.to_nat fd) with
      | Some t, Some s =>
          if (if fd_is_file s then negb (fd_handle s =? t_handle t)
              else negb (fd_reserved s) || negb (t_handle t =? 0))
          then None else Some t
      | _, _ => None
      end
  end.

Definition track_put (g_track : list trackfd) (g_fds : list fdslot) (fd : Z) (vpath : cstr)
    : list trackfd :=
  let g_track := match g_track with [] => replicate NTRACK (TrackFd (-1) 0 []) | _ => g_track end in
  match (if fd <? 0 then None else g_fds !! Z.to_nat fd) with
  | None => g_track
  | Some s =>
      match (match track_find g_track fd with Some i => Some i | None => track_find g_track (-1) end) with
      | None => g_track
      | Some i => <[i := TrackFd fd (fd_handle s) (cut 200 vpath)]> g_track
      end
  end.

Definition fd_closed (hosted : bool) (g_track : list trackfd) (fd : Z) : list trackfd :=
  if negb hosted || (fd <? 0) then g_track
  else match track_find g_track fd with
       | Some i => alter (fun t => TrackFd (-1) (t_handle t) (t_vpath t)) i g_track
       | None => g_track
       end.

Definition is_dir_node (n : node) : bool :=
  match n_kind n with
  | K_ROOT | K_PID_DIR | K_NET_DIR => true
  | K_PID_SUB =>
      if bool_decide (n_name n = bytes "fd") || bool_decide (n_name n = bytes "net") then bool_decide (n_rest n = [])
      else if bool_decide (n_name n = bytes "task") then
        bool_decide (n_rest n = []) || negb (has_slash (n_rest n))
      else false
  | K_SYS => negb (bool_decide (is_Some (pfs_gen_sys_file (n_rest n))))
  | _ => false
  end.

Definition procfs_track (hosted busy : bool) (g_track : list trackfd)
    (g_fds : list fdslot) (fd : Z) (vpath : cstr) : list trackfd :=
  if negb hosted || (fd <? 0) || busy then g_track
  else
    match below_proc vpath with
    | Some sub =>
        if is_dir_node (pc_parse sub) && bool_decide (Z.to_nat fd < length g_fds)%nat
        then track_put g_track g_fds fd vpath else g_track
    | None => g_track
    end.

(** "." or ".." among the components of a relative name. *)
Fixpoint has_dots (fuel : nat) (rel : cstr) : bool :=
  match fuel with
  | O => false
  | S fuel' =>
      match rel with
      | [] => false
      | _ =>
          let c := take (name_len rel) rel in
          bool_decide (c = [46]) || bool_decide (c = [46; 46]) ||
          has_dots fuel' (drop (S (name_len rel)) rel)
      end
  end.

Definition procfs_join (hosted busy : bool) (g_track : list trackfd) (g_fds : list fdslot)
    (dirfd : Z) (rel : cstr) (outsz : nat) : option cstr :=
  if negb hosted || (dirfd <? 0) || (rel.[0] =? 0) || (rel.[0] =? 47) || busy then None
  else
    match track_get g_track g_fds dirfd with
    | None => None
    | Some t =>
        if has_dots (length rel) rel then None
        else let out := t_vpath t ++ 47 :: rel in
             if bool_decide (length out < outsz)%nat then Some out else None
    end.

(** The d_type a listing entry gets on its way through readdir. *)
Definition fix_dirent (hosted busy : bool) (g_track : list trackfd) (g_fds : list fdslot)
    (path_max : nat) (fd : Z) (name : cstr) (d_type : Z) : Z :=
  if negb hosted || (fd <? 0) || busy || (d_type =? DT_LNK) then d_type
  else
    match track_get g_track g_fds fd with
    | None => d_type
    | Some t =>
        let vpath := t_vpath t ++ 47 :: name in
        if bool_decide (length vpath < path_max)%nat && negb (procfs_link_mode hosted vpath =? 0)
        then DT_LNK else d_type
    end.

(** ** readlinkat, as far as the tree answers *)

(** [strstr(hay, needle)]: what is behind the first occurrence. *)
Fixpoint behind (needle hay : cstr) : option cstr :=
  if bool_decide (take (length needle) hay = needle) then Some (drop (length needle) hay)
  else match hay with [] => None | _ :: hay' => behind needle hay' end.

Definition marker : cstr := cut 64 (bytes "/rust-ape-proc-" ++ decimal getpid ++ [47]).

(** [phys_of] is the descriptor's own path on disk, [contents] reads a file. *)
Definition procfs_readlinkat (windows hosted busy : bool) (g_track : list trackfd) (g_fds : list fdslot)
    (phys_of : Z -> option cstr) (contents : cstr -> nat -> option (list Z))
    (dirfd : Z) (path : cstr) (bufsiz : nat) : option (list Z) :=
  if negb hosted || bool_decide (bufsiz = 0%nat) then None
  else
    match path with
    | 47 :: _ =>
        match below_proc path with
        | Some sub => link_of_node (pc_parse sub) sub bufsiz
        | None => None
        end
    | _ :: _ =>
        match procfs_join hosted busy g_track g_fds dirfd path 600 with
        | Some joined => link_of_node (pc_parse (drop 5 joined)) (drop 5 joined) bufsiz
        | None =>
            if negb windows then None
            else
              match phys_of dirfd ≫= behind marker with
              | Some hit =>
                  let virt := cut 600 (bytes "/proc/" ++ hit ++ 47 :: path) in
                  link_of_node (pc_parse (drop 5 virt)) (drop 5 virt) bufsiz
              | None => None
              end
        end
    | [] =>
        if negb windows then None
        else
          match phys_of dirfd with
          | Some phys =>
              if bool_decide (is_Some (behind marker phys)) then
                match contents phys bufsiz with Some [] => None | r => r end
              else None
          | None => None
          end
    end.

(** ** virtdir.c: the listings *)

Definition pid_entries (thread : bool) : list (cstr * Z) :=
  dots ++ files pfs_pid_volatile ++ files pfs_pid_stable ++ map (fun nm => add nm DT_LNK) link_names ++
  (if thread then [] else map (fun nm => add nm DT_DIR) [bytes "task"; bytes "net"; bytes "fd"]).

Definition root_entries : list (cstr * Z) :=
  dots ++ map (fun pid => add (decimal pid) DT_DIR) pfs_procs ++ [add (bytes "self") DT_LNK] ++
  files pfs_top_files ++ map (fun nm => add nm DT_DIR) [bytes "net"; bytes "sys"].

Definition net_entries : list (cstr * Z) := dots ++ files pfs_net_files.

Definition fd_entries (pid : Z) : list (cstr * Z) :=
  dots ++
  match fds_of pid with
  | Some ents => map (fun e => add (signed (fst e)) DT_LNK) ents
  | None => map (fun i => add (decimal (Z.of_nat i)) DT_LNK) (seq 0 (length (pfs_net_fds_of pid)))
  end.

Definition of_process (pid : Z) (l : list (cstr * Z)) : listed :=
  if pfs_proc_find pid then Entries l else Absent.

Definition list_node (n : node) : listed :=
  match n_kind n with
  | K_ROOT => Entries root_entries
  | K_NET_DIR => Entries net_entries
  | K_PID_DIR => of_process (n_pid n) (pid_entries false)
  | K_PID_SUB =>
      if bool_decide (n_name n = bytes "task") then
        match n_rest n with
        | [] =>
            of_process (n_pid n)
              (dots ++ map (fun t => add (decimal t) DT_DIR)
                         (match pfs_threads_of (n_pid n) with [] => [n_pid n] | tids => tids end))
        | rest =>
            if pfs_proc_find (n_pid n) && has_slash rest then NotOurs
            else of_process (n_pid n) (pid_entries true)
        end
      else if bool_decide (n_name n = bytes "net") && bool_decide (n_rest n = []) then
        of_process (n_pid n) net_entries
      else if bool_decide (n_name n = bytes "fd") && bool_decide (n_rest n = []) then
        of_process (n_pid n) (fd_entries (n_pid n))
      else NotOurs
  | _ => NotOurs
  end.

(** [oom] is whether growing the array failed. *)
Definition procfs_virtual_dir (hosted windows busy oom : bool) (path : cstr) : listed :=
  if negb hosted || busy then NotOurs
  else if negb windows && bool_decide (take 4 path = bytes "/sys") && ((path.[4] =? 0) || (path.[4] =? 47))
  then pfs_xnu_sysfs_list pfs_xnu_ifstats oom path
  else
    match below_proc path with
    | None => NotOurs
    | Some sub =>
        match list_node (pc_parse sub) with
        | Entries l => if oom then NotOurs else Entries l
        | r => r
        end
    end.
End links.

(** ** How a path and the path of one of its entries are parsed *)

Section entry.
Context `{Pids}.

Lemma parse_no_lead sub : pc_parse (no_lead sub) = pc_parse sub.
Proof. rw /pc_parse. by rw no_lead_idem. Qed.

Lemma spelled_no_lead sub : spelled_self (no_lead sub) = spelled_self sub.
Proof. rw /spelled_self. by rw no_lead_idem. Qed.

Lemma link_mode_no_lead n sub : link_mode_of n (no_lead sub) = link_mode_of n sub.
Proof. rw /link_mode_of spelled_no_lead /after_first. by rw no_lead_idem. Qed.

(** The entry of a directory of a process. *)
Lemma parse_entry_pid was_self pid rest name :
  entry_name name -> (length rest < 64)%nat ->
  parse_pid was_self pid (one_down rest name) =
  match rest with
  | [] => Node K_PID_SUB was_self pid name []
  | _ =>
      let n := parse_pid was_self pid rest in
      Node K_PID_SUB was_self pid (n_name n) (one_down (n_rest n) name)
  end.
Proof.
  intros [Hn Hs Hl] Hr. destruct rest as [|c r].
  - rw /one_down no_lead_clean //.
    assert (Hp : parse_pid was_self pid name =
        Node K_PID_SUB was_self pid (comp 64 name) (cut 200 (no_lead (drop (name_len name) name))))
      by by destruct name.
    rw Hp comp_clean //; [lia|]. by rw name_len_clean // drop_all.
  - change (one_down (c :: r) name) with ((c :: r) ++ 47 :: name). rw /parse_pid. cbn [app].
    change (c :: r ++ 47 :: name) with ((c :: r) ++ 47 :: name). rw comp_app name_len_app behind_app. cbn [n_name n_rest].
    pose proof (no_lead_length (drop (name_len (c :: r)) (c :: r))) as Hlen.
    rw length_drop in Hlen.
    rw (cut_fits 200 (no_lead _)); [lia|].
    destruct (no_lead (drop _ _)) as [|d q] eqn:E.
    + rw /one_down no_lead_clean // cut_fits; [lia|done].
    + rw /one_down cut_fits; [rw length_app; cbn [length] in *; lia|done].
Qed.

(** What a path names has its entries named by that path and their name. *)
Lemma parse_child sub name :
  (no_lead sub = [] /\ pc_parse (sub ++ 47 :: name) = pc_parse name) \/
  exists first rest, (length rest <= length sub)%nat /\
    pc_parse sub = parse_named first rest /\
    pc_parse (sub ++ 47 :: name) = parse_named first (one_down rest name).
Proof.
  rw /pc_parse. destruct (no_lead sub) as [|c r] eqn:E.
  - left. by rw no_lead_app.
  - right. rw (no_lead_cons_app _ _ _ _ E) E.
    exists (comp 64 (c :: r)), (no_lead (drop (name_len (c :: r)) (c :: r))). split_and!.
    + pose proof (no_lead_length sub) as Hs. rw E in Hs.
      pose proof (no_lead_length (drop (name_len (c :: r)) (c :: r))) as Hr. rw length_drop in Hr. lia.
    + done.
    + by rw -behind_app -(comp_app 64 (c :: r) name) -(name_len_app (c :: r) name).
Qed.

(** Whose directory a path below a process is. *)
Lemma parse_named_pid first rest :
  n_kind (parse_named first rest) = K_PID_DIR \/ n_kind (parse_named first rest) = K_PID_SUB ->
  exists was_self pid, forall rest', parse_named first rest' = parse_pid was_self pid rest'.
Proof.
  rw /parse_named. destruct (bool_decide _); [by exists true, pfs_self_pid|].
  destruct (is_digit _); [case_match; eauto|].
  destruct (bool_decide _); [case_match; intros []; discriminate|].
  destruct (bool_decide _); [intros []; discriminate|]. case_match; intros []; discriminate.
Qed.

Lemma parse_pid_kind was_self pid rest :
  n_kind (parse_pid was_self pid rest) = match rest with [] => K_PID_DIR | _ => K_PID_SUB end.
Proof. by destruct rest. Qed.

Lemma parse_process sub name :
  (length sub < 64)%nat -> entry_name name ->
  (n_kind (pc_parse sub) = K_PID_DIR ->
   pc_parse (sub ++ 47 :: name) =
     Node K_PID_SUB (n_was_self (pc_parse sub)) (n_pid (pc_parse sub)) name []) /\
  (n_kind (pc_parse sub) = K_PID_SUB ->
   pc_parse (sub ++ 47 :: name) =
     Node K_PID_SUB (n_was_self (pc_parse sub)) (n_pid (pc_parse sub)) (n_name (pc_parse sub))
       (one_down (n_rest (pc_parse sub)) name)).
Proof.
  intros Hl Hn. destruct (parse_child sub name) as [[H0 _]|(first & rest & Hr & -> & ->)].
  { assert (Hk : n_kind (pc_parse sub) = K_ROOT) by (by rw /pc_parse H0). rw Hk. by split. }
  assert (Hgo : n_kind (parse_named first rest) = K_PID_DIR \/ n_kind (parse_named first rest) = K_PID_SUB ->
    exists ws pid, parse_named first rest = parse_pid ws pid rest /\
      parse_named first (one_down rest name) = parse_pid ws pid (one_down rest name)).
  { intros (ws & pid & Hp)%parse_named_pid. exists ws, pid. by rw !Hp. }
  split; intros Hk; (destruct Hgo as (ws & pid & Hp & ->); [tauto|]);
    rewrite Hp in Hk |- *; (rw parse_entry_pid; [done|lia|]); by destruct rest.
Qed.

Lemma parse_root sub : n_kind (pc_parse sub) = K_ROOT -> no_lead sub = [].
Proof.
  rw /pc_parse. destruct (no_lead sub) as [|c r]; [done|]. rw /parse_named /parse_pid.
  repeat case_match; discriminate.
Qed.

Lemma parse_net sub name :
  n_kind (pc_parse sub) = K_NET_DIR -> entry_name name ->
  pc_parse (sub ++ 47 :: name) = Node K_NET_FILE false 0 name [].
Proof.
  intros Hk [Hn Hs Hl]. destruct (parse_child sub name) as [[H0 _]|(first & rest & _ & E & ->)].
  { move: Hk. by rw /pc_parse H0. }
  rw E in Hk. move: Hk. rw /parse_named /parse_pid.
  destruct (bool_decide _); [case_match; discriminate|].
  destruct (is_digit _); [repeat case_match; discriminate|].
  destruct (bool_decide _).
  - destruct rest; [|discriminate]. rw /one_down no_lead_clean // comp_clean //; [lia|]. by destruct name.
  - destruct (bool_decide _); [discriminate|]. case_match; discriminate.
Qed.
End entry.

(** ** The views of an entry *)

Section views.
Context `{Pids} `{ProcTables}.

(** What the generators answer is within the range of its C type. *)
Record tables_ok : Prop :=
  { ok_procs : forall pid, pid ∈ pfs_procs -> 0 <= pid < 2 ^ 32;
    ok_threads : forall pid tid, tid ∈ pfs_threads_of pid -> 0 <= tid < 2 ^ 64;
    ok_fds : forall pid ents k text, fds_of pid = Some ents -> (k, text) ∈ ents -> 0 <= k < 2 ^ 31;
    ok_fds_once : forall pid ents, fds_of pid = Some ents -> NoDup (map fst ents);
    ok_self : 0 <= pfs_self_pid < 2 ^ 32 }.

(** The links of a process directory are the names link_mode knows. *)
Lemma pid_entries_links thread e :
  e ∈ pid_entries thread -> named e ->
  entry_name (fst e) /\ (snd e = DT_LNK <-> is_Some (is_link_name (fst e))).
Proof.
  assert (Hall : Forall (fun e => bool_decide (e ∈ dots) ||
      (negb (has_slash (fst e)) && bool_decide (length (fst e) < 32)%nat && bool_decide (fst e <> []) &&
       bool_decide (snd e = DT_LNK <-> is_Some (is_link_name (fst e))))) (pid_entries thread)).
  { apply Forall_forall. intros e' He'. move: e' He'. apply Forall_forall.
    destruct thread; vm_compute; repeat constructor. }
  intros He Hn. rewrite ->Forall_forall in Hall. specialize (Hall e He).
  rewrite ->bool_decide_false in Hall; [|done]. cbn [orb] in Hall.
  repeat rewrite ->andb_True in Hall. destruct Hall as (((H1 & H2) & H3) & H4).
  apply bool_decide_unpack in H2, H3, H4. split; [split; [done| |done]|done].
  by destruct (has_slash (fst e)).
Qed.

(** Whether a listing and lstat agree on an entry. *)
Definition agree (sub : cstr) (e : cstr * Z) : Prop :=
  entry_name (fst e) /\
  (snd e = DT_LNK <-> link_mode_of (pc_parse (sub ++ 47 :: fst e)) (sub ++ 47 :: fst e) <> 0).

Lemma agree_below sub e ws pid nm rest :
  entry_name (fst e) -> pc_parse (sub ++ 47 :: fst e) = Node K_PID_SUB ws pid nm rest ->
  (snd e = DT_LNK <->
    is_Some (pc_link_name (Node K_PID_SUB ws pid nm rest)) \/ is_fd_entry (Node K_PID_SUB ws pid nm rest) = true) ->
  agree sub e.
Proof.
  intros Hn Hp He. split; [done|]. rw He Hp /link_mode_of. cbn [n_kind].
  change (bool_decide (K_PID_SUB = K_PID_DIR)) with false.
  change (bool_decide (K_PID_SUB = K_PID_SUB)) with true. cbn [negb andb].
  case_bool_decide as E; [intuition lia|].
  destruct (is_fd_entry _); intuition (try lia; try discriminate; done).
Qed.

Lemma agree_pid_entry sub e thread ws pid nm rest :
  e ∈ pid_entries thread -> named e ->
  pc_parse (sub ++ 47 :: fst e) = Node K_PID_SUB ws pid nm rest ->
  pc_link_name (Node K_PID_SUB ws pid nm rest) = is_link_name (fst e) ->
  is_fd_entry (Node K_PID_SUB ws pid nm rest) = false -> agree sub e.
Proof.
  intros He Hn Hp Hl Hf. destruct (pid_entries_links _ _ He Hn) as [Hen Hlnk].
  eapply agree_below; [done..|]. rw Hl Hf Hlnk. intuition discriminate.
Qed.

Lemma agree_plain sub e ws pid nm rest :
  entry_name (fst e) -> snd e <> DT_LNK ->
  pc_parse (sub ++ 47 :: fst e) = Node K_PID_SUB ws pid nm rest ->
  pc_link_name (Node K_PID_SUB ws pid nm rest) = None ->
  is_fd_entry (Node K_PID_SUB ws pid nm rest) = false -> agree sub e.
Proof.
  intros Hen Ht Hp Hl Hf. eapply agree_below; [done..|]. rw Hl Hf.
  split; [done|]. by intros [[? [=]]|[=]].
Qed.

(** The entries of the tree's root. *)
Lemma agree_root_fixed e :
  e ∈ add (bytes "self") DT_LNK :: files pfs_top_files ++ map (fun nm => add nm DT_DIR) [bytes "net"; bytes "sys"] ->
  entry_name (fst e) /\ (snd e = DT_LNK <-> link_mode_of (pc_parse (fst e)) (fst e) <> 0).
Proof.
  assert (Hall : Forall (fun e => entry_name (fst e) /\
      (snd e = DT_LNK <-> link_mode_of (pc_parse (fst e)) (fst e) <> 0))
      (add (bytes "self") DT_LNK :: files pfs_top_files ++
       map (fun nm => add nm DT_DIR) [bytes "net"; bytes "sys"])).
  { repeat constructor; try (vm_compute; discriminate); try (vm_compute; lia); intros Hx; exfalso; by apply Hx. }
  rewrite ->Forall_forall in Hall. apply Hall.
Qed.

Lemma agree_root_pid pid : 0 <= pid -> link_mode_of (pc_parse (decimal pid)) (decimal pid) = 0.
Proof.
  intros Hp. destruct (decimal_name pid Hp) as [Hn Hs Hl].
  destruct (decimal_digit pid Hp) as (c & r & E & Hc).
  assert (Hself : c <> 115) by by intros ->.
  assert (Hk : n_kind (pc_parse (decimal pid)) = K_PID_DIR).
  { rw /pc_parse no_lead_clean // name_len_clean // drop_all. rw {1}E. rw comp_clean //; [lia|].
    rw /parse_named. case_bool_decide as Hb; [done|]. rw {1}E. cbn [byte_at nth]. 
    change ((c :: r).[0]) with c. rw Hc. by case_match. }
  rw /link_mode_of Hk. rw [spelled_self _](_ : _ = false).
  { rw /spelled_self no_lead_clean // E. apply andb_false_iff. left. apply bool_decide_eq_false.
    cbn [take]. intros [= Hx]. by apply Hself. }
  done.
Qed.

Lemma link_name_flat ws pid nm : pc_link_name (Node K_PID_SUB ws pid nm []) = is_link_name nm.
Proof.
  rw /pc_link_name. cbn [n_kind n_name n_rest].
  change (bool_decide (K_PID_SUB = K_PID_SUB)) with true. cbn [negb].
  case_bool_decide as E; [by rw E|done].
Qed.

Lemma link_name_task ws pid tid nm :
  has_slash tid = false -> has_slash nm = false ->
  pc_link_name (Node K_PID_SUB ws pid (bytes "task") (tid ++ 47 :: nm)) = is_link_name nm.
Proof.
  intros Ht Hn. rw /pc_link_name /=. rw /behind_slash has_slash_app /= orb_true_r.
  rw name_len_app name_len_clean //.
  rw (cons_middle 47 tid nm) app_assoc drop_app_length'; [by rw length_app Nat.add_1_r|].
  by rw Hn.
Qed.

(** A listing's links are the names lstat reports as links. *)
Lemma root_links sub e :
  tables_ok -> n_kind (pc_parse sub) = K_ROOT -> e ∈ root_entries -> named e -> agree sub e.
Proof.
  intros Hok Hr%parse_root He Hn. apply named_skip in He; [|done].
  rw /agree -(link_mode_no_lead _ (sub ++ _)) -(parse_no_lead (sub ++ _)) no_lead_app //.
  change (no_lead (47 :: fst e)) with (no_lead (fst e)). rw link_mode_no_lead parse_no_lead.
  apply elem_of_app in He as [(pid & -> & Hp)%elem_of_map|He]; [|by apply agree_root_fixed].
  apply ok_procs in Hp; [|done].
  rw add_decimal; [lia|]. cbn [fst snd]. rw agree_root_pid; [lia|].
  split; [apply decimal_name; lia|done].
Qed.

(** The entries of a process directory, and of a thread's. *)
Lemma pid_links sub e :
  (length sub < 64)%nat -> n_kind (pc_parse sub) = K_PID_DIR ->
  e ∈ pid_entries false -> named e -> agree sub e.
Proof.
  intros Hl Hk He Hn. destruct (pid_entries_links _ _ He Hn) as [Hen _].
  destruct (parse_process sub (fst e) Hl Hen) as [Hp _].
  eapply agree_pid_entry; [exact He|exact Hn|exact (Hp Hk)|apply link_name_flat|].
  by rw /is_fd_entry /= andb_false_r.
Qed.

Lemma thread_links sub e :
  (length sub < 64)%nat -> n_kind (pc_parse sub) = K_PID_SUB -> n_name (pc_parse sub) = bytes "task" ->
  n_rest (pc_parse sub) <> [] -> has_slash (n_rest (pc_parse sub)) = false ->
  e ∈ pid_entries true -> named e -> agree sub e.
Proof.
  intros Hl Hk Hnm Hr Hs He Hn. destruct (pid_entries_links _ _ He Hn) as [Hen _].
  destruct (parse_process sub (fst e) Hl Hen) as [_ Hp]. specialize (Hp Hk). rw Hnm in Hp.
  assert (Hd : one_down (n_rest (pc_parse sub)) (fst e) = n_rest (pc_parse sub) ++ 47 :: fst e)
    by by destruct (n_rest (pc_parse sub)).
  rw Hd in Hp.
  eapply agree_pid_entry; [exact He|exact Hn|exact Hp|apply link_name_task; [done|apply Hen]|done].
Qed.

(** What is listed in the other directories of a process. *)
Lemma sub_links sub e :
  (length sub < 64)%nat -> n_kind (pc_parse sub) = K_PID_SUB -> n_rest (pc_parse sub) = [] ->
  entry_name (fst e) ->
  (n_name (pc_parse sub) = bytes "fd" /\ snd e = DT_LNK) \/
  ((n_name (pc_parse sub) = bytes "task" \/ n_name (pc_parse sub) = bytes "net") /\ snd e <> DT_LNK) ->
  agree sub e.
Proof.
  intros Hl Hk Hr Hen Hcase. destruct (parse_process sub (fst e) Hl Hen) as [_ Hp].
  specialize (Hp Hk). rw Hr in Hp. cbn [one_down] in Hp. rw no_lead_clean in Hp; [apply Hen|].
  destruct Hen as [Hn Hs Hf]. destruct Hcase as [[Hnm Ht]|[[Hnm|Hnm] Ht]]; rw Hnm in Hp.
  - eapply agree_below; [done..|]. rw Ht /is_fd_entry. cbn [n_name n_rest].
    rw Hs. split; [|done]. intros _. right. apply andb_true_iff. split; [|done].
    apply andb_true_iff. split; [done|]. by rw bool_decide_false.
  - eapply agree_plain; [done..| |done].
    rw /pc_link_name. cbn. by rw /behind_slash Hs.
  - eapply agree_plain; [done..| |done]. rw /pc_link_name. cbn. by destruct (fst e).
Qed.

Lemma pid_range sub : tables_ok -> 0 <= n_pid (pc_parse sub) < 2 ^ 64.
Proof.
  intros Hok. pose proof (ok_self Hok) as Hs.
  assert (Hp : forall ws pid rest, 0 <= pid < 2 ^ 32 -> 0 <= n_pid (parse_pid ws pid rest) < 2 ^ 64)
    by (intros ws pid rest Hpid; destruct rest; cbn [parse_pid n_pid]; lia).
  assert (Hu : forall x, 0 <= u32 x < 2 ^ 32) by (intros x; apply Z.mod_pos_bound; lia).
  rw /pc_parse /parse_named. destruct (no_lead sub); [done|].
  repeat case_match; try (by apply Hp); done.
Qed.

Lemma entry_numbers fds :
  (forall k, k ∈ fds -> 0 <= k < 2 ^ 64) ->
  forall type e, e ∈ map (fun k => add (decimal k) type) fds -> entry_name (fst e) /\ snd e = type.
Proof.
  intros Hk type e (k & -> & Hin)%elem_of_map. specialize (Hk k Hin).
  rw add_decimal; [lia|]. split; [apply decimal_name; cbn; lia|done].
Qed.

Lemma fd_entries_links pid e :
  tables_ok -> e ∈ fd_entries pid -> named e -> entry_name (fst e) /\ snd e = DT_LNK.
Proof.
  intros Hok He Hn. apply named_skip in He; [|done]. destruct (fds_of pid) as [ents|] eqn:Ef.
  - apply elem_of_map in He as ([k text] & -> & Hin). cbn [fst snd].
    pose proof (ok_fds Hok _ _ _ _ Ef Hin) as Hk.
    assert (Hs : signed k = decimal k).
    { rw /signed. destruct (k <? 0) eqn:E; [lia|done]. }
    rw Hs add_decimal; [lia|]. split; [apply decimal_name; lia|done].
  - apply elem_of_map in He as (i & -> & _). rw add_decimal; [lia|].
    split; [apply decimal_name; lia|done].
Qed.

Lemma net_entries_plain e :
  e ∈ net_entries -> named e -> entry_name (fst e) /\ snd e <> DT_LNK.
Proof.
  intros He Hn. apply named_skip in He; [|done].
  assert (Hall : Forall (fun e => entry_name (fst e) /\ snd e <> DT_LNK) (files pfs_net_files))
    by (repeat constructor; vm_compute; (lia || discriminate)).
  rewrite ->Forall_forall in Hall. by apply Hall.
Qed.

(** A listing's links are the names lstat reports as links. *)
Lemma listed_links sub l e :
  tables_ok -> (length sub < 64)%nat -> list_node (pc_parse sub) = Entries l -> e ∈ l -> named e ->
  agree sub e.
Proof.
  intros Hok Hl Hlist He Hn. move: Hlist. rw /list_node /of_process.
  destruct (n_kind (pc_parse sub)) eqn:Hk; try done.
  - intros [= <-]. by apply root_links.
  - destruct (pfs_proc_find _); [|done]. intros [= <-]. by apply pid_links.
  - case_bool_decide as Ht.
    { destruct (n_rest (pc_parse sub)) as [|c r] eqn:Hr.
      - destruct (pfs_proc_find _); [|done]. intros [= <-].
        apply named_skip in He; [|done].
        assert (Hd : entry_name (fst e) /\ snd e = DT_DIR).
        { eapply entry_numbers; [|exact He]. intros k Hin.
          assert (Hpid : 0 <= n_pid (pc_parse sub) < 2 ^ 64) by by apply pid_range.
          destruct (pfs_threads_of _) as [|t0 ts] eqn:Et.
          + apply list_elem_of_singleton in Hin as ->. done.
          + apply (ok_threads Hok (n_pid (pc_parse sub))). by rw Et. }
        destruct Hd as [Hen Hd]. apply sub_links; [done..|]. right. split; [by left|]. by rw Hd.
      - destruct (pfs_proc_find _); cbn [andb].
        + destruct (has_slash (c :: r)) eqn:Hs; [done|]. intros [= <-].
          apply thread_links; try done; by rw Hr.
        + done. }
    case_bool_decide as Hnet; cbn [andb].
    { case_bool_decide as Hr.
      - destruct (pfs_proc_find _); [|done]. intros [= <-].
        destruct (net_entries_plain e He Hn). apply sub_links; [done..|]. right. split; [by right|done].
      - rw bool_decide_false; [by rw Hnet|done]. }
    case_bool_decide as Hfd; cbn [andb]; [|done]. case_bool_decide as Hr; [|done].
    destruct (pfs_proc_find _); [|done]. intros [= <-].
    destruct (fd_entries_links _ e Hok He Hn). apply sub_links; [done..|]. by left.
  - intros [= <-]. destruct (net_entries_plain e He Hn) as [Hen Ht].
    split; [done|]. split; [done|]. intros []. rw parse_net; done.
Qed.

(** What readlink answers is a link to lstat. *)
Lemma answered_is_link sub bufsiz text :
  link_of_node (pc_parse sub) sub bufsiz = Some text -> link_mode_of (pc_parse sub) sub <> 0.
Proof.
  rw /link_of_node /link_mode_of.
  destruct (bool_decide (n_kind (pc_parse sub) = K_PID_DIR)) eqn:Hd; cbn [andb].
  - apply bool_decide_eq_true in Hd. destruct (spelled_self sub) eqn:Hs; cbn [andb].
    + case_bool_decide as Ha; [by rw Ha|]. by rw Hd.
    + by rw Hd.
  - destruct (negb _); [done|]. destruct (pc_link_name _) as [link|].
    + by rw bool_decide_true.
    + rw bool_decide_false; [by intros [? [=]]|]. by destruct (is_fd_entry _).
Qed.

(** A listed descriptor's link reads as what the process holds there. *)
Lemma fd_reads sub ents k text bufsiz :
  tables_ok -> (length sub < 64)%nat ->
  n_kind (pc_parse sub) = K_PID_SUB -> n_name (pc_parse sub) = bytes "fd" -> n_rest (pc_parse sub) = [] ->
  fds_of (n_pid (pc_parse sub)) = Some ents -> (k, text) ∈ ents -> (0 < length text < bufsiz)%nat ->
  link_of_node (pc_parse (sub ++ 47 :: decimal k)) (sub ++ 47 :: decimal k) bufsiz = Some text.
Proof.
  intros Hok Hl Hk Hnm Hr Hf Hin Hbuf. pose proof (ok_fds Hok _ _ _ _ Hf Hin) as Hrange.
  destruct (decimal_name k) as [Hn Hs Hfit]; [lia|].
  destruct (parse_process sub (decimal k) Hl) as [_ Hp]; [done|]. rw (Hp Hk) Hnm Hr.
  cbn [one_down]. rw no_lead_clean //. rw /link_of_node. cbn [n_kind n_pid n_rest].
  change (bool_decide (K_PID_SUB = K_PID_DIR)) with false.
  change (bool_decide (K_PID_SUB = K_PID_SUB)) with true. cbn [andb negb].
  assert (Hno : pc_link_name (Node K_PID_SUB (n_was_self (pc_parse sub)) (n_pid (pc_parse sub))
    (bytes "fd") (decimal k)) = None).
  { rw /pc_link_name. cbn [n_kind n_name n_rest].
    change (bool_decide (K_PID_SUB = K_PID_SUB)) with true. cbn [negb].
    change (bool_decide (bytes "fd" = bytes "task")) with false. by rw bool_decide_false. }
  rw Hno /is_fd_entry. cbn [n_name n_rest].
  change (bool_decide (bytes "fd" = bytes "fd")) with true. rw Hs bool_decide_false //. cbn [andb negb].
  rw atoi_decimal // Hf (find_once _ _ _ (ok_fds_once Hok _ _ Hf) Hin). cbn [snd].
  rw /printed !bool_decide_true //; lia.
Qed.

Lemma fd_listed ws pid ents k text l :
  tables_ok -> fds_of pid = Some ents -> (k, text) ∈ ents ->
  list_node (Node K_PID_SUB ws pid (bytes "fd") []) = Entries l -> (decimal k, DT_LNK) ∈ l.
Proof.
  intros Hok Hf Hin. pose proof (ok_fds Hok _ _ _ _ Hf Hin) as Hrange.
  change (list_node _) with (of_process pid (fd_entries pid)). rw /of_process.
  destruct (pfs_proc_find pid); [|done]. injection 1 as <-.
  rw /fd_entries Hf. apply elem_of_app. right.
  apply list_elem_of_fmap. exists (k, text). split; [|done]. cbn [fst].
  rw -(add_decimal k DT_LNK); [lia|]. rw /signed. by destruct (k <? 0) eqn:E; [lia|].
Qed.

Lemma below_app path sub t :
  below_proc path = Some sub -> below_proc (path ++ 47 :: t) = Some (sub ++ 47 :: t).
Proof.
  rw /below_proc. case_bool_decide as Ht; cbn [andb]; [|done].
  assert (Hl : (5 <= length path)%nat).
  { assert (E : length (take 5 path) = 5%nat) by (by rw Ht). rewrite length_take in E. lia. }
  assert (Ht' : take 5 (path ++ 47 :: t) = bytes "/proc") by (by rw take_app_le).
  rw bool_decide_true //. cbn [andb]. rw drop_app_le //.
  destruct ((path.[5] =? 0) || (path.[5] =? 47)) eqn:Hc; [|done]. intros [= <-].
  assert (Hc' : ((path ++ 47 :: t).[5] =? 0) || ((path ++ 47 :: t).[5] =? 47) = true); [|by rw Hc'].
  rewrite /byte_at. destruct (decide (length path = 5%nat)) as [E|E].
  - rewrite app_nth2; [lia|]. by rw E.
  - rewrite app_nth1; [lia|exact Hc].
Qed.

Lemma below_not_sys path sub :
  below_proc path = Some sub -> bool_decide (take 4 path = bytes "/sys") = false.
Proof.
  rw /below_proc. case_bool_decide as Ht; [|done]. intros _. apply bool_decide_eq_false. intros Hs.
  assert (E : take 4 (take 5 path) = take 4 path) by (by rw take_take). by rw Ht Hs in E.
Qed.

(** C12: the views of the tree agree. What readlink answers under an absolute
    name, lstat calls a link. In a listing of a directory of the tree (of a
    path short enough to be parsed uncut), an entry has the type of a link
    exactly if lstat calls that entry's path a link; and every descriptor
    the process holds is listed in its fd directory as a link, whose text is
    what the process holds there. *)
Theorem views_agree :
  (forall windows busy g_track g_fds phys contents dirfd rest bufsiz text,
     procfs_readlinkat windows true busy g_track g_fds phys contents dirfd (47 :: rest) bufsiz = Some text ->
     procfs_link_mode true (47 :: rest) <> 0) /\
  (tables_ok ->
   forall windows path sub l,
     below_proc path = Some sub -> (length sub < 64)%nat ->
     procfs_virtual_dir true windows false false path = Entries l ->
     (forall name type, (name, type) ∈ l -> (name, type) ∉ dots ->
        (type = DT_LNK <-> procfs_link_mode true (path ++ 47 :: name) <> 0)) /\
     (forall was_self pid ents k text busy g_track g_fds phys contents dirfd bufsiz,
        pc_parse sub = Node K_PID_SUB was_self pid (bytes "fd") [] -> fds_of pid = Some ents ->
        (k, text) ∈ ents -> (0 < length text < bufsiz)%nat ->
        (decimal k, DT_LNK) ∈ l /\
        procfs_readlinkat windows true busy g_track g_fds phys contents dirfd (path ++ 47 :: decimal k) bufsiz
          = Some text)).
Proof.
  split.
  - intros windows busy g_track g_fds phys contents dirfd rest bufsiz text.
    rw /procfs_readlinkat /procfs_link_mode. cbn [negb orb]. destruct (bool_decide _); [done|].
    destruct (below_proc _) as [sub|]; [|done]. apply answered_is_link.
  - intros Hok windows path sub l Hb Hl Hdir.
    assert (Hlist : list_node (pc_parse sub) = Entries l).
    { move: Hdir. rw /procfs_virtual_dir (below_not_sys _ _ Hb) andb_false_r Hb. cbn. by destruct (list_node _). }
    split.
    + intros name type Hin Hn. rw /procfs_link_mode (below_app _ _ _ Hb).
      by apply (listed_links sub l (name, type)).
    + intros ws pid ents k text busy g_track g_fds phys contents dirfd bufsiz Hp Hf Hin Hbuf.
      pose proof (ok_fds Hok _ _ _ _ Hf Hin) as Hrange. split.
      * move: Hlist. rw Hp. by apply (fd_listed _ _ ents k text).
      * pose proof (below_app path sub (decimal k) Hb) as Hb'.
        destruct (path ++ 47 :: decimal k) as [|c r] eqn:Ep; [by destruct path|].
        assert (Hc : c = 47).
        { move: Hb'. rw /below_proc. case_bool_decide as Ht; [|done]. by injection Ht. }
        subst c. rw /procfs_readlinkat Hb'. cbn [negb orb].
        rw bool_decide_false; [lia|].
        apply (fd_reads sub ents k text bufsiz Hok Hl); try done; rw Hp; done.
Qed.
End views.

(** ** A small tree *)

#[local] Instance toy_pids : Pids := {| getpid := 7; pfs_self_pid := 1234 |}.
#[local] Instance toy_tables : ProcTables :=
  {| pfs_procs := [1; 1234]; pfs_proc_find pid := bool_decide (pid ∈ [1; 1234]);
     pfs_threads_of _ := [];
     pfs_self_fds := [(0, bytes "/dev/null"); (12, bytes "/tmp/log")];
     pfs_other_fds _ := None; pfs_net_fds_of _ := []; pfs_pid_link _ _ _ := None; pfs_xnu_ifstats := [en0] |}.

Lemma views_agree_witness :
  (1234 =? 1234) = true /\
  procfs_link_mode true (bytes "/proc/self/fd/12") <> 0 /\
  procfs_readlinkat false true false [] [] (fun _ => None) (fun _ _ => None) 3 (bytes "/proc/7/fd/12") 100
    = Some (bytes "/tmp/log").
Proof.
  assert (Hok : tables_ok).
  { split; cbn.
    - intros pid Hp. rewrite ->!elem_of_cons, elem_of_nil in Hp. lia.
    - intros _ tid Ht. by apply elem_of_nil in Ht.
    - intros pid ents k text. rw /fds_of. case_match; [|done]. intros [= <-] Hin.
      rewrite ->!elem_of_cons, elem_of_nil in Hin. destruct Hin as [[= -> ->]|[[= -> ->]|[]]]; lia.
    - intros pid ents. rw /fds_of. case_match; [|done]. intros [= <-].
      by apply (bool_decide_unpack _).
    - lia. }
  destruct (@views_agree toy_pids toy_tables) as [Hread Hlist].
  destruct (Hlist Hok false (bytes "/proc/7/fd") (bytes "/7/fd") (fd_entries 1234)) as [_ Hfd];
    [reflexivity|vm_compute; lia|reflexivity|].
  destruct (Hfd true 1234 pfs_self_fds 12 (bytes "/tmp/log") false [] [] (fun _ => None) (fun _ _ => None) 3 100%nat)
    as [_ H]; [reflexivity|reflexivity|apply elem_of_cons; right; by left|vm_compute; lia|].
  split_and!; [reflexivity| |exact H].
  apply (Hread false false [] [] (fun _ => None) (fun _ _ => None) 3 (bytes "proc/self/fd/12") 100%nat (bytes "/tmp/log")).
  reflexivity.
Defined.
