(* ===== verification/ProcOpen.v ===== *)
(** * shim/procfs/core/open.c: memory descriptors of the tree

    A content file of /proc or /sys opened for reading is a text held in
    memory behind a descriptor slot libc keeps reserved, with its own read,
    lseek, fstat, fcntl and close; a directory is such a descriptor without
    text, or a tracked one. The world [W] holds libc's descriptor table and
    the shim's own state; the generators and the host are an interface.
    The theorems: a descriptor reads as the text of the moment it was opened
    and ends; what a listing announces, stat finds, with the announced type;
    the table of directory descriptors is a finite map whose entries die
    with their handle. *)
From Stdlib Require Import ssreflect.
From S2P Require Import Prelude Host PfsText SysFs ProcFs.

Definition S_IFREG : Z := 32768.
Definition S_IFDIR : Z := 16384.
Definition S_IFLNK : Z := 40960.
Definition S_IFSOCK : Z := 49152.
Definition S_IFIFO : Z := 4096.

(** struct stat, the fields the shim fills in. *)
Record stat := Stat {
  st_mode : Z; st_nlink : Z; st_size : Z; st_blksize : Z; st_blocks : Z; st_dev : Z; st_ino : Z;
  st_time : timespec }.

Record memfd := MemFd { m_text : list Z; m_pos : Z; m_gen : Z; m_dir : bool; m_vpath : cstr }.

Definition MEMFD_CHUNK : Z := 256.
Definition MEMFD_CHUNKS : Z := 4096.

(** libc's table, the chunks of the descriptor-to-memfd array that exist,
    what they hold, and the tracked directories. *)
Record pstate := PState {
  p_fds : list fdslot; p_chunks : gset Z; p_memfd : gmap Z memfd; p_track : list trackfd }.

(** A generator's answer: whether it knows the file, whether memory ran out,
    and the text. *)
Record gen := Gen { g_ok : bool; g_oom : bool; g_text : list Z }.

Class ProcHost (W : Type) := {
  ph_state : W -> pstate;
  ph_put : pstate -> W -> W;
  ph_alloc : W -> bool * W;                     (* whether an allocation succeeds *)
  ph_reservefd : W -> res Z * W;                 (* __reservefd(-1) *)
  ph_releasefd : Z -> W -> W;
  ph_dup_stderr : W -> res Z * W;                (* fcntl(2, F_DUPFD_CLOEXEC, 3) *)
  ph_open_null : W -> res Z * W;
  ph_ensurefds : Z -> W -> W;
  ph_close : Z -> W -> W;
  ph_open : cstr -> Z -> W -> res Z * W;
  ph_stat : cstr -> W -> res stat * W;
  ph_now : W -> timespec * W;                    (* clock_gettime(CLOCK_REALTIME) *)
  ph_addr : Z -> W -> Z;                         (* the address of a memfd *)
  pc_content_gen : cstr -> W -> Z * W;
  pc_pid_content : Z -> cstr -> W -> gen * W;
  pfs_gen_top_file : cstr -> W -> gen * W;
  pfs_gen_net_file : cstr -> W -> gen * W;
  pc_gen_sysfs : cstr -> W -> gen * W }.

(** The host's flag values the carrier looks at. *)
Class OpenFlags := { O_ACCMODE : Z; O_RDONLY : Z; O_DIRECTORY : Z; O_NOFOLLOW : Z; O_CLOEXEC : Z }.

Section open.
Context {W : Type} `{Pids} `{ProcTables} `{SysInfo} `{ProcHost W} `{OpenFlags}.
Context (hosted windows : bool) (ncpu : Z).

Definition state_of : M W pstate := reads ph_state.
Definition with_state (f : pstate -> pstate) : M W unit := modifies (fun w => ph_put (f (ph_state w)) w).

Definition slot_at (s : pstate) (fd : Z) : option fdslot :=
  if fd <? 0 then None else p_fds s !! Z.to_nat fd.

Definition set_slot (fd : Z) (f : fdslot -> fdslot) (s : pstate) : pstate :=
  PState (alter f (Z.to_nat fd) (p_fds s)) (p_chunks s) (p_memfd s) (p_track s).

Definition set_memfd (fd : Z) (m : memfd) (s : pstate) : pstate :=
  PState (p_fds s) (p_chunks s) (<[fd := m]> (p_memfd s)) (p_track s).

Definition memfd_of (s : pstate) (fd : Z) : option memfd :=
  if (fd <? 0) || (MEMFD_CHUNK * MEMFD_CHUNKS <=? fd) then None
  else
    match slot_at s fd with
    | Some sl => if fd_reserved sl then p_memfd s !! fd else None
    | None => None
    end.

(** [None] in the place of a memfd empties the cell. *)
Definition memfd_put (fd : Z) (m : option memfd) : M W bool :=
  if (fd <? 0) || (MEMFD_CHUNK * MEMFD_CHUNKS <=? fd) then mret false
  else
    s ← state_of;
    let chunk := fd / MEMFD_CHUNK in
    ok ← (if bool_decide (chunk ∈ p_chunks s) then mret true else step ph_alloc);
    if negb (ok : bool) then mret false
    else
      _ ← with_state (fun s => PState (p_fds s) ({[chunk]} ∪ p_chunks s)
            (match m with Some m => <[fd := m]> (p_memfd s) | None => delete fd (p_memfd s) end) (p_track s));
      mret true.

Definition claim_slot : M W (option Z) :=
  if windows then
    r ← step ph_reservefd;
    mret (match r with Ok fd => Some fd | Err _ => None end)
  else
    r ← step ph_dup_stderr;
    r ← (match r with Ok fd => mret (Ok fd) | Err _ => step ph_open_null end);
    match r with
    | Err _ => mret None
    | Ok fd =>
        _ ← modifies (ph_ensurefds fd);
        _ ← with_state (set_slot fd (fun _ => FdSlot false true 0 0 0));
        mret (Some fd)
    end.

Definition unclaim_slot (fd : Z) : M W unit :=
  modifies (if windows then ph_releasefd fd else ph_close fd).

(** The descriptor of a text; [None] declines. *)
Definition memfd_open (text : list Z) (hostflags : Z) (vpath : cstr) : M W (option Z) :=
  ok ← step ph_alloc;
  if negb (ok : bool) then mret None
  else
    g ← step (pc_content_gen vpath);
    let m := MemFd text 0 g false (cut 200 vpath) in
    fd ← claim_slot;
    match fd with
    | None => mret None
    | Some fd =>
        put ← memfd_put fd (Some m);
        if (put : bool) then
          _ ← with_state (set_slot fd (fun sl => FdSlot (fd_is_file sl) (fd_reserved sl) 0
                 (Z.land hostflags (Z.lor O_ACCMODE O_CLOEXEC)) (Z.lor S_IFREG 292)));
          mret (Some fd)
        else
          _ ← unclaim_slot fd;
          mret None
    end.

Definition procfs_memfd_dir (vpath : cstr) : M W (option Z) :=
  fd ← memfd_open [] (Z.lor O_RDONLY O_CLOEXEC) vpath;
  match fd with
  | None => mret None
  | Some fd =>
      s ← state_of;
      _ ← (match memfd_of s fd with
           | Some m =>
               with_state (fun s =>
                 set_slot fd (fun sl => FdSlot (fd_is_file sl) (fd_reserved sl) (fd_handle sl) (fd_flags sl)
                                          (Z.lor S_IFDIR 365))
                   (set_memfd fd (MemFd (m_text m) (m_pos m) 1 true (m_vpath m)) s))
           | None => mret tt
           end);
      mret (Some fd)
  end.

Definition no_file : gen := Gen false false [].
(** A generator of this development: its text goes into a growing buffer. *)
Definition known (text : option cstr) : M W gen :=
  match text with
  | Some text => ok ← step ph_alloc; mret (Gen true (negb ok) text)
  | None => mret no_file
  end.

(** The content of a parsed path. *)
Definition pc_gen_node (n : node) : M W gen :=
  match n_kind n with
  | K_TOP => step (pfs_gen_top_file (n_name n))
  | K_NET_FILE => step (pfs_gen_net_file (n_name n))
  | K_SYS => known (pfs_gen_sys_file (n_rest n))
  | K_PID_SUB =>
      match n_rest n with
      | [] => step (pc_pid_content (n_pid n) (n_name n))
      | rest =>
          if bool_decide (n_name n = bytes "task") then
            match behind_slash rest with
            | Some file => if has_slash file then mret no_file else step (pc_pid_content (n_pid n) file)
            | None => mret no_file
            end
          else if bool_decide (n_name n = bytes "net") then
            if negb (has_slash rest) && pfs_proc_find (n_pid n) then step (pfs_gen_net_file rest)
            else mret no_file
          else mret no_file
      end
  | _ => mret no_file
  end.

(** The text of a virtual path, if it is a content file. *)
Definition gen_vpath (vpath : cstr) : M W (option (list Z)) :=
  g ← (if bool_decide (take 5 vpath = bytes "/sys/") then
         if windows then step (pc_gen_sysfs vpath)
         else known (pfs_xnu_gen_sysfs pfs_xnu_ifstats ncpu vpath)
       else pc_gen_node (pc_parse (drop 5 vpath)));
  mret (if negb (g_ok g) || g_oom g then None else Some (g_text g)).

(** ** read, lseek, fstat, fcntl and close of such a descriptor

    [None] answers that the descriptor is not one of these. *)

(** The buffers of the vector, filled from the text; the bytes placed in
    each and the new position. *)
Fixpoint read_iov (text : list Z) (pos : Z) (iov : list nat) : list (list Z) * Z :=
  match iov with
  | [] => ([], pos)
  | len :: iov' =>
      if pos <? Z.of_nat (length text) then
        let k := Nat.min (length text - Z.to_nat pos) len in
        let '(rest, pos') := read_iov text (pos + Z.of_nat k) iov' in
        (take k (drop (Z.to_nat pos) text) :: rest, pos')
      else ([], pos)
  end.

Definition procfs_memfd_read (fd : Z) (iov : list nat) : M W (option (res (list (list Z)))) :=
  s ← state_of;
  if negb hosted then mret None
  else
    match memfd_of s fd with
    | None => mret None
    | Some m =>
        if m_dir m then mret (Some (Err EISDIR))
        else
          let '(out, pos) := read_iov (m_text m) (m_pos m) iov in
          _ ← with_state (set_memfd fd (MemFd (m_text m) pos (m_gen m) (m_dir m) (m_vpath m)));
          mret (Some (Ok out))
    end.

Definition SEEK_SET : Z := 0.
Definition SEEK_CUR : Z := 1.
Definition SEEK_END : Z := 2.

(** [busy] is whether this thread is generating content right now. *)
Definition procfs_memfd_lseek (busy : bool) (fd off whence : Z) : M W (option (res Z)) :=
  s ← state_of;
  if negb hosted then mret None
  else
    match memfd_of s fd with
    | None => mret None
    | Some m =>
        if (off =? 0) && (whence =? SEEK_SET) && negb busy && negb (m_dir m) then
          stale ← (if m_gen m =? 0 then mret true
                   else g ← step (pc_content_gen (m_vpath m)); mret (negb (m_gen m =? g)));
          fresh ← (if (stale : bool) then gen_vpath (m_vpath m) else mret None);
          match fresh with
          | Some text =>
              g ← step (pc_content_gen (m_vpath m));
              _ ← with_state (set_memfd fd (MemFd text 0 g (m_dir m) (m_vpath m)));
              mret (Some (Ok 0))
          | None =>
              _ ← with_state (set_memfd fd (MemFd (m_text m) 0 (m_gen m) (m_dir m) (m_vpath m)));
              mret (Some (Ok 0))
          end
        else
          let base := if whence =? SEEK_SET then 0
                      else if whence =? SEEK_CUR then m_pos m
                      else if whence =? SEEK_END then Z.of_nat (length (m_text m)) else -1 in
          if (base <? 0) || (base + off <? 0) then mret (Some (Err EINVAL))
          else
            _ ← with_state (set_memfd fd (MemFd (m_text m) (base + off) (m_gen m) (m_dir m) (m_vpath m)));
            mret (Some (Ok (base + off)))
    end.

Definition PROC_DEV : Z := 0x70726f63.

Definition procfs_memfd_fstat (fd : Z) : M W (option stat) :=
  s ← state_of;
  if negb hosted then mret None
  else
    match memfd_of s fd with
    | None => mret None
    | Some m =>
        now ← step ph_now;
        ino ← reads (ph_addr fd);
        let n := Z.of_nat (length (m_text m)) in
        mret (Some (Stat (if m_dir m then Z.lor S_IFDIR 365 else Z.lor S_IFREG 292) 1 n 4096
                      ((n + 511) / 512) PROC_DEV ino now))
    end.

Definition FD_CLOEXEC : Z := 1.

Definition procfs_memfd_fcntl (fd cmd arg : Z) : M W (option (res Z)) :=
  s ← state_of;
  if negb hosted then mret None
  else
    match memfd_of s fd, slot_at s fd with
    | Some m, Some sl =>
        if cmd =? 1 then mret (Some (Ok (if has (fd_flags sl) O_CLOEXEC then FD_CLOEXEC else 0)))
        else if cmd =? 2 then
          _ ← with_state (set_slot fd (fun sl => FdSlot (fd_is_file sl) (fd_reserved sl) (fd_handle sl)
                 (Z.lor (Z.ldiff (fd_flags sl) O_CLOEXEC) (if has arg FD_CLOEXEC then O_CLOEXEC else 0))
                 (fd_mode sl)));
          mret (Some (Ok 0))
        else if cmd =? 3 then mret (Some (Ok O_RDONLY))
        else if cmd =? 4 then mret (Some (Ok 0))
        else mret (Some (Err EINVAL))
    | _, _ => mret None
    end.

(** The caller releases the slot. *)
Definition procfs_memfd_close (fd : Z) : M W bool :=
  s ← state_of;
  if negb hosted then mret false
  else
    match memfd_of s fd with
    | None => mret false
    | Some _ => _ ← memfd_put fd None; mret true
    end.

(** ** open *)

Definition with_track (f : list trackfd -> list fdslot -> list trackfd) : M W unit :=
  with_state (fun s => PState (p_fds s) (p_chunks s) (p_memfd s) (f (p_track s) (p_fds s))).

(** [None] declines the path. *)
Definition virtual_open (n : node) (vpath : cstr) (hostflags : Z) : M W (option (res Z)) :=
  if negb (Z.land hostflags O_ACCMODE =? O_RDONLY) then mret None
  else if negb windows && is_dir_node n then
    if negb (n_pid n =? 0) && negb (pfs_proc_find (n_pid n)) then mret None
    else
      fd ← procfs_memfd_dir vpath;
      match fd with
      | None => mret None
      | Some fd => _ ← with_track (fun g fds => track_put g fds fd vpath); mret (Some (Ok fd))
      end
  else if has hostflags O_DIRECTORY then mret None
  else
    match pc_link_name n with
    | Some link =>
        if has hostflags O_NOFOLLOW then mret None
        else
          match pfs_pid_link (n_pid n) link 599 with
          | Some ((_ :: _) as target) => r ← step (ph_open target hostflags); mret (Some r)
          | _ => mret None
          end
    | None =>
        text ← gen_vpath vpath;
        match text with
        | None => mret None
        | Some text => fd ← memfd_open text hostflags vpath; mret (Ok <$> fd)
        end
    end.

Definition procfs_open (busy : bool) (path : cstr) (hostflags : Z) : M W (option (res Z)) :=
  if negb hosted || busy then mret None
  else if bool_decide (take 5 path = bytes "/sys/") then
    if negb (Z.land hostflags O_ACCMODE =? O_RDONLY) then mret None
    else
      let k := if windows then SysFile else pfs_xnu_sysfs_kind pfs_xnu_ifstats path in
      match k with
      | SysAbsent => mret None
      | SysDir => fd ← procfs_memfd_dir path; mret (Ok <$> fd)
      | SysFile =>
          if has hostflags O_DIRECTORY then mret None
          else
            text ← gen_vpath path;
            match text with
            | None => mret None
            | Some text => fd ← memfd_open text hostflags path; mret (Ok <$> fd)
            end
      end
  else
    match below_proc path with
    | Some sub => virtual_open (pc_parse sub) path hostflags
    | None => mret None
    end.

(** The virtual path behind a descriptor. *)
Definition procfs_fd_vpath (busy : bool) (fd : Z) (n : nat) (s : pstate) : option cstr :=
  if negb hosted || (fd <? 0) || busy then None
  else cut n ∘ t_vpath <$> track_get (p_track s) (p_fds s) fd.

(** ** stat of a virtual path *)

Definition content_exists (n : node) : bool :=
  match n_kind n with
  | K_TOP => bool_decide (n_name n ∈ pfs_top_files)
  | K_NET_FILE => bool_decide (n_name n ∈ pfs_net_files)
  | K_PID_SUB =>
      if negb (pfs_proc_find (n_pid n)) then false
      else
        let of_file (file : cstr) := bool_decide (file ∈ pfs_pid_volatile ++ pfs_pid_stable) in
        match n_rest n with
        | [] => of_file (n_name n)
        | rest =>
            if bool_decide (n_name n = bytes "task") then
              match behind_slash rest with
              | Some file => negb (has_slash file) && of_file file
              | None => false
              end
            else if bool_decide (n_name n = bytes "net") && negb (has_slash rest) then
              bool_decide (rest ∈ pfs_net_files)
            else false
        end
  | _ => false
  end.

Definition FNV_BASIS : Z := 0xcbf29ce484222325.

Definition ino_of (vpath : cstr) : Z := Z.lor (pc_fnv64 vpath FNV_BASIS) 1.

(** Whether a parsed path is a directory, a file or nothing now. *)
Definition node_kind (n : node) : sysfs_kind :=
  let file_or_none := if content_exists n then SysFile else SysAbsent in
  match n_kind n with
  | K_ROOT | K_NET_DIR => SysDir
  | K_PID_DIR => if pfs_proc_find (n_pid n) then SysDir else SysAbsent
  | K_PID_SUB =>
      if negb (pfs_proc_find (n_pid n)) then SysAbsent
      else if is_dir_node n then SysDir else file_or_none
  | K_SYS =>
      match n_rest n with
      | [] => SysDir
      | rest =>
          if bool_decide (is_Some (pfs_gen_sys_file rest)) then SysFile
          else if bool_decide (rest ∈ pfs_sys_dirs) then SysDir else SysAbsent
      end
  | _ => file_or_none
  end.

(** The path of the call, absolute or relative to a tracked directory. *)
Definition vpath_of (busy : bool) (dirfd : Z) (path : cstr) (s : pstate) : option cstr :=
  match path with
  | 47 :: _ => Some path
  | _ => procfs_join hosted busy (p_track s) (p_fds s) dirfd path 300
  end.

(** [None] leaves the path to the host. *)
Definition procfs_vstat (busy : bool) (dirfd : Z) (path : cstr) (nofollow : bool) : M W (option (res stat)) :=
  s ← state_of;
  if windows || negb hosted || busy then mret None
  else
    match vpath_of busy dirfd path s with
    | None => mret None
    | Some vpath =>
        let plain mode nlink size now :=
          mret (Some (Ok (Stat mode nlink size 4096 0 PROC_DEV (ino_of vpath) now))) in
        if bool_decide (take 4 vpath = bytes "/sys") && ((vpath.[4] =? 0) || (vpath.[4] =? 47)) then
          match pfs_xnu_sysfs_kind pfs_xnu_ifstats vpath with
          | SysAbsent => mret (Some (Err ENOENT))
          | SysDir => plain (Z.lor S_IFDIR 365) 2 0 (Timespec 0 0)
          | SysFile => plain (Z.lor S_IFREG 292) 1 0 (Timespec 0 0)
          end
        else
          match below_proc vpath with
          | None => mret None
          | Some sub =>
              now ← step ph_now;
              let lmode := procfs_link_mode hosted vpath in
              if negb (lmode =? 0) then
                if nofollow then plain (Z.lor S_IFLNK lmode) 1 0 now
                else
                  match link_of_node (pc_parse sub) sub 511 with
                  | None | Some [] => mret (Some (Err ENOENT))
                  | Some target =>
                      if (target.[0] =? 47) && negb (target.[1] =? 0) then
                        r ← step (ph_stat target); mret (Some r)
                      else if bool_decide (take 7 target = bytes "socket:") then plain (Z.lor S_IFSOCK 511) 1 0 now
                      else if bool_decide (take 5 target = bytes "pipe:") then plain (Z.lor S_IFIFO 384) 1 0 now
                      else if bool_decide (take 11 target = bytes "anon_inode:") then plain (Z.lor S_IFREG 384) 1 0 now
                      else plain (Z.lor S_IFDIR 365) 2 0 now
                  end
              else
                match node_kind (pc_parse sub) with
                | SysAbsent => mret (Some (Err ENOENT))
                | SysDir => plain (Z.lor S_IFDIR 365) 2 0 now
                | SysFile => plain (Z.lor S_IFREG 292) 1 0 now
                end
          end
    end.
End open.

(** ** What is listed, stat finds *)

Section stats.
Context {W : Type} `{Pids} `{ProcTables} `{SysInfo} `{ProcHost W} `{OpenFlags}.

(** A listed process is found, and the process itself is one. *)
Record tables_live : Prop :=
  { live_procs : forall pid, pid ∈ pfs_procs -> pfs_proc_find pid = true;
    live_self : pfs_proc_find pfs_self_pid = true }.

Definition plain_type (type : Z) : Prop := type = DT_DIR \/ type = DT_REG.

Lemma parse_pid_name pid :
  0 <= pid < 2 ^ 32 ->
  exists was_self, pc_parse (decimal pid) =
    Node K_PID_DIR was_self (if pid =? u32 getpid then pfs_self_pid else pid) [] [].
Proof.
  intros Hp. destruct (decimal_name pid) as [Hn Hs Hl]; [lia|].
  destruct (decimal_digit pid) as (c & r & E & Hc); [lia|].
  assert (Hv : u32 (strtoul (decimal pid)) = pid).
  { rw /strtoul digits_decimal; [lia|]. rw /u32 Z.min_l; [lia|]. apply Z.mod_small. lia. }
  rw /pc_parse no_lead_clean // name_len_clean // drop_all. rw {1}E. rw comp_clean //; [lia|].
  rw /parse_named Hv. rw bool_decide_false; [by rw E; intros [= Hx]; subst c|].
  rw {1}E. change ((c :: r).[0]) with c. rw Hc. case_match; eauto.
Qed.

Lemma root_kind sub e :
  tables_ok -> tables_live -> no_lead sub = [] -> e ∈ root_entries -> named e -> snd e <> DT_LNK ->
  node_kind (pc_parse (sub ++ 47 :: fst e)) = of_type (snd e) /\ plain_type (snd e).
Proof.
  intros Hok Hlive Hr He Hn Ht. apply named_skip in He; [|done].
  rw -(parse_no_lead (sub ++ _)) no_lead_app //. change (no_lead (47 :: fst e)) with (no_lead (fst e)).
  rw parse_no_lead. apply elem_of_app in He as [(pid & -> & Hp)%elem_of_map|He].
  - pose proof (ok_procs Hok _ Hp) as Hpid. rw add_decimal; [lia|]. cbn [fst snd].
    destruct (parse_pid_name pid Hpid) as [ws ->]. split; [|by left].
    rw /node_kind. cbn [n_kind n_pid].
    destruct (pid =? u32 getpid); [by rw (live_self Hlive)|by rw (live_procs Hlive _ Hp)].
  - assert (Hall : Forall (fun e => snd e <> DT_LNK ->
        node_kind (pc_parse (fst e)) = of_type (snd e) /\ plain_type (snd e))
      ([add (bytes "self") DT_LNK] ++ files pfs_top_files ++
       map (fun nm => add nm DT_DIR) [bytes "net"; bytes "sys"])).
    { repeat (apply Forall_cons; split); [..|by apply Forall_nil]; intros Hx;
        first [exfalso; by apply Hx | split; [reflexivity|first [by left|by right]]]. }
    rewrite ->Forall_forall in Hall. by apply Hall.
Qed.

(** The entries of a process directory, and of a thread's. *)
Definition pid_file (nm : cstr) : Prop :=
  nm ∈ pfs_pid_volatile ++ pfs_pid_stable /\ has_slash nm = false /\
  nm ∉ [bytes "task"; bytes "net"; bytes "fd"].

Lemma pid_entry_shape thread e :
  e ∈ pid_entries thread -> named e -> snd e <> DT_LNK ->
  (snd e = DT_REG /\ pid_file (fst e)) \/
  (thread = false /\ snd e = DT_DIR /\ fst e ∈ [bytes "task"; bytes "net"; bytes "fd"]).
Proof.
  assert (Hall : forallb (fun e => bool_decide (e ∈ dots) || bool_decide (snd e = DT_LNK) ||
      bool_decide (snd e = DT_REG /\ fst e ∈ pfs_pid_volatile ++ pfs_pid_stable /\ has_slash (fst e) = false /\
        fst e ∉ [bytes "task"; bytes "net"; bytes "fd"]) ||
      bool_decide (thread = false /\ snd e = DT_DIR /\ fst e ∈ [bytes "task"; bytes "net"; bytes "fd"]))
      (pid_entries thread) = true) by by destruct thread; vm_compute.
  intros He%list_elem_of_In Hn Ht. rewrite ->forallb_forall in Hall. specialize (Hall e He).
  rewrite ->!orb_true_iff, !bool_decide_eq_true in Hall.
  destruct Hall as [[[|]|]|]; [done|done|by left|by right].
Qed.

Lemma pid_file_exists ws pid nm :
  pfs_proc_find pid = true -> pid_file nm -> node_kind (Node K_PID_SUB ws pid nm []) = SysFile.
Proof.
  intros Hp (Hin & Hs & Hno). rw /node_kind. cbn [n_kind n_pid]. rw Hp. cbn [negb].
  assert (Hd : is_dir_node (Node K_PID_SUB ws pid nm []) = false).
  { rw /is_dir_node. cbn [n_kind n_name n_rest]. repeat case_bool_decide; set_solver. }
  rw Hd /content_exists. cbn [n_kind n_pid n_rest n_name]. rw Hp. cbn [negb]. by rw bool_decide_true.
Qed.

Lemma thread_file_exists ws pid tid nm :
  pfs_proc_find pid = true -> pid_file nm -> tid <> [] -> has_slash tid = false ->
  node_kind (Node K_PID_SUB ws pid (bytes "task") (tid ++ 47 :: nm)) = SysFile.
Proof.
  intros Hp (Hin & Hs & Hno) Htid Hts. rw /node_kind. cbn [n_kind n_pid]. rw Hp. cbn [negb].
  assert (Hsl : has_slash (tid ++ 47 :: nm) = true) by (by rw has_slash_app /= orb_true_r).
  assert (Hnil : tid ++ 47 :: nm <> []) by by destruct tid.
  assert (Hd : is_dir_node (Node K_PID_SUB ws pid (bytes "task") (tid ++ 47 :: nm)) = false).
  { rw /is_dir_node. cbn [n_kind n_name n_rest].
    change (bool_decide (bytes "task" = bytes "fd")) with false.
    change (bool_decide (bytes "task" = bytes "net")) with false.
    change (bool_decide (bytes "task" = bytes "task")) with true. cbn [orb].
    by rw bool_decide_false // Hsl. }
  rw Hd /content_exists. cbn [n_kind n_pid n_rest n_name]. rw Hp. cbn [negb].
  destruct (tid ++ 47 :: nm) as [|c r] eqn:E; [done|]. rw -E in Hsl *.
  change (bool_decide (bytes "task" = bytes "task")) with true.
  rw /behind_slash Hsl name_len_app name_len_clean //.
  rw (cons_middle 47 tid nm) app_assoc drop_app_length'; [by rw length_app Nat.add_1_r|].
  rw Hs. cbn [negb andb]. by rw bool_decide_true.
Qed.

Lemma sub_dir_exists ws pid nm :
  pfs_proc_find pid = true -> nm ∈ [bytes "task"; bytes "net"; bytes "fd"] ->
  node_kind (Node K_PID_SUB ws pid nm []) = SysDir.
Proof.
  intros Hp Hnm. rw /node_kind. cbn [n_kind n_pid]. rw Hp. cbn [negb].
  rewrite ->!elem_of_cons, elem_of_nil in Hnm. by destruct Hnm as [->|[->|[->|[]]]].
Qed.

Lemma net_entry_shape e :
  e ∈ net_entries -> named e -> snd e = DT_REG /\ fst e ∈ pfs_net_files /\ has_slash (fst e) = false.
Proof.
  assert (Hall : forallb (fun e => bool_decide (e ∈ dots) ||
      bool_decide (snd e = DT_REG /\ fst e ∈ pfs_net_files /\ has_slash (fst e) = false)) net_entries = true)
    by by vm_compute.
  intros He%list_elem_of_In Hn. rewrite ->forallb_forall in Hall. specialize (Hall e He).
  rewrite ->orb_true_iff, !bool_decide_eq_true in Hall. by destruct Hall as [|].
Qed.

Lemma net_file_exists ws pid nm :
  pfs_proc_find pid = true -> nm ∈ pfs_net_files -> has_slash nm = false -> nm <> [] ->
  node_kind (Node K_PID_SUB ws pid (bytes "net") nm) = SysFile.
Proof.
  intros Hp Hin Hs Hn. rw /node_kind. cbn [n_kind n_pid]. rw Hp. cbn [negb].
  assert (Hd : is_dir_node (Node K_PID_SUB ws pid (bytes "net") nm) = false).
  { rw /is_dir_node. cbn [n_kind n_name n_rest]. change (bool_decide (bytes "net" = bytes "fd")) with false.
    change (bool_decide (bytes "net" = bytes "net")) with true. cbn [orb]. by rw bool_decide_false. }
  rw Hd /content_exists. cbn [n_kind n_pid n_rest n_name]. rw Hp. cbn [negb].
  destruct nm as [|c r]; [done|]. change (bool_decide (bytes "net" = bytes "task")) with false.
  change (bool_decide (bytes "net" = bytes "net")) with true. cbn [andb]. rw Hs. cbn [negb].
  by rw bool_decide_true.
Qed.

(** What a listing announces is there, of the announced type. *)
Lemma listed_kind sub l e :
  tables_ok -> tables_live -> (length sub < 64)%nat -> list_node (pc_parse sub) = Entries l ->
  e ∈ l -> named e -> snd e <> DT_LNK ->
  node_kind (pc_parse (sub ++ 47 :: fst e)) = of_type (snd e) /\ plain_type (snd e).
Proof.
  intros Hok Hlive Hl Hlist He Hn Ht.
  pose proof (listed_links sub l e Hok Hl Hlist He Hn) as [Hen _]. move: Hlist.
  destruct (parse_process sub (fst e) Hl Hen) as [Hdir Hsub].
  rw /list_node /of_process. destruct (n_kind (pc_parse sub)) eqn:Hk; try done.
  - intros [= <-]. apply root_kind; try done. by apply parse_root.
  - rw Hdir //. destruct (pfs_proc_find _) eqn:Hp; [|done]. intros [= <-].
    destruct (pid_entry_shape _ _ He Hn Ht) as [[-> Hf]|(_ & -> & Hd)].
    + split; [by apply pid_file_exists|by right].
    + split; [by apply sub_dir_exists|by left].
  - rw Hsub //. clear Hsub Hdir. destruct (pfs_proc_find (n_pid (pc_parse sub))) eqn:Hp; last first.
    { case_bool_decide as Ht'; [by destruct (n_rest _)|].
      repeat (case_bool_decide; cbn [andb]; try done). }
    case_bool_decide as Htask; [rw Htask|].
    { destruct (n_rest (pc_parse sub)) as [|c r] eqn:Hr.
      - intros [= <-]. apply named_skip in He; [|done].
        apply elem_of_map in He as (k & -> & _). cbn [fst snd] in *. split; [|by left].
        cbn [one_down]. rw no_lead_clean; [apply Hen|]. rw /node_kind. cbn [n_kind n_pid]. rw Hp. cbn [negb].
        assert (Hd : is_dir_node (Node K_PID_SUB (n_was_self (pc_parse sub)) (n_pid (pc_parse sub))
          (bytes "task") (fst (add (decimal k) DT_DIR))) = true); [|by rw Hd].
        rw /is_dir_node. cbn [n_kind n_name n_rest].
        change (bool_decide (bytes "task" = bytes "fd")) with false.
        change (bool_decide (bytes "task" = bytes "net")) with false.
        change (bool_decide (bytes "task" = bytes "task")) with true. cbn [orb].
        by rw (en_slash _ Hen) orb_true_r.
      - cbn [andb]. destruct (has_slash (c :: r)) eqn:Hs; [done|]. intros [= <-].
        destruct (pid_entry_shape _ _ He Hn Ht) as [[-> Hf]|[[=] _]].
        split; [|by right]. by apply thread_file_exists. }
    case_bool_decide as Hnet; cbn [andb].
    { case_bool_decide as Hr; [|by rw bool_decide_false; [by rw Hnet|]].
      intros [= <-]. rw Hnet Hr. cbn [one_down]. rw no_lead_clean; [apply Hen|].
      destruct (net_entry_shape e He Hn) as (-> & Hin & Hs). split; [|by right].
      by apply net_file_exists; [..|apply Hen]. }
    case_bool_decide as Hfd; cbn [andb]; [|done]. case_bool_decide as Hr; [|done].
    intros [= <-]. destruct (fd_entries_links _ e Hok He Hn). done.
  - intros [= <-]. rw parse_net //. destruct (net_entry_shape e He Hn) as (-> & Hin & Hs).
    split; [|by right]. rw /node_kind /content_exists. cbn [n_kind n_name]. by rw bool_decide_true.
Qed.

(** The file type of a mode, and of an entry of a listing. *)
Definition mode_type (mode : Z) : Z := Z.land mode 0xf000.

Lemma below_sys_app path name :
  bool_decide (take 4 path = bytes "/sys") && ((path.[4] =? 0) || (path.[4] =? 47)) = true ->
  bool_decide (take 4 (path ++ 47 :: name) = bytes "/sys") &&
    (((path ++ 47 :: name).[4] =? 0) || ((path ++ 47 :: name).[4] =? 47)) = true.
Proof.
  case_bool_decide as Ht; cbn [andb]; [|done]. intros Hc.
  assert (Hl : (4 <= length path)%nat).
  { assert (E : length (take 4 path) = 4%nat) by (by rw Ht). rewrite length_take in E. lia. }
  rw take_app_le // bool_decide_true //. cbn [andb]. rewrite /byte_at in Hc |- *.
  destruct (decide (length path = 4%nat)) as [E|E].
  - rewrite app_nth2; [lia|]. by rw E.
  - rewrite app_nth1; [lia|exact Hc].
Qed.

Lemma starts_slash path n : take (S n) path = bytes "/sys" \/ take (S n) path = bytes "/proc" ->
  exists r, path = 47 :: r.
Proof.
  destruct path as [|c r]; [by intros []|]. intros [E|E]; injection E as -> _; eauto.
Qed.

Lemma below_drop path sub : below_proc path = Some sub -> sub = drop 5 path.
Proof. rw /below_proc. by case_match; [intros [= <-]|]. Qed.

Lemma link_type n sub : link_mode_of n sub <> 0 -> mode_type (Z.lor S_IFLNK (link_mode_of n sub)) = Z.shiftl DT_LNK 12.
Proof. rw /link_mode_of. by repeat case_match. Qed.

Lemma sys_listed path name type :
  fits (map if_name pfs_xnu_ifstats) -> pfs_xnu_sysfs_kind pfs_xnu_ifstats path = SysDir ->
  (name, type) ∈ list_of pfs_xnu_ifstats (sys_split 6 path) -> (name, type) ∉ dots ->
  pfs_xnu_sysfs_kind pfs_xnu_ifstats (path ++ 47 :: name) = of_type type /\ plain_type type.
Proof.
  intros Hf Hk Hin Hn. pose proof (dir_shapes _ _ Hk) as Hc.
  destruct (shape_spec _ _ Hf Hc) as (ds & fs & E & Hds & Hfs & Hdisj & Hkind). rw E in Hin.
  apply elem_of_app in Hin as [Hin|Hin]; [done|].
  assert (Hen : entry_name name).
  { pose proof (proj1 (Forall_forall _ _) Hds) as Hds'. pose proof (proj1 (Forall_forall _ _) Hfs) as Hfs'.
    apply elem_of_app in Hin as [Hin|Hin].
    - apply typed_spec in Hin as [_ Hin]; [by apply Hds'|done].
    - apply typed_spec in Hin as [_ Hin]; [by apply Hfs'|done]. }
  rw /pfs_xnu_sysfs_kind split_child; [by destruct Hc; cbn; lia|done|]. rw Hkind.
  apply elem_of_app in Hin as [Hin|Hin].
  - apply kind_dirs in Hin as [-> ->]; [|done]. split; [done|by left].
  - apply kind_files in Hin as [Hin ->]; [|done]. rw bool_decide_false; [|by rw Hin; split; [|right]].
    intros Hd. apply (Hdisj name Hd). by apply bool_decide_eq_true_1 in Hin.
Qed.

(** C13: on the hosts whose tree lives in memory, what a listing of /proc or of
    /sys announces is there: lstat of the entry's path succeeds and reports
    the type the listing gave it, directories, files and links alike. *)
Theorem listed_entries_stat path l dirfd w :
  tables_ok -> tables_live -> fits (map if_name pfs_xnu_ifstats) -> (length path < 64)%nat ->
  procfs_virtual_dir true false false false path = Entries l ->
  forall name type, (name, type) ∈ l -> (name, type) ∉ dots ->
  exists st w',
    procfs_vstat true false false dirfd (path ++ 47 :: name) true w = Some (Some (Ok st), w') /\
    mode_type (st_mode st) = Z.shiftl type 12.
Proof.
  intros Hok Hlive Hf Hl Hdir name type Hin Hn. move: Hdir. rw /procfs_virtual_dir. cbn [negb orb andb].
  destruct (bool_decide (take 4 path = bytes "/sys") && ((path.[4] =? 0) || (path.[4] =? 47))) eqn:Hsys.
  - pose proof (below_sys_app path name Hsys) as Hsys'.
    apply andb_true_iff in Hsys as [Ht%bool_decide_eq_true_1 _].
    rw /pfs_xnu_sysfs_list orb_false_r.
    destruct (bool_decide (pfs_xnu_sysfs_kind _ path = SysDir)) eqn:Hk; cbn [negb]; [|done].
    apply bool_decide_eq_true_1 in Hk. intros Hlist. simplify_eq.
    destruct (sys_listed path name type Hf Hk Hin Hn) as [Hkind Hplain].
    destruct (starts_slash path 3) as [r Er]; [by left|].
    rw /procfs_vstat bind_reads. cbn [negb orb]. rewrite {1}Er. cbn [app vpath_of].
    change (47 :: r ++ 47 :: name) with ((47 :: r) ++ 47 :: name). rw -Er Hsys' Hkind.
    destruct Hplain as [->| ->]; by eexists _, _.
  - destruct (below_proc path) as [sub|] eqn:Hb; [|done].
    destruct (list_node (pc_parse sub)) as [| |l'] eqn:Hlist; try done. intros Hl'. simplify_eq.
    assert (Hls : (length sub < 64)%nat).
    { rw (below_drop _ _ Hb) length_drop. lia. }
    pose proof (below_app path sub name Hb) as Hb'. pose proof (below_not_sys _ _ Hb') as Hns.
    destruct (starts_slash path 4) as [r Er].
    { clear -Hb. right. move: Hb. rw /below_proc. by case_bool_decide. }
    rw /procfs_vstat bind_reads. cbn [negb orb]. rewrite {1}Er. cbn [app vpath_of].
    change (47 :: r ++ 47 :: name) with ((47 :: r) ++ 47 :: name). rw -Er Hns Hb'. cbn [andb].
    rw bind_step /procfs_link_mode Hb'. cbn [negb].
    pose proof (listed_links sub l (name, type) Hok Hls Hlist Hin Hn) as [_ Hlnk]. cbn [fst snd] in Hlnk.
    destruct (decide (type = DT_LNK)) as [->|Hne].
    + rw (proj2 (Z.eqb_neq _ _)); [by apply Hlnk|]. cbn [negb]. eexists _, _. split; [reflexivity|].
      by apply link_type, Hlnk.
    + destruct (listed_kind sub l (name, type) Hok Hlive Hls Hlist Hin Hn Hne) as [Hkind Hplain].
      cbn [fst snd] in Hkind, Hplain.
      rw (proj2 (Z.eqb_eq _ _)); [apply dec_stable; tauto|]. cbn [negb]. rw Hkind.
      destruct Hplain as [->| ->]; by eexists _, _.
Qed.
End stats.

(** ** A descriptor reads as the text it was opened with *)

(** What the host leaves alone: asking it something does not touch the
    shim's state, and a slot it hands out is reserved and in range. *)
Class ProcHostOk (W : Type) `{ProcHost W} : Prop := {
  ph_get_put s w : ph_state (ph_put s w) = s;
  ph_alloc_keeps w : ph_state (ph_alloc w).2 = ph_state w;
  ph_gen_keeps v w : ph_state (pc_content_gen v w).2 = ph_state w;
  ph_reserve_keeps w : exists fds, ph_state (ph_reservefd w).2 =
    PState fds (p_chunks (ph_state w)) (p_memfd (ph_state w)) (p_track (ph_state w));
  ph_reserve_slot w fd : (ph_reservefd w).1 = Ok fd -> 0 <= fd /\
    exists sl, p_fds (ph_state (ph_reservefd w).2) !! Z.to_nat fd = Some sl /\ fd_reserved sl = true;
  ph_dup_keeps w : ph_state (ph_dup_stderr w).2 = ph_state w;
  ph_null_keeps w : ph_state (ph_open_null w).2 = ph_state w;
  ph_dup_ok w fd : (ph_dup_stderr w).1 = Ok fd -> 0 <= fd;
  ph_null_ok w fd : (ph_open_null w).1 = Ok fd -> 0 <= fd;
  ph_ensure_grows fd w : 0 <= fd -> exists fds, ph_state (ph_ensurefds fd w) =
    PState fds (p_chunks (ph_state w)) (p_memfd (ph_state w)) (p_track (ph_state w)) /\
    (Z.to_nat fd < length fds)%nat }.

Section reads.
Context {W : Type} `{Pids} `{ProcTables} `{SysInfo} `{!ProcHost W} `{!ProcHostOk W} `{OpenFlags}.
Context (windows : bool) (ncpu : Z).

(** A program reading a descriptor, one vector of buffers after the other. *)
Fixpoint read_run (fd : Z) (iovs : list (list nat)) : M W (option (list Z)) :=
  match iovs with
  | [] => mret (Some [])
  | iov :: iovs' =>
      r ← procfs_memfd_read true fd iov;
      match r with
      | Some (Ok out) => rest ← read_run fd iovs'; mret (app (concat out) <$> rest)
      | _ => mret None
      end
  end.

Definition capacity (iov : list nat) : nat := foldr Nat.add 0%nat iov.

Lemma read_iov_spec text pos iov :
  0 <= pos ->
  concat (read_iov text pos iov).1 = take (capacity iov) (drop (Z.to_nat pos) text) /\
  (read_iov text pos iov).2 = Z.max pos (Z.min (pos + Z.of_nat (capacity iov)) (Z.of_nat (length text))).
Proof.
  revert pos. induction iov as [|len iov IH]; intros pos Hpos; cbn [read_iov capacity foldr].
  { split; [done|]. cbn. lia. }
  destruct (Z.ltb_spec pos (Z.of_nat (length text))) as [Hlt|Hge].
  - specialize (IH (pos + Z.of_nat (Nat.min (length text - Z.to_nat pos) len))).
    destruct (read_iov text _ iov) as [out pos'] eqn:E. cbn [fst snd] in *.
    destruct IH as [IH1 IH2]; [lia|]. fold (capacity iov) in *. split; [|lia].
    cbn [concat]. rw IH1 Z2Nat.inj_add; [lia..|]. rw Nat2Z.id -drop_drop take_take_drop.
    destruct (Nat.le_ge_cases len (length text - Z.to_nat pos)).
    + by rw Nat.min_r.
    + rw Nat.min_l; [done|]. rw !take_ge; [rw length_drop; lia..|done].
  - fold (capacity iov). cbn [fst snd concat]. split; [|lia].
    by rw drop_ge; [lia|]; rw take_nil.
Qed.

Lemma memfd_of_set s fd m m' :
  memfd_of s fd = Some m -> memfd_of (set_memfd fd m' s) fd = Some m'.
Proof.
  rw /memfd_of. destruct (_ || _); [done|]. change (slot_at (set_memfd fd m' s) fd) with (slot_at s fd).
  destruct (slot_at s fd) as [sl|]; [|done]. destruct (fd_reserved sl); [|done].
  intros _. apply lookup_insert_eq.
Qed.

(** Reading in whatever portions hands out the text from the position on. *)
Lemma read_run_spec fd iovs w m :
  memfd_of (ph_state w) fd = Some m -> m_dir m = false -> 0 <= m_pos m ->
  exists w', read_run fd iovs w =
    Some (Some (take (foldr (fun iov k => capacity iov + k) 0 iovs)%nat (drop (Z.to_nat (m_pos m)) (m_text m))), w').
Proof.
  revert w m. induction iovs as [|iov iovs IH]; intros w m Hm Hd Hp; cbn [read_run foldr].
  { by exists w. }
  pose proof (read_iov_spec (m_text m) (m_pos m) iov Hp) as [Hout Hpos].
  destruct (read_iov (m_text m) (m_pos m) iov) as [out pos'] eqn:E. cbn [fst snd] in Hout, Hpos.
  set (m' := MemFd (m_text m) pos' (m_gen m) false (m_vpath m)).
  assert (Hr : procfs_memfd_read true fd iov w =
    Some (Some (Ok out), ph_put (set_memfd fd m' (ph_state w)) w)).
  { rw /procfs_memfd_read bind_reads. cbn [negb]. by rw Hm Hd E. }
  rewrite (bind_run _ _ _ _ _ Hr).
  destruct (IH (ph_put (set_memfd fd m' (ph_state w)) w) m') as [w' Hw'].
  - rw ph_get_put. by eapply memfd_of_set.
  - done.
  - cbn. lia.
  - exists w'. rewrite (bind_run _ _ _ _ _ Hw'). rw run_ret. cbn [fmap option_fmap option_map m' m_pos m_text].
    repeat f_equal. rw Hout Hpos.
    set (a := capacity iov). set (b := foldr _ _ _).
    destruct (Z.le_gt_cases (m_pos m + Z.of_nat a) (Z.of_nat (length (m_text m)))) as [Hle|Hgt].
    + replace (Z.to_nat (Z.max _ _)) with (Z.to_nat (m_pos m) + a)%nat by lia. by rw -drop_drop take_take_drop.
    + rw (drop_ge (m_text m) (Z.to_nat (Z.max _ _))); [lia|]. rw take_nil app_nil_r !take_ge; [rw length_drop; lia..|done].
Qed.

(** ** Opening *)

(** The descriptor a successful claim answers holds a reserved slot; nothing
    else of the shim's state changed. *)
Lemma claim_slot_spec w fd w' :
  claim_slot windows w = Some (Some fd, w') ->
  0 <= fd /\
  (exists sl, p_fds (ph_state w') !! Z.to_nat fd = Some sl /\ fd_reserved sl = true) /\
  p_chunks (ph_state w') = p_chunks (ph_state w) /\
  p_memfd (ph_state w') = p_memfd (ph_state w) /\ p_track (ph_state w') = p_track (ph_state w).
Proof.
  rw /claim_slot. destruct windows.
  - rw bind_step run_ret. destruct (ph_reservefd w).1 as [k|] eqn:Er; [|discriminate].
    intros [= -> <-]. destruct (ph_reserve_slot w fd Er) as [Hfd Hsl].
    destruct (ph_reserve_keeps w) as [fds E]. split_and!; [done|done|by rw E..].
  - rw bind_step.
    assert (Hgo : forall k w0, 0 <= k -> ph_state w0 = ph_state w ->
        (modifies (ph_ensurefds k) ≫= fun _ =>
         with_state (set_slot k (fun _ => FdSlot false true 0 0 0)) ≫= fun _ => mret (Some k)) w0 = Some (Some fd, w') ->
      0 <= fd /\ (exists sl, p_fds (ph_state w') !! Z.to_nat fd = Some sl /\ fd_reserved sl = true) /\
      p_chunks (ph_state w') = p_chunks (ph_state w) /\
      p_memfd (ph_state w') = p_memfd (ph_state w) /\ p_track (ph_state w') = p_track (ph_state w)).
    { intros k w0 Hk Hw0. rw !bind_modifies run_ret. intros [= -> <-]. rw ph_get_put.
      destruct (ph_ensure_grows fd w0 Hk) as (fds & -> & Hlen). rw Hw0. cbn [set_slot p_fds p_chunks p_memfd p_track].
      split_and!; try done. destruct (lookup_lt_is_Some_2 fds _ Hlen) as [sl Hsl].
      eexists. split; [by rw list_lookup_alter_eq Hsl|done]. }
    destruct (ph_dup_stderr w).1 as [k|] eqn:Ed.
    + intros E. eapply (Hgo k (ph_dup_stderr w).2); [exact (ph_dup_ok _ _ Ed)|apply ph_dup_keeps|exact E].
    + destruct (ph_open_null (ph_dup_stderr w).2).1 as [k|] eqn:En.
      * intros E. eapply (Hgo k (ph_open_null (ph_dup_stderr w).2).2).
        -- exact (ph_null_ok _ _ En).
        -- by rw ph_null_keeps ph_dup_keeps.
        -- move: E. unfold mbind, M_bind. rw /step. destruct (ph_open_null _) as [r w1]. cbn in En |- *. by rw En.
      * unfold mbind, M_bind. rw /step. destruct (ph_open_null _) as [r w1]. cbn in En |- *. by rw En.
Qed.

Lemma memfd_put_spec fd m w w' :
  memfd_put fd (Some m) w = Some (true, w') ->
  0 <= fd < MEMFD_CHUNK * MEMFD_CHUNKS /\ p_memfd (ph_state w') !! fd = Some m /\
  p_fds (ph_state w') = p_fds (ph_state w).
Proof.
  rw /memfd_put. destruct ((fd <? 0) || (MEMFD_CHUNK * MEMFD_CHUNKS <=? fd)) eqn:Er; [discriminate|].
  rw bind_reads. cbv zeta.
  assert (Hgo : forall w0, ph_state w0 = ph_state w ->
    (with_state (fun s => PState (p_fds s) ({[fd / MEMFD_CHUNK]} ∪ p_chunks s) (<[fd := m]> (p_memfd s)) (p_track s))
      ≫= fun _ => mret true) w0 = Some (true, w') ->
    0 <= fd < MEMFD_CHUNK * MEMFD_CHUNKS /\ p_memfd (ph_state w') !! fd = Some m /\
    p_fds (ph_state w') = p_fds (ph_state w)).
  { intros w0 Hw0. rw bind_modifies run_ret. intros [= <-]. rw ph_get_put Hw0. cbn [p_memfd p_fds].
    split_and!; [lia|lia|apply lookup_insert_eq|done]. }
  case_bool_decide.
  - intros E. by eapply (Hgo w).
  - rw bind_step. pose proof (ph_alloc_keeps w) as Hk. destruct (ph_alloc w) as [[|] w0]; [|discriminate].
    intros E. by eapply (Hgo w0).
Qed.

Lemma memfd_open_spec text flags v w fd w' :
  memfd_open windows text flags v w = Some (Some fd, w') ->
  exists g, memfd_of (ph_state w') fd = Some (MemFd text 0 g false (cut 200 v)).
Proof.
  rw /memfd_open bind_step. destruct (ph_alloc w) as [[|] w0]; [|discriminate]. cbn [fst snd negb].
  rw bind_step. destruct (pc_content_gen v w0) as [g w1]. cbn [fst snd].
  intros (claimed & w2 & Hc & E)%bind_Some. destruct claimed as [k|]; [|discriminate].
  apply claim_slot_spec in Hc as (Hk & (sl & Hsl & Hres) & _).
  apply bind_Some in E as ([|] & w3 & Hput & E); [|by rw bind_modifies run_ret in E].
  apply memfd_put_spec in Hput as (Hrange & Hm & Hfds). rw bind_modifies run_ret in E.
  injection E as -> <-. exists g. rw ph_get_put /memfd_of.
  destruct ((fd <? 0) || (MEMFD_CHUNK * MEMFD_CHUNKS <=? fd)) eqn:Er; [lia|].
  rw /slot_at. destruct (fd <? 0) eqn:En; [lia|]. cbn [set_slot p_fds p_memfd].
  rw list_lookup_alter_eq Hfds Hsl. cbn. by rw Hres.
Qed.

(** The text a virtual path is opened with, when it is a content file. *)
Definition content_path (path : cstr) : Prop :=
  match below_proc path with
  | Some sub => pc_link_name (pc_parse sub) = None /\ (windows = false -> is_dir_node (pc_parse sub) = false)
  | None => windows = false -> pfs_xnu_sysfs_kind pfs_xnu_ifstats path <> SysDir
  end.

Lemma open_content path flags w r w1 :
  content_path path ->
  procfs_open true windows ncpu false path flags w = Some (Some r, w1) ->
  exists fd text w0, r = Ok fd /\ Z.land flags O_ACCMODE = O_RDONLY /\
    gen_vpath windows ncpu path w = Some (Some text, w0) /\
    memfd_open windows text flags path w0 = Some (Some fd, w1).
Proof.
  intros Hc. rw /procfs_open. cbn [negb orb].
  assert (Hgo : (gen_vpath windows ncpu path ≫= fun text =>
      match text with
      | None => mret None
      | Some text => fd ← memfd_open windows text flags path; mret (Ok <$> fd)
      end) w = Some (Some r, w1) -> Z.land flags O_ACCMODE = O_RDONLY ->
    exists fd text w0, r = Ok fd /\ Z.land flags O_ACCMODE = O_RDONLY /\
      gen_vpath windows ncpu path w = Some (Some text, w0) /\
      memfd_open windows text flags path w0 = Some (Some fd, w1)).
  { intros ([text|] & w0 & Hg & E)%bind_Some Hacc; [|discriminate].
    apply bind_Some in E as ([fd|] & w2 & Hm & E); [|discriminate].
    rw run_ret in E. injection E as <- <-. by exists fd, text, w0. }
  case_bool_decide as Hsys.
  - destruct (Z.eqb_spec (Z.land flags O_ACCMODE) O_RDONLY) as [Hacc|]; cbn [negb]; [|discriminate].
    assert (Hb : below_proc path = None).
    { rw /below_proc. case_bool_decide as Hp; [|done]. by rw Hsys in Hp. }
    rw /content_path Hb in Hc.
    destruct windows eqn:Hw.
    + destruct (has flags O_DIRECTORY); [discriminate|]. by intros E%Hgo.
    + destruct (pfs_xnu_sysfs_kind _ _) eqn:Hk; [discriminate| |by destruct Hc].
      destruct (has flags O_DIRECTORY); [discriminate|]. by intros E%Hgo.
  - rw /content_path in Hc. destruct (below_proc path) as [sub|]; [|discriminate].
    destruct Hc as [Hlink Hdir]. rw /virtual_open.
    destruct (Z.eqb_spec (Z.land flags O_ACCMODE) O_RDONLY) as [Hacc|]; cbn [negb]; [|discriminate].
    assert (Hd : negb windows && is_dir_node (pc_parse sub) = false).
    { destruct windows; [done|]. by rw Hdir. }
    rw Hd. destruct (has flags O_DIRECTORY); [discriminate|]. rw Hlink. by intros E%Hgo.
Qed.

(** opening a content file of /proc or /sys for reading hands out a
    descriptor that reads, in whatever portions, as the text the generator
    produced for that open, from its start and never more; an open for
    writing is never answered from the tree. *)
Theorem content_reads path flags w r w1 :
  content_path path ->
  procfs_open true windows ncpu false path flags w = Some (Some r, w1) ->
  Z.land flags O_ACCMODE = O_RDONLY /\
  exists fd text w0, r = Ok fd /\ gen_vpath windows ncpu path w = Some (Some text, w0) /\
  forall iovs, exists w2,
    read_run fd iovs w1 = Some (Some (take (foldr (fun iov k => capacity iov + k) 0 iovs)%nat text), w2).
Proof.
  intros Hc (fd & text & w0 & -> & Hacc & Hg & Hm)%open_content; [|done].
  split; [done|]. exists fd, text, w0. split_and!; [done|done|]. intros iovs.
  apply memfd_open_spec in Hm as [g Hm].
  destruct (read_run_spec fd iovs w1 _ Hm eq_refl) as [w2 E]; [cbn; lia|]. by exists w2.
Qed.
End reads.

(** ** The table of directory descriptors *)

(** What the table says of a descriptor, and its well-formedness: 256 slots
    once used, no descriptor in two of them. *)
Definition tracked (g : list trackfd) (fd : Z) : option (Z * cstr) :=
  track_find g fd ≫= fun i => (fun t => (t_handle t, t_vpath t)) <$> g !! i.

Definition track_ok (g : list trackfd) : Prop :=
  (g = [] \/ length g = NTRACK) /\
  forall i j ti tj, g !! i = Some ti -> g !! j = Some tj -> t_fd ti = t_fd tj -> 0 <= t_fd ti -> i = j.

Lemma track_find_spec g fd i :
  track_ok g -> 0 <= fd ->
  track_find g fd = Some i <-> exists t, g !! i = Some t /\ t_fd t = fd.
Proof.
  intros [_ Hu] Hfd. rw /track_find. split.
  - intros (t & Ht & E%Z.eqb_eq)%find_index_Some. by exists t.
  - intros (t & Ht & E). destruct (find_index _ g) as [j|] eqn:Ef.
    + apply find_index_Some in Ef as (u & Hu' & Eu%Z.eqb_eq). f_equal.
      eapply (Hu j i u t Hu' Ht); [by rw Eu E|lia].
    + apply find_index_None in Ef. rewrite ->Forall_lookup in Ef. specialize (Ef i t Ht). lia.
Qed.

Lemma tracked_spec g fd h v :
  track_ok g -> 0 <= fd ->
  tracked g fd = Some (h, v) <-> exists i, g !! i = Some (TrackFd fd h v).
Proof.
  intros Hok Hfd. rw /tracked. split.
  - intros (i & Hi & Ht)%option.bind_Some. apply fmap_Some in Ht as ([fd' h' v'] & Ht & E). cbn in E. simplify_eq.
    apply track_find_spec in Hi as (t & Ht' & E); [|done|done]. rw Ht in Ht'. simplify_eq. by exists i.
  - intros (i & Hi). apply option.bind_Some. exists i. split; [|by rw Hi].
    apply track_find_spec; [done|done|]. by exists (TrackFd fd h v).
Qed.

Lemma tracked_None g fd :
  track_ok g -> 0 <= fd -> tracked g fd = None <-> forall i t, g !! i = Some t -> t_fd t <> fd.
Proof.
  intros Hok Hfd. split.
  - intros Hn i [fd' h v] Hi E. cbn in E. subst fd'.
    assert (Hs : tracked g fd = Some (h, v)) by (apply tracked_spec; eauto). by rw Hn in Hs.
  - intros Hall. destruct (tracked g fd) as [[h v]|] eqn:E; [|done].
    apply tracked_spec in E as (i & Hi); [|done|done]. by destruct (Hall i _ Hi).
Qed.

(** The view of a table only depends on which entries it has. *)
Lemma tracked_ext g1 g2 fd1 fd2 :
  track_ok g1 -> track_ok g2 -> 0 <= fd1 -> 0 <= fd2 ->
  (forall h v, (exists i, g1 !! i = Some (TrackFd fd1 h v)) <-> (exists i, g2 !! i = Some (TrackFd fd2 h v))) ->
  tracked g1 fd1 = tracked g2 fd2.
Proof.
  intros H1 H2 Hf1 Hf2 Heq. apply option_eq. intros [h v].
  rw (tracked_spec g1) // (tracked_spec g2) //.
Qed.

Definition fresh_table (g : list trackfd) : list trackfd :=
  match g with [] => replicate NTRACK (TrackFd (-1) 0 []) | _ => g end.

Lemma fresh_ok g : track_ok g -> track_ok (fresh_table g) /\ length (fresh_table g) = NTRACK.
Proof.
  intros Hok. destruct g as [|t g]; [|split; [done|by destruct Hok as [[|]]]].
  split; [|apply length_replicate]. split; [right; apply length_replicate|].
  intros i j ti tj [-> _]%lookup_replicate [-> _]%lookup_replicate. cbn. lia.
Qed.

Lemma fresh_tracked g fd : track_ok g -> 0 <= fd -> tracked (fresh_table g) fd = tracked g fd.
Proof.
  intros Hok Hfd. destruct g as [|t g]; [|done]. change (tracked [] fd) with (@None (Z * cstr)).
  apply tracked_None; [by apply fresh_ok|done|]. intros i t [-> _]%lookup_replicate. cbn. lia.
Qed.

(** Whether there is a slot for a descriptor. *)
Definition has_room (g : list trackfd) (fd : Z) : Prop :=
  exists i, (match track_find (fresh_table g) fd with Some i => Some i | None => track_find (fresh_table g) (-1) end) = Some i.

(** Writing slot [i], which is free or the descriptor's own. *)
Lemma put_slot g i fd h v :
  track_ok g -> length g = NTRACK -> 0 <= fd ->
  (exists t, g !! i = Some t /\ (t_fd t = fd \/ (t_fd t = -1 /\ tracked g fd = None))) ->
  let g' := <[i := TrackFd fd h v]> g in
  track_ok g' /\ length g' = NTRACK /\
  forall fd', 0 <= fd' -> tracked g' fd' = if fd' =? fd then Some (h, v) else tracked g fd'.
Proof.
  intros Hok Hlen Hfd (t & Ht & Hcase) g'. subst g'.
  assert (Hother : forall j u, g !! j = Some u -> t_fd u = fd -> j = i).
  { intros j u Hj E. destruct Hcase as [E'|[_ Hn]].
    - destruct Hok as [_ Hu]. eapply (Hu j i u t Hj Ht); [by rw E E'|lia].
    - exfalso. rewrite ->tracked_None in Hn; [by apply (Hn j u)|done|done]. }
  assert (Hok' : track_ok (<[i := TrackFd fd h v]> g)).
  { split; [right; by rw length_insert|]. intros j k tj tk Hj Hk E Hp.
    apply list_lookup_insert_Some in Hj as [(<- & <- & _)|[Hji Hj]];
      apply list_lookup_insert_Some in Hk as [(<- & <- & _)|[Hki Hk]]; [done| | |].
    - symmetry. by apply (Hother k tk).
    - by apply (Hother j tj).
    - destruct Hok as [_ Hu]. by apply (Hu j k tj tk). }
  split_and!; [done|by rw length_insert|]. intros fd' Hfd'.
  destruct (Z.eqb_spec fd' fd) as [->|Hne].
  - apply tracked_spec; [done|done|]. exists i. apply list_lookup_insert_eq. by eapply lookup_lt_Some.
  - apply tracked_ext; try done. intros h' v'. split; intros [j Hj]; exists j.
    + apply list_lookup_insert_Some in Hj as [(_ & [= -> _ _] & _)|[_ Hj]]; done.
    + rw list_lookup_insert_ne; [|done]. intros <-. rw Ht in Hj. injection Hj as ->. cbn in Hcase.
      destruct Hcase as [->|[-> _]]; [done|lia].
Qed.

Lemma put_view g fds fd v s :
  track_ok g -> 0 <= fd -> fds !! Z.to_nat fd = Some s ->
  let g' := track_put g fds fd v in
  track_ok g' /\
  (has_room g fd -> forall fd', 0 <= fd' ->
     tracked g' fd' = if fd' =? fd then Some (fd_handle s, cut 200 v) else tracked g fd') /\
  (~ has_room g fd -> forall fd', 0 <= fd' -> tracked g' fd' = tracked g fd').
Proof.
  intros Hok Hfd Hs. destruct (fresh_ok g Hok) as [Hok0 Hlen0].
  rw /track_put /has_room. destruct (fd <? 0) eqn:E; [lia|clear E]. rw Hs. fold (fresh_table g).
  set (g0 := fresh_table g) in *.
  assert (Hview : forall fd', 0 <= fd' -> tracked g0 fd' = tracked g fd') by (intros; by apply fresh_tracked).
  destruct (track_find g0 fd) as [i|] eqn:Ef.
  - pose proof Ef as (t & Ht & Et)%track_find_spec; [|done|done].
    destruct (put_slot g0 i fd (fd_handle s) (cut 200 v) Hok0 Hlen0 Hfd) as (Hok' & _ & Hv); [by eauto|].
    split_and!; [done| |].
    + intros _ fd' Hfd'. by rw Hv // Hview.
    + intros Hno. destruct Hno. by exists i.
  - destruct (track_find g0 (-1)) as [i|] eqn:Efree.
    + apply find_index_Some in Efree as (t & Ht & Et%Z.eqb_eq).
      assert (Hnone : tracked g0 fd = None) by by rw /tracked Ef.
      destruct (put_slot g0 i fd (fd_handle s) (cut 200 v) Hok0 Hlen0 Hfd) as (Hok' & _ & Hv); [by eauto|].
      split_and!; [done| |].
      * intros _ fd' Hfd'. by rw Hv // Hview.
      * intros Hno. destruct Hno. by exists i.
    + split_and!; [done| |done]. intros [i [=]].
Qed.

Lemma close_view g fd :
  track_ok g -> 0 <= fd ->
  let g' := fd_closed true g fd in
  track_ok g' /\ forall fd', 0 <= fd' -> tracked g' fd' = if fd' =? fd then None else tracked g fd'.
Proof.
  intros Hok Hfd. rw /fd_closed. cbn [negb orb]. destruct (fd <? 0) eqn:E; [lia|clear E].
  destruct (track_find g fd) as [i|] eqn:Ef.
  - pose proof Ef as (t & Ht & Et)%track_find_spec; [|done|done].
    set (free := fun t => TrackFd (-1) (t_handle t) (t_vpath t)).
    assert (Hat : forall j u, alter free i g !! j = Some u ->
        (j = i /\ t_fd u = -1) \/ (j <> i /\ g !! j = Some u)).
    { intros j u. destruct (decide (j = i)) as [->|Hne].
      - rw list_lookup_alter_eq Ht. intros [= <-]. by left.
      - rw list_lookup_alter_ne //. by right. }
    assert (Hok' : track_ok (alter free i g)).
    { destruct Hok as [Hl Hu]. split.
      - rw length_alter. destruct Hl as [->|Hl]; [by left|by right].
      - intros j k tj tk Hj Hk Eq Hp.
        destruct (Hat j tj Hj) as [[-> E1]|[Hj' Hgj]], (Hat k tk Hk) as [[-> E2]|[Hk' Hgk]]; [lia..|].
        by apply (Hu j k tj tk). }
    split; [done|]. intros fd' Hfd'. destruct (Z.eqb_spec fd' fd) as [->|Hne].
    + apply tracked_None; [done|done|]. intros j u Hj0. destruct (Hat j u Hj0) as [[_ ->]|[Hj Hu]]; [lia|].
      intros E. apply Hj. destruct Hok as [_ Huniq]. eapply (Huniq j i u t Hu Ht); [by rw E Et|lia].
    + apply tracked_ext; try done. intros h v. split; intros [j Hj].
      * exists j. apply Hat in Hj as [[_ E]|[_ Hj]]; [cbn in E; lia|done].
      * exists j. rw list_lookup_alter_ne; [|done]. intros <-. rw Ht in Hj. injection Hj as ->. by apply Hne.
  - split; [done|]. intros fd' Hfd'. destruct (Z.eqb_spec fd' fd) as [->|]; [|done].
    by rw /tracked Ef.
Qed.

(** What happens to the table: a directory is remembered under the libc
    table of the moment, a descriptor is closed. *)
Inductive track_op :=
  | Remember (fds : list fdslot) (fd : Z) (vpath : cstr)
  | Closed (fd : Z).

Definition track_step (g : list trackfd) (op : track_op) : list trackfd :=
  match op with
  | Remember fds fd v => track_put g fds fd v
  | Closed fd => fd_closed true g fd
  end.

Definition op_fd (op : track_op) : Z := match op with Remember _ fd _ => fd | Closed fd => fd end.

(** A slot of libc's table that still is what an entry remembers: a file
    with that handle, or a reserved slot for an entry without one. *)
Definition still_open (fds : list fdslot) (fd h : Z) : Prop :=
  exists s, fds !! Z.to_nat fd = Some s /\
    if fd_is_file s then fd_handle s = h else fd_reserved s = true /\ h = 0.

Lemma track_get_spec g fds fd t :
  track_ok g -> 0 <= fd ->
  track_get g fds fd = Some t <->
  exists h v, t = TrackFd fd h v /\ tracked g fd = Some (h, v) /\ still_open fds fd h.
Proof.
  intros Hok Hfd. rw /track_get /still_open. destruct (fd <? 0) eqn:E; [lia|clear E].
  destruct (track_find g fd) as [i|] eqn:Ef; last first.
  { split; [done|]. intros (h & v & _ & Ht & _). by rw /tracked Ef in Ht. }
  pose proof Ef as ([fd' h v] & Ht & Et)%track_find_spec; [|done|done]. cbn in Et. subst fd'.
  assert (Hv : tracked g fd = Some (h, v)) by (apply tracked_spec; eauto).
  rw Ht Hv. split.
  - destruct (fds !! Z.to_nat fd) as [s|]; [|done]. case_match eqn:Hc; [done|]. intros [= <-].
    exists h, v. split_and!; [done|done|]. exists s. split; [done|]. cbn in Hc.
    destruct (fd_is_file s); [lia|]. destruct (fd_reserved s); cbn in Hc; [split; [done|lia]|done].
  - intros (h' & v' & -> & [= -> ->] & s & -> & Hs). cbn.
    destruct (fd_is_file s); [by rw Hs Z.eqb_refl|]. by destruct Hs as [-> ->].
Qed.

(** the table of directory descriptors refines a partial map from
    descriptors to handles and paths, in every history of opens and closes:
    remembering a descriptor binds it (when one of the 256 slots is left, and
    changes nothing otherwise) and no other, closing it unbinds it, and a
    lookup answers the bound path exactly while libc's slot still is what was
    bound, so a number closed behind the shim's back and reused is never
    taken for a directory of the tree. *)
Theorem track_refines ops :
  Forall (fun op => 0 <= op_fd op) ops ->
  let g := foldl track_step [] ops in
  (forall fds fd v s, 0 <= fd -> fds !! Z.to_nat fd = Some s ->
     (has_room g fd -> forall fd', 0 <= fd' ->
        tracked (track_put g fds fd v) fd' = if fd' =? fd then Some (fd_handle s, cut 200 v) else tracked g fd') /\
     (~ has_room g fd -> forall fd', 0 <= fd' -> tracked (track_put g fds fd v) fd' = tracked g fd')) /\
  (forall fd fd', 0 <= fd -> 0 <= fd' ->
     tracked (fd_closed true g fd) fd' = if fd' =? fd then None else tracked g fd') /\
  (forall fds fd t, 0 <= fd ->
     track_get g fds fd = Some t <->
     exists h v, t = TrackFd fd h v /\ tracked g fd = Some (h, v) /\ still_open fds fd h).
Proof.
  intros Hops g.
  assert (Hok : track_ok g).
  { subst g. assert (Hnil : track_ok []) by (split; [by left|]; intros i j ti tj Hi; by rw lookup_nil in Hi).
    revert Hnil. generalize (@nil trackfd). induction Hops as [|op ops Hop _ IH]; intros g Hg; [done|].
    cbn [foldl]. apply IH. destruct op as [fds fd v|fd]; cbn in *.
    - destruct (fds !! Z.to_nat fd) as [s|] eqn:Hs; [by eapply put_view|].
      rw /track_put. destruct (fd <? 0) eqn:E; [lia|]. rw Hs. by apply fresh_ok.
    - by apply close_view. }
  split_and!.
  - intros fds fd v s Hfd Hs. by apply (put_view g fds fd v s Hok Hfd Hs).
  - intros fd fd' Hfd Hfd'. by apply close_view.
  - intros fds fd t Hfd. by apply track_get_spec.
Qed.

(** ** A small host *)

Definition empty_slot : fdslot := FdSlot false false 0 0 0.
Definition grow (fd : Z) (s : pstate) : pstate :=
  PState (p_fds s ++ replicate (S (Z.to_nat fd) - length (p_fds s)) empty_slot) (p_chunks s) (p_memfd s) (p_track s).

#[local] Instance toy_pids : Pids := {| getpid := 7; pfs_self_pid := 1234 |}.
#[local] Instance toy_tables : ProcTables :=
  {| pfs_procs := [1; 1234]; pfs_proc_find pid := bool_decide (pid ∈ [1; 1234]);
     pfs_threads_of _ := []; pfs_self_fds := [(0, bytes "/dev/null")];
     pfs_other_fds _ := None; pfs_net_fds_of _ := []; pfs_pid_link _ _ _ := None; pfs_xnu_ifstats := [en0] |}.
#[local] Instance toy_info : SysInfo :=
  {| pfs_kernel_sysname := bytes "Darwin"; pfs_kernel_release := bytes "23.0"; pfs_kernel_version := bytes "v1";
     hostname := bytes "mac"; entropy := replicate 16 0; pfs_boot_filetime := 0 |}.
#[local] Instance toy_flags : OpenFlags :=
  {| O_ACCMODE := 3; O_RDONLY := 0; O_DIRECTORY := 65536; O_NOFOLLOW := 131072; O_CLOEXEC := 524288 |}.
#[local] Instance toy_proc_host : ProcHost pstate :=
  {| ph_state s := s; ph_put s _ := s; ph_alloc s := (true, s);
     ph_reservefd s := (Ok (Z.of_nat (length (p_fds s))),
       PState (p_fds s ++ [FdSlot false true 0 0 0]) (p_chunks s) (p_memfd s) (p_track s));
     ph_releasefd _ s := s; ph_dup_stderr s := (Ok (Z.of_nat (length (p_fds s))), s);
     ph_open_null s := (Err EMFILE, s); ph_ensurefds := grow; ph_close _ s := s;
     ph_open _ _ s := (Err ENOENT, s); ph_stat _ s := (Err ENOENT, s);
     ph_now s := (Timespec 5 0, s); ph_addr fd _ := fd; pc_content_gen _ s := (1, s);
     pc_pid_content pid name s := (Gen true false (bytes "content"), s);
     pfs_gen_top_file _ s := (Gen true false (bytes "uptime"), s);
     pfs_gen_net_file _ s := (Gen true false [], s); pc_gen_sysfs _ s := (Gen false false [], s) |}.

#[local] Instance toy_proc_host_ok : ProcHostOk pstate.
Proof.
  split; try done.
  - intros [fds ch m tr]. by eexists.
  - intros s fd [= <-]. split; [lia|]. exists (FdSlot false true 0 0 0). split; [|done].
    cbn. rw Nat2Z.id lookup_app_r; [lia|]. by rw Nat.sub_diag.
  - intros s fd [= <-]. lia.
  - intros fd s Hfd. eexists. split; [done|]. rw length_app length_replicate. lia.
Qed.

Definition start : pstate := PState (replicate 3 (FdSlot true false 9 0 0)) ∅ ∅ [].

Lemma toy_tables_ok : tables_ok /\ tables_live.
Proof.
  split; [split|split]; cbn.
  - intros pid Hp. rewrite ->!elem_of_cons, elem_of_nil in Hp. lia.
  - intros _ tid Ht. by apply elem_of_nil in Ht.
  - intros pid ents k text. rw /fds_of. case_match; [|done]. intros [= <-] Hin.
    rewrite ->!elem_of_cons, elem_of_nil in Hin. destruct Hin as [[= -> ->]|[]]. lia.
  - intros pid ents. rw /fds_of. case_match; [|done]. intros [= <-]. by apply (bool_decide_unpack _).
  - lia.
  - intros pid Hp. by apply bool_decide_eq_true.
  - done.
Qed.

Lemma listed_entries_stat_witness :
  exists st w', procfs_vstat true false false 9 (bytes "/proc/1/fd") true start = Some (Some (Ok st), w') /\
    mode_type (st_mode st) = S_IFDIR.
Proof.
  apply (listed_entries_stat (bytes "/proc/1") (pid_entries false) 9 start (proj1 toy_tables_ok) (proj2 toy_tables_ok)
    (fits_fixed (map if_name [en0]) eq_refl) ltac:(cbn; lia) eq_refl (bytes "fd") DT_DIR).
  - by apply (bool_decide_unpack _).
  - by apply (bool_decide_unpack _).
Defined.

Lemma content_reads_witness :
  exists w1 w2, procfs_open true false 4 false (bytes "/proc/1/stat") 0 start = Some (Some (Ok 3), w1) /\
    read_run 3 [[2]; [3; 1]; [10]]%nat w1 = Some (Some (bytes "content"), w2).
Proof.
  destruct (procfs_open true false 4 false (bytes "/proc/1/stat") 0 start) as [[[[fd|]|] w1]|] eqn:E;
    try (vm_compute in E; discriminate E).
  destruct (content_reads false 4 (bytes "/proc/1/stat") 0 start (Ok fd) w1) as (_ & k & text & w0 & [= <-] & Hg & Hr);
    [by split|exact E|].
  assert (fd = 3) as -> by (vm_compute in E; injection E; done).
  destruct (Hr [[2]; [3; 1]; [10]]%nat) as [w2 Hw2]. exists w1, w2. split; [done|].
  vm_compute in Hg. injection Hg as <- _. exact Hw2.
Defined.

Lemma track_refines_witness :
  tracked (track_put [] [empty_slot; FdSlot true false 77 0 0] 1 (bytes "/proc/1")) 1 = Some (77, bytes "/proc/1").
Proof.
  destruct (track_refines [] (Forall_nil_2 _)) as (Hput & _ & _).
  destruct (Hput [empty_slot; FdSlot true false 77 0 0] 1 (bytes "/proc/1") (FdSlot true false 77 0 0)) as [H _];
    [lia|done|].
  apply (H ltac:(by exists 0%nat) 1). lia.
Defined.
