(* ===== verification/Read.v ===== *)
(** * shim/read.c, read and readv

    Both calls funnel into [readv_impl]: oversized requests are cut to what
    every kernel takes, virtual files answer first, and on Windows a console
    read is completed to whole escape sequences and a burst of text is put
    between paste markers. The program's buffers are explicit memory, so
    that what each branch stores, the two memmoves of the paste wrapper
    included, is checked against their bounds. *)
From S2P Require Import Prelude Host EpollSets Console PfsText SysFs ProcFs ProcOpen.

(** ** Memory *)

(** [data] stored at [off]. *)
Definition put (off : nat) (data b : list Z) : list Z :=
  take off b ++ data ++ drop (off + length data) b.

(** memmove(b + dst, b + src, n) *)
Definition memmove (dst src n : nat) (b : list Z) : list Z := put dst (take n (drop src b)) b.

(** struct iovec: the memory from iov_base on, and iov_len. *)
Record iovec := Iov { iov_mem : list Z; iov_len : Z }.

(** What a reader delivered, placed in the buffers in order. *)
Fixpoint scatter (data : list Z) (iov : list iovec) : list (list Z) :=
  match iov with
  | [] => []
  | v :: iov' =>
      let k := Nat.min (length data) (Z.to_nat (iov_len v)) in
      put 0 (take k data) (iov_mem v) :: scatter (drop k data) iov'
  end.

Definition iov_sum (iov : list iovec) : Z := foldr (fun v n => iov_len v + n) 0 iov.

(** ** Requests larger than a kernel takes *)

Definition SIZE_MAX : Z := 2 ^ 64 - 1.
Definition READ_MAX : Z := 0x7ffff000.

Definition SumIovecBytes (iov : list iovec) : Z :=
  foldl (fun count v => if 2 ^ 64 <=? count + iov_len v then SIZE_MAX else count + iov_len v) 0 iov.

Fixpoint clamp_iov (remain : Z) (iov : list iovec) : list iovec :=
  match iov with
  | [] => []
  | v :: iov' =>
      if iov_len v <=? remain then v :: clamp_iov (remain - iov_len v) iov'
      else Iov (iov_mem v) remain :: clamp_iov 0 iov'
  end.

(** The vector [readv_impl] goes on with where the host is not Linux. *)
Definition clamped (iov : list iovec) : list iovec :=
  if READ_MAX <? SumIovecBytes iov then clamp_iov READ_MAX iov else iov.

(** ** Escape sequences of the console *)

Definition ESC_COALESCE_MS : Z := 10.
Definition ESC_COALESCE_MAX : nat := 64.

(** [while (i && b[i - 1] != 0x1b) i--;] *)
Fixpoint esc_end (b : list Z) (i : nat) : nat :=
  match i with
  | O => O
  | S j => if byte_at b j =? 0x1b then i else esc_end b j
  end.

Definition EndsInsideEscape (b : list Z) : bool :=
  let n := length b in
  let i := esc_end b n in
  if (i =? 0)%nat then false
  else if (n - i =? 0)%nat then true
  else
    let c := byte_at b i in
    if c =? 91 then negb (existsb (fun x => (0x40 <=? x) && (x <=? 0x7e)) (drop (i + 1) b))
    else if c =? 79 then (n - i <? 2)%nat
    else if c =? 93 then negb (existsb (fun x => x =? 7) (drop (i + 1) b))
    else false.

(** ** Pasted text *)

(** Whether every byte is paste content; the two flags are set on the way,
    also by the bytes in front of one that is not. *)
Fixpoint IsPasteText (b : list Z) (got_break got_text : bool) : bool * (bool * bool) :=
  match b with
  | [] => (true, (got_break, got_text))
  | c :: b' =>
      if (c =? 13) || (c =? 10) then IsPasteText b' true got_text
      else if (c =? 9) || ((0x20 <=? c) && negb (c =? 0x7f)) then IsPasteText b' got_break true
      else (false, (got_break, got_text))
  end.

(** ESC [ 2 0 0 ~ and ESC [ 2 0 1 ~ *)
Definition PASTE_START : list Z := [27; 91; 50; 48; 48; 126].
Definition PASTE_END : list Z := [27; 91; 50; 48; 49; 126].

(** The four moves that put the markers around the first [n] of [text_end] bytes. *)
Definition put_markers (n text_end : nat) (b : list Z) : list Z :=
  let b := memmove 6 0 text_end b in
  let b := put 0 PASTE_START b in
  let b := memmove (6 + n + 6) (6 + n) (text_end - n) b in
  put (6 + n) PASTE_END b.

(** ** The host *)

Inductive os := Linux | Xnu (silicon : bool) | Freebsd | Openbsd | Netbsd | Metal | Windows | Unknown.

Inductive fd_kind := kFdFile | kFdConsole | kFdZip | kFdOther.

#[export] Instance os_eq_dec : EqDecision os.
Proof. solve_decision. Defined.
#[export] Instance fd_kind_eq_dec : EqDecision fd_kind.
Proof. solve_decision. Defined.

(** The functions a read can end in. *)
Inductive reader := zipos_read | sys_read | sys_readv | sys_readv_metal | sys_readv_nt.

(** [rd_call] answers the bytes delivered for buffers of the given lengths;
    [rd_memfd] is the virtual files' read, [None] for any other descriptor;
    [rd_poll] is shim/poll.c's poll of one descriptor for POLLIN: its answer
    and the revents. *)
Class ReadHost (W : Type) := {
  rd_os : os;
  rd_fds_n : W -> Z;
  rd_kind : Z -> W -> fd_kind;
  rd_call : reader -> Z -> list Z -> W -> res (list Z) * W;
  rd_memfd : Z -> list nat -> M W (option (res (list (list Z))));
  rd_poll : Z -> Z -> W -> (res Z * Z) * W;
  rd_fstat_dir : Z -> W -> option bool * W;
  CountConsoleInputBytes : W -> Z * W;
  rd_console : W -> console;
  rd_put_console : console -> W -> W;
  rd_sets : W -> list epoll_set;
  rd_put_sets : list epoll_set -> list Z -> W -> W }.

Section read.
Context {W : Type} `{ReadHost W} `{ConsoleHost W} (use_syscalls : bool).

(** sys_readv_nt into the buffer at [off]: what arrived. *)
Definition nt_more (fd : Z) (room : nat) : M W (list Z) :=
  r ← step (rd_call sys_readv_nt fd [Z.of_nat room]);
  mret (match r with Ok d => d | Err _ => [] end).

Fixpoint CoalesceConsoleEscape (fuel : nat) (fd : Z) (b : list Z) (cap n : nat) : M W (list Z * nat) :=
  if (0 <? n)%nat && (n <? cap)%nat && (n <? ESC_COALESCE_MAX)%nat && EndsInsideEscape (take n b) then
    match fuel with
    | O => out_of_fuel
    | S fuel =>
        '(r, revents) ← step (rd_poll fd ESC_COALESCE_MS);
        if (match r with Ok k => k <=? 0 | Err _ => true end) || negb (has revents 1) then mret (b, n)
        else
          d ← nt_more fd (cap - n);
          if bool_decide (d = []) then mret (b, n)
          else CoalesceConsoleEscape fuel fd (put n d b) cap (n + length d)
    end
  else mret (b, n).

(** The burst gathered so far: the buffer, the end of the plain text, the
    end of everything read, and the flags. *)
Record burst := Burst { bu_mem : list Z; bu_n : nat; bu_end : nat; bu_break : bool; bu_text : bool }.

Fixpoint gather (fuel : nat) (fd : Z) (cap : nat) (u : burst) : M W burst :=
  if negb (bu_end u + 12 <? cap)%nat then mret u
  else
    queued ← step CountConsoleInputBytes;
    if negb (0 <? queued) then mret u
    else
      match fuel with
      | O => out_of_fuel
      | S fuel =>
          d ← nt_more fd (cap - 12 - bu_end u);
          if bool_decide (d = []) then mret u
          else
            let '(ok, (br, tx)) := IsPasteText d (bu_break u) (bu_text u) in
            let b := put (bu_end u) d (bu_mem u) in
            let e := (bu_end u + length d)%nat in
            if ok : bool then gather fuel fd cap (Burst b e e br tx)
            else mret (Burst b (bu_n u) e br tx)
      end.

Definition WrapConsolePaste (fuel : nat) (fd : Z) (b : list Z) (cap n : nat) : M W (list Z * nat) :=
  bracketed_paste ← reads (fun w => bracketed (rd_console w));
  uncanon ← reads tty_uncanon;
  let '(ok, (br, tx)) := IsPasteText (take n b) false false in
  if negb bracketed_paste || negb uncanon || (cap <? n + 12)%nat || negb ok then mret (b, n)
  else
    u ← gather fuel fd cap (Burst b n n br tx);
    if (bu_n u <? 3)%nat || negb (bu_break u) || negb (bu_text u) then mret (bu_mem u, bu_end u)
    else mret (put_markers (bu_n u) (bu_end u) (bu_mem u), bu_end u + 12)%nat.

(** ** The call *)

(** A reader's answer and the buffers it leaves. *)
Definition deliver (r : res (list Z)) (iov : list iovec) : res Z * list (list Z) :=
  match r with
  | Ok d => (Ok (Z.of_nat (length d)), scatter d iov)
  | Err e => (Err e, map iov_mem iov)
  end.

Definition read_with (k : reader) (fd : Z) (iov : list iovec) : M W (res Z * list (list Z)) :=
  r ← step (rd_call k fd (map iov_len iov)); mret (deliver r iov).

(** The console's completions, for a read into one buffer. *)
Definition complete_console (fd : Z) (iov : list iovec) (out : res Z * list (list Z))
    : M W (res Z * list (list Z)) :=
  match out, iov with
  | (Ok n, [b]), [v] =>
      console ← reads (fun w => bool_decide (rd_kind fd w = kFdConsole));
      if (0 <? n) && console then
        let cap := Z.to_nat (iov_len v) in
        '(b, n) ← CoalesceConsoleEscape ESC_COALESCE_MAX fd b cap (Z.to_nat n);
        '(b, n) ← WrapConsolePaste cap fd b cap n;
        mret (Ok (Z.of_nat n), [b])
      else mret out
  | _, _ => mret out
  end.

(** ReadFile on a directory answers EINVAL; Linux says EISDIR. *)
Definition directory_error (fd : Z) (out : res Z * list (list Z)) : M W (res Z * list (list Z)) :=
  match fst out with
  | Err EINVAL =>
      file ← reads (fun w => bool_decide (rd_kind fd w = kFdFile));
      if (file : bool) then
        dir ← step (rd_fstat_dir fd);
        mret (Err (if bool_decide (dir = Some true) then EISDIR else EINVAL), snd out)
      else mret out
  | _ => mret out
  end.

Definition nt_read (fd : Z) (iov : list iovec) : M W (res Z * list (list Z)) :=
  console ← reads (fun w => bool_decide (rd_kind fd w = kFdConsole));
  _ ← (if (console : bool)
       then modifies (fun w => let '(c, w') := console_before_wait fd (rd_console w) w in rd_put_console c w')
       else mret tt);
  out ← read_with sys_readv_nt fd iov;
  out ← complete_console fd iov out;
  directory_error fd out.

(** A descriptor that is not a virtual file's. *)
Definition read_host (fd : Z) (iov : list iovec) : M W (res Z * list (list Z)) :=
  n ← reads rd_fds_n;
  kind ← reads (rd_kind fd);
  if (fd <? n) && bool_decide (kind = kFdZip) then read_with zipos_read fd iov
  else
    match rd_os with
    | Linux | Xnu _ | Freebsd | Openbsd | Netbsd =>
        read_with (if bool_decide (length iov = 1%nat) then sys_read else sys_readv) fd iov
    | Metal => if n <=? fd then mret (Err EBADF, map iov_mem iov) else read_with sys_readv_metal fd iov
    | Windows => if n <=? fd then mret (Err EBADF, map iov_mem iov) else nt_read fd iov
    | Unknown => mret (Err (if n <=? fd then EBADF else ENOSYS), map iov_mem iov)
    end.

Definition asks_memfd : bool :=
  match rd_os with Windows | Xnu true => true | _ => false end.

Definition readv_impl (fd : Z) (iov : list iovec) (iovlen : Z) : M W (res Z * list (list Z)) :=
  if fd <? 0 then mret (Err EBADF, map iov_mem iov)
  else if iovlen <? 0 then mret (Err EINVAL, map iov_mem iov)
  else
    let iov := if bool_decide (rd_os = Linux) then iov else clamped iov in
    if asks_memfd then
      r ← rd_memfd fd (map (fun v => Z.to_nat (iov_len v)) iov);
      match r with
      | Some r => mret (deliver (match r with Ok out => Ok (concat out) | Err e => Err e end) iov)
      | None => read_host fd iov
      end
    else read_host fd iov.

(** The re-arm hook at both exits. *)
Definition wants_rearm (r : res Z) : bool :=
  match r with Ok n => 0 <? n | Err e => bool_decide (e = EAGAIN) end.

Definition read_exit (fd : Z) (out : res Z * list (list Z)) : M W (res Z * list (list Z)) :=
  _ ← (if wants_rearm (fst out)
       then modifies (fun w => let '(sets, kicks) := rearm_in use_syscalls fd (rd_sets w) in
                               rd_put_sets sets kicks w)
       else mret tt);
  mret out.

(** [None] is a NULL buffer. *)
Definition shim_read (fd : Z) (buf : option (list Z)) (size : Z) : M W (res Z * list (list Z)) :=
  let size := Z.min size READ_MAX in
  out ← (match buf with
         | None => if negb (size =? 0) then mret (Err EFAULT, []) else readv_impl fd [Iov [] 0] 1
         | Some b => readv_impl fd [Iov b size] 1
         end);
  read_exit fd out.

Definition shim_readv (fd : Z) (iov : list iovec) (iovcnt : Z) : M W (res Z * list (list Z)) :=
  out ← readv_impl fd iov iovcnt; read_exit fd out.
End read.

(** ** Stores stay where they are aimed *)

Lemma length_put off data b : (off + length data <= length b)%nat -> length (put off data b) = length b.
Proof. intros Hb. unfold put. rewrite !length_app, length_take, length_drop. lia. Qed.

Lemma take_put off data b : (off + length data <= length b)%nat ->
  take (off + length data) (put off data b) = take off b ++ data.
Proof.
  intros Hb. unfold put. rewrite app_assoc, take_app_le by (rewrite length_app, length_take; lia).
  apply take_ge. rewrite length_app, length_take. lia.
Qed.

Lemma drop_put k off data b : (off + length data <= k)%nat -> (off + length data <= length b)%nat ->
  drop k (put off data b) = drop k b.
Proof.
  intros Hk Hb. unfold put. rewrite app_assoc, drop_app_ge by (rewrite length_app, length_take; lia).
  rewrite length_app, length_take, drop_drop. f_equal. lia.
Qed.

Lemma put_split p q data r : length q = length data -> put (length p) data (p ++ q ++ r) = p ++ data ++ r.
Proof.
  intros Hq. unfold put. rewrite take_app_length, (app_assoc p q r), <- Hq, <- length_app.
  by rewrite drop_app_length.
Qed.

Lemma put_over data b : (length data <= length b)%nat -> put 0 data b = data ++ drop (length data) b.
Proof. done. Qed.

(** The four moves put the markers around the text and lose nothing. *)
Lemma put_markers_spec text rest gap tl : length gap = 12%nat ->
  put_markers (length text) (length text + length rest) (text ++ rest ++ gap ++ tl) =
  PASTE_START ++ text ++ PASTE_END ++ rest ++ tl.
Proof.
  intros Hg. unfold put_markers, memmove. rewrite drop_0.
  assert (Hmoved : take (length text + length rest) (text ++ rest ++ gap ++ tl) = text ++ rest).
  { rewrite app_assoc, <- length_app. apply take_app_length. }
  rewrite Hmoved. set (b := text ++ rest ++ gap ++ tl).
  assert (Hlb : length b = (length text + length rest + 12 + length tl)%nat) by (unfold b; rewrite !length_app; lia).
  assert (H1 : put 6 (text ++ rest) b = take 6 b ++ text ++ rest ++ drop 6 gap ++ tl).
  { unfold put. rewrite length_app, <- !app_assoc. do 3 f_equal. unfold b. rewrite (app_assoc text rest).
    rewrite drop_app_ge by (rewrite length_app; lia). rewrite length_app, drop_app_le by lia. do 2 f_equal. lia. }
  rewrite H1.
  assert (H2 : put 0 PASTE_START (take 6 b ++ text ++ rest ++ drop 6 gap ++ tl) =
               PASTE_START ++ text ++ rest ++ drop 6 gap ++ tl).
  { apply (put_split [] (take 6 b) PASTE_START). rewrite length_take. change (length PASTE_START) with 6%nat. lia. }
  rewrite H2. set (x := rest ++ drop 6 gap ++ tl).
  assert (Hx : length x = (length rest + 6 + length tl)%nat) by (unfold x; rewrite !length_app, length_drop; lia).
  replace (length text + length rest - length text)%nat with (length rest) by lia.
  assert (Hsrc : drop (6 + length text) (PASTE_START ++ text ++ x) = x).
  { rewrite app_assoc. change (6 + length text)%nat with (length PASTE_START + length text)%nat.
    rewrite <- length_app. apply drop_app_length. }
  rewrite Hsrc. replace (take (length rest) x) with rest by (unfold x; by rewrite take_app_length).
  assert (Hx2 : x = take 6 x ++ take (length rest) (drop 6 x) ++ tl).
  { rewrite <- (take_drop 6 x) at 1. f_equal. rewrite <- (take_drop (length rest) (drop 6 x)) at 1. f_equal.
    rewrite drop_drop. unfold x. rewrite app_assoc, drop_app_ge by (rewrite length_app, length_drop; lia).
    rewrite length_app, length_drop. replace (_ - _)%nat with 0%nat by lia. apply drop_0. }
  assert (H3 : put (6 + length text + 6) rest (PASTE_START ++ text ++ x) =
               (PASTE_START ++ text ++ take 6 x) ++ rest ++ tl).
  { rewrite Hx2 at 1. rewrite (app_assoc text), (app_assoc PASTE_START).
    rewrite <- (put_split (PASTE_START ++ text ++ take 6 x) (take (length rest) (drop 6 x)) rest tl)
      by (rewrite length_take, length_drop; lia).
    f_equal. rewrite !length_app, length_take. change (length PASTE_START) with 6%nat. lia. }
  rewrite H3. rewrite <- !app_assoc, (app_assoc PASTE_START text).
  change (6 + length text)%nat with (length PASTE_START + length text)%nat. rewrite <- length_app.
  rewrite put_split by (rewrite length_take; change (length PASTE_END) with 6%nat; lia). by rewrite <- !app_assoc.
Qed.

(** ** The escape test against a terminal's own automaton *)

(** What a terminal's parser is in the middle of. ESC starts afresh anywhere. *)
Inductive escape := Ground | Escape | Csi | Ss3 | Osc.

Definition grounded (s : escape) : bool := match s with Ground => true | _ => false end.

Definition escape_step (s : escape) (c : Z) : escape :=
  if c =? 0x1b then Escape
  else
    match s with
    | Ground | Ss3 => Ground
    | Escape => if c =? 91 then Csi else if c =? 79 then Ss3 else if c =? 93 then Osc else Ground
    | Csi => if (0x40 <=? c) && (c <=? 0x7e) then Ground else Csi
    | Osc => if c =? 7 then Ground else Osc
    end.

Definition escape_state (b : list Z) : escape := foldl escape_step Ground b.

Definition no_esc (b : list Z) : Prop := Forall (fun c => c <> 0x1b) b.

Lemma byte_at_app_r p b i : byte_at (p ++ b) (length p + i) = byte_at b i.
Proof. unfold byte_at. rewrite app_nth2 by lia. f_equal. lia. Qed.

Lemma byte_at_app_l p b i : (i < length p)%nat -> byte_at (p ++ b) i = byte_at p i.
Proof. intros. unfold byte_at. by apply app_nth1. Qed.

Lemma esc_end_none b i : no_esc (take i b) -> (i <= length b)%nat -> esc_end b i = 0%nat.
Proof.
  induction i as [|i IH]; intros Hb Hi; [done|]. cbn [esc_end].
  destruct (lookup_lt_is_Some_2 b i) as [c Hc]; [lia|].
  unfold no_esc in *. rewrite (take_S_r _ _ _ Hc) in Hb. apply Forall_app in Hb as [Hb Hc1].
  apply Forall_inv in Hc1. unfold byte_at. rewrite (nth_lookup_Some _ _ _ _ Hc).
  replace (c =? 27) with false by (symmetry; apply Z.eqb_neq; exact Hc1). apply IH; [done|lia].
Qed.

Lemma esc_end_app p b i : (i <= length p)%nat -> esc_end (p ++ b) i = esc_end p i.
Proof.
  induction i as [|i IH]; intros Hi; [done|]. cbn [esc_end]. rewrite byte_at_app_l by lia. by rewrite IH by lia.
Qed.

Lemma esc_end_last p tl : no_esc tl -> esc_end (p ++ 0x1b :: tl) (length p + 1 + length tl) = (length p + 1)%nat.
Proof.
  induction tl as [|c tl IH] using rev_ind; intros Ht.
  - replace (length p + 1 + length [])%nat with (S (length p + 0)) by (cbn; lia). cbn [esc_end].
    rewrite byte_at_app_r. cbn. lia.
  - apply Forall_app in Ht as [Ht Hc]. apply Forall_inv in Hc.
    replace (length p + 1 + _)%nat with (S (length p + S (length tl))) by (rewrite length_app; cbn; lia). cbn [esc_end].
    rewrite byte_at_app_r. replace (byte_at (27 :: tl ++ [c]) (S (length tl))) with c.
    2:{ unfold byte_at. cbn [nth]. rewrite app_nth2 by lia. by rewrite Nat.sub_diag. }
    rewrite (proj2 (Z.eqb_neq _ _) Hc). rewrite app_comm_cons, app_assoc, esc_end_app by (rewrite length_app; cbn; lia).
    rewrite <- IH by done. f_equal. lia.
Qed.

(** Every buffer is free of ESC, or splits at its last one. *)
Lemma last_esc b : no_esc b \/ exists p tl, b = p ++ 0x1b :: tl /\ no_esc tl.
Proof.
  induction b as [|c b IH]; [by left; constructor|].
  destruct IH as [Hb|(p & tl & -> & Ht)]; [|right; by exists (c :: p), tl].
  destruct (decide (c = 0x1b)) as [->|Hc]; [right; by exists [], b|left; by constructor].
Qed.

Lemma escape_ground b : no_esc b -> foldl escape_step Ground b = Ground.
Proof.
  induction 1 as [|c b Hc _ IH]; [done|]. cbn [foldl]. unfold escape_step at 2.
  by rewrite (proj2 (Z.eqb_neq _ _) Hc).
Qed.

Lemma escape_csi b : no_esc b -> foldl escape_step Csi b =
  if existsb (fun x => (0x40 <=? x) && (x <=? 0x7e)) b then Ground else Csi.
Proof.
  induction 1 as [|c b Hc Hb IH]; [done|]. cbn [foldl existsb]. unfold escape_step at 2.
  rewrite (proj2 (Z.eqb_neq _ _) Hc). destruct ((0x40 <=? c) && (c <=? 0x7e)); [by apply escape_ground|done].
Qed.

Lemma escape_osc b : no_esc b -> foldl escape_step Osc b = if existsb (fun x => x =? 7) b then Ground else Osc.
Proof.
  induction 1 as [|c b Hc Hb IH]; [done|]. cbn [foldl existsb]. unfold escape_step at 2.
  rewrite (proj2 (Z.eqb_neq _ _) Hc). destruct (c =? 7); [by apply escape_ground|done].
Qed.

(** The test for a buffer that ends inside an escape sequence, which looks
    back for the last ESC and inspects what follows, agrees on every buffer
    with running a terminal's parser over it: it answers yes exactly when
    the parser is not back in its ground state. *)
Theorem ends_inside_escape_exact b :
  EndsInsideEscape b = negb (grounded (escape_state b)).
Proof.
  unfold EndsInsideEscape, escape_state. destruct (last_esc b) as [Hb|(p & tl & -> & Ht)].
  { rewrite (escape_ground b Hb), esc_end_none by (rewrite ?take_ge; done || lia). done. }
  rewrite length_app. cbn [length]. replace (length p + S (length tl))%nat with (length p + 1 + length tl)%nat by lia.
  rewrite (esc_end_last p tl Ht), foldl_app. cbn [foldl].
  replace (length p + 1 =? 0)%nat with false by (symmetry; apply Nat.eqb_neq; lia).
  replace (length p + 1 + length tl - (length p + 1))%nat with (length tl) by lia.
  change (escape_step (foldl escape_step Ground p) 27) with Escape.
  destruct tl as [|c tl]; [done|]. cbn [length Nat.eqb foldl].
  rewrite byte_at_app_r. cbn [byte_at nth]. apply Forall_cons in Ht as [Hc Ht].
  replace (drop (length p + 1 + 1) (p ++ 27 :: c :: tl)) with tl.
  2:{ rewrite <- Nat.add_assoc, drop_app_ge by lia. by replace (_ - _)%nat with 2%nat by lia. }
  unfold escape_step at 2. rewrite (proj2 (Z.eqb_neq _ _) Hc).
  destruct (c =? 91); [rewrite escape_csi by done; by destruct (existsb _ tl)|].
  destruct (c =? 79).
  { destruct tl as [|d tl]; [done|]. apply Forall_cons in Ht as [Hd Ht]. cbn [length foldl]. unfold escape_step at 2.
    rewrite (proj2 (Z.eqb_neq _ _) Hd). by rewrite escape_ground. }
  destruct (c =? 93); [rewrite escape_osc by done; by destruct (existsb _ tl)|].
  by rewrite escape_ground.
Qed.

(** ** Bounds of a request *)

Definition lens_ok (iov : list iovec) : Prop := Forall (fun v => 0 <= iov_len v < 2 ^ 64) iov.

Lemma iov_sum_nonneg iov : lens_ok iov -> 0 <= iov_sum iov.
Proof. induction 1; cbn [iov_sum foldr]; [lia|]. unfold iov_sum in *. lia. Qed.

Lemma sum_saturates iov count : lens_ok iov -> 0 <= count <= SIZE_MAX ->
  foldl (fun count v => if 2 ^ 64 <=? count + iov_len v then SIZE_MAX else count + iov_len v) count iov =
  Z.min (count + iov_sum iov) SIZE_MAX.
Proof.
  intros Hl. revert count. induction Hl as [|v iov Hv Hl IH]; intros count Hc; cbn [foldl iov_sum foldr]; [lia|].
  pose proof (iov_sum_nonneg iov Hl) as Hn. fold (iov_sum iov).
  assert (HM : SIZE_MAX = 2 ^ 64 - 1) by done.
  rewrite IH by (destruct (_ <=? _) eqn:E; lia). destruct (_ <=? _) eqn:E; lia.
Qed.

Lemma clamp_iov_sum iov remain : lens_ok iov -> 0 <= remain -> iov_sum (clamp_iov remain iov) = Z.min (iov_sum iov) remain.
Proof.
  intros Hl. revert remain. induction Hl as [|v iov Hv Hl IH]; intros remain Hr; cbn [clamp_iov iov_sum foldr]; [lia|].
  pose proof (iov_sum_nonneg iov Hl) as Hn. fold (iov_sum iov).
  destruct (iov_len v <=? remain) eqn:E; cbn [iov_sum foldr iov_len];
    [fold (iov_sum (clamp_iov (remain - iov_len v) iov))|fold (iov_sum (clamp_iov 0 iov))]; rewrite IH by lia; lia.
Qed.

(** The same buffers, none longer than before. *)
Definition shortened (iov iov' : list iovec) : Prop :=
  Forall2 (fun v v' => iov_mem v' = iov_mem v /\ 0 <= iov_len v' <= iov_len v) iov iov'.

Lemma shortened_refl iov : lens_ok iov -> shortened iov iov.
Proof. induction 1; constructor; [split; [done|lia]|done]. Qed.

Lemma clamp_shortened iov remain : lens_ok iov -> 0 <= remain -> shortened iov (clamp_iov remain iov).
Proof.
  intros Hl. revert remain. induction Hl as [|v iov Hv Hl IH]; intros remain Hr; cbn [clamp_iov]; [constructor|].
  destruct (iov_len v <=? remain) eqn:E; constructor; [split; [done|lia]|apply IH; lia|split; [done|cbn; lia]|apply IH; lia].
Qed.

Lemma clamped_spec iov : lens_ok iov -> iov_sum (clamped iov) = Z.min (iov_sum iov) READ_MAX /\ shortened iov (clamped iov).
Proof.
  intros Hl. unfold clamped, SumIovecBytes. rewrite sum_saturates by (done || (unfold SIZE_MAX; lia)).
  assert (HR : READ_MAX < SIZE_MAX) by (by vm_compute).
  assert (0 <= READ_MAX) by (by vm_compute).
  destruct (READ_MAX <? _) eqn:E; [split; [by apply clamp_iov_sum|by apply clamp_shortened]|].
  split; [lia|by apply shortened_refl].
Qed.

(** ** What the host promises *)

(** Every byte a descriptor ever handed out, in order; the calls besides the
    readers hand out none, and none of them changes the console's modes as
    the shim tracks them. *)
Class ReadLedger (W : Type) `{ReadHost W} `{ConsoleHost W} := {
  rd_log : W -> Z -> list Z;
  rd_call_log k fd lens w :
    let '(r, w') := rd_call k fd lens w in
    rd_console w' = rd_console w /\
    match r with
    | Ok d => Z.of_nat (length d) <= Z.max 0 (foldr Z.add 0 lens) /\ rd_log w' fd = rd_log w fd ++ d
    | Err _ => rd_log w' fd = rd_log w fd
    end;
  rd_memfd_log fd lens w :
    post (rd_memfd fd lens) w (fun r w' =>
      match r with
      | Some (Ok out) => (length (concat out) <= list_sum lens)%nat
      | Some (Err _) => True
      | None => rd_log w' = rd_log w /\ rd_console w' = rd_console w
      end);
  rd_poll_log fd ms w : let w' := snd (rd_poll fd ms w) in rd_log w' = rd_log w /\ rd_console w' = rd_console w;
  rd_count_log w : let w' := snd (CountConsoleInputBytes w) in rd_log w' = rd_log w /\ rd_console w' = rd_console w;
  rd_fstat_log fd w : rd_log (snd (rd_fstat_dir fd w)) = rd_log w;
  rd_mode_log m w : rd_log (SetConsoleMode m w) = rd_log w;
  rd_put_console_log c w : rd_log (rd_put_console c w) = rd_log w /\ rd_console (rd_put_console c w) = c;
  rd_put_sets_log sets kicks w : rd_log (rd_put_sets sets kicks w) = rd_log w }.

Section reads.
Context {W : Type} `{RH : ReadHost W} `{CH : ConsoleHost W} `{!ReadLedger W}.

(** [data] was taken from [fd] on the way from [w] to [w']. *)
Definition took (fd : Z) (w : W) (data : list Z) (w' : W) : Prop :=
  rd_log w' fd = rd_log w fd ++ data /\ rd_console w' = rd_console w.

Lemma took_nothing fd w w' : rd_log w' = rd_log w /\ rd_console w' = rd_console w -> took fd w [] w'.
Proof. intros [Hl Hc]. split; [|done]. by rewrite Hl, app_nil_r. Qed.

Lemma took_trans fd w d1 w1 d2 w2 : took fd w d1 w1 -> took fd w1 d2 w2 -> took fd w (d1 ++ d2) w2.
Proof. intros [Hl1 Hc1] [Hl2 Hc2]. split; [|congruence]. by rewrite Hl2, Hl1, app_assoc. Qed.

(** The buffer [b] became [b'], with [data] appended at [n], inside [cap]. *)
Definition grown (cap n : nat) (data b b' : list Z) : Prop :=
  (n + length data <= cap)%nat /\ take (n + length data) b' = take n b ++ data /\
  length b' = length b /\ drop cap b' = drop cap b.

Lemma grown_nil cap n b : (n <= cap)%nat -> grown cap n [] b b.
Proof. intros. unfold grown. rewrite Nat.add_0_r, app_nil_r. by split_and!. Qed.

Lemma grown_put cap n d b : (n + length d <= cap <= length b)%nat -> grown cap n d b (put n d b).
Proof.
  intros Hb. split; [lia|]. split; [by apply take_put; lia|].
  split; [by apply length_put; lia|by apply drop_put; lia].
Qed.

Lemma grown_trans cap n d1 d2 b b1 b2 :
  grown cap n d1 b b1 -> grown cap (n + length d1) d2 b1 b2 -> grown cap n (d1 ++ d2) b b2.
Proof.
  intros (_ & Ht1 & Hl1 & Hd1) (Hc2 & Ht2 & Hl2 & Hd2). unfold grown. rewrite length_app, Nat.add_assoc.
  split_and!; [done|by rewrite Ht2, Ht1, app_assoc|congruence..].
Qed.

Lemma nt_more_post fd room w (Q : list Z -> W -> Prop) :
  (forall d w', (length d <= room)%nat -> took fd w d w' -> Q d w') -> post (nt_more fd room) w Q.
Proof.
  intros HQ. unfold nt_more. apply post_bind, post_step.
  pose proof (rd_call_log sys_readv_nt fd [Z.of_nat room] w) as Hc.
  destruct (rd_call _ _ _ _) as [r w1]. destruct Hc as [Hk Hr]. apply post_ret, HQ.
  - destruct r; cbn [foldr length] in *; lia.
  - destruct r as [d|e]; [by destruct Hr|]. split; [by rewrite app_nil_r|done].
Qed.

Lemma coalesce_post fuel fd cap b n w (Q : list Z * nat -> W -> Prop) :
  (n <= cap <= length b)%nat -> (ESC_COALESCE_MAX - n <= fuel)%nat ->
  (forall b' d w', took fd w d w' -> grown cap n d b b' -> Q (b', n + length d)%nat w') ->
  post (CoalesceConsoleEscape fuel fd b cap n) w Q.
Proof.
  assert (Hstop : forall b n w (Q : list Z * nat -> W -> Prop), (n <= cap)%nat ->
    (forall b' d w', took fd w d w' -> grown cap n d b b' -> Q (b', n + length d)%nat w') -> forall w1,
    took fd w [] w1 -> Q (b, n) w1).
  { intros b0 n0 w0 Q0 Hn HQ w1 Ht. replace n0 with (n0 + length (@nil Z))%nat at 1 by (cbn; lia).
    apply HQ; [done|by apply grown_nil]. }
  revert b n w Q. induction fuel as [|fuel IH]; intros b n w Q Hn Hf HQ; cbn [CoalesceConsoleEscape];
    (destruct (_ && _) eqn:Eg; [|apply post_ret, (Hstop b n w); [lia|done|by apply took_nothing]]).
  { exfalso. apply andb_prop in Eg as [Eg _]. apply andb_prop in Eg as [_ Eg]. apply Nat.ltb_lt in Eg. lia. }
  apply post_bind, post_step. pose proof (rd_poll_log fd ESC_COALESCE_MS w) as Hp.
  destruct (rd_poll _ _ _) as [[r revents] w1]. cbn [snd] in Hp. apply (took_nothing fd) in Hp.
  destruct (_ || _); [by apply post_ret, (Hstop b n w); [lia|..]|].
  apply post_bind, nt_more_post. intros d w2 Hd Ht2. pose proof (took_trans _ _ _ _ _ _ Hp Ht2) as Ht.
  case_bool_decide as Ed; [subst d; by apply post_ret, (Hstop b n w); [lia|..]|].
  assert (length d <> 0%nat) by (by destruct d).
  apply IH; [rewrite length_put; lia|lia|]. intros b' d' w' Ht' Hg.
  rewrite <- Nat.add_assoc, <- length_app. apply HQ; [by apply (took_trans fd w d w2)|].
  by apply (grown_trans cap n d d' b (put n d b)); [apply grown_put; lia|].
Qed.

Definition is_break (c : Z) : bool := (c =? 13) || (c =? 10).
Definition is_plain (c : Z) : bool := (c =? 9) || ((0x20 <=? c) && negb (c =? 0x7f)).
Definition paste_byte (c : Z) : bool := is_break c || is_plain c.

Lemma paste_text_spec d br tx :
  fst (IsPasteText d br tx) = forallb paste_byte d /\
  (fst (snd (IsPasteText d br tx)) = true -> br = true \/ existsb is_break d = true) /\
  (snd (snd (IsPasteText d br tx)) = true -> tx = true \/ existsb is_plain d = true).
Proof.
  revert br tx. induction d as [|c d IH]; intros br tx; [cbn; auto|].
  cbn [IsPasteText forallb existsb]. unfold paste_byte at 1. fold (is_break c). fold (is_plain c).
  destruct (is_break c) eqn:Eb.
  { destruct (IH true tx) as (H1 & H2 & H3). split_and!; [by rewrite H1|by right|].
    intros Hs. destruct (H3 Hs) as [?|E]; [by left|right]. by rewrite E, orb_true_r. }
  destruct (is_plain c) eqn:Ep; [|cbn; auto].
  destruct (IH br true) as (H1 & H2 & H3). split_and!; [by rewrite H1| |by right].
  intros Hs. destruct (H2 Hs) as [?|E]; [by left|by right].
Qed.

(** What a gathered burst is: [text] is plain and [rest], when there is any,
    is the read that was not; the flags tell of the bytes seen. *)
Definition burst_of (cap : nat) (b : list Z) (text rest : list Z) (u : burst) : Prop :=
  bu_n u = length text /\ bu_end u = (length text + length rest)%nat /\ (bu_end u + 12 <= cap)%nat /\
  take (bu_end u) (bu_mem u) = text ++ rest /\ length (bu_mem u) = length b /\ drop cap (bu_mem u) = drop cap b /\
  forallb paste_byte text = true /\ (rest = [] \/ forallb paste_byte rest = false) /\
  (bu_break u = true -> existsb is_break (text ++ rest) = true) /\
  (bu_text u = true -> existsb is_plain (text ++ rest) = true).

Lemma burst_grows cap b text d u :
  burst_of cap b text [] u -> (cap <= length b)%nat -> (0 < length d <= cap - 12 - bu_end u)%nat ->
  let '(ok, (br, tx)) := IsPasteText d (bu_break u) (bu_text u) in
  let e := (bu_end u + length d)%nat in
  if ok : bool
  then burst_of cap b (text ++ d) [] (Burst (put (bu_end u) d (bu_mem u)) e e br tx)
  else burst_of cap b text d (Burst (put (bu_end u) d (bu_mem u)) (bu_n u) e br tx).
Proof.
  intros (Hn & He & Hc & Ht & Hl & Hd & Hp & _ & Hbr & Htx) Hb Hlen.
  cbn [length] in He. rewrite Nat.add_0_r in He. rewrite app_nil_r in Ht, Hbr, Htx.
  pose proof (paste_text_spec d (bu_break u) (bu_text u)) as Hs.
  destruct (IsPasteText d (bu_break u) (bu_text u)) as [ok [br tx]]. cbn [fst snd] in Hs. destruct Hs as (Hok & Hb1 & Ht1).
  assert (Hbr' : br = true -> existsb is_break (text ++ d) = true).
  { intros E. rewrite existsb_app. destruct (Hb1 E) as [E'|E']; [by rewrite (Hbr E')|by rewrite E', orb_true_r]. }
  assert (Htx' : tx = true -> existsb is_plain (text ++ d) = true).
  { intros E. rewrite existsb_app. destruct (Ht1 E) as [E'|E']; [by rewrite (Htx E')|by rewrite E', orb_true_r]. }
  assert (Htake : take (bu_end u + length d) (put (bu_end u) d (bu_mem u)) = text ++ d)
    by (rewrite take_put by lia; by rewrite Ht).
  assert (Hlp : length (put (bu_end u) d (bu_mem u)) = length b) by (rewrite length_put; lia).
  assert (Hdp : drop cap (put (bu_end u) d (bu_mem u)) = drop cap b) by (rewrite drop_put by lia; done).
  destruct ok; unfold burst_of; cbn [bu_n bu_end bu_mem bu_break bu_text length].
  - rewrite !app_nil_r, length_app, Nat.add_0_r.
    split_and!; try done; [lia..|by rewrite forallb_app, Hp, <- Hok|by left].
  - split_and!; try done; [lia..|by right].
Qed.

Lemma gather_post fuel fd cap b text u w (Q : burst -> W -> Prop) :
  burst_of cap b text [] u -> (cap <= length b)%nat -> (cap - bu_end u <= fuel)%nat ->
  (forall more rest u' w', took fd w (more ++ rest) w' -> burst_of cap b (text ++ more) rest u' -> Q u' w') ->
  post (gather fuel fd cap u) w Q.
Proof.
  assert (Hstop : forall text u w (Q : burst -> W -> Prop) w1, burst_of cap b text [] u ->
    (forall more rest u' w', took fd w (more ++ rest) w' -> burst_of cap b (text ++ more) rest u' -> Q u' w') ->
    took fd w [] w1 -> Q u w1).
  { intros t0 u0 w0 Q0 w1 Hu HQ Ht. apply (HQ [] []); [done|by rewrite app_nil_r]. }
  revert text u w Q. induction fuel as [|fuel IH]; intros text u w Q Hu Hb Hf HQ; cbn [gather].
  { assert (E : (bu_end u + 12 <? cap)%nat = false) by (apply Nat.ltb_ge; lia). rewrite E.
    apply post_ret, (Hstop text u w); [done..|by apply took_nothing]. }
  destruct (negb _) eqn:Er; [apply post_ret, (Hstop text u w); [done..|by apply took_nothing]|].
  apply negb_false_iff, Nat.ltb_lt in Er.
  apply post_bind, post_step. pose proof (rd_count_log w) as Hq.
  destruct (CountConsoleInputBytes w) as [queued w1]. cbn [snd] in Hq. apply (took_nothing fd) in Hq.
  destruct (negb _); [by apply post_ret, (Hstop text u w)|].
  apply post_bind, nt_more_post. intros d w2 Hd Ht2. pose proof (took_trans _ _ _ _ _ _ Hq Ht2) as Ht.
  case_bool_decide as Ed; [subst d; by apply post_ret, (Hstop text u w)|].
  assert (Hd0 : length d <> 0%nat) by (by destruct d).
  pose proof (burst_grows cap b text d u Hu Hb) as Hg. specialize (Hg ltac:(lia)).
  destruct (IsPasteText d _ _) as [ok [br tx]]. destruct ok.
  - apply (IH (text ++ d)); [done|done|cbn [bu_end]; lia|]. intros more rest u' w' Ht' Hu'.
    apply (HQ (d ++ more) rest); [rewrite <- app_assoc; by apply (took_trans fd w d w2)|by rewrite app_assoc].
  - apply post_ret, (HQ [] d); [done|by rewrite app_nil_r].
Qed.

(** What the program finds at the front of its buffer: the bytes as they
    came, or with the markers around a plain text of at least three bytes
    that, with what follows it, holds a line break. *)
Definition handed (data out : list Z) : Prop :=
  out = data \/
  exists text rest, data = text ++ rest /\ out = PASTE_START ++ text ++ PASTE_END ++ rest /\
    forallb paste_byte text = true /\ (rest = [] \/ forallb paste_byte rest = false) /\
    (3 <= length text)%nat /\ existsb is_break data = true /\ existsb is_plain data = true.

Lemma wrapped_mem cap b text rest u : burst_of cap b text rest u -> (cap <= length b)%nat ->
  let b' := put_markers (bu_n u) (bu_end u) (bu_mem u) in
  take (bu_end u + 12) b' = PASTE_START ++ text ++ PASTE_END ++ rest /\ length b' = length b /\ drop cap b' = drop cap b.
Proof.
  intros (Hn & He & Hc & Ht & Hl & Hd & _) Hb. cbn zeta.
  set (gap := take 12 (drop (bu_end u) (bu_mem u))). set (tl := drop (bu_end u + 12) (bu_mem u)).
  assert (Hg : length gap = 12%nat) by (unfold gap; rewrite length_take, length_drop; lia).
  assert (Hm : bu_mem u = text ++ rest ++ gap ++ tl).
  { rewrite <- (take_drop (bu_end u) (bu_mem u)) at 1. rewrite Ht, <- app_assoc. do 2 f_equal.
    unfold gap, tl. by rewrite <- (take_drop 12 (drop _ _)) at 1; rewrite drop_drop. }
  rewrite Hm, Hn, He, (put_markers_spec text rest gap tl Hg).
  set (out := PASTE_START ++ text ++ PASTE_END ++ rest).
  replace (PASTE_START ++ text ++ PASTE_END ++ rest ++ tl) with (out ++ tl)
    by (unfold out; by rewrite <- !app_assoc).
  assert (Ho : length out = (length text + length rest + 12)%nat).
  { unfold out. rewrite !length_app. change (length PASTE_START) with 6%nat. change (length PASTE_END) with 6%nat. lia. }
  rewrite <- Ho. split; [by apply take_app_length|].
  split; [rewrite <- Hl, Hm, !length_app, Ho, Hg; lia|].
  rewrite (drop_app_ge out tl cap) by lia. rewrite Ho, <- Hd. unfold tl. rewrite drop_drop. f_equal. lia.
Qed.

(** The same memory outside of [cap], and [n] bytes of it handed out. *)
Definition filled (cap : nat) (b : list Z) (data : list Z) (b' : list Z) (n : nat) : Prop :=
  (n <= cap)%nat /\ handed data (take n b') /\ length b' = length b /\ drop cap b' = drop cap b.

Lemma wrap_post fd cap b n w (Q : list Z * nat -> W -> Prop) :
  (n <= cap <= length b)%nat ->
  (forall b' n' more w', took fd w more w' -> filled cap b (take n b ++ more) b' n' ->
    (bracketed (rd_console w) = false -> b' = b /\ n' = n /\ more = []) -> Q (b', n') w') ->
  post (WrapConsolePaste cap fd b cap n) w Q.
Proof.
  intros Hn HQ. unfold WrapConsolePaste. apply post_bind, post_reads, post_bind, post_reads.
  pose proof (paste_text_spec (take n b) false false) as Hs.
  destruct (IsPasteText (take n b) false false) as [ok [br tx]]. cbn [fst snd] in Hs. destruct Hs as (Hok & Hb1 & Ht1).
  destruct (_ || _) eqn:Eg.
  { apply post_ret, (HQ b n []); [by apply took_nothing| |done].
    rewrite app_nil_r. split; [lia|]. split_and!; [by left|done..]. }
  apply orb_false_elim in Eg as [Eg E4]. apply orb_false_elim in Eg as [Eg E3].
  apply orb_false_elim in Eg as [E1 _]. apply negb_false_iff in E1, E4. apply Nat.ltb_ge in E3. subst ok.
  assert (Hl : length (take n b) = n) by (rewrite length_take; lia).
  apply post_bind, (gather_post cap fd cap b (take n b)); [|lia|cbn; lia|].
  { unfold burst_of. cbn [bu_n bu_end bu_mem bu_break bu_text length]. rewrite Hl, app_nil_r, Nat.add_0_r.
    split_and!; try done; [by left| |].
    - intros E. by destruct (Hb1 E).
    - intros E. by destruct (Ht1 E). }
  intros more rest u' w' Ht Hu. destruct (_ || _) eqn:Es.
  - destruct Hu as (_ & He & Hc & Htk & Hl' & Hd' & _).
    apply post_ret, (HQ _ _ (more ++ rest)); [done| |congruence].
    rewrite app_assoc. split; [lia|]. split_and!; [by left|done..].
  - apply orb_false_elim in Es as [Es S3]. apply orb_false_elim in Es as [S1 S2].
    apply negb_false_iff in S2, S3. apply Nat.ltb_ge in S1.
    destruct (wrapped_mem _ _ _ _ _ Hu) as (Htk & Hl' & Hd'); [lia|].
    destruct Hu as (Hun & He & Hc & _ & _ & _ & Hp & Hr & Hbr & Htx).
    apply post_ret, (HQ _ _ (more ++ rest)); [done| |congruence].
    split; [lia|]. split; [|done]. right. exists (take n b ++ more), rest.
    rewrite (app_assoc _ more). split_and!; try done; [by rewrite <- Hun|by apply Hbr|by apply Htx].
Qed.

(** ** The whole call *)

(** Each buffer keeps its size and everything behind its iov_len. *)
Definition intact (iov : list iovec) (mems : list (list Z)) : Prop :=
  Forall2 (fun v m => length m = length (iov_mem v) /\
                      drop (Z.to_nat (iov_len v)) m = drop (Z.to_nat (iov_len v)) (iov_mem v)) iov mems.

(** The program owns the memory it passes. *)
Definition owned (iov : list iovec) : Prop :=
  Forall (fun v => 0 <= iov_len v /\ iov_len v < 2 ^ 64 /\ iov_len v <= Z.of_nat (length (iov_mem v))) iov.

Definition out_ok (iov : list iovec) (out : res Z * list (list Z)) : Prop :=
  match fst out with Ok n => 0 <= n <= iov_sum iov | Err _ => snd out = map iov_mem iov end /\ intact iov (snd out).

Lemma owned_lens iov : owned iov -> lens_ok iov.
Proof. unfold owned, lens_ok. intros Ho. eapply Forall_impl; [exact Ho|]. cbn beta. lia. Qed.

Lemma intact_refl iov : intact iov (map iov_mem iov).
Proof. induction iov; constructor; [done|done]. Qed.

Lemma scatter_intact d iov : owned iov -> intact iov (scatter d iov).
Proof.
  intros Ho. revert d. induction Ho as [|v iov Hv Ho IH]; intros d; cbn [scatter]; constructor; [|apply IH].
  assert (Hk : length (take (Nat.min (length d) (Z.to_nat (iov_len v))) d) = Nat.min (length d) (Z.to_nat (iov_len v)))
    by (rewrite length_take; lia).
  split; [apply length_put|apply drop_put]; rewrite Hk; lia.
Qed.

Lemma shortened_mems iov iov' : shortened iov iov' -> map iov_mem iov' = map iov_mem iov.
Proof. induction 1 as [|v v' iov iov' [Hm _] _ IH]; [done|]. cbn [map]. by rewrite IH, Hm. Qed.

Lemma shortened_owned iov iov' : shortened iov iov' -> owned iov -> owned iov'.
Proof.
  induction 1 as [|v v' iov iov' [Hm Hl] _ IH]; intros Ho; [constructor|].
  apply Forall_cons in Ho as [Hv Ho]. constructor; [rewrite Hm; lia|by apply IH].
Qed.

Lemma shortened_intact iov iov' mems : shortened iov iov' -> intact iov' mems -> intact iov mems.
Proof.
  intros Hs. revert mems. induction Hs as [|v v' iov iov' [Hm Hl] _ IH]; intros mems Hi; inversion Hi as [|? m ? ms [H1 H2] Hi']; subst; constructor.
  - rewrite Hm in H1, H2. split; [done|].
    replace (Z.to_nat (iov_len v)) with (Z.to_nat (iov_len v') + (Z.to_nat (iov_len v) - Z.to_nat (iov_len v')))%nat by lia.
    by rewrite <- !drop_drop, H2.
  - by apply IH.
Qed.

Lemma shortened_sum iov iov' : shortened iov iov' -> iov_sum iov' <= iov_sum iov.
Proof. induction 1 as [|v v' iov iov' [_ Hl] _ IH]; cbn [iov_sum foldr]; [lia|]. unfold iov_sum in *. lia. Qed.

Lemma sum_lens iov : foldr Z.add 0 (map iov_len iov) = iov_sum iov.
Proof. induction iov as [|v iov IH]; [done|]. cbn. by rewrite IH. Qed.

Lemma deliver_ok r iov : owned iov -> (forall d, r = Ok d -> Z.of_nat (length d) <= iov_sum iov) -> out_ok iov (deliver r iov).
Proof.
  intros Ho Hr. destruct r as [d|e]; [|split; [done|apply intact_refl]].
  split; [cbn; specialize (Hr d eq_refl); lia|by apply scatter_intact].
Qed.

Lemma error_ok iov e : out_ok iov (Err e, map iov_mem iov).
Proof. split; [done|apply intact_refl]. Qed.

(** The bytes an answer stands for: an error took nothing, a read into one
    buffer hands over what was taken. *)
Definition hands_over (fd : Z) (iov : list iovec) (w : W) (out : res Z * list (list Z)) (w' : W) : Prop :=
  match fst out with
  | Err _ => rd_log w' fd = rd_log w fd
  | Ok n =>
      exists data, rd_log w' fd = rd_log w fd ++ data /\
      forall v, iov = [v] -> exists b', snd out = [b'] /\ handed data (take (Z.to_nat n) b') /\
        (bracketed (rd_console w) = false -> take (Z.to_nat n) b' = data)
  end.

Definition answers (fd : Z) (iov : list iovec) (w : W) (out : res Z * list (list Z)) (w' : W) : Prop :=
  out_ok iov out /\ hands_over fd iov w out w'.

Lemma read_with_post k fd iov w (Q : res Z * list (list Z) -> W -> Prop) :
  owned iov ->
  (forall r w', rd_console w' = rd_console w -> answers fd iov w (deliver r iov) w' ->
     (forall d, r = Ok d -> rd_log w' fd = rd_log w fd ++ d /\ Z.of_nat (length d) <= iov_sum iov) -> Q (deliver r iov) w') ->
  post (read_with k fd iov) w Q.
Proof.
  intros Ho HQ. unfold read_with. apply post_bind, post_step.
  pose proof (rd_call_log k fd (map iov_len iov) w) as Hc. destruct (rd_call _ _ _ _) as [r w1]. destruct Hc as [Hcon Hr].
  rewrite sum_lens, Z.max_r in Hr by apply iov_sum_nonneg, owned_lens, Ho.
  apply post_ret, HQ; [done| |].
  - split; [apply deliver_ok; [done|]; intros d ->; tauto|].
    destruct r as [d|e]; [|exact Hr]. destruct Hr as [Hd Hlog]. exists d. split; [done|]. intros v ->.
    cbn [iov_sum foldr] in Hd. apply Forall_inv in Ho.
    eexists. split; [reflexivity|].
    assert (E : take (Z.to_nat (Z.of_nat (length d)))
        (put 0 (take (Nat.min (length d) (Z.to_nat (iov_len v))) d) (iov_mem v)) = d).
    { rewrite Nat2Z.id. replace (Nat.min _ _) with (length d) by lia. rewrite (take_ge d) by lia.
      apply (take_put 0 d). lia. }
    rewrite E. split; [by left|done].
  - intros d ->. by destruct Hr.
Qed.

Lemma sync_bracketed c w : bracketed (fst (console_sync c w)) = bracketed c /\ rd_log (snd (console_sync c w)) = rd_log w.
Proof.
  unfold console_sync. destruct (negb _); [done|]. destruct (GetConsoleMode w); [|done].
  split; [done|]. cbn [snd]. destruct (_ =? _); [done|apply rd_mode_log].
Qed.

Lemma before_wait_keeps fd c w : bracketed (fst (console_before_wait fd c w)) = bracketed c /\
  rd_log (snd (console_before_wait fd c w)) = rd_log w.
Proof. unfold console_before_wait. destruct (_ || _); [done|apply sync_bracketed]. Qed.

Lemma directory_error_post fd iov w0 out w : answers fd iov w0 out w -> post (directory_error fd out) w (answers fd iov w0).
Proof.
  intros Ha. unfold directory_error. destruct out as [[n|e] mems]; cbn [fst snd]; [by apply post_ret|].
  destruct e; try by apply post_ret. apply post_bind, post_reads. case_bool_decide; [|by apply post_ret].
  apply post_bind, post_step. pose proof (rd_fstat_log fd w) as Hf. destruct (rd_fstat_dir fd w) as [dir w1]. cbn [snd] in Hf.
  apply post_ret. destruct Ha as [Hok Hl]. split; [exact Hok|]. unfold hands_over in *. cbn [fst] in *. by rewrite Hf.
Qed.

Lemma complete_console_post fd iov r w0 w :
  owned iov -> bracketed (rd_console w) = bracketed (rd_console w0) -> answers fd iov w0 (deliver r iov) w ->
  (forall d, r = Ok d -> rd_log w fd = rd_log w0 fd ++ d /\ Z.of_nat (length d) <= iov_sum iov) ->
  post (complete_console fd iov (deliver r iov)) w (answers fd iov w0).
Proof.
  intros Ho Hb Ha Hr. destruct r as [d|e]; [|by apply post_ret]. destruct (Hr d eq_refl) as [Hlog Hd].
  destruct iov as [|v [|v2 iov]]; [by apply post_ret| |by apply post_ret].
  cbn [deliver scatter complete_console]. apply post_bind, post_reads.
  destruct (_ && _); [|by apply post_ret]. clear Ha Hr. apply Forall_inv in Ho. cbn [iov_sum foldr] in Hd.
  replace (Nat.min (length d) (Z.to_nat (iov_len v))) with (length d) by lia. rewrite (take_ge d) by lia.
  rewrite Nat2Z.id. set (cap := Z.to_nat (iov_len v)). set (b := put 0 d (iov_mem v)).
  assert (Hlb : length b = length (iov_mem v)) by (apply length_put; lia).
  assert (Htb : take (length d) b = d) by (apply (take_put 0); lia).
  assert (Hdb : drop cap b = drop cap (iov_mem v)) by (apply drop_put; lia).
  apply post_bind, coalesce_post; [lia|unfold ESC_COALESCE_MAX; lia|].
  intros b1 more1 w1 [Hl1 Hc1] (Hn1 & Ht1 & Hlen1 & Hd1).
  apply post_bind, wrap_post; [lia|]. intros b2 n2 more2 w2 [Hl2 Hc2] (Hn2 & Hh & Hlen2 & Hd2) Hoff.
  rewrite Ht1, Htb in Hh. apply post_ret. split; [split|].
  - cbn [fst iov_sum foldr]. lia.
  - cbn [snd]. constructor; [|constructor]. fold cap. split; congruence.
  - exists (d ++ more1 ++ more2). cbn [fst snd]. split; [by rewrite Hl2, Hl1, Hlog, !app_assoc|].
    intros v' [= <-]. exists b2. split; [done|]. rewrite Nat2Z.id, app_assoc. split; [done|].
    intros E. assert (E2 : bracketed (rd_console w1) = false) by congruence. destruct (Hoff E2) as (-> & -> & ->).
    by rewrite Ht1, Htb, app_nil_r.
Qed.

Lemma nt_read_post fd iov w : owned iov -> post (nt_read fd iov) w (answers fd iov w).
Proof.
  intros Ho. unfold nt_read. apply post_bind, post_reads, post_bind.
  assert (Hgo : forall w1, bracketed (rd_console w1) = bracketed (rd_console w) -> rd_log w1 = rd_log w ->
    post (out ← read_with sys_readv_nt fd iov; out ← complete_console fd iov out; directory_error fd out) w1 (answers fd iov w)).
  { intros w1 Hb Hl. apply post_bind, read_with_post; [done|]. intros r w2 Hc Ha Hr. apply post_bind.
    rewrite Hl in Hr. eapply post_impl; [apply (complete_console_post fd iov r w); [done|congruence| |done]|].
    - destruct Ha as [Hok Hh]. split; [done|]. unfold hands_over in *. by rewrite Hl, Hb in Hh.
    - intros out w3 Ha3. by apply directory_error_post. }
  case_bool_decide; [|by apply post_ret, Hgo].
  apply post_modifies. pose proof (before_wait_keeps fd (rd_console w) w) as [Hb Hl].
  destruct (console_before_wait _ _ _) as [c w1]. cbn [fst snd] in Hb, Hl.
  destruct (rd_put_console_log c w1) as [Hpl Hpc]. apply Hgo; congruence.
Qed.

Lemma read_host_post fd iov w : owned iov -> post (read_host fd iov) w (answers fd iov w).
Proof.
  intros Ho. unfold read_host. apply post_bind, post_reads, post_bind, post_reads.
  assert (Hw : forall k, post (read_with k fd iov) w (answers fd iov w)) by (intros k; by apply read_with_post).
  assert (He : forall e, post (mret (Err e, map iov_mem iov)) w (answers fd iov w))
    by (intros e; apply post_ret; split; [apply error_ok|done]).
  destruct (_ && _); [done|]. pose proof (nt_read_post fd iov w Ho). destruct rd_os; try done; by destruct (_ <=? _).
Qed.

(** The request after the cut. *)
Definition request (iov : list iovec) : list iovec := if bool_decide (rd_os = Linux) then iov else clamped iov.

Lemma request_spec iov : owned iov -> shortened iov (request iov) /\ owned (request iov) /\
  (rd_os <> Linux -> iov_sum (request iov) <= READ_MAX).
Proof.
  intros Ho. pose proof (owned_lens iov Ho) as Hl. unfold request. case_bool_decide as E.
  - split_and!; [by apply shortened_refl|done|done].
  - destruct (clamped_spec iov Hl) as [Hs Hsh]. split_and!; [done|by apply (shortened_owned iov)|intros _; lia].
Qed.

Lemma out_ok_shortened iov iov' out : shortened iov iov' -> out_ok iov' out -> out_ok iov out.
Proof.
  intros Hs [Hn Hi]. split; [|by apply (shortened_intact iov iov')].
  destruct (fst out); [pose proof (shortened_sum _ _ Hs); lia|by rewrite <- (shortened_mems _ _ Hs)].
Qed.

Definition not_virtual (fd : Z) (iov : list iovec) (w : W) : Prop :=
  asks_memfd = true ->
  exists w1, rd_memfd fd (map (fun v => Z.to_nat (iov_len v)) (request iov)) w = Some (None, w1).

Lemma readv_impl_post fd iov iovlen w : owned iov ->
  post (readv_impl fd iov iovlen) w (fun out w' =>
    out_ok iov out /\
    (forall n, fst out = Ok n -> rd_os <> Linux -> n <= READ_MAX) /\
    (not_virtual fd iov w -> hands_over fd (request iov) w out w')).
Proof.
  intros Ho. unfold readv_impl. fold (request iov). destruct (request_spec iov Ho) as (Hs & Ho' & Hmax).
  destruct (fd <? 0); [apply post_ret; split; [apply error_ok|done]|].
  destruct (iovlen <? 0); [apply post_ret; split; [apply error_ok|done]|].
  assert (Hhost : forall w1, rd_log w1 = rd_log w -> rd_console w1 = rd_console w ->
    post (read_host fd (request iov)) w1 (fun out w' => out_ok iov out /\
      (forall n, fst out = Ok n -> rd_os <> Linux -> n <= READ_MAX) /\
      (not_virtual fd iov w -> hands_over fd (request iov) w out w'))).
  { intros w1 Hl Hc. eapply post_impl; [by apply read_host_post|]. intros out w' [Hok Hh].
    split_and!; [by apply (out_ok_shortened _ (request iov))| |].
    - intros n E Hlin. destruct Hok as [Hn _]. rewrite E in Hn. specialize (Hmax Hlin). lia.
    - intros _. unfold hands_over in *. by rewrite Hl, Hc in Hh. }
  destruct asks_memfd eqn:Ea; [|by apply Hhost]. apply post_bind.
  set (lens := map (fun v => Z.to_nat (iov_len v)) (request iov)).
  pose proof (rd_memfd_log fd lens w) as Hm. unfold post in Hm |- * at 1. fold lens.
  destruct (rd_memfd fd lens w) as [[r w1]|] eqn:E; [|done].
  destruct r as [r|]; [|destruct Hm; by apply Hhost].
  assert (Hnv : ~ not_virtual fd iov w).
  { intros Hv. destruct (Hv Ea) as [w2 E2]. unfold lens in E. congruence. }
  assert (Hd : out_ok (request iov) (deliver (match r with Ok out => Ok (concat out) | Err e => Err e end) (request iov))).
  { apply deliver_ok; [done|]. intros d Er. destruct r as [out|e]; [|done]. injection Er as <-.
    rewrite <- sum_lens. enough (Z.of_nat (list_sum lens) = foldr Z.add 0 (map iov_len (request iov))) by lia.
    unfold lens. clear -Ho'. induction Ho' as [|v l Hv _ IH]; [done|]. unfold list_sum in *. cbn [map foldr]. lia. }
  apply post_ret. split_and!; [by apply (out_ok_shortened _ (request iov))| |done].
  intros n En Hlin. destruct Hd as [Hn _]. rewrite En in Hn. specialize (Hmax Hlin). lia.
Qed.

Lemma read_exit_post us fd out w : post (read_exit us fd out) w (fun out' w' => out' = out /\ rd_log w' = rd_log w).
Proof.
  unfold read_exit. apply post_bind. destruct (wants_rearm _); [|by apply post_ret].
  apply post_modifies. destruct (rearm_in _ _ _) as [sets kicks]. apply post_ret. by rewrite rd_put_sets_log.
Qed.

(** A vector read of whatever size stays inside the program's buffers on
    every platform: it ends, the count is at most what was asked for and,
    off Linux, at most 0x7ffff000, no buffer changes size or changes behind
    its iov_len, and an error changes none of them. *)
Theorem readv_in_bounds us fd iov iovcnt w : owned iov ->
  post (shim_readv us fd iov iovcnt) w (fun out _ =>
    out_ok iov out /\ forall n, fst out = Ok n -> rd_os <> Linux -> n <= READ_MAX).
Proof.
  intros Ho. unfold shim_readv. eapply post_bind, post_impl; [by apply readv_impl_post|].
  intros out w1 (Hok & Hmax & _). eapply post_impl; [by apply read_exit_post|]. by intros out' w2 [-> _].
Qed.

(** C17: A read hands the program what it took from the descriptor: every byte
    taken, in order and nothing else, except that on a console whose program
    asked for bracketed paste a burst of plain text of three bytes or more,
    with a line break among the bytes taken, stands between the two markers.
    An error took nothing, and memory behind the request is left alone. *)
Theorem read_hands_over us fd b size w : owned [Iov b (Z.min size READ_MAX)] ->
  not_virtual fd [Iov b (Z.min size READ_MAX)] w ->
  post (shim_read us fd (Some b) size) w (fun out w' =>
    match fst out with
    | Err _ => snd out = [b] /\ rd_log w' fd = rd_log w fd
    | Ok n =>
        0 <= n <= Z.min size READ_MAX /\
        exists b' data, snd out = [b'] /\ rd_log w' fd = rd_log w fd ++ data /\
          handed data (take (Z.to_nat n) b') /\
          (bracketed (rd_console w) = false -> take (Z.to_nat n) b' = data) /\
          length b' = length b /\ drop (Z.to_nat (Z.min size READ_MAX)) b' = drop (Z.to_nat (Z.min size READ_MAX)) b
    end).
Proof.
  intros Ho Hnv. unfold shim_read. set (size' := Z.min size READ_MAX) in *.
  eapply post_bind, post_impl; [by apply readv_impl_post|].
  intros out w1 (Hok & _ & Hh). specialize (Hh Hnv). eapply post_impl; [by apply read_exit_post|].
  intros out' w2 [-> Hl2]. destruct Hok as [Hn Hi]. unfold hands_over in Hh.
  destruct (fst out) as [n|e]; [|by rewrite Hl2].
  cbn [iov_sum foldr iov_len] in Hn. split; [lia|].
  destruct Hh as (data & Hlog & Hone). apply Forall_inv in Ho. cbn [iov_len iov_mem] in Ho.
  assert (Hr : request [Iov b size'] = [Iov b size']).
  { unfold request, clamped. case_bool_decide; [done|]. unfold SumIovecBytes. cbn [foldl iov_len].
    replace (2 ^ 64 <=? 0 + size') with false by lia. replace (READ_MAX <? 0 + size') with false by lia. done. }
  destruct (Hone _ Hr) as (b' & Eb & Hhd & Hoff). exists b', data. rewrite Eb in Hi |- *.
  apply Forall2_cons in Hi as [[Hlen Hdrop] _]. cbn [iov_mem iov_len] in Hlen, Hdrop. rewrite Hl2. by split_and!.
Qed.
End reads.

(** ** The virtual files keep their part of the promise *)

Lemma read_iov_fits text pos iov : (length (concat (fst (read_iov text pos iov))) <= list_sum iov)%nat.
Proof.
  revert pos. induction iov as [|len iov IH]; intros pos; [done|]. cbn [read_iov].
  destruct (pos <? _); [|cbn; lia]. unfold list_sum in *. cbn [foldr].
  set (k := Nat.min _ len). specialize (IH (pos + Z.of_nat k)). destruct (read_iov text _ iov) as [rest pos'].
  cbn [fst concat] in *. rewrite length_app, length_take. lia.
Qed.

Lemma memfd_read_fits {W} `{Pids} `{ProcTables} `{SysInfo} `{ProcHost W} `{OpenFlags} hosted fd iov (w : W) :
  post (procfs_memfd_read hosted fd iov) w (fun r _ =>
    match r with Some (Ok out) => (length (concat out) <= list_sum iov)%nat | _ => True end).
Proof.
  unfold procfs_memfd_read. apply post_bind, post_reads. destruct (negb hosted); [done|].
  destruct (memfd_of _ _) as [m|]; [|done]. destruct (m_dir m); [done|].
  pose proof (read_iov_fits (m_text m) (m_pos m) iov) as Hf. destruct (read_iov _ _ _) as [out pos]. exact Hf.
Qed.

(** ** A console with bytes queued *)

Record tty := Tty { t_queue : list Z; t_log : list Z; t_console : console }.

(** One keystroke per read, as the console driver hands them out in raw mode. *)
Definition tty_read (room : Z) (w : tty) : res (list Z) * tty :=
  let d := take (Z.to_nat (Z.min 1 room)) (t_queue w) in
  (Ok d, Tty (drop (length d) (t_queue w)) (t_log w ++ d) (t_console w)).

#[local] Instance tty_console : ConsoleHost tty := {|
  con_windows := true; is_console fd _ := fd =? 0; tty_xtmouse _ := false; tty_uncanon _ := true;
  kNtEnableMouseInput := 16; kNtEnableQuickEditMode := 64;
  GetConsoleMode _ := None; SetConsoleMode _ w := w; con_POLLIN := 1 |}.

#[local] Instance tty_host : ReadHost tty := {|
  rd_os := Windows; rd_fds_n _ := 3; rd_kind fd _ := if fd =? 0 then kFdConsole else kFdFile;
  rd_call _ _ lens w := tty_read (foldr Z.add 0 lens) w;
  rd_memfd _ _ := mret None;
  rd_poll _ _ w := ((Ok (if bool_decide (t_queue w = []) then 0 else 1), 1), w);
  rd_fstat_dir _ w := (Some false, w);
  CountConsoleInputBytes w := (Z.of_nat (length (t_queue w)), w);
  rd_console := t_console;
  rd_put_console c w := Tty (t_queue w) (t_log w) c;
  rd_sets _ := []; rd_put_sets _ _ w := w |}.

#[local] Instance tty_ledger : ReadLedger tty.
Proof.
  refine {| rd_log w _ := t_log w |}; try done.
  intros k fd lens w. cbn. split; [done|]. rewrite length_take. split; [lia|done].
Defined.

Definition paste_on : console := scan console_init (decset [[2; 0; 0; 4]] true).

(** A pasted "ab<CR>c" followed by an arrow key. *)
Definition pasted : tty := Tty [97; 98; 13; 99; 27; 91; 65] [] paste_on.

(** The wheel of a paste: markers around the text, the arrow key after it. *)
Lemma read_hands_over_witness : exists out w',
  shim_read false 0 (Some (replicate 24 0)) 24 pasted = Some (out, w') /\
  fst out = Ok 17 /\
  (forall b', snd out = [b'] ->
     take 17 b' = PASTE_START ++ [97; 98; 13; 99] ++ PASTE_END ++ [27] /\ drop 24 b' = drop 24 (replicate 24 0)).
Proof.
  pose proof (read_hands_over false 0 (replicate 24 0) 24 pasted) as Hp.
  destruct (post_answer _ _ _ (Ok 17, [PASTE_START ++ [97; 98; 13; 99] ++ PASTE_END ++ [27] ++ replicate 7 0])
    (Hp ltac:(repeat constructor; done) ltac:(intros _; eexists; reflexivity)) ltac:(vm_compute; reflexivity))
    as (w' & Hw & Hn & b' & data & Hb & _ & _ & _ & _ & Hd).
  eexists _, w'. split; [exact Hw|]. split; [done|]. intros b0 Hb0. injection Hb as <-. injection Hb0 as <-. split; [done|exact Hd].
Defined.

Lemma readv_in_bounds_witness : exists out w',
  shim_readv false 1 [Iov [7; 7; 7] 1; Iov [8; 8] 2] 2 pasted = Some (out, w') /\ fst out = Ok 1 /\
  out_ok [Iov [7; 7; 7] 1; Iov [8; 8] 2] out.
Proof.
  pose proof (readv_in_bounds false 1 [Iov [7; 7; 7] 1; Iov [8; 8] 2] 2 pasted) as Hp.
  destruct (post_answer _ _ _ (Ok 1, [[97; 7; 7]; [8; 8]])
    (Hp ltac:(repeat constructor; done)) ltac:(vm_compute; reflexivity)) as (w' & Hw & Hok & _).
  eexists _, w'. split; [exact Hw|]. split; [done|exact Hok].
Defined.
