(* ===== verification/Open.v ===== *)
(** * shim/open.c: the calls that take paths and descriptors

    Flags, descriptors relative to which a path is read, lock types and
    access modes are translated, the emulated /proc tree is asked first, the
    host second, and on Windows a name that missed is tried again with the
    executable suffixes; new descriptors are reported to the tables of
    epoll.c. The host's calls are one family indexed by their answer.
    The theorems: the flags a file was opened with read back through F_GETFL;
    a call with flags it cannot translate changes nothing; lstat, fstatat and
    the access family agree with each other; a link of the tree stats as a
    link; a new pipe is remembered. *)
From S2P Require Import Prelude Host Tables Flags EpollSets EpollPairs ExeSearch PfsText SysFs ProcFs ProcOpen.

(** ** Linux's values *)

Definition SHIM_LIN_O_LARGEFILE (x86_64 : bool) : Z := if x86_64 then 32768 else 131072.
Definition SHIM_LIN_O_SYNC : Z := 1052672.
Definition SHIM_LIN_O_TMPFILE (x86_64 : bool) : Z := if x86_64 then 4259840 else 4210688.
Definition SHIM_LIN_O_CREAT : Z := 64.
Definition LIN_O_ACCMODE : Z := 3.
Definition SHIM_LIN_AT_FDCWD : Z := -100.
Definition SHIM_LIN_AT_SYMLINK_NOFOLLOW : Z := 256.
Definition SHIM_LIN_AT_REMOVEDIR : Z := 512.
Definition SHIM_LIN_AT_SYMLINK_FOLLOW : Z := 1024.
Definition SHIM_LIN_AT_EMPTY_PATH : Z := 4096.
Definition SHIM_LIN_AT_EACCESS : Z := 512.
Definition SHIM_LIN_AT_NO_AUTOMOUNT : Z := 2048.
Definition SHIM_LIN_R_OK : Z := 4.
Definition SHIM_LIN_W_OK : Z := 2.
Definition SHIM_LIN_X_OK : Z := 1.
Definition SHIM_LIN_UTIME_NOW : Z := 1073741823.
Definition SHIM_LIN_UTIME_OMIT : Z := 1073741822.
Definition SHIM_LIN_F_RDLCK : Z := 0.
Definition SHIM_LIN_F_WRLCK : Z := 1.
Definition SHIM_LIN_F_UNLCK : Z := 2.
Definition SHIM_LIN_F_GETLK : Z := 5.
Definition SHIM_LIN_F_SETLK : Z := 6.
Definition SHIM_LIN_F_SETLKW : Z := 7.
Definition SHIM_LIN_F_SETOWN : Z := 8.
Definition SHIM_LIN_F_GETOWN : Z := 9.
Definition SHIM_LIN_F_DUPFD_CLOEXEC : Z := 1030.

(** struct flock *)
Record flock := Flock { l_type : Z; l_whence : Z; l_start : Z; l_len : Z; l_pid : Z }.

(** ** Flag words *)

Section flags.
Context `{HostConsts}.
Context (x86_64 linux windows : bool).

(** Both 0 and all ones say that the host has no such flag. *)
Definition unsupported (host_bit : Z) : bool := (u32 host_bit =? 0) || (u32 host_bit =? 2 ^ 32 - 1).

Definition kOflags : list (string * Z * bool) := SHIM_OFLAG_TABLE x86_64.

(** The table walk: a row whose bit is set is taken out of the word and its
    host value or-ed in, dropped, or refused. *)
Fixpoint oflag_rows (tbl : list (string * Z * bool)) (lin host : Z) : res (Z * Z) :=
  match tbl with
  | [] => Ok (lin, host)
  | (name, bit, droppable) :: tbl' =>
      if negb (has lin bit) then oflag_rows tbl' lin host
      else
        let lin := Z.ldiff lin bit in
        if negb (unsupported (host_const name)) then oflag_rows tbl' lin (Z.lor host (host_const name))
        else if negb droppable then Err EOPNOTSUPP
        else oflag_rows tbl' lin host
  end.

Definition has_all (x f : Z) : bool := Z.land x f =? f.

(** O_SYNC and O_TMPFILE contain other flags' bits and go first. *)
Definition sync_to_host (lin host : Z) : res (Z * Z) :=
  if has_all lin SHIM_LIN_O_SYNC then
    if unsupported (host_const "O_SYNC") then Err EOPNOTSUPP
    else Ok (Z.ldiff lin SHIM_LIN_O_SYNC, Z.lor host (host_const "O_SYNC"))
  else Ok (lin, host).

Definition tmpfile_to_host (lin host : Z) : res (Z * Z) :=
  if has_all lin (SHIM_LIN_O_TMPFILE x86_64) then
    if negb linux && negb windows then Err EOPNOTSUPP
    else
      let bits := if host_defines "_O_TMPFILE"
                  then Z.lor (host_const "_O_TMPFILE") (host_const "O_DIRECTORY")
                  else host_const "O_TMPFILE" in
      Ok (Z.ldiff lin (SHIM_LIN_O_TMPFILE x86_64), Z.lor host bits)
  else Ok (lin, host).

Definition oflags_to_host (lin : Z) : res Z :=
  let host := Z.land lin LIN_O_ACCMODE in
  let lin := Z.ldiff (Z.ldiff lin LIN_O_ACCMODE) (SHIM_LIN_O_LARGEFILE x86_64) in
  match sync_to_host lin host with
  | Err e => Err e
  | Ok (lin, host) =>
      match tmpfile_to_host lin host with
      | Err e => Err e
      | Ok (lin, host) =>
          match oflag_rows kOflags lin host with
          | Err e => Err e
          | Ok (lin, host) => if negb (lin =? 0) then Err EINVAL else Ok host
          end
      end
  end.

Definition oflag_back (host : Z) (row : string * Z * bool) : Z :=
  let '(name, bit, _) := row in
  if negb (unsupported (host_const name)) && has_all host (host_const name) then bit else 0.

Definition oflags_to_linux (host : Z) : Z :=
  let lin := Z.land host LIN_O_ACCMODE in
  let sync := negb (unsupported (host_const "O_SYNC")) && has_all host (host_const "O_SYNC") in
  let lin := if sync then Z.lor lin SHIM_LIN_O_SYNC else lin in
  let host := if sync then Z.ldiff host (host_const "O_SYNC") else host in
  foldl (fun lin row => Z.lor lin (oflag_back host row)) lin kOflags.

Definition at_fdcwd (dirfd : Z) : Z :=
  if dirfd =? SHIM_LIN_AT_FDCWD then host_const "AT_FDCWD" else dirfd.

Definition ltype_to_host (lin : Z) : res Z :=
  if lin =? SHIM_LIN_F_RDLCK then Ok (host_const "F_RDLCK")
  else if lin =? SHIM_LIN_F_WRLCK then Ok (host_const "F_WRLCK")
  else if lin =? SHIM_LIN_F_UNLCK then Ok (host_const "F_UNLCK")
  else Err EINVAL.

Definition ltype_to_linux (host : Z) : Z :=
  if host =? host_const "F_RDLCK" then SHIM_LIN_F_RDLCK
  else if host =? host_const "F_WRLCK" then SHIM_LIN_F_WRLCK
  else if host =? host_const "F_UNLCK" then SHIM_LIN_F_UNLCK
  else host.

(** The word without the bit, and what the host is given for it. *)
Definition at_bit (bit host : Z) (w : Z * Z) : res (Z * Z) :=
  let '(lin, out) := w in
  if negb (has lin bit) then Ok (lin, out)
  else if host =? 0 then Err EOPNOTSUPP
  else Ok (Z.ldiff lin bit, Z.lor out host).

(** A cosmocc that has [_O_TMPFILE] has no AT_EMPTY_PATH. *)
Definition SHIM_AT_EMPTY_PATH : Z := if host_defines "_O_TMPFILE" then 0 else host_const "AT_EMPTY_PATH".

Definition amode_to_host (lin : Z) : res Z :=
  if has lin (Z.lnot (Z.lor (Z.lor SHIM_LIN_R_OK SHIM_LIN_W_OK) SHIM_LIN_X_OK)) then Err EINVAL
  else
    let host := if has lin SHIM_LIN_R_OK then host_const "R_OK" else 0 in
    let host := if has lin SHIM_LIN_W_OK then Z.lor host (host_const "W_OK") else host in
    let host := if has lin SHIM_LIN_X_OK then Z.lor host (host_const "X_OK") else host in
    Ok host.

(** The special nanoseconds of utimensat, one test after the other. *)
Definition utime_to_host (t : timespec) : timespec :=
  let nsec := if tv_nsec t =? SHIM_LIN_UTIME_NOW then host_const "UTIME_NOW" else tv_nsec t in
  let nsec := if nsec =? SHIM_LIN_UTIME_OMIT then host_const "UTIME_OMIT" else nsec in
  Timespec (tv_sec t) nsec.
End flags.

(** ** The host's calls

    [path] is never NULL here; a NULL is handed to the host by every call
    but those that would read it, which crash. *)
Inductive which_access := Access | Eaccess | Euidaccess.

Inductive fcall : Type -> Type :=
  | H_open (path : cstr) (flags mode : Z) : fcall (res Z)
  | H_openat (dirfd : Z) (path : cstr) (flags mode : Z) : fcall (res Z)
  | H_opendir (path : cstr) : fcall (res Z)                  (* dirfd() of the stream *)
  | H_readdir (fd : Z) : fcall (res (option (cstr * Z)))     (* name and d_type *)
  | H_fdopendir (fd : Z) : fcall (res Z)
  | H_lseek (fd off whence : Z) : fcall (res Z)
  | H_fstat (fd : Z) : fcall (res stat)
  | H_stat (path : cstr) : fcall (res stat)
  | H_lstat (path : cstr) : fcall (res stat)
  | H_fstatat (dirfd : Z) (path : cstr) (flags : Z) : fcall (res stat)
  | H_pipe2 (flags : Z) : fcall (res (Z * Z))
  | H_fcntl (fd cmd arg : Z) : fcall (res Z)
  | H_fcntl_lock (fd cmd : Z) (fl : flock) : fcall (res Z * flock)
  | H_unlinkat (dirfd : Z) (path : cstr) (flags : Z) : fcall (res Z)
  | H_linkat (olddirfd : Z) (oldpath : cstr) (newdirfd : Z) (newpath : cstr) (flags : Z) : fcall (res Z)
  | H_access (which : which_access) (path : cstr) (mode : Z) : fcall (res Z)
  | H_faccessat (dirfd : Z) (path : cstr) (mode flags : Z) : fcall (res Z)
  | H_utimensat (dirfd : Z) (path : cstr) (times : option (timespec * timespec)) (flags : Z) : fcall (res Z)
  | H_mknod (path : cstr) (mode dev : Z) : fcall (res Z).

(** Also here: the tables of epoll.c, the file system the suffix retry looks
    at, the disk side of the tree (materialize.c), and what procfs_readlinkat
    reads from disk. *)
Class FileHost (W : Type) := {
  f_call : forall A, fcall A -> W -> A * W;
  f_pairs : W -> pairs;
  f_put_pairs : pairs -> W -> W;
  f_sets : W -> list epoll_set;
  f_put_sets : list epoll_set -> W -> W;
  f_fs : W -> FileSystem;
  procfs_list_fd : Z -> W -> W;
  f_phys_of : W -> Z -> option cstr;
  f_contents : W -> cstr -> nat -> option (list Z) }.

(** cosmo's flag values by name, for the carrier of procfs/core/open.c. *)
Definition open_flags `{HostConsts} : OpenFlags :=
  {| O_ACCMODE := LIN_O_ACCMODE; O_RDONLY := 0; O_DIRECTORY := host_const "O_DIRECTORY";
     O_NOFOLLOW := host_const "O_NOFOLLOW"; O_CLOEXEC := host_const "O_CLOEXEC" |}.

Section calls.
Context {W : Type} `{HostConsts} `{Pids} `{ProcTables} `{SysInfo} `{ProcHost W} `{FileHost W}.
Context (x86_64 linux windows hosted busy use_syscalls : bool) (ncpu : Z) (PATH_MAX : nat).
#[local] Existing Instance open_flags.

Definition host {A} (c : fcall A) : M W A := step (f_call A c).

Definition note_new (fd : Z) : M W unit :=
  modifies (fun w => f_put_pairs (note_new_fd use_syscalls fd (f_pairs w)) w).

Definition note_dup_of (fd nfd : Z) : M W unit :=
  modifies (fun w => f_put_sets (EpollSets.note_dup use_syscalls fd nfd (f_sets w)) w).

Definition track (fd : Z) (vpath : cstr) : M W unit :=
  with_track (fun g fds => procfs_track hosted busy g fds fd vpath).

Definition join (dirfd : Z) (rel : cstr) (n : nat) : M W (option cstr) :=
  reads (fun w => procfs_join hosted busy (p_track (ph_state w)) (p_fds (ph_state w)) dirfd rel n).

(** Whether the third argument is read. *)
Definition has_mode (lin : Z) : bool :=
  has lin SHIM_LIN_O_CREAT || has_all lin (SHIM_LIN_O_TMPFILE x86_64).

Definition rooted (path : cstr) : bool := path.[0] =? 47.

Definition in_proc (path : cstr) : bool := bool_decide (take 5 path = bytes "/proc").

Definition noted_fd (r : res Z) : M W (res Z) :=
  match r with
  | Ok fd => _ ← note_new fd; mret r
  | Err _ => mret r
  end.

Definition shim_open (path : cstr) (lin mode : Z) : M W (res Z) :=
  match oflags_to_host x86_64 linux windows lin with
  | Err e => mret (Err e)
  | Ok hostfl =>
      let mode := if has_mode lin then mode else 0 in
      v ← procfs_open hosted windows ncpu busy path hostfl;
      r ← (match v with
           | Some r => mret r
           | None =>
               r ← host (H_open path hostfl mode);
               _ ← (match r with Ok fd => track fd path | Err _ => mret tt end);
               mret r
           end);
      noted_fd r
  end.

(** The virtual path of an openat, if it can be one. *)
Definition openat_vpath (dirfd : Z) (path : cstr) : M W (option cstr) :=
  if rooted path then mret (Some path)
  else if negb (dirfd =? SHIM_LIN_AT_FDCWD) then join dirfd path 300
  else mret None.

Definition shim_openat (dirfd : Z) (path : cstr) (lin mode : Z) : M W (res Z) :=
  match oflags_to_host x86_64 linux windows lin with
  | Err e => mret (Err e)
  | Ok hostfl =>
      let mode := if has_mode lin then mode else 0 in
      vpath ← openat_vpath dirfd path;
      v ← (match vpath with
           | Some vp => procfs_open hosted windows ncpu busy vp hostfl
           | None => mret None
           end);
      r ← (match v with
           | Some r => mret r
           | None =>
               r ← host (H_openat (at_fdcwd dirfd) path hostfl mode);
               _ ← (match r, vpath with Ok fd, Some vp => track fd vp | _, _ => mret tt end);
               mret r
           end);
      noted_fd r
  end.


Definition shim_lseek (fd off whence : Z) : M W (res Z) :=
  v ← procfs_memfd_lseek hosted windows ncpu busy fd off whence;
  match v with Some r => mret r | None => host (H_lseek fd off whence) end.

Definition shim_fstat (fd : Z) : M W (res stat) :=
  v ← procfs_memfd_fstat hosted fd;
  match v with Some st => mret (Ok st) | None => host (H_fstat fd) end.

Definition shim_opendir (path : cstr) : M W (res Z) :=
  d ← host (H_opendir path);
  _ ← (match d with Ok fd => if in_proc path then track fd path else mret tt | Err _ => mret tt end);
  mret d.

Definition shim_readdir (fd : Z) : M W (res (option (cstr * Z))) :=
  e ← host (H_readdir fd);
  match e with
  | Ok (Some (name, type)) =>
      type ← reads (fun w => fix_dirent hosted busy (p_track (ph_state w)) (p_fds (ph_state w))
                               PATH_MAX fd name type);
      mret (Ok (Some (name, type)))
  | _ => mret e
  end.

Definition shim_fdopendir (fd : Z) : M W (res Z) :=
  _ ← modifies (procfs_list_fd fd);
  host (H_fdopendir fd).

Definition shim_pipe2 (lin : Z) : M W (res (Z * Z)) :=
  match oflags_to_host x86_64 linux windows lin with
  | Err e => mret (Err e)
  | Ok hostfl =>
      r ← host (H_pipe2 hostfl);
      match r with
      | Ok (rfd, wfd) =>
          _ ← modifies (fun w => f_put_pairs (note_pipe use_syscalls rfd wfd (f_pairs w)) w);
          mret r
      | Err _ => mret r
      end
  end.

(** ** fcntl

    [arg] is the third argument as an int, [fl] the struct it points to for
    the lock commands; the answer has the struct as the call leaves it. *)
Definition lock_cmd (fd cmd : Z) (fl : flock) (writes_back : bool) : M W (res Z * flock) :=
  match ltype_to_host (l_type fl) with
  | Err e => mret (Err e, fl)
  | Ok t =>
      a ← host (H_fcntl_lock fd cmd (Flock t (l_whence fl) (l_start fl) (l_len fl) (l_pid fl)));
      let '(rc, fl') := a : res Z * flock in
      match rc with
      | Ok _ =>
          if writes_back
          then mret (rc, Flock (ltype_to_linux (l_type fl')) (l_whence fl') (l_start fl') (l_len fl') (l_pid fl'))
          else mret (rc, fl)
      | Err _ => mret (rc, fl)
      end
  end.

Definition dup_cmd (fd cmd arg : Z) : M W (res Z) :=
  r ← host (H_fcntl fd cmd arg);
  match r with
  | Ok nfd => _ ← note_dup_of fd nfd; _ ← note_new nfd; mret r
  | Err _ => mret r
  end.

Definition shim_fcntl (fd cmd arg : Z) (fl : flock) : M W (res Z * flock) :=
  v ← procfs_memfd_fcntl hosted fd cmd arg;
  let plain (m : M W (res Z)) : M W (res Z * flock) := r ← m; mret (r, fl) in
  let named (name : string) (m : Z -> M W (res Z * flock)) : M W (res Z * flock) :=
    if 0 <? host_const name then m (host_const name) else mret (Err EINVAL, fl) in
  match v with
  | Some r => mret (r, fl)
  | None =>
      if cmd =? 0 then plain (dup_cmd fd cmd arg)
      else if cmd =? 2 then plain (host (H_fcntl fd cmd arg))
      else if cmd =? 1 then plain (host (H_fcntl fd cmd 0))
      else if cmd =? 3 then
        plain (r ← host (H_fcntl fd cmd 0);
               match r with Ok h => mret (Ok (oflags_to_linux x86_64 h)) | Err _ => mret r end)
      else if cmd =? 4 then
        match oflags_to_host x86_64 linux windows (Z.ldiff arg LIN_O_ACCMODE) with
        | Err e => mret (Err e, fl)
        | Ok h => plain (host (H_fcntl fd cmd h))
        end
      else if cmd =? SHIM_LIN_F_GETLK then named "F_GETLK" (fun c => lock_cmd fd c fl true)
      else if cmd =? SHIM_LIN_F_SETLK then named "F_SETLK" (fun c => lock_cmd fd c fl false)
      else if cmd =? SHIM_LIN_F_SETLKW then named "F_SETLKW" (fun c => lock_cmd fd c fl false)
      else if host_defines "F_SETOWN" && (cmd =? SHIM_LIN_F_SETOWN) then
        named "F_SETOWN" (fun c => plain (host (H_fcntl fd c arg)))
      else if host_defines "F_SETOWN" && (cmd =? SHIM_LIN_F_GETOWN) then
        named "F_GETOWN" (fun c => plain (host (H_fcntl fd c 0)))
      else if cmd =? SHIM_LIN_F_DUPFD_CLOEXEC then
        named "F_DUPFD_CLOEXEC" (fun c => plain (dup_cmd fd c arg))
      else mret (Err EINVAL, fl)
  end.

(** ** unlinkat, stat *)

Definition shim_unlinkat (dirfd : Z) (path : cstr) (lin : Z) : M W (res Z) :=
  match at_bit SHIM_LIN_AT_REMOVEDIR (host_const "AT_REMOVEDIR") (lin, 0) with
  | Err e => mret (Err e)
  | Ok (lin, hostfl) =>
      if negb (lin =? 0) then mret (Err EINVAL)
      else host (H_unlinkat (at_fdcwd dirfd) path hostfl)
  end.

(** What follows the last slash, [strrchr(p, '/') + 1]. *)
Definition lstat_must_follow (p : cstr) : bool :=
  match p with
  | [] => false
  | _ =>
      (p.[length p - 1] =? 47) ||
      bool_decide (base_name p = [46]) || bool_decide (base_name p = [46; 46])
  end.

(** The virtual path of a stat, absolute or through a tracked directory. *)
Definition stat_vpath (dirfd : Z) (path : cstr) : M W (option cstr) :=
  v ← (if rooted path then mret (Some path) else join dirfd path PATH_MAX);
  mret (match v with
        | Some v => if in_proc v && negb (procfs_link_mode hosted v =? 0) then Some v else None
        | None => None
        end).

(** A link of the tree is a plain file on disk and is reported as a link. *)
Definition procfs_link_stat (dirfd : Z) (path : cstr) (st : stat) : M W stat :=
  v ← stat_vpath dirfd path;
  match v with
  | None => mret st
  | Some v =>
      mret (Stat (Z.lor S_IFLNK (procfs_link_mode hosted v)) 1 0
              (st_blksize st) (st_blocks st) (st_dev st) (st_ino st) (st_time st))
  end.

Definition as_socket (st : stat) : stat :=
  Stat (Z.lor S_IFSOCK 511) (st_nlink st) 0 (st_blksize st) (st_blocks st) (st_dev st) (st_ino st) (st_time st).

(** [if (!stat(..., &t)) *st = t]. *)
Definition or_else (st : stat) (t : M W (res stat)) : M W stat :=
  r ← t; mret (match r with Ok t => t | Err _ => st end).

Definition read_tree_link (vpath : cstr) : M W (option (list Z)) :=
  reads (fun w => procfs_readlinkat windows hosted busy (p_track (ph_state w)) (p_fds (ph_state w))
                    (f_phys_of w) (f_contents w) (host_const "AT_FDCWD") vpath (PATH_MAX - 1)).

(** The number behind "/fd/", -1 without one. *)
Definition fd_of_link (vpath : cstr) : Z :=
  match behind (bytes "/fd/") vpath with Some s => atoi s | None => -1 end.

Definition procfs_follow_stat (dirfd : Z) (path : cstr) (st : stat) : M W stat :=
  v ← stat_vpath dirfd path;
  match v with
  | None => mret st
  | Some v =>
      target ← read_tree_link v;
      match target with
      | None | Some [] => mret st
      | Some target =>
          if rooted target then or_else st (host (H_stat target))
          else if (48 <=? target.[0]) && (target.[0] <=? 57) && negb (has_slash (drop 6 v)) then
            or_else st (host (H_stat (cut 64 (bytes "/proc/" ++ target))))
          else
            let fd := fd_of_link v in
            if (0 <=? fd) && bool_decide (take 11 v = bytes "/proc/self/") then
              or_else (as_socket st) (host (H_fstat fd))
            else mret (as_socket st)
      end
  end.

(** A call on a name that is retried once with an executable suffix. *)
Definition with_suffix {A} (dirfd : Z) (path : cstr) (call : cstr -> M W (res A)) : M W (res A) :=
  r ← call path;
  match r with
  | Err ENOENT =>
      buf ← reads (fun w => @exe_fallback (f_fs w) windows dirfd path);
      match buf with Some buf => call buf | None => mret r end
  | _ => mret r
  end.

Definition vstat (dirfd : Z) (path : cstr) (nofollow : bool) : M W (option (res stat)) :=
  procfs_vstat hosted windows busy dirfd path nofollow.

(** The tree's answer, or the host's with the suffix retry and what the
    tree's links are. *)
Definition stat_with (dirfd hdirfd : Z) (path : cstr) (nofollow : bool)
    (call : cstr -> M W (res stat)) : M W (res stat) :=
  vr ← vstat hdirfd path nofollow;
  match vr with
  | Some r => mret r
  | None =>
      rc ← with_suffix hdirfd path call;
      match rc with
      | Err _ => mret rc
      | Ok st =>
          st ← (if nofollow : bool then procfs_link_stat dirfd path st else procfs_follow_stat dirfd path st);
          mret (Ok st)
      end
  end.

Definition fstatat_flags (lin : Z) : res (Z * Z) :=
  match at_bit SHIM_LIN_AT_SYMLINK_NOFOLLOW (host_const "AT_SYMLINK_NOFOLLOW") (lin, 0) with
  | Err e => Err e
  | Ok w => at_bit SHIM_LIN_AT_EMPTY_PATH SHIM_AT_EMPTY_PATH w
  end.

Definition shim_fstatat (dirfd : Z) (path : cstr) (lin : Z) : M W (res stat) :=
  if bool_decide (path = []) && has lin SHIM_LIN_AT_EMPTY_PATH then
    if negb (dirfd =? SHIM_LIN_AT_FDCWD) then host (H_fstat dirfd) else host (H_stat (bytes "."))
  else
    match fstatat_flags lin with
    | Err e => mret (Err e)
    | Ok (lin, hostfl) =>
        let lin := Z.ldiff lin SHIM_LIN_AT_NO_AUTOMOUNT in
        if negb (lin =? 0) then mret (Err EINVAL)
        else
          let nofollow := host_const "AT_SYMLINK_NOFOLLOW" in
          let hostfl := if has hostfl nofollow && lstat_must_follow path
                        then Z.ldiff hostfl nofollow else hostfl in
          stat_with dirfd (at_fdcwd dirfd) path (has hostfl nofollow)
            (fun p => host (H_fstatat (at_fdcwd dirfd) p hostfl))
    end.

Definition shim_stat (path : cstr) : M W (res stat) :=
  stat_with SHIM_LIN_AT_FDCWD (host_const "AT_FDCWD") path false (fun p => host (H_stat p)).

Definition shim_lstat (path : cstr) : M W (res stat) :=
  if lstat_must_follow path then shim_stat path
  else stat_with SHIM_LIN_AT_FDCWD (host_const "AT_FDCWD") path true (fun p => host (H_lstat p)).

Definition shim_linkat (olddirfd : Z) (oldpath : cstr) (newdirfd : Z) (newpath : cstr) (lin : Z) : M W (res Z) :=
  match at_bit SHIM_LIN_AT_SYMLINK_FOLLOW (host_const "AT_SYMLINK_FOLLOW") (lin, 0) with
  | Err e => mret (Err e)
  | Ok w =>
      match at_bit SHIM_LIN_AT_EMPTY_PATH SHIM_AT_EMPTY_PATH w with
      | Err e => mret (Err e)
      | Ok (lin, hostfl) =>
          if negb (lin =? 0) then mret (Err EINVAL)
          else host (H_linkat (at_fdcwd olddirfd) oldpath (at_fdcwd newdirfd) newpath hostfl)
      end
  end.

(** ** access *)

(** [None] is not ours: the tree is readable and not writable. *)
Definition procfs_vaccess (dirfd : Z) (path : cstr) (hostmode : Z) : M W (option (res Z)) :=
  vr ← vstat dirfd path false;
  mret (match vr with
        | None => None
        | Some (Err e) => Some (Err e)
        | Some (Ok _) => Some (if has hostmode (host_const "W_OK") then Err EACCES else Ok 0)
        end).

Definition access_with (dirfd : Z) (path : cstr) (hmode : Z) (call : cstr -> M W (res Z)) : M W (res Z) :=
  vr ← procfs_vaccess dirfd path hmode;
  match vr with
  | Some r => mret r
  | None => with_suffix dirfd path call
  end.

Definition shim_access (which : which_access) (path : cstr) (amode : Z) : M W (res Z) :=
  match amode_to_host amode with
  | Err e => mret (Err e)
  | Ok hmode =>
      access_with (host_const "AT_FDCWD") path hmode (fun p => host (H_access which p hmode))
  end.

Definition faccessat_flags (lin : Z) : res (Z * Z) :=
  let eaccess := host_const "AT_EACCESS" in
  match (if negb (eaccess =? 0) then at_bit SHIM_LIN_AT_EACCESS eaccess (lin, 0)
         else Ok (Z.ldiff lin SHIM_LIN_AT_EACCESS, 0)) with
  | Err e => Err e
  | Ok w => at_bit SHIM_LIN_AT_SYMLINK_FOLLOW (host_const "AT_SYMLINK_FOLLOW") w
  end.

Definition shim_faccessat (dirfd : Z) (path : cstr) (amode lin : Z) : M W (res Z) :=
  match faccessat_flags lin with
  | Err e => mret (Err e)
  | Ok (lin, hostfl) =>
      if negb (lin =? 0) then mret (Err EINVAL)
      else
        match amode_to_host amode with
        | Err e => mret (Err e)
        | Ok hmode =>
            access_with (at_fdcwd dirfd) path hmode
              (fun p => host (H_faccessat (at_fdcwd dirfd) p hmode hostfl))
        end
  end.

Definition shim_utimensat (dirfd : Z) (path : cstr) (times : option (timespec * timespec)) (lin : Z)
    : M W (res Z) :=
  match at_bit SHIM_LIN_AT_SYMLINK_NOFOLLOW (host_const "AT_SYMLINK_NOFOLLOW") (lin, 0) with
  | Err e => mret (Err e)
  | Ok (lin, hostfl) =>
      if negb (lin =? 0) then mret (Err EINVAL)
      else host (H_utimensat (at_fdcwd dirfd) path
                   ((fun '(a, b) => (utime_to_host a, utime_to_host b)) <$> times) hostfl)
  end.

Definition shim_mkfifo (path : cstr) (mode : Z) : M W (res Z) :=
  host (H_mknod path (Z.lor S_IFIFO mode) 0).
End calls.

(** ** Flag words: what is translated and back *)

(** Closes an equality of words, bit by bit, from the equalities of words
    among the hypotheses. *)
Ltac word_bits :=
  repeat first [ rewrite Z.land_spec | rewrite Z.lor_spec | rewrite Z.ldiff_spec | rewrite Z.bits_0 ].
Ltac words :=
  apply Z.bits_inj'; let i := fresh "i" in let Hi := fresh "Hi" in intros i Hi;
  repeat match goal with
  | H : @eq Z _ _ |- _ => apply (f_equal (fun z => Z.testbit z i)) in H; cbv beta in H; revert H
  end;
  word_bits;
  repeat match goal with |- context [Z.testbit ?x i] => destruct (Z.testbit x i) end;
  simpl; intros; try reflexivity; try discriminate.

Section flag_words.
Context `{HostConsts}.

Definition row_bit (r : string * Z * bool) : Z := snd (fst r).

(** The bits the host uses for a row, none when it has no such flag. *)
Definition row_host (r : string * Z * bool) : Z :=
  let '(name, _, _) := r in if unsupported (host_const name) then 0 else host_const name.

Definition row_drop (r : string * Z * bool) : bool := snd r.

Notation rows := (list (string * Z * bool)).

Definition union (f : string * Z * bool -> Z) (tbl : rows) : Z := foldr Z.lor 0 (f <$> tbl).

Definition apart (f : string * Z * bool -> Z) (tbl : rows) : Prop :=
  ForallOrdPairs (fun a b => Z.land (f a) (f b) = 0) tbl.

(** The host side of the rows set in a word, and their Linux side. *)
Definition chosen (lin : Z) (r : string * Z * bool) : Z := if has lin (row_bit r) then row_host r else 0.
Definition kept_bit (lin : Z) (r : string * Z * bool) : Z :=
  if has lin (row_bit r) && negb (row_host r =? 0) then row_bit r else 0.
Definition dropped_bit (r : string * Z * bool) : Z :=
  if (row_host r =? 0) && row_drop r then row_bit r else 0.

Lemma union_cons f r tbl : union f (r :: tbl) = Z.lor (f r) (union f tbl).
Proof. done. Qed.

Lemma union_land f tbl x :
  Forall (fun r => Z.land (f r) x = 0) tbl -> Z.land (union f tbl) x = 0.
Proof.
  unfold union. induction 1 as [|r tbl Hr Htbl IH]; [done|]. csimpl.
  rewrite Z.land_lor_distr_l, Hr, IH. done.
Qed.

Lemma has_ldiff_apart x b c : Z.land b c = 0 -> has (Z.ldiff x b) c = has x c.
Proof.
  intros Hbc. unfold has. f_equal. f_equal. words.
Qed.

Lemma row_host_unsupported name bit d :
  unsupported (host_const name) = true -> row_host (name, bit, d) = 0.
Proof. unfold row_host. by intros ->. Qed.

Lemma row_host_supported name bit d :
  unsupported (host_const name) = false -> row_host (name, bit, d) = host_const name /\ host_const name <> 0.
Proof.
  unfold row_host. intros Hu. rewrite Hu. split; [done|]. intros Hz. rewrite Hz in Hu. discriminate.
Qed.

Lemma apart_inv f r tbl :
  apart f (r :: tbl) -> Forall (fun b => Z.land (f r) (f b) = 0) tbl /\ apart f tbl.
Proof. inversion 1; subst. by split. Qed.

Lemma union_chosen_ldiff tbl lin b :
  Forall (fun r => Z.land b (row_bit r) = 0) tbl ->
  union (chosen (Z.ldiff lin b)) tbl = union (chosen lin) tbl.
Proof.
  unfold union. induction 1 as [|r tbl Hr Htbl IH]; [done|]. csimpl. rewrite IH.
  unfold chosen at 1 3. by rewrite has_ldiff_apart.
Qed.

(** The walk takes every row's bit out of the word, ors in what the host has
    for the rows that were set, and passes only over rows it may drop. *)
Lemma oflag_rows_Ok tbl lin host lin' host' :
  apart row_bit tbl -> oflag_rows tbl lin host = Ok (lin', host') ->
  lin' = Z.ldiff lin (union row_bit tbl) /\ host' = Z.lor host (union (chosen lin) tbl) /\
  Forall (fun r => has lin (row_bit r) = true -> row_host r <> 0 \/ row_drop r = true) tbl.
Proof.
  revert lin host. induction tbl as [|[[name bit] d] tbl IH]; intros lin host Hap Hrows; simpl in Hrows.
  - simplify_eq. unfold union. simpl. rewrite Z.ldiff_0_r, Z.lor_0_r. auto.
  - apply apart_inv in Hap as [Hbit Hap]. change (row_bit (name, bit, d)) with bit in Hbit.
    assert (Hstep : forall host1,
      oflag_rows tbl (Z.ldiff lin bit) host1 = Ok (lin', host') ->
      lin' = Z.ldiff lin (Z.lor bit (union row_bit tbl)) /\ host' = Z.lor host1 (union (chosen lin) tbl) /\
      Forall (fun r => has lin (row_bit r) = true -> row_host r <> 0 \/ row_drop r = true) tbl).
    { intros host1 (-> & -> & Hall)%IH; [|done]. split; [bitwise|].
      split; [by rewrite union_chosen_ldiff|].
      clear -Hall Hbit. induction Hall as [|r tbl Hr Hall IH]; [constructor|].
      apply Forall_cons in Hbit as [Hb Hbit]. constructor; [|auto].
      rewrite has_ldiff_apart in Hr by done. done. }
    rewrite !union_cons, Forall_cons. unfold chosen at 1.
    change (row_bit (name, bit, d)) with bit. change (row_drop (name, bit, d)) with d.
    destruct (has lin bit) eqn:Hhas; simpl in Hrows.
    + destruct (unsupported (host_const name)) eqn:Hu; simpl in Hrows.
      * destruct d; simpl in Hrows; [|done]. rewrite (row_host_unsupported _ bit true Hu).
        apply Hstep in Hrows as (? & ? & ?). rewrite Z.lor_0_l. repeat split; auto.
      * destruct (row_host_supported name bit d Hu) as [-> Hnz].
        apply Hstep in Hrows as (? & -> & ?). split; [done|]. split; [bitwise|]. split; auto.
    + apply IH in Hrows as (-> & -> & Hall); [|done]. rewrite Z.lor_0_l.
      split; [apply has_false in Hhas; words|]. split; auto.
Qed.

Lemma union_chosen_land tbl lin r :
  apart row_host tbl -> r ∈ tbl -> Z.land (union (chosen lin) tbl) (row_host r) = chosen lin r.
Proof.
  induction tbl as [|r' tbl IH]; intros Hap Hin; [by apply elem_of_nil in Hin|].
  apply apart_inv in Hap as [Hr Hap]. rewrite union_cons, Z.land_lor_distr_l.
  assert (Hoff : forall a b, Z.land (row_host a) (row_host b) = 0 -> Z.land (chosen lin a) (row_host b) = 0).
  { intros a b Hab. unfold chosen. destruct (has lin (row_bit a)); [done|]. by rewrite Z.land_0_l. }
  apply elem_of_cons in Hin as [->|Hin].
  - rewrite (union_land _ tbl (row_host r')).
    + rewrite Z.lor_0_r. unfold chosen.
      destruct (has lin (row_bit r')); [by rewrite Z.land_diag|by rewrite Z.land_0_l].
    + eapply Forall_impl; [exact Hr|]. intros b Hb. apply Hoff. by rewrite Z.land_comm.
  - rewrite IH by done. rewrite (Hoff r' r); [by rewrite Z.lor_0_l|].
    rewrite Forall_forall in Hr. by apply Hr.
Qed.

(** Reading back the host word of a choice of rows gives their bits. *)
Lemma oflag_back_chosen tbl lin a r :
  apart row_host tbl -> r ∈ tbl -> Z.land a (row_host r) = 0 ->
  oflag_back (Z.lor a (union (chosen lin) tbl)) r = kept_bit lin r.
Proof.
  intros Hap Hin Ha. pose proof (union_chosen_land tbl lin r Hap Hin) as Hland.
  destruct r as [[name bit] d]. unfold oflag_back, kept_bit. change (row_bit (name, bit, d)) with bit.
  unfold chosen in Hland at 2. change (row_bit (name, bit, d)) with bit in Hland.
  destruct (unsupported (host_const name)) eqn:Hu.
  - rewrite (row_host_unsupported _ bit d Hu). simpl. by rewrite andb_false_r.
  - destruct (row_host_supported name bit d Hu) as [Heq Hnz]. rewrite Heq in *.
    unfold has_all. rewrite Z.land_lor_distr_l, Ha, Hland, Z.lor_0_l.
    rewrite (proj2 (Z.eqb_neq _ _) Hnz).
    destruct (has lin bit); [by rewrite Z.eqb_refl|].
    by rewrite (proj2 (Z.eqb_neq 0 _)) by done.
Qed.

Lemma foldl_lor (f : string * Z * bool -> Z) tbl a :
  foldl (fun acc r => Z.lor acc (f r)) a tbl = Z.lor a (union f tbl).
Proof.
  revert a. induction tbl as [|r tbl IH]; intros a; simpl; [by rewrite Z.lor_0_r|].
  by rewrite IH, union_cons, Z.lor_assoc.
Qed.

Lemma union_ext f g tbl : (forall r, r ∈ tbl -> f r = g r) -> union f tbl = union g tbl.
Proof.
  induction tbl as [|r tbl IH]; intros Hfg; [done|].
  rewrite !union_cons, Hfg by set_solver. rewrite IH; [done|]. set_solver.
Qed.

(** A word made only of table bits is the bits that were kept and those that
    were dropped. *)
Lemma union_kept tbl lin :
  Forall (fun r => is_bit (row_bit r)) tbl -> apart row_bit tbl ->
  Forall (fun r => has lin (row_bit r) = true -> row_host r <> 0 \/ row_drop r = true) tbl ->
  union (kept_bit lin) tbl = Z.ldiff (Z.land lin (union row_bit tbl)) (union dropped_bit tbl).
Proof.
  induction tbl as [|r tbl IH]; intros Hbits Hap Hall; [unfold union; simpl; by rewrite Z.land_0_r|].
  apply apart_inv in Hap as [Hr Hap].
  apply Forall_cons in Hbits as [Hbit Hbits]. apply Forall_cons in Hall as [Hrd Hall].
  rewrite !union_cons, IH by done.
  assert (Hd : Z.land (row_bit r) (union dropped_bit tbl) = 0).
  { rewrite Z.land_comm. apply union_land. eapply Forall_impl; [exact Hr|]. simpl. intros b Hb.
    unfold dropped_bit. destruct (_ && _); [by rewrite Z.land_comm|by rewrite Z.land_0_l]. }
  assert (Hu : Z.land (union row_bit tbl) (row_bit r) = 0).
  { apply union_land. eapply Forall_impl; [exact Hr|]. intros b. by rewrite Z.land_comm. }
  assert (Hhas : (if has lin (row_bit r) then row_bit r else 0) = Z.land lin (row_bit r)) by by apply has_bit.
  unfold kept_bit at 1, dropped_bit at 2.
  destruct (has lin (row_bit r)), (row_host r =? 0) eqn:Hh; simpl; simpl in Hhas.
  - apply Z.eqb_eq in Hh. destruct Hrd as [Hrd|Hrd]; [done|done|]. rewrite Hrd. words.
  - words.
  - destruct (row_drop r); words.
  - words.
Qed.

(** The host keeps its flags apart from each other and from the access mode;
    O_SYNC may contain O_DSYNC but is not made of it. *)
Record oflags_ok (x86_64 : bool) : Prop := {
  of_apart : apart row_host (kOflags x86_64);
  of_acc : Forall (fun r => Z.land LIN_O_ACCMODE (row_host r) = 0) (kOflags x86_64);
  of_sync : unsupported (host_const "O_SYNC") = false ->
    Z.land LIN_O_ACCMODE (host_const "O_SYNC") = 0 /\
    Z.ldiff (host_const "O_SYNC") (host_const "O_DSYNC") <> 0 /\
    Forall (fun r => fst (fst r) = "O_DSYNC"%string \/ Z.land (row_host r) (host_const "O_SYNC") = 0)
      (kOflags x86_64) }.

(** The hints of a word that the host has no flag for. *)
Definition oflags_dropped (x86_64 : bool) : Z := union dropped_bit (kOflags x86_64).

Lemma kOflags_apart x86_64 : apart row_bit (kOflags x86_64).
Proof. unfold apart. destruct x86_64; repeat constructor. Qed.

Lemma kOflags_bits x86_64 : Forall (fun r => is_bit (row_bit r)) (kOflags x86_64).
Proof.
  apply Forall_forall. intros r Hr. exists (Z.log2 (row_bit r)). split; [apply Z.log2_nonneg|].
  revert r Hr. apply Forall_forall. destruct x86_64; repeat constructor.
Qed.

Lemma dropped_apart x86_64 x :
  Forall (fun r => row_drop r = true -> Z.land (row_bit r) x = 0) (kOflags x86_64) ->
  Z.land (oflags_dropped x86_64) x = 0.
Proof.
  intros Hx. apply union_land. eapply Forall_impl; [exact Hx|]. simpl. intros r Hr.
  unfold dropped_bit. destruct (row_host r =? 0), (row_drop r); simpl; auto.
Qed.

Lemma chosen_acc x86_64 lin :
  oflags_ok x86_64 -> Z.land (union (chosen lin) (kOflags x86_64)) LIN_O_ACCMODE = 0.
Proof.
  intros Hok. apply union_land. eapply Forall_impl; [apply (of_acc _ Hok)|]. intros r Hr.
  unfold chosen. destruct (has _ _); [by rewrite Z.land_comm|by rewrite Z.land_0_l].
Qed.

Lemma back_union x86_64 lin a :
  oflags_ok x86_64 -> Z.land a LIN_O_ACCMODE = a ->
  union (oflag_back (Z.lor a (union (chosen lin) (kOflags x86_64)))) (kOflags x86_64) =
  union (kept_bit lin) (kOflags x86_64).
Proof.
  intros Hok Ha. apply union_ext. intros r Hr. apply oflag_back_chosen; [apply (of_apart _ Hok)|done|].
  pose proof (proj1 (Forall_forall _ _) (of_acc _ Hok) r Hr) as Hacc. rewrite <- Ha.
  by rewrite <- Z.land_assoc, Hacc, Z.land_0_r.
Qed.

Lemma has_all_true x f : has_all x f = true <-> Z.land x f = f.
Proof. unfold has_all. apply Z.eqb_eq. Qed.

(** Without O_SYNC set, the host word does not read as O_SYNC. *)
Lemma no_sync_back x86_64 lin acc :
  oflags_ok x86_64 -> Z.land acc LIN_O_ACCMODE = acc ->
  negb (unsupported (host_const "O_SYNC")) &&
  has_all (Z.lor acc (union (chosen lin) (kOflags x86_64))) (host_const "O_SYNC") = false.
Proof.
  intros Hok Hacc. destruct (unsupported (host_const "O_SYNC")) eqn:Hu; [done|]. simpl.
  destruct (of_sync _ Hok Hu) as (Hs & Hown & Hrest).
  apply not_true_is_false. intros Hall%has_all_true. apply Hown.
  assert (Hch : Z.land (union (chosen lin) (kOflags x86_64))
                  (Z.ldiff (host_const "O_SYNC") (host_const "O_DSYNC")) = 0).
  { apply union_land. eapply Forall_impl; [exact Hrest|]. intros [[name bit] d] Hr.
    unfold chosen. destruct (has _ _); [|done]. destruct Hr as [Hr|Hr].
    - cbn in Hr. subst name. unfold row_host. destruct (unsupported (host_const "O_DSYNC")); [done|]. clear. words.
    - clear -Hr. words. }
  set (u := union _ _) in *. set (s := host_const "O_SYNC") in *. set (d := host_const "O_DSYNC") in *.
  clearbody u s d. clear -Hs Hall Hch Hacc. words.
Qed.

Lemma chosen_sync x86_64 lin :
  oflags_ok x86_64 -> unsupported (host_const "O_SYNC") = false -> has lin 4096 = false ->
  Z.land (union (chosen lin) (kOflags x86_64)) (host_const "O_SYNC") = 0.
Proof.
  intros Hok Hu Hlin. destruct (of_sync _ Hok Hu) as (_ & _ & Hrest).
  apply union_land. apply Forall_forall. intros r Hr.
  pose proof (proj1 (Forall_forall _ _) Hrest r Hr) as Hsync. unfold chosen.
  destruct (has lin (row_bit r)) eqn:Hhas; [|by rewrite Z.land_0_l].
  destruct Hsync as [Hname|Hsync]; [|done]. exfalso.
  assert (Hrow : row_bit r = 4096); [|by rewrite Hrow, Hlin in Hhas].
  clear Hhas. revert r Hr Hname.
  apply (proj1 (Forall_forall (fun r => fst (fst r) = "O_DSYNC"%string -> row_bit r = 4096) _)).
  destruct x86_64; repeat constructor; intros Hn; cbn in Hn; first [discriminate Hn | reflexivity].
Qed.

Lemma tmpfile_skipped (x86_64 linux windows : bool) lin lin' host :
  has_all lin (SHIM_LIN_O_TMPFILE x86_64) = false ->
  Z.land lin' (SHIM_LIN_O_TMPFILE x86_64) = Z.land lin (SHIM_LIN_O_TMPFILE x86_64) ->
  tmpfile_to_host x86_64 linux windows lin' host = Ok (lin', host).
Proof.
  intros Hno Heq. unfold tmpfile_to_host. unfold has_all in Hno |- *. by rewrite Heq, Hno.
Qed.

Definition big_flags (x86_64 : bool) : Z :=
  Z.lor LIN_O_ACCMODE (Z.lor (SHIM_LIN_O_LARGEFILE x86_64) SHIM_LIN_O_SYNC).

(** C14: the flags a file was opened with read back. For every word without
    O_TMPFILE that the shim accepts, F_GETFL's translation of the host's
    word gives the caller's word again, less O_LARGEFILE and the hints the
    host has no flag for: on any host that keeps its flags apart, with
    O_SYNC overlapping O_DSYNC on either side. *)
Theorem open_flags_read_back (x86_64 linux windows : bool) lin h :
  oflags_ok x86_64 ->
  has_all lin (SHIM_LIN_O_TMPFILE x86_64) = false ->
  oflags_to_host x86_64 linux windows lin = Ok h ->
  oflags_to_linux x86_64 h =
  Z.ldiff lin (Z.lor (SHIM_LIN_O_LARGEFILE x86_64) (oflags_dropped x86_64)).
Proof.
  intros Hok Htmp Hto. unfold oflags_to_host, sync_to_host in Hto.
  set (acc := Z.land lin LIN_O_ACCMODE) in *.
  set (lin0 := Z.ldiff (Z.ldiff lin LIN_O_ACCMODE) (SHIM_LIN_O_LARGEFILE x86_64)) in *.
  assert (Hacc : Z.land acc LIN_O_ACCMODE = acc) by (unfold acc; bitwise).
  assert (Hd : Z.land (oflags_dropped x86_64) (Z.lor LIN_O_ACCMODE SHIM_LIN_O_SYNC) = 0)
    by (apply dropped_apart; destruct x86_64; repeat constructor; intros Hdr; discriminate Hdr || reflexivity).
  assert (Hb : Z.land (big_flags x86_64) (SHIM_LIN_O_TMPFILE x86_64) = 0) by by destruct x86_64.
  assert (Hl : Z.land (SHIM_LIN_O_LARGEFILE x86_64) (Z.lor LIN_O_ACCMODE SHIM_LIN_O_SYNC) = 0)
    by by destruct x86_64.
  unfold big_flags in Hb. unfold oflags_to_linux. rewrite foldl_lor.
  destruct (has_all lin0 SHIM_LIN_O_SYNC) eqn:Hsync.
  - destruct (unsupported (host_const "O_SYNC")) eqn:Hu; [done|].
    rewrite (tmpfile_skipped _ _ _ lin) in Hto by (done || (unfold lin0; words)).
    destruct (oflag_rows _ _ _) as [[lin' h']|] eqn:Hrows; [|done].
    destruct (Z.eqb_spec lin' 0) as [->|]; [|done]. injection Hto as <-.
    apply oflag_rows_Ok in Hrows as (Hz & -> & Hall); [|apply kOflags_apart].
    assert (H4096 : has (Z.ldiff lin0 SHIM_LIN_O_SYNC) 4096 = false).
    { apply has_false. change 4096 with (Z.land SHIM_LIN_O_SYNC 4096). words. }
    pose proof (chosen_sync x86_64 _ Hok Hu H4096) as Hcs.
    destruct (of_sync _ Hok Hu) as (Hs3 & _ & _). pose proof (chosen_acc x86_64 (Z.ldiff lin0 SHIM_LIN_O_SYNC) Hok) as Hc3.
    set (s := host_const "O_SYNC") in *. set (u := union (chosen _) _) in *.
    assert (has_all (Z.lor (Z.lor acc s) u) s = true) as -> by (apply has_all_true; words).
    cbn [negb andb].
    assert (Z.ldiff (Z.lor (Z.lor acc s) u) s = Z.lor (Z.ldiff acc s) u) as -> by words.
    unfold u. rewrite back_union by (done || words). rewrite union_kept by (apply kOflags_bits || apply kOflags_apart || done).
    fold u. fold (oflags_dropped x86_64). apply has_all_true in Hsync.
    set (D := oflags_dropped x86_64) in *. set (U := union row_bit _) in *.
    unfold lin0, acc in *. clearbody s u D U. clear -Hz Hsync Hd Hl Hs3 Hc3 Hcs.
    set (L := SHIM_LIN_O_LARGEFILE x86_64) in *. clearbody L.
    set (A := LIN_O_ACCMODE) in *. set (S := SHIM_LIN_O_SYNC) in *. clearbody A S. words.
  - rewrite (tmpfile_skipped _ _ _ lin) in Hto by (done || (unfold lin0; words)).
    destruct (oflag_rows _ _ _) as [[lin' h']|] eqn:Hrows; [|done].
    destruct (Z.eqb_spec lin' 0) as [->|]; [|done]. injection Hto as <-.
    apply oflag_rows_Ok in Hrows as (Hz & -> & Hall); [|apply kOflags_apart].
    rewrite no_sync_back by done. rewrite back_union by done.
    rewrite union_kept by (apply kOflags_bits || apply kOflags_apart || done).
    fold (oflags_dropped x86_64). pose proof (chosen_acc x86_64 lin0 Hok) as Hc3.
    set (u := union (chosen _) _) in *. set (D := oflags_dropped x86_64) in *. set (U := union row_bit _) in *.
    unfold lin0, acc in *. clearbody u D U. clear -Hz Hd Hl Hc3.
    set (L := SHIM_LIN_O_LARGEFILE x86_64) in *. clearbody L.
    set (A := LIN_O_ACCMODE) in *. set (S := SHIM_LIN_O_SYNC) in *. clearbody A S. words.
Qed.

(** What the accepted words are made of. *)
Definition oflags_known (x86_64 : bool) : Z :=
  Z.lor (Z.lor LIN_O_ACCMODE (SHIM_LIN_O_LARGEFILE x86_64))
    (Z.lor (Z.lor SHIM_LIN_O_SYNC (SHIM_LIN_O_TMPFILE x86_64)) (union row_bit (kOflags x86_64))).

Lemma sync_to_host_cases lin host :
  match sync_to_host lin host with
  | Ok w => Z.ldiff lin SHIM_LIN_O_SYNC = Z.ldiff (fst w) SHIM_LIN_O_SYNC
  | Err e => e = EOPNOTSUPP
  end.
Proof. unfold sync_to_host. destruct (has_all _ _), (unsupported (host_const "O_SYNC")); try done. simpl. words. Qed.

Lemma tmpfile_to_host_cases (x86_64 linux windows : bool) lin host :
  match tmpfile_to_host x86_64 linux windows lin host with
  | Ok w => Z.ldiff lin (SHIM_LIN_O_TMPFILE x86_64) = Z.ldiff (fst w) (SHIM_LIN_O_TMPFILE x86_64)
  | Err e => e = EOPNOTSUPP
  end.
Proof.
  unfold tmpfile_to_host. destruct (has_all _ _), (negb linux && negb windows); try done.
  simpl. generalize (SHIM_LIN_O_TMPFILE x86_64). intros. words.
Qed.

Lemma oflag_rows_Err tbl lin host e : oflag_rows tbl lin host = Err e -> e = EOPNOTSUPP.
Proof.
  revert lin host. induction tbl as [|[[name bit] d] tbl IH]; intros lin host Hr; simpl in Hr; [done|].
  destruct (has lin bit); simpl in Hr; [|eauto].
  destruct (unsupported _); simpl in Hr; [|eauto]. destruct d; simpl in Hr; [eauto|congruence].
Qed.

Lemma oflags_unknown (x86_64 linux windows : bool) lin :
  has lin (Z.lnot (oflags_known x86_64)) = true ->
  exists e, e ∈ [EINVAL; EOPNOTSUPP] /\ oflags_to_host x86_64 linux windows lin = Err e.
Proof.
  intros Hhas. apply has_true in Hhas. rewrite <- Z.ldiff_land in Hhas. unfold oflags_to_host.
  set (lin0 := Z.ldiff (Z.ldiff lin LIN_O_ACCMODE) (SHIM_LIN_O_LARGEFILE x86_64)).
  pose proof (sync_to_host_cases lin0 (Z.land lin LIN_O_ACCMODE)) as Hs.
  destruct (sync_to_host _ _) as [[lin1 h1]|e]; [|subst; exists EOPNOTSUPP; split; [set_solver|done]].
  pose proof (tmpfile_to_host_cases x86_64 linux windows lin1 h1) as Ht.
  destruct (tmpfile_to_host _ _ _ _ _) as [[lin2 h2]|e]; [|subst; exists EOPNOTSUPP; split; [set_solver|done]].
  destruct (oflag_rows _ lin2 h2) as [[lin3 h3]|e] eqn:Hr;
    [|apply oflag_rows_Err in Hr; subst; exists EOPNOTSUPP; split; [set_solver|done]].
  apply oflag_rows_Ok in Hr as (Hz & _ & _); [|apply kOflags_apart].
  destruct (Z.eqb_spec lin3 0) as [->|]; [|exists EINVAL; split; [set_solver|done]].
  exfalso. apply Hhas. unfold oflags_known. simpl in Hs, Ht. unfold lin0 in Hs.
  generalize dependent (union row_bit (kOflags x86_64)). clear lin0 Hhas. revert Hs Ht.
  generalize (SHIM_LIN_O_LARGEFILE x86_64), (SHIM_LIN_O_TMPFILE x86_64), SHIM_LIN_O_SYNC, LIN_O_ACCMODE.
  intros L T S A Hs Ht U Hz. words.
Qed.

Lemma at_bit_Ok bit host w w' : at_bit bit host w = Ok w' -> fst w' = Z.ldiff (fst w) bit.
Proof.
  destruct w as [lin out]. unfold at_bit. destruct (has lin bit) eqn:Hb; simpl.
  - destruct (host =? 0); [done|]. by intros [= <-].
  - intros [= <-]. simpl. apply has_false in Hb. words.
Qed.

Lemma at_bit_Err bit host w e : at_bit bit host w = Err e -> e = EOPNOTSUPP.
Proof. destruct w as [lin out]. unfold at_bit. destruct (has lin bit), (host =? 0); simpl; congruence. Qed.

Lemma has_ldiff_unknown lin bit x : has lin x = true -> Z.land bit x = 0 -> has (Z.ldiff lin bit) x = true.
Proof. intros Hx Hb. rewrite <- Hx. by apply has_ldiff_apart. Qed.

Lemma has_nonzero lin x : has lin x = true -> (lin =? 0) = false.
Proof. intros Hx. apply Z.eqb_neq. intros ->. by rewrite has_0_l in Hx. Qed.
End flag_words.

(** ** Refused flags *)

Section calls_spec.
Context {W : Type} `{HostConsts} `{Pids} `{ProcTables} `{SysInfo} `{ProcHost W} `{FileHost W}.
Context (x86_64 linux windows hosted busy use_syscalls : bool) (ncpu : Z) (PATH_MAX : nat).
#[local] Existing Instance open_flags.

(** Decides that a word is not 0 from a bit [Hx] that no translation took. *)
Ltac unknown_bits Hx :=
  match goal with |- context [?l =? 0] =>
    assert ((l =? 0) = false) as ->
      by (eapply has_nonzero; repeat first [exact Hx | eapply has_ldiff_unknown]; reflexivity)
  end; cbn [negb].

(** A call that fails with one of the two codes and does nothing else. *)
Definition refused {A} (m : M W (res A)) : Prop :=
  exists e, e ∈ [EINVAL; EOPNOTSUPP] /\ forall w, m w = Some (Err e, w).

Lemma refused_now {A} e : e ∈ [EINVAL; EOPNOTSUPP] -> @refused A (mret (Err e)).
Proof. intros He. by exists e. Qed.

Lemma refused_at_bit {A} bit host w (k : Z * Z -> M W (res A)) :
  (forall w', fst w' = Z.ldiff (fst w) bit -> refused (k w')) ->
  refused (match at_bit bit host w with Err e => mret (Err e) | Ok w' => k w' end).
Proof.
  intros Hk. destruct (at_bit bit host w) as [w'|e] eqn:Hb.
  - apply Hk. by apply at_bit_Ok in Hb.
  - apply at_bit_Err in Hb as ->. apply refused_now. set_solver.
Qed.

(** a call whose flags word has a bit the shim does not know fails with
    EINVAL or EOPNOTSUPP, and nothing else happens: no host call, no new
    descriptor, no table touched. *)
Theorem unknown_flags_refused path path' dirfd dirfd' mode amode times lin :
  (has lin (Z.lnot (oflags_known x86_64)) = true ->
     refused (shim_open x86_64 linux windows hosted busy use_syscalls ncpu path lin mode) /\
     refused (shim_openat x86_64 linux windows hosted busy use_syscalls ncpu dirfd path lin mode) /\
     refused (shim_pipe2 x86_64 linux windows use_syscalls lin)) /\
  (has lin (Z.lnot SHIM_LIN_AT_REMOVEDIR) = true -> refused (shim_unlinkat dirfd path lin)) /\
  (has lin (Z.lnot (Z.lor SHIM_LIN_AT_SYMLINK_FOLLOW SHIM_LIN_AT_EMPTY_PATH)) = true ->
     refused (shim_linkat dirfd path dirfd' path' lin)) /\
  (has lin (Z.lnot (Z.lor SHIM_LIN_AT_EACCESS SHIM_LIN_AT_SYMLINK_FOLLOW)) = true ->
     refused (shim_faccessat windows hosted busy dirfd path amode lin)) /\
  (has lin (Z.lnot SHIM_LIN_AT_SYMLINK_NOFOLLOW) = true -> refused (shim_utimensat dirfd path times lin)) /\
  (has lin (Z.lnot (Z.lor (Z.lor SHIM_LIN_AT_SYMLINK_NOFOLLOW SHIM_LIN_AT_EMPTY_PATH)
                      SHIM_LIN_AT_NO_AUTOMOUNT)) = true -> path <> [] ->
     refused (shim_fstatat windows hosted busy PATH_MAX dirfd path lin)).
Proof.
  assert (He : EINVAL ∈ [EINVAL; EOPNOTSUPP]) by set_solver.
  repeat split.
  1-3: intros; destruct (oflags_unknown x86_64 linux windows lin) as (e & Hin & Hto); [done|];
    unfold shim_open, shim_openat, shim_pipe2; rewrite Hto; by apply refused_now.
  - intros Hx. unfold shim_unlinkat. apply refused_at_bit. intros [l o] Hl. simpl in Hl. subst l.
    unknown_bits Hx. by apply refused_now.
  - intros Hx. unfold shim_linkat. apply refused_at_bit. intros w1 Hw1. apply refused_at_bit. intros [l o] Hl.
    simpl in Hw1, Hl. subst l. rewrite Hw1. unknown_bits Hx. by apply refused_now.
  - intros Hx. unfold shim_faccessat, faccessat_flags. destruct (negb (host_const "AT_EACCESS" =? 0)).
    + destruct (at_bit SHIM_LIN_AT_EACCESS _ _) as [w1|e] eqn:Hw1;
        [|apply at_bit_Err in Hw1 as ->; apply refused_now; set_solver].
      apply at_bit_Ok in Hw1. apply refused_at_bit. intros [l o] Hl.
      simpl in Hw1, Hl. subst l. rewrite Hw1. unknown_bits Hx. by apply refused_now.
    + apply refused_at_bit. intros [l o] Hl. simpl in Hl. subst l. unknown_bits Hx. by apply refused_now.
  - intros Hx. unfold shim_utimensat. apply refused_at_bit. intros [l o] Hl. simpl in Hl. subst l.
    unknown_bits Hx. by apply refused_now.
  - intros Hx Hpath. unfold shim_fstatat, fstatat_flags. rewrite bool_decide_eq_false_2 by done. cbn [andb].
    destruct (at_bit SHIM_LIN_AT_SYMLINK_NOFOLLOW _ _) as [w1|e] eqn:Hw1;
      [|apply at_bit_Err in Hw1 as ->; apply refused_now; set_solver].
    apply at_bit_Ok in Hw1. apply refused_at_bit. intros [l o] Hl.
    simpl in Hw1, Hl. subst l. rewrite Hw1. unknown_bits Hx. by apply refused_now.
Qed.

(** ** The spellings of one question *)

(** POSIX: stat and lstat are fstatat from the working directory, access is
    faccessat; and the host can not follow a link. *)
Record host_stat_ok : Prop := {
  hs_stat p w : f_call _ (H_stat p) w = f_call _ (H_fstatat (host_const "AT_FDCWD") p 0) w;
  hs_lstat p w : f_call _ (H_lstat p) w =
    f_call _ (H_fstatat (host_const "AT_FDCWD") p (host_const "AT_SYMLINK_NOFOLLOW")) w;
  hs_access p m w : f_call _ (H_access Access p m) w = f_call _ (H_faccessat (host_const "AT_FDCWD") p m 0) w;
  hs_nofollow : host_const "AT_SYMLINK_NOFOLLOW" <> 0 }.

Lemma host_ext {A} (c c' : fcall A) (w : W) : f_call A c w = f_call A c' w -> host c w = host c' w.
Proof. unfold host, step. by intros ->. Qed.

Lemma with_suffix_ext {A} dirfd path (call call' : cstr -> M W (res A)) w :
  (forall p w, call p w = call' p w) ->
  with_suffix windows dirfd path call w = with_suffix windows dirfd path call' w.
Proof.
  intros Hc. unfold with_suffix. apply bind_ext; [apply Hc|]. intros [a|[]] w'; try done.
  apply bind_ext; [done|]. intros [buf|] w''; [apply Hc|done].
Qed.

Lemma stat_with_ext dirfd hdirfd path nofollow call call' w :
  (forall p w, call p w = call' p w) ->
  stat_with windows hosted busy PATH_MAX dirfd hdirfd path nofollow call w =
  stat_with windows hosted busy PATH_MAX dirfd hdirfd path nofollow call' w.
Proof.
  intros Hc. unfold stat_with. apply bind_ext; [done|]. intros [r|] w'; [done|].
  apply bind_ext; [by apply with_suffix_ext|done].
Qed.

Lemma has_diag x : x <> 0 -> has x x = true.
Proof. intros Hx. apply has_true. by rewrite Z.land_diag. Qed.

(** An fstatat without the empty path, reduced to the host's flags. *)
Lemma fstatat_nofollow dirfd path :
  host_const "AT_SYMLINK_NOFOLLOW" <> 0 ->
  let nofollow := host_const "AT_SYMLINK_NOFOLLOW" in
  shim_fstatat windows hosted busy PATH_MAX dirfd path SHIM_LIN_AT_SYMLINK_NOFOLLOW =
  let h := if lstat_must_follow path then 0 else nofollow in
  stat_with windows hosted busy PATH_MAX dirfd (at_fdcwd dirfd) path
    (negb (lstat_must_follow path)) (fun p => host (H_fstatat (at_fdcwd dirfd) p h)).
Proof.
  intros Hno. unfold shim_fstatat, fstatat_flags, at_bit.
  change (has SHIM_LIN_AT_SYMLINK_NOFOLLOW SHIM_LIN_AT_EMPTY_PATH) with false. rewrite andb_false_r.
  change (has SHIM_LIN_AT_SYMLINK_NOFOLLOW SHIM_LIN_AT_SYMLINK_NOFOLLOW) with true. cbn [negb].
  rewrite (proj2 (Z.eqb_neq _ _) Hno). rewrite Z.lor_0_l.
  change (has (Z.ldiff SHIM_LIN_AT_SYMLINK_NOFOLLOW SHIM_LIN_AT_SYMLINK_NOFOLLOW) SHIM_LIN_AT_EMPTY_PATH) with false.
  cbn -[has Z.land Z.ldiff stat_with host]. rewrite has_diag by done. simpl.
  destruct (lstat_must_follow path); simpl; [|by rewrite has_diag].
  rewrite Z.ldiff_diag, has_0_l. done.
Qed.

Lemma faccessat_flags_0 : faccessat_flags 0 = Ok (0, 0).
Proof.
  unfold faccessat_flags, at_bit. rewrite !has_0_l.
  destruct (host_const "AT_EACCESS" =? 0); cbn [negb]; by rewrite ?has_0_l.
Qed.

(** stat, lstat and access say what fstatat and faccessat say of the
    same name from the working directory, suffix retry, links of the tree
    and trailing slashes included. What the tree itself answers, stat
    passes on, and access agrees with it: absent is absent, present is
    readable and never writable. *)
Theorem stat_family_agrees path amode w :
  host_stat_ok ->
  shim_stat windows hosted busy PATH_MAX path w =
    shim_fstatat windows hosted busy PATH_MAX SHIM_LIN_AT_FDCWD path 0 w /\
  shim_lstat windows hosted busy PATH_MAX path w =
    shim_fstatat windows hosted busy PATH_MAX SHIM_LIN_AT_FDCWD path SHIM_LIN_AT_SYMLINK_NOFOLLOW w /\
  shim_access windows hosted busy Access path amode w =
    shim_faccessat windows hosted busy SHIM_LIN_AT_FDCWD path amode 0 w /\
  (forall which hmode r w',
     amode_to_host amode = Ok hmode ->
     procfs_vstat hosted windows busy (host_const "AT_FDCWD") path false w = Some (Some r, w') ->
     shim_stat windows hosted busy PATH_MAX path w = Some (r, w') /\
     shim_access windows hosted busy which path amode w =
       Some (match r with
             | Err e => Err e
             | Ok _ => if has hmode (host_const "W_OK") then Err EACCES else Ok 0
             end, w')).
Proof.
  intros Hok.
  assert (Hstat : shim_stat windows hosted busy PATH_MAX path w =
    shim_fstatat windows hosted busy PATH_MAX SHIM_LIN_AT_FDCWD path 0 w).
  { unfold shim_fstatat. rewrite has_0_l, andb_false_r. unfold fstatat_flags, at_bit. rewrite !has_0_l.
    cbn -[host stat_with has]. rewrite !has_0_l. apply stat_with_ext. intros p w1. apply host_ext, (hs_stat Hok). }
  split; [done|]. split; [|split].
  - rewrite fstatat_nofollow by apply (hs_nofollow Hok). unfold shim_lstat.
    destruct (lstat_must_follow path); apply stat_with_ext; intros p w1; apply host_ext;
      [apply (hs_stat Hok)|apply (hs_lstat Hok)].
  - unfold shim_access, shim_faccessat. rewrite faccessat_flags_0.
    change (negb (0 =? 0)) with false. cbv iota.
    destruct (amode_to_host amode) as [hm|]; [|done]. unfold access_with. apply bind_ext; [done|].
    intros [r|] w1; [done|]. apply with_suffix_ext. intros p w2. apply host_ext, (hs_access Hok).
  - intros which hmode r w' Hm Hv. split.
    + unfold shim_stat, stat_with, vstat. by rewrite (bind_run _ _ _ _ _ Hv).
    + unfold shim_access. rewrite Hm. unfold access_with, procfs_vaccess, vstat.
      unfold mbind, M_bind. rewrite Hv. by destruct r.
Qed.

(** ** readdir and fstatat through one descriptor *)

(** A name as a directory entry has it. *)
Record dir_name (name : cstr) : Prop := {
  dn_chars : Forall (fun c => c <> 0) name;
  dn_some : name <> [];
  dn_slash : has_slash name = false;
  dn_dots : name <> [46] /\ name <> [46; 46] }.

Lemma strrchr_none s c : existsb (fun x => x =? c) s = false -> strrchr s c = None.
Proof.
  induction s as [|x s IH]; simpl; [done|]. intros [Hx Hs]%orb_false_iff. by rewrite IH, Hx.
Qed.

Lemma dir_name_base name : dir_name name -> base_name name = name.
Proof. intros Hn. unfold base_name. by rewrite strrchr_none by apply Hn. Qed.

Lemma has_slash_byte name i : has_slash name = false -> (name.[i] =? 47) = false.
Proof.
  unfold byte_at. revert i. induction name as [|c s IH]; intros [|i]; simpl; try done;
    intros [Hc Hs]%orb_false_iff; auto.
Qed.

Lemma dir_name_no_follow name : dir_name name -> lstat_must_follow name = false.
Proof.
  intros Hn. unfold lstat_must_follow. destruct name as [|c s] eqn:Hname; [done|]. rewrite <- Hname in *.
  rewrite has_slash_byte, dir_name_base by apply Hn || done.
  destruct (dn_dots _ Hn). by rewrite !bool_decide_eq_false_2.
Qed.

Lemma dir_name_no_dots name : dir_name name -> has_dots (length name) name = false.
Proof.
  intros Hn. destruct (dn_dots _ Hn). pose proof (dn_some _ Hn). pose proof (dn_slash _ Hn) as Hs.
  destruct name as [|c s] eqn:Hname; [done|]. rewrite <- Hname in *.
  assert (length name = S (length s)) as -> by by subst.
  rewrite Hname at 1. cbn [has_dots]. rewrite <- Hname.
  rewrite name_len_clean by done. rewrite take_ge by lia. rewrite drop_ge by lia.
  rewrite !bool_decide_eq_false_2 by done. simpl. destruct (length s); done.
Qed.

(** Joined to a tracked directory, an entry's name is its virtual path. *)
Lemma join_entry fd name s t :
  hosted = true -> busy = false -> 0 <= fd -> dir_name name ->
  track_get (p_track s) (p_fds s) fd = Some t -> (length (t_vpath t ++ 47%Z :: name) < PATH_MAX)%nat ->
  procfs_join hosted busy (p_track s) (p_fds s) fd name PATH_MAX = Some (t_vpath t ++ 47 :: name).
Proof.
  intros -> -> Hfd Hn Ht Hlen. unfold procfs_join.
  destruct (Z.ltb_spec fd 0); [lia|]. rewrite has_slash_byte by apply Hn.
  assert ((name.[0] =? 0) = false) as ->.
  { pose proof (dn_some _ Hn). pose proof (dn_chars _ Hn) as Hc. destruct name as [|c r]; [done|].
    apply Forall_cons in Hc as [Hc _]. by apply Z.eqb_neq. }
  simpl. rewrite Ht, dir_name_no_dots by done. by rewrite bool_decide_eq_true_2.
Qed.

Lemma link_mode_in_proc v : procfs_link_mode hosted v <> 0 -> in_proc v = true.
Proof.
  unfold procfs_link_mode, below_proc, in_proc. destruct hosted; [|done]. simpl.
  by destruct (bool_decide _).
Qed.

Lemma mode_type_link v : procfs_link_mode hosted v <> 0 ->
  mode_type (Z.lor S_IFLNK (procfs_link_mode hosted v)) = S_IFLNK.
Proof.
  unfold procfs_link_mode. destruct hosted; [|done]. simpl.
  destruct (below_proc v); [|done]. apply link_type.
Qed.

(** on Windows, what readdir calls a symbolic link is what a no-follow
    fstatat through the same directory descriptor calls one, for every name
    a directory can hold; anything else comes through both calls as the host
    reported it. *)
Theorem readdir_agrees_with_fstatat fd name type st t w w1 w2 :
  windows = true -> hosted = true -> busy = false -> 0 <= fd ->
  host_const "AT_SYMLINK_NOFOLLOW" <> 0 ->
  dir_name name -> (length (t_vpath t ++ 47%Z :: name) < PATH_MAX)%nat ->
  f_call _ (H_readdir fd) w = (Ok (Some (name, type)), w1) -> type <> DT_LNK ->
  track_get (p_track (ph_state w1)) (p_fds (ph_state w1)) fd = Some t ->
  f_call _ (H_fstatat fd name (host_const "AT_SYMLINK_NOFOLLOW")) w1 = (Ok st, w2) ->
  mode_type (st_mode st) <> S_IFLNK -> ph_state w2 = ph_state w1 ->
  exists type' st',
    shim_readdir hosted busy PATH_MAX fd w = Some (Ok (Some (name, type')), w1) /\
    shim_fstatat windows hosted busy PATH_MAX fd name SHIM_LIN_AT_SYMLINK_NOFOLLOW w1 = Some (Ok st', w2) /\
    (type' = DT_LNK <-> mode_type (st_mode st') = S_IFLNK) /\
    (type' <> DT_LNK -> type' = type /\ st' = st).
Proof.
  intros Hwin Hh Hb Hfd Hno Hn Hlen Hread Htype Ht Hstat Hmode Hkeep.
  set (v := t_vpath t ++ 47 :: name) in *. set (lm := procfs_link_mode hosted v).
  exists (if lm =? 0 then type else DT_LNK), (if lm =? 0 then st else
    Stat (Z.lor S_IFLNK lm) 1 0 (st_blksize st) (st_blocks st) (st_dev st) (st_ino st) (st_time st)).
  split; [|split].
  - unfold shim_readdir, host. autorewrite with run. rewrite Hread. cbn [fst snd]. autorewrite with run.
    unfold fix_dirent. rewrite Hh, Hb, Ht. destruct (Z.ltb_spec fd 0); [lia|].
    rewrite (proj2 (Z.eqb_neq _ _) Htype). cbn [negb orb]. fold v. rewrite bool_decide_eq_true_2 by done.
    cbn [andb]. rewrite <- Hh. fold lm. by destruct (lm =? 0).
  - rewrite fstatat_nofollow by done. rewrite dir_name_no_follow by done. cbn [negb].
    assert (at_fdcwd fd = fd) as ->.
    { unfold at_fdcwd. destruct (Z.eqb_spec fd SHIM_LIN_AT_FDCWD); [|done]. unfold SHIM_LIN_AT_FDCWD in *. lia. }
    assert (Hv : vstat windows hosted busy fd name true w1 = Some (None, w1)) by (by rewrite Hwin).
    assert (Hs : with_suffix windows fd name
      (fun p => host (H_fstatat fd p (host_const "AT_SYMLINK_NOFOLLOW"))) w1 = Some (Ok st, w2)).
    { unfold with_suffix. rewrite (bind_run _ _ _ (Ok st) w2); [done|]. unfold host, step. by rewrite Hstat. }
    unfold stat_with. rewrite (bind_run _ _ _ _ _ Hv), (bind_run _ _ _ _ _ Hs).
    unfold procfs_link_stat, stat_vpath.
    assert (rooted name = false) as -> by (apply has_slash_byte, Hn).
    unfold join. rewrite <- Hkeep in Ht.
    unfold mbind, M_bind, mret, M_ret, reads.
    rewrite (join_entry fd name (ph_state w2) t) by done. fold v. fold lm.
    destruct (Z.eqb_spec lm 0) as [Hz|Hz]; [rewrite andb_false_r|rewrite (link_mode_in_proc v Hz)]; done.
  - destruct (Z.eqb_spec lm 0) as [Hz|Hz]; [done|]. split; [|done].
    split; [|done]. intros _. simpl. by apply mode_type_link.
Qed.

(** ** New descriptors *)

(** The tables of epoll.c are a part of the world of their own. *)
Record tables_apart : Prop := {
  ta_pairs t w : f_pairs (f_put_pairs t w) = t;
  ta_pairs_sets t w : f_sets (f_put_pairs t w) = f_sets w;
  ta_sets s w : f_sets (f_put_sets s w) = s;
  ta_sets_pairs s w : f_pairs (f_put_sets s w) = f_pairs w }.

(** A number that is given out anew names no recorded pipe. *)
Lemma note_new_fd_forgets fd t : 0 < fd -> pairs_ok t -> find_reader fd (note_new_fd false fd t) = None.
Proof.
  intros Hfd Hok. unfold find_reader. destruct (List.find _ _) as [p|] eqn:Hp; [|done].
  exfalso. apply find_some in Hp as [Hin Hw%Z.eqb_eq]. apply list_elem_of_In in Hin.
  assert (Hlive : pair_live p = true) by (unfold pair_live; destruct (Z.eqb_spec (pr_w p) 0); [lia|done]).
  unfold note_new_fd in Hin. destruct (Z.ltb_spec fd 0); [lia|]. simpl in Hin.
  destruct (Z.eqb_spec (g_pairs_live t) 0) as [Hz|Hz]; simpl in Hin.
  - destruct Hok as (_ & _ & Hcount & _). rewrite Hz in Hcount. unfold count_live in Hcount.
    assert (filter (fun p => pair_live p = true) (g_pairs t) = []) as Hnil
      by (apply length_zero_iff_nil; lia).
    assert (p ∈ filter (fun p => pair_live p = true) (g_pairs t)) as Hf by (apply list_elem_of_filter; done).
    rewrite Hnil in Hf. by apply elem_of_nil in Hf.
  - rewrite drop_locked_spec in Hin by done. simpl in Hin. unfold blank_names in Hin.
    apply list_elem_of_In, in_map_iff in Hin as (q & Hq & _).
    destruct (pair_names fd q) eqn:Hn; [by subst|]. subst q. unfold pair_names in Hn.
    by rewrite Hlive, (proj2 (Z.eqb_eq _ _) Hw), orb_true_r in Hn.
Qed.

(** new descriptors are known to the epoll emulation. A pipe that pipe2
    answers is found by its write end; a duplicate of an epoll descriptor,
    by either command of fcntl, names the same interest list, and no pipe
    that its number belonged to before. *)
Theorem new_descriptors_noted w :
  tables_apart -> use_syscalls = false ->
  (forall lin h r wr w1,
     oflags_to_host x86_64 linux windows lin = Ok h ->
     f_call _ (H_pipe2 h) w = (Ok (r, wr), w1) -> 0 <= r -> 0 < wr -> pairs_ok (f_pairs w1) ->
     exists w', shim_pipe2 x86_64 linux windows use_syscalls lin w = Some (Ok (r, wr), w') /\
       find_reader wr (f_pairs w') = Some r) /\
  (forall fd cmd hcmd arg fl nfd w1 i s,
     (cmd = 0 /\ hcmd = 0 \/
      cmd = SHIM_LIN_F_DUPFD_CLOEXEC /\ hcmd = host_const "F_DUPFD_CLOEXEC" /\ 0 < hcmd) ->
     memfd_of (ph_state w) fd = None ->
     f_call _ (H_fcntl fd hcmd arg) w = (Ok nfd, w1) -> 0 < nfd -> fd <> nfd ->
     sets_ok (f_sets w1) -> pairs_ok (f_pairs w1) ->
     set_by_handle_locked fd (f_sets w1) = Some i -> set_by_handle_locked nfd (f_sets w1) = None ->
     f_sets w1 !! i = Some s -> (length (es_handles s) < SHIM_EPOLL_MAX_HANDLES)%nat ->
     exists w', shim_fcntl x86_64 linux windows hosted use_syscalls fd cmd arg fl w = Some ((Ok nfd, fl), w') /\
       set_by_handle_locked nfd (f_sets w') = Some i /\ set_by_handle_locked fd (f_sets w') = Some i /\
       es_entries <$> f_sets w' !! i = Some (es_entries s) /\
       find_reader nfd (f_pairs w') = None).
Proof.
  intros Hta Hus. split.
  - intros lin h r wr w1 Hto Hcall Hr Hwr Hok. eexists. split.
    + unfold shim_pipe2. rewrite Hto. unfold host. autorewrite with run. rewrite Hcall. done.
    + rewrite (ta_pairs Hta), Hus. destruct (note_pipe_keeps r wr (f_pairs w1) Hr Hwr Hok) as [Hk _].
      by eapply kept_reader.
  - intros fd cmd hcmd arg fl nfd w1 i s Hcmd Hmem Hcall Hnfd Hne Hsok Hpok Hi Hj Hs Hlen.
    assert (Hdup : dup_cmd use_syscalls fd hcmd arg w =
      Some (Ok nfd, f_put_pairs (note_new_fd use_syscalls nfd
         (f_pairs (f_put_sets (EpollSets.note_dup use_syscalls fd nfd (f_sets w1)) w1)))
         (f_put_sets (EpollSets.note_dup use_syscalls fd nfd (f_sets w1)) w1))).
    { unfold dup_cmd, host. autorewrite with run. rewrite Hcall. done. }
    assert (Hnone : procfs_memfd_fcntl hosted fd cmd arg w = Some (None, w)).
    { unfold procfs_memfd_fcntl, state_of. autorewrite with run. destruct hosted; [|done]. simpl. by rewrite Hmem. }
    eexists. split.
    + unfold shim_fcntl. rewrite (bind_run _ _ _ _ _ Hnone).
      destruct Hcmd as [[-> ->]|(-> & Hh & Hpos)].
      * change (0 =? 0) with true. cbv iota. rewrite (bind_run _ _ _ _ _ Hdup). done.
      * cbn [Z.eqb Pos.eqb SHIM_LIN_F_DUPFD_CLOEXEC SHIM_LIN_F_GETLK SHIM_LIN_F_SETLK SHIM_LIN_F_SETLKW
             SHIM_LIN_F_SETOWN SHIM_LIN_F_GETOWN].
        rewrite !andb_false_r. rewrite <- Hh. rewrite (proj2 (Z.ltb_lt _ _) Hpos).
        rewrite (bind_run _ _ _ _ _ Hdup). done.
    + rewrite (ta_pairs_sets Hta), (ta_sets Hta), (ta_pairs Hta), (ta_sets_pairs Hta), Hus.
      destruct (EpollSets.note_dup_names fd nfd (f_sets w1) i s) as (? & ? & ?); try done.
      split_and!; try done. by apply note_new_fd_forgets.
Qed.
End calls_spec.

(** ** A small host

    XNU's flags, one file, and a tracked directory of the tree. *)
Definition xnu_rows : list (string * Z) :=
  [ ("O_CREAT"%string, 0x200); ("O_EXCL"%string, 0x800); ("O_TRUNC"%string, 0x400); ("O_APPEND"%string, 8);
    ("O_NONBLOCK"%string, 4); ("O_CLOEXEC"%string, 0x1000000); ("O_DIRECTORY"%string, 0x100000);
    ("O_NOFOLLOW"%string, 0x100); ("O_PATH"%string, 0xffffffff); ("O_DSYNC"%string, 0x400000);
    ("O_NOCTTY"%string, 0x20000); ("O_ASYNC"%string, 0x40); ("O_SYNC"%string, 0x80);
    ("AT_FDCWD"%string, -2); ("AT_SYMLINK_NOFOLLOW"%string, 32); ("AT_SYMLINK_FOLLOW"%string, 64);
    ("R_OK"%string, 4); ("W_OK"%string, 2); ("X_OK"%string, 1); ("F_DUPFD_CLOEXEC"%string, 67) ].

#[local] Instance xnu_consts : HostConsts := {|
  host_const name := default 0 (snd <$> List.find (fun row => String.eqb (fst row) name) xnu_rows);
  host_defines _ := true |}.

Lemma xnu_oflags_ok : oflags_ok true.
Proof.
  split.
  - unfold apart. repeat constructor.
  - repeat constructor.
  - intros _. split; [reflexivity|]. split; [vm_compute; discriminate|].
    repeat first [apply Forall_nil_2
                 |apply Forall_cons_2; [first [left; reflexivity|right; reflexivity]|]].
Qed.

(** O_RDWR, O_CREAT, O_SYNC, O_CLOEXEC, O_PATH and O_LARGEFILE; XNU has no
    O_PATH. *)
Lemma open_flags_read_back_witness :
  oflags_to_host true false false 0x389042 = Ok 0x1000282 /\
  oflags_to_linux true 0x1000282 = 0x181042.
Proof.
  split; [vm_compute; reflexivity|].
  rewrite (open_flags_read_back true false false 0x389042 0x1000282 xnu_oflags_ok); vm_compute; reflexivity.
Defined.

(** A world of the tree's state and epoll.c's tables. *)
Definition toy_world : Type := pstate * (pairs * list epoll_set).

Section lifted.
Context {V : Type} {T : Type} `{ProcHost V}.

Definition lift {A} (f : V -> A * V) (w : V * T) : A * (V * T) :=
  let '(a, v) := f (fst w) in (a, (v, snd w)).
Definition lift' (f : V -> V) (w : V * T) : V * T := (f (fst w), snd w).

Definition lifted_host : ProcHost (V * T) :=
  {| ph_state w := ph_state (fst w); ph_put s := lift' (ph_put s); ph_alloc := lift ph_alloc;
     ph_reservefd := lift ph_reservefd; ph_releasefd fd := lift' (ph_releasefd fd);
     ph_dup_stderr := lift ph_dup_stderr; ph_open_null := lift ph_open_null;
     ph_ensurefds fd := lift' (ph_ensurefds fd); ph_close fd := lift' (ph_close fd);
     ph_open p f := lift (ph_open p f); ph_stat p := lift (ph_stat p); ph_now := lift ph_now;
     ph_addr fd w := ph_addr fd (fst w); pc_content_gen v := lift (pc_content_gen v);
     pc_pid_content pid n := lift (pc_pid_content pid n); pfs_gen_top_file n := lift (pfs_gen_top_file n);
     pfs_gen_net_file n := lift (pfs_gen_net_file n); pc_gen_sysfs n := lift (pc_gen_sysfs n) |}.
End lifted.

#[local] Instance toy_open_host : ProcHost toy_world := @lifted_host _ _ toy_proc_host.
#[local] Existing Instances toy_pids toy_tables toy_info.

Definition toy_file : stat := Stat (Z.lor S_IFREG 420) 1 12 4096 8 1 2 (Timespec 0 0).

Definition toy_stat_of (p : cstr) : res stat :=
  if bool_decide (p ∈ [bytes "/tmp/a"; bytes "exe"; bytes "stat"]) then Ok toy_file else Err ENOENT.

Definition toy_call (A : Type) (c : fcall A) : toy_world -> A * toy_world :=
  match c in fcall A return toy_world -> A * toy_world with
  | H_open _ _ _ | H_openat _ _ _ _ => fun w => (Ok 9, w)
  | H_opendir _ | H_fdopendir _ => fun w => (Ok 9, w)
  | H_readdir _ => fun w => (Ok (Some (bytes "exe", DT_REG)), w)
  | H_lseek _ off _ => fun w => (Ok off, w)
  | H_fstat _ => fun w => (Ok toy_file, w)
  | H_stat p | H_lstat p | H_fstatat _ p _ => fun w => (toy_stat_of p, w)
  | H_pipe2 _ => fun w => (Ok (7, 8), w)
  | H_fcntl _ _ _ => fun w => (Ok 11, w)
  | H_fcntl_lock _ _ fl => fun w => ((Ok 0, fl), w)
  | H_access _ p _ | H_faccessat _ p _ _ | H_mknod p _ _ => fun w =>
      (match toy_stat_of p with Ok _ => Ok 0 | Err e => Err e end, w)
  | H_unlinkat _ _ _ | H_linkat _ _ _ _ _ | H_utimensat _ _ _ _ => fun w => (Ok 0, w)
  end.

#[local] Instance toy_file_host : FileHost toy_world := {|
  f_call := toy_call; f_pairs w := fst (snd w); f_put_pairs t w := (fst w, (t, snd (snd w)));
  f_sets w := snd (snd w); f_put_sets s w := (fst w, (fst (snd w), s));
  f_fs _ := toy_fs; procfs_list_fd _ w := w; f_phys_of _ _ := None; f_contents _ _ _ := None |}.

(** Descriptor 1 is the directory /proc/1; descriptor 4 an epoll. *)
Definition toy_start : toy_world :=
  (PState [empty_slot; FdSlot true false 77 0 0] ∅ ∅ [TrackFd 1 77 (bytes "/proc/1")],
   (pairs_init, demo_sets)).

Lemma unknown_flags_refused_witness :
  refused (shim_unlinkat (W := toy_world) 3 (bytes "/tmp/a") 1024) /\
  refused (shim_pipe2 (W := toy_world) true false false false (Z.shiftl 1 30)).
Proof.
  destruct (unknown_flags_refused (W := toy_world) true false false false false false 1 100
    (bytes "/tmp/a") [] 3 3 0 0 None 1024) as (_ & Hu & _).
  destruct (unknown_flags_refused (W := toy_world) true false false false false false 1 100
    (bytes "/tmp/a") [] 3 3 0 0 None (Z.shiftl 1 30)) as (Ho & _).
  split; [by apply Hu|]. by apply Ho.
Defined.

Lemma stat_family_agrees_witness :
  shim_lstat true true false 100 (bytes "/tmp/a") toy_start =
  shim_fstatat true true false 100 SHIM_LIN_AT_FDCWD (bytes "/tmp/a") SHIM_LIN_AT_SYMLINK_NOFOLLOW toy_start.
Proof.
  apply (stat_family_agrees true true false 100 (bytes "/tmp/a") 4 toy_start). by split.
Defined.

Lemma readdir_agrees_with_fstatat_witness :
  exists type' st',
    shim_readdir true false 100 1 toy_start = Some (Ok (Some (bytes "exe", type')), toy_start) /\
    shim_fstatat true true false 100 1 (bytes "exe") SHIM_LIN_AT_SYMLINK_NOFOLLOW toy_start =
      Some (Ok st', toy_start) /\
    (type' = DT_LNK <-> mode_type (st_mode st') = S_IFLNK) /\ (type' <> DT_LNK -> type' = DT_REG /\ st' = toy_file).
Proof.
  apply (readdir_agrees_with_fstatat true true false 100 1 (bytes "exe") DT_REG toy_file
    (TrackFd 1 77 (bytes "/proc/1")) toy_start); try done.
  - split; try done. by repeat constructor.
  - vm_compute. lia.
Defined.

Lemma new_descriptors_noted_witness :
  (exists w', shim_pipe2 true false false false SHIM_LIN_O_SYNC toy_start = Some (Ok (7, 8), w') /\
     find_reader 8 (f_pairs w') = Some 7) /\
  exists w', shim_fcntl true false false true false 4 0 10 (Flock 0 0 0 0 0) toy_start =
    Some ((Ok 11, Flock 0 0 0 0 0), w') /\ set_by_handle_locked 11 (f_sets w') = Some 0%nat.
Proof.
  destruct (new_descriptors_noted (W := toy_world) true false false true false toy_start) as [Hp Hd]; [by split|done|].
  assert (Hpairs : pairs_ok pairs_init) by (split_and!; [done|done|done|by apply Forall_replicate; left]).
  split.
  - apply (Hp _ 128 7 8 toy_start); done.
  - destruct (Hd 4 0 0 10 (Flock 0 0 0 0 0) 11 toy_start 0%nat demo_set) as (w' & Hw & Hn & _);
      try done; [by left|apply demo_sets_ok|vm_compute; lia|]. by exists w'.
Defined.
