(* ===== verification/SockHost.v ===== *)
(** * The host's socket calls

    What socket.c and packet.c ask of cosmopolitan and of Windows: one family
    of calls indexed by their answers, and the two things they read without
    asking, cosmo's descriptor table and the flags of a descriptor. A host
    that keeps a ledger of the open descriptors, of the bytes sent and of the
    bytes received is what the theorems on leaks and on what crossed a socket
    are stated over; [call_effect] says what each call does to the ledger. *)
From S2P Require Import Prelude Host.

(** struct msghdr, with the contents of what it points to. *)
Record msghdr := Msghdr {
  msg_name : option (list Z); msg_namelen : Z;
  msg_iov : list (list Z);
  msg_control : option (list Z); msg_controllen : Z;
  msg_flags : Z }.

(** struct addrinfo: the family and address; the rest is passed along. *)
Record addrinfo := Addrinfo { ai_family : Z; ai_addr : option (list Z); ai_rest : list Z }.

(** An adapter of GetAdaptersAddresses: its indices and its unicast
    addresses in order, with a NULL one as [None]. *)
Record adapter := Adapter { ad_IfIndex : Z; ad_Ipv6IfIndex : Z; ad_unicast : list (option (list Z)) }.

(** An entry of cosmo's g_fds. *)
Record fd_entry := FdEntry { fe_kind : Z; fe_handle : Z; fe_connecting : Z }.

(** Addresses are buffers with a length; what a call leaves in a buffer it
    may write to is part of its answer. *)
Definition sockbuf : Type := option (list Z) * option Z.

Inductive scall : Type -> Type :=
  | H_socket (domain type protocol : Z) : scall (res Z)
  | H_socketpair (domain type protocol : Z) : scall (res (Z * Z))
  | H_close (fd : Z) : scall (res Z)
  | H_bind (fd : Z) (addr : option (list Z)) (len : Z) : scall (res Z)
  | H_listen (fd backlog : Z) : scall (res Z)
  | H_connect (fd : Z) (addr : option (list Z)) (len : Z) : scall (res Z)
  | H_accept (fd : Z) (buf : sockbuf) : scall (res Z * sockbuf)
  | H_accept4 (fd : Z) (buf : sockbuf) (flags : Z) : scall (res Z * sockbuf)
  | H_getsockname (fd : Z) (buf : sockbuf) : scall (res Z * sockbuf)
  | H_getpeername (fd : Z) (buf : sockbuf) : scall (res Z * sockbuf)
  | H_setsockopt (fd level name : Z) (val : option (list Z)) (len : Z) : scall (res Z)
  | H_getsockopt (fd level name : Z) (buf : sockbuf) : scall (res Z * sockbuf)
  | H_send (fd : Z) (data : list Z) (flags : Z) : scall (res Z)
  | H_sendto (fd : Z) (data : list Z) (flags : Z) (addr : option (list Z)) (len : Z) : scall (res Z)
  | H_sendmsg (fd : Z) (msg : option msghdr) (flags : Z) : scall (res Z)
  | H_recv (fd n flags : Z) : scall (res (list Z))
  | H_recvfrom (fd n flags : Z) (buf : sockbuf) : scall (res (list Z) * sockbuf)
  | H_recvmsg (fd : Z) (msg : option msghdr) (flags : Z) : scall (res Z * option msghdr)
  | H_poll_now (fd events : Z) : scall (res Z)               (* one pollfd, timeout 0 *)
  | H_set_fl (fd flags : Z) : scall (res Z)                  (* fcntl(fd, F_SETFL, flags) *)
  | H_getrandom (n : Z) : scall (res (list Z))
  | H_getpid : scall Z
  | H_unlink (path : list Z) : scall (res Z)
  | H_getaddrinfo (node service : option (list Z)) (hints : option addrinfo) : scall (Z * option (list addrinfo))
  | H_getnameinfo (addr : option (list Z)) (len flags : Z) : scall (Z * (list Z * list Z))
  | H_WSAStartup (version : Z) : scall Z
  | H_WSAIoctl (handle code arg : Z) : scall (option errno)  (* None: it answered 0 *)
  | H_adapters : scall (option (list adapter)).

(** [s_fd] is an entry of g_fds, [None] past its end; [s_getfl] is
    fcntl(fd, F_GETFL). *)
Class SockHost (H : Type) := {
  s_call : forall A, scall A -> H -> A * H;
  s_fd : H -> Z -> option fd_entry;
  s_getfl : H -> Z -> res Z }.

(** ** The ledger *)

Record ledger := Ledger {
  l_open : gset Z;
  l_sent : gmap Z (list Z);
  l_got : gmap Z (list Z) }.

Definition sent_on (l : ledger) (fd : Z) : list Z := default [] (l_sent l !! fd).
Definition got_on (l : ledger) (fd : Z) : list Z := default [] (l_got l !! fd).

(** A descriptor that was not open before, with nothing sent or received. *)
Definition fresh (l : ledger) (fd : Z) (l' : ledger) : Prop :=
  0 <= fd /\ fd ∉ l_open l /\
  l' = Ledger ({[fd]} ∪ l_open l) (delete fd (l_sent l)) (delete fd (l_got l)).

Definition sent_more (l : ledger) (fd : Z) (data : list Z) : ledger :=
  Ledger (l_open l) (<[fd := sent_on l fd ++ data]> (l_sent l)) (l_got l).
Definition got_more (l : ledger) (fd : Z) (data : list Z) : ledger :=
  Ledger (l_open l) (l_sent l) (<[fd := got_on l fd ++ data]> (l_got l)).

Definition call_effect {A} (c : scall A) (l : ledger) : A -> ledger -> Prop :=
  match c in scall A return A -> ledger -> Prop with
  | H_socket _ _ _ => fun r l' => match r with Ok fd => fresh l fd l' | Err _ => l' = l end
  | H_accept _ _ | H_accept4 _ _ _ => fun r l' => match fst r with Ok fd => fresh l fd l' | Err _ => l' = l end
  | H_socketpair _ _ _ => fun r l' =>
      match r with
      | Ok (a, b) => exists l1, fresh l a l1 /\ fresh l1 b l'
      | Err _ => l' = l
      end
  | H_close fd => fun _ l' => l' = Ledger (l_open l ∖ {[fd]}) (l_sent l) (l_got l)
  | H_send fd data _ => fun r l' =>
      match r with Ok n => 0 <= n <= Z.of_nat (length data) /\ l' = sent_more l fd (take (Z.to_nat n) data) | Err _ => l' = l end
  | H_sendto fd data _ _ _ => fun r l' =>
      match r with Ok n => 0 <= n <= Z.of_nat (length data) /\ l' = sent_more l fd (take (Z.to_nat n) data) | Err _ => l' = l end
  | H_sendmsg fd msg _ => fun r l' =>
      match r with
      | Ok n => exists data, l' = sent_more l fd data
      | Err _ => l' = l
      end
  | H_recv fd n _ => fun r l' =>
      match r with Ok data => Z.of_nat (length data) <= Z.max 0 n /\ l' = got_more l fd data | Err _ => l' = l end
  | H_recvfrom fd n _ _ => fun r l' =>
      match fst r with Ok data => Z.of_nat (length data) <= Z.max 0 n /\ l' = got_more l fd data | Err _ => l' = l end
  | H_recvmsg fd _ _ => fun r l' =>
      match fst r with Ok _ => exists data, l' = got_more l fd data | Err _ => l' = l end
  | _ => fun _ l' => l' = l
  end.

Class SockLedger (H : Type) {SH : SockHost H} := {
  s_ledger : H -> ledger;
  s_call_effect : forall A (c : scall A) h,
    let '(a, h') := s_call A c h in call_effect c (s_ledger h) a (s_ledger h') }.

(** ** Programs over the host and the shim's own state *)

Section programs.
Context {S H : Type} `{SockHost H}.

(** The shim's state beside the host's: no call of the host changes it. *)
Definition ask {A} (c : scall A) : M (S * H) A :=
  step (fun w => let '(a, h) := s_call A c (snd w) in (a, (fst w, h))).

Definition getfl (fd : Z) : M (S * H) (res Z) := reads (fun w => s_getfl (snd w) fd).
Definition fd_entry_of (fd : Z) : M (S * H) (option fd_entry) := reads (fun w => s_fd (snd w) fd).

Lemma post_ask {A} (c : scall A) s h (Q : A -> S * H -> Prop) :
  (let '(a, h') := s_call A c h in Q a (s, h')) -> post (ask c) (s, h) Q.
Proof. unfold ask, post, step. simpl. by destruct (s_call A c h). Qed.

Context {HL : SockLedger H}.

Lemma post_ask_effect {A} (c : scall A) s h (Q : A -> S * H -> Prop) :
  (forall a h', s_call A c h = (a, h') -> call_effect c (s_ledger h) a (s_ledger h') -> Q a (s, h')) ->
  post (ask c) (s, h) Q.
Proof.
  intros Hq. apply post_ask. pose proof (s_call_effect A c h) as He.
  destruct (s_call A c h) as [a h'] eqn:E. by apply Hq.
Qed.
End programs.

(** One step of a program with its ledger: the rule is chosen by its head. *)
Ltac post_one :=
  lazymatch goal with
  | |- post (mbind _ _) _ _ => apply post_bind
  | |- post (mret _) _ _ => apply post_ret
  | |- post (reads _) _ _ => apply post_reads
  | |- post (modifies _) _ _ => apply post_modifies
  | |- post (getfl _) _ _ => apply post_reads
  | |- post (fd_entry_of _) _ _ => apply post_reads
  | |- post (ask _) _ _ =>
      apply post_ask_effect; let He := fresh "He" in intros ? ? _ He; cbn [call_effect] in He
  end.
Ltac post_run := repeat (post_one; cbn [fst snd]).
