(* ===== verification/ToySock.v ===== *)
(** * A host with sockets, small enough to run

    The instance of [SockHost] and [SockLedger] that the witnesses of
    Packet.v and Socket.v evaluate on: descriptors count up, what any
    descriptor sends can be read back by any other (one wire), datagrams can
    be queued for a descriptor, and one adapter has an address of either
    family. *)
From S2P Require Import Prelude Host SockHost.

Record toy_net := ToyNet {
  tn_ledger : ledger;
  tn_next : Z;
  tn_queue : list (Z * list Z);   (* datagrams for a descriptor *)
  tn_wire : list Z;
  tn_connecting : bool;           (* every socket's connect is in flight *)
  tn_room : bool;                 (* poll says writable *)
  tn_fl : Z }.                    (* F_GETFL of every descriptor *)

Definition toy_net_start : toy_net := ToyNet (Ledger {[0; 1; 2]} ∅ ∅) 0 [] [] false true 0.

Definition put_ledger (l : ledger) (t : toy_net) : toy_net :=
  ToyNet l (tn_next t) (tn_queue t) (tn_wire t) (tn_connecting t) (tn_room t) (tn_fl t).

Definition tn_fresh (t : toy_net) : Z * toy_net :=
  let fd := Z.max 0 (1 + set_fold Z.max (tn_next t) (l_open (tn_ledger t))) in
  let l := tn_ledger t in
  (fd, ToyNet (Ledger ({[fd]} ∪ l_open l) (delete fd (l_sent l)) (delete fd (l_got l)))
         (tn_next t) (tn_queue t) (tn_wire t) (tn_connecting t) (tn_room t) (tn_fl t)).

Definition tn_send (fd : Z) (data : list Z) (t : toy_net) : res Z * toy_net :=
  (Ok (Z.of_nat (length data)),
   ToyNet (sent_more (tn_ledger t) fd data) (tn_next t) (tn_queue t) (tn_wire t ++ data)
     (tn_connecting t) (tn_room t) (tn_fl t)).

(** A queued datagram if it fits, else bytes off the wire, else EAGAIN. *)
Definition tn_recv (fd n : Z) (t : toy_net) : res (list Z) * toy_net :=
  match find_index (fun d => (fst d =? fd) && (Z.of_nat (length (snd d)) <=? n)) (tn_queue t) with
  | Some i =>
      let data := default [] (snd <$> tn_queue t !! i) in
      (Ok data, ToyNet (got_more (tn_ledger t) fd data) (tn_next t) (delete i (tn_queue t)) (tn_wire t)
                  (tn_connecting t) (tn_room t) (tn_fl t))
  | None =>
      if bool_decide (tn_wire t = []) then (Err EAGAIN, t)
      else
        let data := take (Z.to_nat n) (tn_wire t) in
        (Ok data, ToyNet (got_more (tn_ledger t) fd data) (tn_next t) (tn_queue t) (drop (Z.to_nat n) (tn_wire t))
                    (tn_connecting t) (tn_room t) (tn_fl t))
  end.

Definition toy_adapter : adapter :=
  Adapter 5 0 [Some (2 :: replicate 15 0); Some (23 :: replicate 27 0)].

Definition toy_socket_call (A : Type) (c : scall A) : toy_net -> A * toy_net :=
  match c in scall A return toy_net -> A * toy_net with
  | H_socket _ _ _ => fun t => let '(fd, t) := tn_fresh t in (Ok fd, t)
  | H_socketpair _ _ _ => fun t =>
      let '(a, t) := tn_fresh t in let '(b, t) := tn_fresh t in (Ok (a, b), t)
  | H_accept _ buf | H_accept4 _ buf _ => fun t => let '(fd, t) := tn_fresh t in ((Ok fd, buf), t)
  | H_close fd => fun t =>
      let l := tn_ledger t in (Ok 0, put_ledger (Ledger (l_open l ∖ {[fd]}) (l_sent l) (l_got l)) t)
  | H_bind _ _ _ => fun t => (Ok 0, t)
  | H_listen _ _ => fun t => (Ok 0, t)
  | H_connect _ _ _ => fun t => (Ok 0, t)
  | H_getsockname _ buf | H_getpeername _ buf | H_getsockopt _ _ _ buf => fun t => ((Ok 0, buf), t)
  | H_setsockopt _ _ _ _ _ => fun t => (if tn_connecting t then Err EINVAL else Ok 0, t)
  | H_send fd data _ | H_sendto fd data _ _ _ => tn_send fd data
  | H_sendmsg fd msg _ => fun t =>
      match msg with
      | Some m => tn_send fd (concat (msg_iov m)) t
      | None => (Err EFAULT, t)
      end
  | H_recv fd n _ => tn_recv fd n
  | H_recvfrom fd n _ buf => fun t => let '(r, t) := tn_recv fd n t in ((r, buf), t)
  | H_recvmsg _ msg _ => fun t => ((Err EAGAIN, msg), t)
  | H_poll_now _ _ => fun t => (Ok (if tn_room t then 1 else 0), t)
  | H_set_fl _ fl => fun t =>
      (Ok 0, ToyNet (tn_ledger t) (tn_next t) (tn_queue t) (tn_wire t) (tn_connecting t) (tn_room t) fl)
  | H_getrandom n => fun t => (Ok (seqZ 1 n), t)
  | H_getpid => fun t => (7, t)
  | H_unlink _ => fun t => (Ok 0, t)
  | H_getaddrinfo _ _ _ => fun t => ((0, None), t)
  | H_getnameinfo _ _ _ => fun t => ((0, ([], [])), t)
  | H_WSAStartup _ => fun t => (0, t)
  | H_WSAIoctl _ _ _ => fun t => (None, t)
  | H_adapters => fun t => (Some [toy_adapter], t)
  end.

#[export] Instance toy_sock_host : SockHost toy_net := {|
  s_call := toy_socket_call;
  s_fd t fd := if bool_decide (fd ∈ l_open (tn_ledger t))
               then Some (FdEntry 4 (1000 + fd) (if tn_connecting t then 1 else 0)) else None;
  s_getfl t _ := Ok (tn_fl t) |}.

Lemma tn_fresh_ok t : let '(fd, t') := tn_fresh t in fresh (tn_ledger t) fd (tn_ledger t').
Proof.
  unfold tn_fresh, fresh. cbn [tn_ledger]. split; [lia|]. split; [|done].
  set (m := set_fold Z.max (tn_next t) (l_open (tn_ledger t))).
  assert (Hm : forall x, x ∈ l_open (tn_ledger t) -> x <= m).
  { unfold m. apply (set_fold_ind_L (fun m X => forall x, x ∈ X -> x <= m)); [set_solver|].
    intros x X m' Hx IH y Hy. apply elem_of_union in Hy as [->%elem_of_singleton|Hy]; [lia|].
    specialize (IH y Hy). lia. }
  intros Hin. specialize (Hm _ Hin). lia.
Qed.

Lemma tn_send_ok fd data t :
  let '(r, t') := tn_send fd data t in
  match r with
  | Ok n => 0 <= n <= Z.of_nat (length data) /\ tn_ledger t' = sent_more (tn_ledger t) fd (take (Z.to_nat n) data)
  | Err _ => tn_ledger t' = tn_ledger t
  end.
Proof. unfold tn_send. cbn [tn_ledger]. split; [lia|]. by rewrite Nat2Z.id, firstn_all. Qed.

Lemma tn_recv_ok fd n t :
  let '(r, t') := tn_recv fd n t in
  match r with
  | Ok data => Z.of_nat (length data) <= Z.max 0 n /\ tn_ledger t' = got_more (tn_ledger t) fd data
  | Err _ => tn_ledger t' = tn_ledger t
  end.
Proof.
  unfold tn_recv. destruct (find_index _ _) as [i|] eqn:Hi; cbn [tn_ledger].
  - apply find_index_Some in Hi as ([fd' data] & -> & Hd). simpl in *. split; [lia|done].
  - case_bool_decide; [done|]. cbn [tn_ledger]. split; [|done]. rewrite length_take. lia.
Qed.

#[export] Instance toy_sock_ledger : SockLedger toy_net.
Proof.
  refine {| s_ledger := tn_ledger |}. intros A c t. pose proof (tn_fresh_ok t) as Hf.
  destruct c; cbn [s_call toy_sock_host toy_socket_call call_effect]; try done.
  - destruct (tn_fresh t) as [a t1]. pose proof (tn_fresh_ok t1) as Hf1. destruct (tn_fresh t1) as [b t2].
    by exists (tn_ledger t1).
  - apply tn_send_ok.
  - apply tn_send_ok.
  - destruct msg as [m|]; [|done]. simpl. by exists (concat (msg_iov m)).
  - apply tn_recv_ok.
  - pose proof (tn_recv_ok fd n t) as Hr. by destruct (tn_recv fd n t).
Defined.
