(* ===== verification/SockOpt.v ===== *)
(** * shim/socket.c: families, options and flags

    The values that cross the socket boundary: address families, as the
    argument of socket() and inside every sockaddr; socket types; the
    (level, name) space of the options; the MSG_* flags. And the table of
    options set while a connect is in flight, parked until the first send.
    The theorems: an address reads back with its family; the table refines a
    map from options to values, whose entries die with their descriptor or
    when the host takes them. *)
From S2P Require Import Prelude Host Tables Flags.

(** ** Bytes of an object, least significant first *)
Fixpoint le (n : nat) (x : Z) : list Z :=
  match n with
  | O => []
  | S n' => x mod 256 :: le n' (x / 256)
  end.

Fixpoint of_le (l : list Z) : Z :=
  match l with
  | [] => 0
  | b :: l' => b + 256 * of_le l'
  end.

(** The unsigned object of [n] bytes at an offset. *)
Definition rd (n : nat) (l : list Z) (off : nat) : Z := of_le (take n (drop off l)).

(** A write of an object over whatever was there. *)
Definition wr (n : nat) (l : list Z) (off : nat) (x : Z) : list Z :=
  take off l ++ le n x ++ drop (off + n) l.

Lemma length_le n x : length (le n x) = n.
Proof. revert x. induction n as [|n IH]; intros x; simpl; [done|]. by rewrite IH. Qed.

Lemma of_le_le n x : of_le (le n x) = x mod 256 ^ Z.of_nat n.
Proof.
  revert x. induction n as [|n IH]; intros x; simpl; [by rewrite Z.mod_1_r|].
  rewrite IH. replace (Z.of_nat (S n)) with (Z.succ (Z.of_nat n)) by lia.
  rewrite Z.pow_succ_r by lia. rewrite Z.rem_mul_r by (try lia; apply Z.pow_pos_nonneg; lia). done.
Qed.

Lemma rd_le n x rest : rd n (le n x ++ rest) 0 = x mod 256 ^ Z.of_nat n.
Proof. unfold rd. rewrite drop_0, take_app_length' by (by rewrite length_le). apply of_le_le. Qed.

Lemma rd_app n l rest off k : length l = k -> (k <= off)%nat -> rd n (l ++ rest) off = rd n rest (off - k).
Proof. intros <- Hk. unfold rd. by rewrite drop_app_ge. Qed.

(** ** Linux's values *)

Definition SHIM_LIN_SOCK_CLOEXEC : Z := 524288.
Definition SHIM_LIN_SOCK_NONBLOCK : Z := 2048.
Definition SHIM_LIN_SOL_SOCKET : Z := 1.
Definition SHIM_LIN_IPPROTO_IP : Z := 0.
Definition SHIM_LIN_IPPROTO_TCP : Z := 6.
Definition SHIM_LIN_IPPROTO_IPV6 : Z := 41.
Definition SHIM_LIN_SO_REUSEADDR : Z := 2.
Definition SHIM_LIN_SO_ERROR : Z := 4.
Definition SHIM_LIN_SO_DONTROUTE : Z := 5.
Definition SHIM_LIN_SO_BROADCAST : Z := 6.
Definition SHIM_LIN_SO_KEEPALIVE : Z := 9.
Definition SHIM_LIN_SO_OOBINLINE : Z := 10.
Definition SHIM_LIN_SO_REUSEPORT : Z := 15.
Definition SHIM_LIN_SO_ACCEPTCONN : Z := 30.
Definition SHIM_LIN_TCP_NODELAY : Z := 1.
Definition SHIM_LIN_TCP_CORK : Z := 3.
Definition SHIM_LIN_AF_PACKET : Z := 17.
Definition LIN_MSG_FIXED : Z := 7.
Definition SUN_PATH_OFF : nat := 2.
Definition SUN_PATH_MAX : Z := 108.

Section values.
Context `{HostConsts}.

(** The first row that matches, in either direction; what no row names
    passes through. *)
Fixpoint lookup (t : list (string * Z)) (lin : Z) : Z :=
  match t with
  | [] => lin
  | (name, l) :: t' => if l =? lin then host_const name else lookup t' lin
  end.

Fixpoint lookup_to_linux (t : list (string * Z)) (h : Z) : Z :=
  match t with
  | [] => h
  | (name, l) :: t' => if host_const name =? h then l else lookup_to_linux t' h
  end.

(** ** Families *)

Definition af_to_host (lin : Z) : Z := lookup SHIM_AF_TABLE lin.
Definition af_to_linux (h : Z) : Z := lookup_to_linux SHIM_AF_TABLE h.

Definition AF_UNIX : Z := host_const "SHIM_FIX_AF_UNIX".

(** An address is its bytes; [sizeof(fam_copy)] is 128. [wide] is what
    __mkntpath answers for a path. *)
Definition c_string (l : list Z) : option (list Z) :=
  (fun n => take n l) <$> find_index (fun c => c =? 0) l.

Definition unix_path_to_nt (mkntpath : list Z -> res (list Z)) (addr : list Z) : list Z :=
  match c_string (drop SUN_PATH_OFF addr) with
  | None | Some [] => addr
  | Some path =>
      match mkntpath path with
      | Err _ => addr
      | Ok wide =>
          if (SUN_PATH_MAX <=? Z.of_nat (length wide)) || existsb (fun c => 0x7f <? c) wide then addr
          else take SUN_PATH_OFF addr ++ wide ++ [0]
      end
  end.

Definition addr_to_host (windows : bool) (mkntpath : list Z -> res (list Z)) (addr : option (list Z))
    : option (list Z) :=
  match addr with
  | None => None
  | Some a =>
      if bool_decide (length a < 2)%nat || bool_decide (128 < length a)%nat then addr
      else
        let fam := af_to_host (rd 2 a 0) mod 2 ^ 16 in
        let a := wr 2 a 0 fam in
        Some (if windows && (fam =? AF_UNIX) then unix_path_to_nt mkntpath a else a)
  end.

(** [buf] is the caller's buffer as the host left it and [len] the length it
    reported, which may exceed the buffer. *)
Definition addr_to_linux (buf : option (list Z)) (len : option Z) : option (list Z) :=
  match buf, len with
  | Some b, Some l => if l <? 2 then buf else Some (wr 2 b 0 (af_to_linux (rd 2 b 0) mod 2 ^ 16))
  | _, _ => buf
  end.

(** ** Types, options, flags *)

Definition SOCK_CLOEXEC : Z := host_const "SOCK_CLOEXEC".
Definition SOCK_NONBLOCK : Z := host_const "SOCK_NONBLOCK".

Definition type_to_host (lin : Z) : Z :=
  let host := Z.ldiff lin (Z.lor SHIM_LIN_SOCK_CLOEXEC SHIM_LIN_SOCK_NONBLOCK) in
  let host := if has lin SHIM_LIN_SOCK_CLOEXEC then Z.lor host SOCK_CLOEXEC else host in
  if has lin SHIM_LIN_SOCK_NONBLOCK then Z.lor host SOCK_NONBLOCK else host.

Definition SOL_SOCKET : Z := host_const "SOL_SOCKET".

Definition sockopt_to_host (level name : Z) : Z * Z :=
  if level =? SHIM_LIN_SOL_SOCKET then (SOL_SOCKET, lookup SHIM_SO_TABLE name)
  else if level =? SHIM_LIN_IPPROTO_TCP then (level, lookup SHIM_TCP_TABLE name)
  else if level =? SHIM_LIN_IPPROTO_IP then (level, lookup SHIM_IP_TABLE name)
  else if level =? SHIM_LIN_IPPROTO_IPV6 then (level, lookup SHIM_IPV6_TABLE name)
  else (level, name).

Definition sockopt_is_boolean (lin_level lin_name : Z) : bool :=
  if lin_level =? SHIM_LIN_SOL_SOCKET then
    existsb (Z.eqb lin_name)
      [SHIM_LIN_SO_REUSEADDR; SHIM_LIN_SO_DONTROUTE; SHIM_LIN_SO_BROADCAST; SHIM_LIN_SO_KEEPALIVE;
       SHIM_LIN_SO_OOBINLINE; SHIM_LIN_SO_REUSEPORT; SHIM_LIN_SO_ACCEPTCONN]
  else if lin_level =? SHIM_LIN_IPPROTO_TCP then
    existsb (Z.eqb lin_name) [SHIM_LIN_TCP_NODELAY; SHIM_LIN_TCP_CORK]
  else false.

(** Each row whose bit is set is or-ed in and taken out of the word. *)
Fixpoint msg_rows (t : list (string * Z)) (lin host : Z) : Z :=
  match t with
  | [] => host
  | (name, l) :: t' =>
      if has lin l then msg_rows t' (Z.ldiff lin l) (Z.lor host (host_const name)) else msg_rows t' lin host
  end.

Definition msg_to_host (lin : Z) : Z :=
  msg_rows SHIM_MSG_TABLE (Z.ldiff lin LIN_MSG_FIXED) (Z.land lin LIN_MSG_FIXED).

Fixpoint msg_rows_back (t : list (string * Z)) (host lin : Z) : Z :=
  match t with
  | [] => lin
  | (name, l) :: t' =>
      if has host (host_const name)
      then msg_rows_back t' (Z.ldiff host (host_const name)) (Z.lor lin l) else msg_rows_back t' host lin
  end.

Definition msg_to_linux (host : Z) : Z :=
  msg_rows_back SHIM_MSG_TABLE (Z.ldiff host LIN_MSG_FIXED) (Z.land host LIN_MSG_FIXED).

Definition MSG_NOSIGNAL : Z := host_const "MSG_NOSIGNAL".

Definition nosignal_retry (windows : bool) (host_flags : Z) (r : res Z) : bool :=
  match r with
  | Err EINVAL => windows && has host_flags MSG_NOSIGNAL
  | _ => false
  end.
End values.

(** ** Options parked during a connect *)

Record deferred_opt := DefOpt { d_fd : Z; d_level : Z; d_name : Z; d_val : Z }.

#[export] Instance deferred_opt_eq_dec : EqDecision deferred_opt.
Proof. solve_decision. Defined.

Definition DEFER_MAX : nat := 32.

(** [g_defer] and [g_defer_n]. *)
Record deferred := Deferred { g_defer : list deferred_opt; g_defer_n : Z }.

Definition free_opt : deferred_opt := DefOpt (-1) 0 0 0.
Definition deferred_init : deferred := Deferred (replicate DEFER_MAX free_opt) 0.

Definition opt_is (fd level name : Z) (d : deferred_opt) : bool :=
  (d_fd d =? fd) && (d_level d =? level) && (d_name d =? name).

(** The slot of the option, or the first free one before the scan ends. *)
Definition defer_slot (fd level name : Z) (t : list deferred_opt) : option nat :=
  match find_index (opt_is fd level name) t with
  | Some i => Some i
  | None => find_index (fun d => d_fd d =? -1) t
  end.

Definition defer_sockopt (fd level name val : Z) (s : deferred) : bool * deferred :=
  match defer_slot fd level name (g_defer s) with
  | Some i =>
      let was_free := match g_defer s !! i with Some d => d_fd d =? -1 | None => false end in
      (true, Deferred (<[i := DefOpt fd level name val]> (g_defer s))
               (if was_free then g_defer_n s + 1 else g_defer_n s))
  | None => (false, s)
  end.

Definition free_slot (d : deferred_opt) : deferred_opt := DefOpt (-1) (d_level d) (d_name d) (d_val d).

(** The loop over the slots: [set] asks the host, errno kept aside. *)
Fixpoint replay_slots {W} (set : Z -> Z -> Z -> W -> res Z * W) (fd : Z) (t : list deferred_opt) (n : Z) (w : W)
    : list deferred_opt * Z * W :=
  match t with
  | [] => ([], n, w)
  | d :: t' =>
      if negb (d_fd d =? fd) then
        let '(t'', n, w) := replay_slots set fd t' n w in (d :: t'', n, w)
      else
        let '(r, w) := set (d_level d) (d_name d) (d_val d) w in
        if bool_decide (r = Err EINVAL) then
          let '(t'', n, w) := replay_slots set fd t' n w in (d :: t'', n, w)
        else
          let '(t'', n, w) := replay_slots set fd t' (n - 1) w in (free_slot d :: t'', n, w)
  end.

Definition nt_sockopt_replay {W} (set : Z -> Z -> Z -> W -> res Z * W) (fd : Z) (s : deferred) (w : W)
    : deferred * W :=
  if g_defer_n s =? 0 then (s, w)
  else let '(t, n, w) := replay_slots set fd (g_defer s) (g_defer_n s) w in (Deferred t n, w).

Fixpoint forget_slots (fd : Z) (t : list deferred_opt) (n : Z) : list deferred_opt * Z :=
  match t with
  | [] => ([], n)
  | d :: t' =>
      if d_fd d =? fd then let '(t'', n) := forget_slots fd t' (n - 1) in (free_slot d :: t'', n)
      else let '(t'', n) := forget_slots fd t' n in (d :: t'', n)
  end.

Definition nt_sockopt_forget (fd : Z) (s : deferred) : deferred :=
  if g_defer_n s =? 0 then s
  else let '(t, n) := forget_slots fd (g_defer s) (g_defer_n s) in Deferred t n.

Definition deferred_lookup (fd level name : Z) (s : deferred) : option Z :=
  if g_defer_n s =? 0 then None
  else d_val <$> List.find (opt_is fd level name) (g_defer s).

(** ** A value and its way back *)

Section tables.
Context `{HostConsts}.

(** No two rows share a Linux value or a host value. *)
Definition rows_distinct (t : list (string * Z)) : Prop :=
  NoDup (snd <$> t) /\ NoDup ((fun r => host_const (fst r)) <$> t).

Definition row_values (t : list (string * Z)) : list Z := snd <$> t.
Definition host_values (t : list (string * Z)) : list Z := (fun r => host_const (fst r)) <$> t.

Lemma lookup_other t x : x ∉ row_values t -> lookup t x = x.
Proof.
  unfold row_values. induction t as [|[n l] t IH]; simpl; [done|]. intros Hx.
  destruct (Z.eqb_spec l x) as [->|]; [set_solver|]. apply IH. set_solver.
Qed.

Lemma lookup_to_linux_other t x : x ∉ host_values t -> lookup_to_linux t x = x.
Proof.
  unfold host_values. induction t as [|[n l] t IH]; simpl; [done|]. intros Hx.
  destruct (Z.eqb_spec (host_const n) x) as [<-|]; [set_solver|]. apply IH. set_solver.
Qed.

Lemma lookup_in t x : x ∈ row_values t -> exists n, (n, x) ∈ t /\ lookup t x = host_const n.
Proof.
  unfold row_values. induction t as [|[n l] t IH]; simpl; [by intros ?%elem_of_nil|]. intros Hx.
  destruct (Z.eqb_spec l x) as [->|Hne].
  - exists n. split; [set_solver|done].
  - destruct IH as (m & Hm & Hl); [set_solver|]. exists m. split; [set_solver|done].
Qed.

Lemma lookup_to_linux_in t n l :
  NoDup (host_values t) -> (n, l) ∈ t -> lookup_to_linux t (host_const n) = l.
Proof.
  unfold host_values. induction t as [|[m k] t IH]; simpl; intros Hnd Hin; [by apply elem_of_nil in Hin|].
  apply NoDup_cons in Hnd as [Hm Hnd]. apply elem_of_cons in Hin as [Hin|Hin].
  - simplify_eq. by rewrite Z.eqb_refl.
  - destruct (Z.eqb_spec (host_const m) (host_const n)) as [He|]; [|auto].
    exfalso. apply Hm. rewrite He. by apply (list_elem_of_fmap_2 (fun r => host_const (fst r)) t (n, l)).
Qed.

(** A Linux value reads back when it is in the table, or when the host does
    not use it for something in the table. *)
Lemma lookup_reads_back t x :
  NoDup (host_values t) -> x ∈ row_values t \/ x ∉ host_values t ->
  lookup_to_linux t (lookup t x) = x.
Proof.
  intros Hnd Hx. destruct (decide (x ∈ row_values t)) as [Hin|Hout].
  - destruct (lookup_in t x Hin) as (n & Hn & ->). by apply lookup_to_linux_in.
  - destruct Hx as [?|Hx]; [done|]. by rewrite lookup_other, lookup_to_linux_other.
Qed.

Lemma wr_rd_first a x : (2 <= length a)%nat -> 0 <= x < 2 ^ 16 -> rd 2 (wr 2 a 0 x) 0 = x.
Proof.
  intros Ha Hx. unfold wr. rewrite take_0. cbn [app]. rewrite rd_le.
  change (256 ^ Z.of_nat 2) with (2 ^ 16). by apply Z.mod_small.
Qed.

Lemma wr_wr a x y : wr 2 (wr 2 a 0 x) 0 y = wr 2 a 0 y.
Proof.
  unfold wr. rewrite !take_0, Nat.add_0_l. done.
Qed.

Lemma wr_rd a : Forall (fun b => 0 <= b < 256) (take 2 a) -> (2 <= length a)%nat -> wr 2 a 0 (rd 2 a 0) = a.
Proof.
  intros Hb Ha. destruct a as [|b0 [|b1 a]]; simpl in Ha; try lia.
  change (rd 2 (b0 :: b1 :: a) 0) with (b0 + 256 * (b1 + 256 * 0)).
  change (wr 2 (b0 :: b1 :: a) 0 (b0 + 256 * (b1 + 256 * 0))) with
    ((b0 + 256 * (b1 + 256 * 0)) mod 256 :: ((b0 + 256 * (b1 + 256 * 0)) / 256) mod 256 :: a).
  simpl in Hb.
  apply Forall_cons in Hb as [Hb0 Hb]. apply Forall_cons in Hb as [Hb1 _].
  assert ((b0 + 256 * (b1 + 256 * 0)) mod 256 = b0) as ->.
  { replace (b0 + 256 * (b1 + 256 * 0)) with (b0 + b1 * 256) by lia.
    rewrite Z.mod_add by lia. by apply Z.mod_small. }
  assert (((b0 + 256 * (b1 + 256 * 0)) / 256) mod 256 = b1) as ->; [|done].
  replace (b0 + 256 * (b1 + 256 * 0)) with (b0 + b1 * 256) by lia.
  rewrite Z.div_add by lia. rewrite (Z.div_small b0) by lia. by apply Z.mod_small.
Qed.

(** an address handed to the host reads back as it was. For a family of
    the table, or one whose number the host uses for no other family, what
    addr_to_linux makes of the host's copy is the caller's bytes; on Windows
    this holds of every family but AF_UNIX, whose path becomes NT's. *)
Theorem addr_reads_back windows mkntpath a :
  NoDup (host_values SHIM_AF_TABLE) -> Forall (fun h => 0 <= h < 2 ^ 16) (host_values SHIM_AF_TABLE) ->
  (2 <= length a <= 128)%nat -> Forall (fun b => 0 <= b < 256) (take 2 a) ->
  (rd 2 a 0 ∈ row_values SHIM_AF_TABLE \/ rd 2 a 0 ∉ host_values SHIM_AF_TABLE) ->
  (windows = true -> af_to_host (rd 2 a 0) <> AF_UNIX) ->
  addr_to_linux (addr_to_host windows mkntpath (Some a)) (Some (Z.of_nat (length a))) = Some a.
Proof.
  intros Hnd Hrange Hlen Hbytes Hfam Hwin.
  assert (Hf : 0 <= rd 2 a 0 < 2 ^ 16).
  { destruct a as [|b0 [|b1 a]]; simpl in Hlen; try lia. unfold rd. simpl in Hbytes |- *.
    apply Forall_cons in Hbytes as [Hb0 Hb]. apply Forall_cons in Hb as [Hb1 _]. lia. }
  assert (Hh : 0 <= af_to_host (rd 2 a 0) < 2 ^ 16).
  { unfold af_to_host. destruct (decide (rd 2 a 0 ∈ row_values SHIM_AF_TABLE)) as [Hin|Hout].
    - destruct (lookup_in _ _ Hin) as (n & Hn & ->). rewrite Forall_forall in Hrange. apply Hrange.
      by apply (list_elem_of_fmap_2 (fun r => host_const (fst r)) _ (n, rd 2 a 0)).
    - by rewrite lookup_other. }
  unfold addr_to_host. rewrite !bool_decide_eq_false_2 by lia. cbn [orb].
  rewrite Z.mod_small by done.
  assert ((windows && (af_to_host (rd 2 a 0) =? AF_UNIX)) = false) as ->.
  { destruct windows; [|done]. apply Z.eqb_neq. by apply Hwin. }
  unfold addr_to_linux. destruct (Z.ltb_spec (Z.of_nat (length a)) 2); [lia|].
  rewrite wr_rd_first by lia. rewrite wr_wr. unfold af_to_linux, af_to_host in *.
  rewrite lookup_reads_back by done. rewrite Z.mod_small by done. by rewrite wr_rd by (done || lia).
Qed.
End tables.

(** ** The parked options as a map *)

Definition opt_key (d : deferred_opt) : Z * Z * Z := (d_fd d, d_level d, d_name d).
Definition is_live (d : deferred_opt) : bool := negb (d_fd d =? -1).
Definition live (t : list deferred_opt) : list deferred_opt := filter (fun d => is_live d = true) t.

Fixpoint parked_in (t : list deferred_opt) : gmap (Z * Z * Z) Z :=
  match t with
  | [] => ∅
  | d :: t' => if is_live d then <[opt_key d := d_val d]> (parked_in t') else parked_in t'
  end.
Definition parked (s : deferred) : gmap (Z * Z * Z) Z := parked_in (g_defer s).

Definition distinct (t : list deferred_opt) : Prop :=
  forall i j d e, t !! i = Some d -> t !! j = Some e -> is_live d = true -> is_live e = true ->
    opt_key d = opt_key e -> i = j.

(** The invariant: as many slots as the array has, no option twice, and the
    counter that the fast paths look at counts the live slots. *)
Definition deferred_ok (s : deferred) : Prop :=
  length (g_defer s) = DEFER_MAX /\ distinct (g_defer s) /\ g_defer_n s = Z.of_nat (length (live (g_defer s))).

Lemma live_slots_cons d t : live (d :: t) = if is_live d then d :: live t else live t.
Proof. unfold live. rewrite filter_cons. by destruct (is_live d). Qed.

Lemma live_slots_app t u : live (t ++ u) = live t ++ live u.
Proof. apply filter_app. Qed.

Lemma deferred_init_ok : deferred_ok deferred_init.
Proof.
  split_and!; [done| |done]. intros i j d e Hd.
  apply lookup_replicate in Hd as [-> _]. done.
Qed.

Lemma distinct_cons d t : distinct (d :: t) ->
  distinct t /\ (is_live d = true -> forall j e, t !! j = Some e -> is_live e = true -> opt_key d <> opt_key e).
Proof.
  intros Hd. split.
  - intros i j x y Hx Hy Lx Ly Hk. enough (S i = S j) by lia. by apply (Hd (S i) (S j) x y).
  - intros Ld j e He Le Hk. enough (0%nat = S j) by lia. by apply (Hd 0%nat (S j) d e).
Qed.

Lemma parked_in_spec t k v : distinct t ->
  parked_in t !! k = Some v <-> exists i d, t !! i = Some d /\ is_live d = true /\ opt_key d = k /\ d_val d = v.
Proof.
  induction t as [|d t IH]; intros Hd; simpl.
  { split; [by rewrite lookup_empty|]. intros (i & d & Hi & _). by rewrite lookup_nil in Hi. }
  apply distinct_cons in Hd as [Hd Hne].
  assert (Hcons : (exists i e, (d :: t) !! i = Some e /\ is_live e = true /\ opt_key e = k /\ d_val e = v) <->
    (is_live d = true /\ opt_key d = k /\ d_val d = v) \/
    (exists i e, t !! i = Some e /\ is_live e = true /\ opt_key e = k /\ d_val e = v)).
  { split.
    - intros ([|i] & e & He & ?); simpl in He; [left; by simplify_eq|right; by exists i, e].
    - intros [?|(i & e & ?)]; [by exists 0%nat, d|by exists (S i), e]. }
  rewrite Hcons, <- IH by done. destruct (is_live d) eqn:Ld; [|naive_solver].
  destruct (decide (opt_key d = k)) as [<-|Hk].
  - rewrite lookup_insert_eq. split; [intros [= ->]; by left|]. intros [(_ & _ & ->)|Hin]; [done|].
    exfalso. apply IH in Hin as (i & e & He & Le & Hke & _); [|done]. by eapply (Hne eq_refl).
  - rewrite lookup_insert_ne by done. naive_solver.
Qed.

Lemma opt_is_true fd level name d : opt_is fd level name d = true <-> opt_key d = (fd, level, name).
Proof.
  unfold opt_is, opt_key. rewrite !andb_true_iff, !Z.eqb_eq. split; [intros [[-> ->] ->]; done|].
  by intros [= -> -> ->].
Qed.

Lemma key_live d fd level name : opt_key d = (fd, level, name) -> fd <> -1 -> is_live d = true.
Proof. intros [= <- _ _] Hfd. unfold is_live. by destruct (Z.eqb_spec (d_fd d) (-1)). Qed.

Lemma parked_in_find t fd level name : fd <> -1 ->
  parked_in t !! (fd, level, name) = d_val <$> List.find (opt_is fd level name) t.
Proof.
  intros Hfd. induction t as [|d t IH]; [apply lookup_empty|]. simpl.
  destruct (opt_is fd level name d) eqn:Hd.
  - apply opt_is_true in Hd. rewrite (key_live _ _ _ _ Hd Hfd), Hd. apply lookup_insert_eq.
  - destruct (is_live d); [|done]. rewrite lookup_insert_ne; [done|].
    intros Hk. apply opt_is_true in Hk. congruence.
Qed.

Lemma live_none t : live t = [] -> parked_in t = ∅.
Proof.
  induction t as [|d t IH]; [done|]. rewrite live_slots_cons. simpl. by destruct (is_live d).
Qed.

Lemma deferred_lookup_spec s fd level name :
  deferred_ok s -> fd <> -1 -> deferred_lookup fd level name s = parked s !! (fd, level, name).
Proof.
  intros (_ & _ & Hn) Hfd. unfold deferred_lookup, parked.
  destruct (Z.eqb_spec (g_defer_n s) 0) as [Hz|]; [|by rewrite parked_in_find].
  rewrite live_none by (apply length_zero_iff_nil; lia). by rewrite lookup_empty.
Qed.

(** ** Parking *)

Lemma live_insert t i d d0 :
  t !! i = Some d0 -> is_live d = true ->
  length (live (<[i := d]> t)) = (length (live t) + if is_live d0 then 0 else 1)%nat.
Proof.
  intros Hi Hd. rewrite <- (take_drop_middle t i d0 Hi) at 2.
  rewrite insert_take_drop by (by eapply lookup_lt_Some).
  rewrite !live_slots_app, !live_slots_cons, Hd, !length_app. destruct (is_live d0); simpl; lia.
Qed.

(** Putting an option into the slot that held it, or into a free slot when
    none does, is an insertion into the map. *)
Lemma insert_parked t i d0 d :
  distinct t -> t !! i = Some d0 -> is_live d = true ->
  (forall j e, t !! j = Some e -> is_live e = true -> opt_key e = opt_key d -> j = i) ->
  (is_live d0 = true -> opt_key d0 = opt_key d) ->
  distinct (<[i := d]> t) /\ parked_in (<[i := d]> t) = <[opt_key d := d_val d]> (parked_in t).
Proof.
  intros Hdis Hi Hd Honly Hslot.
  assert (Hlk : <[i := d]> t !! i = Some d) by (apply list_lookup_insert_eq; by eapply lookup_lt_Some).
  assert (Hdis' : distinct (<[i := d]> t)).
  { intros j k x y Hx Hy Lx Ly Hk.
    apply list_lookup_insert_Some in Hx as [(<- & <- & _)|[Hji Hx]];
      apply list_lookup_insert_Some in Hy as [(<- & <- & _)|[Hki Hy]]; [done| | |by eapply Hdis].
    - symmetry. by apply (Honly k y).
    - by apply (Honly j x). }
  split; [done|]. apply map_eq. intros k. apply option_eq. intros v. rewrite parked_in_spec by done.
  destruct (decide (opt_key d = k)) as [<-|Hk].
  - rewrite lookup_insert_eq. split.
    + intros (j & e & He & Le & Hke & <-). apply list_lookup_insert_Some in He as [(<- & <- & _)|[Hji He]]; [done|].
      exfalso. apply Hji. symmetry. by apply (Honly j e).
    + intros [= <-]. by exists i, d.
  - rewrite lookup_insert_ne, parked_in_spec by done. split; intros (j & e & He & Le & Hke & Hv).
    + apply list_lookup_insert_Some in He as [(<- & <- & _)|[Hji He]]; [done|]. by exists j, e.
    + exists j, e. split; [|done]. rewrite list_lookup_insert_ne; [done|]. intros <-.
      rewrite Hi in He. injection He as <-. apply Hk. rewrite <- Hke. symmetry. by apply Hslot.
Qed.

Lemma find_index_unmatched {A} (p : A -> bool) l i x : find_index p l = None -> l !! i = Some x -> p x = false.
Proof.
  rewrite find_index_None. intros Hall Hi. by apply (Forall_lookup_1 _ _ _ _ Hall Hi).
Qed.

Lemma defer_spec s fd level name val :
  deferred_ok s -> fd <> -1 ->
  let '(ok, s') := defer_sockopt fd level name val s in
  deferred_ok s' /\
  if ok : bool then parked s' = <[(fd, level, name) := val]> (parked s)
  else s' = s /\ parked s !! (fd, level, name) = None /\ length (live (g_defer s)) = DEFER_MAX.
Proof.
  intros (Hlen & Hdis & Hn) Hfd. unfold defer_sockopt, defer_slot.
  set (d := DefOpt fd level name val). assert (Hd : is_live d = true) by (eapply key_live; done).
  destruct (find_index (opt_is fd level name) (g_defer s)) as [i|] eqn:Hi.
  - apply find_index_Some in Hi as (d0 & Hi & Hk%opt_is_true).
    assert (Hl0 : is_live d0 = true) by by eapply key_live.
    rewrite Hi. assert ((d_fd d0 =? -1) = false) as -> by by apply negb_true_iff.
    destruct (insert_parked (g_defer s) i d0 d Hdis Hi Hd) as [Hdis' Hp].
    + intros j e He Le Hke. apply (Hdis j i e d0); try done. by rewrite Hke, Hk.
    + done.
    + split; [|exact Hp]. split_and!; simpl; [by rewrite length_insert|done|].
      rewrite (live_insert _ _ _ d0), Hl0 by done. lia.
  - destruct (find_index (fun d => d_fd d =? -1) (g_defer s)) as [i|] eqn:Hfree.
    + apply find_index_Some in Hfree as (d0 & Hi' & Hf). rewrite Hi', Hf.
      assert (Hl0 : is_live d0 = false) by (unfold is_live; by rewrite Hf).
      destruct (insert_parked (g_defer s) i d0 d Hdis Hi' Hd) as [Hdis' Hp].
      * intros j e He Le Hke. pose proof (find_index_unmatched _ _ _ _ Hi He) as Hno.
        apply not_true_iff_false in Hno. exfalso. apply Hno. by apply opt_is_true.
      * by rewrite Hl0.
      * split; [|exact Hp]. split_and!; simpl; [by rewrite length_insert|done|].
        rewrite (live_insert _ _ _ d0), Hl0 by done. lia.
    + split; [done|]. split; [done|]. apply find_index_None in Hfree. split.
      * unfold parked. rewrite parked_in_find by done.
        destruct (List.find _ _) as [e|] eqn:He; [|done]. apply find_some in He as [Hin He].
        apply list_elem_of_In, list_elem_of_lookup in Hin as [j Hj].
        by rewrite (find_index_unmatched _ _ _ _ Hi Hj) in He.
      * rewrite <- Hlen. clear -Hfree. induction Hfree as [|e t He Ht IH]; [done|].
        rewrite live_slots_cons. unfold is_live. rewrite He. simpl. by rewrite IH.
Qed.

(** ** Freeing slots *)

(** The table with the slots [drop] picks freed. *)
Definition free_if (drop : deferred_opt -> bool) (t : list deferred_opt) : list deferred_opt :=
  (fun d => if drop d then free_slot d else d) <$> t.

Lemma free_if_lookup drop t i d : is_live d = true ->
  free_if drop t !! i = Some d <-> t !! i = Some d /\ drop d = false.
Proof.
  intros Hd. unfold free_if. rewrite list_lookup_fmap_Some. split.
  - intros (e & He & Hi). destruct (drop e) eqn:Hde; subst; [done|]. done.
  - intros [Hi Hdrop]. exists d. by rewrite Hdrop.
Qed.

Lemma free_if_distinct drop t : distinct t -> distinct (free_if drop t).
Proof.
  intros Ht i j d e Hd He Ld Le Hk. apply free_if_lookup in Hd as [Hd _]; [|done].
  apply free_if_lookup in He as [He _]; [|done]. by apply (Ht i j d e).
Qed.

Lemma free_if_live drop t :
  length (live (free_if drop t)) =
  (length (live t) - length (filter (fun d => drop d = true) (live t)))%nat /\
  (length (filter (fun d => drop d = true) (live t)) <= length (live t))%nat.
Proof.
  induction t as [|d t [IH IHle]]; [done|]. unfold free_if. rewrite fmap_cons. fold (free_if drop t).
  rewrite !live_slots_cons. destruct (drop d) eqn:Hdrop.
  - change (is_live (free_slot d)) with false. destruct (is_live d); [|done].
    rewrite filter_cons, decide_True by done. simpl. lia.
  - destruct (is_live d); [|done]. rewrite filter_cons, decide_False by (by rewrite Hdrop). simpl. lia.
Qed.

(** An option a map entry belongs to. *)
Definition entry_opt (k : Z * Z * Z) (v : Z) : deferred_opt := DefOpt (fst (fst k)) (snd (fst k)) (snd k) v.

Lemma entry_opt_key d : entry_opt (opt_key d) (d_val d) = d.
Proof. by destruct d. Qed.

Lemma free_if_parked drop t :
  distinct t ->
  parked_in (free_if drop t) = filter (fun kv => drop (entry_opt (fst kv) (snd kv)) = false) (parked_in t).
Proof.
  intros Ht. apply map_eq. intros k. apply option_eq. intros v.
  rewrite parked_in_spec by by apply free_if_distinct.
  rewrite map_lookup_filter_Some, parked_in_spec by done. split.
  - intros (i & d & Hi & Hl & <- & <-). apply free_if_lookup in Hi as [Hi Hdrop]; [|done].
    simpl. rewrite entry_opt_key. split; [|done]. by exists i, d.
  - intros [(i & d & Hi & Hl & <- & <-) Hdrop]. simpl in Hdrop. rewrite entry_opt_key in Hdrop.
    exists i, d. split; [|done]. by apply free_if_lookup.
Qed.

Lemma free_if_ok drop s :
  deferred_ok s ->
  deferred_ok (Deferred (free_if drop (g_defer s))
    (g_defer_n s - Z.of_nat (length (filter (fun d => drop d = true) (live (g_defer s)))))).
Proof.
  intros (Hlen & Hdis & Hn). destruct (free_if_live drop (g_defer s)) as [Hc Hle]. split_and!; simpl.
  - unfold free_if. by rewrite length_fmap.
  - by apply free_if_distinct.
  - rewrite Hn, Hc. lia.
Qed.

Definition of_fd (fd : Z) (d : deferred_opt) : bool := d_fd d =? fd.

Lemma of_fd_live fd d : fd <> -1 -> of_fd fd d = true -> is_live d = true.
Proof. unfold of_fd, is_live. intros Hfd ->%Z.eqb_eq. by destruct (Z.eqb_spec fd (-1)). Qed.

Definition n_live (drop : deferred_opt -> bool) (t : list deferred_opt) : Z :=
  Z.of_nat (length (filter (fun d => drop d = true) (live t))).

Lemma n_live_cons drop d t :
  n_live drop (d :: t) = (if is_live d && drop d then 1 else 0) + n_live drop t.
Proof.
  unfold n_live. rewrite live_slots_cons. destruct (is_live d); [|done]. rewrite filter_cons.
  destruct (drop d); simpl; lia.
Qed.

Lemma forget_slots_spec fd t n : fd <> -1 ->
  forget_slots fd t n =
  (free_if (of_fd fd) t, n - n_live (of_fd fd) t).
Proof.
  intros Hfd. revert n. induction t as [|d t IH]; intros n; cbn [forget_slots]; [f_equal; unfold n_live; simpl; lia|].
  rewrite n_live_cons. change (free_if (of_fd fd) (d :: t)) with
    ((if of_fd fd d then free_slot d else d) :: free_if (of_fd fd) t).
  change (d_fd d =? fd) with (of_fd fd d). destruct (of_fd fd d) eqn:Hd; rewrite IH.
  - rewrite (of_fd_live _ _ Hfd Hd). cbn [andb]. f_equal. lia.
  - rewrite andb_false_r. done.
Qed.

(** A host that answers by the option, and what it was asked. *)
Definition logging (ans : Z -> Z -> Z -> res Z) (level name val : Z) (log : list (Z * Z * Z))
    : res Z * list (Z * Z * Z) := (ans level name val, log ++ [(level, name, val)]).

Definition answered (ans : Z -> Z -> Z -> res Z) (fd : Z) (d : deferred_opt) : bool :=
  of_fd fd d && negb (bool_decide (ans (d_level d) (d_name d) (d_val d) = Err EINVAL)).

Definition asked (fd : Z) (t : list deferred_opt) : list (Z * Z * Z) :=
  (fun d => (d_level d, d_name d, d_val d)) <$> filter (fun d => of_fd fd d = true) t.

Lemma asked_cons fd d t :
  asked fd (d :: t) = if of_fd fd d then (d_level d, d_name d, d_val d) :: asked fd t else asked fd t.
Proof. unfold asked. rewrite filter_cons. by destruct (of_fd fd d). Qed.

Lemma replay_slots_spec ans fd t n log : fd <> -1 ->
  replay_slots (logging ans) fd t n log =
  (free_if (answered ans fd) t, n - n_live (answered ans fd) t, log ++ asked fd t).
Proof.
  intros Hfd. revert n log. induction t as [|d t IH]; intros n log; cbn [replay_slots].
  { unfold asked, n_live. simpl. rewrite app_nil_r. f_equal. f_equal. lia. }
  rewrite asked_cons, n_live_cons. change (free_if (answered ans fd) (d :: t)) with
    ((if answered ans fd d then free_slot d else d) :: free_if (answered ans fd) t).
  change (d_fd d =? fd) with (of_fd fd d). unfold answered at 1 3.
  destruct (of_fd fd d) eqn:Hd; cbn [negb andb].
  - rewrite (of_fd_live _ _ Hfd Hd). unfold logging at 1. cbn [fst snd andb].
    destruct (bool_decide (ans (d_level d) (d_name d) (d_val d) = Err EINVAL)); cbn [negb];
      rewrite IH, <- app_assoc; f_equal; f_equal; lia.
  - rewrite IH, andb_false_r. done.
Qed.

(** the parking table is a map from options to values. Looking up,
    parking (which fails only when every slot is taken by another option)
    and dropping a descriptor's options are the operations of that map; the
    replay before a send asks the host for exactly the descriptor's options,
    in slot order, and keeps those it still refuses with EINVAL; and each
    of them leaves a sound table. *)
Theorem deferred_refines s fd :
  deferred_ok s -> fd <> -1 ->
  (forall level name, deferred_lookup fd level name s = parked s !! (fd, level, name)) /\
  (forall level name val, let '(ok, s') := defer_sockopt fd level name val s in
     deferred_ok s' /\
     if ok : bool then parked s' = <[(fd, level, name) := val]> (parked s)
     else s' = s /\ parked s !! (fd, level, name) = None /\ length (live (g_defer s)) = DEFER_MAX) /\
  (deferred_ok (nt_sockopt_forget fd s) /\
   parked (nt_sockopt_forget fd s) = filter (fun kv => fst (fst (fst kv)) <> fd) (parked s)) /\
  (forall ans log, let '(s', log') := nt_sockopt_replay (logging ans) fd s log in
     deferred_ok s' /\ log' = log ++ asked fd (g_defer s) /\
     parked s' = filter (fun kv => fst (fst (fst kv)) <> fd \/
       ans (snd (fst (fst kv))) (snd (fst kv)) (snd kv) = Err EINVAL) (parked s)).
Proof.
  intros Hok Hfd. pose proof Hok as (Hlen & Hdis & Hn).
  assert (Hempty : g_defer_n s = 0 -> parked s = ∅ /\ asked fd (g_defer s) = []).
  { intros Hz. assert (Hl : live (g_defer s) = []) by (apply length_zero_iff_nil; lia).
    split; [by apply live_none|]. unfold asked. clear -Hl Hfd.
    induction (g_defer s) as [|d t IH]; [done|]. rewrite live_slots_cons in Hl. rewrite filter_cons.
    destruct (of_fd fd d) eqn:Hd; [by rewrite (of_fd_live _ _ Hfd Hd) in Hl|].
    rewrite decide_False by done. apply IH. by destruct (is_live d). }
  split_and!.
  - intros level name. by apply deferred_lookup_spec.
  - intros level name val. by apply defer_spec.
  - unfold nt_sockopt_forget. destruct (Z.eqb_spec (g_defer_n s) 0); [done|].
    rewrite forget_slots_spec by done. by apply free_if_ok.
  - unfold nt_sockopt_forget. destruct (Z.eqb_spec (g_defer_n s) 0) as [Hz|Hz].
    { destruct (Hempty Hz) as [-> _]. symmetry. apply map_filter_empty. }
    rewrite forget_slots_spec by done. unfold parked. simpl. rewrite free_if_parked by done.
    apply map_filter_ext. intros [[k1 k2] k3] v _. simpl. unfold of_fd. simpl. by rewrite Z.eqb_neq.
  - intros ans log. unfold nt_sockopt_replay. destruct (Z.eqb_spec (g_defer_n s) 0) as [Hz|Hz].
    { destruct (Hempty Hz) as [-> ->]. rewrite app_nil_r. by split_and!. }
    rewrite replay_slots_spec by done. split_and!; [by apply free_if_ok|done|].
    unfold parked. simpl. rewrite free_if_parked by done. apply map_filter_ext. intros [[k1 k2] k3] v _. simpl.
    unfold answered, of_fd. simpl. destruct (Z.eqb_spec k1 fd) as [->|Hne]; simpl; [|naive_solver].
    rewrite negb_false_iff, bool_decide_eq_true. naive_solver.
Qed.

(** ** On a concrete host

    Windows: AF_INET6 is 23. *)
Definition winsock_consts : HostConsts := {|
  host_const name :=
    if String.eqb name "SHIM_FIX_AF_UNSPEC" then 0
    else if String.eqb name "SHIM_FIX_AF_UNIX" then 1
    else if String.eqb name "SHIM_FIX_AF_INET" then 2
    else if String.eqb name "AF_INET6" then 23 else 0;
  host_defines _ := true |}.

Lemma addr_reads_back_witness :
  @addr_to_host winsock_consts true (fun _ => Err ENOENT) (Some [10; 0; 1; 187]) = Some [23; 0; 1; 187] /\
  @addr_to_linux winsock_consts (Some [23; 0; 1; 187]) (Some 4) = Some [10; 0; 1; 187].
Proof.
  split; [vm_compute; reflexivity|].
  apply (@addr_reads_back winsock_consts true (fun _ => Err ENOENT) [10; 0; 1; 187]).
  - by apply (bool_decide_unpack _).
  - by apply (bool_decide_unpack _).
  - simpl. lia.
  - by apply (bool_decide_unpack _).
  - left. by apply (bool_decide_unpack _).
  - intros _. vm_compute. discriminate.
Defined.

Lemma deferred_refines_witness :
  let '(ok, s) := defer_sockopt 5 6 1 1 deferred_init in
  ok = true /\ parked s = <[(5, 6, 1) := 1]> (parked deferred_init).
Proof.
  destruct (deferred_refines deferred_init 5 deferred_init_ok ltac:(lia)) as (_ & Hd & _).
  specialize (Hd 6 1 1). destruct (defer_sockopt 5 6 1 1 deferred_init) as [[] s] eqn:E.
  - split; [done|apply Hd].
  - vm_compute in E. discriminate E.
Defined.
