(* ===== verification/Packet.v ===== *)
(** * shim/packet.c: packet sockets on Windows

    A packet socket is a raw IPv4 socket the program holds and, once it is
    bound to an adapter with an IPv6 address, a raw IPv6 socket it does not
    know of; a table of 32 slots ties the two together and is swept of
    entries whose descriptor was closed or reused. The theorems: the table's
    counter is exact through every operation; no operation leaks a
    descriptor, but for a second bind; a received frame is one packet of one
    of the two sockets behind its header; EAGAIN means that neither socket
    delivered anything. And the table keeps the promise poll.c relies on. *)
From S2P Require Import Prelude Host Poll SockHost ToySock SockOpt.

Definition SHIM_LIN_SOL_PACKET : Z := 263.
Definition SIO_RCVALL : Z := 0x98000001.
Definition RCVALL_ON : Z := 1.
Definition ETH_HLEN : Z := 14.
Definition ETH_P_IP : Z := 0x0800.
Definition ETH_P_IPV6 : Z := 0x86dd.
Definition PKT_DRAIN_MAX : nat := 64.
Definition PKT_MAX : nat := 32.

Record pkt_sock := Pkt { pk_live : bool; pk_fd : Z; pk_handle : Z; pk_fd6 : Z; pk_ifindex : Z; pk_turn : bool }.

#[export] Instance pkt_sock_eq_dec : EqDecision pkt_sock.
Proof. solve_decision. Defined.

(** memset to 0. *)
Definition no_pkt : pkt_sock := Pkt false 0 0 0 0 false.

(** [g_pkt] and [g_pkt_live]. *)
Record pkts := Pkts { g_pkt : list pkt_sock; g_pkt_live : Z }.

Definition pkts_init : pkts := Pkts (replicate PKT_MAX no_pkt) 0.

(** ** Addresses of an adapter

    Both addresses of the adapter, ports cleared; a global IPv6 address is
    preferred to a link-local one, and gets a scope if it has none. *)
Section addresses.
Context `{HostConsts}.

Definition AF_INET : Z := host_const "AF_INET".
Definition AF_INET6 : Z := host_const "AF_INET6".

Definition link_local (a : list Z) : bool :=
  (nth 8 a 0 =? 0xfe) && (Z.land (nth 9 a 0) 0xc0 =? 0x80).

Definition with_scope (p : adapter) (ifindex : Z) (a : list Z) : list Z :=
  if rd 4 a 24 =? 0 then wr 4 a 24 (if ad_Ipv6IfIndex p =? 0 then ifindex else ad_Ipv6IfIndex p) else a.

Fixpoint pick_addrs (p : adapter) (ifindex : Z) (us : list (option (list Z)))
    (a4 a6 : option (list Z)) (v6_global : bool) : option (list Z) * option (list Z) :=
  match us with
  | [] => (a4, a6)
  | None :: us' => pick_addrs p ifindex us' a4 a6 v6_global
  | Some sa :: us' =>
      if (rd 2 sa 0 =? AF_INET) && bool_decide (a4 = None) then
        pick_addrs p ifindex us' (Some (wr 2 (take 16 sa) 2 0)) a6 v6_global
      else if (rd 2 sa 0 =? AF_INET6) && negb v6_global then
        let s6 := wr 2 (take 28 sa) 2 0 in
        if bool_decide (a6 <> None) && link_local s6 then pick_addrs p ifindex us' a4 a6 v6_global
        else pick_addrs p ifindex us' a4 (Some (with_scope p ifindex s6)) (negb (link_local s6))
      else pick_addrs p ifindex us' a4 a6 v6_global
  end.

Definition adapter_addrs (adapters : option (list adapter)) (ifindex : Z)
    : option (option (list Z) * option (list Z)) :=
  match adapters with
  | None => None
  | Some l =>
      (fun p => pick_addrs p ifindex (ad_unicast p) None None false) <$>
        List.find (fun p => ad_IfIndex p =? ifindex) l
  end.
End addresses.

Section packets.
Context {S H : Type} `{SockHost H} `{HostConsts}.
(** Where the table lives in the shim's state. *)
Context (pkts_of : S -> pkts) (put_pkts : pkts -> S -> S).

Notation T := (M (S * H)).

Definition table : T pkts := reads (fun w => pkts_of (fst w)).
Definition set_table (t : pkts) : T unit := modifies (fun w => (put_pkts t (fst w), snd w)).

(** ** The table *)

Definition fd_is (fd handle : Z) : T bool :=
  e ← fd_entry_of fd;
  mret (if fd <? 0 then false
        else match e with
             | None => false
             | Some e => negb (fe_kind e =? 0) && (fe_handle e =? handle)
             end).

(** The sweep, slot by slot; it answers how many entries it took out. *)
Fixpoint reap (ps : list pkt_sock) : T (list pkt_sock * Z) :=
  match ps with
  | [] => mret ([], 0)
  | p :: ps' =>
      ok ← (if pk_live p then fd_is (pk_fd p) (pk_handle p) else mret true);
      if ok : bool then '(ps'', n) ← reap ps'; mret (p :: ps'', n)
      else
        _ ← (if 0 <=? pk_fd6 p then _ ← ask (H_close (pk_fd6 p)); mret tt else mret tt);
        '(ps'', n) ← reap ps'; mret (no_pkt :: ps'', n + 1)
  end.

Definition reap_locked : T unit :=
  t ← table;
  '(ps, n) ← reap (g_pkt t);
  set_table (Pkts ps (g_pkt_live t - n)).

Definition pkt_named (fd : Z) (p : pkt_sock) : bool := pk_live p && (pk_fd p =? fd).

Definition find_locked (fd : Z) (ps : list pkt_sock) : option nat := find_index (pkt_named fd) ps.

Definition packet_any (t : pkts) : bool := negb (g_pkt_live t =? 0).

Definition packet_is (fd : Z) : T bool :=
  t ← table;
  if g_pkt_live t =? 0 then mret false
  else
    _ ← reap_locked;
    t ← table;
    mret (bool_decide (is_Some (find_locked fd (g_pkt t)))).

Definition pkt_at (fd : Z) (t : pkts) : option pkt_sock :=
  find_locked fd (g_pkt t) ≫= fun i => g_pkt t !! i.

Definition packet_secondary (fd : Z) (t : pkts) : Z :=
  if g_pkt_live t =? 0 then -1
  else match pkt_at fd t with Some p => pk_fd6 p | None => -1 end.

(** An update of the descriptor's entry, when it has one. *)
Definition update_pkt (fd : Z) (f : pkt_sock -> pkt_sock) (t : pkts) : pkts :=
  match find_locked fd (g_pkt t) with
  | Some i => Pkts (alter f i (g_pkt t)) (g_pkt_live t)
  | None => t
  end.

(** ** Opening and binding *)

Definition handle_of (fd : Z) : T Z :=
  e ← fd_entry_of fd; mret (match e with Some e => fe_handle e | None => 0 end).

Definition sniff_on (fd : Z) (sa : list Z) : T (option errno) :=
  r ← ask (H_bind fd (Some sa) (Z.of_nat (length sa)));
  match r with
  | Err e => mret (Some e)
  | Ok _ => h ← handle_of fd; ask (H_WSAIoctl h SIO_RCVALL RCVALL_ON)
  end.

Definition SOCK_RAW : Z := host_const "SOCK_RAW".

Definition packet_socket : T (res Z) :=
  r ← ask (H_socket AF_INET SOCK_RAW (host_const "IPPROTO_IP"));
  match r with
  | Err _ => mret r
  | Ok fd =>
      _ ← reap_locked;
      t ← table;
      match find_index (fun p => negb (pk_live p)) (g_pkt t) with
      | None => _ ← ask (H_close fd); mret (Err EMFILE)
      | Some i =>
          h ← handle_of fd;
          _ ← set_table (Pkts (<[i := Pkt true fd h (-1) 0 false]> (g_pkt t)) (g_pkt_live t + 1));
          mret r
      end
  end.

(** Whether the IPv4 half sniffs, with the error it has when it does not. *)
Definition bind4 (fd4 : Z) (a4 : option (list Z)) : T (option errno) :=
  match a4 with
  | Some sa => sniff_on fd4 sa
  | None => mret (Some EADDRNOTAVAIL)
  end.

(** The IPv6 socket, if the adapter has such an address and it sniffs. *)
Definition bind6 (a6 : option (list Z)) : T (option Z) :=
  match a6 with
  | None => mret None
  | Some sa =>
      r ← ask (H_socket AF_INET6 SOCK_RAW (host_const "IPPROTO_IPV6"));
      match r with
      | Err _ => mret None
      | Ok fd6 =>
          e ← sniff_on fd6 sa;
          match e with
          | Some _ => _ ← ask (H_close fd6); mret None
          | None =>
              fl ← getfl fd6;
              _ ← ask (H_set_fl fd6 (Z.lor (match fl with Ok v => v | Err _ => -1 end) (host_const "O_NONBLOCK")));
              mret (Some fd6)
          end
      end
  end.

(** The entry takes the secondary, unless it was reaped meanwhile. *)
Definition install6 (fd : Z) (fd6 : option Z) : T unit :=
  t ← table;
  match find_locked fd (g_pkt t), fd6 with
  | Some _, _ =>
      set_table (update_pkt fd (fun p =>
        Pkt (pk_live p) (pk_fd p) (pk_handle p) (default (-1) fd6) (pk_ifindex p) (pk_turn p)) t)
  | None, Some f => _ ← ask (H_close f); mret tt
  | None, None => mret tt
  end.

Definition bind_both (fd fd4 : Z) (addrs : option (list Z) * option (list Z)) : T (res Z) :=
  err4 ← bind4 fd4 (fst addrs);
  fd6 ← bind6 (snd addrs);
  match err4, fd6 with
  | Some e, None => mret (Err e)
  | _, _ => _ ← install6 fd fd6; mret (Ok 0)
  end.

Definition packet_bind (fd : Z) (addr : option (list Z)) (len : Z) : T (res Z) :=
  match addr with
  | None => mret (Err EINVAL)
  | Some a =>
      if len <? 8 then mret (Err EINVAL)
      else
        let ifindex := s32 (rd 4 a 4) in
        if ifindex <=? 0 then mret (Err EINVAL)
        else
          adapters ← ask H_adapters;
          match adapter_addrs adapters ifindex with
          | None => mret (Err ENODEV)
          | Some addrs =>
              t ← table;
              match pkt_at fd t with
              | None => mret (Err ENOTSOCK)
              | Some p =>
                  _ ← set_table (update_pkt fd (fun p =>
                         Pkt (pk_live p) (pk_fd p) (pk_handle p) (pk_fd6 p) ifindex (pk_turn p)) t);
                  bind_both fd (pk_fd p) addrs
              end
          end
  end.

Definition packet_sockopt (fd level : Z) : T bool :=
  if level =? SHIM_LIN_SOL_PACKET then packet_is fd else mret false.

(** ** Receiving *)

Definition frame (et : Z) (data : list Z) : list Z := replicate 12 0 ++ [et / 256; et mod 256] ++ data.

(** The link-layer type of what looks like an IP packet. *)
Definition ether_type (data : list Z) : option Z :=
  match data with
  | [] => None
  | b :: _ =>
      if (Z.shiftr b 4 =? 4) && (20 <=? Z.of_nat (length data)) then Some ETH_P_IP
      else if (Z.shiftr b 4 =? 6) && (40 <=? Z.of_nat (length data)) then Some ETH_P_IPV6
      else None
  end.

(** What one socket had: a frame or an error, how many datagrams were taken
    off it, and whether one of them could not be framed. *)
Record drained := Drained { dr_res : res (list Z); dr_consumed : Z; dr_unframeable : bool }.

Fixpoint drain (k : nat) (fd n consumed : Z) (bad : bool) : T drained :=
  match k with
  | O => mret (Drained (Err EAGAIN) consumed bad)
  | Datatypes.S k' =>
      r ← ask (H_recv fd (n - ETH_HLEN) 0);
      match r with
      | Err e => mret (Drained (Err e) consumed bad)
      | Ok [] => drain k' fd n (consumed + 1) bad
      | Ok data =>
          match ether_type data with
          | Some et => mret (Drained (Ok (frame et data)) (consumed + 1) bad)
          | None => drain k' fd n (consumed + 1) true
          end
      end
  end.

Definition recv_framed (fd n consumed : Z) (bad : bool) : T drained :=
  if fd <? 0 then mret (Drained (Err EAGAIN) consumed bad)
  else if n <=? ETH_HLEN then mret (Drained (Err EINVAL) consumed bad)
  else drain PKT_DRAIN_MAX fd n consumed bad.

Definition fill_sll (buf : sockbuf) (ifindex et : Z) : sockbuf :=
  match buf with
  | (Some b, Some alen) =>
      let sll := le 2 SHIM_LIN_AF_PACKET ++ [et / 256; et mod 256] ++ le 4 ifindex ++ replicate 12 0 in
      let n := Z.to_nat (Z.min alen 20) in
      (Some (take n sll ++ drop n b), Some 20)
  | _ => buf
  end.

Definition drop_secondary (fd : Z) : T unit :=
  t ← table;
  match pkt_at fd t with
  | Some p =>
      if 0 <=? pk_fd6 p then
        _ ← ask (H_close (pk_fd6 p));
        set_table (update_pkt fd (fun p =>
          Pkt (pk_live p) (pk_fd p) (pk_handle p) (-1) (pk_ifindex p) false) t)
      else mret tt
  | None => mret tt
  end.

Definition is_again (e : errno) : bool := bool_decide (e = EAGAIN) || bool_decide (e = EWOULDBLOCK).

(** The two sockets in turn, the secondary first when [six]: a frame, an
    error, or neither with what was consumed and whether the secondary
    delivered something that is not a packet. *)
Inductive sweep_result := Framed (f : list Z) | Failed (e : errno) | Dry (consumed : Z) (bad6 : bool).

Fixpoint sweep (whiches : list bool) (fd4 fd6 n consumed : Z) (unframeable bad6 : bool) : T sweep_result :=
  match whiches with
  | [] => mret (Dry consumed bad6)
  | six :: whiches' =>
      d ← recv_framed (if six : bool then fd6 else fd4) n consumed unframeable;
      match dr_res d with
      | Ok f => mret (Framed f)
      | Err e =>
          let bad6 := bad6 || (six && dr_unframeable d && negb unframeable) in
          if is_again e then sweep whiches' fd4 fd6 n (dr_consumed d) (dr_unframeable d) bad6
          else mret (Failed e)
      end
  end.

(** The answer is the frame and the address; the empty frame says that
    datagrams were consumed but none could be framed. *)
Definition packet_recv (fd n : Z) (buf : sockbuf) : T (res (list Z) * sockbuf) :=
  t ← table;
  match pkt_at fd t with
  | None => mret (Err ENOTSOCK, buf)
  | Some p =>
      let turn := if 0 <=? pk_fd6 p then negb (pk_turn p) else false in
      _ ← set_table (update_pkt fd (fun p =>
             Pkt (pk_live p) (pk_fd p) (pk_handle p) (pk_fd6 p) (pk_ifindex p) turn) t);
      s ← sweep [pk_turn p; negb (pk_turn p)] (pk_fd p) (pk_fd6 p) n 0 false false;
      match s with
      | Framed f => mret (Ok f, fill_sll buf (pk_ifindex p) (nth 12 f 0 * 256 + nth 13 f 0))
      | Failed e => mret (Err e, buf)
      | Dry consumed bad6 =>
          _ ← (if bad6 : bool then drop_secondary fd else mret tt);
          mret (if negb (consumed =? 0) then Ok [] else Err EAGAIN, buf)
      end
  end.
End packets.

(** ** What the table owns *)

Definition own1 (p : pkt_sock) : list Z := if pk_live p && (0 <=? pk_fd6 p) then [pk_fd6 p] else [].
Definition owned (ps : list pkt_sock) : list Z := mjoin (own1 <$> ps).

Definition count_pkts (ps : list pkt_sock) : Z := Z.of_nat (length (filter (fun p => pk_live p = true) ps)).

(** The counter counts the live slots, a dead slot is blank. *)
Definition pkts_ok (t : pkts) : Prop :=
  length (g_pkt t) = PKT_MAX /\ g_pkt_live t = count_pkts (g_pkt t) /\
  Forall (fun p => pk_live p = false -> p = no_pkt) (g_pkt t).

(** The secondaries are open, each of one entry. *)
Definition pkts_inv (l : ledger) (t : pkts) : Prop :=
  pkts_ok t /\ NoDup (owned (g_pkt t)) /\ list_to_set (owned (g_pkt t)) ⊆ l_open l.

(** The open descriptors the program knows of. *)
Definition visible (l : ledger) (t : pkts) : gset Z := l_open l ∖ list_to_set (owned (g_pkt t)).

Lemma count_pkts_cons p ps : count_pkts (p :: ps) = (if pk_live p then 1 else 0) + count_pkts ps.
Proof. unfold count_pkts. rewrite filter_cons. destruct (pk_live p); simpl; lia. Qed.

Lemma owned_cons p ps : owned (p :: ps) = own1 p ++ owned ps.
Proof. done. Qed.

Lemma owned_insert ps i p q :
  ps !! i = Some p -> own1 p ++ owned (<[i := q]> ps) ≡ₚ own1 q ++ owned ps.
Proof.
  revert i. induction ps as [|x ps IH]; intros [|i] Hi; [done|done| |].
  - injection Hi as ->. change (<[0%nat := q]> (p :: ps)) with (q :: ps). rewrite !owned_cons.
    rewrite !app_assoc. by rewrite (Permutation_app_comm (own1 p)).
  - change (<[Datatypes.S i := q]> (x :: ps)) with (x :: <[i := q]> ps). rewrite !owned_cons.
    rewrite (app_assoc (own1 p)), (Permutation_app_comm (own1 p)), <- app_assoc, (IH i Hi).
    rewrite !app_assoc. by rewrite (Permutation_app_comm (own1 x)).
Qed.

Lemma count_insert ps i p q :
  ps !! i = Some p ->
  count_pkts (<[i := q]> ps) = count_pkts ps - (if pk_live p then 1 else 0) + (if pk_live q then 1 else 0).
Proof.
  revert i. induction ps as [|x ps IH]; intros [|i] Hi; simplify_eq/=; rewrite !count_pkts_cons; [lia|].
  rewrite (IH i Hi). lia.
Qed.

(** Replacing a slot by a live entry. *)
Lemma pkts_ok_insert t i p q :
  pkts_ok t -> g_pkt t !! i = Some p -> pk_live q = true ->
  pkts_ok (Pkts (<[i := q]> (g_pkt t)) (g_pkt_live t + if pk_live p then 0 else 1)).
Proof.
  intros (Hlen & Hn & Hb) Hi Hq. split_and!; simpl.
  - by rewrite length_insert.
  - rewrite (count_insert _ _ p), Hq, Hn by done. destruct (pk_live p); lia.
  - apply Forall_insert; [done|]. by rewrite Hq.
Qed.

Lemma pkt_at_Some fd t p :
  pkt_at fd t = Some p ->
  exists i, find_locked fd (g_pkt t) = Some i /\ g_pkt t !! i = Some p /\ pk_live p = true /\ pk_fd p = fd.
Proof.
  unfold pkt_at. destruct (find_locked fd (g_pkt t)) as [i|] eqn:Hi; [|done]. intros Hp. exists i.
  unfold find_locked in Hi. apply find_index_Some in Hi as (p' & Hp' & Hn).
  simpl in Hp. rewrite Hp in Hp'. injection Hp' as <-.
  unfold pkt_named in Hn. apply andb_true_iff in Hn as [Hl Hf%Z.eqb_eq]. by split_and!.
Qed.

Lemma pkt_at_None fd t : pkt_at fd t = None -> find_locked fd (g_pkt t) = None.
Proof.
  unfold pkt_at, find_locked. destruct (find_index _ _) as [i|] eqn:Hi; [|done].
  apply find_index_Some in Hi as (p & Hp & _). simpl. by rewrite Hp.
Qed.

(** An update that keeps an entry live and its descriptor. *)
Lemma update_pkt_ok fd f t p :
  pkts_ok t -> pkt_at fd t = Some p -> pk_live (f p) = true ->
  pkts_ok (update_pkt fd f t) /\ own1 p ++ owned (g_pkt (update_pkt fd f t)) ≡ₚ own1 (f p) ++ owned (g_pkt t).
Proof.
  intros Hok Hat Hf. destruct (pkt_at_Some _ _ _ Hat) as (i & Hi & Hp & Hl & _).
  unfold update_pkt. rewrite Hi. assert (alter f i (g_pkt t) = <[i := f p]> (g_pkt t)) as ->.
  { apply list_eq. intros j. destruct (decide (i = j)) as [<-|Hj].
    - rewrite list_lookup_alter_eq, list_lookup_insert_eq, Hp; [done|by eapply lookup_lt_Some].
    - by rewrite list_lookup_alter_ne, list_lookup_insert_ne. }
  pose proof (pkts_ok_insert t i p (f p) Hok Hp Hf) as Hok'. rewrite Hl, Z.add_0_r in Hok'.
  split; [done|]. by apply owned_insert.
Qed.

Lemma find_index_alter {A} (q : A -> bool) f i (l : list A) :
  (forall x, q (f x) = q x) -> find_index q (alter f i l) = find_index q l.
Proof.
  intros Hq. revert i. induction l as [|x l IH]; intros [|i]; [done..| |].
  - change (alter f 0%nat (x :: l)) with (f x :: l). cbn [find_index]. by rewrite Hq.
  - change (alter f (Datatypes.S i) (x :: l)) with (x :: alter f i l). cbn [find_index]. by rewrite IH.
Qed.

(** An update that keeps an entry's descriptor finds it where it was. *)
Lemma pkt_at_update fd f t p :
  (forall p, pk_live (f p) = pk_live p) -> (forall p, pk_fd (f p) = pk_fd p) ->
  pkt_at fd t = Some p -> pkt_at fd (update_pkt fd f t) = Some (f p).
Proof.
  intros Hl Hf Hat. destruct (pkt_at_Some _ _ _ Hat) as (i & Hi & Hp & _). unfold update_pkt. rewrite Hi.
  unfold pkt_at, find_locked in *. cbn [g_pkt]. rewrite find_index_alter, Hi.
  - simpl. by rewrite list_lookup_alter_eq, Hp.
  - intros x. unfold pkt_named. by rewrite Hl, Hf.
Qed.

(** The fast paths are exact. *)
Lemma no_packets fd t : pkts_ok t -> packet_any t = false -> pkt_at fd t = None.
Proof.
  intros (_ & Hn & _) Ha. unfold packet_any in Ha. apply negb_false_iff, Z.eqb_eq in Ha. rewrite Hn in Ha.
  destruct (pkt_at fd t) as [p|] eqn:Hp; [|done]. destruct (pkt_at_Some _ _ _ Hp) as (i & _ & Hi & Hl & _).
  assert (Hin : p ∈ filter (fun p => pk_live p = true) (g_pkt t)).
  { apply list_elem_of_filter. split; [done|]. by eapply list_elem_of_lookup_2. }
  unfold count_pkts in Ha. destruct (filter _ _); [set_solver|done].
Qed.

(** ** No descriptor is leaked *)

(** What closing some of the owned descriptors leaves. *)
Lemma owned_closed (closed own own' : list Z) (opened : gset Z) :
  NoDup own -> list_to_set own ⊆ opened -> own ≡ₚ closed ++ own' ->
  NoDup own' /\ list_to_set own' ⊆ opened ∖ list_to_set closed /\
  (opened ∖ list_to_set closed) ∖ list_to_set own' = opened ∖ list_to_set own.
Proof.
  intros Hnd Hsub Hp. rewrite Hp in Hnd. apply NoDup_app in Hnd as (_ & Hdis & Hnd).
  assert (Heq : list_to_set own = (list_to_set closed ∪ list_to_set own' : gset Z))
    by (rewrite <- list_to_set_app_L; by apply list_to_set_perm_L).
  rewrite Heq in Hsub |- *. split_and!; [done| |set_solver].
  intros x Hx. apply elem_of_difference. split; [set_solver|].
  intros Hc%elem_of_list_to_set. apply elem_of_list_to_set in Hx. by apply (Hdis x).
Qed.

Section packets_spec.
Context {S H : Type} {SH : SockHost H} {HL : SockLedger H} `{HostConsts}.
Context (pkts_of : S -> pkts) (put_pkts : pkts -> S -> S).
Context (get_put : forall t s, pkts_of (put_pkts t s) = t).

Notation inv w := (pkts_inv (s_ledger (snd w)) (pkts_of (fst w))).
Notation seen w := (visible (s_ledger (snd w)) (pkts_of (fst w))).

Lemma fd_is_post fd handle (w : S * H) : post (fd_is fd handle) w (fun _ w' => w' = w).
Proof. unfold fd_is, fd_entry_of. post_run. done. Qed.

Lemma reap_post ps s h :
  post (reap ps) (s, h) (fun (r : list pkt_sock * Z) (w' : S * H) =>
    (fst w' = s : Prop) /\ length (fst r) = length ps /\ count_pkts (fst r) = count_pkts ps - snd r /\
    (Forall (fun p => pk_live p = false -> p = no_pkt) ps -> Forall (fun p => pk_live p = false -> p = no_pkt) (fst r)) /\
    exists closed, owned ps ≡ₚ closed ++ owned (fst r) /\
      s_ledger (snd w') = Ledger (l_open (s_ledger h) ∖ list_to_set closed) (l_sent (s_ledger h)) (l_got (s_ledger h))).
Proof.
  assert (Hnil : forall l : ledger, l = Ledger (l_open l ∖ list_to_set []) (l_sent l) (l_got l)).
  { intros [o x g]. simpl. f_equal. set_solver. }
  revert s h. induction ps as [|p ps IH]; intros s h; cbn [reap].
  { apply post_ret. simpl. split_and!; try done. exists []. split; [done|apply Hnil]. }
  apply post_bind. eapply post_impl with (P := fun ok w' => w' = (s, h) /\ (ok = false -> pk_live p = true)).
  { destruct (pk_live p); [|by apply post_ret].
    eapply post_impl; [apply fd_is_post|]. by intros ? ? ->. }
  intros ok w' [-> Hok]. destruct ok.
  - apply post_bind. eapply post_impl; [apply IH|]. intros [ps' n] [s' h'] (Hs' & Hlen & Hc & Hb & closed & Hp & Hled).
    cbn [fst snd] in Hs'. subst s'.
    apply post_ret. simpl in *. split_and!; [done|by rewrite Hlen|rewrite !count_pkts_cons; lia| |].
    + intros [Hd Hall]%Forall_cons. apply Forall_cons. split; [done|by apply Hb].
    + exists closed. split; [|done]. rewrite !owned_cons, Hp, !app_assoc. by rewrite (Permutation_app_comm (own1 p)).
  - specialize (Hok eq_refl). apply post_bind.
    eapply post_impl with (P := fun _ w' => fst w' = s /\
      s_ledger (snd w') = Ledger (l_open (s_ledger h) ∖ list_to_set (own1 p)) (l_sent (s_ledger h)) (l_got (s_ledger h))).
    { unfold own1. rewrite Hok. simpl. destruct (0 <=? pk_fd6 p); post_run; [|split; [done|apply Hnil]].
      split; [done|]. rewrite He. f_equal. set_solver. }
    intros _ [s1 h1] [Hs1 Hl1]. simpl in Hs1, Hl1. subst s1. apply post_bind.
    eapply post_impl; [apply IH|]. intros [ps' n] [s' h'] (Hs' & Hlen & Hc & Hb & closed & Hp & Hled).
    cbn [fst snd] in Hs'. subst s'.
    apply post_ret. simpl in *. split_and!; [done|by rewrite Hlen| | |].
    + rewrite !count_pkts_cons, Hok. simpl. lia.
    + intros [Hd Hall]%Forall_cons. apply Forall_cons. split; [done|by apply Hb].
    + exists (own1 p ++ closed). split; [by rewrite owned_cons, Hp, <- app_assoc|].
      rewrite Hled, Hl1. simpl. f_equal. rewrite list_to_set_app_L. set_solver.
Qed.

Lemma reap_locked_post s h :
  pkts_inv (s_ledger h) (pkts_of s) ->
  post (reap_locked pkts_of put_pkts) (s, h) (fun _ (w' : S * H) => inv w' /\ seen w' = visible (s_ledger h) (pkts_of s) /\
    l_open (s_ledger (snd w')) ⊆ l_open (s_ledger h) /\
    list_to_set (owned (g_pkt (pkts_of (fst w')))) ⊆ (list_to_set (owned (g_pkt (pkts_of s))) : gset Z) /\
    l_open (s_ledger h) ∖ list_to_set (owned (g_pkt (pkts_of s))) ⊆ l_open (s_ledger (snd w'))).
Proof.
  intros ((Hlen & Hn & Hb) & Hnd & Hsub). unfold reap_locked, table, set_table. apply post_bind, post_reads. apply post_bind.
  eapply post_impl; [apply reap_post|]. intros [ps n] [s' h'] (Hs' & Hlen' & Hc & Hb' & closed & Hp & Hled). simpl in *. subst s'.
  apply post_modifies. simpl. unfold pkts_inv, visible. rewrite get_put, Hled. simpl.
  destruct (owned_closed _ _ _ _ Hnd Hsub Hp) as (Hnd' & Hsub' & Hv).
  assert (Heq : list_to_set (owned (g_pkt (pkts_of s))) = (list_to_set closed ∪ list_to_set (owned ps) : gset Z))
    by (rewrite <- list_to_set_app_L; by apply list_to_set_perm_L).
  assert (Hok' : pkts_ok (Pkts ps (g_pkt_live (pkts_of s) - n))).
  { unfold pkts_ok. simpl. split_and!; [congruence|lia|by apply Hb']. }
  split; [done|]. split; [done|]. rewrite Heq. set_solver.
Qed.

(** Two states of the table with the same owned descriptors. *)
Lemma inv_same_owned l t t' :
  pkts_inv l t -> pkts_ok t' -> owned (g_pkt t') ≡ₚ owned (g_pkt t) ->
  pkts_inv l t' /\ visible l t' = visible l t.
Proof.
  intros (Hok & Hnd & Hsub) Hok' Hp. unfold pkts_inv, visible.
  assert ((list_to_set (owned (g_pkt t')) : gset Z) = list_to_set (owned (g_pkt t))) as -> by by apply list_to_set_perm_L.
  split_and!; try done. by rewrite Hp.
Qed.

Lemma packet_is_post fd s h :
  pkts_inv (s_ledger h) (pkts_of s) ->
  post (packet_is pkts_of put_pkts fd) (s, h) (fun yes w' =>
    inv w' /\ seen w' = visible (s_ledger h) (pkts_of s) /\
    (yes = true <-> is_Some (pkt_at fd (pkts_of (fst w'))))).
Proof.
  intros Hinv. unfold packet_is, table. apply post_bind, post_reads. simpl.
  destruct (Z.eqb_spec (g_pkt_live (pkts_of s)) 0) as [Hz|Hz].
  - apply post_ret. simpl. split_and!; [done..|]. split; [done|].
    rewrite (no_packets fd (pkts_of s)); [by intros [? ?]|apply Hinv|]. unfold packet_any. by rewrite Hz.
  - apply post_bind. eapply post_impl; [by apply reap_locked_post|].
    intros _ [s' h'] (Hinv' & Hs & _). apply post_bind, post_reads. apply post_ret. simpl in *.
    split_and!; [done..|]. rewrite bool_decide_eq_true. unfold pkt_at.
    destruct (find_locked fd (g_pkt (pkts_of s'))) as [i|] eqn:Hi; simpl.
    + unfold find_locked in Hi. apply find_index_Some in Hi as (p & Hp & _). rewrite Hp. by split.
    + split; intros [? ?]; done.
Qed.

Lemma packet_sockopt_post fd level s h :
  pkts_inv (s_ledger h) (pkts_of s) ->
  post (packet_sockopt pkts_of put_pkts fd level) (s, h) (fun yes w' =>
    inv w' /\ seen w' = visible (s_ledger h) (pkts_of s)).
Proof.
  intros Hinv. unfold packet_sockopt. destruct (_ =? _); [|by apply post_ret].
  eapply post_impl; [by apply packet_is_post|]. naive_solver.
Qed.

Lemma packet_socket_post s h :
  pkts_inv (s_ledger h) (pkts_of s) ->
  post (packet_socket pkts_of put_pkts) (s, h) (fun r w' => inv w' /\
    match r with
    | Ok fd => fd ∉ l_open (s_ledger h) /\ seen w' = {[fd]} ∪ visible (s_ledger h) (pkts_of s)
    | Err _ => seen w' = visible (s_ledger h) (pkts_of s)
    end).
Proof.
  intros Hinv. unfold packet_socket. apply post_bind, post_ask_effect. intros r h1 _ He. cbn [call_effect] in He.
  destruct r as [fd|e]; [|apply post_ret; simpl; by rewrite He].
  destruct He as (Hfd & Hnew & Hl1).
  assert (Hinv1 : pkts_inv (s_ledger h1) (pkts_of s)).
  { destruct Hinv as (Hok & Hnd & Hsub). rewrite Hl1. split_and!; try done. simpl. set_solver. }
  assert (Hseen1 : visible (s_ledger h1) (pkts_of s) = {[fd]} ∪ visible (s_ledger h) (pkts_of s)).
  { destruct Hinv as (_ & _ & Hsub). unfold visible. rewrite Hl1. simpl. set_solver. }
  apply post_bind. eapply post_impl; [by apply reap_locked_post|]. intros _ [s2 h2] (Hinv2 & Hseen2 & Hopen & Hown & Hkeep).
  cbn [fst snd] in *. unfold table. apply post_bind, post_reads. cbn [fst snd].
  destruct (find_index _ _) as [i|] eqn:Hi.
  - unfold handle_of, fd_entry_of, set_table. post_run. rewrite get_put.
    apply find_index_Some in Hi as (p & Hp & Hdead%negb_true_iff).
    destruct Hinv2 as (Hok2 & Hnd2 & Hsub2).
    set (q := Pkt true fd _ (-1) 0 false).
    pose proof (pkts_ok_insert _ i p q Hok2 Hp eq_refl) as Hok3. rewrite Hdead in Hok3.
    pose proof (owned_insert _ i p q Hp) as Hperm. unfold own1 in Hperm. rewrite Hdead in Hperm. simpl in Hperm.
    destruct (inv_same_owned _ _ _ (conj Hok2 (conj Hnd2 Hsub2)) Hok3 Hperm) as [? Hv].
    split; [done|]. split; [done|]. rewrite Hv, Hseen2. done.
  - post_run. destruct Hinv2 as (Hok2 & Hnd2 & Hsub2). destruct Hinv as (_ & _ & Hsub).
    assert (Hfd2 : fd ∉ (list_to_set (owned (g_pkt (pkts_of s2))) : gset Z)) by (clear -Hown Hsub Hnew; set_solver).
    unfold pkts_inv, visible in *. rewrite He. cbn [l_open]. rewrite Hseen1 in Hseen2.
    split; [split_and!; [done|done|clear -Hsub2 Hfd2; set_solver]|].
    replace (l_open (s_ledger h2) ∖ {[fd]} ∖ list_to_set (owned (g_pkt (pkts_of s2))))
      with ((l_open (s_ledger h2) ∖ list_to_set (owned (g_pkt (pkts_of s2)))) ∖ {[fd]}) by (clear; set_solver).
    rewrite Hseen2. clear -Hnew. set_solver.
Qed.

(** What a bind of a bound socket forgets. *)
Definition bound_before (fd : Z) (t : pkts) : gset Z :=
  match pkt_at fd t with Some p => list_to_set (own1 p) | None => ∅ end.

Lemma sniff_on_post fd sa s h :
  post (sniff_on (S := S) fd sa) (s, h) (fun _ w' => fst w' = s /\ s_ledger (snd w') = s_ledger h).
Proof.
  unfold sniff_on, handle_of. post_run. case_match; post_run; [split; [done|congruence]|done].
Qed.

Lemma bind6_post a6 s h :
  post (bind6 (S := S) a6) (s, h) (fun r w' => fst w' = s /\
    match r with
    | Some f => 0 <= f /\ f ∉ l_open (s_ledger h) /\ l_open (s_ledger (snd w')) = {[f]} ∪ l_open (s_ledger h)
    | None => l_open (s_ledger (snd w')) = l_open (s_ledger h)
    end).
Proof.
  unfold bind6. destruct a6 as [sa|]; [|by apply post_ret]. post_run. destruct a as [f|]; [|post_run; by rewrite He].
  destruct He as (Hf & Hnew & He). apply post_bind. eapply post_impl; [apply sniff_on_post|].
  intros r [s' h2] [Hs Hl]. cbn [fst snd] in Hs, Hl. subst s'. destruct r; post_run; (split; [done|]).
  - rewrite He0. cbn [l_open]. rewrite Hl, He. cbn [l_open]. clear -Hnew. set_solver.
  - rewrite He0, Hl, He. done.
Qed.

Lemma inv_open l l' t :
  l_open l' = l_open l -> pkts_inv l t -> pkts_inv l' t /\ visible l' t = visible l t.
Proof. unfold pkts_inv, visible. by intros ->. Qed.

(** A new secondary for an entry, or none: the old one is forgotten. *)
Lemma inv_new_secondary l l' t t' p p' :
  pkts_inv l t -> own1 p ⊆ owned (g_pkt t) -> pkts_ok t' ->
  own1 p ++ owned (g_pkt t') ≡ₚ own1 p' ++ owned (g_pkt t) ->
  (forall f, f ∈ own1 p' -> f ∉ l_open l) -> l_open l' = list_to_set (own1 p') ∪ l_open l ->
  pkts_inv l' t' /\ visible l' t' = visible l t ∪ list_to_set (own1 p).
Proof.
  intros (Hok & Hnd & Hsub) Hin Hok' Hp Hnew Hl'.
  assert (Hnd' : NoDup (own1 p' ++ owned (g_pkt t))).
  { apply NoDup_app. split_and!; [unfold own1; case_match; repeat constructor; set_solver| |done].
    intros f Hf Ho. apply (Hnew f Hf), Hsub. by apply elem_of_list_to_set. }
  rewrite <- Hp in Hnd'. apply NoDup_app in Hnd' as (_ & Hdis & Hnd').
  assert (Heq : forall x, x ∈ own1 p \/ x ∈ owned (g_pkt t') <-> x ∈ own1 p' \/ x ∈ owned (g_pkt t)).
  { intros x. by rewrite <- !elem_of_app, Hp. }
  unfold pkts_inv, visible. rewrite Hl'. split.
  - split_and!; [done|done|]. intros x Hx%elem_of_list_to_set. specialize (Heq x).
    destruct (proj1 Heq (or_intror Hx)); [set_solver|]. apply elem_of_union_r, Hsub. by apply elem_of_list_to_set.
  - apply set_eq. intros x. rewrite elem_of_difference, !elem_of_union, elem_of_difference, !elem_of_list_to_set.
    specialize (Heq x). specialize (Hdis x). specialize (Hnew x). specialize (Hin x). specialize (Hsub x).
    rewrite elem_of_list_to_set in Hsub. destruct (decide (x ∈ owned (g_pkt t))); tauto.
Qed.

(** The same entry with another secondary, or none. *)
Lemma own1_in p ps : p ∈ ps -> own1 p ⊆ owned ps.
Proof. intros Hp x Hx. apply list_elem_of_join. exists (own1 p). split; [done|]. by apply list_elem_of_fmap_2. Qed.

Lemma install6_post fd fd6 l s h :
  pkts_inv l (pkts_of s) -> (forall f, fd6 = Some f -> 0 <= f /\ f ∉ l_open l) ->
  l_open (s_ledger h) = match fd6 with Some f => {[f]} ∪ l_open l | None => l_open l end ->
  post (install6 pkts_of put_pkts fd fd6) (s, h) (fun _ (w' : S * H) =>
    inv w' /\ seen w' = visible l (pkts_of s) ∪ bound_before fd (pkts_of s)).
Proof.
  intros Hinv Hnew Hl. unfold install6, table, set_table, bound_before. apply post_bind, post_reads. cbn [fst snd].
  destruct (pkt_at fd (pkts_of s)) as [p|] eqn:Hat.
  - destruct (pkt_at_Some _ _ _ Hat) as (i & -> & Hi & Hlive & Hfd). post_run. rewrite get_put.
    set (g := fun p => Pkt (pk_live p) (pk_fd p) (pk_handle p) (default (-1) fd6) (pk_ifindex p) (pk_turn p)).
    destruct (update_pkt_ok fd g _ p (proj1 Hinv) Hat Hlive) as [Hok' Hperm].
    assert (Hg : own1 (g p) = match fd6 with Some f => [f] | None => [] end).
    { unfold own1, g. simpl. rewrite Hlive. destruct fd6 as [f|]; [|done]. destruct (Hnew f eq_refl) as [Hf _]. simpl.
      by rewrite (proj2 (Z.leb_le 0 f)). }
    eapply inv_new_secondary; [exact Hinv|by eapply own1_in, list_elem_of_lookup_2|exact Hok'|exact Hperm| |].
    + rewrite Hg. intros f Hf. destruct fd6 as [f'|]; [|set_solver]. apply list_elem_of_singleton in Hf as ->. by apply Hnew.
    + rewrite Hg, Hl. destruct fd6; simpl; set_solver.
  - rewrite (pkt_at_None _ _ Hat). rewrite union_empty_r_L. destruct fd6 as [f|]; post_run; apply inv_open; try done.
    rewrite He. cbn [l_open]. rewrite Hl. destruct (Hnew f eq_refl) as [_ Hf]. clear -Hf. set_solver.
Qed.

Lemma bind_both_post fd fd4 addrs s h :
  pkts_inv (s_ledger h) (pkts_of s) ->
  post (bind_both pkts_of put_pkts fd fd4 addrs) (s, h) (fun (r : res Z) (w' : S * H) => inv w' /\
    seen w' = visible (s_ledger h) (pkts_of s) ∪ match r with Ok _ => bound_before fd (pkts_of s) | Err _ => ∅ end).
Proof.
  intros Hinv. unfold bind_both. apply post_bind.
  eapply post_impl with (P := fun _ w' => fst w' = s /\ s_ledger (snd w') = s_ledger h).
  { unfold bind4. destruct (fst addrs); [apply sniff_on_post|by apply post_ret]. }
  intros e4 [s1 h1] [Hs1 Hl1]. cbn [fst snd] in Hs1, Hl1. subst s1. apply post_bind.
  eapply post_impl; [apply bind6_post|]. intros r6 [s2 h2] [Hs2 Hl2]. cbn [fst snd] in Hs2, Hl2. subst s2.
  rewrite Hl1 in Hl2.
  assert (Hdone : post (_ ← install6 pkts_of put_pkts fd r6; mret (Ok 0)) (s, h2) (fun (r : res Z) (w' : S * H) => inv w' /\
    seen w' = visible (s_ledger h) (pkts_of s) ∪ match r with Ok _ => bound_before fd (pkts_of s) | Err _ => ∅ end)).
  { apply post_bind. eapply post_impl; [apply (install6_post _ _ (s_ledger h)); [done| |]|].
    - intros f ->. tauto.
    - destruct r6; [apply Hl2|done].
    - intros ? ? ?. by apply post_ret. }
  destruct e4 as [e|], r6 as [f|]; [exact Hdone| |exact Hdone..].
  apply post_ret. cbn [fst snd]. destruct (inv_open (s_ledger h) (s_ledger h2) (pkts_of s) Hl2 Hinv) as [? ->].
  split; [done|]. by rewrite union_empty_r_L.
Qed.

Lemma packet_bind_post fd addr len s h :
  pkts_inv (s_ledger h) (pkts_of s) ->
  post (packet_bind pkts_of put_pkts fd addr len) (s, h) (fun (r : res Z) (w' : S * H) => inv w' /\
    seen w' = visible (s_ledger h) (pkts_of s) ∪ match r with Ok _ => bound_before fd (pkts_of s) | Err _ => ∅ end).
Proof.
  intros Hinv.
  assert (Hfail : forall e h', s_ledger h' = s_ledger h ->
    post (mret (Err e) : M (S * H) (res Z)) (s, h') (fun (r : res Z) (w' : S * H) => inv w' /\
    seen w' = visible (s_ledger h) (pkts_of s) ∪ match r with Ok _ => bound_before fd (pkts_of s) | Err _ => ∅ end)).
  { intros e h' Hl. apply post_ret. cbn [fst snd]. rewrite Hl. split; [done|]. by rewrite union_empty_r_L. }
  unfold packet_bind. destruct addr as [a|]; [|by apply Hfail]. destruct (_ <? _); [by apply Hfail|].
  destruct (_ <=? _); [by apply Hfail|]. post_run. destruct (adapter_addrs _ _) as [addrs|]; [|by apply Hfail].
  unfold table, set_table. apply post_bind, post_reads. cbn [fst snd].
  destruct (pkt_at fd (pkts_of s)) as [p|] eqn:Hat; [|by apply Hfail]. post_run.
  destruct (pkt_at_Some _ _ _ Hat) as (i & Hi & Hp & Hlive & Hfd).
  set (g := fun p => Pkt (pk_live p) (pk_fd p) (pk_handle p) (pk_fd6 p) _ (pk_turn p)).
  destruct (update_pkt_ok fd g _ p (proj1 Hinv) Hat Hlive) as [Hok' Hperm].
  assert (Hg : own1 (g p) = own1 p) by done. rewrite Hg in Hperm. apply Permutation_app_inv_l in Hperm.
  destruct (inv_same_owned _ _ _ Hinv Hok' Hperm) as [Hinv' Hseen'].
  set (s' := put_pkts (update_pkt fd g (pkts_of s)) s).
  assert (Hs' : pkts_of s' = update_pkt fd g (pkts_of s)) by apply get_put.
  eapply post_impl; [apply bind_both_post; by rewrite He, Hs'|]. intros r w' [Hi' Hv]. split; [done|].
  rewrite Hv, He, Hs', Hseen'. f_equal. destruct r; [|done].
  unfold bound_before. rewrite Hat, (pkt_at_update fd g _ p) by done. done.
Qed.

Lemma drop_secondary_post fd s h :
  pkts_inv (s_ledger h) (pkts_of s) ->
  post (drop_secondary pkts_of put_pkts fd) (s, h) (fun _ (w' : S * H) =>
    inv w' /\ seen w' = visible (s_ledger h) (pkts_of s) /\ l_got (s_ledger (snd w')) = l_got (s_ledger h)).
Proof.
  intros Hinv. unfold drop_secondary, table, set_table. apply post_bind, post_reads. cbn [fst snd].
  destruct (pkt_at fd (pkts_of s)) as [p|] eqn:Hat; [|by apply post_ret].
  destruct (0 <=? pk_fd6 p) eqn:H6; [|by apply post_ret]. post_run. rewrite get_put.
  destruct (pkt_at_Some _ _ _ Hat) as (i & Hi & Hp & Hlive & Hfd).
  set (g := fun p => Pkt (pk_live p) (pk_fd p) (pk_handle p) (-1) (pk_ifindex p) false).
  destruct (update_pkt_ok fd g _ p (proj1 Hinv) Hat Hlive) as [Hok' Hperm].
  assert (own1 p = [pk_fd6 p]) as Hp1 by (unfold own1; by rewrite Hlive, H6).
  assert (own1 (g p) = []) as Hp2 by (unfold own1; simpl; by rewrite Hlive).
  rewrite Hp1, Hp2 in Hperm. destruct Hinv as (Hok & Hnd & Hsub).
  destruct (owned_closed [pk_fd6 p] (owned (g_pkt (pkts_of s))) (owned (g_pkt (update_pkt fd g (pkts_of s)))) _ Hnd Hsub)
    as (Hnd' & Hsub' & Hv); [symmetry; exact Hperm|].
  unfold pkts_inv, visible. rewrite He. cbn [l_open].
  assert ((list_to_set [pk_fd6 p] : gset Z) = {[pk_fd6 p]}) as Hone by (simpl; apply union_empty_r_L).
  rewrite Hone in *. by split_and!.
Qed.

(** ** What a receive reads *)

(** Receiving only appends to what was received. *)
Definition reads_more (l l' : ledger) : Prop :=
  l_open l' = l_open l /\ forall fd, exists more, got_on l' fd = got_on l fd ++ more.

Lemma reads_more_refl l : reads_more l l.
Proof. split; [done|]. intros fd. exists []. by rewrite app_nil_r. Qed.

Lemma reads_more_trans l l' l'' : reads_more l l' -> reads_more l' l'' -> reads_more l l''.
Proof.
  intros [Ho Hg] [Ho' Hg']. split; [congruence|]. intros fd.
  destruct (Hg fd) as [x Hx], (Hg' fd) as [y Hy]. exists (x ++ y). by rewrite Hy, Hx, app_assoc.
Qed.

Lemma got_more_at l fd data fd' :
  got_on (got_more l fd data) fd' = if decide (fd = fd') then got_on l fd ++ data else got_on l fd'.
Proof.
  unfold got_on at 1, got_more. cbn [l_got]. destruct (decide (fd = fd')) as [<-|Hn].
  - by rewrite lookup_insert_eq.
  - by rewrite lookup_insert_ne.
Qed.

Lemma got_more_reads l fd data : reads_more l (got_more l fd data).
Proof.
  split; [done|]. intros fd'. rewrite got_more_at. destruct (decide (fd = fd')) as [<-|]; [by exists data|].
  exists []. by rewrite app_nil_r.
Qed.

(** A frame of at most [n] bytes around the last datagram of [fd]. *)
Definition framed_from (l l' : ledger) (fd n : Z) (f : list Z) (et : Z) : Prop :=
  exists data pre, f = frame et data /\ ether_type data = Some et /\ Z.of_nat (length f) <= n /\
    got_on l' fd = got_on l fd ++ pre ++ data.

Lemma framed_from_more l0 l l' fd n f et :
  reads_more l0 l -> framed_from l l' fd n f et -> framed_from l0 l' fd n f et.
Proof.
  intros [_ Hg] (data & pre & -> & Het & Hn & Hgot). destruct (Hg fd) as [x Hx]. exists data, (x ++ pre).
  by rewrite Hgot, Hx, <- !app_assoc.
Qed.

Lemma length_frame et data : Z.of_nat (length (frame et data)) = ETH_HLEN + Z.of_nat (length data).
Proof. unfold frame. rewrite length_app. simpl. unfold ETH_HLEN. lia. Qed.

Lemma drain_post k fd n consumed bad s h :
  ETH_HLEN < n ->
  post (drain (S := S) k fd n consumed bad) (s, h) (fun d w' =>
    fst w' = s /\ reads_more (s_ledger h) (s_ledger (snd w')) /\ consumed <= dr_consumed d /\
    (dr_consumed d = consumed -> s_ledger (snd w') = s_ledger h) /\
    match dr_res d with
    | Ok f => exists et, framed_from (s_ledger h) (s_ledger (snd w')) fd n f et
    | Err _ => True
    end).
Proof.
  intros Hn. revert consumed bad h. induction k as [|k IH]; intros consumed bad h; cbn [drain].
  { apply post_ret. cbn [fst snd dr_res dr_consumed]. split_and!; try done. apply reads_more_refl. }
  post_run. destruct a as [data|e].
  2: { apply post_ret. cbn [fst snd dr_res dr_consumed]. rewrite He. split_and!; try done. apply reads_more_refl. }
  destruct He as [Hlen He].
  assert (Hnext : forall bad', post (drain (S := S) k fd n (consumed + 1) bad') (s, h') (fun d w' =>
    fst w' = s /\ reads_more (s_ledger h) (s_ledger (snd w')) /\ consumed <= dr_consumed d /\
    (dr_consumed d = consumed -> s_ledger (snd w') = s_ledger h) /\
    match dr_res d with
    | Ok f => exists et, framed_from (s_ledger h) (s_ledger (snd w')) fd n f et
    | Err _ => True
    end)).
  { intros bad'. eapply post_impl; [apply IH|]. intros d w' (Hs & Hr & Hc & _ & Hf).
    assert (Hmore : reads_more (s_ledger h) (s_ledger h')) by (rewrite He; apply got_more_reads).
    split_and!; [done|by eapply reads_more_trans|lia|lia|].
    destruct (dr_res d); [|done]. destruct Hf as [et Hf]. exists et. by eapply framed_from_more. }
  destruct data as [|b data]; [apply Hnext|]. destruct (ether_type (b :: data)) as [et|] eqn:Het; [|apply Hnext].
  apply post_ret. cbn [fst snd dr_res dr_consumed]. split_and!; [done|rewrite He; apply got_more_reads|lia|lia|].
  exists et, (b :: data), []. split_and!; [done|done| |].
  - rewrite length_frame. unfold ETH_HLEN in *. lia.
  - rewrite He, got_more_at, decide_True by done. done.
Qed.

Lemma recv_framed_post fd n consumed bad s h :
  post (recv_framed (S := S) fd n consumed bad) (s, h) (fun d w' =>
    fst w' = s /\ reads_more (s_ledger h) (s_ledger (snd w')) /\ consumed <= dr_consumed d /\
    (dr_consumed d = consumed -> s_ledger (snd w') = s_ledger h) /\
    match dr_res d with
    | Ok f => exists et, framed_from (s_ledger h) (s_ledger (snd w')) fd n f et
    | Err _ => True
    end).
Proof.
  unfold recv_framed. destruct (fd <? 0).
  { apply post_ret. cbn [fst snd dr_res dr_consumed]. split_and!; try done. apply reads_more_refl. }
  destruct (Z.leb_spec n ETH_HLEN); [|by apply drain_post].
  apply post_ret. cbn [fst snd dr_res dr_consumed]. split_and!; try done. apply reads_more_refl.
Qed.

Lemma sweep_post ws fd4 fd6 n consumed unf bad6 s h :
  post (sweep (S := S) ws fd4 fd6 n consumed unf bad6) (s, h) (fun r w' =>
    fst w' = s /\ reads_more (s_ledger h) (s_ledger (snd w')) /\
    match r with
    | Framed f => exists (six : bool) et, framed_from (s_ledger h) (s_ledger (snd w')) (if six then fd6 else fd4) n f et
    | Failed e => is_again e = false
    | Dry c _ => consumed <= c /\ (c = consumed -> s_ledger (snd w') = s_ledger h)
    end).
Proof.
  revert consumed unf bad6 h. induction ws as [|six ws IH]; intros consumed unf bad6 h; cbn [sweep].
  { apply post_ret. split_and!; try done. apply reads_more_refl. }
  apply post_bind. eapply post_impl; [apply recv_framed_post|]. intros d [s' h1] (Hs & Hr & Hc & Hsame & Hf).
  cbn [fst snd] in *. subst s'. destruct (dr_res d) as [f|e].
  - destruct Hf as [et Hf]. apply post_ret. split_and!; [done..|]. by exists six, et.
  - destruct (is_again e) eqn:Hag; [|by apply post_ret].
    eapply post_impl; [apply IH|]. intros r [s2 h2] (Hs2 & Hr2 & Hm). cbn [fst snd] in *.
    split_and!; [done|by eapply reads_more_trans|]. destruct r as [f|e'|c bad].
    + destruct Hm as (six' & et & Hm). exists six', et. by eapply framed_from_more.
    + done.
    + destruct Hm as [Hge Heq]. split; [lia|]. intros ->. rewrite Heq by lia. apply Hsame. lia.
Qed.

Lemma frame_type et data : ether_type data = Some et -> nth 12 (frame et data) 0 * 256 + nth 13 (frame et data) 0 = et.
Proof. destruct data; simpl; [done|]. repeat case_match; intros; simplify_eq/=; done. Qed.

(** The entry as a receive leaves it: the other socket goes first next. *)
Definition turned (p : pkt_sock) : pkt_sock :=
  Pkt (pk_live p) (pk_fd p) (pk_handle p) (pk_fd6 p) (pk_ifindex p)
    (if 0 <=? pk_fd6 p then negb (pk_turn p) else false).

(** a receive on a packet socket answers one frame, an error or nothing,
    and each means what the caller takes it to mean. A frame is the last
    datagram taken off one of the two sockets, an IP packet, behind twelve
    zero bytes and the type its version says, it fits the caller's buffer,
    and the address is the adapter's with that type. EAGAIN means that
    neither socket gave up anything: a call that took datagrams it could not
    frame answers the empty frame. And whatever it answers, the other socket
    is drained first next time. *)
Theorem packet_recv_frames fd n buf p s h :
  pkts_inv (s_ledger h) (pkts_of s) -> pkt_at fd (pkts_of s) = Some p ->
  exists r buf' s' h',
    packet_recv pkts_of put_pkts fd n buf (s, h) = Some ((r, buf'), (s', h')) /\
    match r with
    | Ok [] => buf' = buf
    | Ok f => exists (six : bool) et,
        framed_from (s_ledger h) (s_ledger h') (if six then pk_fd6 p else fd) n f et /\
        buf' = fill_sll buf (pk_ifindex p) et
    | Err e => buf' = buf /\ (is_again e = true -> l_got (s_ledger h') = l_got (s_ledger h))
    end /\
    (r <> Ok [] -> r <> Err EAGAIN -> pkt_at fd (pkts_of s') = Some (turned p)) /\
    pkts_inv (s_ledger h') (pkts_of s') /\ visible (s_ledger h') (pkts_of s') = visible (s_ledger h) (pkts_of s).
Proof.
  intros Hinv Hat. destruct (pkt_at_Some _ _ _ Hat) as (i & Hi & Hp & Hlive & Hfd).
  set (g := fun q => Pkt (pk_live q) (pk_fd q) (pk_handle q) (pk_fd6 q) (pk_ifindex q)
              (if 0 <=? pk_fd6 p then negb (pk_turn p) else false)).
  set (t' := update_pkt fd g (pkts_of s)).
  destruct (update_pkt_ok fd g _ p (proj1 Hinv) Hat Hlive) as [Hok' Hperm].
  assert (Hat' : pkt_at fd t' = Some (turned p))
    by exact (pkt_at_update fd g _ p (fun _ => eq_refl) (fun _ => eq_refl) Hat).
  apply Permutation_app_inv_l in Hperm.
  destruct (inv_same_owned _ _ t' Hinv Hok' Hperm) as [Hinv' Hseen'].
  set (s1 := put_pkts t' s). assert (Hs1 : pkts_of s1 = t') by apply get_put.
  enough (Hpost : post (packet_recv pkts_of put_pkts fd n buf) (s, h) (fun x w' =>
    match fst x with
    | Ok [] => snd x = buf
    | Ok f => exists (six : bool) et,
        framed_from (s_ledger h) (s_ledger (snd w')) (if six then pk_fd6 p else fd) n f et /\
        snd x = fill_sll buf (pk_ifindex p) et
    | Err e => snd x = buf /\ (is_again e = true -> l_got (s_ledger (snd w')) = l_got (s_ledger h))
    end /\
    (fst x <> Ok [] -> fst x <> Err EAGAIN -> pkt_at fd (pkts_of (fst w')) = Some (turned p)) /\
    inv w' /\ seen w' = visible (s_ledger h) (pkts_of s))).
  { apply post_run in Hpost as ([r buf'] & [s' h'] & Hrun & Hq). by exists r, buf', s', h'. }
  unfold packet_recv, table, set_table. apply post_bind, post_reads. cbn [fst snd]. rewrite Hat.
  apply post_bind, post_modifies. cbn [fst snd]. change (put_pkts _ s) with s1. apply post_bind.
  eapply post_impl; [apply sweep_post|]. intros x [s2 h2] (Hs2 & [Hopen Hgot] & Hx). cbn [fst snd] in *. subst s2.
  destruct (inv_open _ (s_ledger h2) t' Hopen Hinv') as [Hinv2 Hseen2]. rewrite Hseen' in Hseen2.
  destruct x as [f|e|c bad].
  - apply post_ret. cbn [fst snd]. rewrite Hs1. split_and!; try done. destruct Hx as (six & et & Hf).
    pose proof Hf as (data & pre & -> & Het & _). rewrite (frame_type _ _ Het).
    unfold frame at 1. cbn [replicate app]. exists six, et. split; [|done]. by rewrite Hfd in Hf.
  - apply post_ret. cbn [fst snd]. rewrite Hs1, Hx. by split_and!.
  - destruct Hx as [_ Hsame]. apply post_bind.
    eapply post_impl with (P := fun _ w' => inv w' /\ seen w' = visible (s_ledger h) (pkts_of s) /\
      l_got (s_ledger (snd w')) = l_got (s_ledger h2)).
    { destruct bad; [|by apply post_ret; cbn [fst snd]; rewrite Hs1].
      eapply post_impl; [apply drop_secondary_post; by rewrite Hs1|]. intros _ w' (? & Hv & ?).
      rewrite Hv, Hs1, Hseen2. done. }
    intros _ [s3 h3] (Hinv3 & Hseen3 & Hgot3). apply post_ret. cbn [fst snd] in *.
    destruct (Z.eqb_spec c 0) as [->|]; cbn [negb]; [|by split_and!].
    split_and!; try done. intros _. by rewrite Hgot3, Hsame.
Qed.

(** no operation on packet sockets leaks a descriptor or breaks the table,
    but for a second bind. Every call keeps the table sound (its counter
    counts the live slots, a dead slot is blank, every hidden IPv6 socket is
    open and belongs to one entry, and when the counter is 0 no descriptor is
    found) and leaves the descriptors the program can see as they were: a
    socket call that answers one adds it, one that fails adds none, a failed
    bind closes what it opened, a sweep closes exactly the sockets of the
    entries it removes. Binding a bound socket again forgets the hidden
    socket it had, which stays open. *)
Theorem packet_ops_leak_nothing fd addr len level s h :
  pkts_inv (s_ledger h) (pkts_of s) ->
  let kept := fun w' => inv w' /\ seen w' = visible (s_ledger h) (pkts_of s) in
  (packet_any (pkts_of s) = false -> pkt_at fd (pkts_of s) = None) /\
  post (packet_is pkts_of put_pkts fd) (s, h) (fun yes w' => kept w' /\
    (yes = true <-> is_Some (pkt_at fd (pkts_of (fst w'))))) /\
  post (packet_sockopt pkts_of put_pkts fd level) (s, h) (fun _ w' => kept w') /\
  post (drop_secondary pkts_of put_pkts fd) (s, h) (fun _ w' => kept w') /\
  post (packet_socket pkts_of put_pkts) (s, h) (fun r (w' : S * H) => inv w' /\
    match r with
    | Ok fd => fd ∉ l_open (s_ledger h) /\ seen w' = {[fd]} ∪ visible (s_ledger h) (pkts_of s)
    | Err _ => kept w'
    end) /\
  post (packet_bind pkts_of put_pkts fd addr len) (s, h) (fun (r : res Z) (w' : S * H) => inv w' /\
    seen w' = visible (s_ledger h) (pkts_of s) ∪ match r with Ok _ => bound_before fd (pkts_of s) | Err _ => ∅ end).
Proof.
  intros Hinv kept. split_and!.
  - intros Ha. apply no_packets; [apply Hinv|done].
  - eapply post_impl; [by apply packet_is_post|]. unfold kept. naive_solver.
  - eapply post_impl; [by apply packet_sockopt_post|]. unfold kept. naive_solver.
  - eapply post_impl; [by apply drop_secondary_post|]. unfold kept. naive_solver.
  - eapply post_impl; [by apply packet_socket_post|]. intros [fd'|e] w'; unfold kept; naive_solver.
  - by apply packet_bind_post.
Qed.
End packets_spec.

(** What poll.c asks of this file. *)
#[export] Instance packet_watch {S H} (pkts_of : S -> pkts) : PacketWatch (S * H) := {|
  Poll.packet_any w := packet_any (pkts_of (fst w));
  Poll.packet_secondary w fd := packet_secondary fd (pkts_of (fst w)) |}.

(** ** On a concrete host *)

#[local] Instance nt_packet_consts : HostConsts := {|
  host_const name :=
    if String.eqb name "AF_INET" then 2 else if String.eqb name "AF_INET6" then 23
    else if String.eqb name "SOCK_RAW" then 3 else if String.eqb name "O_NONBLOCK" then 4 else 0;
  host_defines _ := true |}.

Definition keep_pkts (t : pkts) (_ : pkts) : pkts := t.

(** A 20-byte IPv4 header, and a socket bound to adapter 5: its descriptor
    is 3, its secondary 4. *)
Definition ipv4_packet : list Z := 0x45 :: replicate 19 0.
Definition toy_bound : pkts * toy_net :=
  match (packet_socket (S := pkts) id keep_pkts ≫= fun _ =>
         packet_bind id keep_pkts 3 (Some (le 2 17 ++ [0; 0] ++ le 4 5)) 8) (pkts_init, toy_net_start) with
  | Some (_, w) => w
  | None => (pkts_init, toy_net_start)
  end.
Definition toy_bound_net : toy_net :=
  let t := snd toy_bound in
  ToyNet (tn_ledger t) (tn_next t) [(4, [0; 1]); (3, ipv4_packet)] [] false true 4.

Lemma toy_start_inv : pkts_inv (s_ledger toy_net_start) pkts_init.
Proof.
  split; [split; [done|]; split; [done|by apply Forall_replicate]|]. split; [apply NoDup_nil_2|]. vm_compute. set_solver.
Qed.

Lemma toy_bound_inv : pkts_inv (s_ledger toy_bound_net) (fst toy_bound).
Proof.
  pose proof (packet_socket_post (S := pkts) id keep_pkts (fun _ _ => eq_refl) pkts_init toy_net_start toy_start_inv) as H1.
  apply post_run in H1 as (r & [s1 h1] & Hr1 & Hi1 & _).
  pose proof (packet_bind_post (S := pkts) id keep_pkts (fun _ _ => eq_refl) 3
    (Some (le 2 17 ++ [0; 0] ++ le 4 5)) 8 s1 h1 Hi1) as H2.
  apply post_run in H2 as (r2 & [s2 h2] & Hr2 & Hi2 & _).
  unfold toy_bound_net. unfold toy_bound. rewrite (bind_run _ _ _ _ _ Hr1), Hr2. exact Hi2.
Qed.

Lemma packet_recv_frames_witness :
  exists w', packet_recv id keep_pkts 3 100 (None, None) (fst toy_bound, toy_bound_net) =
    Some ((Ok (frame ETH_P_IP ipv4_packet), (None, None)), w') /\
  pkt_at 3 (fst w') = Some (Pkt true 3 1003 4 5 true).
Proof.
  destruct (packet_recv_frames id keep_pkts (fun _ _ => eq_refl) 3 100 (None, None) (Pkt true 3 1003 4 5 false)
    (fst toy_bound) toy_bound_net toy_bound_inv) as (r & buf' & s' & h' & Hrun & _ & Hturn & _).
  - vm_compute. reflexivity.
  - exists (s', h'). pose proof Hrun as Hrun'.
    assert (Hev : fst <$> packet_recv id keep_pkts 3 100 (None, None) (fst toy_bound, toy_bound_net) =
      Some (Ok (frame ETH_P_IP ipv4_packet), (None, None))) by (vm_compute; reflexivity).
    rewrite Hrun' in Hev. injection Hev as -> ->. split; [exact Hrun|]. by apply Hturn.
Defined.

Lemma packet_ops_leak_nothing_witness :
  post (packet_socket id keep_pkts) (pkts_init, toy_net_start) (fun r w' =>
    r = Ok 3 -> visible (s_ledger (snd w')) (fst w') = {[3]} ∪ visible (s_ledger toy_net_start) pkts_init).
Proof.
  destruct (packet_ops_leak_nothing id keep_pkts (fun _ _ => eq_refl) 3 None 0 0 pkts_init toy_net_start toy_start_inv)
    as (_ & _ & _ & _ & Hs & _).
  eapply post_impl; [exact Hs|]. intros r w' (_ & Hm) ->. apply Hm.
Defined.
