(* ===== verification/Cmsg.v ===== *)
(** * shim/socket.c: control messages

    A control buffer is a sequence of headers and payloads. Linux and cosmo's
    NT layer share one layout, where level and type are rewritten in place;
    the BSDs have another, into which and out of which the whole sequence is
    copied. Buffers are byte lists; the parsers below are what CMSG_FIRSTHDR
    and CMSG_NXTHDR make of a buffer in either layout. The theorems: each
    conversion yields the translated messages, as many as fit; and what is
    sent in the BSD layout and received back is what was sent. *)
From S2P Require Import Prelude Host Tables SockOpt.

Definition rd_int (l : list Z) (off : nat) : Z := s32 (rd 4 l off).

(** One message: its level, type and payload. *)
Record cmsg := Cmsg { c_level : Z; c_type : Z; c_data : list Z }.

#[export] Instance cmsg_eq_dec : EqDecision cmsg.
Proof. solve_decision. Defined.

Definition align8 (n : Z) : Z := Z.land (n + 7) (Z.lnot 7).

Section cmsgs.
Context `{HostConsts}.
Context (xnu : bool).

(** Level and type on the way to the host and back. *)
Definition cmsg_to_host (level type : Z) : Z * Z :=
  if level =? SHIM_LIN_SOL_SOCKET then (SOL_SOCKET, type)
  else if level =? SHIM_LIN_IPPROTO_IP then (level, lookup SHIM_IP_TABLE type)
  else if level =? SHIM_LIN_IPPROTO_IPV6 then (level, lookup SHIM_IPV6_TABLE type)
  else (level, type).

Definition cmsg_to_linux (level type : Z) : Z * Z :=
  if level =? SOL_SOCKET then (SHIM_LIN_SOL_SOCKET, type)
  else if level =? SHIM_LIN_IPPROTO_IP then (level, lookup_to_linux SHIM_IP_TABLE type)
  else if level =? SHIM_LIN_IPPROTO_IPV6 then (level, lookup_to_linux SHIM_IPV6_TABLE type)
  else (level, type).

(** ** The shared layout, rewritten in place

    The step is computed in 32 bits and stops the walk when it wraps to 0. *)
Fixpoint rewrite_loop (fuel : nat) (xlate : Z -> Z -> Z * Z) (p : list Z) : list Z :=
  match fuel with
  | O => p
  | S fuel' =>
      if bool_decide (length p < 16)%nat then p
      else
        let len := rd 4 p 0 in
        if len <? 16 then p
        else
          let '(level, type) := xlate (rd_int p 8) (rd_int p 12) in
          let p := wr 4 (wr 4 p 8 level) 12 type in
          let step := Z.land (u32 (len + 7)) (Z.lnot 7) in
          if step =? 0 then p
          else take (Z.to_nat step) p ++ rewrite_loop fuel' xlate (drop (Z.to_nat step) p)
  end.

Definition cmsgs_rewrite (control : list Z) (to_host : bool) : list Z :=
  rewrite_loop (length control) (if to_host then cmsg_to_host else cmsg_to_linux) control.

(** ** The BSD layout *)

Definition cmsg_align_host (n : Z) : Z :=
  let a := if xnu then 4 else 8 in Z.land (n + a - 1) (Z.lnot (a - 1)).

(** [src] is what is left of the source and [dst] of the destination; the
    answer is what is written, with the padding bytes as they were. *)
Fixpoint to_bsd_loop (fuel : nat) (src dst : list Z) : option (list Z) :=
  match fuel with
  | O => Some []
  | S fuel' =>
      if bool_decide (length src < 16)%nat then Some []
      else
        let len := rd 8 src 0 in
        if (len <? 16) || (Z.of_nat (length src) <? len) then Some []
        else
          let payload := Z.to_nat (len - 16) in
          let blen := 12 + (len - 16) in
          let room := cmsg_align_host blen in
          if Z.of_nat (length dst) <? room then None
          else
            let '(lvl, typ) := cmsg_to_host (rd_int src 8) (rd_int src 12) in
            let entry := le 4 blen ++ le 4 lvl ++ le 4 typ ++ take payload (drop 16 src) ++
                         drop (Z.to_nat blen) (take (Z.to_nat room) dst) in
            rest ← to_bsd_loop fuel' (drop (Z.to_nat (align8 len)) src) (drop (Z.to_nat room) dst);
            Some (entry ++ rest)
  end.

Definition cmsgs_to_bsd (src dst : list Z) : option (list Z) := to_bsd_loop (length src) src dst.

Fixpoint to_linux_loop (fuel : nat) (src dst : list Z) : list Z :=
  match fuel with
  | O => []
  | S fuel' =>
      if bool_decide (length src < 12)%nat then []
      else
        let blen := rd 4 src 0 in
        if (blen <? 12) || (Z.of_nat (length src) <? blen) then []
        else
          let payload := Z.to_nat (blen - 12) in
          let llen := 16 + (blen - 12) in
          let room := align8 llen in
          if Z.of_nat (length dst) <? room then []
          else
            let '(lvl, typ) := cmsg_to_linux (rd_int src 4) (rd_int src 8) in
            let entry := le 8 llen ++ le 4 lvl ++ le 4 typ ++ take payload (drop 12 src) ++
                         drop (Z.to_nat llen) (take (Z.to_nat room) dst) in
            entry ++ to_linux_loop fuel' (drop (Z.to_nat (cmsg_align_host blen)) src)
                       (drop (Z.to_nat room) dst)
  end.

Definition cmsgs_to_linux_layout (src dst : list Z) : list Z := to_linux_loop (length src) src dst.

(** ** What a buffer holds *)

Fixpoint linux_loop (fuel : nat) (l : list Z) : list cmsg :=
  match fuel with
  | O => []
  | S fuel' =>
      if bool_decide (length l < 16)%nat then []
      else
        let len := rd 8 l 0 in
        if (len <? 16) || (Z.of_nat (length l) <? len) then []
        else Cmsg (rd_int l 8) (rd_int l 12) (take (Z.to_nat (len - 16)) (drop 16 l))
               :: linux_loop fuel' (drop (Z.to_nat (align8 len)) l)
  end.

Definition linux_cmsgs (l : list Z) : list cmsg := linux_loop (length l) l.

Fixpoint bsd_loop (fuel : nat) (l : list Z) : list cmsg :=
  match fuel with
  | O => []
  | S fuel' =>
      if bool_decide (length l < 12)%nat then []
      else
        let len := rd 4 l 0 in
        if (len <? 12) || (Z.of_nat (length l) <? len) then []
        else Cmsg (rd_int l 4) (rd_int l 8) (take (Z.to_nat (len - 12)) (drop 12 l))
               :: bsd_loop fuel' (drop (Z.to_nat (cmsg_align_host len)) l)
  end.

Definition bsd_cmsgs (l : list Z) : list cmsg := bsd_loop (length l) l.

Definition xlated (xlate : Z -> Z -> Z * Z) (c : cmsg) : cmsg :=
  let '(level, type) := xlate (c_level c) (c_type c) in Cmsg level type (c_data c).

(** The room a message takes in either layout, and the longest prefix of a
    sequence that fits. *)
Definition bsd_room (c : cmsg) : Z := cmsg_align_host (12 + Z.of_nat (length (c_data c))).
Definition linux_room (c : cmsg) : Z := align8 (16 + Z.of_nat (length (c_data c))).

Fixpoint fitting (cap : Z) (l : list cmsg) : list cmsg :=
  match l with
  | [] => []
  | c :: l' => if cap <? linux_room c then [] else c :: fitting (cap - linux_room c) l'
  end.

Definition total (room : cmsg -> Z) (l : list cmsg) : Z := foldr Z.add 0 (room <$> l).
End cmsgs.

(** ** Sizes and integers *)

Lemma land_not_ones x k : 0 <= k -> Z.land x (Z.lnot (2 ^ k - 1)) = x - x mod 2 ^ k.
Proof.
  intros Hk. rewrite <- Z.ldiff_land. replace (2 ^ k - 1) with (Z.ones k) by (rewrite Z.ones_equiv; lia).
  rewrite Z.ldiff_ones_r by done. rewrite Z.shiftl_mul_pow2, Z.shiftr_div_pow2 by done.
  pose proof (Z.div_mod x (2 ^ k)). pose proof (Z.pow_pos_nonneg 2 k). lia.
Qed.

Lemma round_down_bounds x k : 0 <= k -> x - 2 ^ k < Z.land x (Z.lnot (2 ^ k - 1)) <= x.
Proof.
  intros Hk. rewrite land_not_ones by done.
  pose proof (Z.mod_pos_bound x (2 ^ k) (Z.pow_pos_nonneg 2 k ltac:(lia) Hk)). lia.
Qed.

Lemma align8_bounds n : n <= align8 n < n + 8.
Proof.
  unfold align8. pose proof (round_down_bounds (n + 7) 3 ltac:(lia)) as Hb.
  change (2 ^ 3) with 8 in Hb. change (8 - 1) with 7 in Hb. lia.
Qed.

Lemma align_host_bounds xnu n : n <= cmsg_align_host xnu n < n + 8.
Proof.
  unfold cmsg_align_host. destruct xnu.
  - pose proof (round_down_bounds (n + 4 - 1) 2 ltac:(lia)) as Hb. change (2 ^ 2) with 4 in Hb. lia.
  - pose proof (round_down_bounds (n + 8 - 1) 3 ltac:(lia)) as Hb. change (2 ^ 3) with 8 in Hb. lia.
Qed.

Lemma s32_range x : - 2 ^ 31 <= s32 x < 2 ^ 31.
Proof. unfold s32. pose proof (Z.mod_pos_bound (x + 2 ^ 31) (2 ^ 32)). lia. Qed.

Lemma s32_mod x : s32 (x mod 2 ^ 32) = s32 x.
Proof. unfold s32. by rewrite Zplus_mod_idemp_l. Qed.

Definition in_int (x : Z) : Prop := - 2 ^ 31 <= x < 2 ^ 31.

Lemma rd_int_le x rest : in_int x -> rd_int (le 4 x ++ rest) 0 = x.
Proof.
  intros Hx. unfold rd_int. rewrite rd_le. change (256 ^ Z.of_nat 4) with (2 ^ 32).
  rewrite s32_mod. by apply s32_small.
Qed.

Lemma rd_int_app l rest off k : length l = k -> (k <= off)%nat -> rd_int (l ++ rest) off = rd_int rest (off - k).
Proof. intros Hl Hk. unfold rd_int. by rewrite (rd_app _ _ _ _ k). Qed.

Lemma rd_le_small n x rest : 0 <= x < 256 ^ Z.of_nat n -> rd n (le n x ++ rest) 0 = x.
Proof. intros Hx. rewrite rd_le. by apply Z.mod_small. Qed.

Lemma rd_take n l off k : (off + n <= k)%nat -> rd n (take k l) off = rd n l off.
Proof. intros Hk. unfold rd. rewrite skipn_firstn_comm, take_take. f_equal. f_equal. lia. Qed.

Lemma rd_prefix n l l' off k :
  take k l = take k l' -> (off + n <= k)%nat -> rd n l off = rd n l' off.
Proof. intros He Hk. rewrite <- (rd_take n l off k), He by done. by apply rd_take. Qed.

Lemma rd_int_prefix l l' off k : take k l = take k l' -> (off + 4 <= k)%nat -> rd_int l off = rd_int l' off.
Proof. intros He Hk. unfold rd_int. f_equal. by apply (rd_prefix _ _ _ _ k). Qed.

(** ** One message at the head of a buffer *)

Section heads.
Context `{HostConsts}.
Context (xnu : bool).

Lemma linux_loop_fuel f1 f2 l :
  (length l <= f1)%nat -> (length l <= f2)%nat -> linux_loop f1 l = linux_loop f2 l.
Proof.
  revert f2 l. induction f1 as [|f1 IH]; intros f2 l H1 H2.
  { destruct l; simpl in H1; [|lia]. by destruct f2. }
  destruct f2 as [|f2]. { destruct l; simpl in H2; [done|lia]. }
  cbn [linux_loop]. destruct (bool_decide_reflect (length l < 16)%nat) as [|Hl]; [done|].
  destruct (rd 8 l 0 <? 16) eqn:Hlen; [done|]. destruct (Z.of_nat (length l) <? rd 8 l 0); [done|]. cbn [orb]. f_equal.
  pose proof (align8_bounds (rd 8 l 0)). apply Z.ltb_ge in Hlen.
  apply IH; rewrite length_drop; lia.
Qed.

Lemma bsd_loop_fuel f1 f2 l :
  (length l <= f1)%nat -> (length l <= f2)%nat -> bsd_loop xnu f1 l = bsd_loop xnu f2 l.
Proof.
  revert f2 l. induction f1 as [|f1 IH]; intros f2 l H1 H2.
  { destruct l; simpl in H1; [|lia]. by destruct f2. }
  destruct f2 as [|f2]. { destruct l; simpl in H2; [done|lia]. }
  cbn [bsd_loop]. destruct (bool_decide_reflect (length l < 12)%nat) as [|Hl]; [done|].
  destruct (rd 4 l 0 <? 12) eqn:Hlen; [done|]. destruct (Z.of_nat (length l) <? rd 4 l 0); [done|]. cbn [orb]. f_equal.
  pose proof (align_host_bounds xnu (rd 4 l 0)). apply Z.ltb_ge in Hlen.
  apply IH; rewrite length_drop; lia.
Qed.

(** Whether a buffer starts with a message. *)
Definition linux_stop (l : list Z) : bool :=
  bool_decide (length l < 16)%nat || ((rd 8 l 0 <? 16) || (Z.of_nat (length l) <? rd 8 l 0)).
Definition bsd_stop (l : list Z) : bool :=
  bool_decide (length l < 12)%nat || ((rd 4 l 0 <? 12) || (Z.of_nat (length l) <? rd 4 l 0)).

Lemma linux_cmsgs_eq l :
  linux_cmsgs l =
  if linux_stop l then []
  else Cmsg (rd_int l 8) (rd_int l 12) (take (Z.to_nat (rd 8 l 0 - 16)) (drop 16 l))
         :: linux_cmsgs (drop (Z.to_nat (align8 (rd 8 l 0))) l).
Proof.
  unfold linux_cmsgs, linux_stop. destruct (length l) as [|n] eqn:Hn; [done|].
  cbn [linux_loop]. rewrite Hn. destruct (bool_decide _); [done|].
  destruct (rd 8 l 0 <? 16) eqn:Hlen; [done|]. destruct (Z.of_nat (S n) <? rd 8 l 0); [done|]. cbn [orb]. f_equal.
  pose proof (align8_bounds (rd 8 l 0)). apply Z.ltb_ge in Hlen.
  apply linux_loop_fuel; rewrite length_drop; lia.
Qed.

Lemma bsd_cmsgs_eq l :
  bsd_cmsgs xnu l =
  if bsd_stop l then []
  else Cmsg (rd_int l 4) (rd_int l 8) (take (Z.to_nat (rd 4 l 0 - 12)) (drop 12 l))
         :: bsd_cmsgs xnu (drop (Z.to_nat (cmsg_align_host xnu (rd 4 l 0))) l).
Proof.
  unfold bsd_cmsgs, bsd_stop. destruct (length l) as [|n] eqn:Hn; [done|].
  cbn [bsd_loop]. rewrite Hn. destruct (bool_decide _); [done|].
  destruct (rd 4 l 0 <? 12) eqn:Hlen; [done|]. destruct (Z.of_nat (S n) <? rd 4 l 0); [done|]. cbn [orb]. f_equal.
  pose proof (align_host_bounds xnu (rd 4 l 0)). apply Z.ltb_ge in Hlen.
  apply bsd_loop_fuel; rewrite length_drop; lia.
Qed.

(** A written entry is read as the message it was written for. *)
Lemma bsd_cmsgs_entry lvl typ data pad rest :
  let blen := 12 + Z.of_nat (length data) in
  blen < 2 ^ 32 -> in_int lvl -> in_int typ ->
  Z.of_nat (length pad) = cmsg_align_host xnu blen - blen ->
  bsd_cmsgs xnu ((le 4 blen ++ le 4 lvl ++ le 4 typ ++ data ++ pad) ++ rest) =
  Cmsg lvl typ data :: bsd_cmsgs xnu rest.
Proof.
  intros blen Hb Hl Ht Hpad. pose proof (align_host_bounds xnu blen) as Ha.
  rewrite <- !app_assoc. set (l := le 4 blen ++ _).
  assert (Hrd : rd 4 l 0 = blen) by (apply rd_le_small; change (256 ^ Z.of_nat 4) with (2 ^ 32); lia).
  assert (Hlen : Z.of_nat (length l) = cmsg_align_host xnu blen + Z.of_nat (length rest)).
  { unfold l. rewrite !length_app, !length_le. lia. }
  rewrite bsd_cmsgs_eq. unfold bsd_stop. rewrite Hrd.
  rewrite bool_decide_eq_false_2 by lia.
  rewrite (proj2 (Z.ltb_ge blen 12)), (proj2 (Z.ltb_ge _ blen)) by lia. cbn [orb].
  f_equal; [f_equal|f_equal].
  - unfold l. rewrite (rd_int_app _ _ 4 4) by (done || apply length_le). by apply rd_int_le.
  - unfold l. rewrite (rd_int_app _ _ 8 4) by (lia || apply length_le).
    rewrite (rd_int_app _ _ _ 4) by (lia || apply length_le). by apply rd_int_le.
  - replace (Z.to_nat (blen - 12)) with (length data) by lia.
    unfold l. rewrite !app_assoc. rewrite <- (app_assoc (le 4 blen ++ le 4 lvl)), <- !app_assoc.
    rewrite (app_assoc (le 4 blen)), (app_assoc _ (le 4 typ)).
    rewrite drop_app_length' by (by rewrite !length_app, !length_le). by rewrite take_app_length.
  - replace (Z.to_nat (cmsg_align_host xnu blen)) with (length (le 4 blen ++ le 4 lvl ++ le 4 typ ++ data ++ pad))
      by (rewrite !length_app, !length_le; lia).
    replace l with ((le 4 blen ++ le 4 lvl ++ le 4 typ ++ data ++ pad) ++ rest) by (unfold l; by rewrite <- !app_assoc).
    by rewrite drop_app_length.
Qed.

Lemma linux_cmsgs_entry lvl typ data pad rest :
  let llen := 16 + Z.of_nat (length data) in
  llen < 2 ^ 32 -> in_int lvl -> in_int typ ->
  Z.of_nat (length pad) = align8 llen - llen ->
  linux_cmsgs ((le 8 llen ++ le 4 lvl ++ le 4 typ ++ data ++ pad) ++ rest) =
  Cmsg lvl typ data :: linux_cmsgs rest.
Proof.
  intros llen Hb Hl Ht Hpad. pose proof (align8_bounds llen) as Ha.
  rewrite <- !app_assoc. set (l := le 8 llen ++ _).
  assert (Hrd : rd 8 l 0 = llen) by (apply rd_le_small; change (256 ^ Z.of_nat 8) with (2 ^ 64); lia).
  assert (Hlen : Z.of_nat (length l) = align8 llen + Z.of_nat (length rest)).
  { unfold l. rewrite !length_app, !length_le. lia. }
  rewrite linux_cmsgs_eq. unfold linux_stop. rewrite Hrd.
  rewrite bool_decide_eq_false_2 by lia.
  rewrite (proj2 (Z.ltb_ge llen 16)), (proj2 (Z.ltb_ge _ llen)) by lia. cbn [orb].
  f_equal; [f_equal|f_equal].
  - unfold l. rewrite (rd_int_app _ _ 8 8) by (lia || apply length_le). by apply rd_int_le.
  - unfold l. rewrite (rd_int_app _ _ 12 8) by (lia || apply length_le).
    rewrite (rd_int_app _ _ _ 4) by (lia || apply length_le). by apply rd_int_le.
  - replace (Z.to_nat (llen - 16)) with (length data) by lia.
    unfold l. rewrite !app_assoc. rewrite <- (app_assoc (le 8 llen ++ le 4 lvl)), <- !app_assoc.
    rewrite (app_assoc (le 8 llen)), (app_assoc _ (le 4 typ)).
    rewrite drop_app_length' by (by rewrite !length_app, !length_le). by rewrite take_app_length.
  - replace (Z.to_nat (align8 llen)) with (length (le 8 llen ++ le 4 lvl ++ le 4 typ ++ data ++ pad))
      by (rewrite !length_app, !length_le; lia).
    replace l with ((le 8 llen ++ le 4 lvl ++ le 4 typ ++ data ++ pad) ++ rest) by (unfold l; by rewrite <- !app_assoc).
    by rewrite drop_app_length.
Qed.
End heads.

(** ** The conversions *)

Section convert.
Context `{HostConsts}.
Context (xnu : bool).

(** The host's numbers are ints. *)
Definition cmsg_consts_ok : Prop :=
  Forall in_int (SOL_SOCKET :: host_values SHIM_IP_TABLE ++ host_values SHIM_IPV6_TABLE).

Lemma lookup_in_int t x : Forall in_int (host_values t) -> in_int x -> in_int (lookup t x).
Proof.
  intros Ht Hx. destruct (decide (x ∈ row_values t)) as [Hin|Hout]; [|by rewrite lookup_other].
  destruct (lookup_in t x Hin) as (n & Hn & ->). rewrite Forall_forall in Ht. apply Ht.
  by apply (list_elem_of_fmap_2 (fun r => host_const (fst r)) t (n, x)).
Qed.

Lemma lookup_to_linux_in_int t x : Forall in_int (row_values t) -> in_int x -> in_int (lookup_to_linux t x).
Proof.
  unfold row_values. induction t as [|[n l] t IH]; simpl; [done|]. intros [Hl Ht]%Forall_cons Hx.
  destruct (host_const n =? x); [done|]. auto.
Qed.

Lemma cmsg_to_host_int level type :
  cmsg_consts_ok -> in_int level -> in_int type ->
  in_int (fst (cmsg_to_host level type)) /\ in_int (snd (cmsg_to_host level type)).
Proof.
  intros [Hs [Hip Hip6]%Forall_app]%Forall_cons Hl Ht. unfold cmsg_to_host.
  destruct (level =? SHIM_LIN_SOL_SOCKET); [done|]. destruct (level =? SHIM_LIN_IPPROTO_IP).
  { split; [done|]. by apply lookup_in_int. }
  destruct (level =? SHIM_LIN_IPPROTO_IPV6); [|done]. split; [done|]. by apply lookup_in_int.
Qed.

Lemma ip_rows_int : Forall in_int (row_values SHIM_IP_TABLE) /\ Forall in_int (row_values SHIM_IPV6_TABLE).
Proof. split; repeat constructor; vm_compute; discriminate. Qed.

Lemma cmsg_to_linux_int level type :
  in_int level -> in_int type ->
  in_int (fst (cmsg_to_linux level type)) /\ in_int (snd (cmsg_to_linux level type)).
Proof.
  intros Hl Ht. destruct ip_rows_int as [Hip Hip6]. unfold cmsg_to_linux.
  destruct (level =? SOL_SOCKET); [by split|]. destruct (level =? SHIM_LIN_IPPROTO_IP).
  { split; [done|]. by apply lookup_to_linux_in_int. }
  destruct (level =? SHIM_LIN_IPPROTO_IPV6); [|done]. split; [done|]. by apply lookup_to_linux_in_int.
Qed.

Lemma xlated_data xlate c : c_data (xlated xlate c) = c_data c.
Proof. unfold xlated. by destruct (xlate _ _). Qed.

Lemma rd_int_int l off : in_int (rd_int l off).
Proof. apply s32_range. Qed.

Lemma total_cons room c l : total room (c :: l) = room c + total room l.
Proof. done. Qed.

Lemma total_nonneg room l : (forall c, 0 <= room c) -> 0 <= total room l.
Proof.
  intros Hr. induction l as [|c l IH]; [done|]. rewrite total_cons. specialize (Hr c). lia.
Qed.

Lemma bsd_room_nonneg c : 0 <= bsd_room xnu c.
Proof. unfold bsd_room. pose proof (align_host_bounds xnu (12 + Z.of_nat (length (c_data c)))). lia. Qed.

Lemma linux_room_nonneg c : 0 <= linux_room c.
Proof. unfold linux_room. pose proof (align8_bounds (16 + Z.of_nat (length (c_data c)))). lia. Qed.

(** Into the BSD layout: the translated messages, or a failure exactly when
    they do not fit. *)
Lemma to_bsd_spec src dst :
  cmsg_consts_ok -> Z.of_nat (length src) < 2 ^ 31 ->
  let msgs := xlated cmsg_to_host <$> linux_cmsgs src in
  match cmsgs_to_bsd xnu src dst with
  | Some out => bsd_cmsgs xnu out = msgs /\ Z.of_nat (length out) = total (bsd_room xnu) msgs /\
                (length out <= length dst)%nat
  | None => Z.of_nat (length dst) < total (bsd_room xnu) msgs
  end.
Proof.
  intros Hok. unfold cmsgs_to_bsd. enough (Hgen : forall fuel src dst,
    (length src <= fuel)%nat -> Z.of_nat (length src) < 2 ^ 31 ->
    let msgs := xlated cmsg_to_host <$> linux_cmsgs src in
    match to_bsd_loop xnu fuel src dst with
    | Some out => bsd_cmsgs xnu out = msgs /\ Z.of_nat (length out) = total (bsd_room xnu) msgs /\
                  (length out <= length dst)%nat
    | None => Z.of_nat (length dst) < total (bsd_room xnu) msgs
    end) by (intros Hlen; by apply Hgen). clear src dst.
  intros fuel. induction fuel as [|fuel IH]; intros src dst Hfuel Hlen; cbv zeta.
  { destruct src; simpl in Hfuel; [|lia]. simpl. split_and!; [done|done|lia]. }
  rewrite linux_cmsgs_eq. unfold linux_stop. cbn [to_bsd_loop].
  destruct (bool_decide (length src < 16)%nat) eqn:H16; cbn [orb].
  { simpl. split_and!; [done|done|lia]. }
  destruct ((rd 8 src 0 <? 16) || (Z.of_nat (length src) <? rd 8 src 0)) eqn:Hstop.
  { simpl. split_and!; [done|done|lia]. }
  apply orb_false_iff in Hstop as [Hlo%Z.ltb_ge Hhi%Z.ltb_ge].
  apply bool_decide_eq_false_1 in H16. set (len := rd 8 src 0) in *.
  set (data := take (Z.to_nat (len - 16)) (drop 16 src)).
  assert (Hdata : Z.of_nat (length data) = len - 16).
  { unfold data. rewrite length_take, length_drop. lia. }
  pose proof (align8_bounds len). pose proof (align_host_bounds xnu (12 + (len - 16))) as Hroom.
  rewrite fmap_cons, total_cons. unfold bsd_room at 1 3. rewrite xlated_data. cbn [c_data]. rewrite Hdata.
  set (room := cmsg_align_host xnu (12 + (len - 16))) in *.
  assert (Hnn : 0 <= total (bsd_room xnu) (xlated cmsg_to_host <$> linux_cmsgs (drop (Z.to_nat (align8 len)) src))).
    by apply total_nonneg, bsd_room_nonneg.
  set (tl := xlated cmsg_to_host <$> linux_cmsgs (drop (Z.to_nat (align8 len)) src)) in *.
  destruct (Z.ltb_spec (Z.of_nat (length dst)) room) as [Hfull|Hfits]; [lia|].
  specialize (IH (drop (Z.to_nat (align8 len)) src) (drop (Z.to_nat room) dst)).
  unfold xlated. cbn [c_level c_type c_data].
  destruct (cmsg_to_host_int (rd_int src 8) (rd_int src 12)) as [Hil Hit]; [done|apply rd_int_int..|].
  destruct (cmsg_to_host (rd_int src 8) (rd_int src 12)) as [lvl typ]. simpl in Hil, Hit.
  rewrite !length_drop in IH. specialize (IH ltac:(lia) ltac:(lia)). cbv zeta in IH. fold tl in IH.
  destruct (to_bsd_loop xnu fuel _ _) as [out|]; cbn [mbind option_bind]; [|lia].
  destruct IH as (Hout & Htot & Hle).
  assert (Hblen : 12 + (len - 16) = 12 + Z.of_nat (length data)) by lia. unfold room in *. rewrite Hblen in *.
  split_and!.
  - fold data. rewrite (bsd_cmsgs_entry xnu lvl typ data); [by rewrite Hout|lia|done|done|].
    rewrite length_drop, length_take. lia.
  - rewrite !length_app, !length_le, length_drop, length_take. lia.
  - rewrite !length_app, !length_le, length_drop, length_take. lia.
Qed.

Lemma fitting_all cap l :
  total linux_room l <= cap -> fitting cap l = l.
Proof.
  revert cap. induction l as [|c l IH]; intros cap Hcap; [done|]. rewrite total_cons in Hcap. cbn [fitting].
  pose proof (total_nonneg linux_room l linux_room_nonneg).
  destruct (Z.ltb_spec cap (linux_room c)); [lia|]. f_equal. apply IH. lia.
Qed.

(** Into Linux's layout: the translated messages, cut where the buffer is
    full. *)
Lemma to_linux_spec src dst :
  Z.of_nat (length src) < 2 ^ 31 ->
  linux_cmsgs (cmsgs_to_linux_layout xnu src dst) =
    fitting (Z.of_nat (length dst)) (xlated cmsg_to_linux <$> bsd_cmsgs xnu src) /\
  (length (cmsgs_to_linux_layout xnu src dst) <= length dst)%nat.
Proof.
  unfold cmsgs_to_linux_layout. enough (Hgen : forall fuel src dst,
    (length src <= fuel)%nat -> Z.of_nat (length src) < 2 ^ 31 ->
    linux_cmsgs (to_linux_loop xnu fuel src dst) =
      fitting (Z.of_nat (length dst)) (xlated cmsg_to_linux <$> bsd_cmsgs xnu src) /\
    (length (to_linux_loop xnu fuel src dst) <= length dst)%nat) by (intros Hlen; by apply Hgen). clear src dst.
  intros fuel. induction fuel as [|fuel IH]; intros src dst Hfuel Hlen.
  { destruct src; simpl in Hfuel; [|lia]. simpl. split; [done|lia]. }
  rewrite bsd_cmsgs_eq. unfold bsd_stop. cbn [to_linux_loop].
  destruct (bool_decide (length src < 12)%nat) eqn:H12; cbn [orb]. { simpl. split; [done|lia]. }
  destruct ((rd 4 src 0 <? 12) || (Z.of_nat (length src) <? rd 4 src 0)) eqn:Hstop. { simpl. split; [done|lia]. }
  apply orb_false_iff in Hstop as [Hlo%Z.ltb_ge Hhi%Z.ltb_ge].
  apply bool_decide_eq_false_1 in H12. set (len := rd 4 src 0) in *.
  set (data := take (Z.to_nat (len - 12)) (drop 12 src)).
  assert (Hdata : Z.of_nat (length data) = len - 12).
  { unfold data. rewrite length_take, length_drop. lia. }
  pose proof (align_host_bounds xnu len). pose proof (align8_bounds (16 + (len - 12))) as Hroom.
  rewrite fmap_cons. cbn [fitting]. unfold linux_room. rewrite xlated_data. cbn [c_data]. rewrite Hdata.
  destruct (Z.ltb_spec (Z.of_nat (length dst)) (align8 (16 + (len - 12)))) as [Hfull|Hfits]; [split; [done|simpl; lia]|].
  unfold xlated at 1. cbn [c_level c_type c_data].
  destruct (cmsg_to_linux_int (rd_int src 4) (rd_int src 8)) as [Hil Hit]; [apply rd_int_int..|].
  destruct (cmsg_to_linux (rd_int src 4) (rd_int src 8)) as [lvl typ]. simpl in Hil, Hit.
  specialize (IH (drop (Z.to_nat (cmsg_align_host xnu len)) src) (drop (Z.to_nat (align8 (16 + (len - 12)))) dst)).
  rewrite !length_drop in IH. destruct (IH ltac:(lia) ltac:(lia)) as [Hout Hle].
  set (rest := to_linux_loop xnu fuel _ _) in *.
  assert (Hllen : 16 + (len - 12) = 16 + Z.of_nat (length data)) by lia. rewrite Hllen in *.
  split.
  - fold data. rewrite (linux_cmsgs_entry lvl typ data); [|lia|done|done|rewrite length_drop, length_take; lia].
    f_equal. rewrite Hout. f_equal. lia.
  - rewrite !length_app, !length_le, length_drop, length_take. lia.
Qed.

(** ** Rewriting in place *)

Lemma length_wr n l off x : (off + n <= length l)%nat -> length (wr n l off x) = length l.
Proof. intros Hl. unfold wr. rewrite !length_app, length_le, length_take, length_drop. lia. Qed.

Lemma take_wr k n l off x : (k <= off <= length l)%nat -> take k (wr n l off x) = take k l.
Proof.
  intros Hk. unfold wr. rewrite take_app_le by (rewrite length_take; lia).
  rewrite take_take. f_equal. lia.
Qed.

Lemma drop_wr k n l off x : (off + n <= k)%nat -> (off + n <= length l)%nat -> drop k (wr n l off x) = drop k l.
Proof.
  intros Hk Hl. unfold wr. rewrite app_assoc.
  rewrite drop_app_ge by (rewrite length_app, length_take, length_le; lia).
  rewrite length_app, length_take, length_le, drop_drop. f_equal. lia.
Qed.

Lemma rd_int_wr l off x : in_int x -> (off + 4 <= length l)%nat -> rd_int (wr 4 l off x) off = x.
Proof.
  intros Hx Hl. unfold wr. rewrite (rd_int_app _ _ off off) by (rewrite ?length_take; lia).
  rewrite Nat.sub_diag. by apply rd_int_le.
Qed.

Lemma of_le_app a b : of_le (a ++ b) = of_le a + 256 ^ Z.of_nat (length a) * of_le b.
Proof.
  induction a as [|x a IH]; cbn [app of_le length]; [by rewrite Z.mul_1_l|].
  rewrite IH, Nat2Z.inj_succ, Z.pow_succ_r by lia. ring.
Qed.

Definition is_byte (b : Z) : Prop := 0 <= b < 256.

Lemma of_le_nonneg l : Forall is_byte l -> 0 <= of_le l.
Proof. induction 1 as [|b l [Hb _] Hl IH]; cbn [of_le]; lia. Qed.

(** A length that fits the buffer is read alike as 32 and as 64 bits. *)
Lemma rd_8_4 l : Forall is_byte l -> (8 <= length l)%nat ->
  rd 4 l 0 <= rd 8 l 0 /\ (rd 8 l 0 < 2 ^ 32 -> rd 4 l 0 = rd 8 l 0).
Proof.
  intros Hb Hl. unfold rd. rewrite !drop_0. replace (take 8 l) with (take 4 l ++ take 4 (drop 4 l)).
  2:{ rewrite <- (take_drop 4 (take 8 l)), take_take, skipn_firstn_comm. done. }
  rewrite of_le_app, length_take, Nat.min_l by lia. change (256 ^ Z.of_nat 4) with (2 ^ 32).
  assert (0 <= of_le (take 4 l)) by by apply of_le_nonneg, Forall_take.
  assert (0 <= of_le (take 4 (drop 4 l))) by by apply of_le_nonneg, Forall_take, Forall_drop.
  lia.
Qed.

Section in_place.
Context (xlate : Z -> Z -> Z * Z).
Context (Hint : forall level type, in_int level -> in_int type ->
  in_int (fst (xlate level type)) /\ in_int (snd (xlate level type))).

(** The head of the buffer after its level and type were written. *)
Definition written (p : list Z) : list Z :=
  wr 4 (wr 4 p 8 (fst (xlate (rd_int p 8) (rd_int p 12)))) 12 (snd (xlate (rd_int p 8) (rd_int p 12))).

Lemma length_written p : (16 <= length p)%nat -> length (written p) = length p.
Proof. intros Hp. unfold written. rewrite !length_wr; rewrite ?length_wr; lia. Qed.

Lemma take_written p : (16 <= length p)%nat -> take 8 (written p) = take 8 p.
Proof. intros Hp. unfold written. rewrite !take_wr; rewrite ?length_wr; auto; lia. Qed.

Lemma drop_written k p : (16 <= length p)%nat -> (16 <= k)%nat -> drop k (written p) = drop k p.
Proof. intros Hp Hk. unfold written. rewrite !drop_wr; rewrite ?length_wr; auto; lia. Qed.

Lemma level_written p : (16 <= length p)%nat ->
  rd_int (written p) 8 = fst (xlate (rd_int p 8) (rd_int p 12)) /\
  rd_int (written p) 12 = snd (xlate (rd_int p 8) (rd_int p 12)).
Proof.
  intros Hp. destruct (Hint (rd_int p 8) (rd_int p 12)) as [Hl Ht]; [apply rd_int_int..|].
  unfold written. split.
  - transitivity (rd_int (wr 4 p 8 (fst (xlate (rd_int p 8) (rd_int p 12)))) 8).
    + apply (rd_int_prefix _ _ _ 12); [|lia]. apply take_wr. rewrite length_wr; lia.
    + apply rd_int_wr; [done|lia].
  - apply rd_int_wr; [done|]. rewrite length_wr; lia.
Qed.

(** One step of the walk. *)
Lemma rewrite_loop_eq fuel p :
  rewrite_loop (S fuel) xlate p =
  if bool_decide (length p < 16)%nat || (rd 4 p 0 <? 16) then p
  else
    let step := Z.to_nat (Z.land (u32 (rd 4 p 0 + 7)) (Z.lnot 7)) in
    if bool_decide (step = 0)%nat then written p
    else take step (written p) ++ rewrite_loop fuel xlate (drop step (written p)).
Proof.
  cbn [rewrite_loop]. destruct (bool_decide (length p < 16)%nat); [done|]. cbn [orb].
  destruct (rd 4 p 0 <? 16); [done|]. unfold written.
  destruct (xlate (rd_int p 8) (rd_int p 12)) as [level type]. cbn [fst snd].
  assert (Hnn : 0 <= Z.land (u32 (rd 4 p 0 + 7)) (Z.lnot 7)).
  { apply Z.land_nonneg. left. unfold u32. pose proof (Z.mod_pos_bound (rd 4 p 0 + 7) (2 ^ 32)). lia. }
  destruct (Z.eqb_spec (Z.land (u32 (rd 4 p 0 + 7)) (Z.lnot 7)) 0) as [->|Hnz]; [done|].
  by rewrite bool_decide_eq_false_2 by lia.
Qed.

Lemma rewrite_keeps fuel p :
  length (rewrite_loop fuel xlate p) = length p /\ take 8 (rewrite_loop fuel xlate p) = take 8 p.
Proof.
  revert p. induction fuel as [|fuel IH]; intros p; [done|]. rewrite rewrite_loop_eq.
  destruct (bool_decide_reflect (length p < 16)%nat) as [|H16]; [done|]. cbn [orb].
  destruct (Z.ltb_spec (rd 4 p 0) 16) as [|Hlo]; [done|]. cbv zeta.
  set (step := Z.to_nat (Z.land (u32 (rd 4 p 0 + 7)) (Z.lnot 7))).
  destruct (bool_decide_reflect (step = 0)%nat) as [|Hstep].
  { split; [apply length_written|apply take_written]; lia. }
  destruct (IH (drop step (written p))) as [Hlen _].
  assert (Hs8 : (8 <= step)%nat).
  { unfold step in *. pose proof (round_down_bounds (u32 (rd 4 p 0 + 7)) 3 ltac:(lia)) as Hb.
    change (2 ^ 3) with 8 in Hb. change (8 - 1) with 7 in Hb.
    assert (Hm : Z.land (u32 (rd 4 p 0 + 7)) (Z.lnot 7) mod 8 = 0).
    { change 7 with (2 ^ 3 - 1) at 2. rewrite land_not_ones by lia. change (2 ^ 3) with 8.
      rewrite Zminus_mod_idemp_r, Z.sub_diag. done. }
    apply Z.mod_divide in Hm as [q Hq]; [|lia]. rewrite Hq in *. lia. }
  split.
  - rewrite length_app, Hlen, length_take, length_drop, length_written by lia. lia.
  - rewrite take_app_le by (rewrite length_take, length_written; lia).
    rewrite take_take, Nat.min_l by lia. apply take_written. lia.
Qed.

Lemma linux_stop_prefix p p' : length p' = length p -> take 8 p' = take 8 p -> linux_stop p' = linux_stop p.
Proof.
  intros Hl Ht. unfold linux_stop. by rewrite Hl, (rd_prefix 8 p' p 0 8).
Qed.

Lemma rewrite_spec p :
  Forall is_byte p -> Z.of_nat (length p) < 2 ^ 31 ->
  linux_cmsgs (rewrite_loop (length p) xlate p) = xlated xlate <$> linux_cmsgs p.
Proof.
  enough (Hgen : forall fuel p, (length p <= fuel)%nat -> Forall is_byte p -> Z.of_nat (length p) < 2 ^ 31 ->
    linux_cmsgs (rewrite_loop fuel xlate p) = xlated xlate <$> linux_cmsgs p) by (intros; by apply Hgen).
  clear p. intros fuel. induction fuel as [|fuel IH]; intros p Hfuel Hb Hlen.
  { destruct p; simpl in Hfuel; [done|lia]. }
  destruct (rewrite_keeps (S fuel) p) as [Hkl Hkt].
  pose proof (linux_stop_prefix _ _ Hkl Hkt) as Hstop.
  rewrite linux_cmsgs_eq, (linux_cmsgs_eq p), Hstop.
  destruct (linux_stop p) eqn:Hs; [done|].
  unfold linux_stop in Hs. apply orb_false_iff in Hs as [H16%bool_decide_eq_false_1 Hs].
  apply orb_false_iff in Hs as [Hlo%Z.ltb_ge Hhi%Z.ltb_ge].
  assert (Hrd8 : rd 8 (rewrite_loop (S fuel) xlate p) 0 = rd 8 p 0) by by apply (rd_prefix _ _ _ _ 8).
  rewrite Hrd8. destruct (rd_8_4 p Hb ltac:(lia)) as [_ Heq]. specialize (Heq ltac:(lia)).
  set (len := rd 8 p 0) in *. rewrite fmap_cons. pose proof (align8_bounds len) as Ha.
  assert (Hr : rewrite_loop (S fuel) xlate p =
    take (Z.to_nat (align8 len)) (written p) ++ rewrite_loop fuel xlate (drop (Z.to_nat (align8 len)) p)).
  { rewrite rewrite_loop_eq, Heq. rewrite bool_decide_eq_false_2 by lia.
    rewrite (proj2 (Z.ltb_ge _ _)) by lia. cbn [orb]. cbv zeta. unfold u32. rewrite Z.mod_small by lia.
    fold (align8 len). rewrite bool_decide_eq_false_2 by lia. rewrite drop_written by lia. done. }
  assert (Hpre : forall k, (k <= Z.to_nat (align8 len))%nat -> (k <= length p)%nat ->
    take k (rewrite_loop (S fuel) xlate p) = take k (written p)).
  { intros k Hk Hkp. rewrite Hr, take_app_le by (rewrite length_take, length_written; lia).
    rewrite take_take. f_equal. lia. }
  destruct (level_written p ltac:(lia)) as [Hlv Hty].
  assert (Hread : forall off, (off + 4 <= 16)%nat ->
    rd_int (rewrite_loop (S fuel) xlate p) off = rd_int (written p) off).
  { intros off Hoff. apply (rd_int_prefix _ _ _ 16); [|lia]. apply Hpre; lia. }
  rewrite !Hread, Hlv, Hty by lia. f_equal.
  - unfold xlated. cbn [c_level c_type c_data]. destruct (xlate (rd_int p 8) (rd_int p 12)) as [level type].
    cbn [fst snd]. f_equal.
    transitivity (take (Z.to_nat (len - 16)) (drop 16 (take (Z.to_nat len) (rewrite_loop (S fuel) xlate p)))).
    { rewrite skipn_firstn_comm, take_take. f_equal. lia. }
    rewrite Hpre by lia. rewrite skipn_firstn_comm, take_take, drop_written by lia. f_equal. lia.
  - assert (Hdrop : drop (Z.to_nat (align8 len)) (rewrite_loop (S fuel) xlate p) =
      rewrite_loop fuel xlate (drop (Z.to_nat (align8 len)) p)).
    { rewrite Hr. destruct (decide (Z.to_nat (align8 len) <= length p)%nat) as [Hle|Hgt].
      - apply drop_app_length'. rewrite length_take, length_written; lia.
      - rewrite (drop_ge p) by lia. assert (rewrite_loop fuel xlate [] = []) as -> by by destruct fuel.
        rewrite app_nil_r. apply drop_ge. rewrite length_take, length_written; lia. }
    rewrite Hdrop. apply IH.
    + rewrite length_drop. lia.
    + by apply Forall_drop.
    + rewrite length_drop. lia.
Qed.
End in_place.

(** The BSD layout never takes more room than Linux's. *)
Lemma align8_div n : align8 n = 8 * ((n + 7) / 8).
Proof.
  unfold align8. change 7 with (2 ^ 3 - 1) at 2. rewrite land_not_ones by lia. change (2 ^ 3) with 8.
  pose proof (Z.div_mod (n + 7) 8 ltac:(lia)). lia.
Qed.

Lemma align8_mono a b : a <= b -> align8 a <= align8 b.
Proof. intros Hab. rewrite !align8_div. pose proof (Z.div_le_mono (a + 7) (b + 7) 8 ltac:(lia) ltac:(lia)). lia. Qed.

Lemma align8_sub a b : align8 (a - align8 b) = align8 a - align8 b.
Proof.
  rewrite !align8_div. replace (a - 8 * ((b + 7) / 8) + 7) with (a + 7 + (- ((b + 7) / 8)) * 8) by lia.
  rewrite Z.div_add by lia. lia.
Qed.

Lemma align_host_8 n : cmsg_align_host xnu n <= align8 n.
Proof.
  unfold cmsg_align_host. destruct xnu.
  - change (4 - 1) with (2 ^ 2 - 1). rewrite land_not_ones by lia. change (2 ^ 2) with 4. rewrite align8_div.
    pose proof (Z.div_mod (n + 4 - 1) 4 ltac:(lia)). pose proof (Z.div_mod (n + 7) 8 ltac:(lia)).
    pose proof (Z.mod_pos_bound (n + 4 - 1) 4 ltac:(lia)). pose proof (Z.mod_pos_bound (n + 7) 8 ltac:(lia)). lia.
  - unfold align8. replace (n + 8 - 1) with (n + 7) by lia. done.
Qed.

Lemma bsd_total_le src :
  total (bsd_room xnu) (xlated cmsg_to_host <$> linux_cmsgs src) <= align8 (Z.of_nat (length src)).
Proof.
  enough (Hgen : forall n src, (length src <= n)%nat ->
    total (bsd_room xnu) (xlated cmsg_to_host <$> linux_cmsgs src) <= align8 (Z.of_nat (length src))) by by eapply Hgen.
  clear src. intros n. induction n as [|n IH]; intros src Hn.
  { destruct src; [done|simpl in Hn; lia]. }
  pose proof (align8_bounds (Z.of_nat (length src))) as Hb. rewrite linux_cmsgs_eq. unfold linux_stop.
  destruct (bool_decide_reflect (length src < 16)%nat); [cbn [orb fmap list_fmap]; change (total _ []) with 0; lia|].
  destruct (Z.ltb_spec (rd 8 src 0) 16); [cbn [orb fmap list_fmap]; change (total _ []) with 0; lia|].
  destruct (Z.ltb_spec (Z.of_nat (length src)) (rd 8 src 0)); [cbn [orb fmap list_fmap]; change (total _ []) with 0; lia|]. cbn [orb].
  set (len := rd 8 src 0) in *. rewrite fmap_cons, total_cons. unfold bsd_room at 1. rewrite xlated_data. cbn [c_data].
  rewrite length_take, length_drop. replace (Z.of_nat _) with (len - 16) by lia.
  pose proof (align_host_8 (12 + (len - 16))). pose proof (align8_mono (12 + (len - 16)) len ltac:(lia)).
  pose proof (align8_bounds len). pose proof (align8_mono len (Z.of_nat (length src)) ltac:(lia)).
  specialize (IH (drop (Z.to_nat (align8 len)) src)). rewrite length_drop in IH. specialize (IH ltac:(lia)).
  destruct (Z.le_gt_cases (align8 len) (Z.of_nat (length src))).
  - replace (Z.of_nat (length src - Z.to_nat (align8 len))) with (Z.of_nat (length src) - align8 len) in IH by lia.
    rewrite align8_sub in IH. lia.
  - rewrite drop_ge in IH |- * by lia. replace (Z.of_nat (length src - Z.to_nat (align8 len))) with 0 in IH by lia.
    change (align8 0) with 0 in IH. lia.
Qed.

Lemma le_bytes n x : Forall is_byte (le n x).
Proof.
  revert x. induction n as [|n IH]; intros x; constructor; [|apply IH]. unfold is_byte. apply Z.mod_pos_bound. lia.
Qed.

Lemma wr_bytes n l off x : Forall is_byte l -> Forall is_byte (wr n l off x).
Proof.
  intros Hl. unfold wr. rewrite !Forall_app. split_and!; [by apply Forall_take|apply le_bytes|by apply Forall_drop].
Qed.

Lemma rewrite_bytes xlate fuel p : Forall is_byte p -> Forall is_byte (rewrite_loop fuel xlate p).
Proof.
  revert p. induction fuel as [|fuel IH]; intros p Hp; [done|]. cbn [rewrite_loop].
  destruct (bool_decide _); [done|]. destruct (_ <? _); [done|]. destruct (xlate _ _) as [level type].
  assert (Hw : Forall is_byte (wr 4 (wr 4 p 8 level) 12 type)) by by apply wr_bytes, wr_bytes.
  destruct (_ =? 0); [done|]. apply Forall_app. split; [by apply Forall_take|]. by apply IH, Forall_drop.
Qed.

(** Both directions of the in-place rewrite. *)
Lemma rewrite_both p to_host :
  cmsg_consts_ok -> Forall is_byte p -> Z.of_nat (length p) < 2 ^ 31 ->
  linux_cmsgs (cmsgs_rewrite p to_host) = xlated (if to_host then cmsg_to_host else cmsg_to_linux) <$> linux_cmsgs p.
Proof.
  intros Hok Hb Hlen. unfold cmsgs_rewrite. destruct to_host; apply rewrite_spec; try done.
  - intros. by apply cmsg_to_host_int.
  - intros. by apply cmsg_to_linux_int.
Qed.

Lemma length_rewrite p to_host : length (cmsgs_rewrite p to_host) = length p.
Proof. unfold cmsgs_rewrite. apply rewrite_keeps. Qed.

(** control messages are translated, not lost. On a host with Linux's
    layout the buffer holds, before the call, the messages with the host's
    levels and types, and after a receive the messages with Linux's; into
    the BSD layout the copy holds exactly the translated messages, and the
    conversion fails exactly when they do not fit; out of it the buffer
    holds the longest prefix that fits. *)
Theorem cmsgs_translated src dst :
  cmsg_consts_ok -> Forall is_byte src -> Z.of_nat (length src) < 2 ^ 31 ->
  linux_cmsgs (cmsgs_rewrite src true) = xlated cmsg_to_host <$> linux_cmsgs src /\
  linux_cmsgs (cmsgs_rewrite src false) = xlated cmsg_to_linux <$> linux_cmsgs src /\
  match cmsgs_to_bsd xnu src dst with
  | Some out => bsd_cmsgs xnu out = xlated cmsg_to_host <$> linux_cmsgs src /\ (length out <= length dst)%nat
  | None => Z.of_nat (length dst) < total (bsd_room xnu) (xlated cmsg_to_host <$> linux_cmsgs src)
  end /\
  linux_cmsgs (cmsgs_to_linux_layout xnu src dst) =
    fitting (Z.of_nat (length dst)) (xlated cmsg_to_linux <$> bsd_cmsgs xnu src) /\
  (length (cmsgs_to_linux_layout xnu src dst) <= length dst)%nat.
Proof.
  intros Hok Hb Hlen. destruct (to_linux_spec src dst Hlen) as [Hl Hle].
  pose proof (to_bsd_spec src dst Hok Hlen) as Hbsd. cbv zeta in Hbsd. split_and!; try done.
  - by apply (rewrite_both src true).
  - by apply (rewrite_both src false).
  - destruct (cmsgs_to_bsd xnu src dst); [|done]. naive_solver.
Qed.

(** A message whose level and type the host does not use for another one. *)
Definition readable (c : cmsg) : Prop :=
  c_level c = SHIM_LIN_SOL_SOCKET \/
  c_level c <> SOL_SOCKET /\
  (c_level c = SHIM_LIN_IPPROTO_IP ->
     c_type c ∈ row_values SHIM_IP_TABLE \/ c_type c ∉ host_values SHIM_IP_TABLE) /\
  (c_level c = SHIM_LIN_IPPROTO_IPV6 ->
     c_type c ∈ row_values SHIM_IPV6_TABLE \/ c_type c ∉ host_values SHIM_IPV6_TABLE).

Lemma xlated_back c :
  NoDup (host_values SHIM_IP_TABLE) -> NoDup (host_values SHIM_IPV6_TABLE) ->
  readable c -> xlated cmsg_to_linux (xlated cmsg_to_host c) = c.
Proof.
  intros Hip Hip6 Hc. destruct c as [level type data]. unfold readable in Hc. simpl in Hc.
  unfold xlated. cbn [c_level c_type c_data]. unfold cmsg_to_host.
  destruct (Z.eqb_spec level SHIM_LIN_SOL_SOCKET) as [->|Hnl].
  { cbn [c_level c_type c_data]. unfold cmsg_to_linux. by rewrite Z.eqb_refl. }
  destruct Hc as [?|(Hs & Ht & Ht6)]; [done|].
  destruct (Z.eqb_spec level SHIM_LIN_IPPROTO_IP) as [->|Hni].
  { cbn [c_level c_type c_data]. unfold cmsg_to_linux. rewrite (proj2 (Z.eqb_neq _ _) Hs), Z.eqb_refl.
    rewrite lookup_reads_back; [done|done|]. by apply Ht. }
  destruct (Z.eqb_spec level SHIM_LIN_IPPROTO_IPV6) as [->|Hn6]; cbn [c_level c_type c_data]; unfold cmsg_to_linux.
  - rewrite (proj2 (Z.eqb_neq _ _) Hs), (proj2 (Z.eqb_neq _ _) Hni), Z.eqb_refl.
    rewrite lookup_reads_back; [done|done|]. by apply Ht6.
  - by rewrite (proj2 (Z.eqb_neq _ _) Hs), (proj2 (Z.eqb_neq _ _) Hni), (proj2 (Z.eqb_neq _ _) Hn6).
Qed.

Lemma all_back l :
  NoDup (host_values SHIM_IP_TABLE) -> NoDup (host_values SHIM_IPV6_TABLE) ->
  Forall readable l -> xlated cmsg_to_linux <$> (xlated cmsg_to_host <$> l) = l.
Proof.
  intros Hip Hip6 Hread. induction Hread as [|c l Hc Hl IH]; [done|]. rewrite !fmap_cons, IH. by rewrite xlated_back.
Qed.

(** what a BSD socket echoes is what was sent: control messages converted
    to the BSD layout and back into a buffer with room for them are the
    sender's messages. *)
Theorem cmsgs_round_trip src dst dst' out :
  cmsg_consts_ok -> NoDup (host_values SHIM_IP_TABLE) -> NoDup (host_values SHIM_IPV6_TABLE) ->
  Z.of_nat (length src) < 2 ^ 31 -> Z.of_nat (length dst) < 2 ^ 31 ->
  Forall readable (linux_cmsgs src) ->
  cmsgs_to_bsd xnu src dst = Some out ->
  total linux_room (linux_cmsgs src) <= Z.of_nat (length dst') ->
  linux_cmsgs (cmsgs_to_linux_layout xnu out dst') = linux_cmsgs src.
Proof.
  intros Hok Hip Hip6 Hsrc Hdst Hread Hout Hroom.
  pose proof (to_bsd_spec src dst Hok Hsrc) as Hbsd. cbv zeta in Hbsd. rewrite Hout in Hbsd.
  destruct Hbsd as (Hmsgs & _ & Hlen). destruct (to_linux_spec out dst') as [-> _]; [lia|].
  rewrite Hmsgs, all_back by done. by apply fitting_all.
Qed.
End convert.

(** ** On a concrete host: XNU *)

Definition xnu_sock : HostConsts := {|
  host_const name :=
    default 0 (snd <$> List.find (fun row => String.eqb (fst row) name)
      [ ("SOL_SOCKET"%string, 0xffff); ("IP_TOS"%string, 3); ("IP_TTL"%string, 4); ("IP_HDRINCL"%string, 2);
        ("IP_OPTIONS"%string, 1); ("IP_RECVTOS"%string, 27); ("IP_RECVTTL"%string, 24); ("IP_MULTICAST_IF"%string, 9);
        ("IP_MULTICAST_TTL"%string, 10); ("IP_MULTICAST_LOOP"%string, 11); ("IP_ADD_MEMBERSHIP"%string, 12);
        ("IP_DROP_MEMBERSHIP"%string, 13); ("IP_PKTINFO"%string, 26);
        ("IPV6_V6ONLY"%string, 27); ("IPV6_UNICAST_HOPS"%string, 4); ("IPV6_MULTICAST_IF"%string, 9);
        ("IPV6_MULTICAST_HOPS"%string, 10); ("IPV6_MULTICAST_LOOP"%string, 11); ("IPV6_JOIN_GROUP"%string, 12);
        ("IPV6_LEAVE_GROUP"%string, 13); ("IPV6_TCLASS"%string, 36); ("IPV6_RECVTCLASS"%string, 35);
        ("IPV6_PKTINFO"%string, 46) ]);
  host_defines _ := true |}.

(** SCM_RIGHTS with one descriptor, then IP_TTL. *)
Definition two_msgs : list Z :=
  le 8 20 ++ le 4 1 ++ le 4 1 ++ le 4 7 ++ [0; 0; 0; 0] ++ le 8 20 ++ le 4 0 ++ le 4 2 ++ le 4 64 ++ [0; 0; 0; 0].

Lemma xnu_consts_ok : @cmsg_consts_ok xnu_sock.
Proof. by apply (bool_decide_unpack _). Qed.

Lemma cmsgs_translated_witness :
  @linux_cmsgs (@cmsgs_rewrite xnu_sock two_msgs true) = [Cmsg 0xffff 1 [7; 0; 0; 0]; Cmsg 0 4 [64; 0; 0; 0]].
Proof.
  destruct (@cmsgs_translated xnu_sock true two_msgs (replicate 64 0)) as [-> _];
    [apply xnu_consts_ok|by apply (bool_decide_unpack _)|vm_compute; done|].
  vm_compute. reflexivity.
Defined.

Lemma cmsgs_round_trip_witness :
  exists out, @cmsgs_to_bsd xnu_sock true two_msgs (replicate 64 0) = Some out /\
    linux_cmsgs (@cmsgs_to_linux_layout xnu_sock true out (replicate 48 0)) = linux_cmsgs two_msgs.
Proof.
  destruct (@cmsgs_to_bsd xnu_sock true two_msgs (replicate 64 0)) as [out|] eqn:E; [|vm_compute in E; discriminate E].
  exists out. split; [done|].
  apply (@cmsgs_round_trip xnu_sock true two_msgs (replicate 64 0) (replicate 48 0)); try done.
  - apply xnu_consts_ok.
  - by apply (bool_decide_unpack _).
  - by apply (bool_decide_unpack _).
  - assert (linux_cmsgs two_msgs = [Cmsg 1 1 [7; 0; 0; 0]; Cmsg 0 2 [64; 0; 0; 0]]) as ->
      by by apply (bool_decide_unpack _).
    apply Forall_cons_2; [by left|]. apply Forall_cons_2; [|apply Forall_nil_2]. right.
    split_and!; [discriminate| |discriminate]. intros _. left. by apply (bool_decide_unpack _).
Defined.
