(* ===== verification/Socket.v ===== *)
(** * shim/socket.c: the calls

    Each call translates its arguments with the tables of SockOpt.v and
    Cmsg.v, asks the host, translates the answer back, and reports to the
    tables of epoll.c; the packet sockets of Packet.v, the parked options and
    Windows' missing nonblocking send are handled on the way. winsock.c's pin
    is here as well. The theorems: no descriptor leaks from socketpair,
    whatever fails, and the pair built on Windows is connected end to end; an
    option set while a connect is in flight is answered by getsockopt and
    reaches the host before the first byte; a nonblocking send never reaches
    a full socket; write is send; a BSD peer gets the messages the caller
    sent. *)
From S2P Require Import Prelude Host Tables Flags Translate Poll EpollSets EpollPairs PfsText.
From S2P Require Import SockHost ToySock SockOpt Packet Cmsg.

(** The shim's own state: winsock.c's flag, the parked options, the packet
    sockets, the tables of epoll.c, and the wakers written so far. *)
Record sock_state := SockState {
  ss_pinned : bool;
  ss_deferred : deferred;
  ss_pkts : pkts;
  ss_pairs : pairs;
  ss_sets : list epoll_set;
  ss_woken : list Z }.

Definition put_pkts (t : pkts) (s : sock_state) : sock_state :=
  SockState (ss_pinned s) (ss_deferred s) t (ss_pairs s) (ss_sets s) (ss_woken s).
Definition put_deferred (d : deferred) (s : sock_state) : sock_state :=
  SockState (ss_pinned s) d (ss_pkts s) (ss_pairs s) (ss_sets s) (ss_woken s).
Definition put_pairs (t : pairs) (s : sock_state) : sock_state :=
  SockState (ss_pinned s) (ss_deferred s) (ss_pkts s) t (ss_sets s) (ss_woken s).
Definition wake_sets (x : list epoll_set * list Z) (s : sock_state) : sock_state :=
  SockState (ss_pinned s) (ss_deferred s) (ss_pkts s) (ss_pairs s) (fst x) (ss_woken s ++ snd x).
Definition put_pinned (s : sock_state) : sock_state :=
  SockState true (ss_deferred s) (ss_pkts s) (ss_pairs s) (ss_sets s) (ss_woken s).

Section sockets.
Context {H : Type} `{SockHost H} `{HostConsts}.
Context (windows bsd xnu use_syscalls : bool).
(** mkntpath.c's __mkntpath. *)
Context (mkntpath : list Z -> res (list Z)).

Notation T := (M (sock_state * H)).

Definition state : T sock_state := reads fst.
Definition change (f : sock_state -> sock_state) : T unit := modifies (fun w => (f (fst w), snd w)).

(** ** Reports to epoll.c *)

Definition epoll_rearm_in (fd : Z) : T unit := change (fun s => wake_sets (rearm_in use_syscalls fd (ss_sets s)) s).
Definition epoll_note_new (fd : Z) : T unit := change (fun s => put_pairs (note_new_fd use_syscalls fd (ss_pairs s)) s).
Definition epoll_note_pair (a b : Z) : T unit := change (fun s => put_pairs (note_pair use_syscalls a b (ss_pairs s)) s).

Definition recv_result (fd : Z) (r : res Z) : T (res Z) :=
  _ ← (match r with
       | Ok n => if 0 <? n then epoll_rearm_in fd else mret tt
       | Err EAGAIN => epoll_rearm_in fd
       | Err _ => mret tt
       end);
  mret r.

(** The same text as io.c's write_result. *)
Definition send_result (fd : Z) (r : res Z) (want : Z) : T (res Z) :=
  _ ← change (fun s => wake_sets (snd (write_result use_syscalls fd r want (ss_pairs s) (ss_sets s))) s);
  mret r.

(** ** Making sockets *)

Definition pin_winsock : T unit :=
  if negb windows then mret tt
  else
    s ← state;
    if ss_pinned s then mret tt
    else _ ← change put_pinned; _ ← ask (H_WSAStartup 0x202); mret tt.

Definition noted_socket (r : res Z) : T (res Z) :=
  match r with
  | Ok fd => _ ← epoll_note_new fd; mret r
  | Err _ => mret r
  end.

Definition shim_socket (domain lin_type protocol : Z) : T (res Z) :=
  let type := type_to_host lin_type in
  _ ← pin_winsock;
  if windows && (domain =? SHIM_LIN_AF_PACKET) then r ← packet_socket ss_pkts put_pkts; noted_socket r
  else r ← ask (H_socket (af_to_host domain) type protocol); noted_socket r.

(** All of the bytes, or false; a host that answers more than it was given
    or asked for would make the count wrap. *)
Fixpoint send_all (fuel : nat) (fd : Z) (p : list Z) : T bool :=
  match p, fuel with
  | [], _ => mret true
  | _, O => out_of_fuel
  | _, S fuel' =>
      r ← ask (H_send fd p 0);
      match r with
      | Ok n => if n <=? 0 then mret false
                else if Z.of_nat (length p) <? n then out_of_fuel
                else send_all fuel' fd (drop (Z.to_nat n) p)
      | Err _ => mret false
      end
  end.

Fixpoint recv_all (fuel : nat) (fd n : Z) (acc : list Z) : T (option (list Z)) :=
  if n =? 0 then mret (Some acc)
  else
    match fuel with
    | O => out_of_fuel
    | S fuel' =>
        r ← ask (H_recv fd n 0);
        match r with
        | Ok [] => mret None
        | Ok data => if n <? Z.of_nat (length data) then out_of_fuel
                     else recv_all fuel' fd (n - Z.of_nat (length data)) (acc ++ data)
        | Err _ => mret None
        end
    end.

Definition hex2 (x : Z) : cstr :=
  let d n := if n <? 10 then 48 + n else 87 + n in [d (x / 16); d (x mod 16)].

Definition pair_path (pid : Z) (nonce : list Z) : cstr :=
  bytes "/tmp/ape-sp-" ++ signed pid ++ bytes "-" ++ concat (hex2 <$> take 4 nonce) ++ bytes ".sock".

Definition close_all (fds : list Z) : T unit :=
  foldr (fun fd m => _ ← ask (H_close fd); m) (mret tt) fds.

Definition pair_fail (fds : list Z) (path : cstr) : T (option (Z * Z)) :=
  _ ← close_all fds; _ ← ask (H_unlink path); mret None.

(** The accept loop: the descriptor whose peer knows the nonce, [Ok None]
    after eight that did not. *)
Fixpoint accept_ours (tries : nat) (srv flags : Z) (nonce : list Z) : T (res (option Z)) :=
  match tries with
  | O => mret (Ok None)
  | S tries' =>
      a ← ask (H_accept4 srv (None, None) flags);
      match fst (a : res Z * sockbuf) with
      | Err e => mret (Err e)
      | Ok fd =>
          g ← recv_all (length nonce) fd (Z.of_nat (length nonce)) [];
          if bool_decide (g = Some nonce) then mret (Ok (Some fd))
          else _ ← ask (H_close fd); accept_ours tries' srv flags nonce
      end
  end.

Definition SOCK_STREAM : Z := host_const "SOCK_STREAM".
Definition SOCK_SEQPACKET : Z := host_const "SOCK_SEQPACKET".

Definition nt_unix_pair (type : Z) : T (option (Z * Z)) :=
  rnd ← ask (H_getrandom 16);
  match rnd with
  | Err _ => mret None
  | Ok nonce =>
      if negb (Z.of_nat (length nonce) =? 16) then mret None
      else
        pid ← ask H_getpid;
        let path := pair_path pid nonce in
        if 64 <=? Z.of_nat (length path) then mret None
        else
          let sa := unix_path_to_nt mkntpath (le 2 AF_UNIX ++ path ++ [0]) in
          let salen := Z.of_nat (length sa) in
          srv ← ask (H_socket AF_UNIX type 0);
          match srv with
          | Err _ => pair_fail [] path
          | Ok srv =>
              b ← ask (H_bind srv (Some sa) salen);
              match b with Err _ => pair_fail [srv] path | Ok _ =>
              l ← ask (H_listen srv 4);
              match l with Err _ => pair_fail [srv] path | Ok _ =>
              cli ← ask (H_socket AF_UNIX type 0);
              match cli with Err _ => pair_fail [srv] path | Ok cli =>
              c ← ask (H_connect cli (Some sa) salen);
              match c with Err _ => pair_fail [srv; cli] path | Ok _ =>
              ok ← send_all 16 cli nonce;
              if negb ok then pair_fail [srv; cli] path
              else
                acc ← accept_ours 8 srv (Z.land type SOCK_CLOEXEC) nonce;
                match acc with
                | Ok (Some acc) => _ ← ask (H_close srv); _ ← ask (H_unlink path); mret (Some (cli, acc))
                | _ => pair_fail [srv; cli] path
                end
              end end end end
          end
  end.

(** fcntl(fd, F_SETFL, F_GETFL | O_NONBLOCK), with its error. *)
Definition set_nonblock (fd : Z) : T (option errno) :=
  fl ← getfl fd;
  match fl with
  | Err e => mret (Some e)
  | Ok fl =>
      r ← ask (H_set_fl fd (Z.lor fl (host_const "O_NONBLOCK")));
      mret (match r with Ok _ => None | Err e => Some e end)
  end.

(** The host's pair, with a stream pair where it has no SEQPACKET one. *)
Definition host_pair (host_domain type protocol : Z) : T (res (Z * Z)) :=
  r ← ask (H_socketpair host_domain type protocol);
  match r with
  | Ok _ => mret r
  | Err e =>
      if (host_domain =? AF_UNIX) && (Z.ldiff type SOCK_CLOEXEC =? SOCK_SEQPACKET) &&
         bool_decide (e ∈ [EPROTONOSUPPORT; ESOCKTNOSUPPORT; EPROTOTYPE])
      then ask (H_socketpair host_domain (Z.lor (Z.land type SOCK_CLOEXEC) SOCK_STREAM) protocol)
      else mret r
  end.

Definition shim_socketpair (domain lin_type protocol : Z) : T (res (Z * Z)) :=
  let type := type_to_host lin_type in
  let nonblock := has type SOCK_NONBLOCK in
  let type := Z.ldiff type SOCK_NONBLOCK in
  _ ← pin_winsock;
  let host_domain := af_to_host domain in
  made ← (if windows && (host_domain =? AF_UNIX) && (Z.ldiff type SOCK_CLOEXEC =? SOCK_STREAM)
          then nt_unix_pair type else mret None);
  r ← (match made with Some p => mret (Ok p) | None => host_pair host_domain type protocol end);
  match r with
  | Err e => mret (Err e)
  | Ok (a, b) =>
      e ← (if nonblock then
             e ← set_nonblock a;
             match e with None => set_nonblock b | Some _ => mret e end
           else mret None);
      match e with
      | Some e => _ ← ask (H_close a); _ ← ask (H_close b); mret (Err e)
      | None => _ ← epoll_note_pair a b; mret (Ok (a, b))
      end
  end.

(** What accept and accept4 do with the host's answer. *)
Definition accepted (fd : Z) (x : res Z * sockbuf) : T (res Z * sockbuf) :=
  let '(r, (buf, len)) := x in
  match r with
  | Ok nfd =>
      _ ← epoll_note_new nfd; _ ← epoll_rearm_in fd;
      mret (r, (addr_to_linux buf len, len))
  | Err EAGAIN => _ ← epoll_rearm_in fd; mret x
  | Err _ => mret x
  end.

Definition shim_accept4 (fd : Z) (buf : sockbuf) (lin_flags : Z) : T (res Z * sockbuf) :=
  let flags := if has lin_flags SHIM_LIN_SOCK_CLOEXEC then SOCK_CLOEXEC else 0 in
  let flags := if has lin_flags SHIM_LIN_SOCK_NONBLOCK then Z.lor flags SOCK_NONBLOCK else flags in
  x ← ask (H_accept4 fd buf flags); accepted fd x.

Definition shim_accept (fd : Z) (buf : sockbuf) : T (res Z * sockbuf) :=
  x ← ask (H_accept fd buf); accepted fd x.

(** ** Addresses *)

(** The address and length the host is given for the caller's. *)
Definition host_addr (addr : option (list Z)) (len : Z) : option (list Z) * Z :=
  match addr_to_host windows mkntpath addr with
  | Some a => (Some a, Z.of_nat (length a))
  | None => (None, len)
  end.

Definition shim_bind (fd : Z) (addr : option (list Z)) (len : Z) : T (res Z) :=
  pk ← packet_is ss_pkts put_pkts fd;
  if pk : bool then packet_bind ss_pkts put_pkts fd addr len
  else let '(host, len) := host_addr addr len in ask (H_bind fd host len).

Definition shim_connect (fd : Z) (addr : option (list Z)) (len : Z) : T (res Z) :=
  let '(host, len) := host_addr addr len in ask (H_connect fd host len).

Definition named_back (x : res Z * sockbuf) : res Z * sockbuf :=
  match x with
  | (Ok 0, (buf, len)) => (Ok 0, (addr_to_linux buf len, len))
  | _ => x
  end.

Definition shim_getsockname (fd : Z) (buf : sockbuf) : T (res Z * sockbuf) :=
  x ← ask (H_getsockname fd buf); mret (named_back x).
Definition shim_getpeername (fd : Z) (buf : sockbuf) : T (res Z * sockbuf) :=
  x ← ask (H_getpeername fd buf); mret (named_back x).

(** ** Options *)

Definition sock_is_connecting (fd : Z) : T bool :=
  e ← fd_entry_of fd;
  mret (match e with
        | Some e => (0 <=? fd) && (fe_kind e =? host_const "kFdSocket") && (fe_connecting e =? 1)
        | None => false
        end).

Definition shim_setsockopt (fd level name : Z) (val : option (list Z)) (len : Z) : T (res Z) :=
  if (level =? SHIM_LIN_SOL_SOCKET) && (name =? SHIM_LIN_SO_REUSEPORT) && (host_const "SO_REUSEPORT" =? 0)
  then mret (Ok 0)
  else
    pk ← packet_sockopt ss_pkts put_pkts fd level;
    if pk : bool then mret (Ok 0)
    else
      let '(level, name) := sockopt_to_host level name in
      r ← ask (H_setsockopt fd level name val len);
      match r, val with
      | Err EINVAL, Some v =>
          connecting ← sock_is_connecting fd;
          if windows && (len =? 4) && connecting then
            s ← state;
            let '(ok, d) := defer_sockopt fd level name (rd_int v 0) (ss_deferred s) in
            _ ← change (put_deferred d);
            mret (if ok : bool then Ok 0 else Err EINVAL)
          else mret r
      | _, _ => mret r
      end.

Definition int_buf (buf : sockbuf) : option (list Z * Z) :=
  match buf with
  | (Some v, Some l) => if 4 <=? l then Some (v, l) else None
  | _ => None
  end.

Definition shim_getsockopt (fd level name : Z) (buf : sockbuf) : T (res Z * sockbuf) :=
  let '(hlevel, hname) := sockopt_to_host level name in
  s ← state;
  match int_buf buf, deferred_lookup fd hlevel hname (ss_deferred s) with
  | Some (v, _), Some parked => mret (Ok 0, (Some (wr 4 v 0 parked), Some 4))
  | _, _ =>
      x ← ask (H_getsockopt fd hlevel hname buf);
      let '(r, out) := (x : res Z * sockbuf) in
      if bool_decide (r = Ok 0) then
        let out :=
          match int_buf out with
          | Some (v, l) =>
              if (level =? SHIM_LIN_SOL_SOCKET) && (name =? SHIM_LIN_SO_ERROR)
              then (Some (wr 4 v 0 (errno_host_to_linux (rd_int v 0))), Some l) else out
          | None => out
          end in
        let out :=
          match out with
          | (Some v, Some l) =>
              if bsd && (l =? 4) && sockopt_is_boolean level name
              then (Some (wr 4 v 0 (if rd_int v 0 =? 0 then 0 else 1)), Some l) else out
          | _ => out
          end in
        mret (r, out)
      else mret x
  end.

(** ** The nonblocking send of Windows *)

Definition nt_gated (fd : Z) (h : H) : bool :=
  windows && match s_getfl h fd with Ok fl => has fl (host_const "O_NONBLOCK") | Err _ => false end.

Definition nt_wants_eagain (fd : Z) : T bool :=
  g ← reads (fun w => nt_gated fd (snd w));
  if g : bool then r ← ask (H_poll_now fd (host_const "POLLOUT")); mret (bool_decide (r = Ok 0))
  else mret false.

Definition nt_clamp (fd n : Z) (h : H) : Z := if (65536 <? n) && nt_gated fd h then 65536 else n.

(** setsockopt of an int, and the replay over it. *)
Definition set_int (fd level name val : Z) (h : H) : res Z * H :=
  s_call _ (H_setsockopt fd level name (Some (le 4 val)) 4) h.

Definition sockopt_replay (fd : Z) (w : sock_state * H) : sock_state * H :=
  let '(d, h) := nt_sockopt_replay (set_int fd) fd (ss_deferred (fst w)) (snd w) in
  (put_deferred d (fst w), h).

(** A send, again without MSG_NOSIGNAL when Winsock refused the flag. *)
Definition with_retry (flags : Z) (call : Z -> scall (res Z)) : T (res Z) :=
  r ← ask (call flags);
  if nosignal_retry windows flags r then ask (call (Z.ldiff flags MSG_NOSIGNAL)) else mret r.

(** The common shape: parked options first, then the gate. *)
Definition gated_send (fd want : Z) (body : T (res Z)) : T (res Z) :=
  _ ← modifies (sockopt_replay fd);
  full ← nt_wants_eagain fd;
  if full : bool then send_result fd (Err EAGAIN) want
  else r ← body; send_result fd r want.

Definition clamped (fd : Z) (buf : list Z) : T (list Z) :=
  reads (fun w => take (Z.to_nat (nt_clamp fd (Z.of_nat (length buf)) (snd w))) buf).

Definition shim_send (fd : Z) (buf : list Z) (flags : Z) : T (res Z) :=
  gated_send fd (Z.of_nat (length buf))
    (data ← clamped fd buf; with_retry (msg_to_host flags) (H_send fd data)).

Definition shim_sendto (fd : Z) (buf : list Z) (flags : Z) (addr : option (list Z)) (alen : Z) : T (res Z) :=
  gated_send fd (Z.of_nat (length buf))
    (data ← clamped fd buf;
     let '(to, alen) := host_addr addr alen in
     with_retry (msg_to_host flags) (fun fl => H_sendto fd data fl to alen)).

(** ** Receiving *)

Definition got_len (r : res (list Z)) : res Z :=
  match r with Ok data => Ok (Z.of_nat (length data)) | Err e => Err e end.

Definition shim_recv (fd n flags : Z) : T (res (list Z)) :=
  pk ← packet_is ss_pkts put_pkts fd;
  r ← (if pk : bool then x ← packet_recv ss_pkts put_pkts fd n (None, None); mret (fst x)
       else ask (H_recv fd n (msg_to_host flags)));
  _ ← recv_result fd (got_len r);
  mret r.

Definition shim_recvfrom (fd n flags : Z) (buf : sockbuf) : T (res (list Z) * sockbuf) :=
  pk ← packet_is ss_pkts put_pkts fd;
  x ← (if pk : bool then packet_recv ss_pkts put_pkts fd n buf
       else
         x ← ask (H_recvfrom fd n (msg_to_host flags) buf);
         let '(r, (b, l)) := (x : res (list Z) * sockbuf) in
         mret (match r with Ok _ => (r, (addr_to_linux b l, l)) | Err _ => x end));
  _ ← recv_result fd (got_len (fst x));
  mret x.

(** ** Messages *)

Definition msg_total (msg : option msghdr) : Z :=
  match msg with Some m => Z.of_nat (length (concat (msg_iov m))) | None => 0 end.

Definition CTL_MAX : Z := 1024.

(** The control buffer the host is given: a translated copy, unless it is
    too large for one. [junk] is what the copy held before. *)
Definition control_to_host (junk : list Z) (control : option (list Z)) (len : Z) : option (list Z) * Z :=
  match control with
  | None => (None, len)
  | Some c =>
      if CTL_MAX <? len then (control, len)
      else if bsd then
        match cmsgs_to_bsd xnu (take (Z.to_nat len) c) junk with
        | Some out => (if bool_decide (out = []) then None else Some out, Z.of_nat (length out))
        | None => (control, len)
        end
      else (Some (cmsgs_rewrite (take (Z.to_nat len) c) true), len)
  end.

Definition name_to_host (m : msghdr) : option (list Z) * Z :=
  match msg_name m with
  | Some nm => host_addr (Some (take (Z.to_nat (msg_namelen m)) nm)) (msg_namelen m)
  | None => (None, msg_namelen m)
  end.

Definition msg_to_send (junk : list Z) (m : msghdr) : msghdr :=
  let '(name, namelen) := name_to_host m in
  let '(control, controllen) := control_to_host junk (msg_control m) (msg_controllen m) in
  Msghdr name namelen (msg_iov m) control controllen (msg_flags m).

Definition shim_sendmsg (junk : list Z) (fd : Z) (msg : option msghdr) (flags : Z) : T (res Z) :=
  gated_send fd (msg_total msg)
    (with_retry (msg_to_host flags) (H_sendmsg fd (msg_to_send junk <$> msg))).

(** On the BSDs a received message's name is seeded with the socket's own
    family, which cosmo reads. *)
Definition seed_name (fd : Z) (msg : option msghdr) : T (option msghdr) :=
  match msg with
  | Some m =>
      match msg_name m with
      | Some nm =>
          if bsd && (2 <=? msg_namelen m) then
            x ← ask (H_getsockname fd (Some (replicate 128 0), Some 128));
            match x : res Z * sockbuf with
            | (Ok 0, (Some ss, Some sl)) =>
                if 2 <=? sl
                then mret (Some (Msghdr (Some (wr 2 nm 0 (rd 2 ss 0))) (msg_namelen m) (msg_iov m)
                                   (msg_control m) (msg_controllen m) (msg_flags m)))
                else mret msg
            | _ => mret msg
            end
          else mret msg
      | None => mret msg
      end
  | None => mret msg
  end.

(** What the caller finds in the header the host filled; [cap] is the
    capacity of its control buffer. *)
Definition name_back (m : msghdr) : option (list Z) :=
  match msg_name m with
  | Some nm => if 2 <=? msg_namelen m then Some (wr 2 nm 0 (af_to_linux (rd 2 nm 0))) else Some nm
  | None => None
  end.

Definition over (out c : list Z) : list Z := out ++ drop (length out) c.

Definition control_back (cap : Z) (m : msghdr) : option (list Z) * Z :=
  match msg_control m with
  | Some c =>
      if msg_controllen m =? 0 then (Some c, 0)
      else
        let n := Z.to_nat (msg_controllen m) in
        if bsd then
          if msg_controllen m <=? CTL_MAX then
            let out := cmsgs_to_linux_layout xnu (take n c) (take (Z.to_nat cap) c) in
            (Some (over out c), Z.of_nat (length out))
          else (Some c, msg_controllen m)
        else (Some (over (cmsgs_rewrite (take n c) false) c), msg_controllen m)
  | None => (None, msg_controllen m)
  end.

Definition msg_received (cap : Z) (m : msghdr) : msghdr :=
  let '(control, controllen) := control_back cap m in
  Msghdr (name_back m) (msg_namelen m) (msg_iov m) control controllen (msg_to_linux (msg_flags m)).

Definition shim_recvmsg (fd : Z) (msg : option msghdr) (flags : Z) : T (res Z * option msghdr) :=
  msg ← seed_name fd msg;
  let cap := match msg with Some m => msg_controllen m | None => 0 end in
  x ← ask (H_recvmsg fd msg (msg_to_host flags));
  let '(r, m) := (x : res Z * option msghdr) in
  _ ← recv_result fd r;
  mret (match r with Ok _ => (r, msg_received cap <$> m) | Err _ => x end).

(** ** Names *)

Definition ai_to_linux (ai : addrinfo) : addrinfo :=
  Addrinfo (af_to_linux (ai_family ai))
    ((fun a => wr 2 a 0 (af_to_linux (rd 2 a 0))) <$> ai_addr ai) (ai_rest ai).

Definition shim_getaddrinfo (node service : option (list Z)) (hints : option addrinfo)
    : T (Z * option (list addrinfo)) :=
  x ← ask (H_getaddrinfo node service
             ((fun h => Addrinfo (af_to_host (ai_family h)) (ai_addr h) (ai_rest h)) <$> hints));
  mret (match x : Z * option (list addrinfo) with
        | (0, Some l) => (0, Some (ai_to_linux <$> l))
        | _ => x
        end).

Definition shim_getnameinfo (addr : option (list Z)) (alen flags : Z) : T (Z * (list Z * list Z)) :=
  let '(host, alen) := host_addr addr alen in ask (H_getnameinfo host alen flags).
End sockets.

(** ** Pairs *)

Section pairs_spec.
Context {H : Type} {SH : SockHost H} {HL : SockLedger H} `{HostConsts}.
Context (windows bsd xnu use_syscalls : bool) (mkntpath : list Z -> res (list Z)).

Notation led w := (s_ledger (snd w)).

Lemma sent_more_at l fd data : sent_on (sent_more l fd data) fd = sent_on l fd ++ data.
Proof. unfold sent_on at 1, sent_more. cbn [l_sent]. by rewrite lookup_insert_eq. Qed.

Lemma send_all_post fuel fd p s h :
  (length p <= fuel)%nat ->
  post (send_all fuel fd p) (s, h) (fun (ok : bool) w' =>
    fst w' = s /\ l_open (led w') = l_open (s_ledger h) /\ l_got (led w') = l_got (s_ledger h) /\
    (ok = true -> sent_on (led w') fd = sent_on (s_ledger h) fd ++ p)).
Proof.
  revert p h. induction fuel as [|fuel IH]; intros p h Hf.
  { destruct p; [|simpl in Hf; lia]. apply post_ret. rewrite app_nil_r. by split_and!. }
  destruct p as [|b p]; [apply post_ret; rewrite app_nil_r; by split_and!|]. cbn [send_all].
  post_run. destruct a as [n|e]; [|post_run; by rewrite He]. destruct He as [Hn He].
  destruct (Z.leb_spec n 0); [post_run; by rewrite He|]. rewrite (proj2 (Z.ltb_ge _ _)) by lia.
  eapply post_impl; [apply IH; rewrite length_drop; simpl in Hf |- *; lia|].
  intros ok w' (Hs & Ho & Hg & Hsent). split_and!; [done|by rewrite Ho, He|by rewrite Hg, He|].
  intros Hok. rewrite (Hsent Hok), He, sent_more_at, <- app_assoc. f_equal. apply take_drop.
Qed.

Lemma recv_all_post fuel fd n acc s h :
  (Z.to_nat n <= fuel)%nat -> 0 <= n ->
  post (recv_all fuel fd n acc) (s, h) (fun g w' =>
    fst w' = s /\ l_open (led w') = l_open (s_ledger h) /\ l_sent (led w') = l_sent (s_ledger h) /\
    match g with
    | Some x => exists d, x = acc ++ d /\ got_on (led w') fd = got_on (s_ledger h) fd ++ d
    | None => True
    end).
Proof.
  revert n acc h. induction fuel as [|fuel IH]; intros n acc h Hf Hn; cbn [recv_all].
  { rewrite (proj2 (Z.eqb_eq n 0)) by lia. apply post_ret. split_and!; try done. exists []. by rewrite !app_nil_r. }
  destruct (Z.eqb_spec n 0) as [->|Hnz].
  { apply post_ret. split_and!; try done. exists []. by rewrite !app_nil_r. }
  post_run. destruct a as [data|e]; [|post_run; by rewrite He]. destruct He as [Hlen He].
  destruct data as [|b data]; [post_run; by rewrite He|].
  assert (Hd : 0 < Z.of_nat (length (b :: data)) <= n) by (simpl in *; lia).
  remember (b :: data) as d eqn:Ed. clear Ed. rewrite (proj2 (Z.ltb_ge _ _)) by lia.
  eapply post_impl; [apply IH; lia|]. intros g w' (Hs & Ho & Hse & Hg).
  split_and!; [done|by rewrite Ho, He|by rewrite Hse, He|].
  destruct g as [x|]; [|done]. destruct Hg as (d' & -> & Hg). exists (d ++ d'). rewrite <- app_assoc. split; [done|].
  rewrite Hg, He, got_more_at, decide_True by done. by rewrite <- app_assoc.
Qed.

(** A fresh descriptor leaves what the open ones sent. *)
Lemma fresh_sent l fd l' x : fresh l fd l' -> x ∈ l_open l -> sent_on l' x = sent_on l x.
Proof.
  intros (_ & Hnew & ->) Hx. unfold sent_on. cbn [l_sent]. rewrite lookup_delete_ne; [done|]. by intros ->.
Qed.

Lemma fresh_got l fd l' : fresh l fd l' -> got_on l' fd = [].
Proof. intros (_ & _ & ->). unfold got_on. cbn [l_got]. by rewrite lookup_delete_eq. Qed.

Lemma accept_ours_post tries srv flags nonce s h :
  post (accept_ours tries srv flags nonce) (s, h) (fun r w' =>
    fst w' = s /\ (forall x, x ∈ l_open (s_ledger h) -> sent_on (led w') x = sent_on (s_ledger h) x) /\
    match r with
    | Ok (Some a) => a ∉ l_open (s_ledger h) /\ l_open (led w') = {[a]} ∪ l_open (s_ledger h) /\ got_on (led w') a = nonce
    | _ => l_open (led w') = l_open (s_ledger h)
    end).
Proof.
  revert h. induction tries as [|tries IH]; intros h; cbn [accept_ours]; [by apply post_ret|].
  post_run. destruct a as [r out]. cbn [fst] in *. destruct r as [fd|e]; [|post_run; by rewrite He].
  rename He into Hfresh. pose proof Hfresh as (Hfd & Hnew & He).
  apply post_bind. eapply post_impl; [apply recv_all_post; lia|].
  intros g [s1 h1] (Hs1 & Ho1 & Hse1 & Hg1). cbn [fst snd] in *. subst s1.
  assert (Hkeep : forall x, x ∈ l_open (s_ledger h) -> sent_on (s_ledger h1) x = sent_on (s_ledger h) x).
  { intros x Hx. rewrite <- (fresh_sent _ _ _ x Hfresh Hx). unfold sent_on. by rewrite Hse1. }
  case_bool_decide as Hgot.
  - apply post_ret. subst g. destruct Hg1 as (d & Hd & Hg1). simpl in Hd. subst d. cbn [fst snd].
    rewrite Ho1, He. split_and!; try done. by rewrite Hg1, (fresh_got _ _ _ Hfresh).
  - post_run. eapply post_impl; [apply IH|]. intros r [s3 h3] (Hs3 & Hse3 & Hr3). cbn [fst snd] in *.
    assert (Ho2 : l_open (s_ledger h'0) = l_open (s_ledger h)).
    { rewrite He0. cbn [l_open]. rewrite Ho1, He. cbn [l_open]. clear -Hnew. set_solver. }
    rewrite Ho2 in *. split_and!; [done| |done]. intros x Hx. rewrite Hse3 by done.
    rewrite <- Hkeep by done. by rewrite He0.
Qed.

Lemma pair_fail_post fds path s h :
  post (pair_fail fds path) (s, h) (fun r w' =>
    fst w' = s /\ r = None /\ l_open (led w') = l_open (s_ledger h) ∖ list_to_set fds).
Proof.
  unfold pair_fail. apply post_bind.
  eapply post_impl with (P := fun _ w' => fst w' = s /\ l_open (led w') = l_open (s_ledger h) ∖ list_to_set fds).
  - unfold close_all. revert h. induction fds as [|fd fds IH]; intros h; simpl.
    + apply post_ret. split; [done|]. simpl. set_solver.
    + post_run. eapply post_impl; [apply IH|]. intros _ w' [Hs ->]. split; [done|]. rewrite He. cbn [l_open]. set_solver.
  - intros _ [s1 h1] [Hs1 Ho1]. cbn [fst snd] in *. subst s1. post_run. rewrite He. by split_and!.
Qed.

(** What building a pair leaves: two new descriptors, the second of which has
    read what the first wrote, or nothing. *)
Definition pair_made (l : ledger) (s : sock_state) (r : option (Z * Z)) (w' : sock_state * H) : Prop :=
  fst w' = s /\
  match r with
  | Some (cli, acc) =>
      cli <> acc /\ cli ∉ l_open l /\ acc ∉ l_open l /\ l_open (led w') = {[cli; acc]} ∪ l_open l /\
      exists nonce, length nonce = 16%nat /\ sent_on (led w') cli = nonce /\ got_on (led w') acc = nonce
  | None => l_open (led w') = l_open l
  end.

Lemma pair_fail_made l fds path s h :
  l_open (s_ledger h) = list_to_set fds ∪ l_open l -> (list_to_set fds : gset Z) ## l_open l ->
  post (pair_fail fds path) (s, h) (pair_made l s).
Proof.
  intros Ho Hdis. eapply post_impl; [apply pair_fail_post|]. intros r w' (Hs & -> & Hw). split; [done|].
  rewrite Hw, Ho. clear -Hdis. set_solver.
Qed.

Lemma nt_unix_pair_post type s h :
  post (nt_unix_pair mkntpath type) (s, h) (pair_made (s_ledger h) s).
Proof.
  unfold nt_unix_pair. post_run. destruct a as [nonce|e]; [|post_run; split; [done|cbn [snd]; by rewrite He]].
  destruct (Z.eqb_spec (Z.of_nat (length nonce)) 16) as [Hlen|]; cbn [negb]; [|post_run; split; [done|cbn [snd]; by rewrite He]].
  post_run. destruct (_ <=? _); [post_run; split; [done|cbn [snd]; by rewrite He0, He]|].
  apply post_bind, post_ask_effect. intros [srv|e] h1 _ He1; cbn [call_effect] in He1.
  2: { apply pair_fail_made; [|done]. rewrite He1, He0, He. set_solver. }
  destruct He1 as (_ & Hnsrv & He1). rewrite He0, He in *. set (l := s_ledger h) in *.
  assert (Hf1 : forall h' p, s_ledger h' = s_ledger h1 -> post (pair_fail [srv] p) (s, h') (pair_made l s)).
  { intros h2 p Hl. apply pair_fail_made; [rewrite Hl, He1; simpl; set_solver|]. clear -Hnsrv. set_solver. }
  post_run. case_match; [|by apply Hf1]. post_run. case_match; [|by apply Hf1; rewrite He3, He2].
  apply post_bind, post_ask_effect. intros [cli|e] h2 _ He4; cbn [call_effect] in He4.
  2: { apply Hf1. by rewrite He4, He3, He2. }
  pose proof He4 as (_ & Hncli & He4'). rewrite He3, He2 in *.
  assert (Hopen2 : l_open (s_ledger h2) = {[cli; srv]} ∪ l_open l).
  { rewrite He4', He1. cbn [l_open]. set_solver. }
  assert (Hnew : cli <> srv /\ cli ∉ l_open l).
  { rewrite He1 in Hncli. cbn [l_open] in Hncli. clear -Hncli. set_solver. }
  assert (Hf2 : forall h' p, l_open (s_ledger h') = l_open (s_ledger h2) ->
    post (pair_fail [srv; cli] p) (s, h') (pair_made l s)).
  { intros h3 p Hl. apply pair_fail_made; [rewrite Hl, Hopen2; simpl; set_solver|].
    clear -Hnsrv Hnew. set_solver. }
  post_run. case_match; [|apply Hf2; by rewrite He5].
  apply post_bind. eapply post_impl; [apply send_all_post; lia|].
  intros ok [s3 h3] (Hs3 & Ho3 & _ & Hsent). cbn [fst snd] in *. subst s3. rewrite He5 in *.
  destruct ok; cbn [negb]; [|by apply Hf2]. specialize (Hsent eq_refl).
  assert (Hc0 : sent_on (s_ledger h2) cli = []).
  { rewrite He4'. unfold sent_on. cbn [l_sent]. by rewrite lookup_delete_eq. }
  rewrite Hc0 in Hsent. simpl in Hsent.
  apply post_bind. eapply post_impl; [apply accept_ours_post|].
  intros r [s4 h4] (Hs4 & Hkeep & Hr). cbn [fst snd] in *. subst s4.
  destruct r as [[acc|]|e]; [|apply Hf2; by rewrite Hr, Ho3..].
  destruct Hr as (Hnacc & Ho4 & Hgot). post_run. split; [done|]. cbn [fst snd].
  rewrite He7, He6. cbn [l_open]. rewrite Ho4. rewrite Ho3, Hopen2 in *.
  split_and!; [clear -Hnacc; set_solver|tauto|clear -Hnacc; set_solver|clear -Hnacc Hnew Hnsrv; set_solver|].
  exists nonce. split_and!; [lia| |done].
  change (sent_on (s_ledger h4) cli = nonce). rewrite Hkeep; [done|]. set_solver.
Qed.

Lemma pin_winsock_post s h :
  post (pin_winsock windows) (s, h) (fun _ w' =>
    led w' = s_ledger h /\ ss_pairs (fst w') = ss_pairs s /\ ss_sets (fst w') = ss_sets s).
Proof.
  unfold pin_winsock, state, change. destruct (negb windows); [by apply post_ret|].
  post_run. destruct (ss_pinned s); post_run; [done|]. by rewrite He.
Qed.

Lemma host_pair_post domain type protocol s h :
  post (host_pair domain type protocol) (s, h) (fun r w' => fst w' = s /\
    match r with
    | Ok (a, b) => a <> b /\ a ∉ l_open (s_ledger h) /\ b ∉ l_open (s_ledger h) /\
        l_open (led w') = {[a; b]} ∪ l_open (s_ledger h)
    | Err _ => l_open (led w') = l_open (s_ledger h)
    end).
Proof.
  assert (Hpair : forall l a b l', (exists l1, fresh l a l1 /\ fresh l1 b l') ->
    a <> b /\ a ∉ l_open l /\ b ∉ l_open l /\ l_open l' = {[a; b]} ∪ l_open l).
  { intros l a b l' (l1 & (_ & Ha & ->) & (_ & Hb & ->)). cbn [l_open] in *. clear -Ha Hb. set_solver. }
  unfold host_pair. post_run. destruct a as [[a b]|e].
  - post_run. split; [done|]. by apply Hpair.
  - destruct (_ && _ && _); [|post_run; split; [done|cbn [snd]; by rewrite He]].
    apply post_ask_effect. intros [[a b]|e'] h2 _ He2; cbn [call_effect] in He2; (split; [done|]); cbn [snd].
    + rewrite <- He. by apply Hpair.
    + by rewrite He2, He.
Qed.

(** C15: socketpair leaks nothing, whatever fails. It answers two new
    descriptors and no other was left open, and records the pair for the
    wakers; or it fails, and what was open is what is open, with nothing
    recorded: the listener, the client and every connection the accept loop
    turned away are closed. And the pair built on Windows is connected: what
    its server end has read is exactly what its client end wrote, the nonce
    no other process knows. *)
Theorem socketpair_leaks_nothing domain lin_type type protocol s h :
  post (shim_socketpair windows use_syscalls mkntpath domain lin_type protocol) (s, h) (fun r w' =>
    match r with
    | Ok (a, b) => a <> b /\ a ∉ l_open (s_ledger h) /\ b ∉ l_open (s_ledger h) /\
        l_open (led w') = {[a; b]} ∪ l_open (s_ledger h) /\
        ss_pairs (fst w') = note_pair use_syscalls a b (ss_pairs s)
    | Err _ => l_open (led w') = l_open (s_ledger h) /\ ss_pairs (fst w') = ss_pairs s
    end) /\
  post (nt_unix_pair mkntpath type) (s, h) (fun r w' =>
    match r with
    | Some (cli, acc) => l_open (led w') = {[cli; acc]} ∪ l_open (s_ledger h) /\
        exists nonce, length nonce = 16%nat /\ sent_on (led w') cli = nonce /\ got_on (led w') acc = nonce
    | None => l_open (led w') = l_open (s_ledger h)
    end).
Proof.
  split.
  2: { eapply post_impl; [apply nt_unix_pair_post|]. intros [[cli acc]|] w' [_ Hr]; [|done]. tauto. }
  unfold shim_socketpair. apply post_bind. eapply post_impl; [apply pin_winsock_post|].
  intros _ [s1 h1] (Hl1 & Hp1 & _). cbn [fst snd] in *. rewrite <- Hl1, <- Hp1. clear h s Hl1 Hp1.
  apply post_bind. eapply post_impl with (P := fun r w' => pair_made (s_ledger h1) s1 r w').
  { destruct (_ && _ && _); [apply nt_unix_pair_post|by apply post_ret]. }
  intros made [s2 h2] [Hs2 Hmade]. cbn [fst snd] in *. subst s2.
  apply post_bind. eapply post_impl with (P := fun r w' => fst w' = s1 /\
    match r with
    | Ok (a, b) => a <> b /\ a ∉ l_open (s_ledger h1) /\ b ∉ l_open (s_ledger h1) /\
        l_open (led w') = {[a; b]} ∪ l_open (s_ledger h1)
    | Err _ => l_open (led w') = l_open (s_ledger h1)
    end).
  { destruct made as [[a b]|]; [apply post_ret; split; [done|tauto]|].
    eapply post_impl; [apply host_pair_post|]. intros [[a b]|e] w'; rewrite Hmade; done. }
  intros [[a b]|e] [s3 h3] [Hs3 Hr]; cbn [fst snd] in *; subst s3; [|by apply post_ret].
  destruct Hr as (Hab & Ha & Hb & Ho). apply post_bind.
  eapply post_impl with (P := fun (e : option errno) w' => fst w' = s1 /\ l_open (led w') = l_open (s_ledger h3)).
  { assert (Hset : forall fd h, post (set_nonblock fd) (s1, h) (fun _ w' => fst w' = s1 /\ led w' = s_ledger h)).
    { intros fd h. unfold set_nonblock. post_run. destruct (s_getfl h fd); post_run; done. }
    destruct (has _ _); [|by apply post_ret]. apply post_bind. eapply post_impl; [apply Hset|].
    intros [e|] [s4 h4] [Hs4 Hl4]; cbn [fst snd] in *; subst s4; [apply post_ret; cbn [snd]; by rewrite Hl4|].
    eapply post_impl; [apply Hset|]. intros e w' [Hs5 ->]. by rewrite Hl4. }
  intros [e|] [s4 h4] [Hs4 Ho4]; cbn [fst snd] in *; subst s4.
  - post_run. rewrite He0. cbn [l_open]. rewrite He. cbn [l_open]. rewrite Ho4, Ho.
    split; [|done]. clear -Ha Hb. set_solver.
  - unfold epoll_note_pair, change. post_run. by rewrite Ho4.
Qed.
End pairs_spec.

(** ** What a send asks, in order *)

(** A host that keeps the calls it was asked. *)
Definition asked_call : Type := { A : Type & scall A }.
Definition called {A} (c : scall A) : asked_call := existT A c.

#[export] Instance traced_host {H} `{SockHost H} : SockHost (H * list asked_call) := {|
  s_call A c w := let '(a, h) := s_call A c (fst w) in (a, (h, snd w ++ [called c]));
  s_fd w := s_fd (fst w);
  s_getfl w := s_getfl (fst w) |}.

Section sends.
Context {H : Type} `{SockHost H} `{HostConsts}.
Context (windows bsd xnu use_syscalls : bool) (mkntpath : list Z -> res (list Z)).

Notation W := (sock_state * (H * list asked_call))%type.

(** The calls the replay makes: the options parked for the descriptor, in
    slot order. *)
Definition replays (fd : Z) (d : deferred) : list asked_call :=
  (fun o => called (H_setsockopt fd (d_level o) (d_name o) (Some (le 4 (d_val o))) 4)) <$>
    filter (fun o => of_fd fd o = true) (g_defer d).

Definition the_poll (fd : Z) : asked_call := called (H_poll_now fd (host_const "POLLOUT")).

(** One call of [call], and a second without MSG_NOSIGNAL if Windows refused
    the flag. *)
Definition one_send (call : Z -> scall (res Z)) (flags : Z) (calls : list asked_call) : Prop :=
  let fl := msg_to_host flags in
  calls = [called (call fl)] \/
  windows = true /\ has fl MSG_NOSIGNAL = true /\
    calls = [called (call fl); called (call (Z.ldiff fl MSG_NOSIGNAL))].

Lemma replay_log fd t n h log :
  let '(_, _, w) := replay_slots (set_int (H := H * list asked_call) fd) fd t n (h, log) in
  snd w = log ++ ((fun o => called (H_setsockopt fd (d_level o) (d_name o) (Some (le 4 (d_val o))) 4)) <$>
                    filter (fun o => of_fd fd o = true) t).
Proof.
  revert n h log. induction t as [|d t IH]; intros n h log; cbn [replay_slots]; [by rewrite app_nil_r|].
  rewrite filter_cons. change (d_fd d =? fd) with (of_fd fd d). destruct (of_fd fd d); cbn [negb].
  - rewrite decide_True by done. rewrite fmap_cons.
    unfold set_int at 1. cbn [s_call traced_host fst snd].
    destruct (s_call (res Z) (H_setsockopt fd (d_level d) (d_name d) (Some (le 4 (d_val d))) 4) h) as [r h1].
    destruct (bool_decide _).
    + specialize (IH n h1 (log ++ [called (H_setsockopt fd (d_level d) (d_name d) (Some (le 4 (d_val d))) 4)])).
      destruct (replay_slots _ _ _ _ _) as [[t' n'] w]. by rewrite IH, <- app_assoc.
    + specialize (IH (n - 1) h1 (log ++ [called (H_setsockopt fd (d_level d) (d_name d) (Some (le 4 (d_val d))) 4)])).
      destruct (replay_slots _ _ _ _ _) as [[t' n'] w]. by rewrite IH, <- app_assoc.
  - rewrite decide_False by done. specialize (IH n h log). by destruct (replay_slots _ _ _ _ _) as [[t' n'] w].
Qed.

Lemma sockopt_replay_log fd s h log :
  deferred_ok (ss_deferred s) -> fd <> -1 ->
  exists d h1, sockopt_replay fd (s, (h, log)) = (put_deferred d s, (h1, log ++ replays fd (ss_deferred s))).
Proof.
  intros (Hlen & Hdis & Hn) Hfd. unfold sockopt_replay, nt_sockopt_replay, replays. cbn [fst snd].
  destruct (Z.eqb_spec (g_defer_n (ss_deferred s)) 0) as [Hz|].
  - assert (Hl : live (g_defer (ss_deferred s)) = []) by (apply length_zero_iff_nil; lia).
    assert (Hf : filter (fun o => of_fd fd o = true) (g_defer (ss_deferred s)) = []).
    { clear -Hl Hfd. induction (g_defer _) as [|d t IH]; [done|]. rewrite live_slots_cons in Hl. rewrite filter_cons.
      destruct (of_fd fd d) eqn:Hd; [by rewrite (of_fd_live _ _ Hfd Hd) in Hl|].
      rewrite decide_False by done. apply IH. by destruct (is_live d). }
    rewrite Hf. eexists _, _. by rewrite app_nil_r.
  - pose proof (replay_log fd (g_defer (ss_deferred s)) (g_defer_n (ss_deferred s)) h log) as Hr.
    destruct (replay_slots _ _ _ _ _) as [[t' n'] [h1 log1]]. simpl in Hr. subst log1. by eexists _, _.
Qed.

Lemma with_retry_log flags call (w : W) :
  post (with_retry windows (msg_to_host flags) call) w (fun _ w' =>
    fst w' = fst w /\ exists calls, one_send call flags calls /\ snd (snd w') = snd (snd w) ++ calls).
Proof.
  destruct w as [s [h log]]. unfold with_retry. apply post_bind, post_ask. cbn [s_call traced_host fst snd].
  destruct (s_call (res Z) (call (msg_to_host flags)) h) as [r h1].
  destruct (nosignal_retry windows (msg_to_host flags) r) eqn:Hr.
  - apply post_ask. cbn [s_call traced_host fst snd].
    destruct (s_call (res Z) (call (Z.ldiff (msg_to_host flags) MSG_NOSIGNAL)) h1) as [r2 h2]. cbn [fst snd]. split; [done|].
    eexists. rewrite <- app_assoc. split; [|done]. right. unfold nosignal_retry in Hr.
    destruct r as [|[]]; try done. apply andb_true_iff in Hr as [-> ->]. done.
  - apply post_ret. cbn [fst snd]. split; [done|]. eexists. split; [|done]. by left.
Qed.

(** What a gated send is, given what its body asks: [sends gated calls]. *)
Definition in_order (fd : Z) (s : sock_state) (log : list asked_call) (sends : bool -> list asked_call -> Prop)
    (r : res Z) (w' : W) : Prop :=
  exists gate calls, snd (snd w') = log ++ replays fd (ss_deferred s) ++ gate ++ calls /\
    (gate = [] \/ windows = true /\ gate = [the_poll fd]) /\
    (calls = [] /\ gate = [the_poll fd] /\ r = Err EAGAIN /\
       ss_sets (fst w') = fst (rearm_out use_syscalls fd (ss_sets s)) \/
     sends (negb (bool_decide (gate = []))) calls).

(** The gate's answer, with the state it leaves. *)
Lemma gate_log fd s h log :
  post (nt_wants_eagain windows fd) (s, (h, log)) (fun full w' =>
    fst w' = s /\
    (full = false /\ nt_gated windows fd h = false /\ w' = (s, (h, log)) \/
     nt_gated windows fd h = true /\ snd w' = (snd (s_call _ (H_poll_now fd (host_const "POLLOUT")) h), log ++ [the_poll fd]))).
Proof.
  unfold nt_wants_eagain. apply post_bind, post_reads. cbn [fst snd].
  assert (Hg : nt_gated (H := H * list asked_call) windows fd (h, log) = nt_gated windows fd h) by done.
  rewrite Hg. destruct (nt_gated windows fd h) eqn:E.
  - apply post_bind, post_ask. cbn [s_call traced_host fst snd].
    destruct (s_call (res Z) (H_poll_now fd (host_const "POLLOUT")) h) as [r h1]. apply post_ret. cbn [fst snd].
    split; [done|]. by right.
  - apply post_ret. split; [done|]. by left.
Qed.

Lemma send_result_log fd r want (w : W) :
  post (send_result use_syscalls fd r want) w (fun r' w' => r' = r /\ snd w' = snd w /\
    (r = Err EAGAIN -> ss_sets (fst w') = fst (rearm_out use_syscalls fd (ss_sets (fst w))))).
Proof.
  unfold send_result, change. post_run. split; [done|]. split; [done|]. by intros ->.
Qed.

Lemma gated_send_log fd want body sends s h log :
  deferred_ok (ss_deferred s) -> fd <> -1 ->
  (forall h', nt_gated windows fd (snd (s_call _ (H_poll_now fd (host_const "POLLOUT")) h')) = nt_gated windows fd h') ->
  (forall (w : W), post body w (fun _ w' => fst w' = fst w /\
     exists calls, sends (nt_gated windows fd (fst (snd w))) calls /\ snd (snd w') = snd (snd w) ++ calls)) ->
  post (gated_send windows use_syscalls fd want body) (s, (h, log)) (in_order fd s log sends).
Proof.
  intros Hok Hfd Hfl Hbody. destruct (sockopt_replay_log fd s h log Hok Hfd) as (d & h1 & Hrep).
  unfold gated_send. apply post_bind, post_modifies. rewrite Hrep. apply post_bind.
  eapply post_impl; [apply gate_log|]. intros full [s2 [h2 log2]] [Hs2 Hgate]. cbn [fst snd] in *. subst s2.
  assert (Hgo : forall gate, (gate = [] \/ windows = true /\ gate = [the_poll fd]) ->
    log2 = (log ++ replays fd (ss_deferred s)) ++ gate -> nt_gated windows fd h2 = negb (bool_decide (gate = [])) ->
    post (r ← body; send_result use_syscalls fd r want) (put_deferred d s, (h2, log2)) (in_order fd s log sends)).
  { intros gate Hg Hlog2 Hgt. apply post_bind. eapply post_impl; [apply Hbody|].
    intros r w3 (Hs3 & calls & Hsend & Hlog3). eapply post_impl; [apply send_result_log|].
    intros r' w4 (-> & Hw4 & _). exists gate, calls. rewrite Hw4, Hlog3. cbn [fst snd] in *. rewrite Hgt in Hsend.
    split; [by rewrite Hlog2, <- !app_assoc|]. split; [done|]. by right. }
  destruct Hgate as [(-> & Hng & Hw)|(Hng & Hw)]; injection Hw as -> ->.
  - apply (Hgo []); [by left|by rewrite app_nil_r|done].
  - assert (Hwin : windows = true) by (unfold nt_gated in Hng; by destruct windows).
    destruct full; [|apply (Hgo [the_poll fd]); [by right|done|by rewrite Hfl, Hng]].
    eapply post_impl; [apply send_result_log|]. intros r' w4 (-> & Hw4 & Hsets).
    exists [the_poll fd], []. rewrite Hw4. cbn [fst snd]. rewrite app_nil_r, <- app_assoc.
    split; [done|]. split; [by right|]. left. split_and!; try done. by apply Hsets.
Qed.

Lemma clamped_log fd buf call flags (w : W) :
  post (data ← clamped windows fd buf; with_retry windows (msg_to_host flags) (call data)) w (fun _ w' => fst w' = fst w /\
    exists calls, one_send (call (if nt_gated windows fd (fst (snd w)) then take (Z.to_nat 65536) buf else buf)) flags calls /\
      snd (snd w') = snd (snd w) ++ calls).
Proof.
  unfold clamped. apply post_bind, post_reads.
  assert (Hd : take (Z.to_nat (nt_clamp windows fd (Z.of_nat (length buf)) (snd w))) buf =
    if nt_gated windows fd (fst (snd w)) then take (Z.to_nat 65536) buf else buf).
  { unfold nt_clamp. change (nt_gated (H := H * list asked_call) windows fd (snd w)) with (nt_gated windows fd (fst (snd w))).
    destruct (nt_gated windows fd (fst (snd w))); rewrite ?andb_false_r, ?andb_true_r.
    - destruct (Z.ltb_spec 65536 (Z.of_nat (length buf))); [done|]. rewrite !take_ge by lia. done.
    - rewrite take_ge by lia. done. }
  rewrite Hd. apply with_retry_log.
Qed.

(** every send asks the host in the same order: the descriptor's parked
    options, then, for a nonblocking descriptor on Windows, whether there is
    room, then the data. When there is no room nothing is sent, the answer is
    EAGAIN and the write side is re-armed. Otherwise the data goes out in one
    call, and in a second one without MSG_NOSIGNAL only when Windows refused
    the flag; send and sendto hand over at most 64 KiB of it when the poll
    was asked, sendmsg all of it. *)
Theorem sends_in_order fd buf flags addr alen junk msg s h log :
  deferred_ok (ss_deferred s) -> fd <> -1 ->
  (forall h', nt_gated windows fd (snd (s_call _ (H_poll_now fd (host_const "POLLOUT")) h')) = nt_gated windows fd h') ->
  let data gated := if gated : bool then take (Z.to_nat 65536) buf else buf in
  let to := host_addr windows mkntpath addr alen in
  post (shim_send windows use_syscalls fd buf flags) (s, (h, log))
    (in_order fd s log (fun gated => one_send (H_send fd (data gated)) flags)) /\
  post (shim_sendto windows use_syscalls mkntpath fd buf flags addr alen) (s, (h, log))
    (in_order fd s log (fun gated => one_send (fun fl => H_sendto fd (data gated) fl (fst to) (snd to)) flags)) /\
  post (shim_sendmsg windows bsd xnu use_syscalls mkntpath junk fd msg flags) (s, (h, log))
    (in_order fd s log (fun _ => one_send (H_sendmsg fd (msg_to_send windows bsd xnu mkntpath junk <$> msg)) flags)).
Proof.
  intros Hok Hfd Hfl data to. split_and!; apply gated_send_log; try done.
  - intros w. apply clamped_log.
  - intros w. unfold to. destruct (host_addr windows mkntpath addr alen) as [a l].
    apply (clamped_log fd buf (fun d fl => H_sendto fd d fl a l)).
  - intros w. apply with_retry_log.
Qed.
End sends.

(** ** Options set during a connect *)

Section deferral.
Context {H : Type} `{SockHost H} `{HostConsts}.
Context (bsd xnu use_syscalls : bool) (mkntpath : list Z -> res (list Z)).

Lemma parked_is_replayed fd level name val d :
  deferred_ok d -> fd <> -1 -> parked d !! (fd, level, name) = Some val ->
  called (H_setsockopt fd level name (Some (le 4 val)) 4) ∈ replays fd d.
Proof.
  intros (_ & Hdis & _) Hfd Hp. unfold parked in Hp. apply parked_in_spec in Hp as (i & o & Hi & _ & Hk & <-); [|done].
  unfold opt_key in Hk. injection Hk as <- <- <-. unfold replays.
  apply list_elem_of_fmap. exists o. split; [done|]. apply list_elem_of_filter.
  split; [unfold of_fd; apply Z.eqb_refl|by eapply list_elem_of_lookup_2].
Qed.

(** an option Windows refuses while a connect is in flight is not lost.
    setsockopt answers success if it can be parked, and the refusal only if
    every one of the 32 slots holds another option; from then on getsockopt
    answers the value from the table, whatever the host would say, the
    latest if it was set twice; and the calls a send makes before anything
    else set it. *)
Theorem deferred_option_is_kept fd level name v s h hl hn r h' e :
  deferred_ok (ss_deferred s) -> 0 <= fd -> level <> SHIM_LIN_SOL_PACKET ->
  (level = SHIM_LIN_SOL_SOCKET -> name = SHIM_LIN_SO_REUSEPORT -> host_const "SO_REUSEPORT" <> 0) ->
  sockopt_to_host level name = (hl, hn) ->
  s_call _ (H_setsockopt fd hl hn (Some v) 4) h = (r, h') -> r = Err EINVAL ->
  s_fd h' fd = Some e -> fe_kind e = host_const "kFdSocket" -> fe_connecting e = 1 ->
  let val := rd_int v 0 in
  exists r' s', shim_setsockopt true fd level name (Some v) 4 (s, h) = Some (r', (s', h')) /\
    match r' with
    | Ok x => x = 0 /\ deferred_ok (ss_deferred s') /\
        parked (ss_deferred s') = <[(fd, hl, hn) := val]> (parked (ss_deferred s)) /\
        (forall b cap h2, 4 <= cap ->
           shim_getsockopt bsd fd level name (Some b, Some cap) (s', h2) =
             Some ((Ok 0, (Some (wr 4 b 0 val), Some 4)), (s', h2))) /\
        called (H_setsockopt fd hl hn (Some (le 4 val)) 4) ∈ replays fd (ss_deferred s')
    | Err x => x = EINVAL /\ ss_deferred s' = ss_deferred s /\
        parked (ss_deferred s) !! (fd, hl, hn) = None /\ length (live (g_defer (ss_deferred s))) = DEFER_MAX
    end.
Proof.
  intros Hok Hfd Hlv Hreuse Hto Hcall -> He Hk Hc val. assert (Hfd1 : fd <> -1) by lia.
  pose proof (defer_spec (ss_deferred s) fd hl hn val Hok Hfd1) as Hspec.
  destruct (defer_sockopt fd hl hn val (ss_deferred s)) as [ok d] eqn:Hd.
  exists (if ok then Ok 0 else Err EINVAL), (put_deferred d s). split.
  - unfold shim_setsockopt.
    assert (((level =? SHIM_LIN_SOL_SOCKET) && (name =? SHIM_LIN_SO_REUSEPORT) && (host_const "SO_REUSEPORT" =? 0)) = false) as ->.
    { destruct (Z.eqb_spec level SHIM_LIN_SOL_SOCKET); [|done]. destruct (Z.eqb_spec name SHIM_LIN_SO_REUSEPORT); [|done].
      apply Z.eqb_neq. by apply Hreuse. }
    unfold packet_sockopt. rewrite (proj2 (Z.eqb_neq level _) Hlv). rewrite Hto.
    unfold ask, sock_is_connecting, fd_entry_of, state, change, mbind, M_bind, step, reads, modifies, mret, M_ret.
    cbn [fst snd]. rewrite Hcall. cbn [fst snd]. rewrite He, Hk, Hc, Z.eqb_refl, (proj2 (Z.leb_le 0 fd) Hfd).
    cbn [andb Z.eqb Pos.eqb fst snd]. fold val. rewrite Z.eqb_refl. cbn [andb fst snd]. by rewrite Hd.
  - destruct Hspec as [Hok' Hspec]. destruct ok.
    + split_and!; [done|done|done| |].
      * intros b cap h2 Hcap. unfold shim_getsockopt. rewrite Hto. unfold state. rewrite bind_reads. cbn [fst].
        unfold int_buf. rewrite (proj2 (Z.leb_le 4 cap) Hcap).
        rewrite (deferred_lookup_spec _ _ _ _ Hok' Hfd1). cbn [ss_deferred put_deferred]. rewrite Hspec, lookup_insert_eq.
        done.
      * apply parked_is_replayed; [done|done|]. cbn [ss_deferred put_deferred]. rewrite Hspec. apply lookup_insert_eq.
    + destruct Hspec as (-> & Hnone & Hfull). by split_and!.
Qed.
End deferral.

(** ** write is send

    What io.c was given as an interface, on top of this file; the write calls
    and the console watcher stay the host's. *)
Class WriteCalls (H : Type) := {
  w_write : Z -> list Z -> H -> res Z * H;
  w_writev : Z -> list (list Z) -> H -> res Z * H;
  w_console : Z -> list Z -> Z -> H -> H;
  w_consolev : Z -> list (list Z) -> H -> H }.

Section writes.
Context {H : Type} `{SockHost H} `{HostConsts} `{WriteCalls H}.
Context (windows use_syscalls : bool).

Definition on_host {A} (f : H -> A * H) (w : sock_state * H) : A * (sock_state * H) :=
  let '(a, h) := f (snd w) in (a, (fst w, h)).

#[export] Instance sockets_io : IoWorld (sock_state * H) := {|
  EpollPairs.nt_sockopt_replay := sockopt_replay;
  EpollPairs.nt_wants_eagain fd w := default (false, w) (nt_wants_eagain windows fd w);
  EpollPairs.nt_gated fd w := nt_gated windows fd (snd w);
  EpollPairs.nt_clamp fd n w := nt_clamp windows fd n (snd w);
  h_write fd buf := on_host (w_write fd buf);
  h_writev fd iov := on_host (w_writev fd iov);
  console_wrote fd buf n w := (fst w, w_console fd buf n (snd w));
  console_wrotev fd iov w := (fst w, w_consolev fd iov (snd w));
  io_pairs w := ss_pairs (fst w);
  io_sets w := ss_sets (fst w);
  io_put sets woken w := (wake_sets (sets, woken) (fst w), snd w) |}.

Lemma io_result_send fd r want (w : sock_state * H) :
  io_result use_syscalls fd r want w = send_result use_syscalls fd r want w.
Proof.
  unfold io_result, send_result, change, step, modifies, mbind, M_bind, mret, M_ret. cbn [fst snd io_pairs io_sets io_put sockets_io].
  unfold write_result. cbn [fst snd]. by destruct (match r with Ok _ => _ | Err _ => _ end) as [sets woken].
Qed.

Lemma wants_eagain_total fd (w : sock_state * H) :
  exists x, nt_wants_eagain windows fd w = Some x.
Proof.
  unfold nt_wants_eagain. rewrite bind_reads. destruct (nt_gated _ _ _); [|by eexists].
  unfold ask. rewrite bind_step. by eexists.
Qed.

(** write is send without flags. On a host where write to a socket is send
    with no flags, and nothing watches the console, io.c's write and socket.c's
    send are the same program: the same calls in the same order, the same
    answer and the same interest lists, whatever is parked, full or short. *)
Theorem write_is_send fd buf (w : sock_state * H) :
  (forall fd data h, w_write fd data h = s_call _ (H_send fd data 0) h) ->
  (forall fd data n h, w_console fd data n h = h) ->
  shim_write use_syscalls fd buf w = shim_send windows use_syscalls fd buf 0 w.
Proof.
  intros Hw Hc. unfold shim_write, shim_send, gated_send. rewrite !bind_modifies. cbn [EpollPairs.nt_sockopt_replay sockets_io].
  set (w1 := sockopt_replay fd w). destruct (wants_eagain_total fd w1) as [[full w2] Hfull].
  rewrite bind_step. rewrite (bind_run _ _ _ _ _ Hfull). cbn [EpollPairs.nt_wants_eagain sockets_io].
  rewrite Hfull. cbn [default fst snd]. destruct full; [apply io_result_send|].
  apply bind_ext; [|intros; apply io_result_send].
  unfold write_slice, clamped, with_retry. rewrite !bind_reads. cbn [EpollPairs.nt_clamp h_write sockets_io].
  set (data := take _ buf). assert (Hf0 : msg_to_host 0 = 0) by (unfold msg_to_host; vm_compute; reflexivity).
  unfold ask. rewrite !bind_step. unfold on_host. rewrite Hw, Hf0.
  destruct (s_call (res Z) (H_send fd data 0) (snd w2)) as [r h] eqn:Hs. cbn [fst snd].
  assert (Hn : nosignal_retry windows 0 r = false).
  { unfold nosignal_retry. destruct r as [|[]]; try done. by rewrite has_0_l, andb_false_r. }
  rewrite Hn. destruct (wrote_something r); [|done]. rewrite bind_modifies.
  cbn [console_wrote sockets_io]. by rewrite Hc.
Qed.
End writes.

(** ** Messages from one end to the other *)

Section messages.
Context `{HostConsts}.
Context (windows bsd xnu : bool) (mkntpath : list Z -> res (list Z)).

Lemma over_prefix out c : take (length out) (over out c) = out.
Proof. unfold over. by rewrite take_app_length. Qed.

(** The copy always has room. *)
Lemma control_sent junk c :
  cmsg_consts_ok -> Forall is_byte c -> Z.of_nat (length c) <= CTL_MAX -> Z.of_nat (length junk) = CTL_MAX ->
  exists out, control_to_host bsd xnu junk (Some c) (Z.of_nat (length c)) =
    (if bsd && bool_decide (out = []) then None else Some out, Z.of_nat (length out)) /\
    (if bsd then bsd_cmsgs xnu out else linux_cmsgs out) = xlated cmsg_to_host <$> linux_cmsgs c /\
    Z.of_nat (length out) <= CTL_MAX /\ (bsd = false -> Forall is_byte out).
Proof.
  intros Hok Hb Hlen Hjunk. unfold control_to_host, CTL_MAX in *. rewrite (proj2 (Z.ltb_ge 1024 _)) by lia.
  rewrite Nat2Z.id, firstn_all. destruct bsd.
  - pose proof (to_bsd_spec xnu c junk Hok ltac:(lia)) as Hs. cbv zeta in Hs.
    destruct (cmsgs_to_bsd xnu c junk) as [out|].
    + exists out. destruct Hs as (Hm & _ & Hle). split_and!; [done|done|lia|done].
    + exfalso. pose proof (bsd_total_le xnu c). pose proof (align8_mono _ _ Hlen). change (align8 1024) with 1024 in *. lia.
  - exists (cmsgs_rewrite c true). rewrite length_rewrite. split_and!; [done| |lia|].
    + apply (rewrite_both c true); [done|done|lia].
    + intros _. by apply rewrite_bytes.
Qed.

(** C16: control messages survive the trip. What sendmsg hands to the host
    holds exactly the caller's messages in the host's numbers and layout (the
    translated copy always has room), and when a header with those control
    bytes arrives in a large enough buffer, what recvmsg leaves the receiver
    holds exactly the sender's messages, in either layout. *)
Theorem control_survives junk m c rest nm nml iov fl :
  cmsg_consts_ok -> NoDup (host_values SHIM_IP_TABLE) -> NoDup (host_values SHIM_IPV6_TABLE) ->
  msg_control m = Some c -> msg_controllen m = Z.of_nat (length c) -> Z.of_nat (length c) <= CTL_MAX ->
  Forall is_byte c -> Z.of_nat (length junk) = CTL_MAX -> Forall readable (linux_cmsgs c) ->
  let sent := msg_to_send windows bsd xnu mkntpath junk m in
  let bytes := default [] (msg_control sent) in
  let arrived := Msghdr nm nml iov (Some (bytes ++ rest)) (msg_controllen sent) fl in
  let cap := Z.of_nat (length (bytes ++ rest)) in
  total linux_room (linux_cmsgs c) <= cap ->
  let seen := msg_received bsd xnu cap arrived in
  (if bsd then bsd_cmsgs xnu bytes else linux_cmsgs bytes) = xlated cmsg_to_host <$> linux_cmsgs c /\
  exists buf, msg_control seen = Some buf /\ length buf = length (bytes ++ rest) /\
    linux_cmsgs (take (Z.to_nat (msg_controllen seen)) buf) = linux_cmsgs c.
Proof.
  intros Hok Hip Hip6 Hc Hcl Hlen Hb Hjunk Hread sent bytes arrived cap Hcap seen.
  destruct (control_sent junk c Hok Hb Hlen Hjunk) as (out & Hout & Hmsgs & Hsmall & Hbytes).
  assert (Hsent : msg_control sent = (if bsd && bool_decide (out = []) then None else Some out) /\
                  msg_controllen sent = Z.of_nat (length out)).
  { unfold sent, msg_to_send. rewrite Hc, Hcl, Hout. by destruct (name_to_host _ _ _) as [x y]. }
  destruct Hsent as [Hsc Hsl].
  assert (Hby : bytes = out).
  { unfold bytes. rewrite Hsc. destruct bsd; [|done]. case_bool_decide as Ho; cbn [andb]; [by rewrite Ho|done]. }
  clearbody bytes. subst bytes. split; [done|].
  assert (Hseen : (msg_control seen, msg_controllen seen) = control_back bsd xnu cap arrived).
  { unfold seen, msg_received. by destruct (control_back bsd xnu cap arrived). }
  unfold control_back, arrived in Hseen. cbn [msg_control msg_controllen] in Hseen. rewrite Hsl in Hseen.
  destruct (Z.eqb_spec (Z.of_nat (length out)) 0) as [Hz|Hz].
  { injection Hseen as -> ->. exists (out ++ rest). split_and!; [done|done|].
    destruct out; [|simpl in Hz; lia]. cbn [take Z.to_nat]. rewrite take_0. symmetry.
    destruct (linux_cmsgs c); [done|]. destruct bsd; done. }
  rewrite Nat2Z.id in Hseen. rewrite take_app_length in Hseen.
  rewrite (take_ge (out ++ rest)) in Hseen by (unfold cap; lia).
  destruct bsd.
  - rewrite (proj2 (Z.leb_le _ CTL_MAX)) in Hseen by done. injection Hseen as -> ->.
    destruct (to_linux_spec xnu out (out ++ rest)) as [Hl Hle]; [unfold CTL_MAX in *; lia|].
    eexists. split; [done|]. split; [unfold over; rewrite length_app, length_drop; lia|].
    rewrite Nat2Z.id, over_prefix, Hl, Hmsgs, all_back by done. by apply fitting_all.
  - injection Hseen as -> ->. eexists. split; [done|]. rewrite Nat2Z.id.
    split; [unfold over; rewrite length_app, length_drop, length_rewrite, length_app; lia|].
    rewrite <- (length_rewrite out false), over_prefix.
    rewrite (rewrite_both out false) by (auto; unfold CTL_MAX in *; lia). rewrite Hmsgs. by apply all_back.
Qed.
End messages.

(** ** On a concrete host

    Windows' numbers where they matter here. *)
Definition toy_consts : HostConsts := {|
  host_const name :=
    default 0 (snd <$> List.find (fun row => String.eqb (fst row) name)
      [ ("SHIM_FIX_AF_UNIX"%string, 1); ("SHIM_FIX_AF_INET"%string, 2); ("AF_INET6"%string, 23);
        ("SOCK_STREAM"%string, 1); ("SOCK_SEQPACKET"%string, 5); ("SOCK_CLOEXEC"%string, 0x80000);
        ("SOCK_NONBLOCK"%string, 0x800); ("O_NONBLOCK"%string, 0x800); ("POLLOUT"%string, 0x10);
        ("SOL_SOCKET"%string, 0xffff); ("SHIM_FIX_TCP_NODELAY"%string, 1); ("kFdSocket"%string, 4);
        ("MSG_NOSIGNAL"%string, 0x10000000) ]);
  host_defines _ := true |}.

Definition toy_sockets : sock_state := SockState false deferred_init pkts_init pairs_init [] [].
Definition no_ntpath (_ : list Z) : res (list Z) := Err ENOENT.

(** AF_UNIX, SOCK_STREAM, on Windows: the client is 4 and the server end 5. *)
Lemma socketpair_leaks_nothing_witness :
  exists w', @shim_socketpair _ _ toy_consts true false no_ntpath 1 1 0 (toy_sockets, toy_net_start) = Some (Ok (4, 5), w') /\
    l_open (s_ledger (snd w')) = {[4; 5]} ∪ {[0; 1; 2]}.
Proof.
  destruct (@socketpair_leaks_nothing _ _ _ toy_consts true false no_ntpath 1 1 1 0 toy_sockets toy_net_start) as [Hp _].
  destruct (post_answer _ _ _ (Ok (4, 5)) Hp) as (w' & Hrun & Hr); [vm_compute; reflexivity|].
  exists w'. split; [exact Hrun|]. apply Hr.
Defined.

(** A nonblocking descriptor with no room, then one whose connect is done,
    with an option parked. *)
Definition toy_full : toy_net := ToyNet (Ledger {[0; 1; 2; 3]} ∅ ∅) 0 [] [] false false 0x800.
Definition toy_parked : sock_state := put_deferred (snd (defer_sockopt 3 6 1 1 deferred_init)) toy_sockets.

Lemma sends_in_order_witness :
  exists w', @shim_send _ _ toy_consts true false 3 [104; 105] 0 (toy_parked, (toy_full, [])) = Some (Err EAGAIN, w') /\
    @in_order _ toy_consts true false 3 toy_parked []
      (fun gated => @one_send toy_consts true (H_send 3 (if gated : bool then take (Z.to_nat 65536) [104; 105] else [104; 105])) 0)
      (Err EAGAIN) w'.
Proof.
  pose proof (@defer_spec deferred_init 3 6 1 1 deferred_init_ok ltac:(lia)) as Hd.
  destruct (@sends_in_order _ toy_sock_host toy_consts true false false false no_ntpath 3 [104; 105] 0 None 0 [] None
    toy_parked toy_full []) as [Hs _].
  - unfold toy_parked. cbn [ss_deferred put_deferred].
    destruct (defer_sockopt 3 6 1 1 deferred_init) as [ok d]. apply Hd.
  - discriminate.
  - intros h'. reflexivity.
  - destruct (post_answer _ _ _ (Err EAGAIN) Hs) as (w' & Hrun & Ho); [vm_compute; reflexivity|].
    exists w'. split; [exact Hrun|exact Ho].
Defined.

(** TCP_NODELAY while the connect of descriptor 3 is in flight. *)
Definition toy_connecting : toy_net := ToyNet (Ledger {[0; 1; 2; 3]} ∅ ∅) 0 [] [] true true 0.

Lemma deferred_option_is_kept_witness :
  exists s', @shim_setsockopt _ _ toy_consts true 3 6 1 (Some [1; 0; 0; 0]) 4 (toy_sockets, toy_connecting) =
      Some (Ok 0, (s', toy_connecting)) /\
    @shim_getsockopt _ _ toy_consts false 3 6 1 (Some [9; 9; 9; 9], Some 4) (s', toy_connecting) =
      Some ((Ok 0, (Some [1; 0; 0; 0], Some 4)), (s', toy_connecting)).
Proof.
  destruct (@deferred_option_is_kept _ toy_sock_host toy_consts false 3 6 1 [1; 0; 0; 0] toy_sockets toy_connecting 6 1
    (Err EINVAL) toy_connecting (FdEntry 4 1003 1)) as (r' & s' & Hrun & Hr).
  - exact deferred_init_ok.
  - discriminate.
  - discriminate.
  - intros Hl. discriminate Hl.
  - vm_compute. reflexivity.
  - reflexivity.
  - reflexivity.
  - vm_compute. reflexivity.
  - reflexivity.
  - reflexivity.
  - assert (Hev : fst <$> @shim_setsockopt _ _ toy_consts true 3 6 1 (Some [1; 0; 0; 0]) 4 (toy_sockets, toy_connecting) = Some (Ok 0))
      by (vm_compute; reflexivity).
    rewrite Hrun in Hev. cbn in Hev. injection Hev as ->. destruct Hr as (_ & _ & _ & Hget & _).
    exists s'. split; [exact Hrun|]. apply (Hget [9; 9; 9; 9] 4 toy_connecting). lia.
Defined.

#[local] Instance toy_writes : WriteCalls toy_net := {|
  w_write fd data := s_call _ (H_send fd data 0);
  w_writev fd iov := s_call _ (H_send fd (concat iov) 0);
  w_console _ _ _ h := h; w_consolev _ _ h := h |}.

Lemma write_is_send_witness :
  @shim_write _ (@sockets_io _ _ toy_consts _ true) false 3 [104; 105] (toy_parked, toy_net_start) =
  @shim_send _ _ toy_consts true false 3 [104; 105] 0 (toy_parked, toy_net_start).
Proof. apply (@write_is_send _ _ toy_consts _ true false 3 [104; 105] (toy_parked, toy_net_start)); reflexivity. Defined.

Lemma control_survives_witness :
  let m := Msghdr None 0 [[1]] (Some two_msgs) 48 0 in
  let sent := @msg_to_send xnu_sock false true true no_ntpath (replicate 1024 0) m in
  let bytes := default [] (msg_control sent) in
  let arrived := Msghdr None 0 [[1]] (Some (bytes ++ replicate 16 0)) (msg_controllen sent) 0 in
  exists buf, msg_control (@msg_received xnu_sock true true 48 arrived) = Some buf /\
    linux_cmsgs (take (Z.to_nat (msg_controllen (@msg_received xnu_sock true true 48 arrived))) buf) = linux_cmsgs two_msgs.
Proof.
  destruct (@control_survives xnu_sock false true true no_ntpath (replicate 1024 0)
    (Msghdr None 0 [[1]] (Some two_msgs) 48 0) two_msgs (replicate 16 0) None 0 [[1]] 0) as [_ (buf & Hbuf & _ & Hmsgs)].
  - apply xnu_consts_ok.
  - by apply (bool_decide_unpack _).
  - by apply (bool_decide_unpack _).
  - reflexivity.
  - reflexivity.
  - vm_compute. discriminate.
  - by apply (bool_decide_unpack _).
  - reflexivity.
  - assert (linux_cmsgs two_msgs = [Cmsg 1 1 [7; 0; 0; 0]; Cmsg 0 2 [64; 0; 0; 0]]) as ->
      by by apply (bool_decide_unpack _).
    apply Forall_cons_2; [by left|]. apply Forall_cons_2; [|apply Forall_nil_2]. right.
    split_and!; [discriminate| |discriminate]. intros _. left. by apply (bool_decide_unpack _).
  - vm_compute. discriminate.
  - exists buf. split; [exact Hbuf|exact Hmsgs].
Defined.
