(* ===== verification/Memory.v ===== *)
(** * shim/mmap.c, memory maps

    The translation of MAP_* and MADV_* words, and the reserve/commit scheme
    of Windows: a private PROT_NONE map only reserves address space, and
    mprotect commits what it touches before it hands over to the host. The
    host's address space is a map from page numbers to page states; the
    theorems say which pages the scheme changes, that the region walk ends,
    and that a reservation that cannot be recorded is given back. *)
From S2P Require Import Prelude Host Tables.

(** ** Flag words *)

(** SHIM_MAP_TABLE *)
Definition SHIM_MAP_TABLE : list (string * Z * bool) :=
  [ ("MAP_ANONYMOUS"%string, 32, false);
    ("MAP_FIXED_NOREPLACE"%string, 1048576, false);
    ("MAP_HUGETLB"%string, 262144, false);
    ("MAP_NORESERVE"%string, 16384, true);
    ("MAP_POPULATE"%string, 32768, true);
    ("MAP_LOCKED"%string, 8192, true) ].

Definition SHIM_LIN_MAP_STACK : Z := 131072.
Definition LIN_MAP_FIXED_BITS : Z := 19.

(** SHIM_MADV_TABLE *)
Definition SHIM_MADV_TABLE : list (string * Z) :=
  [ ("SHIM_FIX_MADV_NORMAL"%string, 0);
    ("SHIM_FIX_MADV_RANDOM"%string, 1);
    ("SHIM_FIX_MADV_SEQUENTIAL"%string, 2);
    ("SHIM_FIX_MADV_WILLNEED"%string, 3);
    ("MADV_DONTNEED"%string, 4);
    ("MADV_FREE"%string, 8);
    ("MADV_DONTFORK"%string, 10);
    ("MADV_DOFORK"%string, 11);
    ("MADV_MERGEABLE"%string, 12);
    ("MADV_UNMERGEABLE"%string, 13);
    ("MADV_HUGEPAGE"%string, 14);
    ("MADV_NOHUGEPAGE"%string, 15);
    ("MADV_DONTDUMP"%string, 16);
    ("MADV_DODUMP"%string, 17);
    ("MADV_HWPOISON"%string, 100) ].

(** mmap.h: a bit above every MAP_* value of cosmo's on NT. *)
Definition MAP_APE_RESERVE : Z := 0x20000000.

Section flags.
Context `{HostConsts}.

(** The loop over kMaps: what is left of the Linux word, and the host's. *)
Fixpoint map_rows (tbl : list (string * Z * bool)) (lin host : Z) : res (Z * Z) :=
  match tbl with
  | [] => Ok (lin, host)
  | (name, bit, droppable) :: tbl' =>
      if negb (has lin bit) then map_rows tbl' lin host
      else
        let lin := Z.ldiff lin bit in
        if negb (host_const name =? 0) then map_rows tbl' lin (Z.lor host (host_const name))
        else if negb droppable then Err EOPNOTSUPP
        else map_rows tbl' lin host
  end.

Definition mmap_flags (lin : Z) : res Z :=
  let host := Z.land lin LIN_MAP_FIXED_BITS in
  let lin := Z.ldiff (Z.ldiff lin LIN_MAP_FIXED_BITS) SHIM_LIN_MAP_STACK in
  match map_rows SHIM_MAP_TABLE lin host with
  | Err e => Err e
  | Ok (lin, host) => if negb (lin =? 0) then Err EINVAL else Ok host
  end.
End flags.

(** ** The host's memory calls *)

(** struct NtMemoryBasicInformation *)
Record mbi := Mbi { BaseAddress : Z; RegionSize : Z; State : Z; Type_ : Z }.

Class NtMemory (W : Type) := {
  mem_windows : bool;
  PROT_NONE : Z;
  prot2nt : Z -> bool -> Z;
  kNtMemReserve : Z; kNtMemCommit : Z; kNtMemRelease : Z; kNtMemPrivate : Z; kNtPageNoaccess : Z;
  VirtualQuery : Z -> W -> option mbi;
  VirtualAlloc : Z -> Z -> Z -> Z -> W -> Z * W;   (* address, size, type, protection; 0 on failure *)
  VirtualFree : Z -> Z -> Z -> W -> W;
  maps_lock : W -> W;
  maps_unlock : W -> W;
  maps_track : Z -> Z -> Z -> Z -> W -> bool * W;
  h_mmap : Z -> Z -> Z -> Z -> Z -> Z -> W -> res Z * W;
  h_mprotect : Z -> Z -> Z -> W -> res Z * W;
  h_madvise : Z -> Z -> Z -> W -> res Z * W }.

Section calls.
Context `{HostConsts} {W : Type} `{NtMemory W}.

Definition shim_madvise (addr len lin : Z) : M W (res Z) :=
  match List.find (fun row => snd row =? lin) SHIM_MADV_TABLE with
  | Some (name, _) => step (h_madvise addr len (s32 (host_const name)))
  | None => mret (Err EINVAL)
  end.

Definition reserve_nt (len host : Z) : M W (res Z) :=
  p ← step (VirtualAlloc 0 len kNtMemReserve kNtPageNoaccess);
  if p =? 0 then mret (Err ENOMEM)
  else
    _ ← modifies maps_lock;
    ok ← step (maps_track p len PROT_NONE (Z.lor host MAP_APE_RESERVE));
    _ ← modifies maps_unlock;
    if (ok : bool) then mret (Ok p)
    else
      _ ← modifies (VirtualFree p 0 kNtMemRelease);
      mret (Err ENOMEM).

Definition shim_mmap (addr len prot lin fd off : Z) : M W (res Z) :=
  match mmap_flags lin with
  | Err e => mret (Err e)
  | Ok host =>
      if mem_windows && (prot =? PROT_NONE) && negb (len =? 0) && negb (has host (host_const "MAP_FIXED")) &&
         has host (host_const "MAP_PRIVATE") && has host (host_const "MAP_ANONYMOUS")
      then reserve_nt len host
      else step (h_mmap addr len prot host fd off)
  end.

(** One turn of the region walk: what VirtualQuery answered for [p], and
    the commit where that is reserved private memory. *)
Fixpoint commit_loop (fuel : nat) (p stop page : Z) : M W (res unit) :=
  if negb (p <? stop) then mret (Ok tt)
  else
    info ← reads (VirtualQuery p);
    match info with
    | None => mret (Ok tt)
    | Some info =>
        match fuel with
        | O => out_of_fuel
        | S fuel =>
            let re := Z.min (BaseAddress info + RegionSize info) stop in
            if (State info =? kNtMemReserve) && (Type_ info =? kNtMemPrivate) then
              r ← step (VirtualAlloc p (re - p) kNtMemCommit page);
              if r =? 0 then mret (Err ENOMEM) else commit_loop fuel re stop page
            else commit_loop fuel re stop page
        end
    end.

(** At most a turn for each page; the end is a 64-bit address. *)
Definition commit_nt (addr len prot : Z) : M W (res unit) :=
  commit_loop (S (Z.to_nat (len / 4096))) addr ((addr + len) mod 2 ^ 64) (prot2nt prot false).

Definition shim_mprotect (addr len prot : Z) : M W (res Z) :=
  if mem_windows && negb (prot =? PROT_NONE) && negb (len =? 0) && (Z.land addr 4095 =? 0) then
    r ← commit_nt addr len prot;
    match r with
    | Err e => mret (Err e)
    | Ok _ => step (h_mprotect addr len prot)
    end
  else step (h_mprotect addr len prot).
End calls.

(** ** What the flag walk answers *)

Section words.
Context `{HostConsts}.

Definition bit_of (r : string * Z * bool) : Z := snd (fst r).
Definition host_of (r : string * Z * bool) : Z := host_const (fst (fst r)).

(** A row the caller set that the host cannot do without losing meaning. *)
Definition refused (lin : Z) (r : string * Z * bool) : bool :=
  has lin (bit_of r) && (host_of r =? 0) && negb (snd r).

Definition asked (lin : Z) (r : string * Z * bool) : Z := if has lin (bit_of r) then host_of r else 0.

Definition or_all (f : string * Z * bool -> Z) (tbl : list (string * Z * bool)) : Z := foldr Z.lor 0 (f <$> tbl).

Definition disjoint_bits (tbl : list (string * Z * bool)) : Prop :=
  ForallOrdPairs (fun a b => Z.land (bit_of a) (bit_of b) = 0) tbl.

Lemma has_ldiff x b c : Z.land b c = 0 -> has (Z.ldiff x b) c = has x c.
Proof.
  intros Hbc. unfold has. f_equal. f_equal. apply Z.bits_inj'. intros i Hi.
  rewrite !Z.land_spec, Z.ldiff_spec. apply (f_equal (fun z => Z.testbit z i)) in Hbc.
  rewrite Z.land_spec, Z.bits_0 in Hbc. destruct (Z.testbit x i), (Z.testbit b i), (Z.testbit c i); done.
Qed.

Lemma rows_ldiff tbl lin b : Forall (fun r => Z.land b (bit_of r) = 0) tbl ->
  existsb (refused (Z.ldiff lin b)) tbl = existsb (refused lin) tbl /\
  or_all (asked (Z.ldiff lin b)) tbl = or_all (asked lin) tbl.
Proof.
  induction 1 as [|r tbl Hr _ [IH1 IH2]]; [done|]. unfold or_all in *. cbn [existsb fmap list_fmap foldr].
  rewrite IH1, IH2. unfold refused, asked. by rewrite !(has_ldiff lin b) by done.
Qed.

Lemma map_rows_spec tbl lin host : disjoint_bits tbl ->
  map_rows tbl lin host =
  if existsb (refused lin) tbl then Err EOPNOTSUPP
  else Ok (Z.ldiff lin (or_all bit_of tbl), Z.lor host (or_all (asked lin) tbl)).
Proof.
  intros Hd. revert lin host. induction Hd as [|r tbl Hr Hd IH]; intros lin host.
  { unfold or_all. cbn. by rewrite Z.ldiff_0_r, Z.lor_0_r. }
  destruct r as [[name bit] droppable]. destruct (rows_ldiff tbl lin bit Hr) as [H1 H2].
  cbn [map_rows existsb]. unfold refused at 1. cbn [snd].
  unfold or_all at 1 2. cbn [fmap list_fmap foldr]. fold (or_all bit_of tbl). fold (or_all (asked lin) tbl).
  unfold asked at 1. change (bit_of (name, bit, droppable)) with bit.
  change (host_of (name, bit, droppable)) with (host_const name). rewrite <- Z.ldiff_ldiff_l.
  destruct (has lin bit) eqn:Eb; cbn [negb andb orb].
  - destruct (host_const name =? 0) eqn:E0; cbn [negb andb orb].
    + destruct droppable; cbn [negb orb]; [|done]. apply Z.eqb_eq in E0. rewrite IH, H1, H2, E0. by rewrite Z.lor_0_l.
    + rewrite IH, H1, H2. by rewrite Z.lor_assoc.
  - rewrite IH, Z.lor_0_l. apply has_false in Eb.
    replace (Z.ldiff lin bit) with lin; [done|]. apply Z.bits_inj'. intros i Hi. rewrite Z.ldiff_spec.
    apply (f_equal (fun z => Z.testbit z i)) in Eb. rewrite Z.land_spec, Z.bits_0 in Eb.
    destruct (Z.testbit lin i), (Z.testbit bit i); done.
Qed.

Lemma map_bits_disjoint : disjoint_bits SHIM_MAP_TABLE.
Proof. unfold disjoint_bits, SHIM_MAP_TABLE. repeat (constructor; [repeat constructor|]). constructor. Qed.

(** The bits mmap knows at all. *)
Definition known_bits : Z := Z.lor (Z.lor LIN_MAP_FIXED_BITS SHIM_LIN_MAP_STACK) (or_all bit_of SHIM_MAP_TABLE).

(** mmap's flag word: refused with EOPNOTSUPP when it asks for a semantic
    bit the host lacks, with EINVAL when it has a bit mmap does not know,
    and otherwise the mapping type as it is with exactly the host's bits for
    the flags asked for; hints the host lacks are dropped. *)
Theorem mmap_flags_exact lin :
  mmap_flags lin =
  if existsb (refused lin) SHIM_MAP_TABLE then Err EOPNOTSUPP
  else if negb (Z.ldiff lin known_bits =? 0) then Err EINVAL
  else Ok (Z.lor (Z.land lin LIN_MAP_FIXED_BITS) (or_all (asked lin) SHIM_MAP_TABLE)).
Proof.
  unfold mmap_flags. rewrite map_rows_spec by apply map_bits_disjoint.
  assert (H1 : Forall (fun r => Z.land LIN_MAP_FIXED_BITS (bit_of r) = 0) SHIM_MAP_TABLE) by (repeat constructor).
  assert (H2 : Forall (fun r => Z.land SHIM_LIN_MAP_STACK (bit_of r) = 0) SHIM_MAP_TABLE) by (repeat constructor).
  destruct (rows_ldiff _ (Z.ldiff lin LIN_MAP_FIXED_BITS) _ H2) as [-> ->].
  destruct (rows_ldiff _ lin _ H1) as [-> ->].
  destruct (existsb _ _); [done|]. unfold known_bits. by rewrite !Z.ldiff_ldiff_l.
Qed.
End words.

(** ** The host's address space *)

(** A page: free, reserved (privately or not), or backed by memory. *)
Inductive page := Free | Reserved (private : bool) | Committed (prot : Z).

#[export] Instance page_eq_dec : EqDecision page.
Proof. solve_decision. Defined.

(** An entry of cosmo's table of maps. *)
Record map_entry := MapEntry { me_addr : Z; me_len : Z; me_prot : Z; me_flags : Z }.

(** Page [i] has bytes in [p .. q). *)
Definition in_span (p q i : Z) : bool := (p <? 4096 * (i + 1)) && (4096 * i <? q).

Definition aligned (p : Z) : Prop := exists k, p = 4096 * k.

(** [p .. q) committed: its reserved private pages, and no other. *)
Definition committed (p q prot : Z) (f : Z -> page) (i : Z) : page :=
  if in_span p q i && bool_decide (f i = Reserved true) then Committed prot else f i.

(** What the host promises: VirtualQuery describes a run of equal pages from
    the one it was asked about on; committing changes the pages of the span
    and nothing when it fails; reserving finds free pages and is undone by
    releasing its base address. *)
Class NtPages (W : Type) `{NtMemory W} := {
  pages : W -> Z -> page;
  reservations : W -> gmap Z Z;
  tracked : W -> list map_entry;
  query_run p w info : VirtualQuery p w = Some info ->
    BaseAddress info <= p < BaseAddress info + RegionSize info /\
    aligned (BaseAddress info + RegionSize info) /\
    forall i, in_span p (BaseAddress info + RegionSize info) i = true ->
      (State info = kNtMemReserve /\ Type_ info = kNtMemPrivate <-> pages w i = Reserved true);
  commit_pages p n prot w : aligned p -> 0 < n ->
    let '(r, w') := VirtualAlloc p n kNtMemCommit prot w in
    reservations w' = reservations w /\ tracked w' = tracked w /\
    forall i, pages w' i = if negb (r =? 0) && in_span p (p + n) i then Committed prot else pages w i;
  reserve_pages n w :
    let '(r, w') := VirtualAlloc 0 n kNtMemReserve kNtPageNoaccess w in
    tracked w' = tracked w /\
    if r =? 0 then reservations w' = reservations w /\ pages w' = pages w
    else
      aligned r /\ reservations w !! r = None /\ reservations w' = <[r := n]> (reservations w) /\
      (forall i, in_span r (r + n) i = true -> pages w i = Free) /\
      forall i, pages w' i = if in_span r (r + n) i then Reserved true else pages w i;
  release_pages p n w : reservations w !! p = Some n ->
    let w' := VirtualFree p 0 kNtMemRelease w in
    reservations w' = delete p (reservations w) /\ tracked w' = tracked w /\
    forall i, pages w' i = if in_span p (p + n) i then Free else pages w i;
  lock_keeps w : let w' := maps_lock w in
    pages w' = pages w /\ reservations w' = reservations w /\ tracked w' = tracked w;
  unlock_keeps w : let w' := maps_unlock w in
    pages w' = pages w /\ reservations w' = reservations w /\ tracked w' = tracked w;
  track_adds p n prot flags w :
    let '(ok, w') := maps_track p n prot flags w in
    pages w' = pages w /\ reservations w' = reservations w /\
    tracked w' = (if ok then [MapEntry p n prot flags] else []) ++ tracked w }.

Section space.
Context `{HostConsts} {W : Type} `{!NtMemory W} `{!NtPages W}.

Lemma committed_none p prot f i : aligned p -> committed p p prot f i = f i.
Proof.
  intros [k ->]. unfold committed, in_span. destruct (_ && (_ <? _)) eqn:E; [|done].
  apply andb_prop in E as [E1 E2]. lia.
Qed.

Lemma in_span_split p re q i : p <= re <= q -> aligned re \/ re = q ->
  in_span p q i = in_span p re i || in_span re q i.
Proof.
  intros Hr [ [k ->] | -> ]; unfold in_span.
  - apply eq_bool_prop_intro; rewrite !orb_True, !andb_True, !Is_true_true. lia.
  - destruct (q <? 4096 * (i + 1)) eqn:E1, (4096 * i <? q) eqn:E2; rewrite ?andb_false_r, ?andb_true_r, ?orb_false_r; try done.
    destruct (p <? _) eqn:E3; [done|lia].
Qed.

(** A committed piece followed by another is the whole. *)
Lemma committed_trans p re q prot f i : p <= re <= q -> aligned re \/ re = q ->
  committed re q prot (committed p re prot f) i = committed p q prot f i.
Proof.
  intros Hr Ha. unfold committed. rewrite (in_span_split p re q i Hr Ha).
  destruct (in_span p re i), (in_span re q i); cbn [andb orb]; try done; repeat case_bool_decide; try done.
Qed.

Lemma committed_ext p q prot f g i : (forall j, f j = g j) -> committed p q prot f i = committed p q prot g i.
Proof. intros Hfg. unfold committed. by rewrite !Hfg. Qed.

(** What the walk has done when it stops at [q]. *)
Definition walked (p stop prot : Z) (w : W) (r : res unit) (w' : W) : Prop :=
  exists q, p <= q <= stop /\ (aligned q \/ q = stop) /\
    reservations w' = reservations w /\ tracked w' = tracked w /\
    (forall i, pages w' i = committed p q prot (pages w) i) /\
    match r with
    | Ok _ => q = stop \/ VirtualQuery q w' = None
    | Err e => e = ENOMEM /\ q < stop
    end.

Lemma walked_step p re stop prot w w1 r w2 :
  p <= re <= stop -> aligned re \/ re = stop ->
  reservations w1 = reservations w -> tracked w1 = tracked w ->
  (forall i, pages w1 i = committed p re prot (pages w) i) ->
  walked re stop prot w1 r w2 -> walked p stop prot w r w2.
Proof.
  intros Hr Ha Hres Htr Hp (q & Hq & Haq & Hres2 & Htr2 & Hp2 & Hend).
  exists q. split_and!; [lia|lia|done|congruence|congruence| |done].
  intros i. rewrite Hp2, (committed_ext _ _ _ _ _ i Hp). apply committed_trans; [lia|].
  destruct Ha as [?| -> ]; [by left|right; lia].
Qed.

Lemma walked_here p stop prot w r : p <= stop -> aligned p ->
  match r with Ok _ => p = stop \/ VirtualQuery p w = None | Err e => e = ENOMEM /\ p < stop end ->
  walked p stop prot w r w.
Proof.
  intros Hp Ha Hr. exists p. split_and!; try done; [by left|]. intros i. symmetry. by apply committed_none.
Qed.

Lemma commit_loop_post fuel p stop prot w :
  aligned p -> p <= stop -> stop - p <= 4096 * Z.of_nat fuel ->
  post (commit_loop fuel p stop prot) w (walked p stop prot w).
Proof.
  revert p w. induction fuel as [|fuel IH]; intros p w Ha Hle Hf; cbn [commit_loop];
    (destruct (p <? stop) eqn:El; cbn [negb];
     [|apply post_ret, walked_here; [lia|done|left; lia]]); [lia|].
  apply post_bind, post_reads. destruct (VirtualQuery p w) as [info|] eqn:Eq;
    [|apply post_ret, walked_here; [lia|done|by right]].
  destruct (query_run p w info Eq) as (Hb & Hal & Hrun). set (e := BaseAddress info + RegionSize info) in *.
  set (re := Z.min e stop). assert (Hre : p < re <= stop) by lia.
  assert (Hare : aligned re \/ re = stop) by (unfold re; destruct (Z.min_spec e stop) as [[_ ->]|[_ ->]]; auto).
  assert (Hnext : forall w1, reservations w1 = reservations w -> tracked w1 = tracked w ->
    (forall i, pages w1 i = committed p re prot (pages w) i) ->
    post (commit_loop fuel re stop prot) w1 (walked p stop prot w)).
  { intros w1 H1 H2 H3. destruct (decide (re = stop)) as [E|Hne].
    - assert (Hstop : post (commit_loop fuel re stop prot) w1 (fun r w' => r = Ok tt /\ w' = w1)).
      { destruct fuel; cbn [commit_loop]; rewrite E, Z.ltb_irrefl; by apply post_ret. }
      eapply post_impl; [exact Hstop|]. intros r w2 [-> ->]. exists stop. rewrite E in H3. split_and!; auto; lia.
    - destruct Hare as [Hare|]; [|done]. eapply post_impl; [apply IH; [done|lia|]|].
      + destruct Ha as [a ->], Hare as [b Hb']. rewrite Hb' in *. lia.
      + intros r w2. apply walked_step; auto; lia. }
  assert (Hspan : forall i, in_span p re i = true -> in_span p e i = true) by (intros i; unfold in_span; lia).
  destruct (_ && _) eqn:Es.
  - apply andb_prop in Es as [Es1%Z.eqb_eq Es2%Z.eqb_eq].
    apply post_bind, post_step. pose proof (commit_pages p (re - p) prot w Ha ltac:(lia)) as Hc.
    destruct (VirtualAlloc _ _ _ _ _) as [a w1]. destruct Hc as (Hr1 & Ht1 & Hp1).
    replace (p + (re - p)) with re in Hp1 by lia. destruct (a =? 0).
    + apply post_ret. exists p. split; [lia|]. split; [by left|]. split_and!; try done; [|lia].
      intros i. rewrite Hp1. symmetry. by apply committed_none.
    + apply Hnext; [done..|]. intros i. rewrite Hp1. cbn [negb andb]. unfold committed.
      destruct (in_span p re i) eqn:Ei; [|done]. rewrite bool_decide_true; [done|].
      apply (Hrun i); [by apply Hspan|done].
  - apply Hnext; [done..|]. intros i. unfold committed.
    destruct (in_span p re i) eqn:Ei; [|done]. case_bool_decide as Ep; [|done].
    apply (Hrun i) in Ep as [E1 E2]; [|by apply Hspan]. rewrite E1, E2, !Z.eqb_refl in Es. done.
Qed.

(** On Windows an mprotect that opens a page-aligned range, all of it
    described by VirtualQuery, ends, and either every reserved private page
    with bytes in the range is committed with the asked protection, and no
    other page touched, before the host's mprotect is called; or it answers
    ENOMEM with the commit done only up to some point of the range. *)
Theorem mprotect_commits addr len prot w :
  mem_windows = true -> prot <> PROT_NONE -> 0 < len -> aligned addr -> 0 <= addr -> addr + len < 2 ^ 64 ->
  (forall q w', addr <= q < addr + len -> VirtualQuery q w' <> None) ->
  (exists w1, (forall i, pages w1 i = committed addr (addr + len) (prot2nt prot false) (pages w) i) /\
     reservations w1 = reservations w /\ tracked w1 = tracked w /\
     shim_mprotect addr len prot w = step (h_mprotect addr len prot) w1) \/
  (exists q w1, addr <= q < addr + len /\
     (forall i, pages w1 i = committed addr q (prot2nt prot false) (pages w) i) /\
     shim_mprotect addr len prot w = Some (Err ENOMEM, w1)).
Proof.
  intros Hwin Hprot Hlen Ha H0 Hbound Hq. unfold shim_mprotect.
  assert (Hal : Z.land addr 4095 =? 0 = true).
  { destruct Ha as [k ->]. apply Z.eqb_eq. change 4095 with (Z.ones 12). rewrite Z.land_ones by lia.
    change (2 ^ 12) with 4096. rewrite Z.mul_comm. apply Z.mod_mul. lia. }
  rewrite Hwin, Hal, (proj2 (Z.eqb_neq _ _) Hprot). replace (len =? 0) with false by lia. cbn [negb andb].
  unfold commit_nt. rewrite (Z.mod_small (addr + len)) by lia.
  pose proof (Z.div_mod len 4096 ltac:(lia)) as Hdm. pose proof (Z.mod_pos_bound len 4096 ltac:(lia)) as Hmb.
  pose proof (commit_loop_post (S (Z.to_nat (len / 4096))) addr (addr + len) (prot2nt prot false) w Ha) as Hp.
  specialize (Hp ltac:(lia) ltac:(lia)). apply post_run in Hp as (r & w1 & Hrun & q & Hq1 & Hq2 & Hr & Ht & Hpg & Hend).
  destruct r as [[]|e].
  - left. exists w1. assert (q = addr + len) as ->.
    { destruct Hend as [|Hno]; [done|]. destruct (decide (q = addr + len)); [done|]. by destruct (Hq q w1 ltac:(lia)). }
    split_and!; try done. by rewrite (bind_run _ _ _ _ _ Hrun).
  - right. destruct Hend as [-> Hlt]. exists q, w1. split_and!; [lia|lia|done|]. by rewrite (bind_run _ _ _ _ _ Hrun).
Qed.

(** A reservation answers a span of address space that was free and is
    now reserved, recorded in the table of maps with the bit fork looks for;
    when it fails nothing is left behind, no page, no reservation and no
    record. *)
Theorem reserve_leaks_nothing len host w :
  post (reserve_nt len host) w (fun r w' =>
    match r with
    | Ok p =>
        aligned p /\ (forall i, in_span p (p + len) i = true -> pages w i = Free) /\
        (forall i, pages w' i = if in_span p (p + len) i then Reserved true else pages w i) /\
        tracked w' = MapEntry p len PROT_NONE (Z.lor host MAP_APE_RESERVE) :: tracked w
    | Err e =>
        e = ENOMEM /\ (forall i, pages w' i = pages w i) /\ reservations w' = reservations w /\ tracked w' = tracked w
    end).
Proof.
  unfold reserve_nt. apply post_bind, post_step. pose proof (reserve_pages len w) as Hr.
  destruct (VirtualAlloc _ _ _ _ _) as [p w1]. destruct Hr as [Ht1 Hr].
  destruct (p =? 0); [destruct Hr as [Hr1 Hp1]; apply post_ret; by rewrite Hp1|].
  destruct Hr as (Ha & Hnew & Hr1 & Hfree & Hp1).
  apply post_bind, post_modifies, post_bind, post_step. destruct (lock_keeps w1) as (Hp2 & Hr2 & Ht2).
  pose proof (track_adds p len PROT_NONE (Z.lor host MAP_APE_RESERVE) (maps_lock w1)) as Ht.
  destruct (maps_track _ _ _ _ _) as [ok w3]. destruct Ht as (Hp3 & Hr3 & Ht3).
  apply post_bind, post_modifies. destruct (unlock_keeps w3) as (Hp4 & Hr4 & Ht4). destruct ok.
  - apply post_ret. split_and!; [done|done| |by rewrite Ht4, Ht3, Ht2, Ht1].
    intros i. by rewrite Hp4, Hp3, Hp2, Hp1.
  - apply post_bind, post_modifies, post_ret.
    assert (Hhas : reservations (maps_unlock w3) !! p = Some len) by (rewrite Hr4, Hr3, Hr2, Hr1; apply lookup_insert_eq).
    destruct (release_pages p len _ Hhas) as (Hr5 & Ht5 & Hp5). split_and!; [done| | |].
    + intros i. rewrite Hp5, Hp4, Hp3, Hp2, Hp1. destruct (in_span _ _ i) eqn:Ei; [by rewrite Hfree|done].
    + rewrite Hr5, Hr4, Hr3, Hr2, Hr1. by apply delete_insert_id.
    + by rewrite Ht5, Ht4, Ht3, Ht2, Ht1.
Qed.
End space.

(** ** A small address space *)

Record space := Space { sp_page : Z -> page; sp_resv : gmap Z Z; sp_maps : list map_entry; sp_next : Z }.

Definition page_info (p : Z) (w : space) : mbi :=
  let '(st, ty) := match sp_page w (p / 4096) with
                   | Free => (0x10000, 0) | Reserved true => (0x2000, 0x20000)
                   | Reserved false => (0x2000, 0x40000) | Committed _ => (0x1000, 0x20000)
                   end in
  Mbi (4096 * (p / 4096)) 4096 st ty.

Definition space_alloc (p n type prot : Z) (w : space) : Z * space :=
  if type =? 0x1000 then
    (1, Space (fun i => if in_span p (p + n) i then Committed prot else sp_page w i) (sp_resv w) (sp_maps w) (sp_next w))
  else
    let r := 4096 * sp_next w in
    if (r =? 0) || negb (bool_decide (sp_resv w !! r = None)) ||
       negb (forallb (fun i => bool_decide (sp_page w i = Free)) (seqZ (sp_next w) (n / 4096 + 1)))
    then (0, w)
    else (r, Space (fun i => if in_span r (r + n) i then Reserved true else sp_page w i)
               (<[r := n]> (sp_resv w)) (sp_maps w) (sp_next w + n / 4096 + 1)).

#[local] Instance toy_memory : NtMemory space := {|
  mem_windows := true; PROT_NONE := 0; prot2nt p _ := 2 * p;
  kNtMemReserve := 0x2000; kNtMemCommit := 0x1000; kNtMemRelease := 0x8000; kNtMemPrivate := 0x20000; kNtPageNoaccess := 1;
  VirtualQuery p w := Some (page_info p w);
  VirtualAlloc := space_alloc;
  VirtualFree p _ _ w :=
    match sp_resv w !! p with
    | Some n => Space (fun i => if in_span p (p + n) i then Free else sp_page w i) (delete p (sp_resv w)) (sp_maps w) (sp_next w)
    | None => w
    end;
  maps_lock w := w; maps_unlock w := w;
  maps_track p n prot flags w :=
    if (length (sp_maps w) <? 2)%nat
    then (true, Space (sp_page w) (sp_resv w) (MapEntry p n prot flags :: sp_maps w) (sp_next w))
    else (false, w);
  h_mmap _ _ _ _ _ _ w := (Ok 0, w); h_mprotect _ _ _ w := (Ok 0, w); h_madvise _ _ _ w := (Ok 0, w) |}.

#[local] Instance toy_pages : NtPages space.
Proof.
  refine {| pages := sp_page; reservations := sp_resv; tracked := sp_maps |}; try done.
  - intros p w info [= <-]. unfold page_info.
    pose proof (Z.div_mod p 4096 ltac:(lia)). pose proof (Z.mod_pos_bound p 4096 ltac:(lia)).
    assert (Hi : forall i, in_span p (4096 * (p / 4096) + 4096) i = true -> i = p / 4096) by (intros i; unfold in_span; lia).
    destruct (sp_page w (p / 4096)) as [|[]|] eqn:E; cbn [BaseAddress RegionSize State Type_];
      (split_and!; [lia|lia|exists (p / 4096 + 1); lia|]); intros i ->%Hi; rewrite E; split; (done || by intros []).
  - intros n w. cbn. unfold space_alloc. cbn [Z.eqb Pos.eqb].
    destruct (_ || _) eqn:E; [done|]. apply orb_false_elim in E as [E E3]. apply orb_false_elim in E as [E1 E2].
    rewrite E1. apply negb_false_iff, bool_decide_eq_true in E2. apply negb_false_iff in E3.
    split_and!; [done|by eexists|done|done| |done].
    intros i Hi. rewrite forallb_forall in E3. specialize (E3 i). rewrite bool_decide_eq_true in E3. apply E3.
    apply list_elem_of_In, elem_of_seqZ. unfold in_span in Hi.
    pose proof (Z.div_mod n 4096 ltac:(lia)). pose proof (Z.mod_pos_bound n 4096 ltac:(lia)). lia.
  - intros p n w Hp. cbn. change (sp_resv w !! p = Some n) in Hp. by rewrite Hp.
  - intros p n prot flags w. cbn [maps_track toy_memory]. by destruct (length (sp_maps w) <? 2)%nat.
Defined.

(** Pages 16 to 19 reserved; the program opens a page and a half of them. *)
Definition some_space : space :=
  Space (fun i => if (16 <=? i) && (i <? 20) then Reserved true else Free) {[ 65536 := 16384 ]} [] 32.

Lemma mprotect_commits_witness : exists w', shim_mprotect 69632 6000 3 some_space = Some (Ok 0, w') /\
  map (sp_page w') (seqZ 16 4) = [Reserved true; Committed 6; Committed 6; Reserved true].
Proof.
  destruct (mprotect_commits 69632 6000 3 some_space) as [(w1 & Hp & _ & _ & Hrun)|(q & w1 & _ & _ & Hrun)];
    [done|done|lia|by exists 17|lia|lia|done| |by vm_compute in Hrun].
  exists w1. split; [exact Hrun|]. cbn [map seqZ]. change (map (sp_page w1) [16; 17; 18; 19] = [Reserved true; Committed 6; Committed 6; Reserved true]).
  cbn [map]. change (sp_page w1) with (pages w1). by rewrite !Hp.
Defined.
