(* ===== verification/Futex.v ===== *)
(** * shim/futex.c and shim/ulock.c

    libc::syscall() for the futex operations and getrandom, and macOS's wait
    primitive under cosmo's futex. The specification is the futex manual
    page's: the operation without its two flags, deadlines as points in
    time; the code is proved to implement it. *)
From S2P Require Import Prelude Host.

(** tables.h *)
Definition SHIM_LIN_SYS_futex (x86_64 : bool) : Z := if x86_64 then 202 else 98.
Definition SHIM_LIN_SYS_getrandom (x86_64 : bool) : Z := if x86_64 then 318 else 278.
Definition SHIM_LIN_FUTEX_WAIT : Z := 0.
Definition SHIM_LIN_FUTEX_WAKE : Z := 1.
Definition SHIM_LIN_FUTEX_WAIT_BITSET : Z := 9.
Definition SHIM_LIN_FUTEX_WAKE_BITSET : Z := 10.
Definition SHIM_LIN_FUTEX_PRIVATE_FLAG : Z := 128.
Definition SHIM_LIN_FUTEX_CLOCK_REALTIME : Z := 256.
Definition SHIM_LIN_FUTEX_BITSET_MATCH_ANY : Z := -1.

(** A C answer: a count, or -1 with a host-coded errno. *)
Inductive answer := Ret (n : Z) | Fail (host_errno : Z).

#[export] Instance answer_eq_dec : EqDecision answer.
Proof. solve_decision. Defined.

(** cosmo's futex: 0 or the number woken, or a negated host errno; a missing
    deadline is NULL. *)
Class FutexHost (W : Type) := {
  clock_gettime : Z -> W -> timespec * W;
  cosmo_futex_wait : Z -> Z -> bool -> Z -> option timespec -> W -> Z * W;
  cosmo_futex_wake : Z -> Z -> bool -> W -> Z * W;
  h_getrandom : Z -> Z -> Z -> W -> answer * W }.

(** The arguments of a raw syscall, as each of the two takes them. *)
Record futex_args := FutexArgs {
  fa_addr : Z; fa_op : Z; fa_val : Z; fa_ts : option timespec; fa_bitset : Z }.

Section futex.
Context `{HostConsts} {W : Type} `{FutexHost W}.

Definition ENOSYS_answer : answer := Fail (host_const "ENOSYS").

(** [if (r < 0) return errno = -r, -1;] *)
Definition from_r (r : Z) : answer := if r <? 0 then Fail (- r) else Ret r.

Definition futex_clock (op : Z) : Z :=
  if has op SHIM_LIN_FUTEX_CLOCK_REALTIME then host_const "CLOCK_REALTIME" else host_const "CLOCK_MONOTONIC".

(** The relative timeout anchored to a clock, as the code carries it over:
    both fields are 64-bit, and a sum past the last second wraps around. *)
Definition anchor (now ts : timespec) : timespec :=
  let sec := s64 (tv_sec now + tv_sec ts) in
  let nsec := s64 (tv_nsec now + tv_nsec ts) in
  if 1000000000 <=? nsec then Timespec (s64 (sec + 1)) (s64 (nsec - 1000000000))
  else Timespec sec nsec.

Definition wait_answer (r : Z) : answer := if r <? 0 then Fail (- r) else Ret 0.

Definition futex_call (a : futex_args) : M W answer :=
  let op := fa_op a in
  let cmd := Z.ldiff op (Z.lor SHIM_LIN_FUTEX_PRIVATE_FLAG SHIM_LIN_FUTEX_CLOCK_REALTIME) in
  let pshare := negb (has op SHIM_LIN_FUTEX_PRIVATE_FLAG) in
  let clock := futex_clock op in
  if cmd =? SHIM_LIN_FUTEX_WAIT then
    deadline ← (match fa_ts a with
                | Some ts => now ← step (clock_gettime clock); mret (Some (anchor now ts))
                | None => mret None
                end);
    r ← step (cosmo_futex_wait (fa_addr a) (fa_val a) pshare clock deadline);
    mret (wait_answer r)
  else if cmd =? SHIM_LIN_FUTEX_WAIT_BITSET then
    if negb (u32 (fa_bitset a) =? u32 SHIM_LIN_FUTEX_BITSET_MATCH_ANY) then mret ENOSYS_answer
    else
      r ← step (cosmo_futex_wait (fa_addr a) (fa_val a) pshare clock (fa_ts a));
      mret (wait_answer r)
  else if (cmd =? SHIM_LIN_FUTEX_WAKE) ||
          ((cmd =? SHIM_LIN_FUTEX_WAKE_BITSET) && (u32 (fa_bitset a) =? u32 SHIM_LIN_FUTEX_BITSET_MATCH_ANY)) then
    r ← step (cosmo_futex_wake (fa_addr a) (fa_val a) pshare);
    mret (from_r r)
  else mret ENOSYS_answer.

(** [rest] is what the caller passed: a futex call's arguments, or the three
    words of a getrandom. *)
Definition shim_syscall (x86_64 : bool) (n : Z) (a : futex_args) (buf len flags : Z) : M W answer :=
  if n =? SHIM_LIN_SYS_futex x86_64 then futex_call a
  else if n =? SHIM_LIN_SYS_getrandom x86_64 then step (h_getrandom buf len flags)
  else mret ENOSYS_answer.
End futex.

(** ** ulock *)

(** macOS's operation numbers and cosmo's pointer check; the kernel answers
    a count or fails with a host errno. *)
Class UlockHost (W : Type) := {
  UL_COMPARE_AND_WAIT : Z; UL_UNFAIR_LOCK : Z; UL_COMPARE_AND_WAIT_SHARED : Z;
  ULF_WAIT_CANCEL_POINT : Z;
  kisdangerous : Z -> W -> bool;
  sys_ulock_wait : Z -> Z -> Z -> Z -> W -> answer * W;
  sys_ulock_wake : Z -> Z -> Z -> W -> Z * W }.

Section ulock.
Context `{HostConsts} {W : Type} `{UlockHost W}.

Definition ulock_value_is_32bit (operation : Z) : bool :=
  let op := Z.land operation 0xff in
  (op =? UL_COMPARE_AND_WAIT) || (op =? UL_UNFAIR_LOCK) || (op =? UL_COMPARE_AND_WAIT_SHARED).

(** What the kernel is given to compare: upstream sign-extends an int here. *)
Definition compared (operation value : Z) : Z := if ulock_value_is_32bit operation then u32 value else value.

Definition ulock_wait (operation addr value timeout_micros : Z) : M W answer :=
  let operation := Z.lor operation ULF_WAIT_CANCEL_POINT in
  rc ← step (sys_ulock_wait operation addr (compared operation value) timeout_micros);
  match rc with
  | Ret n => mret (Ret n)
  | Fail e =>
      let e := if e =? host_const "ENOMEM" then host_const "EAGAIN" else e in
      dangerous ← reads (kisdangerous addr);
      mret (Fail (if (e =? host_const "EFAULT") && negb dangerous then host_const "EAGAIN" else e))
  end.

Definition ulock_wake (operation addr wake_value : Z) : M W Z :=
  step (sys_ulock_wake operation addr wake_value).
End ulock.

(** ** The manual page *)

Definition ns (t : timespec) : Z := tv_sec t * 1000000000 + tv_nsec t.
Definition of_ns (n : Z) : timespec := Timespec (n / 1000000000) (n mod 1000000000).
Definition proper_ts (t : timespec) : Prop := 0 <= tv_nsec t < 1000000000.

Section spec.
Context `{HostConsts} {W : Type} `{FutexHost W}.

(** An operation as the manual page lists it: the command, the word shared
    between processes or not, the clock. *)
Record futex_op := FutexOp { fo_cmd : Z; fo_private : bool; fo_realtime : bool }.

Definition encode (o : futex_op) : Z :=
  Z.lor (fo_cmd o) (Z.lor (if fo_private o then SHIM_LIN_FUTEX_PRIVATE_FLAG else 0)
                          (if fo_realtime o then SHIM_LIN_FUTEX_CLOCK_REALTIME else 0)).

Definition clock_of (o : futex_op) : Z :=
  host_const (if fo_realtime o then "CLOCK_REALTIME" else "CLOCK_MONOTONIC").

(** A WAIT's timeout is a span from now on its clock, a WAIT_BITSET's a point
    in time; bitsets but the full one are not supported. *)
Definition futex_spec (o : futex_op) (addr val : Z) (ts : option timespec) (any : bool) : M W answer :=
  let wait deadline :=
    r ← step (cosmo_futex_wait addr val (negb (fo_private o)) (clock_of o) deadline); mret (wait_answer r) in
  let wake := r ← step (cosmo_futex_wake addr val (negb (fo_private o))); mret (from_r r) in
  if fo_cmd o =? SHIM_LIN_FUTEX_WAIT then
    match ts with
    | Some span => now ← step (clock_gettime (clock_of o)); wait (Some (of_ns (ns now + ns span)))
    | None => wait None
    end
  else if (fo_cmd o =? SHIM_LIN_FUTEX_WAIT_BITSET) && any then wait ts
  else if (fo_cmd o =? SHIM_LIN_FUTEX_WAKE) || ((fo_cmd o =? SHIM_LIN_FUTEX_WAKE_BITSET) && any) then wake
  else mret ENOSYS_answer.

(** The clock's last second is not reached by [now] and [ts] together. *)
Definition in_time (now ts : timespec) : Prop :=
  - 2 ^ 63 <= tv_sec now + tv_sec ts < 2 ^ 63 - 1.

Lemma of_ns_fields q r : 0 <= r < 1000000000 -> of_ns (q * 1000000000 + r) = Timespec q r.
Proof.
  intros Hr. unfold of_ns. f_equal.
  - rewrite Z.div_add_l, (Z.div_small r) by lia. lia.
  - rewrite (Z.add_comm (q * _)), Z.mod_add by lia. by apply Z.mod_small.
Qed.

Lemma anchor_spec now ts :
  proper_ts now -> proper_ts ts -> in_time now ts -> anchor now ts = of_ns (ns now + ns ts).
Proof.
  unfold proper_ts, in_time. intros Hn Ht Hi. unfold anchor, ns.
  rewrite (s64_small (tv_sec now + tv_sec ts)), (s64_small (tv_nsec now + tv_nsec ts)) by lia.
  destruct (1000000000 <=? _) eqn:E.
  - rewrite !s64_small by lia. rewrite <- of_ns_fields by lia. f_equal. lia.
  - rewrite <- of_ns_fields by lia. f_equal. lia.
Qed.

(** A span so long that the sum passes the last second is a deadline before
    the epoch: the wait is over before it began. *)
Lemma anchor_overflows now ts :
  proper_ts now -> proper_ts ts -> 0 <= tv_sec now < 2 ^ 63 -> tv_sec ts < 2 ^ 63 ->
  2 ^ 63 <= tv_sec now + tv_sec ts -> tv_sec (anchor now ts) < 0.
Proof.
  unfold proper_ts. intros Hn Ht Hs Hs' Ho. unfold anchor.
  assert (Hw : s64 (tv_sec now + tv_sec ts) = tv_sec now + tv_sec ts - 2 ^ 64).
  { unfold s64. rewrite <- (Z.mod_unique (tv_sec now + tv_sec ts + 2 ^ 63) (2 ^ 64) 1
      (tv_sec now + tv_sec ts + 2 ^ 63 - 2 ^ 64)); lia. }
  rewrite Hw. case_match; cbn [tv_sec]; [|lia].
  rewrite s64_small; lia.
Qed.

(** The flags sit above every command and can be told apart from it. *)
Lemma decode_op o : 0 <= fo_cmd o < 128 ->
  Z.ldiff (encode o) (Z.lor SHIM_LIN_FUTEX_PRIVATE_FLAG SHIM_LIN_FUTEX_CLOCK_REALTIME) = fo_cmd o /\
  has (encode o) SHIM_LIN_FUTEX_PRIVATE_FLAG = fo_private o /\
  has (encode o) SHIM_LIN_FUTEX_CLOCK_REALTIME = fo_realtime o.
Proof.
  intros Hc. destruct o as [c p r]. unfold encode. cbn [fo_cmd fo_private fo_realtime] in *.
  assert (Hf : forall k, 7 <= k -> Z.land c (2 ^ k) = 0).
  { intros k Hk. rewrite land_bit by lia. rewrite (proj2 (Z.testbit_false c k ltac:(lia))); [done|].
    rewrite Z.div_small; [done|]. pose proof (Z.pow_le_mono_r 2 7 k). lia. }
  pose proof (Hf 7 ltac:(lia)) as H7. pose proof (Hf 8 ltac:(lia)) as H8. change (2 ^ 7) with 128 in H7. change (2 ^ 8) with 256 in H8.
  rewrite !has_lor_l. unfold has at 1 4. unfold SHIM_LIN_FUTEX_PRIVATE_FLAG, SHIM_LIN_FUTEX_CLOCK_REALTIME in *.
  rewrite H7, H8. split; [|by destruct p, r].
  apply Z.bits_inj'. intros i Hi. apply (f_equal (fun z => Z.testbit z i)) in H7, H8.
  rewrite Z.land_spec, Z.bits_0 in H7, H8. rewrite Z.ldiff_spec, !Z.lor_spec.
  destruct (Z.testbit c i), (Z.testbit 128 i) eqn:E1, (Z.testbit 256 i) eqn:E2, p, r; rewrite ?E1, ?E2, ?Z.bits_0; done.
Qed.

(** C18: The raw futex syscall implements the manual page: whatever the two
    flags, the command, the sharing and the clock are told apart, a relative
    timeout becomes the same point in time on the clock chosen, normalised, a
    negative answer becomes its errno, and every operation that cannot be
    carried over is ENOSYS. A timeout's nanoseconds are below a second, and
    the point in time must lie before the last second a 64-bit clock can
    name; past it the sum wraps. *)
Theorem futex_refines x86_64 o addr val ts bitset buf len flags w :
  0 <= fo_cmd o < 128 ->
  (forall t, ts = Some t -> proper_ts t /\ in_time (fst (clock_gettime (clock_of o) w)) t) ->
  (forall c w', proper_ts (fst (clock_gettime c w'))) ->
  shim_syscall x86_64 (SHIM_LIN_SYS_futex x86_64) (FutexArgs addr (encode o) val ts bitset) buf len flags w =
  futex_spec o addr val ts (u32 bitset =? u32 SHIM_LIN_FUTEX_BITSET_MATCH_ANY) w.
Proof.
  intros Hc Hts Hclock. destruct (decode_op o Hc) as (H1 & H2 & H3).
  unfold shim_syscall. rewrite Z.eqb_refl. unfold futex_call, futex_spec, futex_clock. cbn [fa_addr fa_op fa_val fa_ts fa_bitset].
  rewrite H1, H2, H3.
  replace (if fo_realtime o then host_const "CLOCK_REALTIME" else host_const "CLOCK_MONOTONIC") with (clock_of o)
    by (unfold clock_of; by destruct (fo_realtime o)).
  destruct (fo_cmd o =? SHIM_LIN_FUTEX_WAIT).
  - destruct ts as [t|]; [|done]. unfold mbind, M_bind, step, mret, M_ret.
    pose proof (Hclock (clock_of o) w) as Hn. destruct (clock_gettime (clock_of o) w) as [now w1].
    cbn [fst] in *. destruct (Hts t eq_refl). by rewrite (anchor_spec now t).
  - destruct (fo_cmd o =? SHIM_LIN_FUTEX_WAIT_BITSET) eqn:E9; [|by destruct (_ || _)].
    destruct (u32 bitset =? _); cbn [negb andb]; [done|].
    apply Z.eqb_eq in E9. rewrite E9. done.
Qed.
End spec.

(** ** A wait on a negative word *)

(** The value macOS compares, in 64 bits, equals the 32-bit word in memory
    exactly when the word holds the integer the program expects, negative
    ones included, so that a parked thread sleeps; without the mask no
    negative word ever would. *)
Lemma ulock_compares_words `{HostConsts} {W} `{UlockHost W} operation expect word :
  0 <= word < 2 ^ 32 -> - 2 ^ 31 <= expect < 2 ^ 31 -> ulock_value_is_32bit operation = true ->
  (compared operation (expect mod 2 ^ 64) = word <-> expect = s32 word) /\
  (expect < 0 -> expect mod 2 ^ 64 <> word).
Proof.
  intros Hw He H32. unfold compared. rewrite H32.
  assert (Hu : u32 (expect mod 2 ^ 64) = expect mod 2 ^ 32).
  { unfold u32. symmetry. apply (Znumtheory.Zmod_div_mod (2 ^ 32) (2 ^ 64)); [lia|lia|by exists (2 ^ 32)]. }
  rewrite Hu. unfold s32. split; [split|].
  - intros <-. rewrite Z.add_mod_idemp_l by lia. rewrite Z.mod_small by lia. lia.
  - intros ->. rewrite Zminus_mod_idemp_l. replace (word + 2 ^ 31 - 2 ^ 31) with word by lia. by apply Z.mod_small.
  - intros Hneg. replace (expect mod 2 ^ 64) with (expect + 2 ^ 64); [lia|].
    apply (Z.mod_unique _ _ (-1)); lia.
Qed.

(** ** A clock that stands still *)

#[local] Instance toy_consts : HostConsts := {|
  host_const name := if String.eqb name "CLOCK_MONOTONIC" then 1 else 38; host_defines _ := true |}.

(** The deadline the last wait was given. *)
#[local] Instance toy_futex : FutexHost (option timespec) := {|
  clock_gettime _ w := (Timespec 5 600000000, w);
  cosmo_futex_wait _ _ _ _ d _ := (-110, d);
  cosmo_futex_wake _ n _ w := (n, w);
  h_getrandom _ len _ w := (Ret len, w) |}.

Lemma futex_refines_witness :
  shim_syscall true 202 (FutexArgs 4096 128 0 (Some (Timespec 2 500000000)) 0) 0 0 0 None =
    Some (Fail 110, Some (Timespec 8 100000000)) /\
  shim_syscall true 202 (FutexArgs 4096 128 0 (Some (Timespec 2 500000000)) 0) 0 0 0 None =
    futex_spec (FutexOp 0 true false) 4096 0 (Some (Timespec 2 500000000)) false None.
Proof.
  split; [by vm_compute|].
  apply (futex_refines true (FutexOp 0 true false) 4096 0 (Some (Timespec 2 500000000)) 0 0 0 0 None); [cbn; lia| |done].
  intros t [= <-]. unfold proper_ts, in_time. cbn. lia.
Defined.
