(* ===== verification/Timer.v ===== *)
(** * shim/timer.c, POSIX interval timers

    Linux runs them itself; elsewhere the process's one ITIMER_REAL stands
    in, whose microseconds the nanoseconds are rounded up to. The theorems:
    at most one timer is live however creations and deletions follow each
    other, and what a timer reads back is what was set, up to that rounding,
    over exactly the range the host accepts. *)
From S2P Require Import Prelude Host.

(** struct itimerspec as four longs, and struct itimerval. *)
Record itimerspec := Its { its_interval : timespec; its_value : timespec }.
Record timeval := Timeval { tv_s : Z; tv_us : Z }.
Record itimerval := Itv { it_interval : timeval; it_value : timeval }.

Definition LIN_SIGEV_SIGNAL : Z := 0.
Definition FALLBACK_TIMER : Z := 0x7a1e.

(** C's division truncates. *)
Definition us_of (t : timespec) : timeval := Timeval (tv_sec t) (Z.quot (tv_nsec t + 999) 1000).
Definition ns_of (t : timeval) : timespec := Timespec (tv_s t) (tv_us t * 1000).

Definition its_to_val (its : itimerspec) : itimerval := Itv (us_of (its_interval its)) (us_of (its_value its)).
Definition val_to_its (val : itimerval) : itimerspec := Its (ns_of (it_interval val)) (ns_of (it_value val)).

(** The kernel's timers where it has them, ITIMER_REAL elsewhere. The two
    ints of a sigevent are its signal and its way of notification. *)
Class TimerHost (W : Type) := {
  timer_linux : bool;
  SIGALRM : Z;
  raw_timer_create : Z -> option (Z * Z) -> W -> res Z * W;
  raw_timer_settime : Z -> Z -> itimerspec -> W -> res itimerspec * W;
  raw_timer_gettime : Z -> W -> res itimerspec * W;
  raw_timer_delete : Z -> W -> res unit * W;
  setitimer : itimerval -> W -> res itimerval * W;      (* and what was set before *)
  getitimer : W -> res itimerval * W;
  fallback_live : W -> bool;
  put_live : bool -> W -> W }.

Section timer.
Context {W : Type} `{TimerHost W}.

Definition timer_create (clockid : Z) (sevp : option (Z * Z)) : M W (res Z) :=
  if timer_linux then step (raw_timer_create clockid sevp)
  else
    if (match sevp with
        | Some (signo, notify) => negb (notify =? LIN_SIGEV_SIGNAL) || negb (signo =? SIGALRM)
        | None => false
        end) then mret (Err ENOTSUP)
    else
      live ← reads fallback_live;
      if (live : bool) then mret (Err EAGAIN)
      else _ ← modifies (put_live true); mret (Ok FALLBACK_TIMER).

(** [want_old] is whether the caller passed an old_value. *)
Definition timer_settime (timerid flags : Z) (new_value : itimerspec) (want_old : bool)
    : M W (res (option itimerspec)) :=
  if timer_linux then
    r ← step (raw_timer_settime timerid flags new_value);
    mret (match r with Ok old => Ok (if want_old then Some old else None) | Err e => Err e end)
  else if negb (flags =? 0) then mret (Err ENOTSUP)
  else
    r ← step (setitimer (its_to_val new_value));
    mret (match r with Ok had => Ok (if want_old then Some (val_to_its had) else None) | Err e => Err e end).

Definition timer_gettime (timerid : Z) : M W (res itimerspec) :=
  if timer_linux then step (raw_timer_gettime timerid)
  else
    r ← step getitimer;
    mret (match r with Ok now => Ok (val_to_its now) | Err e => Err e end).

Definition timer_delete (timerid : Z) : M W (res unit) :=
  if timer_linux then step (raw_timer_delete timerid)
  else
    _ ← step (setitimer (Itv (Timeval 0 0) (Timeval 0 0)));
    _ ← modifies (put_live false);
    mret (Ok tt).
End timer.

(** ** Rounding *)

Definition nsec_ok (t : timespec) : Prop := 0 <= tv_nsec t < 1000000000.

(** What setitimer takes. *)
Definition usec_ok (t : timeval) : bool := (0 <=? tv_us t) && (tv_us t <? 1000000).

(** The rounding goes up by less than a microsecond, so it never turns a
    delay into none; it leaves setitimer's range for the last 999 values. *)
Lemma us_of_spec t : nsec_ok t ->
  tv_sec (ns_of (us_of t)) = tv_sec t /\ tv_nsec t <= tv_nsec (ns_of (us_of t)) < tv_nsec t + 1000 /\
  (tv_us (us_of t) = 0 <-> tv_nsec t = 0) /\ usec_ok (us_of t) = (tv_nsec t <=? 999999000).
Proof.
  intros Ht. unfold nsec_ok in Ht. unfold ns_of, us_of, usec_ok. cbn [tv_sec tv_nsec tv_s tv_us].
  rewrite Z.quot_div_nonneg by lia.
  pose proof (Z.div_mod (tv_nsec t + 999) 1000 ltac:(lia)) as Hd.
  pose proof (Z.mod_pos_bound (tv_nsec t + 999) 1000 ltac:(lia)) as Hm.
  set (q := (tv_nsec t + 999) / 1000) in *. clearbody q.
  split_and!; [done|lia|lia|lia|].
  apply eq_bool_prop_intro. rewrite andb_True, !Is_true_true. lia.
Qed.

(** ITIMER_REAL: out-of-range microseconds are EINVAL, anything else is
    stored and read back until it runs; the flag is the shim's own. *)
Class TimerLaws (W : Type) `{TimerHost W} := {
  current : W -> itimerval;
  set_stores v w :
    let '(r, w') := setitimer v w in
    fallback_live w' = fallback_live w /\
    if usec_ok (it_interval v) && usec_ok (it_value v) then r = Ok (current w) /\ current w' = v
    else r = Err EINVAL /\ current w' = current w;
  get_reads w : getitimer w = (Ok (current w), w);
  live_put b w : fallback_live (put_live b w) = b /\ current (put_live b w) = current w }.

Section laws.
Context {W : Type} `{!TimerHost W} `{!TimerLaws W}.

(** Equal up to the rounding. *)
Definition rounded (t t' : timespec) : Prop :=
  tv_sec t' = tv_sec t /\ tv_nsec t <= tv_nsec t' < tv_nsec t + 1000 /\ (t' = Timespec 0 0 <-> t = Timespec 0 0).

Lemma rounded_us_of t : nsec_ok t -> rounded t (ns_of (us_of t)).
Proof.
  intros Ht. destruct (us_of_spec t Ht) as (Hs & Hn & H0 & _). split_and!; [done|lia|lia|].
  destruct t as [s n]. unfold ns_of, us_of in *. cbn [tv_sec tv_nsec tv_s tv_us] in *. split; intros [= ? ?].
  - assert (n = 0) by (apply H0; lia). congruence.
  - subst. done.
Qed.

(** Off Linux a timer reads back what it was set to, never less and by
    less than a microsecond more, armed exactly when it was armed, and the
    old value handed out is what was set before; but a nanosecond part above
    999999000 is refused with EINVAL, which changes nothing. *)
Theorem timer_reads_back id new w : timer_linux = false -> nsec_ok (its_interval new) -> nsec_ok (its_value new) ->
  if (tv_nsec (its_interval new) <=? 999999000) && (tv_nsec (its_value new) <=? 999999000)
  then exists w1 got,
    timer_settime id 0 new true w = Some (Ok (Some (val_to_its (current w))), w1) /\
    timer_gettime id w1 = Some (Ok got, w1) /\
    rounded (its_interval new) (its_interval got) /\ rounded (its_value new) (its_value got)
  else exists w1, timer_settime id 0 new true w = Some (Err EINVAL, w1) /\ current w1 = current w.
Proof.
  intros Hlin Hi Hv. destruct (us_of_spec _ Hi) as (_ & _ & _ & Hoi). destruct (us_of_spec _ Hv) as (_ & _ & _ & Hov).
  pose proof (set_stores (its_to_val new) w) as Hs. unfold timer_settime, timer_gettime. rewrite Hlin. cbn [negb Z.eqb].
  unfold mbind, M_bind, step. destruct (setitimer (its_to_val new) w) as [r w1]. destruct Hs as [_ Hs].
  cbn [its_to_val it_interval it_value] in Hs. rewrite Hoi, Hov in Hs.
  destruct (_ && _); destruct Hs as [-> Hc]; [|by exists w1].
  exists w1, (val_to_its (its_to_val new)). rewrite get_reads, Hc. split_and!; [done|done|by apply rounded_us_of..].
Qed.

(** ** One timer at a time *)

Inductive timer_op := Create (clockid : Z) (sevp : option (Z * Z)) | Delete (id : Z) | Set_ (id : Z) (v : itimerspec) | Get (id : Z).

Definition timer_step (op : timer_op) : M W bool :=
  match op with
  | Create c s => r ← timer_create c s; mret (match r with Ok _ => true | Err _ => false end)
  | Delete id => _ ← timer_delete id; mret false
  | Set_ id v => _ ← timer_settime id 0 v true; mret false
  | Get id => _ ← timer_gettime id; mret false
  end.

(** Runs a history; the creations that succeeded. *)
Fixpoint timer_run (ops : list timer_op) : M W (list bool) :=
  match ops with
  | [] => mret []
  | op :: ops => made ← timer_step op; rest ← timer_run ops; mret (made :: rest)
  end.

(** Timers created and not deleted since, given whether one is live. *)
Fixpoint alternates (live : bool) (ops : list timer_op) (made : list bool) : Prop :=
  match ops, made with
  | [], [] => True
  | op :: ops, m :: made =>
      (m = true -> live = false) /\
      alternates (match op with Delete _ => false | _ => live || m end) ops made
  | _, _ => False
  end.

Lemma timer_step_post op w : timer_linux = false ->
  post (timer_step op) w (fun m w' =>
    (m = true -> fallback_live w = false) /\
    fallback_live w' = match op with Delete _ => false | _ => fallback_live w || m end).
Proof.
  intros Hlin.
  destruct op as [c s|id|id v|id]; cbn [timer_step]; unfold timer_create, timer_delete, timer_settime, timer_gettime; rewrite Hlin.
  - apply post_bind. destruct (match s with Some _ => _ | None => _ end);
      [by apply post_ret, post_ret; rewrite orb_false_r|].
    apply post_bind, post_reads. destruct (fallback_live w) eqn:E; [by apply post_ret, post_ret|].
    apply post_bind, post_modifies, post_ret, post_ret. by rewrite (proj1 (live_put true w)).
  - apply post_bind, post_bind, post_step. destruct (setitimer _ w) as [r w1].
    apply post_bind, post_modifies, post_ret, post_ret. by rewrite (proj1 (live_put false w1)).
  - cbn [negb Z.eqb]. apply post_bind, post_bind, post_step. pose proof (set_stores (its_to_val v) w) as Hs.
    destruct (setitimer _ w) as [r w1]. destruct Hs as [Hl _]. apply post_ret, post_ret. by rewrite Hl, orb_false_r.
  - apply post_bind, post_bind, post_step. rewrite get_reads. apply post_ret, post_ret. by rewrite orb_false_r.
Qed.

Lemma timer_run_post ops w : timer_linux = false ->
  post (timer_run ops) w (fun made _ => alternates (fallback_live w) ops made).
Proof.
  intros Hlin. revert w. induction ops as [|op ops IH]; intros w; cbn [timer_run]; [by apply post_ret|].
  eapply post_bind, post_impl; [by apply timer_step_post|]. intros m w1 [Hm Hl].
  eapply post_bind, post_impl; [apply IH|]. intros made w2 Ha. apply post_ret. cbn [alternates]. by rewrite <- Hl.
Qed.

(** Off Linux, in every history of calls a timer is only ever created when
    the one created before has been deleted; a creation refused while one is
    live, and setting or reading a timer, change nothing of that. *)
Theorem one_timer_at_a_time ops w : timer_linux = false ->
  exists made w', timer_run ops w = Some (made, w') /\ alternates (fallback_live w) ops made.
Proof. intros Hlin. by apply post_run, timer_run_post. Qed.
End laws.

(** ** A process with its ITIMER_REAL *)

#[local] Instance toy_timer : TimerHost (itimerval * bool) := {|
  timer_linux := false; SIGALRM := 14;
  raw_timer_create _ _ w := (Err ENOSYS, w); raw_timer_settime _ _ _ w := (Err ENOSYS, w);
  raw_timer_gettime _ w := (Err ENOSYS, w); raw_timer_delete _ w := (Err ENOSYS, w);
  setitimer v w := if usec_ok (it_interval v) && usec_ok (it_value v) then (Ok (fst w), (v, snd w)) else (Err EINVAL, w);
  getitimer w := (Ok (fst w), w);
  fallback_live := snd; put_live b w := (fst w, b) |}.

#[local] Instance toy_laws : TimerLaws (itimerval * bool).
Proof. refine {| current := fst |}; try done. intros v w. cbn. by destruct (_ && _). Defined.

Definition idle : itimerval * bool := (Itv (Timeval 0 0) (Timeval 0 0), false).

Lemma timer_reads_back_witness :
  exists w1 got, timer_settime 1 0 (Its (Timespec 0 0) (Timespec 0 1)) true idle =
      Some (Ok (Some (Its (Timespec 0 0) (Timespec 0 0))), w1) /\
    timer_gettime 1 w1 = Some (Ok got, w1) /\ rounded (Timespec 0 1) (its_value got).
Proof.
  destruct (timer_reads_back 1 (Its (Timespec 0 0) (Timespec 0 1)) idle) as (w1 & got & Hs & Hg & _ & Hv);
    [done|unfold nsec_ok; cbn; lia|unfold nsec_ok; cbn; lia|].
  exists w1, got. split_and!; [exact Hs|exact Hg|apply Hv..].
Defined.

Lemma one_timer_at_a_time_witness : exists made w',
  timer_run [Create 0 None; Create 0 None; Delete 1; Create 0 (Some (14, 0))] idle = Some (made, w') /\
  made = [true; false; false; true] /\
  alternates false [Create 0 None; Create 0 None; Delete 1; Create 0 (Some (14, 0))] made.
Proof.
  destruct (one_timer_at_a_time [Create 0 None; Create 0 None; Delete 1; Create 0 (Some (14, 0))] idle) as (made & w' & Hr & Ha); [done|].
  exists made, w'. split; [exact Hr|]. split; [|exact Ha]. vm_compute in Hr. by injection Hr as <- _.
Defined.
