(* ===== verification/IfName.v ===== *)
(** * shim/ifname.c, interface names and indices

    One enumeration of the interfaces serves all three calls; an index comes
    from the kernel's ioctl, on Windows from the adapter whose friendly name
    matches, and else from the position in the enumeration. The theorems: the
    enumeration fits the arrays it is copied to and lists every interface
    once, and name to index to name comes back exactly where the host's
    indices tell the interfaces apart. *)
From S2P Require Import Prelude Host.

Definition IFNAMSIZ : nat := 16.
Definition MAX_IFS : nat := 128.

(** The first bytes of a fixed array, up to its NUL. *)
Fixpoint ifr_string (b : list Z) : cstr :=
  match b with
  | [] => []
  | c :: b' => if c =? 0 then [] else c :: ifr_string b'
  end.

(** strcspn(name, ":") bytes of the name *)
Fixpoint before_colon (name : cstr) : cstr :=
  match name with
  | [] => []
  | c :: name' => if c =? 58 then [] else c :: before_colon name'
  end.

Definition add_name (out : list cstr) (max : nat) (name : cstr) : list cstr :=
  if (max <=? length out)%nat || bool_decide (name = []) || (IFNAMSIZ <=? length name)%nat then out
  else
    let base := before_colon name in
    if bool_decide (base = []) then out
    else if existsb (fun n => bool_decide (n = base)) out then out
    else out ++ [base].

(** ** Windows adapters *)

Definition norm (c : Z) : Z :=
  if ((97 <=? c) && (c <=? 122)) || ((65 <=? c) && (c <=? 90)) || ((48 <=? c) && (c <=? 57)) ||
     (c =? 45) || (c =? 46) then c else 95.

(** The walk over the name up to its end or a colon: what is left of the
    friendly name, unless they differ. *)
Fixpoint match_prefix (name friendly : list Z) : option (list Z) :=
  match name with
  | [] => Some friendly
  | c :: name' =>
      if c =? 58 then Some friendly
      else
        match friendly with
        | [] => None
        | f :: friendly' => if norm c =? norm f then match_prefix name' friendly' else None
        end
  end.

Definition name_matches (name : cstr) (friendly : option (list Z)) (exact : bool) : bool :=
  match friendly with
  | None => false
  | Some friendly =>
      match match_prefix name friendly with
      | None => false
      | Some rest => if bool_decide (before_colon name = []) then false
                     else if exact then bool_decide (rest = []) else true
      end
  end.

(** An adapter's FriendlyName, NULL as [None], and its IfIndex. *)
Definition nt_adapter : Type := option (list Z) * Z.

(** [for (p = aa; p && !idx; p = p->Next) if (matches) idx = p->IfIndex;] *)
Fixpoint adapter_pass (name : cstr) (exact : bool) (aa : list nt_adapter) : Z :=
  match aa with
  | [] => 0
  | (friendly, index) :: aa' =>
      let idx := if name_matches name friendly exact then index else 0 in
      if negb (idx =? 0) then idx else adapter_pass name exact aa'
  end.

Definition adapter_index (name : cstr) (aa : list nt_adapter) : Z :=
  let idx := adapter_pass name true aa in
  if negb (idx =? 0) then idx else adapter_pass name false aa.

(** ** The host *)

(** The ioctls answer [None] on failure; [GetAdaptersAddresses] on failure
    or when there is no memory for it. *)
Class IfHost (W : Type) := {
  if_linux : bool;
  if_windows : bool;
  if_socket : W -> option Z * W;
  if_close : Z -> W -> W;
  if_malloc : Z -> W -> bool;
  ioctl_SIOCGIFINDEX : Z -> cstr -> W -> option Z;
  ioctl_SIOCGIFNAME : Z -> Z -> W -> option (list Z);
  ioctl_SIOCGIFCONF : Z -> W -> option (list (list Z));
  dir_sys_class_net : W -> option (list cstr);
  GetAdaptersAddresses : W -> option (list nt_adapter) }.

Section names.
Context {W : Type} `{IfHost W}.

Definition list_from_sysfs (max : nat) : M W (option (list cstr)) :=
  d ← reads dir_sys_class_net;
  mret (match d with
        | None => None
        | Some entries =>
            let out := foldl (fun out e => if byte_at e 0 =? 46 then out else add_name out max e) [] entries in
            if bool_decide (out = []) then None else Some out
        end).

Definition list_from_ioctl (max : nat) : M W (option (list cstr)) :=
  s ← step if_socket;
  match s with
  | None => mret None
  | Some fd =>
      ok ← reads (if_malloc (Z.of_nat MAX_IFS * 40));
      conf ← (if ok : bool then reads (ioctl_SIOCGIFCONF fd) else mret None);
      _ ← modifies (if_close fd);
      mret (match conf with
            | None => None
            | Some reqs => Some (foldl (fun out r => add_name out max (ifr_string (take (IFNAMSIZ - 1) r))) [] reqs)
            end)
  end.

Definition list_names (max : nat) : M W (option (list cstr)) :=
  n ← (if if_linux then list_from_sysfs max else mret None);
  match n with
  | Some out => mret (Some out)
  | None => list_from_ioctl max
  end.

Definition nt_index_for (name : cstr) : M W Z :=
  aa ← reads GetAdaptersAddresses;
  mret (match aa with Some aa => adapter_index name aa | None => 0 end).

Definition synth_index (name : cstr) : M W Z :=
  names ← list_names MAX_IFS;
  mret (match find_index (fun n => bool_decide (n = name)) (default [] names) with
        | Some i => Z.of_nat i + 1
        | None => 0
        end).

(** 0 is ENODEV; [None] is a NULL name. *)
Definition if_nametoindex (name : option cstr) : M W (res Z) :=
  match name with
  | None => mret (Err ENODEV)
  | Some name =>
      if bool_decide (name = []) || (IFNAMSIZ <=? length name)%nat then mret (Err ENODEV)
      else
        s ← step if_socket;
        idx ← (match s with
               | None => mret 0
               | Some fd =>
                   r ← reads (ioctl_SIOCGIFINDEX fd name);
                   _ ← modifies (if_close fd);
                   mret (match r with Some i => if 0 <? i then i else 0 | None => 0 end)
               end);
        idx ← (if (idx =? 0) && if_windows then nt_index_for name else mret idx);
        idx ← (if idx =? 0 then synth_index name else mret idx);
        mret (if idx =? 0 then Err ENODEV else Ok idx)
  end.

(** The first listed name whose index is this one. *)
Fixpoint search_names (index : Z) (names : list cstr) : M W (option cstr) :=
  match names with
  | [] => mret None
  | n :: names =>
      i ← if_nametoindex (Some n);
      if bool_decide (i = Ok index) then mret (Some n) else search_names index names
  end.

(** [None] is ENXIO with a NULL answer; the name always goes to the caller's buffer. *)
Definition if_indextoname (index : Z) : M W (option cstr) :=
  if index =? 0 then mret None
  else
    s ← step if_socket;
    r ← (match s with
         | None => mret None
         | Some fd =>
             r ← reads (ioctl_SIOCGIFNAME fd (s32 index));
             _ ← modifies (if_close fd);
             mret (match r with
                   | Some name => if byte_at name 0 =? 0 then None else Some (ifr_string (take (IFNAMSIZ - 1) name))
                   | None => None
                   end)
         end);
    match r with
    | Some name => mret (Some name)
    | None => names ← list_names MAX_IFS; search_names index (default [] names)
    end.

(** The table's rows; the strings sit in slots of IFNAMSIZ bytes behind it. *)
Fixpoint fill_table (names : list cstr) : M W (list (Z * cstr)) :=
  match names with
  | [] => mret []
  | n :: names =>
      i ← if_nametoindex (Some n);
      rows ← fill_table names;
      mret ((match i with Ok i => i | Err _ => 0 end, n) :: rows)
  end.

(** [None] is ENOBUFS. *)
Definition if_nameindex : M W (option (list (Z * cstr))) :=
  names ← list_names MAX_IFS;
  match names with
  | None => mret None
  | Some names =>
      let n := Z.of_nat (length names) in
      ok ← reads (if_malloc ((n + 1) * 16 + n * Z.of_nat IFNAMSIZ));
      if negb (ok : bool) then mret None
      else rows ← fill_table names; mret (Some rows)
  end.
End names.

(** ** The enumeration fits and repeats nothing *)

Definition listing_ok (max : nat) (out : list cstr) : Prop :=
  (length out <= max)%nat /\ NoDup out /\
  Forall (fun n => n <> [] /\ (length n < IFNAMSIZ)%nat /\ Forall (fun c => c <> 58) n) out.

Lemma before_colon_ok name : (length (before_colon name) <= length name)%nat /\ Forall (fun c => c <> 58) (before_colon name).
Proof.
  induction name as [|c name [IH1 IH2]]; cbn [before_colon]; [split; [done|constructor]|].
  destruct (c =? 58) eqn:E; cbn [length]; [split; [lia|constructor]|].
  split; [lia|constructor; [lia|done]].
Qed.

Lemma add_name_ok out max name : listing_ok max out -> listing_ok max (add_name out max name).
Proof.
  intros (Hl & Hnd & Hall). unfold add_name. destruct (_ || _) eqn:Eg; [done|].
  apply orb_false_elim in Eg as [Eg E3]. apply orb_false_elim in Eg as [E1 E2].
  apply Nat.leb_gt in E1, E3. clear E2. case_bool_decide as Eb; [done|]. destruct (existsb _ out) eqn:Ee; [done|].
  destruct (before_colon_ok name) as [Hlen Hc]. split_and!.
  - rewrite length_app. cbn. lia.
  - apply NoDup_app. split_and!; [done| |apply NoDup_singleton]. intros x Hx ->%list_elem_of_singleton.
    assert (existsb (fun n => bool_decide (n = before_colon name)) out = true); [|congruence].
    apply existsb_exists. exists (before_colon name). split; [by apply list_elem_of_In|by apply bool_decide_eq_true].
  - apply Forall_app. split; [done|]. constructor; [|constructor]. split_and!; [done|lia|done].
Qed.

Lemma foldl_ok {A} (f : list cstr -> A -> list cstr) max l :
  (forall out x, listing_ok max out -> listing_ok max (f out x)) -> forall out, listing_ok max out -> listing_ok max (foldl f out l).
Proof. intros Hf. induction l as [|x l IH]; intros out Ho; [done|]. by apply IH, Hf. Qed.

Lemma listing_nil max : listing_ok max [].
Proof. split_and!; [cbn; lia|constructor|constructor]. Qed.

Section laws.
Context {W : Type} `{IfHost W}.

(** Whatever the host lists, the enumeration fits the arrays it is copied
    into: at most the maximum of entries, each a non-empty name of at most 15
    bytes, address suffixes cut off, and no interface twice. *)
Theorem listing_fits max w :
  post (list_names max) w (fun names _ => forall out, names = Some out -> listing_ok max out).
Proof.
  unfold list_names.
  assert (Hio : forall w1, post (list_from_ioctl max) w1 (fun names _ => forall out, names = Some out -> listing_ok max out)).
  { intros w1. unfold list_from_ioctl. apply post_bind, post_step. destruct (if_socket w1) as [[fd|] w2]; [|by apply post_ret].
    apply post_bind, post_reads, post_bind.
    assert (Hend : forall conf, post (_ ← modifies (if_close fd); mret (match conf with
        | None => None
        | Some reqs => Some (foldl (fun out r => add_name out max (ifr_string (take (IFNAMSIZ - 1) r))) [] reqs) end)) w2
        (fun names _ => forall out, names = Some out -> listing_ok max out)).
    { intros conf. apply post_bind, post_modifies, post_ret. intros out Ho. destruct conf as [reqs|]; [|done]. injection Ho as <-.
      apply foldl_ok; [intros; by apply add_name_ok|apply listing_nil]. }
    destruct (if_malloc _ w2); [apply post_reads, Hend|apply post_ret, (Hend None)]. }
  apply post_bind. destruct if_linux; [|apply post_ret, Hio].
  unfold list_from_sysfs. apply post_bind, post_reads, post_ret. destruct (dir_sys_class_net w) as [entries|]; [|apply Hio].
  case_bool_decide; [apply Hio|]. apply post_ret. intros out [= <-].
  apply foldl_ok; [|apply listing_nil]. intros out e Ho. destruct (_ =? _); [done|by apply add_name_ok].
Qed.

(** ** Name to index to name *)

(** The configuration does not change while the calls look at it: opening
    and closing the socket they ask through touches none of it, and which
    descriptor it is makes no difference. *)
Class IfStable := {
  same_config : relation W;
  same_config_equiv : Equivalence same_config;
  config_socket w : exists fd, fst (if_socket w) = Some fd /\ same_config w (snd (if_socket w));
  config_close fd w : same_config w (if_close fd w);
  config_same w1 w2 fd1 fd2 : same_config w1 w2 ->
    (forall name, ioctl_SIOCGIFINDEX fd1 name w1 = ioctl_SIOCGIFINDEX fd2 name w2) /\
    (forall i, ioctl_SIOCGIFNAME fd1 i w1 = ioctl_SIOCGIFNAME fd2 i w2) /\
    ioctl_SIOCGIFCONF fd1 w1 = ioctl_SIOCGIFCONF fd2 w2 /\
    dir_sys_class_net w1 = dir_sys_class_net w2 /\ GetAdaptersAddresses w1 = GetAdaptersAddresses w2 /\
    (forall n, if_malloc n w1 = if_malloc n w2) }.
Context `{!IfStable}.
#[local] Existing Instance same_config_equiv.

(** A program that only looks: in worlds of one configuration it gives one
    answer, and it leaves that configuration. [looks2] compares two programs. *)
Definition looks2 {A} (m1 m2 : M W A) : Prop :=
  forall w1 w2, same_config w1 w2 ->
  exists a w1' w2', m1 w1 = Some (a, w1') /\ m2 w2 = Some (a, w2') /\ same_config w1 w1' /\ same_config w2 w2'.
Notation looks m := (looks2 m m).

Lemma looks_ret {A} (a : A) : looks (mret a).
Proof. intros w1 w2 Hc. by exists a, w1, w2. Qed.

Lemma looks_reads {A} (f g : W -> A) : (forall w1 w2, same_config w1 w2 -> f w1 = g w2) -> looks2 (reads f) (reads g).
Proof. intros Hf w1 w2 Hc. exists (f w1), w1, w2. split_and!; [done|by rewrite (Hf w1 w2 Hc)|done..]. Qed.

Lemma looks_bind {A B} (m1 m2 : M W A) (f g : A -> M W B) :
  looks2 m1 m2 -> (forall x, looks2 (f x) (g x)) -> looks2 (m1 ≫= f) (m2 ≫= g).
Proof.
  intros Hm Hf w1 w2 Hc. destruct (Hm w1 w2 Hc) as (a & v1 & v2 & H1 & H2 & C1 & C2).
  destruct (Hf a v1 v2) as (b & u1 & u2 & H3 & H4 & C3 & C4); [by rewrite <- C1, Hc, C2|].
  exists b, u1, u2. rewrite (bind_run _ _ _ _ _ H1), (bind_run _ _ _ _ _ H2). split_and!; [done|done|by rewrite C1|by rewrite C2].
Qed.

Lemma looks_close fd1 fd2 : looks2 (modifies (if_close fd1)) (modifies (if_close fd2)).
Proof. intros w1 w2 Hc. eexists tt, _, _. split_and!; [done|done|apply config_close..]. Qed.

Lemma looks_socket {A} (k : option Z -> M W A) :
  (forall fd1 fd2, looks2 (k (Some fd1)) (k (Some fd2))) -> looks (step if_socket ≫= k).
Proof.
  intros Hk w1 w2 Hc. destruct (config_socket w1) as (fd1 & H1 & C1). destruct (config_socket w2) as (fd2 & H2 & C2).
  rewrite !bind_step, H1, H2.
  destruct (Hk fd1 fd2 (snd (if_socket w1)) (snd (if_socket w2))) as (a & u1 & u2 & Hr1 & Hr2 & C3 & C4);
    [by transitivity w1; [symmetry|transitivity w2]|].
  exists a, u1, u2. split_and!; [done|done|by transitivity (snd (if_socket w1))|by transitivity (snd (if_socket w2))].
Qed.

(** One step of such a program. *)
Ltac look :=
  lazymatch goal with
  | |- looks2 (step if_socket ≫= _) _ => apply looks_socket; intros ? ?
  | |- looks2 (_ ≫= _) _ => apply looks_bind; [|intros ?]
  | |- looks2 (mret _) _ => apply looks_ret
  | |- looks2 (reads _) _ => apply looks_reads; intros ? ? ?; by apply config_same
  | |- looks2 (modifies (if_close _)) _ => apply looks_close
  | |- looks2 (match ?x with _ => _ end) _ => destruct x
  end.

Lemma looks_names max : looks (list_names max).
Proof. unfold list_names, list_from_sysfs, list_from_ioctl. repeat look; apply looks_reads; intros ? ? ?; by apply (config_same _ _ 0 0). Qed.

Lemma looks_index name : looks (if_nametoindex name).
Proof.
  unfold if_nametoindex, nt_index_for, synth_index. destruct name as [name|]; [|apply looks_ret].
  assert (Hr : forall fd1 fd2, looks2 (reads (ioctl_SIOCGIFINDEX fd1 name)) (reads (ioctl_SIOCGIFINDEX fd2 name)))
    by (intros fd1 fd2; apply looks_reads; intros ? ? ?; by apply config_same).
  assert (Ha : looks (reads GetAdaptersAddresses)) by (apply looks_reads; intros ? ? ?; by apply (config_same _ _ 0 0)).
  repeat (first [apply Hr|apply Ha|apply looks_names|look]).
Qed.

(** In a world of the same configuration a call that looks answers the same. *)
Lemma looks_again {A} (m : M W A) a w w1 w2 : looks m -> m w = Some (a, w1) -> same_config w w2 ->
  exists w3, m w2 = Some (a, w3) /\ same_config w w3 /\ same_config w w1.
Proof.
  intros Hm Hw Hc. destruct (Hm w w2 Hc) as (b & v1 & v2 & H1 & H2 & C1 & C2). rewrite Hw in H1. injection H1 as -> ->.
  exists v2. split_and!; [done|by transitivity w2|done].
Qed.

Lemma search_finds index w names name wn : same_config w wn ->
  name ∈ names -> (exists w1, if_nametoindex (Some name) w = Some (Ok index, w1)) ->
  (forall n w1, n ∈ names -> if_nametoindex (Some n) w = Some (Ok index, w1) -> n = name) ->
  exists w', search_names index names wn = Some (Some name, w').
Proof.
  intros Hwn Hin [w1 Hidx]. revert wn Hwn Hin. induction names as [|n names IH]; intros wn Hwn Hin Huniq; [by apply elem_of_nil in Hin|].
  cbn [search_names]. destruct (looks_index (Some n) w wn Hwn) as (a & v1 & v2 & H1 & H2 & C1 & C2).
  rewrite (bind_run _ _ _ _ _ H2).
  case_bool_decide as E; [subst a; rewrite (Huniq n _ (list_elem_of_here n names) H1); by eexists|].
  apply IH; [by transitivity wn| |intros m u Hm; apply Huniq; by right].
  apply elem_of_cons in Hin as [->|Hin]; [|done]. rewrite Hidx in H1. congruence.
Qed.

(** The kernel's name for an index, as the call hands it out. *)
Definition kernel_name (index : Z) (w : W) : option cstr :=
  match ioctl_SIOCGIFNAME 0 (s32 index) w with
  | Some r => if byte_at r 0 =? 0 then None else Some (ifr_string (take (IFNAMSIZ - 1) r))
  | None => None
  end.

Lemma indextoname_run index w : index <> 0 -> exists w1, same_config w w1 /\
  if_indextoname index w =
  match kernel_name index w with
  | Some name => Some (Some name, w1)
  | None => (names ← list_names MAX_IFS; search_names index (default [] names)) w1
  end.
Proof.
  intros Hnz. unfold if_indextoname. rewrite (proj2 (Z.eqb_neq _ _) Hnz).
  destruct (config_socket w) as (fd & Hfd & Hc). rewrite bind_step, Hfd.
  exists (if_close fd (snd (if_socket w))). split; [transitivity (snd (if_socket w)); [done|apply config_close]|].
  unfold kernel_name. destruct (config_same (snd (if_socket w)) w fd 0 ltac:(by symmetry)) as (_ & Hn & _).
  rewrite <- (Hn (s32 index)). unfold mbind at 1, M_bind at 1.
  change ((r ← reads (ioctl_SIOCGIFNAME fd (s32 index)); _ ← modifies (if_close fd);
    mret match r with
         | Some name => if byte_at name 0 =? 0 then None else Some (ifr_string (take (IFNAMSIZ - 1) name))
         | None => None end) (snd (if_socket w)))
    with (Some (match ioctl_SIOCGIFNAME fd (s32 index) (snd (if_socket w)) with
         | Some name => if byte_at name 0 =? 0 then None else Some (ifr_string (take (IFNAMSIZ - 1) name))
         | None => None end, if_close fd (snd (if_socket w)))).
  destruct (ioctl_SIOCGIFNAME _ _ _) as [r|]; [|done]. by destruct (byte_at r 0 =? 0).
Qed.

(** Name to index to name: a listed interface's name comes back from its
    index, whichever of the kernel, the adapters and the enumeration gave
    it, provided no other interface has the same index and the kernel, where
    it names the index at all, names an interface of that index. *)
Theorem name_index_name name index out w w1 w2 :
  if_nametoindex (Some name) w = Some (Ok index, w1) ->
  list_names MAX_IFS w = Some (Some out, w2) -> name ∈ out ->
  (forall n w3, n ∈ out \/ kernel_name index w = Some n ->
     if_nametoindex (Some n) w = Some (Ok index, w3) -> n = name) ->
  (forall n, kernel_name index w = Some n -> exists w3, if_nametoindex (Some n) w = Some (Ok index, w3)) ->
  exists w3, if_indextoname index w1 = Some (Some name, w3).
Proof.
  intros Hidx Hlist Hin Huniq Hkernel.
  destruct (looks_again _ _ _ _ w (looks_index (Some name)) Hidx (reflexivity w)) as (_ & _ & _ & Hc1).
  assert (Hnz : index <> 0).
  { intros ->. clear -Hidx. unfold if_nametoindex in Hidx. destruct (_ || _); [done|].
    apply bind_Some in Hidx as (s & v1 & _ & Hidx). apply bind_Some in Hidx as (i1 & v2 & _ & Hidx).
    apply bind_Some in Hidx as (i2 & v3 & _ & Hidx). apply bind_Some in Hidx as (i3 & v4 & _ & Hidx).
    destruct (i3 =? 0) eqn:E; [done|]. injection Hidx as -> _. done. }
  destruct (indextoname_run index w1 Hnz) as (v & Hv & Hrun). rewrite Hrun.
  assert (Hk : kernel_name index w1 = kernel_name index w).
  { unfold kernel_name. destruct (config_same w1 w 0 0 ltac:(by symmetry)) as (_ & Hn & _). by rewrite Hn. }
  rewrite Hk. destruct (kernel_name index w) as [n|] eqn:Ek.
  - destruct (Hkernel n eq_refl) as [w3 Hw3]. exists v. by rewrite (Huniq _ _ (or_intror eq_refl) Hw3).
  - assert (Hwv : same_config w v) by (by transitivity w1).
    destruct (looks_again _ _ _ _ v (looks_names MAX_IFS) Hlist Hwv) as (v1 & Hv1 & Hc & _).
    rewrite (bind_run _ _ _ _ _ Hv1). cbn [default]. apply (search_finds index w); [done|done|by eexists|eauto].
Qed.
End laws.

(** ** A Windows host with two adapters and an interface without one *)

Definition ethernet : list Z := bytes "Ethernet".
Definition ethernet_2 : list Z := bytes "Ethernet 2".

#[local] Instance toy_if : IfHost unit := {|
  if_linux := false; if_windows := true;
  if_socket w := (Some 3, w); if_close _ w := w; if_malloc _ _ := true;
  ioctl_SIOCGIFINDEX _ _ _ := None; ioctl_SIOCGIFNAME _ _ _ := None;
  ioctl_SIOCGIFCONF _ _ := Some [bytes "lo"; bytes "Ethernet_2"; bytes "Ethernet"; bytes "Ethernet:1"];
  dir_sys_class_net _ := None;
  GetAdaptersAddresses _ := Some [(None, 9); (Some ethernet_2, 12); (Some ethernet, 7)] |}.

#[local] Instance toy_stable : @IfStable unit toy_if.
Proof.
  refine (@Build_IfStable unit toy_if (fun _ _ => True) _ _ _ _); try done.
  intros w. by exists 3.
Defined.

Lemma name_index_name_witness : exists w3, if_indextoname 7 tt = Some (Some (bytes "Ethernet"), w3).
Proof.
  apply (name_index_name (bytes "Ethernet") 7 [bytes "lo"; bytes "Ethernet_2"; bytes "Ethernet"] tt tt tt);
    [by vm_compute|by vm_compute|by do 2 right; left| |by intros n].
  intros n w3 [Hn|]; [|done]. repeat (apply elem_of_cons in Hn as [->|Hn]; [by vm_compute|]). by apply elem_of_nil in Hn.
Defined.
