(* ===== verification/NtOpen.v ===== *)
(** * Opening and closing on Windows: open-nt.c, createfileflags.c,
    close-nt.c and close.c

    An open converts the path and asks CreateFile without the descriptor
    table's lock, then reserves a number under it; a close undoes both. The
    theorems: no outcome of either leaks a handle or a number, the lock is
    given back and never held while a path is converted, and what an open
    does to a file is what POSIX says of its flags. *)
From S2P Require Import Prelude Host.

(** ** POSIX flags as win32's *)

Section flags.
Context `{HostConsts}.

Definition _O_DSYNC : Z := 0x1000.
Definition _O_SYNC : Z := 0x101000.

(** FixNtSyncFlags: the two values as they are after startup. *)
Definition FixNtSyncFlags (windows : bool) (o_sync o_dsync : Z) : Z * Z :=
  if windows then
    (if o_sync =? 0xffffffff then _O_SYNC else o_sync, if o_dsync =? 0xffffffff then _O_DSYNC else o_dsync)
  else (o_sync, o_dsync).

Definition or_names (names : list string) : Z := foldr (fun n acc => Z.lor (host_const n) acc) 0 names.

Definition nt_open_known : Z :=
  Z.lor (or_names ["O_ACCMODE"; "_O_APPEND"; "_O_CREAT"; "_O_EXCL"; "_O_TRUNC"; "_O_DIRECTORY"; "_O_UNLINK";
                   "_O_NONBLOCK"; "_O_RANDOM"; "_O_SEQUENTIAL"; "_O_COMPRESSED"; "_O_INDEXED"; "_O_CLOEXEC"; "_O_DIRECT"]%string)
        (Z.lor _O_SYNC _O_DSYNC).

Definition flag (flags : Z) (name : string) : bool := has flags (host_const name).

(** The access a mode of opening needs. *)
Definition access_perm (flags : Z) : option Z :=
  let acc := Z.land flags (host_const "O_ACCMODE") in
  if acc =? host_const "O_RDONLY" then Some (host_const "kNtFileGenericRead")
  else if acc =? host_const "O_WRONLY" then
    Some (if flag flags "_O_APPEND" then host_const "kNtFileAppendData" else host_const "kNtFileGenericWrite")
  else if acc =? host_const "O_RDWR" then
    Some (Z.lor (host_const "kNtFileGenericRead")
            (if flag flags "_O_APPEND" then host_const "kNtFileAppendData" else host_const "kNtFileGenericWrite"))
  else None.

Definition disposition (flags : Z) : option Z :=
  if flag flags "_O_EXCL" then if flag flags "_O_CREAT" then Some (host_const "kNtCreateNew") else None
  else if flag flags "_O_CREAT" then
    Some (if flag flags "_O_TRUNC" then host_const "kNtCreateAlways" else host_const "kNtOpenAlways")
  else if flag flags "_O_TRUNC" then Some (host_const "kNtTruncateExisting")
  else Some (host_const "kNtOpenExisting").

Definition attr_if (b : bool) (name : string) : Z := if b then host_const name else 0.

Definition open_attr (flags mode : Z) : Z :=
  let attr := Z.lor (attr_if (flag flags "_O_CREAT" && has (Z.lnot mode) 128) "kNtFileAttributeReadonly")
    (Z.lor (attr_if (has (Z.lnot flags) (host_const "_O_INDEXED")) "kNtFileAttributeNotContentIndexed")
    (Z.lor (attr_if (flag flags "_O_COMPRESSED") "kNtFileAttributeCompressed")
           (attr_if (flag flags "kNtFileAttributeTemporary") "kNtFileAttributeTemporary"))) in
  let attr := if attr =? 0 then host_const "kNtFileAttributeNormal" else attr in
  Z.lor attr
    (Z.lor (Z.land flags (host_const "kNtFileFlagDeleteOnClose"))
    (Z.lor (attr_if (flag flags "_O_DIRECTORY") "kNtFileFlagBackupSemantics")
    (Z.lor (attr_if (flag flags "_O_SEQUENTIAL") "kNtFileFlagSequentialScan")
    (Z.lor (attr_if (flag flags "_O_RANDOM") "kNtFileFlagRandomAccess")
    (Z.lor (attr_if (flag flags "_O_DIRECT") "kNtFileFlagNoBuffering")
           (attr_if (has flags (Z.lor _O_SYNC _O_DSYNC)) "kNtFileFlagWriteThrough")))))).

(** The four words CreateFile is given. *)
Record nt_flags := NtFlags { nf_perm : Z; nf_share : Z; nf_disp : Z; nf_attr : Z }.

Definition GetNtOpenFlags (flags mode : Z) : res nt_flags :=
  if negb (Z.ldiff flags nt_open_known =? 0) then Err EINVAL
  else if flag flags "_O_SEQUENTIAL" && flag flags "_O_RANDOM" then Err EINVAL
  else
    match access_perm flags with
    | None => Err EINVAL
    | Some perm =>
        let perm := if flag flags "_O_CREAT"
                    then if has mode 73 then Z.lor perm (host_const "kNtGenericExecute") else perm
                    else Z.lor perm (host_const "kNtGenericExecute") in
        match disposition flags with
        | None => Err EINVAL
        | Some disp =>
            Ok (NtFlags perm (or_names ["kNtFileShareRead"; "kNtFileShareWrite"; "kNtFileShareDelete"]%string) disp
                  (open_attr flags mode))
        end
    end.
End flags.

(** ** The descriptor table and the calls *)

Inductive kind := kFdReserved | kFdFile | kFdConsole | kFdDevNull | kFdDevRandom | kFdSocket | kFdZip | kFdOther.

#[export] Instance kind_eq_dec : EqDecision kind.
Proof. solve_decision. Defined.

(** struct Fd; an entry the table does not have is kFdEmpty or out of range. *)
Record fd_slot := FdSlot { fs_kind : kind; fs_handle : Z; fs_flags : Z; fs_mode : Z; fs_cursor : option Z }.

Class NtFiles (W : Type) := {
  nt_windows : bool;
  nt_metal : bool;
  nt_silicon : bool;
  nt_vforked : W -> bool;
  nt_fds : W -> gmap Z fd_slot;
  nt_put_fds : gmap Z fd_slot -> W -> W;
  fds_lock : W -> W;
  fds_unlock : W -> W;
  reservefd : W -> res Z * W;
  releasefd : Z -> W -> W;
  mkntpathat : Z -> cstr -> Z -> W -> res (list Z) * W;
  GetFileAttributes : list Z -> W -> option Z;
  CreateFile : list Z -> nt_flags -> W -> res Z * W;
  fix_enotdir : errno -> list Z -> W -> errno;
  DuplicateHandle : Z -> W -> res Z * W;
  CloseHandle : Z -> W -> res unit * W;
  cursor_new : W -> option Z * W;
  cursor_ref : option Z -> W -> W;
  cursor_unref : Z -> W -> W;
  fcntl_setfl : Z -> Z -> W -> res unit * W;
  lock_cleanup : Z -> W -> W;
  closesocket_nt : Z -> W -> res unit * W;
  zipos_close : Z -> W -> res unit * W;
  sys_close : Z -> W -> res unit * W;
  kloghandle : W -> W;
  procfs_fd_closed : Z -> W -> W;
  procfs_memfd_closed : Z -> W -> bool * W;
  sockopt_forget : Z -> W -> W }.

Section open.
Context `{HostConsts} {W : Type} `{NtFiles W}.

Definition put_slot (fd : Z) (f : fd_slot) : M W unit :=
  modifies (fun w => nt_put_fds (<[fd := f]> (nt_fds w)) w).

(** An assignment to some of an entry's fields; the cursor stays. *)
Definition fill_slot (fd : Z) (k : kind) (handle flags mode : Z) : M W unit :=
  modifies (fun w => nt_put_fds (alter (fun f => FdSlot k handle flags mode (fs_cursor f)) fd (nt_fds w)) w).

Definition is_reparse (a : Z) : bool := flag a "kNtFileAttributeReparsePoint".
Definition is_dir (a : Z) : bool := flag a "kNtFileAttributeDirectory".
Definition acc_mode (flags : Z) : Z := Z.land flags (host_const "O_ACCMODE").

(** The no-follow flag, and the obvious refusals while the attributes are at
    hand; else the flags to go on with. *)
Definition vet_path (fattr : option Z) (flags : Z) : res Z :=
  let nofollow := flag flags "_O_NOFOLLOW" in
  if nofollow && (match fattr with Some a => is_reparse a | None => false end) then Err ELOOP
  else
    let flags := if nofollow then Z.ldiff flags (host_const "_O_NOFOLLOW") else flags in
    match fattr with
    | None => Ok flags
    | Some a =>
        if is_dir a then
          if negb (acc_mode flags =? host_const "O_RDONLY") || flag flags "_O_CREAT" then Err EISDIR
          else Ok (Z.lor flags (host_const "_O_DIRECTORY"))
        else if negb (is_reparse a) && flag flags "_O_DIRECTORY" then Err ENOTDIR
        else Ok flags
    end.

(** CreateFile with the optimistic permissions of a read-only open, which is
    tried again without them. *)
Definition create_file (path16 : list Z) (rdonly : bool) (nf : nt_flags) : M W (res Z) :=
  let extra := if rdonly then Z.lor (host_const "kNtFileWriteAttributes") (host_const "kNtFileWriteEa") else 0 in
  h ← step (CreateFile path16 (NtFlags (Z.lor (nf_perm nf) extra) (nf_share nf) (nf_disp nf) (nf_attr nf)));
  match h with
  | Err EACCES => if rdonly then step (CreateFile path16 nf) else mret h
  | _ => mret h
  end.

Definition sys_open_nt_impl (dirfd : Z) (path : cstr) (flags mode extra_attr : Z) : M W (res Z) :=
  p ← step (mkntpathat dirfd path flags);
  match p with
  | Err e => mret (Err e)
  | Ok path16 =>
      fattr ← reads (GetFileAttributes path16);
      match vet_path fattr flags with
      | Err e => mret (Err e)
      | Ok flags =>
          match GetNtOpenFlags flags mode with
          | Err e => mret (Err e)
          | Ok nf =>
              let attr := match fattr with
                          | Some _ => Z.ldiff (nf_attr nf) (host_const "kNtFileAttributeReadonly")
                          | None => nf_attr nf
                          end in
              let truncate := nf_disp nf =? host_const "kNtTruncateExisting" in
              if truncate && bool_decide (fattr = None) then
                e ← reads (fix_enotdir ENOTDIR path16); mret (Err e)
              else
                let disp := if truncate then host_const "kNtCreateAlways" else nf_disp nf in
                h ← create_file path16 (acc_mode flags =? host_const "O_RDONLY")
                      (NtFlags (nf_perm nf) (nf_share nf) disp (Z.lor attr extra_attr));
                match h with
                | Ok h => mret (Ok h)
                | Err e => e ← reads (fix_enotdir e path16); mret (Err e)
                end
          end
      end
  end.

(** The console and the null device: the entry is filled whatever CreateFile answers. *)
Definition sys_open_nt_special (fd flags mode : Z) (k : kind) (name : list Z) : M W (res Z) :=
  h ← step (CreateFile name (NtFlags (or_names ["kNtGenericRead"; "kNtGenericWrite"]%string)
              (or_names ["kNtFileShareRead"; "kNtFileShareWrite"]%string) (host_const "kNtOpenExisting") 0));
  _ ← fill_slot fd k (match h with Ok h => h | Err _ => -1 end) flags mode;
  mret (Ok fd).

Definition sys_open_nt_no_handle (fd flags mode : Z) (k : kind) : M W (res Z) :=
  _ ← fill_slot fd k (-1) flags mode;
  mret (Ok fd).

Definition sys_open_nt_dup (fd flags mode oldfd : Z) : M W (res Z) :=
  fds ← reads nt_fds;
  match fds !! oldfd with
  | None => mret (Err ENOENT)
  | Some f =>
      h ← step (DuplicateHandle (fs_handle f));
      match h with
      | Err e => mret (Err e)
      | Ok h =>
          _ ← put_slot fd (FdSlot (fs_kind f) h (fs_flags f) mode (fs_cursor f));
          _ ← modifies (cursor_ref (fs_cursor f));
          r ← step (fcntl_setfl fd flags);
          match r with
          | Ok _ => mret (Ok fd)
          | Err e => _ ← step (CloseHandle h); mret (Err e)
          end
      end
  end.

(** The digits, as an int; -1 when there are none or something else. *)
Fixpoint atoi_loop (str : list Z) (x : Z) : Z :=
  match str with
  | [] => s32 x
  | c :: str => if (48 <=? c) && (c <=? 57) then atoi_loop str (u32 (x * 10 + (c - 48))) else -1
  end.
Definition Atoi (str : list Z) : Z := if bool_decide (str = []) then -1 else atoi_loop str 0.

Definition u16s (s : string) : list Z := bytes s.

Definition open_dev (fd flags mode : Z) (name : cstr) : M W (res Z) :=
  if bool_decide (name = bytes "tty") then sys_open_nt_special fd flags mode kFdConsole (u16s "CONIN$")
  else if bool_decide (name = bytes "null") then sys_open_nt_special fd flags mode kFdDevNull (u16s "NUL")
  else if bool_decide (name = bytes "urandom") || bool_decide (name = bytes "random")
  then sys_open_nt_no_handle fd flags mode kFdDevRandom
  else if bool_decide (name = bytes "stdin") then sys_open_nt_dup fd flags mode 0
  else if bool_decide (name = bytes "stdout") then sys_open_nt_dup fd flags mode 1
  else if bool_decide (name = bytes "stderr") then sys_open_nt_dup fd flags mode 2
  else if bool_decide (take 3 name = bytes "fd/") && negb (Atoi (drop 3 name) =? -1)
  then sys_open_nt_dup fd flags mode (Atoi (drop 3 name))
  else mret (Err ENOENT).

Definition sys_open_nt (dirfd : Z) (file : cstr) (flags mode : Z) : M W (res Z) :=
  let mode := if flag flags "_O_CREAT" then mode else 0 in
  if bool_decide (take 5 file = bytes "/dev/") then
    _ ← modifies fds_lock;
    r ← step reservefd;
    rc ← (match r with
          | Err e => mret (Err e)
          | Ok fd =>
              rc ← open_dev fd flags mode (drop 5 file);
              match rc with
              | Ok fd => mret (Ok fd)
              | Err e => _ ← modifies (releasefd fd); mret (Err e)
              end
          end);
    _ ← modifies fds_unlock;
    mret rc
  else
    h ← sys_open_nt_impl dirfd file flags mode (host_const "kNtFileFlagOverlapped");
    match h with
    | Err e => mret (Err e)
    | Ok handle =>
        _ ← modifies fds_lock;
        r ← step reservefd;
        rc ← (match r with
              | Err e => mret (Err e)
              | Ok fd =>
                  c ← step cursor_new;
                  _ ← put_slot fd (FdSlot kFdFile handle flags mode c);
                  mret (Ok fd)
              end);
        _ ← modifies fds_unlock;
        match rc with
        | Ok fd => mret (Ok fd)
        | Err e => _ ← step (CloseHandle handle); mret (Err e)
        end
    end.

(** ** Closing *)

Definition close_handle (f : fd_slot) : M W (res unit) :=
  _ ← (match fs_cursor f with Some c => modifies (cursor_unref c) | None => mret tt end);
  step (CloseHandle (fs_handle f)).

Definition sys_close_nt (fd fd_for_locks : Z) : M W (res unit) :=
  fds ← reads nt_fds;
  match fds !! fd with
  | None => mret (Err EBADF)
  | Some f =>
      match fs_kind f with
      | kFdFile =>
          _ ← modifies (lock_cleanup fd_for_locks);
          _ ← modifies (procfs_fd_closed fd);
          close_handle f
      | kFdSocket => _ ← modifies (sockopt_forget fd); step (closesocket_nt fd)
      | kFdZip => step (zipos_close fd)
      | kFdReserved =>
          ours ← step (procfs_memfd_closed fd);
          if (ours : bool) then mret (Ok tt) else close_handle f
      | _ => close_handle f
      end
  end.

Definition is_kind (fd : Z) (k : kind) (w : W) : bool :=
  match nt_fds w !! fd with Some f => bool_decide (fs_kind f = k) | None => false end.

Definition close_impl (fd : Z) : M W (res unit) :=
  if fd <? 0 then mret (Err EBADF)
  else
    _ ← (if fd =? 2 then modifies kloghandle else mret tt);
    zip ← reads (is_kind fd kFdZip);
    if (zip : bool) then step (zipos_close fd)
    else if negb nt_windows && negb nt_metal then step (sys_close fd)
    else if nt_windows then sys_close_nt fd fd
    else mret (Ok tt).

Definition close_release (fd : Z) : M W (res unit) :=
  rc ← close_impl fd;
  vforked ← reads nt_vforked;
  _ ← (if negb (vforked : bool) then modifies (releasefd fd) else mret tt);
  mret rc.

Definition shim_close (fd : Z) : M W (res unit) :=
  _ ← (if (0 <=? fd) && nt_silicon
       then _ ← step (procfs_memfd_closed fd); modifies (procfs_fd_closed fd) else mret tt);
  zip ← reads (is_kind fd kFdZip);
  if (zip : bool) then
    _ ← modifies fds_lock;
    rc ← close_release fd;
    _ ← modifies fds_unlock;
    mret rc
  else close_release fd.
End open.

(** ** Handles, numbers and the lock *)

Inductive event := Lock | Unlock | Convert.

(** What the host and cosmo's descriptor helpers do to the table, to the
    set of open handles and to the order of locking and path conversion. *)
Class NtLedger (W : Type) `{NtFiles W} := {
  handles : W -> gset Z;
  trace : W -> list event;
  same (w w' : W) : Prop := nt_fds w' = nt_fds w /\ handles w' = handles w /\ trace w' = trace w;
  no_invalid w : -1 ∉ handles w;
  put_fds_ledger m w : nt_fds (nt_put_fds m w) = m /\ handles (nt_put_fds m w) = handles w /\ trace (nt_put_fds m w) = trace w;
  lock_ledger w : nt_fds (fds_lock w) = nt_fds w /\ handles (fds_lock w) = handles w /\ trace (fds_lock w) = trace w ++ [Lock];
  unlock_ledger w : nt_fds (fds_unlock w) = nt_fds w /\ handles (fds_unlock w) = handles w /\ trace (fds_unlock w) = trace w ++ [Unlock];
  reserve_ledger w :
    let '(r, w') := reservefd w in
    handles w' = handles w /\ trace w' = trace w /\
    match r with
    | Ok fd => nt_fds w !! fd = None /\ exists f, nt_fds w' = <[fd := f]> (nt_fds w)
    | Err _ => nt_fds w' = nt_fds w
    end;
  release_ledger fd w :
    nt_fds (releasefd fd w) = delete fd (nt_fds w) /\ handles (releasefd fd w) = handles w /\ trace (releasefd fd w) = trace w;
  convert_ledger dirfd path flags w :
    let w' := snd (mkntpathat dirfd path flags w) in
    nt_fds w' = nt_fds w /\ handles w' = handles w /\ trace w' = trace w ++ [Convert];
  create_ledger path nf w :
    let '(r, w') := CreateFile path nf w in
    nt_fds w' = nt_fds w /\ trace w' = trace w /\
    match r with Ok h => h ∉ handles w /\ handles w' = {[h]} ∪ handles w | Err _ => handles w' = handles w end;
  duplicate_ledger h0 w :
    let '(r, w') := DuplicateHandle h0 w in
    nt_fds w' = nt_fds w /\ trace w' = trace w /\
    match r with Ok h => h ∉ handles w /\ handles w' = {[h]} ∪ handles w | Err _ => handles w' = handles w end;
  close_ledger h w :
    let w' := snd (CloseHandle h w) in nt_fds w' = nt_fds w /\ trace w' = trace w /\ handles w' = handles w ∖ {[h]};
  closesocket_ledger fd f w : nt_fds w !! fd = Some f ->
    let w' := snd (closesocket_nt fd w) in nt_fds w' = nt_fds w /\ trace w' = trace w /\ handles w' = handles w ∖ {[fs_handle f]};
  setfl_ledger fd flags w :
    let w' := snd (fcntl_setfl fd flags w) in
    handles w' = handles w /\ trace w' = trace w /\
    exists fl, nt_fds w' = alter (fun f => FdSlot (fs_kind f) (fs_handle f) fl (fs_mode f) (fs_cursor f)) fd (nt_fds w);
  cursor_new_ledger w : same w (snd (cursor_new w));
  cursor_ref_ledger c w : same w (cursor_ref c w);
  cursor_unref_ledger c w : same w (cursor_unref c w);
  lock_cleanup_ledger fd w : same w (lock_cleanup fd w);
  fd_closed_ledger fd w : same w (procfs_fd_closed fd w);
  kloghandle_ledger w : same w (kloghandle w);
  forget_ledger fd w : same w (sockopt_forget fd w) }.

Section ledger.
Context `{HostConsts} {W : Type} `{!NtFiles W} `{!NtLedger W}.

(** The entry of an open that answers [fd], and its handle, new to the set
    where there is one. *)
Definition opened (w : W) (fd : Z) (w' : W) : Prop :=
  nt_fds w !! fd = None /\ exists f, nt_fds w' = <[fd := f]> (nt_fds w) /\
  ((fs_handle f ∉ handles w /\ handles w' = {[fs_handle f]} ∪ handles w) \/
   (fs_handle f = -1 /\ handles w' = handles w)).

Definition open_answer (w : W) (r : res Z) (w' : W) : Prop :=
  match r with
  | Ok fd => opened w fd w'
  | Err _ => nt_fds w' = nt_fds w /\ handles w' = handles w
  end.

(** In a table where [fd] was just reserved: it is filled with a handle, or
    it is as it was but for that entry. *)
Definition filled (w : W) (fd : Z) (r : res Z) (w' : W) : Prop :=
  trace w' = trace w /\
  match r with
  | Ok fd' => fd' = fd /\ exists f, nt_fds w' = <[fd := f]> (nt_fds w) /\
      ((fs_handle f ∉ handles w /\ handles w' = {[fs_handle f]} ∪ handles w) \/ (fs_handle f = -1 /\ handles w' = handles w))
  | Err _ => handles w' = handles w /\ delete fd (nt_fds w') = delete fd (nt_fds w)
  end.

Lemma alter_present (g : fd_slot -> fd_slot) fd (m : gmap Z fd_slot) f : m !! fd = Some f -> alter g fd m = <[fd := g f]> m.
Proof.
  intros Hm. apply map_eq. intros i. destruct (decide (i = fd)) as [->|Hne].
  - by rewrite lookup_alter_eq, Hm, lookup_insert_eq.
  - by rewrite lookup_alter_ne, lookup_insert_ne.
Qed.

Lemma special_post fd flags mode k name w : is_Some (nt_fds w !! fd) ->
  post (sys_open_nt_special fd flags mode k name) w (filled w fd).
Proof.
  intros [f Hf]. unfold sys_open_nt_special. apply post_bind, post_step.
  set (nf := NtFlags _ _ _ _). pose proof (create_ledger name nf w) as Hc. destruct (CreateFile name nf w) as [r w1].
  destruct Hc as (Hfd & Ht & Hh). apply post_bind, post_modifies, post_ret.
  set (g := fun f => FdSlot k (match r with Ok h => h | Err _ => -1 end) flags mode (fs_cursor f)).
  destruct (put_fds_ledger (alter g fd (nt_fds w1)) w1) as (Hp & Hph & Hpt). split; [congruence|].
  split; [done|]. exists (g f). split; [by rewrite Hp, Hfd, (alter_present g fd _ f Hf)|].
  rewrite Hph. destruct r as [h|e]; [left|right]; done.
Qed.

Lemma no_handle_post fd flags mode k w : is_Some (nt_fds w !! fd) ->
  post (sys_open_nt_no_handle fd flags mode k) w (filled w fd).
Proof.
  intros [f Hf]. unfold sys_open_nt_no_handle. apply post_bind, post_modifies, post_ret.
  set (g := fun f => FdSlot k (-1) flags mode (fs_cursor f)).
  destruct (put_fds_ledger (alter g fd (nt_fds w)) w) as (Hp & Hph & Hpt). split; [done|].
  split; [done|]. exists (g f). split; [by rewrite Hp, (alter_present g fd _ f Hf)|]. by right.
Qed.

Lemma dup_post fd flags mode oldfd w : is_Some (nt_fds w !! fd) ->
  post (sys_open_nt_dup fd flags mode oldfd) w (filled w fd).
Proof.
  intros Hin. unfold sys_open_nt_dup. apply post_bind, post_reads.
  destruct (nt_fds w !! oldfd) as [f|] eqn:Ef; [|by apply post_ret].
  apply post_bind, post_step. pose proof (duplicate_ledger (fs_handle f) w) as Hd.
  destruct (DuplicateHandle _ w) as [r w1]. destruct Hd as (Hfd & Ht & Hh). destruct r as [h|e]; [|apply post_ret; split; [done|split; [done|by rewrite Hfd]]].
  destruct Hh as [Hnew Hh]. set (g := FdSlot (fs_kind f) h (fs_flags f) mode (fs_cursor f)).
  apply post_bind, post_modifies, post_bind, post_modifies, post_bind, post_step.
  destruct (put_fds_ledger (<[fd := g]> (nt_fds w1)) w1) as (Hp & Hph & Hpt). set (w2 := nt_put_fds _ w1) in *.
  destruct (cursor_ref_ledger (fs_cursor f) w2) as (Hc1 & Hc2 & Hc3). set (w3 := cursor_ref _ w2) in *.
  pose proof (setfl_ledger fd flags w3) as Hs. destruct (fcntl_setfl fd flags w3) as [r w4]. cbn [snd] in Hs.
  destruct Hs as (Hs1 & Hs2 & fl & Hs3). rewrite Hc1, Hp, Hfd in Hs3.
  rewrite (alter_present _ fd _ g) in Hs3 by apply lookup_insert_eq. rewrite insert_insert_eq in Hs3.
  assert (Hhh : handles w4 = {[h]} ∪ handles w) by congruence. destruct r as [[]|e].
  - apply post_ret. split; [congruence|]. split; [done|]. eexists. split; [exact Hs3|]. by left.
  - apply post_bind, post_step. pose proof (close_ledger h w4) as Hcl. destruct (CloseHandle h w4) as [r w5].
    cbn [snd] in Hcl. destruct Hcl as (Hl1 & Hl2 & Hl3). apply post_ret. split; [congruence|].
    split; [rewrite Hl3, Hhh; set_solver|]. by rewrite Hl1, Hs3, delete_insert_eq.
Qed.

Lemma open_dev_post fd flags mode name w : is_Some (nt_fds w !! fd) -> post (open_dev fd flags mode name) w (filled w fd).
Proof.
  intros Hin. unfold open_dev.
  repeat match goal with |- post (if ?b then _ else _) _ _ => destruct b end;
    by (apply special_post || apply no_handle_post || apply dup_post || apply post_ret).
Qed.

(** A path opened or refused: at most a handle more. *)
Definition file_opened (w : W) (r : res Z) (w' : W) : Prop :=
  nt_fds w' = nt_fds w /\ trace w' = trace w ++ [Convert] /\
  match r with Ok h => h ∉ handles w /\ handles w' = {[h]} ∪ handles w | Err _ => handles w' = handles w end.

Lemma create_file_post path rdonly nf w : 
  post (create_file path rdonly nf) w (fun r w' => nt_fds w' = nt_fds w /\ trace w' = trace w /\
    match r with Ok h => h ∉ handles w /\ handles w' = {[h]} ∪ handles w | Err _ => handles w' = handles w end).
Proof.
  unfold create_file. set (nf' := NtFlags _ _ _ _). apply post_bind, post_step.
  pose proof (create_ledger path nf' w) as Hc. destruct (CreateFile path nf' w) as [r w1]. destruct Hc as (Hfd & Ht & Hh).
  destruct r as [h|e]; [by apply post_ret|]. destruct e; try by apply post_ret. destruct rdonly; [|by apply post_ret].
  apply post_step. pose proof (create_ledger path nf w1) as Hc. destruct (CreateFile path nf w1) as [r w2].
  destruct Hc as (Hfd2 & Ht2 & Hh2). split_and!; [congruence|congruence|]. by rewrite Hh in Hh2.
Qed.

Lemma impl_post dirfd path flags mode extra w : post (sys_open_nt_impl dirfd path flags mode extra) w (file_opened w).
Proof.
  unfold sys_open_nt_impl. apply post_bind, post_step. pose proof (convert_ledger dirfd path flags w) as Hc.
  destruct (mkntpathat dirfd path flags w) as [p w1]. cbn [snd] in Hc. destruct Hc as (Hfd & Hh & Ht).
  destruct p as [path16|e]; [|by apply post_ret]. apply post_bind, post_reads.
  destruct (vet_path _ flags) as [flags'|e]; [|by apply post_ret].
  destruct (GetNtOpenFlags flags' mode) as [nf|e]; [|by apply post_ret].
  destruct (_ && _); [by apply post_bind, post_reads, post_ret|].
  apply post_bind. eapply post_impl; [apply create_file_post|]. intros r w2 (Hfd2 & Ht2 & Hh2).
  rewrite Hfd, Ht, Hh in *. destruct r as [h|e]; [by apply post_ret|]. by apply post_bind, post_reads, post_ret.
Qed.

Lemma sys_open_nt_post dirfd file flags mode w :
  post (sys_open_nt dirfd file flags mode) w (fun r w' =>
    open_answer w r w' /\
    exists t, trace w' = trace w ++ t /\ (t = [Lock; Unlock] \/ t = [Convert] \/ t = [Convert; Lock; Unlock])).
Proof.
  unfold sys_open_nt. set (m := if flag flags "_O_CREAT" then mode else 0). case_bool_decide.
  - apply post_bind, post_modifies, post_bind, post_step. destruct (lock_ledger w) as (Hl1 & Hl2 & Hl3).
    pose proof (reserve_ledger (fds_lock w)) as Hr. destruct (reservefd _) as [r w1]. destruct Hr as (Hr1 & Hr2 & Hr3).
    apply post_bind. rewrite Hl1, Hl2, Hl3 in *. destruct r as [fd|e].
    + destruct Hr3 as [Hnew [f Hf]]. apply post_bind.
      eapply post_impl; [apply open_dev_post; rewrite Hf, lookup_insert_eq; by eexists|].
      intros rc w2 [Ht2 Hrc]. destruct rc as [fd'|e].
      * destruct Hrc as (-> & g & Hg & Hh). apply post_ret, post_bind, post_modifies, post_ret.
        destruct (unlock_ledger w2) as (Hu1 & Hu2 & Hu3). split.
        -- split; [done|]. exists g. rewrite Hu1, Hg, Hf, insert_insert_eq, Hu2. split; [done|]. by rewrite Hr1 in Hh.
        -- exists [Lock; Unlock]. split; [by rewrite Hu3, Ht2, Hr2, <- app_assoc|by left].
      * destruct Hrc as [Hh Hdel]. apply post_bind, post_modifies, post_ret, post_bind, post_modifies, post_ret.
        destruct (release_ledger fd w2) as (Hv1 & Hv2 & Hv3). destruct (unlock_ledger (releasefd fd w2)) as (Hu1 & Hu2 & Hu3). split.
        -- split; [|congruence]. rewrite Hu1, Hv1, Hdel, Hf, delete_insert_eq. by apply delete_id.
        -- exists [Lock; Unlock]. split; [by rewrite Hu3, Hv3, Ht2, Hr2, <- app_assoc|by left].
    + apply post_ret, post_bind, post_modifies, post_ret. destruct (unlock_ledger w1) as (Hu1 & Hu2 & Hu3). split.
      * split; congruence.
      * exists [Lock; Unlock]. split; [by rewrite Hu3, Hr2, <- app_assoc|by left].
  - apply post_bind. eapply post_impl; [apply impl_post|]. intros r w1 (Hfd & Ht & Hh). destruct r as [h|e].
    2:{ apply post_ret. split; [done|]. exists [Convert]. split; [done|by right; left]. }
    destruct Hh as [Hnew Hh]. apply post_bind, post_modifies, post_bind, post_step. destruct (lock_ledger w1) as (Hl1 & Hl2 & Hl3).
    pose proof (reserve_ledger (fds_lock w1)) as Hr. destruct (reservefd _) as [r w2]. destruct Hr as (Hr1 & Hr2 & Hr3).
    apply post_bind. rewrite Hl1, Hl2, Hl3, Hfd, Ht, Hh in *.
    assert (Hend : forall u, trace u = trace w2 ++ [Unlock] -> exists t, trace u = trace w ++ t /\
      (t = [Lock; Unlock] \/ t = [Convert] \/ t = [Convert; Lock; Unlock])).
    { intros u Hu. exists [Convert; Lock; Unlock]. split; [by rewrite Hu, Hr2, <- !app_assoc|by right; right]. }
    destruct r as [fd|e].
    + destruct Hr3 as [Hfree [f Hf]]. apply post_bind, post_step.
      pose proof (cursor_new_ledger w2) as Hc. destruct (cursor_new w2) as [c w3]. destruct Hc as (Hc1 & Hc2 & Hc3). cbn [snd] in *.
      apply post_bind, post_modifies, post_ret, post_bind, post_modifies, post_ret.
      set (g := FdSlot kFdFile h flags m c).
      destruct (put_fds_ledger (<[fd := g]> (nt_fds w3)) w3) as (Hp1 & Hp2 & Hp3). set (w4 := nt_put_fds _ w3) in *.
      destruct (unlock_ledger w4) as (Hu1 & Hu2 & Hu3). split; [|apply Hend; congruence].
      split; [done|]. exists g. split; [by rewrite Hu1, Hp1, Hc1, Hf, insert_insert_eq|]. left. change (fs_handle g) with h. split; [done|]. congruence.
    + apply post_ret, post_bind, post_modifies, post_bind, post_step. destruct (unlock_ledger w2) as (Hu1 & Hu2 & Hu3).
      pose proof (close_ledger h (fds_unlock w2)) as Hcl. destruct (CloseHandle h _) as [rc w3]. cbn [snd] in Hcl.
      destruct Hcl as (Hc1 & Hc2 & Hc3). apply post_ret. split; [|apply Hend; congruence].
      split; [congruence|]. rewrite Hc3, Hu2, Hr1. set_solver.
Qed.

(** An open on Windows leaks nothing on any outcome: it answers a number
    that was free, with an entry of its own and a handle that was not open
    before (or the invalid one), or an error with the descriptor table and
    the open handles as they were; the table's lock is taken at most once
    and given back, and no path is converted while it is held. *)
Theorem open_nt_leaks_nothing dirfd file flags mode w :
  post (sys_open_nt dirfd file flags mode) w (fun r w' =>
    open_answer w r w' /\
    exists t, trace w' = trace w ++ t /\ (t = [Lock; Unlock] \/ t = [Convert] \/ t = [Convert; Lock; Unlock])).
Proof. apply sys_open_nt_post. Qed.
End ledger.

(** ** Close undoes open *)

Section closing.
Context `{HostConsts} {W : Type} `{!NtFiles W} `{!NtLedger W}.

(** The entry and its handle gone, all else as it was. *)
Definition closed (fd h : Z) (w w' : W) : Prop :=
  nt_fds w' = delete fd (nt_fds w) /\ handles w' = handles w ∖ {[h]} /\ trace w' = trace w.

Lemma close_handle_post f w : post (close_handle f) w (fun _ w' =>
  nt_fds w' = nt_fds w /\ handles w' = handles w ∖ {[fs_handle f]} /\ trace w' = trace w).
Proof.
  unfold close_handle. apply post_bind.
  assert (Hgo : forall w1, same w w1 -> post (step (CloseHandle (fs_handle f))) w1 (fun _ w' =>
    nt_fds w' = nt_fds w /\ handles w' = handles w ∖ {[fs_handle f]} /\ trace w' = trace w)).
  { intros w1 (H1 & H2 & H3). apply post_step. pose proof (close_ledger (fs_handle f) w1) as Hc.
    destruct (CloseHandle _ w1) as [r w2]. cbn [snd] in Hc. destruct Hc as (Hc1 & Hc2 & Hc3). split_and!; congruence. }
  destruct (fs_cursor f) as [c|]; [apply post_modifies, Hgo, cursor_unref_ledger|by apply post_ret, Hgo].
Qed.

Lemma sys_close_post fd f fdl w : nt_fds w !! fd = Some f -> fs_kind f <> kFdZip -> fs_kind f <> kFdReserved ->
  post (sys_close_nt fd fdl) w (fun _ w' =>
    nt_fds w' = nt_fds w /\ handles w' = handles w ∖ {[fs_handle f]} /\ trace w' = trace w).
Proof.
  intros Hf Hz Hr. unfold sys_close_nt. apply post_bind, post_reads. rewrite Hf.
  pose proof (close_handle_post f w) as Hc. destruct (fs_kind f) eqn:Ek; try done.
  - apply post_bind, post_modifies, post_bind, post_modifies. clear Hc.
    destruct (lock_cleanup_ledger fdl w) as (H1 & H2 & H3). set (w1 := lock_cleanup fdl w) in *.
    destruct (fd_closed_ledger fd w1) as (H4 & H5 & H6).
    eapply post_impl; [apply close_handle_post|]. intros r w2 (Hc1 & Hc2 & Hc3). split_and!; congruence.
  - apply post_bind, post_modifies, post_step. destruct (forget_ledger fd w) as (H1 & H2 & H3).
    pose proof (closesocket_ledger fd f (sockopt_forget fd w)) as Hs. rewrite H1 in Hs. specialize (Hs Hf).
    destruct (closesocket_nt fd _) as [r w1]. cbn [snd] in Hs. destruct Hs as (Hs1 & Hs2 & Hs3). split_and!; congruence.
Qed.

Lemma shim_close_post fd f w : nt_windows = true -> nt_silicon = false -> nt_metal = false ->
  (forall w', nt_vforked w' = false) -> 0 <= fd ->
  nt_fds w !! fd = Some f -> fs_kind f <> kFdZip -> fs_kind f <> kFdReserved ->
  post (shim_close fd) w (fun _ w' => closed fd (fs_handle f) w w').
Proof.
  intros Hwin Hsil _ Hvf Hfd Hf Hz Hr. unfold shim_close. rewrite Hsil, andb_false_r.
  apply post_bind, post_ret, post_bind, post_reads.
  assert (Hk : forall w1, same w w1 -> is_kind fd kFdZip w1 = false).
  { intros w1 (H1 & _). unfold is_kind. rewrite H1, Hf. by apply bool_decide_eq_false. }
  rewrite (Hk w) by done. unfold close_release, close_impl. rewrite (proj2 (Z.ltb_ge fd 0)) by lia.
  apply post_bind, post_bind.
  assert (Hgo : forall w1, same w w1 ->
    post (zip ← reads (is_kind fd kFdZip); if zip : bool then step (zipos_close fd)
          else if negb nt_windows && negb nt_metal then step (sys_close fd)
          else if nt_windows then sys_close_nt fd fd else mret (Ok tt)) w1
      (fun rc w2 => post (vforked ← reads nt_vforked;
         _ ← (if negb (vforked : bool) then modifies (releasefd fd) else mret tt); mret rc) w2
         (fun _ w' => closed fd (fs_handle f) w w'))).
  { intros w1 Hs. apply post_bind, post_reads. rewrite (Hk w1 Hs), Hwin. destruct Hs as (H1 & H2 & H3).
    cbn [negb andb]. eapply post_impl; [apply (sys_close_post fd f); [by rewrite H1|done..]|].
    intros rc w2 (Hc1 & Hc2 & Hc3). apply post_bind, post_reads. rewrite Hvf. apply post_bind, post_modifies, post_ret.
    destruct (release_ledger fd w2) as (Hr1 & Hr2 & Hr3). split_and!; congruence. }
  destruct (fd =? 2); [apply post_modifies, Hgo, kloghandle_ledger|by apply post_ret, Hgo].
Qed.

(** Close undoes open: closing the number an open answered leaves the
    descriptor table and the set of open handles exactly as they were before
    the open, for every kind of file the open can make but copies of zip
    files and of reserved entries. *)
Theorem close_undoes_open dirfd file flags mode w fd w1 f :
  nt_windows = true -> nt_silicon = false -> nt_metal = false -> (forall w', nt_vforked w' = false) ->
  sys_open_nt dirfd file flags mode w = Some (Ok fd, w1) -> 0 <= fd ->
  nt_fds w1 !! fd = Some f -> fs_kind f <> kFdZip -> fs_kind f <> kFdReserved ->
  exists rc w2, shim_close fd w1 = Some (rc, w2) /\ nt_fds w2 = nt_fds w /\ handles w2 = handles w.
Proof.
  intros Hwin Hsil Hmet Hvf Hopen Hfd Hf Hz Hr.
  assert (Ho : opened w fd w1).
  { pose proof (sys_open_nt_post dirfd file flags mode w) as Hp. unfold post in Hp. rewrite Hopen in Hp. by destruct Hp. }
  destruct Ho as (Hfree & g & Hg & Hh). assert (g = f) as -> by (rewrite Hg, lookup_insert_eq in Hf; congruence).
  pose proof (shim_close_post fd f w1 Hwin Hsil Hmet Hvf Hfd Hf Hz Hr) as Hp.
  apply post_run in Hp as (rc & w2 & Hrun & Hc1 & Hc2 & _). exists rc, w2. split; [done|]. split.
  - rewrite Hc1, Hg, delete_insert_eq. by apply delete_id.
  - rewrite Hc2. destruct Hh as [[Hnew ->]|[E ->]]; [set_solver|]. rewrite E. pose proof (no_invalid w). set_solver.
Qed.
End closing.

(** ** What an open does to a file *)

(** The values the code relies on telling apart: the five dispositions, and
    the bits the vetting changes from those that say what to create. *)
Definition consts_apart `{HostConsts} : Prop :=
  NoDup (host_const <$> ["kNtCreateNew"; "kNtCreateAlways"; "kNtOpenExisting"; "kNtOpenAlways"; "kNtTruncateExisting"]%string) /\
  Forall (fun n => Z.land (host_const "_O_NOFOLLOW") (host_const n) = 0 /\ Z.land (host_const "_O_DIRECTORY") (host_const n) = 0)
    ["_O_CREAT"; "_O_EXCL"; "_O_TRUNC"]%string.

(** A volume: the bytes of the file a name leads to, symbolic links followed,
    and nothing if there is none, as behind a link whose target is missing.
    GetFileAttributes answers for a link, not for its target, and may fail
    for other reasons than an absent file; what it answers for a name that is
    no link is a file's. CreateFile follows links; its dispositions are as
    documented, and a failed one has changed nothing. *)
Class NtVolume (W : Type) `{HostConsts} `{NtFiles W} := {
  found : W -> list Z -> option (list Z);
  attributes_exist p w a :
    GetFileAttributes p w = Some a -> is_reparse a = false -> found w p <> None;
  convert_volume dirfd path flags w : found (snd (mkntpathat dirfd path flags w)) = found w;
  create_volume p nf w :
    let '(r, w') := CreateFile p nf w in
    match r with
    | Err _ => found w' p = found w p
    | Ok _ =>
        match found w p with
        | None => found w' p = Some [] /\ nf_disp nf <> host_const "kNtOpenExisting" /\ nf_disp nf <> host_const "kNtTruncateExisting"
        | Some c => nf_disp nf <> host_const "kNtCreateNew" /\
            found w' p = Some (if (nf_disp nf =? host_const "kNtCreateAlways") || (nf_disp nf =? host_const "kNtTruncateExisting")
                               then [] else c)
        end
    end }.

Section posix.
Context `{HostConsts} {W : Type} `{!NtFiles W} `{!NtVolume W}.

Definition creates (flags : Z) : bool := flag flags "_O_CREAT".
Definition excludes (flags : Z) : bool := flag flags "_O_EXCL".
Definition truncates (flags : Z) : bool := flag flags "_O_TRUNC".

(** open(2): what a successful open found and left at the path. *)
Definition posix_open (flags : Z) (before after : option (list Z)) : Prop :=
  (excludes flags = true -> creates flags = true /\ before = None) /\
  (creates flags = false -> before <> None) /\
  after = Some (match before with Some c => if truncates flags then [] else c | None => [] end).

Lemma vet_keeps fattr flags flags' : consts_apart -> vet_path fattr flags = Ok flags' ->
  creates flags' = creates flags /\ excludes flags' = excludes flags /\ truncates flags' = truncates flags.
Proof.
  intros [_ Hbits] Hv.
  assert (Hkeep : forall n, n ∈ ["_O_CREAT"; "_O_EXCL"; "_O_TRUNC"]%string -> flag flags' n = flag flags n).
  { intros n Hn. rewrite Forall_forall in Hbits. destruct (Hbits n Hn) as [H1 H2]. unfold flag.
    assert (Hl : forall x b, Z.land b (host_const n) = 0 -> has (Z.ldiff x b) (host_const n) = has x (host_const n)).
    { intros x b Hb. unfold has. do 2 f_equal. apply Z.bits_inj'. intros i Hi. rewrite !Z.land_spec, Z.ldiff_spec.
      apply (f_equal (fun z => Z.testbit z i)) in Hb. rewrite Z.land_spec, Z.bits_0 in Hb.
      destruct (Z.testbit x i), (Z.testbit b i), (Z.testbit (host_const n) i); done. }
    assert (Ho : forall x b, Z.land b (host_const n) = 0 -> has (Z.lor x b) (host_const n) = has x (host_const n)).
    { intros x b Hb. rewrite has_lor_l. unfold has at 2. by rewrite Hb, orb_false_r. }
    unfold vet_path in Hv. destruct (_ && _); [done|].
    destruct fattr as [a|]; [destruct (is_dir a); [destruct (_ || _); [done|]|destruct (_ && _); [done|]]|];
      injection Hv as <-; rewrite ?Ho by done; (destruct (flag flags "_O_NOFOLLOW"); [by rewrite Hl|done]). }
  unfold creates, excludes, truncates. rewrite !Hkeep; set_solver.
Qed.

Lemma disposition_spec flags d : disposition flags = Some d ->
  (excludes flags = true -> creates flags = true) /\
  d = host_const (if excludes flags then "kNtCreateNew" else if creates flags
        then if truncates flags then "kNtCreateAlways" else "kNtOpenAlways"
        else if truncates flags then "kNtTruncateExisting" else "kNtOpenExisting").
Proof.
  unfold disposition, excludes, creates, truncates. destruct (flag flags "_O_EXCL"), (flag flags "_O_CREAT"), (flag flags "_O_TRUNC");
    intros [= <-]; done.
Qed.

Lemma flags_disp flags mode nf : GetNtOpenFlags flags mode = Ok nf -> disposition flags = Some (nf_disp nf).
Proof.
  unfold GetNtOpenFlags. destruct (negb _); [done|]. destruct (_ && _); [done|].
  destruct (access_perm flags); [|done]. destruct (disposition flags) as [d|]; [|done]. by intros [= <-].
Qed.

(** The outcome of a call that may have opened the file [p] leads to. *)
Definition volume_ok (flags : Z) (p : list Z) (w : W) (r : res Z) (w' : W) : Prop :=
  match r with Err _ => found w' p = found w p | Ok _ => posix_open flags (found w p) (found w' p) end.

(** The name is a link whose target is missing. *)
Definition dangling (p : list Z) (w : W) : bool :=
  match GetFileAttributes p w with
  | Some a => is_reparse a && bool_decide (found w p = None)
  | None => false
  end.

Lemma dispositions_differ a b : consts_apart ->
  a ∈ ["kNtCreateNew"; "kNtCreateAlways"; "kNtOpenExisting"; "kNtOpenAlways"; "kNtTruncateExisting"]%string ->
  b ∈ ["kNtCreateNew"; "kNtCreateAlways"; "kNtOpenExisting"; "kNtOpenAlways"; "kNtTruncateExisting"]%string ->
  a <> b -> host_const a =? host_const b = false.
Proof.
  intros [Hnd _] Ha Hb Hne. apply Z.eqb_neq. intros He.
  apply list_elem_of_lookup in Ha as [i Hi]. apply list_elem_of_lookup in Hb as [j Hj].
  pose proof (NoDup_fmap_lookup_inj host_const _ i j a b Hnd Hi Hj He) as E. subst j. congruence.
Qed.

Lemma create_posix flags p nf w d : consts_apart -> disposition flags = Some d ->
  (d = host_const "kNtTruncateExisting" -> found w p <> None) ->
  nf_disp nf = (if d =? host_const "kNtTruncateExisting" then host_const "kNtCreateAlways" else d) ->
  let '(r, w') := CreateFile p nf w in volume_ok flags p w r w'.
Proof.
  intros Hapart Hd Htr Hnf. pose proof (create_volume p nf w) as Hc.
  destruct (CreateFile p nf w) as [r w']. unfold volume_ok. destruct r as [h|e]; [|done].
  destruct (disposition_spec flags d Hd) as [Hex ->].
  assert (Hne : forall a b, a ∈ ["kNtCreateNew"; "kNtCreateAlways"; "kNtOpenExisting"; "kNtOpenAlways"; "kNtTruncateExisting"]%string ->
    b ∈ ["kNtCreateNew"; "kNtCreateAlways"; "kNtOpenExisting"; "kNtOpenAlways"; "kNtTruncateExisting"]%string ->
    a <> b -> host_const a =? host_const b = false) by (intros a b; by apply dispositions_differ).
  unfold posix_open. destruct (excludes flags), (creates flags), (truncates flags); try (by discriminate (Hex eq_refl));
    rewrite ?Z.eqb_refl, ?(Hne _ "kNtTruncateExisting"%string) in Hnf by set_solver; rewrite Hnf in Hc;
    (destruct (found w p) as [c|];
      [destruct Hc as [Hc1 Hc2];
       rewrite ?Z.eqb_refl, ?(Hne _ "kNtTruncateExisting"%string), ?(Hne _ "kNtCreateAlways"%string) in Hc2 by set_solver
      |destruct Hc as (Hc1 & Hc2 & Hc3)]);
    first [done|by destruct Htr|by split_and!].
Qed.

Lemma create_file_posix flags p rdonly nf w d : consts_apart -> disposition flags = Some d ->
  (d = host_const "kNtTruncateExisting" -> found w p <> None) ->
  nf_disp nf = (if d =? host_const "kNtTruncateExisting" then host_const "kNtCreateAlways" else d) ->
  post (create_file p rdonly nf) w (volume_ok flags p w).
Proof.
  intros Hapart Hd Htr Hnf. unfold create_file. set (nf' := NtFlags _ _ _ _).
  apply post_bind, post_step. pose proof (create_posix flags p nf' w d Hapart Hd Htr Hnf) as Hc.
  destruct (CreateFile p nf' w) as [r w1]. destruct r as [h|e]; [by apply post_ret|].
  destruct e; try by apply post_ret. destruct rdonly; [|by apply post_ret].
  apply post_step. cbn [volume_ok] in Hc. rename Hc into Hp1. rewrite <- Hp1 in Htr.
  pose proof (create_posix flags p nf w1 d Hapart Hd Htr Hnf) as Hc.
  destruct (CreateFile p nf w1) as [r w2]. unfold volume_ok in *. by rewrite Hp1 in Hc.
Qed.

(** C19: What an open does to the file its name leads to is what POSIX says of
    its flags, the name being no link whose target is missing and nobody else
    changing the file meanwhile: when it succeeds, the file was there or was
    to be created, was not there if the creation is exclusive, and is empty
    afterwards if it is new or to be truncated, else as it was; when it
    fails, by whatever call and after whatever retry, it has not changed. *)
Theorem open_nt_is_posix dirfd path flags mode extra w p w0 : consts_apart ->
  mkntpathat dirfd path flags w = (Ok p, w0) -> dangling p w0 = false ->
  post (sys_open_nt_impl dirfd path flags mode extra) w (volume_ok flags p w).
Proof.
  intros Hapart Hconv Hdang. unfold sys_open_nt_impl. apply post_bind, post_step.
  pose proof (convert_volume dirfd path flags w) as Hv. rewrite Hconv in Hv |- *. cbn [snd] in Hv.
  assert (Hstop : forall e, post (mret (Err e)) w0 (volume_ok flags p w))
    by (intros e; apply post_ret; unfold volume_ok; by rewrite Hv).
  apply post_bind, post_reads.
  destruct (vet_path (GetFileAttributes p w0) flags) as [flags'|e] eqn:Evet; [|apply Hstop].
  destruct (vet_keeps _ _ _ Hapart Evet) as (K1 & K2 & K3).
  destruct (GetNtOpenFlags flags' mode) as [nf|e] eqn:Enf; [|apply Hstop].
  pose proof (flags_disp _ _ _ Enf) as Hd.
  destruct (_ && _) eqn:Etr; [apply post_bind, post_reads, Hstop|].
  assert (Hex : nf_disp nf = host_const "kNtTruncateExisting" -> found w0 p <> None).
  { intros E. rewrite E, Z.eqb_refl in Etr. unfold dangling in Hdang.
    destruct (GetFileAttributes p w0) as [a|] eqn:Ea; [|done].
    destruct (is_reparse a) eqn:Er; [|by eapply attributes_exist].
    by apply bool_decide_eq_false in Hdang. }
  apply post_bind. eapply post_impl; [by apply (create_file_posix flags' p _ _ w0 (nf_disp nf) Hapart Hd Hex)|].
  intros r w1 Hp. unfold volume_ok in *. rewrite Hv in Hp.
  destruct r as [h|e]; [apply post_ret|by apply post_bind, post_reads, post_ret].
  unfold posix_open in *. by rewrite <- K1, <- K2, <- K3.
Qed.
End posix.

(** ** A small Windows *)

(** cosmo's values for NT, of which the bits and dispositions matter here. *)
Definition nt_values : list (string * Z) :=
  [ ("O_ACCMODE", 3); ("O_RDONLY", 0); ("O_WRONLY", 1); ("O_RDWR", 2); ("_O_CREAT", 0x40); ("_O_EXCL", 0x80);
    ("_O_TRUNC", 0x200); ("_O_APPEND", 0x400); ("_O_DIRECTORY", 0x10000); ("_O_NOFOLLOW", 0x20000);
    ("_O_CLOEXEC", 0x80000); ("kNtFileGenericRead", 0x120089); ("kNtFileGenericWrite", 0x120116);
    ("kNtCreateNew", 1); ("kNtCreateAlways", 2); ("kNtOpenExisting", 3); ("kNtOpenAlways", 4);
    ("kNtTruncateExisting", 5); ("kNtFileAttributeReadonly", 1); ("kNtFileAttributeDirectory", 0x10);
    ("kNtFileAttributeReparsePoint", 0x400); ("kNtFileFlagOverlapped", 0x40000000) ]%string.

#[local] Instance toy_consts : HostConsts := {|
  host_const name := default 0 (snd <$> List.find (fun row => String.eqb (fst row) name) nt_values);
  host_defines _ := true |}.

(** The table, the open handles, the next handle to give out, the order of
    locking and conversion, and the files. *)
Record nt := Nt { t_fds : gmap Z fd_slot; t_open : gset Z; t_next : Z; t_trace : list event; t_files : list Z -> option (list Z) }.

Definition with_handle (w : nt) (files : list Z -> option (list Z)) : res Z * nt :=
  if bool_decide (0 <= t_next w /\ t_next w ∉ t_open w)
  then (Ok (t_next w), Nt (t_fds w) ({[t_next w]} ∪ t_open w) (t_next w + 4) (t_trace w) files)
  else (Err EMFILE, w).

(** One name is a link. *)
Definition follow (p : list Z) : list Z := if bool_decide (p = bytes "C:\l") then bytes "C:\t" else p.

Definition toy_create (p0 : list Z) (nf : nt_flags) (w : nt) : res Z * nt :=
  let p := follow p0 in
  let put c := fun q => if bool_decide (q = p) then Some c else t_files w q in
  let d := nf_disp nf in
  match t_files w p with
  | None => if (d =? 3) || (d =? 5) then (Err ENOENT, w) else with_handle w (put [])
  | Some c => if d =? 1 then (Err EEXIST, w) else with_handle w (put (if (d =? 2) || (d =? 5) then [] else c))
  end.

Definition logged (e : event) (w : nt) : nt := Nt (t_fds w) (t_open w) (t_next w) (t_trace w ++ [e]) (t_files w).
Definition with_fds (m : gmap Z fd_slot) (w : nt) : nt := Nt m (t_open w) (t_next w) (t_trace w) (t_files w).
Definition drop_handle (h : Z) (w : nt) : nt := Nt (t_fds w) (t_open w ∖ {[h]}) (t_next w) (t_trace w) (t_files w).

Definition toy_reserve (w : nt) : res Z * nt :=
  match List.find (fun fd => bool_decide (t_fds w !! fd = None)) (seqZ 0 64) with
  | Some fd => (Ok fd, with_fds (<[fd := FdSlot kFdReserved 0 0 0 None]> (t_fds w)) w)
  | None => (Err EMFILE, w)
  end.

#[local] Instance toy_nt : NtFiles nt := {|
  nt_windows := true; nt_metal := false; nt_silicon := false; nt_vforked _ := false;
  nt_fds := t_fds; nt_put_fds := with_fds; fds_lock := logged Lock; fds_unlock := logged Unlock;
  reservefd := toy_reserve; releasefd fd w := with_fds (delete fd (t_fds w)) w;
  mkntpathat _ path _ w := (Ok path, logged Convert w);
  GetFileAttributes p w :=
    if bool_decide (p = bytes "C:\l") then Some 0x400 else (fun _ => 128) <$> t_files w p;
  CreateFile := toy_create; fix_enotdir e _ _ := e;
  DuplicateHandle _ w := with_handle w (t_files w);
  CloseHandle h w := (Ok tt, drop_handle h w);
  cursor_new w := (Some 1, w); cursor_ref _ w := w; cursor_unref _ w := w;
  fcntl_setfl _ _ w := (Ok tt, w); lock_cleanup _ w := w;
  closesocket_nt fd w := (Ok tt, match t_fds w !! fd with Some f => drop_handle (fs_handle f) w | None => w end);
  zipos_close _ w := (Ok tt, w); sys_close _ w := (Ok tt, w); kloghandle w := w;
  procfs_fd_closed _ w := w; procfs_memfd_closed _ w := (false, w); sockopt_forget _ w := w |}.

Lemma with_handle_ledger w files : let '(r, w') := with_handle w files in
  t_fds w' = t_fds w /\ t_trace w' = t_trace w /\
  match r with
  | Ok h => h ∉ t_open w ∖ {[-1]} /\ t_open w' ∖ {[-1]} = {[h]} ∪ t_open w ∖ {[-1]}
  | Err _ => t_open w' ∖ {[-1]} = t_open w ∖ {[-1]}
  end.
Proof.
  unfold with_handle. case_bool_decide as E; [|done]. destruct E as [E1 E2]. split_and!; [done|done|set_solver|].
  cbn [t_open]. apply leibniz_equiv. assert (t_next w <> -1) by lia. set_solver.
Qed.

#[local] Instance toy_ledger : NtLedger nt.
Proof.
  refine {| handles w := t_open w ∖ {[-1]}; trace := t_trace |}; try done.
  - intros w. set_solver.
  - intros w. cbn. unfold toy_reserve. destruct (List.find _ _) as [fd|] eqn:E; [|done].
    apply find_some in E as [_ E]. apply bool_decide_eq_true in E. split_and!; [done|done|done|by eexists].
  - intros p nf w. cbn. unfold toy_create. destruct (t_files w (follow p)); destruct (_ : bool); try done; apply with_handle_ledger.
  - intros h w. apply with_handle_ledger.
  - intros h w. cbn. split_and!; [done|done|]. apply leibniz_equiv. set_solver.
  - intros fd f w Hf. cbn in *. rewrite Hf. split_and!; [done|done|]. apply leibniz_equiv. cbn. set_solver.
  - intros fd flags w. cbn. split_and!; [done|done|].
    exists (match t_fds w !! fd with Some f => fs_flags f | None => 0 end). apply map_eq. intros i.
    destruct (decide (i = fd)) as [->|Hne]; [rewrite lookup_alter_eq|by rewrite lookup_alter_ne].
    by destruct (t_fds w !! fd) as [[]|].
Defined.

#[local] Instance toy_volume : NtVolume nt.
Proof.
  refine {| found w p := t_files w (follow p) |}; try done.
  - intros p w a. unfold follow, GetFileAttributes, toy_nt.
    destruct (bool_decide (p = bytes "C:\l")); [by intros [= <-]|]. by destruct (t_files w p).
  - intros p nf w. cbn -[host_const]. unfold toy_create.
    change (host_const "kNtOpenExisting") with 3. change (host_const "kNtTruncateExisting") with 5.
    change (host_const "kNtCreateNew") with 1. change (host_const "kNtCreateAlways") with 2.
    destruct (t_files w (follow p)) as [c|] eqn:Ef.
    + destruct (nf_disp nf =? 1) eqn:E1; [by rewrite Ef|]. unfold with_handle. case_bool_decide; [|by rewrite Ef].
      cbn [t_files]. rewrite bool_decide_true by done. split; [lia|done].
    + destruct (_ || _) eqn:E1; [by rewrite Ef|]. apply orb_false_elim in E1 as [E1 E2].
      unfold with_handle. case_bool_decide; [|by rewrite Ef].
      cbn [t_files]. rewrite bool_decide_true by done. split_and!; [done|lia|lia].
Defined.

Definition empty_nt : nt :=
  Nt ∅ ∅ 16 [] (fun q => if bool_decide (q = bytes "C:\a") then Some [1; 2; 3] else None).

Lemma toy_apart : consts_apart.
Proof. split; [apply (bool_decide_unpack _); by vm_compute|repeat constructor]. Qed.

(** Open for writing with truncation; then close. *)
Lemma open_nt_is_posix_witness : exists w', 
  sys_open_nt_impl 0 (bytes "C:\a") 0x201 0 0 empty_nt = Some (Ok 16, w') /\ found w' (bytes "C:\a") = Some [].
Proof.
  pose proof (open_nt_is_posix 0 (bytes "C:\a") 0x201 0 0 empty_nt (bytes "C:\a") (logged Convert empty_nt) toy_apart eq_refl ltac:(by vm_compute)) as Hp.
  destruct (post_answer _ _ _ (Ok 16) Hp) as (w' & Hrun & _ & _ & Hf); [by vm_compute|].
  exists w'. split; [exact Hrun|exact Hf].
Defined.

(** O_TRUNC without O_CREAT through a link whose target is missing creates
    the target: the link's own attributes are taken for the file's. *)
Lemma truncate_creates_target : exists w',
  sys_open_nt_impl 0 (bytes "C:\l") 0x201 0 0 empty_nt = Some (Ok 16, w') /\
  t_files empty_nt (bytes "C:\t") = None /\ t_files w' (bytes "C:\t") = Some [].
Proof. eexists. split; [by vm_compute|done]. Qed.

Lemma close_undoes_open_witness : exists w1 rc w2,
  sys_open_nt 0 (bytes "C:\b") 0x41 420 empty_nt = Some (Ok 0, w1) /\
  shim_close 0 w1 = Some (rc, w2) /\ nt_fds w2 = ∅ /\ handles w2 = handles empty_nt.
Proof.
  eexists _. destruct (close_undoes_open 0 (bytes "C:\b") 0x41 420 empty_nt 0
    (Nt {[0 := FdSlot kFdFile 16 0x41 420 (Some 1)]} {[16]} 20 [Convert; Lock; Unlock]
        (fun q => if bool_decide (q = bytes "C:\b") then Some [] else t_files empty_nt q))
    (FdSlot kFdFile 16 0x41 420 (Some 1))) as (rc & w2 & Hc & Hf & Hh); try done.
  exists rc, w2. split_and!; [|exact Hc|exact Hf|exact Hh]. by vm_compute.
Defined.
