(* ===== verification/Fields.v ===== *)
(** * Text in fields

    Lists of bytes cut at a separator and put together again, with the
    lemmas a reader of separated decimals needs: cutting undoes joining
    where no field has the separator in it, and a decimal has none. *)
From S2P Require Import Prelude PfsText.

Fixpoint split_on (c : Z) (s : list Z) : list (list Z) :=
  match s with
  | [] => [[]]
  | x :: s' =>
      if x =? c then [] :: split_on c s'
      else match split_on c s' with seg :: segs => (x :: seg) :: segs | [] => [[x]] end
  end.

Fixpoint join (c : Z) (l : list (list Z)) : list Z :=
  match l with
  | [] => []
  | [s] => s
  | s :: l => s ++ c :: join c l
  end.

Definition lacks (c : Z) (s : list Z) : Prop := Forall (fun x => x <> c) s.

Lemma split_on_nonempty c s : split_on c s <> [].
Proof. destruct s as [|x s]; cbn; [done|]. destruct (x =? c); [done|]. by destruct (split_on c s). Qed.

Lemma split_on_app c a s : lacks c a -> split_on c (a ++ c :: s) = a :: split_on c s.
Proof.
  induction 1 as [|x a Hx _ IH]; cbn [app split_on]; [by rewrite Z.eqb_refl|].
  by rewrite (proj2 (Z.eqb_neq x c) Hx), IH.
Qed.

Lemma split_on_one c a : lacks c a -> split_on c a = [a].
Proof.
  induction 1 as [|x a Hx _ IH]; cbn [split_on]; [done|]. by rewrite (proj2 (Z.eqb_neq x c) Hx), IH.
Qed.

Lemma split_join c l : l <> [] -> Forall (lacks c) l -> split_on c (join c l) = l.
Proof.
  intros Hne Hl. induction Hl as [|s l Hs Hl IH]; [done|]. destruct l as [|s2 l]; [by apply split_on_one|].
  change (join c (s :: s2 :: l)) with (s ++ c :: join c (s2 :: l)). rewrite split_on_app by done. by rewrite IH.
Qed.

Lemma join_split c s : join c (split_on c s) = s.
Proof.
  induction s as [|x s IH]; [done|]. cbn [split_on]. destruct (x =? c) eqn:E.
  - destruct (split_on c s) as [|seg segs] eqn:Es; [by destruct (split_on_nonempty c s)|].
    change (join c ([] :: seg :: segs)) with (c :: join c (seg :: segs)). rewrite IH. f_equal. lia.
  - destruct (split_on c s) as [|seg segs] eqn:Es; [by destruct (split_on_nonempty c s)|].
    destruct segs; cbn [join app] in *; by rewrite <- IH.
Qed.

Lemma decimal_lacks c x : 0 <= x -> is_digit c = false -> lacks c (decimal x).
Proof.
  intros Hx Hc. unfold decimal. generalize 20%nat. intros n. revert x Hx.
  induction n as [|n IH]; intros x Hx; cbn [dec]; [constructor|].
  assert (Hd : forall d, 0 <= d < 10 -> 48 + d <> c) by (intros d Hd <-; pose proof (digit_of d Hd); congruence).
  pose proof (Z.mod_pos_bound x 10 ltac:(lia)). pose proof (Z.div_pos x 10 Hx ltac:(lia)).
  destruct (x <? 10) eqn:E; [constructor; [apply Hd; lia|constructor]|].
  apply Forall_app. split; [by apply IH|]. constructor; [by apply Hd|constructor].
Qed.

Lemma strtoul_decimal x : 0 <= x < 2 ^ 64 -> strtoul (decimal x) = x.
Proof. intros Hx. unfold strtoul. rewrite digits_decimal by lia. lia. Qed.

Lemma lacks_app c a b : lacks c a -> lacks c b -> lacks c (a ++ b).
Proof. intros Ha Hb. by apply Forall_app. Qed.

(** A signed number, and what reads it. *)
Definition read_signed (s : cstr) : Z := match s with 45 :: s' => - digits s' 0 | _ => digits s 0 end.

Lemma signed_lacks c x : is_digit c = false -> c <> 45 -> lacks c (signed x).
Proof.
  intros Hc Hm. unfold signed. destruct (x <? 0) eqn:E; [constructor; [done|]|]; apply decimal_lacks; (lia || done).
Qed.

Lemma read_signed_signed x : - 10 ^ 20 < x < 10 ^ 20 -> read_signed (signed x) = x.
Proof.
  intros Hx. unfold signed. destruct (x <? 0) eqn:E; [unfold read_signed; rewrite digits_decimal; lia|].
  assert (Hd : digits (decimal x) 0 = x) by (apply digits_decimal; lia).
  destruct (decimal_digit x ltac:(lia)) as (c & r & Hc & Hdig). rewrite Hc in *.
  assert (Hne : c <> 45) by (intros Hm; rewrite Hm in Hdig; done). unfold read_signed.
  destruct c as [|p|p]; [done| |done]. repeat (destruct p as [p|p|]; try done).
Qed.

Lemma signed_length x : (length (signed x) <= 21)%nat.
Proof.
  unfold signed, decimal. pose proof (dec_length 20 x). pose proof (dec_length 20 (- x)). destruct (x <? 0); cbn [length]; lia.
Qed.
