(* ===== verification/PidText.v ===== *)
(** * shim/procfs/pid.c, the files of a process on Windows

    What /proc/<pid>/* holds: the positional stat line, status, statm, io,
    limits, mountinfo, and the command line and environment read out of the
    process as UTF-16. The facts of a process are the host's; the text made
    of them is modelled byte by byte. The theorems: the stat line reads back
    by position whatever the process is called, every listed file and no
    other has a generator, the two ways the volatile files are made agree,
    and the environment, read page by page, is what the whole block says
    wherever the pages cut it. *)
From S2P Require Import Prelude Host PfsText ProcFs Fields.

(** ** Formats *)

Definition lf : cstr := [10].
Definition tab : cstr := [9].
(** %Ns and %-Ns *)
Definition padl (n : nat) (s : cstr) : cstr := replicate (n - length s) 32 ++ s.
Definition padr (n : nat) (s : cstr) : cstr := s ++ replicate (n - length s) 32.

(** ** UTF-16 to UTF-8 *)

Definition high (c : Z) : bool := (0xd800 <=? c) && (c <? 0xdc00).
Definition low (c : Z) : bool := (0xdc00 <=? c) && (c <? 0xe000).

Definition utf8 (c : Z) : cstr :=
  if c <? 0x80 then [c]
  else if c <? 0x800 then [Z.lor 0xc0 (Z.shiftr c 6); Z.lor 0x80 (Z.land c 63)]
  else if c <? 0x10000 then
    [Z.lor 0xe0 (Z.shiftr c 12); Z.lor 0x80 (Z.land (Z.shiftr c 6) 63); Z.lor 0x80 (Z.land c 63)]
  else [Z.lor 0xf0 (Z.shiftr c 18); Z.lor 0x80 (Z.land (Z.shiftr c 12) 63);
        Z.lor 0x80 (Z.land (Z.shiftr c 6) 63); Z.lor 0x80 (Z.land c 63)].

Definition pair_of (c d : Z) : Z := 0x10000 + Z.shiftl (c - 0xd800) 10 + (d - 0xdc00).

Fixpoint put_utf8 (w : list Z) : cstr :=
  match w with
  | [] => []
  | c :: w' =>
      match w' with
      | d :: w'' => if high c && low d then utf8 (pair_of c d) ++ put_utf8 w'' else utf8 c ++ put_utf8 w'
      | [] => utf8 c
      end
  end.

(** ** The facts of a process *)

Record io_counters := Io { io_rchar : Z; io_wchar : Z; io_syscr : Z; io_syscw : Z }.
Definition no_io : io_counters := Io 0 0 0 0.

(** struct pfs_proc *)
Record pfs_proc := Proc {
  pp_pid : Z; pp_ppid : Z; pp_threads : Z; pp_comm : cstr;
  pp_facts : bool;
  pp_utime : Z; pp_stime : Z; pp_create : Z;
  pp_vsize : Z; pp_rss : Z; pp_peak_vsize : Z; pp_peak_rss : Z; pp_minflt : Z; pp_io : io_counters }.

(** struct pidfacts *)
Record pidfacts := Facts {
  f_have : bool; f_utime : Z; f_stime : Z; f_starttime : Z; f_vsize : Z; f_rss : Z;
  f_peak_vsize : Z; f_peak_rss : Z; f_minflt : Z; f_io : io_counters }.

Definition no_facts : pidfacts := Facts false 0 0 0 0 0 0 0 0 no_io.

(** GetProcessMemoryInfo: pagefile and private use, working set, their
    peaks, page faults. *)
Record memory_counters := Mc { mc_pagefile : Z; mc_private : Z; mc_ws : Z; mc_peak_pagefile : Z; mc_peak_ws : Z; mc_faults : Z }.

(** struct NtMemoryBasicInformation *)
Record region := Region { mb_base : Z; mb_alloc : Z; mb_size : Z; mb_state : Z; mb_protect : Z; mb_type : Z }.

(** The Windows calls; the times are creation, kernel and user filetimes;
    [nt_read_units] reads so many UTF-16 units of another process. *)
Class PidHost (W : Type) := {
  ph_self : Z;
  ph_find : Z -> W -> option pfs_proc;
  ph_jiffies : Z -> Z;
  ph_boot : W -> Z;
  ph_open : Z -> W -> option Z * W;
  ph_open_vm : Z -> W -> option Z * W;
  nt_peb : Z -> W -> option Z;
  nt_wow64 : Z -> W -> option Z;
  ph_close : Z -> W -> W;
  GetProcessTimes : Z -> W -> option (Z * Z * Z);
  GetProcessMemoryInfo : Z -> W -> option memory_counters;
  GetProcessIoCounters : Z -> W -> option io_counters;
  ph_getuid : W -> Z; ph_getgid : W -> Z;
  ph_argv : W -> list cstr;
  ph_environ : W -> list cstr;
  ph_cwd : W -> option cstr;
  ph_drives : W -> Z;
  ph_modules : W -> list (Z * list Z);
  VirtualQuery : Z -> W -> option region;
  ph_stackmark : W -> Z;
  ph_mounts : W -> option cstr;
  ph_image : Z -> W -> option (list Z);
  nt_command_line : Z -> W -> option (list Z);
  CommandLineToArgvW : option (list Z -> option (list (list Z)));
  nt_read_word : Z -> Z -> W -> option Z;
  nt_read_units : Z -> Z -> nat -> W -> option (list Z) }.

Section text.
Context {W : Type} `{PidHost W}.

Definition from_snapshot (p : pfs_proc) (boot : Z) : pidfacts :=
  Facts true (ph_jiffies (pp_utime p)) (ph_jiffies (pp_stime p))
    (if boot <? pp_create p then ph_jiffies (pp_create p - boot) else 0)
    (pp_vsize p) (pp_rss p) (pp_peak_vsize p) (pp_peak_rss p) (pp_minflt p) (pp_io p).

(** What one handle answers, a part at a time. *)
Definition from_handle (h : Z) (boot : Z) (w : W) : pidfacts :=
  let '(ut, st, start) := match GetProcessTimes h w with
                          | Some (c, k, u) =>
                              (ph_jiffies u, ph_jiffies k, if boot <? c then ph_jiffies (c - boot) else 0)
                          | None => (0, 0, 0)
                          end in
  let '(vs, rs, pv, pr, mf) := match GetProcessMemoryInfo h w with
                               | Some mc => (if negb (mc_pagefile mc =? 0) then mc_pagefile mc else mc_private mc,
                                             mc_ws mc, mc_peak_pagefile mc, mc_peak_ws mc, mc_faults mc)
                               | None => (0, 0, 0, 0, 0)
                               end in
  Facts true ut st start vs rs pv pr mf (default no_io (GetProcessIoCounters h w)).

Definition gather (pid : Z) : M W pidfacts :=
  p ← reads (ph_find pid);
  boot ← reads ph_boot;
  match p with
  | Some p =>
      if pp_facts p then mret (from_snapshot p boot)
      else
        h ← step (ph_open pid);
        match h with
        | None => mret no_facts
        | Some h => f ← reads (from_handle h boot); _ ← modifies (ph_close h); mret f
        end
  | None =>
      h ← step (ph_open pid);
      match h with
      | None => mret no_facts
      | Some h => f ← reads (from_handle h boot); _ ← modifies (ph_close h); mret f
      end
  end.

Definition state_of (pid : Z) : Z := if pid =? ph_self then 82 else 83.

Definition gen_stat (pid : Z) (p : pfs_proc) (f : pidfacts) : cstr :=
  decimal pid ++ bytes " (" ++ pp_comm p ++ bytes ") " ++ [state_of pid] ++ bytes " " ++ decimal (pp_ppid p) ++
  bytes " " ++ decimal pid ++ bytes " " ++ decimal pid ++ bytes " 0 -1 0 " ++ decimal (f_minflt f) ++ bytes " 0 0 0 " ++
  decimal (f_utime f) ++ bytes " " ++ decimal (f_stime f) ++ bytes " 0 0 20 0 " ++ decimal (pp_threads p) ++ bytes " 0 " ++
  decimal (f_starttime f) ++ bytes " " ++ decimal (f_vsize f) ++ bytes " " ++ decimal (f_rss f / 4096) ++ bytes " " ++
  bytes "18446744073709551615 0 0 0 0 0 0 0 0 0 0 0 0 17 0 0 0 0 0 0 0 0 0 0 0 0 0 0" ++ lf.

Definition row (name : string) (value : cstr) : cstr := bytes name ++ tab ++ value ++ lf.
Definition kb (name : string) (x : Z) : cstr := row name (padl 8 (decimal (x / 1024)) ++ bytes " kB").
Definition four (x : Z) : cstr := decimal x ++ tab ++ decimal x ++ tab ++ decimal x ++ tab ++ decimal x.
Definition zeros : cstr := bytes "0000000000000000".

Definition gen_status (pid : Z) (p : pfs_proc) (f : pidfacts) (uid gid : Z) : cstr :=
  let self := pid =? ph_self in
  let uid := if self then uid else 0 in
  let gid := if self then gid else 0 in
  row "Name:" (pp_comm p) ++ row "Umask:" (bytes "0022") ++
  row "State:" ([state_of pid] ++ bytes (if self then " (running)" else " (sleeping)")) ++
  row "Tgid:" (decimal pid) ++ row "Ngid:" (bytes "0") ++ row "Pid:" (decimal pid) ++ row "PPid:" (decimal (pp_ppid p)) ++
  row "TracerPid:" (bytes "0") ++ row "Uid:" (four uid) ++ row "Gid:" (four gid) ++
  row "FDSize:" (bytes "64") ++ row "Groups:" (decimal gid) ++
  kb "VmPeak:" (f_peak_vsize f) ++ kb "VmSize:" (f_vsize f) ++ kb "VmHWM:" (f_peak_rss f) ++ kb "VmRSS:" (f_rss f) ++
  row "VmData:" (bytes "       0 kB") ++ row "VmStk:" (bytes "       0 kB") ++ row "VmExe:" (bytes "       0 kB") ++
  row "VmLib:" (bytes "       0 kB") ++ row "VmSwap:" (bytes "       0 kB") ++
  row "Threads:" (decimal (pp_threads p)) ++ row "SigQ:" (bytes "0/0") ++ row "SigPnd:" zeros ++ row "ShdPnd:" zeros ++
  row "SigBlk:" zeros ++ row "SigIgn:" zeros ++ row "SigCgt:" zeros ++ row "CapInh:" zeros ++ row "CapPrm:" zeros ++
  row "CapEff:" zeros ++ row "voluntary_ctxt_switches:" (bytes "0") ++ row "nonvoluntary_ctxt_switches:" (bytes "0").

Definition gen_statm (f : pidfacts) : cstr :=
  decimal (f_vsize f / 4096) ++ bytes " " ++ decimal (f_rss f / 4096) ++ bytes " 0 0 0 0 0" ++ lf.

Definition gen_io (f : pidfacts) : cstr :=
  let line name x := bytes name ++ bytes " " ++ decimal x ++ lf in
  line "rchar:"%string (io_rchar (f_io f)) ++ line "wchar:"%string (io_wchar (f_io f)) ++
  line "syscr:"%string (io_syscr (f_io f)) ++ line "syscw:"%string (io_syscw (f_io f)) ++
  line "read_bytes:"%string (io_rchar (f_io f)) ++ line "write_bytes:"%string (io_wchar (f_io f)) ++
  line "cancelled_write_bytes:"%string 0.

Definition limit_rows : list (string * string) :=
  [ ("Max cpu time", "seconds"); ("Max file size", "bytes"); ("Max data size", "bytes"); ("Max stack size", "bytes");
    ("Max core file size", "bytes"); ("Max resident set", "bytes"); ("Max processes", "processes"); ("Max open files", "files");
    ("Max locked memory", "bytes"); ("Max address space", "bytes"); ("Max file locks", "locks"); ("Max pending signals", "signals");
    ("Max msgqueue size", "bytes"); ("Max nice priority", ""); ("Max realtime priority", ""); ("Max realtime timeout", "us") ]%string.

Definition limit_line (name soft hard unit : string) : cstr :=
  padr 25 (bytes name) ++ bytes " " ++ padl 20 (bytes soft) ++ bytes " " ++ padl 20 (bytes hard) ++ bytes " " ++
  padr 10 (bytes unit) ++ lf.

Definition gen_limits : cstr :=
  limit_line "Limit" "Soft Limit" "Hard Limit" "Units" ++
  concat (map (fun r => limit_line (fst r) "unlimited" "unlimited" (snd r)) limit_rows).

(** The drives of the mask, numbered from 4 on. *)
Fixpoint drive_rows (drives : Z) (letters : list Z) (id : Z) : cstr :=
  match letters with
  | [] => []
  | i :: letters =>
      if negb (Z.testbit drives i) then drive_rows drives letters id
      else decimal id ++ bytes " 1 8:" ++ decimal (i * 16) ++ bytes " / /" ++ [65 + i] ++ bytes " rw - ntfs " ++ [65 + i] ++
           bytes ": rw" ++ lf ++ drive_rows drives letters (id + 1)
  end.

Definition gen_mountinfo (drives : Z) : cstr :=
  bytes "1 1 0:1 / / rw - rootfs rootfs rw" ++ lf ++ bytes "2 1 0:5 / /proc rw - proc proc rw" ++ lf ++
  bytes "3 1 0:6 / /sys rw - sysfs sysfs rw" ++ lf ++ drive_rows drives (seqZ 0 26) 4.

(** ** The command line *)

(** argv[0] with forward slashes and its drive as a directory. *)
Definition unix_arg0 (a : list Z) : list Z :=
  let a := map (fun c => if c =? 92 then 47 else c) a in
  match a with
  | d :: c :: rest => if c =? 58 then 47 :: d :: rest else a
  | _ => a
  end.

Definition put_args (argv : list (list Z)) : cstr :=
  match argv with
  | [] => []
  | a :: argv => concat (map (fun a => put_utf8 a ++ [0]) (unix_arg0 a :: argv))
  end.

Definition gen_cmdline (pid : Z) : M W cstr :=
  if pid =? ph_self then argv ← reads ph_argv; mret (concat (map (fun a => a ++ [0]) argv))
  else
    h ← step (ph_open pid);
    match h with
    | None => mret []
    | Some h =>
        line ← reads (nt_command_line h);
        _ ← modifies (ph_close h);
        mret (match line with
              | None => []
              | Some line =>
                  match (match CommandLineToArgvW with Some f => f line | None => None end) with
                  | Some argv => put_args argv
                  | None => put_utf8 line ++ [0]
                  end
              end)
    end.

(** ** The environment, page by page *)

(** The carried high surrogate, whether at a string boundary, whether the
    double NUL was met, and the text so far. *)
Record walk := Walk { wk_carry : option Z; wk_bound : bool; wk_done : bool; wk_out : cstr }.

Definition walk_init : walk := Walk None true false [].

(** The units up to a NUL, and the rest from it on. *)
Fixpoint run_of (u : list Z) : list Z * list Z :=
  match u with
  | [] => ([], [])
  | c :: u' => if c =? 0 then ([], u) else let '(a, b) := run_of u' in (c :: a, b)
  end.

(** A run without the high surrogate the page's end may have cut off. *)
Definition split_tail (run rest : list Z) : list Z * option Z :=
  match rest, rev run with
  | [], c :: front => if high c then (rev front, Some c) else (run, None)
  | _, _ => (run, None)
  end.

(** [while (i < nw)] over one page. *)
Fixpoint scan_page (fuel : nat) (u : list Z) (k : walk) : walk :=
  match fuel with
  | O => k
  | S fuel =>
      match u with
      | [] => k
      | c :: u' =>
          if c =? 0 then
            if wk_bound k then Walk (wk_carry k) (wk_bound k) true (wk_out k)
            else scan_page fuel u' (Walk (wk_carry k) true (wk_done k) (wk_out k ++ [0]))
          else
            let '(run, rest) := run_of u in
            let '(whole, carry) := split_tail run rest in
            scan_page fuel rest
              (Walk (match carry with Some c => Some c | None => wk_carry k end) false (wk_done k) (wk_out k ++ put_utf8 whole))
      end
  end.

(** One page: first the surrogate carried from the one before. *)
Definition take_page (page : list Z) (k : walk) : walk :=
  let '(page, k) :=
    match wk_carry k with
    | None => (page, k)
    | Some c =>
        match page with
        | d :: page' => if low d then (page', Walk None (wk_bound k) (wk_done k) (wk_out k ++ put_utf8 [c; d]))
                        else (page, Walk None (wk_bound k) (wk_done k) (wk_out k ++ put_utf8 [c]))
        | [] => (page, Walk None (wk_bound k) (wk_done k) (wk_out k ++ put_utf8 [c]))
        end
    end in
  scan_page (length page) page k.

(** The units of a page, 2048 of them; a block is at most [size] bytes. *)
Fixpoint walk_pages (fuel : nat) (h env size off : Z) (k : walk) (w : W) : walk :=
  match fuel with
  | O => k
  | S fuel =>
      if wk_done k || (size <=? off) then k
      else
        let want := Z.min 4096 (size - off) in
        match nt_read_units h (env + off) (Z.to_nat (want / 2)) w with
        | None => k
        | Some page => walk_pages fuel h env size (off + want) (take_page page k) w
        end
  end.

(** What is left at the end: a cut surrogate, and the last string's NUL. *)
Definition finish (k : walk) : cstr :=
  wk_out k ++ (match wk_carry k with Some c => put_utf8 [c] | None => [] end) ++
  (if negb (wk_done k) && negb (wk_bound k) then [0] else []).

Definition MAX_ENV : Z := 2 ^ 20.

(** A handle with memory rights and the process parameters block: only of a
    64-bit process; on any failure the handle is closed again. *)
Definition open_params (pid : Z) : M W (option (Z * Z)) :=
  h ← step (ph_open_vm pid);
  match h with
  | None => mret None
  | Some h =>
      params ← reads (fun w =>
        match nt_peb h w with
        | None => 0
        | Some peb =>
            if match nt_wow64 h w with Some x => negb (x =? 0) | None => false end then 0
            else default 0 (nt_read_word h (peb + 0x20) w)
        end);
      if params =? 0 then _ ← modifies (ph_close h); mret None
      else mret (Some (h, params))
  end.

Definition gen_environ (pid : Z) : M W cstr :=
  if pid =? ph_self then env ← reads ph_environ; mret (concat (map (fun e => e ++ [0]) env))
  else
    hp ← open_params pid;
    match hp with
    | None => mret []
    | Some (h, params) =>
        env ← reads (nt_read_word h (params + 0x80));
        size ← reads (nt_read_word h (params + 0x3f0));
        text ← reads (fun w =>
          match env with
          | Some env =>
              if env =? 0 then []
              else
                let size := match size with Some s => if MAX_ENV <? s then MAX_ENV else s | None => MAX_ENV end in
                finish (walk_pages 257 h env size 0 walk_init w)
          | None => []
          end);
        _ ← modifies (ph_close h);
        mret text
    end.

(** ** The map of the address space *)

(** "C:\x\y" as "/C/x/y", at most [n] bytes of it. *)
Definition put_ntpath (n : nat) (w : list Z) : cstr :=
  let b := map (fun c => if c =? 92 then 47 else if c <? 128 then c else 95) (take n w) in
  match b with
  | d :: c :: rest => if c =? 58 then 47 :: d :: rest else b
  | _ => b
  end.

(** %08llx *)
Definition hex_digit (d : Z) : Z := if d <? 10 then 48 + d else 87 + d.
Fixpoint hex_digits (fuel : nat) (x : Z) : cstr :=
  match fuel with
  | O => []
  | S fuel => if x <? 16 then [hex_digit x] else hex_digits fuel (x / 16) ++ [hex_digit (x mod 16)]
  end.
Definition hex8 (x : Z) : cstr := let s := hex_digits 16 x in replicate (8 - length s) 48 ++ s.

Definition MEM_COMMIT : Z := 0x1000.
Definition MEM_MAPPED : Z := 0x40000.
Definition MEM_IMAGE : Z := 0x1000000.

Definition perms (m : region) : cstr :=
  let pr := Z.land (mb_protect m) 0xff in
  let may mask c := if Z.land pr mask =? 0 then 45 else c in
  [may 0xee 114; may 0xcc 119; may 0xf0 120; if mb_type m =? MEM_MAPPED then 115 else 112].

(** At most 64 modules, each with the path its name makes. *)
Definition modules (w : W) : list (Z * cstr) := map (fun m => (fst m, put_ntpath 511 (snd m))) (take 64 (ph_modules w)).

Definition module_of (mods : list (Z * cstr)) (alloc : Z) : option (Z * cstr) :=
  List.find (fun m => fst m =? alloc) mods.

Definition region_end (m : region) : Z := (mb_base m + mb_size m) mod 2 ^ 64.

(** The file offset and the name of a region. *)
Definition region_name (mods : list (Z * cstr)) (stackmark : Z) (m : region) : Z * option cstr :=
  let stack := (0, if (mb_base m <=? stackmark) && (stackmark <? region_end m) then Some (bytes "[stack]") else None) in
  if mb_type m =? MEM_IMAGE then
    match module_of mods (mb_alloc m) with
    | Some (base, path) => (mb_base m - base, Some path)
    | None => stack
    end
  else stack.

Definition inode_of (name : cstr) : Z :=
  Z.land (foldl (fun ino c => (Z.lxor ino c * 0x100000001b3) mod 2 ^ 64) 0xcbf29ce484222325 name) 0xffffff.

(** The line of a region; one that is not committed has none. *)
Definition maps_row (mods : list (Z * cstr)) (stackmark : Z) (m : region) : cstr :=
  if negb (mb_state m =? MEM_COMMIT) then []
  else
    let '(off, name) := region_name mods stackmark m in
    let range := hex8 (mb_base m) ++ bytes "-" ++ hex8 (region_end m) ++ bytes " " ++ perms m ++ bytes " " ++
                 hex8 (off mod 2 ^ 64) in
    match name with
    | Some ((47 :: _) as path) => range ++ bytes " 08:01 " ++ decimal (inode_of path) ++ bytes " " ++ path ++ lf
    | _ => range ++ bytes " 00:00 0 " ++ default [] name ++ lf
    end.

(** A loop of at most [n] rounds, which [inr] leaves. *)
Fixpoint rounds {S R : Type} (step : S -> S + R) (n : positive) (s : S) : S + R :=
  match n with
  | xH => step s
  | xO n => match rounds step n s with inl s => rounds step n s | inr r => inr r end
  | xI n => match step s with
            | inl s => match rounds step n s with inl s => rounds step n s | inr r => inr r end
            | inr r => inr r
            end
  end.

Definition MAPS_TOP : Z := 0x7fffffff0000.

(** One round of [while (addr < 0x7fffffff0000 && VirtualQuery(...))]. *)
Definition maps_round (mods : list (Z * cstr)) (w : W) (st : Z * cstr) : (Z * cstr) + cstr :=
  let '(addr, out) := st in
  if MAPS_TOP <=? addr then inr out
  else
    match VirtualQuery addr w with
    | None => inr out
    | Some m =>
        let next := region_end m in
        if next <=? addr then inr out else inl (next, out ++ maps_row mods (ph_stackmark w) m)
    end.

(** The address grows each round, so 2^47 + 1 of them are enough. *)
Definition MAPS_ROUNDS : positive := 2 ^ 47 + 1.

Definition maps_walk (n : positive) (w : W) : (Z * cstr) + cstr := rounds (maps_round (modules w) w) n (0, []).

Definition gen_maps (pid : Z) : M W cstr :=
  if pid =? ph_self then fun w => match maps_walk MAPS_ROUNDS w with inr out => Some (out, w) | inl _ => None end
  else mret [].

(** ** Which file has which text *)

(** The text of a file that needs no facts; [None] for any other name. *)
Definition plain_file (pid : Z) (p : pfs_proc) (name : cstr) : option (M W (option cstr)) :=
  let nm s := bool_decide (name = bytes s) in
  if nm "cmdline"%string then Some (t ← gen_cmdline pid; mret (Some t))
  else if nm "comm"%string then Some (mret (Some (pp_comm p ++ lf)))
  else if nm "environ"%string then Some (t ← gen_environ pid; mret (Some t))
  else if nm "limits"%string then Some (mret (Some gen_limits))
  else if nm "maps"%string then Some (t ← gen_maps pid; mret (Some t))
  else if nm "cgroup"%string then Some (mret (Some (bytes "0::/" ++ lf)))
  else if nm "mountinfo"%string then Some (d ← reads ph_drives; mret (Some (gen_mountinfo d)))
  else if nm "mounts"%string then Some (reads ph_mounts)
  else if nm "oom_score_adj"%string || nm "oom_score"%string then Some (mret (Some (bytes "0" ++ lf)))
  else None.

(** The text of a file made of the facts. *)
Definition facts_file (pid : Z) (p : pfs_proc) (f : pidfacts) (uid gid : Z) (name : cstr) : option cstr :=
  let nm s := bool_decide (name = bytes s) in
  if nm "stat"%string then Some (gen_stat pid p f)
  else if nm "status"%string then Some (gen_status pid p f uid gid)
  else if nm "statm"%string then Some (gen_statm f)
  else if nm "io"%string then Some (gen_io f)
  else None.

(** [None] is no such process or file. *)
Definition pfs_gen_pid_file (pid : Z) (name : cstr) : M W (option cstr) :=
  p ← reads (ph_find pid);
  match p with
  | None => mret None
  | Some p =>
      match plain_file pid p name with
      | Some text => text
      | None =>
          f ← gather pid;
          uid ← reads ph_getuid;
          gid ← reads ph_getgid;
          mret (facts_file pid p f uid gid name)
      end
  end.

(** The four volatile files in one pass, and the start time. *)
Definition pfs_gen_pid_volatile (pid : Z) : M W (option (list cstr * Z)) :=
  p ← reads (ph_find pid);
  match p with
  | None => mret None
  | Some p =>
      f ← gather pid;
      uid ← reads ph_getuid;
      gid ← reads ph_getgid;
      mret (Some ([gen_stat pid p f; gen_status pid p f uid gid; gen_statm f; gen_io f], f_starttime f))
  end.

(** ** Links *)

(** The trailing backslash of a directory deeper than a drive's root. *)
Definition trim_cwd (w : list Z) : list Z :=
  if (3 <? length w)%nat && (List.last w 0 =? 92) then removelast w else w.

(** CurrentDirectory.DosPath: a UNICODE_STRING of at most 600 units. *)
Definition read_ustring (h addr : Z) (cap : nat) (w : W) : option (list Z) :=
  match nt_read_word h addr w with
  | None => None
  | Some hdr =>
      let n := Z.to_nat (Z.land hdr 65535 / 2) in
      match nt_read_word h (addr + 8) w with
      | None => None
      | Some buf =>
          if (buf =? 0) || (cap <? n)%nat then None
          else if (n =? 0)%nat then Some [] else nt_read_units h buf n w
      end
  end.

Definition other_cwd (pid : Z) (n : nat) : M W (option cstr) :=
  hp ← open_params pid;
  match hp with
  | None => mret None
  | Some (h, params) =>
      s ← reads (read_ustring h (params + 0x38) 600);
      _ ← modifies (ph_close h);
      mret (match s with
            | Some ((_ :: _) as s) => Some (put_ntpath n (trim_cwd s))
            | _ => None
            end)
  end.

Definition pfs_pid_link (pid : Z) (name : cstr) (n : nat) : M W (option cstr) :=
  if bool_decide (name = bytes "root") then mret (if (n <? 1)%nat then None else Some [47])
  else if bool_decide (name = bytes "cwd") then
    if negb (pid =? ph_self) then other_cwd pid n
    else c ← reads ph_cwd; mret (match c with Some c => if (length c <? n)%nat then Some c else None | None => None end)
  else if negb (bool_decide (name = bytes "exe")) then mret None
  else
    h ← step (ph_open pid);
    match h with
    | None => mret None
    | Some h => s ← reads (ph_image h); _ ← modifies (ph_close h); mret (put_ntpath n <$> s)
    end.
End text.

(** ** proc(5): the stat line by position *)

(** What is in front of the last [c], and behind it. *)
Fixpoint split_last (c : Z) (s : list Z) : option (list Z * list Z) :=
  match s with
  | [] => None
  | x :: s' =>
      match split_last c s' with
      | Some (a, b) => Some (x :: a, b)
      | None => if x =? c then Some ([], s') else None
      end
  end.

Record stat_line := StatLine {
  sl_pid : Z; sl_comm : cstr; sl_state : Z; sl_ppid : Z; sl_minflt : Z; sl_utime : Z; sl_stime : Z;
  sl_threads : Z; sl_starttime : Z; sl_vsize : Z; sl_rss : Z }.

(** How a reader takes the line apart: the name ends at the last parenthesis,
    the fields behind it are numbered from 3 to 52. *)
Definition parse_stat (text : cstr) : option stat_line :=
  match split_last 41 text with
  | None => None
  | Some (front, rest) =>
      match split_on 40 front with
      | pid :: comm =>
          let fields := split_on 32 (List.removelast (tail rest)) in
          let field n := nth (n - 3)%nat fields [] in
          if (length fields =? 50)%nat then
            Some (StatLine (strtoul pid) (join 40 comm) (byte_at (field 3%nat) 0) (strtoul (field 4%nat))
                    (strtoul (field 10%nat)) (strtoul (field 14%nat)) (strtoul (field 15%nat)) (strtoul (field 20%nat))
                    (strtoul (field 22%nat)) (strtoul (field 23%nat)) (strtoul (field 24%nat)))
          else None
      | [] => None
      end
  end.

Lemma split_last_app c a b : lacks c b -> split_last c (a ++ c :: b) = Some (a, b).
Proof.
  intros Hb. assert (Hn : forall b, lacks c b -> split_last c b = None).
  { induction 1 as [|x b' Hx _ IH]; cbn [split_last]; [done|]. by rewrite IH, (proj2 (Z.eqb_neq x c) Hx). }
  induction a as [|x a IH]; cbn [app split_last]; [by rewrite Hn, Z.eqb_refl|]. by rewrite IH.
Qed.

Section stat.
Context {W : Type} `{PidHost W}.

(** The fields behind the name, 3 to 52, as the source's format has them. *)
Definition stat_fields (pid : Z) (p : pfs_proc) (f : pidfacts) : list cstr :=
  [ [state_of pid]; decimal (pp_ppid p); decimal pid; decimal pid; bytes "0"; bytes "-1"; bytes "0"; decimal (f_minflt f);
    bytes "0"; bytes "0"; bytes "0"; decimal (f_utime f); decimal (f_stime f); bytes "0"; bytes "0"; bytes "20"; bytes "0";
    decimal (pp_threads p); bytes "0"; decimal (f_starttime f); decimal (f_vsize f); decimal (f_rss f / 4096);
    bytes "18446744073709551615" ] ++ replicate 12 (bytes "0") ++ [bytes "17"] ++ replicate 14 (bytes "0").

Lemma gen_stat_fields pid p f :
  gen_stat pid p f = (decimal pid ++ bytes " (" ++ pp_comm p) ++ 41 :: 32 :: join 32 (stat_fields pid p f) ++ lf.
Proof.
  unfold gen_stat, stat_fields. set (a := decimal pid). set (b := decimal (pp_ppid p)). generalize (decimal (f_minflt f)).
  generalize (decimal (f_utime f)), (decimal (f_stime f)), (decimal (pp_threads p)), (decimal (f_starttime f)).
  generalize (decimal (f_vsize f)), (decimal (f_rss f / 4096)). intros.
  cbn -[a b lf]. repeat (rewrite <- app_assoc || rewrite <- app_comm_cons). reflexivity.
Qed.

Definition word (x : Z) : Prop := 0 <= x < 2 ^ 64.

Definition facts_ok (p : pfs_proc) (f : pidfacts) : Prop :=
  Forall word [pp_ppid p; pp_threads p; f_minflt f; f_utime f; f_stime f; f_starttime f; f_vsize f; f_rss f].

Lemma stat_fields_lack c pid p f : is_digit c = false -> c <> 45 -> c <> 82 -> c <> 83 -> word pid -> facts_ok p f ->
  Forall (lacks c) (stat_fields pid p f).
Proof.
  intros Hc Hm Hr Hs Hpid Hf. unfold facts_ok, word in *. rewrite !Forall_cons in Hf.
  assert (Hl : forall s, forallb (fun x => is_digit x || (x =? 45)) s = true -> lacks c s).
  { intros s Hs'. apply Forall_forall. intros x Hx ->. rewrite forallb_forall in Hs'. specialize (Hs' c).
    rewrite <- list_elem_of_In, Hc in Hs'. specialize (Hs' Hx). lia. }
  pose proof (Z.div_pos (f_rss f) 4096).
  unfold stat_fields. cbn [app replicate].
  constructor; [constructor; [unfold state_of; destruct (_ =? _); lia|constructor]|].
  repeat first [apply Forall_nil_2|apply Forall_cons_2; [first [by apply Hl|apply decimal_lacks; [lia|done]]|]].
Qed.

(** The stat line of a process reads back by position, for a reader that
    follows proc(5), whatever bytes the process's name is made of,
    parentheses and spaces included: fifty fields behind the name, each fact
    where the manual page puts it. *)
Theorem stat_reads_back pid p f : word pid -> facts_ok p f ->
  parse_stat (gen_stat pid p f) =
    Some (StatLine pid (pp_comm p) (state_of pid) (pp_ppid p) (f_minflt f) (f_utime f) (f_stime f) (pp_threads p)
            (f_starttime f) (f_vsize f) (f_rss f / 4096)).
Proof.
  intros Hpid Hf. pose proof Hf as Hf'. unfold facts_ok, word in *. rewrite !Forall_cons in Hf'.
  unfold parse_stat. rewrite gen_stat_fields, split_last_app.
  2:{ constructor; [done|]. apply Forall_app. split; [|constructor; [done|constructor]].
      pose proof (stat_fields_lack 41 pid p f ltac:(done) ltac:(done) ltac:(done) ltac:(done) Hpid Hf) as Hl.
      induction Hl as [|s l Hs Hl IH]; [constructor|]. destruct l as [|s2 l]; [done|].
      change (join 32 (s :: s2 :: l)) with (s ++ 32 :: join 32 (s2 :: l)). apply Forall_app. split; [done|]. by constructor. }
  change (decimal pid ++ bytes " (" ++ pp_comm p) with (decimal pid ++ [32] ++ 40 :: pp_comm p). rewrite app_assoc, split_on_app.
  2:{ apply Forall_app. split; [apply decimal_lacks; [lia|done]|by repeat constructor]. }
  rewrite join_split. cbn [tail]. unfold lf. rewrite removelast_last, split_join.
  2,3: [> done|by apply stat_fields_lack].
  cbn [length stat_fields app replicate Nat.eqb nth Nat.sub]. 
  pose proof (Z.div_mod (f_rss f) 4096 ltac:(lia)). pose proof (Z.mod_pos_bound (f_rss f) 4096 ltac:(lia)).
  rewrite !strtoul_decimal by lia. f_equal. f_equal. unfold strtoul.
  unfold decimal. rewrite digits_dec by lia. cbn [digits is_digit Z.leb Z.compare andb]. cbn. lia.
Qed.
End stat.

(** ** The environment, whatever the pages *)

(** The block as a whole: its strings up to the first empty one, each
    converted and ended by a NUL. *)
Fixpoint strings_of (segs : list (list Z)) : cstr :=
  match segs with
  | [] => []
  | s :: segs => match s with [] => [] | _ => put_utf8 s ++ [0] ++ strings_of segs end
  end.

Definition env_text (block : list Z) : cstr := strings_of (split_on 0 block).

(** A surrogate pair across a cut. *)
Definition joins (a b : list Z) : bool :=
  match last a, head b with Some c, Some d => high c && low d | _, _ => false end.

Lemma put_utf8_cons2 c d w :
  put_utf8 (c :: d :: w) = if high c && low d then utf8 (pair_of c d) ++ put_utf8 w else utf8 c ++ put_utf8 (d :: w).
Proof. done. Qed.

Lemma put_utf8_app a b : joins a b = false -> put_utf8 (a ++ b) = put_utf8 a ++ put_utf8 b.
Proof.
  remember (length a) as n eqn:En. revert a En.
  induction n as [n IH] using (well_founded_induction Nat.lt_wf_0). intros a -> Hj.
  destruct a as [|c [|d a]]; [done| |].
  - cbn [app put_utf8]. destruct b as [|d b]; [by rewrite app_nil_r|]. unfold joins in Hj. cbn in Hj. by rewrite Hj.
  - assert (Hd : joins (d :: a) b = false) by exact Hj. change ((c :: d :: a) ++ b) with (c :: d :: (a ++ b)).
    rewrite !put_utf8_cons2. destruct (high c && low d).
    + rewrite <- app_assoc. f_equal. apply (IH (length a)); [cbn; lia|done|]. destruct a as [|e a]; [done|exact Hj].
    + rewrite <- app_assoc. f_equal. change (d :: a ++ b) with ((d :: a) ++ b). apply (IH (length (d :: a))); [cbn; lia|done|done].
Qed.

Lemma joins_nil_l b : joins [] b = false.
Proof. done. Qed.
Lemma joins_nil_r a : joins a [] = false.
Proof. unfold joins. by destruct (last a). Qed.

Definition ends_high (a : list Z) : bool := match last a with Some c => high c | None => false end.

Lemma joins_not_high a b : ends_high a = false -> joins a b = false.
Proof. unfold ends_high, joins. destruct (last a); [|done]. intros ->. by destruct (head b). Qed.

Lemma joins_head a d b : low d = false -> joins a (d :: b) = false.
Proof. intros Hd. unfold joins. cbn [head]. destruct (last a); [|done]. by rewrite Hd, andb_false_r. Qed.

Lemma high_not_low c : high c = true -> low c = false.
Proof. unfold high, low. lia. Qed.

Lemma run_of_spec u : let '(a, b) := run_of u in u = a ++ b /\ lacks 0 a /\ (b = [] \/ exists b', b = 0 :: b').
Proof.
  induction u as [|c u IH]; cbn [run_of]; [split_and!; [done|constructor|by left]|].
  destruct (c =? 0) eqn:E.
  - apply Z.eqb_eq in E. subst c. split_and!; [done|constructor|right; by exists u].
  - destruct (run_of u) as [a b]. destruct IH as (-> & Ha & Hb). split_and!; [done|constructor; [lia|done]|done].
Qed.

Definition terminated (segs : list (list Z)) : list Z := concat (map (fun s => s ++ [0]) segs).
Definition texts (segs : list (list Z)) : cstr := concat (map (fun s => put_utf8 s ++ [0]) segs).
Definition proper_segs (segs : list (list Z)) : Prop := Forall (fun s => s <> [] /\ lacks 0 s) segs.

Lemma env_text_segs segs rest : proper_segs segs -> env_text (terminated segs ++ rest) = texts segs ++ env_text rest.
Proof.
  unfold env_text, terminated, texts. induction 1 as [|s segs [Hne Hl] _ IH]; [done|].
  cbn [map concat]. rewrite <- !app_assoc. cbn [app]. rewrite split_on_app by done. cbn [strings_of].
  rewrite IH. by destruct s.
Qed.

Lemma env_text_tail cur : lacks 0 cur -> env_text cur = match cur with [] => [] | _ => put_utf8 cur ++ [0] end.
Proof. intros Hc. unfold env_text. rewrite split_on_one by done. by destruct cur. Qed.

(** Where a walk stands after the units [U]. *)
Inductive stands (strict : bool) (U : list Z) (k : walk) : Prop :=
  | at_end : wk_done k = true -> wk_carry k = None -> (forall V, env_text (U ++ V) = wk_out k) -> stands strict U k
  | within segs cur :
      U = terminated segs ++ cur -> proper_segs segs -> lacks 0 cur -> wk_done k = false ->
      wk_bound k = bool_decide (cur = []) ->
      match wk_carry k with
      | Some c => exists front, cur = front ++ [c] /\ high c = true /\ wk_out k = texts segs ++ put_utf8 front
      | None => wk_out k = texts segs ++ put_utf8 cur /\ (strict = true -> ends_high cur = false)
      end -> stands strict U k.

Lemma last_snoc_rev (run : list Z) c front : rev run = c :: front -> run = rev front ++ [c].
Proof. intros Hr. rewrite <- (rev_involutive run), Hr. done. Qed.

Lemma joins_prefix a b c : b <> [] -> joins a (b ++ c) = joins a b.
Proof. destruct b; done. Qed.

Lemma scan_page_stands fuel u k segs cur :
  (length u <= fuel)%nat -> proper_segs segs -> lacks 0 cur -> wk_done k = false -> wk_carry k = None ->
  wk_bound k = bool_decide (cur = []) -> wk_out k = texts segs ++ put_utf8 cur -> joins cur u = false ->
  (u = [] -> ends_high cur = false) ->
  stands true (terminated segs ++ cur ++ u) (scan_page fuel u k).
Proof.
  revert u k segs cur. induction fuel as [|fuel IH]; intros u k segs cur Hf Hs Hc Hd Hk Hb Ho Hj Hu.
  { destruct u; [|cbn in Hf; lia]. cbn [scan_page]. apply (within _ _ _ segs cur); try done; [by rewrite app_nil_r|].
    rewrite Hk. split; [done|]. intros _. by apply Hu. }
  cbn [scan_page]. destruct u as [|c u].
  { apply (within _ _ _ segs cur); try done; [by rewrite app_nil_r|]. rewrite Hk. split; [done|]. intros _. by apply Hu. }
  destruct (c =? 0) eqn:E0.
  - apply Z.eqb_eq in E0. subst c. rewrite Hb. case_bool_decide as Ec.
    + subst cur. apply at_end; [done|done|]. intros V. cbn [app wk_out]. rewrite <- app_assoc, env_text_segs by done.
      rewrite Ho. cbn [put_utf8]. done.
    + assert (Hend : terminated segs ++ cur ++ 0 :: u = terminated (segs ++ [cur]) ++ [] ++ u).
      { unfold terminated. rewrite map_app, concat_app. cbn [map concat]. by rewrite app_nil_r, <- !app_assoc. }
      rewrite Hend. apply IH; cbn [wk_done wk_carry wk_bound wk_out]; try done.
      * cbn in Hf. lia.
      * apply Forall_app. split; [done|]. by repeat constructor.
      * constructor.
      * unfold texts. rewrite map_app, concat_app, Ho. cbn [map concat put_utf8]. by rewrite !app_nil_r, <- !app_assoc.
  - pose proof (run_of_spec (c :: u)) as Hr. destruct (run_of (c :: u)) as [run rest] eqn:Er.
    destruct Hr as (Hu2 & Hrun & Hrest).
    assert (Hne : run <> []).
    { intros ->. cbn [run_of] in Er. rewrite E0 in Er. by destruct (run_of u). }
    assert (Hl : (length rest < length (c :: u))%nat) by (rewrite Hu2, length_app; destruct run; [done|cbn; lia]).
    assert (Hcur : lacks 0 (cur ++ run)) by (by apply Forall_app).
    assert (Hnb : bool_decide (cur ++ run = []) = false) by (apply bool_decide_eq_false; intros [_ ?]%app_nil; done).
    rewrite Hu2 in Hj |- *. rewrite joins_prefix in Hj by done.
    assert (Hwhole : wk_out k ++ put_utf8 run = texts segs ++ put_utf8 (cur ++ run))
      by (rewrite Ho, (put_utf8_app cur run) by done; by rewrite app_assoc).
    destruct Hrest as [->|[rest' ->]].
    + rewrite app_nil_r. unfold split_tail. destruct (rev run) as [|d front] eqn:Erev.
      { by apply (f_equal (@rev Z)) in Erev; rewrite rev_involutive in Erev. }
      pose proof (last_snoc_rev _ _ _ Erev) as Hsnoc.
      assert (Hscan : forall k', scan_page fuel [] k' = k') by (intros k'; by destruct fuel).
      destruct (high d) eqn:Ehd; rewrite Hscan; apply (within _ _ _ segs (cur ++ run)); cbn [wk_done wk_bound wk_carry wk_out];
        try done.
      * exists (cur ++ rev front). rewrite Hsnoc, app_assoc. split_and!; [done|done|].
        rewrite Ho, (put_utf8_app cur (rev front)); [by rewrite app_assoc|].
        destruct (rev front) as [|x xs] eqn:Ex; [apply joins_nil_r|]. rewrite Hsnoc in Hj. by rewrite joins_prefix in Hj.
      * rewrite Hk. split; [done|]. intros _. unfold ends_high. rewrite Hsnoc, app_assoc, last_snoc. done.
    + assert (Hst : split_tail run (0 :: rest') = (run, None)) by done. rewrite Hst.
      rewrite (app_assoc cur run). apply IH; cbn [wk_done wk_carry wk_bound wk_out]; try done; [cbn in *; lia|by apply joins_head].
Qed.

Lemma take_page_stands page k U : page <> [] -> stands true U k -> wk_done k = false -> stands true (U ++ page) (take_page page k).
Proof.
  intros Hne Hs Hd. destruct Hs as [Hd'|segs cur -> Hsegs Hcur _ Hb Hk]; [congruence|].
  unfold take_page. destruct (wk_carry k) as [c|] eqn:Ec.
  - destruct Hk as (front & -> & Hh & Ho). destruct page as [|d page]; [done|].
    assert (Hnb : forall x : list Z, bool_decide (x ++ [c] = []) = false) by (intros x; apply bool_decide_eq_false; by destruct x).
    rewrite Hnb in Hb. destruct (low d) eqn:Ed.
    + replace ((terminated segs ++ front ++ [c]) ++ d :: page) with (terminated segs ++ ((front ++ [c; d]) ++ page))
        by (by rewrite <- !app_assoc).
      assert (Hcd : put_utf8 (front ++ [c; d]) = put_utf8 front ++ put_utf8 [c; d]) by (apply put_utf8_app, joins_head, high_not_low, Hh).
      assert (Heh : ends_high (front ++ [c; d]) = false).
      { unfold ends_high. change [c; d] with ([c] ++ [d]). rewrite app_assoc, last_snoc. unfold high, low in *. lia. }
      assert (Hd0 : d <> 0) by (unfold low in Ed; lia).
      apply scan_page_stands; cbn [wk_done wk_carry wk_bound wk_out]; try done.
      * apply Forall_app in Hcur as [Hf Hc0]. apply Forall_app. split; [done|]. apply Forall_inv in Hc0. by repeat constructor.
      * rewrite Hb. symmetry. apply bool_decide_eq_false. by destruct front.
      * by rewrite Hcd, Ho, app_assoc.
      * by apply joins_not_high.
    + rewrite <- app_assoc. 
      assert (Hfc : put_utf8 (front ++ [c]) = put_utf8 front ++ put_utf8 [c]) by (apply put_utf8_app, joins_head, high_not_low, Hh).
      apply scan_page_stands; cbn [wk_done wk_carry wk_bound wk_out]; try done.
      * by rewrite Hb, Hnb.
      * by rewrite Hfc, Ho, app_assoc.
      * by apply joins_head.
  - destruct Hk as [Ho Hhi]. specialize (Hhi eq_refl). rewrite <- app_assoc.
    apply scan_page_stands; try done. by apply joins_not_high.
Qed.

(** An odd byte at the end of the block reads as a page without a unit. *)
Lemma take_empty_stands k U : stands true U k -> wk_done k = false -> stands false U (take_page [] k).
Proof.
  intros Hs Hd. destruct Hs as [Hd'|segs cur -> Hsegs Hcur _ Hb Hk]; [congruence|]. unfold take_page.
  destruct (wk_carry k) as [c|] eqn:Ec; cbn [length scan_page]; apply (within _ _ _ segs cur); try done.
  - cbn [wk_carry wk_out]. destruct Hk as (front & -> & Hh & Ho). split; [|done].
    rewrite Ho, put_utf8_app by (by apply joins_head, high_not_low). by rewrite app_assoc.
  - rewrite Ec. by destruct Hk.
Qed.

Lemma finish_stands strict U k : stands strict U k -> finish k = env_text U.
Proof.
  intros [Hd Hc Hall|segs cur -> Hsegs Hcur Hd Hb Hk]; unfold finish; rewrite Hd.
  - rewrite Hc. cbn [negb andb app]. by rewrite <- (Hall []), !app_nil_r.
  - rewrite env_text_segs, env_text_tail by done. cbn [negb andb]. rewrite Hb. destruct (wk_carry k) as [c|].
    + destruct Hk as (front & -> & Hh & ->). rewrite bool_decide_false by (by destruct front). cbn [negb].
      destruct (front ++ [c]) as [|x xs] eqn:E; [by destruct front|]. rewrite <- E.
      rewrite put_utf8_app by (by apply joins_head, high_not_low). by rewrite <- !app_assoc.
    + destruct Hk as [-> _]. case_bool_decide as E; [subst cur; cbn; by rewrite !app_nil_r|].
      cbn [negb]. destruct cur; [done|]. by rewrite <- app_assoc.
Qed.

Section pages.
Context {W : Type} `{PidHost W}.

(** The units of the block as far as it can be read, pages put together. *)
Fixpoint readable (fuel : nat) (h env size off : Z) (w : W) : list Z :=
  match fuel with
  | O => []
  | S fuel =>
      if size <=? off then []
      else
        let want := Z.min 4096 (size - off) in
        match nt_read_units h (env + off) (Z.to_nat (want / 2)) w with
        | None => []
        | Some page => page ++ readable fuel h env size (off + want) w
        end
  end.

(** A read answers as many units as it was asked for. *)
Definition reads_whole (h : Z) (w : W) : Prop :=
  forall addr n units, nt_read_units h addr n w = Some units -> length units = n.

Lemma walk_pages_stands fuel h env size off k U w : reads_whole h w ->
  stands true U k -> exists strict, stands strict (U ++ readable fuel h env size off w) (walk_pages fuel h env size off k w).
Proof.
  intros Hw. revert off k U. induction fuel as [|fuel IH]; intros off k U Hs; cbn [walk_pages readable].
  { exists true. by rewrite app_nil_r. }
  destruct (wk_done k) eqn:Ed; cbn [orb].
  { exists true. destruct Hs as [_ Hc Hall|]; [|congruence]. apply at_end; [done|done|].
    intros V. by rewrite <- app_assoc, Hall. }
  destruct (size <=? off) eqn:Eo; [exists true; by rewrite app_nil_r|].
  set (want := Z.min 4096 (size - off)).
  destruct (nt_read_units h (env + off) (Z.to_nat (want / 2)) w) as [page|] eqn:Er; [|exists true; by rewrite app_nil_r].
  pose proof (Hw _ _ _ Er) as Hl. destruct page as [|c page].
  - exists false. cbn [app]. assert (Hwant : want = 1).
    { destruct (decide (want = 1)) as [|Hn]; [done|]. exfalso. cbn in Hl.
      assert (2 <= want) by lia. pose proof (Z.div_le_mono 2 want 2). change (2 / 2) with 1 in *. lia. }
    assert (Hend : size <= off + want) by lia.
    pose proof (take_empty_stands k U Hs Ed) as Hs'. destruct fuel as [|fuel].
    + cbn [walk_pages readable]. by rewrite app_nil_r.
    + cbn [walk_pages readable]. rewrite (proj2 (Z.leb_le size (off + want)) Hend), orb_true_r. by rewrite app_nil_r.
  - rewrite app_assoc. by apply IH, take_page_stands.
Qed.

Lemma readable_enough n h env size off w : 0 <= off -> size - off <= Z.of_nat n * 4096 ->
  forall m, (n <= m)%nat -> readable (S m) h env size off w = readable (S n) h env size off w.
Proof.
  revert off. induction n as [|n IH]; intros off Ho Hs m Hm; cbn [readable].
  - by rewrite (proj2 (Z.leb_le size off)) by lia.
  - destruct (size <=? off) eqn:E; [done|]. destruct (nt_read_units _ _ _ w); [|done]. f_equal.
    destruct m as [|m]; [lia|]. destruct (decide (size - off <= 4096)).
    + cbn [readable]. by rewrite (proj2 (Z.leb_le size (off + Z.min 4096 (size - off)))) by lia.
    + apply IH; lia.
Qed.

(** C20: Another process's environment, which is read and converted a page at
    a time, is the text of the whole block: wherever the pages cut it, in a
    string, between a string and its NUL or inside a surrogate pair, and
    wherever reading stops, the result is what converting all that could be
    read in one piece gives, string by string up to the double NUL. A block
    of at most 1 MiB is read to its end. *)
Theorem environ_by_pages h env size w n : reads_whole h w -> size <= MAX_ENV -> (257 <= n)%nat ->
  finish (walk_pages 257 h env size 0 walk_init w) = env_text (readable n h env size 0 w).
Proof.
  intros Hw Hsize Hn. destruct n as [|n]; [lia|].
  rewrite (readable_enough 256 h env size 0 w) by (unfold MAX_ENV in *; lia).
  destruct (walk_pages_stands 257 h env size 0 walk_init [] w Hw) as [strict Hs].
  - apply (within _ _ _ [] []); try done; [constructor|constructor].
  - by rewrite (finish_stands strict _ _ Hs).
Qed.
End pages.

(** ** The map of a process *)

Section loop.
Context {S R : Type} (step : S -> S + R).

(** Rounds that do not leave use up their number of a falling measure. *)
Lemma rounds_measure (m : S -> Z) n s s' :
  (forall s s', step s = inl s' -> 0 <= m s' /\ m s' + 1 <= m s) -> rounds step n s = inl s' -> m s' + Zpos n <= m s.
Proof.
  intros Hm. revert s s'. induction n as [n IH|n IH|]; intros s s'; cbn [rounds].
  - destruct (step s) as [s1|] eqn:E1; [|done]. destruct (rounds step n s1) as [s2|] eqn:E2; [|done]. intros E3.
    pose proof (Hm _ _ E1). pose proof (IH _ _ E2). pose proof (IH _ _ E3). lia.
  - destruct (rounds step n s) as [s2|] eqn:E2; [|done]. intros E3.
    pose proof (IH _ _ E2). pose proof (IH _ _ E3). lia.
  - intros E. pose proof (Hm _ _ E). lia.
Qed.

Lemma rounds_inv (I : S -> Prop) (Q : R -> Prop) n s :
  (forall s, I s -> match step s with inl s' => I s' | inr r => Q r end) -> I s ->
  match rounds step n s with inl s' => I s' | inr r => Q r end.
Proof.
  intros Hstep. revert s. induction n as [n IH|n IH|]; intros s Hs; cbn [rounds].
  - specialize (Hstep s Hs). destruct (step s) as [s1|]; [|done]. specialize (IH s1 Hstep) as H1.
    destruct (rounds step n s1) as [s2|]; [by apply IH|done].
  - specialize (IH s Hs) as H1. destruct (rounds step n s) as [s2|]; [by apply IH|done].
  - by apply Hstep.
Qed.
End loop.

Section maps.
Context {W : Type} `{PidHost W}.

(** What VirtualQuery documents: the region of a page starts at it, and is
    made of whole pages. *)
Definition queries_pages (w : W) : Prop :=
  forall a m, VirtualQuery a w = Some m -> a mod 4096 = 0 -> mb_base m = a /\ mb_size m mod 4096 = 0.

(** Regions one behind the other from [a] to [b]. *)
Fixpoint tiles (a : Z) (ms : list region) (b : Z) : Prop :=
  match ms with
  | [] => a = b
  | m :: ms => mb_base m = a /\ a < region_end m /\ tiles (region_end m) ms b
  end.

Lemma tiles_snoc a ms b m : tiles a ms b -> mb_base m = b -> b < region_end m -> tiles a (ms ++ [m]) (region_end m).
Proof.
  revert a. induction ms as [|m' ms IH]; intros a; cbn [app tiles]; [by intros ->|].
  intros (Hb & Hlt & Ht) Hm Hl. split_and!; [done|done|]. by apply IH.
Qed.

(** Nothing more to ask at [a]. *)
Definition no_more (a : Z) (w : W) : Prop :=
  MAPS_TOP <= a \/ match VirtualQuery a w with Some m => region_end m <= a | None => True end.

Lemma maps_walk_ends n w : MAPS_TOP < Zpos n -> exists out, maps_walk n w = inr out.
Proof.
  intros Hn. unfold maps_walk. destruct (rounds _ _ _) as [[a o]|out] eqn:E; [|by exists out]. exfalso.
  apply (rounds_measure _ (fun st => Z.max 0 (MAPS_TOP - fst st))) in E; [unfold MAPS_TOP in *; cbn [fst] in E; lia|].
  intros [addr o1] [addr' o2]. unfold maps_round. destruct (MAPS_TOP <=? addr) eqn:Et; [done|].
  destruct (VirtualQuery addr w) as [m|]; [|done]. destruct (region_end m <=? addr) eqn:Ee; [done|].
  intros [= <- <-]. cbn [fst]. lia.
Qed.

Lemma region_end_page m : mb_base m mod 4096 = 0 -> mb_size m mod 4096 = 0 -> region_end m mod 4096 = 0.
Proof.
  intros Hb Hs. unfold region_end. apply Z.mod_divide in Hb as [b ->], Hs as [s ->]; try done.
  rewrite <- Z.mul_add_distr_r. change (2 ^ 64) with (2 ^ 52 * 4096). rewrite Z.mul_mod_distr_r by done. by apply Z.mod_mul.
Qed.

(** The text of the regions up to [a]. *)
Definition printed (w : W) (a : Z) (o : cstr) : Prop :=
  exists ms, o = concat (map (maps_row (modules w) (ph_stackmark w)) ms) /\ tiles 0 ms a.

Lemma maps_round_printed w a o : queries_pages w -> a mod 4096 = 0 -> printed w a o ->
  match maps_round (modules w) w (a, o) with
  | inl st => fst st mod 4096 = 0 /\ printed w (fst st) (snd st)
  | inr o' => exists a', printed w a' o' /\ no_more a' w
  end.
Proof.
  intros Hq Ha Hp. unfold maps_round, no_more. destruct (MAPS_TOP <=? a) eqn:Et; [exists a; split; [done|left; lia]|].
  destruct (VirtualQuery a w) as [m|] eqn:Eq; [|exists a; rewrite Eq; by split; [|right]].
  destruct (region_end m <=? a) eqn:Ee; [exists a; rewrite Eq; split; [done|right; lia]|].
  destruct (Hq _ _ Eq Ha) as [Hb Hs]. split; [apply region_end_page; [by rewrite Hb|done]|].
  destruct Hp as (ms & -> & Ht). exists (ms ++ [m]). split.
  - rewrite map_app, concat_app. cbn [map concat]. by rewrite app_nil_r.
  - apply (tiles_snoc _ _ a); [done|done|lia].
Qed.

Lemma maps_rounds_printed w n out : queries_pages w -> maps_walk n w = inr out ->
  exists a, printed w a out /\ no_more a w.
Proof.
  intros Hq Hout. change (match inr out : (Z * cstr) + cstr with
                          | inl st => fst st mod 4096 = 0 /\ printed w (fst st) (snd st)
                          | inr o => exists a, printed w a o /\ no_more a w
                          end). rewrite <- Hout. unfold maps_walk.
  apply (rounds_inv _ (fun st => fst st mod 4096 = 0 /\ printed w (fst st) (snd st))
                      (fun o => exists a, printed w a o /\ no_more a w)); [|by split; [|exists []]].
  intros [a o] [Ha Hp]. by apply maps_round_printed.
Qed.

(** C21: The walk over the own address space ends, and what it prints are the
    lines of regions that follow each other from address 0 without gap or
    overlap up to where there is nothing more to ask: no committed region is
    left out, and none is printed twice. *)
Theorem maps_cover w : queries_pages w -> exists ms top,
  gen_maps ph_self w = Some (concat (map (maps_row (modules w) (ph_stackmark w)) ms), w) /\ tiles 0 ms top /\ no_more top w.
Proof.
  intros Hq. destruct (maps_walk_ends MAPS_ROUNDS w ltac:(done)) as [out Hout]. 
  destruct (maps_rounds_printed w MAPS_ROUNDS out Hq Hout) as (top & (ms & -> & Ht) & Hn).
  exists ms, top. split; [|done]. unfold gen_maps. by rewrite Z.eqb_refl, Hout.
Qed.
End maps.

(** ** The files of a process *)

Section files.
Context {W : Type} `{PidHost W}.

Lemma if_some {A} (b : bool) (x : A) (e : option A) : is_Some (if b then Some x else e) <-> b = true \/ is_Some e.
Proof. destruct b; [split; [by left|by eexists]|]. split; [by right|by intros [[=]|]]. Qed.

Lemma is_Some_None_iff {A} : is_Some (@None A) <-> False.
Proof. split; [by intros [? [=]]|done]. Qed.

Lemma plain_file_names pid p name : is_Some (plain_file pid p name) <-> name ∈ pfs_pid_stable.
Proof.
  unfold plain_file, pfs_pid_stable. cbn [map]. rewrite !elem_of_cons.
  rewrite !if_some, orb_true_iff, !bool_decide_eq_true, elem_of_nil.
  rewrite is_Some_None_iff. tauto.
Qed.

Lemma gen_text_total (m : M W cstr) w t w' : m w = Some (t, w') ->
  (t ← m; mret (Some t)) w = Some (Some t, w').
Proof. intros Hm. by rewrite (bind_run _ _ _ _ _ Hm). Qed.

Definition total {A} (m : M W A) : Prop := forall w, is_Some (m w).

Lemma total_bind {A B} (m : M W A) (f : A -> M W B) : total m -> (forall a, total (f a)) -> total (m ≫= f).
Proof. intros Hm Hf w. destruct (Hm w) as [[a w1] E]. rewrite (bind_run _ _ _ _ _ E). apply Hf. Qed.

Lemma total_ret {A} (a : A) : total (mret a).
Proof. by eexists. Qed.
Lemma total_step {A} (f : W -> A * W) : total (step f).
Proof. by eexists. Qed.
Lemma total_reads {A} (f : W -> A) : total (reads f).
Proof. by eexists. Qed.
Lemma total_modifies (f : W -> W) : total (modifies f).
Proof. by eexists. Qed.

#[local] Hint Resolve total_ret total_step total_reads total_modifies : core.

Ltac total := repeat first [apply total_ret|apply total_step|apply total_reads|apply total_modifies|apply total_bind; [|intros ?]|case_match].

Lemma gather_total pid : total (gather pid).
Proof. unfold gather. total. Qed.
Lemma cmdline_total pid : total (gen_cmdline pid).
Proof. unfold gen_cmdline. total. Qed.
Lemma environ_total pid : total (gen_environ pid).
Proof. unfold gen_environ, open_params. total. Qed.
Lemma maps_total pid : total (gen_maps pid).
Proof. unfold gen_maps. case_match; [|total]. intros w. destruct (maps_walk_ends MAPS_ROUNDS w ltac:(done)) as [out ->]. by eexists. Qed.

Lemma plain_file_total pid p name m : plain_file pid p name = Some m -> name <> bytes "mounts" ->
  forall w, exists t w', m w = Some (Some t, w').
Proof.
  intros Hm Hn w. unfold plain_file in Hm.
  assert (Hf : forall g : M W cstr, total g -> exists t w', (t ← g; mret (Some t)) w = Some (Some t, w'))
    by (intros g Hg; destruct (Hg w) as [[t w'] E]; exists t, w'; by apply gen_text_total).
  repeat case_bool_decide; cbn [orb] in Hm; simplify_eq;
    first [by eauto|by apply Hf, cmdline_total|by apply Hf, environ_total|by apply Hf, maps_total|by do 2 eexists].
Qed.

(** Every file the directory of a process lists has a generator that
    answers a text, and no other name has one ("mounts" stands and falls
    with /proc/mounts); the four volatile files made in one pass are, byte
    for byte and effect for effect, the four read one by one; without the
    process there is no file at all. *)
Theorem pid_files_agree pid w :
  match pfs_gen_pid_volatile pid w with
  | Some (Some (texts, _), w') =>
      Forall2 (fun name t => pfs_gen_pid_file pid name w = Some (Some t, w')) pfs_pid_volatile texts /\
      (forall name, name ∈ pfs_pid_stable -> name <> bytes "mounts" ->
         exists t w', pfs_gen_pid_file pid name w = Some (Some t, w')) /\
      pfs_gen_pid_file pid (bytes "mounts") w = Some (ph_mounts w, w) /\
      (forall name, name ∉ pfs_pid_volatile ++ pfs_pid_stable -> fst <$> pfs_gen_pid_file pid name w = Some None)
  | Some (None, w') => forall name, pfs_gen_pid_file pid name w = Some (None, w)
  | None => False
  end.
Proof.
  unfold pfs_gen_pid_volatile, pfs_gen_pid_file. rewrite bind_reads.
  destruct (ph_find pid w) as [p|] eqn:Ep; [|intros name; by rewrite bind_reads, Ep].
  destruct (gather_total pid w) as [[f w1] Hf]. rewrite (bind_run _ _ _ _ _ Hf), !bind_reads. cbn [mret M_ret].
  assert (Hfacts : forall name, plain_file pid p name = None ->
    (p ← reads (ph_find pid);
     match p with
     | None => mret None
     | Some p => match plain_file pid p name with
                 | Some text => text
                 | None => f ← gather pid; uid ← reads ph_getuid; gid ← reads ph_getgid; mret (facts_file pid p f uid gid name)
                 end
     end) w = Some (facts_file pid p f (ph_getuid w1) (ph_getgid w1) name, w1)).
  { intros name Hn. rewrite bind_reads, Ep, Hn, (bind_run _ _ _ _ _ Hf), !bind_reads. done. }
  split; [|split; [|split]].
  - repeat constructor; rewrite Hfacts; done.
  - intros name [m Hm]%(plain_file_names pid p) Hne. rewrite bind_reads, Ep, Hm. by apply (plain_file_total pid p name).
  - by rewrite Ep.
  - intros name [Hv Hs]%not_elem_of_app. rewrite Hfacts.
    + cbn. f_equal. unfold facts_file, pfs_pid_volatile in *. cbn [map] in Hv. rewrite !not_elem_of_cons in Hv.
      destruct Hv as (? & ? & ? & ? & _). by rewrite !bool_decide_false by done.
    + apply eq_None_not_Some. by rewrite (plain_file_names pid p name).
Qed.
End files.

(** ** A host to evaluate on *)

(** "A=" and 2047 letters, the last unit of the first page a high surrogate,
    its other half at the start of the second, then the two NULs. *)
Definition toy_block : list Z := [65; 61] ++ replicate 2045 97 ++ [0xd83d; 0xde00; 0; 0].

Definition toy_units (addr : Z) (n : nat) : list Z :=
  take n (drop (Z.to_nat ((addr - 4096) / 2)) toy_block ++ replicate n 0).

Definition toy_proc : pfs_proc := Proc 7 1 3 (bytes "a) (b") false 0 0 0 0 0 0 0 0 no_io.

Definition toy_facts : pidfacts := Facts true 5 6 7 65536 40960 65536 65536 9 no_io.

#[export] Instance toy_pid : PidHost unit := {
  ph_self := 7;
  ph_find pid _ := if pid =? 7 then Some toy_proc else None;
  ph_jiffies x := x / 100000;
  ph_boot _ := 0;
  ph_open _ w := (Some 44, w);
  ph_open_vm _ w := (Some 45, w);
  nt_peb _ _ := Some 8192;
  nt_wow64 _ _ := Some 0;
  ph_close _ w := w;
  GetProcessTimes _ _ := Some (10, 20, 30);
  GetProcessMemoryInfo _ _ := None;
  GetProcessIoCounters _ _ := None;
  ph_getuid _ := 1000; ph_getgid _ := 1000;
  ph_argv _ := [bytes "a"];
  ph_environ _ := [];
  ph_cwd _ := Some (bytes "/C/x");
  ph_drives _ := 4;
  ph_modules _ := [(0x10000, map (fun c => c) (bytes "C:\x.exe"))];
  VirtualQuery a _ :=
    if a <? 0x10000 then Some (Region (a / 4096 * 4096) 0 ((16 - a / 4096) * 4096) 0x10000 1 0)
    else if a <? 0x30000 then Some (Region (a / 4096 * 4096) 0x10000 ((48 - a / 4096) * 4096) MEM_COMMIT 0x20 MEM_IMAGE)
    else None;
  ph_stackmark _ := 0;
  ph_mounts _ := Some [];
  ph_image _ _ := None;
  nt_command_line _ _ := None;
  CommandLineToArgvW := None;
  nt_read_word _ addr _ := Some 4096;
  nt_read_units _ addr n _ := Some (toy_units addr n) }.

Lemma toy_reads_whole h : reads_whole h tt.
Proof.
  intros addr n units [= <-]. unfold toy_units. rewrite length_take, length_app, length_replicate. lia.
Qed.

Lemma toy_queries_pages : queries_pages tt.
Proof.
  intros a m Hq Ha. assert (Hb : a / 4096 * 4096 = a) by (pose proof (Z.div_mod a 4096); lia).
  cbn [VirtualQuery toy_pid] in Hq.
  destruct (a <? 0x10000); [|destruct (a <? 0x30000); [|done]]; injection Hq as <-; cbn [mb_base mb_size];
    (split; [done|by apply Z.mod_mul]).
Qed.

Lemma stat_reads_back_witness :
  word 7 /\ facts_ok toy_proc toy_facts /\
  parse_stat (gen_stat 7 toy_proc toy_facts) = Some (StatLine 7 (bytes "a) (b") 82 1 9 5 6 3 7 65536 10).
Proof.
  assert (Hp : word 7) by done.
  assert (Hf : facts_ok toy_proc toy_facts) by (repeat (apply Forall_cons_2; [done|]); apply Forall_nil_2).
  split; [exact Hp|]. split; [exact Hf|]. exact (stat_reads_back 7 toy_proc toy_facts Hp Hf).
Defined.

Lemma environ_by_pages_witness :
  reads_whole 45 tt /\
  finish (walk_pages 257 45 4096 6000 0 walk_init tt) = env_text (readable 258 45 4096 6000 0 tt) /\
  readable 258 45 4096 6000 0 tt = toy_block ++ replicate 949 0.
Proof.
  split; [apply toy_reads_whole|]. split; [|vm_compute; reflexivity].
  apply (environ_by_pages 45 4096 6000 tt 258); [apply toy_reads_whole|unfold MAX_ENV; lia|lia].
Defined.

Lemma maps_cover_witness : queries_pages tt /\ exists ms top,
  gen_maps ph_self tt = Some (concat (map (maps_row (modules tt) (ph_stackmark tt)) ms), tt) /\ tiles 0 ms top /\ no_more top tt.
Proof. split; [apply toy_queries_pages|]. exact (maps_cover tt toy_queries_pages). Defined.

(** The text of the map on that host. *)
Example toy_maps : gen_maps 7 tt =
  Some (bytes "00010000-00030000 r-xp 00000000 08:01 4373390 /C/x.exe" ++ lf, tt).
Proof. vm_compute. reflexivity. Qed.
