(* ===== verification/NtProc.v ===== *)
(** * shim/proc.c, the children of a process on Windows

    The tracker of child processes: objects on four lists (running, zombie,
    reaped while still waited on, free), counts of who waits on each, the
    worker thread that waits on up to 64 of them at a time, and what an exit
    code means as a wait status. The code that forks, spawns and waits shares
    the tracker; it is a parameter, a relation that may take a step whenever
    the worker does not hold the lock. The theorems: the lists and counts
    agree under every interleaving and the worker never touches a freed
    object, an ended child is accounted once and becomes what its exit code
    says, a native program's code reads back as an exit or a signal, and the
    window of 64 reaches every child. *)
From S2P Require Import Prelude Host Wait.

(** ** Objects and lists *)

Inductive pstatus := PROC_ALIVE | PROC_ZOMBIE | PROC_UNDEAD.

#[export] Instance pstatus_eq_dec : EqDecision pstatus.
Proof. solve_decision. Defined.

Record rusage := Rusage { ru_maxrss : Z; ru_majflt : Z; ru_utime : Z; ru_stime : Z; ru_inblock : Z; ru_oublock : Z }.
Definition no_rusage : rusage := Rusage 0 0 0 0 0 0.

(** struct Proc *)
Record proc := Proc {
  pr_pid : Z; pr_handle : Z; pr_waiters : Z; pr_status : pstatus; pr_wstatus : Z; pr_ru : rusage }.

(** struct Procs: the objects by address, and lists of addresses. *)
Record procs := Procs {
  ps_heap : gmap nat proc;
  ps_list : list nat; ps_free : list nat; ps_zombies : list nat; ps_undead : list nat;
  ps_waiters : Z; ps_ruchlds : rusage }.

Definition no_procs : procs := Procs ∅ [] [] [] [] 0 no_rusage.

Definition dll_remove (a : nat) (l : list nat) : list nat := filter (fun x => x <> a) l.

Definition kNtStillActive : Z := 259.
Definition kNtWaitTimeout : Z := 258.
Definition kNtWaitAbandoned : Z := 128.

(** The Windows calls. *)
Class NtProcHost (W : Type) := {
  np_onbirth : Z;
  GetExitCodeProcess : Z -> W -> Z;
  WaitForSingleObject : Z -> W -> Z;
  WaitForMultipleObjects : list Z -> Z -> W -> Z * W;
  np_memory : Z -> W -> Z * Z;
  np_times : Z -> W -> Z * Z;
  np_io : Z -> W -> Z * Z;
  WindowsDurationToTimeVal : Z -> Z;
  rusage_add : rusage -> rusage -> rusage;
  np_image_name : option (Z -> W -> list Z);
  np_open_image : list Z -> W -> option Z * W;
  np_read8 : Z -> W -> option (list Z);
  np_close : Z -> W -> W;
  np_set_haszombies : W -> W;
  np_set_onbirth : W -> W;
  np_alloc : W -> option nat * W;
  sigchld_ignored : W -> bool;
  sigchld_nocldwait : W -> bool;
  sig_generate : Z -> Z -> W -> W }.

(** The tracker beside the rest of the world. *)
Local Notation PM W := (M (procs * W)%type).

Section ops.
Context `{HostConsts} {W : Type} `{NtProcHost W}.

Definition tread {A} (f : procs -> A) : PM W A := reads (fun s => f (fst s)).
Definition tset (f : procs -> procs) : PM W unit := modifies (fun s => (f (fst s), snd s)).
Definition hread {A} (f : W -> A) : PM W A := reads (fun s => f (snd s)).
Definition hset (f : W -> W) : PM W unit := modifies (fun s => (fst s, f (snd s))).
Definition hstep {A} (f : W -> A * W) : PM W A := step (fun s => let '(a, w) := f (snd s) in (a, (fst s, w))).

(** A pointer that is no object's is undefined behaviour. *)
Definition deref (a : nat) : PM W proc :=
  p ← tread (fun t => ps_heap t !! a);
  match p with Some p => mret p | None => out_of_fuel end.

Definition upd (a : nat) (f : proc -> proc) : PM W unit :=
  tset (fun t => Procs (alter f a (ps_heap t)) (ps_list t) (ps_free t) (ps_zombies t) (ps_undead t) (ps_waiters t) (ps_ruchlds t)).

Definition set_waiters (n : Z) (p : proc) : proc := Proc (pr_pid p) (pr_handle p) n (pr_status p) (pr_wstatus p) (pr_ru p).
Definition set_handle (h : Z) (p : proc) : proc := Proc (pr_pid p) h (pr_waiters p) (pr_status p) (pr_wstatus p) (pr_ru p).
Definition set_status (s : pstatus) (p : proc) : proc := Proc (pr_pid p) (pr_handle p) (pr_waiters p) s (pr_wstatus p) (pr_ru p).
Definition set_wstatus (s : Z) (p : proc) : proc := Proc (pr_pid p) (pr_handle p) (pr_waiters p) (pr_status p) s (pr_ru p).
Definition set_ru (r : rusage) (p : proc) : proc := Proc (pr_pid p) (pr_handle p) (pr_waiters p) (pr_status p) (pr_wstatus p) r.

Definition set_lists (l f z u : list nat) (t : procs) : procs := Procs (ps_heap t) l f z u (ps_waiters t) (ps_ruchlds t).

Definition list_to_free (a : nat) (t : procs) : procs :=
  set_lists (dll_remove a (ps_list t)) (a :: ps_free t) (ps_zombies t) (ps_undead t) t.
Definition list_to_zombies (a : nat) (t : procs) : procs :=
  set_lists (dll_remove a (ps_list t)) (ps_free t) (a :: ps_zombies t) (ps_undead t) t.
Definition undead_to_free (a : nat) (t : procs) : procs :=
  set_lists (ps_list t) (a :: ps_free t) (ps_zombies t) (dll_remove a (ps_undead t)) t.
Definition add_ruchlds (r : rusage) (t : procs) : procs :=
  Procs (ps_heap t) (ps_list t) (ps_free t) (ps_zombies t) (ps_undead t) (ps_waiters t) (rusage_add (ps_ruchlds t) r).

(** __proc_new: an object of the free list or of the heap, cleared. *)
Definition proc_new : PM W (option nat) :=
  f ← tread ps_free;
  a ← (match f with
       | e :: f' =>
           _ ← tset (fun t => set_lists (ps_list t) (dll_remove e (ps_free t)) (ps_zombies t) (ps_undead t) t);
           mret (Some e)
       | [] => hstep np_alloc
       end);
  match a with
  | None => mret None
  | Some e =>
      _ ← tset (fun t => Procs (<[e := Proc 0 0 0 PROC_ALIVE 0 no_rusage]> (ps_heap t)) (ps_list t) (ps_free t)
                           (ps_zombies t) (ps_undead t) (ps_waiters t) (ps_ruchlds t));
      mret (Some e)
  end.

Definition proc_add (a : nat) : PM W unit :=
  _ ← tset (fun t => set_lists (a :: ps_list t) (ps_free t) (ps_zombies t) (ps_undead t) t);
  hset np_set_onbirth.

Definition proc_free (a : nat) : PM W unit :=
  _ ← tset (undead_to_free a);
  p ← deref a;
  hset (np_close (pr_handle p)).

(** __proc_search: the handle of a running child, 0 if there is none. *)
Definition proc_search (pid : Z) : PM W Z :=
  tread (fun t =>
    match List.find (fun a => match ps_heap t !! a with Some p => pid =? pr_pid p | None => false end) (ps_list t) with
    | Some a => match ps_heap t !! a with Some p => pr_handle p | None => 0 end
    | None => 0
    end).

Definition proc_wipe_and_reset : PM W unit := tset (fun _ => no_procs).

(** ** What an exit code means *)

Definition proc_stats (h : Z) (w : W) : rusage :=
  let '(peak, faults) := np_memory h w in
  let '(kernel, user) := np_times h w in
  let '(rops, wops) := np_io h w in
  Rusage (peak / 1024) faults (WindowsDurationToTimeVal user) (WindowsDurationToTimeVal kernel) rops wops.

(** A win32 program that is no APE, by the first bytes of its image. *)
Definition native_head (buf : list Z) : bool :=
  bool_decide (take 2 buf = bytes "MZ") && negb (bool_decide (take 6 buf = bytes "MZqFpD")).

Definition globalroot : list Z := bytes "\\?\GLOBALROOT".

Definition is_native_child (h : Z) : PM W bool :=
  match np_image_name with
  | None => mret false
  | Some get_image =>
      dev ← hread (get_image h);
      if (length dev =? 0)%nat || (1024 <=? length dev)%nat then mret false
      else
        f ← hstep (np_open_image (globalroot ++ dev));
        match f with
        | None => mret false
        | Some f =>
            buf ← hread (np_read8 f);
            _ ← hset (np_close f);
            mret (match buf with
                  | Some buf => if (length buf <? 8)%nat then false else native_head buf
                  | None => false
                  end)
        end
  end.

(** The cases of the switch, in its order. *)
Definition crash_rows : list (string * string) :=
  [ ("kNtStatusControlCExit", "SIGINT");
    ("kNtStatusStackOverflow", "SIGSEGV"); ("kNtStatusAccessViolation", "SIGSEGV"); ("kNtStatusGuardPageViolation", "SIGSEGV");
    ("kNtStatusInPageError", "SIGBUS");
    ("kNtStatusIllegalInstruction", "SIGILL"); ("kNtStatusPrivilegedInstruction", "SIGILL");
    ("kNtStatusBreakpoint", "SIGTRAP");
    ("kNtStatusIntegerOverflow", "SIGFPE"); ("kNtStatusFloatDivideByZero", "SIGFPE"); ("kNtStatusFloatOverflow", "SIGFPE");
    ("kNtStatusFloatUnderflow", "SIGFPE"); ("kNtStatusFloatInexactResult", "SIGFPE");
    ("kNtStatusFloatDenormalOperand", "SIGFPE"); ("kNtStatusFloatInvalidOperation", "SIGFPE");
    ("kNtStatusFloatStackCheck", "SIGFPE"); ("kNtStatusIntegerDivideBYZero", "SIGFPE");
    ("kNtStatusDllNotFound", "SIGSYS"); ("kNtStatusDllInitFailed", "SIGSYS"); ("kNtStatusOrdinalNotFound", "SIGSYS");
    ("kNtStatusEntrypointNotFound", "SIGSYS");
    ("kNtStatusAssertionFailure", "SIGABRT") ]%string.

Definition crash_signal (code : Z) : option Z :=
  match List.find (fun r => host_const (fst r) =? code) crash_rows with
  | Some r => Some (host_const (snd r))
  | None => None
  end.

Definition native_wstatus (code : Z) : Z :=
  match crash_signal code with
  | Some sig => sig
  | None => Z.shiftl (Z.land code 0xFF) 8
  end.

(** ** Accounting an ended child *)

Definition is_relay (status : Z) : bool := Z.land status 0xFF000000 =? 0x23000000.

(** The wait status an exit code stands for. *)
Definition exit_wstatus (h status : Z) : PM W Z :=
  if status =? 0xc9af3d51 then mret kNtStillActive
  else
    native ← is_native_child h;
    mret (if (native : bool) then native_wstatus status else status).

Definition proc_harvest (a : nat) (iswait4 : bool) : PM W Z :=
  pr ← deref a;
  let h := pr_handle pr in
  status ← hread (GetExitCodeProcess h);
  alive ← hread (fun w => (status =? kNtStillActive) && (WaitForSingleObject h w =? kNtWaitTimeout));
  if (alive : bool) then mret 0
  else
    ru ← hread (proc_stats h);
    _ ← upd a (fun p => set_ru (rusage_add (pr_ru p) ru) p);
    _ ← tset (add_ruchlds ru);
    if is_relay status then
      _ ← hset (np_close h);
      _ ← upd a (set_handle (Z.land status 0x00FFFFFF));
      mret 0
    else
      status ← exit_wstatus h status;
      _ ← upd a (set_wstatus status);
      others ← tread ps_waiters;
      ignored ← hread (fun w => sigchld_ignored w || sigchld_nocldwait w);
      if negb iswait4 && (pr_waiters pr =? 0) && (others =? 0) && ignored then
        _ ← tset (list_to_free a);
        _ ← hset (np_close h);
        mret 0
      else
        _ ← upd a (set_status PROC_ZOMBIE);
        _ ← tset (list_to_zombies a);
        _ ← hset np_set_haszombies;
        mret (if (pr_waiters pr =? 0) && (others =? 0)
              then host_const (if WIFSIGNALED status then "CLD_KILLED" else "CLD_EXITED") else 0).

(** ** The worker *)

(** The loop that assembles the group: entries move to the samples, those
    nobody waits on yet are waited on. *)
Fixpoint sample_loop (todo samples : list nat) (objs : list (nat * Z)) : PM W (list nat * list nat * list (nat * Z)) :=
  match todo with
  | [] => mret ([], samples, objs)
  | e :: todo' =>
      if (64 <=? length objs)%nat then mret (todo, samples, objs)
      else
        pr ← deref e;
        if pr_waiters pr =? 0 then
          _ ← upd e (set_waiters (pr_waiters pr + 1));
          sample_loop todo' (samples ++ [e]) (objs ++ [(e, pr_handle pr)])
        else sample_loop todo' (samples ++ [e]) objs
  end.

Definition worker_sample : PM W (list (nat * Z)) :=
  l ← tread ps_list;
  r ← sample_loop l [] [];
  let '(rest, samples, objs) := r in
  _ ← tset (fun t => set_lists (rest ++ samples) (ps_free t) (ps_zombies t) (ps_undead t) t);
  mret objs.

Definition wait_handles (objs : list (nat * Z)) : list Z :=
  map snd objs ++ (if (length objs =? 64)%nat then [] else [np_onbirth]).

Definition POLL_INTERVAL_MS : Z := host_const "POLL_INTERVAL_MS".
Definition wait_millis (objs : list (nat * Z)) : Z := if (length objs =? 64)%nat then POLL_INTERVAL_MS else 0xffffffff.

(** One waiter less; an object reaped meanwhile goes with the last. *)
Definition unwait (a : nat) : PM W proc :=
  pr ← deref a;
  _ ← upd a (set_waiters (pr_waiters pr - 1));
  mret pr.

Fixpoint release (objs : list (nat * Z)) (j i : Z) : PM W unit :=
  match objs with
  | [] => mret tt
  | (a, h) :: objs =>
      _ ← (if (h =? np_onbirth) || (j =? i) then mret tt
           else
             pr ← unwait a;
             if (pr_waiters pr - 1 =? 0) && bool_decide (pr_status pr = PROC_UNDEAD) then proc_free a else mret tt);
      release objs (j + 1) i
  end.

(** What the worker does when the wait answered [i]. *)
Definition worker_wake (objs : list (nat * Z)) (i : Z) : PM W Z :=
  let i := if negb (Z.land i kNtWaitAbandoned =? 0) then Z.ldiff i kNtWaitAbandoned else i in
  _ ← release objs 0 i;
  if i =? kNtWaitTimeout then mret 0
  else
    match wait_handles objs !! Z.to_nat i with
    | None => out_of_fuel
    | Some h =>
        if h =? np_onbirth then mret 0
        else
          match objs !! Z.to_nat i with
          | None => out_of_fuel
          | Some (a, _) =>
              pr ← unwait a;
              match pr_status pr with
              | PROC_ALIVE => proc_harvest a false
              | PROC_ZOMBIE => mret 0
              | PROC_UNDEAD => _ ← (if pr_waiters pr - 1 =? 0 then proc_free a else mret tt); mret 0
              end
          end
    end.

(** SIGCHLD follows once the lock is given back. *)
Definition worker_signal (sic : Z) : PM W unit :=
  if negb (sic =? 0) then hset (sig_generate (host_const "SIGCHLD") sic) else mret tt.
End ops.

(** ** The invariant *)

Inductive place := InList | InZombies | InUndead | InFree.
#[export] Instance place_eq_dec : EqDecision place.
Proof. solve_decision. Defined.

Definition at_ (t : procs) (pl : place) : list nat :=
  match pl with InList => ps_list t | InZombies => ps_zombies t | InUndead => ps_undead t | InFree => ps_free t end.

Definition everywhere (t : procs) : list nat := ps_list t ++ ps_zombies t ++ ps_undead t ++ ps_free t.

(** What an object on each list is like. *)
Definition fits `{NtProcHost W} (pl : place) (p : proc) : Prop :=
  match pl with
  | InList => pr_status p = PROC_ALIVE /\ pr_handle p <> np_onbirth
  | InZombies => pr_status p = PROC_ZOMBIE /\ pr_handle p <> np_onbirth
  | InUndead => pr_status p = PROC_UNDEAD /\ 0 < pr_waiters p /\ pr_handle p <> np_onbirth
  | InFree => pr_waiters p = 0
  end.

Section invariant.
Context `{HostConsts} {W : Type} `{NtProcHost W}.

(** One for the worker when it holds the object, and the others' count. *)
Definition waits (tok : nat -> Z) (objs : list nat) (a : nat) : Z := (if decide (a ∈ objs) then 1 else 0) + tok a.

(** The objects the worker holds are on a list; each object is on one list
    only, is counted exactly, and is what its list says. *)
Record tracked (tok : nat -> Z) (objs : list nat) (t : procs) : Prop := {
  tr_once : NoDup (everywhere t);
  tr_tok : forall a, 0 <= tok a;
  tr_objs : NoDup objs;
  tr_held : forall a, a ∈ objs -> exists pl, a ∈ at_ t pl;
  tr_at : forall pl a, a ∈ at_ t pl -> exists p, ps_heap t !! a = Some p /\ pr_waiters p = waits tok objs a /\ fits pl p }.

Lemma at_everywhere t pl a : a ∈ at_ t pl -> a ∈ everywhere t.
Proof. unfold everywhere. rewrite !elem_of_app. destruct pl; cbn; tauto. Qed.

Lemma one_place t pl pl' a : NoDup (everywhere t) -> a ∈ at_ t pl -> a ∈ at_ t pl' -> pl = pl'.
Proof.
  unfold everywhere. rewrite !NoDup_app. intros (_ & H1 & _ & H2 & _ & H3 & _) Ha Hb.
  specialize (H1 a). specialize (H2 a). specialize (H3 a). repeat rewrite elem_of_app in H1; repeat rewrite elem_of_app in H2.
  destruct pl, pl'; cbn [at_] in *; first [done|exfalso; tauto].
Qed.

Lemma dll_remove_not a l : a ∉ l -> dll_remove a l = l.
Proof.
  intros Ha. unfold dll_remove. induction l as [|x l IH]; [done|]. rewrite not_elem_of_cons in Ha.
  rewrite filter_cons_True by naive_solver. by rewrite IH by naive_solver.
Qed.

Lemma dll_remove_perm a l : NoDup l -> a ∈ l -> a :: dll_remove a l ≡ₚ l.
Proof.
  unfold dll_remove. induction 1 as [|x l Hx Hl IH]; [by intros ?%elem_of_nil|]. intros [->|Ha]%elem_of_cons.
  - rewrite filter_cons_False by naive_solver. change (filter _ l) with (dll_remove x l). by rewrite dll_remove_not.
  - rewrite filter_cons_True by naive_solver. rewrite perm_swap. by rewrite IH.
Qed.

Lemma elem_dll_remove a b l : b ∈ dll_remove a l <-> b <> a /\ b ∈ l.
Proof. unfold dll_remove. by rewrite list_elem_of_filter. Qed.

Lemma NoDup_dll_remove a l : NoDup l -> NoDup (dll_remove a l).
Proof. apply NoDup_filter. Qed.

(** An object moves to a list, or stays on its own, changed. *)
Definition moved (t t' : procs) (a : nat) (pl' : place) (p' : proc) : Prop :=
  ps_heap t' = <[a := p']> (ps_heap t) /\
  forall pl, at_ t' pl ≡ₚ (if decide (pl = pl') then [a] else []) ++ dll_remove a (at_ t pl).

Lemma moved_elem t t' a pl' p' pl b : moved t t' a pl' p' -> b ∈ at_ t' pl <-> (b = a /\ pl = pl') \/ (b <> a /\ b ∈ at_ t pl).
Proof.
  intros [_ Hp]. rewrite (Hp pl), elem_of_app, elem_dll_remove. destruct (decide (pl = pl')) as [->|Hn].
  - rewrite list_elem_of_singleton. naive_solver.
  - rewrite elem_of_nil. naive_solver.
Qed.

Lemma moved_once t t' a pl' p' : NoDup (everywhere t) -> moved t t' a pl' p' -> NoDup (everywhere t').
Proof.
  intros Hn Hm. pose proof (fun pl b => moved_elem t t' a pl' p' pl b Hm) as He. destruct Hm as [_ Hp].
  assert (Hat : forall pl, NoDup (at_ t' pl)).
  { intros pl. rewrite (Hp pl). apply NoDup_app. split; [by destruct (decide _); repeat constructor; apply not_elem_of_nil|]. split.
    - intros b Hb. rewrite elem_dll_remove. destruct (decide _); [|by apply elem_of_nil in Hb].
      apply list_elem_of_singleton in Hb. naive_solver.
    - apply NoDup_dll_remove. unfold everywhere in Hn. rewrite !NoDup_app in Hn. destruct pl; cbn; tauto. }
  assert (Hone : forall pl1 pl2 b, b ∈ at_ t' pl1 -> b ∈ at_ t' pl2 -> pl1 = pl2).
  { intros pl1 pl2 b [[-> ->]|[Hb1 Hb2]]%He [[? ->]|[Hb3 Hb4]]%He; try done. by apply (one_place t pl1 pl2 b). }
  unfold everywhere. rewrite !NoDup_app.
  pose proof (Hat InList). pose proof (Hat InZombies). pose proof (Hat InUndead). pose proof (Hat InFree). cbn in *.
  split_and!; try done; intros b Hb; rewrite ?elem_of_app; intros Hb';
    destruct_or?; repeat match goal with
    | H1 : b ∈ ?l1, H2 : b ∈ ?l2 |- _ =>
        first [ pose proof (Hone InList InZombies b H1 H2); done | pose proof (Hone InList InUndead b H1 H2); done
              | pose proof (Hone InList InFree b H1 H2); done | pose proof (Hone InZombies InUndead b H1 H2); done
              | pose proof (Hone InZombies InFree b H1 H2); done | pose proof (Hone InUndead InFree b H1 H2); done ]
    end.
Qed.

(** How a critical section keeps the invariant: one object changed. *)
Lemma tracked_moved tok tok' objs objs' t t' a pl' p' : tracked tok objs t -> moved t t' a pl' p' ->
  (forall b, 0 <= tok' b) -> NoDup objs' -> (forall b, b <> a -> (b ∈ objs' <-> b ∈ objs) /\ tok' b = tok b) ->
  pr_waiters p' = waits tok' objs' a -> fits pl' p' -> tracked tok' objs' t'.
Proof.
  intros Ht Hm Htok Hnd Hb Hw Hf. pose proof (fun pl b => moved_elem t t' a pl' p' pl b Hm) as He. destruct Ht as [H1 H2 H3 H4 H5].
  constructor; [by apply (moved_once t t' a pl' p')|done|done| |].
  - intros b Hbo. destruct (decide (b = a)) as [->|Hne]; [exists pl'; apply He; by left|].
    destruct (H4 b) as [pl Hpl]; [by apply (Hb b Hne)|]. exists pl. apply He. by right.
  - intros pl b [[-> ->]|[Hne Hpl]]%He; destruct Hm as [-> _].
    + exists p'. by rewrite lookup_insert_eq.
    + destruct (H5 _ _ Hpl) as (p & Hp & Hw' & Hf'). exists p. rewrite lookup_insert_ne by done. split_and!; [done| |done].
      rewrite Hw'. unfold waits. destruct (Hb b Hne) as [Hiff ->]. by rewrite (decide_ext _ _ _ _ Hiff).
Qed.

(** *** Running the critical sections *)

Definition with_heap (h : gmap nat proc) (t : procs) : procs :=
  Procs h (ps_list t) (ps_free t) (ps_zombies t) (ps_undead t) (ps_waiters t) (ps_ruchlds t).

Lemma pb_tread {A B} (g : procs -> A) (f : A -> PM W B) t w Q : post (f (g t)) (t, w) Q -> post (tread g ≫= f) (t, w) Q.
Proof. done. Qed.
Lemma pb_hread {A B} (g : W -> A) (f : A -> PM W B) t w Q : post (f (g w)) (t, w) Q -> post (hread g ≫= f) (t, w) Q.
Proof. done. Qed.
Lemma pb_tset {B} g (f : unit -> PM W B) t w Q : post (f tt) (g t, w) Q -> post (tset g ≫= f) (t, w) Q.
Proof. done. Qed.
Lemma pb_hset {B} g (f : unit -> PM W B) t w Q : post (f tt) (t, g w) Q -> post (hset g ≫= f) (t, w) Q.
Proof. done. Qed.
Lemma pb_deref {B} a p (f : proc -> PM W B) t w Q : ps_heap t !! a = Some p -> post (f p) (t, w) Q -> post (deref a ≫= f) (t, w) Q.
Proof. intros Hp Hf. apply post_bind. unfold deref. apply pb_tread. by rewrite Hp. Qed.
Lemma pb_upd {B} a p g (f : unit -> PM W B) t w Q : ps_heap t !! a = Some p ->
  post (f tt) (with_heap (<[a := g p]> (ps_heap t)) t, w) Q -> post (upd a g ≫= f) (t, w) Q.
Proof.
  intros Hp Hf. apply pb_tset. replace (alter g a (ps_heap t)) with (<[a := g p]> (ps_heap t)); [done|].
  apply map_eq. intros b. destruct (decide (b = a)) as [->|Hn].
  - by rewrite lookup_insert_eq, lookup_alter_eq, Hp.
  - by rewrite lookup_insert_ne, lookup_alter_ne.
Qed.

Lemma tracked_at tok objs t pl a : tracked tok objs t -> a ∈ at_ t pl ->
  exists p, ps_heap t !! a = Some p /\ pr_waiters p = waits tok objs a /\ fits pl p.
Proof. intros Ht. apply (tr_at _ _ _ Ht). Qed.

(** Staying on its list. *)
Lemma moved_stay tok objs t a pl p' : tracked tok objs t -> a ∈ at_ t pl ->
  moved t (with_heap (<[a := p']> (ps_heap t)) t) a pl p'.
Proof.
  intros Ht Ha. split; [done|]. intros pl'. change (at_ (with_heap _ t) pl') with (at_ t pl').
  destruct (decide (pl' = pl)) as [->|Hn].
  - symmetry. apply dll_remove_perm; [|done]. pose proof (tr_once _ _ _ Ht) as H1. unfold everywhere in H1.
    rewrite !NoDup_app in H1. destruct pl; cbn; tauto.
  - rewrite dll_remove_not; [done|]. intros Ha'. by pose proof (one_place t pl pl' a (tr_once _ _ _ Ht) Ha Ha').
Qed.

(** From one list to another, the others untouched. *)
Lemma moved_to tok objs t t' a pl pl' p' : tracked tok objs t -> a ∈ at_ t pl -> pl <> pl' ->
  ps_heap t' = <[a := p']> (ps_heap t) -> at_ t' pl' = a :: at_ t pl' -> at_ t' pl = dll_remove a (at_ t pl) ->
  (forall pl'', pl'' <> pl -> pl'' <> pl' -> at_ t' pl'' = at_ t pl'') -> moved t t' a pl' p'.
Proof.
  intros Ht Ha Hne Hh Hto Hfrom Hrest. split; [done|]. intros pl''.
  assert (Hnot : forall q, q <> pl -> dll_remove a (at_ t q) = at_ t q).
  { intros q Hq. apply dll_remove_not. intros Ha'. by pose proof (one_place t pl q a (tr_once _ _ _ Ht) Ha Ha'). }
  destruct (decide (pl'' = pl')) as [->|Hn]; [by rewrite Hto, Hnot|].
  destruct (decide (pl'' = pl)) as [->|Hn']; [by rewrite Hfrom|]. by rewrite Hrest, Hnot.
Qed.

(** *** What an exit code means *)


(** What the host is relied on for: the handle a child hands back through its
    exit code is a new one, and looking at an image does not change what is
    done about SIGCHLD. *)
Definition ignores (w : W) : bool := sigchld_ignored w || sigchld_nocldwait w.

Class NtProcLaws := {
  relay_new h w : is_relay (GetExitCodeProcess h w) = true -> Z.land (GetExitCodeProcess h w) 0x00FFFFFF <> np_onbirth;
  open_keeps path w : ignores (snd (np_open_image path w)) = ignores w;
  close_keeps h w : ignores (np_close h w) = ignores w }.

Context `{NtProcLaws}.

(** The wait status of an exit code, whether the image is a native one. *)
Definition decoded (native : bool) (code : Z) : Z :=
  if code =? 0xc9af3d51 then kNtStillActive else if native then native_wstatus code else code.

Definition image_native (h : Z) (w : W) : bool := default false (fst <$> is_native_child h (no_procs, w)).

Lemma is_native_run h w : exists b w', ignores w' = ignores w /\ forall t, is_native_child h (t, w) = Some (b, (t, w')).
Proof.
  unfold is_native_child. destruct np_image_name as [g|]; [|by exists false, w].
  destruct ((length (g h w) =? 0)%nat || (1024 <=? length (g h w))%nat) eqn:El.
  { exists false, w. split; [done|]. intros t. unfold hread. rewrite bind_reads. cbn [snd]. by rewrite El. }
  pose proof (open_keeps (globalroot ++ g h w) w) as Hk.
  destruct (np_open_image (globalroot ++ g h w) w) as [f w1] eqn:Eo. cbn [snd] in Hk.
  assert (Hopen : forall t, hstep (np_open_image (globalroot ++ g h w)) (t, w) = Some (f, (t, w1)))
    by (intros t; unfold hstep, step; cbn [fst snd]; by rewrite Eo).
  destruct f as [f|].
  - exists (match np_read8 f w1 with Some buf => if (length buf <? 8)%nat then false else native_head buf | None => false end), (np_close f w1).
    split; [by rewrite close_keeps|]. intros t. unfold hread. rewrite bind_reads. cbn [snd].
    rewrite El, (bind_run _ _ _ _ _ (Hopen t)). reflexivity.
  - exists false, w1. split; [done|]. intros t. unfold hread. rewrite bind_reads. cbn [snd].
    by rewrite El, (bind_run _ _ _ _ _ (Hopen t)).
Qed.

Lemma exit_wstatus_post h code t w Q :
  (forall w', ignores w' = ignores w -> Q (decoded (image_native h w) code) (t, w')) -> post (exit_wstatus h code) (t, w) Q.
Proof.
  intros HQ. unfold exit_wstatus, decoded in *. destruct (code =? 0xc9af3d51); [by apply HQ|].
  destruct (is_native_run h w) as (b & w' & Hw & Hrun). unfold image_native in HQ. rewrite Hrun in HQ.
  apply post_bind. unfold post at 1. rewrite Hrun. by apply HQ.
Qed.

(** What accounting an ended child does. *)
Definition harvested (t : procs) (w : W) (a : nat) (p : proc) (iswait4 : bool) (sic : Z) (t' : procs) : Prop :=
  let h := pr_handle p in
  let code := GetExitCodeProcess h w in
  let unwatched := (pr_waiters p =? 0) && (ps_waiters t =? 0) in
  let dropped := unwatched && negb iswait4 && ignores w in
  exists pl' p', moved t t' a pl' p' /\ fits pl' p' /\ pr_waiters p' = pr_waiters p /\
    pr_ru p' = rusage_add (pr_ru p) (proc_stats h w) /\ ps_ruchlds t' = rusage_add (ps_ruchlds t) (proc_stats h w) /\
    if is_relay code then pl' = InList /\ pr_handle p' = Z.land code 0x00FFFFFF /\ pr_wstatus p' = pr_wstatus p /\ sic = 0
    else
      let status := decoded (image_native h w) code in
      pr_wstatus p' = status /\ pr_handle p' = h /\ pl' = (if dropped then InFree else InZombies) /\
      sic = if unwatched && negb dropped then host_const (if WIFSIGNALED status then "CLD_KILLED" else "CLD_EXITED") else 0.

Definition still_there (h : Z) (w : W) : bool :=
  (GetExitCodeProcess h w =? kNtStillActive) && (WaitForSingleObject h w =? kNtWaitTimeout).

Lemma harvest_post tok objs t w a p iswait4 : tracked tok objs t -> a ∈ ps_list t -> ps_heap t !! a = Some p ->
  post (proc_harvest a iswait4) (t, w) (fun sic s' =>
    if still_there (pr_handle p) w then sic = 0 /\ fst s' = t else harvested t w a p iswait4 sic (fst s')).
Proof.
  intros Ht Ha Hp. destruct (tracked_at _ _ _ InList a Ht Ha) as (p0 & Hp0 & _ & Hst & Hh). simplify_eq.
  unfold proc_harvest. apply (pb_deref a p); [done|]. apply pb_hread, pb_hread. fold (still_there (pr_handle p) w).
  destruct (still_there (pr_handle p) w); [done|].
  apply pb_hread. set (ru := proc_stats (pr_handle p) w). apply (pb_upd a p); [done|]. apply pb_tset.
  set (p1 := set_ru _ p). set (t1 := add_ruchlds ru _). set (code := GetExitCodeProcess (pr_handle p) w).
  assert (Hp1 : ps_heap t1 !! a = Some p1) by apply lookup_insert_eq.
  unfold harvested. fold code ru. destruct (is_relay code) eqn:Er.
  { apply pb_hset, (pb_upd a p1); [done|]. apply post_ret. cbn [fst].
    set (p2 := set_handle _ p1). exists InList, p2. split; [|split; [split; [done|by apply relay_new]|done]].
    unfold with_heap. cbn [ps_heap t1 add_ruchlds with_heap]. rewrite insert_insert_eq. exact (moved_stay _ _ _ _ InList p2 Ht Ha). }
  apply post_bind, exit_wstatus_post. intros w' Hw'. set (status := decoded _ code).
  apply (pb_upd a p1); [done|]. set (p2 := set_wstatus status p1). apply pb_tread, pb_hread.
  change (sigchld_ignored w' || sigchld_nocldwait w') with (ignores w'). rewrite Hw'.
  cbn [ps_waiters with_heap t1 add_ruchlds]. change (ps_waiters (add_ruchlds _ _)) with (ps_waiters t).
  destruct (pr_waiters p =? 0) eqn:E1, (ps_waiters t =? 0) eqn:E2, iswait4, (ignores w) eqn:E3; cbn [negb andb];
  first
  [ apply pb_tset, pb_hset, post_ret; cbn [fst]; exists InFree, p2; split;
      [|split; [unfold fits; cbn; lia|done]];
      apply (moved_to _ _ _ _ a InList InFree p2 Ht Ha); try done;
      [change (<[a:=p2]> (<[a:=p1]> (ps_heap t)) = <[a:=p2]> (ps_heap t)); by rewrite insert_insert_eq|by intros [] ? ?]
  | apply (pb_upd a p2); [apply lookup_insert_eq|]; apply pb_tset, pb_hset, post_ret; cbn [fst];
    exists InZombies, (set_status PROC_ZOMBIE p2); split; [|split; [done|done]];
      apply (moved_to _ _ _ _ a InList InZombies (set_status PROC_ZOMBIE p2) Ht Ha); try done;
      [change (<[a:=set_status PROC_ZOMBIE p2]> (<[a:=p2]> (<[a:=p1]> (ps_heap t))) = <[a:=set_status PROC_ZOMBIE p2]> (ps_heap t));
       by rewrite !insert_insert_eq|by intros [] ? ?] ].
Qed.

Lemma tracked_count tok objs t a p : tracked tok objs t -> (exists pl, a ∈ at_ t pl) -> ps_heap t !! a = Some p ->
  pr_waiters p = waits tok objs a.
Proof. intros Ht [pl Ha] Hp. destruct (tracked_at _ _ _ _ _ Ht Ha) as (p' & Hp' & Hw & _). congruence. Qed.

(** A change of one object that leaves the counts alone. *)
Lemma tracked_same tok objs t t' a pl pl' p p' : tracked tok objs t -> a ∈ at_ t pl -> ps_heap t !! a = Some p ->
  moved t t' a pl' p' -> pr_waiters p' = pr_waiters p -> fits pl' p' -> tracked tok objs t'.
Proof.
  intros Ht Ha Hp Hm Hw Hf. apply (tracked_moved tok tok objs objs t t' a pl' p' Ht Hm); try done;
    [apply (tr_tok _ _ _ Ht)|apply (tr_objs _ _ _ Ht)|].
  rewrite Hw. by apply (tracked_count tok objs t a p Ht); [exists pl|].
Qed.

Lemma harvest_tracked tok objs t w a iswait4 : tracked tok objs t -> a ∈ ps_list t ->
  post (proc_harvest a iswait4) (t, w) (fun _ s' => tracked tok objs (fst s')).
Proof.
  intros Ht Ha. destruct (tracked_at _ _ _ InList a Ht Ha) as (p & Hp & _).
  eapply post_impl; [by apply (harvest_post tok objs t w a p)|]. intros sic [t' w']. cbn [fst].
  destruct (still_there _ _); [by intros [_ ->]|]. intros (pl' & p' & Hm & Hf & Hw & _).
  by apply (tracked_same tok objs t t' a InList pl' p p').
Qed.

(** *** The worker's two halves *)

(** The objects sampled so far, [samples] in front of what is still to do. *)
Definition sampled (tok : nat -> Z) (samples : list nat) (objs : list (nat * Z)) : Prop :=
  (forall a, a ∈ samples -> a ∈ objs.*1 \/ 0 < tok a) /\ objs.*1 ⊆ samples /\ Forall (fun o => snd o <> np_onbirth) objs.

Lemma sample_loop_post tok todo samples objs t w : tracked tok objs.*1 t -> sampled tok samples objs ->
  NoDup (samples ++ todo) -> (forall a, a ∈ todo -> a ∈ ps_list t) -> (length objs <= 64)%nat ->
  post (sample_loop todo samples objs) (t, w) (fun (r : list nat * list nat * list (nat * Z)) (s' : procs * W) =>
    let '(rest, samples', objs') := r in
    tracked tok objs'.*1 (fst s') /\ (exists h, fst s' = with_heap h t) /\ snd s' = w /\ samples ++ todo = samples' ++ rest /\
    sampled tok samples' objs' /\ (rest = [] \/ length objs' = 64%nat) /\ (length objs' <= 64)%nat).
Proof.
  revert samples objs t. induction todo as [|e todo IH]; intros samples objs t Ht Hs Hn Hl Hlen; cbn [sample_loop].
  { apply post_ret. split_and!; try done; [exists (ps_heap t); by destruct t|by left]. }
  destruct (Nat.leb_spec 64 (length objs)) as [El|El].
  { apply post_ret. split_and!; try done; [exists (ps_heap t); by destruct t|right; lia]. }
  destruct (tracked_at _ _ _ InList e Ht (Hl e ltac:(left))) as (p & Hp & Hw & Hst & Hh).
  apply (pb_deref e p); [done|].
  assert (He : e ∉ samples) by (apply NoDup_app in Hn as (_ & Hn & _); intros ?; by apply (Hn e); [|left]).
  assert (Heo : e ∉ objs.*1) by (intros ?; apply He; by apply Hs).
  unfold waits in Hw. rewrite decide_False in Hw by done. pose proof (tr_tok _ _ _ Ht e) as Htok.
  assert (Hmid : samples ++ e :: todo = (samples ++ [e]) ++ todo) by (by rewrite <- app_assoc).
  rewrite Hmid in Hn |- *. destruct (pr_waiters p =? 0) eqn:E0.
  - apply (pb_upd e p); [done|]. set (p' := set_waiters _ p). set (t1 := with_heap _ t).
    assert (Ht1 : tracked tok (objs ++ [(e, pr_handle p)]).*1 t1).
    { rewrite fmap_app. cbn [fmap list_fmap fst].
      apply (tracked_moved tok tok objs.*1 _ t t1 e InList p' Ht); [exact (moved_stay tok objs.*1 t e InList p' Ht (Hl e ltac:(left)))|apply (tr_tok _ _ _ Ht)| | | |done].
      - apply NoDup_app. split_and!; [apply (tr_objs _ _ _ Ht)| |apply NoDup_singleton].
        intros x Hx ->%list_elem_of_singleton. done.
      - intros b Hb. rewrite elem_of_app, list_elem_of_singleton. naive_solver.
      - unfold waits. rewrite decide_True by (apply elem_of_app; right; by left). cbn. lia. }
    eapply post_impl; [apply (IH _ _ t1 Ht1)|].
    + split; [intros a|split; [rewrite fmap_app; cbn [fmap list_fmap fst]|]].
      * assert (Hf : forall x, x ∈ (objs ++ [(e, pr_handle p)]).*1 <-> x ∈ objs.*1 \/ x = e)
          by (intros x; rewrite fmap_app, elem_of_app; cbn [fmap list_fmap fst]; by rewrite list_elem_of_singleton).
        intros [Ha| ->%list_elem_of_singleton]%elem_of_app; rewrite Hf; [|by left; right].
        destruct (proj1 Hs a Ha); [by left; left|by right].
      * destruct Hs as (_ & Hs & _). set_solver.
      * destruct Hs as (_ & _ & Hs). apply Forall_app. split; [done|]. by repeat constructor.
    + done.
    + intros a Ha. apply (Hl a). by right.
    + rewrite length_app. cbn. lia.
    + intros [[rest samples'] objs'] [t' w']. intros (Hr1 & [h Hheap] & Hr2). split; [exact Hr1|].
      split; [exists h; exact Hheap|exact Hr2].
  - eapply post_impl; [apply (IH _ _ t Ht)|]; try done.
    + split; [intros a|destruct Hs as (_ & Hs1 & Hs2); split; [set_solver|done]]. rewrite elem_of_app, list_elem_of_singleton.
      intros [Ha| ->]; [by apply Hs|right; lia].
    + intros a Ha. apply (Hl a). by right.
Qed.

Lemma sample_post tok t w : tracked tok [] t ->
  post worker_sample (t, w) (fun (objs : list (nat * Z)) (s' : procs * W) => tracked tok objs.*1 (fst s') /\ (length objs <= 64)%nat /\ Forall (fun o => snd o <> np_onbirth) objs /\ snd s' = w /\
    exists samples rest, ps_list t = samples ++ rest /\ ps_list (fst s') = rest ++ samples /\
      (forall a, a ∈ samples -> a ∈ objs.*1 \/ 0 < tok a) /\ (rest = [] \/ (64 <= length samples)%nat)).
Proof.
  intros Ht. unfold worker_sample. apply pb_tread, post_bind.
  eapply post_impl; [apply (sample_loop_post tok (ps_list t) [] [] t w Ht)|].
  { split; [by intros a ?%elem_of_nil|]. split; [done|constructor]. }
  { pose proof (tr_once _ _ _ Ht) as Hn. unfold everywhere in Hn. by apply NoDup_app in Hn as [? _]. }
  { done. }
  { cbn. lia. }
  intros [[rest samples] objs] [t' w']. cbn [fst snd app]. intros (Ht' & [h ->] & -> & Hl & (Hs1 & Hs2 & Hs3) & Hr & Hlen).
  apply pb_tset, post_ret. cbn [fst snd]. split; [|split; [done|split; [done|split; [done|]]]].
  - assert (Hp : rest ++ samples ≡ₚ ps_list t) by (by rewrite Hl, (comm app)).
    set (t2 := set_lists _ _ _ _ _).
    assert (Hat : forall pl, at_ t2 pl ≡ₚ at_ (with_heap h t) pl) by (intros []; done).
    destruct Ht' as [H2 H3 H4 H5 H6]. constructor; try done.
    + unfold everywhere in *. cbn [t2 set_lists ps_list ps_zombies ps_undead ps_free]. by rewrite Hp.
    + intros a Ha. destruct (H5 a Ha) as [pl Hpl]. exists pl. by rewrite Hat.
    + intros pl a Ha. rewrite Hat in Ha. by apply H6.
  - exists samples, rest. split_and!; try done. destruct Hr as [->|Hr]; [by left|right].
    apply (NoDup_submseteq (objs.*1) samples (tr_objs _ _ _ Ht')) in Hs2. apply submseteq_length in Hs2.
    rewrite length_fmap in Hs2. lia.
Qed.

(** Giving up one's place among the waiters of [a]. *)
Lemma unwait_post tok objs objs' t w a : tracked tok objs t -> a ∈ objs -> NoDup objs' ->
  (forall b, b ∈ objs' <-> b ∈ objs /\ b <> a) ->
  exists p t1, unwait a (t, w) = Some (p, (t1, w)) /\
    match pr_status p with
    | PROC_ALIVE => tracked tok objs' t1 /\ a ∈ ps_list t1
    | PROC_ZOMBIE => tracked tok objs' t1
    | PROC_UNDEAD => if pr_waiters p - 1 =? 0 then post (proc_free a) (t1, w) (fun _ s' => tracked tok objs' (fst s'))
                     else tracked tok objs' t1
    end.
Proof.
  intros Ht Ha Hn Ho. destruct (tr_held _ _ _ Ht a Ha) as [pl Hpl].
  destruct (tracked_at _ _ _ _ _ Ht Hpl) as (p & Hp & Hw & Hf). unfold waits in Hw. rewrite decide_True in Hw by done.
  pose proof (tr_tok _ _ _ Ht a) as Htok. set (p' := set_waiters (pr_waiters p - 1) p).
  set (t1 := with_heap (<[a := p']> (ps_heap t)) t).
  assert (Hrun : unwait a (t, w) = Some (p, (t1, w))).
  { assert (Hpost : post (unwait a) (t, w) (fun r s' => r = p /\ s' = (t1, w)))
      by (unfold unwait; apply (pb_deref a p); [done|]; apply (pb_upd a p); [done|]; by apply post_ret).
    apply post_run in Hpost as (r & s' & -> & -> & ->). done. }
  assert (Hnew : forall pl' t', moved t t' a pl' p' -> fits pl' p' -> tracked tok objs' t').
  { intros pl' t' Hm Hf'. apply (tracked_moved tok tok objs objs' t t' a pl' p' Ht Hm); try done; [apply (tr_tok _ _ _ Ht)| |].
    - intros b Hb. split; [rewrite Ho; naive_solver|done].
    - unfold waits. rewrite decide_False by (rewrite Ho; naive_solver). cbn. lia. }
  pose proof (moved_stay _ _ _ _ pl p' Ht Hpl) as Hstay. fold t1 in Hstay.
  exists p, t1. split; [done|]. destruct pl; cbn [fits] in Hf.
  - destruct Hf as [Hst Hh]. rewrite Hst. split; [by apply (Hnew InList)|done].
  - destruct Hf as [Hst Hh]. rewrite Hst. by apply (Hnew InZombies).
  - destruct Hf as (Hst & Hpos & Hh). rewrite Hst. destruct (pr_waiters p - 1 =? 0) eqn:E0.
    + unfold proc_free. apply pb_tset, (pb_deref a p'); [apply lookup_insert_eq|]. apply post_modifies. cbn [fst].
      apply (Hnew InFree); [|cbn; lia]. apply (moved_to _ _ _ _ a InUndead InFree p' Ht Hpl); try done. by intros [] ? ?.
    + apply (Hnew InUndead); [done|]. cbn. split_and!; [done|lia|done].
  - cbn in Hf. lia.
Qed.

(** The object the wait answered is kept. *)
Definition answered (objs : list (nat * Z)) (k : Z) : list nat :=
  if k <? 0 then [] else match objs !! Z.to_nat k with Some (a, _) => [a] | None => [] end.

Lemma answered_cons o objs k : k <> 0 -> answered (o :: objs) k = answered objs (k - 1).
Proof.
  intros Hk. unfold answered. destruct (k <? 0) eqn:E1, (k - 1 <? 0) eqn:E2; try done; try lia.
  replace (Z.to_nat k) with (S (Z.to_nat (k - 1))) by lia. done.
Qed.

Lemma answered_past objs k : k < 0 -> answered objs k = [].
Proof. intros Hk. unfold answered. by rewrite (proj2 (Z.ltb_lt k 0) Hk). Qed.

Lemma release_post tok kept objs t w j i : tracked tok (kept ++ objs.*1) t -> Forall (fun o => snd o <> np_onbirth) objs ->
  post (release objs j i) (t, w) (fun _ s' => tracked tok (kept ++ answered objs (i - j)) (fst s')).
Proof.
  revert kept t w j. induction objs as [|[a h] objs IH]; intros kept t w j Ht Hh; cbn [release].
  { apply post_ret. cbn [fst]. unfold answered. rewrite lookup_nil. by destruct (_ <? _). }
  apply Forall_cons in Hh as [Hh Hhs]. cbn [snd] in Hh. rewrite (proj2 (Z.eqb_neq h np_onbirth) Hh). cbn [orb].
  apply post_bind. cbn [fmap list_fmap fst] in Ht. destruct (Z.eqb_spec j i) as [->|Hne].
  - apply post_ret. replace (i - i) with 0 by lia. cbn [answered Z.ltb Z.compare]. unfold answered. cbn.
    specialize (IH (kept ++ [a]) t w (i + 1)). rewrite <- !app_assoc in IH. specialize (IH Ht Hhs).
    rewrite answered_past, app_nil_r in IH by lia. exact IH.
  - pose proof (tr_objs _ _ _ Ht) as Hn. apply NoDup_app in Hn as (Hn1 & Hn2 & Hn3). apply NoDup_cons in Hn3 as [Ha Hn3].
    destruct (unwait_post tok _ (kept ++ objs.*1) t w a Ht) as (p & t1 & Hrun & Hst).
    { apply elem_of_app. right. by left. }
    { apply NoDup_app. split_and!; try done. intros b Hb Hb'. apply (Hn2 b Hb). by right. }
    { intros b. rewrite !elem_of_app, elem_of_cons. assert (a ∉ kept) by (intros Hk; apply (Hn2 a Hk); by left). naive_solver. }
    apply post_bind. unfold post at 1. rewrite Hrun. rewrite answered_cons by lia. replace (i - j - 1) with (i - (j + 1)) by lia.
    destruct (pr_status p); [rewrite bool_decide_false by done|rewrite bool_decide_false by done|rewrite bool_decide_true by done];
      rewrite ?andb_false_r, ?andb_true_r.
    + apply post_ret. apply IH; [by destruct Hst|done].
    + apply post_ret. by apply IH.
    + destruct (pr_waiters p - 1 =? 0).
      * eapply post_impl; [exact Hst|]. intros _ [t2 w2] Ht2. by apply IH.
      * apply post_ret. by apply IH.
Qed.

(** What a wait on [objs] answers: nothing in time, a birth, or an object,
    abandoned or not. *)
Definition wait_outcome (objs : list (nat * Z)) (i : Z) : Prop :=
  i = kNtWaitTimeout \/
  exists k, (k < length (wait_handles objs))%nat /\ (i = Z.of_nat k \/ i = Z.of_nat k + kNtWaitAbandoned).

Lemma length_handles objs : (length objs <= 64)%nat -> (length (wait_handles objs) <= 64)%nat.
Proof.
  intros Hl. unfold wait_handles. rewrite length_app, length_map. destruct (Nat.eqb_spec (length objs) 64); cbn; lia.
Qed.

Lemma wake_index objs i : (length objs <= 64)%nat -> wait_outcome objs i ->
  let i' := if negb (Z.land i kNtWaitAbandoned =? 0) then Z.ldiff i kNtWaitAbandoned else i in
  i' = kNtWaitTimeout \/ (0 <= i' < Z.of_nat (length (wait_handles objs)) /\ i' <> kNtWaitTimeout).
Proof.
  intros Hl [->|(k & Hk & Hi)]; [by left|right]. pose proof (length_handles objs Hl). unfold kNtWaitTimeout, kNtWaitAbandoned in *.
  assert (Hall : forallb (fun k => let z := Z.of_nat k in
            (Z.land z 128 =? 0) && negb (Z.land (z + 128) 128 =? 0) && (Z.ldiff (z + 128) 128 =? z)) (seq 0 64) = true)
    by (vm_compute; reflexivity).
  rewrite forallb_forall in Hall. specialize (Hall k). rewrite in_seq in Hall. specialize (Hall ltac:(lia)).
  cbn zeta in Hall. rewrite !andb_true_iff, Z.eqb_eq, Z.eqb_eq in Hall. destruct Hall as [[H1' H2'] H3'].
  destruct Hi as [->| ->]; [rewrite H1'; cbn; lia|]. rewrite H2', H3'. lia.
Qed.

Lemma wake_post tok objs t w i : tracked tok objs.*1 t -> Forall (fun o => snd o <> np_onbirth) objs -> (length objs <= 64)%nat ->
  wait_outcome objs i -> post (worker_wake objs i) (t, w) (fun _ s' => tracked tok [] (fst s')).
Proof.
  intros Ht Hh Hl Hi. pose proof (wake_index objs i Hl Hi) as Hi'. unfold worker_wake.
  set (k := if negb _ then _ else _) in *. cbn zeta in Hi'.
  apply post_bind. eapply post_impl; [exact (release_post tok [] objs t w 0 k Ht Hh)|].
  rewrite Z.sub_0_r. cbn [app]. intros _ [t1 w1] Ht1. cbn [fst] in Ht1.
  assert (Hout : (length objs <= Z.to_nat k)%nat -> tracked tok [] t1).
  { intros Hk. unfold answered in Ht1. rewrite (proj2 (lookup_ge_None objs (Z.to_nat k)) Hk) in Ht1. by destruct (k <? 0). }
  destruct Hi' as [Hk|[Hk Hne]].
  { rewrite Hk. apply post_ret. apply Hout. rewrite Hk. unfold kNtWaitTimeout. lia. }
  rewrite (proj2 (Z.eqb_neq k kNtWaitTimeout) Hne).
  destruct (lookup_lt_is_Some_2 (wait_handles objs) (Z.to_nat k) ltac:(lia)) as [h Hhk]. rewrite Hhk.
  unfold wait_handles in Hhk. apply lookup_app_Some in Hhk as [Hhk|[Hge Hhk]].
  - rewrite list_lookup_fmap in Hhk. destruct (objs !! Z.to_nat k) as [[a h']|] eqn:Eo; [|done]. injection Hhk as <-.
    assert (Hb : h' <> np_onbirth) by exact (Forall_lookup_1 _ _ _ _ Hh Eo).
    cbn [snd]. rewrite (proj2 (Z.eqb_neq h' np_onbirth) Hb).
    unfold answered in Ht1. rewrite (proj2 (Z.ltb_ge k 0) ltac:(lia)), Eo in Ht1.
    destruct (unwait_post tok [a] [] t1 w1 a Ht1) as (p & t2 & Hrun & Hst); [by left|constructor| |].
    { intros b. rewrite list_elem_of_singleton, elem_of_nil. naive_solver. }
    apply post_bind. unfold post at 1. rewrite Hrun. destruct (pr_status p).
    + destruct Hst as [Hst Ha]. eapply post_impl; [by apply (harvest_tracked tok [] t2 w1 a false)|done].
    + by apply post_ret.
    + apply post_bind. destruct (pr_waiters p - 1 =? 0); [eapply post_impl; [exact Hst|done]|done].
  - rewrite length_map in Hge. destruct (length objs =? 64)%nat; [done|].
    assert (h = np_onbirth) as -> by (rewrite list_lookup_singleton_Some in Hhk; naive_solver).
    rewrite Z.eqb_refl. apply post_ret. by apply Hout.
Qed.

(** *** Interleavings

    The code that forks and waits takes its steps as [client]: each may change
    how many of its threads wait on an object, and the tracker. *)

Inductive phase := Sampling | Waiting (objs : list (nat * Z)).

Definition client_step : Type := (nat -> Z) -> procs * W -> (nat -> Z) -> procs * W -> Prop.

Inductive tstep (client : client_step) : phase * (nat -> Z) * (procs * W) -> phase * (nat -> Z) * (procs * W) -> Prop :=
  | do_sample tok s objs s' : worker_sample s = Some (objs, s') -> tstep client (Sampling, tok, s) (Waiting objs, tok, s')
  | do_wake tok s objs i sic s' s'' :
      wait_outcome objs i -> worker_wake objs i s = Some (sic, s') -> worker_signal sic s' = Some (tt, s'') ->
      tstep client (Waiting objs, tok, s) (Sampling, tok, s'')
  | do_client ph tok s tok' s' : client tok s tok' s' -> tstep client (ph, tok, s) (ph, tok', s').

(** A client that keeps the rules, whatever the worker holds meanwhile. *)
Definition fair_client (client : client_step) : Prop :=
  forall tok s tok' s' objs, client tok s tok' s' -> tracked tok objs (fst s) -> tracked tok' objs (fst s').

Definition coherent (x : phase * (nat -> Z) * (procs * W)) : Prop :=
  match x with
  | (Sampling, tok, s) => tracked tok [] (fst s)
  | (Waiting objs, tok, s) =>
      tracked tok objs.*1 (fst s) /\ (length objs <= 64)%nat /\ Forall (fun o => snd o <> np_onbirth) objs
  end.

Lemma signal_keeps sic s s' : worker_signal sic s = Some (tt, s') -> fst s' = fst s.
Proof. unfold worker_signal. by destruct (negb _); intros [= <-]. Qed.

Lemma step_coherent client x y : fair_client client -> tstep client x y -> coherent x -> coherent y.
Proof.
  intros Hf [tok [t w] objs s' Hr|tok [t w] objs i sic s' s'' Hi Hr Hsig|ph tok s tok' s' Hc] Hx; cbn [coherent fst] in *.
  - pose proof (sample_post tok t w Hx) as Hp. unfold post in Hp. rewrite Hr in Hp. tauto.
  - destruct Hx as (Ht & Hl & Hh). pose proof (wake_post tok objs t w i Ht Hh Hl Hi) as Hp. unfold post in Hp. rewrite Hr in Hp.
    by rewrite (signal_keeps _ _ _ Hsig).
  - destruct ph; [by apply (Hf tok s)|]. destruct Hx as (Ht & Hl & Hh). split; [by apply (Hf tok s)|done].
Qed.

Lemma steps_coherent client x y : fair_client client -> rtc (tstep client) x y -> coherent x -> coherent y.
Proof. intros Hf. induction 1 as [|x y z Hxy _ IH]; [done|]. intros Hx. by apply IH, (step_coherent client x y). Qed.

(** C22: However the worker's critical sections and those of the code that
    forks and waits interleave, each object stays on one list only and is
    what that list says, its waiters are exactly the worker and the threads
    that wait on it, none on the free list is waited on; and the worker
    itself is never stuck: nothing it follows is dangling, whatever its wait
    answers. The clients are fair, each of their own steps keeping that
    agreement; and a relayed handle, which a native exit code names, is taken
    not to be the tracker's birth event. *)
Theorem tracker_always_ok client tok0 s0 ph tok s : fair_client client -> tracked tok0 [] (fst s0) ->
  rtc (tstep client) (Sampling, tok0, s0) (ph, tok, s) ->
  coherent (ph, tok, s) /\
  match ph with
  | Sampling => is_Some (worker_sample s)
  | Waiting objs => forall i, wait_outcome objs i -> is_Some (worker_wake objs i s)
  end.
Proof.
  intros Hf H0' Hr. assert (Hc : coherent (ph, tok, s)) by (by apply (steps_coherent client _ _ Hf Hr)).
  split; [done|]. destruct s as [t w]. destruct ph as [|objs]; cbn [coherent fst] in Hc.
  - pose proof (sample_post tok t w Hc) as Hp. apply post_run in Hp as (a & s' & -> & _). by eexists.
  - intros i Hi. destruct Hc as (Ht & Hl & Hh). pose proof (wake_post tok objs t w i Ht Hh Hl Hi) as Hp.
    apply post_run in Hp as (a & s' & -> & _). by eexists.
Qed.

(** Accounting an ended child takes its resource use once into the
    object and into the total; a code that hands back the handle of the
    program the child became puts that handle in the old one's place and
    leaves the child running; any other code becomes its wait status, and
    the child a zombie, reported as killed or exited if nobody waits, unless
    nobody waits and SIGCHLD is ignored, when the object is free at once.
    A child that is still there is left alone, even when it looks ended. *)
Theorem harvest_accounts tok objs t w a p iswait4 : tracked tok objs t -> a ∈ ps_list t -> ps_heap t !! a = Some p ->
  post (proc_harvest a iswait4) (t, w) (fun sic s' =>
    tracked tok objs (fst s') /\
    if still_there (pr_handle p) w then sic = 0 /\ fst s' = t else harvested t w a p iswait4 sic (fst s')).
Proof.
  intros Ht Ha Hp. pose proof (harvest_post tok objs t w a p iswait4 Ht Ha Hp) as H2.
  pose proof (harvest_tracked tok objs t w a iswait4 Ht Ha) as H3. unfold post in *.
  destruct (proc_harvest a iswait4 (t, w)) as [[sic s']|]; [by split|done].
Qed.

(** *** The window of 64 *)

(** Rounds in which nothing happens: what the worker waits on, round by round. *)
Fixpoint quiet_rounds (k : nat) : PM W (list nat) :=
  match k with
  | O => mret []
  | S k =>
      objs ← worker_sample;
      _ ← worker_wake objs kNtWaitTimeout;
      more ← quiet_rounds k;
      mret (objs.*1 ++ more)
  end.

Lemma unwait_list a (s : procs * W) p s' : unwait a s = Some (p, s') -> ps_list (fst s') = ps_list (fst s).
Proof.
  destruct s as [t w]. unfold unwait, deref, tread. rewrite bind_Some. intros (p1 & s1 & Hd & Hu).
  rewrite bind_reads in Hd. cbn [fst] in Hd. destruct (ps_heap t !! a); [|done]. injection Hd as <- <-.
  by injection Hu as <- <-.
Qed.

Lemma proc_free_list a (s s' : procs * W) : proc_free a s = Some (tt, s') -> ps_list (fst s') = ps_list (fst s).
Proof.
  destruct s as [t w]. unfold proc_free, deref, tread, tset. rewrite bind_modifies, bind_Some. intros (p1 & s1 & Hd & Hu).
  rewrite bind_reads in Hd. cbn [fst] in Hd. destruct (ps_heap _ !! a); [|done]. injection Hd as <- <-.
  by injection Hu as <-.
Qed.

Lemma release_list objs j i (s s' : procs * W) : release objs j i s = Some (tt, s') -> ps_list (fst s') = ps_list (fst s).
Proof.
  revert j s. induction objs as [|[a h] objs IH]; intros j s; cbn [release]; [by intros [= <-]|].
  rewrite bind_Some. intros ([] & s1 & H1' & H2'). rewrite (IH _ _ H2'). destruct (_ || _); [by injection H1' as <-|].
  apply bind_Some in H1' as (p & s2 & Hu & H3'). apply unwait_list in Hu. rewrite <- Hu.
  destruct (_ && _); [by apply proc_free_list in H3'|by injection H3' as <-].
Qed.

Lemma wake_timeout tok objs t w : tracked tok objs.*1 t -> Forall (fun o => snd o <> np_onbirth) objs -> (length objs <= 64)%nat ->
  post (worker_wake objs kNtWaitTimeout) (t, w) (fun _ s' => tracked tok [] (fst s') /\ ps_list (fst s') = ps_list t).
Proof.
  intros Ht Hh Hl. pose proof (wake_post tok objs t w kNtWaitTimeout Ht Hh Hl ltac:(by left)) as Hp.
  apply post_run in Hp as (sic & s' & Hr & Ht'). apply post_run. exists sic, s'. split_and!; [done|done|].
  unfold worker_wake in Hr. change (negb (Z.land kNtWaitTimeout kNtWaitAbandoned =? 0)) with false in Hr.
  apply bind_Some in Hr as ([] & s1 & Hr & Hend). apply release_list in Hr. rewrite Z.eqb_refl in Hend.
  by injection Hend as <- <-.
Qed.

Lemma proc_sweep_post tok k t w todo past : tracked tok [] t -> ps_list t = todo ++ past -> (length todo <= 64 * k)%nat ->
  post (quiet_rounds k) (t, w) (fun seen _ => forall a, a ∈ todo -> a ∈ seen \/ 0 < tok a).
Proof.
  revert t w todo past. induction k as [|k IH]; intros t w todo past Ht Hl Hk; cbn [quiet_rounds].
  { apply post_ret. destruct todo; [|cbn in Hk; lia]. by intros a ?%elem_of_nil. }
  apply post_bind. eapply post_impl; [apply (sample_post tok t w Ht)|]. intros objs [t1 w1]. cbn [fst snd].
  intros (Ht1 & Hlen & Hh & _ & samples & rest & Hs & Hl1 & Hseen & Hrest).
  apply post_bind. eapply post_impl; [apply (wake_timeout tok objs t1 w1); done|]. intros sic [t2 w2]. cbn [fst].
  intros [Ht2 Hl2]. apply post_bind.
  destruct (decide (length todo <= length samples)%nat) as [Hle|Hgt].
  - assert (Hpre : todo = take (length todo) samples).
    { rewrite Hl in Hs. apply (f_equal (take (length todo))) in Hs. by rewrite take_app_length, take_app_le in Hs. }
    pose proof (IH t2 w2 [] (ps_list t2) Ht2 eq_refl ltac:(cbn; lia)) as Hp.
    eapply post_impl; [exact Hp|]. intros seen s' _. apply post_ret. intros a Ha. rewrite Hpre in Ha.
    apply (subseteq_take) in Ha. destruct (Hseen a Ha); [left; apply elem_of_app; by left|by right].
  - assert (exists todo', todo = samples ++ todo' /\ rest = todo' ++ past) as (todo' & -> & ->).
    { rewrite Hl in Hs. exists (drop (length samples) todo).
      pose proof (f_equal (take (length samples)) Hs) as Ha. rewrite take_app_le, take_app_length in Ha by lia.
      pose proof (f_equal (drop (length samples)) Hs) as Hb. rewrite drop_app_le, drop_app_length in Hb by lia.
      split; [|done]. rewrite <- Ha at 1. by rewrite take_drop. }
    rewrite length_app in *. eapply post_impl; [apply (IH t2 w2 todo' (past ++ samples) Ht2)|].
    + by rewrite Hl2, Hl1, app_assoc.
    + destruct Hrest as [Hnil|Hge]; [apply app_nil in Hnil as [-> _]; cbn; lia|lia].
    + intros seen s' Hrec. apply post_ret. intros a Ha. rewrite elem_of_app in *. destruct Ha as [Ha|Ha].
      * destruct (Hseen a Ha); [by left; left|by right].
      * destruct (Hrec a Ha); [by left; right|by right].
Qed.

(** C23: With more children than one wait takes, the window shifts far enough:
    within as many rounds as there are groups of 64, each running child has
    been among those the worker waits on, or another thread waits on it. *)
Theorem no_child_starves tok t w k : tracked tok [] t -> (length (ps_list t) <= 64 * k)%nat ->
  post (quiet_rounds k) (t, w) (fun seen _ => forall a, a ∈ ps_list t -> a ∈ seen \/ 0 < tok a).
Proof. intros Ht Hk. apply (proc_sweep_post tok k t w (ps_list t) []); [done|by rewrite app_nil_r|done]. Qed.
End invariant.

(** ** What a native exit code reads back as *)

Section decode.
Context `{HostConsts}.

Definition WEXITSTATUS (st : Z) : Z := Z.land (Z.shiftr st 8) 0xff.

(** The signals of the table are signals. *)
Definition signals_ok : Prop := Forall (fun r => 0 < host_const (snd r) < 127) crash_rows.

Lemma crash_signal_range code sig : signals_ok -> crash_signal code = Some sig -> 0 < sig < 127.
Proof.
  unfold crash_signal, signals_ok. intros Hs. destruct (List.find _ crash_rows) as [r|] eqn:E; [|done]. intros [= <-].
  apply find_some in E as [Hin _]. rewrite Forall_forall in Hs. apply Hs, list_elem_of_In, Hin.
Qed.

(** A native program's end reads back, through the macros of
    <sys/wait.h>, as what it was: a crash of Windows as a death by the
    signal the table gives it, any other code as an exit whose status is the
    code's low byte; never as both, never as a stop. *)
Theorem native_exit_decodes code : signals_ok -> 0 <= code < 2 ^ 32 ->
  let st := native_wstatus code in
  match crash_signal code with
  | Some sig => WIFSIGNALED st = true /\ WTERMSIG st = sig /\ WIFEXITED st = false
  | None => WIFEXITED st = true /\ WEXITSTATUS st = code mod 256 /\ WIFSIGNALED st = false
  end /\ WIFSTOPPED st = false.
Proof.
  intros Hs Hc. cbn zeta. unfold native_wstatus, WIFSIGNALED, WIFEXITED, WTERMSIG, WIFSTOPPED, WEXITSTATUS.
  destruct (crash_signal code) as [sig|] eqn:E.
  - pose proof (crash_signal_range code sig Hs E) as Hr.
    assert (Hl : Z.land sig 0x7f = sig) by (change 0x7f with (Z.ones 7); rewrite Z.land_ones by lia; apply Z.mod_small; lia).
    assert (Hl2 : Z.land sig 0xff = sig) by (change 0xff with (Z.ones 8); rewrite Z.land_ones by lia; apply Z.mod_small; lia).
    rewrite Hl, Hl2. split; [split; [lia|split; [done|lia]]|lia].
  - set (b := Z.land code 0xFF). assert (Hb : b = code mod 256) by (unfold b; change 0xFF with (Z.ones 8); by rewrite Z.land_ones by lia).
    pose proof (Z.mod_pos_bound code 256 ltac:(lia)) as Hr. rewrite <- Hb in Hr.
    rewrite Z.shiftl_mul_pow2 by lia. change (2 ^ 8) with 256.
    assert (H7 : Z.land (b * 256) 0x7f = 0).
    { change 0x7f with (Z.ones 7). rewrite Z.land_ones by lia. change (2 ^ 7) with 128. replace (b * 256) with (b * 2 * 128) by lia.
      by apply Z.mod_mul. }
    assert (H8 : Z.land (b * 256) 0xff = 0) by (change 0xff with (Z.ones 8); rewrite Z.land_ones by lia; by apply Z.mod_mul).
    rewrite H7, H8. cbn. split; [split; [done|split; [|done]]|done].
    rewrite Z.shiftr_div_pow2 by lia. change (2 ^ 8) with 256. rewrite Z.div_mul by lia.
    change 0xff with (Z.ones 8). rewrite Z.land_ones by lia. change (2 ^ 8) with 256. by rewrite Z.mod_small by lia.
Qed.
End decode.

(** ** A host to evaluate on *)

Section toy.

(** The exit codes of the processes that have ended, by handle. *)
Notation toy := (gmap Z Z).

#[local] Instance toy_host : NtProcHost toy := {
  np_onbirth := -1;
  GetExitCodeProcess h w := default kNtStillActive (w !! h);
  WaitForSingleObject h w := match w !! h with Some _ => 0 | None => kNtWaitTimeout end;
  WaitForMultipleObjects _ _ w := (0, w);
  np_memory _ _ := (4096, 3);
  np_times _ _ := (1, 2);
  np_io _ _ := (5, 6);
  WindowsDurationToTimeVal x := x;
  rusage_add a b := Rusage (Z.max (ru_maxrss a) (ru_maxrss b)) (ru_majflt a + ru_majflt b) (ru_utime a + ru_utime b)
                      (ru_stime a + ru_stime b) (ru_inblock a + ru_inblock b) (ru_oublock a + ru_oublock b);
  np_image_name := Some (fun _ _ => bytes "\Device\cmd.exe");
  np_open_image _ w := (Some 9, w);
  np_read8 _ _ := Some (bytes "MZ######");
  np_close _ w := w;
  np_set_haszombies w := w;
  np_set_onbirth w := w;
  np_alloc w := (Some 7%nat, w);
  sigchld_ignored _ := false;
  sigchld_nocldwait _ := false;
  sig_generate _ _ w := w }.

Definition toy_values : list (string * Z) :=
  [ ("kNtStatusControlCExit", 0xc000013a); ("kNtStatusAccessViolation", 0xc0000005); ("kNtStatusStackOverflow", 0xc00000fd);
    ("SIGINT", 2); ("SIGSEGV", 11); ("SIGBUS", 7); ("SIGILL", 4); ("SIGTRAP", 5); ("SIGFPE", 8); ("SIGSYS", 31); ("SIGABRT", 6);
    ("CLD_KILLED", 2); ("CLD_EXITED", 1); ("SIGCHLD", 17); ("POLL_INTERVAL_MS", 20) ]%string.

#[local] Instance toy_consts : HostConsts := {
  host_const n := match List.find (fun r => String.eqb (fst r) n) toy_values with Some r => snd r | None => 0xbad end;
  host_defines _ := true }.

#[local] Instance toy_laws : NtProcLaws (W := toy).
Proof.
  constructor; [|done|done]. intros h w _. cbn [np_onbirth toy_host].
  assert (0 <= Z.land (GetExitCodeProcess h w) 0x00FFFFFF) by (by apply Z.land_nonneg; right). lia.
Qed.

(** Threads that fork, wait and account, each keeping the rules. *)
Inductive toy_client : client_step (W := toy) :=
  | births tok t w a p : a ∉ everywhere t -> tok a = 0 -> pr_waiters p = 0 -> fits InList p ->
      toy_client tok (t, w) tok (set_lists (a :: ps_list t) (ps_free t) (ps_zombies t) (ps_undead t) (with_heap (<[a := p]> (ps_heap t)) t), w)
  | waits_on tok t w a p : a ∈ ps_list t -> ps_heap t !! a = Some p ->
      toy_client tok (t, w) (fun b => if decide (b = a) then tok a + 1 else tok b)
        (with_heap (<[a := set_waiters (pr_waiters p + 1) p]> (ps_heap t)) t, w)
  | accounts tok t w a sic s' : a ∈ ps_list t -> proc_harvest a true (t, w) = Some (sic, s') -> toy_client tok (t, w) tok s'
  | ends tok t w h code : toy_client tok (t, w) tok (t, <[h := code]> w).

Lemma toy_fair : fair_client toy_client.
Proof.
  intros tok s tok' s' objs [tok1 t w a p Ha Htok Hw Hf|tok1 t w a p Ha Hp|tok1 t w a sic s1 Ha Hr|] Ht; cbn [fst] in *; [| | |done].
  - assert (Hno : a ∉ objs) by (intros [pl Hpl]%(tr_held _ _ _ Ht); by apply Ha, (at_everywhere t pl)).
    apply (tracked_moved tok1 tok1 objs objs t _ a InList p Ht); try done; [|apply (tr_tok _ _ _ Ht)|apply (tr_objs _ _ _ Ht)|].
    + split; [done|]. intros pl. rewrite dll_remove_not by (intros Hpl; by apply Ha, (at_everywhere t pl)). by destruct pl.
    + unfold waits. rewrite decide_False by done. lia.
  - destruct (tracked_at _ _ _ InList a Ht Ha) as (p0 & Hp0 & Hw & Hf). simplify_eq.
    apply (tracked_moved tok1 _ objs objs t _ a InList (set_waiters (pr_waiters p + 1) p) Ht); try done.
    + exact (moved_stay tok1 objs t a InList _ Ht Ha).
    + intros b. destruct (decide _); [pose proof (tr_tok _ _ _ Ht a); lia|apply (tr_tok _ _ _ Ht)].
    + apply (tr_objs _ _ _ Ht).
    + intros b Hb. split; [done|]. by rewrite decide_False.
    + cbn [set_waiters pr_waiters]. unfold waits in *. rewrite (decide_True (P := a = a)) by done. lia.
  - pose proof (harvest_tracked tok1 objs t w a true Ht Ha) as Hpost. unfold post in Hpost. by rewrite Hr in Hpost.
Qed.

Definition toy_child : proc := Proc 40 100 0 PROC_ALIVE 0 no_rusage.
Definition toy_procs : procs := Procs {[0%nat := toy_child]} [0%nat] [] [] [] 0 no_rusage.
Definition nobody (_ : nat) : Z := 0.

Lemma toy_tracked : tracked (W := toy) nobody [] toy_procs.
Proof.
  constructor; try done.
  - by apply NoDup_singleton.
  - constructor.
  - by intros a ?%elem_of_nil.
  - intros [] a Ha; cbn in Ha; try (by apply elem_of_nil in Ha). apply list_elem_of_singleton in Ha as ->. by exists toy_child.
Qed.

(** The child ends with an access violation while the worker waits. *)
Definition ended : toy := {[100 := 0xc0000005]}.

Definition toy_sampled : list (nat * Z) * (procs * toy) :=
  default ([], (no_procs, ∅)) (worker_sample (toy_procs, ∅)).
Definition toy_woken : procs * toy :=
  default (no_procs, ∅) (snd <$> worker_wake (fst toy_sampled) 0 (fst (snd toy_sampled), ended)).

(** It is a zombie that died of SIGSEGV. *)
Example toy_zombie :
  (ps_zombies (fst toy_woken), pr_wstatus <$> ps_heap (fst toy_woken) !! 0%nat) = ([0%nat], Some 11).
Proof. vm_compute. reflexivity. Qed.

Lemma tracker_always_ok_witness :
  fair_client toy_client /\ tracked (W := toy) nobody [] toy_procs /\
  rtc (tstep toy_client) (Sampling, nobody, (toy_procs, ∅)) (Sampling, nobody, toy_woken) /\
  coherent (Sampling, nobody, toy_woken) /\ is_Some (worker_sample toy_woken).
Proof.
  assert (Hr : rtc (tstep toy_client) (Sampling, nobody, (toy_procs, ∅)) (Sampling, nobody, toy_woken)).
  { apply (rtc_l _ _ (Waiting (fst toy_sampled), nobody, snd toy_sampled)); [apply do_sample; vm_compute; reflexivity|].
    apply (rtc_l _ _ (Waiting (fst toy_sampled), nobody, (fst (snd toy_sampled), ended))).
    { replace (snd toy_sampled) with (fst (snd toy_sampled), (∅ : toy)) by (vm_compute; reflexivity).
      apply do_client. apply (ends _ _ ∅ 100 0xc0000005). }
    apply rtc_once. apply (do_wake _ _ _ _ 0 2 toy_woken); [|vm_compute; reflexivity|by destruct toy_woken].
    right. exists 0%nat. split; [vm_compute; lia|by left]. }
  split; [apply toy_fair|]. split; [apply toy_tracked|]. split; [exact Hr|].
  exact (tracker_always_ok toy_client nobody (toy_procs, ∅) Sampling nobody toy_woken toy_fair toy_tracked Hr).
Defined.

Lemma harvest_accounts_witness : exists s',
  proc_harvest 0 false (toy_procs, ended) = Some (2, s') /\ tracked nobody [] (fst s') /\
  harvested toy_procs ended 0 toy_child false 2 (fst s').
Proof.
  destruct (post_answer _ _ _ 2 (harvest_accounts nobody [] toy_procs ended 0 toy_child false toy_tracked ltac:(by left) eq_refl)
              ltac:(vm_compute; reflexivity)) as (s' & Hr & Ht & Hh).
  exists s'. split; [exact Hr|]. split; [exact Ht|exact Hh].
Defined.

Lemma no_child_starves_witness : exists s', quiet_rounds 1 (toy_procs, ended) = Some ([0%nat], s') /\
  (forall a, a ∈ ps_list toy_procs -> a ∈ [0%nat] \/ 0 < nobody a).
Proof.
  destruct (post_answer _ _ _ [0%nat] (no_child_starves nobody toy_procs ended 1 toy_tracked ltac:(cbn; lia))
              ltac:(vm_compute; reflexivity)) as (s' & Hr & Ha).
  exists s'. split; [exact Hr|exact Ha].
Defined.

Lemma native_exit_decodes_witness : signals_ok /\
  WIFSIGNALED (native_wstatus 0xc0000005) = true /\ WTERMSIG (native_wstatus 0xc0000005) = 11 /\
  WIFEXITED (native_wstatus 7) = true /\ WEXITSTATUS (native_wstatus 7) = 7.
Proof.
  assert (Hs : signals_ok) by (by apply (bool_decide_unpack _)).
  pose proof (native_exit_decodes 0xc0000005 Hs ltac:(lia)) as [(H1 & H2 & _) _].
  pose proof (native_exit_decodes 7 Hs ltac:(lia)) as [(H3 & H4 & _) _].
  split; [exact Hs|]. split; [exact H1|]. split; [exact H2|]. split; [exact H3|exact H4].
Defined.
End toy.
