(* ===== verification/DirStream.v ===== *)
(** * shim/dirstream.c, directory streams

    opendir, readdir and their kin over four kinds of directory: one inside
    the program's own zip archive, one of the emulated /proc and /sys, a
    Windows directory behind a find handle, and one of the host's getdents.
    The theorems: each kind lists what is there, once and in order, and
    ends; and a position told can be sought again on the streams that keep
    their listing. *)
From S2P Require Import Prelude Host PfsText ProcFs.

(** ** Entries and the four kinds of stream *)

Definition DT_FIFO : Z := 1.
Definition DT_CHR : Z := 2.
Definition DT_BLK : Z := 6.

(** struct dirent *)
Record dirent := Dirent { d_ino : Z; d_off : Z; d_reclen : Z; d_type : Z; d_name : cstr }.

(** A record of the archive's central directory. *)
Record zip_record := ZipRecord { zr_name : cstr; zr_isdir : bool; zr_hdrsize : Z }.

Record zip_dir := ZipDir { z_inode : Z; z_offset : Z; z_records : Z; z_prefix : cstr; z_found : list cstr }.

Record virt_dir := VirtDir { v_ents : list (cstr * Z); v_idx : nat }.

(** struct NtWin32FindData *)
Record find_data := FindData { fi_attrs : Z; fi_type : Z; fi_name : list Z }.

(** [nd_name16] is the path with its star. *)
Record nt_dir := NtDir { nd_hand : Z; nd_isdone : bool; nd_isroot : bool; nd_drives : Z; nd_windata : find_data; nd_name16 : list Z }.

(** A getdents record of the host, and the records still in the buffer. *)
Record raw_ent := RawEnt { ra_ino : Z; ra_off : Z; ra_reclen : Z; ra_type : Z; ra_name : cstr }.
Record unix_dir := UnixDir { ud_buf : list raw_ent }.

Inductive backend := Zip (z : zip_dir) | Virt (v : virt_dir) | Nt (n : nt_dir) | Unix (u : unix_dir).

(** struct dirstream *)
Record dirstream := DirStream { ds_fd : Z; ds_tell : Z; ds_body : backend }.

(** What the archive, the host and the emulated trees answer. An open handle
    into the archive is its path and whether it is a directory. *)
Class DirHost (W : Type) := {
  dh_windows : bool; dh_linux : bool; dh_xnu_silicon : bool; dh_openbsd : bool; dh_netbsd : bool; dh_freebsd : bool;
  sizeof_dirent : Z; offsetof_d_name : Z; PATH_MAX16 : nat;
  zip_at : Z -> zip_record;
  zip_cdir_offset : Z; zip_cdir_records : Z;
  zipos_inode : cstr -> Z;
  ZIPOS_PATH_MAX : nat;
  dh_errno : W -> Z; dh_set_errno : Z -> W -> W;
  dh_fail : errno -> W -> W;
  dh_fstat : Z -> W -> option bool * W;
  dh_is_path : Z -> W -> bool;
  dh_calloc : W -> bool * W;
  dh_is_zip : Z -> W -> bool;
  dh_is_file : Z -> W -> bool;
  dh_zip_handle : Z -> W -> cstr * bool;
  dh_fd_vpath : Z -> W -> option cstr;
  dh_virtual_dir : cstr -> W -> listed;
  dh_memfd_dir : cstr -> W -> Z * W;
  dh_open : cstr -> W -> option Z * W;
  dh_close : Z -> W -> bool * W;
  dh_testcancel : W -> option errno;
  final_path : Z -> W -> list Z;
  cosmos_drive : Z;
  GetLogicalDrives : W -> Z;
  FindFirstFile : list Z -> W -> option (Z * find_data) * W;
  FindNextFile : Z -> W -> option find_data * W;
  FindClose : Z -> W -> bool * W;
  dh_drive_inode : Z -> W -> option Z * W;
  dh_path_inode : list Z -> W -> option Z * W;
  dh_find_failed : list Z -> W -> W;
  tprecode16to8 : list Z -> cstr;
  dh_getdents : Z -> W -> list raw_ent * W;
  dh_lseek : Z -> Z -> Z -> W -> Z * W }.

Section dir.
Context `{HostConsts} {W : Type} `{DirHost W}.

Definition SEEK_SET : Z := 0.
Definition SEEK_CUR : Z := 1.

(** ** The zip archive *)

(** The directory above: without the slashes at the end, the last name and
    the slashes in front of it. *)
Fixpoint drop_name (s : cstr) : cstr :=
  match s with c :: s' => if c =? 47 then s else drop_name s' | [] => [] end.

Definition zip_parent (prefix : cstr) : cstr := rev (no_lead (drop_name (no_lead (rev prefix)))).

(** The child of the directory [prefix] a record lies in or is, and its type. *)
Definition child_of (prefix : cstr) (r : zip_record) : option (cstr * Z) :=
  if (length prefix <? length (zr_name r))%nat && bool_decide (take (length prefix) (zr_name r) = prefix) then
    let s := drop (length prefix) (zr_name r) in
    let type := if has_slash s then DT_DIR else if zr_isdir r then DT_DIR else DT_REG in
    let name := take 255 (take (name_len s) s) in
    if bool_decide (name = []) then None else Some (name, type)
  else None.

Definition set_zip (offset : Z) (found : list cstr) (z : zip_dir) : zip_dir :=
  ZipDir (z_inode z) offset (z_records z) (z_prefix z) found.

(** One round of the loop; memory for the set of names is taken not to run out
    (where it does, critbit0_emplace answers -1 and the record is passed over
    without being remembered). *)
Definition zip_entry (tell : Z) (z : zip_dir) : option dirent * zip_dir :=
  if tell =? 0 then (Some (Dirent (z_inode z) tell 0 DT_DIR (bytes ".")), z)
  else if tell =? 1 then (Some (Dirent (zipos_inode (zip_parent (z_prefix z))) tell 0 DT_DIR (bytes "..")), z)
  else
    let r := zip_at (z_offset z) in
    let next := z_offset z + zr_hdrsize r in
    match child_of (z_prefix z) r with
    | Some (name, type) =>
        if bool_decide (name ∈ z_found z) then (None, set_zip next (z_found z) z)
        else (Some (Dirent (z_offset z) tell 0 type name), set_zip next (name :: z_found z) z)
    | None => (None, set_zip next (z_found z) z)
    end.

(** [while (!ent && dir->tell < dir->zip.records + 2)] *)
Fixpoint zip_loop (fuel : nat) (tell : Z) (z : zip_dir) : option dirent * Z * zip_dir :=
  match fuel with
  | O => (None, tell, z)
  | S fuel =>
      if negb (tell <? z_records z + 2) then (None, tell, z)
      else
        let '(ent, z) := zip_entry tell z in
        match ent with
        | Some e => (Some e, tell + 1, z)
        | None => zip_loop fuel (tell + 1) z
        end
  end.

Definition readdir_zipos (tell : Z) (z : zip_dir) : option dirent * Z * zip_dir :=
  zip_loop (Z.to_nat (z_records z + 2 - tell)) tell z.

Definition zip_rewound (z : zip_dir) : zip_dir := set_zip zip_cdir_offset [] z.

(** [while (dir->tell < tell) if (!readdir_zipos(dir)) break;] *)
Fixpoint zip_seek (fuel : nat) (target tell : Z) (z : zip_dir) : Z * zip_dir :=
  match fuel with
  | O => (tell, z)
  | S fuel =>
      if negb (tell <? target) then (tell, z)
      else
        let '(ent, tell, z) := readdir_zipos tell z in
        match ent with Some _ => zip_seek fuel target tell z | None => (tell, z) end
  end.

(** ** The emulated trees *)

Definition readdir_virt (tell : Z) (v : virt_dir) : option dirent * Z * virt_dir :=
  match v_ents v !! v_idx v with
  | None => (None, tell, v)
  | Some (name, type) =>
      let idx := S (v_idx v) in
      let tell := Z.of_nat idx in
      (Some (Dirent tell tell sizeof_dirent type name), tell, VirtDir (v_ents v) idx)
  end.

Definition virt_seek (tell : Z) (v : virt_dir) : Z * virt_dir :=
  let idx := if tell <? 0 then 0%nat
             else if Z.of_nat (length (v_ents v)) <? tell then length (v_ents v) else Z.to_nat tell in
  (Z.of_nat idx, VirtDir (v_ents v) idx).

(** ** Windows *)

Definition set_done (done : bool) (n : nt_dir) : nt_dir :=
  NtDir (nd_hand n) done (nd_isroot n) (nd_drives n) (nd_windata n) (nd_name16 n).
Definition set_data (d : find_data) (n : nt_dir) : nt_dir :=
  NtDir (nd_hand n) (nd_isdone n) (nd_isroot n) (nd_drives n) d (nd_name16 n).
Definition set_drives (drives : Z) (n : nt_dir) : nt_dir :=
  NtDir (nd_hand n) (nd_isdone n) (nd_isroot n) drives (nd_windata n) (nd_name16 n).
Definition set_find (hand : Z) (d : find_data) (n : nt_dir) : nt_dir :=
  NtDir hand (nd_isdone n) (nd_isroot n) (nd_drives n) d (nd_name16 n).

(** [isdone = !FindNextFile(hand, &windata)] *)
Definition advance (n : nt_dir) : M W nt_dir :=
  d ← step (FindNextFile (nd_hand n));
  mret (match d with Some d => set_done false (set_data d n) | None => set_done true n end).

Definition is_system (d : find_data) : bool := has (fi_attrs d) (host_const "kNtFileAttributeSystem").

Fixpoint skip_system (fuel : nat) (n : nt_dir) : M W nt_dir :=
  match fuel with
  | O => out_of_fuel
  | S fuel =>
      if negb (nd_isdone n) && is_system (nd_windata n) then n ← advance n; skip_system fuel n else mret n
  end.

Definition ctz (x : Z) : Z := default 32 (List.find (Z.testbit x) (seqZ 0 32)).

(** The drives of a root, lowest letter first; one that cannot be opened is
    left out. *)
Fixpoint next_drive (fuel : nat) (tell : Z) (n : nt_dir) : M W (option dirent * Z * nt_dir) :=
  match fuel with
  | O => out_of_fuel
  | S fuel =>
      if nd_drives n =? 0 then mret (None, tell, n)
      else
        let index := ctz (nd_drives n) in
        let n := set_drives (Z.clearbit (nd_drives n) index) n in
        ino ← step (dh_drive_inode (65 + index));
        match ino with
        | None => next_drive fuel tell n
        | Some ino => mret (Some (Dirent ino tell 0 DT_DIR [65 + index]), tell + 1, n)
        end
  end.

Definition GetNtDirentType (d : find_data) : Z :=
  if fi_type d =? host_const "kNtFileTypeDisk" then DT_BLK
  else if fi_type d =? host_const "kNtFileTypeChar" then DT_CHR
  else if fi_type d =? host_const "kNtFileTypePipe" then DT_FIFO
  else if has (fi_attrs d) (host_const "kNtFileAttributeReparsePoint") then DT_LNK
  else if has (fi_attrs d) (host_const "kNtFileAttributeDirectory") then DT_DIR
  else DT_REG.

(** "\\?\C:\" *)
Definition is_drive_root (p : list Z) : bool :=
  match p with
  | [a; b; c; d; _; e; f] => (a =? 92) && (b =? 92) && (c =? 63) && (d =? 92) && (e =? 58) && (f =? 92)
  | _ => false
  end.

Fixpoint drop_component (s : list Z) : list Z :=
  match s with c :: s' => if c =? 92 then s else drop_component s' | [] => [] end.

(** The path of an entry; [None] when it does not fit. *)
Definition entry_path (base : list Z) (name : list Z) : option (list Z) :=
  if bool_decide (name = bytes ".") then Some base
  else if bool_decide (name = bytes "..") then
    Some (if is_drive_root base then base else rev (drop_component (tail (rev base))))
  else if (length name =? 0)%nat || (length base + length name <? PATH_MAX16)%nat then Some (base ++ name)
  else None.

Fixpoint readdir_nt (fuel : nat) (tell : Z) (n : nt_dir) : M W (option dirent * Z * nt_dir) :=
  match fuel with
  | O => out_of_fuel
  | S fuel' =>
      n ← skip_system fuel n;
      if nd_isdone n then next_drive 33 tell n
      else
        let d := nd_windata n in
        ino ← (match entry_path (removelast (nd_name16 n)) (fi_name d) with
               | None => mret None
               | Some path => step (dh_path_inode path)
               end);
        let ent := Dirent (default 0 ino) tell 0 (GetNtDirentType d) (tprecode16to8 (fi_name d)) in
        n ← advance n;
        match ino with
        | None => readdir_nt fuel' (tell + 1) n
        | Some _ => mret (Some ent, tell + 1, n)
        end
  end.

(** ** The host's getdents *)

Definition round8 (x : Z) : Z := (x + 7) / 8 * 8.

(** The record as a struct dirent, and the stream's new position. *)
Definition convert (tell : Z) (r : raw_ent) : dirent * Z :=
  let len name := round8 (offsetof_d_name + Z.of_nat (length name) + 1) in
  if dh_linux || dh_openbsd then (Dirent (ra_ino r) (ra_off r) (len (ra_name r)) (ra_type r) (ra_name r), ra_off r)
  else if dh_netbsd then
    let name := take 255 (ra_name r) in
    (Dirent (ra_ino r) (tell + ra_reclen r) (len name) (ra_type r) name, tell + ra_reclen r)
  else (Dirent (ra_ino r) tell (len (ra_name r)) (ra_type r) (ra_name r), tell + 1).

Definition readdir_unix (fd tell : Z) (u : unix_dir) : M W (option dirent * Z * unix_dir) :=
  match ud_buf u with
  | r :: buf => let '(e, tell) := convert tell r in mret (Some e, tell, UnixDir buf)
  | [] =>
      tell ← (if dh_netbsd || dh_freebsd then seeky ← step (dh_lseek fd 0 SEEK_CUR); mret (Z.shiftl seeky 32) else mret tell);
      chunk ← step (dh_getdents fd);
      match chunk with
      | [] => mret (None, tell, u)
      | r :: buf => let '(e, tell) := convert tell r in mret (Some e, tell, UnixDir buf)
      end
  end.

Fixpoint unix_seek (fuel : nat) (target fd tell : Z) (u : unix_dir) : M W (Z * unix_dir) :=
  match fuel with
  | O => out_of_fuel
  | S fuel =>
      if negb (tell <? target) then mret (tell, u)
      else
        r ← readdir_unix fd tell u;
        let '(ent, tell, u) := r in
        match ent with Some _ => unix_seek fuel target fd tell u | None => mret (tell, u) end
  end.

(** ** Opening and closing *)

Definition ascii_lower (c : Z) : Z := if (65 <=? c) && (c <=? 90) then c + 32 else c.

Definition nt_isroot (p : list Z) : bool :=
  is_drive_root p && (ascii_lower (Z.land (nth 4 p 0) 255) =? ascii_lower (Z.land cosmos_drive 255)).

(** The path with a backslash and a star. *)
Definition nt_pattern (p : list Z) : list Z :=
  (if (1 <? length p)%nat && negb (List.last p 0 =? 92) then p ++ [92] else p) ++ [42].

Definition fdopendir_nt (fd : Z) : M W (option nt_dir) :=
  ours ← reads (dh_is_file fd);
  if negb ours then _ ← modifies (dh_fail EBADF); mret None
  else
    p ← reads (final_path fd);
    if (length p =? 0)%nat then mret None
    else if (PATH_MAX16 <? length p + 2 + 1)%nat then _ ← modifies (dh_fail ENAMETOOLONG); mret None
    else
      drives ← reads (fun w => if nt_isroot p then GetLogicalDrives w else 0);
      f ← step (FindFirstFile (nt_pattern p));
      match f with
      | None => _ ← modifies (dh_find_failed (nt_pattern p)); mret None
      | Some (hand, data) => mret (Some (NtDir hand false (nt_isroot p) drives data (nt_pattern p)))
      end.

(** The archive path of an open directory, ended by a slash. *)
Definition zip_prefix (name : cstr) : cstr :=
  if negb (bool_decide (name = [])) && negb (List.last name 0 =? 47) then name ++ [47] else name.

Definition fdopendir_zip (fd : Z) : M W (option zip_dir) :=
  h ← reads (dh_zip_handle fd);
  let '(name, isdir) := h in
  if negb isdir then _ ← modifies (dh_fail ENOTDIR); mret None
  else if (ZIPOS_PATH_MAX <? length name + 2)%nat then _ ← modifies (dh_fail ENAMETOOLONG); mret None
  else mret (Some (ZipDir (zipos_inode (zip_prefix name)) zip_cdir_offset zip_cdir_records (zip_prefix name) [])).

Definition fdopendir (fd : Z) : M W (option dirstream) :=
  st ← step (dh_fstat fd);
  match st with
  | None => mret None
  | Some isdir =>
      if negb isdir then _ ← modifies (dh_fail ENOTDIR); mret None
      else
        path ← reads (fun w => dh_linux && dh_is_path fd w);
        if (path : bool) then _ ← modifies (dh_fail EBADF); mret None
        else
          ok ← step dh_calloc;
          if negb ok then mret None
          else
            zip ← reads (dh_is_zip fd);
            if (zip : bool) then z ← fdopendir_zip fd; mret (DirStream fd 0 ∘ Zip <$> z)
            else
              l ← reads (fun w => match dh_fd_vpath fd w with Some v => dh_virtual_dir v w | None => NotOurs end);
              match l with
              | Entries ents => mret (Some (DirStream fd 0 (Virt (VirtDir ents 0))))
              | _ =>
                  if dh_windows then n ← fdopendir_nt fd; mret (DirStream fd 0 ∘ Nt <$> n)
                  else mret (Some (DirStream fd 0 (Unix (UnixDir []))))
              end
  end.

Definition open_real (name : cstr) : M W (option dirstream) :=
  f ← step (dh_open name);
  match f with
  | None => mret None
  | Some fd =>
      d ← fdopendir fd;
      match d with
      | Some d => mret (Some d)
      | None => _ ← step (dh_close fd); mret None
      end
  end.

Definition opendir (name : cstr) : M W (option dirstream) :=
  c ← reads dh_testcancel;
  match c with
  | Some e => _ ← modifies (dh_fail e); mret None
  | None =>
      if dh_windows || dh_xnu_silicon then
        l ← reads (dh_virtual_dir name);
        match l with
        | Entries ents =>
            ok ← step dh_calloc;
            if negb ok then mret None
            else fd ← step (dh_memfd_dir name); mret (Some (DirStream fd 0 (Virt (VirtDir ents 0))))
        | Absent => _ ← modifies (dh_fail ENOENT); mret None
        | NotOurs => open_real name
        end
      else open_real name
  end.

Definition closedir (dir : option dirstream) : M W Z :=
  match dir with
  | None => mret 0
  | Some d =>
      rc ← (if ds_fd d =? -1 then mret 0 else ok ← step (dh_close (ds_fd d)); mret (if (ok : bool) then 0 else -1));
      match ds_body d with
      | Nt n => if dh_windows then ok ← step (FindClose (nd_hand n)); mret (if (ok : bool) then rc else -1) else mret rc
      | _ => mret rc
      end
  end.

(** ** Reading *)

Definition with_ent {A} (f : A -> backend) (fd : Z) (r : option dirent * Z * A) : option dirent * dirstream :=
  let '(e, tell, b) := r in (e, DirStream fd tell (f b)).

(** [fuel] bounds how many entries of a Windows directory are passed over. *)
Definition readdir_impl (fuel : nat) (d : dirstream) : M W (option dirent * dirstream) :=
  match ds_body d with
  | Virt v => mret (with_ent Virt (ds_fd d) (readdir_virt (ds_tell d) v))
  | Zip z => mret (with_ent Zip (ds_fd d) (readdir_zipos (ds_tell d) z))
  | Nt n => r ← readdir_nt fuel (ds_tell d) n; mret (with_ent Nt (ds_fd d) r)
  | Unix u => r ← readdir_unix (ds_fd d) (ds_tell d) u; mret (with_ent Unix (ds_fd d) r)
  end.

Definition readdir (fuel : nat) (d : option dirstream) : M W (option dirent * option dirstream) :=
  match d with
  | Some d => r ← readdir_impl fuel d; mret (fst r, Some (snd r))
  | None => _ ← modifies (dh_fail EFAULT); mret (None, None)
  end.

(** The error, and unless there is one the result pointer: null, or the
    caller's buffer, which holds the entry or still what it held. *)
Inductive into := Null | Untouched | Copied (e : dirent).

Definition readdir_r (fuel : nat) (d : dirstream) : M W (Z * option into * dirstream) :=
  olderr ← reads dh_errno;
  _ ← modifies (dh_set_errno 0);
  r ← readdir_impl fuel d;
  err ← reads dh_errno;
  _ ← modifies (dh_set_errno olderr);
  let '(entry, d) := r in
  mret (if negb (err =? 0) then (err, None, d)
        else (0, Some (match entry with
                       | Some e => if d_reclen e =? 0 then Untouched else Copied e
                       | None => Null
                       end), d)).

(** ** Positions *)

Definition telldir (d : dirstream) : Z := ds_tell d.
Definition dirfd (d : dirstream) : Z := ds_fd d.

(** The find handle once more from the start. *)
Definition nt_restart (n : nt_dir) : M W (bool * nt_dir) :=
  drives ← reads (fun w => if nd_isroot n then GetLogicalDrives w else nd_drives n);
  _ ← step (FindClose (nd_hand n));
  f ← step (FindFirstFile (nd_name16 n));
  mret (match f with
        | Some (hand, data) => (true, set_done false (set_find hand data (set_drives drives n)))
        | None => (false, set_done true (set_find (-1) (nd_windata n) (set_drives drives n)))
        end).

Definition rewinddir (d : dirstream) : M W dirstream :=
  let at_ tell b := DirStream (ds_fd d) tell b in
  match ds_body d with
  | Virt v => mret (at_ 0 (Virt (VirtDir (v_ents v) 0)))
  | Zip z => mret (at_ 0 (Zip (zip_rewound z)))
  | Unix u =>
      r ← step (dh_lseek (ds_fd d) 0 SEEK_SET);
      mret (if r =? 0 then at_ 0 (Unix (UnixDir [])) else d)
  | Nt n =>
      r ← nt_restart n;
      let '(ok, n) := r in
      mret (at_ (if (ok : bool) then 0 else ds_tell d) (Nt n))
  end.

(** [for (; tell < target; ++tell) if (!FindNextFile(...)) ...] *)
Fixpoint nt_seek (fuel : nat) (target tell : Z) (n : nt_dir) : M W (Z * nt_dir) :=
  match fuel with
  | O => mret (tell, n)
  | S fuel =>
      if negb (tell <? target) then mret (tell, n)
      else
        d ← step (FindNextFile (nd_hand n));
        match d with
        | None => mret (tell, set_done true n)
        | Some d => nt_seek fuel target (tell + 1) (set_data d n)
        end
  end.

Definition seekdir (fuel : nat) (d : dirstream) (tell : Z) : M W dirstream :=
  let at_ r b := DirStream (ds_fd d) r b in
  match ds_body d with
  | Virt v => let '(t, v) := virt_seek tell v in mret (at_ t (Virt v))
  | Zip z => let '(t, z) := zip_seek (Z.to_nat tell) tell 0 (zip_rewound z) in mret (at_ t (Zip z))
  | Unix u =>
      if dh_netbsd || dh_freebsd then
        t ← step (dh_lseek (ds_fd d) (Z.shiftr tell 32) SEEK_SET);
        r ← unix_seek fuel tell (ds_fd d) (Z.shiftl t 32) (UnixDir []);
        let '(t, u) := r in mret (at_ t (Unix u))
      else
        t ← step (dh_lseek (ds_fd d) tell SEEK_SET);
        mret (at_ t (Unix (UnixDir [])))
  | Nt n =>
      r ← nt_restart n;
      let '(ok, n) := r in
      if (ok : bool) then s ← nt_seek (Z.to_nat tell) tell 0 n; let '(t, n) := s in mret (at_ t (Nt n))
      else mret (at_ 0 (Nt n))
  end.
End dir.

(** ** The archive lists each child once *)

Section zip.
Context {W : Type} `{DirHost W}.

(** The records from an offset on. *)
Fixpoint zip_recs (n : nat) (off : Z) : list zip_record :=
  match n with
  | O => []
  | S n => zip_at off :: zip_recs n (off + zr_hdrsize (zip_at off))
  end.

(** The children the records name, each where it is met first. *)
Fixpoint fresh_children (prefix : cstr) (recs : list zip_record) (found : list cstr) : list (cstr * Z) :=
  match recs with
  | [] => []
  | r :: recs =>
      match child_of prefix r with
      | Some (name, type) =>
          if bool_decide (name ∈ found) then fresh_children prefix recs found
          else (name, type) :: fresh_children prefix recs (name :: found)
      | None => fresh_children prefix recs found
      end
  end.

(** readdir until it answers no entry. *)
Fixpoint zip_read_all (fuel : nat) (tell : Z) (z : zip_dir) : list dirent :=
  match fuel with
  | O => []
  | S fuel =>
      let '(e, tell, z) := readdir_zipos tell z in
      match e with Some e => e :: zip_read_all fuel tell z | None => [] end
  end.

Definition listing (e : dirent) : cstr * Z := (d_name e, d_type e).

Lemma zip_loop_spec m tell z : 2 <= tell -> tell + Z.of_nat m = z_records z + 2 ->
  match fresh_children (z_prefix z) (zip_recs m (z_offset z)) (z_found z) with
  | [] => exists z', zip_loop m tell z = (None, z_records z + 2, z')
  | child :: more => exists m' e tell' z', zip_loop m tell z = (Some e, tell', z') /\ (m' < m)%nat /\
      2 <= tell' /\ tell' + Z.of_nat m' = z_records z' + 2 /\ listing e = child /\ z_prefix z' = z_prefix z /\
      fresh_children (z_prefix z') (zip_recs m' (z_offset z')) (z_found z') = more
  end.
Proof.
  revert tell z. induction m as [|m IH]; intros tell z Ht Hm; cbn [zip_recs fresh_children zip_loop].
  { exists z. do 2 f_equal. lia. }
  rewrite (proj2 (Z.ltb_lt tell (z_records z + 2))) by lia. cbn [negb]. unfold zip_entry.
  rewrite (proj2 (Z.eqb_neq tell 0)), (proj2 (Z.eqb_neq tell 1)) by lia.
  set (r := zip_at (z_offset z)). set (next := z_offset z + zr_hdrsize r).
  assert (Hskip : forall found, match fresh_children (z_prefix z) (zip_recs m next) found with
    | [] => exists z', zip_loop m (tell + 1) (set_zip next found z) = (None, z_records z + 2, z')
    | child :: more => exists m' e tell' z', zip_loop m (tell + 1) (set_zip next found z) = (Some e, tell', z') /\ (m' < S m)%nat /\
        2 <= tell' /\ tell' + Z.of_nat m' = z_records z' + 2 /\ listing e = child /\ z_prefix z' = z_prefix z /\
        fresh_children (z_prefix z') (zip_recs m' (z_offset z')) (z_found z') = more
    end).
  { intros found. specialize (IH (tell + 1) (set_zip next found z) ltac:(lia)). cbn [set_zip z_records z_prefix z_offset z_found] in IH.
    specialize (IH ltac:(lia)). destruct (fresh_children _ _ found); [done|].
    destruct IH as (m' & e & tell' & z' & ? & ? & ?). exists m', e, tell', z'. split; [done|]. split; [lia|done]. }
  destruct (child_of (z_prefix z) r) as [[name type]|]; [|apply Hskip].
  destruct (bool_decide (name ∈ z_found z)); [apply Hskip|].
  exists m. eexists _, (tell + 1), _. split; [done|]. split; [lia|]. split; [lia|]. cbn. split; [lia|done].
Qed.

Lemma zip_read_rest fuel m tell z : (m < fuel)%nat -> 2 <= tell -> tell + Z.of_nat m = z_records z + 2 ->
  map listing (zip_read_all fuel tell z) = fresh_children (z_prefix z) (zip_recs m (z_offset z)) (z_found z).
Proof.
  revert m tell z. induction fuel as [|fuel IH]; intros m tell z Hf Ht Hm; [lia|]. cbn [zip_read_all]. unfold readdir_zipos.
  replace (Z.to_nat (z_records z + 2 - tell)) with m by lia. pose proof (zip_loop_spec m tell z Ht Hm) as Hs.
  destruct (fresh_children (z_prefix z) _ _) as [|child more]; [by destruct Hs as [z' ->]|].
  destruct Hs as (m' & e & tell' & z' & -> & Hlt & Ht' & Hm' & <- & Hp & <-). cbn [map]. f_equal. apply IH; [lia|done|done].
Qed.

Lemma fresh_once prefix recs found : NoDup (fresh_children prefix recs found).*1 /\
  forall name, name ∈ (fresh_children prefix recs found).*1 <->
    name ∉ found /\ exists r type, r ∈ recs /\ child_of prefix r = Some (name, type).
Proof.
  revert found. induction recs as [|r recs IH]; intros found; cbn [fresh_children].
  { split; [constructor|]. intros name. split; [by intros ?%elem_of_nil|by intros (_ & r & ty & ?%elem_of_nil & _)]. }
  assert (Hskip : (forall name ty, child_of prefix r = Some (name, ty) -> name ∈ found) ->
    forall name, (name ∉ found /\ exists r0 type, r0 ∈ recs /\ child_of prefix r0 = Some (name, type)) <->
                 (name ∉ found /\ exists r0 type, r0 ∈ r :: recs /\ child_of prefix r0 = Some (name, type))).
  { intros Hr name. split; intros (Hn & r0 & ty & Hin & Hc); (split; [done|]); exists r0, ty; (split; [|done]); [by right|].
    apply elem_of_cons in Hin as [->|Hin]; [by destruct Hn; apply (Hr _ ty)|done]. }
  destruct (child_of prefix r) as [[name type]|] eqn:Ec.
  - case_bool_decide as Ef.
    + destruct (IH found) as [Hnd Hin]. split; [done|]. intros x. rewrite Hin. apply Hskip. by intros ? ? [= <- <-].
    + destruct (IH (name :: found)) as [Hnd Hin]. cbn [fmap list_fmap fst]. split.
      * constructor; [|done]. rewrite Hin. intros [Hx _]. apply Hx. by left.
      * intros x. rewrite elem_of_cons. rewrite (Hin x), not_elem_of_cons. split.
        -- intros [->|((Hx & Hxf) & r0 & ty & Hr & Hc)]; (split; [done|]); [exists r, type; by split; [left|]|exists r0, ty; by split; [right|]].
        -- intros (Hxf & r0 & ty & [->|Hr]%elem_of_cons & Hc); [left; congruence|].
           destruct (decide (x = name)) as [->|Hne]; [by left|right]. split; [done|]. by exists r0, ty.
  - destruct (IH found) as [Hnd Hin]. split; [done|]. intros x. rewrite Hin. apply Hskip. done.
Qed.

(** The name [full] lies directly in the directory of the path [prefix]. *)
Definition names_child (prefix : cstr) (r : zip_record) (full : cstr) : Prop :=
  full <> [] /\ has_slash full = false /\
  (zr_name r = prefix ++ full \/ exists rest, zr_name r = prefix ++ full ++ 47 :: rest).

Lemma take_name_len s : s = take (name_len s) s ++ drop (name_len s) s /\ has_slash (take (name_len s) s) = false /\
  (drop (name_len s) s = [] \/ exists rest, drop (name_len s) s = 47 :: rest).
Proof.
  split; [by rewrite take_drop|]. induction s as [|c s [IH1 IH2]]; [by split; [|left]|]. cbn [name_len].
  destruct (c =? 47) eqn:E; cbn [take drop has_slash existsb].
  - split; [done|]. right. exists s. f_equal. lia.
  - rewrite E. by split.
Qed.

Lemma name_len_full full rest : has_slash full = false -> name_len (full ++ 47 :: rest) = length full.
Proof.
  unfold has_slash. induction full as [|c full IH]; [done|]. cbn. destruct (c =? 47); [done|]. intros Hf. by rewrite IH.
Qed.

Lemma name_len_all full : has_slash full = false -> name_len full = length full.
Proof.
  unfold has_slash. induction full as [|c full IH]; [done|]. cbn. destruct (c =? 47); [done|]. intros Hf. by rewrite IH.
Qed.

Lemma child_of_spec prefix r name :
  (exists type, child_of prefix r = Some (name, type)) <-> exists full, names_child prefix r full /\ name = take 255 full.
Proof.
  unfold child_of, names_child. split.
  - intros [type Hc]. destruct (_ && _) eqn:Ep; [|done]. apply andb_true_iff in Ep as [Hl Hp].
    apply bool_decide_eq_true in Hp. set (s := drop (length prefix) (zr_name r)) in *.
    case_bool_decide as En; [done|]. injection Hc as <- <-.
    assert (Hr : zr_name r = prefix ++ s) by (rewrite <- Hp at 1; unfold s; by rewrite take_drop).
    destruct (take_name_len s) as (Hs & Hns & Hrest). exists (take (name_len s) s). split; [|done].
    split; [by intros Hn; apply En; rewrite Hn|]. split; [done|].
    destruct Hrest as [Hd|[rest Hd]]; rewrite Hd in Hs; [left|right; exists rest]; rewrite Hr; f_equal; [by rewrite app_nil_r in Hs|done].
  - intros (full & (Hne & Hns & Hr) & ->).
    assert (exists tail, zr_name r = prefix ++ full ++ tail /\ name_len (full ++ tail) = length full) as (tail & Hz & Hlen).
    { destruct Hr as [->|[rest ->]]; [exists []; rewrite app_nil_r; split; [done|by apply name_len_all]|].
      exists (47 :: rest). split; [done|by apply name_len_full]. }
    rewrite Hz, take_app_length, drop_app_length, bool_decide_true, andb_true_r by done.
    rewrite (proj2 (Nat.ltb_lt (length prefix) _)) by (rewrite !length_app; destruct full; [done|cbn; lia]).
    rewrite Hlen, take_app_length. rewrite bool_decide_false by (by destruct full). by eexists.
Qed.

(** C24: While there is memory for the set of names, reading a directory of the
    archive to its end answers ".", "..", and then each child of the directory
    exactly once, no matter how many records of the archive lie below it: the
    names are those (cut to 255 bytes) directly behind the directory's path in
    some record. *)
Theorem zip_lists_once inode prefix fuel : 0 <= zip_cdir_records -> (Z.to_nat zip_cdir_records + 2 < fuel)%nat ->
  exists children,
    map listing (zip_read_all fuel 0 (ZipDir inode zip_cdir_offset zip_cdir_records prefix [])) =
      (bytes ".", DT_DIR) :: (bytes "..", DT_DIR) :: children /\
    NoDup children.*1 /\
    forall name, name ∈ children.*1 <->
      exists r full, r ∈ zip_recs (Z.to_nat zip_cdir_records) zip_cdir_offset /\ names_child prefix r full /\ name = take 255 full.
Proof.
  intros Hr Hf. set (recs := zip_recs _ _). exists (fresh_children prefix recs []). split.
  - destruct fuel as [|[|fuel]]; [lia|lia|]. set (z := ZipDir inode _ _ _ _).
    assert (H0 : readdir_zipos 0 z = (Some (Dirent inode 0 0 DT_DIR (bytes ".")), 1, z)).
    { unfold readdir_zipos. cbn [z z_records]. replace (Z.to_nat (zip_cdir_records + 2 - 0)) with (S (Z.to_nat (zip_cdir_records + 1))) by lia.
      cbn [zip_loop]. change (z_records z) with zip_cdir_records. by rewrite (proj2 (Z.ltb_lt 0 (zip_cdir_records + 2))) by lia. }
    assert (H1 : readdir_zipos 1 z = (Some (Dirent (zipos_inode (zip_parent prefix)) 1 0 DT_DIR (bytes "..")), 2, z)).
    { unfold readdir_zipos. cbn [z z_records]. replace (Z.to_nat (zip_cdir_records + 2 - 1)) with (S (Z.to_nat zip_cdir_records)) by lia.
      cbn [zip_loop]. change (z_records z) with zip_cdir_records. by rewrite (proj2 (Z.ltb_lt 1 (zip_cdir_records + 2))) by lia. }
    cbn [zip_read_all]. rewrite H0, H1. cbn [map listing d_name d_type]. do 2 f_equal.
    rewrite (zip_read_rest fuel (Z.to_nat zip_cdir_records) 2 z); [done|lia|lia|cbn; lia].
  - destruct (fresh_once prefix recs []) as [Hnd Hin]. split; [done|]. intros name. rewrite Hin. split.
    + intros (_ & r & ty & Hrec & Hc). destruct (proj1 (child_of_spec prefix r name) (ex_intro _ ty Hc)) as (full & Hn & Hname).
      by exists r, full.
    + intros (r & full & Hrec & Hn & Hname). split; [by intros ?%elem_of_nil|].
      destruct (proj2 (child_of_spec prefix r name) (ex_intro _ full (conj Hn Hname))) as [ty Hty]. by exists r, ty.
Qed.
End zip.

(** ** Told positions can be sought *)

Section seek.
Context `{HostConsts} {W : Type} `{DirHost W}.

Definition zip_next (s : Z * zip_dir) : Z * zip_dir := let '(_, tell, z) := readdir_zipos (fst s) (snd s) in (tell, z).

(** Nothing but the place in the archive changes. *)
Definition same_dir (z z' : zip_dir) : Prop :=
  z_inode z' = z_inode z /\ z_records z' = z_records z /\ z_prefix z' = z_prefix z.

Lemma zip_loop_facts fuel tell z : (z_records z + 2 - tell <= Z.of_nat fuel) ->
  let '(e, tell', z') := zip_loop fuel tell z in
  same_dir z z' /\ match e with Some _ => tell < tell' | None => z_records z + 2 <= tell' /\ (tell' = tell -> z' = z) /\ tell <= tell' end.
Proof.
  revert tell z. induction fuel as [|fuel IH]; intros tell z Hf; cbn [zip_loop]; [split; [done|split; [lia|by split]]|].
  destruct (Z.ltb_spec tell (z_records z + 2)) as [Hlt|Hge]; cbn [negb]; [|split; [done|split; [lia|by split]]].
  assert (Hz : same_dir z (snd (zip_entry tell z))).
  { unfold zip_entry. destruct (tell =? 0); [done|]. destruct (tell =? 1); [done|].
    destruct (child_of _ _) as [[name type]|]; [|done]. by destruct (bool_decide _). }
  destruct (zip_entry tell z) as [[e|] z1]; cbn [snd] in Hz; [split; [done|lia]|].
  assert (Hr : z_records z1 = z_records z) by apply Hz.
  specialize (IH (tell + 1) z1 ltac:(lia)). destruct (zip_loop fuel (tell + 1) z1) as [[e tell'] z'].
  destruct IH as [(H1 & H2 & H3) Htell]. destruct Hz as (H4 & H5 & H6). split; [repeat split; congruence|].
  destruct e; [lia|]. rewrite <- Hr. split; [tauto|]. split; [lia|lia].
Qed.

Lemma readdir_zipos_facts tell z :
  let '(e, tell', z') := readdir_zipos tell z in
  same_dir z z' /\ match e with Some _ => tell < tell' | None => z_records z + 2 <= tell' /\ (tell' = tell -> z' = z) /\ tell <= tell' end.
Proof. apply zip_loop_facts. lia. Qed.

Lemma zip_at_end tell z : z_records z + 2 <= tell -> readdir_zipos tell z = (None, tell, z).
Proof. intros Ht. unfold readdir_zipos. by replace (Z.to_nat (z_records z + 2 - tell)) with O by lia. Qed.

Lemma zip_next_grows s : fst s <= fst (zip_next s) /\ same_dir (snd s) (snd (zip_next s)) /\ (fst (zip_next s) = fst s -> zip_next s = s).
Proof.
  destruct s as [tell z]. unfold zip_next. cbn [fst snd]. pose proof (readdir_zipos_facts tell z) as Hf.
  destruct (readdir_zipos tell z) as [[e tell'] z']. destruct Hf as [Hs Ht]. cbn [fst snd].
  destruct e; [split; [lia|]; split; [done|lia]|]. split; [lia|]. split; [done|]. intros ->. f_equal. by apply Ht.
Qed.

Lemma zip_iter_grows k s : fst s <= fst (Nat.iter k zip_next s) /\ same_dir (snd s) (snd (Nat.iter k zip_next s)) /\
  (fst (Nat.iter k zip_next s) = fst s -> Nat.iter k zip_next s = s).
Proof.
  induction k as [|k (IH1 & IH2 & IH3)]; [by split|]. cbn [Nat.iter nat_rect].
  change (nat_rect _ s (fun _ => zip_next) k) with (Nat.iter k zip_next s).
  destruct (zip_next_grows (Nat.iter k zip_next s)) as (H1 & H2 & H3). split; [lia|]. split.
  - destruct IH2 as (? & ? & ?), H2 as (? & ? & ?). repeat split; congruence.
  - intros He. rewrite H3 by lia. apply IH3. lia.
Qed.

(** The search from a state reaches the state [k] readings on. *)
Lemma zip_seek_reaches fuel k s : fst (Nat.iter k zip_next s) - fst s <= Z.of_nat fuel ->
  zip_seek fuel (fst (Nat.iter k zip_next s)) (fst s) (snd s) = Nat.iter k zip_next s.
Proof.
  revert k s. induction fuel as [|fuel IH]; intros k s Hf; destruct (zip_iter_grows k s) as (H1 & _ & H3).
  { cbn [zip_seek]. rewrite <- surjective_pairing. symmetry. apply H3. lia. }
  cbn [zip_seek]. destruct (Z.ltb_spec (fst s) (fst (Nat.iter k zip_next s))) as [Hlt|Hge]; cbn [negb];
    [|rewrite <- surjective_pairing; symmetry; apply H3; lia].
  destruct k as [|k]; [cbn in Hlt; lia|]. rewrite Nat.iter_succ_r in *. pose proof (readdir_zipos_facts (fst s) (snd s)) as Hr.
  assert (Hn : zip_next s = (snd (fst (readdir_zipos (fst s) (snd s))), snd (readdir_zipos (fst s) (snd s))))
    by (unfold zip_next; by destruct (readdir_zipos _ _) as [[? ?] ?]).
  destruct (readdir_zipos (fst s) (snd s)) as [[e tell] z] eqn:E. cbn [fst snd] in Hn. rewrite Hn in *.
  destruct e as [e|].
  - apply (IH k (tell, z)). cbn [fst]. lia.
  - destruct Hr as [(_ & Hrec & _) (Hend & _)].
    assert (Hstop : zip_next (tell, z) = (tell, z)) by (unfold zip_next; cbn [fst snd]; rewrite zip_at_end; [done|lia]).
    clear -Hstop. induction k as [|k IHk]; [done|]. cbn [Nat.iter nat_rect].
    change (nat_rect _ (tell, z) (fun _ => zip_next) k) with (Nat.iter k zip_next (tell, z)). by rewrite <- IHk.
Qed.

(** So many entries read. *)
Fixpoint read_past (fuel k : nat) (d : dirstream) : M W dirstream :=
  match k with
  | O => mret d
  | S k => r ← readdir_impl fuel d; read_past fuel k (snd r)
  end.

Definition virt_next (s : Z * virt_dir) : Z * virt_dir := let '(_, tell, v) := readdir_virt (fst s) (snd s) in (tell, v).

Lemma read_past_zip fuel k fd s w :
  read_past fuel k (DirStream fd (fst s) (Zip (snd s))) w =
  Some (DirStream fd (fst (Nat.iter k zip_next s)) (Zip (snd (Nat.iter k zip_next s))), w).
Proof.
  revert s. induction k as [|k IH]; intros s; [done|]. rewrite Nat.iter_succ_r, <- IH. cbn [read_past].
  unfold readdir_impl, zip_next. cbn [ds_body ds_tell ds_fd]. by destruct (readdir_zipos (fst s) (snd s)) as [[e t] z].
Qed.

Lemma read_past_virt fuel k fd s w :
  read_past fuel k (DirStream fd (fst s) (Virt (snd s))) w =
  Some (DirStream fd (fst (Nat.iter k virt_next s)) (Virt (snd (Nat.iter k virt_next s))), w).
Proof.
  revert s. induction k as [|k IH]; intros s; [done|]. rewrite Nat.iter_succ_r, <- IH. cbn [read_past].
  unfold readdir_impl, virt_next. cbn [ds_body ds_tell ds_fd]. by destruct (readdir_virt (fst s) (snd s)) as [[e t] v].
Qed.

Lemma virt_iter ents k : exists i, (i <= length ents)%nat /\ Nat.iter k virt_next (0, VirtDir ents 0) = (Z.of_nat i, VirtDir ents i).
Proof.
  induction k as [|k (i & Hi & IH)]; [by exists 0%nat; split; [lia|]|]. cbn [Nat.iter nat_rect].
  change (nat_rect _ (0, VirtDir ents 0) (fun _ => virt_next) k) with (Nat.iter k virt_next (0, VirtDir ents 0)). rewrite IH.
  unfold virt_next, readdir_virt. cbn [fst snd v_ents v_idx]. destruct (ents !! i) as [[name type]|] eqn:E.
  - apply lookup_lt_Some in E. exists (S i). split; [lia|done].
  - exists i. by split.
Qed.

(** A stream of a kind that keeps its listing, just opened. *)
Definition just_opened (b : backend) : Prop :=
  match b with
  | Virt v => v_idx v = 0%nat
  | Zip z => z_offset z = zip_cdir_offset /\ z_found z = [] /\ 0 <= z_records z
  | _ => False
  end.

Lemma zip_rewound_same z z' : same_dir z z' -> z_offset z = zip_cdir_offset -> z_found z = [] -> zip_rewound z' = z.
Proof. destruct z, z'. unfold same_dir, zip_rewound, set_zip. cbn. by intros (-> & -> & ->) -> ->. Qed.

(** C25: On a directory of the archive or of the emulated trees, the position
    telldir answers after any number of readings leads seekdir, from
    wherever the stream is by then, back to the state of the stream at that
    moment, what it has already answered included; and rewinddir to the state
    it was opened in. *)
Theorem seek_returns fuel fd b j k w : just_opened b -> exists dj dk,
  read_past fuel j (DirStream fd 0 b) w = Some (dj, w) /\
  read_past fuel k (DirStream fd 0 b) w = Some (dk, w) /\
  seekdir fuel dj (telldir dk) w = Some (dk, w) /\
  rewinddir dj w = Some (DirStream fd 0 b, w).
Proof.
  destruct b as [z|v|n|u]; cbn [just_opened]; intros Hb; try done.
  - destruct Hb as (Ho & Hf & Hr). eexists _, _. split; [exact (read_past_zip fuel j fd (0, z) w)|].
    split; [exact (read_past_zip fuel k fd (0, z) w)|]. destruct (zip_iter_grows j (0, z)) as (_ & Hs & _). cbn [snd] in Hs.
    unfold seekdir, rewinddir. cbn [ds_body ds_fd telldir ds_tell]. rewrite (zip_rewound_same z _ Hs Ho Hf). split; [|done].
    pose proof (zip_seek_reaches (Z.to_nat (fst (Nat.iter k zip_next (0, z)))) k (0, z)) as Hseek. cbn [fst snd] in Hseek.
    destruct (zip_iter_grows k (0, z)) as (Hk & _). cbn [fst] in Hk. rewrite Hseek by lia.
    by destruct (Nat.iter k zip_next (0, z)).
  - destruct v as [ents idx]. cbn in Hb. subst idx. eexists _, _. split; [exact (read_past_virt fuel j fd (0, VirtDir ents 0) w)|].
    split; [exact (read_past_virt fuel k fd (0, VirtDir ents 0) w)|].
    destruct (virt_iter ents j) as (i & Hi & ->), (virt_iter ents k) as (i' & Hi' & ->). split; [|done].
    unfold seekdir, virt_seek. cbn [ds_body fst snd v_ents telldir ds_tell ds_fd].
    rewrite (proj2 (Z.ltb_ge (Z.of_nat i') 0)), (proj2 (Z.ltb_ge (Z.of_nat (length ents)) (Z.of_nat i'))) by lia.
    by rewrite Nat2Z.id.
Qed.
End seek.

(** ** A Windows directory *)

(** What is relied on: the find handle answers the entries it has left one by
    one, and while the directory is read nobody changes it or the drives. *)
Class DirLaws (W : Type) `{DirHost W} := {
  find_left : Z -> W -> list find_data;
  inode_at : list Z -> option Z;
  drive_at : Z -> option Z;
  find_next_left h w : let '(r, w') := FindNextFile h w in
    match find_left h w with [] => r = None | d :: ds => r = Some d /\ find_left h w' = ds end;
  path_inode_at p w : let '(r, w') := dh_path_inode p w in r = inode_at p /\ forall h, find_left h w' = find_left h w;
  drive_inode_at c w : let '(r, w') := dh_drive_inode c w in r = drive_at c /\ forall h, find_left h w' = find_left h w }.

Section nt.
Context `{HostConsts} {W : Type} `{DirLaws W}.

(** The entries a stream has still to look at. *)
Definition view (n : nt_dir) (w : W) : list find_data :=
  if nd_isdone n then [] else nd_windata n :: find_left (nd_hand n) w.

Definition base_path (n : nt_dir) : list Z := removelast (nd_name16 n).

(** Its inode, type and name, if an entry is shown: it is no system file, and
    its inode can be found. *)
Definition shown (base : list Z) (d : find_data) : option (Z * Z * cstr) :=
  if is_system d then None
  else ino ← entry_path base (fi_name d) ≫= inode_at; Some (ino, GetNtDirentType d, tprecode16to8 (fi_name d)).

Definition drive_bits (drives : Z) : list Z := filter (fun i => Z.testbit drives i = true) (seqZ 0 32).

Definition shown_drives (drives : Z) : list (Z * Z * cstr) :=
  omap (fun i => ino ← drive_at (65 + i); Some (ino, DT_DIR, [65 + i])) (drive_bits drives).

(** Everything a stream has still to answer. *)
Definition still (n : nt_dir) (w : W) : list (Z * Z * cstr) :=
  omap (shown (base_path n)) (view n w) ++ shown_drives (nd_drives n).

Definition triple (e : dirent) : Z * Z * cstr := (d_ino e, d_type e, d_name e).

Definition word32 (x : Z) : Prop := 0 <= x /\ forall i, 32 <= i -> Z.testbit x i = false.

Lemma word32_bound x : 0 <= x < 2 ^ 32 -> word32 x.
Proof.
  intros Hx. split; [lia|]. intros i Hi. destruct (decide (x = 0)) as [->|Hn]; [apply Z.bits_0|].
  apply Z.bits_above_log2; [lia|]. apply Z.log2_lt_pow2; [lia|]. apply Z.lt_le_trans with (2 ^ 32); [lia|].
  apply Z.pow_le_mono_r; lia.
Qed.

Lemma filter_ext_in {A} (P Q : A -> Prop) `{!forall x, Decision (P x)} `{!forall x, Decision (Q x)} (l : list A) :
  (forall x, x ∈ l -> P x <-> Q x) -> filter P l = filter Q l.
Proof.
  induction l as [|x l IH]; intros Hl; [done|]. pose proof (Hl x ltac:(left)) as Hx. rewrite !filter_cons.
  rewrite IH by (intros y Hy; apply Hl; by right). by rewrite (decide_ext _ _ _ _ Hx).
Qed.

Lemma find_filter (P : Z -> bool) l i : NoDup l -> List.find P l = Some i ->
  filter (fun x => P x = true) l = i :: filter (fun x => P x && negb (x =? i) = true) l.
Proof.
  intros Hn. induction Hn as [|x l Hx Hn IH]; [done|]. cbn [List.find]. destruct (P x) eqn:Ex.
  - intros [= ->]. rewrite filter_cons_True by done. f_equal. rewrite filter_cons_False by (by rewrite Z.eqb_refl, andb_false_r).
    apply filter_ext_in. intros y Hy. assert (y <> i) by (intros ->; done). rewrite (proj2 (Z.eqb_neq y i)) by done. by rewrite andb_true_r.
  - intros Hf. rewrite filter_cons_False by congruence. rewrite (IH Hf). f_equal.
    by rewrite (filter_cons_False (fun x => P x && negb (x =? i) = true)) by (by rewrite Ex).
Qed.

Lemma drive_bits_cons drives : word32 drives -> drives <> 0 ->
  drive_bits drives = ctz drives :: drive_bits (Z.clearbit drives (ctz drives)) /\ word32 (Z.clearbit drives (ctz drives)).
Proof.
  intros [Hpos Hhigh] Hne. unfold ctz. destruct (List.find (Z.testbit drives) (seqZ 0 32)) as [i|] eqn:E.
  - cbn [default from_option id]. assert (Hi : 0 <= i).
    { apply find_some in E as [Hin _]. apply list_elem_of_In, elem_of_seqZ in Hin. lia. }
    unfold drive_bits. rewrite (find_filter (Z.testbit drives) (seqZ 0 32) i (NoDup_seqZ 0 32) E). split.
    + f_equal. apply filter_ext_in. intros x Hx%elem_of_seqZ. rewrite Z.clearbit_eqb by lia.
      rewrite (Z.eqb_sym i x). done.
    + split; [unfold Z.clearbit; apply Z.ldiff_nonneg; by left|]. intros j Hj. rewrite Z.clearbit_eqb by lia. by rewrite Hhigh.
  - exfalso. apply Hne, Z.bits_inj_0. intros j. destruct (Z.ltb_spec j 0); [by apply Z.testbit_neg_r|].
    destruct (Z.ltb_spec j 32); [|by apply Hhigh].
    apply (find_none _ _ E). apply list_elem_of_In, elem_of_seqZ. lia.
Qed.

Lemma next_drive_post fuel tell n (w : W) : word32 (nd_drives n) -> (length (drive_bits (nd_drives n)) < fuel)%nat ->
  post (next_drive fuel tell n) w (fun r w' =>
    let '(e, tell', n') := r in
    (forall h, find_left h w' = find_left h w) /\ n' = set_drives (nd_drives n') n /\ word32 (nd_drives n') /\
    match shown_drives (nd_drives n) with
    | [] => e = None
    | x :: xs => exists e', e = Some e' /\ triple e' = x /\ shown_drives (nd_drives n') = xs
    end).
Proof.
  revert n w. induction fuel as [|fuel IH]; intros n w Hw Hf; [lia|]. cbn [next_drive].
  destruct (Z.eqb_spec (nd_drives n) 0) as [E|E].
  { apply post_ret. split; [done|]. split; [by destruct n|]. split; [done|]. unfold shown_drives, drive_bits. by rewrite E. }
  destruct (drive_bits_cons _ Hw E) as [Hb Hw']. set (i := ctz (nd_drives n)) in *. set (n1 := set_drives _ n).
  apply post_bind, post_step. pose proof (drive_inode_at (65 + i) w) as Hd.
  destruct (dh_drive_inode (65 + i) w) as [ino w1]. destruct Hd as [-> Hl].
  unfold shown_drives in *. rewrite Hb. cbn [omap list_omap]. rewrite Hb in Hf. cbn [length] in Hf.
  destruct (drive_at (65 + i)) as [ino|]; cbn [mbind option_bind].
  - apply post_ret. split; [done|]. split; [done|]. split; [done|]. by eexists.
  - eapply post_impl; [apply (IH n1 w1 Hw'); cbn; lia|]. intros [[e tell'] n'] w'. intros (R1 & R2 & R3 & R4).
    split; [intros h; by rewrite R1|]. split; [rewrite R2; by destruct n|]. by split.
Qed.

Lemma advance_post n (w : W) : nd_isdone n = false ->
  post (advance n) w (fun n' w' => view n' w' = find_left (nd_hand n) w /\ nd_hand n' = nd_hand n /\
    nd_drives n' = nd_drives n /\ nd_isroot n' = nd_isroot n /\ nd_name16 n' = nd_name16 n).
Proof.
  intros Hd. unfold advance. apply post_bind, post_step. pose proof (find_next_left (nd_hand n) w) as Hl.
  destruct (FindNextFile (nd_hand n) w) as [r w']. destruct (find_left (nd_hand n) w) as [|d ds]; [subst r|destruct Hl as [-> Hl]];
    apply post_ret; [done|]. split; [unfold view; cbn; by rewrite Hl|done].
Qed.

Lemma shown_system base d : is_system d = true -> shown base d = None.
Proof. unfold shown. by intros ->. Qed.

Definition same_nt (n n' : nt_dir) : Prop :=
  nd_hand n' = nd_hand n /\ nd_drives n' = nd_drives n /\ nd_isroot n' = nd_isroot n /\ nd_name16 n' = nd_name16 n.

Lemma skip_system_post fuel n (w : W) : (length (view n w) < fuel)%nat ->
  post (skip_system fuel n) w (fun n' w' => same_nt n n' /\ omap (shown (base_path n)) (view n' w') = omap (shown (base_path n)) (view n w) /\
    (length (view n' w') <= length (view n w))%nat /\ (nd_isdone n' = true \/ is_system (nd_windata n') = false)).
Proof.
  revert n w. induction fuel as [|fuel IH]; intros n w Hf; [lia|]. cbn [skip_system].
  destruct (nd_isdone n) eqn:Ed; cbn [negb andb]; [apply post_ret; split; [done|]; split; [done|]; split; [lia|by left]|].
  destruct (is_system (nd_windata n)) eqn:Es; [|apply post_ret; split; [done|]; split; [done|]; split; [lia|by right]].
  assert (Hv : view n w = nd_windata n :: find_left (nd_hand n) w) by (unfold view; by rewrite Ed).
  rewrite Hv in *. cbn [length] in Hf. cbn [omap list_omap]. rewrite (shown_system _ _ Es).
  apply post_bind. eapply post_impl; [by apply advance_post|]. intros n1 w1 (Hv1 & Hs).
  eapply post_impl; [apply (IH n1 w1); rewrite Hv1; lia|]. intros n2 w2 (Hs2 & Ho & Hl & Hend).
  assert (Hb : base_path n1 = base_path n) by (unfold base_path; f_equal; apply Hs).
  split; [unfold same_nt in *; intuition congruence|]. split; [rewrite <- Hb, Ho, Hv1; done|]. split; [rewrite Hv1 in Hl; cbn; lia|done].
Qed.

Lemma readdir_nt_post fuel tell n (w : W) : word32 (nd_drives n) -> (length (view n w) < fuel)%nat ->
  post (readdir_nt fuel tell n) w (fun r w' =>
    let '(e, tell', n') := r in
    nd_name16 n' = nd_name16 n /\ word32 (nd_drives n') /\ (length (view n' w') <= length (view n w))%nat /\
    match still n w with
    | [] => e = None
    | x :: xs => exists e', e = Some e' /\ triple e' = x /\ still n' w' = xs
    end).
Proof.
  revert tell n w. induction fuel as [|fuel IH]; intros tell n w Hw Hf; [lia|].
  change (readdir_nt (S fuel) tell n) with
    (n ← skip_system (S fuel) n;
     if nd_isdone n then next_drive 33 tell n
     else
       let d := nd_windata n in
       ino ← (match entry_path (removelast (nd_name16 n)) (fi_name d) with
              | None => mret None
              | Some path => step (dh_path_inode path)
              end);
       let ent := Dirent (default 0 ino) tell 0 (GetNtDirentType d) (tprecode16to8 (fi_name d)) in
       n ← advance n;
       match ino with
       | None => readdir_nt fuel (tell + 1) n
       | Some _ => mret (Some ent, tell + 1, n)
       end).
  apply post_bind. eapply post_impl; [by apply skip_system_post|]. intros n1 w1 ((Hh1 & Hd1 & _ & Hn1) & Ho & Hl & Hend).
  assert (Hstill : still n w = still n1 w1) by (unfold still; rewrite <- Ho, Hd1; unfold base_path; by rewrite Hn1).
  rewrite Hstill, <- Hn1. rewrite <- Hd1 in Hw. destruct (nd_isdone n1) eqn:Ed.
  - assert (Hv : view n1 w1 = []) by (unfold view; by rewrite Ed).
    eapply post_impl; [apply (next_drive_post 33 tell n1 w1 Hw)|].
    { unfold drive_bits. pose proof (length_filter (fun i => Z.testbit (nd_drives n1) i = true) (seqZ 0 32)) as Hle.
      rewrite length_seqZ in Hle. lia. }
    intros [[e tell'] n2] w2 (Hleft & Hn2 & Hw2 & He).
    assert (Hv2 : view n2 w2 = []) by (rewrite Hn2; unfold view, set_drives; cbn; by rewrite Ed).
    split; [by rewrite Hn2|]. split; [done|]. split; [rewrite Hv2; cbn; lia|].
    unfold still. rewrite Hv, Hv2. cbn [omap list_omap app]. done.
  - destruct Hend as [Hend|Hend]; [congruence|]. cbn zeta. set (d := nd_windata n1) in *.
    assert (Hv : view n1 w1 = d :: find_left (nd_hand n1) w1) by (unfold view; by rewrite Ed).
    set (path := entry_path _ (fi_name d)).
    apply post_bind. apply (post_impl _ _ (fun ino w' => ino = path ≫= inode_at /\ forall h, find_left h w' = find_left h w1)).
    { destruct path as [p|]; [|by apply post_ret]. apply post_step. pose proof (path_inode_at p w1) as Hp.
      by destruct (dh_path_inode p w1). }
    intros ino w2 [Hino Hleft]. apply post_bind. eapply post_impl; [by apply (advance_post n1 w2)|].
    intros n3 w3 (Hv3 & Hh3 & Hd3 & _ & Hn3).
    assert (Hnext : still n1 w1 = match ino with
                                  | Some i => [(i, GetNtDirentType d, tprecode16to8 (fi_name d))]
                                  | None => []
                                  end ++ still n3 w3).
    { unfold still. rewrite Hv, Hv3, Hleft, Hd3. unfold base_path. rewrite Hn3. cbn [omap list_omap].
      unfold shown at 1. rewrite Hend. fold path. rewrite <- Hino. by destruct ino. }
    rewrite Hnext. destruct ino as [i|].
    + apply post_ret. split; [done|]. split; [by rewrite Hd3|]. split; [rewrite Hv3, Hleft; rewrite Hv in Hl; cbn in Hl; lia|]. by eexists.
    + cbn [app]. eapply post_impl; [apply (IH (tell + 1) n3 w3)|].
      * by rewrite Hd3.
      * rewrite Hv3, Hleft. rewrite Hv in Hl. cbn in Hl. lia.
      * intros [[e tell'] n4] w4 (R1 & R2 & R3 & R4). split; [congruence|]. split; [done|]. split; [|done].
        rewrite Hv3, Hleft in R3. rewrite Hv in Hl. cbn in Hl. lia.
Qed.

(** readdir until it answers no entry. *)
Fixpoint nt_read_all (count fuel : nat) (tell : Z) (n : nt_dir) : M W (list dirent) :=
  match count with
  | O => mret []
  | S count =>
      r ← readdir_nt fuel tell n;
      let '(e, tell, n) := r in
      match e with
      | Some e => es ← nt_read_all count fuel tell n; mret (e :: es)
      | None => mret []
      end
  end.

(** Reading a Windows directory to its end ends, and answers once each and
    in the order of the find handle the entries that are no system files and
    whose inode can be found, with the inode of the entry itself and a link
    told as a link; then, in the root of the cosmos drive, the drives that
    can be opened, by letter. *)
Theorem nt_lists count fuel n (w : W) : 0 <= nd_drives n < 2 ^ 32 -> (length (view n w) < fuel)%nat ->
  (length (still n w) < count)%nat ->
  post (nt_read_all count fuel 0 n) w (fun es _ => map triple es = omap (shown (base_path n)) (view n w) ++ shown_drives (nd_drives n)).
Proof.
  intros Hd%word32_bound. fold (still n w). generalize 0. revert n w Hd. induction count as [|count IH]; intros n w Hd tell Hf Hc; [lia|].
  cbn [nt_read_all]. apply post_bind. eapply post_impl; [by apply readdir_nt_post|].
  intros [[e tell'] n'] w' (Hn & Hw & Hl & He). destruct (still n w) as [|x xs]; [by rewrite He|].
  destruct He as (e' & -> & <- & <-). apply post_bind. eapply post_impl.
  - apply (IH n' w' Hw tell'); [lia|]. cbn in Hc. lia.
  - intros es w2 Hes. apply post_ret. cbn [map]. rewrite Hes. unfold still, base_path. by rewrite Hn.
Qed.
End nt.

(** ** readdir_r *)

Section reentrant.
Context `{HostConsts} {W : Type} `{DirHost W}.

Lemma zip_loop_reclen fuel tell z e tell' z' : zip_loop fuel tell z = (Some e, tell', z') -> d_reclen e = 0.
Proof.
  revert tell z. induction fuel as [|fuel IH]; intros tell z; cbn [zip_loop]; [done|]. destruct (negb _); [done|].
  assert (He : forall e1, fst (zip_entry tell z) = Some e1 -> d_reclen e1 = 0).
  { intros e1. unfold zip_entry. destruct (tell =? 0); [by intros [= <-]|]. destruct (tell =? 1); [by intros [= <-]|].
    destruct (child_of _ _) as [[name type]|]; [|done]. destruct (bool_decide _); [done|by intros [= <-]]. }
  destruct (zip_entry tell z) as [[e1|] z1]; [|apply IH]. intros [= <- _ _]. by apply He.
Qed.

Lemma next_drive_reclen fuel tell n w e tell' n' w' : next_drive fuel tell n w = Some (Some e, tell', n', w') -> d_reclen e = 0.
Proof.
  revert n w. induction fuel as [|fuel IH]; intros n w; cbn [next_drive]; [done|]. destruct (nd_drives n =? 0); [done|].
  rewrite bind_Some. intros (ino & w1 & _ & Hr). destruct ino; [by injection Hr as <- _ _ _|by apply (IH _ _ Hr)].
Qed.

Lemma readdir_nt_reclen fuel tell n w e tell' n' w' : readdir_nt fuel tell n w = Some (Some e, tell', n', w') -> d_reclen e = 0.
Proof.
  revert tell n w. induction fuel as [|fuel IH]; intros tell n w; cbn [readdir_nt]; [done|].
  rewrite bind_Some. intros (n1 & w1 & _ & Hr). destruct (nd_isdone n1); [by apply next_drive_reclen in Hr|].
  apply bind_Some in Hr as (ino & w2 & _ & Hr). apply bind_Some in Hr as (n2 & w3 & _ & Hr).
  destruct ino; [by injection Hr as <- _ _ _|by apply (IH _ _ _ Hr)].
Qed.

(** readdir_r never fills the caller's buffer for a directory of the archive
    or of Windows: their entries carry no record length, which it takes for
    how much there is to copy. *)
Theorem readdir_r_copies_nothing fuel d w err r d' w' e :
  match ds_body d with Zip _ | Nt _ => True | _ => False end ->
  readdir_r fuel d w = Some ((err, r, d'), w') -> r <> Some (Copied e).
Proof.
  intros Hb. unfold readdir_r. rewrite bind_reads, bind_modifies, bind_Some.
  intros ([entry d1] & w1 & Hr & Hend). rewrite bind_reads, bind_modifies in Hend.
  assert (He : forall e', entry = Some e' -> d_reclen e' = 0).
  { intros e' ->. unfold readdir_impl in Hr. destruct (ds_body d) as [z|v|n|u]; try done.
    - unfold readdir_zipos in Hr. destruct (zip_loop _ (ds_tell d) z) as [[e1 tell] z1] eqn:E. injection Hr as -> _ _.
      by apply zip_loop_reclen in E.
    - apply bind_Some in Hr as ([[e1 tell] n1] & w2 & Hr & Hans). injection Hans as -> _ _. by apply readdir_nt_reclen in Hr. }
  destruct (negb _); [by injection Hend as _ <- _ _|]. injection Hend as _ <- _ _. destruct entry as [e'|]; [|done].
  by rewrite (He e' eq_refl).
Qed.
End reentrant.

(** ** A host to evaluate on *)

Section toy.
Notation toy := (gmap Z (list find_data)).

Definition dir_values : list (string * Z) :=
  [ ("kNtFileAttributeSystem", 4); ("kNtFileAttributeDirectory", 16); ("kNtFileAttributeReparsePoint", 0x400);
    ("kNtFileTypeDisk", 1); ("kNtFileTypeChar", 2); ("kNtFileTypePipe", 3) ]%string.

#[local] Instance dir_consts : HostConsts := {|
  host_const name := default 0 (snd <$> List.find (fun row => String.eqb (fst row) name) dir_values);
  host_defines _ := true |}.

(** Three files, each 10 bytes into the archive, two of them in "d/sub". *)
Definition toy_record (off : Z) : zip_record :=
  ZipRecord (if off =? 100 then bytes "d/a" else if off =? 110 then bytes "d/sub/x" else bytes "d/sub/y") false 10.

Definition toy_left : list find_data :=
  [FindData 4 0 (bytes "pagefile.sys"); FindData 0x410 0 (bytes "link"); FindData 0 0 (bytes "gone"); FindData 16 0 (bytes "sub")].

Definition toy_inode (p : list Z) : option Z := if bool_decide (p = bytes "\\?\C:\gone") then None else Some (Z.of_nat (length p)).

#[local] Instance toy_dir : DirHost toy := {
  dh_windows := true; dh_linux := false; dh_xnu_silicon := false; dh_openbsd := false; dh_netbsd := false; dh_freebsd := false;
  sizeof_dirent := 280; offsetof_d_name := 19; PATH_MAX16 := 1024;
  zip_at := toy_record; zip_cdir_offset := 100; zip_cdir_records := 3;
  zipos_inode p := Z.of_nat (length p); ZIPOS_PATH_MAX := 1024;
  dh_errno _ := 0; dh_set_errno _ w := w; dh_fail _ w := w;
  dh_fstat _ w := (Some true, w); dh_is_path _ _ := false; dh_calloc w := (true, w);
  dh_is_zip fd _ := fd =? 4; dh_is_file _ _ := true; dh_zip_handle _ _ := (bytes "d", true);
  dh_fd_vpath _ _ := None; dh_virtual_dir _ _ := NotOurs; dh_memfd_dir _ w := (7, w);
  dh_open _ w := (Some 3, w); dh_close _ w := (true, w); dh_testcancel _ := None;
  final_path _ _ := bytes "\\?\C:\"; cosmos_drive := 67; GetLogicalDrives _ := 12;
  FindFirstFile _ w := (Some (5, FindData 16 0 (bytes ".")), <[5 := toy_left]> w);
  FindNextFile h w := match w !! h with Some (d :: ds) => (Some d, <[h := ds]> w) | _ => (None, w) end;
  FindClose h w := (true, delete h w);
  dh_drive_inode c w := (if c =? 68 then None else Some c, w);
  dh_path_inode p w := (toy_inode p, w);
  dh_find_failed _ w := w;
  tprecode16to8 n := n;
  dh_getdents _ w := ([], w); dh_lseek _ off _ w := (off, w) }.

#[local] Instance toy_dir_laws : DirLaws toy.
Proof.
  refine {| find_left := fun h w => default [] (w !! h); inode_at := toy_inode; drive_at := fun c => if c =? 68 then None else Some c |}.
  - intros h w. cbn [FindNextFile toy_dir]. destruct (w !! h) as [[|d ds]|] eqn:E; cbn [default from_option id]; try done.
    split; [done|]. by rewrite lookup_insert_eq.
  - by intros p w.
  - by intros c w.
Defined.

Definition toy_zip : zip_dir := ZipDir 1 100 3 (bytes "d/") [].
Definition toy_root : nt_dir := NtDir 5 false true 12 (FindData 16 0 (bytes ".")) (bytes "\\?\C:\*").
Definition toy_world : toy := {[5 := toy_left]}.

Lemma zip_lists_once_witness : exists children,
  map listing (zip_read_all (W := toy) 6 0 toy_zip) = (bytes ".", DT_DIR) :: (bytes "..", DT_DIR) :: children /\ NoDup children.*1 /\
  children = [(bytes "a", DT_REG); (bytes "sub", DT_DIR)].
Proof.
  pose proof (zip_lists_once (W := toy) 1 (bytes "d/") 6) as Hz.
  destruct (Hz ltac:(done) ltac:(vm_compute; lia)) as (children & Hl & Hn & _).
  exists children. split; [exact Hl|]. split; [exact Hn|].
  injection Hl as Hl. rewrite <- Hl. vm_compute. reflexivity.
Defined.

Lemma seek_returns_witness : exists dj dk,
  read_past 9 4 (DirStream 3 0 (Zip toy_zip)) toy_world = Some (dj, toy_world) /\
  read_past 9 3 (DirStream 3 0 (Zip toy_zip)) toy_world = Some (dk, toy_world) /\
  seekdir 9 dj (telldir dk) toy_world = Some (dk, toy_world) /\
  rewinddir dj toy_world = Some (DirStream 3 0 (Zip toy_zip), toy_world).
Proof.
  assert (Hb : just_opened (W := toy) (Zip toy_zip)) by (split; [reflexivity|split; [reflexivity|by cbn]]).
  pose proof (seek_returns (W := toy) 9 3 (Zip toy_zip) 4 3 toy_world Hb) as Hs. exact Hs.
Defined.

Lemma nt_lists_witness : exists es w', nt_read_all 9 9 0 toy_root toy_world = Some (es, w') /\
  map triple es = [(7, DT_DIR, bytes "."); (11, DT_LNK, bytes "link"); (10, DT_DIR, bytes "sub"); (67, DT_DIR, bytes "C")].
Proof.
  pose proof (nt_lists 9 9 toy_root toy_world) as Hl. pose proof (Hl ltac:(done) ltac:(vm_compute; lia) ltac:(vm_compute; lia)) as Hp.
  apply post_run in Hp as (es & w' & Hr & He). exists es, w'. split; [exact Hr|]. rewrite He. vm_compute. reflexivity.
Defined.

(** On Windows a position told is lost to a system file in front of it: the
    entry to come was "gone", after seekdir it is "link", a second time. *)
Example nt_seek_loses :
  (r1 ← readdir_nt 9 0 toy_root; let '(_, t1, n1) := r1 in
   r2 ← readdir_nt 9 t1 n1; let '(_, t2, n2) := r2 in
   d ← seekdir 9 (DirStream 3 t2 (Nt n2)) t2;
   mret (match ds_body d with Nt n => (fi_name (nd_windata n2), fi_name (nd_windata n)) | _ => ([], []) end)) toy_world
  = Some ((bytes "gone", bytes "link"), <[5 := drop 2 toy_left]> (delete 5 toy_world)).
Proof. vm_compute. reflexivity. Qed.
End toy.
