(* ===== verification/DescribeFds.v ===== *)
(** * shim/describefds.c, descriptors handed to a child on Windows

    What execve and posix_spawn do with the descriptor table: each descriptor
    that may be inherited has its handle duplicated for the child, and its
    entry written into an environment string. The theorems: the string never
    outgrows its buffer, a failure closes every duplicate made, a success
    leaves exactly the counted ones, and the child that takes the string
    apart gets the table back. *)
From S2P Require Import Prelude Host PfsText Fields.

(** ** The table and the calls *)

(** struct Fd; the cursor is the address of its shared page. *)
Record fd_row := FdRow {
  fr_kind : Z; fr_handle : Z; fr_flags : Z; fr_mode : Z; fr_cursor : option Z; fr_type : Z; fr_family : Z; fr_protocol : Z }.

(** The Windows calls on the creator's handles, the map that covers an
    address, its start and handle, and memory. *)
Class DescribeHost (W : Type) := {
  df_duplicate : Z -> W -> option Z * W;
  df_close_source : Z -> W -> W;
  df_maps_floor : Z -> W -> option (Z * Z);
  df_alloc : Z -> W -> bool * W;
  df_report : Z -> fd_row -> W -> W;
  df_set_efault : W -> W }.

Definition FDS_VAR : cstr := bytes "_COSMO_FDS_V2=".
Definition MAX_ENTRY_BYTES : Z := 256.

(** struct StringBuilder: what is written and the size of the buffer. *)
Record builder := Builder { sb_text : cstr; sb_n : Z }.

(** The handles made, the child's three standard ones, and the string. *)
Record described := Described { de_handles : list Z; de_stdio : list Z; de_sb : builder }.

Section ops.
Context `{HostConsts} {W : Type} `{DescribeHost W}.

Definition is_cloexec (f : fd_row) : bool :=
  (fr_kind f =? host_const "kFdEmpty") || (fr_kind f =? host_const "kFdReserved") || (fr_kind f =? host_const "kFdZip") ||
  (fr_kind f =? host_const "kFdEpoll") || has (fr_flags f) (host_const "O_CLOEXEC") || (fr_handle f =? -1) || (fr_handle f =? 0).

Fixpoint undescribe_fds (handles : list Z) : M W unit :=
  match handles with
  | [] => mret tt
  | h :: handles => _ ← modifies (df_close_source h); undescribe_fds handles
  end.

Definition FormatInt64 : Z -> cstr := signed.

Definition entry_text (fd handle shand : Z) (f : fd_row) : cstr :=
  FormatInt64 fd ++ [95] ++ FormatInt64 handle ++ [95] ++ FormatInt64 (fr_kind f) ++ [95] ++ FormatInt64 (fr_flags f) ++ [95] ++
  FormatInt64 (fr_mode f) ++ [95] ++ FormatInt64 shand ++ [95] ++ FormatInt64 (fr_type f) ++ [95] ++ FormatInt64 (fr_family f) ++ [95] ++
  FormatInt64 (fr_protocol f) ++ [59].

(** How many handles the table needs. *)
Fixpoint count_handles (fds : list fd_row) : nat :=
  match fds with
  | [] => 0
  | f :: fds =>
      if is_cloexec f then count_handles fds
      else S (match fr_cursor f with Some _ => S (count_handles fds) | None => count_handles fds end)
  end.

(** The standard handles that are this descriptor's become the duplicate. *)
Definition replace_stdio (old new : Z) (stdio : list Z) : list Z := map (fun h => if h =? old then new else h) stdio.

Definition fail_described (d : described) : M W (option described) := _ ← undescribe_fds (de_handles d); mret None.

(** The cursor's shared memory, duplicated; 0 without a cursor. *)
Definition share_cursor (fd : Z) (f : fd_row) : M W (option (Z * list Z)) :=
  match fr_cursor f with
  | None => mret (Some (0, []))
  | Some shared =>
      map ← reads (df_maps_floor shared);
      match map with
      | Some (addr, hand) =>
          if negb (addr =? shared) then _ ← modifies df_set_efault; mret None
          else
            s ← step (df_duplicate hand);
            match s with
            | None => _ ← modifies (df_report fd f); mret None
            | Some s => mret (Some (s, [s]))
            end
      | None => _ ← modifies df_set_efault; mret None
      end
  end.

(** Room for one more entry. *)
Definition reserve_entry (sb : builder) : M W (option builder) :=
  if sb_n sb <? Z.of_nat (length (sb_text sb)) + MAX_ENTRY_BYTES then
    let n := sb_n sb + Z.shiftr (sb_n sb) 1 + MAX_ENTRY_BYTES in
    ok ← step (df_alloc n);
    mret (if (ok : bool) then Some (Builder (sb_text sb) n) else None)
  else mret (Some sb).

(** Writing an entry and its NUL: an entry of 256 bytes trips the assertion,
    one past the buffer's end is undefined. *)
Definition write_entry (entry : cstr) (sb : builder) : M W builder :=
  if (Z.of_nat (length entry) <? MAX_ENTRY_BYTES) &&
     (Z.of_nat (length (sb_text sb)) + Z.of_nat (length entry) + 1 <=? sb_n sb)
  then mret (Builder (sb_text sb ++ entry) (sb_n sb))
  else out_of_fuel.

Fixpoint describe_loop (fd : Z) (fds : list fd_row) (d : described) : M W (option described) :=
  match fds with
  | [] => mret (Some d)
  | f :: fds =>
      if is_cloexec f then describe_loop (fd + 1) fds d
      else
        h ← step (df_duplicate (fr_handle f));
        match h with
        | None => _ ← modifies (df_report fd f); fail_described d
        | Some handle =>
            let d := Described (de_handles d ++ [handle]) (replace_stdio (fr_handle f) handle (de_stdio d)) (de_sb d) in
            s ← share_cursor fd f;
            match s with
            | None => fail_described d
            | Some (shand, more) =>
                let d := Described (de_handles d ++ more) (de_stdio d) (de_sb d) in
                sb ← reserve_entry (de_sb d);
                match sb with
                | None => fail_described d
                | Some sb =>
                    sb ← write_entry (entry_text fd handle shand f) sb;
                    describe_loop (fd + 1) fds (Described (de_handles d) (de_stdio d) sb)
                end
            end
        end
  end.

(** The string, the explicit handles and the standard ones. *)
Definition describe_fds (fds : list fd_row) (stdio : list Z) : M W (option described) :=
  let n := Z.of_nat (length FDS_VAR) + 1 in
  ok ← step (df_alloc n);
  if negb ok then mret None
  else
    ok ← step (df_alloc (8 * Z.of_nat (count_handles fds)));
    if negb ok then mret None
    else
      d ← describe_loop 0 fds (Described [] stdio (Builder FDS_VAR n));
      match d with
      | Some d => if (length (de_handles d) =? count_handles fds)%nat then mret (Some d) else out_of_fuel
      | None => mret None
      end.
End ops.

(** ** The child's side *)

Record entry := Entry {
  en_fd : Z; en_handle : Z; en_kind : Z; en_flags : Z; en_mode : Z; en_shand : Z; en_type : Z; en_family : Z; en_protocol : Z }.

Definition parse_entry (e : cstr) : option entry :=
  match map read_signed (split_on 95 e) with
  | [fd; h; k; fl; m; sh; ty; fam; pr] => Some (Entry fd h k fl m sh ty fam pr)
  | _ => None
  end.

(** Entries each ended by a semicolon, behind the variable's name. *)
Definition parse_fds (s : cstr) : list (option entry) := map parse_entry (List.removelast (split_on 59 (drop (length FDS_VAR) s))).

(** What is relied on of the calls: a duplicate is a new handle of the
    creator, which closing takes away again; nothing else changes them. *)
Class DescribeLaws (W : Type) `{DescribeHost W} := {
  creator_open : W -> gset Z;
  duplicate_new h w : let '(r, w') := df_duplicate h w in
    match r with
    | Some n => n ∉ creator_open w /\ creator_open w' = {[n]} ∪ creator_open w /\ - 2 ^ 63 <= n < 2 ^ 63
    | None => creator_open w' = creator_open w
    end;
  close_takes h w : creator_open (df_close_source h w) = creator_open w ∖ {[h]};
  alloc_keeps n w : creator_open (snd (df_alloc n w)) = creator_open w;
  report_keeps fd f w : creator_open (df_report fd f w) = creator_open w;
  efault_keeps w : creator_open (df_set_efault w) = creator_open w }.

Section proofs.
Context `{HostConsts} {W : Type} `{DescribeLaws W}.

Definition int64 (x : Z) : Prop := - 2 ^ 63 <= x < 2 ^ 63.
Definition row_ok (f : fd_row) : Prop := Forall int64 [fr_kind f; fr_flags f; fr_mode f; fr_type f; fr_family f; fr_protocol f].

(** The inherited rows with their descriptors. *)
Fixpoint inherited (fd : Z) (fds : list fd_row) : list (Z * fd_row) :=
  match fds with
  | [] => []
  | f :: fds => if is_cloexec f then inherited (fd + 1) fds else (fd, f) :: inherited (fd + 1) fds
  end.

(** The entry of a row with its new handle and that of its cursor. *)
Definition entry_of (r : Z * fd_row) (g : Z * Z) : entry :=
  let '(fd, f) := r in let '(h, sh) := g in
  Entry fd h (fr_kind f) (fr_flags f) (fr_mode f) sh (fr_type f) (fr_family f) (fr_protocol f).

Definition text_of (r : Z * fd_row) (g : Z * Z) : cstr := let '(fd, f) := r in let '(h, sh) := g in entry_text fd h sh f.

(** The handles given to a row. *)
Definition given (r : Z * fd_row) (g : Z * Z) : list Z := match fr_cursor (snd r) with Some _ => [fst g; snd g] | None => [fst g] end.

Definition fields_of (e : entry) : list cstr :=
  map signed [en_fd e; en_handle e; en_kind e; en_flags e; en_mode e; en_shand e; en_type e; en_family e; en_protocol e].

Lemma entry_text_fields fd h sh f : entry_text fd h sh f = join 95 (fields_of (entry_of (fd, f) (h, sh))) ++ [59].
Proof.
  unfold entry_text, FormatInt64, fields_of. cbn [entry_of map join en_fd en_handle en_kind en_flags en_mode en_shand en_type en_family en_protocol].
  repeat (rewrite <- app_assoc || rewrite <- app_comm_cons). reflexivity.
Qed.

Lemma join_lacks c d l : c <> d -> Forall (lacks c) l -> lacks c (join d l).
Proof.
  intros Hcd Hl. induction Hl as [|s l Hs Hl IH]; [constructor|]. destruct l as [|s2 l]; [done|].
  change (join d (s :: s2 :: l)) with (s ++ d :: join d (s2 :: l)). apply lacks_app; [done|]. by constructor.
Qed.

Lemma fields_lack c e : is_digit c = false -> c <> 45 -> Forall (lacks c) (fields_of e).
Proof. intros Hc Hm. unfold fields_of. apply Forall_map, Forall_true. intros x. by apply signed_lacks. Qed.

Definition entry_ok (e : entry) : Prop :=
  Forall int64 [en_fd e; en_handle e; en_kind e; en_flags e; en_mode e; en_shand e; en_type e; en_family e; en_protocol e].

Lemma parse_entry_of e : entry_ok e -> parse_entry (join 95 (fields_of e)) = Some e.
Proof.
  intros He. unfold parse_entry. rewrite split_join; [|done|by apply fields_lack]. unfold fields_of. rewrite map_map.
  assert (Hall : forall l, Forall int64 l -> map (fun x => read_signed (signed x)) l = l).
  { induction 1 as [|x l Hx _ IH]; [done|]. cbn [map]. rewrite IH, read_signed_signed; [done|]. unfold int64 in Hx. lia. }
  rewrite Hall by done. by destruct e.
Qed.

Lemma entry_text_length fd h sh f : (Z.of_nat (length (entry_text fd h sh f)) < MAX_ENTRY_BYTES).
Proof.
  unfold entry_text, FormatInt64. rewrite !length_app. cbn [length]. unfold MAX_ENTRY_BYTES.
  pose proof (signed_length fd). pose proof (signed_length h). pose proof (signed_length (fr_kind f)).
  pose proof (signed_length (fr_flags f)). pose proof (signed_length (fr_mode f)). pose proof (signed_length sh).
  pose proof (signed_length (fr_type f)). pose proof (signed_length (fr_family f)). pose proof (signed_length (fr_protocol f)). lia.
Qed.

Lemma parse_fds_entries (es : list entry) : Forall entry_ok es ->
  parse_fds (FDS_VAR ++ concat (map (fun e => join 95 (fields_of e) ++ [59]) es)) = map Some es.
Proof.
  intros Hes. unfold parse_fds. rewrite drop_app_length. induction Hes as [|e es He Hes IH]; [done|].
  cbn [map concat]. rewrite <- app_assoc. cbn [app]. rewrite split_on_app by (by apply join_lacks, fields_lack).
  destruct (split_on 59 (concat _)) as [|s rest] eqn:Er; [by destruct (split_on_nonempty 59 _ Er)|].
  change (List.removelast (join 95 (fields_of e) :: s :: rest)) with (join 95 (fields_of e) :: List.removelast (s :: rest)).
  cbn [map]. by rewrite IH, parse_entry_of.
Qed.

(** *** The loop *)

(** The duplicates made are the creator's, apart from what it had. *)
Definition holds (base : gset Z) (hs : list Z) (w : W) : Prop :=
  NoDup hs /\ (forall h, h ∈ hs -> h ∉ base) /\ creator_open w = list_to_set hs ∪ base.

Lemma holds_same base hs w w' : creator_open w' = creator_open w -> holds base hs w -> holds base hs w'.
Proof. unfold holds. by intros ->. Qed.

Lemma holds_new base hs w w' h : h ∉ creator_open w -> creator_open w' = {[h]} ∪ creator_open w -> holds base hs w -> holds base (hs ++ [h]) w'.
Proof.
  intros Hh Hw (Hn & Hb & Ho). rewrite Ho in Hh. split; [|split].
  - apply NoDup_app. split; [done|]. split; [|apply NoDup_singleton]. intros x Hx Hx'. rewrite list_elem_of_singleton in Hx'. subst x. set_solver.
  - intros x. rewrite elem_of_app, list_elem_of_singleton. intros [Hx| ->]; [by apply Hb|set_solver].
  - rewrite Hw, Ho, list_to_set_app_L. cbn. set_solver.
Qed.

Lemma undescribe_post base hs w : holds base hs w -> post (undescribe_fds hs) w (fun _ w' => creator_open w' = base).
Proof.
  revert w. induction hs as [|h hs IH]; intros w (Hn & Hb & Ho); cbn [undescribe_fds]; [apply post_ret; rewrite Ho; set_solver|].
  apply post_bind, post_modifies. apply NoDup_cons in Hn as [Hh Hn]. apply IH. split; [done|]. split; [intros x Hx; apply Hb; by right|].
  rewrite close_takes, Ho. cbn [list_to_set]. pose proof (Hb h ltac:(left)). set_solver.
Qed.

Lemma fail_post base d w : holds base (de_handles d) w ->
  post (fail_described d) w (fun r w' => r = None /\ creator_open w' = base).
Proof.
  intros Hh. unfold fail_described. apply post_bind. eapply post_impl; [by apply undescribe_post|]. intros u w' Hw. by apply post_ret.
Qed.

(** How a table is described from where the loop stands. *)
Definition table_done (fd : Z) (fds : list fd_row) (d d' : described) : Prop := exists gs,
  length gs = length (inherited fd fds) /\ Forall (fun g => int64 (fst g) /\ int64 (snd g)) gs /\
  de_handles d' = de_handles d ++ concat (zip_with given (inherited fd fds) gs) /\
  length (de_handles d') = (length (de_handles d) + count_handles fds)%nat /\
  Forall2 (fun r g => fr_cursor (snd r) = None -> snd g = 0) (inherited fd fds) gs /\
  sb_text (de_sb d') = sb_text (de_sb d) ++ concat (zip_with text_of (inherited fd fds) gs).

Definition room (sb : builder) : Prop := Z.of_nat (length (sb_text sb)) + 1 <= sb_n sb.

Lemma share_post base hs fd f w : holds base hs w ->
  post (share_cursor fd f) w (fun r w' =>
    match r with
    | None => holds base hs w'
    | Some (sh, more) => holds base (hs ++ more) w' /\ int64 sh /\
        match fr_cursor f with Some _ => more = [sh] | None => more = [] /\ sh = 0 end
    end).
Proof.
  intros Hh. unfold share_cursor. destruct (fr_cursor f) as [shared|]; [|apply post_ret; rewrite app_nil_r; split; [done|split; [done|done]]].
  apply post_bind, post_reads. destruct (df_maps_floor shared w) as [[addr hand]|].
  - destruct (negb _).
    + apply post_bind, post_modifies, post_ret. apply (holds_same _ _ w); [apply efault_keeps|done].
    + apply post_bind, post_step. pose proof (duplicate_new hand w) as Hd. destruct (df_duplicate hand w) as [[s|] w1].
      * apply post_ret. destruct Hd as (Hn & Ho & Hr). split; [by apply (holds_new _ _ w)|]. by split.
      * apply post_bind, post_modifies, post_ret. apply (holds_same _ _ w); [by rewrite report_keeps|done].
  - apply post_bind, post_modifies, post_ret. apply (holds_same _ _ w); [apply efault_keeps|done].
Qed.

Lemma reserve_post sb w : room sb -> post (reserve_entry sb) w (fun r w' =>
  creator_open w' = creator_open w /\
  match r with
  | Some sb' => sb_text sb' = sb_text sb /\ Z.of_nat (length (sb_text sb)) + MAX_ENTRY_BYTES <= sb_n sb'
  | None => True
  end).
Proof.
  intros Hr. unfold room in Hr. unfold reserve_entry. destruct (Z.ltb_spec (sb_n sb) (Z.of_nat (length (sb_text sb)) + MAX_ENTRY_BYTES)).
  - apply post_bind, post_step. pose proof (alloc_keeps (sb_n sb + Z.shiftr (sb_n sb) 1 + MAX_ENTRY_BYTES) w) as Ha.
    destruct (df_alloc _ w) as [ok w1]. cbn [snd] in Ha. apply post_ret. split; [done|]. destruct ok; [|done].
    cbn [sb_text sb_n]. split; [done|]. rewrite Z.shiftr_div_pow2 by lia.
    pose proof (Z.div_pos (sb_n sb) (2 ^ 1) ltac:(lia) ltac:(lia)). lia.
  - apply post_ret. split; [done|]. by split.
Qed.

Lemma describe_loop_post base fd fds d w : holds base (de_handles d) w -> room (de_sb d) ->
  post (describe_loop fd fds d) w (fun r w' =>
    match r with
    | None => creator_open w' = base
    | Some d' => holds base (de_handles d') w' /\ table_done fd fds d d' /\ room (de_sb d')
    end).
Proof.
  revert fd d w. induction fds as [|f fds IH]; intros fd d w Hh Hr; cbn [describe_loop].
  { apply post_ret. split; [done|]. split; [|done]. exists []. cbn. rewrite !app_nil_r. by repeat split. }
  destruct (is_cloexec f) eqn:Ec.
  { eapply post_impl; [by apply IH|]. intros [d'|] w'; [|done]. intros (H1' & (gs & Hgs) & H3'). split; [done|]. split; [|done].
    exists gs. cbn [inherited count_handles]. by rewrite Ec. }
  apply post_bind, post_step. pose proof (duplicate_new (fr_handle f) w) as Hd.
  destruct (df_duplicate (fr_handle f) w) as [[handle|] w1].
  2: { apply post_bind, post_modifies. eapply post_impl; [apply (fail_post base d)|by intros [?|] w' [? ?]].
       apply (holds_same _ _ w); [by rewrite report_keeps|done]. }
  destruct Hd as (Hn & Ho & Hrange). set (d1 := Described _ _ _).
  assert (H1' : holds base (de_handles d1) w1) by (by apply (holds_new _ _ w)).
  apply post_bind. eapply post_impl; [by apply (share_post base (de_handles d1))|]. intros [[sh more]|] w2.
  2: { intros Hh2. eapply post_impl; [by apply (fail_post base d1)|by intros [?|] w' [? ?]]. }
  intros (H2' & Hsh & Hmore). set (d2 := Described (de_handles d1 ++ more) _ _).
  apply post_bind. eapply post_impl; [by apply reserve_post|]. intros [sb|] w3 [Ho3 Hsb].
  2: { eapply post_impl; [apply (fail_post base d2); by apply (holds_same _ _ w2)|by intros [?|] w' [? ?]]. }
  destruct Hsb as [Htext Hroom]. change (de_sb d2) with (de_sb d) in *.
  apply post_bind. unfold write_entry. pose proof (entry_text_length fd handle sh f) as Hlen.
  rewrite (proj2 (Z.ltb_lt _ _) Hlen). rewrite Htext. rewrite (proj2 (Z.leb_le _ (sb_n sb))) by lia. cbn [andb].
  apply post_ret. set (d3 := Described _ _ _).
  eapply post_impl; [apply (IH (fd + 1) d3 w3)|].
  { by apply (holds_same _ _ w2). }
  { unfold room. cbn [d3 de_sb sb_text sb_n]. rewrite length_app. lia. }
  intros [d'|] w'; [|done]. intros (H3' & (gs & Hg1 & Hg2 & Hg3 & Hg4 & Hg5 & Hg6) & H4'). split; [done|]. split; [|done].
  exists ((handle, sh) :: gs). cbn [inherited count_handles]. rewrite Ec. cbn [length zip_with concat].
  cbn [d3 d2 d1 de_handles de_sb sb_text] in Hg3, Hg4, Hg6.
  assert (Hgiven : given (fd, f) (handle, sh) = handle :: more)
    by (unfold given; cbn [fst snd]; destruct (fr_cursor f); [by rewrite Hmore|by destruct Hmore as [-> _]]).
  split; [by rewrite Hg1|]. split; [by constructor|]. split; [rewrite Hg3, Hgiven, <- !app_assoc; done|].
  split; [rewrite Hg4, !length_app; destruct (fr_cursor f); [rewrite Hmore|destruct Hmore as [-> _]]; cbn; lia|].
  split; [constructor; [|done]; cbn [fst snd]; intros Hc; rewrite Hc in Hmore; by destruct Hmore|].
  rewrite Hg6, <- app_assoc. done.
Qed.

Lemma describe_post fds stdio w :
  post (describe_fds fds stdio) w (fun r w' =>
    match r with
    | None => creator_open w' = creator_open w
    | Some d' => holds (creator_open w) (de_handles d') w' /\ room (de_sb d') /\
        table_done 0 fds (Described [] stdio (Builder FDS_VAR (Z.of_nat (length FDS_VAR) + 1))) d'
    end).
Proof.
  unfold describe_fds. set (n := Z.of_nat (length FDS_VAR) + 1). apply post_bind, post_step.
  pose proof (alloc_keeps n w) as Ha. destruct (df_alloc n w) as [[] w1]; cbn [snd negb] in *; [|by apply post_ret].
  set (m := 8 * _). apply post_bind, post_step.
  pose proof (alloc_keeps m w1) as Hb. destruct (df_alloc m w1) as [[] w2]; cbn [snd negb] in *; [|apply post_ret; congruence].
  apply post_bind. eapply post_impl; [apply (describe_loop_post (creator_open w))|].
  - split; [constructor|]. split; [by intros h ?%elem_of_nil|]. rewrite Hb, Ha. cbn. set_solver.
  - unfold room. cbn [de_sb sb_text sb_n]. lia.
  - intros [d'|] w'; [|by intros; apply post_ret]. intros (Hh & Ht & Hr). pose proof Ht as (gs & _ & _ & _ & Hl & _).
    cbn [de_handles length Nat.add] in Hl. rewrite Hl, Nat.eqb_refl. apply post_ret. by split; [|split].
Qed.

(** Describing the table never writes past its buffer nor trips its
    assertions, and on any failure, of a duplication, of a cursor's map or of
    memory, the creator has exactly the handles it had; on success it has
    those and the explicit ones listed, one for each inherited descriptor and
    one for each of their cursors, no handle twice. *)
Theorem describe_leaks_nothing fds stdio w :
  post (describe_fds fds stdio) w (fun r w' =>
    match r with
    | None => creator_open w' = creator_open w
    | Some d => creator_open w' = list_to_set (de_handles d) ∪ creator_open w /\ NoDup (de_handles d) /\
        length (de_handles d) = count_handles fds /\ (forall h, h ∈ de_handles d -> h ∉ creator_open w)
    end).
Proof.
  eapply post_impl; [apply describe_post|]. intros [d|] w'; [|done]. intros ((Hn & Hb & Ho) & _ & (gs & _ & _ & _ & Hl & _)).
  by split; [|split; [|split]].
Qed.

(** C26: The child gets the table back: taken apart at its separators, the
    string has an entry for each inherited descriptor, in order and no other,
    with its kind, flags, mode and socket, the duplicate made for it and the
    one of its cursor, 0 where it has none; and those are the explicit
    handles. *)
Theorem describe_reads_back fds stdio w : Forall row_ok fds -> Z.of_nat (length fds) < 2 ^ 31 ->
  post (describe_fds fds stdio) w (fun r _ =>
    match r with
    | None => True
    | Some d => exists gs, length gs = length (inherited 0 fds) /\
        parse_fds (sb_text (de_sb d)) = map Some (zip_with entry_of (inherited 0 fds) gs) /\
        de_handles d = concat (zip_with given (inherited 0 fds) gs) /\
        Forall2 (fun r g => fr_cursor (snd r) = None -> snd g = 0) (inherited 0 fds) gs
    end).
Proof.
  intros Hrows Hlen. eapply post_impl; [apply describe_post|]. intros [d|] w'; [|done].
  intros (_ & _ & (gs & Hg1 & Hg2 & Hg3 & _ & Hg5 & Hg6)). exists gs. cbn [de_handles de_sb sb_text app] in *.
  split; [done|]. split; [|by split]. rewrite Hg6.
  assert (Hin : Forall (fun r => int64 (fst r) /\ row_ok (snd r)) (inherited 0 fds)).
  { assert (Hgen : forall fd, 0 <= fd -> fd + Z.of_nat (length fds) < 2 ^ 32 -> Forall (fun r => int64 (fst r) /\ row_ok (snd r)) (inherited fd fds)).
    { clear -Hrows. induction Hrows as [|f fds Hf Hrows IH]; intros fd Hp Hl; cbn [inherited]; [constructor|]. cbn [length] in Hl.
      destruct (is_cloexec f); [apply IH; lia|]. constructor; [|apply IH; lia]. cbn. split; [unfold int64; lia|done]. }
    apply Hgen; lia. }
  set (rows := inherited 0 fds) in *. clearbody rows. clear -Hg1 Hg2 Hin.
  rewrite <- (parse_fds_entries (zip_with entry_of rows gs)).
  - do 2 f_equal. revert gs Hg1 Hg2. induction rows as [|[fd f] rows IH]; intros [|[h sh] gs] Hg1 Hg2; try done.
    cbn [zip_with map concat text_of]. rewrite entry_text_fields. f_equal.
    apply Forall_cons in Hin as [_ Hin]. apply Forall_cons in Hg2 as [_ Hg2]. apply IH; [done|by injection Hg1|done].
  - revert gs Hg1 Hg2. induction Hin as [|[fd f] rows [Hfd Hf] Hin IH]; intros [|[h sh] gs] Hg1 Hg2; try constructor.
    + apply Forall_cons in Hg2 as [[Hh Hs] _]. cbn in Hh, Hs, Hfd. unfold row_ok in Hf. cbn [snd] in Hf.
      rewrite !Forall_cons in Hf. unfold entry_ok. rewrite !Forall_cons. cbn. tauto.
    + apply Forall_cons in Hg2 as [_ Hg2]. apply IH; [by injection Hg1|done].
Qed.
End proofs.

(** ** A host to evaluate on *)

Section toy.

(** The creator's handles, and the next number it gives. *)
Notation toy := (gset Z * Z)%type.

Definition fd_values : list (string * Z) :=
  [ ("kFdEmpty", 0); ("kFdReserved", 1); ("kFdZip", 4); ("kFdEpoll", 6); ("O_CLOEXEC", 0x80000) ]%string.

#[local] Instance fd_consts : HostConsts := {|
  host_const name := default 0 (snd <$> List.find (fun row => String.eqb (fst row) name) fd_values);
  host_defines _ := true |}.

#[local] Instance toy_describe : DescribeHost toy := {
  df_duplicate _ w := (if snd w <? 2 ^ 62 then Some (Z.max 0 (snd w)) else None,
                       if snd w <? 2 ^ 62 then ({[Z.max 0 (snd w)]} ∪ fst w, Z.max 0 (snd w) + 1) else w);
  df_close_source h w := (fst w ∖ {[h]}, snd w);
  df_maps_floor a _ := Some (a, a + 1);
  df_alloc _ w := (true, w);
  df_report _ _ w := w;
  df_set_efault w := w }.

(** Console, a file with a cursor that is not inherited, a file with one that
    is. *)
Definition toy_table : list fd_row :=
  [FdRow 2 20 2 0 None 0 0 0; FdRow 3 24 0x80001 420 (Some 4096) 0 0 0; FdRow 3 28 1 420 (Some 8192) 0 0 0].

Definition toy_world : toy := (∅, 100).

Definition toy_open (w : toy) : gset Z := filter (fun x => x < Z.max 0 (snd w)) (fst w).

#[local] Instance toy_laws : DescribeLaws toy.
Proof.
  refine {| creator_open := toy_open |}; try done.
  - intros h w. cbn [df_duplicate toy_describe]. unfold toy_open. destruct (Z.ltb_spec (snd w) (2 ^ 62)); [|done].
    split; [intros Hin%elem_of_filter; lia|]. split; [|lia]. apply set_eq. intros x. cbn [fst snd].
    rewrite elem_of_filter, !elem_of_union, elem_of_filter, !elem_of_singleton. split.
    + intros [Hlt [->|Hx]]; [by left|]. destruct (decide (x = Z.max 0 (snd w))); [by left|right]. split; [lia|done].
    + intros [->|[Hlt Hx]]; (split; [lia|]); [by left|by right].
  - intros h w. unfold toy_open. cbn. apply set_eq. intros x. rewrite elem_of_filter, !elem_of_difference, elem_of_filter. tauto.
Defined.

(** The string. *)
Example toy_text :
  (d ← describe_fds toy_table [20; 28; -1]; mret ((fun d => (sb_text (de_sb d), de_handles d, de_stdio d)) <$> d)) toy_world =
  Some (Some (bytes "_COSMO_FDS_V2=0_100_2_2_0_0_0_0_0;2_101_3_1_420_102_0_0_0;", [100; 101; 102], [100; 101; -1]), ({[102; 101; 100]}, 103)).
Proof. vm_compute. reflexivity. Qed.

(** A duplicate whose number is that of a later descriptor of this process: the
    standard handle already replaced is replaced again. *)
Example stdio_replaced_twice :
  (d ← describe_fds [FdRow 3 20 0 0 None 0 0 0; FdRow 3 100 0 0 None 0 0 0] [20]; mret (de_stdio <$> d)) toy_world =
  Some (Some [101], ({[101; 100]}, 102)).
Proof. vm_compute. reflexivity. Qed.
Lemma describe_reads_back_witness : Forall row_ok toy_table /\ exists d w gs,
  describe_fds toy_table [20; 28; -1] toy_world = Some (Some d, w) /\
  parse_fds (sb_text (de_sb d)) = map Some (zip_with entry_of (inherited 0 toy_table) gs) /\
  de_handles d = concat (zip_with given (inherited 0 toy_table) gs).
Proof.
  assert (Hrows : Forall row_ok toy_table) by (repeat (apply Forall_cons_2; [repeat (apply Forall_cons_2; [done|]); apply Forall_nil_2|]); apply Forall_nil_2).
  split; [exact Hrows|].
  pose proof (describe_reads_back toy_table [20; 28; -1] toy_world Hrows ltac:(cbn; lia)) as Hp.
  apply post_run in Hp as ([d|] & w & Hr & Hd).
  - destruct Hd as (gs & _ & Ht & Hh & _). exists d, w, gs. split; [exact Hr|]. split; [exact Ht|exact Hh].
  - exfalso. apply (f_equal (fun r => match r with Some (Some _, _) => true | _ => false end)) in Hr. vm_compute in Hr. discriminate Hr.
Defined.
End toy.
