(* ===== verification/Materialize.v ===== *)
(** * shim/procfs/core/materialize.c, /proc brought up to date on Windows

    The files that stand for /proc on disk and the cache in front of the
    generators: a table of slots, one per process seen lately, with the last
    generation of its volatile files, the texts fixed for its lifetime and
    what has been written. What the generators answer is a function of the
    time, which a call reads once. The theorems: a process has one slot, in
    its window; what is handed out was generated for that process not longer
    ago than the throttle; the stamp of a generation names its content; and a
    recycled pid never shows its predecessor's texts. *)
From S2P Require Import Prelude Host PfsText ProcFs.

Definition ROOT_LIST_MS : Z := 1000.
Definition PID_DIR_MS : Z := 200.
Definition NET_MS : Z := 250.
Definition NSLOTS : Z := 2048.

(** struct pfs_buf: the text so far, and whether memory ran out. *)
Record buf := Buf { bf_text : cstr; bf_oom : bool }.
Definition no_buf : buf := Buf [] false.

(** struct pidslot *)
Record pidslot := PidSlot {
  ps_pid : Z; ps_ms : Z; ps_start : Z; ps_vol : list buf; ps_fixed : list buf; ps_written : Z;
  ps_fd_digest : Z; ps_fd_ms : Z; ps_net_ms : Z; ps_present : bool; ps_task_digest : Z }.

Definition empty_slot : pidslot := PidSlot 0 0 0 (replicate 4 no_buf) (replicate 3 no_buf) 0 0 0 0 false 0.

(** The statics of the file; a throttle never used is 0. *)
Record carrier := Carrier { ca_slots : gmap nat pidslot; ca_top : gmap nat Z; ca_static : bool; ca_net : Z; ca_root : Z }.
Definition no_carrier : carrier := Carrier ∅ ∅ false 0 0.

(** What is done to the disk, in order. *)
Inductive act := Mkdir (path : cstr) | WriteFile (path text : cstr) | RmRf (path : cstr).

(** What the generators and the disk answer at a time. A generator's bool is
    whether it knows the file; [env_volatile] is also the start time. *)
Class PcEnv := {
  pc_root : cstr;
  env_volatile : Z -> Z -> option (list buf * Z);
  env_file : Z -> cstr -> Z -> bool * buf;
  env_top : cstr -> Z -> bool * buf;
  env_net : cstr -> Z -> bool * buf;
  env_sys : cstr -> Z -> bool * buf;
  env_link : Z -> cstr -> Z -> option cstr;
  env_find : Z -> Z -> bool;
  env_procs : Z -> list Z;
  env_threads : Z -> Z -> list Z;
  env_self_fds : Z -> list (Z * cstr);
  env_net_fds : Z -> Z -> list Z;
  env_exists : cstr -> Z -> bool;
  env_dir : cstr -> Z -> option (list cstr);
  pfs_sys_dirs : list cstr;
  pfs_sys_files : list cstr }.

Section ops.
Context `{PcEnv, Pids}.

(** [snprintf(path, sizeof path, ...)] *)
Definition under (dir : cstr) (name : cstr) : cstr := cut 600 (dir ++ [47] ++ name).

Definition gen_to_file (path : cstr) (g : bool * buf) : list act :=
  if fst g && negb (bf_oom (snd g)) then [WriteFile path (bf_text (snd g))] else [].

Fixpoint name_index_from (i : nat) (names : list cstr) (name : cstr) : option nat :=
  match names with
  | [] => None
  | n :: names => if bool_decide (n = name) then Some i else name_index_from (S i) names name
  end.
Definition name_index : list cstr -> cstr -> option nat := name_index_from 0.

(** ** The throttled files *)

Definition set_top (top : gmap nat Z) (c : carrier) : carrier := Carrier (ca_slots c) top (ca_static c) (ca_net c) (ca_root c).

Definition ensure_top_file (name : cstr) (t : Z) (c : carrier) : carrier * list act :=
  match name_index pfs_top_files name with
  | None => (c, [])
  | Some i =>
      let last := default 0 (ca_top c !! i) in
      if (i <? 16)%nat && negb (last =? 0) && (t - last <? PID_DIR_MS) then (c, [])
      else (if (i <? 16)%nat then set_top (<[i := t]> (ca_top c)) c else c, gen_to_file (under pc_root name) (env_top name t))
  end.

Fixpoint ensure_top_files (names : list cstr) (t : Z) (c : carrier) : carrier * list act :=
  match names with
  | [] => (c, [])
  | n :: names =>
      let '(c, a1) := ensure_top_file n t c in
      let '(c, a2) := ensure_top_files names t c in
      (c, a1 ++ a2)
  end.

Definition ensure_static (t : Z) (c : carrier) : carrier * list act :=
  if ca_static c then (c, [])
  else
    let c := Carrier (ca_slots c) (ca_top c) true (ca_net c) (ca_root c) in
    let net := map (fun f => WriteFile (under pc_root (bytes "net/" ++ f)) []) pfs_net_files in
    let dirs := map (fun d => Mkdir (under pc_root (bytes "sys/" ++ d))) pfs_sys_dirs in
    let files := concat (map (fun f => gen_to_file (under pc_root (bytes "sys/" ++ f)) (env_sys f t)) pfs_sys_files) in
    let '(c, top) := ensure_top_files pfs_top_files t c in
    (c, [Mkdir (under pc_root (bytes "net"))] ++ net ++ [Mkdir (under pc_root (bytes "sys"))] ++ dirs ++ files ++ top ++
        [Mkdir (under pc_root (bytes "self"))]).

Definition ensure_net (t : Z) (c : carrier) : carrier * list act :=
  if negb (ca_net c =? 0) && (t - ca_net c <? NET_MS) then (c, [])
  else (Carrier (ca_slots c) (ca_top c) (ca_static c) t (ca_root c),
        concat (map (fun f => gen_to_file (under pc_root (bytes "net/" ++ f)) (env_net f t)) pfs_net_files)).

(** ** The slots *)

Definition slot_hash (pid : Z) : Z := Z.shiftr (u32 (pid * 2654435761)) 16.
Definition probe (pid i : Z) : nat := Z.to_nat (Z.land (slot_hash pid + i) (NSLOTS - 1)).

Definition slot_at (c : carrier) (k : nat) : pidslot := default empty_slot (ca_slots c !! k).
Definition put_slot (k : nat) (s : pidslot) (c : carrier) : carrier :=
  Carrier (<[k := s]> (ca_slots c)) (ca_top c) (ca_static c) (ca_net c) (ca_root c).

(** The slot with the pid, or else the one refreshed the longest ago. *)
Fixpoint find_slot (c : carrier) (pid : Z) (steps : list Z) (oldest : option nat) : nat * bool :=
  match steps with
  | [] => (default 0%nat oldest, false)
  | i :: steps =>
      let k := probe pid i in
      if ps_pid (slot_at c k) =? pid then (k, true)
      else find_slot c pid steps
             (match oldest with
              | None => Some k
              | Some o => Some (if ps_ms (slot_at c k) <? ps_ms (slot_at c o) then k else o)
              end)
  end.

Definition fresh_slot (pid : Z) : pidslot := PidSlot pid 0 0 (replicate 4 no_buf) (replicate 3 no_buf) 0 0 0 0 false 0.

Definition slot_of (pid : Z) (c : carrier) : nat * carrier :=
  let '(k, found) := find_slot c pid (seqZ 0 8) None in
  (k, if found then c else put_slot k (fresh_slot pid) c).

(** The slot brought up to date, [None] for a process that is not there. *)
Definition pid_refresh (pid t : Z) (c : carrier) : option nat * carrier :=
  let '(k, c) := slot_of pid c in
  let s := slot_at c k in
  if negb (ps_ms s =? 0) && (t - ps_ms s <? PID_DIR_MS) then (if ps_start s =? 0 then None else Some k, c)
  else
    match env_volatile pid t with
    | None => (None, put_slot k (PidSlot (ps_pid s) t 0 (replicate 4 no_buf) (ps_fixed s) (ps_written s) (ps_fd_digest s)
                                   (ps_fd_ms s) (ps_net_ms s) false (ps_task_digest s)) c)
    | Some (vol, start) =>
        let same := start =? ps_start s in
        (Some k, put_slot k (PidSlot (ps_pid s) t start vol (if same then ps_fixed s else replicate 3 no_buf) (ps_written s)
                               (ps_fd_digest s) (ps_fd_ms s) (ps_net_ms s) (same && ps_present s) (ps_task_digest s)) c)
    end.

(** ** Content for a reader *)

(** [None] is false: no such file, no such process, or no memory. *)
Definition pc_pid_content (pid : Z) (name : cstr) (t : Z) (c : carrier) : option cstr * carrier :=
  match name_index pfs_pid_volatile name with
  | Some vi =>
      let '(k, c) := pid_refresh pid t c in
      match k with
      | None => (None, c)
      | Some k =>
          let b := nth vi (ps_vol (slot_at c k)) no_buf in
          (if bf_oom b then None else Some (bf_text b), c)
      end
  | None =>
      match name_index pfs_pid_stable name with
      | None => (None, c)
      | Some si =>
          if (si <? 2)%nat || ((si =? 2)%nat && negb (pid =? pfs_self_pid)) then
            let '(k, c) := pid_refresh pid t c in
            match k with
            | None => (None, c)
            | Some k =>
                let s := slot_at c k in
                let b := nth si (ps_fixed s) no_buf in
                let have := negb (bool_decide (bf_text b = [])) || bf_oom b in
                let '(ok, b') := if have then (true, b) else env_file pid name t in
                let c := put_slot k (PidSlot (ps_pid s) (ps_ms s) (ps_start s) (ps_vol s) (<[si := b']> (ps_fixed s)) (ps_written s)
                                       (ps_fd_digest s) (ps_fd_ms s) (ps_net_ms s) (ps_present s) (ps_task_digest s)) c in
                (if negb ok || bf_oom b' then None else Some (bf_text b'), c)
            end
          else if negb (env_find pid t) then (None, c)
          else let '(ok, b) := env_file pid name t in (if (ok : bool) then Some (bf_text b) else None, c)
      end
  end.

(** The volatile file of a process a path names, itself or by a thread. *)
Definition volatile_name (n : node) : option nat :=
  match n_kind n with
  | K_PID_SUB =>
      match n_rest n with
      | [] => name_index pfs_pid_volatile (n_name n)
      | rest =>
          if bool_decide (n_name n = bytes "task") then
            match drop (name_len rest) rest with
            | _ :: f => if has_slash f then None else name_index pfs_pid_volatile f
            | [] => None
            end
          else None
      end
  | _ => None
  end.

Definition pc_content_gen (vpath : cstr) (t : Z) (c : carrier) : Z * carrier :=
  if negb (bool_decide (take 6 vpath = bytes "/proc/")) then (0, c)
  else
    let n := pc_parse (drop 6 vpath) in
    match volatile_name n with
    | None => (0, c)
    | Some _ =>
        let '(k, c) := slot_of (n_pid n) c in
        let s := slot_at c k in
        if negb (ps_pid s =? n_pid n) || (ps_start s =? 0) then (0, c)
        else if PID_DIR_MS <=? t - ps_ms s then (0, c)
        else (ps_ms s, c)
    end.

(** ** One process on disk *)

Definition FNV_BASIS : Z := 0xcbf29ce484222325.

(** Order independent, and never 0. *)
Definition tid_set_digest (tids : list Z) : Z :=
  let h := foldl (fun h tid => let x := (tid * 0x9e3779b97f4a7c15) mod 2 ^ 64 in
                               (h + Z.lxor x (Z.shiftr x 29)) mod 2 ^ 64) FNV_BASIS tids in
  if h =? 0 then 1 else h.

Definition tid_listed (tids : list Z) (tid : Z) : bool := existsb (fun x => x =? tid) tids.

(** A directory entry that starts with a digit. *)
Definition is_numbered (name : cstr) : bool := is_digit name.[0].

Definition with_digests (task fd fdms netms : Z) (s : pidslot) : pidslot :=
  PidSlot (ps_pid s) (ps_ms s) (ps_start s) (ps_vol s) (ps_fixed s) (ps_written s) fd fdms netms (ps_present s) task.

Definition materialize_task (s : pidslot) (pid t : Z) (dir : cstr) : pidslot * list act :=
  let tids := match take 512 (env_threads pid t) with [] => [pid] | tids => tids end in
  let d := tid_set_digest tids in
  if d =? ps_task_digest s then (s, [])
  else
    let path := under dir (bytes "task") in
    let gone := if env_exists path t then
                  match env_dir path t with
                  | Some names =>
                      concat (map (fun n => if negb (is_numbered n) then []
                                            else if tid_listed tids (strtoul n) then []
                                            else [RmRf (under dir (bytes "task/" ++ decimal (strtoul n)))]) names)
                  | None => []
                  end
                else [] in
    (with_digests d (ps_fd_digest s) (ps_fd_ms s) (ps_net_ms s) s,
     [Mkdir path] ++ gone ++ map (fun tid => Mkdir (under dir (bytes "task/" ++ decimal tid))) tids).

Definition materialize_pid_net (t : Z) (dir : cstr) : list act :=
  Mkdir (under dir (bytes "net")) ::
  concat (map (fun f => gen_to_file (under dir (bytes "net/" ++ f)) (env_net f t)) pfs_net_files).

(** The bytes of an int or a 64-bit number in memory. *)
Fixpoint le_bytes (n : nat) (x : Z) : list Z :=
  match n with O => [] | S n => (x mod 256) :: le_bytes n (x / 256) end.

Definition fd_files (dir : cstr) (entries : list (Z * cstr)) : list act :=
  [RmRf (under dir (bytes "fd")); Mkdir (under dir (bytes "fd"))] ++
  map (fun e => WriteFile (under dir (bytes "fd/" ++ signed (fst e))) (snd e)) entries.

(** fd/: the own table, or the sockets of another process by rank. *)
Definition materialize_fd (s : pidslot) (pid t : Z) (dir : cstr) : pidslot * list act :=
  if negb (ps_fd_ms s =? 0) && (t - ps_fd_ms s <? PID_DIR_MS) then (s, [])
  else
    let entries := if pid =? pfs_self_pid then take 512 (env_self_fds t)
                   else imap (fun k ino => (Z.of_nat k, bytes "socket:[" ++ decimal ino ++ bytes "]")) (take 256 (env_net_fds pid t)) in
    let d := if pid =? pfs_self_pid then foldl (fun h e => pc_fnv64 (snd e) (pc_fnv64 (le_bytes 4 (fst e)) h)) FNV_BASIS entries
             else pc_fnv64 (concat (map (le_bytes 8) (take 256 (env_net_fds pid t)))) FNV_BASIS in
    let changed := negb (d =? ps_fd_digest s) in
    (with_digests (ps_task_digest s) d t (ps_net_ms s) s, if changed then fd_files dir entries else []).

Definition mark (bit : Z) (s : pidslot) : pidslot :=
  PidSlot (ps_pid s) (ps_ms s) (ps_start s) (ps_vol s) (ps_fixed s) (Z.lor (ps_written s) (Z.shiftl 1 bit)) (ps_fd_digest s)
    (ps_fd_ms s) (ps_net_ms s) (ps_present s) (ps_task_digest s).

Definition is_marked (bit : Z) (s : pidslot) : bool := has (ps_written s) (Z.shiftl 1 bit).

(** A directory met for the first time in this incarnation. *)
Definition arrive (dir : cstr) (s : pidslot) : pidslot * list act :=
  if ps_present s then (s, [])
  else (PidSlot (ps_pid s) (ps_ms s) (ps_start s) (ps_vol s) (ps_fixed s) 0 0 0 0 true 0, [Mkdir dir]).

(** The entry of a process's directory, on first access by name. *)
Definition ensure_entry (s : pidslot) (pid : Z) (name : cstr) (t : Z) (dir : cstr) : pidslot * list act :=
  match name_index pfs_pid_volatile name with
  | Some vi =>
      let b := nth vi (ps_vol s) no_buf in
      if negb (is_marked (24 + Z.of_nat vi) s) && negb (bf_oom b)
      then (mark (24 + Z.of_nat vi) s, [WriteFile (under dir name) (bf_text b)]) else (s, [])
  | None =>
      match name_index pfs_pid_stable name with
      | Some si =>
          if negb (is_marked (Z.of_nat si) s)
          then (mark (Z.of_nat si) s, gen_to_file (under dir name) (env_file pid name t)) else (s, [])
      | None =>
          match name_index link_names name with
          | Some li =>
              if negb (is_marked (16 + Z.of_nat li) s)
              then (mark (16 + Z.of_nat li) s,
                    match env_link pid name t with Some l => [WriteFile (under dir name) l] | None => [] end)
              else (s, [])
          | None =>
              if bool_decide (name = bytes "fd") then materialize_fd s pid t dir
              else if bool_decide (name = bytes "task") then materialize_task s pid t dir
              else if bool_decide (name = bytes "net") then
                if NET_MS <=? t - ps_net_ms s
                then (with_digests (ps_task_digest s) (ps_fd_digest s) (ps_fd_ms s) t s, materialize_pid_net t dir)
                else (s, [])
              else (s, [])
          end
      end
  end.

Definition pc_ensure_pid (pid : Z) (name : option cstr) (t : Z) (c : carrier) : carrier * list act :=
  let '(k, c) := pid_refresh pid t c in
  match k with
  | None => (c, [])
  | Some k =>
      let dir := under pc_root (decimal pid) in
      let '(s, a1) := arrive dir (slot_at c k) in
      match name with
      | None => (put_slot k s c, a1)
      | Some name => let '(s, a2) := ensure_entry s pid name t dir in (put_slot k s c, a1 ++ a2)
      end
  end.

(** ** The root, and any path *)

Definition ensure_root_listing (t : Z) (c : carrier) : carrier * list act :=
  if negb (ca_root c =? 0) && (t - ca_root c <? ROOT_LIST_MS) then (c, [])
  else
    let c := Carrier (ca_slots c) (ca_top c) (ca_static c) (ca_net c) t in
    match env_procs t with
    | [] => (c, [])
    | procs =>
        let gone := match env_dir pc_root t with
                    | Some names =>
                        concat (map (fun n => if negb (is_numbered n) then []
                                              else if tid_listed procs (u32 (strtoul n)) then []
                                              else [RmRf (under pc_root n)]) names)
                    | None => []
                    end in
        let '(c, top) := ensure_top_files pfs_top_files t c in
        (c, gone ++ map (fun pid => Mkdir (under pc_root (decimal pid))) procs ++ top)
    end.

Definition pc_ensure_node (n : node) (t : Z) (c : carrier) : carrier * list act :=
  match n_kind n with
  | K_ROOT => ensure_root_listing t c
  | K_TOP => ensure_top_file (n_name n) t c
  | K_NET_DIR | K_NET_FILE => ensure_net t c
  | K_PID_DIR => pc_ensure_pid (n_pid n) None t c
  | K_PID_SUB => pc_ensure_pid (n_pid n) (Some (n_name n)) t c
  | K_SYS =>
      (c, if bool_decide (n_rest n = bytes "kernel/random/uuid")
          then gen_to_file (under pc_root (bytes "sys/" ++ n_rest n)) (env_sys (n_rest n) t) else [])
  | K_OTHER => (c, [])
  end.


(** The rewrite of a /proc path, for a buffer of [outsz]; [None] leaves the
    path alone. [busy] is one's own write, [rooted] whether the skeleton's
    root is there. Paths of /sys go to sysfs.c's tables. *)
Definition procfs_rewrite (windows busy rooted : bool) (path : cstr) (outsz : nat) (t : Z) (c : carrier)
  : option cstr * carrier * list act :=
  if negb windows || busy then (None, c, [])
  else if negb (bool_decide (take 5 path = bytes "/proc")) || negb ((path.[5] =? 0) || (path.[5] =? 47)) then (None, c, [])
  else if negb rooted then (None, c, [])
  else
    let '(c, a1) := ensure_static t c in
    let n := pc_parse (drop 5 path) in
    let '(c, a2) := pc_ensure_node n t c in
    let out := pc_root ++ pc_phys_suffix n (drop 5 path) 300 in
    (if (length out <? outsz)%nat then Some out else None, c, a1 ++ a2).

(** Everything a listing of a process's directory shows. *)
Definition listed_names : list (option cstr) :=
  None :: map Some (pfs_pid_volatile ++ pfs_pid_stable ++ map bytes ["exe"; "cwd"; "root"; "task"; "net"; "fd"]%string).

Fixpoint ensure_all (pid : Z) (names : list (option cstr)) (t : Z) (c : carrier) : carrier * list act :=
  match names with
  | [] => (c, [])
  | n :: names =>
      let '(c, a1) := pc_ensure_pid pid n t c in
      let '(c, a2) := ensure_all pid names t c in
      (c, a1 ++ a2)
  end.

Definition list_pid (rooted : bool) (pid t : Z) (c : carrier) : carrier * list act :=
  if rooted then ensure_all pid listed_names t c else (c, []).

Definition procfs_list (windows busy rooted : bool) (vpath : cstr) (t : Z) (c : carrier) : carrier * list act :=
  if negb windows || busy then (c, [])
  else if negb (bool_decide (take 5 vpath = bytes "/proc")) || negb ((vpath.[5] =? 0) || (vpath.[5] =? 47)) then (c, [])
  else
    let n := pc_parse (drop 5 vpath) in
    match n_kind n with K_PID_DIR => list_pid rooted (n_pid n) t c | _ => (c, []) end.

(** What follows the first [marker] in a wide path. *)
Fixpoint behind (marker : cstr) (file : list Z) : option (list Z) :=
  if bool_decide (take (length marker) file = marker) then Some (drop (length marker) file)
  else match file with [] => None | _ :: file => behind marker file end.

Fixpoint until_nul (w : list Z) : list Z :=
  match w with c :: w => if c =? 0 then [] else c :: until_nul w | [] => [] end.

(** A path of the tree reached through a descriptor. *)
Definition procfs_relative (windows busy rooted : bool) (file : list Z) (t : Z) (c : carrier) : carrier * list act :=
  if negb windows || busy || negb rooted then (c, [])
  else
    match behind (cut 64 (bytes "rust-ape-proc-" ++ signed getpid ++ [92])) file with
    | None => (c, [])
    | Some rest =>
        let virt := take 593 (map (fun u => if u =? 92 then 47 else if u <? 128 then u else 95) (until_nul rest)) in
        pc_ensure_node (pc_parse (47 :: virt)) t c
    end.
End ops.

(** ** The steps of the cache

    Whatever reaches the slots: the texts asked for, the stamps, and the
    ensures, each at the time it reads. *)
Inductive step `{PcEnv, Pids} (t : Z) (c : carrier) : carrier -> Prop :=
| step_content pid name : 0 < pid -> step t c (snd (pc_pid_content pid name t c))
| step_gen path : 0 < n_pid (pc_parse (drop 6 path)) -> step t c (snd (pc_content_gen path t c))
| step_node n : 0 < n_pid n -> step t c (fst (pc_ensure_node n t c))
| step_static : step t c (fst (ensure_static t c)).

(** What has been reached by a time, from nothing. *)
Inductive reached `{PcEnv, Pids} : Z -> carrier -> Prop :=
| reached_none t : 0 < t -> reached t no_carrier
| reached_step t t' c c' : reached t c -> t <= t' -> step t' c c' -> reached t' c'.

(** A text of a process fixed for its lifetime, made while it was the
    process of that start time. *)
Definition made_for `{PcEnv} (pid start : Z) (si : nat) (now : Z) (b : buf) : Prop :=
  exists name t g vol,
    name_index pfs_pid_stable name = Some si /\ snd (env_file pid name t) = b /\
    env_volatile pid g = Some (vol, start) /\ g <= t < g + PID_DIR_MS /\ t <= now.

(** A slot of a process that is there holds one answer of the generator, and
    fixed texts of that process. *)
Definition slot_ok `{PcEnv} (now : Z) (s : pidslot) : Prop :=
  0 <= ps_ms s <= now /\ length (ps_fixed s) = 3%nat /\
  (ps_start s <> 0 ->
   ps_ms s <> 0 /\ env_volatile (ps_pid s) (ps_ms s) = Some (ps_vol s, ps_start s) /\
   forall si b, ps_fixed s !! si = Some b -> b <> no_buf -> made_for (ps_pid s) (ps_start s) si now b).

(** A process has at most one slot, and it is one its probes meet. *)
Definition homes_ok (c : carrier) : Prop :=
  (forall k, ps_pid (slot_at c k) <> 0 -> exists i, 0 <= i < 8 /\ k = probe (ps_pid (slot_at c k)) i) /\
  (forall k k', ps_pid (slot_at c k) = ps_pid (slot_at c k') -> ps_pid (slot_at c k) <> 0 -> k = k').

Definition carrier_ok `{PcEnv} (now : Z) (c : carrier) : Prop :=
  0 < now /\ homes_ok c /\ forall k, slot_ok now (slot_at c k).

Section slots.
Context `{PcEnv, Pids}.

Lemma slot_at_put k s c k' : slot_at (put_slot k s c) k' = if decide (k = k') then s else slot_at c k'.
Proof.
  unfold slot_at, put_slot. cbn. case_decide as E; [subst; by rewrite lookup_insert_eq|by rewrite lookup_insert_ne].
Qed.

Lemma find_slot_spec c pid steps o k found :
  find_slot c pid steps o = (k, found) ->
  if found then ps_pid (slot_at c k) = pid /\ exists i, i ∈ steps /\ k = probe pid i
  else (forall i, i ∈ steps -> ps_pid (slot_at c (probe pid i)) <> pid) /\
       (steps <> [] \/ is_Some o -> (exists i, i ∈ steps /\ k = probe pid i) \/ o = Some k).
Proof.
  revert o. induction steps as [|i steps IH]; intros o E; cbn in E.
  - injection E as <- <-. split; [intros i Hi; by apply elem_of_nil in Hi|].
    intros [?|[o' ->]]; [done|by right].
  - destruct (Z.eqb_spec (ps_pid (slot_at c (probe pid i))) pid) as [Ep|Ep].
    + injection E as <- <-. split; [done|]. exists i. split; [left|done].
    + apply IH in E. destruct found.
      * destruct E as [? (j & ? & ?)]. split; [done|]. exists j. split; [by right|done].
      * destruct E as [Hn Hk]. split.
        -- intros j Hj. apply elem_of_cons in Hj as [->|Hj]; [done|by apply Hn].
        -- intros _. destruct (Hk ltac:(right; by destruct o)) as [(j & ? & ?)|Eo]; [left; exists j; split; [by right|done]|].
           destruct o as [o|]; [|left; exists i; split; [left|congruence]].
           destruct (ps_ms (slot_at c (probe pid i)) <? ps_ms (slot_at c o)); [left; exists i; split; [left|congruence]|right; congruence].
Qed.

Lemma in_steps i : i ∈ seqZ 0 8 <-> 0 <= i < 8.
Proof. rewrite elem_of_seqZ. lia. Qed.

(** The slot of a process, its own or one taken over. *)
Lemma slot_of_spec pid c k c' :
  slot_of pid c = (k, c') -> 
  ps_pid (slot_at c' k) = pid /\ (exists i, 0 <= i < 8 /\ k = probe pid i) /\
  (c' = c \/
   c' = put_slot k (fresh_slot pid) c /\ forall i, 0 <= i < 8 -> ps_pid (slot_at c (probe pid i)) <> pid).
Proof.
  unfold slot_of. destruct (find_slot c pid (seqZ 0 8) None) as [k1 found] eqn:E. intros [= <- <-].
  apply find_slot_spec in E. destruct found.
  - destruct E as [? (i & Hi & ?)]. apply in_steps in Hi. split; [done|]. split; [by exists i|by left].
  - destruct E as [Hn Hk]. destruct (Hk ltac:(by left)) as [(i & Hi & ->)|?]; [|done]. apply in_steps in Hi.
    split; [by rewrite slot_at_put, decide_True by done|]. split; [by exists i|]. right. split; [done|].
    intros j Hj. apply Hn, in_steps, Hj.
Qed.

Lemma homes_put k s c :
  homes_ok c -> ps_pid (slot_at c k) = ps_pid s -> homes_ok (put_slot k s c).
Proof.
  intros [Hw Hu] E. split.
  - intros j. rewrite slot_at_put. case_decide; [subst; rewrite <- E; apply Hw|apply Hw].
  - intros i j. rewrite !slot_at_put. repeat case_decide; subst; try done.
    + rewrite <- E. intros. by apply Hu.
    + rewrite <- E. intros. apply Hu; congruence.
    + intros. by apply Hu.
Qed.

Lemma homes_take pid c i :
  homes_ok c -> pid <> 0 -> 0 <= i < 8 -> (forall j, 0 <= j < 8 -> ps_pid (slot_at c (probe pid j)) <> pid) ->
  homes_ok (put_slot (probe pid i) (fresh_slot pid) c).
Proof.
  intros [Hw Hu] Hp Hi Hn.
  assert (Hno : forall k, ps_pid (slot_at c k) <> pid).
  { intros k E. destruct (Hw k) as (j & Hj & Ek); [congruence|]. apply (Hn j Hj). rewrite <- E, <- Ek. rewrite E. done. }
  split.
  - intros j. rewrite slot_at_put. case_decide; [subst; cbn; intros _; by exists i|apply Hw].
  - intros k k'. rewrite !slot_at_put. repeat case_decide; subst; try done; cbn.
    + intros E. by destruct (Hno k').
    + intros E. by destruct (Hno k).
    + intros. by apply Hu.
Qed.

Lemma slot_ok_fresh now pid : 0 < now -> slot_ok now (fresh_slot pid).
Proof. split; [cbn; lia|]. split; [done|]. cbn. done. Qed.

Lemma slot_ok_later now now' s : now <= now' -> slot_ok now s -> slot_ok now' s.
Proof.
  intros Hle (Hms & Hl & Hs). split; [lia|]. split; [done|]. intros Hst. destruct (Hs Hst) as (? & ? & Hf). split; [done|].
  split; [done|]. intros si b Hb Hne. destruct (Hf si b Hb Hne) as (name & t & g & vol & ? & ? & ? & ? & ?).
  exists name, t, g, vol. repeat split; try done; lia.
Qed.

Lemma carrier_ok_later now now' c : now <= now' -> carrier_ok now c -> carrier_ok now' c.
Proof. intros ? (? & ? & Hs). split; [lia|]. split; [done|]. intros k. eapply slot_ok_later; [done|apply Hs]. Qed.

Lemma carrier_ok_put now k s c :
  carrier_ok now c -> ps_pid (slot_at c k) = ps_pid s -> slot_ok now s -> carrier_ok now (put_slot k s c).
Proof.
  intros (? & Hh & Hs) E Hk. split; [done|]. split; [by apply homes_put|]. intros j. rewrite slot_at_put. by case_decide; subst.
Qed.

Lemma slot_of_ok now pid c k c' :
  carrier_ok now c -> pid <> 0 -> slot_of pid c = (k, c') -> carrier_ok now c' /\ ps_pid (slot_at c' k) = pid.
Proof.
  intros (? & Hh & Hs) Hp E. apply slot_of_spec in E as (Epid & (i & Hi & ->) & [->|[-> Hn]]); [done|].
  split; [|done]. split; [done|]. split; [by apply homes_take|]. intros j. rewrite slot_at_put.
  case_decide; [by apply slot_ok_fresh|apply Hs].
Qed.

(** Fields of a slot the content does not hang on. *)
Definition same_core (s s' : pidslot) : Prop :=
  ps_pid s = ps_pid s' /\ ps_ms s = ps_ms s' /\ ps_start s = ps_start s' /\ ps_vol s = ps_vol s' /\ ps_fixed s = ps_fixed s'.

Lemma slot_ok_core now s s' : same_core s s' -> slot_ok now s -> slot_ok now s'.
Proof. intros (E1 & E2 & E3 & E4 & E5). unfold slot_ok. by rewrite E1, E2, E3, E4, E5. Qed.

Lemma no_fixed si b : replicate 3 no_buf !! si = Some b -> b = no_buf.
Proof. by intros [-> _]%lookup_replicate. Qed.

(** What a refresh leaves: the slot of a process that is there was generated
    within the throttle. *)
Lemma pid_refresh_ok pid t c o c' :
  carrier_ok t c -> pid <> 0 -> pid_refresh pid t c = (o, c') ->
  carrier_ok t c' /\
  forall k, o = Some k ->
    ps_pid (slot_at c' k) = pid /\ t - PID_DIR_MS < ps_ms (slot_at c' k) <= t /\
    env_volatile pid (ps_ms (slot_at c' k)) = Some (ps_vol (slot_at c' k), ps_start (slot_at c' k)).
Proof.
  intros Hc Hp. unfold pid_refresh. destruct (slot_of pid c) as [k c1] eqn:E.
  destruct (slot_of_ok t pid c k c1 Hc Hp E) as [Hc1 Ep]. cbv zeta. clear E Hc.
  destruct (proj2 (proj2 Hc1) k) as (Hms & Hl & Hs). assert (Ht : 0 < t) by apply Hc1.
  destruct (Z.eqb_spec (ps_ms (slot_at c1 k)) 0) as [E0|E0]; cbn [negb andb].
  2: destruct (Z.ltb_spec (t - ps_ms (slot_at c1 k)) PID_DIR_MS) as [Hf|Hf].
  2: { intros [= <- <-]. split; [done|]. intros k'.
       destruct (Z.eqb_spec (ps_start (slot_at c1 k)) 0) as [|Est]; [done|]. intros [= <-].
       destruct (Hs Est) as (_ & Hv & _). rewrite Ep in Hv. split; [done|]. split; [lia|done]. }
  all: destruct (env_volatile pid t) as [[vol start]|] eqn:Ev; intros [= <- <-].
  2,4: split; [|done]; apply carrier_ok_put; [done|done|]; (split; [cbn; lia|]); (split; [done|]); cbn; done.
  all: split;
    [apply carrier_ok_put; [done|done|]
    |intros k' [= <-]; rewrite slot_at_put, decide_True by done; cbn; split; [done|]; split; [unfold PID_DIR_MS; lia|done]].
  all: split; [cbn; lia|]; split; [cbn; by destruct (start =? _)|]; cbn; intros Hst; split; [lia|]; split; [by rewrite Ep|].
  all: intros si b; destruct (Z.eqb_spec start (ps_start (slot_at c1 k))) as [Es|_];
    [rewrite Es in *; intros Hb Hne; exact (proj2 (proj2 (Hs Hst)) si b Hb Hne)
    |intros Hb Hne; by destruct (no_fixed si b Hb)].
Qed.

(** A put that keeps what the slot answers. *)
Lemma put_core t k s c : carrier_ok t c -> same_core (slot_at c k) s -> carrier_ok t (put_slot k s c).
Proof. intros Hc Hs. apply carrier_ok_put; [done|apply Hs|]. eapply slot_ok_core; [done|apply Hc]. Qed.

Lemma same_slots t c c' : ca_slots c = ca_slots c' -> carrier_ok t c -> carrier_ok t c'.
Proof. intros E. unfold carrier_ok, homes_ok, slot_at. by rewrite E. Qed.

Lemma name_index_from_bound i names name k :
  name_index_from i names name = Some k -> (i <= k < i + length names)%nat /\ nth (k - i) names [] = name.
Proof.
  revert i. induction names as [|n names IH]; intros i E; cbn in E; [done|]. case_bool_decide as En.
  - injection E as <-. rewrite Nat.sub_diag. cbn. split; [lia|done].
  - apply IH in E as [? <-]. cbn [length]. split; [lia|]. replace (k - i)%nat with (S (k - S i)) by lia. done.
Qed.

Lemma name_index_spec names name k : name_index names name = Some k -> (k < length names)%nat /\ nth k names [] = name.
Proof. intros [? E]%name_index_from_bound. rewrite Nat.sub_0_r in E. split; [lia|done]. Qed.

(** Whether a fixed text is kept in its slot, by its number. *)
Definition kept (pid : Z) (si : nat) : bool := (si <? 2)%nat || ((si =? 2)%nat && negb (pid =? pfs_self_pid)).

(** The refreshed slot of a fixed text, with the text in it. *)
Lemma fixed_text pid name t c si k c1 :
  carrier_ok t c -> pid <> 0 -> name_index pfs_pid_stable name = Some si -> (si < 3)%nat ->
  pid_refresh pid t c = (Some k, c1) ->
  let s := slot_at c1 k in
  let b := nth si (ps_fixed s) no_buf in
  forall b', (b' = b \/ b = no_buf /\ b' = snd (env_file pid name t)) ->
  slot_ok t (PidSlot (ps_pid s) (ps_ms s) (ps_start s) (ps_vol s) (<[si := b']> (ps_fixed s)) (ps_written s)
               (ps_fd_digest s) (ps_fd_ms s) (ps_net_ms s) (ps_present s) (ps_task_digest s)) /\
  (ps_start s <> 0 -> b' <> no_buf -> made_for pid (ps_start s) si t b').
Proof.
  intros Hc Hp Hn Hsi E s b b' Hb'. destruct (pid_refresh_ok pid t c _ c1 Hc Hp E) as (Hc1 & Hk).
  destruct (Hk k eq_refl) as (Epid & Hms & Hv). fold s in Epid, Hms, Hv.
  destruct (proj2 (proj2 Hc1) k) as (Hm & Hl & Hs). fold s in Hm, Hl, Hs.
  assert (Hmade : ps_start s <> 0 -> b' <> no_buf -> made_for pid (ps_start s) si t b').
  { intros Hst Hne. destruct Hb' as [->|[_ ->]].
    - destruct (Hs Hst) as (_ & _ & Hf). rewrite <- Epid. apply Hf; [|done]. destruct (nth_lookup_or_length (ps_fixed s) si no_buf); [done|lia].
    - exists name, t, (ps_ms s), (ps_vol s). repeat split; try done; unfold PID_DIR_MS in *; lia. }
  split; [|done]. split; [done|]. split; [cbn; by rewrite length_insert|]. cbn. intros Hst.
  destruct (Hs Hst) as (? & ? & Hf). split; [done|]. split; [done|]. intros sj b2 Hb2 Hne.
  destruct (decide (si = sj)) as [<-|Hd].
  - rewrite list_lookup_insert_eq in Hb2 by lia. injection Hb2 as <-. rewrite Epid. by apply Hmade.
  - rewrite list_lookup_insert_ne in Hb2 by done. by apply Hf.
Qed.

(** What a text handed out is: of a generation inside the throttle, or fixed
    for the process of that generation. *)
Lemma content_spec pid name t c r c' :
  carrier_ok t c -> pid <> 0 -> pc_pid_content pid name t c = (r, c') ->
  carrier_ok t c' /\
  forall text, r = Some text ->
    (forall vi, name_index pfs_pid_volatile name = Some vi ->
       exists k, ps_pid (slot_at c' k) = pid /\ t - PID_DIR_MS < ps_ms (slot_at c' k) <= t /\
         env_volatile pid (ps_ms (slot_at c' k)) = Some (ps_vol (slot_at c' k), ps_start (slot_at c' k)) /\
         nth vi (ps_vol (slot_at c' k)) no_buf = Buf text false) /\
    (forall si, name_index pfs_pid_volatile name = None -> name_index pfs_pid_stable name = Some si -> kept pid si = true ->
       exists g vol start, t - PID_DIR_MS < g <= t /\ env_volatile pid g = Some (vol, start) /\
         (start <> 0 -> text <> [] -> made_for pid start si t (Buf text false))).
Proof.
  intros Hc Hp. unfold pc_pid_content. destruct (name_index pfs_pid_volatile name) as [vi|] eqn:Evi.
  - destruct (pid_refresh pid t c) as [o c1] eqn:E. destruct (pid_refresh_ok pid t c _ c1 Hc Hp E) as (Hc1 & Hk).
    destruct o as [k|]; intros [= <- <-]; (split; [done|]); [|done]. intros text.
    destruct (Hk k eq_refl) as (Epid & Hms & Hv). destruct (nth vi (ps_vol (slot_at c1 k)) no_buf) as [b [|]] eqn:Eb; cbn; [done|].
    intros [= ->]. split; [|done]. intros ? [= <-]. by exists k.
  - destruct (name_index pfs_pid_stable name) as [si|] eqn:Esi; [|by intros [= <- <-]].
    fold (kept pid si). destruct (kept pid si) eqn:Ek.
    2: { destruct (negb (env_find pid t)); [intros [= <- <-]; done|]. destruct (env_file pid name t) as [[] b]; intros [= <- <-];
         (split; [done|]); [|done]. intros text _. split; [done|]. intros si' _ [= <-]. congruence. }
    destruct (pid_refresh pid t c) as [o c1] eqn:E. destruct (pid_refresh_ok pid t c _ c1 Hc Hp E) as (Hc1 & Hk).
    destruct o as [k|]; [|by intros [= <- <-]]. cbv zeta. destruct (Hk k eq_refl) as (Epid & Hms & Hv).
    set (b := nth si (ps_fixed (slot_at c1 k)) no_buf).
    assert (Hsi : (si < 3)%nat) by (unfold kept in Ek; destruct (Nat.ltb_spec si 2), (Nat.eqb_spec si 2); cbn in Ek; lia || done).
    destruct (if negb (bool_decide (bf_text b = [])) || bf_oom b then (true, b) else env_file pid name t) as [ok b'] eqn:Eh.
    assert (Hb : b' = b \/ b = no_buf /\ b' = snd (env_file pid name t)).
    { destruct (decide (bf_text b = [])) as [Et|Et].
      - rewrite bool_decide_true in Eh by done. destruct (bf_oom b) eqn:Eo; cbn in Eh; [left; congruence|].
        right. split; [destruct b; cbn in *; by subst|by rewrite Eh].
      - rewrite bool_decide_false in Eh by done. left. cbn in Eh. congruence. }
    destruct (fixed_text pid name t c si k c1 Hc Hp Esi Hsi E b' Hb) as [Hok Hmade].
    intros [= <- <-]. split; [by apply carrier_ok_put|]. intros text Et. split; [done|]. intros si' _ [= <-] _.
    exists (ps_ms (slot_at c1 k)), (ps_vol (slot_at c1 k)), (ps_start (slot_at c1 k)). split; [done|]. split; [done|].
    intros Hst Hne. destruct (negb ok); [done|]. destruct b' as [x [|]]; cbn in Et; [done|]. injection Et as ->.
    apply Hmade; [done|]. intros [= ?]. done.
Qed.

(** ** The ensures leave the answers alone *)

Lemma with_digests_core task fd fdms netms s : same_core s (with_digests task fd fdms netms s).
Proof. done. Qed.

Lemma ensure_entry_core s pid name t dir : same_core s (fst (ensure_entry s pid name t dir)).
Proof.
  unfold ensure_entry, materialize_fd, materialize_task. repeat case_match; done.
Qed.

Lemma arrive_core dir s : same_core s (fst (arrive dir s)).
Proof. unfold arrive. by case_match. Qed.

Lemma core_trans s1 s2 s3 : same_core s1 s2 -> same_core s2 s3 -> same_core s1 s3.
Proof. unfold same_core. intuition congruence. Qed.

Lemma pc_ensure_pid_ok pid name t c : carrier_ok t c -> pid <> 0 -> carrier_ok t (fst (pc_ensure_pid pid name t c)).
Proof.
  intros Hc Hp. unfold pc_ensure_pid. destruct (pid_refresh pid t c) as [o c1] eqn:E.
  destruct (pid_refresh_ok pid t c _ c1 Hc Hp E) as [Hc1 _]. destruct o as [k|]; [|done]. cbv zeta.
  destruct (arrive _ _) as [s a] eqn:Ea. pose proof (arrive_core (under pc_root (decimal pid)) (slot_at c1 k)) as H1. rewrite Ea in H1.
  destruct name as [name|]; [|by apply put_core].
  destruct (ensure_entry s pid name t _) as [s2 a2] eqn:Ee. apply put_core; [done|]. eapply core_trans; [exact H1|].
  pose proof (ensure_entry_core s pid name t (under pc_root (decimal pid))) as H2. by rewrite Ee in H2.
Qed.

Lemma ensure_top_file_slots name t c : ca_slots (fst (ensure_top_file name t c)) = ca_slots c.
Proof. unfold ensure_top_file. by repeat case_match. Qed.

Lemma ensure_top_files_slots names t c : ca_slots (fst (ensure_top_files names t c)) = ca_slots c.
Proof.
  revert c. induction names as [|n names IH]; intros c; [done|]. cbn.
  destruct (ensure_top_file n t c) as [c1 a1] eqn:E. pose proof (ensure_top_file_slots n t c) as H1. rewrite E in H1. cbn in H1.
  specialize (IH c1). destruct (ensure_top_files names t c1). cbn in *. congruence.
Qed.

Lemma ensure_static_slots t c : ca_slots (fst (ensure_static t c)) = ca_slots c.
Proof.
  unfold ensure_static. destruct (ca_static c); [done|].
  pose proof (ensure_top_files_slots pfs_top_files t (Carrier (ca_slots c) (ca_top c) true (ca_net c) (ca_root c))) as E.
  cbv zeta. by destruct (ensure_top_files _ _ _).
Qed.

Lemma ensure_root_listing_slots t c : ca_slots (fst (ensure_root_listing t c)) = ca_slots c.
Proof.
  unfold ensure_root_listing. destruct (_ && _); [done|]. cbv zeta. destruct (env_procs t) as [|p ps]; [done|].
  pose proof (ensure_top_files_slots pfs_top_files t (Carrier (ca_slots c) (ca_top c) (ca_static c) (ca_net c) t)) as E.
  by destruct (ensure_top_files _ _ _).
Qed.

Lemma pc_ensure_node_ok n t c : carrier_ok t c -> n_pid n <> 0 -> carrier_ok t (fst (pc_ensure_node n t c)).
Proof.
  intros Hc Hp. unfold pc_ensure_node. destruct (n_kind n); try (by apply pc_ensure_pid_ok); try done.
  - eapply same_slots; [|done]. symmetry. apply ensure_root_listing_slots.
  - eapply same_slots; [|done]. symmetry. apply ensure_top_file_slots.
  - eapply same_slots; [|done]. unfold ensure_net. by case_match.
  - eapply same_slots; [|done]. unfold ensure_net. by case_match.
Qed.

Lemma pc_content_gen_ok path t c : carrier_ok t c -> n_pid (pc_parse (drop 6 path)) <> 0 -> carrier_ok t (snd (pc_content_gen path t c)).
Proof.
  intros Hc Hp. unfold pc_content_gen. destruct (negb _); [done|]. cbv zeta.
  destruct (volatile_name (pc_parse (drop 6 path))); [|done].
  destruct (slot_of (n_pid (pc_parse (drop 6 path))) c) as [k c1] eqn:E. destruct (slot_of_ok t _ c k c1 Hc Hp E) as [Hc1 _].
  by repeat case_match.
Qed.

Lemma reached_ok t c : reached t c -> carrier_ok t c.
Proof.
  induction 1 as [t Ht|t t' c c' _ IH Hle Hstep].
  - split; [done|]. split.
    + split; [intros k Hk|intros k k' _ Hk]; unfold slot_at, no_carrier in Hk; cbn in Hk; by rewrite lookup_empty in Hk.
    + intros k. unfold slot_at. cbn. rewrite lookup_empty. cbn. split; [cbn; lia|]. split; [done|]. by intros [].
  - apply (carrier_ok_later t t' c Hle) in IH. destruct Hstep as [pid name Hp|path Hp|n Hp|].
    + destruct (pc_pid_content pid name t' c) eqn:E. eapply content_spec in E as [? _]; [done|done|lia].
    + apply pc_content_gen_ok; [done|lia].
    + apply pc_ensure_node_ok; [done|lia].
    + eapply same_slots; [|done]. symmetry. apply ensure_static_slots.
Qed.
End slots.

(** ** The properties *)

(** C27: whatever the cache went through, a text handed out for one of the
    files that change (stat, status, statm, io) was generated for that very
    process less than the throttle of 200 ms ago. A text kept for the life of
    a process (cmdline, comm, environ), if it is not empty and the process's
    start time is known (not 0), was made while the pid had the start time
    the process has in the generation in force: a pid used anew does not show
    its predecessor's. With a start time of 0, which is what an unreadable
    process has, the incarnations cannot be told apart and nothing is
    claimed. *)
Theorem content_is_recent `{PcEnv, Pids} t0 c t pid name text c' :
  reached t0 c -> t0 <= t -> 0 < pid -> pc_pid_content pid name t c = (Some text, c') ->
  (forall vi, name_index pfs_pid_volatile name = Some vi ->
     exists g vol start, t - PID_DIR_MS < g <= t /\ env_volatile pid g = Some (vol, start) /\ nth vi vol no_buf = Buf text false) /\
  (forall si, name_index pfs_pid_volatile name = None -> name_index pfs_pid_stable name = Some si -> kept pid si = true ->
     exists g vol start, t - PID_DIR_MS < g <= t /\ env_volatile pid g = Some (vol, start) /\
       (start <> 0 -> text <> [] -> made_for pid start si t (Buf text false))).
Proof.
  intros Hr Hle Hp E. apply reached_ok, (carrier_ok_later t0 t c Hle) in Hr.
  apply content_spec in E as [_ Ht]; [|done|lia]. destruct (Ht text eq_refl) as [Hv Hf]. split; [|done].
  intros vi Evi. destruct (Hv vi Evi) as (k & _ & ? & ? & ?). by eexists _, _, _.
Qed.

(** A slot in its window answers what it holds. *)
Lemma slot_answers `{PcEnv, Pids} k pid t c vi :
  carrier_ok t c -> slot_of pid c = (k, c) -> ps_start (slot_at c k) <> 0 -> t - ps_ms (slot_at c k) < PID_DIR_MS ->
  (vi < 4)%nat ->
  fst (pc_pid_content pid (nth vi pfs_pid_volatile []) t c) =
    (let b := nth vi (ps_vol (slot_at c k)) no_buf in if bf_oom b then None else Some (bf_text b)).
Proof.
  intros Hc Es Hst Hf Hvi. unfold pc_pid_content.
  replace (name_index pfs_pid_volatile (nth vi pfs_pid_volatile [])) with (Some vi)
    by (do 4 (destruct vi as [|vi]; [reflexivity|]); lia).
  unfold pid_refresh. rewrite Es. cbv zeta. destruct (proj2 (proj2 Hc) k) as (Hm & _ & Hs). destruct (Hs Hst) as [Hn0 _].
  rewrite (proj2 (Z.eqb_neq _ _) Hn0), (proj2 (Z.ltb_lt _ _) Hf), (proj2 (Z.eqb_neq _ _) Hst). done.
Qed.

(** The slot of a process that has one is found, and nothing is taken over. *)
Lemma slot_of_here `{PcEnv} pid c k :
  homes_ok c -> pid <> 0 -> ps_pid (slot_at c k) = pid -> slot_of pid c = (k, c).
Proof.
  intros [Hw Hu] Hp Ek. destruct (slot_of pid c) as [k' c'] eqn:E. apply slot_of_spec in E as (Ep & _ & [->|[-> Hn]]).
  - f_equal. apply Hu; congruence.
  - destruct (Hw k) as (i & Hi & Ei); [congruence|]. destruct (Hn i Hi). rewrite <- Ek, <- Ei, Ek. done.
Qed.

(** a process has at most one slot among the 2048, it is one of the eight
    its hash leads to, and looking the process up finds it and evicts
    nobody, so no refresh of it is ever made twice in a window. *)
Theorem one_slot_each `{PcEnv, Pids} t c pid k :
  reached t c -> 0 < pid -> ps_pid (slot_at c k) = pid ->
  (exists i, 0 <= i < 8 /\ k = probe pid i) /\
  (forall k', ps_pid (slot_at c k') = pid -> k' = k) /\
  slot_of pid c = (k, c).
Proof.
  intros Hr Hp Ek. apply reached_ok in Hr as (_ & Hh & _). split; [|split].
  - rewrite <- Ek. apply Hh. lia.
  - intros k' Ek'. apply Hh; lia.
  - apply slot_of_here; [done|lia|done].
Qed.

(** the stamp pc_content_gen gives a path is the time of a generation of
    its process not over, and names what is read: until the window ends, the
    text of the file is the one of the generation made at that time. Two
    readers with the same stamp read the same bytes. *)
Theorem stamp_names_content `{PcEnv, Pids} t0 c t path g c1 vi t' :
  reached t0 c -> t0 <= t -> 0 < n_pid (pc_parse (drop 6 path)) ->
  pc_content_gen path t c = (g, c1) -> g <> 0 -> volatile_name (pc_parse (drop 6 path)) = Some vi -> (vi < 4)%nat ->
  t <= t' < g + PID_DIR_MS ->
  t - PID_DIR_MS < g <= t /\
  exists vol start, env_volatile (n_pid (pc_parse (drop 6 path))) g = Some (vol, start) /\
    fst (pc_pid_content (n_pid (pc_parse (drop 6 path))) (nth vi pfs_pid_volatile []) t' c1) =
      (let b := nth vi vol no_buf in if bf_oom b then None else Some (bf_text b)).
Proof.
  intros Hr Hle Hp E Hg Hvi Hb Ht'. apply reached_ok, (carrier_ok_later t0 t c Hle) in Hr.
  unfold pc_content_gen in E. destruct (negb _); [congruence|]. cbv zeta in E. rewrite Hvi in E.
  set (pid := n_pid (pc_parse (drop 6 path))) in *. destruct (slot_of pid c) as [k c2] eqn:Es.
  destruct (slot_of_ok t pid c k c2 Hr ltac:(lia) Es) as [Hc2 Ep]. rewrite Ep, Z.eqb_refl in E. cbn [negb orb] in E.
  destruct (Z.eqb_spec (ps_start (slot_at c2 k)) 0) as [|Hst]; [congruence|].
  destruct (Z.leb_spec PID_DIR_MS (t - ps_ms (slot_at c2 k))) as [|Hw]; [congruence|]. injection E as <- <-.
  destruct (proj2 (proj2 Hc2) k) as (Hm & _ & Hs). destruct (Hs Hst) as (_ & Hv & _). rewrite Ep in Hv.
  split; [lia|]. exists (ps_vol (slot_at c2 k)), (ps_start (slot_at c2 k)). split; [done|].
  apply slot_answers; [by eapply carrier_ok_later; [|done]; lia| |done|lia|done].
  apply slot_of_here; [apply Hc2|lia|done].
Qed.

(** ** A concrete machine *)

(** Process 4 has no start time to show, 1200 becomes another process at
    5000, and every text carries the time it was made. *)
#[local] Instance toy_env : PcEnv := {|
  pc_root := bytes "C:/t";
  env_volatile pid t :=
    if pid =? 4 then Some (replicate 4 (Buf (decimal t) false), 0)
    else if pid =? 1200 then Some (replicate 4 (Buf (decimal t) false), if t <? 5000 then 11 else 22)
    else None;
  env_file _ name t := (true, Buf (name ++ decimal t) false);
  env_top name t := (true, Buf (decimal t) false);
  env_net name t := (true, Buf [] false);
  env_sys name t := (true, Buf [] false);
  env_link _ _ _ := None;
  env_find _ _ := true;
  env_procs _ := [4; 1200];
  env_threads _ _ := [];
  env_self_fds _ := [];
  env_net_fds _ _ := [];
  env_exists _ _ := false;
  env_dir _ _ := None;
  pfs_sys_dirs := [];
  pfs_sys_files := [] |}.

#[local] Instance toy_pids : Pids := {| getpid := 700; pfs_self_pid := 700 |}.

(** A sweep at 4900: stat and comm of 1200. *)
Definition swept : carrier :=
  snd (pc_pid_content 1200 (bytes "comm") 4900 (snd (pc_pid_content 1200 (bytes "stat") 4900 no_carrier))).

Lemma swept_reached : reached 4900 swept.
Proof.
  unfold swept. eapply (reached_step 4900); [|done|by apply step_content].
  eapply (reached_step 4900); [|done|by apply step_content]. by apply reached_none.
Defined.

Lemma content_is_recent_witness :
  exists c', pc_pid_content 1200 (bytes "comm") 5200 swept = (Some (bytes "comm5200"), c') /\
  exists g vol start, 5000 < g <= 5200 /\ env_volatile 1200 g = Some (vol, start) /\
    (start <> 0 -> bytes "comm5200" <> [] -> made_for 1200 start 1 5200 (Buf (bytes "comm5200") false)).
Proof.
  eexists. split; [vm_compute; reflexivity|].
  pose proof (content_is_recent 4900 swept 5200 1200 (bytes "comm") (bytes "comm5200")) as H.
  destruct (H _ swept_reached ltac:(lia) ltac:(lia) ltac:(vm_compute; reflexivity)) as [_ Hf].
  exact (Hf 1%nat eq_refl eq_refl eq_refl).
Defined.

Lemma one_slot_each_witness :
  ps_pid (slot_at swept (probe 1200 0)) = 1200 /\ slot_of 1200 swept = (probe 1200 0, swept).
Proof.
  pose proof (one_slot_each 4900 swept 1200 (probe 1200 0) swept_reached ltac:(lia) ltac:(vm_compute; reflexivity)) as H.
  split; [vm_compute; reflexivity|apply H].
Defined.

Lemma stamp_names_content_witness :
  exists c1, pc_content_gen (bytes "/proc/1200/stat") 5000 swept = (4900, c1) /\
    fst (pc_pid_content 1200 (bytes "stat") 5099 c1) = Some (bytes "4900").
Proof.
  eexists. split; [vm_compute; reflexivity|].
  pose proof (stamp_names_content 4900 swept 5000 (bytes "/proc/1200/stat") 4900 swept 0 5099 swept_reached ltac:(lia)
                ltac:(vm_compute; reflexivity) ltac:(vm_compute; reflexivity) ltac:(lia) ltac:(vm_compute; reflexivity)
                ltac:(lia) ltac:(unfold PID_DIR_MS; lia)) as (_ & vol & start & Ev & Et).
  vm_compute in Ev. injection Ev as <- <-. vm_compute in Et. vm_compute. exact Et.
Defined.

(** A process without a start time is answered once and then, until the
    window ends, is not there. *)
Example no_start_time_is_absent :
  let c := snd (pc_pid_content 4 (bytes "stat") 1000 no_carrier) in
  fst (pc_pid_content 4 (bytes "stat") 1000 no_carrier) = Some (bytes "1000") /\
  fst (pc_pid_content 4 (bytes "stat") 1001 c) = None /\
  fst (pc_pid_content 4 (bytes "stat") 1200 c) = Some (bytes "1200").
Proof. vm_compute. done. Qed.
