(* ===== verification/Dmi.v ===== *)
(** * shim/procfs/dmi.c and the /sys/class/dmi/id of core/sysfs.c

    The raw SMBIOS table NT hands out, parsed once into the identity of the
    machine, and the files made of it. The table is a list of bytes behind
    the header NT puts before it; reading behind its end gives 0 here. The
    theorems: a table written as SMBIOS says is read back field by field,
    and the modalias line stays in its buffer whatever the vendor wrote. *)
From S2P Require Import Prelude PfsText.

(** struct pfs_dmi *)
Record dmi := Dmi {
  have_bios : bool; have_sys : bool; have_board : bool; have_chassis : bool;
  bios_vendor : cstr; bios_version : cstr; bios_date : cstr;
  sys_vendor : cstr; product_name : cstr; product_version : cstr;
  product_sku : cstr; product_family : cstr;
  board_vendor : cstr; board_name : cstr; board_version : cstr; board_asset_tag : cstr;
  chassis_vendor : cstr; chassis_version : cstr; chassis_type : Z }.

Definition no_dmi : dmi := Dmi false false false false [] [] [] [] [] [] [] [] [] [] [] [] [] [] 0.

(** ** The strings of a structure *)

Fixpoint upto_nul (s : list Z) : list Z :=
  match s with c :: s => if c =? 0 then [] else c :: upto_nul s | [] => [] end.

(** Trailing blanks dropped. *)
Fixpoint no_trail (s : list Z) : list Z :=
  match s with
  | [] => []
  | c :: s => match no_trail s with [] => if c =? 32 then [] else [c] | s => c :: s end
  end.

(** The string numbered [idx], from the string numbered [i] on; [inside] is
    the loop to the end of one that was not it. *)
Fixpoint seek (inside : bool) (i idx : Z) (s : list Z) : option (list Z) :=
  match s with
  | [] => None
  | c :: s' =>
      if inside then (if c =? 0 then seek false (i + 1) idx s' else seek true i idx s')
      else if c =? 0 then None
      else if i =? idx then Some s
      else seek true i idx s'
  end.

(** take *)
Definition take_string (cap : nat) (s : list Z) (idx : Z) : cstr :=
  if idx <=? 0 then []
  else match seek false 1 idx s with
       | Some s => no_trail (cut cap (upto_nul s))
       | None => []
       end.

(** ** The structures *)

Definition field (p : list Z) (i : nat) : Z := nth i p 0.

(** How far the two NULs are that end the strings. *)
Fixpoint strings_len (s : list Z) : nat :=
  match s with
  | a :: (b :: _) as s' => if (a =? 0) && (b =? 0) then 0%nat else S (strings_len s')
  | _ => 0%nat
  end.

(** One structure [p] of a type and formatted length, whose strings [str]
    answers for a buffer's size and a number. *)
Definition read_structure (str : nat -> Z -> cstr) (p : list Z) (d : dmi) : dmi :=
  let type := field p 0 in
  let len := field p 1 in
  let S64 (i : nat) := str 64%nat (field p i) in
  if (type =? 0) && (9 <=? len) then
    Dmi true (have_sys d) (have_board d) (have_chassis d) (S64 4%nat) (S64 5%nat) (str 32%nat (field p 8))
      (sys_vendor d) (product_name d) (product_version d) (product_sku d) (product_family d)
      (board_vendor d) (board_name d) (board_version d) (board_asset_tag d) (chassis_vendor d) (chassis_version d) (chassis_type d)
  else if (type =? 1) && (8 <=? len) then
    Dmi (have_bios d) true (have_board d) (have_chassis d) (bios_vendor d) (bios_version d) (bios_date d)
      (S64 4%nat) (S64 5%nat) (S64 6%nat)
      (if 0x1a <? len then S64 25%nat else product_sku d) (if 0x1a <? len then S64 26%nat else product_family d)
      (board_vendor d) (board_name d) (board_version d) (board_asset_tag d) (chassis_vendor d) (chassis_version d) (chassis_type d)
  else if (type =? 2) && (8 <=? len) then
    Dmi (have_bios d) (have_sys d) true (have_chassis d) (bios_vendor d) (bios_version d) (bios_date d)
      (sys_vendor d) (product_name d) (product_version d) (product_sku d) (product_family d)
      (S64 4%nat) (S64 5%nat) (S64 6%nat) (if 8 <? len then S64 8%nat else board_asset_tag d)
      (chassis_vendor d) (chassis_version d) (chassis_type d)
  else if (type =? 3) && (7 <=? len) then
    Dmi (have_bios d) (have_sys d) (have_board d) true (bios_vendor d) (bios_version d) (bios_date d)
      (sys_vendor d) (product_name d) (product_version d) (product_sku d) (product_family d)
      (board_vendor d) (board_name d) (board_version d) (board_asset_tag d) (S64 4%nat) (S64 6%nat) (Z.land (field p 5) 0x7f)
  else d.

(** The loop over the table; [None] only without fuel. *)
Fixpoint read_table (fuel : nat) (p : list Z) (d : dmi) : option dmi :=
  match fuel with
  | O => None
  | S fuel =>
      if (length p <? 4)%nat then Some d
      else
        let len := field p 1 in
        if len <? 4 then Some d
        else
          let strs := drop (Z.to_nat len) p in
          let next := drop (strings_len strs + 2) strs in
          if field p 0 =? 127 then Some d
          else read_table fuel next (read_structure (fun cap => take_string cap strs) p d)
  end.

(** pfs_dmi: the machine's answer, 8 bytes of header before the table. *)
Definition pfs_dmi (fuel : nat) (got : list Z) : option dmi :=
  if (8 <? length got)%nat then read_table fuel (drop 8 got) no_dmi else None.

(** ** The files of /sys/class/dmi/id *)

Definition dmi_files (d : dmi) : list (cstr * cstr) :=
  let file (have : bool) (name : string) (val : cstr) := if have then [(bytes name, cut 600 (val ++ [10]))] else [] in
  file (have_bios d) "bios_vendor"%string (bios_vendor d) ++
  file (have_bios d) "bios_version"%string (bios_version d) ++
  file (have_bios d) "bios_date"%string (bios_date d) ++
  file (have_sys d) "sys_vendor"%string (sys_vendor d) ++
  file (have_sys d) "product_name"%string (product_name d) ++
  file (have_sys d) "product_version"%string (product_version d) ++
  file (have_sys d) "product_sku"%string (product_sku d) ++
  file (have_sys d) "product_family"%string (product_family d) ++
  file (have_board d) "board_vendor"%string (board_vendor d) ++
  file (have_board d) "board_name"%string (board_name d) ++
  file (have_board d) "board_version"%string (board_version d) ++
  file (have_board d) "board_asset_tag"%string (board_asset_tag d) ++
  file (have_chassis d) "chassis_vendor"%string (chassis_vendor d) ++
  file (have_chassis d) "chassis_version"%string (chassis_version d) ++
  file (have_chassis d) "chassis_type"%string (signed (chassis_type d)).

(** Bytes put into a buffer of 600 while there is room for three more. *)
Fixpoint put_all (keep : Z -> bool) (s : cstr) (buf : cstr) : cstr :=
  match s with
  | [] => buf
  | c :: s =>
      if (length buf <? 597)%nat then put_all keep s (if keep c then buf ++ [c] else buf) else buf
  end.

Definition alias_parts (d : dmi) : list (cstr * cstr) :=
  [(bytes "bvn", bios_vendor d); (bytes "bvr", bios_version d); (bytes "bd", bios_date d); (bytes "svn", sys_vendor d);
   (bytes "pn", product_name d); (bytes "pvr", product_version d); (bytes "rvn", board_vendor d); (bytes "rn", board_name d);
   (bytes "rvr", board_version d); (bytes "cvn", chassis_vendor d); (bytes "cvr", chassis_version d)].

(** One part: its tag, its value without blanks and colons, and a colon. *)
Definition put_part (type : Z) (ip : nat * (cstr * cstr)) (buf : cstr) : cstr :=
  let '(i, (tag, val)) := ip in
  let buf := put_all (fun _ => true) tag buf in
  let buf := put_all (fun c => negb (c =? 32) && negb (c =? 58)) val buf in
  let buf := buf ++ [58] in
  if (i =? 9)%nat && (length buf <? 592)%nat then buf ++ cut (600 - length buf) (bytes "ct" ++ signed type ++ [58]) else buf.

(** The line as the code writes it, without a check at its end. *)
Definition modalias (d : dmi) : cstr :=
  foldl (fun buf ip => put_part (chassis_type d) ip buf) (bytes "dmi:") (zip (seq 0 11) (alias_parts d)) ++ [10].

(** What is written below sysfs-dmi/id. *)
Definition ensure_sysfs_dmi (d : option dmi) : list (cstr * cstr) :=
  match d with None => [] | Some d => dmi_files d ++ [(bytes "modalias", modalias d)] end.

(** ** What SMBIOS says a table is *)

Record structure := Structure { sm_type : Z; sm_handle : Z; sm_body : list Z; sm_strings : list cstr }.

Definition sm_formatted (s : structure) : list Z :=
  [sm_type s; 4 + Z.of_nat (length (sm_body s)); sm_handle s mod 256; sm_handle s / 256] ++ sm_body s.

Definition flat (strings : list cstr) : list Z := concat (map (fun x => x ++ [0]) strings).

(** The formatted part, the strings each with its NUL, and one more NUL; two
    where there are no strings. *)
Definition encode (s : structure) : list Z :=
  sm_formatted s ++ flat (sm_strings s) ++ (if bool_decide (sm_strings s = []) then [0; 0] else [0]).

Definition sm_string (s : structure) (cap : nat) (idx : Z) : cstr :=
  if idx <=? 0 then [] else
  match sm_strings s !! Z.to_nat (idx - 1) with Some x => no_trail (cut cap x) | None => [] end.

Definition string_ok (x : cstr) : Prop := x <> [] /\ Forall (fun c => c <> 0) x.

Definition structure_ok (s : structure) : Prop :=
  sm_type s <> 127 /\ Forall string_ok (sm_strings s).

(** *** The records the firmware writes

    The identity records as the SMBIOS specification lays them out: named
    fields, each a byte of its own or a reference to one of the record's
    strings, which are numbered from 1 in the order of the fields; a field
    without a string holds 0. *)
Inductive slot := SStr (s : option cstr) | SRaw (b : Z).

(** The system record grew: to 8 bytes in 2.0, 0x19 in 2.1, 0x1b in 2.4. *)
Inductive system_more :=
  | Sys20
  | Sys21 (uuid : list Z) (wake_up : Z)
  | Sys24 (uuid : list Z) (wake_up : Z) (sku family : option cstr) (extra : list slot).

Inductive firmware :=
  | FwBios (handle : Z) (vendor version : option cstr) (segment_lo segment_hi : Z) (date : option cstr) (extra : list slot)
  | FwSystem (handle : Z) (manufacturer product version serial : option cstr) (more : system_more)
  | FwBoard (handle : Z) (manufacturer product version serial : option cstr) (asset_tag : option (option cstr * list slot))
  | FwChassis (handle : Z) (manufacturer : option cstr) (chassis_kind : Z) (lock : bool) (version : option cstr) (extra : list slot)
  | FwOther (s : structure).

Definition more_slots (m : system_more) : list slot :=
  match m with
  | Sys20 => []
  | Sys21 uuid w => map SRaw uuid ++ [SRaw w]
  | Sys24 uuid w sku family extra => map SRaw uuid ++ [SRaw w] ++ [SStr sku; SStr family] ++ extra
  end.

Definition fw_slots (f : firmware) : list slot :=
  match f with
  | FwBios _ vendor version lo hi date extra => [SStr vendor; SStr version; SRaw lo; SRaw hi; SStr date] ++ extra
  | FwSystem _ man product version serial more => [SStr man; SStr product; SStr version; SStr serial] ++ more_slots more
  | FwBoard _ man product version serial asset =>
      [SStr man; SStr product; SStr version; SStr serial] ++
      match asset with Some (a, extra) => SStr a :: extra | None => [] end
  | FwChassis _ man kind lock version extra =>
      [SStr man; SRaw (if lock then 128 + kind else kind); SStr version] ++ extra
  | FwOther _ => []
  end.

(** The bytes of the fields and the strings, numbered from [n] on. *)
Fixpoint number (n : Z) (slots : list slot) : list Z * list cstr :=
  match slots with
  | [] => ([], [])
  | SRaw b :: l => let '(bs, ss) := number n l in (b :: bs, ss)
  | SStr None :: l => let '(bs, ss) := number n l in (0 :: bs, ss)
  | SStr (Some x) :: l => let '(bs, ss) := number (n + 1) l in (n :: bs, x :: ss)
  end.

Definition numbered (type handle : Z) (slots : list slot) : structure :=
  Structure type handle (fst (number 1 slots)) (snd (number 1 slots)).

Definition fw_structure (f : firmware) : structure :=
  match f with
  | FwBios h _ _ _ _ _ _ => numbered 0 h (fw_slots f)
  | FwSystem h _ _ _ _ _ => numbered 1 h (fw_slots f)
  | FwBoard h _ _ _ _ _ => numbered 2 h (fw_slots f)
  | FwChassis h _ _ _ _ _ => numbered 3 h (fw_slots f)
  | FwOther s => s
  end.

Definition uuid_ok (m : system_more) : Prop :=
  match m with Sys20 => True | Sys21 uuid _ | Sys24 uuid _ _ _ _ => length uuid = 16%nat end.

(** A record as the specification allows it: sixteen bytes of UUID, seven
    bits of chassis type, strings that are not empty and hold no NUL. *)
Definition fw_ok (f : firmware) : Prop :=
  Forall string_ok (sm_strings (fw_structure f)) /\
  match f with
  | FwSystem _ _ _ _ _ more => uuid_ok more
  | FwChassis _ _ kind _ _ _ => 0 <= kind < 128
  | FwOther s => sm_type s ∉ [0; 1; 2; 3; 127]
  | _ => True
  end.

(** A string as a buffer of [cap] shows it: what fits, its trailing blanks
    dropped; a field without one shows nothing. *)
Fixpoint skip_blanks (s : list Z) : list Z :=
  match s with c :: s' => if c =? 32 then skip_blanks s' else s | [] => [] end.

Definition shown (cap : nat) (x : option cstr) : cstr :=
  match x with Some x => rev (skip_blanks (rev (take (cap - 1) x))) | None => [] end.

(** What a machine with this record also is. *)
Definition learn (d : dmi) (f : firmware) : dmi :=
  match f with
  | FwBios _ vendor version _ _ date _ =>
      {| have_bios := true; bios_vendor := shown 64 vendor; bios_version := shown 64 version; bios_date := shown 32 date;
         have_sys := have_sys d; have_board := have_board d; have_chassis := have_chassis d;
         sys_vendor := sys_vendor d; product_name := product_name d; product_version := product_version d;
         product_sku := product_sku d; product_family := product_family d;
         board_vendor := board_vendor d; board_name := board_name d; board_version := board_version d;
         board_asset_tag := board_asset_tag d;
         chassis_vendor := chassis_vendor d; chassis_version := chassis_version d; chassis_type := chassis_type d |}
  | FwSystem _ man product version _ more =>
      {| have_sys := true; sys_vendor := shown 64 man; product_name := shown 64 product; product_version := shown 64 version;
         product_sku := match more with Sys24 _ _ sku _ _ => shown 64 sku | _ => product_sku d end;
         product_family := match more with Sys24 _ _ _ family _ => shown 64 family | _ => product_family d end;
         have_bios := have_bios d; have_board := have_board d; have_chassis := have_chassis d;
         bios_vendor := bios_vendor d; bios_version := bios_version d; bios_date := bios_date d;
         board_vendor := board_vendor d; board_name := board_name d; board_version := board_version d;
         board_asset_tag := board_asset_tag d;
         chassis_vendor := chassis_vendor d; chassis_version := chassis_version d; chassis_type := chassis_type d |}
  | FwBoard _ man product version _ asset =>
      {| have_board := true; board_vendor := shown 64 man; board_name := shown 64 product; board_version := shown 64 version;
         board_asset_tag := match asset with Some (a, _) => shown 64 a | None => board_asset_tag d end;
         have_bios := have_bios d; have_sys := have_sys d; have_chassis := have_chassis d;
         bios_vendor := bios_vendor d; bios_version := bios_version d; bios_date := bios_date d;
         sys_vendor := sys_vendor d; product_name := product_name d; product_version := product_version d;
         product_sku := product_sku d; product_family := product_family d;
         chassis_vendor := chassis_vendor d; chassis_version := chassis_version d; chassis_type := chassis_type d |}
  | FwChassis _ man kind _ version _ =>
      {| have_chassis := true; chassis_vendor := shown 64 man; chassis_version := shown 64 version; chassis_type := kind;
         have_bios := have_bios d; have_sys := have_sys d; have_board := have_board d;
         bios_vendor := bios_vendor d; bios_version := bios_version d; bios_date := bios_date d;
         sys_vendor := sys_vendor d; product_name := product_name d; product_version := product_version d;
         product_sku := product_sku d; product_family := product_family d;
         board_vendor := board_vendor d; board_name := board_name d; board_version := board_version d;
         board_asset_tag := board_asset_tag d |}
  | FwOther _ => d
  end.

(** The bytes of a firmware's table, without what ends it. *)
Definition fw_table (fs : list firmware) : list Z := concat (map (fun f => encode (fw_structure f)) fs).

(** What ends a table: nothing, or the structure of type 127. *)
Definition table_end (tl : list Z) : Prop :=
  (length tl < 4)%nat \/ field tl 0 = 127.

(** ** The strings are found *)

Lemma seek_inside x i idx s : Forall (fun c => c <> 0) x -> seek true i idx (x ++ 0 :: s) = seek false (i + 1) idx s.
Proof.
  induction 1 as [|c x Hc _ IH]; cbn [app seek]; [by rewrite Z.eqb_refl|].
  by rewrite (proj2 (Z.eqb_neq c 0) Hc).
Qed.

Lemma upto_nul_app x s : Forall (fun c => c <> 0) x -> upto_nul (x ++ 0 :: s) = x.
Proof.
  induction 1 as [|c x Hc _ IH]; cbn [app upto_nul]; [done|]. by rewrite (proj2 (Z.eqb_neq c 0) Hc), IH.
Qed.

Lemma seek_flat strings i idx rest :
  Forall string_ok strings -> i <= idx ->
  option_map upto_nul (seek false i idx (flat strings ++ 0 :: rest)) = strings !! Z.to_nat (idx - i).
Proof.
  intros Hs. revert i. induction Hs as [|x strings [Hne Hx] _ IH]; intros i Hi; [done|].
  destruct x as [|c x]; [done|]. apply Forall_cons in Hx as Hx'. destruct Hx' as [Hc Hx'].
  unfold flat. cbn [map concat]. rewrite <- !app_assoc. cbn [app seek]. rewrite (proj2 (Z.eqb_neq c 0) Hc).
  destruct (Z.eqb_spec i idx) as [<-|Hd].
  - rewrite Z.sub_diag. cbn [option_map]. transitivity (Some (c :: x)); [f_equal; exact (upto_nul_app (c :: x) _ Hx)|done].
  - rewrite seek_inside by done. fold (flat strings). rewrite IH by lia.
    replace (Z.to_nat (idx - i)) with (S (Z.to_nat (idx - (i + 1)))) by lia. done.
Qed.

Lemma take_string_flat s cap idx rest :
  Forall string_ok (sm_strings s) -> take_string cap (flat (sm_strings s) ++ 0 :: rest) idx = sm_string s cap idx.
Proof.
  intros Hs. unfold take_string, sm_string. destruct (Z.leb_spec idx 0) as [|Hi]; [done|].
  rewrite <- (seek_flat _ 1 idx rest Hs) by lia. by destruct (seek false 1 idx _).
Qed.

Lemma strings_len_skip x t : Forall (fun c => c <> 0) x -> t <> [] -> strings_len (x ++ t) = (length x + strings_len t)%nat.
Proof.
  intros Hx Ht. induction Hx as [|c x Hc _ IH]; [done|]. cbn [app length]. rewrite Nat.add_succ_l, <- IH.
  destruct (x ++ t) as [|b u] eqn:E; [by apply app_eq_nil in E as [_ ?]|]. cbn [strings_len].
  by rewrite (proj2 (Z.eqb_neq c 0) Hc).
Qed.

Lemma strings_len_nul z : (exists b t, b <> 0 /\ z = b :: t) -> strings_len (0 :: z) = S (strings_len z).
Proof. intros (b & t & Hb & ->). cbn [strings_len]. by rewrite (proj2 (Z.eqb_neq b 0) Hb). Qed.

Lemma strings_len_flat strings rest :
  Forall string_ok strings -> strings <> [] -> (strings_len (flat strings ++ 0%Z :: rest) + 2 = length (flat strings) + 1)%nat.
Proof.
  induction 1 as [|x strings [Hne Hx] Hs IH]; [done|]. intros _. unfold flat. cbn [map concat]. fold (flat strings).
  rewrite <- !app_assoc, strings_len_skip by done. rewrite !length_app. cbn [app length].
  destruct strings as [|y strings]; [cbn; lia|]. assert (Hy : y :: strings <> []) by done. specialize (IH Hy).
  apply Forall_cons in Hs as [[Hyne Hy'] _]. destruct y as [|b y]; [done|]. apply Forall_cons in Hy' as [Hb _].
  rewrite strings_len_nul; [lia|]. cbn. by exists b; eexists.
Qed.

Lemma after_strings s rest :
  Forall string_ok (sm_strings s) ->
  let strs := flat (sm_strings s) ++ (if bool_decide (sm_strings s = []) then [0; 0] else [0]) ++ rest in
  drop (strings_len strs + 2) strs = rest.
Proof.
  intros Hs strs. unfold strs. case_bool_decide as E.
  - rewrite E. done.
  - cbn [app]. rewrite strings_len_flat by done. rewrite (cons_middle 0), app_assoc.
    apply drop_app_length'. by rewrite length_app.
Qed.

(** A structure reads its own fields, whatever comes behind it. *)
Lemma read_structure_ext str str' p p' d :
  (forall cap idx, str cap idx = str' cap idx) -> field p 1 = field p' 1 ->
  (forall i, (i < Z.to_nat (field p' 1))%nat -> field p i = field p' i) -> (1 < Z.to_nat (field p' 1))%nat ->
  read_structure str p d = read_structure str' p' d.
Proof.
  intros Hs Hl Hf H1. unfold read_structure. cbv zeta. rewrite Hl, (Hf 0%nat) by lia.
  destruct ((field p' 0 =? 0) && (9 <=? field p' 1)) eqn:E0; [rewrite !Hs, !Hf by lia; done|].
  destruct ((field p' 0 =? 1) && (8 <=? field p' 1)) eqn:E1.
  { destruct (0x1a <? field p' 1) eqn:E; rewrite !Hs, !Hf by lia; done. }
  destruct ((field p' 0 =? 2) && (8 <=? field p' 1)) eqn:E2.
  { destruct (8 <? field p' 1) eqn:E; rewrite !Hs, !Hf by lia; done. }
  destruct ((field p' 0 =? 3) && (7 <=? field p' 1)) eqn:E3; [rewrite !Hs, !Hf by lia; done|done].
Qed.

Lemma encode_app s rest :
  encode s ++ rest =
    sm_formatted s ++ flat (sm_strings s) ++ (if bool_decide (sm_strings s = []) then [0; 0] else [0]) ++ rest.
Proof. unfold encode. by rewrite <- !app_assoc. Qed.

Lemma field_app a b i : (i < length a)%nat -> field (a ++ b) i = field a i.
Proof. intros. unfold field. by apply app_nth1. Qed.

Lemma sm_formatted_length s : length (sm_formatted s) = (4 + length (sm_body s))%nat.
Proof. done. Qed.

Lemma read_table_encode fuel s rest d :
  structure_ok s ->
  read_table (S fuel) (encode s ++ rest) d = read_table fuel rest (read_structure (sm_string s) (sm_formatted s) d).
Proof.
  intros [Ht Hs]. cbn [read_table]. pose proof (sm_formatted_length s) as Hl.
  assert (Hlen : field (encode s ++ rest) 1 = 4 + Z.of_nat (length (sm_body s))) by (rewrite encode_app, field_app by lia; done).
  assert (Hty : field (encode s ++ rest) 0 = sm_type s) by (rewrite encode_app, field_app by lia; done).
  rewrite Hlen, Hty. destruct (Nat.ltb_spec (length (encode s ++ rest)) 4) as [Hlt|_].
  { rewrite encode_app, length_app in Hlt. lia. }
  destruct (Z.ltb_spec (4 + Z.of_nat (length (sm_body s))) 4); [lia|]. rewrite (proj2 (Z.eqb_neq _ _) Ht).
  assert (Hstrs : drop (Z.to_nat (4 + Z.of_nat (length (sm_body s)))) (encode s ++ rest) =
                  flat (sm_strings s) ++ (if bool_decide (sm_strings s = []) then [0; 0] else [0]) ++ rest).
  { rewrite encode_app. apply drop_app_length'. lia. }
  rewrite Hstrs, after_strings by done. f_equal. apply read_structure_ext.
  - intros cap idx. case_bool_decide as E; cbn [app]; by rewrite take_string_flat.
  - rewrite Hlen. done.
  - intros i Hi. rewrite encode_app, field_app; [done|]. rewrite Hl. change (field (sm_formatted s) 1) with (4 + Z.of_nat (length (sm_body s))) in Hi. lia.
  - change (field (sm_formatted s) 1) with (4 + Z.of_nat (length (sm_body s))). lia.
Qed.

Lemma read_table_end fuel tl d : table_end tl -> read_table (S fuel) tl d = Some d.
Proof.
  intros H. cbn [read_table]. destruct (Nat.ltb_spec (length tl) 4) as [|Hl]; [done|]. destruct H as [? | ->]; [lia|].
  by case_match.
Qed.

(** ** The fields are the record's *)

Lemma no_trail_rev s : no_trail s = rev (skip_blanks (rev s)).
Proof.
  induction s as [|c s IH]; [done|]. cbn [no_trail rev]. rewrite IH. generalize (rev s). clear IH s. intros l.
  induction l as [|x l IH]; cbn [app skip_blanks]; [by destruct (c =? 32)|].
  destruct (x =? 32); [exact IH|]. cbn [rev app]. rewrite rev_app_distr. cbn [rev app].
  by destruct (rev l ++ [x]) eqn:E; [apply app_eq_nil in E as [_ ?]|].
Qed.

Lemma number_length n slots : length (fst (number n slots)) = length slots.
Proof.
  revert n. induction slots as [|[[x|]|b] slots IH]; intros n; cbn [number]; [done|..];
    [specialize (IH (n + 1))|specialize (IH n)..]; destruct (number _ slots); cbn in *; by rewrite IH.
Qed.

Lemma number_raw n slots i b : slots !! i = Some (SRaw b) -> nth i (fst (number n slots)) 0 = b.
Proof.
  revert n i. induction slots as [|[[x|]|b'] slots IH]; intros n [|i] Hi; try done; cbn [number];
    [specialize (IH (n + 1) i Hi)|specialize (IH n i Hi)| |specialize (IH n i Hi)];
    destruct (number _ slots); cbn in *; congruence.
Qed.

Lemma number_str n slots i o : slots !! i = Some (SStr o) ->
  match o with
  | None => nth i (fst (number n slots)) 0 = 0
  | Some x => n <= nth i (fst (number n slots)) 0 /\
              snd (number n slots) !! Z.to_nat (nth i (fst (number n slots)) 0 - n) = Some x
  end.
Proof.
  revert n i. induction slots as [|[[x|]|b] slots IH]; intros n [|i] Hi; try done; cbn [number].
  - injection Hi as <-. destruct (number _ slots). cbn. split; [lia|]. by rewrite Z.sub_diag.
  - specialize (IH (n + 1) i Hi). destruct (number (n + 1) slots) as [bs ss]. cbn [fst snd nth] in *.
    destruct o as [y|]; [|done]. destruct IH as [H1 H2]. split; [lia|].
    by replace (Z.to_nat (nth i bs 0 - n)) with (S (Z.to_nat (nth i bs 0 - (n + 1)))) by lia.
  - injection Hi as <-. by destruct (number _ slots).
  - specialize (IH n i Hi). by destruct (number n slots).
  - specialize (IH n i Hi). by destruct (number n slots).
Qed.

Lemma field_slot type handle slots i :
  field (sm_formatted (numbered type handle slots)) (4 + i) = nth i (fst (number 1 slots)) 0.
Proof. done. Qed.

Lemma slot_str type handle slots i o cap :
  slots !! i = Some (SStr o) ->
  sm_string (numbered type handle slots) cap (field (sm_formatted (numbered type handle slots)) (4 + i)) = shown cap o.
Proof.
  intros Hi. rewrite field_slot. apply (number_str 1) in Hi. unfold sm_string, shown. destruct o as [x|].
  - destruct Hi as [H1 H2]. rewrite (proj2 (Z.leb_gt _ 0)) by lia. cbn [numbered sm_strings]. rewrite H2. apply no_trail_rev.
  - by rewrite Hi.
Qed.

Lemma numbered_length type handle slots :
  field (sm_formatted (numbered type handle slots)) 1 = 4 + Z.of_nat (length slots).
Proof. unfold numbered, sm_formatted. cbn [field nth app sm_body]. by rewrite number_length. Qed.

Lemma lookup_app_add {A} (l k : list A) i : (l ++ k) !! (length l + i)%nat = k !! i.
Proof. rewrite lookup_app_r by lia. f_equal. lia. Qed.

(** Reading a record of the firmware learns its fields. *)
Lemma read_learns f d : fw_ok f ->
  read_structure (sm_string (fw_structure f)) (sm_formatted (fw_structure f)) d = learn d f.
Proof.
  intros [_ Hf]. unfold read_structure. cbv zeta.
  destruct f as [h v ver lo hi date extra|h m p v sn more|h m p v sn asset|h m k lock v extra|s]; cbn [fw_structure learn].
  1-4: rewrite numbered_length; cbn [fw_slots]; rewrite length_app; cbn [length];
    change (field (sm_formatted (numbered ?t ?h ?l)) 0) with t; cbn [Z.eqb andb Pos.eqb].
  5: { change (field (sm_formatted s) 0) with (sm_type s).
       rewrite !(proj2 (Z.eqb_neq (sm_type s) _)) by set_solver. done. }
  - rewrite (proj2 (Z.leb_le 9 _)) by lia. cbn [andb].
    by rewrite !(slot_str 0 h (_ ++ extra) 0 v), (slot_str 0 h (_ ++ extra) 1 ver), (slot_str 0 h (_ ++ extra) 4 date).
  - rewrite (proj2 (Z.leb_le 8 _)) by lia. cbn [andb].
    rewrite (slot_str 1 h (_ ++ more_slots more) 0 m), (slot_str 1 h (_ ++ more_slots more) 1 p), (slot_str 1 h (_ ++ more_slots more) 2 v) by done.
    destruct more as [|uuid w|uuid w sku family extra]; cbn [more_slots uuid_ok] in *; [done| |].
    + rewrite length_app, length_map, Hf. done.
    + rewrite !length_app, length_map, Hf. cbn [length].
      rewrite (proj2 (Z.ltb_lt 26 _)) by lia.
      assert (Hlk : forall i, ([SStr m; SStr p; SStr v; SStr sn] ++ map SRaw uuid ++ [SRaw w] ++ [SStr sku; SStr family] ++ extra) !! (21 + i)%nat
        = ([SStr sku; SStr family] ++ extra) !! i).
      { intros i. change (21 + i)%nat with (length [SStr m; SStr p; SStr v; SStr sn] + (17 + i))%nat. rewrite lookup_app_add.
        replace (17 + i)%nat with (length (map SRaw uuid) + (1 + i))%nat by (rewrite length_map; lia). by rewrite !lookup_app_add. }
      pose proof (slot_str 1 h _ 21 sku 64 (Hlk 0%nat)) as H1. pose proof (slot_str 1 h _ 22 family 64 (Hlk 1%nat)) as H2.
      change (4 + 21)%nat with 25%nat in H1. change (4 + 22)%nat with 26%nat in H2. by rewrite H1, H2.
  - rewrite (proj2 (Z.leb_le 8 _)) by lia. cbn [andb].
    rewrite (slot_str 2 h (_ ++ _) 0 m), (slot_str 2 h (_ ++ _) 1 p), (slot_str 2 h (_ ++ _) 2 v) by done.
    destruct asset as [[a extra]|]; [|done]. cbn [length]. rewrite (proj2 (Z.ltb_lt 8 _)) by lia.
    by rewrite (slot_str 2 h (_ ++ _) 4 a).
  - rewrite (proj2 (Z.leb_le 7 _)) by lia. cbn [andb].
    rewrite (slot_str 3 h (_ ++ extra) 0 m), (slot_str 3 h (_ ++ extra) 2 v) by done.
    f_equal. rewrite (field_slot _ _ _ 1), (number_raw 1 _ 1 (if lock then 128 + k else k)) by done.
    change 127 with (Z.ones 7). rewrite Z.land_ones by lia. change (2 ^ 7) with 128.
    destruct lock; [|by apply Z.mod_small]. change (128 + k) with (1 * 128 + k).
    rewrite Z.add_comm, Z.mod_add by lia. by apply Z.mod_small.
Qed.

(** C28: a firmware's table is read back. Written the way SMBIOS says, as
    records of named fields whose strings are numbered and whose layout
    grew with the versions, up to the structure of type 127 or the end of
    the bytes, with any other records in between, it gives the identity of
    the machine field by field: vendor, version and date of the BIOS, maker,
    product, version, SKU and family of the system, the board's with its
    asset tag, and the chassis's with its type less the lock bit; each string
    cut to its buffer and without trailing blanks. *)
Theorem table_reads_back header fs tl :
  length header = 8%nat -> Forall fw_ok fs -> table_end tl -> fs <> [] ->
  pfs_dmi (S (length fs)) (header ++ fw_table fs ++ tl) = Some (foldl learn no_dmi fs).
Proof.
  intros Hh Hf Htl Hne. unfold pfs_dmi. destruct (Nat.ltb_spec 8 (length (header ++ fw_table fs ++ tl))) as [_|Hlt].
  2: { destruct fs as [|f fs]; [done|]. unfold fw_table in Hlt. cbn [map concat] in Hlt. unfold encode in Hlt.
       rewrite !length_app, sm_formatted_length in Hlt. lia. }
  rewrite drop_app_length' by done. clear Hh Hne header. generalize no_dmi. unfold fw_table.
  induction Hf as [|f fs Hok _ IH]; intros d.
  - by apply read_table_end.
  - cbn [map concat length foldl]. rewrite <- app_assoc, read_table_encode.
    + rewrite read_learns by done. apply IH.
    + destruct Hok as [Hs Hf']. split; [|done]. destruct f; cbn; try done. set_solver.
Qed.

(** ** The modalias line *)

Lemma put_all_length keep s buf :
  (length (put_all keep s buf) <= Nat.max (length buf) (Nat.min 597 (length buf + length s)))%nat.
Proof.
  revert buf. induction s as [|c s IH]; intros buf; cbn [put_all length]; [lia|].
  destruct (Nat.ltb_spec (length buf) 597) as [Hl|]; [|lia]. specialize (IH (if keep c then buf ++ [c] else buf)).
  destruct (keep c); [rewrite length_app in IH; cbn [length] in IH|]; lia.
Qed.

Lemma signed_small x : 0 <= x < 128 -> (length (signed x) <= 3)%nat.
Proof.
  intros Hx. assert (Hall : forallb (fun n => (length (signed (Z.of_nat n)) <=? 3)%nat) (seq 0 128) = true) by (vm_compute; done).
  rewrite forallb_forall in Hall. rewrite <- (Z2Nat.id x) by lia. apply Nat.leb_le, Hall, in_seq. lia.
Qed.

Lemma put_part_length type i tag val buf :
  0 <= type < 128 ->
  (length (put_part type (i, (tag, val)) buf) <=
   Nat.max (Nat.max (length buf) (Nat.min 597 (length buf + length tag + length val)) + 1) (if (i =? 9)%nat then 597 else 0))%nat.
Proof.
  intros Ht. cbn [put_part]. cbv zeta. set (b1 := put_all _ tag buf). set (b2 := put_all _ val b1).
  pose proof (put_all_length (fun _ => true) tag buf : (length b1 <= _)%nat) as H1.
  pose proof (put_all_length (fun c => negb (c =? 32) && negb (c =? 58)) val b1 : (length b2 <= _)%nat) as H2.
  pose proof (signed_small type Ht) as Hs.
  destruct (Nat.eqb_spec i 9); cbn [andb]; [destruct (Nat.ltb_spec (length (b2 ++ [58])) 592)|];
    rewrite ?length_app in *; cbn [length] in *; unfold cut; rewrite ?length_take, ?length_app; cbn [length] in *;
    change (length (bytes "ct")) with 2%nat; lia.
Qed.

(** What a parsed table keeps to: its buffers. *)
Definition fits (d : dmi) : Prop :=
  Forall (fun x => (length x <= 63)%nat)
    [bios_vendor d; bios_version d; sys_vendor d; product_name d; product_version d; board_vendor d; board_name d;
     board_version d; chassis_vendor d; chassis_version d] /\
  (length (bios_date d) <= 31)%nat /\ 0 <= chassis_type d < 128.

Lemma no_trail_length s : (length (no_trail s) <= length s)%nat.
Proof. induction s as [|c s IH]; cbn; [lia|]. destruct (no_trail s); [destruct (c =? 32)|]; cbn in *; lia. Qed.

Lemma take_string_length cap s idx : (length (take_string cap s idx) <= cap - 1)%nat.
Proof.
  unfold take_string. destruct (idx <=? 0); [cbn; lia|]. destruct (seek _ _ _ _) as [x|]; [|cbn; lia].
  etransitivity; [apply no_trail_length|]. unfold cut. rewrite length_take. lia.
Qed.

Lemma read_structure_fits str p d :
  (forall cap idx, (length (str cap idx) <= cap - 1)%nat) -> fits d -> fits (read_structure str p d).
Proof.
  intros Hs (Hf & Hd & Hc). decompose_Forall_hyps. unfold read_structure, fits. cbv zeta.
  assert (H64 : forall i, (length (str 64%nat i) <= 63)%nat) by (intros i; apply (Hs 64%nat)).
  repeat case_match; (split; [repeat (apply Forall_cons; split; [first [apply H64|done]|]); apply Forall_nil; done|]);
    (split; [first [apply (Hs 32%nat)|done]|]); try done.
  change 127 with (Z.ones 7). rewrite Z.land_ones by lia. apply Z.mod_pos_bound. lia.
Qed.

Lemma read_table_fits fuel p d d' : fits d -> read_table fuel p d = Some d' -> fits d'.
Proof.
  revert p d. induction fuel as [|fuel IH]; intros p d Hd E; [done|]. cbn [read_table] in E.
  repeat case_match; simplify_eq; try done. eapply IH; [|exact E]. apply read_structure_fits; [|done].
  intros. apply take_string_length.
Qed.

(** The bound after a part of a number with a tag and a value of at most
    these lengths. *)
Definition part_bound (l : nat) (b : nat * (nat * nat)) : nat :=
  let '(i, (t, v)) := b in Nat.max (Nat.max l (Nat.min 597 (l + t + v)) + 1) (if (i =? 9)%nat then 597 else 0).

Lemma parts_length type ips bounds buf l :
  0 <= type < 128 -> (length buf <= l)%nat ->
  Forall2 (fun (ip : nat * (cstr * cstr)) b => fst ip = fst b /\ length (fst (snd ip)) = fst (snd b) /\ (length (snd (snd ip)) <= snd (snd b))%nat)
    ips bounds ->
  (length (foldl (fun buf ip => put_part type ip buf) buf ips) <= foldl part_bound l bounds)%nat.
Proof.
  intros Ht Hl Hb. revert buf l Hl. induction Hb as [|[i [tag val]] [i' [t v]] ips bounds (Hi & Htag & Hval) _ IH]; intros buf l Hl; [done|].
  cbn [foldl]. apply IH. cbn in Hi, Htag, Hval. subst. etransitivity; [by apply put_part_length|]. cbn [part_bound]. lia.
Qed.

Definition alias_bounds : list (nat * (nat * nat)) :=
  zip (seq 0 11) (zip [3; 3; 2; 3; 2; 3; 3; 2; 3; 3; 3]%nat [63; 63; 31; 63; 63; 63; 63; 63; 63; 63; 63]%nat).

(** whatever the firmware wrote, the modalias line, put together without
    a check at its end, stays within its 600 bytes: once the buffer is
    nearly full only the colons of the parts that are left follow, and the
    fields are too short for it to fill up before the ninth. *)
Theorem modalias_fits fuel got d : pfs_dmi fuel got = Some d -> (length (modalias d) <= 600)%nat.
Proof.
  unfold pfs_dmi. case_match; [|done]. intros E. apply read_table_fits in E; [|split; [repeat (apply Forall_cons; split; [cbn; lia|]); by apply Forall_nil|cbn; lia]].
  destruct E as (Hf & Hd & Hc). decompose_Forall_hyps. unfold modalias. rewrite length_app.
  assert (Hb : (foldl part_bound 4 alias_bounds = 599)%nat) by (vm_compute; done).
  pose proof (parts_length (chassis_type d) (zip (seq 0 11) (alias_parts d)) alias_bounds (bytes "dmi:") 4 Hc ltac:(vm_compute; lia)) as Hp.
  rewrite Hb in Hp. etransitivity; [apply Nat.add_le_mono_r, Hp|done].
  unfold alias_parts, alias_bounds. cbn [seq zip zip_with]. repeat (apply Forall2_cons; split; [cbn [fst snd]; split; [done|split; [done|done]]|]). by apply Forall2_nil.
Qed.

(** ** A concrete table *)

Definition toy_header : list Z := [0; 3; 2; 0; 0; 0; 0; 0].
Definition toy_fw : list firmware :=
  [FwBios 0 (Some (bytes "Acme Firmware  ")) (Some (bytes "1.02")) 0 240 (Some (bytes "03/04/2024")) [SRaw 15];
   FwOther (Structure 11 258 [] []);
   FwSystem 257 (Some (bytes "Acme")) (Some (bytes "Widget 9")) None (Some (bytes "S/N 7"))
     (Sys24 (replicate 16 9) 6 (Some (bytes "SKU-1")) (Some (bytes "Widgets")) []);
   FwChassis 259 None 10 true (Some (bytes "r2")) []].
Definition toy_tail : list Z := [127; 4; 3; 1; 0; 0].

Lemma table_reads_back_witness :
  pfs_dmi 5 (toy_header ++ fw_table toy_fw ++ toy_tail) = Some (foldl learn no_dmi toy_fw) /\
  bios_vendor (foldl learn no_dmi toy_fw) = bytes "Acme Firmware" /\
  product_family (foldl learn no_dmi toy_fw) = bytes "Widgets" /\
  chassis_type (foldl learn no_dmi toy_fw) = 10 /\ have_board (foldl learn no_dmi toy_fw) = false.
Proof.
  split; [|vm_compute; done].
  apply (table_reads_back toy_header toy_fw toy_tail); [done| |by right|done].
  repeat (apply Forall_cons; split; [split; [repeat (apply Forall_cons; split; [split; [done|repeat constructor; done]|]); apply Forall_nil; done|try done; try set_solver]|]).
  by apply Forall_nil.
Defined.

(** The longest fields fill the buffer to its last byte. *)
Definition long_value : cstr := replicate 63 97.
Definition long_table : list structure :=
  [Structure 0 0 [1; 2; 0; 0; 3] [long_value; long_value; long_value];
   Structure 1 1 [1; 2; 3; 0] [long_value; long_value; long_value];
   Structure 2 2 [1; 2; 3; 0] [long_value; long_value; long_value];
   Structure 3 3 [1; 3; 2] [long_value; long_value]].

Lemma modalias_fits_witness :
  exists d, pfs_dmi 5 (toy_header ++ concat (map encode long_table) ++ toy_tail) = Some d /\ (length (modalias d) = 600)%nat /\
    (length (modalias d) <= 600)%nat.
Proof.
  assert (Hd : is_Some (pfs_dmi 5 (toy_header ++ concat (map encode long_table) ++ toy_tail))) by (vm_compute; by eexists).
  destruct (pfs_dmi 5 _) as [d|] eqn:E; [|by destruct Hd]. exists d. split; [done|].
  split; [|exact (modalias_fits 5 _ d E)]. vm_compute in E. injection E as <-. by vm_compute.
Defined.
