(* ===== verification/SysWalk.v ===== *)
(** * shim/procfs/core/sysfs.c and power.c, the slices of /sys on Windows

    Each slice is one walk that emits (relative path, content) pairs out of
    NT's answers, kept for a while; the files on disk and the content handed
    to a reader both come out of it. What NT answers is a function of the
    time. The theorems: a file is on disk exactly when a reader finds
    content for it, under directories made before it; the tree is written
    again exactly when its names changed; and the processor records NT hands
    out are read back as the topology they state. *)
From S2P Require Import Prelude PfsText SockOpt SysFs ProcFs Materialize.

(** ** power.c *)

(** SYSTEM_BATTERY_STATE, and what the battery device says of its design. *)
Record battery_state := BatteryState {
  bs_ac : Z; bs_present : Z; bs_charging : Z; bs_discharging : Z; bs_max : Z; bs_remaining : Z; bs_rate : Z }.
Record battery_design := BatteryDesign { bd_capacity : Z; bd_cycles : Z; bd_chemistry : cstr }.

(** struct pfs_batt *)
Record batt := Batt {
  bt_present : bool; bt_ac : bool; bt_charging : bool; bt_discharging : bool; bt_max_mwh : Z; bt_rem_mwh : Z; bt_rate_mw : Z;
  bt_design_mwh : Z; bt_cycles : Z; bt_chem : cstr }.

(** batt_design: one answer is kept for good. *)
Definition batt_design (kept asked : option battery_design) : battery_design * option battery_design :=
  let kept := match kept with Some _ => kept | None => asked end in
  (default (BatteryDesign 0 0 []) kept, kept).

Definition pfs_battery (state : option battery_state) (asked kept : option battery_design) : option batt * option battery_design :=
  match state with
  | None => (None, kept)
  | Some b =>
      let rate := if bs_rate b <? 0 then s32 (- bs_rate b) else bs_rate b in
      let out (d : battery_design) :=
        Batt (negb (bs_present b =? 0)) (negb (bs_ac b =? 0)) (negb (bs_charging b =? 0)) (negb (bs_discharging b =? 0))
          (bs_max b) (bs_remaining b) rate (bd_capacity d) (bd_cycles d) (bd_chemistry d) in
      if negb (bs_present b =? 0) then let '(d, kept) := batt_design kept asked in (Some (out d), kept)
      else (Some (out (BatteryDesign 0 0 [])), kept)
  end.

(** How many processors are asked about. *)
Definition cpu_count (n cap : Z) : Z := Z.min cap (Z.min 64 (Z.max 1 n)).

(** pfs_cpu_mhz: the current and the greatest frequency of each, none when
    NT does not answer. *)
Definition pfs_cpu_mhz (processors : Z) (info : option (list (Z * Z))) (cap : Z) : list (Z * Z) :=
  match info with Some p => take (Z.to_nat (cpu_count processors cap)) p | None => [] end.

(** *** The processor relationship records *)

Record topology := Topology { tp_core : list Z; tp_pkg : list Z; tp_n : Z; tp_ncore : Z; tp_npkg : Z }.

Definition bit_set (mask c : Z) : bool := Z.testbit mask c.

(** One GROUP_AFFINITY: the number [id] for each processor of its mask. *)
Fixpoint number_cpus (mask id : Z) (cs : list nat) (ids : list Z) (n : Z) : list Z * Z :=
  match cs with
  | [] => (ids, n)
  | c :: cs =>
      if bit_set mask (Z.of_nat c) then number_cpus mask id cs (<[c := id]> ids) (Z.max n (Z.of_nat c + 1))
      else number_cpus mask id cs ids n
  end.

Fixpoint number_groups (buf : list Z) (off : nat) (gs : list nat) (cap : nat) (id : Z) (ids : list Z) (n : Z) : list Z * Z :=
  match gs with
  | [] => (ids, n)
  | g :: gs =>
      let ga := (off + 8 + 24 + g * 16)%nat in
      if negb (rd 2 buf (ga + 8) =? 0) then number_groups buf off gs cap id ids n
      else let '(ids, n) := number_cpus (rd 8 buf ga) id (seq 0 cap) ids n in number_groups buf off gs cap id ids n
  end.

(** One pass over the records, cores first and then packages; [None] only
    without fuel. *)
Fixpoint records_pass (fuel : nat) (pass : bool) (buf : list Z) (len off : nat) (cap : nat) (t : topology) : option topology :=
  match fuel with
  | O => None
  | S fuel =>
      if (len <? off + 32)%nat then Some t
      else
        let r := rd 4 buf off in
        let sz := rd 4 buf (off + 4) in
        if (sz =? 0) || (Z.of_nat len <? Z.of_nat off + sz) then Some t
        else
          let t :=
            if r =? (if pass then 3 else 0) then
              let groups := seq 0 (Z.to_nat (rd 2 buf (off + 8 + 22))) in
              if pass then
                let '(ids, n) := number_groups buf off groups cap (tp_npkg t mod 256) (tp_pkg t) (tp_n t) in
                Topology (tp_core t) ids n (tp_ncore t) (tp_npkg t + 1)
              else
                let '(ids, n) := number_groups buf off groups cap (tp_ncore t mod 256) (tp_core t) (tp_n t) in
                Topology ids (tp_pkg t) n (tp_ncore t + 1) (tp_npkg t)
            else t in
          records_pass fuel pass buf len (off + Z.to_nat sz) cap t
  end.

(** pfs_cpu_topology: how many processors, and their cores and packages. *)
Definition pfs_cpu_topology (fuel : nat) (answer : option (list Z)) (cap : nat) : option (Z * list Z * list Z) :=
  let cap := Nat.min cap 64 in
  match answer with
  | None => Some (0, [], [])
  | Some buf =>
      match records_pass fuel false buf (length buf) 0 cap (Topology (replicate cap 0) (replicate cap 0) 0 0 0) with
      | None => None
      | Some t =>
          match records_pass fuel true buf (length buf) 0 cap t with
          | None => None
          | Some t => Some (if tp_ncore t =? 0 then 0 else tp_n t, tp_core t, tp_pkg t)
          end
      end
  end.

(** ** The walks *)

Definition emitted : Type := list (cstr * cstr).

Definition a_line (s : cstr) : cstr := s ++ [10].

Definition net_walk_one (s : ifstat) (maclen : Z) : emitted :=
  let rel (n : string) := cut 200 (if_name s ++ bytes "/" ++ bytes n) in
  let stat (n : string) (v : Z) := (cut 200 (if_name s ++ bytes "/statistics/" ++ bytes n), a_line (decimal v)) in
  let mac := concat (imap (fun k b => hex2 (if Z.of_nat k <? maclen then b else 0) ++ (if (k <? 5)%nat then [58] else [10])) (take 6 (if_mac s))) in
  [stat "rx_bytes"%string (if_rx_bytes s); stat "tx_bytes"%string (if_tx_bytes s); stat "rx_packets"%string (if_rx_pkts s);
   stat "tx_packets"%string (if_tx_pkts s); stat "rx_errors"%string (if_rx_errs s); stat "tx_errors"%string (if_tx_errs s);
   stat "rx_dropped"%string (if_rx_drop s); stat "tx_dropped"%string (if_tx_drop s);
   (rel "mtu"%string, a_line (decimal (if_mtu s)));
   (rel "operstate"%string, a_line (bytes (if if_up s then "up" else "down")));
   (rel "address"%string, mac);
   (rel "carrier"%string, a_line (bytes (if if_up s then "1" else "0")));
   (rel "speed"%string, a_line (if if_up s && negb (if_speed_mbps s =? 0) then decimal (if_speed_mbps s) else bytes "-1"))].

Definition net_walk (ifs : list (ifstat * Z)) : emitted := concat (map (fun s => net_walk_one (fst s) (snd s)) ifs).

(** [(uint64_t)x * k] of an unsigned and of a signed 32-bit number. *)
Definition mul64 (x k : Z) : Z := (x mod 2 ^ 64 * k) mod 2 ^ 64.

Definition power_walk (answer : option batt) : emitted :=
  match answer with
  | None => []
  | Some b =>
      let text (n : string) (v : string) := (bytes "BAT0/" ++ bytes n, a_line (bytes v)) in
      let num (n : string) (v : Z) := (bytes "BAT0/" ++ bytes n, a_line (decimal v)) in
      [(bytes "ADP0/type", a_line (bytes "Mains")); (bytes "ADP0/online", a_line (bytes (if bt_ac b then "1" else "0")))] ++
      if negb (bt_present b) then []
      else
        [text "type"%string "Battery"%string; num "present"%string 1;
         text "status"%string (if bt_charging b then "Charging"%string else if bt_discharging b then "Discharging"%string
                               else if bt_max_mwh b <=? bt_rem_mwh b then "Full"%string else "Unknown"%string);
         num "capacity"%string (if bt_max_mwh b =? 0 then 0 else mul64 (bt_rem_mwh b) 100 / bt_max_mwh b);
         num "energy_now"%string (mul64 (bt_rem_mwh b) 1000);
         num "energy_full"%string (mul64 (bt_max_mwh b) 1000);
         num "energy_full_design"%string (mul64 (if bt_design_mwh b =? 0 then bt_max_mwh b else bt_design_mwh b) 1000);
         num "cycle_count"%string (bt_cycles b);
         num "power_now"%string (mul64 (bt_rate_mw b) 1000);
         num "voltage_now"%string 11400000;
         text "model_name"%string "APE Battery"%string; text "manufacturer"%string "rust-ape"%string;
         text "technology"%string (if bool_decide (take 4 (bt_chem b) = bytes "NiCd") then "NiCd"%string
                                   else if bool_decide (take 4 (bt_chem b) = bytes "NiMH") then "NiMH"%string
                                   else if bool_decide (take 3 (bt_chem b) = bytes "LiP") then "Li-poly"%string else "Li-ion"%string)]
  end.

Definition cpu_walk_one (i : nat) (cur max : Z) (topo : option (Z * Z)) : emitted :=
  let dir := bytes "cpu" ++ decimal (Z.of_nat i) in
  let freq (n : string) (mhz : Z) := (cut 64 (dir ++ bytes "/cpufreq/" ++ bytes n), a_line (decimal ((mhz * 1000) mod 2 ^ 32))) in
  let top (n : string) (v : Z) := (cut 64 (dir ++ bytes "/topology/" ++ bytes n), a_line (decimal v)) in
  [freq "scaling_cur_freq"%string cur; freq "scaling_max_freq"%string max; freq "cpuinfo_max_freq"%string max;
   freq "scaling_min_freq"%string 0; freq "cpuinfo_min_freq"%string 0;
   top "core_id"%string (match topo with Some (c, _) => c | None => Z.of_nat i end);
   top "physical_package_id"%string (match topo with Some (_, p) => p | None => 0 end)].

(** The frequencies, and of the first [topo] processors core and package. *)
Definition cpu_walk (mhz : list (Z * Z)) (topo : Z * list Z * list Z) : emitted :=
  let '(n, core, pkg) := topo in
  match mhz with
  | [] => []
  | _ =>
      let range := a_line (bytes "0-" ++ decimal (Z.of_nat (length mhz) - 1)) in
      [(bytes "online", range); (bytes "possible", range); (bytes "present", range)] ++
      concat (imap (fun i m => cpu_walk_one i (fst m) (snd m)
                                 (if Z.of_nat i <? n then Some (nth i core 0, nth i pkg 0) else None)) mhz)
  end.

(** A walk keeps NT's answer: when it was asked (0 never) and what it emits
    for it. *)
Record walker := Walker { wk_ms : Z; wk_ask : Z -> emitted }.
Record answer := Answer { an_last : Z; an_emits : emitted }.

Definition run_walk (w : walker) (t : Z) (k : answer) : answer :=
  if (an_last k =? 0) || (wk_ms w <=? t - an_last k) then Answer t (wk_ask w t) else k.

(** ** The carrier on disk *)

Definition names_digest (l : emitted) : Z :=
  foldl (fun h e => pc_fnv64 (fst e ++ [0]) h) FNV_BASIS l.

(** [mkdir -p] of the parents, at every slash of the relative path. *)
Fixpoint parents (base done rel : cstr) : list act :=
  match rel with
  | [] => []
  | c :: rel => (if c =? 47 then [Mkdir (base ++ bytes "/" ++ done)] else []) ++ parents base (done ++ [c]) rel
  end.

Definition mat_emit (base : cstr) (e : cstr * cstr) : list act :=
  let path := base ++ bytes "/" ++ fst e in
  if (600 <=? length path)%nat then [] else parents base [] (fst e) ++ [WriteFile path (snd e)].

Definition mat_all (base : cstr) (l : emitted) : list act := concat (map (mat_emit base) l).

(** A slice's own statics: the names on disk and when they were looked at. *)
Record slice := Slice { sl_digest : Z; sl_last : Z }.

(** The time is read three times: by the slice and by either walk. *)
Definition ensure_sysfs_slice (base : cstr) (w : walker) (ms t t1 t2 : Z) (s : slice) (k : answer) : slice * answer * list act :=
  if negb (sl_last s =? 0) && (t - sl_last s <? ms) then (s, k, [])
  else
    let k1 := run_walk w t1 k in
    let d := names_digest (an_emits k1) in
    if d =? sl_digest s then (Slice (sl_digest s) t, k1, [])
    else
      let k2 := run_walk w t2 k1 in
      (Slice d t, k2, [RmRf base; Mkdir base] ++ mat_all base (an_emits k2)).

(** ** The carrier for a reader *)

Fixpoint pick (rel : cstr) (l : emitted) : option cstr :=
  match l with
  | [] => None
  | (r, v) :: l => if bool_decide (r = rel) then Some v else pick rel l
  end.

Inductive slice_id := SliceNet | SlicePower | SliceCpu | SliceDmi.

(** g_sysfs: the prefix, its length, the slice. *)
Definition g_sysfs : list (cstr * nat * slice_id) :=
  [(bytes "/sys/class/net", 14%nat, SliceNet); (bytes "/sys/class/power_supply", 23%nat, SlicePower);
   (bytes "/sys/devices/system/cpu", 23%nat, SliceCpu); (bytes "/sys/class/dmi", 14%nat, SliceDmi);
   (bytes "/sys/devices/virtual/dmi", 24%nat, SliceDmi)].

Definition slice_dir (i : slice_id) : cstr :=
  bytes (match i with SliceNet => "sysfs-net" | SlicePower => "sysfs-power" | SliceCpu => "sysfs-cpu" | SliceDmi => "sysfs-dmi" end).

Definition pc_sysfs_match (path : cstr) : option (cstr * nat * slice_id) :=
  find (fun '(prefix, len, _) => bool_decide (take len path = prefix) && ((path.[len] =? 0) || (path.[len] =? 47))) g_sysfs.

#[export] Instance slice_id_eq_dec : EqDecision slice_id.
Proof. solve_decision. Defined.

(** The slices as they stand: who walks, and the answers kept. *)
Definition walks : Type := slice_id -> option walker.
Definition answers : Type := slice_id -> answer.

(** The first slice with a walk below whose prefix the path lies. *)
Fixpoint gen_from (ws : walks) (l : list (cstr * nat * slice_id)) (path : cstr) (t : Z) (ks : answers) : option cstr * answers :=
  match l with
  | [] => (None, ks)
  | (prefix, len, i) :: l =>
      match ws i with
      | Some w =>
          if bool_decide (take len path = prefix) && (path.[len] =? 47) then
            let k := run_walk w t (ks i) in
            (pick (drop (S len) path) (an_emits k), fun j => if bool_decide (j = i) then k else ks j)
          else gen_from ws l path t ks
      | None => gen_from ws l path t ks
      end
  end.

Definition pc_gen_sysfs (ws : walks) (path : cstr) (t : Z) (ks : answers) : option cstr * answers := gen_from ws g_sysfs path t ks.

(** ** The records read back *)

(** A relationship record: of cores (0), packages (3) or another kind. *)
Record relation := Relation { rl_kind : Z; rl_flags : list Z; rl_masks : list (Z * Z); rl_pad : list Z }.

Definition affinity (m : Z * Z) : list Z := le 8 (fst m) ++ le 2 (snd m) ++ replicate 6 0.
Definition rl_size (r : relation) : nat := (32 + 16 * length (rl_masks r) + length (rl_pad r))%nat.
Definition record_bytes (r : relation) : list Z :=
  le 4 (rl_kind r) ++ le 4 (Z.of_nat (rl_size r)) ++ rl_flags r ++ le 2 (Z.of_nat (length (rl_masks r))) ++
  concat (map affinity (rl_masks r)) ++ rl_pad r.

Definition relation_ok (r : relation) : Prop :=
  0 <= rl_kind r < 2 ^ 32 /\ length (rl_flags r) = 22%nat /\ Z.of_nat (length (rl_masks r)) < 2 ^ 16 /\ Z.of_nat (rl_size r) < 2 ^ 32 /\
  Forall (fun m => 0 <= fst m < 2 ^ 64 /\ 0 <= snd m < 2 ^ 16) (rl_masks r).

(** Whether a record names a processor, and the number of the last record of
    a kind that does. *)
Definition names_cpu (r : relation) (c : nat) : bool :=
  existsb (fun m => (snd m =? 0) && bit_set (fst m) (Z.of_nat c)) (rl_masks r).

Fixpoint numbered (kind : Z) (rs : list relation) (k d : Z) (c : nat) : Z :=
  match rs with
  | [] => d
  | r :: rs =>
      if rl_kind r =? kind then numbered kind rs (k + 1) (if names_cpu r c then k mod 256 else d) c
      else numbered kind rs k d c
  end.

Definition count_kind (kind : Z) (rs : list relation) : Z := Z.of_nat (length (filter (fun r => rl_kind r = kind) rs)).

(** [n] is the number of processors up to the last one named by [p]. *)
Definition top_of (cap : nat) (p : nat -> Prop) (n : Z) : Prop :=
  (forall c, (c < cap)%nat -> p c -> Z.of_nat c + 1 <= n) /\ (n = 0 \/ exists c, (c < cap)%nat /\ p c /\ n = Z.of_nat c + 1).

(** What numbering does: the processors of [p] get [id], the others keep
    theirs, and the count reaches the last of them. *)
Definition marks (p : nat -> bool) (id : Z) (ids : list Z) (n : Z) (r : list Z * Z) : Prop :=
  length (fst r) = length ids /\
  (forall c, (c < length ids)%nat -> fst r !! c = if p c then Some id else ids !! c) /\
  n <= snd r /\ (forall c, (c < length ids)%nat -> p c = true -> Z.of_nat c + 1 <= snd r) /\
  (snd r = n \/ exists c, (c < length ids)%nat /\ p c = true /\ snd r = Z.of_nat c + 1).

Lemma marks_none id ids n : marks (fun _ => false) id ids n (ids, n).
Proof. split; [done|]. split; [done|]. split; [done|]. split; [done|by left]. Qed.

Lemma marks_trans p q id ids n r r' :
  marks p id ids n r -> marks q id (fst r) (snd r) r' -> marks (fun c => p c || q c) id ids n r'.
Proof.
  intros (Hl & Hi & Hn & Ht & He) (Hl' & Hi' & Hn' & Ht' & He'). rewrite Hl in *.
  split; [congruence|]. split; [|split; [lia|split]].
  - intros c Hc. rewrite Hi' by done. destruct (q c); [by rewrite orb_true_r|]. rewrite orb_false_r. by apply Hi.
  - intros c Hc [Hp|Hq]%orb_true_iff; [pose proof (Ht c Hc Hp); lia|by apply Ht'].
  - destruct He' as [->|(c & ? & Hq & ->)]; [destruct He as [->|(c & ? & Hp & ->)]; [by left|]|]; right; exists c; (split; [done|]).
    + by rewrite Hp.
    + by rewrite Hq, orb_true_r.
Qed.

Lemma marks_ext p q id ids n r :
  (forall c, (c < length ids)%nat -> p c = q c) -> marks p id ids n r -> marks q id ids n r.
Proof.
  intros E (Hl & Hi & Hn & Ht & He). split; [done|]. split; [intros c Hc; rewrite <- E by done; by apply Hi|]. split; [done|].
  split; [intros c Hc; rewrite <- E by done; by apply Ht|]. destruct He as [?|(c & Hc & Hp & ?)]; [by left|right].
  exists c. rewrite <- E by done. done.
Qed.

Lemma number_cpus_marks mask id cs ids n :
  Forall (fun c => (c < length ids)%nat) cs ->
  marks (fun c => bool_decide (c ∈ cs) && bit_set mask (Z.of_nat c)) id ids n (number_cpus mask id cs ids n).
Proof.
  revert ids n. induction cs as [|c cs IH]; intros ids n Hcs.
  { eapply marks_ext; [|apply marks_none]. intros c _. by rewrite bool_decide_false by apply not_elem_of_nil. }
  apply Forall_cons in Hcs as [Hc Hcs]. cbn [number_cpus]. destruct (bit_set mask (Z.of_nat c)) eqn:Eb.
  - apply (marks_ext (fun c' => bool_decide (c' = c) || (bool_decide (c' ∈ cs) && bit_set mask (Z.of_nat c')))).
    { intros c' _. rewrite (bool_decide_ext (c' ∈ c :: cs) (c' = c \/ c' ∈ cs)), bool_decide_or by apply elem_of_cons.
      destruct (decide (c' = c)) as [->|Hne]; [by rewrite Eb, !andb_true_r|]. by rewrite (bool_decide_false (c' = c)). }
    eapply (marks_trans _ _ _ _ _ (<[c := id]> ids, Z.max n (Z.of_nat c + 1))).
    + split; [apply length_insert|]. split; [|split; [cbn; lia|split]]; cbn.
      * intros c' Hc'. case_bool_decide as E; [rewrite E; by apply list_lookup_insert_eq|apply list_lookup_insert_ne; congruence].
      * intros c' _ ->%bool_decide_eq_true. lia.
      * destruct (Z.max_spec n (Z.of_nat c + 1)) as [[_ ->]|[_ ->]]; [right; exists c; by rewrite bool_decide_true|by left].
    + apply IH. cbn. by rewrite length_insert.
  - eapply marks_ext; [|by apply IH]. intros c' _. destruct (decide (c' = c)) as [->|Hne]; [by rewrite Eb, !andb_false_r|].
    f_equal. apply bool_decide_ext. rewrite elem_of_cons. split; [by right|by intros [?|?]].
Qed.

Lemma affinity_length m : length (affinity m) = 16%nat.
Proof. unfold affinity. by rewrite !length_app, !length_le. Qed.

(** The masks of a record are met where the record has them. *)
Lemma number_groups_marks ms g0 pre post off id ids n :
  length pre = (off + 8 + 24 + g0 * 16)%nat -> Forall (fun m => 0 <= fst m < 2 ^ 64 /\ 0 <= snd m < 2 ^ 16) ms ->
  marks (fun c => existsb (fun m => (snd m =? 0) && bit_set (fst m) (Z.of_nat c)) ms) id ids n
    (number_groups (pre ++ concat (map affinity ms) ++ post) off (seq g0 (length ms)) (length ids) id ids n).
Proof.
  revert g0 pre ids n. induction ms as [|[mask group] ms IH]; intros g0 pre ids n Hpre Hms; [apply marks_none|].
  apply Forall_cons in Hms as [[Hm Hg] Hms]. cbn [fst snd] in Hm, Hg. cbn [length seq number_groups map concat existsb]. cbv zeta.
  rewrite <- !app_assoc. set (tl := concat (map affinity ms) ++ post).
  assert (Hmask : rd 8 (pre ++ affinity (mask, group) ++ tl) (off + 8 + 24 + g0 * 16) = mask).
  { rewrite (rd_app _ _ _ _ _ Hpre) by lia. rewrite Nat.sub_diag. unfold affinity. cbn [fst snd]. rewrite <- !app_assoc, rd_le.
    by apply Z.mod_small. }
  assert (Hgroup : rd 2 (pre ++ affinity (mask, group) ++ tl) (off + 8 + 24 + g0 * 16 + 8) = group).
  { rewrite (rd_app _ _ _ _ _ Hpre) by lia. unfold affinity. cbn [fst snd]. rewrite <- !app_assoc.
    rewrite (rd_app _ _ _ _ 8) by (rewrite ?length_le; lia). replace (_ - 8)%nat with 0%nat by lia. rewrite rd_le. by apply Z.mod_small. }
  rewrite Hmask, Hgroup.
  assert (Hassoc : pre ++ affinity (mask, group) ++ tl = (pre ++ affinity (mask, group)) ++ tl) by apply app_assoc.
  assert (Hpre' : length (pre ++ affinity (mask, group)) = (off + 8 + 24 + S g0 * 16)%nat) by (rewrite length_app, affinity_length; lia).
  rewrite Hassoc. cbn [fst snd]. destruct (group =? 0); cbn [negb andb orb]; [|exact (IH (S g0) _ ids n Hpre' Hms)].
  pose proof (number_cpus_marks mask id (seq 0 (length ids)) ids n) as Hm1.
  destruct (number_cpus mask id (seq 0 (length ids)) ids n) as [ids1 n1].
  assert (Hall : Forall (fun c => (c < length ids)%nat) (seq 0 (length ids))) by (apply Forall_forall; intros c Hc%elem_of_seq; lia).
  specialize (Hm1 Hall). eapply (marks_trans _ _ _ _ _ (ids1, n1)).
  - eapply marks_ext; [|exact Hm1]. intros c Hc. cbn. rewrite bool_decide_true; [done|]. apply elem_of_seq. lia.
  - assert (Hl : length ids1 = length ids) by apply Hm1. cbn [fst snd]. rewrite <- Hl. exact (IH (S g0) _ ids1 n1 Hpre' Hms).
Qed.

(** ** The passes over the records *)

Definition pass_kind (pass : bool) : Z := if pass then 3 else 0.

(** What one pass makes of a state, by the records it goes over. *)
Definition passed (pass : bool) (rs : list relation) (cap : nat) (t t' : topology) : Prop :=
  let p c := existsb (fun r => (rl_kind r =? pass_kind pass) && names_cpu r c) rs in
  let ids (t : topology) := if pass then tp_pkg t else tp_core t in
  let count (t : topology) := if pass then tp_npkg t else tp_ncore t in
  (if pass then tp_core t' = tp_core t /\ tp_ncore t' = tp_ncore t else tp_pkg t' = tp_pkg t /\ tp_npkg t' = tp_npkg t) /\
  length (ids t') = cap /\
  (forall c, (c < cap)%nat -> ids t' !! c = Some (numbered (pass_kind pass) rs (count t) (nth c (ids t) 0) c)) /\
  count t' = count t + count_kind (pass_kind pass) rs /\
  tp_n t <= tp_n t' /\ (forall c, (c < cap)%nat -> p c = true -> Z.of_nat c + 1 <= tp_n t') /\
  (tp_n t' = tp_n t \/ exists c, (c < cap)%nat /\ p c = true /\ tp_n t' = Z.of_nat c + 1).

Lemma record_bytes_length r : relation_ok r -> length (record_bytes r) = rl_size r.
Proof.
  intros (_ & Hf & _). unfold record_bytes, rl_size. rewrite !length_app, !length_le, Hf.
  assert (Hc : length (concat (map affinity (rl_masks r))) = (16 * length (rl_masks r))%nat).
  { induction (rl_masks r) as [|m ms IH]; [done|]. cbn [map concat length]. rewrite length_app, affinity_length, IH. lia. }
  rewrite Hc. lia.
Qed.

(** The fields of the record at an offset. *)
Lemma record_fields pre r rest :
  relation_ok r ->
  let buf := pre ++ record_bytes r ++ rest in
  rd 4 buf (length pre) = rl_kind r /\ rd 4 buf (length pre + 4) = Z.of_nat (rl_size r) /\
  rd 2 buf (length pre + 8 + 22) = Z.of_nat (length (rl_masks r)).
Proof.
  intros (Hk & Hf & Hm & Hs & _) buf. unfold buf, record_bytes. repeat split.
  - rewrite (rd_app _ _ _ _ _ eq_refl) by lia. rewrite Nat.sub_diag, <- !app_assoc, rd_le. by apply Z.mod_small.
  - rewrite (rd_app _ _ _ _ _ eq_refl) by lia. rewrite <- !app_assoc, (rd_app _ _ _ _ 4) by (rewrite ?length_le; lia).
    replace (_ - _ - 4)%nat with 0%nat by lia. rewrite rd_le. apply Z.mod_small. change (256 ^ Z.of_nat 4) with (2 ^ 32). lia.
  - rewrite (rd_app _ _ _ _ _ eq_refl) by lia. rewrite <- !app_assoc, (rd_app _ _ _ _ 4) by (rewrite ?length_le; lia).
    rewrite (rd_app _ _ _ _ 4) by (rewrite ?length_le; lia). rewrite (rd_app _ _ _ _ 22) by (done || lia).
    replace (_ - _ - 4 - 4 - 22)%nat with 0%nat by lia. rewrite rd_le. apply Z.mod_small. change (256 ^ Z.of_nat 2) with (2 ^ 16). lia.
Qed.

(** Where its masks start. *)
Lemma record_split pre r rest :
  pre ++ record_bytes r ++ rest =
    (pre ++ le 4 (rl_kind r) ++ le 4 (Z.of_nat (rl_size r)) ++ rl_flags r ++ le 2 (Z.of_nat (length (rl_masks r)))) ++
    concat (map affinity (rl_masks r)) ++ rl_pad r ++ rest.
Proof. unfold record_bytes. by rewrite <- !app_assoc. Qed.

Lemma passed_none pass cap t :
  length (tp_core t) = cap -> length (tp_pkg t) = cap -> passed pass [] cap t t.
Proof.
  intros Hc Hp. unfold passed. cbn [existsb numbered]. rewrite Z.add_0_r.
  split; [by destruct pass|]. split; [by destruct pass|]. split; [|split; [done|split; [lia|split; [done|by left]]]].
  intros c Hl. destruct pass; (destruct (nth_lookup_or_length (tp_core t) c 0), (nth_lookup_or_length (tp_pkg t) c 0); (done || lia)).
Qed.

Lemma nth_of_lookup (l : list Z) c x : l !! c = Some x -> nth c l 0 = x.
Proof. intros. by apply nth_lookup_Some. Qed.

(** A record of another kind, and one of the kind of the pass. *)
Lemma passed_skip pass r rs cap t t' :
  rl_kind r <> pass_kind pass -> passed pass rs cap t t' -> passed pass (r :: rs) cap t t'.
Proof.
  intros Hk (H1 & H2 & H3 & H4 & H5 & H6 & H7). unfold passed, count_kind. cbn [existsb numbered].
  rewrite (proj2 (Z.eqb_neq _ _) Hk), filter_cons_False by done. done.
Qed.

Definition tick (pass : bool) (r : list Z * Z) (t : topology) : topology :=
  if pass then Topology (tp_core t) (fst r) (snd r) (tp_ncore t) (tp_npkg t + 1)
  else Topology (fst r) (tp_pkg t) (snd r) (tp_ncore t + 1) (tp_npkg t).

Lemma passed_step pass r rs cap t res t' :
  rl_kind r = pass_kind pass -> length (tp_core t) = cap -> length (tp_pkg t) = cap ->
  marks (names_cpu r) ((if pass then tp_npkg t else tp_ncore t) mod 256) (if pass then tp_pkg t else tp_core t) (tp_n t) res ->
  passed pass rs cap (tick pass res t) t' -> passed pass (r :: rs) cap t t'.
Proof.
  intros Hk Hc Hp (Hl & Hi & Hn & Ht & He) (H1 & H2 & H3 & H4 & H5 & H6 & H7).
  unfold passed, count_kind. cbn [existsb numbered]. rewrite (proj2 (Z.eqb_eq _ _) Hk), filter_cons_True by done. cbn [andb].
  assert (Hlen : length (if pass then tp_pkg t else tp_core t) = cap) by by destruct pass. rewrite Hlen in *.
  split; [by destruct pass|]. split; [done|]. split; [|split; [|split; [|split]]].
  - intros c Hcc. rewrite (H3 c Hcc). f_equal. specialize (Hi c Hcc).
    assert (Hd : nth c (fst res) 0 = (if names_cpu r c then (if pass then tp_npkg t else tp_ncore t) mod 256
                                      else nth c (if pass then tp_pkg t else tp_core t) 0)).
    { apply nth_of_lookup. rewrite Hi. destruct (names_cpu r c); [done|].
      destruct (nth_lookup_or_length (if pass then tp_pkg t else tp_core t) c 0); [done|lia]. }
    destruct pass; cbn [tick tp_pkg tp_core tp_npkg tp_ncore]; by rewrite Hd.
  - rewrite H4. cbn [length]. unfold count_kind. destruct pass; cbn [tick tp_npkg tp_ncore]; lia.
  - destruct pass; cbn [tick tp_n] in H5; lia.
  - assert (Hle : snd res <= tp_n t') by (destruct pass; exact H5).
    intros c Hcc [Hp1|Hp2]%orb_true_iff; [pose proof (Ht c Hcc Hp1); lia|by apply H6].
  - assert (H7' : tp_n t' = snd res \/ exists c, (c < cap)%nat /\ existsb (fun r => (rl_kind r =? pass_kind pass) && names_cpu r c) rs = true /\
                                         tp_n t' = Z.of_nat c + 1) by (destruct pass; exact H7).
    destruct H7' as [->|(c & ? & Hq & ->)]; [destruct He as [->|(c & ? & Hq & ->)]; [by left|]|]; right; exists c; (split; [done|]).
    + by rewrite Hq.
    + by rewrite Hq, orb_true_r.
Qed.

Lemma records_pass_spec pass rs pre cap t fuel :
  Forall relation_ok rs -> length (tp_core t) = cap -> length (tp_pkg t) = cap -> (length rs < fuel)%nat ->
  exists t', records_pass fuel pass (pre ++ concat (map record_bytes rs)) (length (pre ++ concat (map record_bytes rs))) (length pre) cap t = Some t' /\
    passed pass rs cap t t'.
Proof.
  intros Hrs. revert pre t fuel. induction Hrs as [|r rs Hr _ IH]; intros pre t fuel Hc Hp Hf; (destruct fuel as [|fuel]; [lia|]).
  - exists t. split; [|by apply passed_none]. cbn [map concat records_pass]. rewrite app_nil_r.
    by rewrite (proj2 (Nat.ltb_lt _ _)) by lia.
  - cbn [map concat length] in *. set (rest := concat (map record_bytes rs)) in *.
    destruct (record_fields pre r rest Hr) as (Ek & Es & Em). pose proof (record_bytes_length r Hr) as Hlr.
    assert (Hlen : length (pre ++ record_bytes r ++ rest) = (length pre + rl_size r + length rest)%nat) by (rewrite !length_app; lia).
    cbn [records_pass]. rewrite Ek, Es, Em, Hlen. assert (Hsz : (32 <= rl_size r)%nat) by (unfold rl_size; lia).
    rewrite (proj2 (Nat.ltb_ge _ _)), (proj2 (Z.eqb_neq _ _)), (proj2 (Z.ltb_ge _ _)) by lia. cbn [orb]. rewrite !Nat2Z.id.
    assert (Hpre : length (pre ++ record_bytes r) = (length pre + rl_size r)%nat) by (rewrite length_app; lia).
    assert (Hgo : forall t2, length (tp_core t2) = cap -> length (tp_pkg t2) = cap ->
      exists t', records_pass fuel pass (pre ++ record_bytes r ++ rest) (length pre + rl_size r + length rest) (length pre + rl_size r) cap t2 = Some t' /\
        passed pass rs cap t2 t').
    { intros t2 Hc2 Hp2. destruct (IH (pre ++ record_bytes r) t2 fuel Hc2 Hp2 ltac:(lia)) as (t' & E & Hps).
      rewrite <- app_assoc, Hpre, Hlen in E. by exists t'. }
    destruct (Z.eqb_spec (rl_kind r) (if pass then 3 else 0)) as [Hk|Hk].
    2: { destruct (Hgo t Hc Hp) as (t' & E & Hps). exists t'. split; [done|]. by apply passed_skip. }
    pose proof (number_groups_marks (rl_masks r) 0
      (pre ++ le 4 (rl_kind r) ++ le 4 (Z.of_nat (rl_size r)) ++ rl_flags r ++ le 2 (Z.of_nat (length (rl_masks r)))) (rl_pad r ++ rest) (length pre)) as Hm.
    rewrite <- record_split in Hm. destruct Hr as (_ & Hfl & _ & _ & Hall).
    assert (Hl0 : length (pre ++ le 4 (rl_kind r) ++ le 4 (Z.of_nat (rl_size r)) ++ rl_flags r ++ le 2 (Z.of_nat (length (rl_masks r)))) =
                  (length pre + 8 + 24 + 0 * 16)%nat) by (rewrite !length_app, !length_le, Hfl; lia).
    destruct pass.
    + specialize (Hm (tp_npkg t mod 256) (tp_pkg t) (tp_n t) Hl0 Hall). rewrite Hp in Hm.
      destruct (number_groups _ _ _ _ _ (tp_pkg t) _) as [ids n] eqn:En. cbn zeta.
      destruct (Hgo (tick true (ids, n) t)) as (t' & E & Hps); [done|cbn; rewrite <- Hp; apply Hm|].
      exists t'. split; [exact E|]. by apply (passed_step true r rs cap t (ids, n) t').
    + specialize (Hm (tp_ncore t mod 256) (tp_core t) (tp_n t) Hl0 Hall). rewrite Hc in Hm.
      destruct (number_groups _ _ _ _ _ (tp_core t) _) as [ids n] eqn:En. cbn zeta.
      destruct (Hgo (tick false (ids, n) t)) as (t' & E & Hps); [cbn; rewrite <- Hc; apply Hm|done|].
      exists t'. split; [exact E|]. by apply (passed_step false r rs cap t (ids, n) t').
Qed.

(** Whether a core or a package names a processor. *)
Definition placed (rs : list relation) (c : nat) : Prop :=
  exists r, r ∈ rs /\ (rl_kind r = 0 \/ rl_kind r = 3) /\ names_cpu r c = true.

Lemma named_by rs kind c :
  existsb (fun r => (rl_kind r =? kind) && names_cpu r c) rs = true <-> exists r, r ∈ rs /\ rl_kind r = kind /\ names_cpu r c = true.
Proof.
  rewrite existsb_exists. setoid_rewrite andb_true_iff. setoid_rewrite Z.eqb_eq. setoid_rewrite <- list_elem_of_In. done.
Qed.

(** C29: records written as NT writes them, whatever other kinds are among
    them, are read back in both passes: of the processors asked about each
    has the number of the last core and of the last package whose mask in
    group 0 names it (and 0 with none), and their count reaches exactly the
    last one named; without a core record nothing is known. *)
Theorem topology_reads_back rs cap :
  Forall relation_ok rs ->
  let m := Nat.min cap 64 in
  exists n core pkg,
    pfs_cpu_topology (S (length rs)) (Some (concat (map record_bytes rs))) cap = Some (n, core, pkg) /\
    length core = m /\ length pkg = m /\
    (forall c, (c < m)%nat -> core !! c = Some (numbered 0 rs 0 0 c) /\ pkg !! c = Some (numbered 3 rs 0 0 c)) /\
    (count_kind 0 rs = 0 -> n = 0) /\ (count_kind 0 rs <> 0 -> top_of m (placed rs) n).
Proof.
  intros Hrs m. unfold pfs_cpu_topology. fold m. cbv zeta. set (t0 := Topology (replicate m 0) (replicate m 0) 0 0 0).
  destruct (records_pass_spec false rs [] m t0 (S (length rs)) Hrs) as (t1 & E1 & P1); [by cbn; rewrite length_replicate..|lia|].
  cbn [app length] in E1. rewrite E1. destruct P1 as (Hsame & Hl1 & Hi1 & Hc1 & Hn1 & Ht1 & He1). cbn in Hsame, Hl1, Hc1, Hn1, He1.
  destruct Hsame as [Hpkg Hnpkg].
  destruct (records_pass_spec true rs [] m t1 (S (length rs)) Hrs) as (t2 & E2 & P2); [done|by rewrite Hpkg, length_replicate|lia|].
  cbn [app length] in E2. rewrite E2. destruct P2 as (Hsame & Hl2 & Hi2 & Hc2 & Hn2 & Ht2 & He2). cbn in Hsame, Hl2, Hc2.
  destruct Hsame as [Hcore Hncore]. eexists _, _, _. split; [reflexivity|]. split; [congruence|]. split; [done|].
  assert (Hz : forall c, nth c (replicate m 0) 0 = 0) by (intros c; rewrite nth_lookup; destruct (replicate m 0 !! c) eqn:E; [by apply lookup_replicate in E as [-> _]|done]).
  split; [|rewrite Hncore, Hc1, Z.add_0_l; split; [by intros ->|]].
  - intros c Hc. rewrite Hcore. specialize (Hi1 c Hc). specialize (Hi2 c Hc). cbn in Hi1, Hi2.
    rewrite Hpkg, Hnpkg in Hi2. cbn in Hi2. rewrite Hz in Hi1, Hi2. done.
  - intros Hne. rewrite (proj2 (Z.eqb_neq _ _) Hne). split.
    + intros c Hc (r & Hr & Hk & Hp). destruct Hk as [Hk|Hk].
      * assert (Z.of_nat c + 1 <= tp_n t1); [|lia]. apply (Ht1 c Hc). apply named_by. by exists r.
      * apply (Ht2 c Hc). apply named_by. by exists r.
    + destruct He2 as [->|(c & ? & Hp & ->)]; [destruct He1 as [->|(c & ? & Hp & ->)]; [by left|]|]; right; exists c;
        (split; [done|]); (split; [|done]); apply named_by in Hp as (r & ? & Hk & ?); exists r; (split; [done|]); (split; [|done]).
      * by left.
      * by right.
Qed.

(** ** Disk and reader *)

Lemma parents_spec base done rel a b :
  rel = a ++ 47 :: b -> Mkdir (base ++ bytes "/" ++ done ++ a) ∈ parents base done rel.
Proof.
  revert done a. induction rel as [|c rel IH]; intros done a E; [by destruct a|].
  cbn [parents]. destruct a as [|x a]; injection E as -> ->.
  - rewrite app_nil_r. left.
  - apply elem_of_app. right. replace (done ++ x :: a) with ((done ++ [x]) ++ a) by by rewrite <- app_assoc. by apply IH.
Qed.

Lemma parents_no_file base done rel p v : WriteFile p v ∉ parents base done rel.
Proof.
  revert done. induction rel as [|c rel IH]; intros done; cbn [parents]; [apply not_elem_of_nil|].
  rewrite not_elem_of_app. split; [|apply IH]. destruct (c =? 47); [by rewrite list_elem_of_singleton|apply not_elem_of_nil].
Qed.

(** A file of the tree is an emitted pair, below its directories. *)
Lemma mat_all_file base l p v :
  WriteFile p v ∈ mat_all base l <->
  exists rel, (rel, v) ∈ l /\ p = base ++ bytes "/" ++ rel /\ (length p < 600)%nat.
Proof.
  unfold mat_all. induction l as [|[rel x] l IH]; cbn [map concat].
  - split; [by intros ?%elem_of_nil|intros (? & ?%elem_of_nil & _); done].
  - rewrite elem_of_app, IH. unfold mat_emit. cbn [fst snd]. cbv zeta.
    destruct (Nat.leb_spec 600 (length (base ++ bytes "/" ++ rel))) as [Hl|Hl].
    + split; [intros [?%elem_of_nil|(r & ? & ?)]; [done|exists r; split; [by right|done]]|].
      intros (r & [[= -> ->]|Hr]%elem_of_cons & -> & Hp); [lia|right; by exists r].
    + rewrite elem_of_app, list_elem_of_singleton. split.
      * intros [[Hpar|[= -> ->]]|(r & ? & ?)]; [by apply parents_no_file in Hpar| |].
        -- exists rel. split; [left|done].
        -- exists r. split; [by right|done].
      * intros (r & [[= -> ->]|Hr]%elem_of_cons & -> & Hp); [left; by right|right; by exists r].
Qed.

Lemma pick_some rel l v : pick rel l = Some v -> (rel, v) ∈ l.
Proof.
  induction l as [|[r x] l IH]; cbn; [done|]. case_bool_decide as E; [intros [= ->]; subst; left|intros H; right; by apply IH].
Qed.

Lemma pick_is rel l : is_Some (pick rel l) <-> rel ∈ map fst l.
Proof.
  induction l as [|[r x] l IH]; cbn; [split; [by intros []|by intros ?%elem_of_nil]|]. rewrite elem_of_cons.
  case_bool_decide as E; [subst; split; [by left|done]|]. rewrite IH. naive_solver.
Qed.

Lemma pick_once rel l v : NoDup (map fst l) -> (rel, v) ∈ l -> pick rel l = Some v.
Proof.
  induction l as [|[r x] l IH]; cbn [map fst pick]; [by intros _ ?%elem_of_nil|].
  intros [Hni Hnd]%NoDup_cons [[= -> ->]|Hin]%elem_of_cons; [by rewrite bool_decide_true|].
  rewrite bool_decide_false; [by apply IH|]. intros ->. apply Hni. apply list_elem_of_fmap. by exists (rel, v).
Qed.

Lemma in_sysfs prefix len i rel :
  (prefix, len, i) ∈ g_sysfs -> forall ws t ks w, ws i = Some w ->
  i <> SliceDmi ->
  fst (pc_gen_sysfs ws (prefix ++ 47 :: rel) t ks) = pick rel (an_emits (run_walk w t (ks i))).
Proof.
  intros Hin ws t ks w Hw Hi. unfold pc_gen_sysfs, g_sysfs in *.
  repeat (apply elem_of_cons in Hin as [[= -> -> ->]|Hin]); try done; try (by apply elem_of_nil in Hin).
  - cbn [gen_from]. rewrite Hw. reflexivity.
  - cbn [gen_from]. rewrite Hw. by destruct (ws SliceNet).
  - cbn [gen_from]. rewrite Hw. by destruct (ws SliceNet), (ws SlicePower).
Qed.

(** Every file of the tree comes behind its directories. *)
Lemma mat_all_parents base l p v :
  WriteFile p v ∈ mat_all base l ->
  exists rel pre post, p = base ++ bytes "/" ++ rel /\ mat_all base l = pre ++ WriteFile p v :: post /\
    forall a b, rel = a ++ 47 :: b -> Mkdir (base ++ bytes "/" ++ a) ∈ pre.
Proof.
  unfold mat_all. induction l as [|[r x] l IH]; cbn [map concat]; [by intros ?%elem_of_nil|].
  intros [Hin|Hin]%elem_of_app.
  - unfold mat_emit in *. cbn [fst snd] in *. cbv zeta in *. destruct (600 <=? length (base ++ bytes "/" ++ r))%nat; [by apply elem_of_nil in Hin|].
    apply elem_of_app in Hin as [Hin|Hin]; [by apply parents_no_file in Hin|]. apply list_elem_of_singleton in Hin as [= -> ->].
    exists r, (parents base [] r). eexists. split; [done|]. split; [by rewrite <- app_assoc|].
    intros a b E. exact (parents_spec base [] r a b E).
  - destruct (IH Hin) as (rel & pre & post & Hp & E & Hd). exists rel, (mat_emit base (r, x) ++ pre), post. split; [done|].
    split; [by rewrite E, <- app_assoc|]. intros a b Hab. apply elem_of_app. right. by eapply Hd.
Qed.

(** when a slice is written anew, the files on disk and the answers a
    reader gets while NT's answer is kept are the same: a path is a file
    there exactly when content is found for it, the content read is one on
    disk, and is the one on disk where the walk names nothing twice; and
    every file is written behind the directories it lies in. *)
Theorem disk_and_reader_agree base w ms t t1 t2 s k s' k' acts ws ks prefix len i rel t3 :
  ensure_sysfs_slice base w ms t t1 t2 s k = (s', k', acts) -> acts <> [] ->
  (prefix, len, i) ∈ g_sysfs -> i <> SliceDmi -> ws i = Some w -> ks i = k' ->
  an_last k' <> 0 -> t3 - an_last k' < wk_ms w -> (length (base ++ bytes "/" ++ rel) < 600)%nat ->
  let file v := WriteFile (base ++ bytes "/" ++ rel) v in
  let read := fst (pc_gen_sysfs ws (prefix ++ 47 :: rel) t3 ks) in
  (is_Some read <-> exists v, file v ∈ acts) /\
  (forall v, read = Some v -> file v ∈ acts) /\
  (NoDup (map fst (an_emits k')) -> forall v, file v ∈ acts -> read = Some v) /\
  (forall v, file v ∈ acts -> exists pre post, acts = pre ++ file v :: post /\
     forall a b, rel = a ++ 47 :: b -> Mkdir (base ++ bytes "/" ++ a) ∈ pre).
Proof.
  intros E Hne Hin Hi Hw Hk Hlast Hkept Hlen file read.
  assert (Hacts : acts = [RmRf base; Mkdir base] ++ mat_all base (an_emits k')).
  { unfold ensure_sysfs_slice in E. destruct (_ && _); [congruence|]. cbv zeta in E. destruct (_ =? _); [congruence|]. injection E as _ <- <-. done. }
  assert (Hread : read = pick rel (an_emits k')).
  { unfold read. rewrite (in_sysfs prefix len i rel Hin ws t3 ks w Hw) by done. rewrite Hk. f_equal. f_equal.
    unfold run_walk. rewrite (proj2 (Z.eqb_neq _ _) Hlast), (proj2 (Z.leb_gt _ _) Hkept). done. }
  assert (Hfile : forall v, file v ∈ acts <-> (rel, v) ∈ an_emits k').
  { intros v. rewrite Hacts, elem_of_app. unfold file. rewrite mat_all_file. split.
    - intros [H|(r & Hr & Ep & _)]; [by repeat (apply elem_of_cons in H as [?|H]; [done|]); apply elem_of_nil in H|].
      by apply app_inv_head, app_inv_head in Ep as <-.
    - intros H. right. by exists rel. }
  rewrite Hread. setoid_rewrite Hfile. split; [|split; [apply pick_some|split; [intros Hnd v; by apply pick_once|]]].
  - rewrite pick_is, list_elem_of_fmap. split; [intros ([r v] & -> & ?); by exists v|intros [v ?]; by exists (rel, v)].
  - intros v Hv. assert (Hm : file v ∈ mat_all base (an_emits k')) by (apply mat_all_file; by exists rel).
    destruct (mat_all_parents _ _ _ _ Hm) as (r & pre & post & Ep & Em & Hd). apply app_inv_head, app_inv_head in Ep as <-.
    exists ([RmRf base; Mkdir base] ++ pre), post. split; [by rewrite Hacts, Em, <- app_assoc|]. intros a b Hab. apply elem_of_app. right. by eapply Hd.
Qed.

(** ** The names of a walk *)

Definition net_names : list cstr :=
  map bytes ["statistics/rx_bytes"; "statistics/tx_bytes"; "statistics/rx_packets"; "statistics/tx_packets"; "statistics/rx_errors";
             "statistics/tx_errors"; "statistics/rx_dropped"; "statistics/tx_dropped"; "mtu"; "operstate"; "address"; "carrier"; "speed"]%string.

(** A name as cosmo spells an interface's: 15 bytes without a slash. *)
Definition if_ok (s : ifstat) : Prop := has_slash (if_name s) = false /\ (length (if_name s) <= 15)%nat.

Lemma net_walk_names s m : if_ok s -> map fst (net_walk_one s m) = map (fun n => if_name s ++ 47 :: n) net_names.
Proof.
  intros [_ Hl]. unfold net_walk_one, net_names. cbv zeta. cbn [map fst].
  repeat (apply f_equal2; [rewrite cut_fits; [done|rewrite !length_app; cbn; lia]|]). done.
Qed.

(** Interfaces of different names are walked without a name twice. *)
Lemma net_walk_once ifs :
  Forall (fun s => if_ok (fst s)) ifs -> NoDup (map (fun s => if_name (fst s)) ifs) -> NoDup (map fst (net_walk ifs)).
Proof.
  intros Hok. unfold net_walk. induction Hok as [|[s m] ifs Hs Hok IH]; cbn [map concat fst]; [constructor|].
  intros [Hni Hnd]%NoDup_cons. rewrite map_app. apply NoDup_app. split; [|split; [|by apply IH]].
  - rewrite net_walk_names by done. apply NoDup_fmap; [intros a b E%app_inv_head; congruence|]. apply (bool_decide_unpack _). vm_compute. done.
  - rewrite net_walk_names by done. intros x (n & -> & _)%list_elem_of_fmap Hx. apply Hni.
    clear IH Hni Hnd. induction Hok as [|[s2 m2] ifs Hs2 Hok IH]; cbn [map concat fst] in *; [by apply elem_of_nil in Hx|].
    rewrite map_app, elem_of_app, net_walk_names in Hx by done. destruct Hx as [(n2 & E & _)%list_elem_of_fmap|Hx]; [|right; by apply IH].
    destruct Hs as [Hsl _], Hs2 as [Hsl2 _]. cbn [fst] in *. assert (Elen : name_len (if_name s ++ 47 :: n) = name_len (if_name s2 ++ 47 :: n2)) by by rewrite E.
    rewrite !name_len_app, !name_len_clean in Elen by done. apply app_inj_1 in E as [-> _]; [left|done].
Qed.

(** ** Concrete machines *)

Definition toy_if : ifstat := IfStat (bytes "Ethernet") 1200 90 7 3 0 0 0 0 1500 true [0; 21; 93; 1; 2; 255] 1000.
Definition toy_lo : ifstat := IfStat (bytes "Loopback") 5 5 1 1 0 0 0 0 65535 true [] 0.
Definition toy_walker : walker := Walker NET_MS (fun t => net_walk ([(toy_if, 6)] ++ if t <? 5000 then [] else [(toy_lo, 0)])).
Definition toy_base : cstr := bytes "C:/t/sysfs-net".
Definition toy_walks : walks := fun i => match i with SliceNet => Some toy_walker | _ => None end.
Definition toy_answer : answer := Answer 6000 (net_walk [(toy_if, 6); (toy_lo, 0)]).
Definition toy_acts : list act := [RmRf toy_base; Mkdir toy_base] ++ mat_all toy_base (an_emits toy_answer).

Lemma disk_and_reader_agree_witness :
  fst (pc_gen_sysfs toy_walks (bytes "/sys/class/net/Loopback/mtu") 6100 (fun _ => toy_answer)) = Some (bytes "65535" ++ [10]) /\
  WriteFile (toy_base ++ bytes "/" ++ bytes "Loopback/mtu") (bytes "65535" ++ [10]) ∈ toy_acts.
Proof.
  assert (E : ensure_sysfs_slice toy_base toy_walker NET_MS 6000 6000 6001 (Slice 5 1000) (Answer 1000 (wk_ask toy_walker 1000)) =
              (Slice (names_digest (an_emits toy_answer)) 6000, toy_answer, toy_acts)) by (vm_compute; reflexivity).
  assert (Hread : fst (pc_gen_sysfs toy_walks (bytes "/sys/class/net" ++ 47 :: bytes "Loopback/mtu") 6100 (fun _ => toy_answer)) =
              Some (bytes "65535" ++ [10])) by (vm_compute; reflexivity).
  split; [exact Hread|].
  pose proof (disk_and_reader_agree toy_base toy_walker NET_MS 6000 6000 6001 (Slice 5 1000) (Answer 1000 (wk_ask toy_walker 1000))
    (Slice (names_digest (an_emits toy_answer)) 6000) toy_answer toy_acts toy_walks (fun _ => toy_answer) (bytes "/sys/class/net") 14 SliceNet
    (bytes "Loopback/mtu") 6100 E) as H.
  destruct (H ltac:(discriminate) ltac:(left) ltac:(discriminate) eq_refl eq_refl ltac:(discriminate) ltac:(vm_compute; reflexivity) ltac:(vm_compute; lia))
    as (_ & Hr & _).
  apply Hr. exact Hread.
Defined.

(** Two cores of two processors, one package, and a cache record between. *)
Definition toy_records : list relation :=
  [Relation 0 (replicate 22 0) [(3, 0)] []; Relation 2 (replicate 22 7) [(15, 0)] [1; 2];
   Relation 0 (replicate 22 0) [(12, 0)] []; Relation 3 (replicate 22 0) [(15, 0); (15, 1)] []].

Lemma topology_reads_back_witness :
  pfs_cpu_topology 5 (Some (concat (map record_bytes toy_records))) 6 = Some (4, [0; 0; 1; 1; 0; 0], [0; 0; 0; 0; 0; 0]) /\
  top_of 6 (placed toy_records) 4.
Proof.
  assert (Hok : Forall relation_ok toy_records).
  { unfold toy_records. repeat (apply Forall_cons; split; [split; [cbn; lia|]; split; [done|]; split; [vm_compute; done|]; split; [vm_compute; done|];
      cbn; repeat (apply Forall_cons; split; [cbn; lia|]); by apply Forall_nil|]). by apply Forall_nil. }
  destruct (topology_reads_back toy_records 6 Hok) as (n & core & pkg & E & Hlc & Hlp & Hi & _ & Hn).
  vm_compute in E. injection E as <- <- <-. split; [vm_compute; reflexivity|]. apply Hn. vm_compute. discriminate.
Defined.

(** The rate NT gives for unknown is the least 32-bit number, which has no
    positive counterpart. *)
Example unknown_rate :
  let b := fst (pfs_battery (Some (BatteryState 1 1 0 0 50000 40000 (- 2 ^ 31))) None None) in
  bt_rate_mw <$> b = Some (- 2 ^ 31) /\
  (power_walk b) !! 10%nat = Some (bytes "BAT0/power_now", a_line (bytes "18446741926225903616")).
Proof. vm_compute. done. Qed.
