(* ===== verification/NetTab.v ===== *)
(** * shim/procfs/net.c and fd.c, the socket tables and one's own descriptors

    NT pairs every socket with its owner; the tables are kept for a while as
    rows and printed the way Linux prints /proc/net/tcp and its kin. A
    socket's inode is a hash of what identifies it, so that the link of a
    descriptor joins up with its row. The theorems: a reader of Linux's
    format gets the rows back, all of the table's and in order; no more rows
    are kept than there is room for; a descriptor whose ends are those of a
    row has a link that names the row's inode. *)
From S2P Require Import Prelude PfsText Fields SockOpt SysFs ProcFs.

Definition NET_REFRESH_MS : Z := 250.
Definition MAX_ROWS : nat := 4096.

(** struct row *)
Record row := Row {
  r_proto : Z; r_family : Z; r_state : Z; r_pid : Z; r_lport : Z; r_rport : Z;
  r_laddr : list Z; r_raddr : list Z; r_inode : Z }.

Definition fnv (data : list Z) (h : Z) : Z :=
  foldl (fun h b => (Z.lxor h b * 0x100000001b3) mod 2 ^ 64) h data.

Definition tcp_state_to_linux (nt : Z) : Z :=
  if nt =? 2 then 0x0a else if nt =? 3 then 0x02 else if nt =? 4 then 0x03 else if nt =? 5 then 0x01
  else if nt =? 6 then 0x04 else if nt =? 7 then 0x05 else if nt =? 8 then 0x08 else if nt =? 9 then 0x0b
  else if nt =? 10 then 0x09 else if nt =? 11 then 0x06 else 0x07.

Definition nt_port (p : Z) : Z := Z.lor (Z.shiftl (Z.land p 0xff) 8) (Z.land (Z.shiftr p 8) 0xff).

Definition pfs_net_inode (proto family pid lport rport : Z) (laddr raddr : list Z) : Z :=
  let h := fnv [proto] 0xcbf29ce484222325 in
  let h := fnv [family] h in
  let h := fnv (le 4 pid) h in
  let h := fnv (le 2 lport) h in
  let h := fnv (le 2 rport) h in
  let h := fnv laddr h in
  let h := fnv raddr h in
  let h := Z.land h 0x7fffffffffff in
  if h =? 0 then 1 else h.

(** An address in a buffer of 16 bytes, zeros behind it. *)
Definition addr16 (family : Z) (a : list Z) : list Z :=
  let n := if family =? 4 then 4%nat else 16%nat in
  take n a ++ replicate (16 - n) 0.

Definition add_row (proto family state pid : Z) (laddr : list Z) (lport : Z) (raddr : list Z) (rport : Z) (rows : list row) : list row :=
  if (MAX_ROWS <=? length rows)%nat then rows
  else
    let l := addr16 family laddr in
    let r := addr16 family raddr in
    rows ++ [Row proto family state pid lport rport l r (pfs_net_inode proto family pid lport rport l r)].

(** One entry of a table as NT has it: ports in network order in the low
    half of 32 bits, no remote end and no state for datagrams. *)
Record nt_entry := NtEntry { ne_state : Z; ne_laddr : list Z; ne_lport : Z; ne_raddr : list Z; ne_rport : Z; ne_pid : Z }.

(** fetch: the size asked for first, and the table for a buffer of it. *)
Definition fetch (size : Z) (memory : bool) (answer : option (list nt_entry)) : option (list nt_entry) :=
  if size =? 0 then None else if negb memory then None else answer.

Definition add_tcp (family : Z) (table : option (list nt_entry)) (rows : list row) : list row :=
  foldl (fun rows e => add_row 0 family (tcp_state_to_linux (ne_state e)) (ne_pid e) (ne_laddr e) (nt_port (ne_lport e))
                         (ne_raddr e) (nt_port (ne_rport e)) rows) rows (default [] table).

Definition add_udp (family : Z) (table : option (list nt_entry)) (rows : list row) : list row :=
  foldl (fun rows e => add_row 1 family 0x07 (ne_pid e) (ne_laddr e) (nt_port (ne_lport e)) (replicate 16 0) 0 rows) rows (default [] table).

(** What the four tables answer. *)
Record nt_tables := NtTables { nt_tcp4 : option (list nt_entry); nt_tcp6 : option (list nt_entry);
                               nt_udp4 : option (list nt_entry); nt_udp6 : option (list nt_entry) }.

Definition all_rows (t : nt_tables) : list row :=
  add_udp 6 (nt_udp6 t) (add_udp 4 (nt_udp4 t) (add_tcp 6 (nt_tcp6 t) (add_tcp 4 (nt_tcp4 t) []))).

(** The statics: the rows, and when they were made; [t] is read before the
    tables and [t'] after. *)
Record net_cache := NetCache { nc_rows : list row; nc_ms : Z }.

Definition net_refresh_locked (tables : nt_tables) (t t' : Z) (c : net_cache) : net_cache :=
  if negb (nc_ms c =? 0) && (t - nc_ms c <? NET_REFRESH_MS) then c else NetCache (all_rows tables) t'.

(** ** The text *)

Definition hex_upper (d : Z) : Z := if d <? 10 then 48 + d else 55 + d.

(** %0nX of a number that has no more digits. *)
Fixpoint hexw (n : nat) (x : Z) : cstr :=
  match n with O => [] | S n => hexw n (x / 16) ++ [hex_upper (x mod 16)] end.

Definition emit_group (a : list Z) (g : nat) : cstr := concat (map (fun i => hexw 2 (nth (g * 4 + i) a 0)) [3; 2; 1; 0]%nat).
Definition emit_addr (a : list Z) (family : Z) : cstr :=
  concat (map (emit_group a) (seq 0 (if family =? 4 then 1 else 4))).

(** %4d of a number that is not negative, and %nu in general. *)
Definition padded (n : nat) (s : cstr) : cstr := replicate (n - length s) 32 ++ s.

Definition net_header : cstr :=
  bytes "  sl  local_address rem_address   st tx_queue rx_queue tr tm->when retrnsmt   uid  timeout inode" ++ [10].

Definition net_line (sl : Z) (r : row) : cstr :=
  padded 4 (decimal sl) ++ bytes ": " ++ emit_addr (r_laddr r) (r_family r) ++ bytes ":" ++ hexw 4 (r_lport r) ++ bytes " " ++
  emit_addr (r_raddr r) (r_family r) ++ bytes ":" ++ hexw 4 (r_rport r) ++ bytes " " ++ hexw 2 (r_state r) ++
  bytes " 00000000:00000000 00:00000000 00000000     0        0 " ++ decimal (r_inode r) ++
  bytes " 1 0000000000000000 0 0 0 0 0" ++ [10].

Fixpoint net_lines (proto family : Z) (sl : Z) (rows : list row) : cstr :=
  match rows with
  | [] => []
  | r :: rows =>
      if negb (r_proto r =? proto) || negb (r_family r =? family) then net_lines proto family sl rows
      else net_line sl r ++ net_lines proto family (sl + 1) rows
  end.

Definition dev_header : cstr :=
  bytes "Inter-|   Receive                                                |  Transmit" ++ [10] ++
  bytes " face |bytes    packets errs drop fifo frame compressed multicast|bytes    packets errs drop fifo colls carrier compressed" ++ [10].

Definition dev_line (s : ifstat) : cstr :=
  padded 6 (if_name s) ++ bytes ": " ++ padded 7 (decimal (if_rx_bytes s)) ++ bytes " " ++ padded 7 (decimal (if_rx_pkts s)) ++ bytes " " ++
  padded 4 (decimal (if_rx_errs s)) ++ bytes " " ++ padded 4 (decimal (if_rx_drop s)) ++ bytes "    0     0          0         0 " ++
  padded 8 (decimal (if_tx_bytes s)) ++ bytes " " ++ padded 7 (decimal (if_tx_pkts s)) ++ bytes " " ++ padded 4 (decimal (if_tx_errs s)) ++ bytes " " ++
  padded 4 (decimal (if_tx_drop s)) ++ bytes "    0     0       0          0" ++ [10].

(** The interfaces; [None] where there are none to show. *)
Definition gen_net_dev (ifs : list ifstat) : option cstr :=
  match take 32 ifs with [] => None | ifs => Some (dev_header ++ concat (map dev_line ifs)) end.

Definition net_file_kind (name : cstr) : option (Z * Z) :=
  if bool_decide (name = bytes "tcp") then Some (0, 4) else if bool_decide (name = bytes "tcp6") then Some (0, 6)
  else if bool_decide (name = bytes "udp") then Some (1, 4) else if bool_decide (name = bytes "udp6") then Some (1, 6) else None.

(** pfs_gen_net_file on NT; [None] for a name it does not know. *)
Definition pfs_gen_net_file (name : cstr) (ifs : list ifstat) (tables : nt_tables) (t t' : Z) (c : net_cache) : option cstr * net_cache :=
  if bool_decide (name = bytes "dev") then (gen_net_dev ifs, c)
  else if bool_decide (name = bytes "unix") then (Some (bytes "Num       RefCount Protocol Flags    Type St Inode Path" ++ [10]), c)
  else match net_file_kind name with
       | None => (None, c)
       | Some (proto, family) =>
           let c := net_refresh_locked tables t t' c in
           (Some (net_header ++ net_lines proto family 0 (nc_rows c)), c)
       end.

Definition pfs_net_fds_of (pid : Z) (cap : nat) (tables : nt_tables) (t t' : Z) (c : net_cache) : list Z * net_cache :=
  let c := net_refresh_locked tables t t' c in
  (take cap (map r_inode (filter (fun r => r_pid r = pid) (nc_rows c))), c).

(** ** Interfaces *)

(** One adapter: its index, its name in UTF-16 and what it says of itself. *)
Record adapter := Adapter { ad_index : Z; ad_name : list Z; ad_mtu : Z; ad_status : Z; ad_mac : list Z; ad_maclen : Z; ad_speed : Z }.
(** One row of the interface table: its index and its two blocks of counters. *)
Record if_row := IfRow { ir_index : Z; ir_in : list Z; ir_out : list Z }.

Definition if_row_of (table : list if_row) (index : Z) : option if_row := find (fun r => ir_index r =? index) table.

Definition name_char (c : Z) : Z :=
  if ((97 <=? c) && (c <=? 122)) || ((65 <=? c) && (c <=? 90)) || is_digit c || (c =? 45) || (c =? 46) then c else 95.

Fixpoint friendly_chars (n : nat) (friendly : list Z) : cstr :=
  match n, friendly with
  | S n, c :: friendly => if c =? 0 then [] else name_char c :: friendly_chars n friendly
  | _, _ => []
  end.
Definition if_name (friendly : list Z) : cstr := friendly_chars 14 friendly.

(** The adapters that have a row, up to [cap]: the filter's shadow rows and
    adapters without one are left out. Also the length of the address. *)
Definition ifstat_of (a : adapter) (r : if_row) : ifstat * Z :=
  let c (l : list Z) (k : nat) := nth k l 0 in
  (IfStat (if_name (ad_name a)) (c (ir_in r) 0%nat) (c (ir_out r) 0%nat)
     ((c (ir_in r) 1%nat + c (ir_in r) 2%nat) mod 2 ^ 64) ((c (ir_out r) 1%nat + c (ir_out r) 2%nat) mod 2 ^ 64)
     (c (ir_in r) 4%nat) (c (ir_out r) 4%nat) (c (ir_in r) 3%nat) (c (ir_out r) 3%nat)
     (ad_mtu a) (ad_status a =? 1) (take 8 (ad_mac a)) (ad_speed a / 1000000),
   if 8 <? ad_maclen a then 8 else ad_maclen a).

Fixpoint pfs_net_ifstats (adapters : list adapter) (table : list if_row) (cap : nat) : list (ifstat * Z) :=
  match adapters, cap with
  | a :: adapters, S cap' =>
      match if_row_of table (ad_index a) with
      | Some r => ifstat_of a r :: pfs_net_ifstats adapters table cap'
      | None => pfs_net_ifstats adapters table cap
      end
  | _, _ => []
  end.

(** ** A reader of Linux's format *)

Definition unhex_digit (c : Z) : Z := if c <? 65 then c - 48 else c - 55.
Definition unhex (s : cstr) : Z := foldl (fun acc c => acc * 16 + unhex_digit c) 0 s.

(** Four bytes from eight digits, the other way around, and the rest. *)
Fixpoint read_groups (n : nat) (s : cstr) : list Z :=
  match n with
  | O => []
  | S n => map (fun i => unhex (take 2 (drop i s))) [6; 4; 2; 0]%nat ++ read_groups n (drop 8 s)
  end.

Definition read_addr (s : cstr) : list Z := read_groups (length s / 8) s.

(** An "address:port". *)
Definition read_end (s : cstr) : option (list Z * Z) :=
  match split_on 58 s with [a; p] => Some (read_addr a, unhex p) | _ => None end.

Record net_entry := NetEntry { e_sl : Z; e_local : list Z * Z; e_remote : list Z * Z; e_state : Z; e_inode : Z }.

(** The words of a line. *)
Definition words (s : cstr) : list cstr := filter (fun w => w <> []) (split_on 32 s).

Definition read_net_line (s : cstr) : option net_entry :=
  match words s with
  | sl :: local :: remote :: st :: _ :: _ :: _ :: _ :: _ :: inode :: _ =>
      match read_end local, read_end remote with
      | Some l, Some r => Some (NetEntry (digits sl 0) l r (unhex st) (digits inode 0))
      | _, _ => None
      end
  | _ => None
  end.

Definition read_net_file (s : cstr) : list net_entry := omap read_net_line (drop 1 (split_on 10 s)).

(** What a row is to show on line [k]. *)
Definition entry_of (k : nat) (r : row) : net_entry :=
  let a l := take (if r_family r =? 4 then 4%nat else 16%nat) l in
  NetEntry (Z.of_nat k) (a (r_laddr r), r_lport r) (a (r_raddr r), r_rport r) (r_state r) (r_inode r).

Definition row_ok (r : row) : Prop :=
  (r_family r = 4 \/ r_family r = 6) /\ 0 <= r_state r < 256 /\ 0 <= r_lport r < 2 ^ 16 /\ 0 <= r_rport r < 2 ^ 16 /\
  length (r_laddr r) = 16%nat /\ length (r_raddr r) = 16%nat /\ Forall (fun b => 0 <= b < 256) (r_laddr r) /\
  Forall (fun b => 0 <= b < 256) (r_raddr r) /\ 0 < r_inode r < 2 ^ 47.

Definition cache_ok (c : net_cache) : Prop := Forall row_ok (nc_rows c) /\ (length (nc_rows c) <= MAX_ROWS)%nat.

Definition entry_ok (family : nat) (e : nt_entry) : Prop :=
  length (ne_laddr e) = family /\ length (ne_raddr e) = family /\ Forall (fun b => 0 <= b < 256) (ne_laddr e) /\
  Forall (fun b => 0 <= b < 256) (ne_raddr e).

Definition tables_ok (t : nt_tables) : Prop :=
  Forall (entry_ok 4) (default [] (nt_tcp4 t)) /\ Forall (entry_ok 16) (default [] (nt_tcp6 t)) /\
  Forall (entry_ok 4) (default [] (nt_udp4 t)) /\ Forall (entry_ok 16) (default [] (nt_udp6 t)).

(** *** Digits *)

Lemma hexw_length n x : length (hexw n x) = n.
Proof. revert x. induction n as [|n IH]; intros x; [done|]. cbn [hexw]. rewrite length_app, IH. cbn. lia. Qed.

Lemma unhex_hex_upper d : 0 <= d < 16 -> unhex_digit (hex_upper d) = d.
Proof. intros. unfold unhex_digit, hex_upper. destruct (Z.ltb_spec d 10); case_match; lia. Qed.

Lemma unhex_hexw n x : 0 <= x -> unhex (hexw n x) = x mod 16 ^ Z.of_nat n.
Proof.
  revert x. induction n as [|n IH]; intros x Hx; [by rewrite Z.mod_1_r|]. cbn [hexw]. unfold unhex in *.
  rewrite foldl_app, IH by (apply Z.div_pos; lia). cbn [foldl]. pose proof (Z.mod_pos_bound x 16 ltac:(lia)).
  rewrite unhex_hex_upper by lia. replace (Z.of_nat (S n)) with (Z.succ (Z.of_nat n)) by lia.
  rewrite Z.pow_succ_r, Z.rem_mul_r by lia. lia.
Qed.

Lemma hexw_lacks c n x : 0 <= x -> (forall d, 0 <= d < 16 -> hex_upper d <> c) -> lacks c (hexw n x).
Proof.
  intros Hx Hc. revert x Hx. induction n as [|n IH]; intros x Hx; [constructor|]. cbn [hexw].
  apply lacks_app; [apply IH, Z.div_pos; lia|]. constructor; [|constructor]. apply Hc, Z.mod_pos_bound. lia.
Qed.

Lemma hex_upper_range d : 0 <= d < 16 -> 48 <= hex_upper d <= 57 \/ 65 <= hex_upper d <= 70.
Proof. intros. unfold hex_upper. destruct (Z.ltb_spec d 10); lia. Qed.

Lemma hexw_lacks_sep n x c : 0 <= x -> c = 10 \/ c = 32 \/ c = 58 -> lacks c (hexw n x).
Proof. intros Hx Hc. apply hexw_lacks; [done|]. intros d Hd. pose proof (hex_upper_range d Hd). lia. Qed.

(** *** Addresses *)

Lemma emit_group_length a g : length (emit_group a g) = 8%nat.
Proof. unfold emit_group. cbn [map concat]. by rewrite !length_app, !hexw_length. Qed.

Lemma emit_groups_length a g n : length (concat (map (emit_group a) (seq g n))) = (8 * n)%nat.
Proof.
  revert g. induction n as [|n IH]; intros g; [done|]. cbn [seq map concat]. rewrite length_app, emit_group_length, IH. lia.
Qed.

Lemma take_drop_at {A} (a b : list A) k n : length a = k -> take n (drop k (a ++ b)) = take n b.
Proof. intros <-. by rewrite drop_app_length. Qed.

Lemma unhex2 x : 0 <= x < 256 -> unhex (hexw 2 x) = x.
Proof. intros. rewrite unhex_hexw by lia. by apply Z.mod_small. Qed.

Lemma read_group a g s :
  Forall (fun b => 0 <= b < 256) a ->
  map (fun i => unhex (take 2 (drop i (emit_group a g ++ s)))) [6; 4; 2; 0]%nat = map (fun i => nth (g * 4 + i) a 0) [0; 1; 2; 3]%nat.
Proof.
  intros Ha. assert (Hb : forall i, 0 <= nth i a 0 < 256).
  { intros i. destruct (nth_in_or_default i a 0) as [Hin | ->]; [|lia]. by apply (proj1 (List.Forall_forall _ _) Ha). }
  assert (H2 : forall x, hexw 2 x = [hex_upper ((x / 16) mod 16); hex_upper (x mod 16)]) by done.
  unfold emit_group. cbn [map concat]. rewrite !H2. cbn [app drop take]. rewrite <- !H2. by rewrite !unhex2.
Qed.

Lemma read_groups_emit a g n :
  Forall (fun b => 0 <= b < 256) a -> (4 * (g + n) <= length a)%nat ->
  read_groups n (concat (map (emit_group a) (seq g n))) = take (4 * n) (drop (4 * g) a).
Proof.
  intros Ha. revert g. induction n as [|n IH]; intros g Hl; [done|]. cbn [seq map concat].
  change (read_groups (S n) ?s) with (map (fun i => unhex (take 2 (drop i s))) [6; 4; 2; 0]%nat ++ read_groups n (drop 8 s)).
  rewrite read_group, drop_app_length' by (done || apply emit_group_length). rewrite IH by lia.
  replace (4 * S g)%nat with (4 * g + 4)%nat by lia. rewrite <- drop_drop.
  assert (Hd : (4 * S n <= length (drop (4 * g) a))%nat) by (rewrite length_drop; lia).
  assert (Hn : forall i, nth (g * 4 + i) a 0 = nth i (drop (4 * g) a) 0).
  { intros i. rewrite !nth_lookup, lookup_drop. f_equal. f_equal. lia. }
  cbn [map]. rewrite !Hn. clear Hn. replace (4 * S n)%nat with (4 + 4 * n)%nat in * by lia.
  destruct (drop (4 * g) a) as [|x0 [|x1 [|x2 [|x3 l]]]]; cbn [length] in Hd; try lia. done.
Qed.

Lemma read_emit_addr family a :
  family = 4 \/ family = 6 -> length a = 16%nat -> Forall (fun b => 0 <= b < 256) a ->
  read_addr (emit_addr a family) = take (if family =? 4 then 4%nat else 16%nat) a.
Proof.
  intros Hf Hl Ha. unfold read_addr, emit_addr. rewrite emit_groups_length. rewrite (Nat.mul_comm 8), Nat.div_mul by lia.
  rewrite read_groups_emit by (done || destruct Hf as [-> | ->]; cbn; lia). rewrite drop_0. by destruct Hf as [-> | ->].
Qed.

Lemma emit_addr_lacks family a c : Forall (fun b => 0 <= b < 256) a -> c = 10 \/ c = 32 \/ c = 58 -> lacks c (emit_addr a family).
Proof.
  intros Ha Hc. unfold emit_addr. generalize (seq 0 (if family =? 4 then 1 else 4)). intros gs.
  induction gs as [|g gs IH]; cbn [map concat]; [constructor|]. apply lacks_app; [|done].
  assert (Hb : forall i, 0 <= nth i a 0).
  { intros i. destruct (nth_in_or_default i a 0) as [Hin | ->]; [|lia]. apply (proj1 (List.Forall_forall _ _) Ha) in Hin. lia. }
  unfold emit_group. cbn [map concat]. do 4 (apply lacks_app; [apply hexw_lacks_sep; [apply Hb|done]|]). constructor.
Qed.

Lemma read_end_printed family a p :
  family = 4 \/ family = 6 -> length a = 16%nat -> Forall (fun b => 0 <= b < 256) a -> 0 <= p < 2 ^ 16 ->
  read_end (emit_addr a family ++ [58] ++ hexw 4 p) = Some (take (if family =? 4 then 4%nat else 16%nat) a, p).
Proof.
  intros Hf Hl Ha Hp. unfold read_end. cbn [app]. rewrite split_on_app by (apply emit_addr_lacks; auto).
  rewrite split_on_one by (apply hexw_lacks_sep; auto; lia). rewrite read_emit_addr by done. do 2 f_equal.
  rewrite unhex_hexw by lia. apply Z.mod_small. change (16 ^ Z.of_nat 4) with (2 ^ 16). lia.
Qed.

(** *** Words *)

Lemma words_space s : words (32 :: s) = words s.
Proof. unfold words. cbn [split_on]. rewrite Z.eqb_refl. by rewrite filter_cons_False by auto. Qed.

Lemma words_pad n s : words (replicate n 32 ++ s) = words s.
Proof. induction n as [|n IH]; [done|]. cbn [replicate app]. by rewrite words_space. Qed.

Lemma words_word w s : lacks 32 w -> w <> [] -> words (w ++ 32 :: s) = w :: words s.
Proof. intros Hw Hne. unfold words. by rewrite split_on_app, filter_cons_True. Qed.

Lemma decimal_lacks_sep x c : 0 <= x -> c = 10 \/ c = 32 \/ c = 58 -> lacks c (decimal x).
Proof. intros Hx Hc. apply decimal_lacks; [done|]. by destruct Hc as [-> | [-> | ->]]. Qed.

Lemma digits_colon x : 0 <= x < 10 ^ 20 -> digits (decimal x ++ [58]) 0 = x.
Proof. intros [Hx Hlt]. unfold decimal. rewrite digits_dec by done. done. Qed.

(** A line without its end, of the queues [queues] and an owner. *)
Definition sock_body (sl : Z) (r : row) (queues : cstr) (uid : Z) : cstr :=
  padded 4 (decimal sl) ++ bytes ": " ++ (emit_addr (r_laddr r) (r_family r) ++ bytes ":" ++ hexw 4 (r_lport r)) ++ bytes " " ++
  (emit_addr (r_raddr r) (r_family r) ++ bytes ":" ++ hexw 4 (r_rport r)) ++ bytes " " ++ hexw 2 (r_state r) ++ bytes " " ++ queues ++
  bytes " 00:00000000 00000000 " ++ padded 5 (decimal uid) ++ bytes "        0 " ++ decimal (r_inode r) ++
  bytes " 1 0000000000000000 0 0 0 0 0".

Definition no_queues : cstr := bytes "00000000:00000000".

Lemma net_line_body sl r : net_line sl r = sock_body sl r no_queues 0 ++ [10].
Proof. unfold net_line, sock_body, padded. rewrite <- !app_assoc. reflexivity. Qed.

Lemma decimal_nonempty x : decimal x <> [].
Proof. unfold decimal. destruct (dec_cons 19 x) as (c & l & E). by rewrite E. Qed.

Lemma words_body sl r queues uid :
  0 <= sl -> 0 <= uid -> row_ok r -> lacks 32 queues -> queues <> [] ->
  exists more, words (sock_body sl r queues uid) =
    (decimal sl ++ [58]) :: (emit_addr (r_laddr r) (r_family r) ++ [58] ++ hexw 4 (r_lport r)) ::
    (emit_addr (r_raddr r) (r_family r) ++ [58] ++ hexw 4 (r_rport r)) :: hexw 2 (r_state r) ::
    queues :: bytes "00:00000000" :: bytes "00000000" :: decimal uid :: bytes "0" :: decimal (r_inode r) :: more.
Proof.
  intros Hsl Huid (Hf & Hst & Hlp & Hrp & Hll & Hrl & Hla & Hra & Hi) Hq Hqne. eexists.
  assert (E : sock_body sl r queues uid = replicate (4 - length (decimal sl)) 32 ++ (decimal sl ++ [58]) ++ 32 ::
    (emit_addr (r_laddr r) (r_family r) ++ [58] ++ hexw 4 (r_lport r)) ++ 32 ::
    (emit_addr (r_raddr r) (r_family r) ++ [58] ++ hexw 4 (r_rport r)) ++ 32 :: hexw 2 (r_state r) ++ 32 ::
    queues ++ 32 :: bytes "00:00000000" ++ 32 :: bytes "00000000" ++ 32 :: (replicate (5 - length (decimal uid)) 32 ++ decimal uid ++ 32 ::
    (replicate 7 32 ++ bytes "0" ++ 32 :: decimal (r_inode r) ++ 32 :: bytes "1 0000000000000000 0 0 0 0 0"))).
  { unfold sock_body, padded. rewrite <- !app_assoc. reflexivity. }
  rewrite E, words_pad. clear E.
  assert (Hend : forall a p, 0 <= p -> Forall (fun b => 0 <= b < 256) a -> lacks 32 (emit_addr a (r_family r) ++ [58] ++ hexw 4 p)).
  { intros a p Hp Ha. apply lacks_app; [apply emit_addr_lacks; auto|]. constructor; [done|]. apply hexw_lacks_sep; auto. }
  assert (Hne : forall a p, emit_addr a (r_family r) ++ [58] ++ hexw 4 p <> []) by (intros a p H; by apply app_eq_nil in H as [_ ?]).
  rewrite words_word; [|apply lacks_app; [apply decimal_lacks_sep; auto|by constructor]|intros H; by apply app_eq_nil in H as [_ ?]].
  do 2 (rewrite words_word by (done || apply Hend; done || lia)).
  rewrite words_word by (try (apply hexw_lacks_sep; auto; lia); done). rewrite words_word by done.
  do 2 (rewrite words_word by (done || (by vm_compute; repeat constructor))).
  rewrite words_pad, words_word by (try apply decimal_nonempty; apply decimal_lacks_sep; auto).
  rewrite words_pad, words_word by (done || (by vm_compute; repeat constructor)).
  rewrite words_word by (try apply decimal_nonempty; apply decimal_lacks_sep; auto; lia). reflexivity.
Qed.

Lemma read_sock_body k r queues uid :
  Z.of_nat k < 10 ^ 20 -> 0 <= uid -> row_ok r -> lacks 32 queues -> queues <> [] ->
  read_net_line (sock_body (Z.of_nat k) r queues uid) = Some (entry_of k r).
Proof.
  intros Hk Hu Hr Hq Hqne. destruct (words_body (Z.of_nat k) r queues uid ltac:(lia) Hu Hr Hq Hqne) as (more & E). unfold read_net_line. rewrite E.
  destruct Hr as (Hf & Hst & Hlp & Hrp & Hll & Hrl & Hla & Hra & Hi). rewrite !read_end_printed by done.
  unfold entry_of. rewrite digits_colon, digits_decimal, unhex2 by lia. done.
Qed.

(** *** The file *)

Lemma sock_body_lacks sl r queues uid : 0 <= sl -> 0 <= uid -> row_ok r -> lacks 10 queues -> lacks 10 (sock_body sl r queues uid).
Proof.
  intros Hsl Hu (Hf & Hst & Hlp & Hrp & Hll & Hrl & Hla & Hra & Hi) Hq. unfold sock_body, padded.
  assert (Hc : forall s, forallb (fun c => negb (c =? 10)) (bytes s) = true -> lacks 10 (bytes s)).
  { intros s Hs. apply List.Forall_forall. intros c Hc. apply (proj1 (List.forallb_forall _ _) Hs) in Hc.
    intros ->. done. }
  assert (Hp : forall n, lacks 10 (replicate n 32)) by (intros n; apply Forall_replicate; done).
  rewrite <- !app_assoc.
  repeat (apply lacks_app; [first [apply Hp|by apply Hc|exact Hq|apply decimal_lacks_sep; auto; lia|apply hexw_lacks_sep; auto; lia|apply emit_addr_lacks; auto]|]).
  by apply Hc.
Qed.

Lemma omap_step {A B} (f : A -> option B) x l : omap f (x :: l) = match f x with Some y => y :: omap f l | None => omap f l end.
Proof. done. Qed.

Lemma read_lines proto family k rows :
  Forall row_ok rows -> Z.of_nat (k + length rows) < 10 ^ 20 ->
  omap read_net_line (split_on 10 (net_lines proto family (Z.of_nat k) rows)) =
    imap (fun i => entry_of (k + i)) (filter (fun r => r_proto r = proto /\ r_family r = family) rows).
Proof.
  intros Hr. revert k. induction Hr as [|r rows Hr _ IH]; intros k Hk; [done|]. cbn [net_lines length] in *.
  destruct (Z.eqb_spec (r_proto r) proto) as [Ep|Ep]; cbn [negb orb].
  2: { rewrite filter_cons_False by tauto. apply IH. lia. }
  destruct (Z.eqb_spec (r_family r) family) as [Ef|Ef]; cbn [negb].
  2: { rewrite filter_cons_False by tauto. apply IH. lia. }
  rewrite filter_cons_True by done. rewrite net_line_body, <- app_assoc. cbn [app].
  rewrite split_on_app by (apply sock_body_lacks; try done; try lia; by vm_compute; repeat constructor).
  rewrite omap_step, read_sock_body by (done || lia || by vm_compute; repeat constructor).
  rewrite imap_cons, Nat.add_0_r. f_equal. replace (Z.of_nat k + 1) with (Z.of_nat (S k)) by lia.
 rewrite IH by lia. apply imap_ext. intros i x _. cbn. f_equal. lia.
Qed.

(** *** The rows kept *)

Lemma fnv_range data h : 0 <= h < 2 ^ 64 -> 0 <= fnv data h < 2 ^ 64.
Proof.
  revert h. induction data as [|b data IH]; intros h Hh; [done|]. cbn [fnv foldl]. apply IH. apply Z.mod_pos_bound. lia.
Qed.

Lemma pfs_net_inode_range proto family pid lport rport l r : 0 < pfs_net_inode proto family pid lport rport l r < 2 ^ 47.
Proof.
  unfold pfs_net_inode. cbv zeta. change 0x7fffffffffff with (Z.ones 47). rewrite Z.land_ones by lia.
  match goal with |- context [?x mod 2 ^ 47] => pose proof (Z.mod_pos_bound x (2 ^ 47) ltac:(lia)) as H; set (y := x mod 2 ^ 47) in * end.
  destruct (Z.eqb_spec y 0); lia.
Qed.

Lemma lor_bound n a b : 0 <= n -> 0 <= a < 2 ^ n -> 0 <= b < 2 ^ n -> 0 <= Z.lor a b < 2 ^ n.
Proof.
  intros Hn Ha Hb. assert (E : Z.lor a b mod 2 ^ n = Z.lor a b).
  { rewrite <- Z.land_ones, Z.land_lor_distr_l, !Z.land_ones by lia. by rewrite !Z.mod_small. }
  rewrite <- E. apply Z.mod_pos_bound. lia.
Qed.

Lemma nt_port_range p : 0 <= nt_port p < 2 ^ 16.
Proof.
  unfold nt_port. change 0xff with (Z.ones 8). rewrite !Z.land_ones by lia.
  pose proof (Z.mod_pos_bound p (2 ^ 8) ltac:(lia)) as H1. pose proof (Z.mod_pos_bound (Z.shiftr p 8) (2 ^ 8) ltac:(lia)) as H2.
  rewrite Z.shiftl_mul_pow2 by lia. apply lor_bound; lia.
Qed.

Lemma tcp_state_range nt : 0 <= tcp_state_to_linux nt < 256.
Proof. unfold tcp_state_to_linux. repeat case_match; lia. Qed.

Lemma addr16_ok family a n :
  Forall (fun b => 0 <= b < 256) a -> length a = n -> (n = if family =? 4 then 4%nat else 16%nat) ->
  length (addr16 family a) = 16%nat /\ Forall (fun b => 0 <= b < 256) (addr16 family a).
Proof.
  intros Ha Hl Hn. unfold addr16. split.
  - rewrite length_app, length_take, length_replicate. destruct (family =? 4); lia.
  - apply Forall_app. split; [by apply Forall_take|]. apply Forall_replicate. lia.
Qed.

Definition rows_ok (rows : list row) : Prop := Forall row_ok rows /\ (length rows <= MAX_ROWS)%nat.

Lemma add_row_ok proto family state pid laddr lport raddr rport rows :
  family = 4 \/ family = 6 -> 0 <= state < 256 -> 0 <= lport < 2 ^ 16 -> 0 <= rport < 2 ^ 16 ->
  let n := if family =? 4 then 4%nat else 16%nat in
  length laddr = n -> (n <= length raddr)%nat -> Forall (fun b => 0 <= b < 256) laddr -> Forall (fun b => 0 <= b < 256) raddr ->
  rows_ok rows -> rows_ok (add_row proto family state pid laddr lport raddr rport rows).
Proof.
  intros Hf Hs Hlp Hrp n Hl Hr Hla Hra [Hok Hlen]. unfold add_row. destruct (Nat.leb_spec MAX_ROWS (length rows)) as [|Hroom]; [done|].
  split; [|rewrite length_app; cbn [length]; lia]. apply Forall_app. split; [done|]. apply Forall_singleton.
  destruct (addr16_ok family laddr n Hla Hl eq_refl) as [Hl1 Hl2].
  destruct (addr16_ok family (take n raddr) n) as [Hr1 Hr2]; [by apply Forall_take|rewrite length_take; lia|done|].
  assert (E : addr16 family (take n raddr) = addr16 family raddr) by (unfold addr16; fold n; by rewrite take_take, Nat.min_id).
  rewrite E in Hr1, Hr2. unfold row_ok. cbn. repeat (split; [done|]). apply pfs_net_inode_range.
Qed.

Lemma add_tcp_ok family n table rows :
  (family = 4 /\ n = 4%nat) \/ (family = 6 /\ n = 16%nat) -> Forall (entry_ok n) (default [] table) -> rows_ok rows -> rows_ok (add_tcp family table rows).
Proof.
  intros Hf. unfold add_tcp. generalize (default [] table). intros l Hl. revert rows.
  induction Hl as [|e l (H1 & H2 & H3 & H4) _ IH]; intros rows Hr; [done|]. cbn [foldl]. apply IH.
  apply add_row_ok; try done; try apply tcp_state_range; try apply nt_port_range.
  - destruct Hf as [[-> _]|[-> _]]; auto.
  - rewrite H1. by destruct Hf as [[-> ->]|[-> ->]].
  - rewrite H2. by destruct Hf as [[-> ->]|[-> ->]].
Qed.

Lemma add_udp_ok family n table rows :
  (family = 4 /\ n = 4%nat) \/ (family = 6 /\ n = 16%nat) -> Forall (entry_ok n) (default [] table) -> rows_ok rows -> rows_ok (add_udp family table rows).
Proof.
  intros Hf. unfold add_udp. generalize (default [] table). intros l Hl. revert rows.
  induction Hl as [|e l (H1 & H2 & H3 & H4) _ IH]; intros rows Hr; [done|]. cbn [foldl]. apply IH.
  apply add_row_ok; try done; try apply nt_port_range; try lia.
  - rewrite H1. by destruct Hf as [[-> ->]|[-> ->]].
  - rewrite length_replicate. by destruct Hf as [[-> ->]|[-> ->]]; cbn; lia.
  - apply Forall_replicate. lia.
Qed.

Lemma refresh_ok tables t t' c : tables_ok tables -> cache_ok c -> cache_ok (net_refresh_locked tables t t' c).
Proof.
  intros (H1 & H2 & H3 & H4) Hc. unfold net_refresh_locked. destruct (_ && _); [done|]. unfold cache_ok. cbn [nc_rows]. unfold all_rows.
  eapply add_udp_ok; [by right|done|]. eapply add_udp_ok; [by left|done|]. eapply add_tcp_ok; [by right|done|]. eapply add_tcp_ok; [by left|done|].
  split; [constructor|cbn; lia].
Qed.

(** The text of a socket file is read back as its rows. *)
Lemma net_text_rows name proto family ifs tables t t' c text c' :
  net_file_kind name = Some (proto, family) -> tables_ok tables -> cache_ok c ->
  pfs_gen_net_file name ifs tables t t' c = (Some text, c') ->
  c' = net_refresh_locked tables t t' c /\
  read_net_file text = imap entry_of (filter (fun r => r_proto r = proto /\ r_family r = family) (nc_rows c')).
Proof.
  intros Hk Ht Hc E. unfold pfs_gen_net_file in E.
  assert (Hd : name <> bytes "dev" /\ name <> bytes "unix") by (split; intros ->; done).
  rewrite !bool_decide_false, Hk in E by apply Hd. cbv zeta in E. apply pair_equal_spec in E as [Etext <-]. apply (inj Some) in Etext as <-.
  split; [done|]. destruct (refresh_ok tables t t' c Ht Hc) as [Hrows Hlen]. unfold read_net_file.
  assert (Hh : net_header = bytes "  sl  local_address rem_address   st tx_queue rx_queue tr tm->when retrnsmt   uid  timeout inode" ++ [10]) by done.
  rewrite Hh, <- app_assoc. cbn [app]. rewrite split_on_app by (by vm_compute; repeat constructor). cbn [drop].
  apply (read_lines proto family 0); [done|]. cbn [Nat.add]. assert (Z.of_nat MAX_ROWS = 4096) by (by vm_compute). lia.
Qed.

(** C30: a reader of Linux's format gets from /proc/net/tcp, tcp6, udp and udp6
    exactly the kept rows of that protocol and family, in the table's order
    and numbered from 0, with the addresses, ports, state and inode they
    have; and whatever NT answers, no more than 4096 rows are kept. *)
Theorem net_file_reads_back name proto family ifs tables t t' c text c' :
  net_file_kind name = Some (proto, family) -> tables_ok tables -> cache_ok c ->
  pfs_gen_net_file name ifs tables t t' c = (Some text, c') ->
  read_net_file text = imap entry_of (filter (fun r => r_proto r = proto /\ r_family r = family) (nc_rows c')) /\
  cache_ok c' /\
  (negb (nc_ms c =? 0) && (t - nc_ms c <? NET_REFRESH_MS) = false -> nc_rows c' = all_rows tables).
Proof.
  intros Hk Ht Hc E. destruct (net_text_rows _ _ _ _ _ _ _ _ _ _ Hk Ht Hc E) as [-> Hread]. split; [done|].
  split; [by apply refresh_ok|]. intros Hst. unfold net_refresh_locked. by rewrite Hst.
Qed.

(** ** fd.c, one's own descriptors *)

(** What getsockname and getpeername answer. *)
Inductive sockaddr := SockIn (addr : list Z) (port : Z) | SockIn6 (addr : list Z) (port : Z) | SockOther.

Inductive fdkind := FdEmpty | FdFile | FdSocket | FdConsole | FdSerial | FdDevNull | FdDevRandom | FdZip | FdKind (kind : Z).

(** struct Fd: the family AF_INET6 and the type SOCK_DGRAM as booleans. *)
Record fd_slot := FdSlot { f_kind : fdkind; f_handle : Z; f_inet6 : bool; f_dgram : bool }.

(** What the host says of descriptors and handles; a path that cannot be
    had is empty. *)
Class FdHost := {
  getsockname : Z -> option sockaddr;
  getpeername : Z -> option sockaddr;
  GetFinalPathNameByHandle : Z -> list Z;
  fd_self_pid : Z }.

Section fds.
Context `{FdHost}.

(** An end of a socket, zeros where there is none. *)
Definition end_of (a : option sockaddr) : list Z * Z :=
  match a with
  | Some (SockIn addr port) => (addr16 4 addr, port)
  | Some (SockIn6 addr port) => (addr16 6 addr, port)
  | _ => (replicate 16 0, 0)
  end.

Definition socket_text (fd : Z) (f : fd_slot) : cstr :=
  let '(laddr, lport) := end_of (getsockname fd) in
  let '(raddr, rport) := end_of (getpeername fd) in
  let inode := pfs_net_inode (if f_dgram f then 1 else 0) (if f_inet6 f then 6 else 4) fd_self_pid lport rport laddr raddr in
  cut 512 (bytes "socket:[" ++ decimal inode ++ bytes "]").

Definition from_wide (c : Z) : Z := if c =? 92 then 47 else if c <? 128 then c else 95.

Definition file_text (f : fd_slot) : cstr :=
  let w := GetFinalPathNameByHandle (f_handle f) in
  if negb (bool_decide (w = [])) && (length w <? 512)%nat then
    let i := if (4 <? length w)%nat && bool_decide (take 3 w = [92; 92; 63])
             then if (8 <? length w)%nat && bool_decide (take 3 (drop 4 w) = bytes "UNC") then 7%nat else 4%nat
             else 0%nat in
    match take 511 (map from_wide (drop i w)) with
    | a :: 58 :: out => 47 :: a :: out
    | out => out
    end
  else
    let h := fnv (le 8 (f_handle f)) 0xcbf29ce484222325 in
    cut 512 (bytes "pipe:[" ++ decimal (Z.land h 0xffffffffff) ++ bytes "]").

Definition fd_text (fd : Z) (f : fd_slot) : option cstr :=
  match f_kind f with
  | FdFile => Some (file_text f)
  | FdSocket => Some (socket_text fd f)
  | FdConsole | FdSerial => Some (bytes "/dev/tty")
  | FdDevNull => Some (bytes "/dev/null")
  | FdDevRandom => Some (bytes "/dev/urandom")
  | FdZip => Some (bytes "/zip")
  | FdEmpty => None
  | FdKind k => Some (bytes "anon_inode:[kind" ++ signed k ++ bytes "]")
  end.

(** The table from [fd] on, [cap] entries of it. *)
Fixpoint self_fds_from (fd : Z) (fds : list fd_slot) (cap : nat) : list (Z * cstr) :=
  match fds, cap with
  | f :: fds, S cap' =>
      match fd_text fd f with
      | Some text => (fd, text) :: self_fds_from (fd + 1) fds cap'
      | None => self_fds_from (fd + 1) fds cap
      end
  | _, _ => []
  end.

Definition pfs_self_fds (fds : list fd_slot) (cap : nat) : list (Z * cstr) := self_fds_from 0 fds cap.

Lemma self_fds_lookup fds cap fd k f text :
  (length fds <= cap)%nat -> fds !! k = Some f -> fd_text (fd + Z.of_nat k) f = Some text ->
  (fd + Z.of_nat k, text) ∈ self_fds_from fd fds cap.
Proof.
  revert fd k cap. induction fds as [|g fds IH]; intros fd k cap Hc Hk Ht; [done|]. destruct cap as [|cap]; [cbn in Hc; lia|].
  cbn [length] in Hc. cbn [self_fds_from]. destruct k as [|k].
  - cbn in Hk. injection Hk as ->. rewrite Z.add_0_r in *. rewrite Ht. left.
  - change ((g :: fds) !! S k = Some f) with (fds !! k = Some f) in Hk. replace (fd + Z.of_nat (S k)) with (fd + 1 + Z.of_nat k) in * by lia.
    destruct (fd_text fd g); [right|]; apply IH; try done; lia.
Qed.
End fds.

(** ** Links and rows *)

(** The inode of a row is the hash of what is in the row. *)
Definition row_made (r : row) : Prop :=
  r_inode r = pfs_net_inode (r_proto r) (r_family r) (r_pid r) (r_lport r) (r_rport r) (r_laddr r) (r_raddr r).

Lemma add_row_made proto family state pid laddr lport raddr rport rows :
  Forall row_made rows -> Forall row_made (add_row proto family state pid laddr lport raddr rport rows).
Proof.
  intros Hr. unfold add_row. destruct (_ <=? _)%nat; [done|]. apply Forall_app. split; [done|]. apply Forall_cons. split; [done|by apply Forall_nil].
Qed.

Lemma all_rows_made tables : Forall row_made (all_rows tables).
Proof.
  unfold all_rows, add_udp, add_tcp.
  assert (Hf : forall (f : list row -> nt_entry -> list row) l rows,
    (forall rows e, Forall row_made rows -> Forall row_made (f rows e)) -> Forall row_made rows -> Forall row_made (foldl f rows l)).
  { intros f l rows Hf. revert rows. induction l as [|e l IH]; intros rows Hr; [done|]. cbn [foldl]. by apply IH, Hf. }
  repeat (apply Hf; [intros rows e Hr; by apply add_row_made|]). by apply Forall_nil.
Qed.

(** A row's end is what the system says of a socket's: four bytes of an IPv4
    address with zeros behind them, the sixteen of an IPv6 address, the port;
    all zeros where the socket has no such end. *)
Definition same_end (inet6 : bool) (a : option sockaddr) (addr : list Z) (port : Z) : Prop :=
  match a with
  | Some (SockIn b p) => inet6 = false /\ length b = 4%nat /\ addr = b ++ replicate 12 0 /\ port = p
  | Some (SockIn6 b p) => inet6 = true /\ length b = 16%nat /\ addr = b /\ port = p
  | _ => addr = replicate 16 0 /\ port = 0
  end.

(** The address and the port themselves. *)
Definition said (inet6 : bool) (a : option sockaddr) : list Z * Z :=
  match a with
  | Some (SockIn b p) | Some (SockIn6 b p) => (b, p)
  | _ => (replicate (if inet6 then 16 else 4) 0, 0)
  end.

(** The row of a descriptor's socket, of this process. *)
Record row_of `{FdHost} (fd : Z) (f : fd_slot) (r : row) : Prop := {
  ro_pid : r_pid r = fd_self_pid;
  ro_proto : r_proto r = (if f_dgram f then 1 else 0);
  ro_family : r_family r = (if f_inet6 f then 6 else 4);
  ro_local : same_end (f_inet6 f) (getsockname fd) (r_laddr r) (r_lport r);
  ro_remote : same_end (f_inet6 f) (getpeername fd) (r_raddr r) (r_rport r) }.

Lemma same_end_is inet6 a addr port : same_end inet6 a addr port ->
  end_of a = (addr, port) /\ take (if inet6 then 16 else 4) addr = fst (said inet6 a) /\ port = snd (said inet6 a).
Proof.
  assert (Hz : take (if inet6 then 16 else 4) (replicate 16 0) = replicate (if inet6 then 16 else 4) 0) by (by destruct inet6).
  destruct a as [[b p|b p|]|]; cbn [same_end end_of said fst snd].
  - intros (-> & Hl & -> & ->). split_and!; [|by rewrite take_app_length'|done].
    unfold addr16. change (4 =? 4) with true. cbv iota zeta. by rewrite take_ge by lia.
  - intros (-> & Hl & -> & ->). split_and!; [|by rewrite take_ge by lia|done].
    unfold addr16. change (6 =? 4) with false. cbv iota zeta. rewrite take_ge by lia. by rewrite app_nil_r.
  - by intros [-> ->].
  - by intros [-> ->].
Qed.

(** C31: the link of one's own socket joins up with its row. Where the kept
    rows hold one of this process with the socket's protocol, family, local
    and remote end, the descriptor reads as socket:[N], a reader of the
    matching /proc/net file finds N on a line with the very address and port
    getsockname and getpeername answer, and the list of the process's inodes
    has N. The row's remote end must be the socket's peer, as it is for a TCP
    socket and for a datagram socket without one; a connected datagram
    socket's row has no remote end, and its link does not join. *)
Theorem link_joins_row `{FdHost} name ifs tables t t' c text c' fds fd f r :
  net_file_kind name = Some (r_proto r, r_family r) -> tables_ok tables -> cache_ok c -> Forall row_made (nc_rows c) ->
  pfs_gen_net_file name ifs tables t t' c = (Some text, c') -> r ∈ nc_rows c' ->
  fds !! fd = Some f -> f_kind f = FdSocket -> row_of (Z.of_nat fd) f r ->
  exists N,
  (Z.of_nat fd, bytes "socket:[" ++ decimal N ++ bytes "]") ∈ pfs_self_fds fds (length fds) /\
  (exists e, e ∈ read_net_file text /\ e_inode e = N /\
     e_local e = said (f_inet6 f) (getsockname (Z.of_nat fd)) /\
     e_remote e = said (f_inet6 f) (getpeername (Z.of_nat fd))) /\
  N ∈ fst (pfs_net_fds_of fd_self_pid (length (nc_rows c')) tables t t' c).
Proof.
  intros Hk Ht Hc Hm E Hr Hf Hkind [Hpid Hproto Hfam Hl%same_end_is Hp%same_end_is].
  destruct Hl as (Hl & Hla & Hlp), Hp as (Hp & Hpa & Hpp). exists (r_inode r).
  destruct (net_text_rows name _ _ ifs tables t t' c text c' Hk Ht Hc E) as [Hc' Hread].
  pose proof (refresh_ok tables t t' c Ht Hc) as [Hok _]. rewrite <- Hc' in Hok.
  assert (Hmade : row_made r).
  { assert (Hall : Forall row_made (nc_rows c')) by (rewrite Hc'; unfold net_refresh_locked; destruct (_ && _); [done|apply all_rows_made]).
    by apply (proj1 (Forall_forall _ _) Hall). }
  split; [|split].
  - pose proof (self_fds_lookup fds (length fds) 0 fd f (bytes "socket:[" ++ decimal (r_inode r) ++ bytes "]") ltac:(done) Hf) as Hin.
    apply Hin. unfold fd_text. rewrite Hkind. f_equal. unfold socket_text. rewrite Z.add_0_l, Hl, Hp. rewrite <- Hproto, <- Hfam, <- Hpid, <- Hmade.
    apply cut_fits. rewrite !length_app. pose proof (dec_length 20 (r_inode r)). unfold decimal. change (length (bytes "socket:[")) with 8%nat.
    change (length (bytes "]")) with 1%nat. lia.
  - rewrite Hread.
    assert (Hin : r ∈ filter (fun x => r_proto x = r_proto r /\ r_family x = r_family r) (nc_rows c')) by (apply list_elem_of_filter; done).
    apply list_elem_of_lookup in Hin as [i Hi]. exists (entry_of i r). split; [apply list_elem_of_lookup; exists i; by rewrite list_lookup_imap, Hi|].
    unfold entry_of. cbn [e_inode e_local e_remote]. rewrite Hfam. cbv zeta.
    assert (Hn : (if (if f_inet6 f then 6 else 4) =? 4 then 4%nat else 16%nat) = (if f_inet6 f then 16 else 4)%nat) by (by destruct (f_inet6 f)).
    rewrite Hn, Hla, Hlp, Hpa, Hpp, <- !surjective_pairing. done.
  - unfold pfs_net_fds_of. cbv zeta. cbn [fst]. rewrite <- Hc'. rewrite take_ge by (rewrite length_map; apply length_filter).
    apply list_elem_of_fmap. exists r. split; [done|]. by apply list_elem_of_filter.
Qed.

(** ** A concrete machine *)

(** A listener, a connection and a datagram socket of process 700, and a
    listener of another. *)
Definition toy_tables : nt_tables :=
  NtTables (Some [NtEntry 2 [0; 0; 0; 0] 0x901f [0; 0; 0; 0] 0 700; NtEntry 5 [127; 0; 0; 1] 0x39c0 [127; 0; 0; 1] 0x901f 700;
                  NtEntry 2 [0; 0; 0; 0] 0x8700 [0; 0; 0; 0] 0 900])
    None (Some [NtEntry 0 [10; 0; 0; 2] 0x3500 [0; 0; 0; 0] 0 700]) None.
#[local] Instance toy_fds : FdHost := {|
  getsockname fd := if fd =? 3 then Some (SockIn [127; 0; 0; 1] 49209) else if fd =? 4 then Some (SockIn [10; 0; 0; 2] 53) else None;
  getpeername fd := if fd =? 3 then Some (SockIn [127; 0; 0; 1] 8080) else if fd =? 4 then Some (SockIn [1; 1; 1; 1] 53) else None;
  GetFinalPathNameByHandle h := if h =? 40 then map (fun c => c) (bytes "\\?\UNC\srv\share\x") else bytes "\\?\C:\dir\file";
  fd_self_pid := 700 |}.
Definition toy_fd_table : list fd_slot :=
  [FdSlot FdConsole 1 false false; FdSlot FdEmpty 0 false false; FdSlot FdFile 36 false false; FdSlot FdSocket 80 false false;
   FdSlot FdSocket 84 false true; FdSlot FdFile 40 false false].
Definition toy_row : row := nth 1 (all_rows toy_tables) (Row 0 0 0 0 0 0 [] [] 0).
Definition toy_cache : net_cache := NetCache [] 0.

Lemma toy_rows_ok : tables_ok toy_tables.
Proof.
  unfold tables_ok, toy_tables, entry_ok. cbn. repeat split; try (by apply Forall_nil);
    repeat (apply Forall_cons; split; [repeat split; repeat (apply Forall_cons; split; [lia|]); by apply Forall_nil|]); by apply Forall_nil.
Qed.

Lemma toy_cache_ok : cache_ok toy_cache.
Proof. split; [by apply Forall_nil|cbn; lia]. Qed.

Lemma net_file_reads_back_witness :
  exists text c', pfs_gen_net_file (bytes "tcp") [] toy_tables 5000 5001 toy_cache = (Some text, c') /\
    read_net_file text = [NetEntry 0 ([0; 0; 0; 0], 8080) ([0; 0; 0; 0], 0) 10 (r_inode (nth 0 (nc_rows c') toy_row));
                          NetEntry 1 ([127; 0; 0; 1], 49209) ([127; 0; 0; 1], 8080) 1 (r_inode toy_row);
                          NetEntry 2 ([0; 0; 0; 0], 135) ([0; 0; 0; 0], 0) 10 (r_inode (nth 2 (nc_rows c') toy_row))].
Proof.
  eexists _, _. split; [reflexivity|].
  destruct (net_file_reads_back (bytes "tcp") 0 4 [] toy_tables 5000 5001 toy_cache _ _ eq_refl toy_rows_ok toy_cache_ok eq_refl) as (-> & _).
  vm_compute. reflexivity.
Defined.

Lemma link_joins_row_witness :
  exists N e, (3, bytes "socket:[" ++ decimal N ++ bytes "]") ∈ pfs_self_fds toy_fd_table 6 /\
    e_inode e = N /\ e_local e = ([127; 0; 0; 1], 49209) /\ e_remote e = ([127; 0; 0; 1], 8080).
Proof.
  pose proof (link_joins_row (bytes "tcp") [] toy_tables 5000 5001 toy_cache _ _ toy_fd_table 3 (FdSlot FdSocket 80 false false) toy_row
    eq_refl toy_rows_ok toy_cache_ok (Forall_nil_2 _) eq_refl) as H.
  destruct (H ltac:(right; left) eq_refl eq_refl ltac:(by split)) as (N & Hin & (e & _ & HN & Hl & Hr) & _).
  exists N, e. split_and!; [exact Hin|exact HN|exact Hl|exact Hr].
Defined.

(** A connected datagram socket has its peer in its link, and no peer in its
    row. *)
Example connected_datagram_not_joined :
  exists text, pfs_self_fds toy_fd_table 6 !! 3%nat = Some (4, text) /\
    text <> bytes "socket:[" ++ decimal (r_inode (nth 3 (all_rows toy_tables) toy_row)) ++ bytes "]".
Proof. eexists. split; [vm_compute; reflexivity|]. vm_compute. discriminate. Qed.

(** The path of a file on a share loses a slash. *)
Example share_reads_as_local :
  pfs_self_fds toy_fd_table 6 !! 1%nat = Some (2, bytes "/C/dir/file") /\
  pfs_self_fds toy_fd_table 6 !! 4%nat = Some (5, bytes "/srv/share/x").
Proof. vm_compute. done. Qed.
