(* ===== verification/XnuNet.v ===== *)
(** * The sockets and interfaces of shim/procfs/xnu.c

    On macOS the tables of /proc/net come out of two dumps of the kernel, a
    list of records each of which states its length. The dumps are byte
    lists and every read of them is checked: [None] is a read outside the
    dump, or no fuel. The theorems: whatever the dump holds the walk over the
    socket tables ends and stays inside it; a reader of Linux's format gets
    the sockets of well-formed records back; a descriptor's link names the
    inode of its row. *)
From S2P Require Import Prelude PfsText Fields SockOpt SysFs ProcFs NetTab.

(** The text before a NUL. *)
Fixpoint upto_nul (s : list Z) : list Z :=
  match s with c :: s => if c =? 0 then [] else c :: upto_nul s | [] => [] end.

(** A read of [n] bytes at an offset of a dump. *)
Definition rdc (n : nat) (l : list Z) (off : nat) : option Z :=
  if (off + n <=? length l)%nat then Some (rd n l off) else None.

Definition copyc (n : nat) (l : list Z) (off : nat) : option (list Z) :=
  if (off + n <=? length l)%nat then Some (take n (drop off l)) else None.

(** ** Layouts (xnu.h, packed to 4) *)

Definition XINPGEN : nat := 24.
Definition XINPCB : nat := 260.
Definition XTCPCB : nat := 296.
Definition inp_fport : nat := 16.
Definition inp_lport : nat := 18.
Definition inp_vflag : nat := 92.
Definition inp_dependfaddr : nat := 96.
Definition inp_dependladdr : nat := 112.
Definition xi_so_rcv_cc : nat := 200.
Definition xi_so_snd_cc : nat := 224.
Definition xi_so_uid : nat := 248.
Definition t_state : nat := 292.
Definition xt_inpcb : nat := 4.

Definition bswap16 (x : Z) : Z := (x mod 256) * 256 + (x / 256) mod 256.

Definition tcp_state_of (st : Z) : Z :=
  if (0 <=? st) && (st <? 11) then nth (Z.to_nat st) [7; 10; 2; 3; 1; 8; 4; 11; 9; 5; 6] 7 else 7.

(** What one record shows: the row with pid 0, and what the row has not. *)
Record pcb := Pcb { p_row : row; p_snd : Z; p_rcv : Z; p_uid : Z }.

(** The record at [off], whose pcb starts at [inp]. *)
Definition read_pcb (tcp v6 : bool) (raw : list Z) (off inp : nat) : option (option pcb) :=
  state ← (if tcp then st ← rdc 4 raw (off + t_state); Some (tcp_state_of (s32 st)) else Some 7);
  vflag ← rdc 1 raw (inp + inp_vflag);
  if negb (bool_decide (negb (Z.land vflag 2 =? 0) = v6)) then Some None
  else
    lport ← rdc 2 raw (inp + inp_lport);
    rport ← rdc 2 raw (inp + inp_fport);
    laddr ← (if v6 then copyc 16 raw (inp + inp_dependladdr) else copyc 4 raw (inp + inp_dependladdr + 12));
    raddr ← (if v6 then copyc 16 raw (inp + inp_dependfaddr) else copyc 4 raw (inp + inp_dependfaddr + 12));
    snd ← rdc 4 raw (inp + xi_so_snd_cc);
    rcv ← rdc 4 raw (inp + xi_so_rcv_cc);
    uid ← rdc 4 raw (inp + xi_so_uid);
    let family := if v6 then 6 else 4 in
    let l := addr16 family laddr in
    let r := addr16 family raddr in
    let proto := if tcp then 0 else 1 in
    Some (Some (Pcb (Row proto family state 0 (bswap16 lport) (bswap16 rport) l r
                       (pfs_net_inode proto family 0 (bswap16 lport) (bswap16 rport) l r)) snd rcv uid)).

(** The loop over the records from [off] on. *)
Fixpoint read_pcbs (fuel : nat) (tcp v6 : bool) (raw : list Z) (off : nat) : option (list pcb) :=
  match fuel with
  | O => None
  | S fuel =>
      if (length raw <? off + XINPGEN)%nat then Some []
      else
        rlen ← rdc 4 raw off;
        if (rlen <? Z.of_nat XINPGEN) || (Z.of_nat (length raw - off) <? rlen) then Some []
        else if rlen <? Z.of_nat (if tcp then XTCPCB else XINPCB) then Some []
        else
          p ← read_pcb tcp v6 raw off (if tcp then off + xt_inpcb else off)%nat;
          rest ← read_pcbs fuel tcp v6 raw (off + Z.to_nat rlen);
          Some (match p with Some p => p :: rest | None => rest end)
  end.

(** The header of the dump, which states its own length. *)
Definition pcblist (fuel : nat) (tcp v6 : bool) (raw : list Z) : option (list pcb) :=
  if (length raw <? XINPGEN)%nat then Some []
  else
    xig_len ← rdc 4 raw 0;
    if (xig_len =? 0) || (Z.of_nat (length raw) <? xig_len) then Some []
    else read_pcbs fuel tcp v6 raw (Z.to_nat xig_len).

(** ** The text *)

Definition put_addr (v6 : bool) (a : list Z) (port : Z) : cstr :=
  concat (map (fun g => hexw 8 (rd 4 a (g * 4))) (seq 0 (if v6 then 4 else 1))) ++ bytes ":" ++ hexw 4 port.

Definition pcb_line (v6 : bool) (sl : Z) (p : pcb) : cstr :=
  let r := p_row p in
  padded 4 (decimal sl) ++ bytes ": " ++ put_addr v6 (r_laddr r) (r_lport r) ++ bytes " " ++ put_addr v6 (r_raddr r) (r_rport r) ++
  bytes " " ++ hexw 2 (r_state r) ++ bytes " " ++ hexw 8 (p_snd p) ++ bytes ":" ++ hexw 8 (p_rcv p) ++
  bytes " 00:00000000 00000000 " ++ padded 5 (decimal (p_uid p)) ++ bytes "        0 " ++ decimal (r_inode r) ++
  bytes " 1 0000000000000000 0 0 0 0 0" ++ [10].

Fixpoint pcb_lines (v6 : bool) (sl : Z) (ps : list pcb) : cstr :=
  match ps with [] => [] | p :: ps => pcb_line v6 sl p ++ pcb_lines v6 (sl + 1) ps end.

(** net_table of a file of the four; the dump is [None] where there is none. *)
Definition net_table (fuel : nat) (proto family : Z) (raw : option (list Z)) : option cstr :=
  match raw with
  | None => Some net_header
  | Some raw =>
      ps ← pcblist fuel (proto =? 0) (family =? 6) raw;
      Some (net_header ++ pcb_lines (family =? 6) 0 ps)
  end.

(** ** The interfaces *)

Definition IF_MSGHDR2 : nat := 160.
Definition RTM_IFINFO2 : Z := 0x12.
Definition RTA_IFP : Z := 0x10.
Definition IFF_UP : Z := 0x1.
Definition IFF_RUNNING : Z := 0x40.

(** A message of an interface: its counters, and name and address out of the
    sockaddr_dl behind it. *)
Definition read_if (raw : list Z) (p : nat) : option (ifstat * Z) :=
  index ← rdc 2 raw (p + 12);
  addrs ← rdc 4 raw (p + 4);
  flags ← rdc 4 raw (p + 8);
  let dl := (p + IF_MSGHDR2)%nat in
  let unnamed := cut 16 (bytes "if" ++ decimal index) in
  names ← (if has addrs RTA_IFP then
             nlen ← rdc 1 raw (dl + 5);
             let nl := Nat.min (Z.to_nat nlen) 15 in
             name ← (if (dl + 8 + nl <=? length raw)%nat then cs ← copyc nl raw (dl + 8); Some (upto_nul cs) else Some unnamed);
             alen ← rdc 1 raw (dl + 6);
             let at_ := (dl + 8 + Z.to_nat nlen)%nat in
             if negb (alen =? 0) && (alen <=? 8) && (at_ + Z.to_nat alen <=? length raw)%nat
             then mac ← copyc (Z.to_nat alen) raw at_; Some (name, mac, alen)
             else Some (name, [], 0)
           else Some (unnamed, [], 0));
  let '(name, mac, maclen) := names in
  ibytes ← rdc 8 raw (p + 32 + 64); obytes ← rdc 8 raw (p + 32 + 72);
  ipackets ← rdc 8 raw (p + 32 + 24); opackets ← rdc 8 raw (p + 32 + 40);
  ierrors ← rdc 8 raw (p + 32 + 32); oerrors ← rdc 8 raw (p + 32 + 48);
  iqdrops ← rdc 8 raw (p + 32 + 96); mtu ← rdc 4 raw (p + 32 + 8); baud ← rdc 8 raw (p + 32 + 16);
  Some (IfStat name ibytes obytes ipackets opackets ierrors oerrors iqdrops 0 mtu (has flags IFF_UP && has flags IFF_RUNNING)
          (mac ++ replicate (8 - length mac) 0) (baud / 1000000), maclen).

(** The messages from [p] on, with room for [room] interfaces. *)
Fixpoint read_ifs (fuel : nat) (raw : list Z) (p room : nat) : option (list (ifstat * Z)) :=
  match fuel with
  | O => None
  | S fuel =>
      if (length raw <? p + 4)%nat || (room =? 0)%nat then Some []
      else
        mlen ← rdc 2 raw p;
        type ← rdc 1 raw (p + 3);
        if (mlen =? 0) || (Z.of_nat (length raw - p) <? mlen) then Some []
        else if (type =? RTM_IFINFO2) && (Z.of_nat IF_MSGHDR2 <=? mlen) then
          i ← read_if raw p;
          rest ← read_ifs fuel raw (p + Z.to_nat mlen) (room - 1);
          Some (i :: rest)
        else read_ifs fuel raw (p + Z.to_nat mlen) room
  end.

(** The statics of pfs_xnu_ifstats: parsed once a second. *)
Record if_cache := IfCache { ic_ifs : list (ifstat * Z); ic_ms : Z }.

Definition pfs_xnu_ifstats (fuel : nat) (raw : option (list Z)) (cap : nat) (t : Z) (c : if_cache) : option (list (ifstat * Z) * if_cache) :=
  c ← (if (ic_ms c =? 0) || (1000 <=? t - ic_ms c) then
         ifs ← match raw with Some raw => read_ifs fuel raw 0 32 | None => Some [] end;
         Some (IfCache ifs t)
       else Some c);
  Some (take cap (ic_ifs c), c).

Definition xnu_dev_line (s : ifstat) : cstr :=
  padded 6 (SysFs.if_name s) ++ bytes ": " ++ padded 7 (decimal (if_rx_bytes s)) ++ bytes " " ++ padded 7 (decimal (if_rx_pkts s)) ++ bytes " " ++
  padded 4 (decimal (if_rx_errs s)) ++ bytes " " ++ padded 4 (decimal (if_rx_drop s)) ++ bytes " " ++
  padded 5 (decimal 0) ++ bytes " " ++ padded 5 (decimal 0) ++ bytes " " ++ padded 10 (decimal 0) ++ bytes " " ++ padded 9 (decimal 0) ++ bytes " " ++
  padded 8 (decimal (if_tx_bytes s)) ++ bytes " " ++ padded 7 (decimal (if_tx_pkts s)) ++ bytes " " ++ padded 4 (decimal (if_tx_errs s)) ++ bytes " " ++
  padded 4 (decimal (if_tx_drop s)) ++ bytes " " ++ padded 5 (decimal 0) ++ bytes " " ++ padded 7 (decimal 0) ++ bytes " " ++
  padded 10 (decimal 0) ++ bytes " " ++ padded 10 (decimal 0) ++ [10].

Definition net_dev (ifs : list ifstat) : cstr := dev_header ++ concat (map xnu_dev_line ifs).

(** pfs_xnu_gen_net_file: [None] outside a dump, [Some None] for a name it
    does not know. *)
Definition pfs_xnu_gen_net_file (fuel : nat) (name : cstr) (raw : Z -> option (list Z)) (ifs : list ifstat) : option (option cstr) :=
  match net_file_kind name with
  | Some (proto, family) => text ← net_table fuel proto family (raw proto); Some (Some text)
  | None =>
      Some (if bool_decide (name = bytes "unix") then Some (bytes "Num       RefCount Protocol Flags    Type St Inode Path" ++ [10])
            else if bool_decide (name = bytes "dev") then Some (net_dev ifs) else None)
  end.

(** ** Descriptors *)

(** struct xnu_sock_id: the kernel's answer for a socket of any process. *)
Record sock_id := SockId { si_proto : Z; si_family : Z; si_lport : Z; si_rport : Z; si_laddr : list Z; si_raddr : list Z }.

(** What the kernel answers of descriptors. *)
Class XnuFds := {
  xnu_fdpath : Z -> Z -> option cstr;
  xnu_fdsock : Z -> Z -> option sock_id;
  xnu_type_dgram : Z -> bool;
  xnu_fds : Z -> list (Z * Z) }.

Section fds.
Context `{FdHost, XnuFds}.

Definition is_in6 (a : option sockaddr) : bool := match a with Some (SockIn6 _ _) => true | _ => false end.

Definition xnu_socket_text (fd : Z) : cstr :=
  let '(laddr, lport) := end_of (getsockname fd) in
  let '(raddr, rport) := end_of (getpeername fd) in
  let family := if is_in6 (getsockname fd) then 6 else 4 in
  let inode := pfs_net_inode (if xnu_type_dgram fd then 1 else 0) family 0 lport rport laddr raddr in
  cut 512 (bytes "socket:[" ++ decimal inode ++ bytes "]").

Definition other_socket_text (pid fd : Z) : cstr :=
  let inode := match xnu_fdsock pid fd with
               | Some s => pfs_net_inode (si_proto s) (si_family s) 0 (si_lport s) (si_rport s) (si_laddr s) (si_raddr s)
               | None => Z.lor (Z.shiftl pid 20) fd
               end in
  cut 512 (bytes "socket:[" ++ decimal inode ++ bytes "]").

(** The text of a descriptor of a kind: 1 a file, 2 a socket, 6 a pipe, 5 a
    queue. *)
Definition xnu_fd_text (pid fd type : Z) : cstr :=
  if type =? 1 then match xnu_fdpath pid fd with Some (c :: path) => take 511 (c :: path) | _ => bytes "anon_inode:[vnode]" end
  else if type =? 2 then if pid =? fd_self_pid then xnu_socket_text fd else other_socket_text pid fd
  else if type =? 6 then bytes "pipe:[" ++ signed (1000000 + fd) ++ bytes "]"
  else if type =? 5 then bytes "anon_inode:[kqueue]"
  else bytes "anon_inode:[type" ++ decimal type ++ bytes "]".

Definition pfs_xnu_fds_of (pid : Z) (cap : nat) : list (Z * cstr) :=
  map (fun '(fd, type) => (fd, xnu_fd_text pid fd type)) (take cap (take 1024 (xnu_fds pid))).
End fds.

(** ** In bounds *)

Lemma rdc_some n l off : (off + n <= length l)%nat -> rdc n l off = Some (rd n l off).
Proof. intros Hl. unfold rdc. by rewrite (proj2 (Nat.leb_le _ _) Hl). Qed.

Lemma copyc_some n l off : (off + n <= length l)%nat -> copyc n l off = Some (take n (drop off l)).
Proof. intros Hl. unfold copyc. by rewrite (proj2 (Nat.leb_le _ _) Hl). Qed.

Definition pcb_size (tcp : bool) : nat := if tcp then XTCPCB else XINPCB.
Definition pcb_start (tcp : bool) : nat := if tcp then xt_inpcb else 0.

(** A record that is as long as its struct is read inside the dump. *)
Lemma read_pcb_some tcp v6 raw off :
  (off + pcb_size tcp <= length raw)%nat -> is_Some (read_pcb tcp v6 raw off (off + pcb_start tcp)).
Proof.
  intros Hl. unfold read_pcb, pcb_size, pcb_start in *.
  assert (Hs : exists st, (if tcp then st ← rdc 4 raw (off + t_state); Some (tcp_state_of (s32 st)) else Some 7) = Some st).
  { destruct tcp; [|by exists 7]. rewrite rdc_some by (unfold t_state, XTCPCB in *; lia). eexists. reflexivity. }
  destruct Hs as [st ->]. cbn [mbind option_bind].
  assert (Hi : (off + (if tcp then xt_inpcb else 0) + 252 <= length raw)%nat) by (unfold xt_inpcb, XTCPCB, XINPCB in *; destruct tcp; lia).
  set (inp := (off + (if tcp then xt_inpcb else 0))%nat) in *.
  unfold inp_vflag, inp_lport, inp_fport, inp_dependladdr, inp_dependfaddr, xi_so_snd_cc, xi_so_rcv_cc, xi_so_uid.
  rewrite !rdc_some by lia. cbn [mbind option_bind].
  match goal with |- context [if negb (bool_decide ?P) then _ else _] => destruct (negb (bool_decide P)); [by eexists|] end.
  destruct v6; rewrite !copyc_some by lia; cbn [mbind option_bind]; by eexists.
Qed.

Lemma read_pcbs_some fuel tcp v6 raw off :
  (0 < fuel)%nat -> (length raw < off + 24 * fuel)%nat -> is_Some (read_pcbs fuel tcp v6 raw off).
Proof.
  revert off. induction fuel as [|fuel IH]; intros off H0 Hf; [lia|]. cbn [read_pcbs].
  destruct (Nat.ltb_spec (length raw) (off + XINPGEN)) as [|Hg]; [by eexists|]. unfold XINPGEN in *.
  rewrite rdc_some by lia. cbn [mbind option_bind]. set (rlen := rd 4 raw off).
  destruct (Z.ltb_spec rlen (Z.of_nat 24)) as [|H24]; [by eexists|]. cbn [orb].
  destruct (Z.ltb_spec (Z.of_nat (length raw - off)) rlen) as [|Hle]; [by eexists|].
  destruct (Z.ltb_spec rlen (Z.of_nat (if tcp then XTCPCB else XINPCB))) as [|Hsz]; [by eexists|].
  destruct (read_pcb_some tcp v6 raw off) as [p Ep]; [unfold pcb_size; lia|].
  assert (Ei : (if tcp then off + xt_inpcb else off)%nat = (off + pcb_start tcp)%nat) by (destruct tcp; cbn [pcb_start]; lia).
  rewrite Ei, Ep. cbn [mbind option_bind]. destruct (IH (off + Z.to_nat rlen)%nat) as [rest Er]; [lia|lia|].
  rewrite Er. cbn [mbind option_bind]. by eexists.
Qed.

(** whatever a dump of the kernel's socket table holds - lengths of 0,
    records cut short, lengths past the end - the walk over it ends and
    reads nothing outside it; every record read is as long as its struct. *)
Theorem pcblist_in_bounds proto family raw :
  exists text, net_table (S (length raw)) proto family (Some raw) = Some text.
Proof.
  unfold net_table, pcblist.
  assert (Hs : forall tcp v6 off, is_Some (read_pcbs (S (length raw)) tcp v6 raw off)) by (intros; apply read_pcbs_some; lia).
  destruct (Nat.ltb_spec (length raw) XINPGEN) as [|Hl]; [by eexists|]. unfold XINPGEN in *. rewrite rdc_some by lia. cbn [mbind option_bind].
  destruct (_ || _); [by eexists|]. destruct (Hs (proto =? 0) (family =? 6) (Z.to_nat (rd 4 raw 0))) as [ps ->]. by eexists.
Qed.

(** ** The table read back *)

Definition isbyte (b : Z) : Prop := 0 <= b < 256.

(** A record of a dump, and what it shows by itself. *)
Definition record_ok (tcp : bool) (rec : list Z) : Prop :=
  rd 4 rec 0 = Z.of_nat (length rec) /\ (pcb_size tcp <= length rec)%nat /\ Forall isbyte rec.
Definition record_pcb (tcp v6 : bool) (rec : list Z) : option pcb := mjoin (read_pcb tcp v6 rec 0 (pcb_start tcp)).

(** What may follow the last record: less than a header, or a length that is
    none of a record. *)
Definition dump_end (tcp : bool) (tl : list Z) : Prop :=
  (length tl < XINPGEN)%nat \/ rd 4 tl 0 < Z.of_nat (pcb_size tcp).

Lemma rdc_at n pre rec post k : (k + n <= length rec)%nat -> rdc n (pre ++ rec ++ post) (length pre + k) = rdc n rec k.
Proof.
  intros Hk. rewrite !rdc_some by (rewrite ?length_app; lia). f_equal. rewrite (rd_app _ _ _ _ _ eq_refl) by lia.
  replace (length pre + k - length pre)%nat with k by lia. unfold rd. f_equal. rewrite drop_app_le by lia. rewrite take_app_le; [done|].
  rewrite length_drop. lia.
Qed.

Lemma copyc_at n pre rec post k : (k + n <= length rec)%nat -> copyc n (pre ++ rec ++ post) (length pre + k) = copyc n rec k.
Proof.
  intros Hk. rewrite !copyc_some by (rewrite ?length_app; lia). f_equal. rewrite drop_app_ge by lia.
  replace (length pre + k - length pre)%nat with k by lia. rewrite drop_app_le by lia. rewrite take_app_le; [done|].
  rewrite length_drop. lia.
Qed.

Lemma read_pcb_at tcp v6 pre rec post :
  (pcb_size tcp <= length rec)%nat ->
  read_pcb tcp v6 (pre ++ rec ++ post) (length pre) (length pre + pcb_start tcp) = read_pcb tcp v6 rec 0 (pcb_start tcp).
Proof.
  intros Hl. unfold read_pcb, pcb_size, pcb_start in *.
  assert (Hr : forall n k, (k + n <= if tcp then 296 else 260)%nat ->
    rdc n (pre ++ rec ++ post) (length pre + k) = rdc n rec k) by (intros; apply rdc_at; unfold XTCPCB, XINPCB in *; destruct tcp; lia).
  assert (Hc : forall n k, (k + n <= if tcp then 296 else 260)%nat ->
    copyc n (pre ++ rec ++ post) (length pre + k) = copyc n rec k) by (intros; apply copyc_at; unfold XTCPCB, XINPCB in *; destruct tcp; lia).
  unfold t_state, inp_vflag, inp_lport, inp_fport, inp_dependladdr, inp_dependfaddr, xi_so_snd_cc, xi_so_rcv_cc, xi_so_uid, xt_inpcb in *.
  rewrite <- !Nat.add_assoc. destruct tcp, v6; rewrite ?Hr, ?Hc by lia; reflexivity.
Qed.

Lemma read_pcbs_records tcp v6 recs pre tl fuel :
  Forall (record_ok tcp) recs -> dump_end tcp tl -> (length recs < fuel)%nat ->
  read_pcbs fuel tcp v6 (pre ++ concat recs ++ tl) (length pre) = Some (omap (record_pcb tcp v6) recs).
Proof.
  intros Hr Htl. revert pre fuel. induction Hr as [|rec recs (Hlen & Hsz & _) _ IH]; intros pre fuel Hf; (destruct fuel as [|fuel]; [cbn in Hf; lia|]).
  - cbn [concat app read_pcbs omap list_omap]. rewrite length_app. destruct (Nat.ltb_spec (length pre + length tl) (length pre + XINPGEN)) as [|Hg]; [done|].
    destruct Htl as [Htl|Htl]; [lia|]. unfold XINPGEN in *. rewrite <- (app_nil_r tl), <- (Nat.add_0_r (length pre)), rdc_at by lia.
    rewrite rdc_some by lia. cbn [mbind option_bind]. unfold pcb_size in Htl. destruct (_ || _); [done|].
    by rewrite (proj2 (Z.ltb_lt _ _) Htl).
  - cbn [concat length] in *. rewrite <- app_assoc. set (post := concat recs ++ tl). cbn [read_pcbs].
    assert (Hmin : (260 <= pcb_size tcp)%nat) by (unfold pcb_size, XTCPCB, XINPCB; destruct tcp; lia).
    assert (Hall : length (pre ++ rec ++ post) = (length pre + length rec + length post)%nat) by (rewrite !length_app; lia).
    rewrite (proj2 (Nat.ltb_ge _ _)) by (unfold XINPGEN; lia).
    assert (E0 : rdc 4 (pre ++ rec ++ post) (length pre) = Some (Z.of_nat (length rec))).
    { rewrite <- (Nat.add_0_r (length pre)), rdc_at by lia. rewrite rdc_some by lia. by rewrite Hlen. }
    rewrite E0. cbn [mbind option_bind]. rewrite (proj2 (Z.ltb_ge _ _)) by (unfold XINPGEN; lia).
    rewrite (proj2 (Z.ltb_ge _ _)) by lia. cbn [orb]. fold (pcb_size tcp). rewrite (proj2 (Z.ltb_ge _ _)) by lia.
    assert (Ei : (if tcp then length pre + xt_inpcb else length pre)%nat = (length pre + pcb_start tcp)%nat) by (destruct tcp; cbn [pcb_start]; lia).
    rewrite Ei, read_pcb_at by done. rewrite omap_step. unfold record_pcb at 1.
    destruct (read_pcb_some tcp v6 rec 0) as [p Ep]; [lia|]. cbn [Nat.add] in Ep. rewrite Ep. cbn [mbind option_bind mjoin option_join].
    assert (Hnext : read_pcbs fuel tcp v6 (pre ++ rec ++ post) (length pre + Z.to_nat (Z.of_nat (length rec))) = Some (omap (record_pcb tcp v6) recs)).
    { rewrite Nat2Z.id, <- length_app, app_assoc. apply IH. lia. }
    rewrite Hnext. cbn [mbind option_bind]. by destruct p.
Qed.

(** *** Printing *)

Lemma hexw_split n x y : 0 <= x < 256 -> 0 <= y -> hexw (S (S n)) (x + 256 * y) = hexw n y ++ hexw 2 x.
Proof.
  intros Hx Hy. cbn [hexw]. rewrite app_nil_l, <- !app_assoc.
  assert (E1 : (x + 256 * y) / 16 = x / 16 + 16 * y) by (replace (x + 256 * y) with (x + 16 * y * 16) by lia; rewrite Z.div_add by lia; lia).
  assert (E2 : (x / 16 + 16 * y) / 16 = y).
  { replace (x / 16 + 16 * y) with (x / 16 + y * 16) by lia. rewrite Z.div_add by lia. rewrite (Z.div_small (x / 16)); [lia|].
    split; [apply Z.div_pos; lia|apply Z.div_lt_upper_bound; lia]. }
  assert (E3 : (x + 256 * y) mod 16 = x mod 16) by (replace (x + 256 * y) with (x + 16 * y * 16) by lia; by rewrite Z.mod_add by lia).
  assert (E4 : (x / 16 + 16 * y) mod 16 = (x / 16) mod 16) by (replace (x / 16 + 16 * y) with (x / 16 + y * 16) by lia; by rewrite Z.mod_add by lia).
  by rewrite E1, E2, E3, E4.
Qed.

(** Four bytes as one number of eight digits, and as four of two. *)
Lemma group_word a g : Forall isbyte a -> (g * 4 + 4 <= length a)%nat -> hexw 8 (rd 4 a (g * 4)) = emit_group a g.
Proof.
  intros Ha Hl. unfold emit_group, rd.
  assert (Hn : forall i, nth (g * 4 + i) a 0 = nth i (drop (g * 4) a) 0) by (intros i; rewrite !nth_lookup, lookup_drop; done).
  cbn [map concat]. rewrite !Hn. assert (Hd : Forall isbyte (drop (g * 4) a)) by by apply Forall_drop.
  assert (Hdl : (4 <= length (drop (g * 4) a))%nat) by (rewrite length_drop; lia).
  destruct (drop (g * 4) a) as [|b0 [|b1 [|b2 [|b3 l]]]]; cbn [length] in Hdl; try lia.
  apply Forall_cons in Hd as [H0 Hd]. apply Forall_cons in Hd as [H1 Hd]. apply Forall_cons in Hd as [H2 Hd]. apply Forall_cons in Hd as [H3 _].
  unfold isbyte in *. cbn [nth]. change (take 4 (b0 :: b1 :: b2 :: b3 :: l)) with [b0; b1; b2; b3]. cbn [of_le].
  replace (b3 + 256 * 0) with b3 by lia. rewrite (hexw_split 6 b0), (hexw_split 4 b1), (hexw_split 2 b2) by lia. by rewrite app_nil_r, <- !app_assoc.
Qed.

Lemma put_addr_emit v6 a port :
  Forall isbyte a -> length a = 16%nat -> put_addr v6 a port = emit_addr a (if v6 then 6 else 4) ++ bytes ":" ++ hexw 4 port.
Proof.
  intros Ha Hl. unfold put_addr, emit_addr. apply (f_equal (fun s => s ++ bytes ":" ++ hexw 4 port)), (f_equal (fun l => concat (A:=Z) l)).
  destruct v6; apply map_ext_in; intros g Hg%in_seq; cbn in Hg; (apply group_word; [done|lia]).
Qed.

Definition queues_of (p : pcb) : cstr := hexw 8 (p_snd p) ++ bytes ":" ++ hexw 8 (p_rcv p).

Definition pcb_ok (v6 : bool) (p : pcb) : Prop :=
  row_ok (p_row p) /\ r_family (p_row p) = (if v6 then 6 else 4) /\ 0 <= p_snd p /\ 0 <= p_rcv p /\ 0 <= p_uid p.

Lemma pcb_line_body v6 sl p : pcb_ok v6 p -> pcb_line v6 sl p = sock_body sl (p_row p) (queues_of p) (p_uid p) ++ [10].
Proof.
  intros (Hr & Hf & _). destruct Hr as (_ & _ & _ & _ & Hll & Hrl & Hla & Hra & _).
  unfold pcb_line. rewrite !put_addr_emit by done. rewrite <- Hf. unfold sock_body, queues_of. rewrite <- !app_assoc. reflexivity.
Qed.

Lemma queues_lacks p c : 0 <= p_snd p -> 0 <= p_rcv p -> c = 10 \/ c = 32 -> lacks c (queues_of p).
Proof.
  intros Hs Hr Hc. unfold queues_of. apply lacks_app; [apply hexw_lacks_sep; tauto|]. constructor; [by destruct Hc as [-> | ->]|].
  apply hexw_lacks_sep; tauto.
Qed.

Lemma read_pcb_lines v6 k ps :
  Forall (pcb_ok v6) ps -> Z.of_nat (k + length ps) < 10 ^ 20 ->
  omap read_net_line (split_on 10 (pcb_lines v6 (Z.of_nat k) ps)) = imap (fun i p => entry_of (k + i) (p_row p)) ps.
Proof.
  intros Hps. revert k. induction Hps as [|p ps Hp _ IH]; intros k Hk; [done|]. cbn [pcb_lines length] in *.
  rewrite (pcb_line_body v6) by done. destruct Hp as (Hr & _ & Hs & Hv & Hu). rewrite <- app_assoc. cbn [app].
  rewrite split_on_app by (apply sock_body_lacks; try done; try lia; apply queues_lacks; auto).
  rewrite omap_step, read_sock_body; [|lia|done|done|apply queues_lacks; auto|unfold queues_of; intros [H _]%app_eq_nil; done].
  rewrite imap_cons, Nat.add_0_r. f_equal. replace (Z.of_nat k + 1) with (Z.of_nat (S k)) by lia.
  rewrite IH by lia. apply imap_ext. intros i x _. cbn. f_equal. lia.
Qed.

(** *** What a record of bytes shows is well formed *)

Lemma of_le_bytes l : Forall isbyte l -> 0 <= of_le l < 256 ^ Z.of_nat (length l).
Proof.
  induction 1 as [|b l Hb _ IH]; cbn [of_le length]; [by vm_compute|]. unfold isbyte in Hb.
  replace (Z.of_nat (S (length l))) with (Z.succ (Z.of_nat (length l))) by lia. rewrite Z.pow_succ_r by lia. lia.
Qed.

Lemma rdc_range n l off x : Forall isbyte l -> rdc n l off = Some x -> 0 <= x < 256 ^ Z.of_nat n.
Proof.
  intros Hl. unfold rdc. destruct (Nat.leb_spec (off + n) (length l)) as [Hle|]; [|done]. intros [= <-]. unfold rd.
  pose proof (of_le_bytes (take n (drop off l)) ltac:(by apply Forall_take, Forall_drop)) as H. rewrite length_take, length_drop in H.
  by rewrite Nat.min_l in H by lia.
Qed.

Lemma copyc_range n l off a : Forall isbyte l -> copyc n l off = Some a -> Forall isbyte a /\ length a = n.
Proof.
  intros Hl. unfold copyc. destruct (Nat.leb_spec (off + n) (length l)) as [Hle|]; [|done]. intros [= <-].
  split; [by apply Forall_take, Forall_drop|]. rewrite length_take, length_drop. lia.
Qed.

Lemma bswap16_range x : 0 <= bswap16 x < 2 ^ 16.
Proof.
  unfold bswap16. pose proof (Z.mod_pos_bound x 256 ltac:(lia)). pose proof (Z.mod_pos_bound (x / 256) 256 ltac:(lia)). lia.
Qed.

Lemma tcp_state_of_range st : 0 <= tcp_state_of st < 256.
Proof.
  unfold tcp_state_of. destruct (_ && _); [|lia]. generalize (Z.to_nat st). intros n. do 11 (destruct n as [|n]; [cbn; lia|]). destruct n; cbn; lia.
Qed.

Lemma record_pcb_ok tcp v6 rec p : Forall isbyte rec -> record_pcb tcp v6 rec = Some p ->
  pcb_ok v6 p /\ row_made (p_row p) /\ r_pid (p_row p) = 0 /\ r_proto (p_row p) = (if tcp then 0 else 1).
Proof.
  intros Hb. unfold record_pcb, read_pcb. intros E.
  destruct (if tcp then _ else Some 7) as [st|] eqn:Est; [|done]. cbn [mbind option_bind] in E.
  assert (Hst : 0 <= st < 256).
  { destruct tcp; [|by simplify_eq]. destruct (rdc 4 rec (0 + t_state)) as [x|]; [|done]. cbn in Est. injection Est as <-. apply tcp_state_of_range. }
  destruct (rdc 1 rec _) as [vflag|]; [|done]. cbn [mbind option_bind] in E. destruct (negb (bool_decide (_ = v6))); [done|].
  destruct (rdc 2 rec (_ + inp_lport)) as [lport|]; [|done]. destruct (rdc 2 rec (_ + inp_fport)) as [rport|]; [|done]. cbn [mbind option_bind] in E.
  destruct (if v6 then copyc 16 rec (_ + inp_dependladdr) else _) as [laddr|] eqn:El; [|done]. cbn [mbind option_bind] in E.
  destruct (if v6 then copyc 16 rec (_ + inp_dependfaddr) else _) as [raddr|] eqn:Er; [|done]. cbn [mbind option_bind] in E.
  destruct (rdc 4 rec (_ + xi_so_snd_cc)) as [snd|] eqn:E1; [|done]. destruct (rdc 4 rec (_ + xi_so_rcv_cc)) as [rcv|] eqn:E2; [|done].
  destruct (rdc 4 rec (_ + xi_so_uid)) as [uid|] eqn:E3; [|done]. cbn in E. injection E as <-.
  apply rdc_range in E1, E2, E3; try done. split; [|done]. unfold pcb_ok. cbn [p_row p_snd p_rcv p_uid r_family]. split; [|split; [done|lia]].
  assert (Hl : Forall isbyte laddr /\ length laddr = (if v6 then 16 else 4)%nat) by (destruct v6; by apply copyc_range in El).
  assert (Hr : Forall isbyte raddr /\ length raddr = (if v6 then 16 else 4)%nat) by (destruct v6; by apply copyc_range in Er).
  destruct (addr16_ok (if v6 then 6 else 4) laddr (if v6 then 16 else 4)%nat) as [Hl1 Hl2]; [apply Hl|apply Hl|by destruct v6|].
  destruct (addr16_ok (if v6 then 6 else 4) raddr (if v6 then 16 else 4)%nat) as [Hr1 Hr2]; [apply Hr|apply Hr|by destruct v6|].
  unfold row_ok. cbn. split; [destruct v6; auto|]. split; [done|]. split; [apply bswap16_range|]. split; [apply bswap16_range|].
  repeat (split; [done|]). apply pfs_net_inode_range.
Qed.

(** a dump of a header and records as long as they say, of any number and
    size, is printed so that a reader of Linux's format gets exactly the
    sockets of the file's family, in the dump's order and numbered from 0:
    no record is lost, read twice or read out of step, and what ends the
    dump is no socket. *)
Theorem xnu_table_reads_back proto family hdr recs tl :
  (XINPGEN <= length hdr)%nat -> rd 4 hdr 0 = Z.of_nat (length hdr) -> Forall (record_ok (proto =? 0)) recs -> dump_end (proto =? 0) tl ->
  Z.of_nat (length recs) < 10 ^ 20 ->
  exists text, net_table (S (length recs)) proto family (Some (hdr ++ concat recs ++ tl)) = Some text /\
    read_net_file text = imap (fun i p => entry_of i (p_row p)) (omap (record_pcb (proto =? 0) (family =? 6)) recs).
Proof.
  intros Hh Hlen Hr Htl Hmax. unfold net_table, pcblist.
  assert (Hall : length (hdr ++ concat recs ++ tl) = (length hdr + length (concat recs ++ tl))%nat) by apply length_app.
  rewrite (proj2 (Nat.ltb_ge _ _)) by lia.
  assert (E0 : rdc 4 (hdr ++ concat recs ++ tl) 0 = Some (Z.of_nat (length hdr))).
  { unfold XINPGEN in Hh. pose proof (rdc_at 4 [] hdr (concat recs ++ tl) 0 ltac:(lia)) as E. cbn [app length Nat.add] in E.
    rewrite E, rdc_some by lia. by rewrite Hlen. }
  rewrite E0. cbn [mbind option_bind]. unfold XINPGEN in Hh. rewrite (proj2 (Z.eqb_neq (Z.of_nat (length hdr)) 0)) by lia. cbn [orb].
  rewrite (proj2 (Z.ltb_ge (Z.of_nat (length (hdr ++ concat recs ++ tl))) (Z.of_nat (length hdr)))) by lia.
  rewrite Nat2Z.id, read_pcbs_records by (done || lia). cbn [mbind option_bind]. eexists. split; [reflexivity|].
  unfold read_net_file. assert (Hhd : net_header = bytes "  sl  local_address rem_address   st tx_queue rx_queue tr tm->when retrnsmt   uid  timeout inode" ++ [10]) by done.
  rewrite Hhd, <- app_assoc. cbn [app]. rewrite split_on_app by (by vm_compute; repeat constructor). cbn [drop].
  assert (Hps : Forall (pcb_ok (family =? 6)) (omap (record_pcb (proto =? 0) (family =? 6)) recs) /\
                (length (omap (record_pcb (proto =? 0)%Z (family =? 6)%Z) recs) <= length recs)%nat).
  { clear -Hr. induction Hr as [|rec recs (_ & _ & Hb) _ [IH1 IH2]]; [split; [by apply Forall_nil|done]|]. rewrite omap_step.
    destruct (record_pcb _ _ rec) as [p|] eqn:Ep; [|split; [done|cbn; lia]]. split; [|cbn [length]; lia].
    apply Forall_cons. split; [by apply record_pcb_ok in Ep as [? _]|done]. }
  apply (read_pcb_lines (family =? 6) 0); [apply Hps|]. destruct Hps as [_ Hps]. cbn [Nat.add]. lia.
Qed.

(** ** Links *)

(** One's own socket has the inode of its row here too, with pid 0 on both
    sides. *)
Lemma xnu_link_names_row `{FdHost, XnuFds} tcp v6 rec p fd :
  Forall isbyte rec -> record_pcb tcp v6 rec = Some p -> xnu_type_dgram fd = negb tcp -> is_in6 (getsockname fd) = v6 ->
  end_of (getsockname fd) = (r_laddr (p_row p), r_lport (p_row p)) -> end_of (getpeername fd) = (r_raddr (p_row p), r_rport (p_row p)) ->
  xnu_socket_text fd = bytes "socket:[" ++ decimal (r_inode (p_row p)) ++ bytes "]".
Proof.
  intros Hb Ep Ht H6 Hl Hr. apply record_pcb_ok in Ep as ((_ & Hf & _) & Hm & Hpid & Hp); [|done].
  unfold xnu_socket_text. rewrite Hl, Hr, Ht, H6. unfold row_made in Hm. rewrite Hpid, Hf, Hp in Hm.
  replace (if negb tcp then 1 else 0) with (if tcp then 0 else 1) by by destruct tcp. rewrite <- Hm.
  apply cut_fits. rewrite !length_app. pose proof (dec_length 20 (r_inode (p_row p))). unfold decimal.
  change (length (bytes "socket:[")) with 8%nat. change (length (bytes "]")) with 1%nat. lia.
Qed.

(** ** Concrete dumps *)

Definition toy_header_bytes : list Z := le 4 24 ++ le 4 2 ++ replicate 16 0.
(** A pcb with ports, family, addresses, queues and owner, and zeros. *)
Definition toy_pcb (lport rport vflag : Z) (faddr laddr : list Z) (snd rcv uid : Z) : list Z :=
  replicate 16 0 ++ [rport / 256; rport mod 256; lport / 256; lport mod 256] ++ replicate 72 0 ++ [vflag; 64; 6; 0] ++
  faddr ++ laddr ++ replicate 72 0 ++ le 4 rcv ++ replicate 20 0 ++ le 4 snd ++ replicate 20 0 ++ le 4 uid ++ replicate 8 0.
Definition toy_tcp (len : nat) (pcb : list Z) (state : Z) : list Z :=
  le 4 (Z.of_nat len) ++ pcb ++ replicate 28 0 ++ le 4 state ++ replicate (len - 296) 0.
Definition v4 (a : list Z) : list Z := replicate 12 0 ++ a.
Definition toy_dump_records : list (list Z) :=
  [toy_tcp 524 (toy_pcb 8080 0 1 (v4 [0; 0; 0; 0]) (v4 [127; 0; 0; 1]) 0 0 501) 1;
   toy_tcp 300 (toy_pcb 443 51000 2 (replicate 15 0 ++ [1]) (replicate 15 0 ++ [1]) 5 0 501) 4;
   toy_tcp 296 (toy_pcb 51001 22 1 (v4 [10; 0; 0; 7]) (v4 [10; 0; 0; 2]) 0 17 0) 4].

Lemma toy_records_ok : Forall (record_ok true) toy_dump_records.
Proof.
  repeat (apply Forall_cons; split; [split; [by vm_compute|split; [by apply Nat.leb_le; vm_compute|]]|]); [| | |by apply Forall_nil].
  all: apply (Forall_impl (fun b => (0 <=? b) && (b <? 256) = true)); [|intros b Hb; unfold isbyte; lia].
  all: apply List.Forall_forall, List.forallb_forall; by vm_compute.
Qed.

Lemma xnu_table_reads_back_witness :
  exists text, net_table 4 0 4 (Some (toy_header_bytes ++ concat toy_dump_records ++ toy_header_bytes)) = Some text /\
    map (fun e => (e_sl e, e_local e, e_remote e, e_state e)) (read_net_file text) =
      [(0, ([127; 0; 0; 1], 8080), ([0; 0; 0; 0], 0), 10); (1, ([10; 0; 0; 2], 51001), ([10; 0; 0; 7], 22), 1)].
Proof.
  destruct (xnu_table_reads_back 0 4 toy_header_bytes toy_dump_records toy_header_bytes) as (text & E & Hread).
  - by apply Nat.leb_le; vm_compute.
  - by vm_compute.
  - exact toy_records_ok.
  - right. by vm_compute.
  - by vm_compute.
  - exists text. split; [exact E|]. rewrite Hread. vm_compute. reflexivity.
Defined.

(** An interface message that ends where its struct does has its name read
    behind it. *)
Example if_message_cut_short :
  let msg := le 2 160 ++ [5; 0x12] ++ le 4 0x10 ++ replicate 152 0 in
  read_ifs 10 msg 0 32 = None /\ read_ifs 10 (msg ++ replicate 8 0) 0 32 <> None.
Proof. by vm_compute. Qed.
