(* ===== verification/UncShare.v ===== *)
(** * shim/uncshare.c and getcwd.c, the shares of a server as a directory

    On Windows "//server" is no directory; a tree of placeholders stands for
    it, one empty directory for each share the server lists, and a path that
    leaves or enters the tree is resolved here. The network, the converters
    and the file system are parameters. The theorems: a relative path is
    resolved against the working directory name by name, with the server as
    the top; a listing handed out is at most five seconds old; a working
    directory below the tree is reported as the server it stands for. *)
From S2P Require Import Prelude PfsText NtPath.

(** What Windows and cosmo answer; an answer that may change takes the time.
    [tmpdirs] are TMPDIR, TEMP, TMP and __get_tmpdir's, as far as they are set;
    [mkdir_ok] counts a directory that exists as made. *)
Class UncEnv := {
  UNC_PATH_MAX : nat;
  recode16to8 : list Z -> cstr;
  recode8to16 : cstr -> list Z;
  current_directory : list Z;
  tmpdirs : list (option cstr);
  own_pid : Z;
  mkdir_ok : cstr -> Z -> bool;
  mknt_root : cstr -> option (list Z);
  has_netapi : bool;
  ipc_opens : list Z -> Z -> bool;
  net_share_enum : list Z -> Z -> option (list (list Z * Z)) }.

(** The directory of placeholders, once there is one; its name as getcwd
    spells it, empty when not known; the listings kept and the next slot. *)
Record kept_listing := Listing { ls_name : cstr; ls_when : Z; ls_ok : bool }.
Record shares := Shares { us_root : cstr; us_root_unix : cstr; us_cache : list kept_listing; us_next : nat }.
Definition no_listing : kept_listing := Listing [] 0 false.
Definition no_shares : shares := Shares [] [] (replicate 8 no_listing) 0.

(** ** Removing a tree *)

(** A directory's entries, or a file. *)
Inductive dir_tree := Leaf | Dir (entries : list (cstr * dir_tree)).

(** rm_rf on what [path], of [len] bytes, names; [None] is removed. A name
    that does not fit behind it in 600 bytes is passed over. *)
Fixpoint rm_rf (len : nat) (t : dir_tree) : option dir_tree :=
  match t with
  | Leaf => Some Leaf
  | Dir entries =>
      let left := omap (fun '(name, sub) =>
        let n := (len + 1 + length name)%nat in
        if (600 <=? n)%nat then Some (name, sub)
        else match sub with Leaf => None | Dir _ => option_map (pair name) (rm_rf n sub) end) entries in
      if bool_decide (length left = 0%nat) then None else Some (Dir left)
  end.

(** sweep_stale: whether the entry [name] of [tmp] is removed. *)
Definition STALE_SECS : Z := 3600.
Definition sweeps (own tmp name : cstr) (is_dir : bool) (mtime now : Z) : bool :=
  let path := tmp ++ bytes "/" ++ name in
  bool_decide (take 13 name = bytes "rust-ape-unc-") && (length path <? 600)%nat && negb (bool_decide (path = own))
  && is_dir && (STALE_SECS <? now - mtime).

Section unc.
Context `{UncEnv}.

(** ** Spellings *)

Definition to_slash (c : Z) : Z := if c =? 92 then 47 else c.

(** "C:\" as "\C\". *)
Definition drive_as_dir (p : cstr) : cstr :=
  if IsAlpha p.[0] && (p.[1] =? 58) && (p.[2] =? 92) then match p with a :: _ :: p => 92 :: a :: p | p => p end else p.

Definition nt_to_unix (p16 : list Z) (outsz : nat) : cstr :=
  let p := recode16to8 p16 in
  if (UNC_PATH_MAX - 1 <=? length p)%nat then []
  else
    let p := if bool_decide (take 8 p = bytes "\\?\UNC\") then [92; 92] ++ drop 8 p
             else if bool_decide (take 4 p = bytes "\\?\") && IsAlpha p.[4] && (p.[5] =? 58) then drop 4 p else p in
    cut outsz (map to_slash (drive_as_dir p)).

(** [strncasecmp] of the first bytes. *)
Definition same_letters (a b : cstr) : bool := bool_decide (map Lower a = map Lower b).

(** What lies below the tree: "server[/share/...]". *)
Definition under_root (s : shares) (path : cstr) : option cstr :=
  let n := length (us_root_unix s) in
  if bool_decide (us_root_unix s = []) || negb (same_letters (take n path) (us_root_unix s)) || negb (path.[n] =? 47) || (path.[S n] =? 0)
  then None else Some (drop (S n) path).

Definition unc_cwd (s : shares) (buf : cstr) (size : nat) : option cstr :=
  match under_root s buf with
  | None => None
  | Some rest => if (size <? length rest + 3)%nat then None else Some ([47; 47] ++ rest)
  end.

(** ** The listing of a server *)

Definition first_dir (l : list (option cstr)) : option cstr :=
  find (fun d => negb (bool_decide (d = []))) (omap id l).

Fixpoint trim_slashes (fuel : nat) (s : cstr) : cstr :=
  match fuel with
  | O => s
  | S fuel => if (1 <? length s)%nat && (s.[(length s - 1)%nat] =? 47) then trim_slashes fuel (take (length s - 1) s) else s
  end.

(** ensure_root: the first of four directories, without slashes at its end. *)
Definition ensure_root (now : Z) (s : shares) : option shares :=
  if negb (bool_decide (us_root s = [])) then Some s
  else
    match first_dir tmpdirs with
    | None => None
    | Some tmp =>
        if (512 <=? length tmp)%nat then None
        else
          let root := trim_slashes (length tmp) tmp ++ bytes "/rust-ape-unc-" ++ signed own_pid in
          if (512 <=? length root)%nat then None
          else if negb (mkdir_ok root now) then None
          else Some (Shares root (match mknt_root root with Some r16 => nt_to_unix r16 512 | None => us_root_unix s end) (us_cache s) (us_next s))
    end.

(** Disk shares that are not special. *)
Definition disk_share (type : Z) : bool := negb (has type 0x80000000) && negb (has type 3).

(** populate: the directories made, or no answer. *)
Definition populate (server dir : cstr) (now : Z) : option (list cstr) :=
  if negb has_netapi || (260 <? length server + 3)%nat then None
  else
    let name16 := recode8to16 ([92; 92] ++ server) in
    if (259 <=? length name16)%nat then None
    else if negb (ipc_opens (name16 ++ bytes "\IPC$") now) then None
    else
      match net_share_enum name16 now with
      | None => None
      | Some l =>
          if negb (mkdir_ok dir now) then None
          else Some (dir :: omap (fun '(netname, type) =>
                 let share := recode16to8 netname in
                 let sub := dir ++ bytes "/" ++ share in
                 if disk_share type && (length share <? 259)%nat && (length sub <? 600)%nat then Some sub else None) l)
      end.

Definition names_it (server : cstr) (l : kept_listing) : bool :=
  negb (ls_when l =? 0) && (length (ls_name l) =? length server)%nat && same_letters (ls_name l) server.

(** The last slot of the server. *)
Fixpoint slot_from (i : nat) (server : cstr) (cache : list kept_listing) (found : option nat) : option nat :=
  match cache with
  | [] => found
  | l :: cache => slot_from (S i) server cache (if names_it server l then Some i else found)
  end.
Definition find_listing (server : cstr) (cache : list kept_listing) : option nat := slot_from 0 server cache None.

(** __ape_shim_unc_server_dir: the directory, and what was made on disk. *)
Definition unc_server_dir (windows : bool) (server : cstr) (outsz : nat) (now : Z) (s : shares) : option cstr * list cstr * shares :=
  if negb windows || existsb (fun c => (c =? 47) || (c =? 92) || (c =? 58)) server then (None, [], s)
  else
    match ensure_root now s with
    | None => (None, [], s)
    | Some s =>
        let dir := us_root s ++ bytes "/" ++ server in
        if (600 <=? length dir)%nat then (None, [], s)
        else
          let slot := find_listing server (us_cache s) in
          let kept := match slot with Some i => nth i (us_cache s) no_listing | None => no_listing end in
          let '(ok, made, s) :=
            if match slot with Some _ => now - ls_when kept <=? 5 | None => false end then (ls_ok kept, [], s)
            else
              let made := populate server dir now in
              let ok := match made with Some _ => true | None => false end in
              let made := default [] made in
              match slot with
              | Some i => (ok, made, Shares (us_root s) (us_root_unix s) (<[i := Listing (ls_name kept) now ok]> (us_cache s)) (us_next s))
              | None =>
                  if (length server <? 256)%nat
                  then (ok, made, Shares (us_root s) (us_root_unix s) (<[(us_next s mod 8)%nat := Listing server now ok]> (us_cache s)) (S (us_next s)))
                  else (ok, made, s)
              end in
          (if ok && (length dir <? outsz)%nat then Some dir else None, made, s)
    end.

(** ** Relative paths *)

(** has_dotdot: whether a name is "..". *)
Fixpoint dotdot_loop (fuel : nat) (p : cstr) : bool :=
  match fuel, p with
  | O, _ | _, [] => false
  | S fuel, _ =>
      let p := skip_seps p in
      ((p.[0] =? 46) && (p.[1] =? 46) && ((p.[2] =? 0) || IsSlash p.[2])) || dotdot_loop fuel (drop (comp_len p) p)
  end.
Definition has_dotdot (p : cstr) : bool := dotdot_loop (length p) p.

(** The loop over one part. [out] is what is behind "//server", which takes
    [base] bytes; [None] is no room, or no fuel. *)
Fixpoint rel_loop (fuel base outsz : nat) (out rest : list Z) (trailing : bool) : option (list Z * bool) :=
  match rest with
  | [] => Some (out, trailing)
  | _ =>
      match fuel with
      | O => None
      | S fuel =>
          let p := skip_seps rest in
          let name := take (comp_len p) p in
          let q := drop (comp_len p) p in
          let trailing := negb (bool_decide (name = [])) && match q with c :: _ => IsSlash c | [] => false end in
          if bool_decide (name = [46]) then rel_loop fuel base outsz out q trailing
          else if bool_decide (name = [46; 46])
          then rel_loop fuel base outsz (take (back_while (fun c => negb (c =? 47)) out (length out) - 1) out) q trailing
          else if bool_decide (name = []) then rel_loop fuel base outsz out q trailing
          else if (outsz <? base + length out + length name + 2)%nat then None
          else rel_loop fuel base outsz (out ++ 47 :: name) q trailing
      end
  end.

Definition rel_under (rest path : cstr) (outsz : nat) : option cstr :=
  let srv := take (name_len rest) rest in
  let more := drop (name_len rest) rest in
  let base := (length srv + 2)%nat in
  if (outsz <? length srv + 3)%nat then None
  else
    match rel_loop (S (length more)) base outsz [] more false with
    | None => None
    | Some (out, trailing) =>
        match rel_loop (S (length path)) base outsz out path trailing with
        | None => None
        | Some (out, trailing) =>
            let out := if trailing && negb (bool_decide (out = [])) && (base + length out + 1 <? outsz)%nat then out ++ [47] else out in
            Some ([47; 47] ++ srv ++ out)
        end
    end.

(** __ape_shim_unc_rel *)
Definition unc_rel (windows : bool) (path : cstr) (outsz : nat) (roots : list cstr) (s : shares) : option cstr :=
  if negb windows then None
  else if bool_decide (us_root_unix s = []) && bool_decide (roots = []) then None
  else if bool_decide (current_directory = []) || (UNC_PATH_MAX <=? length current_directory)%nat then None
  else
    let cwd := nt_to_unix current_directory UNC_PATH_MAX in
    match under_root s cwd with
    | Some rest => rel_under rest path outsz
    | None =>
        if (cwd.[0] =? 47) && (cwd.[1] =? 47) && has_dotdot path
        then let out := cwd ++ bytes "/" ++ path in if (length out <? outsz)%nat then Some out else None
        else None
    end.

(** ** getcwd.c *)

(** sys_getcwd_nt: the text or the error, and the shares seen by then. *)
Definition sys_getcwd_nt (size : nat) (roots : list cstr) (s : shares) : res cstr * list cstr :=
  let n := length current_directory in
  if (n =? 0)%nat then (Err EACCES, roots)
  else if (UNC_PATH_MAX <=? n)%nat then (Err ERANGE, roots)
  else
    let p := recode16to8 current_directory in
    if (UNC_PATH_MAX <=? length p)%nat then (Err ERANGE, roots)
    else
      let p := if bool_decide (take 4 p = bytes "\\?\") && IsAlpha p.[4] && (p.[5] =? 58) && (p.[6] =? 92) then drop 4 p else p in
      let p := drive_as_dir p in
      if (size <=? length p)%nat then (Err ERANGE, roots)
      else
        let buf := map to_slash p in
        let buf := default buf (unc_cwd s buf size) in
        (Ok buf, unc_note (Some buf) roots).
End unc.

(** ** Names against a stack *)

Definition flat (names : list cstr) : cstr := concat (map (cons 47) names).

Lemma flat_render names : Forall is_name names -> flat names = map to_slash (render names).
Proof.
  induction 1 as [|c names [_ Hc] _ IH]; [done|]. unfold flat, render in *. simpl. rewrite map_app, IH. do 2 f_equal.
  induction Hc as [|x c Hx _ IHc]; [done|]. simpl. rewrite <- IHc. f_equal. unfold to_slash, IsSlash in *.
  by apply orb_false_iff in Hx as [_ ->].
Qed.

Lemma render_no_slash names : Forall is_name names -> Forall (fun x => x <> 47) (render names).
Proof.
  induction 1 as [|c names [_ Hc] _ IH]; [done|]. unfold render in *. simpl. constructor; [done|].
  apply Forall_app. split; [|done]. eapply Forall_impl; [exact Hc|]. intros x Hx ->. done.
Qed.

Lemma back_while_slash p j :
  Forall (fun x => x <> 47) p ->
  back_while (fun c => negb (c =? 47)) (map to_slash p) j = back_while (fun c => negb (c =? 92)) p j.
Proof.
  intros Hp. induction j as [|j IH]; [done|]. cbn [back_while]. rewrite IH.
  assert (E : ((map to_slash p).[j] =? 47) = (p.[j] =? 92)); [|by rewrite E].
  unfold byte_at. rewrite !nth_lookup, list_lookup_fmap. destruct (p !! j) as [x|] eqn:E; [|done]. simpl.
  rewrite Forall_lookup in Hp. specialize (Hp _ _ E). unfold to_slash.
  destruct (Z.eqb_spec x 92); [done|]. by apply Z.eqb_neq.
Qed.

Lemma flat_pop names :
  Forall is_name names ->
  take (back_while (fun c => negb (c =? 47)) (flat names) (length (flat names)) - 1) (flat names) = flat (take (length names - 1) names).
Proof.
  intros Hn. destruct (decide (names = [])) as [->|Hne]; [done|].
  rewrite (flat_render (take _ _)) by (by apply Forall_take). rewrite (flat_render names) by done.
  rewrite back_while_slash by (by apply render_no_slash). rewrite length_map, <- render_pop by done.
  apply firstn_map.
Qed.

Lemma resolve_flag names st b : (resolve st names b).1 = (resolve st names false).1.
Proof.
  revert st b. induction names as [|c names IH]; intros st b; [done|]. simpl.
  repeat case_bool_decide; [apply IH| | |apply IH]; rewrite IH; symmetry; apply IH.
Qed.

Lemma flat_snoc names c : flat (names ++ [c]) = flat names ++ 47 :: c.
Proof. unfold flat. rewrite map_app, concat_app. simpl. by rewrite app_nil_r. Qed.

Lemma take_names_length names : (length (flat (take (length names - 1) names)) <= length (flat names))%nat.
Proof.
  rewrite <- (take_drop (length names - 1) names) at 3. unfold flat. rewrite map_app, concat_app, length_app. lia.
Qed.

Lemma skip_seps_length p : (length (skip_seps p) <= length p)%nat.
Proof. induction p as [|c p IH]; simpl; [lia|]. destruct (IsSlash c); simpl; lia. Qed.

(** A name at the very start of a part is stored with a slash it does not have. *)
Definition owed (rest : cstr) : nat := match rest with c :: _ => if IsSlash c then 0 else 1 | [] => 0 end.

(** What one name takes off the part. *)
Lemma rel_step rest :
  rest <> [] ->
  let p := skip_seps rest in let name := take (comp_len p) p in let q := drop (comp_len p) p in
  owed q = 0%nat /\ (length q < length rest)%nat /\ (length q + length name + 1 <= length rest + owed rest)%nat.
Proof.
  intros Hne p name q.
  assert (Hq : owed q = 0%nat) by (unfold owed, q; destruct (after_comp p) as [->|(c & l & -> & ->)]; done).
  assert (Hp : (length name + length q = length p)%nat) by (unfold name, q; rewrite <- length_app, take_drop; done).
  destruct rest as [|c rest]; [done|]. simpl in *. unfold p in *. destruct (IsSlash c) eqn:Hc.
  - pose proof (skip_seps_length rest). lia.
  - assert (name <> []) by (unfold name; simpl; by rewrite Hc). destruct name; [done|]. simpl in *. lia.
Qed.

Section resolution.
Context `{UncEnv}.

Lemma rel_loop_resolves fuel base outsz names rest trailing :
  (length rest < fuel)%nat -> Forall is_name names ->
  (base + length (flat names) + length rest + owed rest + 1 <= outsz)%nat ->
  rel_loop fuel base outsz (flat names) rest trailing =
  Some (flat (resolve names (components rest) false).1, match rest with [] => trailing | _ => false end).
Proof.
  revert names rest trailing. induction fuel as [|fuel IH]; intros names rest trailing Hf Hn Hroom; [lia|].
  cbn [rel_loop]. destruct rest as [|x rest0] eqn:Hrest; [done|]. rewrite <- Hrest in *.
  destruct (rel_step rest) as (Hq & Hlt & Hlen); [by subst|]. rewrite <- components_skip.
  set (p := skip_seps rest) in *. set (name := take (comp_len p) p) in *. set (q := drop (comp_len p) p) in *.
  rewrite components_step. fold name q.
  assert (Hslash : Forall (fun x => IsSlash x = false) name) by apply take_comp_name.
  clearbody name q.
  destruct (decide (name = [])) as [He|He].
  - rewrite He in *. simpl in *. rewrite IH by (done || lia). by destruct q.
  - rewrite (bool_decide_eq_false_2 (name = [])) by done. simpl.
    destruct (decide (name = [46])) as [Hd|Hd]; [rewrite !bool_decide_eq_true_2 by done; rewrite IH by (done || lia); by destruct q|].
    rewrite !(bool_decide_eq_false_2 (name = [46])) by done.
    destruct (decide (name = [46; 46])) as [Hdd|Hdd].
    + rewrite !(bool_decide_eq_true_2 (name = [46; 46])) by done. rewrite flat_pop by done.
      pose proof (take_names_length names). rewrite IH by (by apply Forall_take || lia). simpl. rewrite (resolve_flag _ _ (bool_decide _)). by destruct q.
    + rewrite !(bool_decide_eq_false_2 (name = [46; 46])) by done.
      destruct (outsz <? _)%nat eqn:Ho; [apply Nat.ltb_lt in Ho; lia|].
      rewrite <- flat_snoc, IH.
      * by destruct q.
      * lia.
      * apply Forall_app. split; [done|]. by repeat constructor.
      * rewrite flat_snoc, length_app. simpl. lia.
Qed.

Lemma components_app a b : components (a ++ 47 :: b) = components a ++ components b.
Proof.
  unfold components. rewrite <- filter_app. f_equal.
  assert (E : forall cur, split_slash (a ++ 47 :: b) cur = split_slash a cur ++ split_slash b []); [|apply E].
  induction a as [|c a IH]; intros cur; simpl; [done|]. destruct (IsSlash c); simpl; by rewrite IH.
Qed.

Lemma components_names p : Forall is_name (components p).
Proof.
  unfold components. assert (Hall : forall cur, Forall (fun x => IsSlash x = false) cur ->
    Forall (Forall (fun x => IsSlash x = false)) (split_slash p cur)).
  { induction p as [|c p IH]; intros cur Hc; simpl; [by constructor|].
    destruct (IsSlash c) eqn:E; [constructor; [done|by apply IH]|]. apply IH, Forall_app. by split; [|constructor]. }
  apply Forall_forall. intros x [Hx Hin]%list_elem_of_filter. split; [done|].
  specialize (Hall [] ltac:(constructor)). rewrite Forall_forall in Hall. by apply Hall.
Qed.

Lemma unc_resolves st names b : Forall is_name st -> Forall is_name names -> Forall is_name (resolve st names b).1.
Proof.
  intros Hst Hn. revert st b Hst. induction Hn as [|c names Hc _ IH]; intros st b Hst; [done|]. simpl.
  repeat case_bool_decide; apply IH; try done; try (by apply Forall_take); (apply Forall_app; by split; [|constructor]).
Qed.

Lemma resolve_app st a b : (resolve st (a ++ b) false).1 = (resolve (resolve st a false).1 b false).1.
Proof.
  revert st. induction a as [|c a IH]; intros st; [done|]. simpl. repeat case_bool_decide; try apply IH.
  all: rewrite !(resolve_flag (a ++ b)), !(resolve_flag a); apply IH.
Qed.

Lemma flat_length st names b :
  (length (flat (resolve st names b).1) <= length (flat st) + length (flat names))%nat.
Proof.
  revert st b. induction names as [|c names IH]; intros st b; cbn [resolve fst]; [lia|].
  pose proof (take_names_length st). assert (E : length (flat (c :: names)) = S (length c + length (flat names))).
  { unfold flat. simpl. by rewrite length_app. }
  rewrite E. repeat case_bool_decide; (etrans; [apply IH|]); try lia. rewrite flat_snoc, length_app. simpl. lia.
Qed.

Lemma components_length p : (length (flat (components p)) <= length p + owed p)%nat.
Proof.
  induction p as [p IH] using (induction_ltof1 _ length). unfold ltof in IH.
  destruct (decide (p = [])) as [->|Hne]; [simpl; lia|].
  destruct (rel_step p Hne) as (Hq & Hlt & Hlen). rewrite <- components_skip, components_step.
  specialize (IH _ Hlt). rewrite Hq in IH. revert IH Hlen. generalize (take (comp_len (skip_seps p)) (skip_seps p)) as name.
  intros name IH Hlen. unfold flat in *. rewrite map_app, concat_app, length_app.
  case_bool_decide; simpl; [lia|]. rewrite app_nil_r. lia.
Qed.

(** The path below a server is resolved with the server as the top. *)
Lemma rel_under_resolves rest path outsz :
  (length rest + length path + 5 <= outsz)%nat ->
  rel_under rest path outsz =
  Some ([47; 47] ++ take (name_len rest) rest ++ flat (resolve [] (components (drop (name_len rest) rest ++ 47 :: path)) false).1).
Proof.
  intros Hroom. unfold rel_under. set (srv := take (name_len rest) rest). set (more := drop (name_len rest) rest).
  assert (Hl : (length srv + length more = length rest)%nat) by (unfold srv, more; rewrite <- length_app, take_drop; done).
  assert (Ho : forall p, (owed p <= 1)%nat) by (intros [|c p]; simpl; [lia|]; destruct (IsSlash c); lia).
  assert (Hm : owed more = 0%nat).
  { unfold more. clear. induction rest as [|c rest IH]; [done|]. simpl. destruct (Z.eqb_spec c 47) as [->|]; [done|apply IH]. }
  destruct (outsz <? _)%nat eqn:E; [apply Nat.ltb_lt in E; lia|].
  rewrite (rel_loop_resolves _ _ _ []) by (simpl; lia || constructor).
  set (st := (resolve [] (components more) false).1).
  assert (Hst : Forall is_name st) by (apply unc_resolves; [constructor|apply components_names]).
  assert (Hf : (length (flat st) <= length more)%nat).
  { unfold st. pose proof (flat_length [] (components more) false). pose proof (components_length more). simpl in *. lia. }
  specialize (Ho path). rewrite rel_loop_resolves by (done || lia).
  assert (Et : (match path with [] => match more with [] => false | _ :: _ => false end | _ :: _ => false end) = false)
    by (by destruct path, more).
  rewrite Et. simpl. by rewrite components_app, resolve_app.
Qed.
End resolution.

(** ** The working directory below the tree *)

Section cwd.
Context `{UncEnv}.

Lemma drive_forms pre a tl :
  pre = [] \/ pre = bytes "\\?\" -> IsAlpha a = true -> recode16to8 current_directory = pre ++ a :: 58 :: 92 :: tl ->
  (0 < length current_directory < UNC_PATH_MAX)%nat -> (length (pre ++ a :: 58 :: 92 :: tl)%Z < UNC_PATH_MAX - 1)%nat ->
  let text := 47 :: map to_slash (a :: 92 :: tl) in
  nt_to_unix current_directory UNC_PATH_MAX = text /\
  forall size roots s, (length text < size)%nat ->
    sys_getcwd_nt size roots s =
    (let buf := default text (unc_cwd s text size) in (Ok buf, unc_note (Some buf) roots)).
Proof.
  intros Hpre Ha Hd Hn Hl text.
  assert (Hdrive : drive_as_dir (a :: 58 :: 92 :: tl) = 92 :: a :: 92 :: tl) by (unfold drive_as_dir, byte_at; simpl; by rewrite Ha).
  assert (Ha92 : (a =? 92) = false) by (apply Z.eqb_neq; intros ->; done).
  split.
  - unfold nt_to_unix. rewrite Hd.
    destruct (UNC_PATH_MAX - 1 <=? _)%nat eqn:E; [apply Nat.leb_le in E; lia|].
    destruct Hpre as [-> | ->].
    + rewrite !bool_decide_eq_false_2 by (intros Hx; injection Hx; intros; subst a; done).
      cbn [andb app]. rewrite Hdrive. change text with (map to_slash (92 :: a :: 92 :: tl)).
      apply cut_fits. rewrite length_map. simpl in *. lia.
    + unfold byte_at. simpl. rewrite Ha, bool_decide_eq_false_2 by done. cbn [andb]. rewrite Hdrive.
      change text with (map to_slash (92 :: a :: 92 :: tl)). apply cut_fits. rewrite length_map. simpl in *. lia.
  - intros size roots s Hs. unfold sys_getcwd_nt. rewrite Hd.
    rewrite (proj2 (Nat.eqb_neq _ 0)), !(proj2 (Nat.leb_gt _ _)) by lia.
    assert (E : (if bool_decide (take 4 (pre ++ a :: 58 :: 92 :: tl) = bytes "\\?\") && IsAlpha (pre ++ a :: 58 :: 92 :: tl).[4]
        && ((pre ++ a :: 58 :: 92 :: tl).[5] =? 58) && ((pre ++ a :: 58 :: 92 :: tl).[6] =? 92)
        then drop 4 (pre ++ a :: 58 :: 92 :: tl) else pre ++ a :: 58 :: 92 :: tl) = a :: 58 :: 92 :: tl).
    { destruct Hpre as [-> | ->].
      - rewrite bool_decide_eq_false_2 by (intros Hx; injection Hx; intros; subst a; done). done.
      - unfold byte_at. simpl. by rewrite Ha. }
    rewrite E, Hdrive. unfold text in Hs. cbn [length] in *. rewrite length_map in Hs. cbn [length] in Hs.
    by rewrite (proj2 (Nat.leb_gt _ _)) by lia.
Qed.

Lemma under_root_length s path rest : under_root s path = Some rest -> (length rest + 2 <= length path)%nat.
Proof.
  unfold under_root. set (n := length (us_root_unix s)). intros E. destruct (_ || _) eqn:Eb in E; [done|].
  injection E as <-. rewrite !orb_false_iff in Eb. destruct Eb as [[[Hr _] H47] _].
  apply bool_decide_eq_false in Hr. apply negb_false_iff, Z.eqb_eq in H47.
  assert (0 < n)%nat by (unfold n; destruct (us_root_unix s); [done|simpl; lia]).
  assert (n < length path)%nat.
  { destruct (decide (n < length path)%nat) as [|Hge]; [done|]. unfold byte_at in H47. rewrite nth_overflow in H47 by lia. done. }
  rewrite length_drop. lia.
Qed.

(** C32: below the tree of placeholders the program is told the server's name
    as its working directory, and a relative path it then uses is resolved,
    name by name, against that very text, ".." never leaving the server. So
    getcwd and path resolution agree on where the program is. *)
Theorem rel_follows_getcwd pre a tl s rest path outsz size roots :
  pre = [] \/ pre = bytes "\\?\" -> IsAlpha a = true -> recode16to8 current_directory = pre ++ a :: 58 :: 92 :: tl ->
  (0 < length current_directory < UNC_PATH_MAX)%nat -> (length (pre ++ a :: 58 :: 92 :: tl)%Z < UNC_PATH_MAX - 1)%nat ->
  under_root s (47 :: map to_slash (a :: 92 :: tl)) = Some rest ->
  (S (length (a :: 92 :: tl)%Z) < size)%nat -> (length rest + length path + 5 <= outsz)%nat ->
  (sys_getcwd_nt size roots s).1 = Ok ([47; 47] ++ rest) /\
  unc_rel true path outsz roots s =
  Some ([47; 47] ++ take (name_len rest) rest ++
        flat (resolve [] (components (drop (name_len rest) rest ++ 47 :: path)) false).1).
Proof.
  intros Hpre Ha Hd Hn Hl Hu Hs Ho. destruct (drive_forms pre a tl Hpre Ha Hd Hn Hl) as [Hcwd Hget].
  pose proof (under_root_length _ _ _ Hu) as Hlen. cbn [length] in Hlen. rewrite length_map in Hlen. cbn [length] in *.
  split.
  - rewrite Hget by (cbn [length]; rewrite length_map; cbn [length]; lia). unfold unc_cwd. rewrite Hu.
    destruct (size <? _)%nat eqn:E; [apply Nat.ltb_lt in E; lia|done].
  - unfold unc_rel. rewrite Hcwd, Hu.
    assert (Hr : us_root_unix s <> []) by (intros E; unfold under_root in Hu; rewrite E in Hu; done).
    rewrite (bool_decide_eq_false_2 _ Hr), (bool_decide_eq_false_2 (current_directory = [])) by (intros E; rewrite E in Hn; simpl in Hn; lia).
    destruct (UNC_PATH_MAX <=? _)%nat eqn:E; [apply Nat.leb_le in E; lia|]. simpl. by apply rel_under_resolves.
Qed.
End cwd.

(** ** The listings kept *)

Section cache.
Context `{UncEnv}.

(** What calls leave behind, the clock never stepping back. *)
Inductive reached : Z -> shares -> Prop :=
  | reached_start now : reached now no_shares
  | reached_call now now' server outsz s :
      reached now s -> now <= now' -> reached now' (unc_server_dir true server outsz now' s).2.

(** An entry says what the network said when it was made. *)
Definition entry_true (now : Z) (root : cstr) (l : kept_listing) : Prop :=
  ls_when l <> 0 -> root <> [] /\ ls_when l <= now /\
  exists server, length (ls_name l) = length server /\ same_letters (ls_name l) server = true /\
    ls_ok l = bool_decide (is_Some (populate server (root ++ bytes "/" ++ server) (ls_when l))).

Lemma is_some_decide {A} (o : option A) : match o with Some _ => true | None => false end = bool_decide (is_Some o).
Proof. destruct o; [by rewrite bool_decide_eq_true_2 by eauto|]. by rewrite bool_decide_eq_false_2 by (intros [? [=]]). Qed.

Lemma ensure_root_keeps now s s' : ensure_root now s = Some s' -> us_cache s' = us_cache s /\ us_root s' <> [] /\ (us_root s <> [] -> us_root s' = us_root s).
Proof.
  unfold ensure_root. intros E. case_bool_decide as Hr; cbn [negb] in E; [|by injection E as <-].
  destruct (first_dir tmpdirs) as [tmp|]; [|done]. set (root := trim_slashes _ _ ++ _) in E.
  destruct (512 <=? _)%nat; [done|]. destruct (512 <=? _)%nat; [done|]. destruct (negb _); [done|].
  injection E as <-. cbn [us_cache us_root]. split_and!; [done| |done].
  intros Er%app_eq_nil. destruct Er as [_ Er]. done.
Qed.

Lemma slot_from_spec i server cache found k :
  slot_from i server cache found = Some k ->
  found = Some k \/ (i <= k)%nat /\ exists l, cache !! (k - i)%nat = Some l /\ names_it server l = true.
Proof.
  revert i found. induction cache as [|l cache IH]; intros i found E; [by left|]. simpl in E.
  destruct (IH _ _ E) as [Hf|[Hle (m & Hm & Hn)]].
  - destruct (names_it server l) eqn:El; [|by left]. injection Hf as <-. right. split; [lia|]. exists l. by rewrite Nat.sub_diag.
  - right. split; [lia|]. exists m. replace (k - i)%nat with (S (k - S i)) by lia. done.
Qed.

Lemma same_letters_refl a : same_letters a a = true.
Proof. unfold same_letters. by apply bool_decide_eq_true. Qed.

(** One call: what it answers and what it leaves. *)
Lemma server_dir_call now now0 server outsz s s1 :
  existsb (fun c => (c =? 47) || (c =? 92) || (c =? 58)) server = false -> ensure_root now s = Some s1 ->
  (length (us_root s1 ++ bytes "/" ++ server) < 600)%nat ->
  now0 <= now -> Forall (entry_true now0 (us_root s1)) (us_cache s1) ->
  Forall (entry_true now (us_root s1)) (us_cache (unc_server_dir true server outsz now s).2) /\
  us_root (unc_server_dir true server outsz now s).2 = us_root s1 /\
  exists t server', now - 5 <= t <= now /\ length server' = length server /\ map Lower server' = map Lower server /\
    (unc_server_dir true server outsz now s).1.1 =
    (let dir := us_root s1 ++ bytes "/" ++ server in
     if bool_decide (is_Some (populate server' (us_root s1 ++ bytes "/" ++ server') t)) && (length dir <? outsz)%nat
     then Some dir else None).
Proof.
  intros Hclean Hroot Hfit Hnow Hall. destruct (ensure_root_keeps _ _ _ Hroot) as (_ & Hne & _).
  assert (Hold : Forall (entry_true now (us_root s1)) (us_cache s1)).
  { eapply Forall_impl; [exact Hall|]. intros l Hl Hw. destruct (Hl Hw) as (? & ? & ?). split_and!; [done|lia|done]. }
  unfold unc_server_dir. rewrite Hclean, Hroot. simpl negb. cbn [orb].
  destruct (600 <=? _)%nat eqn:E6; [apply Nat.leb_le in E6; lia|].
  set (dir := us_root s1 ++ bytes "/" ++ server) in *.
  destruct (find_listing server (us_cache s1)) as [k|] eqn:Ek.
  - apply slot_from_spec in Ek as [?|[_ (l & Hl & Hit)]]; [done|]. rewrite Nat.sub_0_r in Hl.
    rewrite (nth_lookup_Some _ _ _ _ Hl). unfold names_it in Hit. rewrite !andb_true_iff in Hit.
    destruct Hit as [[Hw Hlen%Nat.eqb_eq] Hcase%bool_decide_eq_true]. apply negb_true_iff, Z.eqb_neq in Hw.
    pose proof (proj1 (Forall_lookup _ _) Hold _ _ Hl Hw) as (_ & Ht & server' & Hlen' & Hcase'%bool_decide_eq_true & Hok).
    destruct (Z.leb_spec (now - ls_when l) 5); cbn [fst snd].
    + split_and!; [done|done|]. exists (ls_when l), server'. split_and!; [lia|lia|congruence|congruence|]. by rewrite Hok.
    + rewrite is_some_decide. split_and!; [|done|exists now, server; split_and!; done || lia].
      apply Forall_insert; [done|]. intros _. split_and!; [done|simpl; lia|]. exists server. simpl. split_and!; [done| |done].
      unfold same_letters. by apply bool_decide_eq_true.
  - rewrite is_some_decide. destruct (length server <? 256)%nat; cbn [fst snd].
    + split_and!; [|done|exists now, server; split_and!; done || lia].
      apply Forall_insert; [done|]. intros _. split_and!; [done|simpl; lia|]. exists server. simpl. split_and!; [done|apply same_letters_refl|done].
    + split_and!; [done|done|exists now, server; split_and!; done || lia].
Qed.

Lemma entries_ensured now now' s s' :
  now <= now' -> ensure_root now' s = Some s' -> Forall (entry_true now (us_root s)) (us_cache s) ->
  Forall (entry_true now (us_root s')) (us_cache s').
Proof.
  intros Hnow He Hall. destruct (ensure_root_keeps _ _ _ He) as (-> & _ & Hr).
  eapply Forall_impl; [exact Hall|]. intros l Hl Hw. destruct (Hl Hw) as [Hne Hrest]. rewrite (Hr Hne). by apply Hl.
Qed.

Lemma entry_later now now' root l : now <= now' -> entry_true now root l -> entry_true now' root l.
Proof. intros Hnow Hl Hw. destruct (Hl Hw) as (? & ? & ?). split_and!; [done|lia|done]. Qed.

Lemma reached_true now s : reached now s -> Forall (entry_true now (us_root s)) (us_cache s).
Proof.
  induction 1 as [now|now now' server outsz s _ IH Hnow]; [by repeat constructor|].
  assert (Hlater : forall s', Forall (entry_true now (us_root s')) (us_cache s') -> Forall (entry_true now' (us_root s')) (us_cache s'))
    by (intros s' Hs; eapply Forall_impl; [exact Hs|]; intros l; by apply entry_later).
  destruct (existsb (fun c => (c =? 47) || (c =? 92) || (c =? 58)) server) eqn:Hc;
    [unfold unc_server_dir; rewrite Hc; by apply Hlater|].
  destruct (ensure_root now' s) as [s1|] eqn:He; [|unfold unc_server_dir; rewrite Hc, He; by apply Hlater].
  pose proof (entries_ensured _ _ _ _ Hnow He IH) as H1.
  destruct (decide (length (us_root s1 ++ bytes "/" ++ server) < 600)%nat) as [Hf|Hf].
  - destruct (server_dir_call now' now server outsz s s1 Hc He Hf Hnow H1) as (Hall & Hroot & _). by rewrite Hroot.
  - unfold unc_server_dir. rewrite Hc, He, (proj2 (Nat.leb_le _ _)) by lia. by apply Hlater.
Qed.

(** a server's directory is handed out exactly when the server, under that
    name in any case, answered the last time it was asked, and it was asked at
    most five seconds ago: the listings kept never go stale, and a failure is
    not held against a server for longer either. *)
Theorem listing_is_fresh now0 now server outsz s s1 :
  reached now0 s -> now0 <= now ->
  existsb (fun c => (c =? 47) || (c =? 92) || (c =? 58)) server = false -> ensure_root now s = Some s1 ->
  (length (us_root s1 ++ bytes "/" ++ server) < 600)%nat ->
  exists t server', now - 5 <= t <= now /\ length server' = length server /\ map Lower server' = map Lower server /\
    (unc_server_dir true server outsz now s).1.1 =
    (let dir := us_root s1 ++ bytes "/" ++ server in
     if bool_decide (is_Some (populate server' (us_root s1 ++ bytes "/" ++ server') t)) && (length dir <? outsz)%nat
     then Some dir else None).
Proof.
  intros Hr Hnow Hc He Hf.
  apply (server_dir_call now now0 server outsz s s1 Hc He Hf Hnow (entries_ensured _ _ _ _ Hnow He (reached_true _ _ Hr))).
Qed.
End cache.

(** ** Concrete inputs *)

(** A file server "NAS" with one disk share, one printer and IPC$; the
    program runs below the placeholder of it. *)
Definition toy_unc : UncEnv := {|
  UNC_PATH_MAX := 1024;
  recode16to8 := id;
  recode8to16 := id;
  current_directory := bytes "C:\tmp\rust-ape-unc-7\NAS";
  tmpdirs := [None; Some []; Some (bytes "/C/tmp/")];
  own_pid := 7;
  mkdir_ok := fun _ _ => true;
  mknt_root := fun _ => Some (bytes "C:\tmp\rust-ape-unc-7");
  has_netapi := true;
  ipc_opens := fun _ t => t <? 104;
  net_share_enum := fun _ _ => Some [(bytes "data", 0); (bytes "IPC$", 0x80000003); (bytes "printer", 1)] |}.

Definition toy_shares : shares := (@unc_server_dir toy_unc true (bytes "NAS") 1024 100 no_shares).2.

(** The first call makes the share's directory and no other. *)
Example disk_shares_only :
  (@unc_server_dir toy_unc true (bytes "NAS") 1024 100 no_shares).1 =
  (Some (bytes "/C/tmp/rust-ape-unc-7/NAS"), [bytes "/C/tmp/rust-ape-unc-7/NAS"; bytes "/C/tmp/rust-ape-unc-7/NAS/data"]).
Proof. vm_compute. reflexivity. Qed.

Lemma listing_is_fresh_witness :
  (@unc_server_dir toy_unc true (bytes "nas") 1024 103 toy_shares).1.1 = Some (bytes "/C/tmp/rust-ape-unc-7/nas") /\
  exists t server', 103 - 5 <= t <= 103 /\ length server' = length (bytes "nas") /\ map Lower server' = map Lower (bytes "nas") /\
    (@unc_server_dir toy_unc true (bytes "nas") 1024 103 toy_shares).1.1 =
    (let dir := us_root toy_shares ++ bytes "/" ++ bytes "nas" in
     if bool_decide (is_Some (@populate toy_unc server' (us_root toy_shares ++ bytes "/" ++ server') t)) && (length dir <? 1024)%nat
     then Some dir else None).
Proof.
  split; [vm_compute; reflexivity|].
  apply (@listing_is_fresh toy_unc 100 103 (bytes "nas") 1024 toy_shares toy_shares).
  - apply (@reached_call toy_unc 100 100 (bytes "NAS") 1024 no_shares); [constructor|lia].
  - lia.
  - vm_compute. reflexivity.
  - vm_compute. reflexivity.
  - vm_compute. lia.
Defined.

Lemma rel_follows_getcwd_witness :
  (@sys_getcwd_nt toy_unc 64 [] toy_shares).1 = Ok (bytes "//NAS") /\
  @unc_rel toy_unc true (bytes "../data/./x/..") 64 [] toy_shares = Some (bytes "//NAS/data").
Proof.
  destruct (@rel_follows_getcwd toy_unc [] 67 (bytes "tmp\rust-ape-unc-7\NAS") toy_shares (bytes "NAS") (bytes "../data/./x/..") 64 64 []) as [E1 E2].
  - by left.
  - reflexivity.
  - reflexivity.
  - vm_compute. lia.
  - vm_compute. lia.
  - vm_compute. reflexivity.
  - vm_compute. lia.
  - vm_compute. lia.
  - split; [exact E1|]. rewrite E2. vm_compute. reflexivity.
Defined.

(** A slash at the end, which asks for a directory, does not survive the
    resolution although the code means to keep it. *)
Example end_slash_lost : @unc_rel toy_unc true (bytes "data/") 64 [] toy_shares = Some (bytes "//NAS/data").
Proof. vm_compute. reflexivity. Qed.

(** A tree is removed with what is in it, up to names that do not fit. *)
Example tree_removed : rm_rf 10 (Dir [(bytes "NAS", Dir [(bytes "data", Dir []); (bytes "f", Leaf)])]) = None.
Proof. reflexivity. Qed.

Example long_name_stays : rm_rf 597 (Dir [(bytes "NAS", Leaf); (bytes "x", Leaf)]) = Some (Dir [(bytes "NAS", Leaf)]).
Proof. reflexivity. Qed.
