(* ===== verification/SysInfo.v ===== *)
(** * shim/procfs/ntapi.c and sysinfo.c, the snapshot and the system's files

    One walk of the system's table gives the processes and their threads;
    it answers every question for a fifth of a second. Out of it and of a
    few counters the files at the top of /proc are made. The theorems: the
    questions are answered out of one walk, whatever its size; a name never
    disturbs the stat line of its process, even for a reader that only
    splits on spaces; and cpuinfo counts siblings and cores as the numbers
    of the processors say. *)
From S2P Require Import Prelude PfsText ProcFs Fields PidText SysWalk.

(** ** ntapi.c: the snapshot *)

Definition PFS_SNAP_MS : Z := 200.
Definition MAX_PROCS : nat := 1024.
Definition MAX_THREADS : nat := 8192.

(** set_comm: what keeps a name one word of the stat line. *)
Definition comm_char (c : Z) : Z :=
  if (c <? 32) || (126 <? c) || (c =? 40) || (c =? 41) || (c =? 32) then 95 else c.

Fixpoint up_to_nul (w : list Z) : list Z :=
  match w with c :: w => if c =? 0 then [] else c :: up_to_nul w | [] => [] end.

Definition set_comm (pid : Z) (name : list Z) : cstr :=
  let comm := map comm_char (take 63 (up_to_nul name)) in
  if bool_decide (comm = []) then decimal pid else comm.

(** An entry of NT's process table, with the threads behind it. *)
Record sys_process := SysProcess {
  sp_pid : Z; sp_ppid : Z; sp_name : list Z; sp_threads : list Z;
  sp_user : Z; sp_kernel : Z; sp_create : Z;
  sp_pagefile : Z; sp_private : Z; sp_ws : Z; sp_peak_pagefile : Z; sp_peak_ws : Z; sp_faults : Z; sp_io : io_counters }.

Definition proc_of (e : sys_process) : pfs_proc :=
  Proc (sp_pid e) (sp_ppid e) (Z.of_nat (length (sp_threads e)))
    (if negb (bool_decide (sp_name e = [])) then set_comm (sp_pid e) (sp_name e)
     else set_comm (sp_pid e) (if sp_pid e =? 0 then bytes "[System Process]" else []))
    true (sp_user e) (sp_kernel e) (sp_create e)
    (if negb (sp_pagefile e =? 0) then sp_pagefile e else sp_private e)
    (sp_ws e) (sp_peak_pagefile e) (sp_peak_ws e) (sp_faults e) (sp_io e).

(** The static tables: processes, and threads with their owner. [sn_ms] is 0
    before the first snapshot; [sn_cap] is the size of the query's buffer, [sn_buf] whether there is one. *)
Record snap_tables := Snapshot { sn_procs : list pfs_proc; sn_threads : list (Z * Z); sn_ms : Z; sn_cap : Z; sn_buf : bool }.
Definition no_snapshot : snap_tables := Snapshot [] [] 0 0 false.

Fixpoint add_threads (pid : Z) (tids : list Z) (threads : list (Z * Z)) : list (Z * Z) :=
  match tids with
  | [] => threads
  | tid :: tids => if (length threads <? MAX_THREADS)%nat then add_threads pid tids (threads ++ [(tid, pid)]) else threads
  end.

(** The walk over the answered table. *)
Fixpoint walk_table (table : list sys_process) (procs : list pfs_proc) (threads : list (Z * Z)) : list pfs_proc * list (Z * Z) :=
  match table with
  | [] => (procs, threads)
  | e :: table =>
      walk_table table (if (length procs <? MAX_PROCS)%nat then procs ++ [proc_of e] else procs)
        (add_threads (sp_pid e) (sp_threads e) threads)
  end.

(** What NtQuerySystemInformation answers into so many bytes: the table, or
    a status and the size needed. *)
Inductive queried := Table (t : list sys_process) | Status (st need : Z).

(** snap_query_locked: at most four questions; a buffer that was too small
    is made larger, and stays so. *)
Fixpoint snap_query (fuel : nat) (ask : Z -> queried) (room : Z -> bool) (buf : bool) (cap : Z) (tries : Z)
    : option (list sys_process) * Z * bool :=
  match fuel with
  | O => (None, cap, buf)
  | S fuel =>
      let cap := if buf then cap else if cap =? 0 then 512 * 1024 else cap in
      if negb buf && negb (room cap) then (None, cap, false)
      else
        match ask cap with
        | Table t => (Some t, cap, true)
        | Status st need =>
            if negb (st =? 0xC0000004) && negb (st =? 0xC0000023) then (None, cap, false)
            else if tries =? 3 then (None, cap, false)
            else snap_query fuel ask room false ((Z.max need cap + 256 * 1024) mod 2 ^ 32) (tries + 1)
        end
  end.

(** Toolhelp's walk, for a query that is refused: names but no counters;
    [None] for the threads when the calls are not there. *)
Record tool_process := ToolProcess { tl_pid : Z; tl_ppid : Z; tl_threads : Z; tl_exe : list Z }.
Definition tool_proc (e : tool_process) : pfs_proc :=
  Proc (tl_pid e) (tl_ppid e) (tl_threads e) (set_comm (tl_pid e) (take 260 (tl_exe e))) false 0 0 0 0 0 0 0 0 no_io.

(** What the system answers during a refresh that starts at [an_now] and
    reads the clock again at [an_done]. *)
Record answers := Answers {
  an_now : Z; an_done : Z; an_ask : Z -> queried; an_room : Z -> bool;
  an_tool : option (list tool_process * option (list (Z * Z))) }.

(** snap_refresh_locked *)
Definition snap_refresh (a : answers) (s : snap_tables) : snap_tables :=
  if negb (sn_ms s =? 0) && (an_now a - sn_ms s <? PFS_SNAP_MS) then s
  else
    match snap_query 4 (an_ask a) (an_room a) (sn_buf s) (sn_cap s) 0 with
    | (Some table, cap, buf) =>
        let '(procs, threads) := walk_table table [] [] in Snapshot procs threads (an_done a) cap buf
    | (None, cap, buf) =>
        match an_tool a with
        | None => Snapshot (sn_procs s) (sn_threads s) (sn_ms s) cap buf
        | Some (procs, threads) =>
            Snapshot (map tool_proc (take MAX_PROCS procs))
              (match threads with Some l => take MAX_THREADS l | None => [] end) (an_done a) cap buf
        end
    end.

Definition pfs_procs (a : answers) (s : snap_tables) : list pfs_proc * snap_tables :=
  let s := snap_refresh a s in (sn_procs s, s).

Definition pfs_proc_find (pid : Z) (a : answers) (s : snap_tables) : option pfs_proc * snap_tables :=
  let '(procs, s) := pfs_procs a s in (find (fun p => pp_pid p =? pid) procs, s).

Fixpoint tids_of (pid : Z) (threads : list (Z * Z)) (cap : nat) : list Z :=
  match threads, cap with
  | [], _ | _, O => []
  | (tid, owner) :: threads, S cap' => if owner =? pid then tid :: tids_of pid threads cap' else tids_of pid threads cap
  end.

Definition pfs_threads_of (pid : Z) (cap : nat) (a : answers) (s : snap_tables) : list Z * snap_tables :=
  let s := snap_refresh a s in (tids_of pid (sn_threads s) cap, s).

(** ** ntapi.c: time and identity *)

Definition pfs_now_ms (sec nsec : Z) : Z := sec * 1000 + nsec / 1000000.
Definition pfs_filetime_jiffies (hz ft100ns : Z) : Z := (ft100ns * hz) mod 2 ^ 64 / 10000000.
Definition filetime (high low : Z) : Z := Z.lor (Z.shiftl high 32) low.

(** The boot time is found once: the answer and what is kept. *)
Definition pfs_boot_filetime (now ticks boot : Z) : Z * Z :=
  let boot := if boot =? 0 then (now - (ticks * 10000) mod 2 ^ 64) mod 2 ^ 64 else boot in (boot, boot).

(** struct utsname as far as it is used, and what RtlGetVersion says. *)
Record utsname := Utsname { u_sysname : cstr; u_release : cstr; u_version : cstr }.
Definition kernel_release (u : utsname) (version : option (Z * Z * Z)) : cstr :=
  match version with
  | Some (major, minor, build) => cut 80 (decimal major ++ bytes "." ++ decimal minor ++ bytes "." ++ decimal build)
  | None => cut 80 (u_release u ++ bytes ".0")
  end.
Definition kernel_sysname (u : utsname) : cstr := if bool_decide (u_sysname u = []) then bytes "Windows" else u_sysname u.

(** ** sysinfo.c *)

(** struct NtMemoryStatusEx: physical memory and the commit limit, each with
    what is available; zeros when the call fails. *)
Record memory_status := MemoryStatus { ms_phys : Z; ms_avail_phys : Z; ms_pagefile : Z; ms_avail_pagefile : Z }.

Definition swap_total (m : memory_status) : Z := if ms_phys m <? ms_pagefile m then ms_pagefile m - ms_phys m else 0.
Definition swap_free (m : memory_status) : Z :=
  let free := if ms_avail_phys m <? ms_avail_pagefile m then ms_avail_pagefile m - ms_avail_phys m else 0 in
  if swap_total m <? free then swap_total m else free.

Definition mem_line (name : string) (x : Z) : cstr := bytes name ++ padl 8 (decimal (x / 1024)) ++ bytes " kB" ++ lf.
Definition zero_line (name : string) : cstr := bytes name ++ lf.

Definition gen_meminfo (m : memory_status) : cstr :=
  mem_line "MemTotal:       " (ms_phys m) ++ mem_line "MemFree:        " (ms_avail_phys m) ++
  mem_line "MemAvailable:   " (ms_avail_phys m) ++
  zero_line "Buffers:               0 kB" ++ zero_line "Cached:                0 kB" ++
  zero_line "SwapCached:            0 kB" ++ zero_line "Active:                0 kB" ++ zero_line "Inactive:              0 kB" ++
  mem_line "SwapTotal:      " (swap_total m) ++ mem_line "SwapFree:       " (swap_free m) ++
  zero_line "Dirty:                 0 kB" ++ zero_line "Writeback:             0 kB" ++
  zero_line "Mapped:                0 kB" ++ zero_line "Shmem:                 0 kB" ++ zero_line "Slab:                  0 kB" ++
  mem_line "CommitLimit:    " (ms_pagefile m) ++
  mem_line "Committed_AS:   " ((ms_pagefile m - ms_avail_pagefile m) mod 2 ^ 64) ++
  zero_line "VmallocTotal:          0 kB" ++ zero_line "VmallocUsed:           0 kB" ++ zero_line "VmallocChunk:          0 kB".

(** [%llu.%02llu] of a time of 100 ns units. *)
Definition two (x : Z) : cstr := if x <? 10 then 48 :: decimal x else decimal x.
Definition seconds (t : Z) : cstr := decimal (t / 10000000) ++ bytes "." ++ two (t / 100000 mod 100).

(** GetSystemTimes: idle, kernel and user, zeros when it fails. *)
Definition gen_uptime (now boot : Z) (times : option (Z * Z * Z)) : cstr :=
  let idle := match times with Some (i, _, _) => i | None => 0 end in
  seconds ((now - boot) mod 2 ^ 64) ++ bytes " " ++ seconds idle ++ lf.

(** NT's kernel time includes the idle time. *)
Definition cpu_times (hz : Z) (head : cstr) (idle kern user : Z) : cstr :=
  let sys := if idle <? kern then kern - idle else 0 in
  head ++ decimal (pfs_filetime_jiffies hz user) ++ bytes " 0 " ++ decimal (pfs_filetime_jiffies hz sys) ++ bytes " " ++
  decimal (pfs_filetime_jiffies hz idle) ++ bytes " 0 0 0 0 0 0" ++ lf.

Definition ncpus (processors : Z) : Z := if processors =? 0 then 1 else processors.

Definition gen_stat_top (hz boot processors : Z) (times : option (Z * Z * Z)) (per : option (list (Z * Z * Z))) : cstr :=
  let '(idle, kern, user) := default (0, 0, 0) times in
  cpu_times hz (bytes "cpu  ") idle kern user ++
  (match per with
   | Some per => concat (imap (fun c '(i, k, u) => cpu_times hz (bytes "cpu" ++ decimal (Z.of_nat c) ++ bytes " ") i k u)
                           (take (Z.to_nat (Z.min 64 (ncpus processors))) per))
   | None => []
   end) ++
  bytes "intr 0" ++ lf ++ bytes "ctxt 0" ++ lf ++
  bytes "btime " ++ decimal ((boot - 116444736000000000) mod 2 ^ 64 / 10000000) ++ lf ++
  bytes "processes 1" ++ lf ++ bytes "procs_running 1" ++ lf ++ bytes "procs_blocked 0" ++ lf.

(** *** cpuinfo *)

(** What CPUID says of the processor: the registers of leaf 0 and 1, and of
    0x80000002 to 4 when the processor has them. *)
Definition le4 (x : Z) : cstr := map (fun k => Z.shiftr x (8 * k) mod 256) [0; 1; 2; 3].
Record cpuid_regs := CpuidRegs { leaf0 : Z * Z * Z; leaf1 : Z; brand_regs : option (list Z) }.
Definition vendor_of (c : cpuid_regs) : cstr :=
  let '(ebx, ecx, edx) := leaf0 c in up_to_nul (le4 ebx ++ le4 edx ++ le4 ecx).
Definition family_of (c : cpuid_regs) : Z := Z.land (Z.shiftr (leaf1 c) 8) 15 + Z.land (Z.shiftr (leaf1 c) 20) 255.
Definition model_of (c : cpuid_regs) : Z := Z.lor (Z.land (Z.shiftr (leaf1 c) 4) 15) (Z.land (Z.shiftr (leaf1 c) 12) 0xf0).
Fixpoint skip_blanks (s : cstr) : cstr := match s with c :: s' => if c =? 32 then skip_blanks s' else s | [] => [] end.
Definition brand_of (c : cpuid_regs) : cstr :=
  skip_blanks (match brand_regs c with Some regs => up_to_nul (concat (map le4 regs)) | None => bytes "unknown" end).

(** The loop over the processors of a package: siblings, cores, and the
    cores seen. *)
Fixpoint count_package (phys : Z) (cpus : list (Z * Z)) (sib cores seen : Z) : Z * Z :=
  match cpus with
  | [] => (sib, cores)
  | (core, pkg) :: cpus =>
      if negb (pkg =? phys) then count_package phys cpus sib cores seen
      else
        count_package phys cpus (sib + 1) (if negb (Z.testbit seen core) then cores + 1 else cores)
          (Z.lor seen (Z.shiftl 1 core))
  end.

(** Physical id, siblings, core id and cores of processor [c]; [topo] is
    empty when nothing is known. *)
Definition cpu_place (n : Z) (topo : list (Z * Z)) (c : nat) : Z * Z * Z * Z :=
  let '(cid, phys) := default (Z.of_nat c, 0) (topo !! c) in
  let '(sib, cores) := if bool_decide (topo = []) then (n, n) else count_package phys topo 0 0 0 in
  (phys, sib, cid, cores).

Definition colon (name : string) (tabs : nat) (v : cstr) : cstr := bytes name ++ replicate tabs 9 ++ bytes ": " ++ v ++ lf.

Definition cpu_text (id : cpuid_regs) (n : Z) (mhz : list (Z * Z)) (topo : list (Z * Z)) (c : nat) : cstr :=
  let '(phys, sib, cid, cores) := cpu_place n topo c in
  colon "processor" 1 (decimal (Z.of_nat c)) ++ colon "vendor_id" 1 (vendor_of id) ++
  colon "cpu family" 1 (decimal (family_of id)) ++ colon "model" 2 (decimal (model_of id)) ++
  colon "model name" 1 (brand_of id) ++ colon "stepping" 1 (decimal (Z.land (leaf1 id) 15)) ++
  colon "cpu MHz" 2 (decimal (default (0, 0) (mhz !! c)).1 ++ bytes ".000") ++ colon "cache size" 1 (bytes "0 KB") ++
  colon "physical id" 1 (decimal phys) ++ colon "siblings" 1 (decimal sib) ++
  colon "core id" 2 (decimal cid) ++ colon "cpu cores" 1 (decimal cores) ++
  colon "fpu" 2 (bytes "yes") ++ colon "fpu_exception" 1 (bytes "yes") ++
  colon "flags" 2 (bytes "fpu cx8 sep cmov mmx fxsr sse sse2 ht syscall nx lm sse3 cx16 sse4_1 sse4_2 popcnt") ++
  colon "bogomips" 1 (bytes "0.00") ++ colon "address sizes" 1 (bytes "48 bits physical, 48 bits virtual") ++ lf.

(** The topology as pfs_cpu_topology hands it out. *)
Definition places (topo : Z * list Z * list Z) : list (Z * Z) :=
  let '(n, core, pkg) := topo in take (Z.to_nat n) (zip core pkg).

Definition gen_cpuinfo (id : cpuid_regs) (processors : Z) (mhz : list (Z * Z)) (topo : Z * list Z * list Z) : cstr :=
  concat (map (cpu_text id (ncpus processors) mhz (places topo)) (seq 0 (Z.to_nat (ncpus processors)))).

(** *** Disks, mounts and the boot options *)

(** IOCTL_DISK_PERFORMANCE of a drive that opens; [None] inside is a query
    that fails or answers too little. *)
Record disk_performance := DiskPerf { dp_read : Z; dp_written : Z; dp_rtime : Z; dp_wtime : Z; dp_nread : Z; dp_nwrite : Z; dp_queue : Z }.

Definition disk_line (d : nat) (p : disk_performance) : cstr :=
  let rd := (Z.quot (dp_rtime p) 10000) mod 2 ^ 64 in
  let wr := (Z.quot (dp_wtime p) 10000) mod 2 ^ 64 in
  bytes "   8 " ++ padl 7 (decimal (Z.of_nat d * 16)) ++ bytes " sd" ++ [97 + Z.of_nat d] ++ bytes " " ++ decimal (dp_nread p) ++
  bytes " 0 " ++ decimal (Z.quot (dp_read p) 512 mod 2 ^ 64) ++ bytes " " ++ decimal rd ++ bytes " " ++ decimal (dp_nwrite p) ++
  bytes " 0 " ++ decimal (Z.quot (dp_written p) 512 mod 2 ^ 64) ++ bytes " " ++ decimal wr ++ bytes " " ++ decimal (dp_queue p) ++
  bytes " " ++ decimal ((rd + wr) mod 2 ^ 64) ++ bytes " " ++ decimal ((rd + wr) mod 2 ^ 64) ++ lf.

(** Drive [d] is asked for by the name ending in one character. *)
Definition drive_path (d : nat) : cstr := bytes "\\.\PhysicalDrive" ++ [48 + Z.of_nat d].

Fixpoint disk_loop (drives : list nat) (misses : nat) (open : cstr -> option (option disk_performance)) : cstr :=
  match drives with
  | [] => []
  | d :: drives =>
      if (misses <? 2)%nat then
        match open (drive_path d) with
        | None => disk_loop drives (S misses) open
        | Some p => match p with Some p => disk_line d p | None => [] end ++ disk_loop drives misses open
        end
      else []
  end.
Definition gen_diskstats (open : cstr -> option (option disk_performance)) : cstr := disk_loop (seq 0 16) 0 open.

Definition gen_mounts (drives : Z) : cstr :=
  bytes "rootfs / rootfs rw 0 0" ++ lf ++ bytes "proc /proc proc rw 0 0" ++ lf ++ bytes "sysfs /sys sysfs rw 0 0" ++ lf ++
  concat (map (fun i => if Z.testbit drives (Z.of_nat i) then [65 + Z.of_nat i] ++ bytes ": /" ++ [65 + Z.of_nat i] ++ bytes " ntfs rw 0 0" ++ lf else [])
            (seq 0 26)).

Fixpoint strip_end (n : nat) (w : list Z) : list Z :=
  match n with
  | O => []
  | S k => if (nth k w 0 =? 0) || (nth k w 0 =? 32) then strip_end k w else take n w
  end.

(** SystemStartOptions, as it is read; [None] when it cannot be. *)
Definition gen_cmdline_top (value : option (list Z)) : cstr :=
  match value with
  | None => []
  | Some w => map (fun c => if c <? 128 then c else 63) (skip_blanks (strip_end (length w) w)) ++ lf
  end.

(** What the system answers for the files at the top. The load averages are
    a text: they are doubles. *)
Record top_answers := TopAnswers {
  ta_memory : memory_status; ta_now : Z; ta_boot : Z; ta_hz : Z; ta_times : option (Z * Z * Z); ta_per : option (list (Z * Z * Z));
  ta_processors : Z; ta_mhz : list (Z * Z); ta_topology : Z * list Z * list Z; ta_cpuid : cpuid_regs; ta_averages : cstr;
  ta_nprocs : Z; ta_self : Z; ta_disks : cstr -> option (option disk_performance); ta_drives : Z; ta_options : option (list Z);
  ta_uts : utsname; ta_version : option (Z * Z * Z) }.

Definition gen_loadavg (averages : cstr) (nproc self : Z) : cstr :=
  averages ++ bytes " 1/" ++ decimal (if 0 <? nproc then nproc else 1) ++ bytes " " ++ signed (s32 self) ++ lf.

(** pfs_gen_top_file on Windows; [None] is a file that is not there. *)
Definition top_file_text (a : top_answers) (name : cstr) : option cstr :=
  let the (n : string) := bool_decide (name = bytes n) in
  if the "meminfo"%string then Some (gen_meminfo (ta_memory a))
  else if the "uptime"%string then Some (gen_uptime (ta_now a) (ta_boot a) (ta_times a))
  else if the "stat"%string then Some (gen_stat_top (ta_hz a) (ta_boot a) (ta_processors a) (ta_times a) (ta_per a))
  else if the "loadavg"%string then Some (gen_loadavg (ta_averages a) (ta_nprocs a) (ta_self a))
  else if the "cpuinfo"%string then Some (gen_cpuinfo (ta_cpuid a) (ta_processors a) (ta_mhz a) (ta_topology a))
  else if the "mounts"%string then Some (gen_mounts (ta_drives a))
  else if the "diskstats"%string then Some (gen_diskstats (ta_disks a))
  else if the "cmdline"%string then Some (gen_cmdline_top (ta_options a))
  else if the "version"%string then
    Some (kernel_sysname (ta_uts a) ++ bytes " version " ++ kernel_release (ta_uts a) (ta_version a) ++ bytes " (" ++ u_version (ta_uts a) ++ bytes ")" ++ lf)
  else if the "filesystems"%string then
    Some (concat (map (fun s => bytes "nodev" ++ tab ++ bytes s ++ lf) ["sysfs"; "proc"; "tmpfs"]%string) ++
          concat (map (fun s => tab ++ bytes s ++ lf) ["ext4"; "ntfs"; "vfat"]%string))
  else if the "swaps"%string then
    Some (bytes "Filename" ++ replicate 4 9 ++ bytes "Type" ++ replicate 2 9 ++ bytes "Size" ++ replicate 2 9 ++ bytes "Used" ++ replicate 2 9 ++ bytes "Priority" ++ lf)
  else None.

(** ** The snapshot *)

Definition all_threads (table : list sys_process) : list (Z * Z) :=
  concat (map (fun e => map (fun tid => (tid, sp_pid e)) (sp_threads e)) table).

Lemma add_threads_spec pid tids threads :
  (length threads <= MAX_THREADS)%nat ->
  add_threads pid tids threads = threads ++ take (MAX_THREADS - length threads) (map (fun tid => (tid, pid)) tids).
Proof.
  revert threads. induction tids as [|tid tids IH]; intros threads Hl; cbn [add_threads map]; [by rewrite take_nil, app_nil_r|].
  destruct (Nat.ltb_spec (length threads) MAX_THREADS).
  - rewrite IH by (rewrite length_app; cbn [length]; lia). rewrite length_app, <- app_assoc. cbn [length].
    replace (MAX_THREADS - length threads)%nat with (S (MAX_THREADS - (length threads + 1))) by lia. done.
  - replace (MAX_THREADS - length threads)%nat with O by lia. by rewrite app_nil_r.
Qed.

Lemma walk_table_spec table procs threads :
  (length procs <= MAX_PROCS)%nat -> (length threads <= MAX_THREADS)%nat ->
  walk_table table procs threads =
  (procs ++ map proc_of (take (MAX_PROCS - length procs) table), threads ++ take (MAX_THREADS - length threads) (all_threads table)).
Proof.
  revert procs threads. induction table as [|e table IH]; intros procs threads Hp Ht; cbn [walk_table all_threads map concat].
  - by rewrite !take_nil, !app_nil_r.
  - rewrite add_threads_spec by done. set (new := map (fun tid => (tid, sp_pid e)) (sp_threads e)).
    assert (Hn : (length (threads ++ take (MAX_THREADS - length threads) new) <= MAX_THREADS)%nat) by (rewrite length_app, length_take; lia).
    assert (Et : (threads ++ take (MAX_THREADS - length threads) new) ++
                 take (MAX_THREADS - length (threads ++ take (MAX_THREADS - length threads) new)) (all_threads table) =
                 threads ++ take (MAX_THREADS - length threads) (new ++ all_threads table)).
    { rewrite <- app_assoc, take_app. f_equal. f_equal. f_equal. rewrite length_app, length_take. lia. }
    destruct (Nat.ltb_spec (length procs) MAX_PROCS).
    + rewrite IH by (exact Hn || (rewrite length_app; cbn [length]; lia)). rewrite Et. f_equal.
      rewrite length_app, <- app_assoc. cbn [length].
      replace (MAX_PROCS - length procs)%nat with (S (MAX_PROCS - (length procs + 1))) by lia. done.
    + rewrite IH by done. rewrite Et. f_equal. replace (MAX_PROCS - length procs)%nat with O by lia. done.
Qed.

(** A system that says how much room its table needs is answered at the
    second question at the latest. *)
Definition asks_for (need : Z) (table : list sys_process) (ask : Z -> queried) : Prop :=
  forall cap, ask cap = if need <=? cap then Table table else Status 0xC0000004 need.

Lemma query_settles ask room need table buf cap :
  asks_for need table ask -> (forall n, room n = true) -> 0 <= need < 2 ^ 32 - 2 ^ 18 ->
  exists cap', snap_query 4 ask room buf cap 0 = (Some table, cap', true).
Proof.
  intros Hask Hroom Hneed. cbn [snap_query]. set (cap0 := if buf then cap else if cap =? 0 then 512 * 1024 else cap).
  rewrite Hroom, andb_false_r, Hask. destruct (Z.leb_spec need cap0); [by eexists|]. cbn [Z.eqb Pos.eqb negb andb].
  rewrite Hroom. cbn [negb andb]. rewrite Z.max_l by lia. rewrite Z.mod_small by lia.
  rewrite (proj2 (Z.eqb_neq _ 0)) by lia. rewrite Hask, (proj2 (Z.leb_le _ _)) by lia. by eexists.
Qed.

Lemma tids_of_spec pid threads cap : tids_of pid threads cap = take cap (map fst (filter (fun t => snd t = pid) threads)).
Proof.
  revert cap. induction threads as [|[tid owner] threads IH]; intros cap; [by destruct cap|].
  destruct cap as [|cap]; [done|]. cbn [tids_of]. destruct (Z.eqb_spec owner pid) as [E|E].
  - rewrite filter_cons_True by done. cbn. by rewrite IH.
  - rewrite filter_cons_False by done. apply IH.
Qed.

(** C33: a question put to the snapshot is answered out of one walk of the
    system's table: the list has the first 1024 processes in the table's
    order, a thread question the threads of that process among the first
    8192 of the same table; the table is got however large it is; and
    for 200 milliseconds every further question, of either kind, is answered
    out of the very same walk, whatever the system would say by then. *)
Theorem snapshot_answers a s need table :
  sn_ms s = 0 \/ PFS_SNAP_MS <= an_now a - sn_ms s ->
  asks_for need table (an_ask a) -> (forall n, an_room a n = true) -> 0 <= need < 2 ^ 32 - 2 ^ 18 -> an_done a <> 0 ->
  let s' := (pfs_procs a s).2 in
  (pfs_procs a s).1 = map proc_of (take MAX_PROCS table) /\
  (forall pid cap, pfs_threads_of pid cap a s =
     (take cap (map fst (filter (fun t => snd t = pid) (take MAX_THREADS (all_threads table)))), s')) /\
  (forall a', an_now a' - an_done a < PFS_SNAP_MS ->
     pfs_procs a' s' = (map proc_of (take MAX_PROCS table), s') /\
     (forall pid, pfs_proc_find pid a' s' = (find (fun p => pp_pid p =? pid) (map proc_of (take MAX_PROCS table)), s')) /\
     forall pid cap, pfs_threads_of pid cap a' s' = pfs_threads_of pid cap a s).
Proof.
  intros Hold Hask Hroom Hneed Hdone s'.
  destruct (query_settles _ _ _ _ (sn_buf s) (sn_cap s) Hask Hroom Hneed) as (cap' & Hq).
  assert (Hs : snap_refresh a s = Snapshot (map proc_of (take MAX_PROCS table)) (take MAX_THREADS (all_threads table)) (an_done a) cap' true).
  { unfold snap_refresh. rewrite Hq, walk_table_spec by (cbn [length]; lia). cbn [app length].
    rewrite !Nat.sub_0_r. replace (negb (sn_ms s =? 0) && (an_now a - sn_ms s <? PFS_SNAP_MS)) with false; [done|].
    symmetry. apply andb_false_iff. destruct Hold as [-> | Hold]; [by left|]. right. by apply Z.ltb_ge. }
  assert (Hlater : forall a', an_now a' - an_done a < PFS_SNAP_MS -> snap_refresh a' (snap_refresh a s) = snap_refresh a s).
  { intros a' Ha. rewrite Hs. unfold snap_refresh. cbn [sn_ms].
    by rewrite (proj2 (Z.eqb_neq _ _) Hdone), (proj2 (Z.ltb_lt _ _) Ha). }
  unfold s', pfs_procs, pfs_proc_find, pfs_threads_of, pfs_procs. cbn [fst snd]. split_and!.
  - by rewrite Hs.
  - intros pid cap. by rewrite tids_of_spec, Hs.
  - intros a' Ha. rewrite (Hlater a' Ha). split_and!; [by rewrite Hs|by rewrite Hs|done].
Qed.

(** ** Names *)

Definition comm_ok (c : Z) : Prop := 33 <= c <= 126 /\ c <> 40 /\ c <> 41.

Lemma comm_char_ok c : comm_ok (comm_char c).
Proof. unfold comm_ok, comm_char. destruct (_ || _) eqn:E; [lia|]. rewrite !orb_false_iff in E. lia. Qed.

(** A name is never empty, fits its 64 bytes and is one printable word
    without parentheses. *)
Lemma set_comm_word pid name : 0 <= pid < 2 ^ 32 ->
  set_comm pid name <> [] /\ (length (set_comm pid name) <= 63)%nat /\ Forall comm_ok (set_comm pid name).
Proof.
  intros Hpid. unfold set_comm. case_bool_decide as E.
  - pose proof (decimal_digit pid ltac:(lia)) as (c & r & Ec & _). split_and!.
    + by rewrite Ec.
    + assert (Hd : forall fuel x, (length (dec fuel x) <= fuel)%nat).
      { induction fuel as [|fuel IH]; intros x; cbn [dec]; [done|]. destruct (x <? 10); [cbn; lia|]. rewrite length_app. cbn [length]. specialize (IH (x / 10)). lia. }
      specialize (Hd 20%nat pid). unfold decimal. lia.
    + apply Forall_forall. intros x Hx.
      assert (Hl : forall d, is_digit d = false -> x <> d) by (intros d Hd ->; pose proof (decimal_lacks d pid ltac:(lia) Hd) as Hl; unfold lacks in Hl; rewrite Forall_forall in Hl; by apply (Hl d)).
      destruct (is_digit x) eqn:Ex; [|by destruct (Hl x Ex)]. unfold is_digit in Ex. unfold comm_ok. lia.
  - split_and!; [done| |].
    + rewrite length_map, length_take. lia.
    + apply Forall_map, Forall_true. intros c. apply comm_char_ok.
Qed.

Section line.
Context {W : Type} `{PidHost W}.

(** Even a reader that only splits the line on spaces finds 52 fields, the
    name with its parentheses the second of them. *)
Theorem stat_splits_on_spaces pid name p f :
  word pid -> 0 <= pp_pid p < 2 ^ 32 -> facts_ok p f -> pp_comm p = set_comm (pp_pid p) name ->
  split_on 32 (List.removelast (gen_stat pid p f)) = decimal pid :: (40 :: pp_comm p ++ [41]) :: stat_fields pid p f.
Proof.
  intros Hpid Hp Hf Hc. destruct (set_comm_word (pp_pid p) name Hp) as (_ & _ & Hw). rewrite <- Hc in Hw. unfold word in Hpid.
  assert (E : gen_stat pid p f = join 32 (decimal pid :: (40 :: pp_comm p ++ [41]) :: stat_fields pid p f) ++ [10]).
  { rewrite gen_stat_fields. set (l := stat_fields pid p f). assert (Hl : l <> []) by done.
    destruct l as [|x l]; [done|]. change (join 32 (decimal pid :: (40 :: pp_comm p ++ [41]) :: x :: l)) with
      (decimal pid ++ 32 :: (40 :: pp_comm p ++ [41]) ++ 32 :: join 32 (x :: l)).
    change (bytes " (") with [32; 40]. rewrite <- !app_assoc. cbn [app]. rewrite <- !app_assoc. done. }
  rewrite E, removelast_last, split_join; [done|done|].
  apply Forall_cons. split; [by apply decimal_lacks; [lia|]|].
  apply Forall_cons. split; [|by apply stat_fields_lack].
  apply Forall_cons. split; [done|]. apply lacks_app; [|by repeat constructor].
  eapply Forall_impl; [exact Hw|]. intros c [Hc' _]. lia.
Qed.
End line.

(** ** cpuinfo *)

Definition siblings (phys : Z) (topo : list (Z * Z)) : list Z := map fst (filter (fun t => snd t = phys) topo).

Lemma seen_step seen core k : 0 <= core -> 0 <= k ->
  Z.testbit (Z.lor seen (Z.shiftl 1 core)) k = Z.testbit seen k || (k =? core).
Proof.
  intros Hc Hk. rewrite Z.lor_spec, Z.shiftl_spec by done. f_equal.
  destruct (Z.eqb_spec k core) as [->|Hne]; [by rewrite Z.sub_diag|].
  destruct (Z.ltb_spec k core); [by rewrite Z.testbit_neg_r by lia|].
  change 1 with (2 ^ 0). apply Z.pow2_bits_false. lia.
Qed.

Lemma count_package_spec phys topo sib cores seen (known : gset Z) :
  Forall (fun t => 0 <= fst t) topo -> (forall k, 0 <= k -> Z.testbit seen k = bool_decide (k ∈ known)) ->
  count_package phys topo sib cores seen =
  (sib + Z.of_nat (length (siblings phys topo)), cores + Z.of_nat (size (list_to_set (siblings phys topo) ∖ known))).
Proof.
  intros Hall. revert sib cores seen known. induction Hall as [|[core pkg] topo Hc _ IH]; intros sib cores seen known Hk.
  - change (list_to_set (siblings phys [])) with (∅ : gset Z). replace (∅ ∖ known) with (∅ : gset Z) by set_solver.
    rewrite size_empty. cbn. f_equal; lia.
  - cbn [fst] in Hc. cbn [count_package]. unfold siblings. destruct (Z.eqb_spec pkg phys) as [Ep|Ep]; cbn [negb].
    2:{ rewrite filter_cons_False by done. by apply IH. }
    rewrite filter_cons_True by done. cbn [map fst length list_to_set]. fold (siblings phys topo).
    rewrite (IH _ _ _ ({[core]} ∪ known)).
    + f_equal; [lia|]. rewrite Hk by done. case_bool_decide as Hin; cbn [negb].
      * do 3 f_equal. set_solver.
      * replace (({[core]} ∪ list_to_set (siblings phys topo)) ∖ known) with
          ({[core]} ∪ (list_to_set (siblings phys topo) ∖ ({[core]} ∪ known)) : gset Z)
          by (apply set_eq; intros x; destruct (decide (x = core)); set_solver).
        rewrite (size_union {[core]} _) by set_solver. rewrite size_singleton. lia.
    + intros k Hpos. rewrite seen_step, Hk by done. destruct (Z.eqb_spec k core) as [->|Hne].
      * rewrite orb_true_r. symmetry. apply bool_decide_eq_true. set_solver.
      * rewrite orb_false_r. apply bool_decide_ext. set_solver.
Qed.

(** Every processor of cpuinfo names its package and core as the system
    numbers them, and tells as many siblings as its package has processors
    and as many cores as they have different core numbers: the bits of one
    word count what a set would. *)
Theorem cpuinfo_counts n topo c core phys :
  Forall (fun t => 0 <= fst t) topo -> topo !! c = Some (core, phys) ->
  cpu_place n topo c =
  (phys, Z.of_nat (length (siblings phys topo)), core, Z.of_nat (size (list_to_set (siblings phys topo) : gset Z))).
Proof.
  intros Hall Hc. unfold cpu_place. rewrite Hc. cbn [default from_option id].
  rewrite bool_decide_eq_false_2 by (by intros ->).
  rewrite (count_package_spec _ _ _ _ _ ∅) by (done || (intros k _; rewrite Z.testbit_0_l, bool_decide_eq_false_2 by set_solver; done)).
  by rewrite difference_empty_L.
Qed.

(** ** The files *)

(** What a listing of /proc shows at the top has a text, and nothing else
    has. *)
Lemma top_files_have_text a name : is_Some (top_file_text a name) <-> name ∈ pfs_top_files.
Proof.
  unfold top_file_text, pfs_top_files. cbn [map]. rewrite !elem_of_cons, elem_of_nil.
  repeat (case_bool_decide; [split; [tauto|by eexists]|]). split; [by intros [? ?]|]. tauto.
Qed.

(** Swap in use is never negative, whatever the system says. *)
Lemma swap_used m : 0 <= ms_phys m -> 0 <= ms_avail_phys m -> 0 <= swap_free m <= swap_total m.
Proof. unfold swap_free, swap_total. intros. repeat case_match; rewrite ?Z.ltb_lt, ?Z.ltb_ge in *; lia. Qed.

Lemma strip_end_spec n w : (n <= length w)%nat ->
  exists k, (k <= n)%nat /\ strip_end n w = take k w /\ (k = 0%nat \/ nth (k - 1) w 0 <> 0 /\ nth (k - 1) w 0 <> 32).
Proof.
  induction n as [|n IH]; intros Hn; cbn [strip_end]; [by exists O; auto|].
  destruct (_ || _) eqn:E.
  - destruct IH as (k & ? & ? & ?); [lia|]. exists k. split_and!; [lia|done|done].
  - rewrite orb_false_iff in E. exists (S n). split_and!; [lia|done|]. right. replace (S n - 1)%nat with n by lia. lia.
Qed.

(** ** Concrete inputs *)

Definition toy_table : list sys_process :=
  [SysProcess 0 0 [] [0; 0] 0 500 0 0 0 8192 0 8192 0 no_io;
   SysProcess 4 0 (bytes "System") [8; 12] 0 900 0 0 40960 8192 0 8192 0 no_io;
   SysProcess 1200 4 (bytes "my (odd) app.exe") [1204; 1208] 30000000 20000000 5 409600 0 8192 409600 8192 7 no_io].

Definition toy_answers (now : Z) : answers :=
  Answers now (now + 1) (fun cap => if 600000 <=? cap then Table toy_table else Status 0xC0000004 600000) (fun _ => true) None.

(** The first buffer is too small for the toy's table. *)
Example asked_twice :
  snap_query 4 (an_ask (toy_answers 0)) (fun _ => true) false 0 0 = (Some toy_table, 862144, true).
Proof. reflexivity. Qed.

Lemma snapshot_answers_witness :
  map pp_comm (pfs_procs (toy_answers 5000) no_snapshot).1 = map bytes ["[System_Process]"; "System"; "my__odd__app.exe"]%string /\
  (pfs_threads_of 1200 8 (toy_answers 5100) (pfs_procs (toy_answers 5000) no_snapshot).2).1 = [1204; 1208].
Proof.
  destruct (snapshot_answers (toy_answers 5000) no_snapshot 600000 toy_table) as (E1 & E2 & E3).
  - by left.
  - intros cap. reflexivity.
  - done.
  - lia.
  - done.
  - split; [rewrite E1; reflexivity|].
    destruct (E3 (toy_answers 5100)) as (_ & _ & E4); [vm_compute; reflexivity|]. rewrite E4, E2. reflexivity.
Defined.

(** Two cores of two threads each in one package. *)
Definition toy_places : list (Z * Z) := [(0, 0); (0, 0); (1, 0); (1, 0)].

Lemma cpuinfo_counts_witness : cpu_place 4 toy_places 2 = (0, 4, 1, 2).
Proof. rewrite (cpuinfo_counts 4 toy_places 2 1 0); [reflexivity|by repeat constructor|reflexivity]. Defined.

(** The eleventh drive is asked for by a name that is none: the number is one
    character. *)
Example tenth_drive_name : drive_path 10 = bytes "\\.\PhysicalDrive:".
Proof. reflexivity. Qed.

Example boot_options_trimmed :
  gen_cmdline_top (Some (bytes " NOEXECUTE=OPTIN  NOVGA " ++ [0])) = bytes "NOEXECUTE=OPTIN  NOVGA" ++ lf.
Proof. reflexivity. Qed.
