(* ===== verification/XnuProc.v ===== *)
(** * The processes and system files of shim/procfs/xnu.c and xnuapi.c

    What /proc says of the processes of macOS and of the machine. A program
    that runs under the ape loader bears the loader's name in the kernel; its
    own name and arguments are taken out of the block of strings the kernel
    keeps of an exec. The kernel's answers are parameters. The theorems: the
    block reads back into the arguments and the environment, and the program
    told as the name of a process is the first of the arguments shown; what
    is kept of a process is what a fresh look at it would give. *)
From S2P Require Import Prelude PfsText ProcFs Fields SockOpt Cmsg PidText SysWalk SysInfo.

(** ** What the kernel answers *)

(** struct xnu_proc_bsdinfo, xnu_proc_taskinfo and the disk counters of
    xnu_rusage_info_v2, as far as they are used. *)
Record bsdinfo := Bsd {
  bi_status : Z; bi_ppid : Z; bi_pgid : Z; bi_uid : Z; bi_gid : Z; bi_comm : cstr; bi_name : cstr; bi_start : Z; bi_start_us : Z }.
Record taskinfo := Task { ti_vsize : Z; ti_rss : Z; ti_user : Z; ti_system : Z; ti_faults : Z; ti_threads : Z }.
Record diskio := Diskio { ri_read : Z; ri_written : Z }.

(** One step of mach_vm_region_recurse: the region's start and size, the
    depth it was found at, and what is known of it. *)
Record xnu_region := XnuRegion {
  xr_base : Z; xr_size : Z; xr_depth : Z; xr_submap : bool; xr_protection : Z; xr_share : Z; xr_offset : Z; xr_file : option cstr }.

Record vm_statistics := VmStat { vm_free : Z; vm_active : Z; vm_inactive : Z; vm_wire : Z; vm_purgeable : Z; vm_external : Z }.
Record cpu_ticks := Ticks { tk_user : Z; tk_system : Z; tk_idle : Z; tk_nice : Z }.

Record kernel := Kernel {
  k_ms : Z; k_ms_done : Z; k_sec : Z; k_ready : bool; k_self : Z; k_pids : list Z;
  k_bsd : Z -> option bsdinfo; k_task : Z -> option taskinfo; k_rusage : Z -> option diskio;
  k_path : Z -> option cstr; k_args : Z -> option (list Z); k_cwd : Z -> option cstr;
  k_argv : list cstr; k_environ : list cstr; k_own_cwd : option cstr; k_exe : option cstr;
  k_boot : Z; k_hz : Z; k_pagesize : Z; k_numer : Z; k_denom : Z;
  k_region : Z -> Z -> option xnu_region;
  k_memsize : Z; k_swap : Z * Z; k_vm : option vm_statistics; k_ticks : list cpu_ticks; k_ncpu : Z; k_brand : cstr;
  k_bootargs : cstr; k_averages : cstr; k_uts : utsname }.

Section kernel.
Context (k : kernel).

(** ** The facts of a process *)

Record xnu_facts := XnuFacts { xf_bsd : option bsdinfo; xf_task : option taskinfo; xf_ru : option diskio }.
Definition xnu_gather (pid : Z) : xnu_facts := XnuFacts (k_bsd k pid) (k_task k pid) (k_rusage k pid).

Definition pfs_xnu_mach_ns (mach : Z) : Z := (mach * k_numer k) mod 2 ^ 64 / k_denom k.
Definition ns_jiffies (ns : Z) : Z := (ns * k_hz k) mod 2 ^ 64 / 1000000000.

Definition xnu_state_of (f : xnu_facts) : Z :=
  match xf_bsd f with
  | None => 83
  | Some b => if bi_status b =? 2 then 82 else if bi_status b =? 4 then 84 else if bi_status b =? 5 then 90 else 83
  end.

Definition start_jiffies (f : xnu_facts) : Z :=
  match xf_bsd f with
  | None => 0
  | Some b =>
      if (k_boot k =? 0) || (bi_start b <? k_boot k) then 0
      else (((bi_start b - k_boot k) * k_hz k) mod 2 ^ 64 + (bi_start_us b * k_hz k) mod 2 ^ 64 / 1000000) mod 2 ^ 64
  end.

Definition of_task (get : taskinfo -> Z) (f : xnu_facts) : Z := match xf_task f with Some t => get t | None => 0 end.
Definition xnu_threads_of (f : xnu_facts) : Z :=
  match xf_task f with Some t => if 0 <? ti_threads t then ti_threads t else 1 | None => 1 end.

Definition xnu_gen_stat (pid : Z) (p : pfs_proc) (f : xnu_facts) : cstr :=
  let minflt := of_task (fun t => if 0 <? ti_faults t then ti_faults t else 0) f in
  let pgid := match xf_bsd f with Some b => bi_pgid b | None => pid end in
  decimal pid ++ bytes " (" ++ pp_comm p ++ bytes ") " ++ [xnu_state_of f] ++ bytes " " ++ decimal (pp_ppid p) ++
  bytes " " ++ decimal pgid ++ bytes " " ++ decimal pid ++ bytes " 0 -1 0 " ++ decimal minflt ++ bytes " 0 0 0 " ++
  decimal (of_task (fun t => ns_jiffies (pfs_xnu_mach_ns (ti_user t))) f) ++ bytes " " ++
  decimal (of_task (fun t => ns_jiffies (pfs_xnu_mach_ns (ti_system t))) f) ++ bytes " 0 0 20 0 " ++ decimal (xnu_threads_of f) ++ bytes " 0 " ++
  decimal (start_jiffies f) ++ bytes " " ++ decimal (of_task ti_vsize f) ++ bytes " " ++ decimal (of_task ti_rss f / k_pagesize k) ++ bytes " " ++
  bytes "18446744073709551615 0 0 0 0 0 0 0 0 0 0 0 0 17 0 0 0 0 0 0 0 0 0 0 0 0 0 0" ++ lf.

Definition xnu_gen_status (pid : Z) (p : pfs_proc) (f : xnu_facts) : cstr :=
  let uid := match xf_bsd f with Some b => bi_uid b | None => 0 end in
  let gid := match xf_bsd f with Some b => bi_gid b | None => 0 end in
  let st := xnu_state_of f in
  row "Name:" (pp_comm p) ++ row "Umask:" (bytes "0022") ++
  row "State:" ([st] ++ bytes (if st =? 82 then " (running)" else if st =? 90 then " (zombie)" else " (sleeping)")) ++
  row "Tgid:" (decimal pid) ++ row "Ngid:" (bytes "0") ++ row "Pid:" (decimal pid) ++ row "PPid:" (decimal (pp_ppid p)) ++
  row "TracerPid:" (bytes "0") ++ row "Uid:" (four uid) ++ row "Gid:" (four gid) ++
  row "FDSize:" (bytes "64") ++ row "Groups:" (decimal gid) ++
  kb "VmPeak:" (of_task ti_vsize f) ++ kb "VmSize:" (of_task ti_vsize f) ++ kb "VmHWM:" (of_task ti_rss f) ++ kb "VmRSS:" (of_task ti_rss f) ++
  row "VmData:" (bytes "       0 kB") ++ row "VmStk:" (bytes "       0 kB") ++ row "VmExe:" (bytes "       0 kB") ++
  row "VmLib:" (bytes "       0 kB") ++ row "VmSwap:" (bytes "       0 kB") ++
  row "Threads:" (decimal (xnu_threads_of f)) ++ row "SigQ:" (bytes "0/0") ++ row "SigPnd:" zeros ++ row "ShdPnd:" zeros ++
  row "SigBlk:" zeros ++ row "SigIgn:" zeros ++ row "SigCgt:" zeros ++ row "CapInh:" zeros ++ row "CapPrm:" zeros ++
  row "CapEff:" zeros ++ row "voluntary_ctxt_switches:" (bytes "0") ++ row "nonvoluntary_ctxt_switches:" (bytes "0").

Definition xnu_gen_statm (f : xnu_facts) : cstr :=
  decimal (of_task ti_vsize f / k_pagesize k) ++ bytes " " ++ decimal (of_task ti_rss f / k_pagesize k) ++ bytes " 0 0 0 0 0" ++ lf.

Definition xnu_gen_io (f : xnu_facts) : cstr :=
  let rd := match xf_ru f with Some r => ri_read r | None => 0 end in
  let wr := match xf_ru f with Some r => ri_written r | None => 0 end in
  bytes "rchar: " ++ decimal rd ++ lf ++ bytes "wchar: " ++ decimal wr ++ lf ++ bytes "syscr: 0" ++ lf ++ bytes "syscw: 0" ++ lf ++
  bytes "read_bytes: " ++ decimal rd ++ lf ++ bytes "write_bytes: " ++ decimal wr ++ lf ++ bytes "cancelled_write_bytes: 0" ++ lf.

(** ** The strings of an exec *)

(** [strrchr]: what is behind the last slash, if there is one. *)
Fixpoint behind_last (s : cstr) : option cstr :=
  match s with
  | [] => None
  | c :: s' => match behind_last s' with Some b => Some b | None => if c =? 47 then Some s' else None end
  end.

Definition pfs_xnu_is_loader (path : cstr) : bool :=
  let b := default path (behind_last path) in
  bool_decide (take 5 b = bytes ".ape-") || bool_decide (b = bytes "ape").

(** KERN_PROCARGS2: the number of arguments, the path executed, padding, and
    strings. [p < end] is a rest that is not empty. *)
Definition block_argc (raw : list Z) : Z := s32 (rd 4 raw 0).
Fixpoint past_text (p : list Z) : list Z := match p with c :: p' => if c =? 0 then p else past_text p' | [] => [] end.
Fixpoint past_nuls (p : list Z) : list Z := match p with c :: p' => if c =? 0 then past_nuls p' else p | [] => [] end.
Definition block_strings (raw : list Z) : list Z := past_nuls (past_text (drop 4 raw)).

(** The loop over the arguments, the first [skip] of them left out. *)
Fixpoint args_loop (fuel : nat) (i argc skip : Z) (p : list Z) : cstr :=
  match fuel, p with
  | O, _ | _, [] => []
  | S fuel, _ =>
      if argc <=? i then []
      else
        let s := up_to_nul p in
        let skip := if negb (skip =? 0) && (i =? skip) && bool_decide (s = [45]) then skip + 1 else skip in
        (if skip <=? i then s ++ [0] else []) ++ args_loop fuel (i + 1) argc skip (drop (S (length s)) p)
  end.

Definition xnu_gen_cmdline (pid : Z) : cstr :=
  if pid =? k_self k then concat (map (fun a => a ++ [0]) (k_argv k))
  else
    match k_args k pid with
    | None => []
    | Some raw =>
        if (length raw <=? 4)%nat then []
        else
          let p := block_strings raw in
          let skip := match k_path k pid with
                      | Some path => if pfs_xnu_is_loader (take 1023 path) && (1 <? block_argc raw) && negb (bool_decide (p = [])) && pfs_xnu_is_loader (up_to_nul p) then 1 else 0
                      | None => 0
                      end in
          args_loop (length p) 0 (block_argc raw) skip p
    end.

(** Past the arguments, and then the strings up to an empty one. *)
Fixpoint past_args (fuel : nat) (i argc : Z) (p : list Z) : list Z :=
  match fuel, p with
  | O, _ | _, [] => p
  | S fuel, _ => if argc <=? i then p else past_args fuel (i + 1) argc (drop (S (length (up_to_nul p))) p)
  end.

Fixpoint env_loop (fuel : nat) (p : list Z) : cstr :=
  match fuel, p with
  | O, _ | _, [] => []
  | S fuel, c :: _ => if c =? 0 then [] else let s := up_to_nul p in s ++ [0] ++ env_loop fuel (drop (S (length s)) p)
  end.

Definition xnu_gen_environ (pid : Z) : cstr :=
  if pid =? k_self k then concat (map (fun e => e ++ [0]) (k_environ k))
  else
    match k_args k pid with
    | None => []
    | Some raw =>
        if (length raw <=? 4)%nat then []
        else
          let p := block_strings raw in
          let p := past_nuls (past_args (length p) 0 (block_argc raw) p) in
          env_loop (length p) p
    end.

(** ** The program behind the loader *)

(** [argv]: at most the first three arguments. *)
Fixpoint first_args (n : nat) (i argc : Z) (p : list Z) : list cstr :=
  match n, p with
  | O, _ | _, [] => []
  | S n, _ => if argc <=? i then [] else up_to_nul p :: first_args n (i + 1) argc (drop (S (length (up_to_nul p))) p)
  end.

Definition candidate (argc : Z) (argv : list cstr) : option cstr :=
  let second := if 1 <? argc then argv !! 1%nat else None in
  match argv with
  | a :: _ => if (0 <? argc) && negb (pfs_xnu_is_loader a) then Some a
              else match second with Some c => if bool_decide (c = [45]) then (if 2 <? argc then argv !! 2%nat else None) else Some c | None => None end
  | [] => None
  end.

(** The work outside the cache: the program's path, or none. *)
Definition ape_resolve (pid : Z) : option cstr :=
  match k_path k pid with
  | None => None
  | Some path =>
      if negb (pfs_xnu_is_loader (take 4095 path)) then None
      else
        match k_args k pid with
        | None => None
        | Some raw =>
            if (length raw <=? 4)%nat then None
            else
              match candidate (block_argc raw) (first_args 3 0 (block_argc raw) (block_strings raw)) with
              | Some ((_ :: _) as c) => Some (cut 512 c)
              | _ => None
              end
        end
  end.

(** struct ape_prog, one slot for the pids that share the rest by 64. *)
Record ape_prog := ApeProg { ap_pid : Z; ap_start : Z; ap_prog : option cstr }.
Definition no_ape : list ape_prog := replicate 64 (ApeProg 0 0 None).
Definition slot_of (pid : Z) : nat := Z.to_nat (pid mod 64).

Definition pfs_xnu_ape_program (pid : Z) (n : nat) (cache : list ape_prog) : option cstr * list ape_prog :=
  if negb (k_ready k) then (None, cache)
  else
    match k_bsd k pid with
    | None => (None, cache)
    | Some b =>
        let c := nth (slot_of pid) cache (ApeProg 0 0 None) in
        if (ap_pid c =? pid) && (ap_start c =? bi_start b) then (take n <$> ap_prog c, cache)
        else let prog := ape_resolve pid in (take n <$> prog, <[slot_of pid := ApeProg pid (bi_start b) prog]> cache)
    end.

(** ** The snapshot *)

Definition XNU_SNAP_MS : Z := 200.
Definition XNU_MAX_PROCS : nat := 2048.

(** The name of a path's last part, if it has one. *)
Definition base_or (path whole : cstr) : cstr := match behind_last path with Some ((_ :: _) as b) => b | _ => whole end.

Definition xnu_entry (pid : Z) (b : bsdinfo) (cache : list ape_prog) : pfs_proc * list ape_prog :=
  let comm := set_comm pid (if negb (bool_decide (bi_name b = [])) then bi_name b else bi_comm b) in
  let '(comm, cache) :=
    if bool_decide (take 5 comm = bytes ".ape-") || bool_decide (comm = bytes "ape") then
      let '(prog, cache) := pfs_xnu_ape_program pid 511 cache in
      (match prog with Some ((_ :: _) as prog) => set_comm pid (base_or prog prog) | _ => comm end, cache)
    else (comm, cache) in
  (Proc pid (bi_ppid b) 1 comm false 0 0 0 0 0 0 0 0 no_io, cache).

Fixpoint xnu_walk (pids : list Z) (procs : list pfs_proc) (cache : list ape_prog) : list pfs_proc * list ape_prog :=
  match pids with
  | [] => (procs, cache)
  | pid :: pids =>
      if (XNU_MAX_PROCS <=? length procs)%nat then (procs, cache)
      else if pid <=? 0 then xnu_walk pids procs cache
      else
        match k_bsd k pid with
        | None => xnu_walk pids procs cache
        | Some b => let '(p, cache) := xnu_entry pid b cache in xnu_walk pids (procs ++ [p]) cache
        end
  end.

(** The entry of this very process is named after the program. *)
Fixpoint name_self (procs : list pfs_proc) : list pfs_proc :=
  match procs with
  | [] => []
  | p :: procs =>
      if negb (pp_pid p =? k_self k) then p :: name_self procs
      else
        match k_exe k with
        | Some exe => match behind_last exe with
                      | Some ((_ :: _) as b) => Proc (pp_pid p) (pp_ppid p) (pp_threads p) (set_comm (pp_pid p) b) (pp_facts p) (pp_utime p)
                                                  (pp_stime p) (pp_create p) (pp_vsize p) (pp_rss p) (pp_peak_vsize p) (pp_peak_rss p) (pp_minflt p) (pp_io p)
                      | _ => p
                      end
        | None => p
        end :: procs
  end.

Record xnu_snap := XnuSnap { xs_procs : list pfs_proc; xs_ms : Z; xs_cache : list ape_prog }.
Definition no_xnu_snap : xnu_snap := XnuSnap [] 0 no_ape.

Definition xnu_snap_refresh (s : xnu_snap) : xnu_snap :=
  if negb (xs_ms s =? 0) && (k_ms k - xs_ms s <? XNU_SNAP_MS) then s
  else if negb (k_ready k) then s
  else
    let '(procs, cache) := xnu_walk (take XNU_MAX_PROCS (k_pids k)) [] (xs_cache s) in
    XnuSnap (name_self procs) (k_ms_done k) cache.

Definition pfs_xnu_proc_find (pid : Z) (s : xnu_snap) : option pfs_proc * xnu_snap :=
  let s := xnu_snap_refresh s in (find (fun p => pp_pid p =? pid) (xs_procs s), s).

(** ** The map of the own address space *)

Definition xnu_perms (r : xnu_region) : cstr :=
  let may bit c := if Z.testbit (xr_protection r) bit then c else 45 in
  [may 0 114; may 1 119; may 2 120;
   if (xr_share r =? 4) || (xr_share r =? 5) || (xr_share r =? 7) then 115 else 112].

Definition xnu_maps_row (r : xnu_region) : cstr :=
  let range := hex8 (xr_base r) ++ bytes "-" ++ hex8 ((xr_base r + xr_size r) mod 2 ^ 64) ++ bytes " " ++ xnu_perms r ++ bytes " " ++ hex8 (xr_offset r) in
  match xr_file r with
  | Some ((_ :: _) as path) => range ++ bytes " 08:01 " ++ decimal (inode_of (take 511 path)) ++ bytes " " ++ take 511 path ++ lf
  | _ => range ++ bytes " 00:00 0 " ++ lf
  end.

(** One round; a submap is entered by asking deeper at the same address. *)
Definition xnu_maps_round (st : Z * Z * cstr) : (Z * Z * cstr) + cstr :=
  let '(addr, depth, out) := st in
  match k_region k addr depth with
  | None => inr out
  | Some r =>
      if xr_submap r then inl (addr, xr_depth r + 1, out)
      else inl ((xr_base r + xr_size r) mod 2 ^ 64, xr_depth r, out ++ xnu_maps_row r)
  end.

(** [guard < 100000] *)
Definition xnu_gen_maps (pid : Z) : cstr :=
  if negb (pid =? k_self k) then []
  else match rounds xnu_maps_round 100000 (0, 0, []) with inl (_, _, out) => out | inr out => out end.

(** ** The files at the top *)

Definition xnu_gen_meminfo : cstr :=
  let pg x := (x * k_pagesize k) mod 2 ^ 64 in
  let of_vm get := match k_vm k with Some vm => get vm | None => 0 end in
  let '(total, avail) := k_swap k in
  mem_line "MemTotal:       " (k_memsize k) ++ mem_line "MemFree:        " (of_vm (fun vm => pg (vm_free vm))) ++
  mem_line "MemAvailable:   " (of_vm (fun vm => pg (vm_free vm + vm_inactive vm + vm_purgeable vm))) ++
  zero_line "Buffers:               0 kB" ++ mem_line "Cached:         " (of_vm (fun vm => pg (vm_external vm))) ++
  zero_line "SwapCached:            0 kB" ++ mem_line "Active:         " (of_vm (fun vm => pg (vm_active vm))) ++
  mem_line "Inactive:       " (of_vm (fun vm => pg (vm_inactive vm))) ++
  mem_line "SwapTotal:      " total ++ mem_line "SwapFree:       " avail ++
  zero_line "Dirty:                 0 kB" ++ zero_line "Writeback:             0 kB" ++
  zero_line "Mapped:                0 kB" ++ zero_line "Shmem:                 0 kB" ++ zero_line "Slab:                  0 kB" ++
  mem_line "CommitLimit:    " ((k_memsize k + total) mod 2 ^ 64) ++
  mem_line "Committed_AS:   " (of_vm (fun vm => pg (vm_active vm + vm_wire vm))) ++
  zero_line "VmallocTotal:          0 kB" ++ zero_line "VmallocUsed:           0 kB" ++ zero_line "VmallocChunk:          0 kB".

Definition NCPU_MAX : nat := 64.
Definition ticks : list cpu_ticks := take NCPU_MAX (k_ticks k).
Definition total_ticks (get : cpu_ticks -> Z) : Z := foldr (fun t acc => get t + acc) 0 ticks.

Definition xnu_gen_uptime : cstr :=
  let up := if negb (k_boot k =? 0) && (k_boot k <? k_sec k) then k_sec k - k_boot k else 0 in
  decimal up ++ bytes ".00 " ++ decimal (total_ticks tk_idle / k_hz k) ++ bytes ".00" ++ lf.

Definition ticks_line (head : cstr) (user nice system idle : Z) : cstr :=
  head ++ decimal user ++ bytes " " ++ decimal nice ++ bytes " " ++ decimal system ++ bytes " " ++ decimal idle ++ bytes " 0 0 0 0 0 0" ++ lf.

Definition at_least_one (n : nat) : Z := if (0 <? n)%nat then Z.of_nat n else 1.

Definition xnu_gen_stat_top (nproc : nat) : cstr :=
  ticks_line (bytes "cpu  ") (total_ticks tk_user) (total_ticks tk_nice) (total_ticks tk_system) (total_ticks tk_idle) ++
  concat (imap (fun c t => ticks_line (bytes "cpu" ++ decimal (Z.of_nat c) ++ bytes " ") (tk_user t) (tk_nice t) (tk_system t) (tk_idle t)) ticks) ++
  bytes "intr 0" ++ lf ++ bytes "ctxt 0" ++ lf ++ bytes "btime " ++ decimal (k_boot k) ++ lf ++
  bytes "processes " ++ decimal (at_least_one nproc) ++ lf ++ bytes "procs_running 1" ++ lf ++ bytes "procs_blocked 0" ++ lf.

Definition xnu_gen_loadavg (nproc : nat) : cstr :=
  k_averages k ++ bytes " 1/" ++ decimal (at_least_one nproc) ++ bytes " " ++ signed (s32 (k_self k)) ++ lf.

Definition xnu_gen_cpuinfo : cstr :=
  concat (map (fun c => colon "processor" 1 (decimal (Z.of_nat c)) ++ colon "model name" 1 (k_brand k) ++ colon "BogoMIPS" 1 (bytes "0.00") ++
                        colon "Features" 1 (bytes "fp asimd") ++ colon "CPU implementer" 1 (bytes "0x61") ++ bytes "CPU architecture: 8" ++ lf ++ lf)
            (seq 0 (Z.to_nat (if k_ncpu k <=? 0 then 1 else k_ncpu k)))).

Definition xnu_gen_mounts : cstr :=
  bytes "rootfs / rootfs rw 0 0" ++ lf ++ bytes "proc /proc proc rw 0 0" ++ lf ++ bytes "sysfs /sys sysfs rw 0 0" ++ lf ++
  bytes "apfs / apfs rw 0 0" ++ lf.

Definition or_text (s : cstr) (t : string) : cstr := if bool_decide (s = []) then bytes t else s.

Definition pfs_xnu_gen_top_file (name : cstr) (s : xnu_snap) : option cstr * xnu_snap :=
  let the (n : string) := bool_decide (name = bytes n) in
  let s' := xnu_snap_refresh s in
  if the "meminfo"%string then (Some xnu_gen_meminfo, s)
  else if the "uptime"%string then (Some xnu_gen_uptime, s)
  else if the "stat"%string then (Some (xnu_gen_stat_top (length (xs_procs s'))), s')
  else if the "loadavg"%string then (Some (xnu_gen_loadavg (length (xs_procs s'))), s')
  else if the "cpuinfo"%string then (Some xnu_gen_cpuinfo, s)
  else if the "mounts"%string then (Some xnu_gen_mounts, s)
  else if the "diskstats"%string then (Some [], s)
  else if the "cmdline"%string then (Some (k_bootargs k ++ lf), s)
  else if the "version"%string then
    (Some (or_text (u_sysname (k_uts k)) "Darwin" ++ bytes " version " ++ or_text (u_release (k_uts k)) "0.0.0" ++ bytes " (" ++ u_version (k_uts k) ++ bytes ")" ++ lf), s)
  else if the "filesystems"%string then
    (Some (concat (map (fun s => bytes "nodev" ++ tab ++ bytes s ++ lf) ["sysfs"; "proc"; "tmpfs"]%string) ++
           concat (map (fun s => tab ++ bytes s ++ lf) ["ext4"; "apfs"; "hfs"]%string)), s)
  else if the "swaps"%string then
    (Some (bytes "Filename" ++ replicate 4 9 ++ bytes "Type" ++ replicate 2 9 ++ bytes "Size" ++ replicate 2 9 ++ bytes "Used" ++ replicate 2 9 ++ bytes "Priority" ++ lf), s)
  else (None, s).

(** ** The files and links of a process *)

Definition xnu_mountinfo : cstr :=
  bytes "1 1 0:1 / / rw - rootfs rootfs rw" ++ lf ++ bytes "2 1 0:5 / /proc rw - proc proc rw" ++ lf ++
  bytes "3 1 0:6 / /sys rw - sysfs sysfs rw" ++ lf.

Definition pfs_xnu_gen_pid_file (pid : Z) (name : cstr) (s : xnu_snap) : option cstr * xnu_snap :=
  let the (n : string) := bool_decide (name = bytes n) in
  let '(p, s) := pfs_xnu_proc_find pid s in
  match p with
  | None => (None, s)
  | Some p =>
      let f := xnu_gather pid in
      (if the "cmdline"%string then Some (xnu_gen_cmdline pid)
       else if the "comm"%string then Some (pp_comm p ++ lf)
       else if the "environ"%string then Some (xnu_gen_environ pid)
       else if the "limits"%string then Some gen_limits
       else if the "maps"%string then Some (xnu_gen_maps pid)
       else if the "cgroup"%string then Some (bytes "0::/" ++ lf)
       else if the "mountinfo"%string then Some xnu_mountinfo
       else if the "mounts"%string then Some xnu_gen_mounts
       else if the "oom_score_adj"%string || the "oom_score"%string then Some (bytes "0" ++ lf)
       else if the "stat"%string then Some (xnu_gen_stat pid p f)
       else if the "status"%string then Some (xnu_gen_status pid p f)
       else if the "statm"%string then Some (xnu_gen_statm f)
       else if the "io"%string then Some (xnu_gen_io f)
       else None, s)
  end.

Definition pfs_xnu_gen_pid_volatile (pid : Z) (s : xnu_snap) : option (list cstr * Z) * xnu_snap :=
  let '(p, s) := pfs_xnu_proc_find pid s in
  match p with
  | None => (None, s)
  | Some p => let f := xnu_gather pid in
              (Some ([xnu_gen_stat pid p f; xnu_gen_status pid p f; xnu_gen_statm f; xnu_gen_io f], start_jiffies f), s)
  end.

(** The program of a loader-run process, made absolute against its working
    directory; [tmp] when that is not known. *)
Definition exe_of (tmp : cstr) (prog cwd : option cstr) : cstr :=
  match prog with
  | Some ((_ :: _) as prog) =>
      let rel := match prog with 46 :: 47 :: r => r | _ => prog end in
      match rel with
      | 47 :: _ => cut 1024 rel
      | _ => match cwd with Some ((_ :: _) as cwd) => cut 1024 (cwd ++ 47 :: rel) | _ => tmp end
      end
  | _ => tmp
  end.

Definition pfs_xnu_pid_link (pid : Z) (name : cstr) (n : nat) (cache : list ape_prog) : option cstr * list ape_prog :=
  if bool_decide (name = bytes "root") then ((if (n <? 1)%nat then None else Some [47]), cache)
  else if bool_decide (name = bytes "cwd") then
    ((if pid =? k_self k then match k_own_cwd k with Some c => if (length c <? n)%nat then Some c else None | None => None end
      else match k_cwd k pid with Some ((_ :: _) as c) => Some (take n c) | _ => None end), cache)
  else if negb (bool_decide (name = bytes "exe")) then (None, cache)
  else if pid =? k_self k then
    (match k_exe k with Some ((47 :: _) as exe) => Some (take n exe) | _ => None end, cache)
  else
    match k_path k pid with
    | Some ((_ :: _) as path) =>
        let tmp := take 1023 path in
        if pfs_xnu_is_loader tmp then
          let '(prog, cache) := pfs_xnu_ape_program pid 511 cache in
          (Some (take n (exe_of tmp prog (take 511 <$> k_cwd k pid))), cache)
        else (Some (take n tmp), cache)
    | _ => (None, cache)
    end.
End kernel.

(** ** The block of an exec *)

(** Strings, each with its NUL. *)
Definition flat0 (l : list cstr) : list Z := concat (map (fun s => s ++ [0]) l).
Definition clean (s : cstr) : Prop := lacks 0 s.

(** The block as the kernel writes it: the count, the path executed, padding,
    the arguments, the environment, and an empty string before the rest. *)
Definition exec_block (path : cstr) (pad : nat) (argv env : list cstr) (junk : list Z) : list Z :=
  le 4 (Z.of_nat (length argv)) ++ path ++ replicate (S pad) 0 ++ flat0 argv ++ flat0 env ++ 0 :: junk.

(** Linux's view of the arguments: without the loader, and without the dash
    of "ape - program"; more dashes go with it. *)
Fixpoint no_dash (l : list cstr) : list cstr :=
  match l with s :: l' => if bool_decide (s = [45]) then no_dash l' else l | [] => [] end.
Definition shown (path : cstr) (argv : list cstr) : list cstr :=
  match argv with
  | a :: ((_ :: _) as tail) => if pfs_xnu_is_loader path && pfs_xnu_is_loader a then no_dash tail else argv
  | _ => argv
  end.

Lemma up_to_nul_app s r : clean s -> up_to_nul (s ++ 0 :: r) = s.
Proof. induction 1 as [|c s Hc _ IH]; cbn [app up_to_nul]; [done|]. by rewrite (proj2 (Z.eqb_neq c 0) Hc), IH. Qed.

Lemma past_text_app s r : clean s -> past_text (s ++ 0 :: r) = 0 :: r.
Proof. induction 1 as [|c s Hc _ IH]; cbn [app past_text]; [done|]. by rewrite (proj2 (Z.eqb_neq c 0) Hc). Qed.

Lemma past_nuls_replicate n r : past_nuls (replicate n 0 ++ r) = past_nuls r.
Proof. induction n as [|n IH]; [done|]. exact IH. Qed.

Lemma past_nuls_clean s r : clean s -> s <> [] -> past_nuls (s ++ r) = s ++ r.
Proof. intros Hs Hne. destruct s as [|c s]; [done|]. inversion Hs; subst. cbn. by rewrite (proj2 (Z.eqb_neq c 0)). Qed.

Lemma flat0_cons s l : flat0 (s :: l) = s ++ 0 :: flat0 l.
Proof. unfold flat0. cbn. by rewrite <- app_assoc. Qed.

Lemma flat0_front s l r : flat0 (s :: l) ++ r = s ++ 0 :: flat0 l ++ r.
Proof. by rewrite flat0_cons, <- app_assoc. Qed.

Lemma flat0_length l : (length l <= length (flat0 l))%nat.
Proof. induction l as [|s l IH]; [done|]. rewrite flat0_cons, length_app. cbn [length]. lia. Qed.

Lemma drop_string s r : drop (S (length s)) (s ++ 0 :: r) = r.
Proof. change (s ++ 0 :: r) with (s ++ [0] ++ r). rewrite app_assoc. apply drop_app_length'. rewrite length_app. cbn. lia. Qed.

(** One string of the block. *)
Lemma args_step fuel i argc skip s r : clean s -> i < argc ->
  args_loop (S fuel) i argc skip (s ++ 0 :: r) =
  (let skip := if negb (skip =? 0) && (i =? skip) && bool_decide (s = [45]) then skip + 1 else skip in
   (if skip <=? i then s ++ [0] else []) ++ args_loop fuel (i + 1) argc skip r).
Proof.
  intros Hs Hi. cbn [args_loop]. destruct (s ++ 0 :: r) eqn:E; [by destruct s|]. rewrite <- E.
  rewrite (proj2 (Z.leb_gt argc i)) by done. by rewrite (up_to_nul_app s r Hs), drop_string.
Qed.

Lemma args_end fuel i argc skip r : argc <= i -> args_loop fuel i argc skip r = [].
Proof. intros Hi. destruct fuel, r; cbn [args_loop]; try done. by rewrite (proj2 (Z.leb_le argc i)). Qed.

(** Past the ones left out, every string is shown. *)
Lemma args_plain argv fuel i skip r :
  Forall clean argv -> skip = 0 \/ skip < i -> 0 <= i -> (length argv <= fuel)%nat ->
  args_loop fuel i (i + Z.of_nat (length argv)) skip (flat0 argv ++ r) = flat0 argv.
Proof.
  intros Hc. revert fuel i. induction Hc as [|s argv Hs _ IH]; intros fuel i Hskip Hi Hf; cbn [length] in *.
  - apply args_end. lia.
  - destruct fuel as [|fuel]; [lia|]. rewrite flat0_front, args_step by (done || lia). cbv zeta.
    replace (negb (skip =? 0) && (i =? skip)) with false by (symmetry; apply andb_false_iff; destruct Hskip; [left|right]; lia). cbn [andb].
    rewrite (proj2 (Z.leb_le skip i)) by lia. replace (i + Z.of_nat (S (length argv))) with (i + 1 + Z.of_nat (length argv)) by lia.
    rewrite IH by lia. cbv iota. by rewrite flat0_cons, <- app_assoc.
Qed.

(** At the first one shown, dashes are left out. *)
Lemma args_dashes l fuel i r : Forall clean l -> 0 < i -> (length l <= fuel)%nat ->
  args_loop fuel i (i + Z.of_nat (length l)) i (flat0 l ++ r) = flat0 (no_dash l).
Proof.
  intros Hc. revert fuel i. induction Hc as [|s l Hs Hl IH]; intros fuel i Hi Hf; cbn [length] in *.
  - apply args_end. lia.
  - destruct fuel as [|fuel]; [lia|]. rewrite flat0_front, args_step by (done || lia). cbv zeta.
    rewrite (proj2 (Z.eqb_neq i 0)), Z.eqb_refl by lia. cbn [negb andb no_dash].
    replace (i + Z.of_nat (S (length l))) with (i + 1 + Z.of_nat (length l)) by lia. case_bool_decide.
    + rewrite (proj2 (Z.leb_gt (i + 1) i)) by lia. apply IH; lia.
    + rewrite (proj2 (Z.leb_le i i)), args_plain by (done || lia || (right; lia)). cbv iota. by rewrite flat0_cons, <- app_assoc.
Qed.

Lemma past_args_spec argv fuel i r : Forall clean argv -> (length argv <= fuel)%nat ->
  past_args fuel i (i + Z.of_nat (length argv)) (flat0 argv ++ r) = r.
Proof.
  intros Hc. revert fuel i. induction Hc as [|s argv Hs _ IH]; intros fuel i Hf; cbn [length] in *.
  - destruct fuel, r; cbn [past_args app flat0 concat map]; try done. by rewrite (proj2 (Z.leb_le _ i)) by lia.
  - destruct fuel as [|fuel]; [lia|]. rewrite flat0_front. cbn [past_args]. destruct (s ++ _) eqn:E; [by destruct s|]. rewrite <- E.
    rewrite (proj2 (Z.leb_gt _ i)) by lia. rewrite (up_to_nul_app s _ Hs), drop_string.
    replace (i + Z.of_nat (S (length argv))) with (i + 1 + Z.of_nat (length argv)) by lia. apply IH. lia.
Qed.

Lemma first_args_spec argv n i r : Forall clean argv ->
  first_args n i (i + Z.of_nat (length argv)) (flat0 argv ++ r) = take n argv.
Proof.
  intros Hc. revert n i. induction Hc as [|s argv Hs _ IH]; intros n i.
  - destruct n, r; cbn [first_args length app flat0 concat map take]; try done. by rewrite (proj2 (Z.leb_le _ i)) by (cbn; lia).
  - destruct n as [|n]; [done|]. rewrite flat0_front. cbn [first_args length]. destruct (s ++ _) eqn:E; [by destruct s|]. rewrite <- E.
    rewrite (proj2 (Z.leb_gt _ i)) by lia. rewrite (up_to_nul_app s _ Hs), drop_string.
    replace (i + Z.of_nat (S (length argv))) with (i + 1 + Z.of_nat (length argv)) by lia. cbn [take]. f_equal. apply IH.
Qed.

Lemma env_loop_spec env fuel junk : Forall (fun s => clean s /\ s <> []) env -> (length env <= fuel)%nat ->
  env_loop fuel (flat0 env ++ 0 :: junk) = flat0 env.
Proof.
  intros Hc. revert fuel. induction Hc as [|s env [Hs Hne] _ IH]; intros fuel Hf; cbn [length] in *; [by destruct fuel|].
  destruct fuel as [|fuel]; [lia|]. rewrite flat0_front. cbn [env_loop].
  destruct s as [|c s]; [done|]. inversion Hs; subst. cbn [app]. rewrite (proj2 (Z.eqb_neq c 0)) by done.
  rewrite (app_comm_cons s), (up_to_nul_app (c :: s) _ Hs), drop_string, IH by lia. by rewrite flat0_cons.
Qed.

Section program.
Context (k : kernel).

(** What a block with a first argument decodes to. *)
Lemma block_decodes path pad a argv env junk :
  clean path -> clean a -> a <> [] -> Z.of_nat (length (a :: argv)) < 2 ^ 31 ->
  let raw := exec_block path pad (a :: argv) env junk in
  (4 < length raw)%nat /\ block_argc raw = Z.of_nat (length (a :: argv)) /\
  block_strings raw = flat0 (a :: argv) ++ flat0 env ++ 0 :: junk.
Proof.
  intros Hp Ha Hne Hn raw. unfold raw, exec_block. split_and!.
  - rewrite length_app, length_app. rewrite length_le. cbn [replicate app length]. rewrite ?length_app. cbn [length]. lia.
  - unfold block_argc. rewrite rd_le_small by lia. apply s32_small. lia.
  - unfold block_strings. rewrite drop_app_length' by (by rewrite length_le).
    cbn [replicate app]. rewrite past_text_app by done.
    change (0 :: replicate pad 0 ++ flat0 (a :: argv) ++ flat0 env ++ 0 :: junk) with
      (replicate (S pad) 0 ++ flat0 (a :: argv) ++ flat0 env ++ 0 :: junk).
    rewrite past_nuls_replicate, flat0_front. by apply past_nuls_clean.
Qed.

Lemma cmdline_shown fuel path argv r : Forall clean argv -> (length argv <= fuel)%nat ->
  let p := flat0 argv ++ r in
  args_loop fuel 0 (Z.of_nat (length argv))
    (if pfs_xnu_is_loader path && (1 <? Z.of_nat (length argv)) && negb (bool_decide (p = [])) && pfs_xnu_is_loader (up_to_nul p) then 1 else 0) p =
  flat0 (shown path argv).
Proof.
  intros Hc Hf p. unfold p. clear p. assert (H0 : forall l, Forall clean l -> (length l <= fuel)%nat ->
    args_loop fuel 0 (Z.of_nat (length l)) 0 (flat0 l ++ r) = flat0 l) by (intros; apply (args_plain _ _ 0); auto; lia).
  destruct argv as [|a [|b rest]]; [by rewrite andb_false_r; apply H0|by rewrite andb_false_r; apply H0|].
  inversion Hc as [|? ? Ha Hc']; subst.
  rewrite (proj2 (Z.ltb_lt 1 _)) by (cbn [length]; lia). rewrite bool_decide_eq_false_2 by (rewrite flat0_front; by destruct a).
  rewrite (flat0_front a (b :: rest) r), (up_to_nul_app a _ Ha), !andb_true_r. unfold shown.
  destruct (pfs_xnu_is_loader path && pfs_xnu_is_loader a); [|rewrite <- flat0_front; by apply H0].
  destruct fuel as [|fuel]; [cbn [length] in Hf; lia|].
  rewrite args_step by (done || (cbn [length]; lia)). cbv zeta. cbn [Z.eqb Z.leb Z.compare negb andb app]. change (0 + 1) with 1.
  replace (Z.of_nat (length (a :: b :: rest))) with (1 + Z.of_nat (length (b :: rest))) by (cbn [length]; lia).
  apply args_dashes; [done|lia|cbn [length] in *; lia].
Qed.

Lemma candidate_shown path argv : pfs_xnu_is_loader path = true ->
  (forall a, argv = [a] -> pfs_xnu_is_loader a = false) -> argv !! 2%nat <> Some [45] ->
  candidate (Z.of_nat (length argv)) (take 3 argv) = head (shown path argv).
Proof.
  intros Hp H1 H2. unfold candidate, shown. rewrite Hp. destruct argv as [|a [|b [|c rest]]]; [done| | |].
  - cbn. by rewrite (H1 a).
  - change (Z.of_nat (length [a; b])) with 2. cbn [take andb]. destruct (pfs_xnu_is_loader a); [|done].
    change ((if bool_decide (b = [45]) then None else Some b) = head (if bool_decide (b = [45]) then [] else [b])). by case_bool_decide.
  - set (n := Z.of_nat _). assert (2 < n) by (unfold n; cbn [length]; lia). clearbody n.
    rewrite (proj2 (Z.ltb_lt 0 n)), (proj2 (Z.ltb_lt 1 n)), (proj2 (Z.ltb_lt 2 n)) by lia. cbn [take andb].
    destruct (pfs_xnu_is_loader a); [|done].
    change ((if bool_decide (b = [45]) then Some c else Some b) =
      head (if bool_decide (b = [45]) then (if bool_decide (c = [45]) then no_dash rest else c :: rest) else b :: c :: rest)).
    case_bool_decide; [|done]. rewrite bool_decide_eq_false_2; [done|]. intros ->. by apply H2.
Qed.

(** C34: the block the kernel keeps of an exec reads back, for a process other
    than oneself whose first argument is not empty, whose environment is not
    empty and holds no empty string, and whose executable's path fits: the
    environment file has its strings and the command line its arguments, but
    for a program that runs under the loader, which with its dashes is left
    out. There, if more than the loader's own name was given and the third
    argument is no dash, the first argument shown is the very program told as
    the process's name and executable. An empty first argument or an empty
    environment is not told from the padding around it, and is not claimed. *)
Theorem procargs_read_back pid path kpath pad a argv env junk :
  k_args k pid = Some (exec_block path pad (a :: argv) env junk) -> k_path k pid = Some kpath -> pid <> k_self k ->
  clean path -> Forall clean (a :: argv) -> a <> [] -> Forall (fun s => clean s /\ s <> []) env -> env <> [] ->
  Z.of_nat (length (a :: argv)) < 2 ^ 31 -> (length kpath <= 1023)%nat ->
  xnu_gen_cmdline k pid = flat0 (shown kpath (a :: argv)) /\ xnu_gen_environ k pid = flat0 env /\
  (pfs_xnu_is_loader kpath = true -> (argv = [] -> pfs_xnu_is_loader a = false) -> (a :: argv) !! 2%nat <> Some [45] ->
   ape_resolve k pid = match shown kpath (a :: argv) with ((_ :: _) as c) :: _ => Some (cut 512 c) | _ => None end).
Proof.
  intros Hargs Hpath Hself Hp Hc Hne Henv Hsome Hn Hlen. pose proof (Forall_inv Hc) as Ha.
  destruct (block_decodes path pad a argv env junk Hp Ha Hne Hn) as (Hl & Hcount & Hstr).
  set (raw := exec_block path pad (a :: argv) env junk) in *. apply Nat.leb_gt in Hl. apply Z.eqb_neq in Hself.
  assert (Hf : (length (a :: argv) <= length (flat0 (a :: argv) ++ flat0 env ++ (0 :: junk)%Z))%nat)
    by (pose proof (flat0_length (a :: argv)); rewrite length_app; lia).
  split_and!.
  - unfold xnu_gen_cmdline. rewrite Hself, Hargs, Hl, Hpath, Hcount, Hstr, (take_ge kpath) by lia. by apply cmdline_shown.
  - unfold xnu_gen_environ. rewrite Hself, Hargs, Hl, Hcount, Hstr.
    pose proof (past_args_spec (a :: argv) _ 0 (flat0 env ++ 0 :: junk) Hc Hf) as E. rewrite Z.add_0_l in E. rewrite E. clear E.
    destruct env as [|e env]; [done|]. destruct (Forall_inv Henv) as [He Hene].
    rewrite (flat0_front e env), past_nuls_clean, <- (flat0_front e env) by done.
    apply env_loop_spec; [done|]. pose proof (flat0_length (e :: env)). rewrite length_app. lia.
  - intros Hload H1 H2. unfold ape_resolve. rewrite Hpath, (take_ge kpath) by lia. rewrite Hload, Hargs, Hl, Hcount, Hstr.
    cbn [negb]. pose proof (first_args_spec (a :: argv) 3 0 (flat0 env ++ 0 :: junk) Hc) as E. rewrite Z.add_0_l in E. rewrite E. rewrite (candidate_shown kpath (a :: argv) Hload); [|intros x [= <- E0]; by apply H1|done].
    by destruct (shown kpath (a :: argv)) as [|[|c s] l].
Qed.

(** Every slot holds what a fresh look at its incarnation gives; [fresh] is
    that answer, which the kernel does not change in a process's life. *)
Definition cache_true (fresh : Z -> Z -> option cstr) (cache : list ape_prog) : Prop :=
  length cache = 64%nat /\ Forall (fun c => ap_pid c = 0 \/ ap_prog c = fresh (ap_pid c) (ap_start c)) cache.

Lemma no_ape_true fresh : cache_true fresh no_ape.
Proof. split; [done|]. apply Forall_replicate. by left. Qed.

Lemma ape_program_fresh fresh pid n cache b :
  (forall b, k_bsd k pid = Some b -> ape_resolve k pid = fresh pid (bi_start b)) -> pid <> 0 -> 0 <= pid ->
  k_ready k = true -> k_bsd k pid = Some b -> cache_true fresh cache ->
  fst (pfs_xnu_ape_program k pid n cache) = take n <$> fresh pid (bi_start b) /\
  cache_true fresh (snd (pfs_xnu_ape_program k pid n cache)).
Proof.
  intros Hfresh Hne Hpos Hready Hb [Hlen Hall]. unfold pfs_xnu_ape_program. rewrite Hready, Hb. cbn [negb].
  assert (Hslot : (slot_of pid < length cache)%nat) by (unfold slot_of; pose proof (Z.mod_pos_bound pid 64); lia).
  destruct (lookup_lt_is_Some_2 cache _ Hslot) as [c Hc]. rewrite (nth_lookup_Some _ _ _ _ Hc).
  destruct (_ && _) eqn:E; cbn [fst snd].
  - apply andb_true_iff in E as [E1%Z.eqb_eq E2%Z.eqb_eq]. split; [|done].
    rewrite Forall_lookup in Hall. destruct (Hall _ _ Hc) as [E0|E0]; [congruence|]. by rewrite E0, E1, E2.
  - rewrite (Hfresh b Hb). split; [done|]. split; [by rewrite length_insert|]. apply Forall_insert; [done|]. by right.
Qed.
End program.

(** ** Concrete inputs *)

Definition toy_block : list Z :=
  exec_block (bytes "/usr/local/bin/ape") 5 (map bytes ["ape"; "-"; "./tool"; "tool"; "-v"]%string) (map bytes ["HOME=/root"; "A=b"]%string)
    (bytes "executable_path=").

Definition toy_bsd : bsdinfo := Bsd 2 1 900 501 20 (bytes "ape") [] 100 0.
Definition toy_kernel (block : list Z) : kernel :=
  Kernel 1000 1001 5000 true 77 [0; 900; 77] (fun pid => Some toy_bsd) (fun _ => None) (fun _ => None)
    (fun _ => Some (bytes "/usr/local/bin/ape")) (fun _ => Some block) (fun _ => Some (bytes "/tmp")) [] [] None (Some (bytes "/Users/me/app"))
    50 100 16384 1 1 (fun _ _ => None) 0 (0, 0) None [] 8 (bytes "Apple M1") [] [] (Utsname [] [] []).

Lemma procargs_read_back_witness :
  xnu_gen_cmdline (toy_kernel toy_block) 900 = flat0 (map bytes ["./tool"; "tool"; "-v"]%string) /\
  xnu_gen_environ (toy_kernel toy_block) 900 = flat0 (map bytes ["HOME=/root"; "A=b"]%string) /\
  ape_resolve (toy_kernel toy_block) 900 = Some (bytes "./tool").
Proof.
  destruct (procargs_read_back (toy_kernel toy_block) 900 (bytes "/usr/local/bin/ape") (bytes "/usr/local/bin/ape") 5 (bytes "ape")
    (map bytes ["-"; "./tool"; "tool"; "-v"]%string) (map bytes ["HOME=/root"; "A=b"]%string) (bytes "executable_path=")) as (E1 & E2 & E3).
  - reflexivity.
  - reflexivity.
  - discriminate.
  - unfold clean, lacks. repeat constructor; vm_compute; discriminate.
  - unfold clean, lacks. repeat constructor; vm_compute; discriminate.
  - discriminate.
  - unfold clean, lacks. repeat constructor; vm_compute; discriminate.
  - discriminate.
  - vm_compute. reflexivity.
  - vm_compute. lia.
  - split; [rewrite E1; vm_compute; reflexivity|]. split; [exact E2|].
    rewrite E3; [vm_compute; reflexivity|reflexivity|discriminate|vm_compute; discriminate].
Defined.

(** The processes are named after their programs, this one too; pid 0 is not
    listed. *)
Example names_in_snapshot :
  map (fun p => (pp_pid p, pp_comm p)) (xs_procs (xnu_snap_refresh (toy_kernel toy_block) no_xnu_snap)) = [(900, bytes "tool"); (77, bytes "app")].
Proof. vm_compute. reflexivity. Qed.

(** Of a process without an environment the strings behind it are shown. *)
Example empty_environment :
  xnu_gen_environ (toy_kernel (exec_block (bytes "/bin/x") 1 [bytes "x"] [] (bytes "executable_path=/bin/x" ++ [0; 0]))) 900 =
  flat0 [bytes "executable_path=/bin/x"].
Proof. vm_compute. reflexivity. Qed.

(** An empty first argument is taken for padding, and the first string of the
    environment for the last argument. *)
Example empty_first_argument :
  xnu_gen_cmdline (toy_kernel (exec_block (bytes "/bin/x") 1 [[]; bytes "y"] [bytes "A=b"] [])) 900 = flat0 [bytes "y"; bytes "A=b"].
Proof. vm_compute. reflexivity. Qed.
