(* ===== verification/ForkNt.v ===== *)
(** * shim/fork-nt.c, fork on Windows

    There is no fork on Windows: a new process of the same image is started
    suspended and the parent copies its memory into it, map by map. Memory is
    modelled by pages, addresses and sizes count pages; any call may fail, as
    an oracle says. The theorems: when the copy ends well every private page
    of the child holds what the parent's holds, with its protection, a
    reservation page by page as it is committed, the slabs of the table of
    maps are there too, and the parent's own memory is as it was; and when no
    call fails it ends well. *)
From S2P Require Import Prelude.

(** ** Pages *)

Definition kNtPageNoaccess : Z := 0x01.
Definition kNtPageReadonly : Z := 0x02.
Definition kNtPageReadwrite : Z := 0x04.
Definition kNtPageGuard : Z := 0x100.

(** Readonly, Readwrite, Writecopy and their executable kin. *)
Definition READABLE : Z := 0xee.
Definition nt_readable (prot : Z) : bool := has prot READABLE.
Definition nt_writable (prot : Z) : bool := has prot 0xcc && negb (has prot kNtPageGuard).

Inductive page := Free | Reserved | Committed (prot data : Z).
Definition space : Type := Z -> page.

(** [f] on the pages [a .. a+n). *)
Definition on_range (a n : Z) (f : page -> page) (m : space) : space :=
  fun q => if (a <=? q) && (q <? a + n) then f (m q) else m q.

Definition all_range (a n : Z) (test : page -> bool) (m : space) : bool :=
  forallb (fun i => test (m (a + Z.of_nat i))) (seq 0 (Z.to_nat n)).

(** ** The calls, on the parent's memory and the child's *)

Definition op : Type := space -> space -> option (space * space).

(** VirtualAllocEx in the child: reserving takes free pages, committing
    reserved ones, which then are zero. *)
Definition reserve_child (a n : Z) : op := fun p c =>
  if all_range a n (fun g => match g with Free => true | _ => false end) c
  then Some (p, on_range a n (fun _ => Reserved) c) else None.
Definition commit_child (a n prot : Z) : op := fun p c =>
  if all_range a n (fun g => match g with Reserved => true | _ => false end) c
  then Some (p, on_range a n (fun _ => Committed prot 0) c) else None.
Definition alloc_child (a n prot : Z) : op := fun p c =>
  if all_range a n (fun g => match g with Free => true | _ => false end) c
  then Some (p, on_range a n (fun _ => Committed prot 0) c) else None.

Definition set_prot (prot : Z) (g : page) : page := match g with Committed _ d => Committed prot d | _ => g end.
Definition committed (g : page) : bool := match g with Committed _ _ => true | _ => false end.

(** VirtualProtect and VirtualProtectEx: committed pages only. *)
Definition protect_parent (a n prot : Z) : op := fun p c =>
  if all_range a n committed p then Some (on_range a n (set_prot prot) p, c) else None.
Definition protect_child (a n prot : Z) : op := fun p c =>
  if all_range a n committed c then Some (p, on_range a n (set_prot prot) c) else None.

(** WriteProcessMemory: what is read must be readable, what is written
    writable. *)
Definition can_read (g : page) : bool := match g with Committed pr _ => nt_readable pr && negb (has pr kNtPageGuard) | _ => false end.
Definition can_write (g : page) : bool := match g with Committed pr _ => nt_writable pr | _ => false end.
Definition take_data (from g : page) : page := match g, from with Committed pr _, Committed _ d => Committed pr d | _, _ => g end.
Definition write_child (a n : Z) : op := fun p c =>
  if all_range a n can_read p && all_range a n can_write c
  then Some (p, fun q => if (a <=? q) && (q <? a + n) then take_data (p q) (c q) else c q) else None.

(** The old protection VirtualProtect answers is the first page's. *)
Definition prot_at (m : space) (a : Z) : Z := match m a with Committed pr _ => pr | _ => 0 end.

Section fork.
(** Whether the [n]th call fails for a reason of the system's own. *)
Context (fails : nat -> bool).
(** VirtualQuery: where the run of equal pages at an address ends. *)
Context (query : space -> Z -> option Z).
(** __prot2nt, cosmo's MAP_* values and the size of a slab of maps. *)
Context (prot2nt : Z -> Z) (MAP_TYPE MAP_SHARED MAP_FILE MAP_NOFORK MAP_APE_RESERVE MAPS_SIZE : Z).

Record fk := Fk { parent : space; child : space; calls : nat; ok : bool }.

Definition call (f : op) (s : fk) : bool * fk :=
  let n := S (calls s) in
  if fails (calls s) then (false, Fk (parent s) (child s) n (ok s))
  else match f (parent s) (child s) with
       | None => (false, Fk (parent s) (child s) n (ok s))
       | Some (p, c) => (true, Fk p c n (ok s))
       end.

(** [ok = ok && call(...)] *)
Definition then_do (f : fk -> bool * fk) (s : fk) : fk :=
  if ok s then let '(b, s') := f s in Fk (parent s') (child s') (calls s') b else s.
Definition then_call (f : op) : fk -> fk := then_do (call f).

(** ** CopyReservation *)

(** One committed run: its copy in the child, with its protection. *)
Definition copy_run (p n prot : Z) (s : fk) : bool * fk :=
  let reprotect := negb (nt_readable prot) || has prot kNtPageGuard in
  let '(b, s) := call (commit_child p n kNtPageReadwrite) s in
  if negb b then (false, s)
  else
    let old := prot_at (parent s) p in
    let '(b, s) := if reprotect then call (protect_parent p n kNtPageReadwrite) s else (true, s) in
    if negb b then (false, s)
    else
      let '(w, s) := call (write_child p n) s in
      let '(b, s) := if reprotect then let '(r, s) := call (protect_parent p n old) s in (r && w, s) else (w, s) in
      if negb b then (false, s)
      else if prot =? kNtPageReadwrite then (true, s)
      else call (protect_child p n prot) s.

Fixpoint copy_runs (fuel : nat) (p stop : Z) (s : fk) : bool * fk :=
  if stop <=? p then (true, s)
  else
    match fuel with
    | O => (false, s)
    | S fuel =>
        match query (parent s) p with
        | None => (false, s)
        | Some re =>
            let re := Z.min re stop in
            let '(b, s) := match parent s p with Committed prot _ => copy_run p (re - p) prot s | _ => (true, s) end in
            if b then copy_runs fuel re stop s else (false, s)
        end
    end.

Definition CopyReservation (a n : Z) (s : fk) : bool * fk :=
  let '(b, s) := call (reserve_child a n) s in
  if b then copy_runs (Z.to_nat n) a (a + n) s else (false, s).

(** ** The maps of sys_fork_nt_parent *)

(** struct Map; [m_alloc] is __maps_isalloc: an allocation starts here. *)
Record mapping := Map { m_addr : Z; m_size : Z; m_prot : Z; m_flags : Z; m_alloc : bool }.

Definition PROT_READ : Z := 1.
Definition PROT_WRITE : Z := 2.
Definition PROT_EXEC : Z := 4.

Definition m_type (m : mapping) : Z := Z.land (m_flags m) MAP_TYPE.

(** The size of the allocation that starts at [addr]: the pieces that go on
    behind it belong to it. *)
Fixpoint span (addr size : Z) (rest : list mapping) : Z :=
  match rest with
  | m2 :: rest => if negb (m_alloc m2) && (addr + size =? m_addr m2) then span addr (size + m_size m2) rest else size
  | [] => size
  end.

(** The end of the loop's body: contents and protection of one map. *)
Definition copy_map (m : mapping) (alloc_prot : Z) (s : fk) : fk :=
  let readable := has (m_prot m) PROT_READ in
  let old := prot_at (parent s) (m_addr m) in
  let s := if readable then s else then_call (protect_parent (m_addr m) (m_size m) kNtPageReadwrite) s in
  let s := then_call (write_child (m_addr m) (m_size m)) s in
  let s := if m_prot m =? alloc_prot then s else then_call (protect_child (m_addr m) (m_size m) (prot2nt (m_prot m))) s in
  if readable then s else then_call (protect_parent (m_addr m) (m_size m) old) s.

Fixpoint copy_maps (maps : list mapping) (alloc_prot skip_until : Z) (s : fk) : fk :=
  match maps with
  | [] => s
  | m :: rest =>
      if m_addr m <? skip_until then copy_maps rest alloc_prot skip_until s
      else if m_type m =? MAP_SHARED then copy_maps rest alloc_prot skip_until s
      else if has (m_flags m) MAP_NOFORK && negb (m_type m =? MAP_FILE) then copy_maps rest alloc_prot skip_until s
      else if negb (m_alloc m) then copy_maps rest alloc_prot skip_until (copy_map m alloc_prot s)
      else
        let n := span (m_addr m) (m_size m) rest in
        if has (m_flags m) MAP_APE_RESERVE then
          copy_maps rest alloc_prot (m_addr m + n) (then_do (CopyReservation (m_addr m) n) s)
        else if has (m_flags m) MAP_NOFORK && (m_type m =? MAP_FILE) then
          if has (m_prot m) PROT_EXEC then copy_maps rest alloc_prot skip_until s
          else if negb (has (m_prot m) PROT_WRITE) then
            let s := then_call (protect_child (m_addr m) n kNtPageReadwrite) s in
            let alloc_prot := Z.lor PROT_READ PROT_WRITE in
            copy_maps rest alloc_prot skip_until (copy_map m alloc_prot s)
          else copy_maps rest (m_prot m) skip_until (copy_map m (m_prot m) s)
        else
          let '(page_flags, alloc_prot) :=
            if negb (has alloc_prot PROT_WRITE) then (kNtPageReadwrite, Z.lor PROT_READ PROT_WRITE)
            else (prot2nt alloc_prot, alloc_prot) in
          let s := then_call (alloc_child (m_addr m) n page_flags) s in
          copy_maps rest alloc_prot skip_until (copy_map m alloc_prot s)
  end.

(** ** sys_fork_nt_parent, behind the start of the process *)

(** The tables of the maps themselves, a list of slabs of memory. *)
Fixpoint copy_slabs (slabs : list Z) (s : fk) : fk :=
  match slabs with
  | [] => s
  | slab :: next =>
      let s := then_call (alloc_child slab MAPS_SIZE kNtPageReadwrite) s in
      copy_slabs next (then_call (write_child slab MAPS_SIZE) s)
  end.

(** Setting the process loose, and what becomes of it: a child that runs
    with a pid, or the end of the process and of its handle, with EAGAIN
    unless memory ran out. *)
Inductive forked := Running (pid : Z) | Terminated (e : errno).

Definition nothing : op := fun p c => Some (p, c).
Definition fork_parent (slabs : list Z) (maps : list mapping) (pid : Z) (no_memory : bool) (image own : space) : forked * fk :=
  let s := copy_slabs slabs (Fk own image 0 true) in
  let s := copy_maps maps (-1) 0 s in
  let s := then_call nothing s in
  let '(closed, s') := call nothing s in
  let s := Fk (parent s') (child s') (calls s') (ok s && closed) in
  (if ok s then Running pid else Terminated (if no_memory then ENOMEM else EAGAIN), s).
End fork.

(** ** Calls under the oracle *)

Lemma all_range_true a n test m : (forall q, a <= q < a + n -> test (m q) = true) -> all_range a n test m = true.
Proof. intros H. apply forallb_forall. intros i Hi%in_seq. apply H. lia. Qed.

Definition within (a n q : Z) : bool := (a <=? q) && (q <? a + n).

Lemma within_spec a n q : BoolSpec (a <= q < a + n) (~ a <= q < a + n) (within a n q).
Proof. unfold within. destruct (Z.leb_spec a q), (Z.ltb_spec q (a + n)); constructor; lia. Qed.

(** A page without its contents, and what a reservation's page becomes. *)
Definition kind (g : page) : page := match g with Committed pr _ => Committed pr 0 | _ => g end.
Definition copied (g : page) : page := match g with Committed _ _ => g | _ => Reserved end.

Section copies.
Context (fails : nat -> bool) (query : space -> Z -> option Z) (prot2nt : Z -> Z).

(** Either everything went well and [Inv] holds, or some call failed. *)
Definition holds (Inv : space -> space -> Prop) (s : fk) : Prop :=
  if ok s then Inv (parent s) (child s) else exists n, fails n = true.
Definition holds2 (Inv : space -> space -> Prop) (r : bool * fk) : Prop :=
  if fst r then Inv (parent (snd r)) (child (snd r)) else exists n, fails n = true.

Lemma call_holds (Inv : space -> space -> Prop) f s :
  (exists p c, f (parent s) (child s) = Some (p, c) /\ Inv p c) -> holds2 Inv (call fails f s).
Proof.
  intros (p & c & E & Hi). unfold call, holds2. destruct (fails (calls s)) eqn:Ef; cbn [fst snd]; [by exists (calls s)|].
  by rewrite E.
Qed.

Lemma then_do_holds Inv Inv' g s :
  holds Inv s -> (forall s, Inv (parent s) (child s) -> holds2 Inv' (g s)) -> holds Inv' (then_do g s).
Proof.
  unfold then_do. intros Hs Hg. unfold holds in Hs at 1. destruct (ok s) eqn:Eo.
  - specialize (Hg s Hs). destruct (g s) as [b s']. unfold holds2 in Hg. cbn [fst snd] in Hg. unfold holds. cbn [ok parent child]. by destruct b.
  - unfold holds. by rewrite Eo.
Qed.

Lemma holds_mono (Inv Inv' : space -> space -> Prop) s : holds Inv s -> (forall p c, Inv p c -> Inv' p c) -> holds Inv' s.
Proof. unfold holds. destruct (ok s); auto. Qed.

Lemma then_call_holds (Inv Inv' : space -> space -> Prop) f s :
  holds Inv s -> (forall p c, Inv p c -> exists p' c', f p c = Some (p', c') /\ Inv' p' c') -> holds Inv' (then_call fails f s).
Proof. intros Hs Hf. eapply then_do_holds; [exact Hs|]. intros s' Hi. apply call_holds. by apply Hf. Qed.

(** ** A run of a reservation *)

Lemma copy_run_holds P0 C0 p n prot s :
  0 < n -> (forall q, parent s q = P0 q) -> (forall q, child s q = C0 q) ->
  (forall q, p <= q < p + n -> exists d, P0 q = Committed prot d) -> (forall q, p <= q < p + n -> C0 q = Reserved) ->
  holds2 (fun P C => (forall q, P q = P0 q) /\ forall q, C q = if within p n q then P0 q else C0 q) (copy_run fails p n prot s).
Proof.
  intros Hn HP HC Hrun Hres. unfold copy_run.
  set (reprotect := negb (nt_readable prot) || has prot kNtPageGuard).
  assert (H1 : holds2 (fun P C => (forall q, P q = P0 q) /\ forall q, C q = if within p n q then Committed kNtPageReadwrite 0 else C0 q)
                 (call fails (commit_child p n kNtPageReadwrite) s)).
  { apply call_holds. unfold commit_child. rewrite all_range_true by (intros q Hq; by rewrite HC, (Hres q Hq)). eexists _, _.
    split; [done|]. split; [done|]. intros q. unfold on_range, within. by rewrite HC. }
  destruct (call fails (commit_child p n kNtPageReadwrite) s) as [[] s1]; cbn [negb]; [|exact H1].
  unfold holds2 in H1. cbn [fst snd] in H1. destruct H1 as [HP1 HC1].
  assert (Hold : prot_at (parent s1) p = prot) by (unfold prot_at; rewrite HP1; destruct (Hrun p) as [d ->]; [lia|done]).
  set (Pw := fun q => if reprotect && within p n q then set_prot kNtPageReadwrite (P0 q) else P0 q).
  assert (H2 : holds2 (fun P C => (forall q, P q = Pw q) /\ forall q, C q = child s1 q)
                 (if reprotect then call fails (protect_parent p n kNtPageReadwrite) s1 else (true, s1))).
  { unfold Pw. destruct reprotect; cbn [andb]; [|unfold holds2; by cbn].
    apply call_holds. unfold protect_parent. rewrite all_range_true by (intros q Hq; rewrite HP1; by destruct (Hrun q Hq) as [d ->]).
    eexists _, _. split; [done|]. split; [|done]. intros q. unfold on_range, within. by rewrite HP1. }
  destruct (if reprotect then _ else _) as [[] s2]; cbn [negb]; [|exact H2].
  unfold holds2 in H2. cbn [fst snd] in H2. destruct H2 as [HP2 HC2].
  assert (Hread : forall q, p <= q < p + n -> can_read (Pw q) = true /\ exists d pr, Pw q = Committed pr d /\ exists pr', P0 q = Committed pr' d).
  { intros q Hq. destruct (Hrun q Hq) as [d Ed]. unfold Pw. destruct (within_spec p n q); [|lia]. destruct reprotect eqn:Er; cbn [andb]; rewrite Ed.
    - split; [done|]. eexists _, _. split; [done|by eexists].
    - unfold reprotect in Er. apply orb_false_iff in Er as [Er1%negb_false_iff Er2]. cbn [can_read]. rewrite Er1, Er2. split; [done|]. exists d, prot. split; [done|by exists prot]. }
  set (Cw := fun q => if within p n q then take_data (P0 q) (Committed kNtPageReadwrite 0) else C0 q).
  assert (H3 : holds2 (fun P C => (forall q, P q = Pw q) /\ forall q, C q = Cw q) (call fails (write_child p n) s2)).
  { apply call_holds. unfold write_child.
    rewrite !all_range_true.
    - eexists _, _. split; [done|]. split; [done|]. intros q. unfold Cw. change ((p <=? q) && (q <? p + n)) with (within p n q).
      rewrite HC2, HC1, HP2. destruct (within_spec p n q) as [Hq|]; [|done].
      destruct (Hread q Hq) as (_ & d & pr & -> & pr' & ->). done.
    - intros q Hq. rewrite HC2, HC1. by destruct (within_spec p n q); [|lia].
    - intros q Hq. rewrite HP2. by apply Hread. }
  destruct (call fails (write_child p n) s2) as [w s3]. rewrite Hold.
  assert (H4 : holds2 (fun P C => (forall q, P q = P0 q) /\ forall q, C q = Cw q)
                 (if reprotect then let '(r, s4) := call fails (protect_parent p n prot) s3 in (r && w, s4) else (w, s3))).
  { destruct w; unfold holds2 in H3; cbn [fst snd] in H3.
    2:{ destruct reprotect; [|exact H3]. destruct (call fails (protect_parent p n prot) s3) as [r s4]. by rewrite andb_false_r. }
    destruct H3 as [HP3 HC3]. destruct reprotect eqn:Er; unfold Pw in HP3; cbn [andb] in HP3; [|by split].
    assert (H : holds2 (fun P C => (forall q, P q = P0 q) /\ forall q, C q = Cw q) (call fails (protect_parent p n prot) s3)).
    { apply call_holds. unfold protect_parent. rewrite all_range_true.
      - eexists _, _. split; [done|]. split; [|done]. intros q. unfold on_range. change ((p <=? q) && (q <? p + n)) with (within p n q).
        rewrite HP3. destruct (within_spec p n q) as [Hq|]; [|done]. by destruct (Hrun q Hq) as [d ->].
      - intros q Hq. rewrite HP3. destruct (within_spec p n q); [|lia]. by destruct (Hrun q Hq) as [d ->]. }
    destruct (call fails (protect_parent p n prot) s3) as [r s4]. by rewrite andb_true_r. }
  destruct (if reprotect then _ else _) as [[] s4]; cbn [negb]; [|exact H4].
  unfold holds2 in H4. cbn [fst snd] in H4. destruct H4 as [HP4 HC4].
  destruct (Z.eqb_spec prot kNtPageReadwrite) as [->|Hne].
  - split; [done|]. intros q. rewrite HC4. unfold Cw. destruct (within_spec p n q) as [Hq|]; [|done]. by destruct (Hrun q Hq) as [d ->].
  - apply call_holds. unfold protect_child. rewrite all_range_true.
    + eexists _, _. split; [done|]. split; [done|]. intros q. unfold on_range. change ((p <=? q) && (q <? p + n)) with (within p n q).
      rewrite HC4. unfold Cw. destruct (within_spec p n q) as [Hq|]; [|done]. by destruct (Hrun q Hq) as [d ->].
    + intros q Hq. rewrite HC4. unfold Cw. destruct (within_spec p n q); [|lia]. by destruct (Hrun q Hq) as [d ->].
Qed.

(** ** A reservation *)

(** VirtualQuery answers where the run of pages of one kind ends. *)
Definition query_runs : Prop :=
  forall (m : space) p, exists re, query m p = Some re /\ p < re /\ forall q, p <= q < re -> kind (m q) = kind (m p).

Lemma copy_runs_holds fuel P0 p stop C0 s :
  query_runs -> (forall q, parent s q = P0 q) -> (forall q, child s q = C0 q) ->
  (forall q, p <= q < stop -> C0 q = Reserved) -> (Z.to_nat (stop - p) <= fuel)%nat ->
  holds2 (fun P C => (forall q, P q = P0 q) /\ forall q, C q = if (p <=? q) && (q <? stop) then copied (P0 q) else C0 q)
    (copy_runs fails query fuel p stop s).
Proof.
  intros Hq. revert p C0 s. induction fuel as [|fuel IH]; intros p C0 s HP HC Hres Hf; cbn [copy_runs].
  - rewrite (proj2 (Z.leb_le stop p)) by lia. split; [done|]. intros q. rewrite HC.
    destruct (Z.leb_spec p q), (Z.ltb_spec q stop); cbn [andb]; try done; lia.
  - destruct (Z.leb_spec stop p).
    { split; [done|]. intros q. rewrite HC. destruct (Z.leb_spec p q), (Z.ltb_spec q stop); cbn [andb]; try done; lia. }
    destruct (Hq (parent s) p) as (re & -> & Hlt & Hkind). set (r := Z.min re stop).
    set (C1 := fun q => if within p (r - p) q then copied (P0 q) else C0 q).
    assert (H1 : holds2 (fun P C => (forall q, P q = P0 q) /\ forall q, C q = C1 q)
                   (match parent s p with Committed prot _ => copy_run fails p (r - p) prot s | _ => (true, s) end)).
    { rewrite HP. assert (Hsame : forall q, p <= q < r -> kind (P0 q) = kind (P0 p)) by (intros q Hqr; rewrite <- !HP; apply Hkind; lia).
      destruct (P0 p) as [| |prot d] eqn:Ep.
      - split; [done|]. intros q. rewrite HC. unfold C1. destruct (within_spec p (r - p) q) as [Hw|]; [|done].
        specialize (Hsame q ltac:(lia)). rewrite Hres by lia. by destruct (P0 q).
      - split; [done|]. intros q. rewrite HC. unfold C1. destruct (within_spec p (r - p) q) as [Hw|]; [|done].
        specialize (Hsame q ltac:(lia)). rewrite Hres by lia. by destruct (P0 q).
      - assert (Hcom : forall q, p <= q < p + (r - p) -> exists d', P0 q = Committed prot d').
        { intros q Hqr. specialize (Hsame q ltac:(lia)). destruct (P0 q) as [| |pr d']; cbn in Hsame; [done..|]. injection Hsame as ->. by exists d'. }
        pose proof (copy_run_holds P0 C0 p (r - p) prot s ltac:(lia) HP HC Hcom ltac:(intros; apply Hres; lia)) as H1.
        destruct (copy_run fails p (r - p) prot s) as [[] s1]; [|exact H1]. destruct H1 as [HP1 HC1]. split; [done|].
        intros q. rewrite HC1. unfold C1. destruct (within_spec p (r - p) q) as [Hw|]; [|done].
        by destruct (Hcom q Hw) as [d' ->]. }
    destruct (match parent s p with Committed _ _ => _ | _ => _ end) as [[] s1]; [|exact H1]. destruct H1 as [HP1 HC1].
    cbn [snd] in HP1, HC1.
    assert (H2 := IH r C1 s1 HP1 HC1 ltac:(intros q Hqr; unfold C1; destruct (within_spec p (r - p) q); [lia|apply Hres; lia]) ltac:(lia)).
    destruct (copy_runs fails query fuel r stop s1) as [[] s2]; [|exact H2]. destruct H2 as [HP2 HC2]. split; [done|].
    intros q. rewrite HC2. unfold C1. destruct (within_spec p (r - p) q);
      destruct (Z.leb_spec r q), (Z.ltb_spec q stop), (Z.leb_spec p q); cbn [andb]; try done; lia.
Qed.

Lemma CopyReservation_holds P0 C0 a n s :
  query_runs -> (forall q, parent s q = P0 q) -> (forall q, child s q = C0 q) ->
  (forall q, a <= q < a + n -> C0 q = Free) ->
  holds2 (fun P C => (forall q, P q = P0 q) /\ forall q, C q = if within a n q then copied (P0 q) else C0 q)
    (CopyReservation fails query a n s).
Proof.
  intros Hq HP HC Hfree. unfold CopyReservation.
  assert (H1 : holds2 (fun P C => (forall q, P q = P0 q) /\ forall q, C q = if within a n q then Reserved else C0 q)
                 (call fails (reserve_child a n) s)).
  { apply call_holds. unfold reserve_child. rewrite all_range_true by (intros q Hqr; by rewrite HC, (Hfree q Hqr)).
    eexists _, _. split; [done|]. split; [done|]. intros q. unfold on_range, within. by rewrite HC. }
  destruct (call fails (reserve_child a n) s) as [[] s1]; [|exact H1]. destruct H1 as [HP1 HC1].
  cbn [snd] in HP1, HC1.
  assert (H2 := copy_runs_holds (Z.to_nat n) P0 a (a + n) (fun q => if within a n q then Reserved else C0 q) s1 Hq HP1 HC1
    ltac:(intros q Hqr; cbv beta; destruct (within_spec a n q); [done|lia]) ltac:(lia)).
  destruct (copy_runs fails query (Z.to_nat n) a (a + n) s1) as [[] s2]; [|exact H2]. destruct H2 as [HP2 HC2].
  split; [done|]. intros q. rewrite HC2. change ((a <=? q) && (q <? a + n)) with (within a n q).
  by destruct (within_spec a n q).
Qed.

(** ** One map *)

(** __prot2nt keeps to the three rights. *)
Definition prot2nt_ok : Prop :=
  prot2nt (Z.lor PROT_READ PROT_WRITE) = kNtPageReadwrite /\
  (forall p, has p PROT_READ = true -> nt_readable (prot2nt p) = true) /\
  (forall p, has p PROT_WRITE = true -> nt_writable (prot2nt p) = true) /\
  (forall p, has (prot2nt p) kNtPageGuard = false).

Lemma then_call_off f s : ok s = false -> then_call fails f s = s.
Proof. unfold then_call, then_do. by intros ->. Qed.

Lemma copy_map_holds P0 C0 m ap cp s :
  prot2nt_ok -> 0 < m_size m ->
  (forall q, m_addr m <= q < m_addr m + m_size m -> exists d, P0 q = Committed (prot2nt (m_prot m)) d) ->
  (forall q, m_addr m <= q < m_addr m + m_size m -> exists d, C0 q = Committed cp d) ->
  nt_writable cp = true -> (m_prot m = ap -> cp = prot2nt (m_prot m)) ->
  holds (fun P C => (forall q, P q = P0 q) /\ forall q, C q = C0 q) s ->
  holds (fun P C => (forall q, P q = P0 q) /\ forall q, C q = if within (m_addr m) (m_size m) q then P0 q else C0 q)
    (copy_map fails prot2nt m ap s).
Proof.
  intros (_ & Hr & _ & Hg) Hn HPm HCm Hw Hap Hs. unfold copy_map. destruct (ok s) eqn:Eo.
  2:{ assert (E : forall f, then_call fails f s = s) by (intros f; by apply then_call_off). cbv zeta. unfold holds in *. rewrite Eo in Hs.
      destruct (has (m_prot m) PROT_READ), (m_prot m =? ap); rewrite ?E, Eo; exact Hs. } set (a := m_addr m) in *. set (n := m_size m) in *.
  set (pr := prot2nt (m_prot m)) in *. set (readable := has (m_prot m) PROT_READ).
  set (Pw := fun q => if negb readable && within a n q then set_prot kNtPageReadwrite (P0 q) else P0 q).
  assert (H1 : holds (fun P C => (forall q, P q = Pw q) /\ forall q, C q = C0 q)
                 (if readable then s else then_call fails (protect_parent a n kNtPageReadwrite) s)).
  { unfold Pw. destruct readable; cbn [negb andb]; [done|]. eapply then_call_holds; [exact Hs|]. intros p c [HP HC]. unfold protect_parent.
    rewrite all_range_true by (intros q Hq; rewrite HP; by destruct (HPm q Hq) as [d ->]). eexists _, _. split; [done|]. split; [|done].
    intros q. unfold on_range, within. by rewrite HP. }
  set (Cw := fun q => if within a n q then take_data (P0 q) (C0 q) else C0 q).
  set (s1 := if readable then _ else _) in *. clearbody s1.
  assert (H2 : holds (fun P C => (forall q, P q = Pw q) /\ forall q, C q = Cw q) (then_call fails (write_child a n) s1)).
  { eapply then_call_holds; [exact H1|]. intros p c [HP HC]. unfold write_child. rewrite !all_range_true.
    - eexists _, _. split; [done|]. split; [done|]. intros q. unfold Cw. change ((a <=? q) && (q <? a + n)) with (within a n q). rewrite HP, HC.
      unfold Pw. destruct (within_spec a n q) as [Hq|]; [|done]. destruct (HPm q Hq) as [d ->], (HCm q Hq) as [d' ->]. by destruct readable.
    - intros q Hq. rewrite HC. by destruct (HCm q Hq) as [d ->].
    - intros q Hq. rewrite HP. unfold Pw. destruct (within_spec a n q); [|lia]. destruct (HPm q Hq) as [d ->].
      destruct readable eqn:Er; cbn [negb andb can_read set_prot]; [|done]. assert (nt_readable pr = true) as -> by by apply Hr. assert (has pr kNtPageGuard = false) as -> by apply Hg. done. }
  set (s2 := then_call fails (write_child a n) s1) in *. clearbody s2.
  set (Ct := fun q => if within a n q then P0 q else C0 q).
  assert (H3 : holds (fun P C => (forall q, P q = Pw q) /\ forall q, C q = Ct q)
                 (if m_prot m =? ap then s2 else then_call fails (protect_child a n pr) s2)).
  { destruct (Z.eqb_spec (m_prot m) ap) as [E|E].
    - eapply holds_mono; [exact H2|]. intros p c [HP HC]. split; [done|]. intros q. rewrite HC. unfold Cw, Ct.
      destruct (within_spec a n q) as [Hq|]; [|done]. destruct (HPm q Hq) as [d ->], (HCm q Hq) as [d' ->]. cbn. by rewrite (Hap E).
    - eapply then_call_holds; [exact H2|]. intros p c [HP HC]. unfold protect_child. rewrite all_range_true.
      + eexists _, _. split; [done|]. split; [done|]. intros q. unfold on_range. change ((a <=? q) && (q <? a + n)) with (within a n q).
        rewrite HC. unfold Cw, Ct. destruct (within_spec a n q) as [Hq|]; [|done]. by destruct (HPm q Hq) as [d ->], (HCm q Hq) as [d' ->].
      + intros q Hq. rewrite HC. unfold Cw. destruct (within_spec a n q); [|lia]. by destruct (HPm q Hq) as [d ->], (HCm q Hq) as [d' ->]. }
  set (s3 := if m_prot m =? ap then s2 else _) in *. clearbody s3.
  destruct readable eqn:Er; [exact H3|]. unfold Pw in H3. cbn [negb andb] in H3.
  assert (Hold : prot_at (parent s) a = pr).
  { unfold holds in Hs. rewrite Eo in Hs. unfold prot_at. rewrite (proj1 Hs). by destruct (HPm a ltac:(lia)) as [d ->]. }
  rewrite Hold. eapply then_call_holds; [exact H3|]. intros p c [HP HC]. unfold protect_parent. rewrite all_range_true.
  - eexists _, _. split; [done|]. split; [|done]. intros q. unfold on_range. change ((a <=? q) && (q <? a + n)) with (within a n q).
    rewrite HP. destruct (within_spec a n q) as [Hq|]; [|done]. by destruct (HPm q Hq) as [d ->].
  - intros q Hq. rewrite HP. destruct (within_spec a n q); [|lia]. by destruct (HPm q Hq) as [d ->].
Qed.

(** ** The loop over the maps *)

Context (MAP_TYPE MAP_SHARED MAP_FILE MAP_NOFORK MAP_APE_RESERVE : Z).

(** What the flags of a map make of it. *)
Definition left_out (f : Z) : bool := (Z.land f MAP_TYPE =? MAP_SHARED) || (has f MAP_NOFORK && negb (Z.land f MAP_TYPE =? MAP_FILE)).
Definition reservation (f : Z) : bool := negb (left_out f) && has f MAP_APE_RESERVE.
Definition image (f : Z) : bool := negb (left_out f) && negb (reservation f) && has f MAP_NOFORK && (Z.land f MAP_TYPE =? MAP_FILE).
Definition private (f : Z) : bool := negb (left_out f) && negb (reservation f) && negb (image f).

(** Maps in the order of their addresses; a piece goes on where the map before
    it ends and has its flags, and segments of the image are whole. *)
Fixpoint laid (lo : Z) (before : option Z) (maps : list mapping) : Prop :=
  match maps with
  | [] => True
  | m :: rest =>
      lo <= m_addr m /\ 0 < m_size m /\
      (m_alloc m = false -> before = Some (m_flags m) /\ m_addr m = lo /\ image (m_flags m) = false) /\
      laid (m_addr m + m_size m) (Some (m_flags m)) rest
  end.

Definition inside (m : mapping) (q : Z) : Prop := m_addr m <= q < m_addr m + m_size m.

(** The pages of a map in the parent, and in the child as the system starts
    it: free but for the image. *)
Definition pages_ok (P0 C0 : space) (m : mapping) : Prop :=
  forall q, inside m q ->
    if left_out (m_flags m) then True
    else if reservation (m_flags m) then C0 q = Free
    else if image (m_flags m) then
      has (m_prot m) PROT_EXEC = false -> (exists d, P0 q = Committed (prot2nt (m_prot m)) d) /\ exists d, C0 q = Committed (prot2nt (m_prot m)) d
    else (exists d, P0 q = Committed (prot2nt (m_prot m)) d) /\ C0 q = Free.

(** What the child has of a map in the end; nothing is said of what is left
    out and of the code of the image, which the system loads. *)
Definition arrived (P0 C : space) (m : mapping) : Prop :=
  forall q, inside m q ->
    if left_out (m_flags m) then True
    else if reservation (m_flags m) then C q = copied (P0 q)
    else if image (m_flags m) && has (m_prot m) PROT_EXEC then True
    else C q = P0 q.

Lemma span_add addr size rest : span addr size rest = size + span (addr + size) 0 rest.
Proof.
  assert (H : forall rest addr size extra, span addr (size + extra) rest = size + span (addr + size) extra rest).
  { clear. intros rest. induction rest as [|m rest IH]; intros addr size extra; [cbn; lia|]. cbn [span].
    replace (addr + (size + extra)) with (addr + size + extra) by lia. destruct (_ && _); [|lia].
    rewrite <- Z.add_assoc, IH. f_equal. }
  rewrite <- (Z.add_0_r size) at 1. apply H.
Qed.

Lemma span_nonneg lo before rest : laid lo before rest -> 0 <= span lo 0 rest.
Proof.
  revert lo before. induction rest as [|m rest IH]; intros lo before Hl; cbn [span]; [lia|].
  destruct Hl as (_ & Hs & _ & Hl). destruct (_ && _) eqn:E; [|lia]. apply andb_true_iff in E as [_ E%Z.eqb_eq].
  rewrite span_add. replace (lo + (0 + m_size m)) with (m_addr m + m_size m) by lia. specialize (IH _ _ Hl). lia.
Qed.

(** The pieces behind a map are of its kind. *)
Lemma span_pieces P0 C0 lo f rest q :
  laid lo (Some f) rest -> Forall (pages_ok P0 C0) rest -> lo <= q < lo + span lo 0 rest ->
  left_out f = false -> image f = false -> C0 q = Free.
Proof.
  intros Hl Hp. revert lo Hl. induction Hp as [|m rest Hm _ IH]; intros lo Hl Hq Hf Hi; cbn [span] in Hq; [lia|].
  destruct Hl as (Hlo & Hs & Hpiece & Hl). destruct (_ && _) eqn:E; [|lia].
  apply andb_true_iff in E as [E1%negb_true_iff E2%Z.eqb_eq]. destruct (Hpiece E1) as ([= ->] & Ea & _).
  rewrite span_add in Hq. replace (lo + (0 + m_size m)) with (m_addr m + m_size m) in Hq by lia.
  destruct (decide (q < m_addr m + m_size m)) as [Hin|].
  - specialize (Hm q ltac:(unfold inside; lia)). rewrite Hf in Hm. destruct (reservation (m_flags m)); [done|]. rewrite Hi in Hm. by destruct Hm.
  - apply (IH (m_addr m + m_size m)); [done|lia|done|done].
Qed.

Lemma span_whole lo f rest : laid lo (Some f) rest -> image f = true -> span lo 0 rest = 0.
Proof.
  destruct rest as [|m rest]; intros Hl Hi; cbn [span]; [done|]. destruct Hl as (_ & _ & Hpiece & _).
  destruct (m_alloc m) eqn:E; [done|]. destruct (Hpiece eq_refl) as ([= ->] & _ & E'). congruence.
Qed.

(** What holds when the loop comes to [maps], the maps before them ending at
    [lo]: the parent is as it was, [F] tells the child's pages that are done,
    and the rest is as it started but for the allocation in progress. *)
Definition is_private (before : option Z) : bool := match before with Some f => private f | None => false end.
Definition loop_inv (P0 C0 : space) (F : Z -> option page) (lo skip ap : Z) (before : option Z) (maps : list mapping) : space -> space -> Prop := fun P C =>
  (forall q, P q = P0 q) /\ (forall q g, F q = Some g -> C q = g) /\
  (forall q, Z.max lo skip <= q -> C q = if is_private before && (q <? lo + span lo 0 maps) then Committed (prot2nt ap) 0 else C0 q).

Definition loop_side (P0 : space) (F : Z -> option page) (lo skip ap : Z) (before : option Z) (maps : list mapping) : Prop :=
  (is_private before = true -> has ap PROT_WRITE = true) /\ (forall q, Z.max lo skip <= q -> F q = None) /\
  match before with
  | Some f => if reservation f then skip = lo + span lo 0 maps /\ (forall q, lo <= q < skip -> F q = Some (copied (P0 q))) else skip <= lo
  | None => skip <= lo
  end.

Definition loop_end (P0 : space) (F : Z -> option page) (maps : list mapping) : space -> space -> Prop := fun P C =>
  (forall q, P q = P0 q) /\ (forall q g, F q = Some g -> C q = g) /\ Forall (arrived P0 C) maps.

Notation loop := (copy_maps fails query prot2nt MAP_TYPE MAP_SHARED MAP_FILE MAP_NOFORK MAP_APE_RESERVE).

(** The pages of one map added to those that are done. *)
Definition done_with (m : mapping) (F : Z -> option page) (P0 : space) : Z -> option page :=
  fun q => if within (m_addr m) (m_size m) q then Some (P0 q) else F q.

Lemma loop_end_cons P0 F F' m rest :
  (forall q g, F q = Some g -> F' q = Some g) ->
  (forall q, inside m q -> left_out (m_flags m) = true \/ (image (m_flags m) && has (m_prot m) PROT_EXEC) = true \/
     F' q = Some (if reservation (m_flags m) then copied (P0 q) else P0 q)) ->
  forall P C, loop_end P0 F' rest P C -> loop_end P0 F (m :: rest) P C.
Proof.
  intros Hmore Hin P C (HP & HD & Ha). split; [done|]. split; [intros q g E; by apply HD, Hmore|].
  constructor; [|done]. intros q Hq. destruct (Hin q Hq) as [->|[Hm|E]]; [done| |].
  - rewrite Hm. destruct (left_out _); [done|]. destruct (reservation (m_flags m)) eqn:Er; [|done].
    unfold image in Hm. rewrite Er in Hm. by rewrite andb_false_r in Hm.
  - apply HD in E. destruct (left_out _); [done|]. destruct (reservation _); [done|]. by destruct (image _ && _).
Qed.

(** A step is taken from a state in which all went well, or changes nothing. *)
Lemma step_case (Inv Inv' : space -> space -> Prop) (g : fk -> fk) s :
  holds Inv s -> (ok s = false -> ok (g s) = false) -> (ok s = true -> Inv (parent s) (child s) -> holds Inv' (g s)) -> holds Inv' (g s).
Proof.
  intros Hs Hoff Hon. unfold holds in Hs at 1. destruct (ok s) eqn:E; [by apply Hon|]. unfold holds. by rewrite Hoff.
Qed.

Lemma copy_map_off m ap s : ok s = false -> ok (copy_map fails prot2nt m ap s) = false.
Proof.
  intros Hs. assert (E : forall f, then_call fails f s = s) by (intros f; by apply then_call_off). unfold copy_map. cbv zeta.
  destruct (has (m_prot m) PROT_READ), (m_prot m =? ap); by rewrite ?E.
Qed.

(** The child is ready for the contents of [m]; behind it nothing changes. *)
Definition ready (P0 : space) (F : Z -> option page) (m : mapping) (cp : Z) (tail : space) : space -> space -> Prop := fun P C =>
  (forall q, P q = P0 q) /\ (forall q g, F q = Some g -> C q = g) /\
  (forall q, inside m q -> exists d, C q = Committed cp d) /\ (forall q, m_addr m + m_size m <= q -> C q = tail q).

Lemma copy_step P0 F m ap cp tail s :
  prot2nt_ok -> 0 < m_size m -> (forall q, inside m q -> exists d, P0 q = Committed (prot2nt (m_prot m)) d) ->
  nt_writable cp = true -> (m_prot m = ap -> cp = prot2nt (m_prot m)) -> (forall q, inside m q -> F q = None) ->
  holds (ready P0 F m cp tail) s ->
  holds (fun P C => (forall q, P q = P0 q) /\ (forall q g, done_with m F P0 q = Some g -> C q = g) /\
                    forall q, m_addr m + m_size m <= q -> C q = tail q) (copy_map fails prot2nt m ap s).
Proof.
  intros Hnt Hn HPm Hw Hap HF Hs. eapply step_case; [exact Hs|by apply copy_map_off|]. intros Hok (HP & HD & HC & Ht).
  eapply holds_mono.
  - apply (copy_map_holds P0 (child s) m ap cp s); try done. unfold holds. by rewrite Hok.
  - intros P C [HP' HC']. split; [done|]. split.
    + intros q g E. rewrite HC'. unfold done_with in E. destruct (within_spec (m_addr m) (m_size m) q); [by injection E as <-|by apply HD].
    + intros q Hq. rewrite HC'. destruct (within_spec (m_addr m) (m_size m) q); [lia|by apply Ht].
Qed.

(** Behind the allocation in progress the child is as it started. *)
Lemma untouched P0 C0 F lo skip ap before m rest P C :
  loop_inv P0 C0 F lo skip ap before (m :: rest) P C -> skip <= m_addr m -> lo <= m_addr m ->
  m_alloc m = true \/ is_private before = false -> forall q, m_addr m <= q -> C q = C0 q.
Proof.
  intros (_ & _ & Ht) Hskip Hlo Hor q Hq. rewrite Ht by lia. destruct Hor as [Ha| ->]; [|done].
  cbn [span]. rewrite Ha. cbn [negb andb]. replace (q <? lo + 0) with false by (symmetry; apply Z.ltb_ge; lia). by rewrite andb_false_r.
Qed.

(** The steps of the loop, one for each kind of map: what holds behind the
    map, with the child's pages that are done by then. *)
Section steps.
Context (P0 C0 : space) (m : mapping) (rest : list mapping) (F : Z -> option page) (lo skip ap : Z) (before : option Z) (s : fk).
Hypothesis (Hq : query_runs) (Hnt : prot2nt_ok).
Hypothesis (Hlaid : laid lo before (m :: rest)) (Hpages : Forall (pages_ok P0 C0) (m :: rest)).
Hypothesis (Hside : loop_side P0 F lo skip ap before (m :: rest)) (Hs : holds (loop_inv P0 C0 F lo skip ap before (m :: rest)) s).

Let f := m_flags m.
Let lo' := m_addr m + m_size m.

(** A piece of a reservation, copied with its head. *)
Lemma step_reserved : m_addr m < skip ->
  loop_side P0 F lo' skip ap (Some f) rest /\ holds (loop_inv P0 C0 F lo' skip ap (Some f) rest) s /\
  forall q, inside m q -> F q = Some (copied (P0 q)) /\ reservation f = true.
Proof.
  intros Hlt. destruct Hlaid as (Hlo & Hsz & Hpiece & Hl). destruct Hside as (Hw & HF & Hb).
  assert (Hres : exists f0, before = Some f0 /\ reservation f0 = true /\ skip = lo + span lo 0 (m :: rest) /\ forall q, lo <= q < skip -> F q = Some (copied (P0 q))).
  { destruct before as [f0|]; [|lia]. destruct (reservation f0) eqn:Er; [|lia]. exists f0. naive_solver. }
  destruct Hres as (f0 & -> & Hr & Hskip & HFr). cbn [span] in Hskip. destruct (_ && _) eqn:E; [|lia].
  apply andb_true_iff in E as [E1%negb_true_iff E2%Z.eqb_eq]. destruct (Hpiece E1) as ([= Hf] & Ha & _). fold f in Hf. subst f0.
  rewrite span_add in Hskip. replace (lo + (0 + m_size m)) with lo' in Hskip by (unfold lo'; lia).
  pose proof (span_nonneg _ _ _ Hl) as Hnn. fold lo' in Hnn.
  assert (Hpriv : is_private (Some f) = false) by (unfold is_private, private; rewrite Hr; by rewrite andb_false_r).
  unfold lo' in *. split_and!.
  - split; [by rewrite Hpriv|]. split; [intros q Hqq; apply HF; lia|]. rewrite Hr. split; [lia|]. intros q Hqq. apply HFr. lia.
  - eapply holds_mono; [exact Hs|]. intros P C (HP & HD & Ht). split; [done|]. split; [done|]. intros q Hqq. rewrite Ht by lia. by rewrite Hpriv.
  - intros q Hqq. unfold inside in Hqq. split; [apply HFr; lia|done].
Qed.

(** A map that is left alone. *)
Lemma step_left_alone : skip <= m_addr m -> left_out f = true \/ image f = true ->
  loop_side P0 F lo' skip ap (Some f) rest /\ holds (loop_inv P0 C0 F lo' skip ap (Some f) rest) s.
Proof.
  intros Hskip Hf. pose proof Hlaid as (Hlo & Hsz & Hpiece & Hl). destruct Hside as (_ & HF & _).
  assert (Hpriv : private f = false) by (unfold private; destruct Hf as [->| ->]; [done|by rewrite andb_false_r]).
  assert (Hr : reservation f = false).
  { destruct Hf as [Hf|Hf]; [unfold reservation; by rewrite Hf|]. unfold image in Hf. destruct (reservation f); [by rewrite andb_false_r in Hf|done]. }
  assert (Hor : m_alloc m = true \/ is_private before = false).
  { destruct (m_alloc m) eqn:Ea; [by left|]. right. destruct (Hpiece eq_refl) as (-> & _). exact Hpriv. }
  unfold lo'. split.
  - split; [cbn [is_private]; by rewrite Hpriv|]. split; [intros q Hqq; apply HF; lia|]. rewrite Hr. lia.
  - eapply holds_mono; [exact Hs|]. intros P C Hi. pose proof (untouched _ _ _ _ _ _ _ _ _ _ _ Hi Hskip Hlo Hor) as Hu. destruct Hi as (HP & HD & _).
    split; [done|]. split; [done|]. intros q Hqq. cbn [is_private]. rewrite Hpriv. apply Hu. lia.
Qed.

(** Contents and protection of a map whose pages are there. *)
Lemma step_contents cp ap' s' :
  skip <= m_addr m -> left_out f = false -> reservation f = false -> (private f = true -> has ap' PROT_WRITE = true) ->
  (forall q, inside m q -> exists d, P0 q = Committed (prot2nt (m_prot m)) d) -> nt_writable cp = true -> (m_prot m = ap' -> cp = prot2nt (m_prot m)) ->
  holds (ready P0 F m cp (fun q => if private f && (q <? lo' + span lo' 0 rest) then Committed (prot2nt ap') 0 else C0 q)) s' ->
  loop_side P0 (done_with m F P0) lo' skip ap' (Some f) rest /\
  holds (loop_inv P0 C0 (done_with m F P0) lo' skip ap' (Some f) rest) (copy_map fails prot2nt m ap' s').
Proof.
  intros Hskip Hleft Hr Hw HPm Hcp Hap Hs'. pose proof Hlaid as (Hlo & Hsz & _ & Hl). destruct Hside as (_ & HF & _). unfold lo' in *. split.
  - split; [exact Hw|]. split; [|rewrite Hr; lia]. intros q Hqq. unfold done_with. destruct (within_spec (m_addr m) (m_size m) q); [lia|]. apply HF. lia.
  - eapply holds_mono.
    + apply (copy_step P0 F m ap' cp (fun q => if private f && (q <? (m_addr m + m_size m) + span (m_addr m + m_size m) 0 rest) then Committed (prot2nt ap') 0 else C0 q) s'); try done. intros q Hqq. apply HF. unfold inside in Hqq. lia.
    + intros P C (HP & HD & Ht). split; [done|]. split; [done|]. intros q Hqq. rewrite Ht by lia. done.
Qed.

Definition tail_of (ap' : Z) : space := fun q => if private f && (q <? lo' + span lo' 0 rest) then Committed (prot2nt ap') 0 else C0 q.

(** A piece of the allocation in progress. *)
Lemma ready_piece : skip <= m_addr m -> m_alloc m = false -> private f = true ->
  holds (ready P0 F m (prot2nt ap) (tail_of ap)) s /\ has ap PROT_WRITE = true.
Proof.
  intros Hskip Ha Hp. pose proof Hlaid as (Hlo & Hsz & Hpiece & Hl). destruct (Hpiece Ha) as (Hb & E & _). destruct Hside as (Hw & _ & _).
  assert (Hip : is_private before = true) by (rewrite Hb; exact Hp). split; [|by apply Hw].
  pose proof (span_nonneg _ _ _ Hl) as Hnn.
  assert (Hspan : lo + span lo 0 (m :: rest) = lo' + span lo' 0 rest).
  { unfold lo'. cbn [span]. rewrite Ha. cbn [negb andb]. rewrite (proj2 (Z.eqb_eq _ _)) by lia. rewrite span_add.
    replace (lo + (0 + m_size m)) with (m_addr m + m_size m) by lia. lia. }
  eapply holds_mono; [exact Hs|]. intros P C (HP & HD & Ht). unfold ready, inside. unfold lo' in *.
  split; [done|]. split; [done|]. split; intros q Hqq; rewrite Ht by lia; rewrite Hip, Hspan; unfold tail_of; rewrite ?Hp; [|done].
  rewrite (proj2 (Z.ltb_lt _ _)) by lia. by eexists.
Qed.

(** The head of an allocation: the pages of all of its pieces. *)
Lemma ready_head ap' : skip <= m_addr m -> m_alloc m = true -> private f = true ->
  holds (ready P0 F m (prot2nt ap') (tail_of ap')) (then_call fails (alloc_child (m_addr m) (span (m_addr m) (m_size m) rest) (prot2nt ap')) s).
Proof.
  intros Hskip Ha Hp. pose proof Hlaid as (Hlo & Hsz & _ & Hl). destruct Hside as (_ & HF & _).
  assert (Hflags : left_out f = false /\ reservation f = false /\ image f = false).
  { unfold private in Hp. rewrite !andb_true_iff, !negb_true_iff in Hp. naive_solver. }
  destruct Hflags as (Hf1 & Hf2 & Hf3). pose proof (span_nonneg _ _ _ Hl) as Hnn.
  assert (Hfree : forall q, m_addr m <= q < m_addr m + span (m_addr m) (m_size m) rest -> C0 q = Free).
  { intros q Hqq. rewrite span_add in Hqq. destruct (decide (q < m_addr m + m_size m)).
    - pose proof (Forall_inv Hpages q ltac:(unfold inside; lia)) as Hm. fold f in Hm. rewrite Hf1, Hf2, Hf3 in Hm. by destruct Hm.
    - eapply (span_pieces P0 C0 (m_addr m + m_size m) f rest q); [exact Hl|by inversion Hpages|lia|done|done]. }
  eapply then_call_holds; [exact Hs|]. intros P C Hi.
  pose proof (untouched _ _ _ _ _ _ _ _ _ _ _ Hi Hskip Hlo (or_introl Ha)) as Hu. destruct Hi as (HP & HD & _). unfold alloc_child.
  rewrite all_range_true by (intros q Hqq; by rewrite Hu, Hfree by lia). eexists _, _. split; [done|]. split; [done|].
  unfold on_range. split; [|split].
  - intros q g E. destruct ((m_addr m <=? q) && _) eqn:Eq; [|by apply HD]. rewrite HF in E by lia. done.
  - unfold inside. intros q Hqq. rewrite span_add. rewrite (proj2 (Z.leb_le _ _)), (proj2 (Z.ltb_lt _ _)) by lia. by eexists.
  - intros q Hqq. unfold tail_of, lo'. rewrite Hp, span_add, Z.add_assoc. rewrite (proj2 (Z.leb_le (m_addr m) q)) by lia.
    cbn [andb]. destruct (q <? _); [done|]. apply Hu. lia.
Qed.

(** A segment of the image that is not code; a read-only one is opened. *)
Lemma ready_image : skip <= m_addr m -> m_alloc m = true -> image f = true -> has (m_prot m) PROT_EXEC = false ->
  holds (ready P0 F m (prot2nt (m_prot m)) C0) s /\
  holds (ready P0 F m kNtPageReadwrite C0) (then_call fails (protect_child (m_addr m) (span (m_addr m) (m_size m) rest) kNtPageReadwrite) s).
Proof.
  intros Hskip Ha Hi Hx. pose proof Hlaid as (Hlo & Hsz & _ & Hl). destruct Hside as (_ & HF & _).
  pose proof (Forall_inv Hpages) as Hm. unfold pages_ok in Hm. fold f in Hm. unfold image in Hi. rewrite !andb_true_iff, !negb_true_iff in Hi.
  destruct Hi as [[[Hi1 Hi2] Hi3] Hi4]. rewrite Hi1, Hi2 in Hm.
  assert (Hi : image f = true) by (unfold image; by rewrite Hi1, Hi2, Hi3, Hi4). rewrite Hi in Hm.
  rewrite span_add, (span_whole _ f rest Hl Hi), Z.add_0_r.
  assert (H1 : holds (ready P0 F m (prot2nt (m_prot m)) C0) s).
  { eapply holds_mono; [exact Hs|]. intros P C Hv. pose proof (untouched _ _ _ _ _ _ _ _ _ _ _ Hv Hskip Hlo (or_introl Ha)) as Hu. destruct Hv as (HP & HD & _).
    split; [done|]. split; [done|]. split; intros q Hqq; [|apply Hu; lia]. unfold inside in Hqq. rewrite Hu by lia. by apply Hm. }
  split; [done|]. eapply then_call_holds; [exact H1|]. intros P C (HP & HD & HC & Ht). unfold protect_child.
  rewrite all_range_true by (intros q Hqq; by destruct (HC q Hqq) as [d ->]). eexists _, _. split; [done|]. split; [done|].
  unfold on_range. split; [|split].
  - intros q g E. destruct ((m_addr m <=? q) && _) eqn:Eq; [|by apply HD]. rewrite HF in E by lia. done.
  - intros q Hqq. destruct (HC q Hqq) as [d ->]. unfold inside in Hqq. rewrite (proj2 (Z.leb_le _ _)), (proj2 (Z.ltb_lt _ _)) by lia. by eexists.
  - intros q Hqq. rewrite (proj2 (Z.ltb_ge q _)) by lia. rewrite andb_false_r. by apply Ht.
Qed.

(** The head of a reservation: all of its pages. *)
Definition with_reservation (n : Z) : Z -> option page := fun q => if within (m_addr m) n q then Some (copied (P0 q)) else F q.

Lemma step_reservation : skip <= m_addr m -> m_alloc m = true -> reservation f = true ->
  let n := span (m_addr m) (m_size m) rest in
  loop_side P0 (with_reservation n) lo' (m_addr m + n) ap (Some f) rest /\
  holds (loop_inv P0 C0 (with_reservation n) lo' (m_addr m + n) ap (Some f) rest) (then_do (CopyReservation fails query (m_addr m) n) s).
Proof.
  intros Hskip Ha Hr n. pose proof Hlaid as (Hlo & Hsz & _ & Hl). destruct Hside as (_ & HF & _).
  pose proof (span_nonneg _ _ _ Hl) as Hnn. assert (Hn : n = m_size m + span lo' 0 rest) by (unfold n, lo'; apply span_add). unfold lo' in *.
  assert (Hleft : left_out f = false) by (unfold reservation in Hr; by destruct (left_out f)).
  assert (Him : image f = false) by (unfold image; by rewrite Hr, andb_false_r).
  assert (Hpriv : private f = false) by (unfold private; by rewrite Hr, andb_false_r).
  assert (Hfree : forall q, m_addr m <= q < m_addr m + n -> C0 q = Free).
  { intros q Hqq. destruct (decide (q < m_addr m + m_size m)).
    - pose proof (Forall_inv Hpages q ltac:(unfold inside; lia)) as Hm. fold f in Hm. by rewrite Hleft, Hr in Hm.
    - eapply (span_pieces P0 C0 (m_addr m + m_size m) f rest q); [exact Hl|by inversion Hpages|lia|done|done]. }
  split.
  - split; [cbn [is_private]; by rewrite Hpriv|]. unfold with_reservation. split.
    + intros q Hqq. destruct (within_spec (m_addr m) n q); [lia|]. apply HF. lia.
    + rewrite Hr. split; [lia|]. intros q Hqq. by destruct (within_spec (m_addr m) n q); [|lia].
  - eapply step_case; [exact Hs|unfold then_do; intros E; by rewrite E|]. intros Hok Hi.
    pose proof (untouched _ _ _ _ _ _ _ _ _ _ _ Hi Hskip Hlo (or_introl Ha)) as Hu. destruct Hi as (HP & HD & _).
    eapply (then_do_holds (fun P C => (forall q, P q = P0 q) /\ forall q, C q = child s q)); [unfold holds; by rewrite Hok|].
    intros s' [HP' HC']. assert (Hf : forall q, m_addr m <= q < m_addr m + n -> child s q = Free) by (intros q Hqq; rewrite Hu by lia; by apply Hfree).
    pose proof (CopyReservation_holds P0 (child s) (m_addr m) n s' Hq HP' HC' Hf) as H. unfold holds2 in *. destruct (fst _); [|exact H].
    destruct H as [HP2 HC2]. split; [done|]. unfold with_reservation. split.
    + intros q g E. rewrite HC2. destruct (within_spec (m_addr m) n q); [by injection E|]. by apply HD.
    + intros q Hqq. rewrite HC2. cbn [is_private]. rewrite Hpriv. cbn [andb]. destruct (within_spec (m_addr m) n q); [lia|]. apply Hu. lia.
Qed.
End steps.

Lemma kinds f : left_out f = true \/ reservation f = true \/ image f = true \/ private f = true.
Proof. unfold private. destruct (left_out f), (reservation f), (image f); auto. Qed.

Lemma loop_holds P0 C0 maps F lo skip ap before s :
  query_runs -> prot2nt_ok -> laid lo before maps -> Forall (pages_ok P0 C0) maps -> loop_side P0 F lo skip ap before maps ->
  holds (loop_inv P0 C0 F lo skip ap before maps) s -> holds (loop_end P0 F maps) (loop maps ap skip s).
Proof.
  intros Hq Hnt. revert F lo skip ap before s. induction maps as [|m rest IH]; intros F lo skip ap before s Hl Hp Hside Hs.
  { eapply holds_mono; [exact Hs|]. intros P C (HP & HD & _). by split_and!. }
  cbn [copy_maps]. pose proof Hl as (Hlo & Hsz & Hpiece & Hl'). pose proof (Forall_inv_tail Hp) as Hp'. set (f := m_flags m) in *.
  pose proof Hside as (_ & HF & _). assert (Hty : m_type MAP_TYPE m = Z.land f MAP_TYPE) by done.
  destruct (Z.ltb_spec (m_addr m) skip) as [Hlt|Hskip].
  { destruct (step_reserved P0 C0 m rest F lo skip ap before s Hl Hside Hs Hlt) as (H1 & H2 & H3).
    eapply holds_mono; [by apply (IH F _ skip ap _ s Hl' Hp' H1 H2)|]. apply loop_end_cons; [done|]. intros q Hqq.
    right. right. destruct (H3 q Hqq) as [-> Hr]. by rewrite Hr. }
  assert (Hins : forall q, inside m q -> F q = None) by (intros q Hqq; apply HF; unfold inside in Hqq; lia).
  destruct (left_out f) eqn:Hleft.
  { destruct (step_left_alone P0 C0 m rest F lo skip ap before s Hl Hside Hs Hskip (or_introl Hleft)) as [H1 H2].
    assert (E : forall a b : fk, (if m_type MAP_TYPE m =? MAP_SHARED then a else if has f MAP_NOFORK && negb (m_type MAP_TYPE m =? MAP_FILE) then a else b) = a).
    { intros a b. rewrite Hty. unfold left_out in Hleft. destruct (_ =? MAP_SHARED); [done|]. cbn [orb] in Hleft. by rewrite Hleft. }
    rewrite E. eapply holds_mono; [by apply (IH F _ skip ap _ s Hl' Hp' H1 H2)|]. apply loop_end_cons; [done|]. intros q _. left. exact Hleft. }
  assert (E : forall a b c : fk, (if m_type MAP_TYPE m =? MAP_SHARED then a else if has f MAP_NOFORK && negb (m_type MAP_TYPE m =? MAP_FILE) then b else c) = c).
  { intros a b c. rewrite Hty. unfold left_out in Hleft. by apply orb_false_iff in Hleft as [-> ->]. }
  rewrite E. clear E.
  assert (Hwhole : forall ap' s', private f = false \/ has ap' PROT_WRITE = true -> reservation f = false ->
    loop_side P0 (done_with m F P0) (m_addr m + m_size m) skip ap' (Some f) rest ->
    holds (loop_inv P0 C0 (done_with m F P0) (m_addr m + m_size m) skip ap' (Some f) rest) s' ->
    holds (loop_end P0 F (m :: rest)) (loop rest ap' skip s')).
  { intros ap' s' _ Hr H1 H2. eapply holds_mono; [by apply (IH (done_with m F P0) _ skip ap' _ s' Hl' Hp' H1 H2)|]. apply loop_end_cons.
    - intros q g Eg. unfold done_with. destruct (within_spec (m_addr m) (m_size m) q) as [Hw|]; [|done]. rewrite (Hins q Hw) in Eg. done.
    - intros q Hqq. right. right. fold f. rewrite Hr. unfold done_with. by destruct (within_spec (m_addr m) (m_size m) q). }
  assert (Hpage : private f = true \/ image f = true /\ has (m_prot m) PROT_EXEC = false ->
    forall q, inside m q -> exists d, P0 q = Committed (prot2nt (m_prot m)) d).
  { intros Hk q Hqq. pose proof (Forall_inv Hp q Hqq) as Hm. fold f in Hm. rewrite Hleft in Hm.
    destruct Hk as [Hk|[Hk Hx]].
    - unfold private in Hk. rewrite !andb_true_iff, !negb_true_iff in Hk. destruct Hk as [[_ Hk1] Hk2]. rewrite Hk1, Hk2 in Hm. by destruct Hm.
    - assert (Hr : reservation f = false) by (unfold image in Hk; destruct (reservation f); [by rewrite andb_false_r in Hk|done]).
      rewrite Hr, Hk in Hm. by apply Hm. }
  destruct Hnt as (Hnt1 & Hnt2 & Hnt3 & Hnt4). assert (Hnt : prot2nt_ok) by done.
  destruct (kinds f) as [Hk|[Hk|[Hk|Hk]]]; [congruence| | |].
  - (* a reservation *)
    destruct (m_alloc m) eqn:Ea; cbn [negb].
    2:{ destruct (Hpiece eq_refl) as (-> & E1 & _). destruct Hside as (_ & _ & Hb). rewrite Hk in Hb. cbn [span] in Hb. rewrite Ea in Hb. cbn [negb andb] in Hb.
        rewrite (proj2 (Z.eqb_eq _ _)) in Hb by lia. rewrite span_add in Hb. replace (lo + (0 + m_size m)) with (m_addr m + m_size m) in Hb by lia.
        pose proof (span_nonneg _ _ _ Hl'). lia. }
    assert (Hb : has f MAP_APE_RESERVE = true) by (unfold reservation in Hk; by apply andb_true_iff in Hk as [_ Hk]). rewrite Hb.
    destruct (step_reservation P0 C0 m rest F lo skip ap before s Hq Hl Hp Hside Hs Hskip Ea Hk) as [H1 H2].
    eapply holds_mono; [by apply (IH _ _ _ ap _ _ Hl' Hp' H1 H2)|]. apply loop_end_cons; unfold with_reservation.
    + intros q g Eg. destruct (within_spec (m_addr m) (span (m_addr m) (m_size m) rest) q) as [Hw|]; [|done]. rewrite HF in Eg by lia. done.
    + intros q Hqq. right. right. fold f. rewrite Hk. pose proof (span_nonneg _ _ _ Hl'). unfold inside in Hqq. rewrite span_add.
      by destruct (within_spec (m_addr m) (m_size m + span (m_addr m + m_size m) 0 rest) q); [|lia].
  - (* a segment of the image *)
    destruct (m_alloc m) eqn:Ea; cbn [negb]; [|destruct (Hpiece eq_refl) as (_ & _ & Hx); fold f in Hx; congruence].
    pose proof Hk as Hi. unfold image in Hi. rewrite !andb_true_iff, !negb_true_iff in Hi. destruct Hi as [[[_ Hr] Hn] Ht].
    assert (Hb : has f MAP_APE_RESERVE = false) by (unfold reservation in Hr; rewrite Hleft in Hr; exact Hr).
    rewrite Hty, Hb, Hn, Ht. cbn [andb].
    assert (Hpriv : private f = false) by (unfold private; rewrite Hk; by rewrite andb_false_r).
    destruct (has (m_prot m) PROT_EXEC) eqn:Hx.
    { destruct (step_left_alone P0 C0 m rest F lo skip ap before s Hl Hside Hs Hskip (or_intror Hk)) as [H1 H2].
      eapply holds_mono; [by apply (IH F _ skip ap _ s Hl' Hp' H1 H2)|]. apply loop_end_cons; [done|]. intros q _. right. left. fold f. by rewrite Hk, Hx. }
    destruct (ready_image P0 C0 m rest F lo skip ap before s Hl Hp Hside Hs Hskip Ea Hk Hx) as [Hr1 Hr2].
    destruct (has (m_prot m) PROT_WRITE) eqn:Hw; cbn [negb].
    + destruct (step_contents P0 C0 m rest F lo skip ap before Hnt Hl Hside (prot2nt (m_prot m)) (m_prot m) s) as [H1 H2]; try done.
      * apply Hpage. by right.
      * by apply Hnt3.
      * fold f. rewrite Hpriv. exact Hr1.
      * apply Hwhole; [by right|done|exact H1|exact H2].
    + match goal with |- holds _ (loop _ _ _ (copy_map _ _ _ _ ?s1)) => destruct (step_contents P0 C0 m rest F lo skip ap before Hnt Hl Hside kNtPageReadwrite (Z.lor PROT_READ PROT_WRITE) s1) as [H1 H2] end; try done.
      * apply Hpage. by right.
      * intros Ep. rewrite Ep in Hw. done.
      * fold f. rewrite Hpriv. exact Hr2.
      * apply Hwhole; [by left|done|exact H1|exact H2].
  - (* private memory *)
    pose proof Hk as Hi. unfold private in Hi. rewrite !andb_true_iff, !negb_true_iff in Hi. destruct Hi as [[_ Hr] Hni].
    destruct (m_alloc m) eqn:Ea; cbn [negb].
    + assert (Hb : has f MAP_APE_RESERVE = false) by (unfold reservation in Hr; rewrite Hleft in Hr; exact Hr). rewrite Hb.
      assert (Hi : has f MAP_NOFORK && (m_type MAP_TYPE m =? MAP_FILE) = false).
      { unfold image in Hni. rewrite Hleft, Hr in Hni. exact Hni. } rewrite Hi.
      assert (Hgo : forall ap', has ap' PROT_WRITE = true ->
        holds (loop_end P0 F (m :: rest)) (loop rest ap' skip (copy_map fails prot2nt m ap' (then_call fails (alloc_child (m_addr m) (span (m_addr m) (m_size m) rest) (prot2nt ap')) s)))).
      { intros ap' Hw. match goal with |- holds _ (loop _ _ _ (copy_map _ _ _ _ ?s1)) => destruct (step_contents P0 C0 m rest F lo skip ap before Hnt Hl Hside (prot2nt ap') ap' s1) as [H1 H2] end; try done.
        * apply Hpage. by left.
        * by apply Hnt3.
        * by intros ->.
        * exact (ready_head P0 C0 m rest F lo skip ap before s Hl Hp Hside Hs ap' Hskip Ea Hk).
        * apply Hwhole; [by right|done|exact H1|exact H2]. }
      destruct (has ap PROT_WRITE) eqn:Hw; cbn [negb]; [by apply Hgo|]. rewrite <- Hnt1. by apply Hgo.
    + destruct (ready_piece P0 C0 m rest F lo skip ap before s Hl Hside Hs Hskip Ea Hk) as [Hready Hw].
      destruct (step_contents P0 C0 m rest F lo skip ap before Hnt Hl Hside (prot2nt ap) ap s) as [H1 H2]; try done.
      * apply Hpage. by left.
      * by apply Hnt3.
      * by intros ->.
      * apply Hwhole; [by right|done|exact H1|exact H2].
Qed.

(** ** The slabs, and what the loop keeps of them *)

Context (MAPS_SIZE : Z).

Definition in_slab (a q : Z) : Prop := a <= q < a + MAPS_SIZE.

(** A slab is memory of the parent's that no map tells of. *)
Definition slab_ok (P0 C0 : space) (maps : list mapping) (a : Z) : Prop :=
  forall q, in_slab a q -> (exists d, P0 q = Committed kNtPageReadwrite d) /\ C0 q = Free /\ Forall (fun m => ~ inside m q) maps.

Fixpoint apart (slabs : list Z) : Prop :=
  match slabs with
  | [] => True
  | a :: next => Forall (fun b => a + MAPS_SIZE <= b \/ b + MAPS_SIZE <= a) next /\ apart next
  end.

Lemma copy_slabs_holds P0 C0 maps slabs s :
  Forall (slab_ok P0 C0 maps) slabs -> apart slabs ->
  holds (fun P C => (forall q, P q = P0 q) /\ forall q, C q = C0 q) s ->
  holds (fun P C => (forall q, P q = P0 q) /\ (forall q, Exists (fun a => in_slab a q) slabs -> C q = P0 q) /\
                    (forall q, ~ Exists (fun a => in_slab a q) slabs -> C q = C0 q)) (copy_slabs fails MAPS_SIZE slabs s).
Proof.
  revert C0 s. induction slabs as [|a slabs IH]; intros C0 s Hok Hap Hs; cbn [copy_slabs].
  { eapply holds_mono; [exact Hs|]. intros P C [HP HC]. split_and!; [done|by intros q []%Exists_nil|by intros q _]. }
  destruct Hap as [Ha Hap]. pose proof (Forall_inv Hok) as Hslab. apply Forall_inv_tail in Hok.
  set (C1 := fun q => if within a MAPS_SIZE q then P0 q else C0 q).
  eapply holds_mono; [apply (IH C1); [|done|]|].
  - rewrite Forall_forall in Ha, Hok |- *. intros b Hb q Hq. destruct (Hok b Hb q Hq) as (Hd & Hf & Hm). split_and!; [done| |done].
    unfold C1. specialize (Ha b Hb). unfold in_slab in Hq. by destruct (within_spec a MAPS_SIZE q); [lia|].
  - eapply (then_call_holds (fun P C => (forall q, P q = P0 q) /\ forall q, C q = if within a MAPS_SIZE q then Committed kNtPageReadwrite 0 else C0 q)).
    + eapply then_call_holds; [exact Hs|]. intros P C [HP HC]. unfold alloc_child.
      rewrite all_range_true by (intros q Hq; rewrite HC; by destruct (Hslab q Hq) as (_ & -> & _)).
      eexists _, _. split; [done|]. split; [done|]. intros q. unfold on_range, within. by rewrite HC.
    + intros P C [HP HC]. unfold write_child. rewrite !all_range_true.
      * eexists _, _. split; [done|]. split; [done|]. intros q. change ((a <=? q) && (q <? a + MAPS_SIZE)) with (within a MAPS_SIZE q).
        rewrite HP, HC. unfold C1. destruct (within_spec a MAPS_SIZE q) as [Hq|]; [|done]. by destruct (Hslab q Hq) as ([d ->] & _).
      * intros q Hq. rewrite HC. by destruct (within_spec a MAPS_SIZE q).
      * intros q Hq. rewrite HP. by destruct (Hslab q Hq) as ([d ->] & _).
  - intros P C (HP & Hin & Hout). split; [done|]. unfold C1 in Hout. split; intros q Hq.
    + destruct (decide (Exists (fun b => in_slab b q) slabs)) as [He|He]; [by apply Hin|]. rewrite Hout by done.
      destruct (within_spec a MAPS_SIZE q); [done|]. by apply Exists_cons in Hq as [Hq|Hq].
    + rewrite Exists_cons in Hq. rewrite Hout by tauto. destruct (within_spec a MAPS_SIZE q); [|done]. unfold in_slab in Hq. tauto.
Qed.

#[local] Ltac kept H :=
  first [exact (proj1 (H 0)) | exact (proj1 (proj2 (H _))) | exact (proj1 (proj2 (proj2 (H _)))) | exact (proj1 (proj2 (proj2 (proj2 (H _)))))
        | exact (proj1 (proj2 (proj2 (proj2 (proj2 (H _)))))) | exact (proj2 (proj2 (proj2 (proj2 (proj2 (H 0))))))].

(** A call leaves the child's page [q] as it is. *)
Definition keeps (q : Z) (f : op) : Prop := forall p c p' c', f p c = Some (p', c') -> c' q = c q.

Lemma keeps_outside q a n pr : ~ (a <= q < a + n) ->
  keeps q (reserve_child a n) /\ keeps q (commit_child a n pr) /\ keeps q (alloc_child a n pr) /\
  keeps q (protect_parent a n pr) /\ keeps q (protect_child a n pr) /\ keeps q (write_child a n).
Proof.
  intros Hq. unfold keeps, reserve_child, commit_child, alloc_child, protect_parent, protect_child, write_child, on_range.
  split_and!; intros p c p' c'; (destruct (_ : bool); [|done]); intros [= <- <-]; try done;
    change ((a <=? q) && (q <? a + n)) with (within a n q); by destruct (within_spec a n q).
Qed.

Lemma call_keeps q f s : keeps q f -> child (call fails f s).2 q = child s q.
Proof.
  intros Hf. unfold call. destruct (fails _); [done|]. destruct (f (parent s) (child s)) as [[p c]|] eqn:E; [|done]. by apply (Hf _ _ _ _ E).
Qed.

Lemma then_do_keeps q g s : child (g s).2 q = child s q -> child (then_do g s) q = child s q.
Proof. unfold then_do. destruct (ok s); [|done]. by destruct (g s). Qed.

Lemma copy_run_keeps q p n prot s : ~ (p <= q < p + n) -> child (copy_run fails p n prot s).2 q = child s q.
Proof.
  intros Hq. assert (H : forall f s s' b, call fails f s = (b, s') -> keeps q f -> child s' q = child s q).
  { intros f s1 s2 b E Hf. by rewrite <- (call_keeps q f s1 Hf), E. }
  pose proof (fun pr => keeps_outside q p n pr Hq) as Hk. unfold copy_run.
  repeat match goal with
    | |- context [call fails ?f ?s] =>
        let E := fresh "E" in destruct (call fails f s) as [[] ?] eqn:E; cbn [negb andb fst snd]; apply H in E; try kept Hk
    | |- context [if ?b then _ else _] => destruct b; cbn [negb andb fst snd]
    end; congruence.
Qed.

Lemma copy_runs_keeps q fuel p stop s : query_runs -> ~ (p <= q < stop) -> child (copy_runs fails query fuel p stop s).2 q = child s q.
Proof.
  intros Hr. revert p s. induction fuel as [|fuel IH]; intros p s Hq; cbn [copy_runs]; destruct (Z.leb_spec stop p); try done.
  destruct (Hr (parent s) p) as (re & -> & Hlt & _).
  assert (H1 : child (match parent s p with Committed prot _ => copy_run fails p (Z.min re stop - p) prot s | _ => (true, s) end).2 q = child s q).
  { destruct (parent s p); [done..|]. apply copy_run_keeps. lia. }
  destruct (match parent s p with Committed _ _ => _ | _ => _ end) as [[] s1]; [|done]. cbn [snd] in H1. rewrite <- H1. apply IH. lia.
Qed.

Lemma CopyReservation_keeps q a n s : query_runs -> ~ (a <= q < a + n) -> child (CopyReservation fails query a n s).2 q = child s q.
Proof.
  intros Hr Hq. unfold CopyReservation. pose proof (call_keeps q (reserve_child a n) s ltac:(by apply (keeps_outside q a n 0))) as H1.
  destruct (call fails (reserve_child a n) s) as [[] s1]; cbn [snd] in H1; [|done]. rewrite <- H1. by apply copy_runs_keeps.
Qed.

Lemma copy_map_keeps q m ap s : ~ inside m q -> child (copy_map fails prot2nt m ap s) q = child s q.
Proof.
  intros Hq. pose proof (fun pr => keeps_outside q (m_addr m) (m_size m) pr Hq) as Hk.
  assert (H : forall f s, keeps q f -> child (then_call fails f s) q = child s q) by (intros f s1 Hf; apply then_do_keeps; by apply call_keeps).
  unfold copy_map. cbv zeta. destruct (has (m_prot m) PROT_READ), (m_prot m =? ap); rewrite ?H by kept Hk; done.
Qed.

Lemma span_outside q lo before rest : laid lo before rest -> Forall (fun m => ~ inside m q) rest -> ~ (lo <= q < lo + span lo 0 rest).
Proof.
  intros Hl Hq. revert lo before Hl. induction Hq as [|m rest Hm _ IH]; intros lo before Hl; cbn [span]; [lia|].
  destruct Hl as (_ & _ & _ & Hl). destruct (_ && _) eqn:E; [|lia]. apply andb_true_iff in E as [_ E%Z.eqb_eq].
  rewrite span_add. replace (lo + (0 + m_size m)) with (m_addr m + m_size m) by lia. specialize (IH _ _ Hl). unfold inside in Hm. lia.
Qed.

(** The loop leaves pages that no map tells of as they are, and does not come
    back from a failure. *)
Lemma loop_keeps q maps lo before ap skip s :
  query_runs -> laid lo before maps -> Forall (fun m => ~ inside m q) maps -> child (loop maps ap skip s) q = child s q.
Proof.
  intros Hr Hl Hq. revert lo before ap skip s Hl. induction Hq as [|m rest Hm Hrest IH]; intros lo before ap skip s Hl; [done|].
  destruct Hl as (_ & _ & _ & Hl). cbn [copy_maps].
  assert (Hspan : ~ (m_addr m <= q < m_addr m + span (m_addr m) (m_size m) rest)).
  { pose proof (span_outside q _ _ _ Hl Hrest). rewrite span_add. unfold inside in Hm. lia. }
  pose proof (fun pr => keeps_outside q _ _ pr Hspan) as Hk.
  assert (H : forall f s, keeps q f -> child (then_call fails f s) q = child s q) by (intros f s1 Hf; apply then_do_keeps; by apply call_keeps).
  repeat match goal with |- context [if ?b then _ else _] => destruct b end;
    rewrite (IH _ _ _ _ _ Hl), ?copy_map_keeps by done; try done; rewrite ?H by kept Hk; try done.
  apply then_do_keeps. by apply CopyReservation_keeps.
Qed.

Lemma then_do_off g s : ok s = false -> then_do g s = s.
Proof. unfold then_do. by intros ->. Qed.

Lemma loop_off maps ap skip s : ok s = false -> ok (loop maps ap skip s) = false.
Proof.
  revert ap skip s. induction maps as [|m rest IH]; intros ap skip s Hs; [done|]. cbn [copy_maps].
  repeat match goal with |- context [if ?b then _ else _] => destruct b end;
    apply IH; try apply copy_map_off; rewrite ?then_do_off, ?then_call_off by done; done.
Qed.

Lemma after_slabs slabs maps started own s :
  query_runs -> prot2nt_ok -> laid 0 None maps -> Forall (pages_ok own started) maps -> Forall (slab_ok own started maps) slabs ->
  holds (fun P C => (forall q, P q = own q) /\ (forall q, Exists (fun a => in_slab a q) slabs -> C q = own q) /\
                    (forall q, ~ Exists (fun a => in_slab a q) slabs -> C q = started q)) s ->
  holds (fun P C => loop_end own (fun _ => None) maps P C /\ forall q, Exists (fun a => in_slab a q) slabs -> C q = own q) (loop maps (-1) 0 s).
Proof.
  intros Hq Hnt Hl Hp Hslab Hs.
  assert (Hout : forall q, Exists (fun a => in_slab a q) slabs -> Forall (fun m => ~ inside m q) maps).
  { intros q (a & Ha & Hqa)%Exists_exists. rewrite Forall_forall in Hslab. by apply (Hslab a Ha q Hqa). }
  destruct (ok s) eqn:Eo; unfold holds in Hs; rewrite Eo in Hs; [|unfold holds; by rewrite loop_off]. destruct Hs as (HP & Hin & Hrest).
  assert (H1 : holds (loop_end own (fun _ => None) maps) (loop maps (-1) 0 s)).
  { apply (loop_holds own (child s) maps (fun _ => None) 0 0 (-1) None); try done.
    - apply Forall_forall. intros m Hm q Hqm. rewrite Forall_forall in Hp. rewrite Hrest; [by apply Hp|].
      intros He. specialize (Hout q He). rewrite Forall_forall in Hout. by apply (Hout m Hm).
    - unfold holds. rewrite Eo. split_and!; done. }
  unfold holds in *. destruct (ok (loop maps (-1) 0 s)); [|done]. split; [done|]. intros q He. rewrite (loop_keeps q maps 0 None) by auto. by apply Hin.
Qed.

(** C35: a fork that answers a pid has copied everything: each page of private
    memory is in the child as it is in the parent, contents and protection, a
    reservation page by page as far as it is committed, so are the slabs the
    table of maps itself is kept in, and the parent's own memory, opened on
    the way where it could not be read, is as it was. And when none of the
    system's calls fails, the fork does answer a pid: it never reads a page it
    cannot read or writes one it cannot write. *)
Theorem fork_copies slabs maps pid no_memory started own :
  query_runs -> prot2nt_ok -> laid 0 None maps -> Forall (pages_ok own started) maps ->
  Forall (slab_ok own started maps) slabs -> apart slabs ->
  let r := fork_parent fails query prot2nt MAP_TYPE MAP_SHARED MAP_FILE MAP_NOFORK MAP_APE_RESERVE MAPS_SIZE slabs maps pid no_memory started own in
  (r.1 = Running pid ->
     (forall q, parent r.2 q = own q) /\ Forall (arrived own (child r.2)) maps /\
     forall q, Exists (fun a => in_slab a q) slabs -> child r.2 q = own q) /\
  ((forall n, fails n = false) -> r.1 = Running pid).
Proof.
  intros Hq Hnt Hl Hp Hslab Hap r. unfold r, fork_parent.
  pose proof (copy_slabs_holds own started maps slabs (Fk own started 0 true) Hslab Hap) as H0. specialize (H0 (conj (fun q => eq_refl) (fun q => eq_refl))).
  set (s0 := copy_slabs _ _ _ _) in *. clearbody s0.
  set (Inv := fun P C => loop_end own (fun _ => None) maps P C /\ forall q, Exists (fun a => in_slab a q) slabs -> C q = own q).
  assert (H1 : holds Inv (loop maps (-1) 0 s0)) by (apply after_slabs with started; done).
  set (s := loop maps (-1) 0 s0) in *. clearbody s.
  assert (H2 : holds Inv (then_call fails nothing s)) by (eapply then_call_holds; [exact H1|]; intros P C H; by exists P, C).
  set (s1 := then_call fails nothing s) in *. clearbody s1.
  unfold call, nothing. unfold holds in H2. destruct (fails (calls s1)) eqn:Ef; cbn [fst snd ok parent child].
  - rewrite andb_false_r. split; [done|]. intros Hall. by rewrite Hall in Ef.
  - rewrite andb_true_r. destruct (ok s1) eqn:Eo; cbn [fst snd].
    + split; [|done]. intros _. destruct H2 as ((HP & _ & Ha) & Hs). done.
    + split; [done|]. intros Hall. destruct H2 as [n Hn]. by rewrite Hall in Hn.
Qed.
End copies.

(** ** Concrete inputs *)

Definition toy_nt (p : Z) : Z := if has p 2 then 4 else if has p 1 then 2 else 1.
(** A query that answers page by page. *)
Definition toy_query (m : space) (p : Z) : option Z := Some (p + 1).

(** A private mapping in two pieces, the second without access; a reservation
    of three pages of which one is committed and one a guard page; shared
    memory; and a read-only segment of the image. Two slabs of two pages. *)
Definition toy_maps : list mapping :=
  [Map 10 2 3 2 true; Map 12 1 0 2 false; Map 20 3 0 0x20000002 true; Map 30 1 3 1 true; Map 40 1 1 0x10000000 true].
Definition toy_slabs : list Z := [50; 60].
Definition toy_own : space := fun q =>
  if (10 <=? q) && (q <? 12) then Committed 4 (100 + q)
  else if q =? 12 then Committed 1 112
  else if q =? 20 then Reserved
  else if q =? 21 then Committed 4 121
  else if q =? 22 then Committed 0x104 122
  else if q =? 30 then Committed 4 130
  else if (50 <=? q) && (q <? 52) || (60 <=? q) && (q <? 62) then Committed 4 (100 + q)
  else if q =? 40 then Committed 2 140
  else Free.
Definition toy_started : space := fun q => if q =? 40 then Committed 2 0 else Free.
Definition toy_fork (fails : nat -> bool) : forked * fk :=
  fork_parent fails toy_query toy_nt 15 1 0 0x10000000 0x20000000 2 toy_slabs toy_maps 77 false toy_started toy_own.

Example fork_copies_toy :
  (toy_fork (fun _ => false)).1 = Running 77 /\
  List.map (child (toy_fork (fun _ => false)).2) [10; 11; 12; 20; 21; 22; 30; 40; 51; 60] =
  [Committed 4 110; Committed 4 111; Committed 1 112; Reserved; Committed 4 121; Committed 0x104 122; Free; Committed 2 140; Committed 4 151; Committed 4 160].
Proof. vm_compute. done. Qed.

(** A copy that fails while a page without access is open leaves it open in
    the parent: the protection is only put back while all goes well. *)
Example failed_fork_leaves_page_open :
  let r := toy_fork (fun n => (n =? 8)%nat) in
  r.1 = Terminated EAGAIN /\ toy_own 12 = Committed 1 112 /\ parent r.2 12 = Committed 4 112.
Proof. vm_compute. done. Qed.

Lemma fork_copies_witness :
  (toy_fork (fun _ => false)).1 = Running 77 /\ (forall q, parent (toy_fork (fun _ => false)).2 q = toy_own q) /\
  Forall (arrived 15 1 0 0x10000000 0x20000000 toy_own (child (toy_fork (fun _ => false)).2)) toy_maps /\
  forall q, Exists (fun a => in_slab 2 a q) toy_slabs -> child (toy_fork (fun _ => false)).2 q = toy_own q.
Proof.
  destruct (fork_copies (fun _ => false) toy_query toy_nt 15 1 0 0x10000000 0x20000000 2 toy_slabs toy_maps 77 false toy_started toy_own) as [H1 H2].
  - intros m p. exists (p + 1). split; [reflexivity|]. split; [lia|]. intros q Hq. by replace q with p by lia.
  - split; [reflexivity|]. unfold toy_nt. split_and!; intros p; [intros Hr; destruct (has p 2); [reflexivity|]; unfold PROT_READ in Hr; by rewrite Hr
      |unfold PROT_WRITE; intros ->; reflexivity|destruct (has p 2), (has p 1); reflexivity].
  - cbn [laid toy_maps m_addr m_size m_alloc m_flags]. split_and!; try lia; try discriminate; try (intros _); split_and!; try reflexivity; try lia.
  - unfold toy_maps. apply Forall_forall. intros m Hm%list_elem_of_In. cbn [In] in Hm. destruct Hm as [<-|[<-|[<-|[<-|[<-|[]]]]]]; intros q Hq; unfold inside in Hq; cbn in Hq |- *; try exact I.
    + split; [|unfold toy_started; by rewrite (proj2 (Z.eqb_neq q 40)) by lia]. exists (100 + q). unfold toy_own.
      by rewrite (proj2 (Z.leb_le 10 q)), (proj2 (Z.ltb_lt q 12)) by lia.
    + replace q with 12 by lia. split; [by exists 112|reflexivity].
    + unfold toy_started. by rewrite (proj2 (Z.eqb_neq q 40)) by lia.
    + intros _. replace q with 40 by lia. split; [by exists 140|by exists 0].
  - unfold toy_slabs. apply Forall_forall. intros a Ha%list_elem_of_In. cbn [In] in Ha. destruct Ha as [<-|[<-|[]]]; intros q Hq; unfold in_slab in Hq.
    + assert (E : q = 50 \/ q = 51) by lia. destruct E as [-> | ->]; (split_and!; [by eexists|reflexivity|repeat constructor; unfold inside; cbn; lia]).
    + assert (E : q = 60 \/ q = 61) by lia. destruct E as [-> | ->]; (split_and!; [by eexists|reflexivity|repeat constructor; unfold inside; cbn; lia]).
  - cbn. split_and!; repeat constructor; lia.
  - split; [apply H2; reflexivity|]. apply H1, H2. reflexivity.
Defined.
