(* ===== verification/ForkChild.v ===== *)
(** * fork-nt.c, the child's half

    The new process has the parent's table of maps and, page by page, its
    private memory ([ForkNt]); shared memory it maps again from the handles it
    inherited, with the protection each map had. Maps that are not to be
    inherited are dropped. The run-time's own start-up around the walk (thread
    locals, Winsock, the standard handles) is left out. The theorems: a child that starts up shows every
    shared object at its address and offset, with its protection, and keeps
    what the parent copied; and when no call fails it starts up. *)
From S2P Require Import Prelude ForkNt.

(** The rest of struct Map; offsets count pages like addresses. *)
Record child_map := CMap { cm : mapping; c_hand : Z; c_iscow : bool; c_readonlyfile : bool; c_off : Z }.

(** MapViewOfFileEx *)
Inductive view := Viewed | AccessDenied | ViewFails.

Section child.
Context (prot2nt : Z -> Z) (MAP_TYPE MAP_SHARED MAP_FILE MAP_NOFORK MAPS_VIRTUAL : Z).
(** A page of the object behind a handle; whether it can be mapped, for
    writing and to be executed; whether a protection can be set. *)
Context (object : Z -> Z -> Z) (try_view : Z -> bool -> bool -> view) (can_protect : mapping -> bool).

(** ViewOrDie: denied with the right to execute, it is tried without. *)
Definition view_or_die (hand : Z) (writable : bool) : bool :=
  match try_view hand writable true with
  | Viewed => true
  | AccessDenied => match try_view hand writable false with Viewed => true | _ => false end
  | ViewFails => false
  end.

Definition VIEW : Z := kNtPageReadwrite.

Definition map_view (addr n hand off : Z) (mem : space) : space :=
  fun q => if within addr n q then Committed VIEW (object hand (off + (q - addr))) else mem q.

Definition set_protection (a n prot : Z) (mem : space) : space :=
  on_range a n (fun g => match g with Committed _ d => Committed prot d | g => g end) mem.

(** The table, the handles that were closed, and memory; [None] is AbortFork. *)
Definition started : Type := list child_map * list Z * space.

(** A shared map that is inherited. *)
Definition is_shared (f : Z) : bool := negb (has f MAP_NOFORK) && (Z.land f MAP_TYPE =? MAP_SHARED).

(** One shared map: its allocation seen again, its protection set. *)
Definition resurrect (c : child_map) (rest : list child_map) (mem : space) : option space :=
  let m := cm c in
  let seen :=
    if m_alloc m then
      if view_or_die (c_hand c) (negb (c_readonlyfile c))
      then Some (map_view (m_addr m) (span (m_addr m) (m_size m) (map cm rest)) (c_hand c) (c_off c) mem) else None
    else Some mem in
  match seen with
  | None => None
  | Some mem => if can_protect m then Some (set_protection (m_addr m) (m_size m) (prot2nt (m_prot m)) mem) else None
  end.

(** A private map is a copy now and belongs to VirtualAlloc. *)
Definition private_now (c : child_map) : child_map * list Z :=
  if 0 <? c_hand c then (CMap (cm c) MAPS_VIRTUAL false (c_readonlyfile c) (c_off c), [c_hand c])
  else (CMap (cm c) (c_hand c) false (c_readonlyfile c) (c_off c), []).

Fixpoint sys_fork_nt_child (maps : list child_map) (mem : space) : option started :=
  match maps with
  | [] => Some ([], [], mem)
  | c :: rest =>
      let f := m_flags (cm c) in
      if has f MAP_NOFORK then
        '(kept, closed, mem) ← sys_fork_nt_child rest mem;
        Some (if negb (Z.land f MAP_TYPE =? MAP_FILE) then kept else c :: kept, closed, mem)
      else if negb (Z.land f MAP_TYPE =? MAP_SHARED) then
        '(kept, closed, mem) ← sys_fork_nt_child rest mem;
        Some (fst (private_now c) :: kept, snd (private_now c) ++ closed, mem)
      else
        mem ← resurrect c rest mem;
        '(kept, closed, mem) ← sys_fork_nt_child rest mem;
        Some (c :: kept, closed, mem)
  end.

(** Which page of which object each shared map shows: a piece that of the
    allocation it goes on. *)
Fixpoint shows (before : option (Z * Z * Z)) (maps : list child_map) : list (mapping * (Z * Z * Z)) :=
  match maps with
  | [] => []
  | c :: rest =>
      if is_shared (m_flags (cm c)) then
        let here := if m_alloc (cm c) then Some (m_addr (cm c), c_hand c, c_off c) else before in
        match here with Some h => (cm c, h) :: shows here rest | None => shows here rest end
      else shows None rest
  end.

Definition shown (mem : space) (s : mapping * (Z * Z * Z)) : Prop :=
  let '(m, (addr, hand, off)) := s in
  forall q, inside m q -> mem q = Committed (prot2nt (m_prot m)) (object hand (off + (q - addr))).

(** ** Lemmas *)

Context (MAP_APE_RESERVE : Z).
Notation laid := (laid MAP_TYPE MAP_SHARED MAP_FILE MAP_NOFORK MAP_APE_RESERVE).

Lemma set_protection_in a n prot mem q p d : a <= q < a + n -> mem q = Committed p d -> set_protection a n prot mem q = Committed prot d.
Proof. intros Hq Hm. unfold set_protection, on_range. rewrite (proj2 (andb_true_iff _ _)) by lia. by rewrite Hm. Qed.

Lemma set_protection_out a n prot mem q : ~ (a <= q < a + n) -> set_protection a n prot mem q = mem q.
Proof. intros Hq. unfold set_protection, on_range. by rewrite (proj2 (andb_false_iff _ _)) by lia. Qed.

Lemma map_view_in a n hand off mem q : a <= q < a + n -> map_view a n hand off mem q = Committed VIEW (object hand (off + (q - a))).
Proof. intros Hq. unfold map_view. by destruct (within_spec a n q). Qed.

Lemma map_view_out a n hand off mem q : ~ (a <= q < a + n) -> map_view a n hand off mem q = mem q.
Proof. intros Hq. unfold map_view. by destruct (within_spec a n q). Qed.

(** The pieces behind a map are maps with its flags. *)
Lemma span_covers maps q : forall lo f, laid lo (Some f) (map cm maps) -> lo <= q < lo + span lo 0 (map cm maps) ->
  exists c, c ∈ maps /\ m_flags (cm c) = f /\ inside (cm c) q.
Proof.
  induction maps as [| c maps IH]; intros lo f Hl Hq; cbn [map span] in Hq; [lia |]. destruct Hl as (Hlo & Hs & Hp & Hl).
  destruct (m_alloc (cm c)) eqn:Ha; cbn [negb andb] in Hq; [lia |]. destruct (Hp eq_refl) as ([= Hf] & Hlo' & _).
  destruct (Z.eqb_spec (lo + 0) (m_addr (cm c))); [| lia]. rewrite span_add in Hq.
  destruct (Z.lt_ge_cases q (m_addr (cm c) + m_size (cm c))).
  - exists c. split; [by left |]. split; [done |]. unfold inside. lia.
  - destruct (IH _ _ Hl) as (c' & Hc & Hf' & Hi); [replace (lo + (0 + m_size (cm c))) with (m_addr (cm c) + m_size (cm c)) in Hq by lia; lia |].
    exists c'. split; [by right |]. split; [congruence | done].
Qed.

(** What one shared map does to memory. *)
Lemma resurrect_spec c rest mem mem' : resurrect c rest mem = Some mem' ->
  let m := cm c in let n := span (m_addr m) (m_size m) (map cm rest) in
  let seen := if m_alloc m then map_view (m_addr m) n (c_hand c) (c_off c) mem else mem in
  forall q, mem' q = set_protection (m_addr m) (m_size m) (prot2nt (m_prot m)) seen q.
Proof.
  unfold resurrect. destruct (m_alloc (cm c)).
  - destruct (view_or_die _ _); [| done]. destruct (can_protect (cm c)); [| done]. by intros [= <-].
  - destruct (can_protect (cm c)); [| done]. by intros [= <-].
Qed.

(** One step of the walk. *)
Lemma child_step c rest mem r : sys_fork_nt_child (c :: rest) mem = Some r ->
  exists kept closed mem1 mem', sys_fork_nt_child rest mem1 = Some (kept, closed, mem') /\ r.2 = mem' /\
    r.1.1 = (if has (m_flags (cm c)) MAP_NOFORK then if negb (Z.land (m_flags (cm c)) MAP_TYPE =? MAP_FILE) then kept else c :: kept
             else if is_shared (m_flags (cm c)) then c :: kept else fst (private_now c) :: kept) /\
    (if is_shared (m_flags (cm c)) then resurrect c rest mem = Some mem1 else mem1 = mem).
Proof.
  cbn [sys_fork_nt_child]. unfold is_shared. destruct (has (m_flags (cm c)) MAP_NOFORK); cbn [negb andb].
  - destruct (sys_fork_nt_child rest mem) as [[[k cl] m'] |] eqn:E; [| done]. intros [= <-]. by exists k, cl, mem, m'.
  - destruct (Z.land _ _ =? MAP_SHARED); cbn [negb].
    + destruct (resurrect c rest mem) as [m1 |]; [| done]. cbn [mbind option_bind].
      destruct (sys_fork_nt_child rest m1) as [[[k cl] m'] |] eqn:E; [| done]. intros [= <-]. by exists k, cl, m1, m'.
    + destruct (sys_fork_nt_child rest mem) as [[[k cl] m'] |] eqn:E; [| done]. intros [= <-]. by exists k, cl, mem, m'.
Qed.

(** Memory outside the shared maps is left alone. *)
Lemma child_keeps maps : forall lo b mem r, laid lo b (map cm maps) -> sys_fork_nt_child maps mem = Some r ->
  forall q, (forall c, c ∈ maps -> is_shared (m_flags (cm c)) = true -> ~ inside (cm c) q) -> r.2 q = mem q.
Proof.
  induction maps as [| c maps IH]; intros lo b mem r Hl Hr q Hq; [simpl in Hr; by injection Hr as <- |].
  destruct (child_step _ _ _ _ Hr) as (k & cl & m1 & m' & Hrest & -> & _ & Hone). destruct Hl as (Hlo & Hs & Hp & Hl).
  assert (Hq' : forall c', c' ∈ maps -> is_shared (m_flags (cm c')) = true -> ~ inside (cm c') q) by (intros c' Hc; apply Hq; by right).
  rewrite (IH _ _ _ _ Hl Hrest q Hq' : m' q = m1 q).
  destruct (is_shared (m_flags (cm c))) eqn:Hsh; [| by subst].
  assert (Hout : ~ inside (cm c) q) by (by apply Hq; [left |]). unfold inside in Hout.
  rewrite (resurrect_spec _ _ _ _ Hone q), set_protection_out by lia. destruct (m_alloc (cm c)); [| done].
  apply map_view_out. intros Hin. rewrite span_add in Hin.
  destruct (span_covers maps q _ _ Hl) as (c' & Hc' & Hf & Hi); [lia |]. apply (Hq' c' Hc'); [by rewrite Hf | done].
Qed.

Lemma laid_above maps : forall lo b c q, laid lo b (map cm maps) -> c ∈ maps -> inside (cm c) q -> lo <= q.
Proof.
  induction maps as [| c0 maps IH]; intros lo b c q Hl Hc Hi; [by apply elem_of_nil in Hc |]. destruct Hl as (Hlo & Hs & _ & Hl).
  apply elem_of_cons in Hc as [-> | Hc]; [unfold inside in Hi; lia |]. specialize (IH _ _ _ _ Hl Hc Hi). lia.
Qed.

(** The allocation in progress still shows its object. *)
Definition in_view (before : option (Z * Z * Z)) (b : option Z) (lo n : Z) (mem : space) : Prop :=
  match before with
  | Some (addr, hand, off) => forall q, lo <= q < lo + n -> exists p, mem q = Committed p (object hand (off + (q - addr)))
  | None => match b with Some f => is_shared f = false | None => True end
  end.

Lemma child_shows maps : forall before lo b mem r, laid lo b (map cm maps) ->
  in_view before b lo (span lo 0 (map cm maps)) mem -> sys_fork_nt_child maps mem = Some r -> Forall (shown r.2) (shows before maps).
Proof.
  induction maps as [| c maps IH]; intros before lo b mem r Hl Hv Hr; [constructor |].
  destruct (child_step _ _ _ _ Hr) as (k & cl & m1 & m' & Hrest & -> & _ & Hone). destruct Hl as (Hlo & Hs & Hp & Hl). cbn [shows].
  destruct (is_shared (m_flags (cm c))) eqn:Hsh; [| apply (IH None _ _ _ (k, cl, m') Hl ltac:(simpl; by rewrite Hsh) Hrest)].
  set (n := span (m_addr (cm c) + m_size (cm c)) 0 (map cm maps)).
  set (here := if m_alloc (cm c) then Some (m_addr (cm c), c_hand c, c_off c) else before).
  (* what the map and the rest of its allocation show after the step *)
  assert (Hview : exists addr hand off, here = Some (addr, hand, off) /\
    forall q, m_addr (cm c) <= q < m_addr (cm c) + m_size (cm c) + n ->
      m1 q = Committed (if bool_decide (q < m_addr (cm c) + m_size (cm c)) then prot2nt (m_prot (cm c))
                        else match m1 q with Committed p _ => p | _ => 0 end) (object hand (off + (q - addr)))).
  { pose proof (resurrect_spec _ _ _ _ Hone) as Hm. cbv zeta in Hm. unfold here.
    assert (Hseen : exists addr hand off, here = Some (addr, hand, off) /\ forall q, m_addr (cm c) <= q < m_addr (cm c) + m_size (cm c) + n ->
      exists p, (if m_alloc (cm c) then map_view (m_addr (cm c)) (span (m_addr (cm c)) (m_size (cm c)) (map cm maps)) (c_hand c) (c_off c) mem else mem) q
        = Committed p (object hand (off + (q - addr)))).
    { unfold here. destruct (m_alloc (cm c)) eqn:Ha.
      - exists (m_addr (cm c)), (c_hand c), (c_off c). split; [done |]. intros q Hq. exists VIEW. apply map_view_in. rewrite span_add. fold n. lia.
      - destruct (Hp eq_refl) as (-> & Hlo' & _). unfold in_view in Hv. destruct before as [[[addr hand] off] |]; [| congruence].
        exists addr, hand, off. split; [done |]. intros q Hq. apply Hv. cbn [map span]. rewrite Ha. cbn [negb andb].
        rewrite (proj2 (Z.eqb_eq (lo + 0) (m_addr (cm c)))) by lia. rewrite span_add.
        replace (lo + (0 + m_size (cm c))) with (m_addr (cm c) + m_size (cm c)) by lia. fold n. lia. }
    fold here. destruct Hseen as (addr & hand & off & Hh & Hseen). exists addr, hand, off. split; [done |]. intros q Hq.
    destruct (Hseen q Hq) as [p Hpq]. rewrite (Hm q). case_bool_decide.
    - apply (set_protection_in _ _ _ _ _ p); [lia | done].
    - rewrite set_protection_out by lia. by rewrite Hpq. }
  destruct Hview as (addr & hand & off & Hh & Hview). rewrite Hh. constructor.
  - intros q Hq. unfold inside in Hq.
    assert (Hk : m' q = m1 q) by (apply (child_keeps maps _ _ m1 (k, cl, m') Hl Hrest q); intros c' Hc' _ Hi; pose proof (laid_above _ _ _ _ _ Hl Hc' Hi); lia).
    rewrite Hk.
    assert (Hn : 0 <= n) by (eapply span_nonneg; exact Hl).
    rewrite Hview by lia. by rewrite bool_decide_eq_true_2 by lia.
  - apply (IH (Some (addr, hand, off)) _ _ m1 (k, cl, m') Hl); [| exact Hrest]. fold n. intros q Hq. rewrite Hview by lia. by eexists.
Qed.

(** Every shared map is among those that show an object. *)
Lemma shows_all maps : forall before lo b, laid lo b (map cm maps) ->
  match before with Some _ => True | None => match b with Some f => is_shared f = false | None => True end end ->
  map fst (shows before maps) = List.filter (fun m => is_shared (m_flags m)) (map cm maps).
Proof.
  induction maps as [| c maps IH]; intros before lo b Hl Hb; [done |]. destruct Hl as (Hlo & Hs & Hp & Hl). cbn [shows map List.filter].
  destruct (is_shared (m_flags (cm c))) eqn:Hsh; [| apply (IH _ _ _ Hl); by rewrite Hsh].
  destruct (m_alloc (cm c)); [cbn [map fst]; f_equal; by apply (IH _ _ _ Hl) |].
  destruct (Hp eq_refl) as (-> & _). destruct before as [h |]; [cbn [map fst]; f_equal; by apply (IH _ _ _ Hl) | congruence].
Qed.

(** The table the child goes on with. *)
Lemma child_table maps : forall mem r, sys_fork_nt_child maps mem = Some r ->
  map cm r.1.1 = List.filter (fun m => negb (has (m_flags m) MAP_NOFORK) || (Z.land (m_flags m) MAP_TYPE =? MAP_FILE)) (map cm maps).
Proof.
  induction maps as [| c maps IH]; intros mem r Hr; [simpl in Hr; by injection Hr as <- |].
  destruct (child_step _ _ _ _ Hr) as (k & cl & m1 & m' & Hrest & _ & -> & _). specialize (IH _ _ Hrest). cbn [fst] in IH.
  cbn [map List.filter]. rewrite <- IH. destruct (has (m_flags (cm c)) MAP_NOFORK); cbn [negb orb].
  - by destruct (Z.land _ _ =? MAP_FILE).
  - destruct (is_shared _); [done |]. unfold private_now. by destruct (0 <? c_hand c).
Qed.

(** No call fails, so none aborts. *)
Lemma child_starts maps : (forall c, c ∈ maps -> view_or_die (c_hand c) (negb (c_readonlyfile c)) = true) -> (forall m, can_protect m = true) ->
  forall mem, is_Some (sys_fork_nt_child maps mem).
Proof.
  intros Hv Hc. induction maps as [| c maps IH]; intros mem; [by eexists |].
  assert (Hrest : forall mem, is_Some (sys_fork_nt_child maps mem)) by (apply IH; intros c' Hc'; apply Hv; by right).
  cbn [sys_fork_nt_child]. unfold resurrect. rewrite Hv, Hc by left.
  assert (Hb : forall mem0 (g : started -> option started), (forall r, is_Some (g r)) -> is_Some (sys_fork_nt_child maps mem0 ≫= g)).
  { intros mem0 g Hg. destruct (Hrest mem0) as [r Hr]. rewrite Hr. simpl. apply Hg. }
  repeat case_match; simplify_option_eq; apply Hb; intros [[k cl] m']; by eexists.
Qed.

Lemma laid_disjoint maps : forall lo b c c' q, laid lo b (map cm maps) -> c ∈ maps -> c' ∈ maps -> inside (cm c) q -> inside (cm c') q -> cm c = cm c'.
Proof.
  induction maps as [| c0 maps IH]; intros lo b c c' q Hl Hc Hc' Hi Hi'; [by apply elem_of_nil in Hc |]. destruct Hl as (_ & _ & _ & Hl).
  apply elem_of_cons in Hc as [-> | Hc], Hc' as [-> | Hc']; [done | | | by eapply IH].
  - pose proof (laid_above _ _ _ _ _ Hl Hc' Hi'). unfold inside in Hi. lia.
  - pose proof (laid_above _ _ _ _ _ Hl Hc Hi). unfold inside in Hi'. lia.
Qed.

Notation arrived := (arrived MAP_TYPE MAP_SHARED MAP_FILE MAP_NOFORK MAP_APE_RESERVE).

(** What the parent copied is left as it was copied. *)
Lemma child_arrived maps lo b P0 mem r : laid lo b (map cm maps) -> Forall (arrived P0 mem) (map cm maps) ->
  sys_fork_nt_child maps mem = Some r -> Forall (arrived P0 r.2) (map cm maps).
Proof.
  intros Hl Ha Hr. rewrite Forall_forall in Ha |- *. intros m Hm. pose proof (Ha m Hm) as Harr. intros q Hq. specialize (Harr q Hq).
  destruct (left_out MAP_TYPE MAP_SHARED MAP_FILE MAP_NOFORK (m_flags m)) eqn:Hlo; [done |].
  rewrite (child_keeps maps lo b mem r Hl Hr q); [done |].
  intros c' Hc' Hsh Hi. apply list_elem_of_In, in_map_iff in Hm as (c & <- & Hc%list_elem_of_In).
  rewrite <- (laid_disjoint maps lo b c c' q Hl Hc Hc' Hq Hi) in Hsh. unfold left_out in Hlo. unfold is_shared in Hsh.
  apply andb_true_iff in Hsh as [_ Hsh]. by rewrite Hsh in Hlo.
Qed.

(** C40: a child of fork that starts up has its whole memory: every page the
    parent copied is as it was copied, every shared map shows its object's pages
    at its offset, a split allocation's pieces that of the first, each with its
    own protection, and its table holds every map but the anonymous ones that
    are not inherited; and when every map passes [view_or_die] and can be
    protected it starts. *)
Theorem fork_child_is_whole maps P0 mem :
  laid 0 None (map cm maps) -> Forall (arrived P0 mem) (map cm maps) ->
  (forall r, sys_fork_nt_child maps mem = Some r ->
     Forall (arrived P0 r.2) (map cm maps) /\
     Forall (shown r.2) (shows None maps) /\
     map fst (shows None maps) = List.filter (fun m => is_shared (m_flags m)) (map cm maps) /\
     map cm r.1.1 = List.filter (fun m => negb (has (m_flags m) MAP_NOFORK) || (Z.land (m_flags m) MAP_TYPE =? MAP_FILE)) (map cm maps)) /\
  ((forall c, c ∈ maps -> view_or_die (c_hand c) (negb (c_readonlyfile c)) = true) -> (forall m, can_protect m = true) ->
     is_Some (sys_fork_nt_child maps mem)).
Proof.
  intros Hl Ha. split; [| intros Hv Hc; by apply child_starts]. intros r Hr.
  split; [by eapply child_arrived |]. split; [by eapply child_shows |]. split; [by eapply shows_all | by eapply child_table].
Qed.
End child.

(** ** Concrete inputs *)

(** A shared file of three pages whose last page was made read-only, a private
    page, and a page that is not inherited. *)
Definition toy_maps : list child_map :=
  [CMap (Map 16 2 3 1 true) 7 false false 4; CMap (Map 18 1 1 1 false) 7 false false 0;
   CMap (Map 32 1 3 2 true) 9 true false 0; CMap (Map 48 1 3 (2 + 64) true) 0 false false 0].

Lemma fork_child_is_whole_witness :
  let prot p := if has p 2 then 4 else 2 in
  let mem q := if q =? 32 then Committed 4 99 else Free in
  let start := sys_fork_nt_child prot 15 1 0 64 (-1) (fun h o => h * 100 + o) (fun _ _ exec => if exec then AccessDenied else Viewed) (fun _ => true) in
  exists r, start toy_maps mem = Some r /\ r.2 18 = Committed 2 706 /\ r.2 32 = Committed 4 99 /\ length r.1.1 = 3%nat.
Proof.
  intros prot mem start.
  assert (Hl : laid 15 1 0 64 32 0 None (map cm toy_maps)) by (simpl; repeat split; first [lia | done]).
  assert (Ha : Forall (arrived 15 1 0 64 32 mem mem) (map cm toy_maps)).
  { apply Forall_forall. intros m Hm q Hq. repeat case_match; try done. unfold mem, reservation, copied in *.
    repeat (apply elem_of_cons in Hm as [-> | Hm]; [try done |]); by apply elem_of_nil in Hm. }
  destruct (fork_child_is_whole prot 15 1 0 64 (-1) (fun h o => h * 100 + o) (fun _ _ exec => if exec then AccessDenied else Viewed) (fun _ => true)
    32 toy_maps mem mem Hl Ha) as (Hw & Hs).
  destruct (Hs ltac:(done) ltac:(done)) as [r Hr]. exists r. destruct (Hw r Hr) as (_ & Hsh & _).
  split; [exact Hr |]. split; [| vm_compute in Hr; injection Hr as <-; vm_compute; done].
  apply (Forall_inv (Forall_inv_tail Hsh) 18). split; done.
Defined.
