(* ===== verification/FileCalls.v ===== *)
(** * Names, links, sizes and access: rename.c, readlinkat.c,
    readlinkat-nt.c, ntaccesscheck.c, fchdir-nt.c, ftruncate-nt.c, recv-nt.c,
    recvfrom-nt.c and the raw calls of xattr.c, mknod.c and pipe.c

    Windows calls around handles, with what the shim changed in them. The
    world is the system; the calls are an interface. The theorems: the text of
    a link is what was stored, in UTF-8 and with its drive as a directory; no
    call leaves a handle open, but for a link asked to be a directory, and
    but for the access check of a program file that opens and then has no
    information, where the process traps. The rename's buffer is taken as
    there. *)
From S2P Require Import Prelude Host PfsText NtPath PidText.

(** ** The system *)

(** What GetFileInformationByHandle says of a file. *)
Record nt_info := NtInfo { ni_directory : bool; ni_size : Z }.

(** A reparse point that is a symbolic link, with its print name, one of
    another kind, or the error. *)
Inductive reparse := SymLink (name : list Z) | OtherTag | NotReparse | ReparseError.

(** [fh_open] are the handles that are open. *)
Class FileHost (W : Type) := {
  fh_open : W -> gset Z;
  fh_create : list Z -> Z -> W -> option Z * W;
  fh_close : Z -> W -> W;
  fh_winerr : W -> errno;
  fh_is_disk : Z -> W -> bool;
  fh_info : Z -> W -> option nt_info;
  fh_reparse : Z -> W -> reparse;
  fh_executable : Z -> list Z -> W -> bool;
  fh_fix_enotdir : list Z -> W -> errno;
  fh_rename_posix : Z -> list Z -> W -> bool * W;
  fh_sparse : Z -> W -> W;
  fh_set_size : Z -> Z -> W -> bool * W;
  fh_access_denied : W -> bool;
  fh_security : list Z -> W -> bool;
  fh_open_token : W -> option Z * W;
  fh_duplicate_token : Z -> W -> option Z * W;
  fh_access_check : Z -> Z -> W -> option bool }.

(** cosmo's UTF-8 writer and the character a pair of units stands for. *)
Class Utf16 := { tpenc : Z -> cstr; MergeUtf16 : Z -> Z -> Z }.

(** kNtFileReadAttributes, kNtDelete | kNtSynchronize and the generic rights
    to a file. *)
Definition kNtFileReadAttributes : Z := 0x0080.
Definition delete_rights : Z := 0x00110000.
Definition kNtFileGenericRead : Z := 0x00120089.
Definition kNtFileGenericExecute : Z := 0x001200a0.
Definition kNtFileGenericWrite : Z := 0x00120116.

(** ** The text of a link *)

Definition IsUcs2 (x : Z) : bool := negb ((0xd800 <=? x) && (x <? 0xe000)).

Section text.
Context `{Utf16}.

Definition link_char (x : Z) : cstr := if x <? 128 then [if x =? 92 then 47 else x] else tpenc x.

Fixpoint link_bytes (p : list Z) : cstr :=
  match p with
  | [] => []
  | x :: p' =>
      if IsUcs2 x then link_char x ++ link_bytes p'
      else match p' with
           | y :: p'' => link_char (MergeUtf16 x y) ++ link_bytes p''
           | [] => link_char 0xfffd
           end
  end.

(** "C:\" as "/C/". *)
Definition link_drive (p : list Z) : list Z :=
  match p with
  | d :: c :: b :: rest => if IsAlpha d && (c =? 58) && (b =? 92) then 47 :: d :: 47 :: rest else p
  | _ => p
  end.

Definition link_text (name : list Z) (bufsiz : nat) : cstr := take bufsiz (link_bytes (link_drive name)).
End text.

Section calls.
Context {W : Type} `{FileHost W} `{Utf16}.

(** ** readlinkat-nt.c *)

(** A slash at the end asks for a directory, but for a drive's root. *)
Definition must_be_directory (p : list Z) : bool :=
  (1 <? length p)%nat && (p.[(length p - 1)%nat] =? 92) && negb (p.[(length p - 2)%nat] =? 58).

(** sys_readlinkat_nt_impl on the converted path. *)
Definition sys_readlinkat_nt (path16 : res (list Z)) (bufsiz : nat) : M W (res cstr) :=
  match path16 with
  | Err e => mret (Err e)
  | Ok p =>
      let dir := must_be_directory p in
      let p := if dir then take (length p - 1) p else p in
      h ← step (fh_create p kNtFileReadAttributes);
      match h with
      | None => e ← reads (fh_fix_enotdir p); mret (Err e)
      | Some h =>
          disk ← reads (fh_is_disk h);
          info ← reads (fh_info h);
          if dir && (negb disk || match info with Some i => negb (ni_directory i) | None => false end) then mret (Err ENOTDIR)
          else
            point ← reads (fh_reparse h);
            e ← reads fh_winerr;
            _ ← modifies (fh_close h);
            mret (match point with
                  | SymLink name => Ok (link_text name bufsiz)
                  | OtherTag | NotReparse => Err EINVAL
                  | ReparseError => Err e
                  end)
      end
  end.

(** ** readlinkat.c *)

(** IsOwnExeLink: "/proc/self/exe" and "/proc/<getpid()>/exe". *)
Definition IsOwnExeLink (pid : Z) (path : cstr) : bool :=
  bool_decide (path = bytes "/proc/self/exe") || bool_decide (path = bytes "/proc/" ++ decimal pid ++ bytes "/exe").

Definition digit_or_dot (c : Z) : bool := is_digit c || (c =? 46).

(** What is behind the last slash. *)
Fixpoint last_name (s : cstr) : cstr :=
  match s with [] => [] | c :: s' => if existsb (fun x => x =? 47) s then last_name s' else s end.

(** IsApeLoader *)
Definition IsApeLoader (s : cstr) : bool :=
  bool_decide (s = bytes "/usr/bin/ape") ||
  ((6 <=? length (last_name s))%nat && bool_decide (take 5 (last_name s) = bytes ".ape-") && forallb digit_or_dot (drop 5 (last_name s))).

(** What readlinkat answers for the link itself: [pfs] is the emulated tree's
    answer, [zip] whether the path is in the archive, [kernel] the system
    call's, [exe] the name cosmo knows of this program. *)
Definition readlinkat (linux windows dangerous : bool) (pid : Z) (path : cstr) (bufsiz : nat)
    (pfs : option cstr) (zip : bool) (kernel : nat -> res cstr) (exe : cstr) (nt : M W (res cstr)) : M W (res cstr) :=
  match (if (0 <? bufsiz)%nat && negb dangerous then pfs else None) with
  | Some text => mret (Ok text)
  | None =>
      let mine := linux && (bufsiz =? 0)%nat in
      let bufsiz := if mine then 1%nat else bufsiz in
      if dangerous then mret (Err EFAULT)
      else if zip then mret (Err EINVAL)
      else
        r ← (if windows then nt
             else mret (match kernel bufsiz with
                        | Ok text =>
                            if linux && (0 <? length text)%nat && IsOwnExeLink pid path && IsApeLoader text
                               && negb (bool_decide (exe = [])) && (exe.[0] =? 47) && negb (IsApeLoader exe)
                            then Ok (take bufsiz exe) else Ok text
                        | Err e => Err e
                        end));
        mret (match r with Ok text => if mine && (length text =? 1)%nat then Ok [] else Ok text | Err e => Err e end)
  end.

(** ** rename.c *)

Definition posix_rename_nt (old new : res (list Z)) : M W bool :=
  match old, new with
  | Ok old, Ok new =>
      h ← step (fh_create old delete_rights);
      match h with
      | None => mret false
      | Some h => b ← step (fh_rename_posix h new); _ ← modifies (fh_close h); mret b
      end
  | _, _ => mret false
  end.

(** rename_common: [first] is renameat's answer. *)
Definition rename_common (windows : bool) (first : W -> res unit * W) (old new : res (list Z)) : M W (res unit) :=
  r ← step first;
  match r with
  | Ok _ => mret (Ok tt)
  | Err e =>
      if negb windows || negb (bool_decide (e = EACCES)) then mret (Err e)
      else b ← posix_rename_nt old new; mret (if b : bool then Ok tt else Err e)
  end.

(** ** ntaccesscheck.c *)

Definition R_OK : Z := 4.
Definition W_OK : Z := 2.
Definition X_OK : Z := 1.

(** What a call comes to: an answer, or a failed [unassert], which traps. *)
Inductive verdict := Says (r : res unit) | Trapped.

#[export] Instance verdict_eq_dec : EqDecision verdict.
Proof. solve_decision. Defined.

Definition ntaccesscheck_open (path : list Z) (flags : Z) : M W bool :=
  h ← step (fh_create path (Z.lor (Z.lor kNtFileGenericRead kNtFileGenericExecute) (if has flags W_OK then kNtFileGenericWrite else 0)));
  match h with
  | None => mret false
  | Some h =>
      info ← reads (fh_info h);
      x ← reads (fh_executable h path);
      _ ← modifies (fh_close h);
      mret (match info with Some i => ni_directory i || x | None => false end)
  end.

(** Opened for reading: a directory, or a file that can be run. That it has
    information once it is open is asserted. *)
Definition opens_to_run (path : list Z) : M W verdict :=
  h ← step (fh_create path kNtFileGenericRead);
  match h with
  | None => e ← reads fh_winerr; mret (Says (Err e))
  | Some h =>
      info ← reads (fh_info h);
      match info with
      | None => mret Trapped
      | Some i =>
          x ← reads (fh_executable h path);
          _ ← modifies (fh_close h);
          mret (Says (if ni_directory i || x then Ok tt else Err EACCES))
      end
  end.

(** With both tokens at hand. *)
Definition access_checked (path : list Z) (token flags : Z) : M W verdict :=
  r ← reads (fh_access_check token flags);
  e ← reads fh_winerr;
  match r with
  | None => mret (Says (Err e))
  | Some result =>
      if result || (flags =? 0) then
        if has flags X_OK then opens_to_run path else mret (Says (Ok tt))
      else if has flags X_OK then b ← ntaccesscheck_open path flags; mret (Says (if b : bool then Ok tt else Err EACCES))
      else mret (Says (Err EACCES))
  end.

Definition ntaccesscheck (path : list Z) (flags : Z) : M W verdict :=
  let flags := if has flags X_OK then Z.lor flags R_OK else flags in
  secure ← reads (fh_security path);
  e ← reads fh_winerr;
  if negb secure then mret (Says (Err e))
  else
    token ← step fh_open_token;
    match token with
    | None => e ← reads fh_winerr; mret (Says (Err e))
    | Some token =>
        copy ← step (fh_duplicate_token token);
        match copy with
        | None => e ← reads fh_winerr; _ ← modifies (fh_close token); mret (Says (Err e))
        | Some copy =>
            r ← access_checked path copy flags;
            match r with
            | Trapped => mret Trapped
            | Says r =>
                _ ← modifies (fh_close copy);
                _ ← modifies (fh_close token);
                mret (Says r)
            end
        end
    end.

(** ** ftruncate-nt.c and fchdir-nt.c *)

Definition sys_ftruncate_nt (h length : Z) : M W (res unit) :=
  info ← reads (fh_info h);
  _ ← (match info with Some i => if ni_size i <? length then modifies (fh_sparse h) else mret tt | None => mret tt end);
  b ← step (fh_set_size h length);
  if b : bool then mret (Ok tt)
  else denied ← reads fh_access_denied; e ← reads fh_winerr; mret (Err (if denied : bool then EINVAL else e)).

(** The directory a descriptor names, as it is handed to chdir. *)
Definition fchdir_path (dir : list Z) : list Z :=
  if bool_decide (take 4 dir = bytes "\\?\") then
    if bool_decide (take 4 (drop 4 dir) = bytes "UNC\") then
      if (length dir - 6 <? 260)%nat then take 2 dir ++ drop 8 dir else dir
    else if (length dir - 4 <? 260)%nat then drop 4 dir else dir
  else dir.

(** [final] is the name of the directory when it fits the buffer. *)
Definition sys_fchdir_nt (is_file : bool) (final : option (list Z)) (chdir : option (list Z) -> W -> res unit * W) : M W (res unit) :=
  if negb is_file then mret (Err EBADF) else step (chdir (fchdir_path <$> final)).
End calls.

(** ** recv-nt.c and recvfrom-nt.c *)

Definition MSG_OOB : Z := 1.
Definition MSG_PEEK : Z := 2.
Definition MSG_WAITALL : Z := 8.
Definition MSG_DONTWAIT : Z := 64.
Definition kNtErrorHandleEof : Z := 38.

Section receive.
(** The socket's world: FIONBIO taken off, WSAPoll for an event, and
    __winsock_block with the flags and the mode it is given. *)
Context {W : Type} (fionbio_off : W -> W) (polled : Z -> W -> Z) (block : Z -> bool -> W -> res Z * W).

(** __ape_shim_sock_recv_ready: a failed poll counts as ready. *)
Definition sock_recv_ready (flags : Z) (w : W) : bool :=
  negb (polled (if has flags MSG_OOB then 0x0200 else 0x0100) w =? 0).

Definition sys_recvfrom_nt (fd_nonblock : bool) (flags : Z) : M W (res Z) :=
  if negb (Z.ldiff flags (Z.lor (Z.lor MSG_DONTWAIT MSG_OOB) MSG_PEEK) =? 0) then mret (Err EINVAL)
  else
    let nonblock := fd_nonblock || has flags MSG_DONTWAIT in
    ready ← reads (sock_recv_ready flags);
    if nonblock && negb ready then mret (Err EAGAIN)
    else step (block (Z.ldiff flags MSG_DONTWAIT) nonblock).

(** The end of a handle is the end of the stream. *)
Definition sys_recv_nt (fd_nonblock : bool) (flags : Z) : M W (res Z) :=
  if negb (Z.ldiff flags (Z.lor (Z.lor MSG_DONTWAIT MSG_OOB) (Z.lor MSG_PEEK MSG_WAITALL)) =? 0) then mret (Err EINVAL)
  else
    _ ← (if has flags MSG_WAITALL then modifies fionbio_off else mret tt);
    let nonblock := fd_nonblock || has flags MSG_DONTWAIT in
    ready ← reads (sock_recv_ready flags);
    if nonblock && negb ready then mret (Err EAGAIN)
    else
      r ← step (block (Z.ldiff flags MSG_DONTWAIT) nonblock);
      mret (match r with Err e => if bool_decide (e = EHOST kNtErrorHandleEof) then Ok 0 else Err e | Ok n => Ok n end).
End receive.

(** ** Raw calls: syscall.h, xattr.c, mknod.c, pipe.c *)

(** __ape_syscall_ret; on Linux a host code is Linux's. *)
Definition syscall_ret (r : Z) : res Z := if (r <? 0) && (-4096 <? r) then Err (EHOST (- r)) else Ok r.

(** call5: a raw call with its five arguments. *)
Definition call5 (linux : bool) (raw : string -> list Z -> Z) (nr : string) (args : list Z) : res Z :=
  if negb linux then Err ENOTSUP else syscall_ret (raw nr args).

Definition getxattr linux raw (path name value size : Z) := call5 linux raw "__NR_getxattr" [path; name; value; size; 0].
Definition lgetxattr linux raw (path name value size : Z) := call5 linux raw "__NR_lgetxattr" [path; name; value; size; 0].
Definition fgetxattr linux raw (fd name value size : Z) := call5 linux raw "__NR_fgetxattr" [fd; name; value; size; 0].
Definition setxattr linux raw (path name value size flags : Z) := call5 linux raw "__NR_setxattr" [path; name; value; size; flags].
Definition lsetxattr linux raw (path name value size flags : Z) := call5 linux raw "__NR_lsetxattr" [path; name; value; size; flags].
Definition fsetxattr linux raw (fd name value size flags : Z) := call5 linux raw "__NR_fsetxattr" [fd; name; value; size; flags].
Definition listxattr linux raw (path list size : Z) := call5 linux raw "__NR_listxattr" [path; list; size; 0; 0].
Definition llistxattr linux raw (path list size : Z) := call5 linux raw "__NR_llistxattr" [path; list; size; 0; 0].
Definition flistxattr linux raw (fd list size : Z) := call5 linux raw "__NR_flistxattr" [fd; list; size; 0; 0].
Definition removexattr linux raw (path name : Z) := call5 linux raw "__NR_removexattr" [path; name; 0; 0; 0].
Definition lremovexattr linux raw (path name : Z) := call5 linux raw "__NR_lremovexattr" [path; name; 0; 0; 0].
Definition fremovexattr linux raw (fd name : Z) := call5 linux raw "__NR_fremovexattr" [fd; name; 0; 0; 0].

Definition linux_only (linux : bool) (raw : string -> list Z -> Z) (nr : string) (args : list Z) : res Z :=
  if negb linux then Err ENOSYS else syscall_ret (raw nr args).
Definition tee linux raw (fd_in fd_out len flags : Z) := linux_only linux raw "__NR_tee" [fd_in; fd_out; len; flags; 0].
Definition vmsplice linux raw (fd iov nr_segs flags : Z) := linux_only linux raw "__NR_vmsplice" [fd; iov; nr_segs; flags; 0].
Definition mknodat linux raw (dirfd path mode dev : Z) := linux_only linux raw "__NR_mknodat" [dirfd; path; mode; dev; 0].

(** ** Handles *)

Section handles.
Context {W : Type} `{FileHost W} `{Utf16}.

(** What a call that opens a handle answers. *)
Definition gives (w : W) (r : option Z * W) : Prop :=
  match r with
  | (Some h, w') => h ∉ fh_open w /\ fh_open w' = {[h]} ∪ fh_open w
  | (None, w') => fh_open w' = fh_open w
  end.

Class FileHostOk := {
  create_gives p r w : gives w (fh_create p r w);
  token_gives w : gives w (fh_open_token w);
  duplicate_gives t w : gives w (fh_duplicate_token t w);
  close_open h w : fh_open (fh_close h w) = fh_open w ∖ {[h]};
  rename_open h p w : fh_open (snd (fh_rename_posix h p w)) = fh_open w;
  sparse_open h w : fh_open (fh_sparse h w) = fh_open w;
  size_open h n w : fh_open (snd (fh_set_size h n w)) = fh_open w }.

(** The call ends. Where [out] knows a reason for what it came to, the process
    is gone and the reason holds; else it has answered, and of the handles
    that were open only [X] were closed. *)
Definition ends {A} (out : A -> option Prop) (X : gset Z) (m : M W A) : Prop :=
  forall w, exists a w', m w = Some (a, w') /\
    match out a with Some why => why | None => fh_open w' = fh_open w ∖ X end.

(** It always answers. *)
Definition closes {A} (X : gset Z) (m : M W A) : Prop := ends (fun _ => None) X m.

(** Only an assertion stops the access check: execution was asked about, and
    a file that had been opened has no information. *)
Definition trapped (flags : Z) (v : verdict) : option Prop :=
  match v with
  | Trapped => Some (has flags X_OK = true /\ exists h w, fh_info (W := W) h w = None)
  | Says _ => None
  end.

Section ends.
Context {A B : Type}.
Implicit Types (out : B -> option Prop).

Lemma ends_ret out (b : B) : out b = None -> ends out ∅ (mret b).
Proof. intros Hb w. exists b, w. split; [done|]. rewrite Hb. set_solver. Qed.

Lemma ends_bind out X (m : M W A) (f : A -> M W B) :
  closes ∅ m -> (forall a, ends out X (f a)) -> ends out X (m ≫= f).
Proof.
  intros Hm Hf w. destruct (Hm w) as (a & w1 & Hr & Ho). destruct (Hf a w1) as (b & w2 & Hr' & Ho').
  exists b, w2. rewrite (bind_run _ _ _ _ _ Hr). split; [done|]. case_match; [done|set_solver].
Qed.

(** What is done with a call that may not come back. *)
Lemma ends_bind_gone (out' : A -> option Prop) out X (m : M W A) (f : A -> M W B) :
  ends out' ∅ m ->
  (forall a, match out' a with
             | Some why => why -> exists b, f a = mret b /\ default False (out b)
             | None => ends out X (f a)
             end) ->
  ends out X (m ≫= f).
Proof.
  intros Hm Hf w. destruct (Hm w) as (a & w1 & Hr & Ho). rewrite (bind_run _ _ _ _ _ Hr). specialize (Hf a).
  destruct (out' a) as [why|].
  - destruct (Hf Ho) as (b & -> & Hb). exists b, w1. split; [done|]. by destruct (out b).
  - destruct (Hf w1) as (b & w2 & Hr' & Ho'). exists b, w2. split; [done|]. case_match; [done|set_solver].
Qed.

Lemma ends_reads out X (g : W -> A) (f : A -> M W B) : (forall a, ends out X (f a)) -> ends out X (reads g ≫= f).
Proof. intros Hf w. rewrite bind_reads. apply Hf. Qed.

Lemma closes_step (g : W -> B * W) : (forall w, fh_open (snd (g w)) = fh_open w) -> closes ∅ (step g).
Proof. intros Hg w. exists (fst (g w)), (snd (g w)). unfold step. rewrite Hg. split; [by destruct (g w) | set_solver]. Qed.

Lemma closes_modifies (g : W -> W) : (forall w, fh_open (g w) = fh_open w) -> closes ∅ (modifies g).
Proof. intros Hg w. exists tt, (g w). rewrite Hg. split; [done | set_solver]. Qed.

Lemma ends_open out X (op : W -> option Z * W) (f : option Z -> M W B) :
  (forall w, gives w (op w)) -> ends out X (f None) -> (forall h, ends out ({[h]} ∪ X) (f (Some h))) ->
  ends out X (step op ≫= f).
Proof.
  intros Hop Hn Hs w. rewrite bind_step. pose proof (Hop w) as Hw.
  destruct (op w) as [[h |] w1]; simpl in *.
  - destruct Hw as [Hni Ho]. destruct (Hs h w1) as (b & w2 & Hr & Ho'). exists b, w2. split; [done|].
    case_match; [done|set_solver].
  - destruct (Hn w1) as (b & w2 & Hr & Ho'). exists b, w2. split; [done|]. case_match; [done|set_solver].
Qed.

Lemma ends_close `{!FileHostOk} out h X (f : unit -> M W B) :
  ends out X (f tt) -> ends out ({[h]} ∪ X) (modifies (fh_close h) ≫= f).
Proof.
  intros Hf w. rewrite bind_modifies. destruct (Hf (fh_close h w)) as (b & w2 & Hr & Ho).
  exists b, w2. split; [done |]. rewrite close_open in Ho. case_match; [done|set_solver].
Qed.
End ends.

Context `{!FileHostOk}.

(** Every call's rule, tried in the order of its text. *)
Ltac closing := repeat first
  [ apply ends_ret; done
  | apply ends_reads; intros ?
  | apply ends_open; [solve [apply create_gives | apply token_gives | intros; apply duplicate_gives] | | intros ?]
  | apply ends_close
  | case_match ].

Lemma ntaccesscheck_open_closes path flags : closes ∅ (ntaccesscheck_open path flags).
Proof. unfold closes, ntaccesscheck_open. closing. Qed.

Lemma opens_to_run_ends path flags : has flags X_OK = true -> ends (trapped flags) ∅ (opens_to_run path).
Proof.
  intros Hx. unfold opens_to_run. apply ends_open; [apply create_gives|closing|]. intros h w. rewrite bind_reads.
  destruct (fh_info h w) as [i|] eqn:Hi.
  - assert (He : ends (trapped flags) ({[h]} ∪ ∅) (x ← reads (fh_executable h path); _ ← modifies (fh_close h);
      mret (Says (if ni_directory i || x then Ok tt else Err EACCES)))) by closing. apply He.
  - exists Trapped, w. split; [done|]. split; [done|by exists h, w].
Qed.

Lemma access_checked_ends path token flags : ends (trapped flags) ∅ (access_checked path token flags).
Proof.
  unfold access_checked. do 2 (apply ends_reads; intros ?). case_match; [| by apply ends_ret].
  destruct (_ || _).
  - destruct (has flags X_OK) eqn:E; [by apply opens_to_run_ends|by apply ends_ret].
  - destruct (has flags X_OK); [|by apply ends_ret]. apply ends_bind; [apply ntaccesscheck_open_closes|intros ?; closing].
Qed.

Lemma ntaccesscheck_ends path flags : ends (trapped flags) ∅ (ntaccesscheck path flags).
Proof.
  unfold ntaccesscheck. set (flags' := if has flags X_OK then _ else flags).
  assert (Hx : has flags' X_OK = true -> has flags X_OK = true) by (unfold flags'; destruct (has flags X_OK) eqn:E; [done|by rewrite E]).
  clearbody flags'. closing.
  eapply ends_bind_gone; [apply access_checked_ends|]. intros [r|]; cbn [trapped]; [closing|].
  intros [Ht Hi]. exists Trapped. split; [done|]. split; [by apply Hx|done].
Qed.

Lemma rename_common_closes windows first old new :
  closes ∅ (step first) -> closes ∅ (rename_common windows first old new).
Proof.
  intros Hf. apply ends_bind; [done |]. intros [] ; closing. apply ends_bind; [| intros ?; by apply ends_ret].
  unfold closes, posix_rename_nt. closing. apply ends_bind; [apply closes_step; apply rename_open | intros b; closing].
Qed.

Lemma truncate_closes h length : closes ∅ (sys_ftruncate_nt h length).
Proof.
  unfold sys_ftruncate_nt. apply ends_reads; intros info. apply ends_bind.
  { closing. apply closes_modifies, sparse_open. }
  intros []. apply ends_bind; [apply closes_step, size_open | intros b; closing].
Qed.

(** A link that is not asked to be a directory. *)
Lemma readlink_closes p bufsiz : must_be_directory p = false -> closes ∅ (sys_readlinkat_nt (Ok p) bufsiz).
Proof. intros Hd. unfold sys_readlinkat_nt. rewrite Hd. closing. Qed.
End handles.

(** ** The text of a link *)

(** Units that are text: pairs joined, none alone. *)
Inductive utf16 : list Z -> Prop :=
  | u_nil : utf16 []
  | u_one x p : 0 <= x < 0x10000 -> IsUcs2 x = true -> utf16 p -> utf16 (x :: p)
  | u_pair x y p : high x = true -> low y = true -> utf16 p -> utf16 (x :: y :: p).

Definition slash (c : Z) : Z := if c =? 92 then 47 else c.

Lemma pair_range x y : high x = true -> low y = true -> 0x10000 <= pair_of x y < 0x110000.
Proof. unfold high, low, pair_of. rewrite Z.shiftl_mul_pow2 by lia. lia. Qed.

Lemma slash_lead k a : Z.testbit k 7 = true -> slash (Z.lor k a) = Z.lor k a.
Proof.
  intros Hk. unfold slash. case_match eqn:He; [| done]. apply Z.eqb_eq in He.
  exfalso. assert (Hb : Z.testbit (Z.lor k a) 7 = true) by (by rewrite Z.lor_spec, Hk). by rewrite He in Hb.
Qed.

Section text.
Context `{Utf16}.
Hypothesis tpenc_utf8 : forall c, 128 <= c < 0x110000 -> tpenc c = utf8 c.
Hypothesis merge_pair : forall x y, high x = true -> low y = true -> MergeUtf16 x y = pair_of x y.

Lemma link_char_utf8 c : 0 <= c < 0x110000 -> link_char c = map slash (utf8 c).
Proof.
  intros Hc. unfold link_char. destruct (Z.ltb_spec c 128).
  - unfold utf8. by rewrite (proj2 (Z.ltb_lt c 0x80)) by lia.
  - rewrite tpenc_utf8 by lia. unfold utf8. rewrite (proj2 (Z.ltb_ge c 0x80)) by lia.
    by repeat case_match; cbn [map]; rewrite ?slash_lead by done.
Qed.

(** The link's reader and the one of /proc's strings agree on text, but for
    the slashes. *)
Lemma link_bytes_utf8 p : utf16 p -> link_bytes p = map slash (put_utf8 p).
Proof.
  induction 1 as [| x p Hx Hu _ IH | x y p Hh Hl _ IH]; [done | |].
  - assert (Hh : high x = false) by (unfold IsUcs2, high in *; lia).
    simpl. rewrite Hu, IH, link_char_utf8 by lia.
    destruct p as [| y p]; [by rewrite app_nil_r |]. rewrite Hh. cbn [andb]. by rewrite map_app.
  - assert (Hu : IsUcs2 x = false) by (unfold IsUcs2, high in *; lia).
    simpl. rewrite Hu, Hh, Hl, IH, merge_pair by done. cbn [andb].
    rewrite link_char_utf8, map_app by (pose proof (pair_range x y Hh Hl); lia). done.
Qed.
End text.

(** ** The program's own link *)

Lemma loader_nonempty s : IsApeLoader s = true -> (0 <? length s)%nat = true.
Proof. by destruct s. Qed.

(** On Linux the program's own link, read with room for the program's name,
    never names the loader once the name is known. *)
Lemma own_exe_is_no_loader {W} pid path bufsiz kernel exe (nt : M W (res cstr)) w :
  IsOwnExeLink pid path = true -> exe.[0] = 47 -> IsApeLoader exe = false -> (length exe <= bufsiz)%nat ->
  readlinkat true false false pid path bufsiz None false kernel exe nt w =
  Some (match kernel bufsiz with Ok text => Ok (if IsApeLoader text then exe else text) | Err e => Err e end, w).
Proof.
  intros Hown Habs Hexe Hlen. destruct exe as [| e exe]; [done |]. destruct bufsiz as [| bufsiz]; [simpl in Hlen; lia |].
  unfold readlinkat. rewrite Hown, Habs, Hexe. change ((S bufsiz =? 0)%nat) with false.
  destruct (kernel (S bufsiz)) as [text | err] eqn:Hk; [| by cbn; rewrite Hk].
  cbn -[IsApeLoader take Nat.ltb]. rewrite Hk.
  destruct (IsApeLoader text) eqn:Hl; [| by rewrite andb_false_r].
  rewrite loader_nonempty by done. cbn -[take]. by rewrite take_ge.
Qed.

(** ** Receiving *)

(** A receive that must not wait leaves a socket with nothing queued alone. *)
Lemma recv_nothing_queued {W} fionbio_off (polled : Z -> W -> Z) block fd_nonblock flags w :
  Z.land flags MSG_WAITALL = 0 -> fd_nonblock || has flags MSG_DONTWAIT = true -> sock_recv_ready polled flags w = false ->
  exists e, sys_recv_nt fionbio_off polled block fd_nonblock flags w = Some (Err e, w).
Proof.
  intros Hall Hnb Hr. unfold sys_recv_nt. case_match; [by eexists |].
  replace (has flags MSG_WAITALL) with false by (unfold has; by rewrite Hall).
  unfold reads, mbind, M_bind. simpl. rewrite Hr, Hnb. by eexists.
Qed.

(** ** Properties *)

(** C36: ntaccesscheck, a rename with its second attempt and a link's reading
    always come to an end and close every handle they open, whatever calls
    fail on the way. Two exceptions: a link asked to be a directory, and the
    access check for execution of a file that opens but whose information
    cannot be had, where an assertion traps instead of answering. *)
Theorem handles_closed {W} `{!FileHost W} `{!Utf16} `{!FileHostOk (W := W)} path flags windows first old new p bufsiz :
  closes ∅ (step first) -> must_be_directory p = false ->
  ends (trapped (W := W) flags) ∅ (ntaccesscheck path flags) /\ closes ∅ (rename_common windows first old new) /\
  closes ∅ (sys_readlinkat_nt (Ok p) bufsiz).
Proof.
  intros Hf Hd. split; [apply ntaccesscheck_ends | split]; [by apply rename_common_closes | by apply readlink_closes].
Qed.

(** ** A small system *)

Module Toy.
(** The world is the set of open handles; nothing is a link and the access
    check says no. *)
#[export] Instance system : FileHost (gset Z) := {
  fh_open w := w;
  fh_create _ _ w := (Some (fresh w), {[fresh w]} ∪ w);
  fh_close h w := w ∖ {[h]};
  fh_winerr _ := EIO;
  fh_is_disk _ _ := true;
  fh_info _ _ := Some (NtInfo false 0);
  fh_reparse _ _ := SymLink (map (fun c => c) (bytes "C:\x"));
  fh_executable _ _ _ := true;
  fh_fix_enotdir _ _ := ENOENT;
  fh_rename_posix _ _ w := (true, w);
  fh_sparse _ w := w;
  fh_set_size _ _ w := (true, w);
  fh_access_denied _ := false;
  fh_security _ _ := true;
  fh_open_token w := (Some (fresh w), {[fresh w]} ∪ w);
  fh_duplicate_token _ w := (Some (fresh w), {[fresh w]} ∪ w);
  fh_access_check _ _ _ := Some false }.

#[export] Instance text : Utf16 := { tpenc := utf8; MergeUtf16 := pair_of }.

#[export] Instance system_ok : FileHostOk (W := gset Z).
Proof. split; simpl; intros; try done; (split; [apply is_fresh | done]). Qed.
End Toy.
Import Toy.

(** The link is read, the refused program runs anyway, and the denied rename
    is done at the second attempt. *)
Lemma handles_closed_witness :
  (exists w, sys_readlinkat_nt (Ok (bytes "\\?\C:\l")) 64 (∅ : gset Z) = Some (Ok (bytes "/C/x"), w) /\ w = ∅ ∖ ∅) /\
  (exists w, ntaccesscheck (bytes "\\?\C:\l") X_OK (∅ : gset Z) = Some (Says (Ok tt), w) /\ w = ∅ ∖ ∅) /\
  closes (W := gset Z) ∅ (rename_common true (fun w => (Err EACCES, w)) (Ok (bytes "a")) (Ok (bytes "b"))).
Proof.
  assert (Hf : closes ∅ (step (fun w : gset Z => (Err EACCES : res unit, w)))) by (apply closes_step; done).
  destruct (handles_closed (bytes "\\?\C:\l") X_OK true (fun w => (Err EACCES, w)) (Ok (bytes "a")) (Ok (bytes "b"))
    (bytes "\\?\C:\l") 64 Hf eq_refl) as (Ha & Hr & Hl).
  split; [|split; [|done]].
  - destruct (Hl ∅) as (r & w & He & Ho). exists w. split; [| done].
    rewrite He. f_equal. f_equal. revert He. vm_compute. congruence.
  - destruct (Ha ∅) as ([v|] & w & He & Ho); [|by destruct Ho as (_ & h & w1 & Hi)]. exists w. split; [| done].
    rewrite He. f_equal. f_equal. revert He. vm_compute. congruence.
Defined.

(** "l\" where l is a file: the answer is right, the handle stays open. *)
Example directory_link_leaks :
  sys_readlinkat_nt (Ok (bytes "\\?\C:\l\")) 64 (∅ : gset Z) = Some (Err ENOTDIR, {[0]} ∪ ∅).
Proof. vm_compute. reflexivity. Qed.

(** The file opens, and its information cannot be had: the process is gone,
    its token, the copy and the file still open. *)
Definition no_info : FileHost (gset Z) := {|
  fh_open w := w; fh_create := @fh_create _ system; fh_close := @fh_close _ system; fh_winerr := @fh_winerr _ system;
  fh_is_disk := @fh_is_disk _ system; fh_info _ _ := None; fh_reparse := @fh_reparse _ system;
  fh_executable := @fh_executable _ system; fh_fix_enotdir := @fh_fix_enotdir _ system;
  fh_rename_posix := @fh_rename_posix _ system; fh_sparse := @fh_sparse _ system; fh_set_size := @fh_set_size _ system;
  fh_access_denied := @fh_access_denied _ system; fh_security := @fh_security _ system;
  fh_open_token := @fh_open_token _ system; fh_duplicate_token := @fh_duplicate_token _ system;
  fh_access_check _ _ _ := Some true |}.

Example unknown_program_traps :
  fst <$> @ntaccesscheck _ no_info (bytes "\\?\C:\l") X_OK ∅ = Some Trapped.
Proof. vm_compute. reflexivity. Qed.
