(* ===== verification/Dladdr.v ===== *)
(** * dladdr.c, the file an address is mapped from

    cosmo has no dladdr; on Linux the answer is looked up in /proc/self/maps,
    read in pieces into a buffer of 8192 bytes. The theorems: the answer is
    that of the first line of the whole file, shorter than the buffer, whose
    range holds the address and which names a file, however the kernel cuts
    the text; and over the text pid.c writes for a process the answer is the
    region's base and path. *)
From S2P Require Import Prelude PfsText Fields PidText.

(** ** One line *)

Definition hexval (c : Z) : Z :=
  if (48 <=? c) && (c <=? 57) then c - 48 else if (97 <=? c) && (c <=? 102) then c - 97 + 10 else -1.

(** The digits at the front as a 64-bit number, and what is behind them. *)
Fixpoint hexrun (s : cstr) (acc : Z) : Z * cstr :=
  match s with
  | c :: s' => if 0 <=? hexval c then hexrun s' (Z.lor (Z.shiftl acc 4 mod 2 ^ 64) (hexval c)) else (acc, s)
  | [] => (acc, [])
  end.

(** g_dladdr_fname *)
Definition FNAME : nat := 4096.

(** dli_fname and dli_fbase; the other two fields are NULL. *)
Definition dl_info : Type := cstr * Z.

Definition slash_on (s : cstr) : option cstr := if has_slash s then Some (drop (name_len s) s) else None.

Definition check_line (addr : Z) (line : cstr) : option dl_info :=
  let '(start, p) := hexrun line 0 in
  match p with
  | 45 :: q =>
      if (length p =? length line)%nat then None
      else
        let '(stop, r) := hexrun q 0 in
        match r with
        | 32 :: _ =>
            if (length r =? length q)%nat || (addr <? start) || (stop <=? addr) then None
            else match slash_on r with
                 | Some path => if (FNAME <=? length path)%nat then None else Some (path, start)
                 | None => None
                 end
        | _ => None
        end
  | _ => None
  end.

(** ** The file *)

Section reader.
Context {A : Type} (check : cstr -> option A) (size : nat).

(** The lines of the buffer: the answer, or the piece of a line left at its
    end and whether that is still being skipped. *)
Fixpoint scan_buf (skipping : bool) (cur buf : cstr) : option A * (cstr * bool) :=
  match buf with
  | [] => (None, (cur, skipping))
  | c :: buf' =>
      if c =? 10 then
        if skipping then scan_buf false [] buf'
        else match check cur with Some i => (Some i, ([], false)) | None => scan_buf false [] buf' end
      else scan_buf skipping (cur ++ [c]) buf'
  end.

(** [sizes] is how much each read gives at most, at least a byte; [content]
    what is left of the file. A read that fails is the end of it. *)
Fixpoint read_lines (sizes : list nat) (content buf : cstr) (skipping : bool) : option (option A) :=
  match sizes with
  | [] => None
  | s :: sizes =>
      let n := min (S s) (min (size - length buf) (length content)) in
      if (n =? 0)%nat then Some None
      else
        let '(found, (buf', skipping')) := scan_buf skipping [] (buf ++ take n content) in
        match found with
        | Some i => Some (Some i)
        | None =>
            if (length buf' =? size)%nat then read_lines sizes (drop n content) [] true
            else read_lines sizes (drop n content) buf' skipping'
        end
  end.
End reader.

(** [maps] is /proc/self/maps, when it opens. *)
Definition dladdr (linux : bool) (maps : option cstr) (sizes : list nat) (addr : Z) : option (option dl_info) :=
  if negb linux then Some None
  else match maps with
       | None => Some None
       | Some text => read_lines (check_line addr) 8192 sizes text [] false
       end.

(** ** However the file is cut *)

Section cut.
Context {A : Type} (check : cstr -> option A) (size : nat).

(** The first line with an answer, of those that fit. *)
Fixpoint first_answer (lines : list cstr) : option A :=
  match lines with
  | [] => None
  | l :: lines => match (if (length l <? size)%nat then check l else None) with Some i => Some i | None => first_answer lines end
  end.

(** The same, a byte at a time. *)
Fixpoint by_bytes (long : bool) (cur s : cstr) : option A :=
  match s with
  | [] => None
  | c :: s' =>
      if c =? 10 then
        match (if long || (size <=? length cur)%nat then None else check cur) with Some i => Some i | None => by_bytes false [] s' end
      else by_bytes long (cur ++ [c]) s'
  end.

Lemma by_bytes_lines s : forall cur, lacks 10 cur -> by_bytes false cur s = first_answer (removelast (split_on 10 (cur ++ s))).
Proof.
  induction s as [| c s IH]; intros cur Hc; cbn [by_bytes].
  - by rewrite app_nil_r, split_on_one.
  - destruct (Z.eqb_spec c 10) as [-> |].
    + rewrite split_on_app by done. cbn [removelast]. destruct (split_on 10 s) eqn:E; [by apply split_on_nonempty in E |].
      rewrite <- E. cbn [first_answer]. rewrite (IH []) by constructor. simpl orb.
      by destruct (Nat.leb_spec size (length cur)), (Nat.ltb_spec (length cur) size); try lia.
    + rewrite IH, <- app_assoc; [done |]. apply lacks_app; [done | by repeat constructor].
Qed.

Lemma by_bytes_long s : forall l1 l2 c1 c2,
  l1 = true \/ (size <= length c1)%nat -> l2 = true \/ (size <= length c2)%nat -> by_bytes l1 c1 s = by_bytes l2 c2 s.
Proof.
  induction s as [| c s IH]; intros l1 l2 c1 c2 H1 H2; [done |]. cbn [by_bytes].
  rewrite !(proj2 (orb_true_iff _ _)) by (by rewrite Nat.leb_le).
  destruct (c =? 10); [done |]. apply IH; rewrite length_app; simpl; intuition lia.
Qed.

Lemma by_bytes_front s t : forall long cur, lacks 10 s -> by_bytes long cur (s ++ t) = by_bytes long (cur ++ s) t.
Proof.
  induction s as [| c s IH]; intros long cur Hs; [by rewrite app_nil_r |]. inversion Hs as [| ?? Hc Hs']. subst.
  cbn [app by_bytes]. rewrite (proj2 (Z.eqb_neq c 10)) by done. by rewrite IH, <- app_assoc.
Qed.

(** The buffer's lines are the file's while it is not full. *)
Lemma scan_by_bytes buf rest : forall sk cur, lacks 10 cur -> (length cur + length buf <= size)%nat ->
  let '(found, (cur', sk')) := scan_buf check sk cur buf in
  by_bytes sk cur (buf ++ rest) = match found with Some i => Some i | None => by_bytes sk' cur' rest end
  /\ lacks 10 cur' /\ (length cur' <= size)%nat.
Proof.
  induction buf as [| c buf IH]; intros sk cur Hl Hs; [simpl in *; split; [done |]; split; [done | lia] |].
  cbn [scan_buf app by_bytes]. destruct (Z.eqb_spec c 10) as [-> | Hc].
  - rewrite (proj2 (Nat.leb_gt size (length cur))) by (simpl in Hs; lia). rewrite orb_false_r.
    assert (Hn := IH false [] ltac:(constructor) ltac:(simpl in *; lia)).
    destruct sk; [done |]. destruct (check cur); [split; [done |]; split; [constructor | simpl; lia] | done].
  - apply IH; [apply lacks_app; [done | by repeat constructor] | rewrite length_app; simpl in *; lia].
Qed.

Context (size_pos : (0 < size)%nat).

Lemma read_lines_by_bytes sizes : forall content buf sk,
  lacks 10 buf -> (length buf < size)%nat -> (length content < length sizes)%nat ->
  read_lines check size sizes content buf sk = Some (by_bytes sk buf content).
Proof.
  induction sizes as [| s sizes IH]; intros content buf sk Hl Hb Hn; [simpl in Hn; lia |]. cbn [read_lines].
  set (n := min (S s) (min (size - length buf) (length content))).
  destruct (Nat.eqb_spec n 0) as [Hz | Hz]; [destruct content; [done | subst n; simpl length in Hz; lia] |].
  assert (Hcut := scan_by_bytes (buf ++ take n content) (drop n content) sk [] ltac:(constructor)).
  rewrite length_app, length_take in Hcut. specialize (Hcut ltac:(simpl; lia)).
  destruct (scan_buf check sk [] (buf ++ take n content)) as [found [buf' sk']]. destruct Hcut as (He & Hl' & Hs').
  rewrite <- app_assoc, take_drop, by_bytes_front in He by done. simpl app in He. rewrite He.
  destruct found as [i |]; [done |]. simpl in Hn.
  assert (Hd : (length (drop n content) < length sizes)%nat) by (rewrite length_drop; lia).
  destruct (Nat.eqb_spec (length buf') size) as [Hf | Hf]; [| by apply IH; [done | lia |]].
  rewrite IH by (done || constructor). f_equal.
  apply by_bytes_long; [by left | right; lia].
Qed.

Lemma read_lines_answer sizes content : (length content < length sizes)%nat ->
  read_lines check size sizes content [] false = Some (first_answer (removelast (split_on 10 content))).
Proof. intros Hn. rewrite read_lines_by_bytes by (done || constructor). by rewrite by_bytes_lines by constructor. Qed.
End cut.

(** ** What pid.c writes *)

Definition addh (acc c : Z) : Z := Z.lor (Z.shiftl acc 4 mod 2 ^ 64) (hexval c).

Lemma hexval_hex_digit d : 0 <= d < 16 -> hexval (hex_digit d) = d.
Proof.
  intros Hd. unfold hexval, hex_digit. destruct (Z.ltb_spec d 10).
  - rewrite (proj2 (andb_true_iff _ _)) by lia. lia.
  - rewrite (proj2 (andb_false_iff _ _)) by lia. rewrite (proj2 (andb_true_iff _ _)) by lia. lia.
Qed.

Lemma hexrun_app l t : forall acc, Forall (fun c => 0 <= hexval c) l -> hexrun (l ++ t) acc = hexrun t (foldl addh acc l).
Proof.
  induction l as [| c l IH]; intros acc Hl; [done |]. inversion Hl as [| ?? Hc Hl']. subst.
  cbn [app hexrun foldl]. rewrite (proj2 (Z.leb_le _ _)) by done. by apply IH.
Qed.

Lemma addh_digit a d : 0 <= a < 2 ^ 60 -> 0 <= d < 16 -> addh a (hex_digit d) = 16 * a + d.
Proof.
  intros Ha Hd. unfold addh. rewrite hexval_hex_digit, Z.mod_small by (done || (rewrite Z.shiftl_mul_pow2; lia)).
  assert (Hz : Z.land (Z.shiftl a 4) d = 0).
  { apply Z.bits_inj'. intros n Hn. rewrite Z.land_spec, Z.bits_0.
    destruct (Z.lt_ge_cases n 4); [by rewrite Z.shiftl_spec_low |].
    rewrite <- (Z.mod_small d (2 ^ 4)) by lia. by rewrite Z.mod_pow2_bits_high, andb_false_r by lia. }
  rewrite <- Z.lxor_lor, <- Z.add_nocarry_lxor by done. rewrite Z.shiftl_mul_pow2; lia.
Qed.

Lemma hex_digits_spec n : forall x, 0 <= x < 16 ^ Z.of_nat n -> x < 2 ^ 64 ->
  foldl addh 0 (hex_digits n x) = x /\ Forall (fun c => 0 <= hexval c) (hex_digits n x) /\ (length (hex_digits n x) <= n)%nat.
Proof.
  induction n as [| n IH]; intros x Hx Hm; [simpl in Hx; by replace x with 0 by lia |].
  cbn [hex_digits]. pose proof (Z.div_mod x 16 ltac:(lia)). pose proof (Z.mod_pos_bound x 16 ltac:(lia)).
  destruct (Z.ltb_spec x 16).
  - split; [by cbn [foldl]; rewrite addh_digit by lia |]. split; [constructor; [rewrite hexval_hex_digit; lia | done] | simpl; lia].
  - rewrite Nat2Z.inj_succ, Z.pow_succ_r in Hx by lia.
    destruct (IH (x / 16)) as (Hf & Hd & Hl); [lia | lia |]. split; [| split].
    + rewrite foldl_app, Hf. cbn [foldl]. rewrite addh_digit; lia.
    + apply Forall_app. split; [done |]. constructor; [rewrite hexval_hex_digit; lia | done].
    + rewrite length_app. simpl. lia.
Qed.

Lemma zeros_add k l : foldl addh 0 (replicate k 48 ++ l) = foldl addh 0 l.
Proof. induction k as [| k IH]; [done |]. exact IH. Qed.

Lemma hex8_digits x : 0 <= x < 2 ^ 64 -> Forall (fun c => 0 <= hexval c) (hex8 x) /\ (length (hex8 x) <= 16)%nat /\ hex8 x <> [].
Proof.
  intros Hx. destruct (hex_digits_spec 16 x) as (_ & Hd & Hl); [change (16 ^ Z.of_nat 16) with (2 ^ 64); lia | lia |].
  assert (Hn : length (hex8 x) = max 8 (length (hex_digits 16 x))) by (unfold hex8; rewrite length_app, length_replicate; lia).
  split; [apply Forall_app; split; [by apply Forall_replicate | done] |]. split; [lia |].
  intros He. rewrite He in Hn. simpl length in Hn. lia.
Qed.

(** %08llx reads back, up to what is no digit. *)
Lemma hex8_reads x c t : 0 <= x < 2 ^ 64 -> hexval c < 0 -> hexrun (hex8 x ++ c :: t) 0 = (x, c :: t).
Proof.
  intros Hx Hc. destruct (hex_digits_spec 16 x) as (Hf & _); [change (16 ^ Z.of_nat 16) with (2 ^ 64); lia | lia |].
  rewrite hexrun_app by (by apply hex8_digits). unfold hex8. rewrite zeros_add, Hf. cbn [hexrun].
  by rewrite (proj2 (Z.leb_gt _ _)) by done.
Qed.

Definition region_answer (mods : list (Z * cstr)) (stackmark addr : Z) (m : region) : option dl_info :=
  if (mb_state m =? MEM_COMMIT) && (mb_base m <=? addr) && (addr <? region_end m) then
    match snd (region_name mods stackmark m) with Some ((47 :: _) as path) => Some (path, mb_base m) | _ => None end
  else None.

(** A name is a path that fits, or has no slash in it. *)
Definition name_ok (name : option cstr) : Prop :=
  match name with
  | Some ((47 :: _) as path) => (length path < FNAME)%nat /\ lacks 10 path
  | Some name => (length name < FNAME)%nat /\ lacks 10 name /\ lacks 47 name
  | None => True
  end.


Lemma slash_on_front s t : lacks 47 s -> slash_on (s ++ t) = slash_on t.
Proof.
  unfold slash_on. induction 1 as [| c s Hc _ IH]; [done |]. cbn [app has_slash existsb name_len].
  rewrite (proj2 (Z.eqb_neq c 47)) by done. cbn [orb drop]. exact IH.
Qed.

Lemma slash_on_path p : slash_on (47 :: p) = Some (47 :: p).
Proof. done. Qed.

Lemma slash_on_none s : lacks 47 s -> slash_on s = None.
Proof. intros Hs. rewrite <- (app_nil_r s). by rewrite slash_on_front. Qed.

(** A line of a range, then fields without a slash, then the name. *)
Lemma check_range base stop addr fields name : 0 <= base < 2 ^ 64 -> 0 <= stop < 2 ^ 64 -> lacks 47 fields -> name_ok name ->
  check_line addr (hex8 base ++ 45 :: hex8 stop ++ 32 :: fields ++ default [] name) =
  (if (base <=? addr) && (addr <? stop) then
     match name with Some ((47 :: _) as path) => Some (path, base) | _ => None end
   else None).
Proof.
  intros Hb Hs Hf Hn. unfold check_line.
  pose proof (hex8_digits base Hb) as (_ & _ & Hne). pose proof (hex8_digits stop Hs) as (_ & _ & Hne').
  rewrite (hex8_reads base 45) by done.
  rewrite (proj2 (Nat.eqb_neq _ _)) by (rewrite length_app; destruct (hex8 base); [done | simpl; lia]).
  rewrite (hex8_reads stop 32) by done.
  rewrite (proj2 (Nat.eqb_neq _ _)) by (rewrite length_app; destruct (hex8 stop); [done | simpl; lia]).
  rewrite Z.ltb_antisym, (Z.leb_antisym addr stop). destruct (base <=? addr), (addr <? stop); try done. cbn [negb orb andb].
  change (32 :: fields ++ default [] name) with ((32 :: fields) ++ default [] name).
  rewrite slash_on_front by (by constructor).
  destruct name as [[| c p] |]; [done | | done]. simpl default. destruct (Z.eq_dec c 47) as [-> | Hc].
  - destruct Hn as [Hl _]. by rewrite slash_on_path, (proj2 (Nat.leb_gt FNAME _)).
  - assert (Hp : lacks 47 (c :: p)) by (simpl in Hn; repeat case_match; naive_solver). rewrite slash_on_none by done.
    by repeat case_match; simplify_eq.
Qed.

(** What is between the range and the name. *)
Definition plain (s : cstr) : Prop := lacks 47 s /\ lacks 10 s.

Lemma plain_app a b : plain a -> plain b -> plain (a ++ b).
Proof. intros [??] [??]. split; by apply lacks_app. Qed.

Lemma plain_digits s : Forall (fun c => 0 <= hexval c) s -> plain s.
Proof. intros Hs. split; eapply Forall_impl; [done | | done |]; by intros c Hc ->. Qed.

Lemma plain_bytes s : forallb (fun c => negb ((c =? 47) || (c =? 10))) s = true -> plain s.
Proof.
  intros Hs. rewrite forallb_forall in Hs.
  split; apply Forall_forall; intros c Hc ->; apply list_elem_of_In, Hs in Hc; discriminate.
Qed.

Lemma plain_decimal x : 0 <= x -> plain (decimal x).
Proof. intros Hx. split; by apply decimal_lacks. Qed.

Lemma plain_perms m : plain (perms m).
Proof. unfold perms. split; repeat constructor; by repeat case_match. Qed.

Lemma length_decimal x : (length (decimal x) <= 20)%nat.
Proof. apply dec_length. Qed.

(** Appends of pieces of a line. *)
Ltac flat :=
  change (bytes "-") with [45]; change (bytes " ") with [32];
  repeat first [rewrite <- app_assoc | progress cbn [app]]; reflexivity.

Lemma row_shape mods sm m : mb_state m = MEM_COMMIT ->
  exists fields, maps_row mods sm m =
    (hex8 (mb_base m) ++ 45 :: hex8 (region_end m) ++ 32 :: fields ++ default [] (snd (region_name mods sm m))) ++ [10]
  /\ plain fields /\ (length fields <= 60)%nat.
Proof.
  intros Hc. unfold maps_row. rewrite Hc, Z.eqb_refl. simpl negb. cbv iota.
  destruct (region_name mods sm m) as [off name]. simpl snd.
  destruct (hex8_digits (off mod 2 ^ 64)) as (Hd & Hl & _); [by apply Z.mod_pos_bound |]. apply plain_digits in Hd.
  set (front := perms m ++ bytes " " ++ hex8 (off mod 2 ^ 64)).
  assert (Hf : plain front) by (apply plain_app; [apply plain_perms |]; apply plain_app; [by apply plain_bytes | done]).
  assert (Hfl : (length front <= 21)%nat) by (unfold front; rewrite !length_app; simpl; lia).
  assert (Hno : exists fields, (hex8 (mb_base m) ++ bytes "-" ++ hex8 (region_end m) ++ bytes " " ++ front) ++ bytes " 00:00 0 " ++ default [] name ++ lf =
    (hex8 (mb_base m) ++ 45 :: hex8 (region_end m) ++ 32 :: fields ++ default [] name) ++ [10] /\ plain fields /\ (length fields <= 60)%nat).
  { exists (front ++ bytes " 00:00 0 "). split; [flat |].
    split; [apply plain_app; [done | by apply plain_bytes] | rewrite length_app; simpl; lia]. }
  destruct name as [[| c p] |]; [exact Hno | | exact Hno]. destruct (Z.eq_dec c 47) as [-> | Hs].
  - set (ino := decimal (inode_of (47 :: p))). assert (Hi : plain ino) by (apply plain_decimal; apply Z.land_nonneg; by right).
    assert (Hil : (length ino <= 20)%nat) by apply length_decimal.
    exists (front ++ bytes " 08:01 " ++ ino ++ bytes " "). split; [flat |].
    split; [repeat (apply plain_app; [first [done | by apply plain_bytes] |]); by apply plain_bytes | rewrite !length_app; simpl; lia].
  - by repeat case_match; simplify_eq.
Qed.

(** ** The reader over the writer *)

Section maps.
Context (mods : list (Z * cstr)) (stackmark : Z).

(** A region whose base is an address and whose name fits. *)
Definition region_ok (m : region) : Prop := 0 <= mb_base m < 2 ^ 64 /\ name_ok (snd (region_name mods stackmark m)).

Definition region_okb (m : region) : bool :=
  let name := default [] (snd (region_name mods stackmark m)) in
  (0 <=? mb_base m) && (mb_base m <? 2 ^ 64) && (length name <? FNAME)%nat && forallb (fun c => negb (c =? 10)) name &&
  ((name.[0] =? 47) || forallb (fun c => negb (c =? 47)) name).

Lemma lacks_check c s : forallb (fun x => negb (x =? c)) s = true -> lacks c s.
Proof. rewrite forallb_forall. intros Hs. apply Forall_forall. intros x Hx ->. apply list_elem_of_In, Hs in Hx. by rewrite Z.eqb_refl in Hx. Qed.

Lemma region_check m : region_okb m = true -> region_ok m.
Proof.
  unfold region_okb, region_ok. rewrite !andb_true_iff, orb_true_iff, Nat.ltb_lt.
  intros [[[[? ?] Hl] H10] Hs]. split; [lia |]. apply lacks_check in H10.
  destruct (snd (region_name mods stackmark m)) as [[| c p] |]; simpl in *; [split; [done | split; constructor] | | done].
  destruct Hs as [Hs | Hs]; [apply Z.eqb_eq in Hs; change (c = 47) in Hs; subst; exact (conj Hl H10) |]. apply (lacks_check 47 (c :: p)) in Hs. unfold name_ok. by repeat case_match.
Qed.

Lemma name_fits name : name_ok name -> (length (default [] name) < FNAME)%nat /\ lacks 10 (default [] name).
Proof.
  destruct name as [name |]; [| intros; split; [by apply Nat.ltb_lt | constructor]].
  simpl. repeat case_match; naive_solver.
Qed.

(** The line of a region that is committed. *)
Lemma maps_row_line m addr : region_ok m -> mb_state m = MEM_COMMIT ->
  exists line, maps_row mods stackmark m = line ++ [10] /\ lacks 10 line /\ (length line < 8192)%nat /\
    check_line addr line = region_answer mods stackmark addr m.
Proof.
  intros [Hb Hn] Hc. destruct (row_shape mods stackmark m Hc) as (fields & Hrow & Hp & Hl). eexists. split; [exact Hrow |].
  destruct (hex8_digits _ Hb) as (Hd1 & Hl1 & _).
  assert (He : 0 <= region_end m < 2 ^ 64) by (by apply Z.mod_pos_bound). destruct (hex8_digits _ He) as (Hd2 & Hl2 & _).
  destruct (name_fits _ Hn) as [Hnl Hn10]. split; [| split].
  - apply lacks_app; [by apply plain_digits |]. constructor; [done |]. apply lacks_app; [by apply plain_digits |].
    constructor; [done |]. apply lacks_app; [apply Hp | done].
  - assert (HF : (97 + FNAME <= 8192)%nat) by (by apply Nat.leb_le). eapply Nat.lt_le_trans; [| exact HF].
    rewrite length_app. cbn [length]. rewrite length_app. cbn [length]. rewrite length_app. lia.
  - rewrite check_range by (done || apply Hp). unfold region_answer. by rewrite Hc, Z.eqb_refl.
Qed.

Definition maps_text (ms : list region) : cstr := concat (map (maps_row mods stackmark) ms).

Lemma maps_answer addr ms : Forall region_ok ms ->
  first_answer (check_line addr) 8192 (removelast (split_on 10 (maps_text ms))) = head (omap (region_answer mods stackmark addr) ms).
Proof.
  unfold maps_text. induction 1 as [| m ms Hm _ IH]; [done |]. cbn [map concat].
  destruct (Z.eq_dec (mb_state m) MEM_COMMIT) as [Hc | Hc].
  - destruct (maps_row_line m addr Hm Hc) as (line & -> & Hl & Hs & Hans). rewrite <- app_assoc. cbn [app].
    rewrite split_on_app by done. cbn [removelast].
    destruct (split_on 10 (concat (map (maps_row mods stackmark) ms))) eqn:E; [by apply split_on_nonempty in E |].
    rewrite <- E in *. cbn [first_answer]. rewrite (proj2 (Nat.ltb_lt _ _)), Hans, IH by done.
    simpl. by destruct (region_answer mods stackmark addr m).
  - assert (maps_row mods stackmark m = []) as -> by (unfold maps_row; by rewrite (proj2 (Z.eqb_neq _ _))).
    cbn [app]. rewrite IH. simpl. unfold region_answer at 2. by rewrite (proj2 (Z.eqb_neq (mb_state m) _)).
Qed.
End maps.

(** C37: dladdr over the text /proc/<pid>/maps is given for a process's regions,
    however the kernel cuts that text into reads, ends and answers the base and
    the path of the first committed region that holds the address and is mapped
    from a file. The text is the one pid.c writes in Linux's format; the code
    reads the kernel's own, on Linux. *)
Theorem dladdr_reads_maps mods stackmark ms sizes addr :
  Forall (region_ok mods stackmark) ms -> (length (maps_text mods stackmark ms) < length sizes)%nat ->
  dladdr true (Some (maps_text mods stackmark ms)) sizes addr = Some (head (omap (region_answer mods stackmark addr) ms)).
Proof. intros Hms Hn. unfold dladdr. cbn [negb]. rewrite read_lines_answer by (done || by apply Nat.ltb_lt). by rewrite maps_answer. Qed.

(** Two modules and a stack between them, read seven bytes at a time. *)
Lemma dladdr_reads_maps_witness :
  let mods := [(0x400000, bytes "/C/a b.exe"); (0x7ff000000000, bytes "/C/Windows/ntdll.dll")] in
  let ms := [Region 0x400000 0x400000 0x1000 MEM_COMMIT 4 MEM_IMAGE; Region 0x500000 0x500000 0x1000 MEM_COMMIT 4 0;
             Region 0x7ff000001000 0x7ff000000000 0x1000 MEM_COMMIT 0x20 MEM_IMAGE] in
  dladdr true (Some (maps_text mods 0x500010 ms)) (replicate 1000 6%nat) 0x7ff000001abc = Some (Some (bytes "/C/Windows/ntdll.dll", 0x7ff000001000))
  /\ dladdr true (Some (maps_text mods 0x500010 ms)) (replicate 1000 6%nat) 0x500010 = Some None.
Proof.
  intros mods ms.
  assert (Hok : Forall (region_ok mods 0x500010) ms) by (repeat (apply Forall_cons_2; [by apply region_check |]); apply Forall_nil_2).
  assert (Hn : (length (maps_text mods 0x500010 ms) < length (replicate 1000 6%nat))%nat) by (by apply Nat.ltb_lt).
  split; [rewrite (dladdr_reads_maps mods 0x500010 ms (replicate 1000 6%nat) 0x7ff000001abc Hok Hn); vm_compute; done |].
  rewrite (dladdr_reads_maps mods 0x500010 ms (replicate 1000 6%nat) 0x500010 Hok Hn). vm_compute. done.
Defined.
