(* ===== verification/Spawn.v ===== *)
(** * ntspawn.c, starting a program on Windows

    Behind execve and posix_spawn: the file is opened, its first bytes say
    whether it is a Windows program, an APE or a script, the command line is
    made, and CreateProcess is called. The buffers come from a heap and hold
    anything. The theorems: a script's first line is read as written; what a
    started process is given is the program's, or the interpreter's, path and
    the command line of the arguments; every outcome closes what it opened,
    and of a started process only the handles that the caller is given for it
    stay open. *)
From S2P Require Import Prelude Host PfsText CmdLine FileCalls.

(** ** The system *)

(** [sp_path] is __mkntpathath; [sp_fallback] the executable-suffix retry;
    [sp_env] the environment block; [sp_attributes] whether the list of
    attributes is made; [sp_create] CreateProcess with the path and the
    command line, which answers the handles of the process and its thread if
    the caller asked for them ([opt_out_lpProcessInformation]). *)
Class SpawnHost (W : Type) := {
  sp_path : cstr -> res (list Z);
  sp_lasterror : W -> Z;
  sp_event : W -> option Z * W;
  sp_read : Z -> nat -> W -> option (list Z);
  sp_exists : cstr -> W -> bool;
  sp_fallback : cstr -> option cstr;
  sp_env : res (list Z);
  sp_attributes : W -> bool * W;
  sp_create : list Z -> list Z -> list Z -> W -> option (gset Z) * W;
  sp_fix_enotdir : errno -> list Z -> W -> errno }.

Definition kNtErrorSharingViolation : Z := 32.
Definition kNtErrorInvalidName : Z := 123.
Definition kNtErrorSymlinkClassDisabled : Z := 1463.
Definition kNtErrorCantAccessFile : Z := 1920.

(** The size of the buffers. *)
Definition BLOCK : nat := 32767.

(** ** What the file is *)

Definition blank (c : Z) : bool := (c =? 32) || (c =? 9).

Fixpoint skip_ws (s : list Z) : list Z := match s with c :: s' => if blank c then skip_ws s' else s | [] => [] end.
Fixpoint ws_word (s : list Z) : list Z := match s with c :: s' => if blank c then [] else c :: ws_word s' | [] => [] end.
Fixpoint line_of (s : list Z) : option (list Z) :=
  match s with c :: s' => if c =? 10 then Some [] else (fun l => c :: l) <$> line_of s' | [] => None end.
Fixpoint until_nul (s : list Z) : cstr := match s with c :: s' => if c =? 0 then [] else c :: until_nul s' | [] => [] end.

(** The interpreter and its argument, from what is behind "#!". *)
Definition shebang (p : list Z) : option (list cstr) :=
  match line_of p with
  | None => None
  | Some line =>
      let p := skip_ws line in
      if bool_decide (p = []) then None
      else
        let arg := skip_ws (drop (length (ws_word p)) p) in
        Some (until_nul (ws_word p) :: (if bool_decide (arg = []) then [] else [until_nul arg]))
  end.

(** A program, which reads unix paths itself or not; a script. *)
Inductive file_kind := Program (native : bool) | Script (argv : list cstr).

Definition classify (p : list Z) : option file_kind :=
  if (length p <? 3)%nat then None
  else if bool_decide (take 2 p = bytes "MZ") then
    Some (Program (negb ((8 <=? length p)%nat &&
      (bool_decide (take 8 p = bytes "MZqFpD='") || bool_decide (take 8 p = bytes "jartsr='")))))
  else if bool_decide (take 2 p = bytes "#!") then Script <$> shebang (drop 2 p)
  else None.

(** ** The command line *)

Section spawn.
Context {W : Type} `{FileHost W} `{SpawnHost W} `{Encoders}.

(** The arguments written behind the first [i] units of the buffer. *)
Definition place_args (native : bool) (argv : list cstr) (buf : list Z) (i : nat) : list Z * nat :=
  let '(out, k) := shim_mkntcmdline native argv (drop i buf) in (take i buf ++ out, (i + k)%nat).

(** The interpreter's part, with a blank behind it. *)
Definition put_script (sargv : list cstr) (buf : list Z) : option (list Z * nat) :=
  let '(buf, i) := place_args true sargv buf 0 in
  if (BLOCK - 1 <=? i)%nat then None else Some (<[S i := 0]> (<[i := 32]> buf), S i).

(** ** The file's first bytes *)

Definition ntspawn_read (h : Z) (len : nat) : M W (option (list Z)) :=
  event ← step sp_event;
  match event with
  | None => mret None
  | Some event => r ← reads (sp_read h len); _ ← modifies (fh_close event); mret r
  end.

(** The file opened, read and closed. *)
Definition read_head (path : list Z) : M W (res (list Z)) :=
  h ← step (fh_create path kNtFileGenericRead);
  match h with
  | None =>
      err ← reads sp_lasterror;
      e ← reads fh_winerr;
      mret (Err (if (err =? kNtErrorSymlinkClassDisabled) || (err =? kNtErrorCantAccessFile) then EACCES else e))
  | Some h => p ← ntspawn_read h BLOCK; _ ← modifies (fh_close h); mret (Ok (default [] p))
  end.

(** The interpreter's file, an executable suffix tried when there is none. *)
Definition interpreter (cwd : bool) (interp : cstr) (w : W) : cstr :=
  if ((interp.[0] =? 47) || cwd) && negb (sp_exists interp w) then default interp (sp_fallback interp) else interp.

(** Which path is started, the buffer with what is before the arguments and
    how much of it that is, the arguments, and whether they are rewritten. *)
Definition prepared : Type := list Z * (list Z * nat) * list cstr * bool.

Definition prepare (cwd : bool) (prog : cstr) (argv : list cstr) (path p buf : list Z) (w : W) : res prepared :=
  match classify p with
  | None => Err ENOEXEC
  | Some (Program native) => Ok (path, (buf, 0%nat), argv, native)
  | Some (Script sargv) =>
      match put_script (sargv ++ [prog]) buf with
      | None => Err E2BIG
      | Some st =>
          match sp_path (interpreter cwd (hd [] sargv) w) with
          | Err e => Err e
          | Ok path => Ok (path, st, tl argv, true)
          end
      end
  end.

(** ** The process *)

(** [Ok hs]: 0, and [hs] are the caller's. *)
Definition create_process (path cmdline env : list Z) : M W (res (gset Z)) :=
  made ← step sp_attributes;
  if negb made then e ← reads fh_winerr; mret (Err e)
  else
    info ← step (sp_create path cmdline env);
    err ← reads sp_lasterror;
    e ← reads fh_winerr;
    match info with
    | Some hs => mret (Ok hs)
    | None =>
        let e := if err =? kNtErrorSharingViolation then ETXTBSY else if err =? kNtErrorInvalidName then ENOENT else e in
        e ← reads (sp_fix_enotdir e path);
        mret (Err e)
    end.

Definition ntspawn2 (cwd : bool) (prog : cstr) (argv : list cstr) (buf : list Z) : M W (res (gset Z)) :=
  match sp_path prog with
  | Err e => mret (Err e)
  | Ok path =>
      head ← read_head path;
      match head with
      | Err e => mret (Err e)
      | Ok p =>
          prep ← reads (prepare cwd prog argv path p buf);
          match prep with
          | Err e => mret (Err e)
          | Ok (path, (buf, i), argv, native) =>
              let '(buf, i) := place_args native argv buf i in
              if (BLOCK <=? i)%nat then mret (Err E2BIG)
              else match sp_env with
                   | Err e => mret (Err e)
                   | Ok env => create_process path (until_nul buf) env
                   end
          end
      end
  end.

(** [buf] is the heap's block, or that there is none. *)
Definition ntspawn (cwd : bool) (prog : cstr) (argv : list cstr) (buf : option (list Z)) : M W (res (gset Z)) :=
  match buf with None => mret (Err ENOMEM) | Some buf => ntspawn2 cwd prog argv buf end.
End spawn.

(** ** A script's first line *)

Lemma line_of_app l rest : Forall (fun c => c <> 10) l -> line_of (l ++ 10 :: rest) = Some l.
Proof.
  induction 1 as [| c l Hc _ IH]; [done |]. cbn [app line_of]. by rewrite (proj2 (Z.eqb_neq c 10)), IH.
Qed.

Lemma skip_blanks_app b s : forallb blank b = true -> skip_ws (b ++ s) = skip_ws s.
Proof. induction b as [| c b IH]; [done |]. simpl. rewrite andb_true_iff. intros [-> Hb]. by apply IH. Qed.

Lemma word_app w s : existsb blank w = false -> match s with [] => True | c :: _ => blank c = true end -> ws_word (w ++ s) = w.
Proof.
  intros Hw Hs. induction w as [| c w IH]; [destruct s as [| d s]; simpl; [done |]; by rewrite Hs |].
  simpl in Hw |- *. apply orb_false_iff in Hw as [-> Hw]. by rewrite IH.
Qed.

Lemma skip_blanks_word w : match w with [] => True | c :: _ => blank c = false end -> skip_ws w = w.
Proof. destruct w as [| c w]; [done |]. simpl. by intros ->. Qed.

Lemma until_nul_plain s : Forall (fun c => c <> 0) s -> until_nul s = s.
Proof. induction 1 as [| c s Hc _ IH]; [done |]. cbn [until_nul]. by rewrite (proj2 (Z.eqb_neq c 0)), IH. Qed.

Lemma before_nul s t : Forall (fun c => c <> 0) s -> until_nul (s ++ 0 :: t) = s.
Proof. induction 1 as [| c s Hc _ IH]; [done |]. cbn [app until_nul]. by rewrite (proj2 (Z.eqb_neq c 0)), IH. Qed.

(** A piece of the first line: no end of line or of string in it. *)
Definition text (s : cstr) : Prop := Forall (fun c => c <> 10) s /\ Forall (fun c => c <> 0) s.

Lemma text_blanks b : forallb blank b = true -> text b.
Proof.
  intros Hb. rewrite forallb_forall in Hb. split; apply Forall_forall; intros c Hc ->; apply list_elem_of_In, Hb in Hc; done.
Qed.

(** "#! interp arg" is read as its two words, whatever blanks are around
    them; the argument keeps the blanks inside it. *)
Lemma shebang_reads b1 interp b2 arg rest :
  forallb blank b1 = true -> forallb blank b2 = true -> text interp -> text arg ->
  interp <> [] -> existsb blank interp = false -> arg = [] \/ b2 <> [] -> match arg with [] => True | c :: _ => blank c = false end ->
  shebang (b1 ++ interp ++ b2 ++ arg ++ 10 :: rest) = Some (interp :: if bool_decide (arg = []) then [] else [arg]).
Proof.
  intros Hb1 Hb2 Hi Ha Hne Hw Hsep Harg. unfold shebang.
  replace (b1 ++ interp ++ b2 ++ arg ++ 10 :: rest) with ((b1 ++ interp ++ b2 ++ arg) ++ 10 :: rest) by (by rewrite <- !app_assoc).
  rewrite line_of_app by (repeat (apply Forall_app; split); first [by apply text_blanks | apply Hi | apply Ha]).
  rewrite skip_blanks_app by done.
  rewrite skip_blanks_word by (destruct interp as [| c i]; [done | simpl in *; by apply orb_false_iff in Hw as [-> _]]).
  rewrite bool_decide_eq_false_2 by (by destruct interp).
  rewrite word_app; [| done |].
  2: { destruct b2 as [| c b2]; [| simpl in *; by apply andb_true_iff in Hb2 as [-> _]]. by destruct Hsep as [-> |]. }
  rewrite drop_app_length, skip_blanks_app by done. rewrite skip_blanks_word by done.
  rewrite !until_nul_plain by (apply Hi || apply Ha). done.
Qed.

(** *** What a file's first bytes make of it

    Stated without the reader: an APE begins with its magic; any other
    Windows program with "MZ"; a script with "#!", blanks, a word, and, after
    more blanks, the rest of the first line as one argument, both as C
    strings. *)

(** [x] is what C sees of [s]. *)
Definition c_string (s : list Z) (x : cstr) : Prop :=
  Forall (fun c => c <> 0) x /\ exists t, s = x ++ t /\ (t = [] \/ exists t', t = 0 :: t').

Inductive image : list Z -> file_kind -> Prop :=
  | image_ape rest : image (bytes "MZqFpD='" ++ rest) (Program false)
  | image_windows p rest : p = bytes "MZ" ++ rest -> rest <> [] ->
      (forall r, p <> bytes "MZqFpD='" ++ r) -> image p (Program true)
  | image_script b1 word b2 rest interp : Forall (fun c => c = 32 \/ c = 9) (b1 ++ b2) ->
      word <> [] -> Forall (fun c => c <> 10 /\ c <> 32 /\ c <> 9) word -> c_string word interp ->
      image (bytes "#!" ++ b1 ++ word ++ b2 ++ 10 :: rest) (Script [interp])
  | image_script_arg b1 word b2 tail rest interp arg : Forall (fun c => c = 32 \/ c = 9) (b1 ++ b2) ->
      word <> [] -> Forall (fun c => c <> 10 /\ c <> 32 /\ c <> 9) word -> c_string word interp -> b2 <> [] ->
      (exists c l, tail = c :: l /\ c <> 32 /\ c <> 9) -> Forall (fun c => c <> 10) tail -> c_string tail arg ->
      image (bytes "#!" ++ b1 ++ word ++ b2 ++ tail ++ 10 :: rest) (Script [interp; arg]).

Lemma blank_spec c : blank c = true <-> c = 32 \/ c = 9.
Proof. unfold blank. lia. Qed.

Lemma until_nul_c_string s : c_string s (until_nul s).
Proof.
  induction s as [|c s [Hn (t & Hs & Ht)]]; [split; [constructor|exists []; auto]|]. cbn [until_nul].
  destruct (Z.eqb_spec c 0) as [->|Hc].
  - split; [constructor|]. exists (0 :: s). split; [done|]. right. by eexists.
  - split; [by constructor|]. exists t. rewrite Hs at 1. by split.
Qed.

Lemma line_of_spec p line : line_of p = Some line -> Forall (fun c => c <> 10) line /\ exists rest, p = line ++ 10 :: rest.
Proof.
  revert line. induction p as [|c p IH]; intros line; [done|]. cbn [line_of]. destruct (Z.eqb_spec c 10) as [->|Hc].
  - intros [= <-]. split; [constructor|by exists p].
  - destruct (line_of p) as [l|]; [|done]. intros [= <-]. destruct (IH l eq_refl) as (Hl & rest & ->).
    split; [by constructor|by exists rest].
Qed.

Lemma skip_ws_spec s : exists b, s = b ++ skip_ws s /\ Forall (fun c => c = 32 \/ c = 9) b /\
  match skip_ws s with [] => True | c :: _ => c <> 32 /\ c <> 9 end.
Proof.
  induction s as [|c s (b & Hs & Hb & Hh)]; [by exists []|]. cbn [skip_ws]. destruct (blank c) eqn:E.
  - apply blank_spec in E. exists (c :: b). split_and!; [by rewrite Hs at 1|by constructor|done].
  - exists []. split; [done|]. split; [constructor|]. split; intros ->; done.
Qed.

Lemma ws_word_spec s : exists r, s = ws_word s ++ r /\ drop (length (ws_word s)) s = r /\
  Forall (fun c => c <> 32 /\ c <> 9) (ws_word s) /\ match r with [] => True | c :: _ => c = 32 \/ c = 9 end.
Proof.
  induction s as [|c s (r & Hs & Hd & Hw & Hh)]; [by exists []|]. cbn [ws_word]. destruct (blank c) eqn:E.
  - exists (c :: s). split_and!; [done|done|constructor|by apply blank_spec].
  - exists r. split_and!; [by rewrite Hs at 1|done| |done]. constructor; [|done]. split; intros ->; done.
Qed.

(** A script's first line is blanks, a word, blanks and the rest. *)
Lemma shebang_image p sargv : shebang p = Some sargv -> image (bytes "#!" ++ p) (Script sargv).
Proof.
  unfold shebang. destruct (line_of p) as [line|] eqn:El; [|done]. apply line_of_spec in El as (Hline & rest & ->).
  destruct (skip_ws_spec line) as (b1 & Hb & Hb1 & Hhd). set (q := skip_ws line) in *.
  case_bool_decide as Hq; [done|]. destruct (ws_word_spec q) as (r & Hr & Hdrop & Hw & Hrh). rewrite Hdrop.
  destruct (skip_ws_spec r) as (b2 & Hb2e & Hb2 & Htl). set (tail := skip_ws r) in *.
  assert (Hword : ws_word q <> []).
  { intros E. rewrite E in Hr. cbn in Hr. rewrite <- Hr in Hrh. destruct q; [done|]. destruct Hhd, Hrh; done. }
  set (word := ws_word q) in *. rewrite Hb, Hr, Hb2e in Hline.
  apply Forall_app in Hline as [_ Hline]. apply Forall_app in Hline as [Hw10 Hline]. apply Forall_app in Hline as [_ Ht10].
  assert (Hwf : Forall (fun c => c <> 10 /\ c <> 32 /\ c <> 9) word).
  { apply Forall_forall. intros c Hc. rewrite Forall_forall in Hw10, Hw. split; [by apply Hw10|by apply Hw]. }
  assert (Hbb : Forall (fun c => c = 32 \/ c = 9) (b1 ++ b2)) by (by apply Forall_app).
  rewrite Hb, Hr, Hb2e. rewrite <- !app_assoc. case_bool_decide as Ht; intros [= <-].
  - rewrite Ht. cbn [app]. apply image_script; [done|done|done|apply until_nul_c_string].
  - apply image_script_arg; [done|done|done|apply until_nul_c_string| | |done|apply until_nul_c_string].
    + intros ->. cbn in Hb2e. rewrite <- Hb2e in Htl. destruct r; [done|]. destruct Htl, Hrh; done.
    + destruct tail as [|c l]; [done|]. by exists c, l.
Qed.

Lemma take_bytes (s : cstr) p : take (length s) p = s -> exists rest, p = s ++ rest.
Proof. intros E. exists (drop (length s) p). by rewrite <- E at 1; rewrite take_drop. Qed.

Lemma classify_image p img : classify p = Some img -> image p img.
Proof.
  unfold classify. destruct (Nat.ltb_spec (length p) 3) as [|Hlen]; [done|].
  case_bool_decide as Hmz.
  - intros [= <-]. destruct (_ && _) eqn:E; cbn [negb].
    + apply andb_true_iff in E as [_ E]. apply orb_true_iff in E as [E|E]; apply bool_decide_eq_true in E.
      * apply (take_bytes (bytes "MZqFpD='")) in E as [rest ->]. apply image_ape.
      * apply (take_bytes (bytes "jartsr='")) in E as [rest ->]. done.
    + apply (take_bytes (bytes "MZ")) in Hmz as [rest ->]. eapply image_windows; [done|by destruct rest; cbn in Hlen; try lia|].
      intros r Hr. rewrite Hr in E. by cbn in E.
  - case_bool_decide as Hsh; [|done]. destruct (shebang (drop 2 p)) as [sargv|] eqn:Es; [|done]. intros [= <-].
    apply shebang_image in Es. apply (take_bytes (bytes "#!")) in Hsh as [rest ->]. exact Es.
Qed.

(** ** The command line *)

Section line.
Context `{Encoders}.
Hypothesis utf16_nonzero : forall x, x <> 0 -> Z.land (EncodeUtf16 x) 0xFFFF <> 0.

Definition nonzero (s : list Z) : Prop := Forall (fun c => c <> 0) s.

Lemma append_w_nonzero x : x <> 0 -> nonzero (append_w (EncodeUtf16 x)).
Proof.
  intros Hx. constructor; [by apply utf16_nonzero |]. case_match eqn:E; [constructor |]. apply Z.eqb_neq in E. by repeat constructor.
Qed.

Lemma encode_arg_nonzero fuel : forall s n, nonzero (fst (encode_arg fuel s n)).
Proof.
  induction fuel as [| fuel IH]; intros s n; [constructor |]. cbn [encode_arg]. destruct s as [| b s]; [constructor |].
  destruct (if 192 <=? b then _ else _) as [x s']. destruct (Z.eqb_spec x 0); [constructor |]. destruct (x =? 92); [apply IH |].
  destruct (x =? 34).
  - specialize (IH s' n). destruct (encode_arg fuel s' n). by repeat constructor.
  - specialize (IH s' 0%nat). destruct (encode_arg fuel s' 0).
    repeat (apply Forall_app; split); [by apply Forall_replicate | by apply append_w_nonzero | done].
Qed.

Lemma encode_one_nonzero a : nonzero (encode_one a).
Proof.
  unfold encode_one. pose proof (encode_arg_nonzero (S (length a)) a 0) as Ha. destruct (encode_arg _ a 0) as [out n].
  repeat (apply Forall_app; split); try done; try (by apply Forall_replicate); by destruct (NeedsQuotes a); repeat constructor.
Qed.

Lemma encode_argv_nonzero native argv : forall first, nonzero (encode_argv native first argv).
Proof.
  induction argv as [| a argv IH]; intros first; [constructor |]. cbn [encode_argv].
  repeat (apply Forall_app; split); [by destruct first; repeat constructor | apply encode_one_nonzero | apply IH].
Qed.

(** Arguments put behind [i] units, and whether they fit. *)
Lemma put_args_spec native argv buf i : (i < length buf)%nat ->
  let line := encode_argv native true argv in
  let '(out, j) := place_args native argv buf i in
  j = (i + length line)%nat /\ length out = length buf /\
  ((j < length buf)%nat -> take j out = take i buf ++ line /\ out !! j = Some 0).
Proof.
  intros Hi line. unfold place_args. pose proof (mkntcmdline_truncates native argv (drop i buf)) as Ht. cbv zeta in Ht. fold line in Ht.
  destruct (shim_mkntcmdline native argv (drop i buf)) as [out k]. destruct Ht as (-> & Hl & Ht).
  rewrite length_drop in *. split; [done |]. split; [rewrite length_app, length_take, Hl; lia |]. intros Hj.
  destruct (Ht ltac:(intros He; apply (f_equal length) in He; rewrite length_drop in He; simpl in He; lia)) as (Hm & Hz & _).
  replace (Nat.min (length line) (length buf - i - 1)) with (length line) in * by lia.
  rewrite (take_ge line) in Hm by lia. split.
  - rewrite take_app, length_take, take_take. replace (Nat.min (i + length line) i) with i by lia.
    replace (i + length line - Nat.min i (length buf))%nat with (length line) by lia. by rewrite Hm.
  - rewrite lookup_app_r by (rewrite length_take; lia). rewrite length_take.
    by replace (i + length line - Nat.min i (length buf))%nat with (length line) by lia.
Qed.

Lemma until_nul_at buf j s : take j buf = s -> nonzero s -> buf !! j = Some 0 -> until_nul buf = s.
Proof.
  intros Ht Hs Hz. rewrite <- (take_drop j buf). apply lookup_lt_Some in Hz as Hl. destruct (drop j buf) as [| c r] eqn:E.
  - apply (f_equal length) in E. rewrite length_drop in E. simpl in E. lia.
  - assert (c = 0) as ->. { assert (Hd : drop j buf !! 0%nat = Some c) by (by rewrite E). rewrite lookup_drop, Nat.add_0_r in Hd. congruence. }
    rewrite Ht. by apply before_nul.
Qed.

Lemma put_script_spec sargv buf buf' i : length buf = BLOCK -> put_script sargv buf = Some (buf', i) ->
  (i < BLOCK)%nat /\ length buf' = BLOCK /\ take i buf' = encode_argv true true sargv ++ [32].
Proof.
  intros Hb. unfold put_script. pose proof (put_args_spec true sargv buf 0) as Hp. cbv zeta in Hp.
  destruct (place_args true sargv buf 0) as [out j]. rewrite Hb in Hp.
  destruct (Hp ltac:(by apply Nat.ltb_lt)) as (-> & Hl & Hin). clear Hp. simpl plus in *.
  destruct (Nat.leb_spec (BLOCK - 1) (length (encode_argv true true sargv))) as [| Hlt]; [done |]. intros [= <- <-].
  destruct Hin as [Ht _]; [lia |]. split; [lia |]. split; [by rewrite !length_insert |].
  rewrite take_insert_ge by lia. rewrite (take_S_r _ _ 32) by (apply list_lookup_insert_eq; lia).
  by rewrite take_insert_ge, Ht by lia.
Qed.
End line.

Section started.
Context {W : Type} `{FileHost W} `{SpawnHost W} `{Encoders}.
Hypothesis utf16_nonzero : forall x, x <> 0 -> Z.land (EncodeUtf16 x) 0xFFFF <> 0.

(** The command line a file's kind asks for. *)
Definition given_line (img : file_kind) (prog : cstr) (argv : list cstr) : list Z :=
  match img with
  | Program native => encode_argv native true argv
  | Script sargv => encode_argv true true (sargv ++ [prog]) ++ 32 :: encode_argv true true (tl argv)
  end.

(** The file that is started: the program, or a script's interpreter, or,
    when there is none of that name, the name with an executable suffix. *)
Definition given_path (img : file_kind) (path path' : list Z) : Prop :=
  match img with
  | Program _ => path' = path
  | Script sargv =>
      exists interp args file w, sargv = interp :: args /\ sp_path file = Ok path' /\
        (file = interp \/ sp_exists interp w = false /\ sp_fallback interp = Some file)
  end.

Lemma image_script_args p sargv : image p (Script sargv) -> exists interp args, sargv = interp :: args.
Proof. inversion 1; by eexists _, _. Qed.

Lemma interpreter_given cwd interp args path path' w :
  sp_path (interpreter cwd interp w) = Ok path' -> given_path (Script (interp :: args)) path path'.
Proof.
  intros Hp. exists interp, args, (interpreter cwd interp w), w. split_and!; [done|done|].
  unfold interpreter. destruct (_ && negb (sp_exists interp w)) eqn:E; [|by left].
  apply andb_true_iff in E as [_ E%negb_true_iff]. destruct (sp_fallback interp) as [f|]; [by right|by left].
Qed.

Lemma prepare_spec cwd prog argv path p buf w path' buf' i argv' native : length buf = BLOCK ->
  prepare cwd prog argv path p buf w = Ok (path', (buf', i), argv', native) ->
  exists img, image p img /\ given_path img path path' /\ length buf' = BLOCK /\ (i < BLOCK)%nat /\
    take i buf' ++ encode_argv native true argv' = given_line img prog argv.
Proof.
  intros Hb. unfold prepare. destruct (classify p) as [[n | sargv] |] eqn:Ec; [| | done]; apply classify_image in Ec.
  - intros [= <- <- <- <- <-]. exists (Program n). split_and!; try done. by apply Nat.ltb_lt.
  - destruct (put_script _ buf) as [[buf1 i1] |] eqn:Hp; [| done].
    destruct (sp_path _) as [path1 | e] eqn:Hpath; [| done]. intros [= <- <- <- <- <-].
    destruct (put_script_spec _ _ _ _ Hb Hp) as (Hi & Hl & Ht). exists (Script sargv).
    destruct (image_script_args _ _ Ec) as (interp & args & ->). split_and!; try done; [by eapply interpreter_given |].
    rewrite Ht. simpl. by rewrite <- app_assoc.
Qed.

Lemma given_line_nonzero img prog argv : nonzero (given_line img prog argv).
Proof.
  destruct img as [n | sargv]; [by apply encode_argv_nonzero |]. apply Forall_app. split; [by apply encode_argv_nonzero |].
  constructor; [done | by apply encode_argv_nonzero].
Qed.

(** The buffer as CreateProcess reads it. *)
Lemma whole_line native argv buf i : (i < length buf)%nat -> nonzero (take i buf ++ encode_argv native true argv) ->
  let '(out, j) := place_args native argv buf i in
  j = (i + length (encode_argv native true argv))%nat /\
  ((j < length buf)%nat -> until_nul out = take i buf ++ encode_argv native true argv).
Proof.
  intros Hi Hn. pose proof (put_args_spec native argv buf i Hi) as Hp. cbv zeta in Hp.
  destruct (place_args native argv buf i) as [out j]. destruct Hp as (Hj & _ & Hp). split; [done |]. intros Hlt.
  destruct (Hp Hlt) as [Ht Hz]. by apply (until_nul_at out j).
Qed.

(** An answer of a call that may leave a process's handles to its caller. *)
Definition hands_over (w : W) (r : res (gset Z)) (w' : W) : Prop :=
  match r with
  | Ok hs => hs ## fh_open w /\ fh_open w' = hs ∪ fh_open w
  | Err _ => fh_open w' = fh_open w
  end.

Section closing.
Context `{!FileHostOk (W := W)}.
Hypothesis event_gives : forall w, gives w (sp_event w).
Hypothesis attributes_open : forall w, fh_open (snd (sp_attributes w)) = fh_open w.
(** CreateProcess opens the handles it answers and no other. *)
Hypothesis create_gives_handles : forall p l e w,
  hands_over w (match fst (sp_create p l e w) with Some hs => Ok hs | None => Err EIO end) (snd (sp_create p l e w)).

Lemma create_process_spec path cmdline env w :
  exists r w', create_process path cmdline env w = Some (r, w') /\ hands_over w r w' /\
    (forall hs, r = Ok hs -> exists w1, sp_create path cmdline env w1 = (Some hs, w')).
Proof.
  unfold create_process. autorewrite with run. pose proof (attributes_open w) as Ha.
  destruct (sp_attributes w) as [[] w1]; cbn [fst snd negb] in *; autorewrite with run.
  2: { eexists _, w1. split; [done|]. by split. }
  pose proof (create_gives_handles path cmdline env w1) as Hc.
  destruct (sp_create path cmdline env w1) as [[hs|] w2] eqn:E; cbn [fst snd] in *; autorewrite with run; unfold hands_over in *; rewrite Ha in Hc.
  - exists (Ok hs), w2. split; [done|]. split; [exact Hc|]. intros hs' [= ->]. by exists w1.
  - eexists _, w2. split; [done|]. by split.
Qed.

Lemma ntspawn_read_closes h len : closes ∅ (ntspawn_read h len).
Proof.
  apply ends_open; [done | by apply ends_ret | intros e]. apply ends_reads; intros r. by apply ends_close, ends_ret.
Qed.

Lemma read_head_closes path : closes ∅ (read_head path).
Proof.
  apply ends_open; [apply create_gives | by repeat (apply ends_reads; intros ?); apply ends_ret | intros h].
  apply ends_bind; [apply ntspawn_read_closes | intros p; by apply ends_close, ends_ret].
Qed.

(** A head that says something was read from the file of that path. *)
Lemma read_head_ok path w p w' : read_head path w = Some (Ok p, w') -> p <> [] ->
  exists h w1 e w2, fh_create path kNtFileGenericRead w = (Some h, w1) /\ sp_event w1 = (Some e, w2) /\ sp_read h BLOCK w2 = Some p.
Proof.
  unfold read_head. autorewrite with run. destruct (fh_create path kNtFileGenericRead w) as [[h |] w1]; cbn [fst snd].
  - unfold ntspawn_read. rewrite bind_Some. intros (r & w2 & Hr & Hp) Hne. autorewrite with run in Hr, Hp. injection Hp as <- _.
    destruct (sp_event w1) as [[e |] w3] eqn:Ev; cbn [fst snd] in Hr; [| by injection Hr as <- _].
    autorewrite with run in Hr. injection Hr as <- _. destruct (sp_read h BLOCK w3) eqn:E; [| done]. by exists h, w1, e, w3.
  - autorewrite with run. intros [=].
Qed.

Lemma image_nonempty p img : image p img -> p <> [].
Proof. by destruct 1; subst. Qed.
End closing.

(** C38: whatever was in its buffers and whatever calls fail, ntspawn ends and
    closes every handle it opened; of a started process only the handles that
    CreateProcess answers for the caller are left. When it reports success,
    CreateProcess has succeeded: the program's own file was opened and its
    first bytes read; for an APE or another Windows program they say, on that
    path; for a script on the interpreter its first line names, or on that
    name with an executable suffix when there is none such; and the command
    line is that of the arguments, rewritten for a native program only, with
    the interpreter's words and the script's name in front, complete. *)
Theorem spawn_starts_what_it_says `{!FileHostOk (W := W)} cwd prog argv buf w :
  (forall w, gives w (sp_event w)) -> (forall w, fh_open (snd (sp_attributes w)) = fh_open w) ->
  (forall p l e w, hands_over w (match fst (sp_create p l e w) with Some hs => Ok hs | None => Err EIO end)
                     (snd (sp_create p l e w))) ->
  length buf = BLOCK ->
  exists r w', ntspawn cwd prog argv (Some buf) w = Some (r, w') /\ hands_over w r w' /\
    (forall hs, r = Ok hs -> exists img p path0 path env h w1 e w2 w3,
       sp_path prog = Ok path0 /\ fh_create path0 kNtFileGenericRead w = (Some h, w1) /\
       sp_event w1 = (Some e, w2) /\ sp_read h BLOCK w2 = Some p /\ image p img /\
       given_path img path0 path /\ sp_env = Ok env /\ sp_create path (given_line img prog argv) env w3 = (Some hs, w')).
Proof.
  intros Hev Hat Hcr Hb. unfold ntspawn, ntspawn2.
  assert (Hstop : forall e w1, fh_open w1 = fh_open w -> exists r w', (mret (Err e) : M W (res (gset Z))) w1 = Some (r, w') /\
    hands_over w r w' /\ forall hs, r = Ok hs -> False) by (intros e w1 Ho; by exists (Err e), w1).
  assert (Herr : forall (m : M W (res (gset Z))) w1 (Q : gset Z -> W -> Prop),
    (exists r w', m w1 = Some (r, w') /\ hands_over w r w' /\ forall hs, r = Ok hs -> False) ->
    exists r w', m w1 = Some (r, w') /\ hands_over w r w' /\ forall hs, r = Ok hs -> Q hs w') by (intros m w1 Q (r & w' & ? & ? & Hf); exists r, w'; split_and!; [done|done|]; by intros hs ?%Hf).
  destruct (sp_path prog) as [path0 | e] eqn:Hp0; [| by apply Herr, Hstop].
  destruct (read_head_closes Hev path0 w) as (head & w1 & Hh & Ho). assert (Ho' : fh_open w1 = fh_open w) by (rewrite Ho; set_solver).
  rewrite (bind_run _ _ _ _ _ Hh). destruct head as [p | e]; [| by apply Herr, Hstop]. rewrite bind_reads.
  destruct (prepare cwd prog argv path0 p buf w1) as [[[[path [buf' i]] argv'] native] | e] eqn:Hp; [| by apply Herr, Hstop].
  apply prepare_spec in Hp as (img & Hc & Hpath & Hl & Hi & Hline); [| done].
  pose proof (whole_line native argv' buf' i ltac:(lia) ltac:(rewrite Hline; apply given_line_nonzero)) as Hw.
  destruct (place_args native argv' buf' i) as [out j]. destruct Hw as [_ Hw].
  destruct (Nat.leb_spec BLOCK j) as [| Hj]; [by apply Herr, Hstop |]. destruct sp_env as [env | e] eqn:Henv; [| by apply Herr, Hstop].
  rewrite Hw, Hline by lia. destruct (create_process_spec Hat Hcr path (given_line img prog argv) env w1) as (r & w' & Hrun & Hgive & Hmade).
  exists r, w'. split_and!; [done|unfold hands_over in *; by rewrite Ho' in Hgive|]. intros hs Hr.
  destruct (Hmade hs Hr) as [w3 Hw3]. destruct (read_head_ok _ _ _ _ Hh (image_nonempty _ _ Hc)) as (h & w1' & e & w2 & ? & ? & ?).
  by exists img, p, path0, path, env, h, w1', e, w2, w3.
Qed.
End started.

(** ** A small system *)

Module ToySpawn.
(** UTF-16, and UTF-8 read as its bytes. *)
Definition encode_utf16 (x : Z) : Z :=
  if (0 <? x) && (x <? 0x10000) then x
  else
    let y := x - 0x10000 in
    Z.lor (Z.lor 0xd800 (Z.land (Z.shiftr y 10) 0x3ff)) (Z.shiftl (Z.lor 0xdc00 (Z.land y 0x3ff)) 16).

Lemma encode_utf16_nonzero x : x <> 0 -> Z.land (encode_utf16 x) 0xFFFF <> 0.
Proof.
  intros Hx. unfold encode_utf16. case_match eqn:E.
  - change 0xFFFF with (Z.ones 16). rewrite Z.land_ones, Z.mod_small by lia. done.
  - intros He. apply (f_equal (fun z => Z.testbit z 15)) in He. by rewrite Z.land_spec, !Z.lor_spec in He.
Qed.

#[export] Instance encoders : Encoders := {
  CL_PATH_MAX := 1024;
  ThomPikeLen _ := 1%nat;
  ThomPikeByte b := b;
  ThomPikeMerge _ y := y;
  EncodeUtf16 := encode_utf16;
  mungentpath s := s;
  shim_drive_exists _ := false }.

(** One file, a script; the world is the set of open handles. *)
#[export] Instance system : SpawnHost (gset Z) := {
  sp_path s := if bool_decide (s = bytes "") then Err ENOENT else Ok s;
  sp_lasterror _ := 0;
  sp_event w := (Some (fresh w), {[fresh w]} ∪ w);
  sp_read _ n _ := Some (take n (bytes "#! /bin/sh -e" ++ [10] ++ bytes "exit"));
  sp_exists s _ := bool_decide (s = bytes "/bin/sh.exe");
  sp_fallback s := Some (s ++ bytes ".exe");
  sp_env := Ok [0; 0];
  sp_attributes w := (true, w);
  sp_create path line _ w :=
    if bool_decide (path = bytes "/bin/sh.exe") && bool_decide (line = bytes "/bin/sh -e ./s.sh a")
    then (Some {[fresh w]}, {[fresh w]} ∪ w) else (None, w);
  sp_fix_enotdir e _ _ := e }.
End ToySpawn.
Import FileCalls.Toy ToySpawn.

(** A script started by name; its interpreter is found under another suffix,
    and the process's handle is the caller's. *)
Lemma spawn_starts_what_it_says_witness :
  let run := ntspawn true (bytes "./s.sh") [bytes "s"; bytes "a"] (Some (replicate BLOCK 7)) (∅ : gset Z) in
  exists w', run = Some (Ok {[0]}, w') /\ fh_open w' = ({[0]} ∪ ∅ : gset Z).
Proof.
  intros run.
  destruct (@spawn_starts_what_it_says (gset Z) _ _ encoders encode_utf16_nonzero _ true (bytes "./s.sh") [bytes "s"; bytes "a"] (replicate BLOCK 7) (∅ : gset Z))
    as (r & w' & Hrun & Ho & _); [intros w; split; [apply is_fresh | done] | done | | by rewrite length_replicate |].
  - intros p l e w. unfold sp_create, system. destruct (_ && _); cbn; [|done].
    split; [|done]. apply disjoint_singleton_l, is_fresh.
  - assert (r = Ok {[0]}) as ->. { revert Hrun. vm_compute. congruence. }
    exists w'. split; [exact Hrun | exact (proj2 Ho)].
Defined.
