(* ===== verification/Startup.v ===== *)
(** * Identity and start-up: hostid.c, uname.c, getgroups.c, comm.c, umask.c,
    environ.c and cosmosdrive.c

    Small questions a program asks of its machine, and what the shim sets
    right before main. The theorems: the environment is compacted in place to
    its entries that have a name, in order; the drive of a rooted path is a
    letter, the first of three places that names one; the host's number is
    that of the four bytes on disk. *)
From S2P Require Import Prelude Host PfsText NtPath MkNtPath ExeSearch FileCalls.

(** ** hostid.c *)

(** [first] is what one read of four bytes from /etc/hostid gives, if it
    opens. *)
Definition gethostid (first : option (list Z)) : Z :=
  match first with
  | Some [b0; b1; b2; b3] => s32 (Z.lor (Z.lor (Z.lor b0 (Z.shiftl b1 8)) (Z.shiftl b2 16)) (Z.shiftl b3 24))
  | _ => s32 0
  end.

Definition sethostname linux raw (name len : Z) := linux_only linux raw "__NR_sethostname" [name; len; 0; 0; 0].

(** ** uname.c *)

(** The buffer is cleared before the host fills its part. *)
Definition shim_uname {A} (zero : A) (host : A -> res unit * A) (uts : A) : res unit * A := host zero.

(** ** getgroups.c *)

(** The answer, and what the shim itself stores in the list. *)
Definition shim_getgroups (host : res Z) (size : Z) (list : bool) (gid : Z) : res Z * option Z :=
  match host with
  | Ok n => (Ok n, None)
  | Err _ =>
      if size <? 0 then (Err EINVAL, None)
      else if size =? 0 then (Ok 1, None)
      else if negb list then (Err EFAULT, None)
      else (Ok 1, Some gid)
  end.

(** ** comm.c and umask.c *)

(** The name prctl is given, if it is called. *)
Definition comm_init (linux : bool) (exe : option cstr) : option cstr :=
  if negb linux then None
  else match exe with
       | None | Some [] => None
       | Some exe =>
           let base := match strrchr exe 47 with Some i => drop (i + 1) exe | None => exe end in
           if bool_decide (base = []) then None else Some base
       end.

Definition umask_init (windows : bool) (mask : Z) : Z := if windows then 18 else mask.

(** ** environ.c *)

Definition nameless (e : cstr) : bool := e.[0] =? 61.

(** The array of entries, NULL at its end; [in] and [out] walk over it. *)
Fixpoint compact (fuel i out : nat) (arr : list (option cstr)) : list (option cstr) :=
  match fuel, arr !! i with
  | S fuel, Some (Some e) =>
      if nameless e then compact fuel (S i) out arr else compact fuel (S i) (S out) (<[out := Some e]> arr)
  | _, _ => <[out := None]> arr
  end.

Definition environ_init (windows : bool) (env : option (list (option cstr))) : option (list (option cstr)) :=
  match env with
  | Some arr => if windows then Some (compact (length arr) 0 0 arr) else env
  | None => None
  end.

(** The entries a reader of the array finds. *)
Fixpoint entries (arr : list (option cstr)) : list cstr :=
  match arr with Some e :: arr => e :: entries arr | _ => [] end.

(** ** cosmosdrive.c *)

Definition drive_of (v : option (list Z)) : option Z :=
  match v with Some [d; 58] => if IsAlpha d then Some d else None | _ => None end.

(** [posix] is environ's value of COSMOSDRIVE, [nt] the environment block. *)
Definition shim_cosmos_drive (posix : option cstr) (nt : string -> option (list Z)) : Z :=
  match drive_of posix with
  | Some d => d
  | None =>
      match drive_of (nt "COSMOSDRIVE"%string) with
      | Some d => d
      | None => default 67 (drive_of (nt "SYSTEMDRIVE"%string))
      end
  end.

(** ** Lemmas *)

Lemma lor_shift a b n : 0 <= n -> 0 <= a < 2 ^ n -> Z.lor a (Z.shiftl b n) = a + 2 ^ n * b.
Proof.
  intros Hn Ha. assert (Hz : Z.land a (Z.shiftl b n) = 0).
  { apply Z.bits_inj'. intros i Hi. rewrite Z.land_spec, Z.bits_0. destruct (Z.lt_ge_cases i n).
    - by rewrite Z.shiftl_spec_low, andb_false_r.
    - rewrite <- (Z.mod_small a (2 ^ n)) by done. by rewrite Z.mod_pow2_bits_high. }
  rewrite <- Z.lxor_lor, <- Z.add_nocarry_lxor, Z.shiftl_mul_pow2 by done. lia.
Qed.

(** The host's number is what is on disk, least byte first and signed. *)
Lemma gethostid_le b0 b1 b2 b3 : 0 <= b0 < 256 -> 0 <= b1 < 256 -> 0 <= b2 < 256 -> 0 <= b3 < 256 ->
  gethostid (Some [b0; b1; b2; b3]) = s32 (b0 + 2 ^ 8 * b1 + 2 ^ 16 * b2 + 2 ^ 24 * b3).
Proof. intros. unfold gethostid. by rewrite (lor_shift b0 b1 8), (lor_shift _ b2 16), (lor_shift _ b3 24) by lia. Qed.

Lemma insert_front {A} (front : list A) x y rest : <[length front := y]> (front ++ x :: rest) = front ++ y :: rest.
Proof. induction front as [| a front IH]; [done |]. simpl. by rewrite IH. Qed.

Lemma entries_front front rest : entries (map Some front ++ None :: rest) = front.
Proof. induction front as [| a front IH]; [done |]. simpl. by rewrite IH. Qed.

(** [front] is kept already, [junk] lies between the two walkers. *)
Lemma compact_spec es tail : forall fuel front junk, (length es < fuel)%nat ->
  entries (compact fuel (length front + length junk) (length front) (map Some front ++ junk ++ map Some es ++ None :: tail)) =
  front ++ List.filter (fun e => negb (nameless e)) es.
Proof.
  induction es as [| e es IH]; intros fuel front junk Hf; (destruct fuel as [| fuel]; [simpl in Hf; lia |]).
  - assert (Hins : exists rest, <[length front := None]> (map Some front ++ junk ++ map Some [] ++ None :: tail) = map Some front ++ None :: rest).
    { rewrite <- (length_map Some front). destruct junk as [| j junk]; simpl; rewrite insert_front; by eexists. }
    destruct Hins as [rest Hins]. cbn [compact].
    rewrite lookup_app_r, length_map, lookup_app_r by (rewrite ?length_map; lia).
    replace (length front + length junk - length front - length junk)%nat with 0%nat by lia. simpl map. cbn [app lookup list_lookup].
    simpl map in Hins. cbn [app] in Hins. by rewrite Hins, entries_front, app_nil_r.
  - cbn [compact]. rewrite lookup_app_r, length_map, lookup_app_r by (rewrite ?length_map; lia).
    replace (length front + length junk - length front - length junk)%nat with 0%nat by lia.
    cbn [map app lookup list_lookup List.filter]. simpl in Hf. destruct (nameless e); cbn [negb].
    + specialize (IH fuel front (junk ++ [Some e]) ltac:(lia)). rewrite length_app, <- app_assoc in IH. cbn [app length] in IH.
      rewrite <- IH. do 2 f_equal. lia.
    + assert (Hx : exists x junk', junk ++ [Some e] = x :: junk' /\ length junk' = length junk) by
        (destruct junk as [| j junk]; [by exists (Some e), [] | exists j, (junk ++ [Some e]); rewrite length_app; simpl; split; [done | lia]]).
      destruct Hx as (x & junk' & Hx & Hl).
      replace (map Some front ++ junk ++ Some e :: map Some es ++ None :: tail) with (map Some front ++ x :: junk' ++ map Some es ++ None :: tail)
        by (change (Some e :: map Some es ++ None :: tail) with ([Some e] ++ map Some es ++ None :: tail); by rewrite (app_assoc junk), Hx).
      rewrite <- (length_map Some front) at 3. rewrite insert_front.
      specialize (IH fuel (front ++ [e]) junk' ltac:(lia)). rewrite map_app, length_app, <- !app_assoc in IH. cbn [map app length] in IH.
      rewrite <- IH. do 2 f_equal; lia.
Qed.

(** The environment keeps the entries with a name, in their order. *)
Lemma environ_keeps_named es tail :
  entries <$> environ_init true (Some (map Some es ++ None :: tail)) = Some (List.filter (fun e => negb (nameless e)) es).
Proof.
  simpl. f_equal. apply (compact_spec es tail _ [] []). rewrite length_app, length_map. simpl. lia.
Qed.

(** A rooted path's drive is always a letter. *)
Lemma cosmos_drive_is_letter posix nt : IsAlpha (shim_cosmos_drive posix nt) = true.
Proof.
  assert (Hd : forall v d, drive_of v = Some d -> IsAlpha d = true).
  { intros v d. unfold drive_of. repeat case_match; naive_solver. }
  unfold shim_cosmos_drive. destruct (drive_of posix) eqn:E; [by eapply Hd |].
  destruct (drive_of (nt "COSMOSDRIVE"%string)) eqn:E1; [by eapply Hd |].
  destruct (drive_of (nt "SYSTEMDRIVE"%string)) eqn:E2; [by eapply Hd | done].
Qed.
