(* ===== verification/ProcRoot.v ===== *)
(** * shim/procfs/core/tree.c: what the generators emit into, and the root of
    the files on disk

    A growing buffer that remembers when memory ran out, its memory cell by
    cell, the file written from
    it, and the per-process directory under the temporary one: chosen, emptied
    of what a process of the same number left, with the trees of the dead swept
    by age. The theorems: nothing is written outside the buffer's memory; a
    buffer that is not marked holds exactly what was emitted, in order,
    however often it grew, and a marked one a front of it;
    a file is written whole unless a write fails; removing a tree removes all
    of it; the sweep touches nothing that is not an old tree of this program. The
    paths of the files in a tree are taken to fit their 600 bytes. *)
From S2P Require Import Prelude PfsText ProcFs.

(** ** pfs_buf *)

(** The cells of p, cap of them, then n and oom. *)
Record pfs_buf := Buf { pb_mem : list Z; pb_n : nat; pb_oom : bool }.

Definition empty_buf : pfs_buf := Buf [] 0 false.
Definition pb_cap (b : pfs_buf) : Z := Z.of_nat (length (pb_mem b)).
(** What has been put: p[0..n). *)
Definition pb_data (b : pfs_buf) : list Z := take (pb_n b) (pb_mem b).

(** Bytes written from a position on; [None] outside the memory. *)
Definition store (mem : list Z) (pos : nat) (data : list Z) : option (list Z) :=
  if (pos + length data <=? length mem)%nat then Some (take pos mem ++ data ++ drop (pos + length data) mem) else None.

(** [while (cap < need) cap *= 2] *)
Fixpoint double_up (fuel : nat) (cap need : Z) : Z :=
  match fuel with
  | O => cap
  | S fuel => if cap <? need then double_up fuel (cap * 2) need else cap
  end.

(** Sizes have 64 bits. *)
Definition GROWTHS : nat := 64.

Section buffer.
(** Whether realloc has so much, and what its new cells hold. *)
Context (enough : Z -> bool) (garbage : nat -> Z).

Definition grown (mem : list Z) (cap : Z) : list Z :=
  mem ++ map garbage (seq (length mem) (Z.to_nat cap - length mem)).

Definition reserve (b : pfs_buf) (extra : Z) : pfs_buf :=
  if pb_oom b || (Z.of_nat (pb_n b) + extra <=? pb_cap b) then b
  else
    let cap := double_up GROWTHS (if pb_cap b =? 0 then 1024 else pb_cap b * 2) (Z.of_nat (pb_n b) + extra) in
    if enough cap then Buf (grown (pb_mem b) cap) (pb_n b) false else Buf (pb_mem b) (pb_n b) true.

Definition pfs_put (b : pfs_buf) (data : list Z) : option pfs_buf :=
  let b := reserve b (Z.of_nat (length data)) in
  if pb_oom b then Some b
  else (fun mem => Buf mem (pb_n b + length data) false) <$> store (pb_mem b) (pb_n b) data.

(** vsnprintf's answer for a text, an int: an error where it has none. *)
Definition printed (text : cstr) : Z := if Z.of_nat (length text) <? 2 ^ 31 then Z.of_nat (length text) else -1.

(** [text] is what the format makes; vsnprintf writes it with a NUL behind. *)
Definition pfs_printf (b : pfs_buf) (text : cstr) : option pfs_buf :=
  let need := printed text in
  if 0 <? need then
    let b := reserve b (need + 1) in
    if pb_oom b then Some b
    else (fun mem => Buf mem (pb_n b + Z.to_nat need) false) <$> store (pb_mem b) (pb_n b) (text ++ [0])
  else Some b.

Inductive emission := Put (data : list Z) | Printf (text : cstr).

Definition emitted (e : emission) : list Z := match e with Put d => d | Printf t => t end.
Definition run_emit (b : pfs_buf) (e : emission) : option pfs_buf :=
  match e with Put d => pfs_put b d | Printf t => pfs_printf b t end.

(** The calls of a generator, one after the other. *)
Fixpoint run_all (b : pfs_buf) (l : list emission) : option pfs_buf :=
  match l with
  | [] => Some b
  | e :: l => match run_emit b e with Some b => run_all b l | None => None end
  end.

(** A formatted text has a length vsnprintf can tell. *)
Definition tellable (e : emission) : Prop :=
  match e with Put _ => True | Printf text => Z.of_nat (length text) < 2 ^ 31 end.

(** ** Lemmas on the buffer *)

Definition buf_ok (b : pfs_buf) : Prop := (pb_n b <= length (pb_mem b))%nat.

Lemma store_spec mem pos data : (pos + length data <= length mem)%nat ->
  exists mem', store mem pos data = Some mem' /\ length mem' = length mem /\ take (pos + length data) mem' = take pos mem ++ data.
Proof.
  intros Hp. unfold store. rewrite (proj2 (Nat.leb_le _ _)) by done. eexists. split; [done|].
  split; [rewrite !length_app, length_take, length_drop; lia|].
  rewrite app_assoc. rewrite take_app_le by (rewrite length_app, length_take; lia).
  apply take_ge. rewrite length_app, length_take. lia.
Qed.

Lemma grow_enough fuel : forall cap need, 0 < cap -> need <= cap * 2 ^ Z.of_nat fuel -> need <= double_up fuel cap need.
Proof.
  induction fuel as [| fuel IH]; intros cap need Hc Hn; cbn [double_up]; [simpl in Hn; lia |].
  rewrite Nat2Z.inj_succ, Z.pow_succ_r in Hn by lia. destruct (Z.ltb_spec cap need); [apply IH; nia | lia].
Qed.

(** The loop leaves no more than twice what is needed. *)
Lemma grow_close fuel : forall cap need, double_up fuel cap need <= Z.max cap (2 * need).
Proof.
  induction fuel as [| fuel IH]; intros cap need; cbn [double_up]; [lia |].
  destruct (Z.ltb_spec cap need); [specialize (IH (cap * 2) need); lia | lia].
Qed.

Lemma reserve_spec b extra : 0 <= extra -> Z.of_nat (pb_n b) + extra < 2 ^ 62 -> buf_ok b ->
  let b' := reserve b extra in
  pb_n b' = pb_n b /\ pb_data b' = pb_data b /\ buf_ok b' /\ (pb_oom b = true -> b' = b) /\
  (pb_oom b' = false -> pb_oom b = false /\ Z.of_nat (pb_n b) + extra <= pb_cap b').
Proof.
  unfold buf_ok. intros He Hn Hc. cbv zeta. unfold reserve. destruct (pb_oom b) eqn:Ho; cbn [orb]; [split_and!; intros; first [done | congruence] |].
  destruct (Z.leb_spec (Z.of_nat (pb_n b) + extra) (pb_cap b)); [by split_and!; intros |].
  set (c0 := if pb_cap b =? 0 then 1024 else pb_cap b * 2).
  assert (Hc0 : 0 < c0) by (unfold c0, pb_cap in *; destruct (Z.eqb_spec (Z.of_nat (length (pb_mem b))) 0); lia).
  assert (H0 : Z.of_nat (pb_n b) + extra <= double_up GROWTHS c0 (Z.of_nat (pb_n b) + extra))
    by (apply grow_enough; [done | change (2 ^ Z.of_nat GROWTHS) with (2 ^ 64); nia]).
  revert H0. generalize (double_up GROWTHS c0 (Z.of_nat (pb_n b) + extra)). intros c1 Hc1.
  assert (Hl : length (grown (pb_mem b) c1) = Nat.max (length (pb_mem b)) (Z.to_nat c1))
    by (unfold grown; rewrite length_app, length_map, length_seq; lia).
  destruct (enough c1); cbn [pb_data pb_oom pb_n pb_mem]; [|split_and!; intros; first [done|congruence]].
  split_and!; try done; [|lia|intros _; split; [done|unfold pb_cap; cbn [pb_mem]; rewrite Hl; lia]].
  unfold pb_data. cbn [pb_n pb_mem]. unfold grown. by rewrite take_app_le by lia.
Qed.

(** Memory is reserved for [extra] cells and [data] written into them, the
    first [keep] of it counted. *)
Lemma append_spec b extra data keep : (keep <= length data)%nat -> Z.of_nat (length data) <= extra ->
  Z.of_nat (pb_n b) + extra < 2 ^ 62 -> buf_ok b ->
  let b1 := reserve b extra in
  exists b', (if pb_oom b1 then Some b1 else (fun mem => Buf mem (pb_n b1 + keep) false) <$> store (pb_mem b1) (pb_n b1) data) = Some b' /\
    buf_ok b' /\ (pb_oom b = true -> b' = b) /\
    (pb_oom b' = false -> pb_oom b = false /\ pb_data b' = pb_data b ++ take keep data) /\
    (pb_oom b' = true -> pb_data b' = pb_data b).
Proof.
  intros Hk Hd Hn Hc b1. destruct (reserve_spec b extra ltac:(lia) Hn Hc) as (Hn1 & Hdata & Hok & Hsame & Hroom). fold b1 in Hn1, Hdata, Hok, Hsame, Hroom.
  destruct (pb_oom b1) eqn:Ho.
  - exists b1. split_and!; try done; congruence.
  - destruct (Hroom eq_refl) as [Hob Hcap]. unfold pb_cap in Hcap. rewrite <- Hn1 in Hcap.
    destruct (store_spec (pb_mem b1) (pb_n b1) data ltac:(lia)) as (mem' & -> & Hl & Ht). cbn [fmap option_fmap option_map].
    eexists. split; [done|]. unfold buf_ok in *. cbn [pb_n pb_mem pb_oom]. split_and!; [lia|congruence| |done].
    intros _. split; [done|]. rewrite <- Hdata. unfold pb_data. cbn [pb_n pb_mem].
    replace (take (pb_n b1 + keep) mem') with (take (pb_n b1 + keep) (take (pb_n b1 + length data) mem'))
      by (rewrite take_take; f_equal; lia).
    rewrite Ht, take_app, length_take, take_take. f_equal; f_equal; lia.
Qed.

(** One call stays in the memory; all of its bytes are appended, or none and
    the mark is set for good. *)
Lemma emit_spec b e : buf_ok b -> tellable e -> Z.of_nat (pb_n b) + Z.of_nat (length (emitted e)) < 2 ^ 61 ->
  exists b', run_emit b e = Some b' /\ buf_ok b' /\ (pb_oom b = true -> b' = b) /\
  (pb_oom b' = false -> pb_oom b = false /\ pb_data b' = pb_data b ++ emitted e) /\
  (pb_oom b' = true -> pb_data b' = pb_data b).
Proof.
  intros Hok Htell Hn. destruct e as [data | text]; cbn [run_emit emitted tellable] in *.
  - destruct (append_spec b (Z.of_nat (length data)) data (length data)) as (b' & Hb & Hr); [done|lia|lia|done|].
    exists b'. split; [exact Hb|]. by rewrite take_ge in Hr by lia.
  - unfold pfs_printf, printed. rewrite (proj2 (Z.ltb_lt (Z.of_nat (length text)) (2 ^ 31)) Htell). cbv zeta. destruct (Z.ltb_spec 0 (Z.of_nat (length text))) as [Hp|Hp].
    + destruct (append_spec b (Z.of_nat (length text) + 1) (text ++ [0]) (length text)) as (b' & Hb & Hr);
        [rewrite length_app; lia|rewrite length_app; cbn [length]; lia|lia|done|].
      exists b'. rewrite Nat2Z.id. cbv zeta in Hb |- *. rewrite Hb. split; [done|]. by rewrite take_app_length in Hr.
    + destruct text; [|cbn [length] in Hp; lia]. exists b. rewrite app_nil_r. by split_and!.
Qed.

(** The bytes of a list of calls. *)
Definition all_emitted (l : list emission) : list Z := concat (map emitted l).

Lemma data_length b : buf_ok b -> length (pb_data b) = pb_n b.
Proof. unfold buf_ok, pb_data. intros. rewrite length_take. lia. Qed.

Lemma emits_spec l : forall b, buf_ok b -> Forall tellable l -> Z.of_nat (pb_n b) + Z.of_nat (length (all_emitted l)) < 2 ^ 61 ->
  exists b', run_all b l = Some b' /\ buf_ok b' /\
  (pb_oom b' = false -> pb_oom b = false /\ pb_data b' = pb_data b ++ all_emitted l) /\
  (pb_oom b' = true -> exists k, pb_data b' = pb_data b ++ all_emitted (take k l)) /\
  (pb_oom b = true -> b' = b).
Proof.
  induction l as [| e l IH]; intros b Hok Ht Hn; cbn [run_all].
  { exists b. split_and!; try done; intros; [by rewrite app_nil_r|exists 0%nat; by rewrite app_nil_r]. }
  inversion Ht as [|? ? Hte Htl]; subst.
  unfold all_emitted in Hn. cbn [map concat] in Hn. rewrite length_app in Hn. fold (all_emitted l) in Hn.
  destruct (emit_spec b e Hok Hte ltac:(lia)) as (b1 & -> & Hok1 & Hs & Hf & Hm).
  assert (Hn1 : Z.of_nat (pb_n b1) + Z.of_nat (length (all_emitted l)) < 2 ^ 61).
  { rewrite <- (data_length b1 Hok1). destruct (pb_oom b1) eqn:E; [rewrite (Hm eq_refl), data_length by done; lia |].
    destruct (Hf eq_refl) as [_ ->]. rewrite length_app, data_length by done. lia. }
  destruct (IH b1 Hok1 Htl Hn1) as (b' & Hrun & Hok' & IHf & IHt & IHs). exists b'. split; [done|]. split; [done|]. split_and!.
  - intros Ho. destruct (IHf Ho) as (Ho1 & Hd). destruct (Hf Ho1) as [Hob Hd1]. split; [done|].
    rewrite Hd, Hd1. unfold all_emitted. simpl. by rewrite <- app_assoc.
  - intros Ho. destruct (pb_oom b1) eqn:E.
    + exists 0%nat. rewrite (IHs eq_refl), (Hm eq_refl). by rewrite app_nil_r.
    + destruct (IHt Ho) as [k Hk]. destruct (Hf eq_refl) as [_ Hd1]. exists (S k). rewrite Hk, Hd1.
      unfold all_emitted. simpl. by rewrite <- app_assoc.
  - intros Ho. specialize (Hs Ho). subst b1. by apply IHs.
Qed.

(** While memory lasts nothing is marked. *)
Lemma emits_unmarked l : (forall c, enough c = true) -> forall b b', pb_oom b = false -> run_all b l = Some b' -> pb_oom b' = false.
Proof.
  intros He. assert (Hr : forall b extra, pb_oom b = false -> pb_oom (reserve b extra) = false)
    by (intros b extra Hb; unfold reserve; rewrite He; by case_match).
  induction l as [| e l IH]; intros b b' Hb; cbn [run_all]; [by intros [= <-] |].
  destruct (run_emit b e) as [b1|] eqn:E; [|done]. apply IH. revert E.
  destruct e; cbn [run_emit]; unfold pfs_put, pfs_printf; [|destruct (0 <? _); [|by intros [= <-]]]; rewrite Hr by done;
    destruct (store _ _ _); cbn; [by intros [= <-]|done..|by intros [= <-]|done].
Qed.
End buffer.

(** ** Files and trees on disk *)

(** The write loop of pc_write_file: how far it comes with these answers. *)
Fixpoint write_loop (answers : list Z) (n off : Z) : Z :=
  if off <? n then
    match answers with
    | r :: answers => if r <=? 0 then off else write_loop answers n (off + r)
    | [] => off
    end
  else off.

Definition pc_write_file (opens : bool) (answers : list Z) (data : list Z) : option (list Z) :=
  if negb opens then None else Some (take (Z.to_nat (write_loop answers (Z.of_nat (length data)) 0)) data).

Inductive tree_node := File | Folder (l : list (cstr * tree_node)).

Section tree.
(** What cannot be removed, by its path. *)
Context (stuck : cstr -> bool).

(** What is left of a tree. *)
Fixpoint pc_rm_rf (path : cstr) (n : tree_node) : option tree_node :=
  match n with
  | File => Some File
  | Folder l =>
      let fix children l :=
        match l with
        | [] => []
        | (name, c) :: l =>
            let sub := path ++ bytes "/" ++ name in
            match (match c with Folder _ => pc_rm_rf sub c | File => if stuck sub then Some File else None end) with
            | Some c => (name, c) :: children l
            | None => children l
            end
        end in
      let rest := children l in
      if bool_decide (length rest = 0%nat) && negb (stuck path) then None else Some (Folder rest)
  end.

Definition stale_secs : Z := 3600.
Definition PREFIX : cstr := bytes "rust-ape-proc-".

(** One entry of the temporary directory, with its time. *)
Definition sweep_entry (tmp root : cstr) (now : Z) (e : cstr * (tree_node * Z)) : option (cstr * (tree_node * Z)) :=
  let '(name, (n, mtime)) := e in
  let path := tmp ++ bytes "/" ++ name in
  if negb (bool_decide (take 14 name = PREFIX)) || (600 <=? length path)%nat || bool_decide (path = root) then Some e
  else match n with
       | File => Some e
       | Folder _ => if stale_secs <? now - mtime then (fun n => (name, (n, mtime))) <$> pc_rm_rf path n else Some e
       end.

Definition sweep_stale (tmp root : cstr) (now : Z) (l : list (cstr * (tree_node * Z))) : list (cstr * (tree_node * Z)) :=
  omap (sweep_entry tmp root now) l.
End tree.

(** The temporary directory: the first of the variables that is set, or what
    the system names. *)
Definition chosen_tmp (TMPDIR TEMP TMP system : option cstr) : option cstr :=
  let set v := match v with Some [] => None | v => v end in
  match set TMPDIR with
  | Some t => Some t
  | None => match set TEMP with
            | Some t => Some t
            | None => match set TMP with Some t => Some t | None => set system end
            end
  end.

(** Slashes at the end dropped, but for the first character. *)
Fixpoint no_end_slash (s : cstr) : cstr :=
  match s with
  | [] => []
  | c :: s => c :: (fix go s := match s with [] => [] | c :: s => match go s with [] => if c =? 47 then [] else [c] | r => c :: r end end) s
  end.

(** The root's path, when it fits. *)
Definition root_path (tmp : cstr) (pid : Z) : option cstr :=
  if (512 <=? length tmp)%nat then None
  else
    let root := no_end_slash tmp ++ bytes "/" ++ PREFIX ++ decimal pid in
    if (512 <=? length root)%nat then None else Some root.

(** The state: the root, once there is one, and the temporary directory. *)
Record rooted := Rooted { rt_root : option cstr; rt_tmp : list (cstr * (tree_node * Z)) }.

(** [mkdir] answers for the new directory. *)
Definition pc_ensure_root (stuck : cstr -> bool) (tmp : option cstr) (pid now : Z) (mkdir : res unit) (s : rooted) : bool * rooted :=
  match rt_root s with
  | Some _ => (true, s)
  | None =>
      match tmp ≫= (fun t => (fun r => (t, r)) <$> root_path t pid) with
      | None => (false, s)
      | Some (t, root) =>
          let own := PREFIX ++ decimal pid in
          let mine l := omap (fun e => if bool_decide (fst e = own) then (fun n => (fst e, (n, snd (snd e)))) <$> pc_rm_rf stuck root (fst (snd e)) else Some e) l in
          let l := sweep_stale stuck (no_end_slash t) root now (mine (rt_tmp s)) in
          match mkdir with
          | Err e => if bool_decide (e = EEXIST) then (true, Rooted (Some root) l) else (false, Rooted None l)
          | Ok _ => (true, Rooted (Some root) (l ++ [(own, (Folder [], now))]))
          end
      end
  end.

(** ** Lemmas on the tree *)

Lemma write_loop_whole answers n : forall off, Forall (fun r => 0 < r) answers -> n - off <= Z.of_nat (length answers) -> n <= write_loop answers n off.
Proof.
  induction answers as [| r answers IH]; intros off Hp Hn; cbn [write_loop].
  - simpl in Hn. by destruct (Z.ltb_spec off n); lia.
  - inversion Hp as [| ?? Hr Hp']. subst. destruct (Z.ltb_spec off n); [| lia].
    rewrite (proj2 (Z.leb_gt r 0)) by lia. apply IH; [done | cbn [length] in Hn; lia].
Qed.

(** A tree with nothing stuck in it is removed whole. *)
Lemma rm_rf_whole stuck : (forall p, stuck p = false) -> forall n path, n <> File -> pc_rm_rf stuck path n = None.
Proof.
  intros Hs. fix IH 1. intros [| l] path Hn; [done |]. cbn [pc_rm_rf].
  set (children := fix children l := match l with [] => [] | (name, c) :: l => _ end).
  assert (children l = []) as ->; [| simpl; by rewrite Hs].
  clear Hn. induction l as [| [name c] l IHl]; [done |]. pose proof (IH c (path ++ bytes "/" ++ name)) as Hc.
  cbn [children]. fold children. destruct c as [| l']; [by rewrite Hs | by rewrite Hc].
Qed.

Definition is_folder (n : tree_node) : bool := match n with Folder _ => true | File => false end.

(** An old tree of this program, not the process's own. *)
Definition stale (tmp root : cstr) (now : Z) (e : cstr * (tree_node * Z)) : bool :=
  let path := tmp ++ bytes "/" ++ fst e in
  bool_decide (take 14 (fst e) = PREFIX) && (length path <? 600)%nat && negb (bool_decide (path = root)) &&
  is_folder (fst (snd e)) && (stale_secs <? now - snd (snd e)).

(** Whatever cannot be removed, what is not stale stays as it is. *)
Lemma sweep_spares stuck tmp root now e : stale tmp root now e = false -> sweep_entry stuck tmp root now e = Some e.
Proof.
  destruct e as [name [n mtime]]. unfold stale, sweep_entry. cbn [fst snd].
  rewrite (Nat.ltb_antisym 600). destruct (bool_decide (take 14 name = PREFIX)), (600 <=? _)%nat, (bool_decide (_ = root)); try done.
  cbn [negb andb orb]. destruct n; [done |]. cbn [is_folder andb]. by intros ->.
Qed.

Lemma sweep_stale_filter stuck tmp root now l : (forall p, stuck p = false) ->
  sweep_stale stuck tmp root now l = List.filter (fun e => negb (stale tmp root now e)) l.
Proof.
  intros Hs. induction l as [| e l IH]; [done |]. unfold sweep_stale in *. cbn [omap list_omap List.filter].
  destruct (stale tmp root now e) eqn:He; [| by rewrite sweep_spares, IH by done]. cbn [negb]. rewrite <- IH.
  destruct e as [name [n mtime]]. unfold stale in He. cbn [fst snd] in He. rewrite !andb_true_iff in He.
  destruct He as [[[[Hp Hl] Hr] Hf] Ht]. unfold sweep_entry. rewrite Hp, Ht.
  rewrite (Nat.leb_antisym _ 600), Hl. apply negb_true_iff in Hr. rewrite Hr. cbn [negb orb].
  destruct n as [| ch]; [done |]. by rewrite rm_rf_whole.
Qed.

(** The root, once made, is new and empty, and the directory around it has
    lost the old trees and no other entry. *)
Lemma ensure_root_fresh tmp pid now l root : root_path tmp pid = Some root ->
  let own := PREFIX ++ decimal pid in
  let others := List.filter (fun e => negb (bool_decide (fst e = own))) l in
  Forall (fun e => fst e = own -> is_folder (fst (snd e)) = true) l ->
  pc_ensure_root (fun _ => false) (Some tmp) pid now (Ok tt) (Rooted None l) =
  (true, Rooted (Some root) (List.filter (fun e => negb (stale (no_end_slash tmp) root now e)) others ++ [(own, (Folder [], now))])).
Proof.
  intros Hroot own others Hf. unfold pc_ensure_root. cbn [rt_root rt_tmp]. simpl mbind. rewrite Hroot. cbn [fmap option_fmap option_map].
  fold own. rewrite sweep_stale_filter by done. do 3 f_equal. f_equal.
  unfold others. induction Hf as [| [name [n mtime]] l He _ IH]; [done |]. cbn [omap list_omap List.filter fst snd] in *.
  rewrite IH. case_bool_decide as Hn; [| done]. cbn [negb]. specialize (He Hn). destruct n as [| ch]; [done |].
  by rewrite rm_rf_whole.
Qed.

(** ** Properties *)

(** C39: what the generators emit reaches the reader whole, formatted texts
    being shorter than 2^31 bytes each and all of it less than 2^61. Nothing
    is written outside the buffer's memory, the NUL behind a formatted text
    included; a buffer that grew by doubling and is not marked holds all of
    it, in order, within its capacity; one that ran out of memory holds whole
    calls from the front and stays marked; with memory there is no mark; and
    the file made of the buffer has all of it when every write makes some
    progress. *)
Theorem emitted_text_is_whole enough garbage l answers :
  Forall tellable l -> Z.of_nat (length (all_emitted l)) < 2 ^ 61 ->
  Forall (fun r => 0 < r) answers -> (length (all_emitted l) <= length answers)%nat ->
  exists b, run_all enough garbage empty_buf l = Some b /\ Z.of_nat (pb_n b) <= pb_cap b /\
  (pb_oom b = false ->
     pb_data b = all_emitted l /\ pc_write_file true answers (pb_data b) = Some (all_emitted l)) /\
  (pb_oom b = true -> exists k, pb_data b = all_emitted (take k l)) /\
  ((forall c, enough c = true) -> pb_oom b = false).
Proof.
  intros Ht Hn Hp Ha. destruct (emits_spec enough garbage l empty_buf) as (b & Hrun & Hok & Hf & Hm & _); [by unfold buf_ok|done|exact Hn|].
  exists b. split; [done|]. split; [unfold buf_ok, pb_cap in *; lia|]. split; [| split; [exact Hm |]].
  - intros Ho. destruct (Hf Ho) as (_ & Hd). cbn in Hd. split; [done |].
    unfold pc_write_file. cbn [negb]. rewrite Hd. f_equal. apply take_ge.
    pose proof (write_loop_whole answers (Z.of_nat (length (all_emitted l))) 0 Hp). lia.
  - intros He. exact (emits_unmarked enough garbage l He empty_buf b eq_refl Hrun).
Qed.

(** 3000 bytes in three calls, written 100 at a time; the second needs the
    cell for its NUL. *)
Lemma emitted_text_is_whole_witness :
  let l := [Put (replicate 2000 65); Printf (replicate 999 66); Put [10]] in
  exists b, run_all (fun c => c <? 5000) (fun _ => 7) empty_buf l = Some b /\
    pb_oom b = false /\ pb_cap b = 4096 /\ pc_write_file true (replicate 3000 100) (pb_data b) = Some (all_emitted l).
Proof.
  intros l. destruct (emitted_text_is_whole (fun c => c <? 5000) (fun _ => 7) l (replicate 3000 100)) as (b & Hrun & _ & Hf & _).
  - repeat constructor.
  - vm_compute. done.
  - by apply Forall_replicate.
  - apply Nat.leb_le. vm_compute. done.
  - exists b. split; [exact Hrun|].
    assert (Ho : pb_oom b = false /\ pb_cap b = 4096) by (revert Hrun; vm_compute; intros [= <-]; done).
    destruct Ho as [Ho Hc]. split; [exact Ho|]. split; [exact Hc|]. by apply Hf.
Defined.

(** A text that is too long for an int is dropped, and the buffer is not
    marked. *)
Lemma endless_text_dropped enough garbage b text :
  2 ^ 31 <= Z.of_nat (length text) -> pfs_printf enough garbage b text = Some b.
Proof. intros Hl. unfold pfs_printf, printed. by rewrite (proj2 (Z.ltb_ge (Z.of_nat (length text)) (2 ^ 31)) Hl). Qed.
