(* ===== verification/XnuCalls.v ===== *)
(** * shim/procfs/xnuapi.c, the calls to macOS

    The entry points are looked up once in libSystem through the loader's
    table; an answer of another size than the structure's is none; text is
    copied up to the room there is; the two growing dumps are asked for again
    when they grew. What XnuNet.v and XnuProc.v take of the kernel is made
    here. The theorems: the look-up is done once and its outcome stays; a dump
    is the kernel's whole list of that moment; the link of any process's socket
    joins the row of the dump. *)
From S2P Require Import Prelude PfsText Fields SockOpt ProcFs NetTab XnuNet XnuProc.

(** ** The table *)

(** What the look-up reads: the loader's table with its version, the library,
    its symbols and mach_timebase_info. *)
Record syslib := Syslib {
  sl_silicon : bool; sl_version : option Z; sl_dlopen : bool; sl_dlsym : string -> bool; sl_timebase : option (Z * Z) }.

(** The state g: tried, ok, the symbols that are there, tb_numer and tb_denom. *)
Record entry_points := Entry { g_tried : bool; g_ok : bool; g_has : string -> bool; g_numer : Z; g_denom : Z }.

Definition no_entry : entry_points := Entry false false (fun _ => false) 0 0.

Definition init_locked (s : syslib) (g : entry_points) : bool * entry_points :=
  if g_tried g then (g_ok g, g)
  else
    let tried := Entry true (g_ok g) (g_has g) (g_numer g) (g_denom g) in
    if negb (sl_silicon s) || (match sl_version s with Some v => v <? 10 | None => true end) then (false, tried)
    else if negb (sl_dlopen s) then (false, tried)
    else
      let '(numer, denom) :=
        match sl_timebase s with
        | Some (n, d) => if sl_dlsym s "mach_timebase_info" && negb (d =? 0) then (n, d) else (1, 1)
        | None => (1, 1)
        end in
      let ok := sl_dlsym s "proc_listpids" && sl_dlsym s "proc_pidinfo" in
      (ok, Entry true ok (sl_dlsym s) numer denom).

Definition pfs_xnu_ready (s : syslib) (g : entry_points) : bool * entry_points := init_locked s g.

(** pfs_xnu_mach_ns *)
Definition mach_ns (s : syslib) (g : entry_points) (mach : Z) : Z :=
  let g := snd (pfs_xnu_ready s g) in (mach * g_numer g) mod 2 ^ 64 / g_denom g.

(** ** Answers of a size *)

Section calls.
Context (s : syslib) (g : entry_points).

Definition ready : bool := fst (pfs_xnu_ready s g).
Definition has_entry (name : string) : bool := g_has (snd (pfs_xnu_ready s g)) name.

(** proc_pidinfo: the number it answers and what it stored. *)
Definition whole {A} (size : Z) (answer : Z * A) : option A := if ready && (fst answer =? size) then Some (snd answer) else None.

Definition pfs_xnu_bsdinfo (size : Z) (answer : Z * bsdinfo) : option bsdinfo := whole size answer.
Definition pfs_xnu_taskinfo (size : Z) (answer : Z * taskinfo) : option taskinfo := whole size answer.
Definition pfs_xnu_rusage (answer : Z * diskio) : option diskio :=
  if ready && has_entry "proc_pid_rusage" && (fst answer =? 0) then Some (snd answer) else None.
Definition pfs_xnu_vmstat (answer : Z * vm_statistics) : option vm_statistics :=
  if ready && has_entry "host_statistics64" && has_entry "mach_host_self" && (fst answer =? 0) then Some (snd answer) else None.

(** proc_pidpath: how many bytes, and the bytes. *)
Definition pfs_xnu_pidpath (answer : Z * list Z) (n : nat) : option cstr :=
  if negb (ready && has_entry "proc_pidpath") || (fst answer <=? 0) then None
  else Some (take (Nat.min (Z.to_nat (fst answer)) n) (snd answer)).

(** The working directory and the path of a descriptor: text in a structure. *)
Definition pfs_xnu_cwd (size : Z) (answer : Z * list Z) (n : nat) : option cstr :=
  match whole size answer with
  | Some text => if bool_decide (upto_nul text = []) then None else Some (take n (upto_nul text))
  | None => None
  end.
Definition pfs_xnu_fdpath (size : Z) (answer : Z * list Z) (n : nat) : option cstr :=
  if negb (has_entry "proc_pidfdinfo") then None else (fun text => take n (upto_nul text)) <$> whole size answer.

(** Lists: the bytes stored, over the size of an item. *)
Definition counted {A} (size : Z) (answer : Z * list A) : list A :=
  if ready && (0 <? fst answer) then take (Z.to_nat (fst answer / size)) (snd answer) else [].
Definition pfs_xnu_threads (answer : Z * list Z) : list Z := counted 8 answer.
Definition pfs_xnu_listfds (answer : Z * list (Z * Z)) : list (Z * Z) := counted 8 answer.

(** host_processor_info: four counters for each processor. *)
Fixpoint cpu_states (n : nat) (info : list Z) : list cpu_ticks :=
  match n, info with
  | S n, user :: system :: idle :: nice :: info =>
      Ticks (user mod 2 ^ 32) (system mod 2 ^ 32) (idle mod 2 ^ 32) (nice mod 2 ^ 32) :: cpu_states n info
  | _, _ => []
  end.
Definition pfs_xnu_cpu_ticks (answer : option (nat * list Z)) (cap : nat) : list cpu_ticks :=
  if negb (ready && has_entry "host_processor_info" && has_entry "mach_host_self") then []
  else match answer with Some (ncpu, info) => cpu_states (Nat.min ncpu cap) info | None => [] end.

(** mach_vm_region_recurse, and the name of the file behind an address. *)
Definition pfs_xnu_region (answer : Z * xnu_region) : option xnu_region :=
  if ready && has_entry "mach_vm_region_recurse" && has_entry "mach_task_self_" && (fst answer =? 0) then Some (snd answer) else None.
Definition pfs_xnu_regionfile (answer : Z * list Z) : option cstr :=
  if ready && has_entry "proc_regionfilename" && (0 <? fst answer) then Some (take (Z.to_nat (fst answer)) (snd answer)) else None.

(** ** Sockets of any process *)

(** struct xnu_socket_fdinfo, as far as it is read. *)
Record socket_fdinfo := SocketInfo {
  soi_type : Z; soi_kind : Z; insi_fport : Z; insi_lport : Z; insi_vflag : Z; insi_faddr : list Z; insi_laddr : list Z }.

Definition XNU_SOCKINFO_IN : Z := 1.
Definition XNU_SOCKINFO_TCP : Z := 2.
Definition XNU_SOCK_DGRAM : Z := 2.

Definition pfs_xnu_fdsock (size : Z) (answer : Z * socket_fdinfo) : option sock_id :=
  if negb (ready && has_entry "proc_pidfdinfo") || (fst answer <? size) then None
  else
    let i := snd answer in
    if negb (soi_kind i =? XNU_SOCKINFO_IN) && negb (soi_kind i =? XNU_SOCKINFO_TCP) then None
    else
      let v6 := negb (Z.land (insi_vflag i) 2 =? 0) in
      let address a := if v6 then take 16 a else take 4 (drop 12 a) ++ replicate 12 0 in
      Some (SockId (if soi_type i =? XNU_SOCK_DGRAM then 1 else 0) (if v6 then 6 else 4)
              (bswap16 (insi_lport i mod 2 ^ 16)) (bswap16 (insi_fport i mod 2 ^ 16)) (address (insi_laddr i)) (address (insi_faddr i))).

(** ** Dumps *)

(** One try: the size the kernel names, if it does, and its list when it is
    fetched, which must fit a buffer a quarter larger. *)
Fixpoint dump_tries (tries : list (option Z * option (list Z))) : option (list Z) :=
  match tries with
  | [] => None
  | (None, _) :: _ => None
  | (Some n, fetched) :: tries =>
      if n =? 0 then None
      else match fetched with
           | Some data => if Z.of_nat (length data) <=? n + n / 4 then Some data else dump_tries tries
           | None => dump_tries tries
           end
  end.

(** pfs_xnu_iflist2 and pfs_xnu_pcblist: at most three. *)
Definition pfs_xnu_dump (tries : list (option Z * option (list Z))) : option (list Z) :=
  if negb ready then None else dump_tries (take 3 tries).

(** The size of the block of arguments is asked for once. *)
Definition raw_argmax (argmax : Z) (asked : option Z) : Z :=
  if negb (argmax =? 0) then argmax else match asked with Some n => if n <=? 0 then 256 * 1024 else n | None => 256 * 1024 end.
Definition pfs_xnu_procargs (argmax : Z) (asked : option Z) (fetch : Z -> option (list Z)) : option (list Z) * Z :=
  if negb ready then (None, argmax) else (fetch (raw_argmax argmax asked), raw_argmax argmax asked).

(** ** Facts that are kept *)

Definition pfs_xnu_boottime (boot : Z) (asked : option Z) : Z :=
  if negb (boot =? 0) then boot
  else match asked with Some sec => if ready && (0 <? sec) then sec else 0 | None => 0 end.
Definition pfs_xnu_pagesize (pg asked : Z) : Z := if negb (pg =? 0) then pg else if asked <=? 0 then 16384 else asked.
Definition pfs_xnu_hz (hz asked : Z) : Z := if negb (hz =? 0) then hz else if asked <=? 0 then 100 else asked.
Definition pfs_xnu_kernel_release (release : cstr) : cstr := if bool_decide (release = []) then bytes "0.0.0" else release.
End calls.

(** ** Once *)

(** The look-up's outcome, whatever the table says later. *)
Lemma ready_once s s' g : g_tried g = true \/ g_ok g = false ->
  let g' := snd (pfs_xnu_ready s g) in
  pfs_xnu_ready s' g' = (fst (pfs_xnu_ready s g), g').
Proof.
  intros Hg. cbv zeta. unfold pfs_xnu_ready, init_locked. destruct (g_tried g) eqn:Ht; [simpl; by rewrite Ht |].
  destruct Hg as [| Hok]; [done |]. destruct (_ || _); [simpl; by rewrite Hok |]. destruct (negb (sl_dlopen s)); [simpl; by rewrite Hok |].
  by destruct (match sl_timebase s with Some _ => _ | None => _ end).
Qed.

(** A dump is the kernel's list of one of the tries, never cut. *)
Lemma dump_whole tries data : dump_tries tries = Some data ->
  exists n, (Some n, Some data) ∈ tries /\ Z.of_nat (length data) <= n + n / 4.
Proof.
  induction tries as [| [[n |] fetched] tries IH]; [done | | done]. cbn [dump_tries]. case_match; [done |].
  destruct fetched as [l |].
  - destruct (Z.leb_spec (Z.of_nat (length l)) (n + n / 4)).
    + intros [= ->]. exists n. split; [by left | done].
    + intros Hd. destruct (IH Hd) as (m & Hm & Hl). exists m. split; [by right | done].
  - intros Hd. destruct (IH Hd) as (m & Hm & Hl). exists m. split; [by right | done].
Qed.

(** It is there when within three tries the list did not outgrow its buffer. *)
Lemma dump_found s g tries n data k : ready s g = true ->
  (forall i t, (i < 3)%nat -> tries !! i = Some t -> exists m, fst t = Some m /\ m <> 0) -> (k < 3)%nat ->
  tries !! k = Some (Some n, Some data) -> Z.of_nat (length data) <= n + n / 4 -> exists data', pfs_xnu_dump s g tries = Some data'.
Proof.
  intros Hr Hall Hk Hlook Hfit. unfold pfs_xnu_dump. rewrite Hr. cbn [negb].
  assert (Htry : take 3 tries !! k = Some (Some n, Some data)) by (by rewrite lookup_take_lt).
  assert (Hall' : forall i t, take 3 tries !! i = Some t -> exists m, fst t = Some m /\ m <> 0).
  { intros i t Ht. apply lookup_take_Some in Ht as [Ht Hi]. by eapply Hall. }
  clear -Htry Hall' Hfit. revert k Htry Hall'. generalize (take 3 tries). intros l.
  induction l as [| [sz fetched] l IH]; intros k Hk Hall; [done |].
  destruct (Hall 0%nat (sz, fetched) eq_refl) as (m & Hm & Hz). simpl in Hm. subst sz. cbn [dump_tries].
  rewrite (proj2 (Z.eqb_neq m 0)) by done. destruct k as [| k].
  - simpl in Hk. injection Hk as -> ->. rewrite (proj2 (Z.leb_le _ _)) by done. by eexists.
  - assert (Hrest : exists d, dump_tries l = Some d) by (apply (IH k Hk); intros i t Ht; exact (Hall (S i) t Ht)).
    destruct fetched as [d |]; [| done]. case_match; [by eexists | done].
Qed.

(** ** Sockets *)

(** The structure and a dump's record are about one socket. *)
Definition same_socket (tcp : bool) (rec : list Z) (i : socket_fdinfo) : Prop :=
  let inp := pcb_start tcp in
  soi_type i = (if tcp then 1 else 2) /\ soi_kind i = (if tcp then XNU_SOCKINFO_TCP else XNU_SOCKINFO_IN) /\
  insi_vflag i = rd 1 rec (inp + inp_vflag) /\
  insi_lport i mod 2 ^ 16 = rd 2 rec (inp + inp_lport) /\ insi_fport i mod 2 ^ 16 = rd 2 rec (inp + inp_fport) /\
  insi_laddr i = take 16 (drop (inp + inp_dependladdr) rec) /\ insi_faddr i = take 16 (drop (inp + inp_dependfaddr) rec).

Lemma rdc_is n l off x : rdc n l off = Some x -> x = rd n l off /\ (off + n <= length l)%nat.
Proof. unfold rdc. destruct (Nat.leb_spec (off + n) (length l)); [| done]. by intros [= <-]. Qed.

Lemma copyc_is n l off a : copyc n l off = Some a -> a = take n (drop off l) /\ (off + n <= length l)%nat.
Proof. unfold copyc. destruct (Nat.leb_spec (off + n) (length l)); [| done]. by intros [= <-]. Qed.

(** The address of either family, out of the sixteen bytes. *)
Lemma union_address (v6 : bool) rec off a :
  (if v6 then copyc 16 rec off else copyc 4 rec (off + 12)) = Some a ->
  addr16 (if v6 then 6 else 4) a = (if v6 then take 16 (take 16 (drop off rec)) else take 4 (drop 12 (take 16 (drop off rec))) ++ replicate 12 0).
Proof.
  destruct v6; intros Ha; apply copyc_is in Ha as [-> Hl]; unfold addr16; cbn [Z.eqb Pos.eqb].
  - change (16 - 16)%nat with 0%nat. simpl replicate. by rewrite app_nil_r.
  - by rewrite skipn_firstn_comm, drop_drop, !take_take.
Qed.

Section socket_links.
Context (s : syslib) (g : entry_points).

(** What the call makes of a socket is its row's. *)
Lemma fdsock_row size tcp v6 rec p n i :
  ready s g = true -> has_entry s g "proc_pidfdinfo" = true -> size <= n -> record_pcb tcp v6 rec = Some p -> same_socket tcp rec i ->
  pfs_xnu_fdsock s g size (n, i) =
    Some (SockId (r_proto (p_row p)) (r_family (p_row p)) (r_lport (p_row p)) (r_rport (p_row p)) (r_laddr (p_row p)) (r_raddr (p_row p)))
  /\ r_inode (p_row p) = pfs_net_inode (r_proto (p_row p)) (r_family (p_row p)) 0 (r_lport (p_row p)) (r_rport (p_row p)) (r_laddr (p_row p)) (r_raddr (p_row p)).
Proof.
  intros Hr Hh Hn Hrec (Ht & Hk & Hv & Hlp & Hfp & Hl & Hf). unfold record_pcb, read_pcb in Hrec.
  destruct (if tcp then _ else Some 7) as [st |]; [| done]. cbn [mbind option_bind] in Hrec.
  destruct (rdc 1 rec _) as [vflag |] eqn:Ev; [| done]. cbn [mbind option_bind] in Hrec. apply rdc_is in Ev as [-> _].
  case_bool_decide as H6; cbn [negb] in Hrec; [| done].
  destruct (rdc 2 rec (_ + inp_lport)) as [lp |] eqn:El; [| done]. apply rdc_is in El as [-> _]. cbn [mbind option_bind] in Hrec.
  destruct (rdc 2 rec (_ + inp_fport)) as [fp |] eqn:Ef; [| done]. apply rdc_is in Ef as [-> _]. cbn [mbind option_bind] in Hrec.
  destruct (if v6 then copyc 16 rec (_ + inp_dependladdr) else _) as [la |] eqn:Ela; [| done].
  destruct (if v6 then copyc 16 rec (_ + inp_dependfaddr) else _) as [fa |] eqn:Efa; [| done]. cbn [mbind option_bind] in Hrec.
  apply union_address in Ela, Efa. simpl plus in *.
  do 3 (match type of Hrec with context [rdc 4 rec ?o] => destruct (rdc 4 rec o); [| done] end; cbn [mbind option_bind] in Hrec).
  injection Hrec as <-. cbn [p_row r_proto r_family r_lport r_rport r_laddr r_raddr r_inode]. split; [| done].
  unfold pfs_xnu_fdsock. rewrite Hr, Hh, (proj2 (Z.ltb_ge _ _)) by done. cbn [fst snd andb negb orb].
  rewrite Hk, Ht, Hv, H6, Hlp, Hfp, Hl, Hf, <- Ela, <- Efa. by destruct tcp.
Qed.
End socket_links.

(** The link of a socket of any process names the inode of its row. *)
Lemma any_socket_joins_row `{FdHost, XnuFds} s g size tcp v6 rec p n i pid fd :
  ready s g = true -> has_entry s g "proc_pidfdinfo" = true -> size <= n -> record_pcb tcp v6 rec = Some p -> same_socket tcp rec i ->
  xnu_fdsock pid fd = pfs_xnu_fdsock s g size (n, i) ->
  other_socket_text pid fd = bytes "socket:[" ++ decimal (r_inode (p_row p)) ++ bytes "]".
Proof.
  intros Hr Hh Hn Hp Hs Hk. destruct (fdsock_row s g size tcp v6 rec p n i Hr Hh Hn Hp Hs) as [He Hi].
  unfold other_socket_text. rewrite Hk, He. cbn [si_proto si_family si_lport si_rport si_laddr si_raddr]. rewrite <- Hi.
  apply cut_fits. rewrite !length_app. pose proof (dec_length 20 (r_inode (p_row p))). unfold decimal.
  change (length (bytes "socket:[")) with 8%nat. change (length (bytes "]")) with 1%nat. lia.
Qed.

(** ** A small machine *)

Definition toy_syslib : syslib := Syslib true (Some 10) true (fun _ => true) (Some (125, 3)).

(** The listener of the toy dump, as any process holds it: the two ends agree,
    and 24 ticks are 1000 ns. *)
Example toy_listener :
  let i := SocketInfo 1 2 0 36895 1 (v4 [0; 0; 0; 0]) (v4 [127; 0; 0; 1]) in
  let rec := toy_tcp 524 (toy_pcb 8080 0 1 (v4 [0; 0; 0; 0]) (v4 [127; 0; 0; 1]) 0 0 501) 1 in
  same_socket true rec i /\ pfs_xnu_fdsock toy_syslib no_entry 500 (792, i) =
    Some (SockId 0 4 8080 0 ([127; 0; 0; 1] ++ replicate 12 0) (replicate 16 0)) /\ mach_ns toy_syslib no_entry 24 = 1000.
Proof. vm_compute. repeat split. Qed.

(** A list that grew between the two calls is asked for again. *)
Example toy_dump : pfs_xnu_dump toy_syslib no_entry [(Some 8, Some (replicate 11 1)); (Some 11, Some (replicate 11 1))] = Some (replicate 11 1).
Proof. reflexivity. Qed.
